(* ===== verification/_CoqProject ===== *)
-Q . S2P
Prelude.v
Vfs.v
Types.v
Util.v
Block.v
BlockView.v
BlockWrite.v
BlockWriteSpec.v
BlockRead.v
BlockStore.v
BlockProps.v
Options.v
OptionsProps.v
Readdir.v
ReaddirTree.v
ReaddirMerge.v
ReaddirProps.v
Under.v
Nlink.v
Fh.v
FhProps.v
Redirect.v
RedirectProps.v
Inode.v
InodeProps.v
Lookup.v
LookupProps.v
LookupMerge.v
Kernel.v
KernelProps.v
Work.v
CopyUp.v
WorkProps.v
CopyUpSteps.v
CopyUpStages.v
CopyUpProps.v
Dir.v
DirOps.v
DirSteps.v
DirParts.v
DirCreate.v
DirRemove.v
Rename.v
RenameProps.v
Attr.v
DirProps.v
Export.v
ExportSteps.v
ExportProps.v
Clean.v
MountState.v
Mount.v
MountInv.v
MountSteps.v
MountWork.v
MountLayers.v
MountStack.v
MountFill.v
MountProps.v
File.v
FileSteps.v
FileRun.v
FileStore.v
FileWorld.v
FileProps.v
Action.v
DirFile.v
DirFileRead.v
DirFileInv.v
DirFileRun.v
DirFileImpure.v
DirFileOps.v
DirFileCalls.v
DirFileProps.v
Async.v
AsyncInv.v
AsyncSteps.v
AsyncRead.v
AsyncWrite.v
AsyncProps.v
