(* ===== verification/Prelude.v ===== *)
(** * Overlay filesystem with lazy, block-granular copy-up

    A verification library for the overlay filesystem under src/: the Linux
    overlayfs of the 4.20/5.0 series in which a regular file is no longer
    copied to the upper layer when it is opened for writing, but block by block
    (4 KiB) when it is written.

    ** The program and its parts

    An overlay shows a stack of directories, at most one of them writable (the
    upper layer), as one tree.  The parts, and the files that model them:

    - Data (ovl_entry.h, overlayfs.h): [Types].  Inodes and dentries of the
      layers are records of the fields the overlay reads; a kernel object is
      identified by its pointer, a [Z].  [ovl_inode], [ovl_entry], [ovl_fs] and
      [ovl_config] are the structures of the same names; the block fields of
      struct ovl_inode are the record [ovl_blocks].
    - Accessors (util.c): [Util].  Stack, path type, flags, tests whether a
      dentry was copied up, in-use bits.
    - Lazy block copy-up (file.c block_read_iter and block_write_iter, copy_up.c
      ovl_copy_up_block and the set-up in ovl_copy_up_inode, util.c
      ovl_get_block): [Vfs] is the interface to file contents; [Block],
      [BlockRead], [BlockWrite] are the code; [BlockView], [BlockWriteSpec],
      [BlockStore] prove that a partly copied file is a plain file.
    - Mount options (super.c): [Options].
    - Directory reading (readdir.c): [Readdir]; [ReaddirTree] and
      [ReaddirMerge] verify the search tree and the spliced list of the cache.
    - File handles and the index (namei.c, copy_up.c): [Fh].  Bytes as they lie
      in the xattrs; every read of memory is bounds checked ([Fault]).
    - Persistent link counts (inode.c): [Nlink].
    - Redirects and the lookup of a path in one layer (namei.c, util.c, dir.c):
      [Redirect].
    - Overlay inodes (inode.c): [Inode]: stat, inode numbers, permission, xattr
      lists, the inode cache.
    - Lookup across the layers (namei.c ovl_lookup): [Lookup].
    - State-changing operations: [Kernel] is the monad they run in, [Work] the
      work directory, locks, credentials and write access (util.c, dir.c,
      overlayfs.h), [CopyUp] all of copy_up.c.
    - Directory operations (dir.c): [Dir] holds the overlay's dentries, the
      marks of directories, the link count start and end (util.c) and
      instantiation; [DirOps] creation, links and removal; [Rename] ovl_rename.
    - Attributes (inode.c, super.c): [Attr] holds setattr, the extended
      attributes with their handlers, ACLs, symbolic links, access times and
      extents.
    - NFS export (export.c): [Export] encodes handles, connecting a directory
      to its layer first, and decodes them through the caches, the index and
      the look-up of a connected dentry for a real one; that look-up may call
      itself once, in the upper layer ([lookup_real_levels] with two levels).
    - Mounting (super.c, readdir.c): [Clean] empties the work directory, checks
      the index and creates both directories; [MountState] is what a mount
      works on - [kst], the fields of struct ovl_fs only mounting uses, the
      super block, the traps in the inode cache, the in-use bits, the anonymous
      device numbers and a ledger of references - and its monad; [Mount] is
      ovl_fill_super and what it calls, down to ovl_free_fs.
    - File operations (file.c): [File] holds the table of open files, the
      references to real files and the operations on them, on top of [kst]; a
      request finds the real file of now (ovl_real_fdget) and works on it as the
      mounter, reads and writes through the block paths of [BlockStore].
    - Open directories (readdir.c): [DirFile] puts the table of open
      directories, the heap of caches, the cache of each inode and the
      references to real files around [kst]; it has the caches of merged and of
      impure directories, which are freed by hand, and every file operation of
      a directory.  It runs in [Action], a state monad over any state that can
      run a [kernel] computation on the part that is a [kst] ([zoom]).
    - Asynchronous reads and writes (file.c, super.c): [Async] has the table of
      requests, its spin locks, the fifo and the kernel thread ovl_block_copy.
      What runs under a spin lock is one step; between two steps of a read or a
      write other threads run, which are a parameter.  Nothing in the repository
      calls the two entry points.

    The components meet in the data they share.  Lookup builds dentry stacks
    ([ovl_entry]) and inodes from what [Redirect], [Fh] and [Inode] return;
    copy-up stores the origins, index entries, link counts and redirects that
    lookup later reads, and creates the block state on which reads and writes
    of a file work.

    ** Conventions

    A C function that can follow a wild pointer, index past an array or loop
    for ever returns an [outcome]: [Ret], [Fault] or [NoFuel].  A function that
    changes the underlying filesystems takes their state [W] and returns the
    new one.  Kernel functions that are not in the repository are members of
    classes over [W] - [Vfs] (file contents), [Under] (xattrs, names, handles),
    [Kern] (namespace changes, attributes, locks) - and what the code relies on
    is stated in their law classes ([VfsLaws], [UnderLaws], [KernLaws], ...),
    which leave errors, short counts and interruptions open.  [memfs] and
    [layers] are executable instances; the witnesses of the theorems run on
    them.  Integers are [Z] with their wrap-around written out ([u32], [u64]),
    C strings are [string]s without their terminating NUL.

    In [Kernel] a computation of type [kernel W A] works on the record [kst]:
    the layers, the overlay's dentries and inodes by pointer, and what the
    thread holds.  It faults on a [NULL] dereference, on a lock that is
    released but not held, and on a namespace change of a directory that is not
    locked.  [wp] is its weakest precondition; [quiet] steps change only the
    layers, [evolves] steps may also copy up ([KernelProps]).

    ** Theorems

    - [BlockProps]: a lazily copied file refines a plain file under any
      sequence of reads and writes, from the state that copy-up creates; over a
      failing kernel a write never touches bytes outside its range; and three
      theorems on where the code does not keep this (a read past the end that
      spins, an index past the block array, a short write that marks blocks it
      did not write).
    - [ReaddirProps]: what a merged directory lists, equivalence of the cache
      with its definition, the empty test, resuming at a position, inode
      numbers.
    - [LookupProps], [LookupMerge]: lookup terminates on every content of the
      layers within its stack, and finds what a union mount prescribes.
    - [RedirectProps], [FhProps], [Nlink]: round trips of what is stored in
      xattrs, memory safety of handles, the index.
    - [InodeProps]: inode numbers survive copy-up and are unique; the inode
      cache returns only inodes that fit the dentry.
    - [OptionsProps]: the option parser.
    - [CopyUpProps] (built on [WorkProps], [CopyUpSteps], [CopyUpStages]):
      copy-up returns whatever the kernel answers, gives back locks,
      credentials and write access, is all or nothing, and on success the
      dentry needs no more copy-up; two error paths that break a convention.
    - [DirProps] (built on [DirSteps], [DirParts], [DirCreate], [DirRemove],
      [RenameProps]): every directory request, on any error
      path, comes to an end, gives back what the thread held and leaves a
      well-formed overlay; what success of a creation, a link and a removal
      means; a rename shows the moved object under the new name only.  The
      proofs compose from one judgment, [achieves N M st m Q]: from any state
      that extends [st] ([extends]: names, parents, lower layers, upper dentries
      are kept, and what [N] does not claim is frozen) the step [m] returns in
      such a state with [Q].
    - [ExportProps] (built on [ExportSteps]): an encoded handle
      fits its buffer and passes the checks of decoding, and leads back to its
      dentry.
    - [MountProps] (built on [Clean], [MountInv], [MountSteps], [MountWork],
      [MountLayers], [MountStack], [MountFill]): mounting returns
      whatever the options are and whatever fails; a failed mount gives back
      what it took (all but one trap, a leak of the code); a successful one
      establishes the invariant [ok] of the directory operations, has layers
      that do not overlap and are told apart by their file system ids, and
      consistent features.  The invariant [minv] says at every step which
      references, in-use bits, device numbers and traps struct ovl_fs owns;
      [later] says that what is set stays and features only get lost.
    - [FileProps] (built on [FileSteps], [FileRun], [FileStore]): every request
      on an open file is answered and gives back what was taken for it; only the
      upper file is ever changed; a successful open leads to the data of now, in
      the upper layer if it was for writing; and through the whole of
      ovl_read_iter and ovl_write_iter a lazily copied file is a plain file.
      One set of lemmas, relative to a relation on the underlying files
      ([FileRel]), gives the first two.  [FileWorld] puts contents and open
      files beside [layers], so that opening, copying up, writing and reading
      run as one example.
    - [DirFileProps] (built on [DirFileRead], [DirFileInv], [DirFileRun],
      [DirFileImpure], [DirFileOps], [DirFileCalls]): the steps [dstep] are the
      calls on directories, the requests of [DirProps] and an fsync with any
      other steps in its middle.  In every state they lead to, reference counts
      are right, nothing freed is pointed to, nothing is leaked and every call
      returns; and who reads a merged directory to its end, in pieces and with
      any steps in between, sees each name of one moment once.  The invariant
      [dinv] takes the position of each open file ([posof]: its f_pos, or that
      of the read under way) and what is known of the listing it holds
      ([shows]) as parameters.
    - [AsyncProps] (built on [AsyncInv], [AsyncSteps], [AsyncRead],
      [AsyncWrite]): with the copy thread at work at every point between the
      critical sections, files that are read and written asynchronously are
      plain files, and the thread copies what is queued.  The invariant [ainv]
      holds for a view of each file ([fview]): what it shows, how far that is
      claimed - the bytes of a write under way are not - and what is in the
      upper file ahead of the marks.  [Bystanders] is the promise of the other
      threads, which the copy thread keeps ([settles]).  The theorem takes
      requests that pass the tests of [call_fits]; two examples show data lost
      without them.

    ** Fuel

    Loops that are not structural take a [nat]; the theorems prove that enough
    fuel gives [Ret], with an explicit bound: the requested bytes for
    [block_read_iter] and [block_write_iter] and their asynchronous forms, the
    calls of kthread_should_stop for ovl_block_copy, the length of the name for the
    walk over a path, the length of the option string ([opt_fuel]), the length
    of the xattr list, twice the depth of the tree for the copy-up of the
    parents ([can_copy]).  [copy_value] needs three rounds because the second
    call of vfs_getxattr has a buffer of the size the first reported.
    [cleanup_rounds] is three because the work directory is cleaned two levels
    deep; the walk of ovl_check_layer is given as many steps as a real path is
    deep ([bounded]).

    ** Not modelled

    Memory barriers and RCU, and reference counts outside of mounting, of real
    files and of the caches of directories; the debug output of file.c and its
    translation of I/O flags, which the interface to reads and writes does not
    have; d_real, revalidation
    and statfs (super.c).  They are listed with their reasons in the manifest.
    The code after the unconditional return of ovl_copy_up_data is unreachable
    and left out.  Calls of the kernel that come back into the overlay -
    file_remove_privs and touch_atime on an overlay file, vfs_getattr and
    lookup_one_len on an overlay directory that is read - are taken as calls
    that change the layers and the dentry cache only; the operations they come
    back to are in [Attr], [Inode] and [Lookup].  WARN_ON_ONCE on a device
    number is left out.  A directory operation runs alone: of other threads
    [Dir] only models the alias that d_splice_alias or the inode cache may have
    found first ([racing_alias]), and [DirFile] what happens in an fsync before
    it takes the lock; a mount runs alone on its new super block.  Of the
    threads that may work on a file asynchronously at once the theorems take
    one request and the copy thread.  Also left out are ovl_meta_save, whose
    thread is never started, releasing inodes and dentries, the entry points of
    the module (super.c), and the meta file of util.c, which is never opened.
*)

From Stdlib Require Export ZArith Lia.
From Stdlib Require Export Strings.Byte.
From stdpp Require Export base tactics numbers option list gmap strings.

#[global] Open Scope Z_scope.

Ltac Zify.zify_post_hook ::= Z.div_mod_to_equations.

(** ** Outcomes of C code

    [Ret a]   the code returns [a];
    [Fault]   the code reads or writes memory it does not own (an array index
              out of bounds, a dereferenced [NULL] or [ERR_PTR]);
    [NoFuel]  the bound on loop iterations was exhausted. *)

Inductive outcome (A : Type) : Type :=
| Ret (a : A)
| Fault
| NoFuel.
Arguments Ret {A} a.
Arguments Fault {A}.
Arguments NoFuel {A}.

#[export] Instance outcome_ret : MRet outcome := @Ret.
#[export] Instance outcome_bind : MBind outcome := λ A B f m,
  match m with Ret a => f a | Fault => Fault | NoFuel => NoFuel end.

Lemma outcome_bind_Ret {A B} (m : outcome A) (f : A → outcome B) (b : B) :
  (m ≫= f) = Ret b ↔ ∃ a, m = Ret a ∧ f a = Ret b.
Proof.
  destruct m as [a| |]; cbn; split; try done.
  - intros. by exists a.
  - by intros (? & [= <-] & ?).
  - by intros (? & ? & ?).
  - by intros (? & ? & ?).
Qed.

(** ** Machine integers and error pointers *)

Definition two64 : Z := 18446744073709551616.
Definition u64 (z : Z) : Z := z mod two64.
Definition s64 (z : Z) : Z := (z + 2 ^ 63) mod two64 - 2 ^ 63.
Definition u32 (z : Z) : Z := z mod 4294967296.

(** [ERR_PTR], [IS_ERR], [PTR_ERR] of linux/err.h: an error pointer is the
    errno itself, and the NULL pointer is 0. *)
Definition IS_ERR (p : Z) : bool := bool_decide (-4095 ≤ p ∧ p < 0).
Definition PTR_ERR (p : Z) : Z := p.
Definition NULL : Z := 0.
Definition IS_ERR_OR_NULL (p : Z) : bool := bool_decide (p = NULL) || IS_ERR p.
Definition PTR_ERR_OR_ZERO (p : Z) : Z := if IS_ERR p then p else 0.

(** A pointer the code may dereference. *)
Definition ptr_ok (p : Z) : bool := bool_decide (0 < p).

Lemma u64_small z : 0 ≤ z < two64 → u64 z = z.
Proof. intros. unfold u64. apply Z.mod_small. done. Qed.

Lemma IS_ERR_spec p : IS_ERR p = true ↔ -4095 ≤ p ∧ p < 0.
Proof. unfold IS_ERR. rewrite bool_decide_eq_true. done. Qed.

Lemma IS_ERR_pos p : 0 < p → IS_ERR p = false.
Proof. intros. unfold IS_ERR. apply bool_decide_eq_false. lia. Qed.

Lemma ptr_ok_pos p : ptr_ok p = true ↔ 0 < p.
Proof. unfold ptr_ok. apply bool_decide_eq_true. Qed.

(** Error numbers (uapi/asm-generic/errno-base.h and errno.h). *)
Definition EPERM := 1.
Definition ENOENT := 2.
Definition EINTR := 4.
Definition EIO := 5.
Definition ECHILD := 10.
Definition ENOMEM := 12.
Definition EACCES := 13.
Definition EFAULT := 14.
Definition EBUSY := 16.
Definition EEXIST := 17.
Definition EXDEV := 18.
Definition ENODEV := 19.
Definition ENOTDIR := 20.
Definition EINVAL := 22.
Definition ENOTTY := 25.
Definition ETXTBSY := 26.
Definition EROFS := 30.
Definition ERANGE := 34.
Definition ENAMETOOLONG := 36.
Definition ENOTEMPTY := 39.
Definition ELOOP := 40.
Definition ENODATA := 61.
Definition EREMOTE := 66.
Definition EOVERFLOW := 75.
Definition EOPNOTSUPP := 95.
Definition ESTALE := 116.
Definition ENOIOCTLCMD := 515.

(** ** Byte strings indexed by [Z] *)

Definition zlen {A} (l : list A) : Z := Z.of_nat (length l).
Definition ztake {A} (n : Z) (l : list A) : list A := take (Z.to_nat n) l.
Definition zdrop {A} (n : Z) (l : list A) : list A := drop (Z.to_nat n) l.

(** [zget l i] is [l[i]] when the index is inside the array. *)
Definition zget {A} (l : list A) (i : Z) : option A :=
  if decide (0 ≤ i) then l !! Z.to_nat i else None.

(** The bytes [[pos, pos+n)] of a file, as far as the file goes. *)
Definition zslice {A} (l : list A) (pos n : Z) : list A := ztake n (zdrop pos l).

(** Contents of a file after [d] was written at [pos]: a write past the end
    leaves a hole that reads as zeroes. *)
Definition fwrite (c : list byte) (pos : Z) (d : list byte) : list byte :=
  match d with
  | [] => c
  | _ => ztake pos c ++ replicate (Z.to_nat (pos - zlen c)) x00 ++ d ++ zdrop (pos + zlen d) c
  end.

Lemma zlen_nonneg {A} (l : list A) : 0 ≤ zlen l.
Proof. unfold zlen. lia. Qed.

Lemma zlen_app {A} (l1 l2 : list A) : zlen (l1 ++ l2) = zlen l1 + zlen l2.
Proof. unfold zlen. rewrite length_app. lia. Qed.

Lemma zlen_ztake {A} n (l : list A) : 0 ≤ n → zlen (ztake n l) = Z.min n (zlen l).
Proof. intros. unfold zlen, ztake. rewrite length_take. lia. Qed.

Lemma zlen_zdrop {A} n (l : list A) : 0 ≤ n → zlen (zdrop n l) = Z.max 0 (zlen l - n).
Proof. intros. unfold zlen, zdrop. rewrite length_drop. lia. Qed.

Lemma zlen_zslice {A} (l : list A) pos n :
  0 ≤ pos → 0 ≤ n → zlen (zslice l pos n) = Z.min n (Z.max 0 (zlen l - pos)).
Proof. intros. unfold zslice. rewrite zlen_ztake, zlen_zdrop by lia. done. Qed.

Lemma zget_Some_bound {A} (l : list A) i x : zget l i = Some x → 0 ≤ i < zlen l.
Proof.
  unfold zget, zlen. case_decide; [|done]. intros ?%lookup_lt_Some. lia.
Qed.

Lemma zget_is_Some {A} (l : list A) i : 0 ≤ i < zlen l → is_Some (zget l i).
Proof.
  unfold zget, zlen. intros. rewrite decide_True by lia.
  apply lookup_lt_is_Some. lia.
Qed.

Lemma zget_None {A} (l : list A) i : zlen l ≤ i → zget l i = None.
Proof.
  unfold zget, zlen. intros. case_decide; [|done].
  apply lookup_ge_None. lia.
Qed.

Lemma zget_neg {A} (l : list A) i : i < 0 → zget l i = None.
Proof. unfold zget. intros. rewrite decide_False by lia. done. Qed.

Lemma zget_app {A} (l1 l2 : list A) i :
  zget (l1 ++ l2) i = if decide (i < zlen l1) then zget l1 i else zget l2 (i - zlen l1).
Proof.
  unfold zget, zlen. repeat case_decide; try done; try lia.
  - apply lookup_app_l. lia.
  - rewrite lookup_app_r by lia. f_equal. lia.
Qed.

Lemma zget_ztake {A} n (l : list A) i :
  zget (ztake n l) i = if decide (i < n) then zget l i else None.
Proof.
  unfold zget, ztake. repeat case_decide; try done.
  - rewrite lookup_take_lt by lia. done.
  - rewrite lookup_take_ge by lia. done.
Qed.

Lemma zget_zdrop {A} n (l : list A) i :
  0 ≤ n → 0 ≤ i → zget (zdrop n l) i = zget l (n + i).
Proof.
  intros. unfold zget, zdrop. rewrite !decide_True by lia.
  rewrite lookup_drop. f_equal. lia.
Qed.

Lemma zget_zslice {A} (l : list A) pos n i :
  0 ≤ pos → 0 ≤ i < n → zget (zslice l pos n) i = zget l (pos + i).
Proof.
  intros. unfold zslice. rewrite zget_ztake, decide_True by lia.
  apply zget_zdrop; lia.
Qed.

Lemma zget_replicate {A} n (x : A) i :
  0 ≤ i < Z.of_nat n → zget (replicate n x) i = Some x.
Proof.
  intros. unfold zget. rewrite decide_True by lia. apply lookup_replicate. split; [done|lia].
Qed.

Lemma zlen_fwrite c pos d :
  0 ≤ pos → 0 < zlen d → zlen (fwrite c pos d) = Z.max (zlen c) (pos + zlen d).
Proof.
  intros Hpos Hd. unfold fwrite. destruct d as [|x d]; [done|].
  rewrite !zlen_app, zlen_ztake, zlen_zdrop by lia.
  unfold zlen at 2. rewrite length_replicate. lia.
Qed.

(** Reading back what a write did, byte by byte. *)
Lemma zget_fwrite c pos d i :
  0 ≤ pos → 0 < zlen d →
  zget (fwrite c pos d) i =
    if decide (pos ≤ i < pos + zlen d) then zget d (i - pos)
    else if decide (zlen c ≤ i < pos) then Some x00
    else zget c i.
Proof.
  intros Hpos Hd. pose proof (zlen_nonneg c).
  unfold fwrite. destruct d as [|y d]; [done|].
  rewrite !zget_app, zlen_ztake by lia.
  assert (zlen (replicate (Z.to_nat (pos - zlen c)) x00) = Z.max 0 (pos - zlen c)) as Hr
    by (unfold zlen at 1; rewrite length_replicate; lia).
  rewrite Hr. repeat case_decide; try lia.
  all: try (rewrite zget_ztake, decide_True by lia; done).
  all: try (apply zget_replicate; lia).
  all: try (f_equal; lia).
  rewrite zget_zdrop by lia. f_equal. lia.
Qed.

Lemma zlist_ext {A} (l1 l2 : list A) :
  (∀ i, 0 ≤ i → zget l1 i = zget l2 i) → l1 = l2.
Proof.
  intros H. apply list_eq. intros i. specialize (H (Z.of_nat i) ltac:(lia)).
  unfold zget in H. rewrite !decide_True in H by lia. by rewrite Nat2Z.id in H.
Qed.

(** Storing into an array: [None] when the index is out of bounds. *)
Definition zset {A} (l : list A) (i : Z) (x : A) : option (list A) :=
  if decide (0 ≤ i < zlen l) then Some (<[Z.to_nat i := x]> l) else None.

Lemma zset_Some {A} (l l' : list A) i x :
  zset l i x = Some l' → 0 ≤ i < zlen l ∧ l' = <[Z.to_nat i := x]> l.
Proof. unfold zset. case_decide; [|done]. by intros [= <-]. Qed.

Lemma zlen_insert {A} (l : list A) i x : zlen (<[i := x]> l) = zlen l.
Proof. unfold zlen. by rewrite length_insert. Qed.

Lemma zget_insert {A} (l : list A) i j x :
  0 ≤ i < zlen l →
  zget (<[Z.to_nat i := x]> l) j = if decide (i = j) then Some x else zget l j.
Proof.
  unfold zlen, zget. intros. repeat case_decide; subst; try done; try lia.
  - apply list_lookup_insert_eq. lia.
  - rewrite list_lookup_insert_ne by lia. done.
Qed.

(** ** Strings *)

Lemma sapp_nil (s : string) : EmptyString +:+ s = s.
Proof. done. Qed.
Lemma sapp_cons c (s t : string) : String c s +:+ t = String c (s +:+ t).
Proof. done. Qed.
Lemma sapp_nil_r (s : string) : s +:+ EmptyString = s.
Proof. induction s as [|c s IH]; [done|]. by rewrite sapp_cons, IH. Qed.
Lemma sapp_assoc (a b c : string) : (a +:+ b) +:+ c = a +:+ (b +:+ c).
Proof. induction a as [|x a IH]; [done|]. by rewrite !sapp_cons, IH. Qed.
Lemma slen_app (a b : string) : String.length (a +:+ b) = (String.length a + String.length b)%nat.
Proof. induction a as [|c a IH]; [done|]. rewrite sapp_cons. cbn. by rewrite IH. Qed.

(** A C string has no NUL inside. *)
Definition NUL : Ascii.ascii := Ascii.zero.
Fixpoint no_nul (s : string) : Prop :=
  match s with EmptyString => True | String c s => c ≠ NUL ∧ no_nul s end.

(** ** Automation *)

(** Case analysis on the boolean tests of the model. *)
Ltac bdestruct :=
  repeat match goal with
  | H : bool_decide _ = true |- _ => apply bool_decide_eq_true in H
  | H : bool_decide _ = false |- _ => apply bool_decide_eq_false in H
  | H : negb _ = true |- _ => apply negb_true_iff in H
  | H : negb _ = false |- _ => apply negb_false_iff in H
  | H : _ && _ = true |- _ => apply andb_true_iff in H; destruct H
  | H : _ || _ = false |- _ => apply orb_false_iff in H; destruct H
  end.

(** Unfold one bind of an [outcome] computation known to return. *)
Ltac inv_outcome :=
  repeat match goal with
  | H : (_ ≫= _) = Ret _ |- _ =>
      let a := fresh "a" in let Ha := fresh "Ha" in
      apply outcome_bind_Ret in H; destruct H as (a & Ha & H)
  | H : Ret _ = Ret _ |- _ => injection H as H; subst
  | H : Fault = Ret _ |- _ => discriminate H
  | H : NoFuel = Ret _ |- _ => discriminate H
  end.

Create HintDb ovl.
#[export] Hint Resolve zlen_nonneg IS_ERR_pos : ovl.
