(* ===== verification/Vfs.v ===== *)
(** The virtual filesystem layer below the overlay: file contents and the
    kernel's I/O entry points the overlay calls ([vfs_iter_read],
    [vfs_iter_write], [do_clone_file_range], [do_splice_direct],
    [dentry_open]).  None of that code is in the repository, so it is an
    interface: the class [Vfs] names the operations, [VfsLaws] states their
    documented behaviour (short reads and writes and errors included) and
    [VfsReliable] the case where no operation fails.  [memfs] is an executable
    instance of all three. *)

From S2P Require Import Prelude.

Class Vfs (W : Type) : Type := {
  (** observations *)
  vfs_isopen : W → Z → bool;            (* is this pointer an open struct file *)
  vfs_inode : W → Z → Z;                (* file_inode(file) *)
  vfs_append : W → Z → bool;            (* file->f_flags & O_APPEND *)
  vfs_dinode : W → Z → Z;               (* d_inode(dentry) *)
  vfs_bytes : W → Z → list byte;        (* contents of an inode *)
  (** operations *)
  dentry_open : W → Z → Z → Z * W;     (* dentry, flags *)
  vfs_iter_read : W → Z → Z → Z → Z * list byte * W;
  vfs_iter_write : W → Z → Z → list byte → Z * Z * W;
  do_clone_file_range : W → Z → Z → Z → Z → Z → Z * W;
  do_splice_direct : W → Z → Z → Z → Z → Z → Z * W;
  signal_pending : W → bool * W;
}.

(** [i_size_read(file_inode(file))] *)
Definition i_size {W} `{Vfs W} (w : W) (f : Z) : Z := zlen (vfs_bytes w (vfs_inode w f)).

(** What every operation leaves alone: open files stay open on the same inode. *)
Record vfs_frame {W} `{Vfs W} (w w' : W) : Prop := {
  frame_open f : vfs_isopen w f = true → vfs_isopen w' f = true;
  frame_inode f : vfs_isopen w f = true → vfs_inode w' f = vfs_inode w f;
  frame_append f : vfs_isopen w f = true → vfs_append w' f = vfs_append w f;
  frame_dinode d : vfs_dinode w' d = vfs_dinode w d;
}.

Definition same_bytes {W} `{Vfs W} (w w' : W) : Prop :=
  ∀ i, vfs_bytes w' i = vfs_bytes w i.

(** Only the contents of inode [t] changed, and they are now [c]. *)
Definition set_bytes {W} `{Vfs W} (w w' : W) (t : Z) (c : list byte) : Prop :=
  vfs_bytes w' t = c ∧ ∀ i, i ≠ t → vfs_bytes w' i = vfs_bytes w i.

(** Documented behaviour, short counts and errors included. *)
Class VfsLaws (W : Type) `{Vfs W} : Prop := {
  law_open w d fl r w' :
    dentry_open w d fl = (r, w') →
    vfs_frame w w' ∧ same_bytes w w' ∧ (0 < r ∨ IS_ERR r = true) ∧
    (0 < r → vfs_isopen w' r = true ∧ vfs_inode w' r = vfs_dinode w d);
  law_read w f p n r d w' :
    vfs_iter_read w f p n = (r, d, w') → 0 ≤ p → 0 ≤ n →
    vfs_frame w w' ∧ same_bytes w w' ∧ r ≤ n ∧
    (0 ≤ r → d = zslice (vfs_bytes w (vfs_inode w f)) p r ∧ zlen d = r) ∧
    (r = 0 → 0 < n → i_size w f ≤ p);
  law_write w f p d r p' w' :
    vfs_iter_write w f p d = (r, p', w') → 0 ≤ p →
    vfs_frame w w' ∧ r ≤ zlen d ∧
    (r ≤ 0 → same_bytes w w') ∧
    (r = 0 → vfs_append w f = false → p' = p) ∧
    (0 < r → let q := if vfs_append w f then i_size w f else p in
       p' = q + r ∧
       set_bytes w w' (vfs_inode w f)
         (fwrite (vfs_bytes w (vfs_inode w f)) q (ztake r d)));
  law_clone w fi pi fo po n r w' :
    do_clone_file_range w fi pi fo po n = (r, w') → 0 ≤ pi → 0 ≤ po → 0 < n →
    vfs_frame w w' ∧
    (r ≠ n → same_bytes w w') ∧
    (r = n → pi + n ≤ i_size w fi ∧
       set_bytes w w' (vfs_inode w fo)
         (fwrite (vfs_bytes w (vfs_inode w fo)) po (zslice (vfs_bytes w (vfs_inode w fi)) pi n)));
  law_splice w fi pi fo po n r w' :
    do_splice_direct w fi pi fo po n = (r, w') → 0 ≤ pi → 0 ≤ po → 0 < n →
    vfs_frame w w' ∧ r ≤ n ∧
    (r ≤ 0 → same_bytes w w') ∧
    (r = 0 → i_size w fi ≤ pi) ∧
    (0 < r → pi + r ≤ i_size w fi ∧
       set_bytes w w' (vfs_inode w fo)
         (fwrite (vfs_bytes w (vfs_inode w fo)) po (zslice (vfs_bytes w (vfs_inode w fi)) pi r)));
  law_signal w b w' :
    signal_pending w = (b, w') → vfs_frame w w' ∧ same_bytes w w';
}.

(** The run in which nothing fails: opens succeed, reads make progress before
    the end of the file, writes are complete, no signal arrives. *)
Class VfsReliable (W : Type) `{Vfs W} : Prop := {
  rel_open w d fl : 0 < (dentry_open w d fl).1;
  rel_read w f p n : 0 ≤ p → 0 < n → p < i_size w f → 0 < (vfs_iter_read w f p n).1.1;
  rel_read_eof w f p n : 0 ≤ p → 0 < n → 0 ≤ (vfs_iter_read w f p n).1.1;
  rel_write w f p d : 0 ≤ p → (vfs_iter_write w f p d).1.1 = zlen d;
  rel_splice w fi pi fo po n :
    0 ≤ pi → 0 ≤ po → 0 < n → pi < i_size w fi → 0 < (do_splice_direct w fi pi fo po n).1;
  rel_splice_eof w fi pi fo po n :
    0 ≤ pi → 0 ≤ po → 0 < n → 0 ≤ (do_splice_direct w fi pi fo po n).1;
  rel_signal w : (signal_pending w).1 = false;
}.

Lemma frame_refl {W} `{Vfs W} (w : W) : vfs_frame w w.
Proof. by split. Qed.

Lemma frame_trans {W} `{Vfs W} (w1 w2 w3 : W) :
  vfs_frame w1 w2 → vfs_frame w2 w3 → vfs_frame w1 w3.
Proof.
  intros [o1 i1 a1 d1] [o2 i2 a2 d2]. split.
  - intros f Hf. by apply o2, o1.
  - intros f Hf. rewrite i2 by (by apply o1). by apply i1.
  - intros f Hf. rewrite a2 by (by apply o1). by apply a1.
  - intros d. by rewrite d2, d1.
Qed.

Lemma same_bytes_refl {W} `{Vfs W} (w : W) : same_bytes w w.
Proof. by intros i. Qed.

Lemma same_bytes_trans {W} `{Vfs W} (w1 w2 w3 : W) :
  same_bytes w1 w2 → same_bytes w2 w3 → same_bytes w1 w3.
Proof. intros H1 H2 i. by rewrite H2, H1. Qed.

#[export] Hint Resolve frame_refl frame_trans same_bytes_refl same_bytes_trans : ovl.

(** ** An in-memory filesystem

    Every positive pointer is an open file on the inode of the same number.
    The index [cap] of the type bounds every single write, so that a run with
    short writes can be evaluated; [memfs None] never fails. *)

Record memfs (cap : option Z) : Type := MemFs { mf_data : gmap Z (list byte) }.
Arguments MemFs {cap} _.
Arguments mf_data {cap} _.

Definition mf_get {cap} (w : memfs cap) (i : Z) : list byte := default [] (mf_data w !! i).
Definition mf_put {cap} (w : memfs cap) (i : Z) (c : list byte) : memfs cap :=
  MemFs (<[i := c]> (mf_data w)).
Definition mf_clip (cap : option Z) (d : list byte) : list byte :=
  match cap with Some c => ztake (Z.max 0 c) d | None => d end.

#[export] Instance memfs_vfs (cap : option Z) : Vfs (memfs cap) := {|
  vfs_isopen w f := bool_decide (0 < f);
  vfs_inode w f := f;
  vfs_append w f := false;
  vfs_dinode w d := Z.max 1 d;
  vfs_bytes w i := mf_get w i;
  dentry_open w d fl := (Z.max 1 d, w);
  vfs_iter_read w f p n :=
    let d := zslice (mf_get w f) p n in (zlen d, d, w);
  vfs_iter_write w f p d :=
    let d' := mf_clip cap d in
    (zlen d', p + zlen d', mf_put w f (fwrite (mf_get w f) p d'));
  do_clone_file_range w fi pi fo po n := (- EOPNOTSUPP, w);
  do_splice_direct w fi pi fo po n :=
    let d := zslice (mf_get w fi) pi n in
    (zlen d, mf_put w fo (fwrite (mf_get w fo) po d));
  signal_pending w := (false, w);
|}.

Section memfs.
Context {cap : option Z}.
Implicit Types (w : memfs cap) (c d : list byte).

Lemma mf_get_put w i c j :
  mf_get (mf_put w i c) j = if decide (i = j) then c else mf_get w j.
Proof.
  unfold mf_get, mf_put; cbn. case_decide; subst.
  - by rewrite lookup_insert_eq.
  - by rewrite lookup_insert_ne.
Qed.

Lemma mf_put_set_bytes w i c : set_bytes w (mf_put w i c) i c.
Proof.
  split; cbn -[mf_put].
  - by rewrite mf_get_put, decide_True.
  - intros j Hj. by rewrite mf_get_put, decide_False.
Qed.

Lemma mf_put_same_bytes w i : same_bytes w (mf_put w i (mf_get w i)).
Proof. intros j. cbn -[mf_put]. rewrite mf_get_put. by case_decide; subst. Qed.

Lemma mf_put_frame w i c : vfs_frame w (mf_put w i c).
Proof. by split. Qed.

Lemma zlen_nil_inv {A} (l : list A) : zlen l ≤ 0 → l = [].
Proof. destruct l; [done|]. unfold zlen. cbn. lia. Qed.

Lemma zslice_clip {A} (l : list A) p n :
  0 ≤ p → 0 ≤ n → zslice l p n = zslice l p (zlen (zslice l p n)).
Proof.
  intros. apply zlist_ext. intros i Hi.
  assert (zlen (zslice l p n) = Z.min n (Z.max 0 (zlen l - p))) as E
    by (apply zlen_zslice; lia).
  destruct (decide (i < zlen (zslice l p n))).
  - rewrite !zget_zslice by lia. done.
  - rewrite !zget_None; [done| |lia]. rewrite zlen_zslice; lia.
Qed.

Lemma mf_clip_len d : 0 ≤ zlen (mf_clip cap d) ≤ zlen d.
Proof.
  unfold mf_clip. destruct cap; [rewrite zlen_ztake by lia|]; pose proof (zlen_nonneg d); lia.
Qed.

Lemma mf_clip_take d : mf_clip cap d = ztake (zlen (mf_clip cap d)) d.
Proof.
  pose proof (mf_clip_len d) as Hc. apply zlist_ext. intros i Hi.
  rewrite zget_ztake. unfold mf_clip in *. destruct cap as [n|].
  - rewrite zget_ztake, zlen_ztake in * by lia. repeat case_decide; try done; try lia.
    apply zget_None. lia.
  - case_decide; [done|]. apply zget_None. lia.
Qed.

#[export] Instance memfs_laws : VfsLaws (memfs cap).
Proof.
  split; cbn -[mf_put].
  - intros w d fl r w' [= <- <-]. split_and!; eauto with ovl; [lia|].
    intros _. split; [by apply bool_decide_eq_true; lia|done].
  - intros w f p n r d w' [= <- <- <-] Hp Hn.
    rewrite zlen_zslice by lia. split_and!; eauto with ovl; [lia| |].
    + intros _. split; [|done]. rewrite <- zlen_zslice by lia. by apply zslice_clip.
    + unfold i_size; cbn. lia.
  - intros w f p d r p' w' [= <- <- <-] Hp.
    pose proof (mf_clip_len d) as Hc. split_and!; [apply mf_put_frame|lia| |lia|].
    + intros Hr. rewrite (zlen_nil_inv (mf_clip cap d)) by done.
      apply mf_put_same_bytes.
    + intros Hr. split; [done|]. rewrite mf_clip_take at 1. apply mf_put_set_bytes.
  - intros w fi pi fo po n r w' [= <- <-] ? ? ?.
    split_and!; eauto with ovl. unfold EOPNOTSUPP. lia.
  - intros w fi pi fo po n r w' [= <- <-] ? ? ?.
    rewrite zlen_zslice by lia. split_and!; [apply mf_put_frame|lia| | |].
    + intros Hr. assert (zslice (mf_get w fi) pi n = []) as ->
        by (apply zlen_nil_inv; rewrite zlen_zslice by lia; lia).
      apply mf_put_same_bytes.
    + unfold i_size; cbn. lia.
    + intros Hr. unfold i_size; cbn -[mf_put]. split; [lia|].
      rewrite (zslice_clip _ pi n), zlen_zslice by lia. apply mf_put_set_bytes.
  - intros w b w' [= <- <-]. eauto with ovl.
Qed.

End memfs.

#[export] Instance memfs_reliable : VfsReliable (memfs None).
Proof.
  split; cbn -[mf_put].
  - intros. lia.
  - unfold i_size; cbn. intros. rewrite zlen_zslice by lia. lia.
  - intros. rewrite zlen_zslice by lia. lia.
  - done.
  - unfold i_size; cbn. intros. rewrite zlen_zslice by lia. lia.
  - intros. rewrite zlen_zslice by lia. lia.
  - done.
Qed.
