(* ===== verification/Types.v ===== *)
(** Data of the overlay: the structures of ovl_entry.h and the constants and
    inline helpers of overlayfs.h.  Inodes and dentries of the underlying
    filesystems are records of the fields the overlay reads; the identity of a
    kernel object is its pointer. *)

From S2P Require Import Prelude.

(** ** Kernel objects *)

(** The attributes [ovl_copyattr] copies. *)
Record iattrs : Type := IAttrs {
  at_uid : Z; at_gid : Z; at_mode : Z;
  at_atime : Z; at_mtime : Z; at_ctime : Z; at_size : Z;
}.

Record inode : Type := Inode {
  i_ptr : Z;
  i_sb : Z;
  i_ino : Z;
  i_nlink : Z;
  i_rdev : Z;
  i_flags : Z;
  i_attrs : iattrs;
}.
Definition i_mode (i : inode) : Z := at_mode (i_attrs i).

Record dentry : Type := Dentry {
  d_ptr : Z;
  d_name : string;
  d_flags : Z;
  d_inode : option inode;
}.

Record path : Type := Path { p_mnt : Z; p_dentry : option dentry }.

(** The fields of struct kstat that the overlay reads or sets. *)
Record kstat : Type := Kstat {
  st_dev : Z; st_ino : Z; st_nlink : Z; st_blocks : Z; st_rdev : Z; st_attrs : iattrs;
}.
Definition st_mode (s : kstat) : Z := at_mode (st_attrs s).
Definition st_size (s : kstat) : Z := at_size (st_attrs s).
Definition set_st_ino (ino : Z) (s : kstat) : kstat :=
  Kstat (st_dev s) ino (st_nlink s) (st_blocks s) (st_rdev s) (st_attrs s).
Definition set_st_dev (dev : Z) (s : kstat) : kstat :=
  Kstat dev (st_ino s) (st_nlink s) (st_blocks s) (st_rdev s) (st_attrs s).
Definition set_st_nlink (n : Z) (s : kstat) : kstat :=
  Kstat (st_dev s) (st_ino s) n (st_blocks s) (st_rdev s) (st_attrs s).
Definition set_st_blocks (n : Z) (s : kstat) : kstat :=
  Kstat (st_dev s) (st_ino s) (st_nlink s) n (st_rdev s) (st_attrs s).
Definition set_at_size (n : Z) (a : iattrs) : iattrs :=
  IAttrs (at_uid a) (at_gid a) (at_mode a) (at_atime a) (at_mtime a) (at_ctime a) n.
Definition set_st_size (n : Z) (s : kstat) : kstat :=
  Kstat (st_dev s) (st_ino s) (st_nlink s) (st_blocks s) (st_rdev s) (set_at_size n (st_attrs s)).

(** ** File types and flags (linux/stat.h, linux/fs.h, linux/dcache.h) *)

Definition S_IFMT : Z := 61440.
Definition S_IFSOCK : Z := 49152.
Definition S_IFLNK : Z := 40960.
Definition S_IFREG : Z := 32768.
Definition S_IFBLK : Z := 24576.
Definition S_IFDIR : Z := 16384.
Definition S_IFCHR : Z := 8192.
Definition S_IFIFO : Z := 4096.
Definition ftype (mode : Z) : Z := Z.land mode S_IFMT.
Definition S_ISREG (m : Z) : bool := ftype m =? S_IFREG.
Definition S_ISDIR (m : Z) : bool := ftype m =? S_IFDIR.
Definition S_ISLNK (m : Z) : bool := ftype m =? S_IFLNK.
Definition S_ISCHR (m : Z) : bool := ftype m =? S_IFCHR.
Definition special_file (m : Z) : bool :=
  (ftype m =? S_IFCHR) || (ftype m =? S_IFBLK) || (ftype m =? S_IFIFO) || (ftype m =? S_IFSOCK).

Definition WHITEOUT_DEV : Z := 0.
Definition IS_WHITEOUT (i : inode) : bool := S_ISCHR (i_mode i) && (i_rdev i =? WHITEOUT_DEV).

Definition d_is_dir (d : dentry) : bool :=
  match d_inode d with Some i => S_ISDIR (i_mode i) | None => false end.
Definition d_is_reg (d : dentry) : bool :=
  match d_inode d with Some i => S_ISREG (i_mode i) | None => false end.

Definition has_any (flags mask : Z) : bool := negb (Z.land flags mask =? 0).

Definition DCACHE_OP_HASH : Z := 1.
Definition DCACHE_OP_COMPARE : Z := 2.
Definition DCACHE_OP_REVALIDATE : Z := 4.
Definition DCACHE_DISCONNECTED : Z := 32.
Definition DCACHE_OP_WEAK_REVALIDATE : Z := 2048.
Definition DCACHE_NEED_AUTOMOUNT : Z := 131072.
Definition DCACHE_MANAGE_TRANSIT : Z := 262144.
Definition DCACHE_OP_REAL : Z := 67108864.

Definition O_ACCMODE : Z := 3.
Definition O_WRONLY : Z := 1.
Definition O_RDWR : Z := 2.
Definition O_CREAT : Z := 64.
Definition O_EXCL : Z := 128.
Definition O_NOCTTY : Z := 256.
Definition O_TRUNC : Z := 512.
Definition O_APPEND : Z := 1024.
Definition O_NONBLOCK : Z := 2048.
Definition O_NDELAY : Z := O_NONBLOCK.
Definition O_DIRECT : Z := 16384.
Definition O_NOATIME : Z := 262144.
Definition FMODE_WRITE : Z := 2.
Definition FMODE_NONOTIFY : Z := 67108864.
Definition OPEN_FMODE (flag : Z) : Z :=
  Z.lor (Z.land (flag + 1) O_ACCMODE) (Z.land flag FMODE_NONOTIFY).

Definition S_SYNC : Z := 1.
Definition S_NOATIME : Z := 2.
Definition S_APPEND : Z := 4.
Definition S_IMMUTABLE : Z := 8.

(** ** overlayfs.h *)

(** enum ovl_path_type *)
Definition __OVL_PATH_UPPER : Z := Z.shiftl 1 0.
Definition __OVL_PATH_MERGE : Z := Z.shiftl 1 1.
Definition __OVL_PATH_ORIGIN : Z := Z.shiftl 1 2.
Definition OVL_TYPE_UPPER (type : Z) : bool := has_any type __OVL_PATH_UPPER.
Definition OVL_TYPE_MERGE (type : Z) : bool := has_any type __OVL_PATH_MERGE.
Definition OVL_TYPE_ORIGIN (type : Z) : bool := has_any type __OVL_PATH_ORIGIN.

(** enum ovl_inode_flag: bit numbers *)
Inductive ovl_inode_flag : Type :=
  OVL_IMPURE | OVL_WHITEOUTS | OVL_INDEX | OVL_UPPERDATA | OVL_CONST_INO.
Definition ovl_inode_flag_bit (f : ovl_inode_flag) : Z :=
  match f with
  | OVL_IMPURE => 0 | OVL_WHITEOUTS => 1 | OVL_INDEX => 2
  | OVL_UPPERDATA => 3 | OVL_CONST_INO => 4
  end.

(** enum ovl_entry_flag: bit numbers *)
Inductive ovl_entry_flag : Type := OVL_E_UPPER_ALIAS | OVL_E_OPAQUE | OVL_E_CONNECTED.
Definition ovl_entry_flag_bit (f : ovl_entry_flag) : Z :=
  match f with OVL_E_UPPER_ALIAS => 0 | OVL_E_OPAQUE => 1 | OVL_E_CONNECTED => 2 end.

Definition OVL_XATTR_PREFIX : string := "trusted.overlay.".
Definition OVL_XATTR_OPAQUE : string := OVL_XATTR_PREFIX +:+ "opaque".
Definition OVL_XATTR_REDIRECT : string := OVL_XATTR_PREFIX +:+ "redirect".
Definition OVL_XATTR_ORIGIN : string := OVL_XATTR_PREFIX +:+ "origin".
Definition OVL_XATTR_IMPURE : string := OVL_XATTR_PREFIX +:+ "impure".
Definition OVL_XATTR_NLINK : string := OVL_XATTR_PREFIX +:+ "nlink".
Definition OVL_XATTR_UPPER : string := OVL_XATTR_PREFIX +:+ "upper".
Definition OVL_XATTR_METACOPY : string := OVL_XATTR_PREFIX +:+ "metacopy".

(** ovl_open_flags_need_copy_up *)
Definition ovl_open_flags_need_copy_up (flags : Z) : bool :=
  if flags =? 0 then false
  else has_any (OPEN_FMODE flags) FMODE_WRITE || has_any flags O_TRUNC.

(** ** ovl_entry.h *)

(** The fields of struct ovl_inode added for the lazy block copy-up.
    [block_status] has [block_count + 1] entries, entry 0 unused. *)
Record ovl_blocks : Type := OvlBlocks {
  block_count : Z;
  copy_count : Z;
  cow_status : bool;
  lower_file : Z;
  upper_file : Z;
  meta_file : Z;
  block_status : list Z;
}.
Definition BLOCK_SIZE : Z := 4096.
Definition UNCOPY : Z := 0.
Definition COPIED : Z := 1.
Definition COPYING : Z := 2.

Record ovl_inode : Type := OvlInode {
  oi_lowerdata : option inode;
  oi_redirect : option string;
  oi_version : Z;
  oi_flags : Z;
  oi_vfs : inode;
  oi_upper : option dentry;        (* __upperdentry *)
  oi_lower : option inode;
  oi_blk : ovl_blocks;
}.

Record ovl_layer : Type := OvlLayer {
  l_mnt : Z;
  l_idx : Z;
  l_fsid : Z;
  l_pseudo_dev : Z;                (* fs->pseudo_dev *)
}.

Record ovl_path : Type := OvlPath { op_layer : ovl_layer; op_dentry : dentry }.

(** [numlower] is the length of [lowerstack]. *)
Record ovl_entry : Type := OvlEntry {
  oe_flags : Z;
  oe_lowerstack : list ovl_path;
}.
Definition numlower (oe : ovl_entry) : Z := zlen (oe_lowerstack oe).

Record ovl_config : Type := OvlConfig {
  c_lowerdir : option string;
  c_upperdir : option string;
  c_workdir : option string;
  c_default_permissions : bool;
  c_redirect_dir : bool;
  c_redirect_follow : bool;
  c_redirect_mode : option string;
  c_index : bool;
  c_nfs_export : bool;
  c_xino : Z;
  c_metacopy : bool;
}.

(** The fields of struct ovl_fs used outside mount; [fs_lower_fs] lists the
    super blocks of the unique lower filesystems ([numlowerfs] of them). *)
Record ovl_fs : Type := OvlFs {
  fs_upper_mnt : Z;                (* NULL without an upper layer *)
  fs_upper_sb : Z;                 (* upper_mnt->mnt_sb *)
  fs_lower_fs : list Z;
  fs_lower_layers : list ovl_layer; (* lower_layers[0 .. numlower) *)
  fs_namelen : Z;
  fs_indexdir : bool;              (* indexdir != NULL *)
  fs_workdir : bool;               (* workdir != NULL *)
  fs_config : ovl_config;
  fs_noxattr : bool;
  fs_tmpfile : bool;
  fs_xino_bits : Z;
}.

(** A positive overlay dentry: its inode, its [d_fsdata] and its flags. *)
Record odentry : Type := ODentry {
  od_ptr : Z;
  od_name : string;
  od_flags : Z;
  od_inode : ovl_inode;
  od_entry : ovl_entry;
}.

(** ** Field updates *)

Definition set_lower_file (f : Z) (b : ovl_blocks) : ovl_blocks :=
  OvlBlocks (block_count b) (copy_count b) (cow_status b) f (upper_file b) (meta_file b) (block_status b).
Definition set_upper_file (f : Z) (b : ovl_blocks) : ovl_blocks :=
  OvlBlocks (block_count b) (copy_count b) (cow_status b) (lower_file b) f (meta_file b) (block_status b).
Definition set_block_status (s : list Z) (b : ovl_blocks) : ovl_blocks :=
  OvlBlocks (block_count b) (copy_count b) (cow_status b) (lower_file b) (upper_file b) (meta_file b) s.
Definition set_copy_count (n : Z) (b : ovl_blocks) : ovl_blocks :=
  OvlBlocks (block_count b) n (cow_status b) (lower_file b) (upper_file b) (meta_file b) (block_status b).
Definition set_cow_status (c : bool) (b : ovl_blocks) : ovl_blocks :=
  OvlBlocks (block_count b) (copy_count b) c (lower_file b) (upper_file b) (meta_file b) (block_status b).
Definition set_block_count (n : Z) (b : ovl_blocks) : ovl_blocks :=
  OvlBlocks n (copy_count b) (cow_status b) (lower_file b) (upper_file b) (meta_file b) (block_status b).

Definition set_oi_upper (u : option dentry) (o : ovl_inode) : ovl_inode :=
  OvlInode (oi_lowerdata o) (oi_redirect o) (oi_version o) (oi_flags o) (oi_vfs o) u (oi_lower o) (oi_blk o).
Definition set_oi_flags (f : Z) (o : ovl_inode) : ovl_inode :=
  OvlInode (oi_lowerdata o) (oi_redirect o) (oi_version o) f (oi_vfs o) (oi_upper o) (oi_lower o) (oi_blk o).
Definition set_oi_version (v : Z) (o : ovl_inode) : ovl_inode :=
  OvlInode (oi_lowerdata o) (oi_redirect o) v (oi_flags o) (oi_vfs o) (oi_upper o) (oi_lower o) (oi_blk o).
Definition set_oi_vfs (i : inode) (o : ovl_inode) : ovl_inode :=
  OvlInode (oi_lowerdata o) (oi_redirect o) (oi_version o) (oi_flags o) i (oi_upper o) (oi_lower o) (oi_blk o).
Definition set_oi_redirect (r : option string) (o : ovl_inode) : ovl_inode :=
  OvlInode (oi_lowerdata o) r (oi_version o) (oi_flags o) (oi_vfs o) (oi_upper o) (oi_lower o) (oi_blk o).
Definition set_oi_lower (l ld : option inode) (o : ovl_inode) : ovl_inode :=
  OvlInode ld (oi_redirect o) (oi_version o) (oi_flags o) (oi_vfs o) (oi_upper o) l (oi_blk o).
Definition set_oi_blk (b : ovl_blocks) (o : ovl_inode) : ovl_inode :=
  OvlInode (oi_lowerdata o) (oi_redirect o) (oi_version o) (oi_flags o) (oi_vfs o) (oi_upper o) (oi_lower o) b.
Definition set_oe_flags (f : Z) (e : ovl_entry) : ovl_entry := OvlEntry f (oe_lowerstack e).
Definition set_i_attrs (a : iattrs) (i : inode) : inode :=
  Inode (i_ptr i) (i_sb i) (i_ino i) (i_nlink i) (i_rdev i) (i_flags i) a.
Definition set_i_flags (f : Z) (i : inode) : inode :=
  Inode (i_ptr i) (i_sb i) (i_ino i) (i_nlink i) (i_rdev i) f (i_attrs i).
Definition set_i_ino (n : Z) (i : inode) : inode :=
  Inode (i_ptr i) (i_sb i) n (i_nlink i) (i_rdev i) (i_flags i) (i_attrs i).

(** ovl_copyattr: uid, gid, mode, times and size of [from] *)
Definition ovl_copyattr (from to : inode) : inode := set_i_attrs (i_attrs from) to.

(** ovl_copyflags: inode_set_flags (to, from->i_flags & mask, mask) *)
Definition ovl_copyflags_mask : Z := Z.lor S_SYNC (Z.lor S_IMMUTABLE (Z.lor S_APPEND S_NOATIME)).
Definition ovl_copyflags (from to : inode) : inode :=
  set_i_flags (Z.lor (Z.ldiff (i_flags to) ovl_copyflags_mask)
                     (Z.land (i_flags from) ovl_copyflags_mask)) to.

(** The copy-up decision only looks at the access mode and [O_TRUNC]. *)
Lemma ovl_open_flags_need_copy_up_spec flags :
  ovl_open_flags_need_copy_up flags = true ↔
  Z.land flags O_ACCMODE = O_WRONLY ∨ Z.land flags O_ACCMODE = O_RDWR ∨ has_any flags O_TRUNC = true.
Proof.
  unfold ovl_open_flags_need_copy_up, has_any, OPEN_FMODE, FMODE_WRITE, O_ACCMODE, O_WRONLY, O_RDWR.
  rewrite Z.land_lor_distr_l.
  assert (Z.land (Z.land flags FMODE_NONOTIFY) 2 = 0) as ->
    by (rewrite <- Z.land_assoc; change (Z.land FMODE_NONOTIFY 2) with 0; apply Z.land_0_r).
  rewrite Z.lor_0_r, <- Z.land_assoc. change (Z.land 3 2) with 2.
  change 3 with (Z.ones 2). rewrite !Z.land_ones by lia. change (2 ^ 2) with 4.
  assert (Z.land (flags + 1) 2 = 0 ↔ (flags + 1) mod 4 < 2) as H2.
  { assert (Z.land (flags + 1) 2 = Z.land ((flags + 1) mod 4) 2) as ->
      by (rewrite <- (Z.land_ones _ 2) by lia; rewrite <- Z.land_assoc; done).
    pose proof (Z.mod_pos_bound (flags + 1) 4 ltac:(lia)) as Hm.
    generalize dependent ((flags + 1) mod 4). intros m Hm.
    assert (m = 0 ∨ m = 1 ∨ m = 2 ∨ m = 3) as [-> | [-> | [-> | ->]]] by lia; split; intros Hx; first [done | exfalso; by vm_compute in Hx | by apply Hx]. }
  destruct (Z.eqb_spec flags 0) as [->|Hz]; [by split; [|intros [?|[?|?]]]|].
  rewrite orb_true_iff, negb_true_iff, Z.eqb_neq. rewrite H2.
  destruct (negb _); split; intros; destruct_or?; try lia; naive_solver lia.
Qed.
