(* ===== verification/Util.v ===== *)
(** util.c: the overlay dentry's stack, its path type, the inode flags, the
    in-use lock and the copy-up tests every other component calls. *)

From S2P Require Import Prelude Types.

(** ** Super block predicates *)

Section super.
Implicit Types (ofs : ovl_fs).

Definition numlowerfs ofs : Z := zlen (fs_lower_fs ofs).

(** ovl_same_sb: [NULL] unless every layer is on one filesystem *)
Definition ovl_same_sb ofs : Z :=
  if numlowerfs ofs =? 0 then fs_upper_sb ofs
  else if (numlowerfs ofs =? 1) && (fs_upper_mnt ofs =? NULL)
       then default NULL (zget (fs_lower_fs ofs) 0)
       else NULL.

Definition FILEID_INO32_GEN : Z := 1.

(** ovl_can_decode_fh, from the super block's [s_export_op] (absent, or with
    the pair "has fh_to_dentry", "has encode_fh") *)
Definition ovl_can_decode_fh (s_export_op : option (bool * bool)) : Z :=
  match s_export_op with
  | None => 0
  | Some (fh_to_dentry, encode_fh) =>
      if negb fh_to_dentry then 0
      else if encode_fh then -1 else FILEID_INO32_GEN
  end.

Definition ovl_indexdir ofs : bool := fs_indexdir ofs.
Definition ovl_index_all ofs : bool := c_nfs_export (fs_config ofs) && c_index (fs_config ofs).
Definition ovl_verify_lower ofs : bool := c_nfs_export (fs_config ofs) && c_index (fs_config ofs).
Definition ovl_redirect_dir ofs : bool := c_redirect_dir (fs_config ofs) && negb (fs_noxattr ofs).
End super.

Definition ovl_dentry_remote (d : dentry) : bool :=
  has_any (d_flags d)
    (Z.lor DCACHE_OP_REVALIDATE (Z.lor DCACHE_OP_WEAK_REVALIDATE DCACHE_OP_REAL)).

Definition ovl_dentry_weird (d : dentry) : bool :=
  has_any (d_flags d)
    (Z.lor DCACHE_NEED_AUTOMOUNT
      (Z.lor DCACHE_MANAGE_TRANSIT (Z.lor DCACHE_OP_HASH DCACHE_OP_COMPARE))).

Definition ovl_is_whiteout (d : dentry) : bool :=
  match d_inode d with Some i => IS_WHITEOUT i | None => false end.

(** ** Flags of the overlay inode and of the overlay dentry *)

Definition ovl_set_flag (f : ovl_inode_flag) (o : ovl_inode) : ovl_inode :=
  set_oi_flags (Z.setbit (oi_flags o) (ovl_inode_flag_bit f)) o.
Definition ovl_clear_flag (f : ovl_inode_flag) (o : ovl_inode) : ovl_inode :=
  set_oi_flags (Z.clearbit (oi_flags o) (ovl_inode_flag_bit f)) o.
Definition ovl_test_flag (f : ovl_inode_flag) (o : ovl_inode) : bool :=
  Z.testbit (oi_flags o) (ovl_inode_flag_bit f).

Definition ovl_dentry_set_flag (f : ovl_entry_flag) (e : ovl_entry) : ovl_entry :=
  set_oe_flags (Z.setbit (oe_flags e) (ovl_entry_flag_bit f)) e.
Definition ovl_dentry_clear_flag (f : ovl_entry_flag) (e : ovl_entry) : ovl_entry :=
  set_oe_flags (Z.clearbit (oe_flags e) (ovl_entry_flag_bit f)) e.
Definition ovl_dentry_test_flag (f : ovl_entry_flag) (e : ovl_entry) : bool :=
  Z.testbit (oe_flags e) (ovl_entry_flag_bit f).
Definition ovl_dentry_is_opaque (e : ovl_entry) : bool := ovl_dentry_test_flag OVL_E_OPAQUE e.
Definition ovl_dentry_is_whiteout (d_inode : option ovl_inode) (e : ovl_entry) : bool :=
  negb (bool_decide (is_Some d_inode)) && ovl_dentry_is_opaque e.
Definition ovl_dentry_set_opaque (e : ovl_entry) : ovl_entry := ovl_dentry_set_flag OVL_E_OPAQUE e.
Definition ovl_dentry_has_upper_alias (e : ovl_entry) : bool :=
  ovl_dentry_test_flag OVL_E_UPPER_ALIAS e.
Definition ovl_dentry_set_upper_alias (e : ovl_entry) : ovl_entry :=
  ovl_dentry_set_flag OVL_E_UPPER_ALIAS e.

(** ** Real inodes and dentries *)

(** A member of [lowerstack], whose elements outside the array are a fault. *)
Definition lowerstack_at (e : ovl_entry) (i : Z) : option ovl_path := zget (oe_lowerstack e) i.

Definition ovl_dentry_upper (d : odentry) : option dentry := oi_upper (od_inode d).
Definition ovl_dentry_lower (d : odentry) : option dentry :=
  if numlower (od_entry d) =? 0 then None else op_dentry <$> lowerstack_at (od_entry d) 0.
Definition ovl_layer_lower (d : odentry) : option ovl_layer :=
  if numlower (od_entry d) =? 0 then None else op_layer <$> lowerstack_at (od_entry d) 0.
Definition ovl_dentry_lowerdata (d : odentry) : option dentry :=
  if numlower (od_entry d) =? 0 then None
  else op_dentry <$> lowerstack_at (od_entry d) (numlower (od_entry d) - 1).
Definition ovl_dentry_real (d : odentry) : option dentry :=
  match ovl_dentry_upper d with Some u => Some u | None => ovl_dentry_lower d end.

Definition ovl_inode_upper (o : ovl_inode) : option inode := oi_upper o ≫= d_inode.
Definition ovl_inode_lower (o : ovl_inode) : option inode := oi_lower o.
Definition ovl_inode_real (o : ovl_inode) : option inode :=
  match ovl_inode_upper o with Some u => Some u | None => ovl_inode_lower o end.
Definition ovl_inode_lowerdata (o : ovl_inode) : option inode :=
  if negb (S_ISREG (i_mode (oi_vfs o))) then None
  else match oi_lowerdata o with Some l => Some l | None => ovl_inode_lower o end.

Definition ovl_should_check_upperdata (o : ovl_inode) : bool :=
  if negb (S_ISREG (i_mode (oi_vfs o))) then false
  else if negb (bool_decide (is_Some (ovl_inode_lower o))) then false
  else true.
Definition ovl_has_upperdata (o : ovl_inode) : bool :=
  if negb (ovl_should_check_upperdata o) then true
  else if negb (ovl_test_flag OVL_UPPERDATA o) then false
  else true.
Definition ovl_set_upperdata (o : ovl_inode) : ovl_inode := ovl_set_flag OVL_UPPERDATA o.

Definition ovl_inode_realdata (o : ovl_inode) : option inode :=
  match ovl_inode_upper o with
  | Some u => if ovl_has_upperdata o then Some u else ovl_inode_lowerdata o
  | None => ovl_inode_lowerdata o
  end.

(** ovl_path_type *)
Definition ovl_path_type (d : odentry) : Z :=
  let oe := od_entry d in
  if bool_decide (is_Some (ovl_dentry_upper d)) then
    let type := __OVL_PATH_UPPER in
    if negb (numlower oe =? 0) then
      let type := if ovl_test_flag OVL_CONST_INO (od_inode d)
                  then Z.lor type __OVL_PATH_ORIGIN else type in
      if S_ISDIR (i_mode (oi_vfs (od_inode d))) || negb (ovl_has_upperdata (od_inode d))
      then Z.lor type __OVL_PATH_MERGE else type
    else type
  else if 1 <? numlower oe then Z.lor 0 __OVL_PATH_MERGE else 0.

Definition ovl_path_upper (ofs : ovl_fs) (d : odentry) : path :=
  Path (fs_upper_mnt ofs) (ovl_dentry_upper d).
Definition path_of (p : option ovl_path) : path :=
  match p with
  | Some p => Path (l_mnt (op_layer p)) (Some (op_dentry p))
  | None => Path NULL None
  end.
Definition ovl_path_lower (d : odentry) : path :=
  if numlower (od_entry d) =? 0 then Path NULL None
  else path_of (lowerstack_at (od_entry d) 0).
Definition ovl_path_lowerdata (d : odentry) : path :=
  if numlower (od_entry d) =? 0 then Path NULL None
  else path_of (lowerstack_at (od_entry d) (numlower (od_entry d) - 1)).
Definition ovl_path_real (ofs : ovl_fs) (d : odentry) : Z * path :=
  let type := ovl_path_type d in
  (type, if negb (OVL_TYPE_UPPER type) then ovl_path_lower d else ovl_path_upper ofs d).

(** The pointer of a path's dentry. *)
Definition path_ptr (p : path) : Z :=
  match p_dentry p with Some d => d_ptr d | None => NULL end.

Definition ovl_is_metacopy_dentry (d : odentry) : bool :=
  if negb (S_ISREG (i_mode (oi_vfs (od_inode d)))) then false
  else if bool_decide (is_Some (ovl_dentry_upper d)) then
    if negb (ovl_has_upperdata (od_inode d)) then true else false
  else 1 <? numlower (od_entry d).

(** ** Has this dentry been copied up? *)

Definition ovl_dentry_needs_data_copy_up_locked (d : odentry) (flags : Z) : bool :=
  if negb (ovl_open_flags_need_copy_up flags) then false
  else negb (ovl_test_flag OVL_UPPERDATA (od_inode d)).
Definition ovl_dentry_needs_data_copy_up (d : odentry) (flags : Z) : bool :=
  if negb (ovl_open_flags_need_copy_up flags) then false
  else negb (ovl_has_upperdata (od_inode d)).

Definition disconnected (d : odentry) : bool := has_any (od_flags d) DCACHE_DISCONNECTED.

Definition ovl_already_copied_up_locked (d : odentry) (flags : Z) : bool :=
  if bool_decide (is_Some (ovl_dentry_upper d)) &&
     (ovl_dentry_has_upper_alias (od_entry d) || disconnected d) &&
     negb (ovl_dentry_needs_data_copy_up_locked d flags)
  then true else false.
Definition ovl_already_copied_up (d : odentry) (flags : Z) : bool :=
  if bool_decide (is_Some (ovl_dentry_upper d)) &&
     (ovl_dentry_has_upper_alias (od_entry d) || disconnected d) &&
     negb (ovl_dentry_needs_data_copy_up d flags)
  then true else false.

Definition ovl_need_index (ofs : ovl_fs) (d : odentry) : bool :=
  match ovl_dentry_lower d with
  | None => false
  | Some lower =>
      if negb (ovl_indexdir ofs) then false
      else if ovl_index_all ofs then true
      else negb (d_is_dir lower) &&
           match d_inode lower with Some i => 1 <? i_nlink i | None => false end
  end.

(** ** Inode set-up *)

Definition ovl_inode_init (o : ovl_inode) (upperdentry : option dentry)
    (lowerdentry lowerdata : option dentry) : outcome ovl_inode :=
  match match upperdentry with Some u => Some u | None => lowerdentry end ≫= d_inode with
  | None => Fault
  | Some realinode =>
      let o := if upperdentry is Some u then set_oi_upper (Some u) o else o in
      let o := if lowerdentry is Some l then set_oi_lower (d_inode l) (oi_lowerdata o) o else o in
      let o := if lowerdata is Some l then set_oi_lower (oi_lower o) (d_inode l) o else o in
      let i := ovl_copyflags realinode (ovl_copyattr realinode (oi_vfs o)) in
      let i := if i_ino i =? 0 then set_i_ino (i_ino realinode) i else i in
      Ret (set_oi_vfs i o)
  end.

(** ovl_inode_update; [unhashed] is inode_unhashed(inode) *)
Definition ovl_inode_update (o : ovl_inode) (unhashed : bool) (upperdentry : dentry) : outcome ovl_inode :=
  match d_inode upperdentry with
  | None => Fault
  | Some upperinode =>
      let o := set_oi_upper (Some upperdentry) o in
      Ret (if unhashed && (i_ino (oi_vfs o) =? 0)
           then set_oi_vfs (set_i_ino (i_ino upperinode) (oi_vfs o)) o else o)
  end.

(** ** Directory version, used by the readdir cache *)

Definition ovl_dentry_version_inc (d : odentry) (impurity : bool) : ovl_inode :=
  if OVL_TYPE_MERGE (ovl_path_type d) || impurity
  then set_oi_version (u64 (oi_version (od_inode d) + 1)) (od_inode d)
  else od_inode d.
Definition set_od_inode (o : ovl_inode) (d : odentry) : odentry :=
  ODentry (od_ptr d) (od_name d) (od_flags d) o (od_entry d).
Definition set_od_entry (e : ovl_entry) (d : odentry) : odentry :=
  ODentry (od_ptr d) (od_name d) (od_flags d) (od_inode d) e.
Definition ovl_dir_modified (d : odentry) (impurity : bool) : outcome ovl_inode :=
  match ovl_inode_upper (od_inode d) with
  | None => Fault
  | Some u =>
      let o := set_oi_vfs (ovl_copyattr u (oi_vfs (od_inode d))) (od_inode d) in
      Ret (ovl_dentry_version_inc (set_od_inode o d) impurity)
  end.

(** ** The in-use lock of an underlying directory (a bit of [i_state]) *)

Definition I_OVL_INUSE : Z := 16384.
Definition ovl_inuse_trylock (i_state : Z) : bool * Z :=
  if Z.land i_state I_OVL_INUSE =? 0 then (true, Z.lor i_state I_OVL_INUSE)
  else (false, i_state).
Definition ovl_inuse_unlock (i_state : Z) : Z := Z.ldiff i_state I_OVL_INUSE.
Definition ovl_is_inuse (i_state : Z) : bool := has_any i_state I_OVL_INUSE.
