(* ===== verification/Block.v ===== *)
(** The lazy, block-granular copy-up: block numbers (util.c), the copy of one
    block (copy_up.c), the block state set up by copy-up (copy_up.c) and the
    view of a file of which only some blocks have been copied. *)

From S2P Require Import Prelude Vfs Types Util.

(** ** Block numbers: block 1 is the first block of the file *)

(** size_t ovl_get_block(size_t pos) *)
Definition ovl_get_block (pos : Z) : Z := u64 (pos + BLOCK_SIZE) / BLOCK_SIZE.

(** ** State of the I/O paths *)

Record meta_save_task : Type := MetaSaveTask { mt_file : Z; mt_start : Z; mt_end : Z }.

(** The kernel, the block fields of the overlay inode and [meta_save_fifo]. *)
Record bstate (W : Type) : Type := BState {
  bs_w : W;
  bs_b : ovl_blocks;
  bs_fifo : list meta_save_task;
}.
Arguments BState {W} _ _ _.
Arguments bs_w {W} _.
Arguments bs_b {W} _.
Arguments bs_fifo {W} _.
Definition set_bs_w {W} (w : W) (s : bstate W) : bstate W := BState w (bs_b s) (bs_fifo s).
Definition set_bs_b {W} (b : ovl_blocks) (s : bstate W) : bstate W := BState (bs_w s) b (bs_fifo s).

(** An array element; reading outside the array is a fault. *)
Definition array_get (l : list Z) (i : Z) : outcome Z :=
  match zget l i with Some x => Ret x | None => Fault end.
Definition array_set (l : list Z) (i x : Z) : outcome (list Z) :=
  match zset l i x with Some l' => Ret l' | None => Fault end.

Section block.
Context {W : Type} `{Vfs W}.
Implicit Types (w : W) (b : ovl_blocks) (s : bstate W).

Definition O_LARGEFILE : Z := 32768.
Definition O_RDONLY : Z := 0.

(** ovl_path_open *)
Definition ovl_path_open w (p : path) (flags : Z) : Z * W :=
  dentry_open w (path_ptr p) (Z.lor flags O_NOATIME).

(** The recurring
    [if (!oi->upper_file) { oi->upper_file = ovl_path_open(&upper_path, O_RDWR|O_LARGEFILE);
                            if (IS_ERR(oi->upper_file)) return PTR_ERR(oi->upper_file); }]
    returns a negative error or 0. *)
Definition open_upper (upper_path : path) s : Z * bstate W :=
  if upper_file (bs_b s) =? NULL then
    let '(f, w) := ovl_path_open (bs_w s) upper_path (Z.lor O_RDWR O_LARGEFILE) in
    let s := BState w (set_upper_file f (bs_b s)) (bs_fifo s) in
    if IS_ERR f then (PTR_ERR f, s) else (0, s)
  else (0, s).
Definition open_lower (lower_path : path) s : Z * bstate W :=
  if lower_file (bs_b s) =? NULL then
    let '(f, w) := ovl_path_open (bs_w s) lower_path (Z.lor O_RDONLY O_LARGEFILE) in
    let s := BState w (set_lower_file f (bs_b s)) (bs_fifo s) in
    if IS_ERR f then (PTR_ERR f, s) else (0, s)
  else (0, s).

(** ** ovl_copy_up_block *)

Definition OVL_COPY_UP_CHUNK_SIZE : Z := Z.shiftl 1 20.

(** [while (len) { ... }]: every iteration splices at least one byte, so
    [len] iterations are enough. *)
Fixpoint copy_up_loop (fuel : nat) w (lower_file upper_file old_pos new_pos len : Z)
    : outcome (Z * W) :=
  if len =? 0 then Ret (0, w)
  else match fuel with
  | O => NoFuel
  | S fuel =>
      let this_len := if u64 len <? OVL_COPY_UP_CHUNK_SIZE then u64 len
                      else OVL_COPY_UP_CHUNK_SIZE in
      let '(sig, w) := signal_pending w in
      if (sig : bool) then Ret (- EINTR, w)
      else
        let '(bytes, w) := do_splice_direct w lower_file old_pos upper_file new_pos this_len in
        if bytes <=? 0 then Ret (bytes, w)
        else copy_up_loop fuel w lower_file upper_file (old_pos + bytes) (new_pos + bytes) (len - bytes)
  end.

Definition ovl_copy_up_block w (lower_file upper_file pos len : Z) : outcome (Z * W) :=
  if len =? 0 then Ret (0, w)
  else if negb (ptr_ok lower_file && ptr_ok upper_file) then Fault
  else
    let '(cloned, w) := do_clone_file_range w lower_file pos upper_file pos len in
    if cloned =? len then Ret (0, w)
    else copy_up_loop (Z.to_nat len) w lower_file upper_file pos pos len.

(** ** The block state set up by ovl_copy_up_inode for a regular, non-metacopy,
    non-empty file; [mem] is the result of kmalloc. *)
Definition copy_up_init_blocks (size : Z) (mem : bool) b : Z * ovl_blocks :=
  let block_count := size / BLOCK_SIZE in
  let b := set_cow_status true b in
  let b := set_block_count (u32 (if negb (size mod BLOCK_SIZE =? 0) then block_count + 1 else block_count)) b in
  if negb mem then (- ENOMEM, b)
  else (0, set_block_status (replicate (Z.to_nat (Types.block_count b + 1)) UNCOPY) b).

(** The fields ovl_alloc_inode sets; it leaves [block_status] as it finds it. *)
Definition alloc_blocks (stale_block_status : list Z) : ovl_blocks :=
  OvlBlocks 0 0 false NULL NULL NULL stale_block_status.
End block.

(** ** The view: which bytes a reader of the overlay file should see *)

Definition byte_from_upper (b : ovl_blocks) (i : Z) : bool :=
  let k := i / BLOCK_SIZE + 1 in
  (block_count b <? k) ||
  match zget (block_status b) k with Some st => negb (st =? UNCOPY) | None => false end.

Definition cow_view (lower upper : list byte) (b : ovl_blocks) (i : Z) : option byte :=
  if byte_from_upper b i then zget upper i else zget lower i.

(** Number of copied blocks among blocks 1 .. [n]. *)
Definition copied (st : list Z) (k : Z) : Prop := ∃ x, zget st k = Some x ∧ x ≠ UNCOPY.
Definition count_copied (b : ovl_blocks) : Z :=
  zlen (filter (λ x, x ≠ UNCOPY) (drop 1 (block_status b))).

Definition max_file : Z := 9223372036854775807 - BLOCK_SIZE.

(** Well-formedness of the block state over a lower and an upper file. *)
Record blocks_wf (lower upper : list byte) (b : ovl_blocks) : Prop := {
  wf_nonempty : 0 < zlen lower < max_file;
  wf_count : block_count b = (zlen lower + BLOCK_SIZE - 1) / BLOCK_SIZE;
  wf_count32 : block_count b < 4294967296;
  wf_len : zlen (block_status b) = block_count b + 1;
  wf_copied k : 1 ≤ k ≤ block_count b → copied (block_status b) k →
    Z.min (k * BLOCK_SIZE) (zlen lower) ≤ zlen upper;
  wf_last : ¬ copied (block_status b) (block_count b) → zlen upper ≤ zlen lower;
  wf_copy_count : copy_count b = count_copied b;
  wf_cow : cow_status b = false → copy_count b = block_count b;
}.

(** The abstraction relation: the overlay file shows the bytes [F]. *)
Definition cow_rel (lower upper : list byte) (b : ovl_blocks) (F : list byte) : Prop :=
  blocks_wf lower upper b ∧ ∀ i, 0 ≤ i → cow_view lower upper b i = zget F i.

(** ** Arithmetic of block numbers *)

Lemma ovl_get_block_spec pos :
  0 ≤ pos < two64 - BLOCK_SIZE → ovl_get_block pos = pos / BLOCK_SIZE + 1.
Proof.
  intros Hp. unfold ovl_get_block. rewrite u64_small.
  - unfold BLOCK_SIZE. lia.
  - unfold BLOCK_SIZE in *. lia.
Qed.

(** ** Slices and writes *)

Lemma zlen_zslice_in {A} (l : list A) p n :
  0 ≤ p → 0 ≤ n → p + n ≤ zlen l → zlen (zslice l p n) = n.
Proof. intros. rewrite zlen_zslice by lia. lia. Qed.

Lemma zslice_0 {A} (l : list A) p : zslice l p 0 = [].
Proof. done. Qed.

Lemma fwrite_zslice_extend c l p q n m :
  0 ≤ p → 0 ≤ q → 0 ≤ n → 0 < m → q + n + m ≤ zlen l →
  fwrite (fwrite c p (zslice l q n)) (p + n) (zslice l (q + n) m) = fwrite c p (zslice l q (n + m)).
Proof.
  intros Hp Hq Hn Hm Hl.
  assert (zlen (zslice l (q + n) m) = m) as L2 by (apply zlen_zslice_in; lia).
  assert (zlen (zslice l q (n + m)) = n + m) as L3 by (apply zlen_zslice_in; lia).
  destruct (decide (n = 0)) as [->|Hn0].
  { rewrite zslice_0; cbn [fwrite]. by rewrite !Z.add_0_r, Z.add_0_l. }
  assert (zlen (zslice l q n) = n) as L1 by (apply zlen_zslice_in; lia).
  apply zlist_ext. intros i Hi.
  rewrite !zget_fwrite by lia. rewrite zlen_fwrite by lia. rewrite L1, L2, L3.
  pose proof (zlen_nonneg c).
  repeat case_decide; try lia; try done.
  all: rewrite !zget_zslice by lia; f_equal; lia.
Qed.

(** ** Correctness of ovl_copy_up_block *)

Section copy_facts.
Context {W : Type} `{VfsLaws W}.
Implicit Types (w : W).

(** [k] bytes at [pos] of the lower file are now in the upper file. *)
Definition copied_bytes (w w' : W) (lf uf pos k : Z) : Prop :=
  0 ≤ k ∧ (0 < k → pos + k ≤ i_size w lf) ∧
  set_bytes w w' (vfs_inode w uf)
    (fwrite (vfs_bytes w (vfs_inode w uf)) pos (zslice (vfs_bytes w (vfs_inode w lf)) pos k)).

Lemma copied_bytes_0 w w' lf uf pos : same_bytes w w' → copied_bytes w w' lf uf pos 0.
Proof. intros Hs. split_and!; [done|lia|]. rewrite zslice_0. by split; [apply Hs|]. Qed.

Lemma copied_bytes_same w0 w1 w2 lf uf pos k :
  same_bytes w1 w2 → copied_bytes w0 w1 lf uf pos k → copied_bytes w0 w2 lf uf pos k.
Proof.
  intros Hs (? & ? & Hc & Ho). split_and!; [done..|]. split; [by rewrite Hs|].
  intros i Hi. by rewrite Hs, Ho.
Qed.

Definition files_ok (w : W) (lf uf : Z) : Prop :=
  vfs_isopen w lf = true ∧ vfs_isopen w uf = true ∧ vfs_inode w lf ≠ vfs_inode w uf.

Lemma files_ok_frame w w' lf uf : vfs_frame w w' → files_ok w lf uf → files_ok w' lf uf.
Proof.
  intros [fo fi fa fd] (Hl & Hu & Hne). split_and!; eauto. by rewrite !fi.
Qed.

Lemma copied_bytes_step w1 w2 w3 lf uf pos k n :
  0 ≤ pos → files_ok w1 lf uf → vfs_frame w1 w2 → copied_bytes w1 w2 lf uf pos k →
  0 < n → pos + k + n ≤ i_size w2 lf →
  set_bytes w2 w3 (vfs_inode w2 uf)
    (fwrite (vfs_bytes w2 (vfs_inode w2 uf)) (pos + k)
       (zslice (vfs_bytes w2 (vfs_inode w2 lf)) (pos + k) n)) →
  copied_bytes w1 w3 lf uf pos (k + n).
Proof.
  intros Hpos (Hl & Hu & Hne) [fo fi fa fd] (Hk & Hin & Hc & Hoth) Hn Hsz (Hc' & Hoth').
  unfold i_size in *. rewrite (fi lf Hl) in Hsz, Hc'. rewrite (fi uf Hu) in Hc', Hoth'.
  rewrite (Hoth (vfs_inode w1 lf)) in Hsz, Hc' by done.
  split_and!; [lia|unfold i_size; lia|]. split.
  - rewrite Hc', Hc. apply fwrite_zslice_extend; lia.
  - intros i Hi. by rewrite Hoth', Hoth.
Qed.

(** The splice loop, from the state after [k] bytes. *)
Lemma copy_up_loop_spec fuel : ∀ w0 w lf uf pos k len,
  files_ok w0 lf uf → vfs_frame w0 w → copied_bytes w0 w lf uf pos k →
  0 ≤ pos → 0 ≤ len < two64 → (Z.to_nat len ≤ fuel)%nat →
  ∃ r w' k',
    copy_up_loop fuel w lf uf (pos + k) (pos + k) len = Ret (r, w') ∧
    vfs_frame w0 w' ∧ copied_bytes w0 w' lf uf pos k' ∧ k ≤ k' ≤ k + len ∧ r ≤ 0 ∧
    (r = 0 → k' = k + len ∨ i_size w0 lf ≤ pos + k').
Proof.
  induction fuel as [|fuel IH]; intros w0 w lf uf pos k len Hf Hfr Hc Hpos Hlen Hfuel.
  { assert (len = 0) as -> by lia. exists 0, w, k. split_and!; eauto; lia. }
  cbn [copy_up_loop]. destruct (Z.eqb_spec len 0) as [->|Hl0].
  { exists 0, w, k. split_and!; eauto; lia. }
  rewrite u64_small by lia.
  set (this_len := if len <? OVL_COPY_UP_CHUNK_SIZE then len else OVL_COPY_UP_CHUNK_SIZE).
  assert (0 < this_len ≤ len) as Hthis.
  { subst this_len. assert (OVL_COPY_UP_CHUNK_SIZE = 1048576) by done.
    destruct (Z.ltb_spec len OVL_COPY_UP_CHUNK_SIZE); lia. }
  destruct (signal_pending w) as [sig w1] eqn:Es. apply law_signal in Es as [Fs Bs].
  assert (vfs_frame w0 w1) as Hfr1 by eauto with ovl.
  assert (copied_bytes w0 w1 lf uf pos k) as Hc1 by eauto using copied_bytes_same.
  destruct Hf as (Hlo & Huo & Hne). pose proof Hfr1 as Hfr1'. destruct Hfr1' as [fo fi _ _].
  assert (i_size w1 lf = i_size w0 lf) as Hsz.
  { unfold i_size. rewrite fi by done. destruct Hc1 as (_ & _ & _ & Hc2). by rewrite Hc2. }
  destruct sig.
  { exists (- EINTR), w1, k. split_and!; eauto; unfold EINTR; lia. }
  destruct (do_splice_direct w1 lf (pos + k) uf (pos + k) this_len) as [n w2] eqn:Ep.
  pose proof (proj1 Hc1). apply law_splice in Ep as (Fp & Hn & Hle & Heof & Hgt); [|lia..].
  destruct (Z.leb_spec n 0) as [Hn0|Hn0].
  - exists n, w2, k. split_and!; eauto using copied_bytes_same with ovl; lia.
  - destruct (Hgt Hn0) as (Hin & Hset).
    destruct (IH w0 w2 lf uf pos (k + n) (len - n)) as (r & w' & k' & E & ? & ? & ? & ? & ?).
    + done.
    + eauto with ovl.
    + eapply (copied_bytes_step w0 w1 w2); eauto. done.
    + done.
    + lia.
    + lia.
    + exists r, w', k'. rewrite Z.add_assoc in E. rewrite E. split_and!; eauto; lia.
Qed.

(** ovl_copy_up_block terminates on every kernel that keeps its contract; the
    bytes it copied are a prefix of the block, and it returns 0 only when the
    whole length was copied or the lower file ended. *)
Lemma ovl_copy_up_block_spec w lf uf pos len :
  files_ok w lf uf → ptr_ok lf = true → ptr_ok uf = true → 0 ≤ pos → 0 ≤ len < two64 →
  ∃ r w' k,
    ovl_copy_up_block w lf uf pos len = Ret (r, w') ∧
    vfs_frame w w' ∧ copied_bytes w w' lf uf pos k ∧ k ≤ len ∧ r ≤ 0 ∧
    (r = 0 → k = len ∨ i_size w lf ≤ pos + k).
Proof.
  intros Hf Hlp Hup Hpos Hlen. unfold ovl_copy_up_block.
  destruct (Z.eqb_spec len 0) as [->|Hl0].
  { exists 0, w, 0. split_and!; eauto using copied_bytes_0 with ovl; lia. }
  rewrite Hlp, Hup; cbn [andb negb].
  destruct (do_clone_file_range w lf pos uf pos len) as [cl w1] eqn:Ec.
  apply law_clone in Ec as (Fc & Hne & Heq); [|lia..].
  destruct (Z.eqb_spec cl len) as [->|Hcl].
  - destruct (Heq eq_refl) as (Hin & Hset).
    exists 0, w1, len. split_and!; eauto; try lia. split_and!; [lia|lia|done].
  - pose proof (Hne Hcl) as Hs.
    destruct (copy_up_loop_spec (Z.to_nat len) w w1 lf uf pos 0 len)
      as (r & w' & k & E & ? & ? & ? & ? & ?); eauto using copied_bytes_0.
    rewrite Z.add_0_r in E. exists r, w', k. split_and!; eauto; lia.
Qed.
End copy_facts.
