(* ===== verification/BlockView.v ===== *)
(** Pure facts about the view of a partly copied file: copying a block does
    not change it, and a write whose border blocks are in the upper file turns
    the view [F] into [fwrite F pos d]. *)

From S2P Require Import Prelude Vfs Types Util Block.

(** ** The mark loop of block_write_iter

    [for (i = start_block; i <= end_block; i++)], [n] iterations left. *)
Fixpoint mark_blocks (n : nat) (i : Z) (b : ovl_blocks) : outcome ovl_blocks :=
  match n with
  | O => Ret b
  | S n =>
      if block_count b <? i then Ret b
      else
        st ← array_get (block_status b) i;
        b ← (if st =? UNCOPY then
               status ← array_set (block_status b) i COPIED;
               Ret (set_copy_count (u32 (copy_count b + 1)) (set_block_status status b))
             else Ret b);
        mark_blocks n (u64 (i + 1)) b
  end.

Section view.
Implicit Types (lower upper F : list byte) (b : ovl_blocks) (i k : Z).

(** ** Copied blocks *)

#[global] Instance copied_dec st k : Decision (copied st k).
Proof.
  refine (match zget st k as o return (zget st k = o → Decision (copied st k)) with
          | Some x => λ E, if decide (x = UNCOPY) then right _ else left _
          | None => λ E, right _ end eq_refl).
  all: try (by exists x).
  all: intros (y & Hy & Hn); congruence.
Defined.

Lemma byte_from_upper_spec b i :
  byte_from_upper b i = true ↔
  block_count b < i / BLOCK_SIZE + 1 ∨ copied (block_status b) (i / BLOCK_SIZE + 1).
Proof.
  unfold byte_from_upper, copied. rewrite orb_true_iff, Z.ltb_lt.
  destruct (zget (block_status b) _) as [x|].
  - rewrite negb_true_iff, Z.eqb_neq. split.
    + intros [?|?]; [by left|right; by exists x].
    + intros [?|(? & [= <-] & ?)]; [by left|by right].
  - split; [intros [?|[=]]; by left|]. intros [?|(? & [=] & _)]; by left.
Qed.

Lemma cow_view_upper lower upper b i :
  block_count b < i / BLOCK_SIZE + 1 ∨ copied (block_status b) (i / BLOCK_SIZE + 1) →
  cow_view lower upper b i = zget upper i.
Proof. intros H. unfold cow_view. by rewrite (proj2 (byte_from_upper_spec b i) H). Qed.

Lemma cow_view_lower lower upper b i :
  i / BLOCK_SIZE + 1 ≤ block_count b → ¬ copied (block_status b) (i / BLOCK_SIZE + 1) →
  cow_view lower upper b i = zget lower i.
Proof.
  intros H1 H2. unfold cow_view. destruct (byte_from_upper b i) eqn:E; [|done].
  apply byte_from_upper_spec in E as [?|?]; [lia|done].
Qed.

(** The view only depends on the statuses, the block count and the bytes. *)
Lemma cow_view_ext lower upper upper' b b' i :
  block_count b' = block_count b →
  (copied (block_status b') (i / BLOCK_SIZE + 1) ↔ copied (block_status b) (i / BLOCK_SIZE + 1)) →
  (byte_from_upper b i = true → zget upper' i = zget upper i) →
  cow_view lower upper' b' i = cow_view lower upper b i.
Proof.
  intros Hc Hs Hu. unfold cow_view.
  destruct (byte_from_upper b i) eqn:E.
  - assert (byte_from_upper b' i = true) as ->; [|by apply Hu].
    apply byte_from_upper_spec. rewrite Hc, Hs. by apply byte_from_upper_spec.
  - destruct (byte_from_upper b' i) eqn:E'; [|done].
    apply byte_from_upper_spec in E'. rewrite Hc, Hs in E'.
    apply byte_from_upper_spec in E'. congruence.
Qed.

Lemma last_block_bounds lower upper b :
  blocks_wf lower upper b →
  1 ≤ block_count b ∧ (block_count b - 1) * BLOCK_SIZE < zlen lower ≤ block_count b * BLOCK_SIZE.
Proof. intros [He Hc _ _ _ _ _ _]. rewrite Hc. unfold BLOCK_SIZE in *. lia. Qed.

(** Every block of the file is in exactly one of the two states. *)
Lemma block_status_total lower upper b k :
  blocks_wf lower upper b → 1 ≤ k ≤ block_count b →
  ∃ x, zget (block_status b) k = Some x.
Proof. intros Hwf Hk. apply zget_is_Some. rewrite (wf_len _ _ _ Hwf). lia. Qed.

(** ** Copying (a part of) an uncopied block *)

Definition block_start k : Z := (k - 1) * BLOCK_SIZE.
(** What ovl_copy_up_block is asked for: the block, or what is left of it. *)
Definition block_len lower k : Z := Z.min BLOCK_SIZE (zlen lower - block_start k).

(** The upper file holds the lower bytes of block [k]. *)
Definition filled lower upper k : Prop :=
  ∀ i, block_start k ≤ i < block_start k + BLOCK_SIZE → zget upper i = zget lower i.

Lemma copy_keeps_view lower upper b k n :
  blocks_wf lower upper b → 1 ≤ k ≤ block_count b → ¬ copied (block_status b) k →
  0 < n ≤ block_len lower k →
  let upper' := fwrite upper (block_start k) (zslice lower (block_start k) n) in
  blocks_wf lower upper' b ∧ ∀ i, 0 ≤ i → cow_view lower upper' b i = cow_view lower upper b i.
Proof.
  intros Hwf Hk Hun Hn upper'. pose proof (last_block_bounds _ _ _ Hwf) as (Hbc & Hlast).
  unfold block_len, block_start, BLOCK_SIZE in *.
  assert (zlen (zslice lower ((k - 1) * 4096) n) = n) as Hl by (apply zlen_zslice_in; lia).
  assert (zlen upper' = Z.max (zlen upper) ((k - 1) * 4096 + n)) as Hlen
    by (subst upper'; rewrite zlen_fwrite; lia).
  destruct Hwf as [H1 H2 H3 H4 H5 H6 H7 H8]. split.
  - split; auto.
    + intros j Hj Hc. specialize (H5 j Hj Hc). lia.
    + intros Hc. specialize (H6 Hc). lia.
  - intros i Hi. apply cow_view_ext; [done|done|]. intros Hu.
    apply byte_from_upper_spec in Hu. unfold BLOCK_SIZE in Hu. subst upper'.
    rewrite zget_fwrite, Hl by lia.
    rewrite decide_False by (intros ?; assert (i / 4096 + 1 = k) as E by lia;
      rewrite E in Hu; destruct Hu; [lia|done]).
    case_decide; [|done]. destruct Hu as [Hu|Hu]; [lia|].
    assert (1 ≤ i / 4096 + 1 ≤ block_count b) as Hj by lia.
    specialize (H5 _ Hj Hu). unfold BLOCK_SIZE in H5. lia.
Qed.

Lemma copy_fills lower upper b k :
  blocks_wf lower upper b → 1 ≤ k ≤ block_count b → ¬ copied (block_status b) k →
  filled lower (fwrite upper (block_start k) (zslice lower (block_start k) (block_len lower k))) k.
Proof.
  intros Hwf Hk Hun i Hi. pose proof (last_block_bounds _ _ _ Hwf) as (Hbc & Hlast).
  unfold block_len, block_start, BLOCK_SIZE in *. remember (Z.min _ _) as n eqn:En.
  assert (0 < n) by lia.
  assert (zlen (zslice lower ((k - 1) * 4096) n) = n) as Hl by (apply zlen_zslice_in; lia).
  rewrite zget_fwrite, Hl by lia. case_decide.
  - rewrite zget_zslice by lia. f_equal; lia.
  - rewrite decide_False by lia. assert (k = block_count b) as -> by lia.
    rewrite !zget_None; [done|lia|]. pose proof (wf_last _ _ _ Hwf Hun). lia.
Qed.

Lemma filled_other lower upper b k k' n :
  blocks_wf lower upper b → 1 ≤ k ≤ block_count b → 1 ≤ k' ≤ block_count b → k ≠ k' →
  0 < n ≤ block_len lower k' → filled lower upper k →
  filled lower (fwrite upper (block_start k') (zslice lower (block_start k') n)) k.
Proof.
  intros Hwf Hk Hk' Hne Hn Hf i Hi. pose proof (last_block_bounds _ _ _ Hwf) as (Hbc & Hlast).
  specialize (Hf i Hi). unfold block_len, block_start, BLOCK_SIZE in *.
  assert (zlen (zslice lower ((k' - 1) * 4096) n) = n) as Hl by (apply zlen_zslice_in; lia).
  rewrite zget_fwrite, Hl by lia. rewrite decide_False by lia.
  case_decide; [|done].
  assert (i < zlen upper); [|lia]. apply (zget_Some_bound _ _ (default x00 (zget lower i))).
  rewrite Hf. destruct (zget_is_Some lower i) as [x ->]; [lia|done].
Qed.

Lemma filled_len lower upper b k :
  blocks_wf lower upper b → 1 ≤ k ≤ block_count b → filled lower upper k →
  Z.min (k * BLOCK_SIZE) (zlen lower) ≤ zlen upper.
Proof.
  intros Hwf Hk Hf. pose proof (last_block_bounds _ _ _ Hwf) as (Hbc & Hlast).
  unfold block_start, BLOCK_SIZE in *.
  remember (Z.min (k * 4096) (zlen lower)) as e eqn:Ee.
  destruct (zget_is_Some lower (e - 1)) as [x Hx]; [lia|].
  rewrite <- (Hf (e - 1)) in Hx by (unfold block_start, BLOCK_SIZE; lia).
  apply zget_Some_bound in Hx. lia.
Qed.

(** ** The mark loop *)

Lemma count_copied_cons x b :
  count_copied (set_block_status (x :: block_status b) b) =
  zlen (filter (λ x, x ≠ UNCOPY) (block_status b)).
Proof. done. Qed.

Lemma filter_insert_copied (l : list Z) (j : nat) :
  l !! j = Some UNCOPY →
  length (filter (λ x, x ≠ UNCOPY) (<[j := COPIED]> l)) =
  S (length (filter (λ x, x ≠ UNCOPY) l)).
Proof.
  revert j. induction l as [|y l IH]; intros j; [done|]. destruct j as [|j].
  - intros [= ->]. change (<[O := COPIED]> (UNCOPY :: l)) with (COPIED :: l).
    rewrite filter_cons_True by done. rewrite filter_cons_False by naive_solver. done.
  - intros Hj. change (<[S j := COPIED]> (y :: l)) with (y :: <[j := COPIED]> l).
    rewrite !filter_cons. case_decide; [|by apply IH].
    cbn [length]. f_equal. by apply IH.
Qed.

Lemma count_copied_insert st k :
  1 ≤ k → zget st k = Some UNCOPY →
  zlen (filter (λ x, x ≠ UNCOPY) (drop 1 (<[Z.to_nat k := COPIED]> st))) =
  1 + zlen (filter (λ x, x ≠ UNCOPY) (drop 1 st)).
Proof.
  intros Hk Hz. unfold zget in Hz. rewrite decide_True in Hz by lia.
  destruct st as [|y st]; [done|]. destruct (Z.to_nat k) as [|j] eqn:E; [lia|].
  cbn in *. rewrite !drop_0. unfold zlen. rewrite filter_insert_copied by done. lia.
Qed.

Lemma count_copied_bound b :
  0 ≤ block_count b → zlen (block_status b) = block_count b + 1 →
  0 ≤ count_copied b ≤ block_count b.
Proof.
  intros H0 Hl. unfold count_copied. split; [apply zlen_nonneg|].
  assert (zlen (drop 1 (block_status b)) = block_count b) as <-.
  { unfold zlen in *. rewrite length_drop. lia. }
  unfold zlen. pose proof (length_filter (λ x, x ≠ UNCOPY) (drop 1 (block_status b))). lia.
Qed.

(** What the mark loop does to the block fields. *)
Record marked (lo hi : Z) (b b' : ovl_blocks) : Prop := {
  mk_count : block_count b' = block_count b;
  mk_len : zlen (block_status b') = zlen (block_status b);
  mk_copied k : 1 ≤ k ≤ block_count b →
    copied (block_status b') k ↔ copied (block_status b) k ∨ lo ≤ k ≤ hi;
  mk_copy_count : copy_count b = count_copied b → copy_count b' = count_copied b';
  mk_lower : lower_file b' = lower_file b;
  mk_upper : upper_file b' = upper_file b;
  mk_meta : meta_file b' = meta_file b;
}.

Lemma copied_insert st i k :
  0 ≤ i < zlen st → copied (<[Z.to_nat i := COPIED]> st) k ↔ copied st k ∨ k = i.
Proof.
  intros Hi. unfold copied. rewrite zget_insert by done. case_decide; subst.
  - split; [by right|]. intros _. by exists COPIED.
  - split; [by left|]. intros [?|?]; [done|congruence].
Qed.

Lemma mark_blocks_spec n : ∀ i b,
  1 ≤ i → i + Z.of_nat n < two64 →
  zlen (block_status b) = block_count b + 1 → 0 ≤ block_count b < 4294967296 →
  copy_count b = count_copied b →
  ∃ b', mark_blocks n i b = Ret b' ∧ marked i (i + Z.of_nat n - 1) b b' ∧
        cow_status b' = cow_status b.
Proof.
  induction n as [|n IH]; intros i b Hi Hn Hl H32 Hcc.
  { exists b. split_and!; [done| |done]. split; auto. intros k Hk. split; [by left|].
    intros [?|?]; [done|lia]. }
  cbn [mark_blocks]. destruct (Z.ltb_spec (block_count b) i) as [Hlt|Hge].
  { exists b. split_and!; [done| |done]. split; auto. intros k Hk. split; [by left|].
    intros [?|?]; [done|lia]. }
  destruct (zget_is_Some (block_status b) i) as [st Hst]; [lia|].
  unfold array_get. rewrite Hst; cbn [mbind outcome_bind].
  assert (u64 (i + 1) = i + 1) as Hu by (apply u64_small; lia).
  destruct (Z.eqb_spec st UNCOPY) as [->|Hne].
  - unfold array_set, zset. rewrite decide_True by lia. cbn [mbind outcome_bind].
    rewrite Hu. set (b1 := set_copy_count _ _).
    assert (count_copied b1 = 1 + count_copied b) as Hc1 by (by apply count_copied_insert).
    assert (zlen (block_status b1) = block_count b1 + 1) as Hl1 by (cbn; by rewrite zlen_insert).
    assert (block_count b1 = block_count b) as Hbc1 by done.
    pose proof (count_copied_bound b1 ltac:(lia) Hl1). pose proof (count_copied_bound b ltac:(lia) Hl).
    assert (copy_count b1 = count_copied b1) as Hcc1.
    { rewrite Hc1. cbn. rewrite Hcc. unfold u32. rewrite Z.mod_small; lia. }
    destruct (IH (i + 1) b1) as (b' & -> & [m1 m2 m3 m4 m6 m7 m8] & m5); [lia..|done|done|done|].
    exists b'. split_and!; [done| |done]. split; auto.
    + rewrite m2. cbn. by rewrite zlen_insert.
    + intros k Hk. rewrite m3 by done. cbn. rewrite copied_insert by lia.
      split; [intros [[?|?]|?]; auto; right; lia|].
      intros [?|?]; [by left; left|]. destruct (decide (k = i)); [by left; right|right; lia].
  - cbn [mbind outcome_bind]. rewrite Hu.
    destruct (IH (i + 1) b) as (b' & -> & [m1 m2 m3 m4 m6 m7 m8] & m5); [lia..|done|done|done|].
    exists b'. split_and!; [done| |done]. split; auto.
    intros k Hk. rewrite m3 by done.
    split; [intros [?|?]; [by left|right; lia]|].
    intros [?|?]; [by left|]. destruct (decide (k = i)) as [->|]; [|right; lia].
    left. by exists st.
Qed.

(** ** A write over prepared border blocks *)

(** Block [k] can be read from the upper file. *)
Definition ready lower upper b k : Prop := copied (block_status b) k ∨ filled lower upper k.

Lemma ready_get lower upper b F k i :
  cow_rel lower upper b F → 1 ≤ k ≤ block_count b → ready lower upper b k →
  0 ≤ i → i / BLOCK_SIZE + 1 = k → zget upper i = zget F i.
Proof.
  intros [Hwf Hv] Hk Hr Hi Hb. rewrite <- Hv by done.
  destruct (decide (copied (block_status b) k)) as [Hc|Hc].
  - rewrite cow_view_upper; [done|right; by rewrite Hb].
  - rewrite cow_view_lower by (rewrite Hb; done || lia).
    destruct Hr as [?|Hf]; [done|]. apply Hf. unfold block_start, BLOCK_SIZE in *. lia.
Qed.

Lemma zget_Some_of_lt {A} (l : list A) i : 0 ≤ i < zlen l → zget l i ≠ None.
Proof. intros Hi. destruct (zget_is_Some l i Hi) as [x ->]. done. Qed.

(** Bytes the upper file already shows keep their value under a write
    elsewhere; the hole before the write reads as zeroes on both sides. *)
Lemma fwrite_agree upper F pos d i :
  0 ≤ pos → 0 < zlen d → 0 ≤ i → zget upper i = zget F i →
  zget (fwrite upper pos d) i = zget (fwrite F pos d) i.
Proof.
  intros Hp Hd Hi He. rewrite !zget_fwrite by lia.
  case_decide; [done|].
  assert (zlen upper ≤ i ↔ zlen F ≤ i) as Hiff.
  { split; intros Hle; apply Z.le_ngt; intros Hlt.
    - apply (zget_Some_of_lt F i); [lia|]. by rewrite <- He, zget_None.
    - apply (zget_Some_of_lt upper i); [lia|]. by rewrite He, zget_None. }
  repeat case_decide; try done; lia.
Qed.

Lemma F_len_lower lower upper b F i :
  cow_rel lower upper b F → 0 ≤ i → i / BLOCK_SIZE + 1 < block_count b → i < zlen F.
Proof.
  intros HR Hi Hb. destruct HR as [Hwf Hv]. pose proof (last_block_bounds _ _ _ Hwf) as (? & ?).
  apply (zget_Some_bound _ _ (default x00 (zget F i))).
  assert (is_Some (cow_view lower upper b i)) as [x Hx]; [|rewrite <- Hv, Hx by done; done].
  unfold BLOCK_SIZE in *.
  destruct (decide (copied (block_status b) (i / 4096 + 1))) as [Hc|Hc].
  - rewrite cow_view_upper by (right; done). apply zget_is_Some.
    pose proof (wf_copied _ _ _ Hwf (i / 4096 + 1) ltac:(lia) Hc). unfold BLOCK_SIZE in *. lia.
  - rewrite cow_view_lower by (done || unfold BLOCK_SIZE; lia). apply zget_is_Some. lia.
Qed.

Section write_view.
Context (lower upper : list byte) (b b' : ovl_blocks) (F : list byte) (pos n : Z).
Context (HR : cow_rel lower upper b F).
Context (Hpos : 0 ≤ pos) (Hn : 0 < n) (Hin : pos + n < block_count b * BLOCK_SIZE).
Let start_block := pos / BLOCK_SIZE + 1.
Let end_block := (pos + n) / BLOCK_SIZE + 1.
Context (Hstart : block_start start_block < pos → ready lower upper b start_block).
Context (Hend : ready lower upper b end_block).

Lemma write_view d :
  marked start_block end_block b b' → 0 < zlen d ≤ n →
  ∀ i, 0 ≤ i → i < pos ∨ pos + n ≤ i ∨ i < pos + zlen d →
  cow_view lower (fwrite upper pos d) b' i = zget (fwrite F pos d) i.
Proof.
  intros Hm Hd i Hi Hout. pose proof HR as [Hwf Hv].
  pose proof (last_block_bounds _ _ _ Hwf) as (Hbc & Hlast).
  destruct Hm as [m1 m2 m3 _ _ _ _]. unfold start_block, end_block in *.
  remember (i / BLOCK_SIZE + 1) as k eqn:Ek.
  destruct (decide (block_count b < k)) as [Hk|Hk].
  { rewrite cow_view_upper by (left; rewrite m1, <- Ek; done).
    apply fwrite_agree; [lia..|]. rewrite <- Hv by done. by rewrite cow_view_upper by (left; rewrite <- Ek; done). }
  assert (1 ≤ k ≤ block_count b) as Hkb by (unfold BLOCK_SIZE in *; lia).
  destruct (decide (pos / BLOCK_SIZE + 1 ≤ k ≤ (pos + n) / BLOCK_SIZE + 1)) as [Hr|Hr].
  - (* a marked block *)
    rewrite cow_view_upper by (right; rewrite <- Ek; apply m3; [done|by right]).
    destruct (decide (pos ≤ i < pos + zlen d)) as [Hw|Hw].
    { by rewrite !zget_fwrite, !decide_True by lia. }
    apply fwrite_agree; [lia..|].
    assert (ready lower upper b k) as Hrd.
    { destruct (decide (i < pos)).
      - assert (k = pos / BLOCK_SIZE + 1) as -> by (unfold BLOCK_SIZE in *; lia).
        apply Hstart. unfold block_start, BLOCK_SIZE in *. lia.
      - assert (k = (pos + n) / BLOCK_SIZE + 1) as -> by (unfold BLOCK_SIZE in *; lia). done. }
    eapply ready_get; eauto.
  - (* an untouched block *)
    assert (¬ (pos ≤ i < pos + zlen d)) as Hw by (unfold BLOCK_SIZE in *; lia).
    assert (i < pos → i < zlen F) as HF.
    { intros ?. apply (F_len_lower lower upper b); [done|done|]. unfold BLOCK_SIZE in *. lia. }
    rewrite (zget_fwrite F), decide_False, decide_False by lia. rewrite <- Hv by done.
    apply cow_view_ext; [done| |].
    + rewrite <- Ek, m3 by done. split; [intros [?|?]; [done|lia]|by left].
    + intros Hu. rewrite zget_fwrite, decide_False by lia.
      case_decide as Hh; [|done]. exfalso.
      apply (zget_Some_of_lt F i); [lia|]. rewrite <- Hv by done.
      unfold cow_view. rewrite Hu. apply zget_None. lia.
Qed.

Lemma write_wf d :
  marked start_block end_block b b' → zlen d = n →
  (cow_status b' = false → copy_count b' = block_count b') →
  blocks_wf lower (fwrite upper pos d) b'.
Proof.
  intros Hm Hd Hcow. pose proof HR as [Hwf Hv].
  pose proof (last_block_bounds _ _ _ Hwf) as (Hbc & Hlast).
  destruct Hm as [m1 m2 m3 m4 _ _ _]. unfold start_block, end_block in *.
  assert (1 ≤ (pos + n) / BLOCK_SIZE + 1 ≤ block_count b) as He by (unfold BLOCK_SIZE in *; lia).
  assert (Z.min (((pos + n) / BLOCK_SIZE + 1) * BLOCK_SIZE) (zlen lower) ≤ zlen upper) as Hel.
  { destruct Hend as [Hc|Hf]; [by eapply wf_copied|by eapply filled_len]. }
  assert (zlen (fwrite upper pos d) = Z.max (zlen upper) (pos + n)) as Hlen
    by (rewrite zlen_fwrite; lia).
  pose proof (zlen_nonneg upper).
  destruct Hwf as [H1 H2 H3 H4 H5 H6 H7 H8]. split; rewrite ?m1, ?m2; auto.
  - intros k Hk. rewrite m3 by done. rewrite Hlen. intros [Hc|Hr].
    + specialize (H5 k Hk Hc). lia.
    + destruct (decide (k = (pos + n) / BLOCK_SIZE + 1)) as [->|Hne]; [lia|].
      unfold BLOCK_SIZE in *. lia.
  - intros Hc. rewrite m3 in Hc by lia. rewrite Hlen.
    assert ((pos + n) / BLOCK_SIZE + 1 < block_count b).
    { apply Z.nle_gt. intros Hge. apply Hc. right. unfold BLOCK_SIZE in *. lia. }
    assert (¬ copied (block_status b) (block_count b)) as Hc' by (intros ?; apply Hc; by left).
    specialize (H6 Hc'). unfold BLOCK_SIZE in *. lia.
  - rewrite <- m1. exact Hcow.
Qed.
End write_view.
End view.
