(* ===== verification/BlockWrite.v ===== *)
(** block_write_iter (file.c): copy of the border blocks, the write itself,
    and the marking of the written blocks. *)

From S2P Require Import Prelude Vfs Types Util Block BlockView.

Section block_write.
Context {W : Type} `{Vfs W}.
Implicit Types (w : W) (b : ovl_blocks) (s : bstate W).

(** [oi->lower_file->f_inode->i_size]: the pointer must be a file. *)
Definition file_i_size w (f : Z) : outcome Z :=
  if ptr_ok f then Ret (i_size w f) else Fault.

(** [while (ret < iter->count) { cnt = vfs_iter_write(...); if (cnt<0) return -1;
    ret += cnt; }]: the bytes [d] are what is left in the iterator. *)
Fixpoint write_loop (fuel : nat) w (realfile ret pos : Z) (d : list byte) : outcome (Z * Z * W) :=
  if u64 ret <? zlen d then
    match fuel with
    | O => NoFuel
    | S fuel =>
        let '(cnt, pos, w) := vfs_iter_write w realfile pos d in
        if cnt <? 0 then Ret (-1, pos, w)
        else write_loop fuel w realfile (ret + cnt) pos (zdrop cnt d)
    end
  else Ret (ret, pos, w).

(** The two consecutive lazy opens of block_write_iter. *)
Definition open_both (upper_path lower_path : path) s : Z * bstate W :=
  let '(r, s) := open_upper upper_path s in
  if r <? 0 then (r, s) else open_lower lower_path s.

(** Open both files if needed and copy block [blk] up. *)
Definition copy_border_block (upper_path lower_path : path) (blk : Z) s : outcome (Z * bstate W) :=
  let '(r, s) := open_both upper_path lower_path s in
  if r <? 0 then Ret (r, s) else
  lower_size ← file_i_size (bs_w s) (lower_file (bs_b s));
  let start := u64 (u64 (blk - 1) * BLOCK_SIZE) in
  let rest := u64 (lower_size - start) in
  '(r, w) ← ovl_copy_up_block (bs_w s) (lower_file (bs_b s)) (upper_file (bs_b s)) start
              (if rest <? BLOCK_SIZE then rest else BLOCK_SIZE);
  Ret (r, set_bs_w w s).

(** The O_APPEND branch: copy the last block, unbounded by [BLOCK_SIZE]. *)
Definition append_copy (upper_path lower_path : path) s : outcome (Z * bstate W) :=
  let '(r, s) := open_both upper_path lower_path s in
  if r <? 0 then Ret (r, s) else
  st ← array_get (block_status (bs_b s)) (block_count (bs_b s));
  if st =? UNCOPY then
    lower_size ← file_i_size (bs_w s) (lower_file (bs_b s));
    let start := u64 (u32 (block_count (bs_b s) - 1) * BLOCK_SIZE) in
    '(r, w) ← ovl_copy_up_block (bs_w s) (lower_file (bs_b s)) (upper_file (bs_b s)) start
                (u64 (lower_size - start));
    Ret (r, set_bs_w w s)
  else Ret (0, s).

(** The two border blocks of a write that does not append. *)
Definition border_copies (upper_path lower_path : path) (start_block end_block pos count : Z) s
    : outcome (Z * bstate W) :=
  need_start ← (if u64 (u64 (start_block - 1) * BLOCK_SIZE) <? u64 pos then
                  st ← array_get (block_status (bs_b s)) start_block; Ret (st =? UNCOPY)
                else Ret false);
  let partial : bool := need_start in
  '(r, s) ← (if (need_start : bool) then copy_border_block upper_path lower_path start_block s
             else Ret (0, s));
  if r <? 0 then Ret (r, s) else
  need_end ← (if u64 (pos + count) <? u64 (end_block * BLOCK_SIZE) then
                st ← array_get (block_status (bs_b s)) end_block; Ret (st =? UNCOPY)
              else Ret false);
  if (need_end : bool) && negb (partial && (end_block =? start_block)) then
    copy_border_block upper_path lower_path end_block s
  else Ret (r, s).

(** kfifo capacity of [meta_save_fifo], in tasks *)
Definition WORK_TASK_NUM : Z := 4096.

Definition queue_meta_save (start_block end_block : Z) s : bstate W :=
  if meta_file (bs_b s) =? NULL then s
  else
    let start := u32 start_block in
    let end_ := u32 (if block_count (bs_b s) <? end_block then block_count (bs_b s) else end_block) in
    if WORK_TASK_NUM <=? zlen (bs_fifo s) then s
    else BState (bs_w s) (bs_b s) (bs_fifo s ++ [MetaSaveTask (meta_file (bs_b s)) start end_]).

(** copy_done: the write, the marks, the task for the meta file. *)
Definition finish_write (fuel : nat) (realfile start_block end_block pos : Z) (d : list byte) s
    : outcome (Z * Z * bstate W) :=
  '(ret, pos, w) ← write_loop fuel (bs_w s) realfile 0 pos d;
  let s := set_bs_w w s in
  if ret <? 0 then Ret (ret, pos, s) else
  b ← mark_blocks (Z.to_nat (end_block + 1 - start_block)) start_block (bs_b s);
  let s := queue_meta_save start_block end_block (set_bs_b b s) in
  let b := bs_b s in
  let b := if copy_count b =? block_count b then set_cow_status false b else b in
  Ret (ret, pos, set_bs_b b s).

(** static ssize_t block_write_iter(dentry, realfile, iocb, iter): returns the
    result, the new [iocb->ki_pos] and the state. *)
Definition block_write_iter (fuel : nat) (upper_path lower_path : path) (realfile pos : Z)
    (d : list byte) s : outcome (Z * Z * bstate W) :=
  let count := zlen d in
  let start_block := ovl_get_block pos in
  let end_block := ovl_get_block (pos + count) in
  if vfs_append (bs_w s) realfile then
    '(r, s) ← append_copy upper_path lower_path s;
    if r <? 0 then Ret (r, pos, s)
    else finish_write fuel realfile (block_count (bs_b s)) (block_count (bs_b s)) pos d s
  else
    '(r, s) ← border_copies upper_path lower_path start_block end_block pos count s;
    if r <? 0 then Ret (r, pos, s)
    else finish_write fuel realfile start_block end_block pos d s.
End block_write.

(** ** Facts about opens *)

(** Block fields that matter to the view. *)
Record same_blocks (b b' : ovl_blocks) : Prop := {
  sb_count : block_count b' = block_count b;
  sb_status : block_status b' = block_status b;
  sb_copy : copy_count b' = copy_count b;
  sb_cow : cow_status b' = cow_status b;
}.

Lemma same_blocks_refl b : same_blocks b b.
Proof. by split. Qed.
Lemma same_blocks_trans b1 b2 b3 : same_blocks b1 b2 → same_blocks b2 b3 → same_blocks b1 b3.
Proof. intros [] []. split; congruence. Qed.
#[export] Hint Resolve same_blocks_refl same_blocks_trans : ovl.

Lemma same_blocks_view lower upper b b' i :
  same_blocks b b' → cow_view lower upper b' i = cow_view lower upper b i.
Proof. intros [E1 E2 E3 E4]. unfold cow_view, byte_from_upper. by rewrite E1, E2. Qed.

Lemma same_blocks_wf lower upper b b' :
  same_blocks b b' → blocks_wf lower upper b → blocks_wf lower upper b'.
Proof.
  intros [E1 E2 E3 E4] [H1 H2 H3 H4 H5 H6 H7 H8].
  split; unfold count_copied in *; rewrite ?E1, ?E2, ?E3, ?E4; auto.
Qed.

Lemma same_blocks_rel lower upper b b' F :
  same_blocks b b' → cow_rel lower upper b F → cow_rel lower upper b' F.
Proof.
  intros Hs [Hwf Hv]. split; [by eapply same_blocks_wf|].
  intros i Hi. rewrite (same_blocks_view _ _ b b') by done. by apply Hv.
Qed.

Section opens.
Context {W : Type} `{VfsLaws W}.
Implicit Types (w : W) (b : ovl_blocks) (s : bstate W).

(** The cached file pointer is NULL or an open file of inode [i]. *)
Definition cached w (f i : Z) : Prop :=
  f = NULL ∨ (0 < f ∧ vfs_isopen w f = true ∧ vfs_inode w f = i).

(** The paths lead to the inodes [u] and [l], and so do the cached files. *)
Record io_ok (up lp : path) (u l : Z) s : Prop := {
  io_ne : u ≠ l;
  io_up : vfs_dinode (bs_w s) (path_ptr up) = u;
  io_lp : vfs_dinode (bs_w s) (path_ptr lp) = l;
  io_ucache : cached (bs_w s) (upper_file (bs_b s)) u;
  io_lcache : cached (bs_w s) (lower_file (bs_b s)) l;
}.

Lemma cached_frame w w' f i : vfs_frame w w' → cached w f i → cached w' f i.
Proof.
  intros [fo fi _ _] [?|(? & ? & ?)]; [by left|right]. split_and!; [done|by apply fo|].
  by rewrite fi.
Qed.

Lemma io_ok_frame up lp u l s w' b' fifo :
  vfs_frame (bs_w s) w' → upper_file b' = upper_file (bs_b s) →
  lower_file b' = lower_file (bs_b s) →
  io_ok up lp u l s → io_ok up lp u l (BState w' b' fifo).
Proof.
  intros Hf E1 E2 [Hne Hu Hl Hc1 Hc2].
  split; cbn; rewrite ?E1, ?E2; eauto using cached_frame.
  all: destruct Hf as [_ _ _ fd]; by rewrite fd.
Qed.

(** Both opens: a cached file is kept, a new one is cached, and a failed open
    leaves its error pointer in the cache. *)
Ltac open_spec hc :=
  let E := fresh "E" in let Eo := fresh "Eo" in let Ee := fresh "Ee" in
  match goal with Hio : io_ok _ _ _ _ ?s |- _ =>
    pose proof Hio as [Hne Hu Hl Hc1 Hc2]; match goal with |- context [?x =? NULL] => destruct (x =? NULL) eqn:E end;
    [ unfold ovl_path_open; apply Z.eqb_eq in E; destruct (dentry_open _ _ _) as [f w'] eqn:Eo;
      apply law_open in Eo as (Hfr & Hsb & Hr & Hop);
      pose proof Hfr as [_ _ _ fd]; destruct (IS_ERR f) eqn:Ee;
      [ apply IS_ERR_spec in Ee; eexists _, _; split; [done|];
        split_and!; eauto with ovl; unfold PTR_ERR; try lia; by split
      | destruct Hr as [Hr|]; [|done]; destruct (Hop Hr) as [Ho Hi];
        eexists _, _; split; [done|]; split_and!; eauto with ovl; try lia; [by split|];
        intros _; split_and!; [|done|done];
        split; cbn; rewrite ?fd; eauto using cached_frame;
        right; split_and!; [done|done|congruence] ]
    | apply Z.eqb_neq in E; eexists _, _; split; [done|]; split_and!; eauto with ovl; try lia;
      intros _; split_and!; [done| |done]; by destruct hc as [|(? & _)] ]
  end.

Lemma open_upper_spec up lp u l s :
  io_ok up lp u l s →
  ∃ r s', open_upper up s = (r, s') ∧
    vfs_frame (bs_w s) (bs_w s') ∧ same_bytes (bs_w s) (bs_w s') ∧
    same_blocks (bs_b s) (bs_b s') ∧ bs_fifo s' = bs_fifo s ∧ r ≤ 0 ∧
    (r = 0 → io_ok up lp u l s' ∧ 0 < upper_file (bs_b s') ∧
             lower_file (bs_b s') = lower_file (bs_b s)).
Proof. intros Hio. unfold open_upper. open_spec Hc1. Qed.

Lemma open_lower_spec up lp u l s :
  io_ok up lp u l s →
  ∃ r s', open_lower lp s = (r, s') ∧
    vfs_frame (bs_w s) (bs_w s') ∧ same_bytes (bs_w s) (bs_w s') ∧
    same_blocks (bs_b s) (bs_b s') ∧ bs_fifo s' = bs_fifo s ∧ r ≤ 0 ∧
    (r = 0 → io_ok up lp u l s' ∧ 0 < lower_file (bs_b s') ∧
             upper_file (bs_b s') = upper_file (bs_b s)).
Proof. intros Hio. unfold open_lower. open_spec Hc2. Qed.

Lemma open_both_spec up lp u l s :
  io_ok up lp u l s →
  ∃ r s', open_both up lp s = (r, s') ∧
    vfs_frame (bs_w s) (bs_w s') ∧ same_bytes (bs_w s) (bs_w s') ∧
    same_blocks (bs_b s) (bs_b s') ∧ bs_fifo s' = bs_fifo s ∧ r ≤ 0 ∧
    (r = 0 → io_ok up lp u l s' ∧ 0 < upper_file (bs_b s') ∧ 0 < lower_file (bs_b s')).
Proof.
  intros Hio. unfold open_both.
  destruct (open_upper_spec up lp u l s Hio) as (r & s1 & -> & F1 & B1 & S1 & Q1 & R1 & O1).
  destruct (Z.ltb_spec r 0) as [Hr|Hr].
  { eexists _, _. split; [done|]. split_and!; eauto. lia. }
  destruct (O1 ltac:(lia)) as (Hio1 & Hup & _).
  destruct (open_lower_spec up lp u l s1 Hio1) as (r2 & s2 & -> & F2 & B2 & S2 & Q2 & R2 & O2).
  eexists _, _. split; [done|]. split_and!; eauto with ovl; [congruence|].
  intros Hr2. destruct (O2 Hr2) as (? & ? & ->). done.
Qed.
End opens.

(** ** The border copies *)

Section borders.
Context {W : Type} `{VfsLaws W}.
Implicit Types (w : W) (b : ovl_blocks) (s : bstate W).
Context (up lp : path) (u l : Z).
Local Abbreviation upper s := (vfs_bytes (bs_w s) u).
Local Abbreviation lower s := (vfs_bytes (bs_w s) l).

(** What a copy of border blocks may change: the upper file, invisibly. *)
Record border_post (F : list byte) s (r : Z) s' : Prop := {
  bp_frame : vfs_frame (bs_w s) (bs_w s');
  bp_other i : i ≠ u → vfs_bytes (bs_w s') i = vfs_bytes (bs_w s) i;
  bp_blocks : same_blocks (bs_b s) (bs_b s');
  bp_fifo : bs_fifo s' = bs_fifo s;
  bp_neg : r ≤ 0;
  bp_rel : cow_rel (lower s') (upper s') (bs_b s') F;
  bp_ok : r = 0 → io_ok up lp u l s';
}.

Lemma border_post_same F s r s' :
  u ≠ l → cow_rel (lower s) (upper s) (bs_b s) F →
  vfs_frame (bs_w s) (bs_w s') → same_bytes (bs_w s) (bs_w s') →
  same_blocks (bs_b s) (bs_b s') → bs_fifo s' = bs_fifo s → r ≤ 0 →
  (r = 0 → io_ok up lp u l s') → border_post F s r s'.
Proof.
  intros Hne HR Hf Hs Hb Hq Hr Hok. split; auto. rewrite !Hs. by eapply same_blocks_rel.
Qed.

Lemma border_post_refl F s :
  io_ok up lp u l s → cow_rel (lower s) (upper s) (bs_b s) F → border_post F s 0 s.
Proof. intros Hio HR. split; eauto with ovl; done. Qed.

Lemma border_post_trans F s1 r s2 r' s3 :
  border_post F s1 r s2 → border_post F s2 r' s3 → border_post F s1 r' s3.
Proof.
  intros [F1 O1 B1 Q1 N1 R1 K1] [F2 O2 B2 Q2 N2 R2 K2]. split; eauto with ovl; try congruence.
  intros i Hi. by rewrite O2, O1.
Qed.

Lemma block_rest_len (lsize k bc : Z) :
  1 ≤ k ≤ bc → (bc - 1) * BLOCK_SIZE < lsize ≤ bc * BLOCK_SIZE → lsize < max_file →
  u64 (u64 (k - 1) * BLOCK_SIZE) = block_start k ∧
  (let rest := u64 (lsize - block_start k) in if rest <? BLOCK_SIZE then rest else BLOCK_SIZE) =
    Z.min BLOCK_SIZE (lsize - block_start k).
Proof.
  intros Hk Hl Hm. unfold block_start, max_file, BLOCK_SIZE in *. cbn zeta.
  rewrite (u64_small (k - 1)) by (unfold two64; lia).
  rewrite !u64_small by (unfold two64; lia). split; [done|].
  destruct (Z.ltb_spec (lsize - (k - 1) * 4096) 4096); lia.
Qed.

Lemma cow_rel_copy lo lo' upp b F k n :
  lo' = lo → cow_rel lo upp b F → 1 ≤ k ≤ block_count b → ¬ copied (block_status b) k →
  0 ≤ n ≤ block_len lo k →
  cow_rel lo' (fwrite upp (block_start k) (zslice lo (block_start k) n)) b F.
Proof.
  intros -> [Hwf Hv] Hk Hun Hn. destruct (decide (n = 0)) as [->|].
  { by rewrite zslice_0. }
  destruct (copy_keeps_view lo upp b k n Hwf Hk Hun ltac:(lia)) as [Hwf' Hv'].
  split; [done|]. intros i Hi. rewrite Hv' by done. by apply Hv.
Qed.

(** The common part of the two callers: opens, then one copy of [len] bytes at
    the start of block [k]. *)
Lemma border_copy_step F s s2 k n r w' :
  io_ok up lp u l s2 → border_post F s 0 s2 → same_bytes (bs_w s) (bs_w s2) →
  1 ≤ k ≤ block_count (bs_b s2) → ¬ copied (block_status (bs_b s2)) k →
  vfs_frame (bs_w s2) w' → 0 ≤ n ≤ block_len (lower s2) k → r ≤ 0 →
  set_bytes (bs_w s2) w' u (fwrite (upper s2) (block_start k) (zslice (lower s2) (block_start k) n)) →
  let s' := set_bs_w w' s2 in
  border_post F s r s' ∧
  (n = block_len (lower s2) k → filled (lower s') (upper s') k) ∧
  (∀ k', 1 ≤ k' ≤ block_count (bs_b s2) → k' ≠ k →
     filled (lower s) (upper s) k' → filled (lower s') (upper s') k').
Proof.
  intros Hio [] B Hk Hun Fw Hn Hr [Hset Hoth] s'. pose proof (io_ne _ _ _ _ _ Hio) as Hne.
  assert (vfs_bytes w' l = lower s2) as Elow by (apply Hoth; congruence).
  subst s'. cbn [bs_w bs_b bs_fifo set_bs_w]. rewrite Elow, Hset. split_and!.
  - split; cbn [bs_w bs_b bs_fifo set_bs_w]; auto.
    + eauto with ovl.
    + intros i Hi. by rewrite Hoth, B.
    + rewrite Hset. by apply cow_rel_copy.
    + intros _. by eapply io_ok_frame.
  - intros ->. apply (copy_fills _ _ (bs_b s2)); auto. apply bp_rel0.
  - intros k' Hk' Hnk Hf. rewrite <- !B in Hf. destruct (decide (n = 0)) as [->|].
    { by rewrite zslice_0. }
    apply (filled_other _ _ (bs_b s2)); auto; [apply bp_rel0|lia].
Qed.

(** ovl_copy_up_block between the two cached files. *)
Lemma cached_copy s k F :
  io_ok up lp u l s → 0 < upper_file (bs_b s) → 0 < lower_file (bs_b s) →
  cow_rel (lower s) (upper s) (bs_b s) F → 1 ≤ k ≤ block_count (bs_b s) →
  ∃ r w' n,
    file_i_size (bs_w s) (lower_file (bs_b s)) = Ret (zlen (lower s)) ∧
    ovl_copy_up_block (bs_w s) (lower_file (bs_b s)) (upper_file (bs_b s)) (block_start k)
      (block_len (lower s) k) = Ret (r, w') ∧
    vfs_frame (bs_w s) w' ∧ 0 ≤ n ≤ block_len (lower s) k ∧ r ≤ 0 ∧
    (r = 0 → n = block_len (lower s) k) ∧
    set_bytes (bs_w s) w' u (fwrite (upper s) (block_start k) (zslice (lower s) (block_start k) n)).
Proof.
  intros Hio Hup Hlp HR Hk.
  pose proof (last_block_bounds _ _ _ (proj1 HR)) as (Hbc & Hlast).
  pose proof (wf_nonempty _ _ _ (proj1 HR)) as Hsz.
  pose proof Hio as [Hne _ _ [Hz|(_ & Huo & Hui)] [Hz'|(_ & Hlo & Hli)]]; unfold NULL in *; [lia..|].
  assert (i_size (bs_w s) (lower_file (bs_b s)) = zlen (lower s)) as Esz
    by (unfold i_size; by rewrite Hli).
  destruct (ovl_copy_up_block_spec (bs_w s) (lower_file (bs_b s)) (upper_file (bs_b s))
    (block_start k) (block_len (lower s) k)) as (r & w' & n & E & Fw & Hc & Hn & Hr & Hfull).
  { split_and!; [done..|congruence]. }
  { by apply ptr_ok_pos. } { by apply ptr_ok_pos. }
  { unfold block_start, BLOCK_SIZE. lia. }
  { unfold block_len, block_start, two64, max_file, BLOCK_SIZE in *. lia. }
  destruct Hc as (Hn0 & _ & Hset). rewrite Hui, Hli in Hset.
  exists r, w', n. split_and!; auto.
  - unfold file_i_size. by rewrite (proj2 (ptr_ok_pos _) Hlp), Esz.
  - intros Hr0. destruct (Hfull Hr0) as [?|Hle]; [done|]. rewrite Esz in Hle.
    unfold block_len in *. lia.
Qed.

Lemma copy_border_block_spec F s k :
  io_ok up lp u l s → cow_rel (lower s) (upper s) (bs_b s) F →
  1 ≤ k ≤ block_count (bs_b s) → ¬ copied (block_status (bs_b s)) k →
  ∃ r s', copy_border_block up lp k s = Ret (r, s') ∧ border_post F s r s' ∧
    (r = 0 → filled (lower s') (upper s') k) ∧
    (∀ k', 1 ≤ k' ≤ block_count (bs_b s) → k' ≠ k →
       filled (lower s) (upper s) k' → filled (lower s') (upper s') k').
Proof.
  intros Hio HR Hk Hun. unfold copy_border_block. pose proof (io_ne _ _ _ _ _ Hio) as Hne.
  destruct (open_both_spec up lp u l s Hio) as (r & s2 & -> & F2 & B2 & S2 & Q2 & R2 & O2).
  pose proof (border_post_same F s r s2 Hne HR F2 B2 S2 Q2 R2) as P2.
  destruct (Z.ltb_spec r 0) as [Hr|Hr].
  { eexists _, _. split; [done|]. rewrite !B2. split_and!; [apply P2; lia|lia|done]. }
  assert (r = 0) as -> by lia. destruct (O2 eq_refl) as (Hio2 & Hup & Hlp).
  specialize (P2 (λ _, Hio2)). pose proof (bp_rel _ _ _ _ P2) as HR2.
  rewrite <- (sb_count _ _ S2) in *. rewrite <- (sb_status _ _ S2) in Hun.
  destruct (cached_copy s2 k F) as (r & w' & n & Esz & E & Fw & Hn & Hr2 & Hfull & Hset); auto.
  rewrite Esz. cbn [mbind outcome_bind].
  pose proof (last_block_bounds _ _ _ (proj1 HR2)) as (Hbc & Hlast).
  pose proof (wf_nonempty _ _ _ (proj1 HR2)) as Hsz.
  destruct (block_rest_len (zlen (lower s2)) k (block_count (bs_b s2))) as [Es El]; [lia..|].
  cbn zeta in El. rewrite Es, El. fold (block_len (lower s2) k). rewrite E. cbn [mbind outcome_bind].
  destruct (border_copy_step F s s2 k n r w') as (P3 & Hf & Hk'); auto.
  eexists _, _. split; [done|]. split_and!; auto.
Qed.
End borders.
