(* ===== verification/BlockWriteSpec.v ===== *)
(** Correctness of block_write_iter: over a kernel that does not fail it
    implements a write to a plain file; over any kernel it never disturbs the
    bytes outside the written range. *)

From S2P Require Import Prelude Vfs Types Util Block BlockView BlockWrite.

Section spec.
Context {W : Type} `{VfsLaws W}.
Implicit Types (w : W) (b : ovl_blocks) (s : bstate W) (F d : list byte).
Context (up lp : path) (u l : Z).
Local Abbreviation upper s := (vfs_bytes (bs_w s) u).
Local Abbreviation lower s := (vfs_bytes (bs_w s) l).

Lemma status_get lo upp b k :
  blocks_wf lo upp b → 1 ≤ k ≤ block_count b →
  ∃ st, array_get (block_status b) k = Ret st ∧
        ((st =? UNCOPY) = true ↔ ¬ copied (block_status b) k).
Proof.
  intros Hwf Hk. destruct (block_status_total _ _ _ _ Hwf Hk) as [st Hst].
  exists st. unfold array_get. rewrite Hst. split; [done|]. rewrite Z.eqb_eq. split.
  - intros -> (x & Hx & Hne). congruence.
  - intros Hn. destruct (decide (st = UNCOPY)); [done|]. destruct Hn. by exists st.
Qed.

Lemma border_copies_spec F s pos n :
  io_ok up lp u l s → cow_rel (lower s) (upper s) (bs_b s) F →
  0 ≤ pos → 0 < n → pos + n < block_count (bs_b s) * BLOCK_SIZE →
  let sb := pos / BLOCK_SIZE + 1 in let eb := (pos + n) / BLOCK_SIZE + 1 in
  ∃ r s', border_copies up lp sb eb pos n s = Ret (r, s') ∧ border_post up lp u l F s r s' ∧
    (r = 0 → (block_start sb < pos → ready (lower s') (upper s') (bs_b s') sb) ∧
             ready (lower s') (upper s') (bs_b s') eb).
Proof.
  intros Hio HR Hpos Hn Hin sb eb. pose proof HR as [Hwf _].
  pose proof (wf_count32 _ _ _ Hwf) as H32.
  assert (1 ≤ sb ≤ block_count (bs_b s) ∧ 1 ≤ eb ≤ block_count (bs_b s)) as [Hsb Heb]
    by (subst sb eb; unfold BLOCK_SIZE in *; lia).
  unfold border_copies.
  destruct (status_get _ _ _ sb Hwf Hsb) as (st1 & E1 & C1).
  destruct (status_get _ _ _ eb Hwf Heb) as (st2 & E2 & C2).
  assert (u64 (u64 (sb - 1) * BLOCK_SIZE) = block_start sb) as ->.
  { unfold block_start. rewrite (u64_small (sb - 1)), u64_small; unfold two64, BLOCK_SIZE in *; lia. }
  rewrite !(u64_small pos), !(u64_small (pos + n)), (u64_small (eb * BLOCK_SIZE))
    by (unfold two64, BLOCK_SIZE in *; lia).
  rewrite (proj2 (Z.ltb_lt (pos + n) _)) by (subst eb; unfold BLOCK_SIZE in *; lia).
  set (need := (block_start sb <? pos) && (st1 =? UNCOPY)).
  assert ((if block_start sb <? pos then st ← array_get (block_status (bs_b s)) sb; Ret (st =? UNCOPY)
           else Ret false) = Ret need) as ->.
  { subst need. destruct (block_start sb <? pos); [|done]. by rewrite E1. }
  cbn [mbind outcome_bind].
  assert (∃ r s1, (if need then copy_border_block up lp sb s else Ret (0, s)) = Ret (r, s1) ∧
            border_post up lp u l F s r s1 ∧
            (r = 0 → need = true → filled (lower s1) (upper s1) sb)) as (r & s1 & -> & P1 & Hf1).
  { destruct need eqn:En.
    - apply andb_true_iff in En as [_ En]. apply C1 in En.
      destruct (copy_border_block_spec up lp u l F s sb) as (r & s1 & -> & P & Hf & _); auto.
      eexists _, _. split_and!; eauto.
    - eexists _, _. split; [done|]. split; [by apply border_post_refl|done]. }
  cbn [mbind outcome_bind]. pose proof P1 as [_ _ B1 _ N1 R1 K1].
  destruct (Z.ltb_spec r 0) as [Hr|Hr].
  { eexists _, _. split; [done|]. split; [done|lia]. }
  assert (r = 0) as -> by lia. specialize (K1 eq_refl). specialize (Hf1 eq_refl).
  rewrite (sb_status _ _ B1), E2. cbn [mbind outcome_bind].
  rewrite <- (sb_status _ _ B1) in C1, C2. rewrite <- (sb_count _ _ B1) in Hsb, Heb.
  assert (block_start sb < pos → ready (lower s1) (upper s1) (bs_b s1) sb) as Hready.
  { intros Hlt%Z.ltb_lt. destruct (st1 =? UNCOPY) eqn:Es.
    - right. apply Hf1. subst need. by rewrite Hlt.
    - left. destruct (decide (copied (block_status (bs_b s1)) sb)) as [|Hc]; [done|].
      apply C1 in Hc. congruence. }
  destruct (st2 =? UNCOPY) eqn:Es2; cbn [andb].
  - pose proof (proj1 C2 eq_refl) as Hun2.
    destruct (need && (eb =? sb)) eqn:Enb; cbn [negb].
    + apply andb_true_iff in Enb as [En Eeq%Z.eqb_eq]. eexists _, _. split; [done|].
      split; [done|]. intros _. split; [done|]. right. rewrite Eeq. by apply Hf1.
    + destruct (copy_border_block_spec up lp u l F s1 eb) as (r & s2 & -> & P2 & Hf & Hk); eauto.
      eexists _, _. split; [done|]. split; [by eapply border_post_trans|].
      intros Hr0. split; [|right; by apply Hf]. intros Hlt.
      destruct (Hready Hlt) as [Hc|Hc].
      * left. by rewrite (sb_status _ _ (bp_blocks _ _ _ _ _ _ _ _ P2)).
      * destruct (decide (sb = eb)) as [->|Hne]; [right; by apply Hf|].
        right. by apply Hk.
  - eexists _, _. split; [done|]. split; [done|]. intros _. split; [done|].
    left. destruct (decide (copied (block_status (bs_b s1)) eb)) as [|Hc]; [done|].
    apply C2 in Hc. congruence.
Qed.

(** ** The write loop *)

Lemma fwrite_app c p d1 d2 :
  0 ≤ p → fwrite (fwrite c p d1) (p + zlen d1) d2 = fwrite c p (d1 ++ d2).
Proof.
  intros Hp. destruct (decide (zlen d1 = 0)) as [E|Hd1].
  { rewrite (zlen_nil_inv d1) by lia. change (zlen (@nil byte)) with 0. by rewrite Z.add_0_r. }
  destruct (decide (zlen d2 = 0)) as [E|Hd2].
  { rewrite (zlen_nil_inv d2) by lia. by rewrite app_nil_r. }
  pose proof (zlen_nonneg d1). pose proof (zlen_nonneg d2). pose proof (zlen_nonneg c).
  apply zlist_ext. intros i Hi.
  rewrite !zget_fwrite, zlen_fwrite, zlen_app, zget_app by (rewrite ?zlen_app; lia).
  repeat case_decide; try lia; try done.
  f_equal. lia.
Qed.

Lemma ztake_zdrop {A} n m (l0 : list A) :
  0 ≤ n → 0 ≤ m → ztake n l0 ++ ztake m (zdrop n l0) = ztake (n + m) l0.
Proof.
  intros. unfold ztake, zdrop. rewrite Z2Nat.inj_add by lia.
  rewrite take_take_drop. done.
Qed.

(** [ret] bytes are in, [d] is left: the loop runs until [ret] reaches the
    count left, or a write fails. *)
Lemma write_loop_spec fuel : ∀ w0 w f p0 ret d0,
  vfs_isopen w0 f = true → vfs_append w0 f = false → vfs_inode w0 f = u →
  vfs_frame w0 w → 0 ≤ p0 → 0 ≤ ret ≤ zlen d0 → zlen d0 < two64 →
  set_bytes w0 w u (fwrite (vfs_bytes w0 u) p0 (ztake ret d0)) →
  match write_loop fuel w f ret (p0 + ret) (zdrop ret d0) with
  | Ret (r, p', w') => ∃ m, 0 ≤ m ≤ zlen d0 ∧ vfs_frame w0 w' ∧
      set_bytes w0 w' u (fwrite (vfs_bytes w0 u) p0 (ztake m d0)) ∧
      (r = -1 ∨ r = m ∧ p' = p0 + m ∧ zlen d0 - m ≤ m)
  | Fault => False
  | NoFuel => True
  end.
Proof.
  induction fuel as [|fuel IH]; intros w0 w f p0 ret d0 Ho Ha Hi Hfr Hp0 Hret Hd0 Hset;
    cbn [write_loop]; rewrite u64_small by lia; rewrite zlen_zdrop by lia.
  all: destruct (Z.ltb_spec ret (Z.max 0 (zlen d0 - ret))) as [Hlt|Hge].
  all: try (exists ret; split_and!; auto; try lia; right; split_and!; done || lia).
  { done. }
  destruct (vfs_iter_write w f (p0 + ret) (zdrop ret d0)) as [[cnt p'] w'] eqn:E.
  pose proof Hfr as [fo fi fa fd].
  apply law_write in E as (Fw & Hle & Hneg & Hzero & Hpos); [|lia].
  rewrite zlen_zdrop in Hle by lia. rewrite (fa f Ho), Ha, (fi f Ho), Hi in Hpos.
  destruct Hset as [Hs1 Hs2].
  destruct (Z.ltb_spec cnt 0) as [Hc|Hc].
  { exists ret. pose proof (Hneg ltac:(lia)) as Hsame. split_and!; try lia; eauto with ovl.
    split; [by rewrite Hsame|]. intros i Hne. by rewrite Hsame, Hs2. }
  assert (set_bytes w0 w' u (fwrite (vfs_bytes w0 u) p0 (ztake (ret + cnt) d0)) ∧
          p' = p0 + (ret + cnt)) as (Hset' & ->).
  { destruct (decide (cnt = 0)) as [->|Hc0].
    - pose proof (Hneg ltac:(lia)) as Hsame. rewrite Hzero by (done || by rewrite fa). 
      rewrite !Z.add_0_r. split; [|done].
      split; [by rewrite Hsame|]. intros i Hne. by rewrite Hsame, Hs2.
    - destruct (Hpos ltac:(lia)) as (-> & Hw1 & Hw2). split; [|lia]. split.
      + rewrite Hw1, Hs1, <- ztake_zdrop by lia.
        rewrite <- fwrite_app, zlen_ztake by lia. do 2 f_equal. lia.
      + intros i Hne. by rewrite Hw2, Hs2. }
  assert (zdrop cnt (zdrop ret d0) = zdrop (ret + cnt) d0) as ->
    by (unfold zdrop; rewrite drop_drop; f_equal; lia).
  apply IH; eauto with ovl; lia.
Qed.

(** ** What one write does *)

Lemma view_write_outside lo upp b F pos d i :
  cow_rel lo upp b F → 0 ≤ pos → 0 ≤ i < zlen F → i < pos ∨ pos + zlen d ≤ i →
  cow_view lo (fwrite upp pos d) b i = zget F i.
Proof.
  intros [_ Hv] Hpos Hi Hout. rewrite <- Hv by lia.
  destruct (decide (zlen d = 0)) as [E|Hd]; [by rewrite (zlen_nil_inv d) by lia|].
  apply cow_view_ext; [done..|]. intros Hu. pose proof (zlen_nonneg d).
  rewrite zget_fwrite, decide_False by lia. case_decide as Hh; [|done]. exfalso.
  apply (zget_Some_of_lt F i); [done|]. rewrite <- Hv by lia.
  unfold cow_view. rewrite Hu. apply zget_None. lia.
Qed.

(** The outcome of a write of [d] at [pos] to the file [F]. *)
Record write_post F pos d s (r p' : Z) s' : Prop := {
  wp_frame : vfs_frame (bs_w s) (bs_w s');
  wp_other i : i ≠ u → vfs_bytes (bs_w s') i = vfs_bytes (bs_w s) i;
  wp_outside i : 0 ≤ i < zlen F → i < pos ∨ pos + zlen d ≤ i →
    cow_view (lower s') (upper s') (bs_b s') i = zget F i;
  wp_full : r = zlen d →
    p' = pos + zlen d ∧ io_ok up lp u l s' ∧
    cow_rel (lower s') (upper s') (bs_b s') (fwrite F pos d);
}.

Lemma queue_meta_save_frame sb eb s :
  bs_w (queue_meta_save sb eb s) = bs_w s ∧ bs_b (queue_meta_save sb eb s) = bs_b s.
Proof. unfold queue_meta_save. by repeat case_match. Qed.

(** The state after the marks, [d1] having been written. *)
Lemma write_marked F s pos d d1 b' w' :
  let sb := pos / BLOCK_SIZE + 1 in let eb := (pos + zlen d) / BLOCK_SIZE + 1 in
  io_ok up lp u l s → cow_rel (lower s) (upper s) (bs_b s) F →
  0 ≤ pos → 0 < zlen d1 ≤ zlen d → pos + zlen d < block_count (bs_b s) * BLOCK_SIZE →
  (block_start sb < pos → ready (lower s) (upper s) (bs_b s) sb) →
  ready (lower s) (upper s) (bs_b s) eb →
  marked sb eb (bs_b s) b' → (cow_status b' = false → copy_count b' = block_count b') →
  set_bytes (bs_w s) w' u (fwrite (upper s) pos d1) →
  (∀ i, 0 ≤ i < zlen F → i < pos ∨ pos + zlen d ≤ i →
    cow_view (vfs_bytes w' l) (vfs_bytes w' u) b' i = zget F i) ∧
  (d1 = d → cow_rel (vfs_bytes w' l) (vfs_bytes w' u) b' (fwrite F pos d)).
Proof.
  intros sb eb Hio HR Hpos Hd Hin Hst Hen Hm Hcow [-> Hoth].
  rewrite Hoth by (pose proof (io_ne _ _ _ _ _ Hio); congruence). split.
  - intros i Hi Hout. rewrite (write_view _ _ (bs_b s) _ F pos (zlen d)) by (done || lia).
    rewrite zget_fwrite by lia. by rewrite !decide_False by lia.
  - intros ->. split.
    + eapply (write_wf _ _ (bs_b s) b' F pos (zlen d)); eauto; lia.
    + intros i Hi. apply (write_view _ _ (bs_b s) b' F pos (zlen d)); auto; lia.
Qed.

Lemma finish_write_spec fuel F s f pos d :
  let sb := pos / BLOCK_SIZE + 1 in let eb := (pos + zlen d) / BLOCK_SIZE + 1 in
  io_ok up lp u l s → cow_rel (lower s) (upper s) (bs_b s) F → cow_status (bs_b s) = true →
  vfs_isopen (bs_w s) f = true → vfs_append (bs_w s) f = false → vfs_inode (bs_w s) f = u →
  0 ≤ pos → 0 < zlen d → pos + zlen d < block_count (bs_b s) * BLOCK_SIZE →
  (block_start sb < pos → ready (lower s) (upper s) (bs_b s) sb) →
  ready (lower s) (upper s) (bs_b s) eb →
  match finish_write fuel f sb eb pos d s with
  | Ret (r, p', s') => write_post F pos d s r p' s'
  | Fault => False
  | NoFuel => True
  end.
Proof.
  intros sb eb Hio HR Hcow Ho Ha Hi Hpos Hd Hin Hst Hen. unfold finish_write.
  pose proof HR as [Hwf _]. pose proof (wf_count32 _ _ _ Hwf) as H32.
  pose proof (last_block_bounds _ _ _ Hwf) as [Hbc _].
  assert (zlen d < two64) as Hd64 by (unfold two64, BLOCK_SIZE in *; lia).
  pose proof (write_loop_spec fuel (bs_w s) (bs_w s) f pos 0 d Ho Ha Hi) as HL.
  rewrite Z.add_0_r in HL. change (zdrop 0 d) with d in HL.
  specialize (HL (frame_refl _) Hpos ltac:(lia) Hd64 (conj eq_refl (λ _ _, eq_refl))).
  destruct (write_loop fuel (bs_w s) f 0 pos d) as [[[r p'] w']| |]; [|done..].
  cbn [mbind outcome_bind]. destruct HL as (m & Hm & Fw & Hset & Hr).
  assert (zlen (ztake m d) = m) as Hdm by (rewrite zlen_ztake; lia).
  assert (vfs_bytes w' l = lower s) as Hlow
    by (apply Hset; pose proof (io_ne _ _ _ _ _ Hio); congruence).
  destruct (Z.ltb_spec r 0) as [Hr0|Hr0].
  { split; cbn [bs_w bs_b set_bs_w].
    - done.
    - apply Hset.
    - intros i Hib Hout. rewrite Hlow, (proj1 Hset). apply view_write_outside; auto; lia.
    - lia. }
  destruct Hr as [->|(-> & -> & Hm2)]; [lia|].
  destruct (mark_blocks_spec (Z.to_nat (eb + 1 - sb)) sb (bs_b s)) as (b' & E & Hmk & Hcw).
  all: try (destruct Hwf; done || (subst sb eb; unfold two64, BLOCK_SIZE in *; lia)).
  cbn [bs_b set_bs_w]. rewrite E. cbn [mbind outcome_bind].
  destruct (queue_meta_save_frame sb eb (set_bs_b b' (set_bs_w w' s))) as [Ew Eb].
  set (s2 := queue_meta_save sb eb (set_bs_b b' (set_bs_w w' s))) in *.
  rewrite Eb. cbn [bs_b set_bs_b].
  set (b2 := if copy_count b' =? block_count b' then set_cow_status false b' else b').
  assert (sb + Z.of_nat (Z.to_nat (eb + 1 - sb)) - 1 = eb) as Eeb
    by (subst sb eb; unfold BLOCK_SIZE; lia).
  rewrite Eeb in Hmk.
  assert (marked sb eb (bs_b s) b2) as Hmk2
    by (destruct Hmk; subst b2; destruct (_ =? _); split; auto).
  assert (cow_status b2 = false → copy_count b2 = block_count b2) as Hcw2.
  { subst b2. destruct (Z.eqb_spec (copy_count b') (block_count b')); [done|congruence]. }
  destruct (write_marked F s pos d (ztake m d) b2 w') as [Hv Hfull]; auto; [lia|].
  split; cbn [bs_w bs_b set_bs_b]; rewrite Ew; cbn [bs_w set_bs_b set_bs_w].
  - done.
  - apply Hset.
  - done.
  - intros ->. split_and!; [done| |].
    + unfold set_bs_b at 1. rewrite Ew. destruct Hmk2. by apply (io_ok_frame up lp u l s).
    + apply Hfull. unfold ztake. apply firstn_all2. unfold zlen. lia.
Qed.

(** block_write_iter on the block state of a partly copied file. *)
Lemma block_write_iter_spec fuel F s f pos d :
  io_ok up lp u l s → cow_rel (lower s) (upper s) (bs_b s) F → cow_status (bs_b s) = true →
  vfs_isopen (bs_w s) f = true → vfs_append (bs_w s) f = false → vfs_inode (bs_w s) f = u →
  0 ≤ pos → 0 < zlen d → pos + zlen d < block_count (bs_b s) * BLOCK_SIZE →
  match block_write_iter fuel up lp f pos d s with
  | Ret (r, p', s') => write_post F pos d s r p' s'
  | Fault => False
  | NoFuel => True
  end.
Proof.
  intros Hio HR Hcow Ho Ha Hi Hpos Hd Hin. unfold block_write_iter. rewrite Ha.
  pose proof (wf_count32 _ _ _ (proj1 HR)) as H32.
  rewrite !ovl_get_block_spec by (unfold two64, BLOCK_SIZE in *; lia).
  destruct (border_copies_spec F s pos (zlen d)) as (r & s1 & E & P & Hrd); auto.
  cbn zeta in E. rewrite E. cbn [mbind outcome_bind].
  pose proof P as [Fr Oth Sb _ Neg HR1 Ok].
  destruct (Z.ltb_spec r 0) as [Hr|Hr].
  { split; [done|done| |lia]. intros i Hib _. destruct HR1 as [_ Hv]. apply Hv; lia. }
  assert (r = 0) as -> by lia. destruct (Hrd eq_refl) as [Hst Hen].
  pose proof Fr as [fo fi fa fd].
  pose proof (finish_write_spec fuel F s1 f pos d) as HF. cbn zeta in HF.
  rewrite (sb_count _ _ Sb), (sb_cow _ _ Sb), (fa f Ho), (fi f Ho) in HF.
  specialize (HF (Ok eq_refl) HR1 Hcow (fo f Ho) Ha Hi Hpos Hd Hin Hst Hen).
  destruct (finish_write _ _ _ _ _ _ _) as [[[r p'] s']| |]; [|done..].
  destruct HF as [F1 F2 F3 F4]. split; eauto with ovl.
  intros i Hne. by rewrite F2, Oth.
Qed.
End spec.

(** ** The run in which the kernel does not fail *)

Section reliable.
Context {W : Type} `{VfsLaws W} `{!VfsReliable W}.
Implicit Types (w : W) (b : ovl_blocks) (s : bstate W) (F d : list byte).

Lemma copy_up_loop_reliable fuel : ∀ w lf uf p len,
  files_ok w lf uf → 0 ≤ p → 0 ≤ len < two64 →
  (Z.to_nat len ≤ fuel)%nat → ∃ w', copy_up_loop fuel w lf uf p p len = Ret (0, w').
Proof.
  induction fuel as [|fuel IH]; intros w lf uf p len Hf Hp Hlen Hfuel; cbn [copy_up_loop];
    (destruct (Z.eqb_spec len 0) as [->|Hne]; [by eexists|]); [lia|].
  rewrite u64_small by lia. set (n := if len <? _ then _ else _).
  assert (0 < n ≤ len) as Hn.
  { subst n. assert (OVL_COPY_UP_CHUNK_SIZE = 1048576) by done.
    destruct (Z.ltb_spec len OVL_COPY_UP_CHUNK_SIZE); lia. }
  pose proof (rel_signal w) as Hsig. destruct (signal_pending w) as [sig w1] eqn:Es.
  apply law_signal in Es as [Fs Bs]. cbn in Hsig. subst sig.
  pose proof Hf as (Ho & Ho' & Hd). pose proof Fs as [fo fi _ _].
  assert (i_size w1 lf = i_size w lf) as Esz by (unfold i_size; by rewrite fi, Bs).
  pose proof (rel_splice_eof w1 lf p uf p n Hp Hp ltac:(lia)) as Hgt.
  destruct (do_splice_direct w1 lf p uf p n) as [k w2] eqn:Ep. cbn in Hgt.
  apply law_splice in Ep as (Fp & Hle & _ & _ & Hk); [|lia..].
  destruct (Z.leb_spec k 0); [exists w2; repeat f_equal; lia|].
  apply IH; try lia. eapply files_ok_frame; [|exact Hf]. eauto with ovl.
Qed.

Lemma ovl_copy_up_block_reliable w lf uf pos len :
  files_ok w lf uf → ptr_ok lf = true → ptr_ok uf = true → 0 ≤ pos → 0 ≤ len < two64 →
  ∃ w', ovl_copy_up_block w lf uf pos len = Ret (0, w').
Proof.
  intros Hf Hl Hu Hpos Hlen. unfold ovl_copy_up_block.
  destruct (Z.eqb_spec len 0); [by eexists|]. rewrite Hl, Hu; cbn [andb negb].
  destruct (do_clone_file_range _ _ _ _ _ _) as [cl w1] eqn:Ec.
  apply law_clone in Ec as (Fc & Hne & _); [|lia..].
  destruct (Z.eqb_spec cl len); [by eexists|]. specialize (Hne ltac:(done)).
  pose proof Hf as (Ho & Ho' & Hd). pose proof Fc as [_ fi _ _].
  apply copy_up_loop_reliable; auto. by eapply files_ok_frame.
Qed.

Lemma open_both_reliable up lp u l s :
  io_ok up lp u l s → (open_both up lp s).1 = 0.
Proof.
  intros Hio. unfold open_both, open_upper, open_lower, ovl_path_open.
  assert (∀ w p fl, ∃ f w', dentry_open w p fl = (f, w') ∧ IS_ERR f = false) as Hop.
  { intros w p fl. pose proof (rel_open w p fl) as Hp.
    destruct (dentry_open w p fl) as [f w']. eauto with ovl. }
  destruct (_ =? NULL).
  - destruct (Hop (bs_w s) (path_ptr up) (Z.lor (Z.lor O_RDWR O_LARGEFILE) O_NOATIME))
      as (f & w' & -> & ->). cbn [Z.ltb].
    destruct (_ =? NULL); [|done].
    match goal with |- context [dentry_open ?a ?b ?c] => destruct (Hop a b c) as (f2 & w2 & -> & ->) end.
    done.
  - cbn [Z.ltb]. destruct (_ =? NULL); [|done].
    match goal with |- context [dentry_open ?a ?b ?c] => destruct (Hop a b c) as (f2 & w2 & -> & ->) end.
    done.
Qed.

Context (up lp : path) (u l : Z).
Local Abbreviation upper s := (vfs_bytes (bs_w s) u).
Local Abbreviation lower s := (vfs_bytes (bs_w s) l).

Lemma copy_border_block_reliable F s k r s' :
  io_ok up lp u l s → cow_rel (lower s) (upper s) (bs_b s) F →
  1 ≤ k ≤ block_count (bs_b s) → copy_border_block up lp k s = Ret (r, s') → r = 0.
Proof.
  intros Hio HR Hk. unfold copy_border_block.
  pose proof (open_both_reliable up lp u l s Hio) as E0.
  destruct (open_both_spec up lp u l s Hio) as (r0 & s2 & E & F2 & B2 & S2 & _ & _ & O2).
  rewrite E in *. cbn in E0. subst r0. cbn [Z.ltb Z.compare].
  destruct (O2 eq_refl) as (Hio2 & Hup & Hlp).
  assert (cow_rel (lower s2) (upper s2) (bs_b s2) F) as HR2
    by (rewrite !B2; by eapply same_blocks_rel).
  rewrite <- (sb_count _ _ S2) in Hk.
  pose proof (last_block_bounds _ _ _ (proj1 HR2)) as (Hbc & Hlast).
  pose proof (wf_nonempty _ _ _ (proj1 HR2)) as Hsz.
  pose proof Hio2 as [Hne _ _ [Hz|(_ & Huo & Hui)] [Hz'|(_ & Hlo & Hli)]]; unfold NULL in *; [lia..|].
  unfold file_i_size, i_size. rewrite (proj2 (ptr_ok_pos _) Hlp), Hli. cbn [mbind outcome_bind].
  destruct (block_rest_len (zlen (lower s2)) k (block_count (bs_b s2))) as [-> El]; [lia..|].
  cbn zeta in El. rewrite El. fold (block_len (lower s2) k).
  destruct (ovl_copy_up_block_reliable (bs_w s2) (lower_file (bs_b s2)) (upper_file (bs_b s2))
    (block_start k) (block_len (lower s2) k)) as (w' & ->).
  - split_and!; [done..|congruence].
  - by apply ptr_ok_pos.
  - by apply ptr_ok_pos.
  - unfold block_start, BLOCK_SIZE. lia.
  - unfold block_len, block_start, two64, max_file, BLOCK_SIZE in *. lia.
  - cbn. congruence.
Qed.

Lemma border_copies_reliable F s sb eb pos n r s' :
  io_ok up lp u l s → cow_rel (lower s) (upper s) (bs_b s) F →
  1 ≤ sb ≤ block_count (bs_b s) → 1 ≤ eb ≤ block_count (bs_b s) →
  border_copies up lp sb eb pos n s = Ret (r, s') → r = 0.
Proof.
  intros Hio HR Hsb Heb. unfold border_copies. intros Hrun.
  apply outcome_bind_Ret in Hrun as (need & En & Hrun).
  apply outcome_bind_Ret in Hrun as ([r1 s1] & E1 & Hrun).
  assert (r1 = 0 ∧ io_ok up lp u l s1 ∧ cow_rel (lower s1) (upper s1) (bs_b s1) F ∧
          block_count (bs_b s1) = block_count (bs_b s)) as (-> & Hio1 & HR1 & Hbc).
  { destruct need; [|by injection E1 as <- <-].
    assert (¬ copied (block_status (bs_b s)) sb) as Hun.
    { destruct (_ <? _); [|done]. destruct (status_get _ _ _ sb (proj1 HR) Hsb) as (st & Est & Hst).
      rewrite Est in En. injection En as En. by apply Hst. }
    pose proof (copy_border_block_reliable F s sb r1 s1 Hio HR Hsb E1) as ->.
    destruct (copy_border_block_spec up lp u l F s sb Hio HR Hsb Hun) as (r' & s'' & E & [] & _).
    rewrite E in E1. injection E1 as -> ->. split_and!; auto. by destruct bp_blocks. }
  cbn [Z.ltb Z.compare] in Hrun. apply outcome_bind_Ret in Hrun as (need2 & En2 & Hrun).
  destruct (need2 && _); [|congruence].
  eapply copy_border_block_reliable; eauto. by rewrite Hbc.
Qed.

Lemma mark_blocks_fuel n : ∀ i b, mark_blocks n i b ≠ NoFuel.
Proof.
  induction n as [|n IH]; intros i b; cbn [mark_blocks]; [done|].
  destruct (_ <? _); [done|]. unfold array_get, array_set.
  destruct (zget _ _) as [st|]; [|done]. cbn [mbind outcome_bind].
  destruct (st =? UNCOPY); [|apply IH]. destruct (zset _ _ _); [apply IH|done].
Qed.

(** A complete write: the loop runs once. *)
Lemma write_loop_reliable fuel w f pos d :
  0 ≤ pos → 0 < zlen d < two64 → ∃ p' w', write_loop (S fuel) w f 0 pos d = Ret (zlen d, p', w').
Proof.
  intros Hpos Hd. cbn [write_loop]. change (u64 0) with 0.
  rewrite (proj2 (Z.ltb_lt 0 _)) by lia.
  pose proof (rel_write w f pos d Hpos) as Hw.
  destruct (vfs_iter_write w f pos d) as [[cnt p'] w'] eqn:E. cbn in Hw. subst cnt.
  destruct (Z.ltb_spec (zlen d) 0); [lia|]. rewrite Z.add_0_l.
  eexists p', w'. destruct fuel as [|fuel]; cbn [write_loop]; rewrite u64_small, zlen_zdrop by lia.
  all: by rewrite (proj2 (Z.ltb_ge (zlen d) _)) by lia.
Qed.

Lemma block_write_iter_reliable fuel F s f pos d :
  io_ok up lp u l s → cow_rel (lower s) (upper s) (bs_b s) F → cow_status (bs_b s) = true →
  vfs_isopen (bs_w s) f = true → vfs_append (bs_w s) f = false → vfs_inode (bs_w s) f = u →
  0 ≤ pos → 0 < zlen d → pos + zlen d < block_count (bs_b s) * BLOCK_SIZE →
  ∃ s', block_write_iter (S fuel) up lp f pos d s = Ret (zlen d, pos + zlen d, s') ∧
        write_post up lp u l F pos d s (zlen d) (pos + zlen d) s'.
Proof.
  intros Hio HR Hcow Ho Ha Hi Hpos Hd Hin.
  pose proof (block_write_iter_spec up lp u l (S fuel) F s f pos d) as HS.
  specialize (HS Hio HR Hcow Ho Ha Hi Hpos Hd Hin).
  assert (∃ p' s', block_write_iter (S fuel) up lp f pos d s = Ret (zlen d, p', s')) as (p' & s' & E).
  { unfold block_write_iter in *. rewrite Ha in *.
    pose proof (wf_count32 _ _ _ (proj1 HR)) as H32.
    pose proof (last_block_bounds _ _ _ (proj1 HR)) as (Hbc & _).
    rewrite !ovl_get_block_spec in * by (unfold two64, BLOCK_SIZE in *; lia).
    destruct (border_copies_spec up lp u l F s pos (zlen d) Hio HR Hpos Hd Hin) as (r & s1 & Eb & _).
    rewrite Eb in *. apply (border_copies_reliable F) in Eb as Hr; [|auto; unfold BLOCK_SIZE in *; lia..]. subst r.
    cbn [mbind outcome_bind Z.ltb Z.compare] in *. unfold finish_write in *.
    destruct (write_loop_reliable fuel (bs_w s1) f pos d Hpos) as (p' & w' & Ew);
      [unfold two64, BLOCK_SIZE in *; lia|].
    rewrite Ew in *. cbn [mbind outcome_bind] in *.
    destruct (Z.ltb_spec (zlen d) 0); [lia|].
    pose proof (mark_blocks_fuel (Z.to_nat ((pos + zlen d) / BLOCK_SIZE + 1 + 1 - (pos / BLOCK_SIZE + 1)))
      (pos / BLOCK_SIZE + 1) (bs_b (set_bs_w w' s1))).
    destruct (mark_blocks _ _ _) as [b'| |]; [|done..]. cbn [mbind outcome_bind]. eauto. }
  rewrite E in *. destruct HS as [S1 S2 S3 S4]. destruct (S4 eq_refl) as (-> & Hio' & HR').
  exists s'. split; [done|]. split; auto.
Qed.
End reliable.
