(* ===== verification/BlockRead.v ===== *)
(** block_read_iter (file.c): a read that takes each block from the file that
    holds it, and what it returns in terms of the view. *)

From S2P Require Import Prelude Vfs Types Util Block BlockView BlockWrite BlockWriteSpec.

(** How an inner [while (c_count > 0)] loop was left. *)
Inductive read_exit : Type := ReadAll | ReadErr | ReadEof.

(** The locals of block_read_iter that the loops update: [ret], [count],
    [iocb->ki_pos], and the bytes put into the iterator so far. *)
Record read_st : Type := ReadSt { rd_ret : Z; rd_count : Z; rd_pos : Z; rd_data : list byte }.
Definition read_adv (cnt : Z) (d : list byte) (r : read_st) : read_st :=
  ReadSt (rd_ret r + cnt) (rd_count r - cnt) (rd_pos r + cnt) (rd_data r ++ d).

Section block_read.
Context {W : Type} `{Vfs W}.
Implicit Types (w : W) (b : ovl_blocks) (s : bstate W) (r : read_st).

(** [vfs_iter_read] through a cached file pointer *)
Definition read_file w (f pos n : Z) : outcome (Z * list byte * W) :=
  if ptr_ok f then Ret (vfs_iter_read w f pos n) else Fault.

(** [while (c_count > 0) { cnt = vfs_iter_read(...); ... }]; every iteration that
    does not leave the loop reads at least one byte. *)
Fixpoint read_chunk (fuel : nat) w (f c_count : Z) r : outcome (read_exit * read_st * W) :=
  if c_count <=? 0 then Ret (ReadAll, r, w)
  else match fuel with
  | O => NoFuel
  | S fuel =>
      '(cnt, d, w) ← read_file w f (rd_pos r) c_count;
      if cnt <? 0 then Ret (ReadErr, r, w)
      else if cnt =? 0 then Ret (ReadEof, r, w)
      else read_chunk fuel w f (c_count - cnt) (read_adv cnt d r)
  end.

(** The outer [while (count > 0)]; [lower_end] is the local flag.  The result
    is the return value, the locals and the state. *)
Fixpoint block_read_loop (fuel : nat) (upper_path lower_path : path) (lower_end : bool) r s
    : outcome (Z * read_st * bstate W) :=
  if rd_count r =? 0 then Ret (rd_ret r, r, s)
  else match fuel with
  | O => NoFuel
  | S fuel =>
      let start_block := ovl_get_block (rd_pos r) in
      let end_block := ovl_get_block (rd_pos r + rd_count r) in
      if block_count (bs_b s) <? start_block then
        let '(e, s) := open_upper upper_path s in
        if e <? 0 then Ret (e, r, s) else
        '(cnt, d, w) ← read_file (bs_w s) (upper_file (bs_b s)) (rd_pos r) (rd_count r);
        if cnt <? 0 then Ret (0, r, set_bs_w w s)
        else Ret (rd_ret r + cnt, read_adv cnt d r, set_bs_w w s)
      else
        let c_count := if start_block =? end_block then rd_count r
                       else u64 (start_block * BLOCK_SIZE - rd_pos r) in
        st ← array_get (block_status (bs_b s)) start_block;
        if negb (st =? UNCOPY) then
          let '(e, s) := open_upper upper_path s in
          if e <? 0 then Ret (e, r, s) else
          '(ex, r, w) ← read_chunk (Z.to_nat c_count) (bs_w s) (upper_file (bs_b s)) c_count r;
          match ex with
          | ReadEof => if lower_end then Ret (rd_ret r, r, set_bs_w w s)
                       else block_read_loop fuel upper_path lower_path lower_end r (set_bs_w w s)
          | _ => block_read_loop fuel upper_path lower_path lower_end r (set_bs_w w s)
          end
        else if lower_end then Ret (rd_ret r, r, s)
        else
          let '(e, s) := open_lower lower_path s in
          if e <? 0 then Ret (e, r, s) else
          '(ex, r, w) ← read_chunk (Z.to_nat c_count) (bs_w s) (lower_file (bs_b s)) c_count r;
          let lower_end := match ex with ReadEof => true | _ => lower_end end in
          block_read_loop fuel upper_path lower_path lower_end r (set_bs_w w s)
  end.

(** static ssize_t block_read_iter(dentry, iocb, iter) *)
Definition block_read_iter (fuel : nat) (upper_path lower_path : path) (pos count : Z) s
    : outcome (Z * read_st * bstate W) :=
  block_read_loop fuel upper_path lower_path false (ReadSt 0 count pos []) s.
End block_read.

(** ** Slices *)

Lemma zslice_app {A} (l0 : list A) p n m :
  0 ≤ p → 0 ≤ n → 0 ≤ m → n ≤ zlen l0 - p →
  zslice l0 p n ++ zslice l0 (p + n) m = zslice l0 p (n + m).
Proof.
  intros. unfold zslice, zdrop, ztake.
  rewrite !Z2Nat.inj_add, <- drop_drop by lia. by rewrite take_take_drop.
Qed.

(** A slice is determined by its bytes. *)
Lemma zslice_eq {A} (l1 l2 : list A) p n :
  0 ≤ p → 0 ≤ n → (∀ i, p ≤ i < p + n → zget l1 i = zget l2 i) →
  zslice l1 p n = zslice l2 p n.
Proof.
  intros Hp Hn Heq. apply zlist_ext. intros i Hi.
  destruct (decide (i < n)).
  - rewrite !zget_zslice by lia. apply Heq. lia.
  - rewrite !zget_None; [done| |]; pose proof (zlen_nonneg l1); pose proof (zlen_nonneg l2);
      rewrite zlen_zslice; lia.
Qed.

Section read_facts.
Context {W : Type} `{VfsLaws W} `{!VfsReliable W}.
Implicit Types (w : W) (b : ovl_blocks) (s : bstate W) (r : read_st) (F : list byte).

Lemma read_adv_0 (r : read_st) : read_adv 0 [] r = r.
Proof. destruct r; unfold read_adv; cbn. by rewrite !Z.add_0_r, Z.sub_0_r, app_nil_r. Qed.

Lemma read_adv_adv F n m (r : read_st) :
  0 ≤ rd_pos r → 0 ≤ n → 0 ≤ m → n ≤ zlen F - rd_pos r →
  read_adv m (zslice F (rd_pos r + n) m) (read_adv n (zslice F (rd_pos r) n) r) =
  read_adv (n + m) (zslice F (rd_pos r) (n + m)) r.
Proof.
  intros. unfold read_adv; cbn. f_equal; [lia..|].
  rewrite <- app_assoc. f_equal. by apply zslice_app.
Qed.

(** The inner loop reads to the end of the chunk or of the file. *)
Lemma read_chunk_spec fuel : ∀ w f c r,
  ptr_ok f = true → vfs_isopen w f = true → 0 ≤ rd_pos r → 0 ≤ c → (Z.to_nat c ≤ fuel)%nat →
  let n := Z.min c (Z.max 0 (i_size w f - rd_pos r)) in
  ∃ w', read_chunk fuel w f c r =
          Ret (if decide (n = c) then ReadAll else ReadEof,
               read_adv n (zslice (vfs_bytes w (vfs_inode w f)) (rd_pos r) n) r, w') ∧
        vfs_frame w w' ∧ same_bytes w w'.
Proof.
  induction fuel as [|fuel IH]; intros w f c r Hp Ho Hpos Hc Hfuel n; cbn [read_chunk];
    (destruct (Z.leb_spec c 0) as [Hc0|Hc0];
     [assert (c = 0) as -> by lia; subst n; rewrite (Z.min_l 0) by lia;
      rewrite decide_True, zslice_0, read_adv_0 by done; exists w; eauto with ovl|]); [lia|].
  unfold read_file. rewrite Hp. cbn [mbind outcome_bind].
  pose proof (rel_read w f (rd_pos r) c Hpos Hc0) as Hgt.
  pose proof (rel_read_eof w f (rd_pos r) c Hpos Hc0) as Hge.
  destruct (vfs_iter_read w f (rd_pos r) c) as [[cnt d] w1] eqn:E. cbn in Hgt, Hge.
  apply law_read in E as (Fr & Sb & Hle & Hd & Heof); [|lia..].
  destruct (Hd Hge) as [-> Hlen].
  rewrite zlen_zslice in Hlen by lia. fold (i_size w f) in Hlen.
  destruct (Z.ltb_spec cnt 0); [lia|].
  destruct (Z.eqb_spec cnt 0) as [->|Hne].
  - specialize (Heof eq_refl ltac:(lia)). subst n. rewrite Z.max_l, Z.min_r by lia.
    rewrite decide_False by lia. exists w1. split; [|done]. by rewrite zslice_0, read_adv_0.
  - pose proof Fr as [fo fi _ _].
    assert (i_size w1 f = i_size w f) as Esz by (unfold i_size; by rewrite fi, Sb).
    destruct (IH w1 f (c - cnt) (read_adv cnt (zslice (vfs_bytes w (vfs_inode w f)) (rd_pos r) cnt) r))
      as (w' & -> & Fr' & Sb'); cbn [rd_pos read_adv]; auto; try lia.
    exists w'. split; [|eauto with ovl]. rewrite Esz, fi, Sb by done.
    set (m := Z.min (c - cnt) (Z.max 0 (i_size w f - (rd_pos r + cnt)))).
    assert (n = cnt + m) as -> by lia.
    rewrite read_adv_adv by (unfold i_size in *; lia). f_equal. f_equal. f_equal.
    destruct (decide (m = c - cnt)), (decide (cnt + m = c)); done || lia.
Qed.

(** A file that agrees with [F] on the chunk gives the bytes of [F]. *)
Lemma agree_slice (L F : list byte) p c :
  0 ≤ p → 0 ≤ c → (∀ i, p ≤ i < p + c → zget L i = zget F i) →
  let n := Z.min c (Z.max 0 (zlen F - p)) in
  Z.min c (Z.max 0 (zlen L - p)) = n ∧ zslice L p n = zslice F p n.
Proof.
  intros Hp Hc Heq n. pose proof (zslice_eq L F p c Hp Hc Heq) as E.
  apply (f_equal zlen) in E. rewrite !zlen_zslice in E by done. split; [done|].
  apply zslice_eq; [done|lia|]. intros i Hi. apply Heq. lia.
Qed.

Context (up lp : path) (u l : Z).
Local Abbreviation upper s := (vfs_bytes (bs_w s) u).
Local Abbreviation lower s := (vfs_bytes (bs_w s) l).

(** A read changes nothing but the cached file pointers. *)
Record read_frame s s' : Prop := {
  rf_frame : vfs_frame (bs_w s) (bs_w s');
  rf_bytes : same_bytes (bs_w s) (bs_w s');
  rf_blocks : same_blocks (bs_b s) (bs_b s');
  rf_fifo : bs_fifo s' = bs_fifo s;
  rf_io : io_ok up lp u l s';
}.

Lemma read_frame_refl s : io_ok up lp u l s → read_frame s s.
Proof. split; eauto with ovl. Qed.

Lemma read_frame_trans s1 s2 s3 : read_frame s1 s2 → read_frame s2 s3 → read_frame s1 s3.
Proof. intros [] []. split; eauto with ovl. congruence. Qed.

Lemma read_frame_w s s1 w' :
  read_frame s s1 → vfs_frame (bs_w s1) w' → same_bytes (bs_w s1) w' →
  read_frame s (set_bs_w w' s1).
Proof.
  intros [] Hf Hs. split; cbn; eauto with ovl. by eapply io_ok_frame.
Qed.

Lemma read_frame_rel s s' F :
  read_frame s s' → cow_rel (lower s) (upper s) (bs_b s) F →
  cow_rel (lower s') (upper s') (bs_b s') F.
Proof. intros [] HR. rewrite !rf_bytes0. by eapply same_blocks_rel. Qed.

(** The lazy opens of a run that does not fail. *)
Lemma open_upper_read s :
  io_ok up lp u l s →
  ∃ s', open_upper up s = (0, s') ∧ read_frame s s' ∧ ptr_ok (upper_file (bs_b s')) = true ∧
        vfs_isopen (bs_w s') (upper_file (bs_b s')) = true ∧
        vfs_inode (bs_w s') (upper_file (bs_b s')) = u.
Proof.
  intros Hio. destruct (open_upper_spec up lp u l s Hio) as (r & s' & E & F & B & S & Q & R & O).
  assert (r = 0) as ->.
  { unfold open_upper, ovl_path_open in E. destruct (_ =? NULL); [|congruence].
    match type of E with context [dentry_open ?a ?b ?c] => pose proof (rel_open a b c) as Hp;
      destruct (dentry_open a b c) as [f w'] end.
    cbn in Hp. rewrite IS_ERR_pos in E by done. congruence. }
  destruct (O eq_refl) as (Hio' & Hp & _). exists s'.
  pose proof Hio' as [_ _ _ [Hz|(_ & ? & ?)] _]; unfold NULL in *; [lia|].
  split_and!; [done|by split|by apply ptr_ok_pos|done..].
Qed.

Lemma open_lower_read s :
  io_ok up lp u l s →
  ∃ s', open_lower lp s = (0, s') ∧ read_frame s s' ∧ ptr_ok (lower_file (bs_b s')) = true ∧
        vfs_isopen (bs_w s') (lower_file (bs_b s')) = true ∧
        vfs_inode (bs_w s') (lower_file (bs_b s')) = l.
Proof.
  intros Hio. destruct (open_lower_spec up lp u l s Hio) as (r & s' & E & F & B & S & Q & R & O).
  assert (r = 0) as ->.
  { unfold open_lower, ovl_path_open in E. destruct (_ =? NULL); [|congruence].
    match type of E with context [dentry_open ?a ?b ?c] => pose proof (rel_open a b c) as Hp;
      destruct (dentry_open a b c) as [f w'] end.
    cbn in Hp. rewrite IS_ERR_pos in E by done. congruence. }
  destruct (O eq_refl) as (Hio' & Hp & _). exists s'.
  pose proof Hio' as [_ _ _ _ [Hz|(_ & ? & ?)]]; unfold NULL in *; [lia|].
  split_and!; [done|by split|by apply ptr_ok_pos|done..].
Qed.

(** The part of the request that lies in the first block. *)
Definition chunk (pos count : Z) : Z :=
  if pos / BLOCK_SIZE + 1 =? (pos + count) / BLOCK_SIZE + 1 then count
  else (pos / BLOCK_SIZE + 1) * BLOCK_SIZE - pos.

Lemma chunk_bounds pos count :
  0 ≤ pos → 0 < count →
  0 < chunk pos count ≤ count ∧ pos + chunk pos count ≤ (pos / BLOCK_SIZE + 1) * BLOCK_SIZE.
Proof.
  intros. unfold chunk, BLOCK_SIZE. destruct (Z.eqb_spec (pos / 4096 + 1) ((pos + count) / 4096 + 1)); lia.
Qed.

(** One iteration of the outer loop inside the block-mapped part. *)
Lemma read_step fuel s r F :
  io_ok up lp u l s → cow_rel (lower s) (upper s) (bs_b s) F →
  0 ≤ rd_pos r → 0 < rd_count r → rd_pos r + rd_count r < max_file →
  rd_pos r / BLOCK_SIZE + 1 ≤ block_count (bs_b s) →
  let k := rd_pos r / BLOCK_SIZE + 1 in
  let c := chunk (rd_pos r) (rd_count r) in
  let n := Z.min c (Z.max 0 (zlen F - rd_pos r)) in
  ∃ s', read_frame s s' ∧
    block_read_loop (S fuel) up lp false r s =
    block_read_loop fuel up lp
      (if decide (copied (block_status (bs_b s)) k) then false
       else if decide (n = c) then false else true)
      (read_adv n (zslice F (rd_pos r) n) r) s'.
Proof.
  intros Hio HR Hpos Hcnt Hmax Hk k c n. pose proof HR as [Hwf Hv].
  pose proof (chunk_bounds (rd_pos r) (rd_count r) Hpos Hcnt) as [Hc Hck]. fold c k in Hc, Hck.
  assert (∀ i, rd_pos r ≤ i < rd_pos r + c → i / BLOCK_SIZE + 1 = k) as Hblk
    by (intros i Hi; subst k; unfold BLOCK_SIZE in *; lia).
  cbn [block_read_loop]. destruct (Z.eqb_spec (rd_count r) 0); [lia|].
  unfold max_file, BLOCK_SIZE in Hmax.
  rewrite !ovl_get_block_spec by (unfold two64, BLOCK_SIZE in *; lia). fold k.
  destruct (Z.ltb_spec (block_count (bs_b s)) k); [lia|].
  assert ((if k =? (rd_pos r + rd_count r) / BLOCK_SIZE + 1 then rd_count r
           else u64 (k * BLOCK_SIZE - rd_pos r)) = c) as ->.
  { subst c k. unfold chunk. destruct (_ =? _); [done|].
    apply u64_small. unfold two64, BLOCK_SIZE in *. lia. }
  assert (1 ≤ k) by (subst k; unfold BLOCK_SIZE; lia).
  destruct (status_get _ _ _ k Hwf ltac:(lia)) as (st & -> & Hst). cbn [mbind outcome_bind].
  destruct (st =? UNCOPY) eqn:Est; cbn [negb].
  - pose proof (proj1 Hst eq_refl) as Hun. rewrite (decide_False _ _ Hun).
    destruct (open_lower_read s Hio) as (s1 & -> & Fr1 & Hp & Ho & Hi). cbn [Z.ltb Z.compare].
    destruct (read_chunk_spec (Z.to_nat c) (bs_w s1) (lower_file (bs_b s1)) c r)
      as (w' & E & Fw & Sw); auto; [lia|]. cbn zeta in E. rewrite E. cbn [mbind outcome_bind].
    unfold i_size. rewrite Hi, (rf_bytes _ _ Fr1).
    destruct (agree_slice (lower s) F (rd_pos r) c) as [-> Es]; [lia..| |].
    { intros i Hi'. rewrite <- Hv by lia. symmetry. apply cow_view_lower; rewrite Hblk by lia; done. }
    fold n in Es |- *. rewrite Es. exists (set_bs_w w' s1).
    split; [by apply read_frame_w|]. by destruct (decide (n = c)).
  - assert (copied (block_status (bs_b s)) k) as Hcp.
    { destruct (decide (copied (block_status (bs_b s)) k)) as [|Hn]; [done|].
      apply Hst in Hn. done. }
    rewrite (decide_True _ _ Hcp).
    destruct (open_upper_read s Hio) as (s1 & -> & Fr1 & Hp & Ho & Hi). cbn [Z.ltb Z.compare].
    destruct (read_chunk_spec (Z.to_nat c) (bs_w s1) (upper_file (bs_b s1)) c r)
      as (w' & E & Fw & Sw); auto; [lia|]. cbn zeta in E. rewrite E. cbn [mbind outcome_bind].
    unfold i_size. rewrite Hi, (rf_bytes _ _ Fr1).
    destruct (agree_slice (upper s) F (rd_pos r) c) as [-> Es]; [lia..| |].
    { intros i Hi'. rewrite <- Hv by lia. symmetry. apply cow_view_upper. rewrite Hblk by lia. by right. }
    fold n in Es |- *. rewrite Es. exists (set_bs_w w' s1).
    split; [by apply read_frame_w|]. by destruct (decide (n = c)).
Qed.

(** The read ends beyond the blocks: one read of the upper file. *)
Lemma read_tail fuel le s r F :
  io_ok up lp u l s → cow_rel (lower s) (upper s) (bs_b s) F →
  0 ≤ rd_pos r → 0 < rd_count r → rd_pos r + rd_count r < max_file →
  block_count (bs_b s) < rd_pos r / BLOCK_SIZE + 1 →
  ∃ s' n, read_frame s s' ∧ 0 ≤ n ≤ rd_count r ∧
    n ≤ Z.max 0 (zlen F - rd_pos r) ∧ (n = 0 → zlen F ≤ rd_pos r) ∧
    block_read_loop (S fuel) up lp le r s =
      Ret (rd_ret r + n, read_adv n (zslice F (rd_pos r) n) r, s').
Proof.
  intros Hio HR Hpos Hcnt Hmax Hk. pose proof HR as [Hwf Hv]. cbn [block_read_loop].
  destruct (Z.eqb_spec (rd_count r) 0); [lia|].
  unfold max_file, BLOCK_SIZE in Hmax.
  rewrite !ovl_get_block_spec by (unfold two64, BLOCK_SIZE in *; lia).
  rewrite (proj2 (Z.ltb_lt _ _) Hk).
  destruct (open_upper_read s Hio) as (s1 & -> & Fr1 & Hp & Ho & Hi). cbn [Z.ltb Z.compare].
  unfold read_file. rewrite Hp. cbn [mbind outcome_bind].
  pose proof (rel_read (bs_w s1) (upper_file (bs_b s1)) (rd_pos r) (rd_count r) Hpos Hcnt) as Hgt.
  pose proof (rel_read_eof (bs_w s1) (upper_file (bs_b s1)) (rd_pos r) (rd_count r) Hpos Hcnt) as Hge.
  destruct (vfs_iter_read _ _ _ _) as [[cnt d] w1] eqn:E. cbn in Hgt, Hge.
  apply law_read in E as (Fr & Sb & Hle & Hd & Heof); [|lia..].
  destruct (Hd Hge) as [-> Hlen]. unfold i_size in *. rewrite Hi in *.
  rewrite (rf_bytes _ _ Fr1) in *. rewrite zlen_zslice in Hlen by lia.
  destruct (Z.ltb_spec cnt 0); [lia|].
  destruct (agree_slice (upper s) F (rd_pos r) cnt) as [En Es]; [done|lia| |].
  { intros i Hi'. rewrite <- Hv by lia. symmetry. apply cow_view_upper. left.
    unfold BLOCK_SIZE in *. lia. }
  assert (zget (upper s) (rd_pos r) = zget F (rd_pos r)) as Ep.
  { rewrite <- Hv by lia. symmetry. apply cow_view_upper. left. done. }
  exists (set_bs_w w1 s1), cnt. split_and!; [by apply read_frame_w|lia|lia|lia| |].
  - intros ->. specialize (Heof eq_refl Hcnt). apply Z.nlt_ge. intros Hlt.
    apply (zget_Some_of_lt F (rd_pos r)); [lia|]. rewrite <- Ep. by apply zget_None.
  - assert (Z.min cnt (Z.max 0 (zlen F - rd_pos r)) = cnt) as Ec by lia.
    rewrite Ec in Es. by rewrite Es.
Qed.

(** The requests block_read_iter can finish. *)
Definition readable b F pos count : Prop :=
  pos + count ≤ zlen F ∨ ¬ copied (block_status b) (block_count b) ∨
  block_count b * BLOCK_SIZE ≤ Z.max (zlen F) pos.

(** A chunk of a block before the last one is complete. *)
Lemma chunk_full lo upp b F pos count :
  cow_rel lo upp b F → 0 ≤ pos → 0 < count → pos / BLOCK_SIZE + 1 < block_count b →
  Z.min (chunk pos count) (Z.max 0 (zlen F - pos)) = chunk pos count.
Proof.
  intros HR Hpos Hcnt Hk. pose proof (chunk_bounds pos count Hpos Hcnt) as [Hc Hck].
  pose proof (F_len_lower lo upp b F (pos + chunk pos count - 1) HR) as Hl.
  unfold BLOCK_SIZE in *. lia.
Qed.

(** After the lower file has ended, an uncopied block ends the read. *)
Lemma read_stop fuel s r F :
  cow_rel (lower s) (upper s) (bs_b s) F → 0 ≤ rd_pos r → 0 < rd_count r →
  rd_pos r + rd_count r < max_file → rd_pos r / BLOCK_SIZE + 1 ≤ block_count (bs_b s) →
  ¬ copied (block_status (bs_b s)) (rd_pos r / BLOCK_SIZE + 1) →
  block_read_loop (S fuel) up lp true r s = Ret (rd_ret r, r, s).
Proof.
  intros [Hwf _] Hpos Hcnt Hmax Hk Hun. cbn [block_read_loop].
  destruct (Z.eqb_spec (rd_count r) 0); [lia|]. unfold max_file, BLOCK_SIZE in Hmax.
  rewrite !ovl_get_block_spec by (unfold two64, BLOCK_SIZE in *; lia).
  destruct (Z.ltb_spec (block_count (bs_b s)) (rd_pos r / BLOCK_SIZE + 1)); [lia|].
  destruct (status_get _ _ _ (rd_pos r / BLOCK_SIZE + 1) Hwf) as (st & -> & Hst);
    [unfold BLOCK_SIZE in *; lia|].
  cbn [mbind outcome_bind]. by rewrite (proj2 Hst Hun).
Qed.

(** The result of a read: [n] bytes of [F]. *)
Definition read_post F r s (n : Z) r' s' : Prop :=
  read_frame s s' ∧ r' = read_adv n (zslice F (rd_pos r) n) r ∧ 0 ≤ n ≤ rd_count r ∧
  n ≤ Z.max 0 (zlen F - rd_pos r) ∧
  (n = 0 → rd_count r = 0 ∨ zlen F ≤ rd_pos r) ∧
  (rd_pos r + rd_count r ≤ block_count (bs_b s) * BLOCK_SIZE →
     n = Z.min (rd_count r) (Z.max 0 (zlen F - rd_pos r))).

Lemma read_post_step F s s1 s' r n m r' :
  io_ok up lp u l s → 0 ≤ rd_pos r → 0 < rd_count r → read_frame s s1 →
  0 < n ≤ rd_count r → n ≤ zlen F - rd_pos r →
  read_post F (read_adv n (zslice F (rd_pos r) n) r) s1 m r' s' →
  read_post F r s (n + m) r' s'.
Proof.
  intros Hio Hpos Hcnt Hfr Hn HnF (Hf & -> & Hm & HmF & Hm0 & Hfull). cbn in *.
  rewrite (sb_count _ _ (rf_blocks _ _ Hfr)) in Hfull.
  split_and!; [by eapply read_frame_trans|apply read_adv_adv; lia|lia..].
Qed.

Lemma block_read_loop_spec fuel : ∀ F s r,
  io_ok up lp u l s → cow_rel (lower s) (upper s) (bs_b s) F →
  0 ≤ rd_pos r → 0 ≤ rd_count r → rd_pos r + rd_count r < max_file →
  readable (bs_b s) F (rd_pos r) (rd_count r) →
  (Z.to_nat (rd_count r) < fuel)%nat →
  ∃ n r' s', block_read_loop fuel up lp false r s = Ret (rd_ret r + n, r', s') ∧
             read_post F r s n r' s'.
Proof.
  induction fuel as [|fuel IH]; intros F s r Hio HR Hpos Hcnt Hmax Hrd Hfuel; [lia|].
  destruct (decide (rd_count r = 0)) as [E0|E0].
  { exists 0, r, s. cbn [block_read_loop]. rewrite E0. cbn [Z.eqb]. rewrite Z.add_0_r.
    split; [done|]. unfold read_post. rewrite zslice_0, read_adv_0, E0.
    split_and!; auto; try lia. by apply read_frame_refl. }
  set (k := rd_pos r / BLOCK_SIZE + 1).
  destruct (decide (k ≤ block_count (bs_b s))) as [Hk|Hk]; cycle 1.
  { destruct (read_tail fuel false s r F) as (s' & n & Fr & Hn & HnF & Hn0 & ->); auto; [lia|lia|].
    eexists _, _, _. split; [done|]. split_and!; auto; try lia.
    subst k. unfold BLOCK_SIZE in *. lia. }
  destruct (read_step fuel s r F) as (s1 & Fr & ->); auto; [lia|]. fold k.
  set (c := chunk (rd_pos r) (rd_count r)). set (n := Z.min c _).
  pose proof (chunk_bounds (rd_pos r) (rd_count r) Hpos ltac:(lia)) as [Hc Hck]. fold c k in Hc, Hck.
  pose proof (read_frame_rel _ _ _ Fr HR) as HR1. pose proof Fr as [_ _ [E1 E2 _ _] _ Hio1].
  assert (k < block_count (bs_b s) → n = c) as Hfull
    by (intros Hlt; apply (chunk_full (lower s) (upper s) (bs_b s)); auto; lia).
  destruct (decide (n = c)) as [En|En].
  - (* the chunk was read to its end *)
    assert (∀ x : bool, (if decide (copied (block_status (bs_b s)) k) then false else false) = x →
              x = false) as Hif by (intros x; by case_decide).
    destruct (IH F s1 (read_adv n (zslice F (rd_pos r) n) r)) as (m & r' & s' & E & Hpost);
      cbn [rd_pos rd_count read_adv]; auto; try lia.
    { unfold readable in *. rewrite E1, E2. destruct Hrd as [?|[?|?]]; [left; lia|right; by left|].
      right; right. lia. }
    rewrite (Hif _ eq_refl), E. exists (n + m), r', s'. cbn [rd_ret read_adv].
    split; [f_equal; f_equal; f_equal; lia|]. eapply read_post_step; eauto; lia.
  - (* the file ended inside the chunk *)
    assert (k = block_count (bs_b s)) as Hkb by lia.
    assert (¬ copied (block_status (bs_b s)) k) as Hun.
    { intros Hcp. rewrite Hkb in Hcp. destruct Hrd as [?|[?|?]]; [lia|done|].
      rewrite Hkb in Hck. subst k. unfold BLOCK_SIZE in *. lia. }
    rewrite decide_False by done. destruct fuel as [|fuel]; [lia|].
    assert (rd_pos (read_adv n (zslice F (rd_pos r) n) r) / BLOCK_SIZE + 1 = k) as Ek.
    { cbn. subst k. unfold BLOCK_SIZE in *. lia. }
    rewrite (read_stop fuel s1 _ F); rewrite ?Ek, ?E1, ?E2; cbn [rd_pos rd_count read_adv];
      auto; try lia.
    cbn [rd_ret read_adv]. eexists n, _, s1. split; [done|]. split_and!; auto; try lia.
Qed.

(** A request that is not [readable] never leaves the outer loop: the last
    block is copied, the upper file ends inside it, and the end of the file
    only leaves the inner loop. *)
Lemma block_read_loop_spins fuel : ∀ F s r,
  io_ok up lp u l s → cow_rel (lower s) (upper s) (bs_b s) F →
  0 ≤ rd_pos r → 0 ≤ rd_count r → rd_pos r + rd_count r < max_file →
  zlen F < rd_pos r + rd_count r → 0 < rd_count r →
  copied (block_status (bs_b s)) (block_count (bs_b s)) →
  Z.max (zlen F) (rd_pos r) < block_count (bs_b s) * BLOCK_SIZE →
  block_read_loop fuel up lp false r s = NoFuel.
Proof.
  induction fuel as [|fuel IH]; intros F s r Hio HR Hpos Hcnt Hmax Hend Hc0 Hcp Hin.
  { cbn. by destruct (Z.eqb_spec (rd_count r) 0); [lia|]. }
  set (k := rd_pos r / BLOCK_SIZE + 1).
  destruct (read_step fuel s r F) as (s1 & Fr & ->); auto.
  { subst k. unfold BLOCK_SIZE in *. lia. }
  fold k. set (c := chunk (rd_pos r) (rd_count r)). set (n := Z.min c _).
  pose proof (chunk_bounds (rd_pos r) (rd_count r) Hpos Hc0) as [Hc Hck]. fold c k in Hc, Hck.
  pose proof (read_frame_rel _ _ _ Fr HR) as HR1. pose proof Fr as [_ _ [E1 E2 _ _] _ Hio1].
  assert (k < block_count (bs_b s) → n = c) as Hfull
    by (intros Hlt; apply (chunk_full (lower s) (upper s) (bs_b s)); auto; lia).
  assert ((if decide (copied (block_status (bs_b s)) k) then false
           else if decide (n = c) then false else true) = false) as ->.
  { destruct (decide (copied (block_status (bs_b s)) k)) as [|Hun]; [done|].
    destruct (decide (n = c)) as [|Hne]; [done|].
    assert (k = block_count (bs_b s)) as Hk
      by (subst k; unfold BLOCK_SIZE in *; lia). congruence. }
  apply (IH F); cbn [rd_pos rd_count read_adv]; rewrite ?E1, ?E2; auto; lia.
Qed.
End read_facts.
