(* ===== verification/BlockStore.v ===== *)
(** The whole life of a lazily copied regular file: the state copy-up creates,
    then any sequence of reads and writes, refines a plain file. *)

From S2P Require Import Prelude Vfs Types Util Block BlockView BlockWrite BlockWriteSpec BlockRead.

Section store.
Context {W : Type} `{Vfs W}.
Implicit Types (w : W) (b : ovl_blocks) (s : bstate W).

(** The data path of ovl_read_iter, between [ovl_override_creds] and
    [revert_creds]: result, new position, bytes read, state. *)
Definition ovl_read_data (fuel : nat) (upper_path lower_path : path) (realfile pos count : Z) s
    : outcome (Z * Z * list byte * bstate W) :=
  if cow_status (bs_b s) then
    '(ret, r, s) ← block_read_iter fuel upper_path lower_path pos count s;
    Ret (ret, rd_pos r, rd_data r, s)
  else
    let '(ret, d, w) := vfs_iter_read (bs_w s) realfile pos count in
    Ret (ret, if 0 <? ret then pos + ret else pos, d, set_bs_w w s).

(** The data path of ovl_write_iter. *)
Definition ovl_write_data (fuel : nat) (upper_path lower_path : path) (realfile pos : Z)
    (d : list byte) s : outcome (Z * Z * bstate W) :=
  if cow_status (bs_b s) then block_write_iter fuel upper_path lower_path realfile pos d s
  else
    let '(ret, pos, w) := vfs_iter_write (bs_w s) realfile pos d in
    Ret (ret, pos, set_bs_w w s).

(** A sequence of pread and pwrite calls on the overlay file. *)
Inductive file_op : Type :=
| PRead (pos count : Z)
| PWrite (pos : Z) (d : list byte).

(** Enough loop iterations for one operation. *)
Definition op_fuel (op : file_op) : nat :=
  match op with PRead _ n => S (Z.to_nat n) | PWrite _ _ => 1%nat end.

Definition run_op (up lp : path) (realfile : Z) (op : file_op) s : outcome (Z * list byte * bstate W) :=
  match op with
  | PRead pos n => '(ret, _, d, s) ← ovl_read_data (op_fuel op) up lp realfile pos n s; Ret (ret, d, s)
  | PWrite pos d => '(ret, _, s) ← ovl_write_data (op_fuel op) up lp realfile pos d s; Ret (ret, [], s)
  end.

Fixpoint run_ops (up lp : path) (realfile : Z) (ops : list file_op) s
    : outcome (list (Z * list byte) * bstate W) :=
  match ops with
  | [] => Ret ([], s)
  | op :: ops =>
      '(ret, d, s) ← run_op up lp realfile op s;
      '(rs, s) ← run_ops up lp realfile ops s;
      Ret ((ret, d) :: rs, s)
  end.
End store.

(** ** The specification: a plain file *)

(** One operation on the contents [F]: a read returns a non-empty prefix of the
    bytes asked for, a write is complete. *)
Inductive file_step : list byte → file_op → Z * list byte → list byte → Prop :=
| step_read F pos n k :
    0 ≤ k ≤ n → (k = 0 → n = 0 ∨ zlen F ≤ pos) → k ≤ Z.max 0 (zlen F - pos) →
    file_step F (PRead pos n) (k, zslice F pos k) F
| step_write F pos d :
    file_step F (PWrite pos d) (zlen d, []) (fwrite F pos d).

Inductive file_steps : list byte → list file_op → list (Z * list byte) → list byte → Prop :=
| steps_nil F : file_steps F [] [] F
| steps_cons F op r F' ops rs F'' :
    file_step F op r F' → file_steps F' ops rs F'' → file_steps F (op :: ops) (r :: rs) F''.

(** The requests covered: writes that end inside the block map, reads that end
    inside the file. [nb] is the number of blocks. *)
Definition op_ok (nb : Z) (F : list byte) (op : file_op) : Prop :=
  match op with
  | PRead pos n => 0 ≤ pos ∧ 0 < n ∧ pos + n ≤ zlen F ∧ pos + n < max_file
  | PWrite pos d => 0 ≤ pos ∧ 0 < zlen d ∧ pos + zlen d < nb * BLOCK_SIZE
  end.

(** The contents after an operation, for checking the next one. *)
Definition op_result (F : list byte) (op : file_op) : list byte :=
  match op with PRead _ _ => F | PWrite pos d => fwrite F pos d end.

Fixpoint ops_ok (nb : Z) (F : list byte) (ops : list file_op) : Prop :=
  match ops with
  | [] => True
  | op :: ops => op_ok nb F op ∧ ops_ok nb (op_result F op) ops
  end.

(** ** All blocks copied *)

Lemma length_filter_all {A} (P : A → Prop) `{∀ x, Decision (P x)} (l : list A) :
  length (filter P l) = length l → Forall P l.
Proof.
  induction l as [|x l IH]; [done|]. rewrite filter_cons. case_decide; cbn [length].
  - intros [= E]. constructor; auto.
  - intros E. assert (length (filter P l) ≤ length l)%nat by apply length_filter. lia.
Qed.

(** When the counter reaches the number of blocks every block is in the upper
    file, and the view is the upper file. *)
Lemma copied_all lower upper b k :
  blocks_wf lower upper b → copy_count b = block_count b → 1 ≤ k ≤ block_count b →
  copied (block_status b) k.
Proof.
  intros Hwf Hc Hk. destruct Hwf as [_ _ _ Hl _ _ Hcc _]. rewrite Hcc in Hc. unfold count_copied in Hc.
  assert (Forall (λ x, x ≠ UNCOPY) (drop 1 (block_status b))) as Hall.
  { refine (length_filter_all _ _ _). unfold zlen in *. rewrite length_drop. lia. }
  destruct (zget_is_Some (block_status b) k) as [x Hx]; [lia|]. exists x. split; [done|].
  rewrite Forall_lookup in Hall. apply (Hall (Z.to_nat (k - 1))).
  unfold zget in Hx. rewrite decide_True in Hx by lia. rewrite lookup_drop.
  rewrite <- Hx. f_equal. lia.
Qed.

Lemma cow_done_view lower upper b F :
  cow_rel lower upper b F → cow_status b = false → upper = F.
Proof.
  intros [Hwf Hv] Hc. apply zlist_ext. intros i Hi. rewrite <- Hv by done.
  symmetry. apply cow_view_upper.
  destruct (decide (block_count b < i / BLOCK_SIZE + 1)); [by left|right].
  eapply copied_all; [done|exact (wf_cow _ _ _ Hwf Hc)|]. unfold BLOCK_SIZE in *. lia.
Qed.

(** ** The state copy-up creates *)

Lemma zget_replicate_copied n k : ¬ copied (replicate n UNCOPY) k.
Proof.
  intros (x & Hx & Hne). unfold zget in Hx. case_decide; [|done].
  apply lookup_replicate in Hx as [-> _]. done.
Qed.

Lemma filter_replicate_uncopy n : filter (λ x, x ≠ UNCOPY) (replicate n UNCOPY) = [].
Proof.
  induction n as [|n IH]; [done|]. cbn [replicate].
  rewrite filter_cons_False by (by intros []). done.
Qed.

Lemma init_blocks_rel lower b b' :
  0 < zlen lower < max_file → zlen lower ≤ 4294967295 * BLOCK_SIZE →
  copy_count b = 0 →
  copy_up_init_blocks (zlen lower) true b = (0, b') →
  cow_status b' = true ∧ cow_rel lower [] b' lower ∧
  lower_file b' = lower_file b ∧ upper_file b' = upper_file b.
Proof.
  intros Hsz H32 Hcc [= <-]. cbn -[u32 zlen].
  set (n := u32 _).
  assert (n = (zlen lower + BLOCK_SIZE - 1) / BLOCK_SIZE) as En.
  { subst n. unfold u32. rewrite Z.mod_small; unfold BLOCK_SIZE in *;
      destruct (Z.eqb_spec (zlen lower mod 4096) 0); cbn [negb]; lia. }
  assert (1 ≤ n < 4294967296) as Hn by (rewrite En; unfold BLOCK_SIZE in *; lia).
  split_and!; [done| |done..]. split; [split|]; cbn -[u32 zlen]; fold n.
  - done.
  - done.
  - lia.
  - unfold zlen. rewrite length_replicate. lia.
  - intros k _ Hc. by apply zget_replicate_copied in Hc.
  - intros _. change (zlen (@nil byte)) with 0. lia.
  - rewrite Hcc. unfold count_copied. cbn -[u32 zlen]. fold n.
    by rewrite drop_replicate, filter_replicate_uncopy.
  - done.
  - intros i Hi. unfold cow_view. destruct (byte_from_upper _ i) eqn:E; [|done].
    apply byte_from_upper_spec in E as [Hlt|Hc]; [|by apply zget_replicate_copied in Hc].
    cbn in Hlt. fold n in Hlt. rewrite !zget_None; [done| |change (zlen (@nil byte)) with 0; lia].
    unfold BLOCK_SIZE in *. lia.
Qed.

(** ** Refinement *)

Section refine.
Context {W : Type} `{VfsLaws W} `{!VfsReliable W}.
Context (up lp : path) (u l realfile nb : Z) (L : list byte).
Implicit Types (w : W) (b : ovl_blocks) (s : bstate W) (F d : list byte).
Local Abbreviation upper s := (vfs_bytes (bs_w s) u).
Local Abbreviation lower s := (vfs_bytes (bs_w s) l).

(** [realfile] is open on the upper inode. *)
Definition realfile_ok w : Prop :=
  vfs_isopen w realfile = true ∧ vfs_append w realfile = false ∧ vfs_inode w realfile = u.

(** The overlay file shows [F], lazily or after the copy is complete; the lower
    file still holds [L]. *)
Definition store_rel s F : Prop :=
  realfile_ok (bs_w s) ∧ u ≠ l ∧ lower s = L ∧
  (if cow_status (bs_b s) then
     io_ok up lp u l s ∧ cow_rel (lower s) (upper s) (bs_b s) F ∧ block_count (bs_b s) = nb
   else upper s = F).

Lemma realfile_ok_frame w w' : vfs_frame w w' → realfile_ok w → realfile_ok w'.
Proof.
  intros [fo fi fa _] (Ho & Ha & Hi). split_and!; [by apply fo|by rewrite fa|by rewrite fi].
Qed.

Lemma wf_block_count lo upp upp' b b' :
  blocks_wf lo upp b → blocks_wf lo upp' b' → block_count b' = block_count b.
Proof. intros [] []. congruence. Qed.

Lemma write_store_rel F pos d s s' p' :
  store_rel s F → cow_status (bs_b s) = true → write_post up lp u l F pos d s (zlen d) p' s' →
  store_rel s' (fwrite F pos d).
Proof.
  intros (Hf & Hne & HL & HR) Hc. rewrite Hc in HR. destruct HR as (Hio & HR & Hn).
  intros [Fr Oth _ Full]. destruct (Full eq_refl) as (_ & Hio' & HR').
  split; [by eapply realfile_ok_frame|]. split; [done|]. split; [by rewrite Oth by congruence|].
  destruct (cow_status (bs_b s')) eqn:Hc'; [|by eapply cow_done_view].
  split_and!; auto. rewrite <- Hn.
  rewrite Oth in HR' by congruence. eapply wf_block_count; [apply HR|apply HR'].
Qed.

Lemma run_read F s pos n :
  store_rel s F → op_ok nb F (PRead pos n) →
  ∃ k s', run_op up lp realfile (PRead pos n) s = Ret (k, zslice F pos k, s') ∧
          file_step F (PRead pos n) (k, zslice F pos k) F ∧ store_rel s' F ∧ vfs_frame (bs_w s) (bs_w s').
Proof.
  intros (Hf & Hne & HL & HR) (Hpos & Hn & Hend & Hmax). cbn [run_op]. unfold ovl_read_data.
  destruct (cow_status (bs_b s)) eqn:Hc.
  - destruct HR as (Hio & HR & Hnb). unfold block_read_iter.
    destruct (block_read_loop_spec up lp u l (op_fuel (PRead pos n)) F s (ReadSt 0 n pos []))
      as (k & r' & s' & -> & Hfr & -> & Hk & HkF & Hk0 & Hfull);
      cbn [rd_pos rd_count op_fuel] in *; auto; try lia; [by left|].
    exists k, s'. split; [done|]. split; [by constructor|]. split; [|apply Hfr].
    split; [eapply realfile_ok_frame; [apply Hfr|done]|].
    destruct Hfr as [_ Bs Sb _ ?]. split; [done|]. split; [by rewrite Bs|]. rewrite (sb_cow _ _ Sb), Hc.
    split_and!; [done| |by rewrite (sb_count _ _ Sb)]. rewrite !Bs. by eapply same_blocks_rel.
  - pose proof Hf as (Ho & Ha & Hi).
    pose proof (rel_read (bs_w s) realfile pos n Hpos Hn) as Hgt. unfold i_size in Hgt.
    destruct (vfs_iter_read (bs_w s) realfile pos n) as [[k d] w'] eqn:E. cbn in Hgt.
    apply law_read in E as (Fr & Sb & Hle & Hd & _); [|lia..].
    rewrite Hi, HR in *. specialize (Hgt ltac:(lia)). destruct (Hd ltac:(lia)) as [-> Hlen].
    rewrite zlen_zslice in Hlen by lia.
    exists k, (set_bs_w w' s). split; [done|]. split; [by constructor; lia|]. split; [|exact Fr].
    split; [by eapply realfile_ok_frame|]. cbn. rewrite !Sb, Hc. done.
Qed.

Lemma run_write F s pos d :
  store_rel s F → op_ok nb F (PWrite pos d) →
  ∃ s', run_op up lp realfile (PWrite pos d) s = Ret (zlen d, [], s') ∧
        store_rel s' (fwrite F pos d) ∧ vfs_frame (bs_w s) (bs_w s').
Proof.
  intros HS (Hpos & Hd & Hend). pose proof HS as (Hf & Hne & HL & HR). pose proof Hf as (Ho & Ha & Hi).
  cbn [run_op op_fuel]. unfold ovl_write_data.
  destruct (cow_status (bs_b s)) eqn:Hc.
  - destruct HR as (Hio & HR & Hnb).
    destruct (block_write_iter_reliable up lp u l 0 F s realfile pos d) as (s' & -> & Hpost); auto.
    { by rewrite Hnb. }
    exists s'. split; [done|]. split; [by eapply write_store_rel|apply Hpost].
  - pose proof (rel_write (bs_w s) realfile pos d Hpos) as Hw.
    destruct (vfs_iter_write (bs_w s) realfile pos d) as [[k p'] w'] eqn:E. cbn in Hw. subst k.
    apply law_write in E as (Fr & _ & _ & _ & Hset); [|done].
    destruct (Hset Hd) as (-> & Hb & Hoth). rewrite Ha, Hi, HR in Hb.
    rewrite Hi in Hoth.
    eexists. split; [done|]. split; [|exact Fr]. split; [by eapply realfile_ok_frame|]. cbn. rewrite Hc, Hb, Hoth by congruence.
    split_and!; [done..|].
    f_equal. unfold ztake. apply firstn_all2. unfold zlen. lia.
Qed.

Lemma run_op_refines F s op :
  store_rel s F → op_ok nb F op →
  ∃ r s', run_op up lp realfile op s = Ret (r, s') ∧
          file_step F op r (op_result F op) ∧ store_rel s' (op_result F op) ∧ vfs_frame (bs_w s) (bs_w s').
Proof.
  intros HS Hop. destruct op as [pos n|pos d].
  - destruct (run_read F s pos n HS Hop) as (k & s' & E & ? & ?). eauto.
  - destruct (run_write F s pos d HS Hop) as (s' & E & ? & ?). eexists _, _. split; [done|].
    split; [constructor|done].
Qed.

Lemma run_ops_refines ops : ∀ F s,
  store_rel s F → ops_ok nb F ops →
  ∃ rs s' F', run_ops up lp realfile ops s = Ret (rs, s') ∧ file_steps F ops rs F' ∧ store_rel s' F'.
Proof.
  induction ops as [|op ops IH]; intros F s HS; cbn [ops_ok run_ops].
  { intros _. eexists _, _, _. split; [done|]. split; [constructor|done]. }
  intros [Hop Hops]. destruct (run_op_refines F s op HS Hop) as ([ret d] & s1 & -> & Hst & HS1 & _).
  destruct (IH _ s1 HS1 Hops) as (rs & s2 & F' & E & Hsts & HS2).
  cbn [mbind outcome_bind]. rewrite E. cbn [mbind outcome_bind].
  eexists _, _, _. split; [done|]. split; [by econstructor|done].
Qed.
End refine.
