(* ===== verification/BlockProps.v ===== *)
(** What the lazy copy-up of regular files guarantees, and where it does not. *)

From S2P Require Import Prelude Vfs Types Util Block BlockView BlockWrite BlockWriteSpec BlockRead BlockStore.

Section props.
Context {W : Type} `{VfsLaws W}.
Implicit Types (w : W) (b : ovl_blocks) (s : bstate W) (F d : list byte).

(** ** Writes that reach the end of the block map *)

(** The array access of [end_block] is out of bounds. *)
Lemma border_copies_oob up lp u l F s pos n :
  VfsReliable W → io_ok up lp u l s → cow_rel (vfs_bytes (bs_w s) l) (vfs_bytes (bs_w s) u) (bs_b s) F →
  0 ≤ pos → 0 < n → pos + n < max_file → block_count (bs_b s) * BLOCK_SIZE ≤ pos + n →
  border_copies up lp (pos / BLOCK_SIZE + 1) ((pos + n) / BLOCK_SIZE + 1) pos n s = Fault.
Proof.
  intros Hrel Hio HR Hpos Hn Hmax Hend. pose proof HR as [Hwf _]. pose proof (wf_len _ _ _ Hwf) as Hlen.
  set (sb := pos / BLOCK_SIZE + 1). set (eb := (pos + n) / BLOCK_SIZE + 1).
  assert (1 ≤ sb ∧ block_count (bs_b s) + 1 ≤ eb ∧ eb < two64 / BLOCK_SIZE) as (Hsb & Heb & Hebm)
    by (subst sb eb; unfold two64, max_file, BLOCK_SIZE in *; lia).
  unfold border_copies.
  assert (∀ s', same_blocks (bs_b s) (bs_b s') → array_get (block_status (bs_b s')) eb = Fault) as Hoob.
  { intros s' Hs. unfold array_get. rewrite zget_None; [done|]. rewrite (sb_status _ _ Hs). lia. }
  assert ((u64 (pos + n) <? u64 (eb * BLOCK_SIZE)) = true) as ->.
  { rewrite !u64_small by (subst eb; unfold two64, max_file, BLOCK_SIZE in *; lia).
    apply Z.ltb_lt. subst eb. unfold BLOCK_SIZE. lia. }
  destruct (u64 (u64 (sb - 1) * BLOCK_SIZE) <? u64 pos); cycle 1.
  { cbn [mbind outcome_bind Z.ltb Z.compare]. by rewrite (Hoob s) by done. }
  destruct (decide (sb ≤ block_count (bs_b s))) as [Hle|Hgt]; cycle 1.
  { assert (array_get (block_status (bs_b s)) sb = Fault) as ->; [|done].
    unfold array_get. by rewrite zget_None by lia. }
  destruct (status_get _ _ _ sb Hwf ltac:(lia)) as (st & -> & Hst).
  cbn [mbind outcome_bind]. destruct (st =? UNCOPY) eqn:En.
  - destruct (copy_border_block_spec up lp u l F s sb Hio HR ltac:(lia)) as (r & s' & E & P & _);
      [by apply Hst|].
    pose proof (copy_border_block_reliable up lp u l F s sb r s' Hio HR ltac:(lia) E) as ->.
    rewrite E. cbn [mbind outcome_bind Z.ltb Z.compare]. by rewrite (Hoob s') by apply P.
  - cbn [mbind outcome_bind Z.ltb Z.compare]. by rewrite (Hoob s) by done.
Qed.
End props.

(** ** A concrete file for the witnesses *)

Definition wit_dentry (n : Z) : dentry := Dentry n "f" 0 None.
Definition wit_path (n : Z) : path := Path 1 (Some (wit_dentry n)).
Definition wit_lower : list byte := [x61; x62; x63; x64; x65].
Definition wit_world : memfs None := MemFs {[2 := wit_lower]}.
Definition wit_blocks : ovl_blocks := (copy_up_init_blocks (zlen wit_lower) true (alloc_blocks [])).2.
Definition wit_state : bstate (memfs None) := BState wit_world wit_blocks [].

Lemma wit_io_ok : io_ok (wit_path 1) (wit_path 2) 1 2 wit_state.
Proof. split; [done|done|done|by left|by left]. Qed.

Lemma wit_rel : cow_rel (vfs_bytes (bs_w wit_state) 2) (vfs_bytes (bs_w wit_state) 1) (bs_b wit_state) wit_lower.
Proof.
  change (vfs_bytes (bs_w wit_state) 1) with (@nil byte).
  change (vfs_bytes (bs_w wit_state) 2) with wit_lower.
  apply (init_blocks_rel wit_lower (alloc_blocks []) wit_blocks);
    unfold max_file, BLOCK_SIZE; change (zlen wit_lower) with 5; [lia|lia|done|done].
Qed.

(** ** The properties *)

Section theorems.
Context {W : Type} `{VfsLaws W}.
Implicit Types (w : W) (b : ovl_blocks) (s : bstate W) (F d : list byte).


(** C24: A write over any kernel, failing and short operations included.
    block_write_iter on a lazily copied file that ends inside the block map
    never leaves the block array; whenever it returns, with an error or with
    any count, the files other than the upper one are untouched and every
    byte of the file outside the written range reads as before. *)
Theorem write_keeps_other_bytes fuel up lp u l f pos d s F :
  io_ok up lp u l s → cow_rel (vfs_bytes (bs_w s) l) (vfs_bytes (bs_w s) u) (bs_b s) F →
  cow_status (bs_b s) = true →
  vfs_isopen (bs_w s) f = true → vfs_append (bs_w s) f = false → vfs_inode (bs_w s) f = u →
  0 ≤ pos → 0 < zlen d → pos + zlen d < block_count (bs_b s) * BLOCK_SIZE →
  block_write_iter fuel up lp f pos d s ≠ Fault ∧
  ∀ r p' s', block_write_iter fuel up lp f pos d s = Ret (r, p', s') →
    (∀ i, i ≠ u → vfs_bytes (bs_w s') i = vfs_bytes (bs_w s) i) ∧
    (∀ i, 0 ≤ i < zlen F → i < pos ∨ pos + zlen d ≤ i →
       cow_view (vfs_bytes (bs_w s') l) (vfs_bytes (bs_w s') u) (bs_b s') i = zget F i).
Proof.
  intros Hio HR Hc Ho Ha Hi Hpos Hd Hend.
  pose proof (block_write_iter_spec up lp u l fuel F s f pos d Hio HR Hc Ho Ha Hi Hpos Hd Hend) as HS.
  destruct (block_write_iter fuel up lp f pos d s) as [[[r p'] s']| |]; [|done..].
  split; [done|]. intros ? ? ? [= <- <- <-]. by destruct HS.
Qed.

(** C25: Over any kernel, when block_write_iter reports that every byte was
    written, the file is exactly the old contents with the write applied, the
    position has advanced by the count, and [cow_status] is only cleared when
    the upper file alone is that contents. *)
Theorem write_full_count fuel up lp u l f pos d s F p' s' :
  io_ok up lp u l s → cow_rel (vfs_bytes (bs_w s) l) (vfs_bytes (bs_w s) u) (bs_b s) F →
  cow_status (bs_b s) = true →
  vfs_isopen (bs_w s) f = true → vfs_append (bs_w s) f = false → vfs_inode (bs_w s) f = u →
  0 ≤ pos → 0 < zlen d → pos + zlen d < block_count (bs_b s) * BLOCK_SIZE →
  block_write_iter fuel up lp f pos d s = Ret (zlen d, p', s') →
  p' = pos + zlen d ∧
  cow_rel (vfs_bytes (bs_w s') l) (vfs_bytes (bs_w s') u) (bs_b s') (fwrite F pos d) ∧
  (cow_status (bs_b s') = false → vfs_bytes (bs_w s') u = fwrite F pos d).
Proof.
  intros Hio HR Hc Ho Ha Hi Hpos Hd Hend E.
  pose proof (block_write_iter_spec up lp u l fuel F s f pos d Hio HR Hc Ho Ha Hi Hpos Hd Hend) as HS.
  rewrite E in HS. destruct (wp_full _ _ _ _ _ _ _ _ _ _ _ HS eq_refl) as (-> & _ & HR').
  split_and!; [done..|]. intros Hc'. by eapply cow_done_view.
Qed.

(** C26: block_read_iter, over a kernel that does not fail, returns bytes of the
    view: a request that stays inside the file, or in a file whose last block
    is still in the lower file, terminates within [count + 1] iterations with
    a prefix of the requested bytes, complete when the request ends inside
    the block map; it changes neither file. *)
Theorem read_returns_view `{!VfsReliable W} up lp u l pos count s F :
  io_ok up lp u l s → cow_rel (vfs_bytes (bs_w s) l) (vfs_bytes (bs_w s) u) (bs_b s) F →
  0 ≤ pos → 0 ≤ count → pos + count < max_file → readable (bs_b s) F pos count →
  ∃ n s', block_read_iter (S (Z.to_nat count)) up lp pos count s =
            Ret (n, ReadSt n (count - n) (pos + n) (zslice F pos n), s') ∧
          (n = 0 → count = 0 ∨ zlen F ≤ pos) ∧
          (pos + count ≤ block_count (bs_b s) * BLOCK_SIZE → n = Z.min count (Z.max 0 (zlen F - pos))) ∧
          same_bytes (bs_w s) (bs_w s').
Proof.
  intros Hio HR Hpos Hcnt Hmax Hrd.
  destruct (block_read_loop_spec up lp u l (S (Z.to_nat count)) F s (ReadSt 0 count pos []))
    as (n & r' & s' & E & Hfr & -> & Hn & HnF & Hn0 & Hfull); cbn [rd_pos rd_count] in *; auto; try lia.
  exists n, s'. split_and!; [exact E|done|done|]. by destruct Hfr.
Qed.

(** The requests that [read_returns_view] leaves out never return: when
    the last block is copied and the file ends inside the block map, a read
    that asks for more than the file holds spins for any number of
    iterations, because the end of the upper file leaves only the inner loop. *)
Theorem read_past_end_spins `{!VfsReliable W} fuel up lp u l pos count s F :
  io_ok up lp u l s → cow_rel (vfs_bytes (bs_w s) l) (vfs_bytes (bs_w s) u) (bs_b s) F →
  0 ≤ pos → 0 < count → pos + count < max_file → ¬ readable (bs_b s) F pos count →
  block_read_iter fuel up lp pos count s = NoFuel.
Proof.
  intros Hio HR Hpos Hcnt Hmax Hrd. unfold readable in Hrd.
  apply (block_read_loop_spins up lp u l fuel F); cbn [rd_pos rd_count]; auto; try lia.
  destruct (decide (copied (block_status (bs_b s)) (block_count (bs_b s)))); [done|].
  destruct Hrd. by right; left.
Qed.

(** A write that ends at or after the last block boundary reads the array
    of block states out of bounds: [end_block] is [block_count + 1] or more
    while the array has [block_count + 1] entries. *)
Theorem write_at_end_out_of_bounds `{!VfsReliable W} fuel up lp u l f pos d s F :
  io_ok up lp u l s → cow_rel (vfs_bytes (bs_w s) l) (vfs_bytes (bs_w s) u) (bs_b s) F →
  vfs_append (bs_w s) f = false →
  0 ≤ pos → 0 < zlen d → pos + zlen d < max_file →
  block_count (bs_b s) * BLOCK_SIZE ≤ pos + zlen d →
  block_write_iter fuel up lp f pos d s = Fault.
Proof.
  intros Hio HR Ha Hpos Hd Hmax Hend. unfold block_write_iter. rewrite Ha.
  rewrite !ovl_get_block_spec by (unfold two64, max_file, BLOCK_SIZE in *; lia).
  by rewrite (border_copies_oob up lp u l F).
Qed.
End theorems.

(** ** A short write *)

(** A kernel whose writes transfer at most one block at a time. *)
Definition short_lower : list byte := replicate (Z.to_nat (3 * BLOCK_SIZE)) x61.
Definition short_state : bstate (memfs (Some BLOCK_SIZE)) :=
  BState (MemFs {[2 := short_lower]})
    (copy_up_init_blocks (zlen short_lower) true (alloc_blocks [])).2 [].
Definition short_data : list byte := replicate (Z.to_nat (2 * BLOCK_SIZE)) x62.

(** The loop of block_write_iter, its result and what the file shows at [i]. *)
Definition short_write_shows (i : Z) : option (Z * option byte) :=
  match block_write_iter 1 (wit_path 1) (wit_path 2) 1 0 short_data short_state with
  | Ret (r, _, s) => Some (r, cow_view (vfs_bytes (bs_w s) 2) (vfs_bytes (bs_w s) 1) (bs_b s) i)
  | _ => None
  end.

(** Bytes that a short write did not write are lost.  The loop condition
    [ret < iter->count] compares with the count that is left, so a kernel that
    writes one of two blocks ends it; both blocks are then marked copied, and
    byte 5000, which the write did not reach, reads as zero instead of the
    lower file's ['a'], although block_write_iter reports 4096 bytes. *)
Theorem short_write_loses_data :
  cow_view short_lower [] (bs_b short_state) 5000 = Some x61 ∧
  short_write_shows 5000 = Some (4096, Some x00).
Proof. split; vm_compute; reflexivity. Qed.

(** ** Witnesses *)


Lemma write_keeps_other_bytes_witness :
  block_write_iter 1 (wit_path 1) (wit_path 2) 1 1 [x78; x79] wit_state ≠ Fault ∧
  ∀ r p' s', block_write_iter 1 (wit_path 1) (wit_path 2) 1 1 [x78; x79] wit_state = Ret (r, p', s') →
    (∀ i, i ≠ 1 → vfs_bytes (bs_w s') i = vfs_bytes (bs_w wit_state) i) ∧
    (∀ i, 0 ≤ i < zlen wit_lower → i < 1 ∨ 1 + zlen [x78; x79] ≤ i →
       cow_view (vfs_bytes (bs_w s') 2) (vfs_bytes (bs_w s') 1) (bs_b s') i = zget wit_lower i).
Proof.
  apply (write_keeps_other_bytes 1 (wit_path 1) (wit_path 2) 1 2 1 1 [x78; x79] wit_state wit_lower
           wit_io_ok wit_rel); try reflexivity; lia.
Defined.

Definition wit_after : bstate (memfs None) :=
  match block_write_iter 1 (wit_path 1) (wit_path 2) 1 1 [x78; x79] wit_state with
  | Ret (_, _, s) => s
  | _ => wit_state
  end.

Lemma write_full_count_witness :
  3 = 1 + zlen [x78; x79] ∧
  cow_rel (vfs_bytes (bs_w wit_after) 2) (vfs_bytes (bs_w wit_after) 1) (bs_b wit_after)
    (fwrite wit_lower 1 [x78; x79]) ∧
  (cow_status (bs_b wit_after) = false → vfs_bytes (bs_w wit_after) 1 = fwrite wit_lower 1 [x78; x79]).
Proof.
  apply (write_full_count 1 (wit_path 1) (wit_path 2) 1 2 1 1 [x78; x79] wit_state wit_lower 3 wit_after
           wit_io_ok wit_rel); try reflexivity; lia.
Defined.

Lemma read_returns_view_witness :
  ∃ n s', block_read_iter (S (Z.to_nat 100)) (wit_path 1) (wit_path 2) 2 100 wit_state =
            Ret (n, ReadSt n (100 - n) (2 + n) (zslice wit_lower 2 n), s') ∧
          (n = 0 → 100 = 0 ∨ zlen wit_lower ≤ 2) ∧
          (2 + 100 ≤ block_count (bs_b wit_state) * BLOCK_SIZE →
             n = Z.min 100 (Z.max 0 (zlen wit_lower - 2))) ∧
          same_bytes (bs_w wit_state) (bs_w s').
Proof.
  apply (read_returns_view (wit_path 1) (wit_path 2) 1 2 2 100 wit_state wit_lower wit_io_ok wit_rel);
    [lia|lia|unfold max_file, BLOCK_SIZE; lia|].
  right; left. exact (zget_replicate_copied 2 1).
Defined.

(** The state after the first block of the witness file has been copied. *)
Lemma wit_after_rel :
  cow_rel (vfs_bytes (bs_w wit_after) 2) (vfs_bytes (bs_w wit_after) 1) (bs_b wit_after)
    (fwrite wit_lower 1 [x78; x79]).
Proof.
  assert (block_write_iter 1 (wit_path 1) (wit_path 2) 1 1 [x78; x79] wit_state = Ret (2, 3, wit_after))
    as E by reflexivity.
  pose proof (block_write_iter_spec (wit_path 1) (wit_path 2) 1 2 1 wit_lower wit_state 1 1 [x78; x79]
                wit_io_ok wit_rel eq_refl eq_refl eq_refl eq_refl ltac:(lia) eq_refl eq_refl) as HS.
  rewrite E in HS. by apply (wp_full _ _ _ _ _ _ _ _ _ _ _ HS).
Qed.

Lemma wit_after_io_ok : io_ok (wit_path 1) (wit_path 2) 1 2 wit_after.
Proof. split; [done|done|done|right; by split_and!|right; by split_and!]. Qed.

Lemma read_past_end_spins_witness :
  block_read_iter 100 (wit_path 1) (wit_path 2) 0 10 wit_after = NoFuel.
Proof.
  apply (read_past_end_spins 100 (wit_path 1) (wit_path 2) 1 2 0 10 wit_after
           (fwrite wit_lower 1 [x78; x79]) wit_after_io_ok wit_after_rel);
    [lia|lia|unfold max_file, BLOCK_SIZE; lia|].
  intros [Hr|[Hr|Hr]]; [by vm_compute in Hr| |by vm_compute in Hr].
  apply Hr. exists COPIED. split; [reflexivity|done].
Defined.

Lemma write_at_end_out_of_bounds_witness :
  block_write_iter 1 (wit_path 1) (wit_path 2) 1 4095 [x78] wit_state = Fault.
Proof.
  apply (write_at_end_out_of_bounds 1 (wit_path 1) (wit_path 2) 1 2 1 4095 [x78] wit_state wit_lower
           wit_io_ok wit_rel); try reflexivity; try lia.
Defined.
