(* ===== verification/Options.v ===== *)
(** Mount options (super.c): splitting of the option string and of the
    "lowerdir" list, parsing into struct ovl_config, printing.  C strings are
    [string]s; the terminating NUL is the end of the [string]. *)

From S2P Require Import Prelude Types.
From Stdlib Require Import Ascii.

Definition BSLASH : ascii := "\"%char.

(** Module parameters. *)
Record ovl_params : Type := OvlParams {
  ovl_redirect_dir_def : bool;
  ovl_redirect_always_follow : bool;
  ovl_index_def : bool;
  ovl_nfs_export_def : bool;
  ovl_xino_auto_def : bool;
  ovl_metacopy_def : bool;
}.

Definition OVL_XINO_OFF : Z := 0.
Definition OVL_XINO_AUTO : Z := 1.
Definition OVL_XINO_ON : Z := 2.

(** ovl_xino_str *)
Definition ovl_xino_str (x : Z) : string :=
  if x =? OVL_XINO_OFF then "off" else if x =? OVL_XINO_AUTO then "auto" else "on".

Inductive ovl_token : Type :=
| OPT_LOWERDIR | OPT_UPPERDIR | OPT_WORKDIR | OPT_DEFAULT_PERMISSIONS | OPT_REDIRECT_DIR
| OPT_INDEX_ON | OPT_INDEX_OFF | OPT_NFS_EXPORT_ON | OPT_NFS_EXPORT_OFF
| OPT_XINO_ON | OPT_XINO_OFF | OPT_XINO_AUTO | OPT_METACOPY_ON | OPT_METACOPY_OFF | OPT_ERR.

(** match_table_t ovl_tokens *)
Definition ovl_tokens : list (ovl_token * string) := [
  (OPT_LOWERDIR, "lowerdir=%s");
  (OPT_UPPERDIR, "upperdir=%s");
  (OPT_WORKDIR, "workdir=%s");
  (OPT_DEFAULT_PERMISSIONS, "default_permissions");
  (OPT_REDIRECT_DIR, "redirect_dir=%s");
  (OPT_INDEX_ON, "index=on");
  (OPT_INDEX_OFF, "index=off");
  (OPT_NFS_EXPORT_ON, "nfs_export=on");
  (OPT_NFS_EXPORT_OFF, "nfs_export=off");
  (OPT_XINO_ON, "xino=on");
  (OPT_XINO_OFF, "xino=off");
  (OPT_XINO_AUTO, "xino=auto");
  (OPT_METACOPY_ON, "metacopy=on");
  (OPT_METACOPY_OFF, "metacopy=off")
]%string.

(** ** Splitting *)

(** The loop of ovl_next_opt from [p]: the option up to the comma, and what
    follows the comma ([None] at the end of the string). *)
Fixpoint next_opt_loop (p : string) : string * option string :=
  match p with
  | EmptyString => (EmptyString, None)
  | String c p' =>
      if bool_decide (c = BSLASH) then
        match p' with
        | EmptyString => (String c EmptyString, None)
        | String c' p'' => let '(o, rest) := next_opt_loop p'' in (String c (String c' o), rest)
        end
      else if bool_decide (c = ","%char) then (EmptyString, Some p')
      else let '(o, rest) := next_opt_loop p' in (String c o, rest)
  end.

(** ovl_next_opt: [None] when [*s] is NULL, else the option and the new [*s]. *)
Definition ovl_next_opt (s : option string) : option (string * option string) :=
  match s with
  | None => None
  | Some sbegin => Some (next_opt_loop sbegin)
  end.

(** ovl_unescape, in place *)
Fixpoint ovl_unescape (s : string) : string :=
  match s with
  | EmptyString => EmptyString
  | String c s' =>
      if bool_decide (c = BSLASH) then
        match s' with
        | EmptyString => EmptyString
        | String c' s'' => String c' (ovl_unescape s'')
        end
      else String c (ovl_unescape s')
  end.

(** ovl_split_lowerdirs: the number of layers and the buffer, in which every
    separator became a NUL. *)
Fixpoint split_lowerdirs_loop (s : string) : Z * string :=
  match s with
  | EmptyString => (1, EmptyString)
  | String c s' =>
      if bool_decide (c = BSLASH) then
        match s' with
        | EmptyString => (1, EmptyString)
        | String c' s'' => let '(ctr, d) := split_lowerdirs_loop s'' in (ctr, String c' d)
        end
      else if bool_decide (c = ":"%char) then
        let '(ctr, d) := split_lowerdirs_loop s' in (ctr + 1, String NUL d)
      else let '(ctr, d) := split_lowerdirs_loop s' in (ctr, String c d)
  end.
Definition ovl_split_lowerdirs (str : string) : Z * string := split_lowerdirs_loop str.

(** The C string at the start of a buffer, and what follows its NUL:
    [strchr(lower, '\0') + 1]. *)
Fixpoint cstr (buf : string) : string * string :=
  match buf with
  | EmptyString => (EmptyString, EmptyString)
  | String c buf' =>
      if bool_decide (c = NUL) then (EmptyString, buf')
      else let '(s, rest) := cstr buf' in (String c s, rest)
  end.

(** The [n] names that ovl_get_lowerstack visits. *)
Fixpoint lower_names (n : nat) (buf : string) : list string :=
  match n with
  | O => []
  | S n => let '(s, rest) := cstr buf in s :: lower_names n rest
  end.

(** ** Parsing *)

Definition ovl_redirect_mode_def (mp : ovl_params) : string :=
  if ovl_redirect_dir_def mp then "on" else "off".

Definition ovl_xino_def (mp : ovl_params) : Z :=
  if ovl_xino_auto_def mp then OVL_XINO_AUTO else OVL_XINO_OFF.

(** Updates of struct ovl_config. *)
Definition cfg_dirs (lo up wd : option string) (c : ovl_config) : ovl_config :=
  OvlConfig lo up wd (c_default_permissions c) (c_redirect_dir c) (c_redirect_follow c)
    (c_redirect_mode c) (c_index c) (c_nfs_export c) (c_xino c) (c_metacopy c).
Definition cfg_lowerdir (x : option string) (c : ovl_config) := cfg_dirs x (c_upperdir c) (c_workdir c) c.
Definition cfg_upperdir (x : option string) (c : ovl_config) := cfg_dirs (c_lowerdir c) x (c_workdir c) c.
Definition cfg_workdir (x : option string) (c : ovl_config) := cfg_dirs (c_lowerdir c) (c_upperdir c) x c.
Definition cfg_redirect (dir follow : bool) (mode : option string) (c : ovl_config) : ovl_config :=
  OvlConfig (c_lowerdir c) (c_upperdir c) (c_workdir c) (c_default_permissions c) dir follow
    mode (c_index c) (c_nfs_export c) (c_xino c) (c_metacopy c).
Definition cfg_redirect_mode (m : option string) (c : ovl_config) :=
  cfg_redirect (c_redirect_dir c) (c_redirect_follow c) m c.
Definition cfg_flags (perm index nfs : bool) (xino : Z) (metacopy : bool) (c : ovl_config) : ovl_config :=
  OvlConfig (c_lowerdir c) (c_upperdir c) (c_workdir c) perm (c_redirect_dir c) (c_redirect_follow c)
    (c_redirect_mode c) index nfs xino metacopy.
Definition cfg_permissions (b : bool) (c : ovl_config) :=
  cfg_flags b (c_index c) (c_nfs_export c) (c_xino c) (c_metacopy c) c.
Definition cfg_index (b : bool) (c : ovl_config) :=
  cfg_flags (c_default_permissions c) b (c_nfs_export c) (c_xino c) (c_metacopy c) c.
Definition cfg_nfs_export (b : bool) (c : ovl_config) :=
  cfg_flags (c_default_permissions c) (c_index c) b (c_xino c) (c_metacopy c) c.
Definition cfg_xino (x : Z) (c : ovl_config) :=
  cfg_flags (c_default_permissions c) (c_index c) (c_nfs_export c) x (c_metacopy c) c.
Definition cfg_metacopy (b : bool) (c : ovl_config) :=
  cfg_flags (c_default_permissions c) (c_index c) (c_nfs_export c) (c_xino c) b c.

(** ovl_parse_redirect_mode *)
Definition ovl_parse_redirect_mode (mp : ovl_params) (config : ovl_config) (mode : string)
    : Z * ovl_config :=
  if bool_decide (mode = "on"%string) then
    (0, cfg_redirect true true (c_redirect_mode config) config)
  else if bool_decide (mode = "follow"%string) then
    (0, cfg_redirect (c_redirect_dir config) true (c_redirect_mode config) config)
  else if bool_decide (mode = "off"%string) then
    (0, if ovl_redirect_always_follow mp then
          cfg_redirect (c_redirect_dir config) true (c_redirect_mode config) config
        else config)
  else if bool_decide (mode ≠ "nofollow"%string) then (- EINVAL, config)
  else (0, config).

(** lib/parser.c and mm/util.c are not in the repository: [match_token] returns
    the token and the text of the ["%s"], [kstrdup] may fail. *)
Class OptLib : Type := {
  match_token : string → list (ovl_token * string) → ovl_token * string;
  kstrdup : string → option string;
}.

(** [kstrdup] copies, [match_token] takes the first entry that matches: the
    literal text, or the text before "%s" and a non-empty rest. *)
Fixpoint strip_prefix (p s : string) : option string :=
  match p, s with
  | EmptyString, _ => Some s
  | String a p, String b s => if bool_decide (a = b) then strip_prefix p s else None
  | _, _ => None
  end.
Fixpoint match_one (p s : string) : option string :=
  if bool_decide (p = "%s"%string) then if bool_decide (s = ""%string) then None else Some s
  else match p, s with
  | EmptyString, EmptyString => Some EmptyString
  | String a p, String b s => if bool_decide (a = b) then match_one p s else None
  | _, _ => None
  end.
Fixpoint first_match (s : string) (table : list (ovl_token * string)) : ovl_token * string :=
  match table with
  | [] => (OPT_ERR, EmptyString)
  | (t, p) :: table => match match_one p s with Some a => (t, a) | None => first_match s table end
  end.
Class OptLaws `{OptLib} : Prop := {
  law_match_token s : match_token s ovl_tokens = first_match s ovl_tokens;
  law_kstrdup s s' : kstrdup s = Some s' → s' = s;
}.
Definition optlib : OptLib := {| match_token := first_match; kstrdup := Some |}.
Lemma optlaws : @OptLaws optlib.
Proof. split; [done|]. by intros s s' [= ->]. Qed.

Section parse.
Context `{OptLib} (mp : ovl_params).
Implicit Types (config : ovl_config).

(** The body of the switch: error, config, and the flags [metacopy_opt],
    [redirect_opt]. *)
Definition parse_token (p : string) (config : ovl_config) (metacopy_opt redirect_opt : bool)
    : Z * ovl_config * bool * bool :=
  let '(token, arg) := match_token p ovl_tokens in
  match token with
  | OPT_UPPERDIR =>
      let d := kstrdup arg in
      (if d is Some _ then 0 else - ENOMEM, cfg_upperdir d config, metacopy_opt, redirect_opt)
  | OPT_LOWERDIR =>
      let d := kstrdup arg in
      (if d is Some _ then 0 else - ENOMEM, cfg_lowerdir d config, metacopy_opt, redirect_opt)
  | OPT_WORKDIR =>
      let d := kstrdup arg in
      (if d is Some _ then 0 else - ENOMEM, cfg_workdir d config, metacopy_opt, redirect_opt)
  | OPT_DEFAULT_PERMISSIONS => (0, cfg_permissions true config, metacopy_opt, redirect_opt)
  | OPT_REDIRECT_DIR =>
      let d := kstrdup arg in
      (if d is Some _ then 0 else - ENOMEM, cfg_redirect_mode d config, metacopy_opt,
       if d is Some _ then true else redirect_opt)
  | OPT_INDEX_ON => (0, cfg_index true config, metacopy_opt, redirect_opt)
  | OPT_INDEX_OFF => (0, cfg_index false config, metacopy_opt, redirect_opt)
  | OPT_NFS_EXPORT_ON => (0, cfg_nfs_export true config, metacopy_opt, redirect_opt)
  | OPT_NFS_EXPORT_OFF => (0, cfg_nfs_export false config, metacopy_opt, redirect_opt)
  | OPT_XINO_ON => (0, cfg_xino OVL_XINO_ON config, metacopy_opt, redirect_opt)
  | OPT_XINO_OFF => (0, cfg_xino OVL_XINO_OFF config, metacopy_opt, redirect_opt)
  | OPT_XINO_AUTO => (0, cfg_xino OVL_XINO_AUTO config, metacopy_opt, redirect_opt)
  | OPT_METACOPY_ON => (0, cfg_metacopy true config, true, redirect_opt)
  | OPT_METACOPY_OFF => (0, cfg_metacopy false config, metacopy_opt, redirect_opt)
  | OPT_ERR => (- EINVAL, config, metacopy_opt, redirect_opt)
  end.

(** [while ((p = ovl_next_opt(&opt)) != NULL)]; an iteration consumes the
    string up to a comma, so [String.length opt + 1] iterations are enough. *)
Fixpoint parse_loop (fuel : nat) (opt : option string) (config : ovl_config)
    (metacopy_opt redirect_opt : bool) : outcome (Z * ovl_config * bool * bool) :=
  match ovl_next_opt opt with
  | None => Ret (0, config, metacopy_opt, redirect_opt)
  | Some (p, opt) =>
      match fuel with
      | O => NoFuel
      | S fuel =>
          if bool_decide (p = ""%string) then parse_loop fuel opt config metacopy_opt redirect_opt
          else
            let '(err, config, metacopy_opt, redirect_opt) :=
              parse_token p config metacopy_opt redirect_opt in
            if err <? 0 then Ret (err, config, metacopy_opt, redirect_opt)
            else parse_loop fuel opt config metacopy_opt redirect_opt
      end
  end.

Definition opt_fuel (opt : option string) : nat :=
  match opt with None => O | Some s => S (String.length s) end.

(** After the loop: the dependencies between the options. *)
Definition resolve_options (config : ovl_config) (metacopy_opt redirect_opt : bool) : Z * ovl_config :=
  let config := match c_upperdir config, c_workdir config with
                | None, Some _ => cfg_workdir None config
                | _, _ => config
                end in
  let '(err, config) :=
    ovl_parse_redirect_mode mp config (default EmptyString (c_redirect_mode config)) in
  if negb (err =? 0) then (err, config) else
  let config := match c_upperdir config with
                | None => if c_redirect_follow config
                          then cfg_redirect true (c_redirect_follow config) (c_redirect_mode config) config
                          else config
                | Some _ => config
                end in
  if c_metacopy config && negb (c_redirect_dir config) then
    if metacopy_opt && redirect_opt then (- EINVAL, config)
    else if redirect_opt then (0, cfg_metacopy false config)
    else (0, cfg_redirect true true (c_redirect_mode config) config)
  else (0, config).

(** ovl_parse_opt *)
Definition ovl_parse_opt (opt : option string) (config : ovl_config) : outcome (Z * ovl_config) :=
  match kstrdup (ovl_redirect_mode_def mp) with
  | None => Ret (- ENOMEM, cfg_redirect_mode None config)
  | Some m =>
      '(err, config, metacopy_opt, redirect_opt) ←
        parse_loop (opt_fuel opt) opt (cfg_redirect_mode (Some m) config) false false;
      if (err : Z) <? 0 then Ret (err, config)
      else Ret (resolve_options config metacopy_opt redirect_opt)
  end.

(** ovl_show_options: the options printed, after [seq_show_option]'s escapes *)
Definition ovl_show_options (esc : string → string) (c : ovl_config) : list string :=
  ["lowerdir=" +:+ esc (default EmptyString (c_lowerdir c))] ++
  match c_upperdir c with
  | Some u => ["upperdir=" +:+ esc u; "workdir=" +:+ esc (default EmptyString (c_workdir c))]
  | None => []
  end ++
  (if c_default_permissions c then ["default_permissions"] else []) ++
  (if bool_decide (default EmptyString (c_redirect_mode c) ≠ ovl_redirect_mode_def mp)
   then ["redirect_dir=" +:+ default EmptyString (c_redirect_mode c)] else []) ++
  (if negb (Bool.eqb (c_index c) (ovl_index_def mp))
   then ["index=" +:+ (if c_index c then "on" else "off")] else []) ++
  (if negb (Bool.eqb (c_nfs_export c) (ovl_nfs_export_def mp))
   then ["nfs_export=" +:+ (if c_nfs_export c then "on" else "off")] else []) ++
  (if negb (c_xino c =? ovl_xino_def mp) then ["xino=" +:+ ovl_xino_str (c_xino c)] else []) ++
  (if negb (Bool.eqb (c_metacopy c) (ovl_metacopy_def mp))
   then ["metacopy=" +:+ (if c_metacopy c then "on" else "off")] else []).
End parse.

(** ovl_force_readonly, ovl_remount *)
Definition ovl_force_readonly (ofs : ovl_fs) : bool :=
  (fs_upper_mnt ofs =? NULL) || negb (fs_workdir ofs).
Definition ovl_remount (ofs : ovl_fs) (rdonly : bool) : Z :=
  if negb rdonly && ovl_force_readonly ofs then - EROFS else 0.
