(* ===== verification/OptionsProps.v ===== *)
(** Theorems on the mount options: termination and results of the parser, and
    the escapes of the option string and of the list of lower directories. *)

From S2P Require Import Prelude Types Options.
From Stdlib Require Import Ascii.

(** ** Termination of the parser *)

Lemma next_opt_loop_shorter s o rest :
  next_opt_loop s = (o, Some rest) → (String.length rest < String.length s)%nat.
Proof.
  revert o rest. induction s as [s IH] using (induction_ltof1 _ String.length).
  unfold ltof in IH. intros o rest. destruct s as [|c s]; [done|]. cbn [next_opt_loop String.length].
  case_bool_decide.
  - destruct s as [|c' s]; [done|]. cbn [String.length].
    destruct (next_opt_loop s) as [o' r'] eqn:E. intros [= <- ->].
    apply IH in E; cbn; lia.
  - case_bool_decide; [intros [= <- ->]; lia|].
    destruct (next_opt_loop s) as [o' r'] eqn:E. intros [= <- ->]. apply IH in E; cbn; lia.
Qed.

Section total.
Context `{OptLib} (mp : ovl_params).

Lemma parse_loop_total fuel : ∀ opt config m r,
  (opt_fuel opt ≤ fuel)%nat → ∃ x, parse_loop fuel opt config m r = Ret x.
Proof.
  induction fuel as [|fuel IH]; intros opt config m r Hf; destruct opt as [s|]; cbn in *; try lia;
    try by eexists.
  destruct (next_opt_loop s) as [p rest] eqn:E. 
  assert (opt_fuel rest ≤ fuel)%nat as Hr.
  { destruct rest as [rest|]; cbn; [|lia]. apply next_opt_loop_shorter in E. lia. }
  case_bool_decide; [by apply IH|].
  destruct (parse_token p config m r) as [[[err c] m'] r']. destruct (err <? 0); [by eexists|].
  by apply IH.
Qed.

(** ** Invariants of the loop *)

(** The loop never touches [redirect_dir] and [redirect_follow], and leaves the
    values of [xino] and [redirect_mode] well formed. *)
Record loop_inv (config : ovl_config) : Prop := {
  li_dir : c_redirect_dir config = false;
  li_follow : c_redirect_follow config = false;
  li_xino : 0 ≤ c_xino config ≤ 2;
}.

Lemma parse_token_inv p config m r err config' m' r' :
  parse_token p config m r = (err, config', m', r') →
  loop_inv config → loop_inv config' ∧ (err = 0 ∨ err = - ENOMEM ∨ err = - EINVAL).
Proof.
  unfold parse_token. destruct (match_token p ovl_tokens) as [tok arg].
  intros E [Hd Hf Hx].
  destruct tok; cbn in E; injection E as <- <- <- <-;
    (split; [split; cbn; try done; unfold OVL_XINO_ON, OVL_XINO_OFF, OVL_XINO_AUTO; lia|]);
    destruct (kstrdup arg); auto.
Qed.

Lemma parse_loop_inv fuel : ∀ opt config m r err config' m' r',
  parse_loop fuel opt config m r = Ret (err, config', m', r') →
  loop_inv config → loop_inv config' ∧ (err = 0 ∨ err = - ENOMEM ∨ err = - EINVAL).
Proof.
  induction fuel as [|fuel IH]; intros opt config m r err config' m' r'; destruct opt as [s|]; cbn;
    try (intros [= <- <- <- <-]; auto).
  - by destruct (next_opt_loop s).
  - destruct (next_opt_loop s) as [p rest]. case_bool_decide; [by apply IH|].
    destruct (parse_token p config m r) as [[[e c] m1] r1] eqn:E.
    intros Hl Hi. destruct (parse_token_inv _ _ _ _ _ _ _ _ E Hi) as [Hi' He].
    destruct (Z.ltb_spec e 0); [|by eapply IH].
    injection Hl as <- <- <- <-. auto.
Qed.
End total.

(** C36: ovl_parse_opt terminates on every option string, whatever the option
    library answers and whichever allocation fails.  When it succeeds the
    configuration respects the dependencies between the features: redirects
    are followed when they are created, metacopy implies redirect_dir, a mount
    without an upper directory has no workdir, and [xino] is one of the three
    modes; otherwise the error is ENOMEM or EINVAL. *)
Theorem parse_opt_result `{OptLib} mp opt config :
  c_redirect_dir config = false → c_redirect_follow config = false → 0 ≤ c_xino config ≤ 2 →
  ∃ err config', ovl_parse_opt mp opt config = Ret (err, config') ∧
    (err = 0 ∨ err = - ENOMEM ∨ err = - EINVAL) ∧
    (err = 0 →
       (c_redirect_dir config' = true → c_redirect_follow config' = true) ∧
       (c_metacopy config' = true → c_redirect_dir config' = true) ∧
       (c_upperdir config' = None → c_workdir config' = None) ∧
       0 ≤ c_xino config' ≤ 2).
Proof.
  intros Hd Hf Hx. unfold ovl_parse_opt. destruct (kstrdup (ovl_redirect_mode_def mp)) as [m|].
  2: { eexists _, _. split; [done|]. split; [auto|]. intros E. done. }
  assert (loop_inv (cfg_redirect_mode (Some m) config)) as Hi by (by split).
  destruct (parse_loop_total (opt_fuel opt) opt (cfg_redirect_mode (Some m) config) false false)
    as [[[[err c] mo] ro] E]; [done|].
  rewrite E. cbn [mbind outcome_bind].
  destruct (parse_loop_inv _ _ _ _ _ _ _ _ _ E Hi) as [[Hd' Hf' Hx'] He].
  destruct (Z.ltb_spec err 0). { eexists _, _. split; [done|]. split; [done|lia]. }
  eexists _, _. split; [f_equal; by destruct (resolve_options mp c mo ro) eqn:Er; rewrite <- Er; apply surjective_pairing|].
  clear E. unfold resolve_options, ovl_parse_redirect_mode.
  destruct c as [lo up wd perm dir follow mode idx nfs xino meta]; cbn in *; subst.
  destruct up, wd; cbn;
    repeat (case_bool_decide; cbn; try (split; [by auto|done]));
    destruct (ovl_redirect_always_follow mp); cbn;
    destruct meta, mo, ro; cbn; (split; [by auto|]); intros; try done; naive_solver.
Qed.

Lemma parse_opt_result_witness :
  ∃ err config', @ovl_parse_opt optlib (OvlParams false true false false false false)
      (Some "lowerdir=/a,metacopy=on") (OvlConfig None None None false false false None false false 0 false)
      = Ret (err, config') ∧
    (err = 0 ∨ err = - ENOMEM ∨ err = - EINVAL) ∧
    (err = 0 →
       (c_redirect_dir config' = true → c_redirect_follow config' = true) ∧
       (c_metacopy config' = true → c_redirect_dir config' = true) ∧
       (c_upperdir config' = None → c_workdir config' = None) ∧
       0 ≤ c_xino config' ≤ 2).
Proof. apply (@parse_opt_result optlib); cbn; done. Defined.

(** ** Escapes *)

(** What a user writes to protect [special] characters and backslashes. *)
Fixpoint escape (special : ascii → bool) (s : string) : string :=
  match s with
  | EmptyString => EmptyString
  | String c s =>
      if bool_decide (c = BSLASH) || special c then String BSLASH (String c (escape special s))
      else String c (escape special s)
  end.

Fixpoint join (sep : ascii) (l : list string) : string :=
  match l with
  | [] => EmptyString
  | [s] => s
  | s :: l => s +:+ String sep (join sep l)
  end.

Definition is_colon (c : ascii) : bool := bool_decide (c = ":"%char).
Definition is_comma (c : ascii) : bool := bool_decide (c = ","%char).

Lemma unescape_escape special s : ovl_unescape (escape special s) = s.
Proof.
  induction s as [|c s IH]; [done|]. cbn [escape].
  destruct (bool_decide (c = BSLASH)) eqn:E; cbn [orb].
  - cbn [ovl_unescape]. by rewrite IH.
  - destruct (special c); cbn [ovl_unescape]; [by rewrite IH|]. by rewrite E, IH.
Qed.

Lemma split_escaped s rest :
  split_lowerdirs_loop (escape is_colon s +:+ rest) =
  let '(ctr, d) := split_lowerdirs_loop rest in (ctr, s +:+ d).
Proof.
  induction s as [|c s IH]; cbn [escape].
  { rewrite sapp_nil. by destruct (split_lowerdirs_loop rest). }
  destruct (bool_decide (c = BSLASH)) eqn:E; cbn [orb]; [|destruct (is_colon c) eqn:Ec];
    rewrite ?sapp_cons; cbn [split_lowerdirs_loop]; rewrite ?IH.
  1,2: by destruct (split_lowerdirs_loop rest).
  unfold is_colon in Ec. rewrite E, Ec. by destruct (split_lowerdirs_loop rest).
Qed.

Lemma next_opt_escaped s rest :
  next_opt_loop (escape is_comma s +:+ rest) =
  let '(o, r) := next_opt_loop rest in (escape is_comma s +:+ o, r).
Proof.
  induction s as [|c s IH]; cbn [escape].
  { rewrite sapp_nil. by destruct (next_opt_loop rest). }
  destruct (bool_decide (c = BSLASH)) eqn:E; cbn [orb]; [|destruct (is_comma c) eqn:Ec];
    rewrite ?sapp_cons; cbn [next_opt_loop]; rewrite ?IH.
  1,2: by destruct (next_opt_loop rest).
  unfold is_comma in Ec. rewrite E, Ec. by destruct (next_opt_loop rest).
Qed.

Lemma cstr_app s rest : no_nul s → cstr (s +:+ String NUL rest) = (s, rest).
Proof.
  induction s as [|c s IH]; [done|]. rewrite sapp_cons. cbn [no_nul cstr].
  intros [Hc Hs]. rewrite bool_decide_eq_false_2 by done. by rewrite IH.
Qed.

Lemma cstr_all s : no_nul s → cstr s = (s, EmptyString).
Proof.
  induction s as [|c s IH]; cbn [no_nul cstr]; [done|].
  intros [Hc Hs]. rewrite bool_decide_eq_false_2 by done. by rewrite IH.
Qed.

(** The lower directories a mount uses are the ones the user named.  A list
    of directory names, each with its colons and backslashes protected by a
    backslash and the results joined by colons, is split by
    ovl_split_lowerdirs into as many NUL-terminated strings, and those are
    the original names. *)
Theorem split_lowerdirs_roundtrip dirs :
  dirs ≠ [] → Forall no_nul dirs →
  let '(ctr, buf) := ovl_split_lowerdirs (join ":"%char (escape is_colon <$> dirs)) in
  ctr = zlen dirs ∧ lower_names (Z.to_nat ctr) buf = dirs.
Proof.
  intros Hne HF. unfold ovl_split_lowerdirs.
  assert (∃ buf, split_lowerdirs_loop (join ":"%char (escape is_colon <$> dirs)) = (zlen dirs, buf) ∧
                 lower_names (length dirs) buf = dirs) as (buf & -> & Hn).
  { induction dirs as [|s dirs IH]; [done|]. inversion HF as [|? ? Hs HF']; subst.
    destruct dirs as [|s' dirs].
    - exists s. split; [|cbn [length lower_names]; by rewrite cstr_all].
      cbn [fmap list_fmap join]. rewrite <- (sapp_nil_r (escape is_colon s)).
      rewrite split_escaped. cbn -[zlen]. by rewrite sapp_nil_r.
    - destruct IH as (buf & E & Hn); [done|done|].
      exists (s +:+ String NUL buf). change (join ":"%char (escape is_colon <$> s :: s' :: dirs))
        with (escape is_colon s +:+ String ":"%char (join ":"%char (escape is_colon <$> s' :: dirs))).
      rewrite split_escaped. cbn [split_lowerdirs_loop].
      rewrite bool_decide_eq_false_2 by done. rewrite bool_decide_eq_true_2 by done.
      rewrite E. split.
      + f_equal. unfold zlen. cbn [length]. lia.
      + cbn [length lower_names]. rewrite cstr_app by done. cbn [length lower_names] in Hn. by rewrite Hn. }
  split; [done|]. unfold zlen. by rewrite Nat2Z.id.
Qed.

Lemma split_lowerdirs_roundtrip_witness :
  let dirs := ["/lower:1"; "/b\"]%string in
  let '(ctr, buf) := ovl_split_lowerdirs (join ":"%char (escape is_colon <$> dirs)) in
  ctr = zlen dirs ∧ lower_names (Z.to_nat ctr) buf = dirs.
Proof.
  apply (split_lowerdirs_roundtrip ["/lower:1"; "/b\"]%string); [done|].
  repeat constructor; done.
Defined.

(** Every option of a string, as the loop of ovl_parse_opt sees them. *)
Fixpoint all_opts (fuel : nat) (opt : option string) : list string :=
  match fuel, ovl_next_opt opt with
  | S fuel, Some (p, opt) => p :: all_opts fuel opt
  | _, _ => []
  end.

(** The option string is cut at the commas the user did not protect: a
    list of options, each with its commas and backslashes protected and
    joined by commas, gives back those options in order, still escaped, and
    ovl_unescape turns each of them into the original text. *)
Theorem next_opt_roundtrip opts :
  opts ≠ [] →
  let s := join ","%char (escape is_comma <$> opts) in
  all_opts (opt_fuel (Some s)) (Some s) = escape is_comma <$> opts ∧
  ovl_unescape <$> (escape is_comma <$> opts) = opts.
Proof.
  intros Hne s. subst s. split.
  - assert (∀ fuel, (length opts ≤ fuel)%nat →
              all_opts fuel (Some (join ","%char (escape is_comma <$> opts))) = escape is_comma <$> opts)
      as Hall.
    { induction opts as [|s opts IH]; [done|]. intros [|fuel] Hf; cbn in Hf; [lia|].
      cbn [all_opts ovl_next_opt]. destruct opts as [|s' opts].
      - cbn [fmap list_fmap join]. rewrite <- (sapp_nil_r (escape is_comma s)) at 1.
        rewrite next_opt_escaped. cbn. rewrite sapp_nil_r. by destruct fuel.
      - change (join ","%char (escape is_comma <$> s :: s' :: opts))
          with (escape is_comma s +:+ String ","%char (join ","%char (escape is_comma <$> s' :: opts))).
        rewrite next_opt_escaped. cbn [next_opt_loop].
        rewrite bool_decide_eq_false_2 by done. rewrite bool_decide_eq_true_2 by done.
        rewrite sapp_nil_r, IH by (done || lia). done. }
    apply Hall. cbn [opt_fuel]. clear Hne Hall. induction opts as [|s opts IH]; cbn [length]; [lia|].
    destruct opts as [|s' opts]; [cbn; lia|].
    change (join ","%char (escape is_comma <$> s :: s' :: opts))
      with (escape is_comma s +:+ String ","%char (join ","%char (escape is_comma <$> s' :: opts))).
    rewrite slen_app. cbn [String.length] in *. lia.
  - rewrite <- list_fmap_compose. clear Hne. induction opts as [|s opts IH]; [done|].
    cbn. rewrite unescape_escape. f_equal. apply IH.
Qed.

Lemma next_opt_roundtrip_witness :
  let s := join ","%char (escape is_comma <$> ["lowerdir=/a,b"; "index=on"]%string) in
  all_opts (opt_fuel (Some s)) (Some s) = escape is_comma <$> ["lowerdir=/a,b"; "index=on"]%string ∧
  ovl_unescape <$> (escape is_comma <$> ["lowerdir=/a,b"; "index=on"]%string)
    = ["lowerdir=/a,b"; "index=on"]%string.
Proof. apply (next_opt_roundtrip ["lowerdir=/a,b"; "index=on"]%string). done. Defined.
