(* ===== verification/Readdir.v ===== *)
(** Directory reading (readdir.c): the cache of a merged directory, the
    position of an open directory, inode numbers and the empty-directory test.
    Cache entries live in a heap and are named by their index, as the C code
    names them by pointer; the red-black tree is a binary tree whose
    rebalancing step is the kernel's. *)

From S2P Require Import Prelude Types Util.

Definition DT_UNKNOWN : Z := 0.
Definition DT_CHR : Z := 2.

Record dirent : Type := Dirent { de_name : string; de_ino : Z; de_type : Z }.

(** struct ovl_cache_entry without its links *)
Record centry : Type := CEntry {
  ce_name : string;
  ce_type : Z;
  ce_real_ino : Z;
  ce_ino : Z;
  ce_is_upper : bool;
  ce_is_whiteout : bool;
}.
Definition set_ce_ino (i : Z) (p : centry) : centry :=
  CEntry (ce_name p) (ce_type p) (ce_real_ino p) i (ce_is_upper p) (ce_is_whiteout p).
Definition set_ce_whiteout (w : bool) (p : centry) : centry :=
  CEntry (ce_name p) (ce_type p) (ce_real_ino p) (ce_ino p) (ce_is_upper p) w.

(** struct rb_root: a node is an entry and its (immutable) name. *)
Inductive rbtree : Type :=
| RBNil
| RBNode (l : rbtree) (p : nat) (name : string) (r : rbtree).

(** struct ovl_readdir_data; [r_maybe] is the [first_maybe_whiteout] chain. *)
Record rdd : Type := Rdd {
  r_heap : list centry;
  r_root : rbtree;
  r_list : list nat;
  r_middle : list nat;
  r_maybe : list nat;
  r_count : Z;
  r_err : Z;
  r_is_upper : bool;
  r_is_lowest : bool;
  r_d_type_supported : bool;
}.

Definition rdd_status (count err : Z) (r : rdd) : rdd :=
  Rdd (r_heap r) (r_root r) (r_list r) (r_middle r) (r_maybe r) count err
    (r_is_upper r) (r_is_lowest r) (r_d_type_supported r).
Definition rdd_fail (err : Z) (r : rdd) : rdd := rdd_status (r_count r) err r.
Definition rdd_heap (h : list centry) (m : list nat) (r : rdd) : rdd :=
  Rdd h (r_root r) (r_list r) (r_middle r) m (r_count r) (r_err r)
    (r_is_upper r) (r_is_lowest r) (r_d_type_supported r).
Definition rdd_lists (root : rbtree) (l m : list nat) (r : rdd) : rdd :=
  Rdd (r_heap r) root l m (r_maybe r) (r_count r) (r_err r)
    (r_is_upper r) (r_is_lowest r) (r_d_type_supported r).
Definition rdd_layer (is_upper is_lowest : bool) (r : rdd) : rdd :=
  Rdd (r_heap r) (r_root r) (r_list r) (r_middle r) (r_maybe r) (r_count r) (r_err r)
    is_upper is_lowest (r_d_type_supported r).
Definition rdd_d_type (b : bool) (r : rdd) : rdd :=
  Rdd (r_heap r) (r_root r) (r_list r) (r_middle r) (r_maybe r) (r_count r) (r_err r)
    (r_is_upper r) (r_is_lowest r) b.

(** ** Searching *)

Definition cchar (s : string) : Z :=
  match s with EmptyString => 0 | String c _ => Z.of_N (Ascii.N_of_ascii c) end.
Definition ctail (s : string) : string :=
  match s with EmptyString => EmptyString | String _ s => s end.

(** strncmp: the sign of the first difference within [n] bytes *)
Fixpoint strncmp (s t : string) (n : nat) : Z :=
  match n with
  | O => 0
  | S n =>
      if negb (cchar s =? cchar t) then cchar s - cchar t
      else if cchar s =? 0 then 0
      else strncmp (ctail s) (ctail t) n
  end.

Definition slen (s : string) : Z := Z.of_nat (String.length s).

(** ovl_cache_entry_find *)
Fixpoint ovl_cache_entry_find (node : rbtree) (name : string) : option nat :=
  match node with
  | RBNil => None
  | RBNode l p pname r =>
      let cmp := strncmp name pname (String.length name) in
      if 0 <? cmp then ovl_cache_entry_find r name
      else if (cmp <? 0) || (slen name <? slen pname) then ovl_cache_entry_find l name
      else Some p
  end.

(** ovl_cache_entry_find_link: found, or the link where a new node goes *)
Fixpoint ovl_cache_entry_find_link (newp : rbtree) (name : string) : bool * (rbtree → rbtree) :=
  match newp with
  | RBNil => (false, λ t, t)
  | RBNode l p pname r =>
      let cmp := strncmp name pname (String.length name) in
      if 0 <? cmp then
        let '(found, link) := ovl_cache_entry_find_link r name in
        (found, λ t, RBNode l p pname (link t))
      else if (cmp <? 0) || (slen name <? slen pname) then
        let '(found, link) := ovl_cache_entry_find_link l name in
        (found, λ t, RBNode (link t) p pname r)
      else (true, λ t, t)
  end.

(** ** Filling the cache *)

(** What the fill functions read through [rdd->dentry]. *)
Record rd_dentry : Type := RdDentry { rdd_xino_bits : Z; rdd_impure : bool }.

(** lib/rbtree.c is not in the repository: [rb_insert_color] rebalances. *)
Class RbLib : Type := { rb_insert_color : rbtree → rbtree }.
Fixpoint inorder (t : rbtree) : list (nat * string) :=
  match t with
  | RBNil => []
  | RBNode l p n r => inorder l ++ (p, n) :: inorder r
  end.
Class RbLaws `{RbLib} : Prop := {
  law_rb_insert_color t : inorder (rb_insert_color t) = inorder t;
}.

Section fill.
Context `{RbLib} (dentry : option rd_dentry).
(** kmalloc for the entry [name] when the heap is [h] *)
Context (kmalloc : list centry → string → bool).
Implicit Types (r : rdd).

(** ovl_calc_d_ino *)
Definition ovl_calc_d_ino r (name : string) : bool :=
  match dentry with
  | None => false
  | Some d =>
      if negb (rdd_xino_bits d =? 0) then true
      else if bool_decide (name = ".."%string) then true
      else if negb (r_is_upper r) then false
      else bool_decide (name = "."%string) || rdd_impure d
  end.

(** ovl_cache_entry_new *)
Definition ovl_cache_entry_new r (name : string) (ino d_type : Z) : option nat * rdd :=
  if negb (kmalloc (r_heap r) name) then (None, r)
  else
    let id := length (r_heap r) in
    let p := CEntry name d_type ino (if ovl_calc_d_ino r name then 0 else ino) (r_is_upper r) false in
    (Some id,
     rdd_heap (r_heap r ++ [p]) (if d_type =? DT_CHR then id :: r_maybe r else r_maybe r) r).

(** ovl_cache_entry_add_rb *)
Definition ovl_cache_entry_add_rb r (name : string) (ino d_type : Z) : Z * rdd :=
  let '(found, link) := ovl_cache_entry_find_link (r_root r) name in
  if found then (0, r)
  else match ovl_cache_entry_new r name ino d_type with
  | (None, r) => (- ENOMEM, rdd_fail (- ENOMEM) r)
  | (Some p, r) =>
      (0, rdd_lists (rb_insert_color (link (RBNode RBNil p name RBNil)))
            (r_list r ++ [p]) (r_middle r) r)
  end.

(** list_del of [p], wherever it is *)
Definition list_del (p : nat) (l : list nat) : list nat := filter (λ q, q ≠ p) l.

(** ovl_fill_lowest *)
Definition ovl_fill_lowest r (name : string) (ino d_type : Z) : Z * rdd :=
  match ovl_cache_entry_find (r_root r) name with
  | Some p =>
      let r := rdd_lists (r_root r) (list_del p (r_list r)) (list_del p (r_middle r) ++ [p]) r in
      (r_err r, r)
  | None =>
      match ovl_cache_entry_new r name ino d_type with
      | (None, r) => let r := rdd_fail (- ENOMEM) r in (r_err r, r)
      | (Some p, r) =>
          let r := rdd_lists (r_root r) (r_list r) (r_middle r ++ [p]) r in (r_err r, r)
      end
  end.

(** ovl_fill_merge *)
Definition ovl_fill_merge (e : dirent) r : Z * rdd :=
  let r := rdd_status (r_count r + 1) (r_err r) r in
  if negb (r_is_lowest r) then ovl_cache_entry_add_rb r (de_name e) (de_ino e) (de_type e)
  else ovl_fill_lowest r (de_name e) (de_ino e) (de_type e).

(** ovl_fill_plain *)
Definition ovl_fill_plain (e : dirent) r : Z * rdd :=
  let r := rdd_status (r_count r + 1) (r_err r) r in
  match ovl_cache_entry_new r (de_name e) (de_ino e) (de_type e) with
  | (None, r) => (- ENOMEM, rdd_fail (- ENOMEM) r)
  | (Some p, r) => (0, rdd_lists (r_root r) (r_list r ++ [p]) (r_middle r) r)
  end.

(** ovl_check_d_type: [strncmp(name, ".", namelen)] and the same with [".."] *)
Definition ovl_check_d_type (e : dirent) r : Z * rdd :=
  let name := de_name e in
  if (strncmp name "." (String.length name) =? 0) || (strncmp name ".." (String.length name) =? 0)
  then (0, r)
  else (0, if negb (de_type e =? DT_UNKNOWN) then rdd_d_type true r else r).
End fill.

(** ** Reading one real directory *)

(** What the underlying filesystem answers while a directory is read: the open
    file, one batch of entries and a result per [iterate_dir], the result of
    [down_write_killable], and for each looked-up name [None] for an error or
    whether the dentry is a whiteout. *)
Record layer_in : Type := LayerIn {
  li_open : Z;
  li_batches : list (list dirent * Z);
  li_lock : Z;
  li_lookup : string → option bool;
}.

Section read.
Implicit Types (r : rdd).

(** [iterate_dir] hands the entries to the actor until it refuses one. *)
Fixpoint iterate_dir (actor : dirent → rdd → Z * rdd) (es : list dirent) r : rdd :=
  match es with
  | [] => r
  | e :: es => let '(x, r) := actor e r in if negb (x =? 0) then r else iterate_dir actor es r
  end.

(** The [do ... while (!err && rdd->count)] loop; after the last batch the
    directory has no more entries. *)
Fixpoint dir_read_loop (actor : dirent → rdd → Z * rdd) (batches : list (list dirent * Z)) r
    : Z * rdd :=
  let r := rdd_status 0 0 r in
  match batches with
  | [] => (0, r)
  | (es, ret) :: batches =>
      let r := iterate_dir actor es r in
      let err := if 0 <=? ret then r_err r else ret in
      if (err =? 0) && negb (r_count r =? 0) then dir_read_loop actor batches r
      else (err, r)
  end.

(** The loop of ovl_check_whiteouts over the chain. *)
Fixpoint check_whiteouts_loop (lookup : string → option bool) (chain : list nat) (h : list centry)
    : list centry :=
  match chain with
  | [] => h
  | p :: chain =>
      let h := match h !! p with
               | Some e => match lookup (ce_name e) with
                           | Some w => <[p := set_ce_whiteout w e]> h
                           | None => h
                           end
               | None => h
               end in
      check_whiteouts_loop lookup chain h
  end.

(** ovl_check_whiteouts *)
Definition ovl_check_whiteouts (l : layer_in) r : Z * rdd :=
  let err := li_lock l in
  if err =? 0 then (err, rdd_heap (check_whiteouts_loop (li_lookup l) (r_maybe r) (r_heap r)) [] r)
  else (err, r).

(** ovl_dir_read; [dentry] tells whether [rdd->dentry] is set *)
Definition ovl_dir_read (dentry : bool) (actor : dirent → rdd → Z * rdd) (l : layer_in) r : Z * rdd :=
  if IS_ERR (li_open l) then (PTR_ERR (li_open l), r)
  else
    let r := rdd_heap (r_heap r) [] r in
    let '(err, r) := dir_read_loop actor (li_batches l) r in
    if (err =? 0) && negb (bool_decide (r_maybe r = [])) && dentry then ovl_check_whiteouts l r
    else (err, r).

Context `{RbLib} (kmalloc : list centry → string → bool).

(** ovl_dir_read_merged: the layers that ovl_path_next visits, from the top;
    the flag says whether the layer's dentry is the upper one. *)
Fixpoint dir_read_merged_loop (dentry : option rd_dentry) (layers : list (bool * layer_in)) r
    : Z * rdd :=
  let actor := ovl_fill_merge dentry kmalloc in
  let has := match dentry with Some _ => true | None => false end in
  match layers with
  | [] => (0, r)
  | [(is_upper, l)] =>
      let r := rdd_lists (r_root r) (r_list r) [] (rdd_layer is_upper true r) in
      let '(err, r) := ovl_dir_read has actor l r in
      (err, rdd_lists (r_root r) (r_middle r ++ r_list r) [] r)
  | (is_upper, l) :: layers =>
      let r := rdd_layer is_upper false r in
      let '(err, r) := ovl_dir_read has actor l r in
      if negb (err =? 0) then (err, r) else dir_read_merged_loop dentry layers r
  end.

Definition rdd_empty : rdd := Rdd [] RBNil [] [] [] 0 0 false false false.

Definition ovl_dir_read_merged (dentry : option rd_dentry) (layers : list (bool * layer_in)) : Z * rdd :=
  dir_read_merged_loop dentry layers rdd_empty.

(** The entries of the list, in order. *)
Definition rdd_entries r : list centry := omap (λ p, r_heap r !! p) (r_list r).

(** ovl_check_d_type_supported *)
Definition ovl_check_d_type_supported (l : layer_in) : Z :=
  let '(err, r) := ovl_dir_read false ovl_check_d_type l rdd_empty in
  if negb (err =? 0) then err else if r_d_type_supported r then 1 else 0.

(** The loop of ovl_check_empty_dir over the entries: the error and the
    entries that stay on the list. *)
Definition is_dot (n : string) : bool := bool_decide (n = "."%string).
Definition is_dotdot (n : string) : bool := bool_decide (n = ".."%string).
Fixpoint check_empty_loop (l : list centry) : Z * list centry :=
  match l with
  | [] => (0, [])
  | p :: l' =>
      if ce_is_whiteout p then
        if ce_is_upper p then let '(err, rest) := check_empty_loop l' in (err, p :: rest)
        else check_empty_loop l'
      else if is_dot (ce_name p) || is_dotdot (ce_name p) then check_empty_loop l'
      else (- ENOTEMPTY, l)
  end.

(** ovl_check_empty_dir *)
Definition ovl_check_empty_dir (dentry : rd_dentry) (layers : list (bool * layer_in))
    : Z * list centry :=
  let '(err, r) := ovl_dir_read_merged (Some dentry) layers in
  if negb (err =? 0) then (err, rdd_entries r) else check_empty_loop (rdd_entries r).
End read.

(** ** Inode numbers *)

(** ovl_remap_lower_ino *)
Definition ovl_remap_lower_ino (ino xinobits fsid : Z) : Z :=
  if negb (Z.shiftr ino (64 - xinobits) =? 0) then ino
  else Z.lor ino (u64 (Z.shiftl fsid (64 - xinobits))).

(** ovl_fill_real: the inode number reported for an entry of a real directory;
    [cache] is the lookup in the impure cache, when there is one *)
Definition ovl_fill_real (parent_ino : Z) (cache : option (string → option Z)) (xinobits fsid : Z)
    (name : string) (ino : Z) : Z :=
  if negb (parent_ino =? 0) && bool_decide (name = ".."%string) then parent_ino
  else match cache with
  | Some find => default ino (find name)
  | None => if negb (xinobits =? 0) then ovl_remap_lower_ino ino xinobits fsid else ino
  end.

(** ** Position in a merged directory *)

(** The merged part of struct ovl_dir_file and [ctx->pos]; the cursor is the
    index of the next entry, [length entries] when it is back at the head. *)
Record dirpos : Type := DirPos { dp_cursor : nat; dp_pos : Z }.

(** The loop of ovl_seek_cursor. *)
Fixpoint seek_loop {A} (entries : list A) (off pos : Z) : nat :=
  match entries with
  | [] => O
  | _ :: entries => if pos <=? off then O else S (seek_loop entries (off + 1) pos)
  end.
Definition ovl_seek_cursor {A} (entries : list A) (pos : Z) : nat := seek_loop entries 0 pos.

(** The emission loop of ovl_iterate: [update] is ovl_cache_update_ino, which
    gives the new entry or an error; [emit n] tells whether the caller's buffer
    takes the [n]-th entry.  Result: error, entries emitted, cache, position. *)
Section iterate.
Context (update : centry → Z * centry) (emit : nat → centry → bool).

Fixpoint iterate_loop (fuel : nat) (n : nat) (entries : list centry) (d : dirpos)
    : outcome (Z * list centry * list centry * dirpos) :=
  match entries !! dp_cursor d with
  | None => Ret (0, [], entries, d)
  | Some p =>
      match fuel with
      | O => NoFuel
      | S fuel =>
          let next := DirPos (S (dp_cursor d)) (dp_pos d + 1) in
          if ce_is_whiteout p then iterate_loop fuel n entries next
          else
            let '(err, p) := if ce_ino p =? 0 then update p else (0, p) in
            let entries := <[dp_cursor d := p]> entries in
            if negb (err =? 0) then Ret (err, [], entries, d)
            else if negb (emit n p) then Ret (0, [], entries, d)
            else
              '(err, out, entries, d) ← iterate_loop fuel (S n) entries next;
              Ret (err, p :: out, entries, d)
      end
  end.
End iterate.

(** The cached part of ovl_dir_llseek; [SEEK_SET] is 0 and [SEEK_CUR] 1, and a
    sum of offsets wraps around. *)
Definition ovl_dir_llseek {A} (entries : option (list A)) (f_pos offset origin : Z) (cursor : nat)
    : Z * Z * nat :=
  let offset' := if origin =? 1 then s64 (offset + f_pos) else offset in
  if negb ((origin =? 0) || (origin =? 1)) then (- EINVAL, f_pos, cursor)
  else if offset' <? 0 then (- EINVAL, f_pos, cursor)
  else if negb (offset' =? f_pos) then
    (offset', offset', match entries with Some l => ovl_seek_cursor l offset' | None => cursor end)
  else (offset', f_pos, cursor).
