(* ===== verification/ReaddirTree.v ===== *)
(** The search tree of the readdir cache: the comparison of
    ovl_cache_entry_find is the lexicographic order, and a tree whose names are
    sorted is searched and extended correctly. *)

From S2P Require Import Prelude Types Util Readdir.
From Stdlib Require Import Structures.OrdersEx.
From stdpp Require Import sorting.
Local Open Scope Z_scope.

Definition slt : string → string → Prop := String_as_OT.lt.

Lemma slt_irrefl n : ¬ slt n n.
Proof. apply String_as_OT.lt_strorder. Qed.
Lemma slt_trans a b c : slt a b → slt b c → slt a c.
Proof. apply String_as_OT.lt_strorder. Qed.
Lemma slt_ne a b : slt a b → a ≠ b.
Proof. intros Hl ->. by apply slt_irrefl in Hl. Qed.

(** The three-way test of the search loops. *)
Definition name_cmp (name pname : string) : comparison :=
  let cmp := strncmp name pname (String.length name) in
  if 0 <? cmp then Gt else if (cmp <? 0) || (slen name <? slen pname) then Lt else Eq.

Lemma slen_cons c s : slen (String c s) = slen s + 1.
Proof. unfold slen. cbn. lia. Qed.
Lemma slen_nonneg s : 0 ≤ slen s.
Proof. unfold slen. lia. Qed.

Lemma cchar_pos c s : c ≠ NUL → 0 < cchar (String c s).
Proof.
  intros Hc. cbn. destruct (Ascii.N_of_ascii c) eqn:E; [|lia]. destruct Hc.
  rewrite <- (Ascii.ascii_N_embedding c), E. done.
Qed.

Lemma name_cmp_compare name pname :
  no_nul name → no_nul pname → name_cmp name pname = String.compare name pname.
Proof.
  revert pname. induction name as [|c s IH]; intros [|c' t] Hn Hp; unfold name_cmp.
  - done.
  - cbn [strncmp String.length]. rewrite slen_cons. pose proof (slen_nonneg t).
    cbn [Z.ltb Z.compare orb]. change (slen "") with 0. destruct (Z.ltb_spec 0 (slen t + 1)); [done|lia].
  - destruct Hn as [Hc Hs]. pose proof (cchar_pos c s Hc). cbn [strncmp String.length].
    change (cchar EmptyString) with 0. rewrite (proj2 (Z.eqb_neq _ _)) by lia. cbn [negb].
    by rewrite (proj2 (Z.ltb_lt _ _)) by lia.
  - destruct Hn as [Hc Hs], Hp as [Hc' Ht]. pose proof (cchar_pos c s Hc).
    cbn [strncmp String.length ctail]. rewrite !slen_cons. cbn [String.compare]. unfold Ascii.compare.
    cbn [cchar] in *.
    destruct (N.compare_spec (Ascii.N_of_ascii c) (Ascii.N_of_ascii c')) as [E|E|E].
    + rewrite E, Z.eqb_refl. cbn [negb]. rewrite E in H. rewrite (proj2 (Z.eqb_neq _ _)) by lia.
      rewrite <- IH by done. unfold name_cmp.
      assert ((slen s + 1 <? slen t + 1) = (slen s <? slen t)) as -> by lia. done.
    + rewrite (proj2 (Z.eqb_neq _ _)) by lia. cbn [negb].
      rewrite (proj2 (Z.ltb_ge _ _)) by lia. rewrite (proj2 (Z.ltb_lt _ 0)) by lia. done.
    + rewrite (proj2 (Z.eqb_neq _ _)) by lia. cbn [negb].
      by rewrite (proj2 (Z.ltb_lt _ _)) by lia.
Qed.

Lemma name_cmp_spec name pname :
  no_nul name → no_nul pname →
  match name_cmp name pname with
  | Lt => slt name pname | Eq => name = pname | Gt => slt pname name
  end.
Proof.
  intros Hn Hp. rewrite name_cmp_compare by done. destruct (String.compare name pname) eqn:E.
  - by apply String.compare_eq_iff.
  - done.
  - unfold slt, String_as_OT.lt. change (String_as_OT.compare pname name) with (String.compare pname name).
    by rewrite String.compare_antisym, E.
Qed.

(** ** Trees *)

Definition names (t : rbtree) : list string := snd <$> inorder t.
Definition search_tree (t : rbtree) : Prop := StronglySorted slt (names t) ∧ Forall no_nul (names t).

Lemma names_node l p n r : names (RBNode l p n r) = names l ++ n :: names r.
Proof. unfold names. cbn. by rewrite fmap_app. Qed.

Lemma search_tree_node l p n r :
  search_tree (RBNode l p n r) →
  search_tree l ∧ search_tree r ∧ no_nul n ∧
  (∀ x, x ∈ names l → slt x n) ∧ (∀ x, x ∈ names r → slt n x).
Proof.
  unfold search_tree. rewrite names_node, StronglySorted_app, StronglySorted_cons, Forall_app, Forall_cons.
  intros [(Hc & Hl & Hf & Hr) (Nl & Nn & Nr)]. split_and!; auto.
  - intros x Hx. apply Hc; [done|]. by left.
  - intros x Hx. rewrite Forall_forall in Hf. by apply Hf.
Qed.

Lemma find_node l p n r name :
  ovl_cache_entry_find (RBNode l p n r) name =
  match name_cmp name n with
  | Gt => ovl_cache_entry_find r name | Lt => ovl_cache_entry_find l name | Eq => Some p
  end.
Proof. unfold name_cmp. cbn [ovl_cache_entry_find]. cbn zeta. by repeat case_match. Qed.

Lemma find_link_node l p n r name :
  ovl_cache_entry_find_link (RBNode l p n r) name =
  match name_cmp name n with
  | Gt => let '(f, k) := ovl_cache_entry_find_link r name in (f, λ t, RBNode l p n (k t))
  | Lt => let '(f, k) := ovl_cache_entry_find_link l name in (f, λ t, RBNode (k t) p n r)
  | Eq => (true, λ t, t)
  end.
Proof. unfold name_cmp. cbn [ovl_cache_entry_find_link]. cbn zeta. by repeat case_match. Qed.

(** The lookup finds exactly the names of the tree. *)
Lemma find_spec t name :
  search_tree t → no_nul name →
  match ovl_cache_entry_find t name with
  | Some p => (p, name) ∈ inorder t
  | None => name ∉ names t
  end.
Proof.
  induction t as [|l IHl p n r IHr]; intros Ht Hn; [by apply not_elem_of_nil|].
  apply search_tree_node in Ht as (Hl & Hr & Hnn & Hlt & Hgt).
  rewrite find_node, names_node. cbn [inorder].
  pose proof (name_cmp_spec name n Hn Hnn) as Hcmp. destruct (name_cmp name n).
  - subst. set_solver.
  - specialize (IHl Hl Hn). destruct (ovl_cache_entry_find l name); [set_solver|].
    rewrite elem_of_app, elem_of_cons. intros [?|[->|Hx]]; [done|by apply slt_irrefl in Hcmp|].
    apply Hgt in Hx. by apply (slt_irrefl n), (slt_trans _ name).
  - specialize (IHr Hr Hn). destruct (ovl_cache_entry_find r name); [set_solver|].
    rewrite elem_of_app, elem_of_cons. intros [Hx|[->|?]]; [|by apply slt_irrefl in Hcmp|done].
    apply Hlt in Hx. by apply (slt_irrefl n), (slt_trans _ name).
Qed.

(** A new node at the link keeps the names sorted. *)
Lemma find_link_spec t name :
  search_tree t → no_nul name →
  let '(found, link) := ovl_cache_entry_find_link t name in
  (found = true ↔ name ∈ names t) ∧
  (found = false → ∀ p, ∃ a b, inorder t = a ++ b ∧
     inorder (link (RBNode RBNil p name RBNil)) = a ++ (p, name) :: b ∧
     (∀ x, x ∈ a.*2 → slt x name) ∧ (∀ x, x ∈ b.*2 → slt name x)).
Proof.
  induction t as [|l IHl q n r IHr]; intros Ht Hn.
  { cbn. split; [by split; [|intros ?%elem_of_nil]|]. intros _ p. exists [], [].
    split_and!; [done..|set_solver|set_solver]. }
  apply search_tree_node in Ht as (Hl & Hr & Hnn & Hlt & Hgt).
  rewrite find_link_node, names_node.
  pose proof (name_cmp_spec name n Hn Hnn) as Hcmp. destruct (name_cmp name n).
  - subst. split; [|done]. split; [set_solver|done].
  - specialize (IHl Hl Hn). destruct (ovl_cache_entry_find_link l name) as [f k].
    destruct IHl as [Hf Hk]. split.
    + rewrite Hf, elem_of_app, elem_of_cons. split; [by left|].
      intros [?|[->|Hx]]; [done|by apply slt_irrefl in Hcmp|].
      apply Hgt in Hx. exfalso. by apply (slt_irrefl n), (slt_trans _ name).
    + intros E p. destruct (Hk E p) as (a & b & E1 & E2 & Ha & Hb).
      exists a, (b ++ (q, n) :: inorder r). cbn [inorder]. rewrite E1, E2, <- !app_assoc.
      split_and!; [done..|]. intros x. rewrite fmap_app, fmap_cons, elem_of_app, elem_of_cons.
      intros [?|[->|Hx]]; [auto|done|]. eapply slt_trans; [done|]. by apply Hgt.
  - specialize (IHr Hr Hn). destruct (ovl_cache_entry_find_link r name) as [f k].
    destruct IHr as [Hf Hk]. split.
    + rewrite Hf, elem_of_app, elem_of_cons. split; [by right; right|].
      intros [Hx|[->|?]]; [|by apply slt_irrefl in Hcmp|done].
      apply Hlt in Hx. exfalso. by apply (slt_irrefl n), (slt_trans _ name).
    + intros E p. destruct (Hk E p) as (a & b & E1 & E2 & Ha & Hb).
      exists (inorder l ++ (q, n) :: a), b. cbn [inorder]. rewrite E1, E2, <- !app_assoc.
      split_and!; [done|done| |done]. intros x. rewrite fmap_app, fmap_cons, elem_of_app, elem_of_cons.
      intros [Hx|[->|?]]; [|done|auto]. eapply slt_trans; [|done]. by apply Hlt.
Qed.

(** Insertion of a new name, rebalancing included. *)
Lemma rb_insert_spec `{RbLaws} t name p found link :
  search_tree t → no_nul name → ovl_cache_entry_find_link t name = (found, link) →
  (found = true ↔ name ∈ names t) ∧
  (found = false →
     let t' := rb_insert_color (link (RBNode RBNil p name RBNil)) in
     search_tree t' ∧ inorder t' ≡ₚ (p, name) :: inorder t).
Proof.
  intros Ht Hn E. pose proof (find_link_spec t name Ht Hn) as HS. rewrite E in HS.
  destruct HS as [Hf Hk]. split; [done|]. intros Ef. destruct (Hk Ef p) as (a & b & E1 & E2 & Ha & Hb).
  cbn zeta. unfold search_tree, names in *. rewrite !law_rb_insert_color, E2, E1 in *. split.
  - destruct Ht as [Hs Hnn]. rewrite !fmap_app, fmap_cons in *.
    rewrite StronglySorted_app, Forall_app, ?StronglySorted_cons, ?Forall_cons in *.
    destruct Hs as (Hc & Hsa & Hsb), Hnn. split_and!; auto.
    + intros x y Hx [->|Hy]%elem_of_cons; [by apply Ha|by apply Hc].
    + apply Forall_forall. auto.
  - by rewrite <- Permutation_middle.
Qed.
