(* ===== verification/ReaddirMerge.v ===== *)
(** The merged directory cache equals its specification: the topmost layer
    decides what a name is, every name appears once, and the entries of the
    lowest layer come first. *)

From S2P Require Import Prelude Types Util Readdir ReaddirTree.
From stdpp Require Import sorting.
Local Open Scope Z_scope.

(** ** Specification *)

Section spec.
Context (dentry : option rd_dentry).

(** The entries a layer contributes: those that [iterate_dir] hands out. *)
Fixpoint batch_entries (batches : list (list dirent * Z)) : list dirent :=
  match batches with
  | [] => []
  | ([], _) :: _ => []
  | (es, _) :: batches => es ++ batch_entries batches
  end.
Definition layer_entries (l : layer_in) : list dirent := batch_entries (li_batches l).

(** A fresh cache entry. *)
Definition new_entry (is_upper : bool) (e : dirent) : centry :=
  CEntry (de_name e) (de_type e) (de_ino e)
    (if ovl_calc_d_ino dentry (rdd_layer is_upper false rdd_empty) (de_name e) then 0 else de_ino e)
    is_upper false.

(** A character device that the lookup shows to be a whiteout. *)
Definition mark (l : layer_in) (p : centry) : centry :=
  match dentry with
  | Some _ =>
      if ce_type p =? DT_CHR then
        match li_lookup l (ce_name p) with Some w => set_ce_whiteout w p | None => p end
      else p
  | None => p
  end.

(** The names of [es] that are not in [seen], first occurrences only. *)
Fixpoint fresh (is_upper : bool) (seen : list string) (es : list dirent) : list centry :=
  match es with
  | [] => []
  | e :: es =>
      if decide (de_name e ∈ seen) then fresh is_upper seen es
      else new_entry is_upper e :: fresh is_upper (de_name e :: seen) es
  end.

Definition add_layer (acc : list centry) (x : bool * layer_in) : list centry :=
  let '(is_upper, l) := x in
  acc ++ (mark l <$> fresh is_upper (ce_name <$> acc) (layer_entries l)).

(** The lowest layer: its names in order, with the entry of a higher layer when
    there is one, and then the remaining entries of the higher layers. *)
Definition lookup_name (acc : list centry) (name : string) : option centry :=
  head (filter (λ p, ce_name p = name) acc).
Definition add_lowest (acc : list centry) (x : bool * layer_in) : list centry :=
  let '(is_upper, l) := x in
  ((λ e, match lookup_name acc (de_name e) with
         | Some p => p
         | None => mark l (new_entry is_upper e)
         end) <$> layer_entries l) ++
  filter (λ p, ce_name p ∉ (de_name <$> layer_entries l)) acc.

Fixpoint merge_spec (acc : list centry) (layers : list (bool * layer_in)) : list centry :=
  match layers with
  | [] => acc
  | [x] => add_lowest acc x
  | x :: layers => merge_spec (add_layer acc x) layers
  end.
End spec.

(** ** The state between layers *)

(** While upper layers are read, entry [i] of the heap is the [i]-th of the
    list, and the tree indexes every entry by its name. *)
Record above_inv (r : rdd) : Prop := {
  ai_list : r_list r = seq 0 (length (r_heap r));
  ai_middle : r_middle r = [];
  ai_tree : search_tree (r_root r);
  ai_index : inorder (r_root r) ≡ₚ imap (λ i p, (i, ce_name p)) (r_heap r);
}.

Lemma imap_snd {A B} (f : A → B) (l : list A) : (imap (λ i p, (i, f p)) l).*2 = f <$> l.
Proof.
  apply list_eq. intros i. rewrite !list_lookup_fmap, list_lookup_imap. by destruct (l !! i).
Qed.

Lemma above_names r : above_inv r → names (r_root r) ≡ₚ ce_name <$> r_heap r.
Proof. intros []. unfold names. by rewrite ai_index0, imap_snd. Qed.

Lemma above_entries r : above_inv r → rdd_entries r = r_heap r.
Proof.
  intros []. unfold rdd_entries. rewrite ai_list0. generalize (r_heap r).
  assert (∀ (h : list centry) n pre, length pre = n → 
            omap (λ p, (pre ++ h) !! p) (seq n (length h)) = h) as Hall.
  { induction h as [|x h IH]; intros n pre Hn; [done|]. cbn.
    rewrite lookup_app_r by lia. rewrite Hn, Nat.sub_diag. cbn. f_equal.
    specialize (IH (S n) (pre ++ [x])). rewrite <- app_assoc in IH. apply IH.
    rewrite length_app. cbn. lia. }
  intros h. exact (Hall h 0%nat [] eq_refl).
Qed.

(** ** One entry of an upper layer *)

Section merge.
Context `{RbLaws} (dentry : option rd_dentry) (kmalloc : list centry → string → bool).
Implicit Types (r : rdd).
Local Abbreviation actor := (ovl_fill_merge dentry kmalloc).

Lemma calc_d_ino_upper r r' name :
  r_is_upper r = r_is_upper r' → ovl_calc_d_ino dentry r name = ovl_calc_d_ino dentry r' name.
Proof. unfold ovl_calc_d_ino. by intros ->. Qed.

(** The [first_maybe_whiteout] chain after the entries [new] were created from
    index [n] on. *)
Fixpoint chain_of (n : nat) (new : list centry) : list nat :=
  match new with
  | [] => []
  | p :: new => chain_of (S n) new ++ (if ce_type p =? DT_CHR then [n] else [])
  end.

Lemma entry_new_spec r e o r' :
  ovl_cache_entry_new dentry kmalloc r (de_name e) (de_ino e) (de_type e) = (o, r') →
  match o with
  | None => r' = r
  | Some p => p = length (r_heap r) ∧
      r' = rdd_heap (r_heap r ++ [new_entry dentry (r_is_upper r) e])
             (if de_type e =? DT_CHR then p :: r_maybe r else r_maybe r) r
  end.
Proof.
  unfold ovl_cache_entry_new. destruct (kmalloc _ _); cbn [negb]; intros [= <- <-]; [|done].
  split; [done|]. unfold new_entry.
  by rewrite (calc_d_ino_upper r (rdd_layer (r_is_upper r) false rdd_empty)).
Qed.

Lemma imap_snoc {A B} (f : nat → A → B) (l : list A) x :
  imap f (l ++ [x]) = imap f l ++ [f (length l) x].
Proof. rewrite imap_app. cbn. by rewrite Nat.add_0_r. Qed.

Lemma add_rb_spec r e x r' :
  above_inv r → no_nul (de_name e) → r_is_lowest r = false → r_err r = 0 →
  actor e r = (x, r') →
  (x = 0 ∧ de_name e ∈ (ce_name <$> r_heap r) ∧ r' = rdd_status (r_count r + 1) 0 r) ∨
  (x = 0 ∧ (de_name e ∉ (ce_name <$> r_heap r)) ∧ above_inv r' ∧
     r_heap r' = r_heap r ++ [new_entry dentry (r_is_upper r) e] ∧
     r_maybe r' = (if de_type e =? DT_CHR then length (r_heap r) :: r_maybe r else r_maybe r) ∧
     r_count r' = r_count r + 1 ∧ r_err r' = 0 ∧ r_is_upper r' = r_is_upper r ∧
     r_is_lowest r' = false) ∨
  (x = - ENOMEM ∧ r_err r' = - ENOMEM).
Proof.
  intros Hi Hn Hlow Herr. unfold ovl_fill_merge. cbn [r_is_lowest rdd_status]. rewrite Hlow. cbn [negb].
  unfold ovl_cache_entry_add_rb. cbn [r_root rdd_status].
  destruct (ovl_cache_entry_find_link (r_root r) (de_name e)) as [found link] eqn:E.
  pose proof (rb_insert_spec _ _ (length (r_heap r)) _ _ (ai_tree _ Hi) Hn E) as [Hf Hk].
  rewrite (above_names r Hi) in Hf. destruct found.
  { intros [= <- <-]. left. split_and!; [done|by apply Hf|by rewrite Herr]. }
  specialize (Hk eq_refl). cbn zeta in Hk. destruct Hk as [Hst Hin].
  destruct (ovl_cache_entry_new _ _ _ _ _ _) as [[p|] r1] eqn:En;
    apply entry_new_spec in En; [destruct En as [-> ->]|subst r1]; intros [= <- <-].
  - right; left. cbn. split; [done|]. split; [intros Hx; by apply Hf in Hx|].
    split; [|by rewrite Herr].
    destruct Hi as [Hl Hm Ht Hx]. split; cbn.
    + rewrite Hl, length_app. cbn. by rewrite Nat.add_1_r, seq_S.
    + done.
    + done.
    + rewrite Hin, imap_snoc, Hx. by rewrite Permutation_app_comm.
  - right; right. done.
Qed.

(** [es] was added to the heap [h] as [new]. *)
Record added (r r' : rdd) (new : list centry) : Prop := {
  ad_inv : above_inv r';
  ad_heap : r_heap r' = r_heap r ++ new;
  ad_maybe : r_maybe r' = chain_of (length (r_heap r)) new ++ r_maybe r;
  ad_err : r_err r' = 0;
  ad_upper : r_is_upper r' = r_is_upper r;
  ad_lowest : r_is_lowest r' = false;
}.

Lemma fresh_ext u es : ∀ seen seen',
  (∀ n, n ∈ seen ↔ n ∈ seen') → fresh dentry u seen es = fresh dentry u seen' es.
Proof.
  induction es as [|e es IH]; intros seen seen' Hs; [done|]. cbn [fresh].
  destruct (decide (de_name e ∈ seen)) as [Hi|Hi], (decide (de_name e ∈ seen')) as [Hj|Hj].
  - by apply IH.
  - destruct Hj. by apply Hs.
  - destruct Hi. by apply Hs.
  - f_equal. apply IH. intros n. rewrite !elem_of_cons, Hs. done.
Qed.

Lemma fresh_app u es1 : ∀ seen es2,
  fresh dentry u seen (es1 ++ es2) =
  fresh dentry u seen es1 ++ fresh dentry u (seen ++ (ce_name <$> fresh dentry u seen es1)) es2.
Proof.
  induction es1 as [|e es1 IH]; intros seen es2; cbn [app fresh].
  { cbn. by rewrite app_nil_r. }
  case_decide; [by apply IH|]. cbn [app fmap list_fmap]. f_equal. rewrite IH. f_equal.
  apply fresh_ext. intros n. cbn [fmap list_fmap ce_name new_entry].
  rewrite !elem_of_app, !elem_of_cons. naive_solver.
Qed.

Lemma added_refl r : above_inv r → r_err r = 0 → r_is_lowest r = false → added r r [].
Proof. intros. split; auto. by rewrite app_nil_r. Qed.

Lemma added_status c e r r' new : added (rdd_status c e r) r' new → added r r' new.
Proof. intros []. by split. Qed.

Lemma chain_of_app new1 new2 : ∀ n,
  chain_of n (new1 ++ new2) = chain_of (n + length new1) new2 ++ chain_of n new1.
Proof.
  induction new1 as [|p new1 IH]; intros k; cbn [app chain_of length].
  - by rewrite app_nil_r, Nat.add_0_r.
  - by rewrite app_assoc, IH, Nat.add_succ_r.
Qed.

Lemma added_trans r1 r2 r3 new1 new2 :
  added r1 r2 new1 → added r2 r3 new2 → added r1 r3 (new1 ++ new2).
Proof.
  intros [i1 h1 m1 e1 u1 l1] [i2 h2 m2 e2 u2 l2].
  split; auto; try congruence.
  - by rewrite h2, h1, app_assoc.
  - by rewrite m2, m1, h1, app_assoc, length_app, chain_of_app.
Qed.

(** The batch [es], while no allocation fails. *)
Lemma iterate_upper es : ∀ r,
  above_inv r → r_is_lowest r = false → r_err r = 0 → Forall (λ e, no_nul (de_name e)) es →
  let r' := iterate_dir actor es r in
  r_err r' ≠ 0 ∨
  (added r r' (fresh dentry (r_is_upper r) (ce_name <$> r_heap r) es) ∧
   r_count r' = r_count r + zlen es).
Proof.
  induction es as [|e es IH]; intros r Hi Hlow Herr Hn; cbn [iterate_dir].
  { right. split; [by apply added_refl|]. change (zlen (@nil dirent)) with 0. lia. }
  apply Forall_cons in Hn as [Hne Hn]. destruct (actor e r) as [x r1] eqn:E.
  assert (zlen (e :: es) = 1 + zlen es) as -> by (unfold zlen; cbn [length]; lia).
  destruct (add_rb_spec r e x r1 Hi Hne Hlow Herr E) as [(-> & Hin & ->)|[(-> & Hin & Hi1 & Eh & Em & Ec & Ee & Eu & El)|(-> & Ee)]].
  - cbn [Z.eqb negb fresh]. rewrite (decide_True _ _ Hin).
    destruct (IH (rdd_status (r_count r + 1) 0 r)) as [?|[Ha Hc]]; [by destruct Hi; split|done..|by left|].
    right. split; [|rewrite Hc; cbn; lia].
    apply (added_trans r (rdd_status (r_count r + 1) 0 r) _ []); [|exact Ha].
    split; cbn; auto; [by destruct Hi; split|by rewrite app_nil_r].
  - cbn [Z.eqb negb fresh]. rewrite (decide_False _ _ Hin).
    destruct (IH r1) as [?|[Ha Hc]]; [done..|by left|]. right. split; [|lia].
    rewrite Eu, Eh, fmap_app in Ha. cbn [fmap list_fmap] in Ha.
    rewrite (fresh_ext _ _ _ (de_name e :: (ce_name <$> r_heap r))) in Ha
      by (intros n; cbn [ce_name new_entry]; rewrite elem_of_app, !elem_of_cons, elem_of_nil; naive_solver).
    apply (added_trans r r1 _ [new_entry dentry (r_is_upper r) e]); [|exact Ha].
    split; auto. rewrite Em. cbn. by destruct (_ =? _).
  - left. change (negb (- ENOMEM =? 0)) with true. cbn iota. by rewrite Ee.
Qed.

(** All the batches of an upper layer. *)
Lemma loop_upper batches : ∀ r r',
  above_inv r → r_is_lowest r = false →
  Forall (λ e, no_nul (de_name e)) (batch_entries batches) →
  dir_read_loop actor batches r = (0, r') →
  added r r' (fresh dentry (r_is_upper r) (ce_name <$> r_heap r) (batch_entries batches)).
Proof.
  induction batches as [|[es ret] batches IH]; intros r r' Hi Hlow Hn; cbn [dir_read_loop];
    set (r0 := rdd_status 0 0 r);
    (assert (above_inv r0) as Hi0 by (by destruct Hi; split)).
  { intros [= <-]. by apply (added_status 0 0), added_refl. }
  destruct es as [|e es].
  { cbn [iterate_dir batch_entries fresh]. change (r_count r0) with 0. rewrite andb_false_r.
    intros [= _ <-]. by apply (added_status 0 0), added_refl. }
  cbn [batch_entries] in *. apply Forall_app in Hn as [Hne Hn].
  destruct (iterate_upper (e :: es) r0 Hi0 Hlow eq_refl Hne) as [Hbad|[Ha Hc]];
    set (r1 := iterate_dir actor (e :: es) r0) in *.
  { destruct (Z.leb_spec 0 ret); [rewrite (proj2 (Z.eqb_neq _ _) Hbad)|rewrite (proj2 (Z.eqb_neq ret 0)) by lia];
      cbn [andb]; intros [= E]; lia. }
  rewrite (ad_err _ _ _ Ha).
  destruct (Z.leb_spec 0 ret); [|rewrite (proj2 (Z.eqb_neq ret 0)) by lia; cbn [andb]; intros [= E]; lia].
  assert (r_count r1 ≠ 0) as Hc1 by (rewrite Hc; cbn; unfold zlen; cbn [length]; lia).
  rewrite (proj2 (Z.eqb_neq _ _) Hc1). cbn [Z.eqb andb negb]. intros E.
  pose proof (IH r1 r' (ad_inv _ _ _ Ha) (ad_lowest _ _ _ Ha) Hn E) as Hm.
  rewrite fresh_app. rewrite (ad_upper _ _ _ Ha), (ad_heap _ _ _ Ha), fmap_app in Hm.
  apply (added_status 0 0). by apply (added_trans r0 r1).
Qed.

(** ** The whiteout check *)

Definition mark_entry (lk : string → option bool) (p : centry) : centry :=
  if ce_type p =? DT_CHR then
    match lk (ce_name p) with Some w => set_ce_whiteout w p | None => p end
  else p.

Lemma check_whiteouts_app lk c1 c2 h :
  check_whiteouts_loop lk (c1 ++ c2) h =
  check_whiteouts_loop lk c2 (check_whiteouts_loop lk c1 h).
Proof. revert h. induction c1 as [|p c1 IH]; intros h; [done|]. cbn [app check_whiteouts_loop]. by rewrite IH. Qed.

Lemma check_whiteouts_spec lk new : ∀ h,
  check_whiteouts_loop lk (chain_of (length h) new) (h ++ new) =
  h ++ (mark_entry lk <$> new).
Proof.
  induction new as [|p new IH]; intros h; [done|]. cbn [chain_of fmap list_fmap].
  rewrite check_whiteouts_app. specialize (IH (h ++ [p])).
  rewrite length_app, Nat.add_1_r, <- !app_assoc in IH. cbn [app] in IH. rewrite IH.
  unfold mark_entry at 2. destruct (ce_type p =? DT_CHR); [|done]. cbn [check_whiteouts_loop].
  rewrite lookup_app_r, Nat.sub_diag by lia. cbn.
  destruct (lk (ce_name p)) as [w|]; [|done].
  rewrite insert_app_r_alt, Nat.sub_diag by lia. done.
Qed.

Lemma mark_mark_entry l p :
  mark dentry l p = match dentry with Some _ => mark_entry (li_lookup l) p | None => p end.
Proof. by destruct dentry. Qed.

Lemma mark_name l p : ce_name (mark dentry l p) = ce_name p.
Proof. unfold mark. by repeat case_match. Qed.

Local Abbreviation has := (match dentry with Some _ => true | None => false end).

(** The check after the loop marks the new entries. *)
Lemma check_after l r r1 new err r' :
  r_heap r1 = r_heap r ++ new → r_maybe r1 = chain_of (length (r_heap r)) new →
  (if (0 =? 0) && negb (bool_decide (r_maybe r1 = [])) && has then ovl_check_whiteouts l r1 else (0, r1))
    = (err, r') → err = 0 →
  r' = rdd_heap (r_heap r ++ (mark dentry l <$> new)) (r_maybe r') r1.
Proof.
  intros Eh Em. pose proof (check_whiteouts_spec (li_lookup l) new (r_heap r)) as Hc.
  assert (r_heap r1 = r_heap r ++ (mark dentry l <$> new) →
            r1 = rdd_heap (r_heap r ++ (mark dentry l <$> new)) (r_maybe r1) r1) as Hsame
    by (intros E; destruct r1; cbn in *; by rewrite E).
  cbn [Z.eqb andb]. destruct (bool_decide (r_maybe r1 = [])) eqn:Eb; cbn [negb andb].
  - intros [= <- <-] _. apply bool_decide_eq_true in Eb. rewrite Em in Eb. rewrite Eb in Hc.
    apply Hsame. rewrite Eh. f_equal. cbn in Hc. apply app_inv_head in Hc.
    destruct dentry; [|by rewrite list_fmap_id]. exact Hc.
  - destruct dentry as [d|].
    + unfold ovl_check_whiteouts. destruct (Z.eqb_spec (li_lock l) 0) as [Ez|Ez].
      * intros [= <- <-] _. rewrite Em, Eh, Hc. done.
      * intros [= <- <-] ?. done.
    + intros [= <- <-] _. apply Hsame. by rewrite Eh, list_fmap_id.
Qed.

(** An upper layer as a whole. *)
Lemma dir_read_upper u l r r' :
  above_inv r → Forall (λ e, no_nul (de_name e)) (layer_entries l) →
  ovl_dir_read has actor l (rdd_layer u false r) = (0, r') →
  above_inv r' ∧ r_heap r' = add_layer dentry (r_heap r) (u, l).
Proof.
  intros Hi Hn. unfold ovl_dir_read. destruct (IS_ERR (li_open l)) eqn:Eo.
  { apply IS_ERR_spec in Eo. unfold PTR_ERR. intros [= E]. lia. }
  set (r0 := rdd_heap _ _ _). assert (above_inv r0) as Hi0 by (by destruct Hi; split).
  destruct (dir_read_loop actor (li_batches l) r0) as [err r1] eqn:E.
  destruct (Z.eqb_spec err 0) as [->|Hne]; [|cbn [andb]; intros [= E']; lia].
  pose proof (loop_upper _ r0 r1 Hi0 eq_refl Hn E) as Ha.
  intros Hck. destruct Ha as [a1 a2 a3 a4 a5 a6]. cbn in a2, a3. rewrite app_nil_r in a3.
  pose proof (check_after l r r1 _ 0 r' a2 a3 Hck eq_refl) as ->. cbn [r_heap rdd_heap add_layer].
  split; [|done]. destruct a1 as [b1 b2 b3 b4]. split; cbn; auto.
  - rewrite b1, a2, !length_app, length_fmap. done.
  - rewrite b4, a2. apply reflexive_eq. rewrite !imap_app. f_equal.
    rewrite imap_fmap. apply imap_ext. intros i x _. cbn. by rewrite mark_name.
Qed.
End merge.

(** ** The lowest layer *)

Lemma elem_of_imap_pair {A B} (f : A → B) (l : list A) i b :
  (i, b) ∈ imap (λ i p, (i, f p)) l → ∃ p, l !! i = Some p ∧ f p = b.
Proof.
  intros Hx. apply list_elem_of_lookup in Hx as [k Hk]. rewrite list_lookup_imap in Hk.
  destruct (l !! k) eqn:E; cbn in Hk; [|done]. injection Hk as <- <-. eauto.
Qed.

Lemma sorted_nodup l : StronglySorted slt l → NoDup l.
Proof.
  induction 1 as [|x l Hs IH Hf]; constructor; [|done].
  intros Hx. rewrite Forall_forall in Hf. by apply (slt_irrefl x), Hf.
Qed.

Lemma lookup_name_at acc i p :
  NoDup (ce_name <$> acc) → acc !! i = Some p → lookup_name acc (ce_name p) = Some p.
Proof.
  intros Hnd Hi. unfold lookup_name.
  assert (p ∈ filter (λ q, ce_name q = ce_name p) acc) as Hp
    by (apply list_elem_of_filter; split; [done|by eapply list_elem_of_lookup_2]).
  destruct (filter (λ q, ce_name q = ce_name p) acc) as [|q l] eqn:E; [by apply elem_of_nil in Hp|].
  cbn. f_equal. assert (q ∈ filter (λ q, ce_name q = ce_name p) acc) as Hq by (rewrite E; by left).
  apply list_elem_of_filter in Hq as [Hn [j Hj]%list_elem_of_lookup].
  assert (j = i) as ->; [|congruence].
  eapply NoDup_lookup; [done|..]; rewrite list_lookup_fmap; [by rewrite Hj|rewrite Hi; cbn; by f_equal].
Qed.

Lemma lookup_name_none acc name : name ∉ (ce_name <$> acc) → lookup_name acc name = None.
Proof.
  intros Hn. unfold lookup_name.
  destruct (filter (λ p, ce_name p = name) acc) as [|q l] eqn:E; [done|]. exfalso.
  assert (q ∈ filter (λ p, ce_name p = name) acc) as Hq by (rewrite E; by left).
  apply list_elem_of_filter in Hq as [<- Hq]. apply Hn. by apply list_elem_of_fmap_2.
Qed.

Lemma filter_iff_in {A} (P Q : A → Prop) `{∀ x, Decision (P x)} `{∀ x, Decision (Q x)} (l : list A) :
  (∀ x, x ∈ l → P x ↔ Q x) → filter P l = filter Q l.
Proof.
  induction l as [|x l IH]; intros HPQ; [done|]. rewrite !filter_cons.
  rewrite IH by (intros y Hy; apply HPQ; by right). pose proof (HPQ x ltac:(by left)).
  repeat case_decide; naive_solver.
Qed.

(** The entries of a list that keeps the indices satisfying [P]. *)
Lemma omap_filter_seq (P : nat → Prop) `{∀ i, Decision (P i)} (Q : centry → Prop)
    `{∀ x, Decision (Q x)} (suf : list centry) : ∀ (acc pre : list centry),
  (∀ i x, acc !! i = Some x → P (length pre + i)%nat ↔ Q x) →
  omap (λ i, (pre ++ acc ++ suf) !! i) (filter P (seq (length pre) (length acc))) = filter Q acc.
Proof.
  induction acc as [|x acc IH]; intros pre HPQ; [done|]. cbn [length seq].
  pose proof (HPQ 0%nat x eq_refl) as HP0. rewrite Nat.add_0_r in HP0.
  specialize (IH (pre ++ [x])). rewrite length_app, Nat.add_1_r, <- app_assoc in IH. cbn [app] in IH.
  rewrite !filter_cons. destruct (decide (P (length pre))) as [Hp|Hp], (decide (Q x)) as [Hq|Hq];
    try tauto.
  - cbn [omap list_omap app]. rewrite lookup_app_r, Nat.sub_diag by lia. cbn. f_equal.
    apply IH. intros i y Hy. rewrite <- (HPQ (S i) y Hy). by rewrite Nat.add_succ_r.
  - apply IH. intros i y Hy. rewrite <- (HPQ (S i) y Hy). by rewrite Nat.add_succ_r.
Qed.

Section lowest.
Context `{RB : RbLib} {RL : RbLaws} (dentry : option rd_dentry) (kmalloc : list centry → string → bool).
Context (u : bool) (acc : list centry) (T : rbtree).
Context (HT : search_tree T) (HI : inorder T ≡ₚ imap (λ i p, (i, ce_name p)) acc).
Implicit Types (r : rdd).
Local Abbreviation actor := (ovl_fill_merge dentry kmalloc).

Lemma acc_names : names T ≡ₚ ce_name <$> acc.
Proof. unfold names. by rewrite HI, imap_snd. Qed.
Lemma acc_nodup : NoDup (ce_name <$> acc).
Proof. rewrite <- acc_names. by apply sorted_nodup, HT. Qed.

(** Index [i] is the entry for [e]. *)
Definition entry_at (new : list centry) (i : nat) (e : dirent) : Prop :=
  match lookup_name acc (de_name e) with
  | Some p => acc !! i = Some p
  | None => ∃ j, i = (length acc + j)%nat ∧ new !! j = Some (new_entry dentry u e)
  end.

(** After the entries [es], of which [new] needed a fresh cache entry. *)
Record low_inv (r : rdd) (es : list dirent) (new : list centry) : Prop := {
  lw_root : r_root r = T;
  lw_heap : r_heap r = acc ++ new;
  lw_list : r_list r = filter (λ i, i ∉ r_middle r) (seq 0 (length acc));
  lw_middle : Forall2 (entry_at new) (r_middle r) es;
  lw_maybe : r_maybe r = chain_of (length acc) new;
  lw_err : r_err r = 0;
  lw_upper : r_is_upper r = u;
  lw_lowest : r_is_lowest r = true;
}.

Lemma find_in_acc name :
  no_nul name →
  match ovl_cache_entry_find T name with
  | Some p => ∃ c, acc !! p = Some c ∧ ce_name c = name ∧ lookup_name acc name = Some c
  | None => lookup_name acc name = None
  end.
Proof.
  intros Hn. pose proof (find_spec T name HT Hn) as Hf. destruct (ovl_cache_entry_find T name) as [p|].
  - rewrite HI in Hf. apply elem_of_imap_pair in Hf as (c & Hc & <-).
    exists c. split_and!; [done..|]. by eapply lookup_name_at, Hc; apply acc_nodup.
  - rewrite acc_names in Hf. by apply lookup_name_none.
Qed.

Lemma entry_at_app new x i e : entry_at new i e → entry_at (new ++ [x]) i e.
Proof.
  unfold entry_at. destruct (lookup_name _ _); [done|]. intros (j & -> & Hj). exists j.
  split; [done|]. by apply lookup_app_l_Some.
Qed.

(** An index in the middle list belongs to one of the names read so far. *)
Lemma middle_name r es new p c :
  low_inv r es new → acc !! p = Some c → p ∈ r_middle r → ce_name c ∈ (de_name <$> es).
Proof.
  intros Hi Hp Hm. apply list_elem_of_lookup in Hm as [k Hk].
  destruct (Forall2_lookup_l _ _ _ _ _ (lw_middle _ _ _ Hi) Hk) as (e & He & Hat).
  unfold entry_at in Hat. destruct (lookup_name acc (de_name e)) as [q|] eqn:E.
  - assert (q = c) as -> by congruence. unfold lookup_name in E.
    destruct (filter _ acc) as [|q l] eqn:Ef; [done|]. cbn in E. injection E as ->.
    assert (c ∈ filter (λ p, ce_name p = de_name e) acc) as Hc by (rewrite Ef; by left).
    apply list_elem_of_filter in Hc as [-> _]. apply list_elem_of_fmap_2.
    by eapply list_elem_of_lookup_2.
  - destruct Hat as (j & -> & _). apply lookup_lt_Some in Hp. lia.
Qed.

Lemma list_del_notin p (l : list nat) : p ∉ l → list_del p l = l.
Proof.
  induction l as [|x l IH]; [done|]. rewrite not_elem_of_cons. intros [Hne Hn].
  unfold list_del in *. rewrite filter_cons_True by congruence. f_equal. by apply IH.
Qed.

Lemma low_step r es new e x r' :
  low_inv r es new → no_nul (de_name e) → de_name e ∉ (de_name <$> es) →
  actor e r = (x, r') →
  r_count r' = r_count r + 1 ∧
  ((x = 0 ∧ ∃ new', low_inv r' (es ++ [e]) (new ++ new') ∧
     new' = match lookup_name acc (de_name e) with Some _ => [] | None => [new_entry dentry u e] end) ∨
   (x ≠ 0 ∧ r_err r' ≠ 0)).
Proof.
  intros Hi Hn Hnin. unfold ovl_fill_merge. cbn [r_is_lowest rdd_status].
  rewrite (lw_lowest _ _ _ Hi). cbn [negb]. unfold ovl_fill_lowest. cbn [r_root rdd_status].
  rewrite (lw_root _ _ _ Hi). pose proof (find_in_acc (de_name e) Hn) as Hf.
  pose proof Hi as [i1 i2 i3 i4 i5 i6 i7 i8].
  destruct (ovl_cache_entry_find T (de_name e)) as [p|].
  - destruct Hf as (c & Hc & Hcn & Hl). cbn [r_err rdd_lists]. intros [= <- <-]. cbn.
    split; [done|]. left. rewrite Hl. split; [done|]. exists []. rewrite app_nil_r. split; [|done].
    assert (p ∉ r_middle r) as Hpm
      by (intros Hm; apply Hnin; rewrite <- Hcn; by eapply middle_name).
    split; cbn; auto.
    + rewrite i3, (list_del_notin p (r_middle r)) by done. unfold list_del.
      rewrite list_filter_filter. apply list_filter_iff. intros i.
      rewrite not_elem_of_app, not_elem_of_cons. pose proof (not_elem_of_nil i). tauto.
    + rewrite list_del_notin by done. apply Forall2_app; [done|]. constructor; [|done].
      unfold entry_at. by rewrite Hl.
  - destruct (ovl_cache_entry_new _ _ _ _ _ _) as [[p|] r1] eqn:En;
      apply entry_new_spec in En; [destruct En as [-> ->]|subst r1]; intros [= <- <-]; cbn;
      (split; [done|]); [left|right; by split].
    rewrite Hf, i7. split; [done|]. exists [new_entry dentry u e]. split; [|done].
    rewrite i2. split; cbn; auto.
    + by rewrite app_assoc.
    + rewrite i3. apply filter_iff_in. intros i Hs.
      apply elem_of_seq in Hs. rewrite length_app, not_elem_of_app, not_elem_of_cons.
      split; [|naive_solver]. intros ?. split_and!; [done|lia|apply not_elem_of_nil].
    + apply Forall2_app.
      * eapply Forall2_impl; [done|]. intros. by apply entry_at_app.
      * constructor; [|done]. unfold entry_at. rewrite Hf. exists (length new).
        rewrite length_app. split; [done|]. by rewrite lookup_app_r, Nat.sub_diag by lia.
    + rewrite i5, chain_of_app, length_app. cbn. by destruct (_ =? _).
Qed.

Lemma low_inv_status c r es new : low_inv r es new → low_inv (rdd_status c 0 r) es new.
Proof. intros []. by split. Qed.

Lemma iterate_low es2 : ∀ r es1 new,
  low_inv r es1 new → Forall (λ e, no_nul (de_name e)) es2 → NoDup (de_name <$> es1 ++ es2) →
  let r' := iterate_dir actor es2 r in
  r_err r' ≠ 0 ∨ ((∃ new', low_inv r' (es1 ++ es2) (new ++ new')) ∧ r_count r' = r_count r + zlen es2).
Proof.
  induction es2 as [|e es2 IH]; intros r es1 new Hi Hn Hnd; cbn [iterate_dir].
  { right. split; [|change (zlen (@nil dirent)) with 0; lia]. exists []. by rewrite !app_nil_r. }
  apply Forall_cons in Hn as [Hne Hn]. destruct (actor e r) as [x r1] eqn:E.
  assert (de_name e ∉ (de_name <$> es1)) as Hnin.
  { rewrite fmap_app, fmap_cons in Hnd. apply NoDup_app in Hnd as (_ & Hd & _).
    intros Hx. apply (Hd _ Hx). by left. }
  destruct (low_step r es1 new e x r1 Hi Hne Hnin E) as [Hc [(-> & new' & Hi1 & _)|[Hx Herr]]].
  - cbn [Z.eqb negb]. destruct (IH r1 (es1 ++ [e]) (new ++ new') Hi1 Hn) as [?|[[new2 H2] Hc2]].
    + by rewrite <- app_assoc.
    + by left.
    + right. rewrite <- !app_assoc in H2. split; [by exists (new' ++ new2)|].
      rewrite Hc2, Hc. unfold zlen. cbn [length]. lia.
  - left. rewrite (proj2 (Z.eqb_neq _ _) Hx). done.
Qed.

Lemma loop_low batches : ∀ r es1 new r',
  low_inv r es1 new → Forall (λ e, no_nul (de_name e)) (batch_entries batches) →
  NoDup (de_name <$> es1 ++ batch_entries batches) →
  dir_read_loop actor batches r = (0, r') →
  ∃ new', low_inv r' (es1 ++ batch_entries batches) (new ++ new').
Proof.
  induction batches as [|[es ret] batches IH]; intros r es1 new r' Hi Hn Hnd; cbn [dir_read_loop];
    apply (low_inv_status 0) in Hi; set (r0 := rdd_status 0 0 r) in *.
  { intros [= <-]. exists []. by rewrite !app_nil_r. }
  destruct es as [|e es].
  { cbn [iterate_dir batch_entries]. change (r_count r0) with 0. rewrite andb_false_r.
    intros [= _ <-]. exists []. by rewrite !app_nil_r. }
  cbn [batch_entries] in *. apply Forall_app in Hn as [Hne Hn].
  assert (NoDup (de_name <$> es1 ++ e :: es)) as Hnd1.
  { rewrite app_assoc, fmap_app in Hnd. by apply NoDup_app in Hnd as [? _]. }
  destruct (iterate_low (e :: es) r0 es1 new Hi Hne Hnd1) as [Hbad|[[new1 Ha] Hc]];
    set (r1 := iterate_dir actor (e :: es) r0) in *.
  { destruct (Z.leb_spec 0 ret); [rewrite (proj2 (Z.eqb_neq _ _) Hbad)|rewrite (proj2 (Z.eqb_neq ret 0)) by lia];
      cbn [andb]; intros [= E]; lia. }
  rewrite (lw_err _ _ _ Ha).
  destruct (Z.leb_spec 0 ret); [|rewrite (proj2 (Z.eqb_neq ret 0)) by lia; cbn [andb]; intros [= E]; lia].
  assert (r_count r1 ≠ 0) as Hc1 by (rewrite Hc; cbn; unfold zlen; cbn [length]; lia).
  rewrite (proj2 (Z.eqb_neq _ _) Hc1). cbn [Z.eqb andb negb]. intros E.
  destruct (IH r1 _ _ r' Ha Hn) as [new2 H2]; [by rewrite <- app_assoc|done|].
  exists (new1 ++ new2). by rewrite <- !app_assoc in H2.
Qed.

Lemma low_keep r es new i x :
  low_inv r es new → acc !! i = Some x → i ∉ r_middle r ↔ ce_name x ∉ (de_name <$> es).
Proof.
  intros Hi Hx. split; intros Hn Hin; apply Hn; [|by eapply middle_name].
  apply list_elem_of_fmap in Hin as (e & Hen & [k Hk]%list_elem_of_lookup).
  destruct (Forall2_lookup_r _ _ _ _ _ (lw_middle _ _ _ Hi) Hk) as (i' & Hi' & Hat).
  unfold entry_at in Hat. rewrite <- Hen in Hat.
  rewrite (lookup_name_at acc i x acc_nodup Hx) in Hat.
  assert (i' = i) as ->; [|by eapply list_elem_of_lookup_2].
  eapply NoDup_lookup; [apply acc_nodup|rewrite list_lookup_fmap, Hat; done|by rewrite list_lookup_fmap, Hx].
Qed.

(** The entries once the new ones are marked and the middle list is spliced in
    front of the rest. *)
Lemma low_entries l r es new :
  low_inv r es new →
  omap (λ i, (acc ++ (mark dentry l <$> new)) !! i) (r_middle r ++ r_list r) =
  ((λ e, match lookup_name acc (de_name e) with
         | Some p => p
         | None => mark dentry l (new_entry dentry u e)
         end) <$> es) ++ filter (λ p, ce_name p ∉ (de_name <$> es)) acc.
Proof.
  intros Hi. rewrite omap_app. f_equal.
  - pose proof (lw_middle _ _ _ Hi) as Hm. clear Hi. induction Hm as [|i e mid es' Hat Hm IH]; [done|].
    cbn [omap list_omap fmap list_fmap].
    assert ((acc ++ (mark dentry l <$> new)) !! i =
            Some match lookup_name acc (de_name e) with
                 | Some p => p | None => mark dentry l (new_entry dentry u e) end) as ->.
    { unfold entry_at in Hat. destruct (lookup_name acc (de_name e)) as [p|].
      - by apply lookup_app_l_Some.
      - destruct Hat as (j & -> & Hj). rewrite lookup_app_r by lia.
        rewrite Nat.add_comm, Nat.add_sub, list_lookup_fmap, Hj. done. }
    f_equal. exact IH.
  - rewrite (lw_list _ _ _ Hi).
    apply (omap_filter_seq (λ i, i ∉ r_middle r) (λ p, ce_name p ∉ (de_name <$> es))
             (mark dentry l <$> new) acc []).
    intros i x Hx. by eapply low_keep.
Qed.
End lowest.

(** ** All layers *)

Section all.
Context `{RB : RbLib} {RL : RbLaws} (dentry : option rd_dentry) (kmalloc : list centry → string → bool).
Local Abbreviation actor := (ovl_fill_merge dentry kmalloc).
Local Abbreviation has := (match dentry with Some _ => true | None => false end).

Lemma dir_read_loop_status act batches c e r :
  dir_read_loop act batches (rdd_status c e r) = dir_read_loop act batches r.
Proof. by destruct batches as [|[]]. Qed.

Lemma filter_all {A} (P : A → Prop) `{∀ x, Decision (P x)} (l : list A) :
  (∀ x, x ∈ l → P x) → filter P l = l.
Proof.
  induction l as [|x l IH]; intros HP; [done|].
  rewrite filter_cons_True by (apply HP; by left). f_equal. apply IH. intros y Hy. apply HP. by right.
Qed.

Lemma dir_read_lowest u l r r' :
  above_inv r → Forall (λ e, no_nul (de_name e)) (layer_entries l) →
  NoDup (de_name <$> layer_entries l) →
  ovl_dir_read has actor l (rdd_lists (r_root r) (r_list r) [] (rdd_layer u true r)) = (0, r') →
  rdd_entries (rdd_lists (r_root r') (r_middle r' ++ r_list r') [] r') = add_lowest dentry (r_heap r) (u, l).
Proof.
  intros Hi Hn Hnd. unfold ovl_dir_read. destruct (IS_ERR (li_open l)) eqn:Eo.
  { apply IS_ERR_spec in Eo. unfold PTR_ERR. intros [= E]. lia. }
  set (r0 := rdd_heap _ _ _).
  assert (low_inv dentry u (r_heap r) (r_root r) (rdd_status 0 0 r0) [] []) as Hi0.
  { destruct Hi as [b1 b2 b3 b4]. split; cbn; auto; [by rewrite app_nil_r|].
    rewrite b1. symmetry. apply filter_all. intros i _. apply not_elem_of_nil. }
  rewrite <- (dir_read_loop_status _ _ 0 0 r0).
  destruct (dir_read_loop actor (li_batches l) (rdd_status 0 0 r0)) as [err r1] eqn:E.
  destruct (Z.eqb_spec err 0) as [->|Hne]; [|cbn [andb]; intros [= E']; lia].
  destruct (loop_low dentry kmalloc u (r_heap r) (r_root r) (ai_tree _ Hi) (ai_index _ Hi)
              (li_batches l) (rdd_status 0 0 r0) [] [] r1 Hi0 Hn Hnd E) as [new Ha].
  cbn [app] in Ha. intros Hck.
  pose proof (check_after dentry kmalloc l r r1 new 0 r' (lw_heap _ _ _ _ _ _ _ Ha) (lw_maybe _ _ _ _ _ _ _ Ha) Hck eq_refl) as ->.
  unfold rdd_entries. cbn [r_heap r_list r_middle rdd_lists rdd_heap].
  exact (low_entries dentry kmalloc u (r_heap r) (r_root r) (ai_tree _ Hi) (ai_index _ Hi) l r1 _ new Ha).
Qed.

Lemma merged_loop layers : ∀ r r',
  above_inv r → Forall (λ x, Forall (λ e, no_nul (de_name e)) (layer_entries x.2)) layers →
  (∀ x, last layers = Some x → NoDup (de_name <$> layer_entries x.2)) →
  dir_read_merged_loop kmalloc dentry layers r = (0, r') →
  rdd_entries r' = merge_spec dentry (r_heap r) layers.
Proof.
  induction layers as [|[u l] layers IH]; intros r r' Hi Hn Hnd.
  { cbn. intros [= <-]. by apply above_entries. }
  apply Forall_cons in Hn as [Hl Hn]. destruct layers as [|x layers].
  - cbn [dir_read_merged_loop merge_spec].
    destruct (ovl_dir_read _ _ _ _) as [err r1] eqn:E. intros [= -> <-].
    by apply (dir_read_lowest u l r r1); [| |apply (Hnd (u, l))|].
  - change (merge_spec dentry (r_heap r) ((u, l) :: x :: layers))
      with (merge_spec dentry (add_layer dentry (r_heap r) (u, l)) (x :: layers)).
    change (dir_read_merged_loop kmalloc dentry ((u, l) :: x :: layers) r)
      with (let '(err, r) := ovl_dir_read has actor l (rdd_layer u false r) in
            if negb (err =? 0) then (err, r) else dir_read_merged_loop kmalloc dentry (x :: layers) r).
    destruct (ovl_dir_read has actor l (rdd_layer u false r)) as [err r1] eqn:E.
    destruct (Z.eqb_spec err 0) as [->|Hne]; cbn [negb]; [|intros [= ?]; lia].
    destruct (dir_read_upper dentry kmalloc u l r r1 Hi Hl E) as [Hi1 <-].
    apply IH; [done|done|]. intros y Hy. apply Hnd. by rewrite last_cons, Hy.
Qed.

Lemma above_empty : above_inv rdd_empty.
Proof. split; [done|done| |done]. split; constructor. Qed.
End all.
