(* ===== verification/ReaddirProps.v ===== *)
(** Theorems on reading directories: what a merged directory lists, when it is
    empty, how its position resumes, and which inode numbers it reports. *)

From S2P Require Import Prelude Types Util Readdir ReaddirTree ReaddirMerge.

(** ** The topmost layer decides *)

Section top.
Context (dentry : option rd_dentry).

(** The first entry of a layer with a given name. *)
Definition find_dirent (name : string) (es : list dirent) : option dirent :=
  head (filter (λ e, de_name e = name) es).

(** What the topmost layer that has [name] says about it. *)
Fixpoint top_entry (layers : list (bool * layer_in)) (name : string) : option centry :=
  match layers with
  | [] => None
  | (u, l) :: layers =>
      match find_dirent name (layer_entries l) with
      | Some e => Some (mark dentry l (new_entry dentry u e))
      | None => top_entry layers name
      end
  end.

Lemma lookup_name_app acc1 acc2 n :
  lookup_name (acc1 ++ acc2) n =
  match lookup_name acc1 n with Some p => Some p | None => lookup_name acc2 n end.
Proof. unfold lookup_name. rewrite filter_app. by destruct (filter _ acc1). Qed.

Lemma lookup_name_cons p acc n :
  lookup_name (p :: acc) n = if decide (ce_name p = n) then Some p else lookup_name acc n.
Proof. unfold lookup_name. rewrite filter_cons. by case_decide. Qed.

Lemma find_dirent_cons e es n :
  find_dirent n (e :: es) = if decide (de_name e = n) then Some e else find_dirent n es.
Proof. unfold find_dirent. rewrite filter_cons. by case_decide. Qed.

Lemma lookup_name_fmap_mark l acc n :
  lookup_name (mark dentry l <$> acc) n = mark dentry l <$> lookup_name acc n.
Proof.
  induction acc as [|p acc IH]; [done|]. cbn [fmap list_fmap].
  rewrite !lookup_name_cons, mark_name. by case_decide.
Qed.

Lemma lookup_fresh u es n : ∀ seen,
  lookup_name (fresh dentry u seen es) n =
  if decide (n ∈ seen) then None else new_entry dentry u <$> find_dirent n es.
Proof.
  induction es as [|e es IH]; intros seen; cbn [fresh].
  { by case_decide. }
  rewrite find_dirent_cons. case_decide as Hs.
  - rewrite IH. repeat case_decide; subst; done.
  - rewrite lookup_name_cons. cbn [ce_name new_entry]. rewrite IH.
    repeat case_decide; subst; try done; try (rewrite elem_of_cons in *; naive_solver).
Qed.

Lemma lookup_name_in acc n : lookup_name acc n = None ↔ n ∉ (ce_name <$> acc).
Proof.
  split; [|apply lookup_name_none]. intros E Hin. unfold lookup_name in E.
  apply list_elem_of_fmap in Hin as (p & -> & Hp).
  assert (p ∈ filter (λ q, ce_name q = ce_name p) acc) as Hf by (by apply list_elem_of_filter).
  destruct (filter _ acc); [by apply elem_of_nil in Hf|done].
Qed.

Lemma lookup_add_layer acc u l n :
  lookup_name (add_layer dentry acc (u, l)) n =
  match lookup_name acc n with
  | Some p => Some p
  | None => (λ e, mark dentry l (new_entry dentry u e)) <$> find_dirent n (layer_entries l)
  end.
Proof.
  cbn [add_layer]. rewrite lookup_name_app. destruct (lookup_name acc n) as [p|] eqn:E; [done|].
  rewrite lookup_name_fmap_mark, lookup_fresh, decide_False by (by apply lookup_name_in).
  by destruct (find_dirent _ _).
Qed.

Lemma find_dirent_in n es : find_dirent n es = None ↔ n ∉ (de_name <$> es).
Proof.
  induction es as [|e es IH]; [split; [intros _; apply not_elem_of_nil|done]|].
  rewrite find_dirent_cons, fmap_cons, not_elem_of_cons. case_decide; naive_solver.
Qed.

Lemma lookup_filter_notin (ns : list string) acc n :
  lookup_name (filter (λ p, ce_name p ∉ ns) acc) n =
  if decide (n ∈ ns) then None else lookup_name acc n.
Proof.
  induction acc as [|p acc IH]; [by case_decide|]. rewrite filter_cons.
  rewrite (lookup_name_cons p acc). destruct (decide (ce_name p ∉ ns)) as [Hp|Hp].
  - rewrite lookup_name_cons, IH. repeat case_decide; subst; done.
  - rewrite IH. repeat case_decide; subst; done.
Qed.

Lemma lookup_name_name acc n p : lookup_name acc n = Some p → ce_name p = n.
Proof.
  unfold lookup_name. intros E. destruct (filter _ acc) as [|q l] eqn:Ef; [done|].
  cbn in E. injection E as ->.
  assert (p ∈ filter (λ p, ce_name p = n) acc) as Hp by (rewrite Ef; by left).
  by apply list_elem_of_filter in Hp as [? _].
Qed.

Lemma lookup_name_elem acc n p : lookup_name acc n = Some p → p ∈ acc.
Proof.
  unfold lookup_name. intros E. destruct (filter _ acc) as [|q l] eqn:Ef; [done|].
  cbn in E. injection E as ->.
  assert (p ∈ filter (λ p, ce_name p = n) acc) as Hp by (rewrite Ef; by left).
  by apply list_elem_of_filter in Hp as [_ ?].
Qed.

Lemma lookup_add_lowest acc u l n :
  lookup_name (add_lowest dentry acc (u, l)) n =
  match lookup_name acc n with
  | Some p => Some p
  | None => (λ e, mark dentry l (new_entry dentry u e)) <$> find_dirent n (layer_entries l)
  end.
Proof.
  cbn [add_lowest]. rewrite lookup_name_app, lookup_filter_notin.
  set (f := λ e, match lookup_name acc (de_name e) with Some p => p | None => mark dentry l (new_entry dentry u e) end).
  assert (∀ e, ce_name (f e) = de_name e) as Hf.
  { intros e. unfold f. destruct (lookup_name acc (de_name e)) eqn:E; [by apply lookup_name_name in E|].
    by rewrite mark_name. }
  assert (lookup_name (f <$> layer_entries l) n = f <$> find_dirent n (layer_entries l)) as ->.
  { induction (layer_entries l) as [|e es IH]; [done|]. cbn [fmap list_fmap].
    rewrite lookup_name_cons, find_dirent_cons, Hf. by case_decide. }
  destruct (find_dirent n (layer_entries l)) as [e|] eqn:E; cbn.
  - assert (de_name e = n) as Hn.
    { unfold find_dirent in E. destruct (filter _ _) as [|q es] eqn:Ef; [done|]. cbn in E. injection E as ->.
      assert (e ∈ filter (λ e, de_name e = n) (layer_entries l)) as He by (rewrite Ef; by left).
      by apply list_elem_of_filter in He as [? _]. }
    unfold f. rewrite Hn. by destruct (lookup_name acc n).
  - rewrite decide_False by (by apply find_dirent_in). by destruct (lookup_name acc n).
Qed.

Lemma lookup_merge layers : ∀ acc n,
  lookup_name (merge_spec dentry acc layers) n =
  match lookup_name acc n with Some p => Some p | None => top_entry layers n end.
Proof.
  induction layers as [|[u l] layers IH]; intros acc n; [by cbn; destruct (lookup_name acc n)|].
  destruct layers as [|x layers].
  - cbn [merge_spec top_entry]. rewrite lookup_add_lowest.
    destruct (lookup_name acc n); [done|]. by destruct (find_dirent _ _).
  - change (merge_spec dentry acc ((u, l) :: x :: layers))
      with (merge_spec dentry (add_layer dentry acc (u, l)) (x :: layers)).
    rewrite IH, lookup_add_layer. cbn [top_entry].
    destruct (lookup_name acc n); [done|]. by destruct (find_dirent _ _).
Qed.

(** Every name is listed once. *)
Lemma fresh_nodup u es : ∀ seen, NoDup (ce_name <$> fresh dentry u seen es).
Proof.
  induction es as [|e es IH]; intros seen; cbn [fresh]; [constructor|].
  case_decide; [done|]. cbn [fmap list_fmap]. constructor; [|done].
  apply lookup_name_in. rewrite lookup_fresh, decide_True; [done|]. by left.
Qed.

Lemma nodup_add_layer acc u l :
  NoDup (ce_name <$> acc) → NoDup (ce_name <$> add_layer dentry acc (u, l)).
Proof.
  intros Hnd. cbn [add_layer]. rewrite fmap_app, <- list_fmap_compose.
  assert (ce_name ∘ mark dentry l <$> fresh dentry u (ce_name <$> acc) (layer_entries l) =
          ce_name <$> fresh dentry u (ce_name <$> acc) (layer_entries l)) as ->
    by (apply list_fmap_ext; intros; apply mark_name).
  apply NoDup_app. split_and!; [done| |apply fresh_nodup].
  intros n Hn. apply lookup_name_in. by rewrite lookup_fresh, decide_True.
Qed.

Lemma nodup_add_lowest acc u l :
  NoDup (ce_name <$> acc) → NoDup (de_name <$> layer_entries l) →
  NoDup (ce_name <$> add_lowest dentry acc (u, l)).
Proof.
  intros Hnd Hes. cbn [add_lowest]. rewrite fmap_app, <- list_fmap_compose.
  set (f := λ e, _).
  assert (ce_name ∘ f <$> layer_entries l = de_name <$> layer_entries l) as ->.
  { apply list_fmap_ext. intros _ e _. unfold f. cbn.
    destruct (lookup_name acc (de_name e)) eqn:E; [by apply lookup_name_name in E|by rewrite mark_name]. }
  apply NoDup_app. split_and!; [done| |].
  - intros n Hn Hin. apply list_elem_of_fmap in Hin as (p & -> & Hp).
    by apply list_elem_of_filter in Hp as [? _].
  - eapply sublist_NoDup; [exact Hnd|]. by apply fmap_sublist, sublist_filter.
Qed.

Lemma nodup_merge layers : ∀ acc,
  NoDup (ce_name <$> acc) → (∀ x, last layers = Some x → NoDup (de_name <$> layer_entries x.2)) →
  NoDup (ce_name <$> merge_spec dentry acc layers).
Proof.
  induction layers as [|[u l] layers IH]; intros acc Hnd Hl; [done|].
  destruct layers as [|x layers].
  - apply nodup_add_lowest; [done|]. by apply (Hl (u, l)).
  - apply IH; [by apply nodup_add_layer|]. intros y Hy. apply Hl. by rewrite last_cons, Hy.
Qed.
End top.

(** ** The merged directory *)

Section merged.
Context `{RB : RbLib} {RL : RbLaws}.

(** Names are C strings, and one directory does not list a name twice. *)
Definition layers_ok (layers : list (bool * layer_in)) : Prop :=
  Forall (λ x, Forall (λ e, no_nul (de_name e)) (layer_entries x.2)) layers ∧
  (∀ x, last layers = Some x → NoDup (de_name <$> layer_entries x.2)).

(** C28: The cache of a merged directory equals its reference definition.
    When ovl_dir_read_merged succeeds, whatever the batches in which the
    layers return their entries and however the tree is rebalanced, the list
    is [merge_spec]: first the names of the lowest layer in its order, then
    the remaining names of the layers above in order of first occurrence. *)
Theorem merged_equals_spec dentry kmalloc layers r :
  layers_ok layers → ovl_dir_read_merged kmalloc dentry layers = (0, r) →
  rdd_entries r = merge_spec dentry [] layers.
Proof.
  intros [Hn Hl] E. exact (merged_loop dentry kmalloc layers rdd_empty r above_empty Hn Hl E).
Qed.

(** C27: The topmost layer that has a name decides what a merged directory says
    about it: type, inode number, whether it is from the upper layer and
    whether it is a whiteout; and no name is listed twice. *)
Theorem merged_topmost_wins dentry kmalloc layers r :
  layers_ok layers → ovl_dir_read_merged kmalloc dentry layers = (0, r) →
  NoDup (ce_name <$> rdd_entries r) ∧
  ∀ name, lookup_name (rdd_entries r) name = top_entry dentry layers name.
Proof.
  intros [Hn Hl] E.
  rewrite (merged_loop dentry kmalloc layers rdd_empty r above_empty Hn Hl E). split.
  - apply nodup_merge; [constructor|done].
  - intros name. by rewrite lookup_merge.
Qed.

(** ** The empty-directory test *)

Definition visible (p : centry) : bool :=
  negb (ce_is_whiteout p) && negb (is_dot (ce_name p)) && negb (is_dotdot (ce_name p)).

Lemma check_empty_loop_spec l :
  let '(err, rest) := check_empty_loop l in
  (err = 0 ∧ Forall (λ p, visible p = false) l ∧
     rest = filter (λ p, ce_is_whiteout p = true ∧ ce_is_upper p = true) l) ∨
  (err = - ENOTEMPTY ∧ Exists (λ p, visible p = true) l).
Proof.
  induction l as [|p l IH]; [by left|]. cbn [check_empty_loop].
  destruct (ce_is_whiteout p) eqn:Ew; [destruct (ce_is_upper p) eqn:Eu|].
  - destruct (check_empty_loop l) as [err rest]. destruct IH as [(-> & HF & ->)|[-> HE]].
    + left. split_and!; [done|constructor; [by unfold visible; rewrite Ew|done]|].
      by rewrite filter_cons_True.
    + right. split; [done|by right].
  - destruct (check_empty_loop l) as [err rest]. destruct IH as [(-> & HF & ->)|[-> HE]].
    + left. split_and!; [done|constructor; [by unfold visible; rewrite Ew|done]|].
      rewrite filter_cons_False; [done|]. rewrite Eu. by intros [_ ?].
    + right. split; [done|by right].
  - destruct (is_dot (ce_name p) || is_dotdot (ce_name p)) eqn:Ed.
    + destruct (check_empty_loop l) as [err rest]. destruct IH as [(-> & HF & ->)|[-> HE]].
      * left. split_and!; [done|constructor; [|done]|].
        -- unfold visible. rewrite Ew. by destruct (is_dot _), (is_dotdot _).
        -- rewrite filter_cons_False; [done|]. rewrite Ew. by intros [? _].
      * right. split; [done|by right].
    + right. split; [done|]. left. unfold visible. rewrite Ew.
      by destruct (is_dot _), (is_dotdot _).
Qed.

(** C35: A merged directory counts as empty exactly when every name in it is a
    dot entry or is hidden by a whiteout in the topmost layer that has it; the
    entries left for cleaning are then the whiteouts of the upper layer.
    Otherwise the result is ENOTEMPTY, or the error of reading. *)
Theorem check_empty_dir_spec d kmalloc layers :
  layers_ok layers →
  let '(err, rest) := ovl_check_empty_dir kmalloc d layers in
  let '(rerr, r) := ovl_dir_read_merged kmalloc (Some d) layers in
  (rerr ≠ 0 → err = rerr) ∧
  (rerr = 0 →
     (err = 0 ∨ err = - ENOTEMPTY) ∧
     (err = 0 ↔ ∀ name p, top_entry (Some d) layers name = Some p → visible p = false) ∧
     (err = 0 → ∀ p, p ∈ rest ↔ p ∈ rdd_entries r ∧ ce_is_whiteout p = true ∧ ce_is_upper p = true)).
Proof.
  intros Hok. unfold ovl_check_empty_dir.
  destruct (ovl_dir_read_merged kmalloc (Some d) layers) as [rerr r] eqn:E.
  destruct (Z.eqb_spec rerr 0) as [->|Hne]; cbn [negb]; [|by split; [|intros ?; lia]].
  pose proof (check_empty_loop_spec (rdd_entries r)) as HS.
  destruct (check_empty_loop (rdd_entries r)) as [err rest]. split; [done|]. intros _.
  destruct Hok as [Hn Hl].
  pose proof (merged_loop (Some d) kmalloc layers rdd_empty r above_empty Hn Hl E) as Hr.
  assert (∀ name, lookup_name (rdd_entries r) name = top_entry (Some d) layers name) as Htop
    by (intros name; by rewrite Hr, lookup_merge).
  assert (NoDup (ce_name <$> rdd_entries r)) as Hnd
    by (rewrite Hr; apply nodup_merge; [constructor|done]).
  assert (∀ p, p ∈ rdd_entries r ↔ top_entry (Some d) layers (ce_name p) = Some p) as Hin.
  { intros p. rewrite <- Htop. split.
    - intros [i Hi]%list_elem_of_lookup. by eapply lookup_name_at.
    - apply lookup_name_elem. }
  destruct HS as [(-> & HF & ->)|[-> HE]].
  - split_and!; [by left| |].
    + split; [|done]. intros _ name p Hp. rewrite Forall_forall in HF. apply HF, Hin.
      rewrite <- Hp. f_equal. rewrite <- Htop in Hp. by apply lookup_name_name in Hp.
    + intros _ p. rewrite list_elem_of_filter. tauto.
  - split_and!; [by right| |done]. split; [done|]. intros Hv. exfalso.
    apply Exists_exists in HE as (p & Hp & Hvis). rewrite (Hv (ce_name p) p) in Hvis; [done|].
    by apply Hin.
Qed.
End merged.

(** ** Resuming a directory read *)

Section resume.
Context (update : centry → Z * centry).

(** Successive calls of ovl_iterate on one open directory; the [i]-th call's
    buffer takes [ms !! i] entries. *)
Fixpoint iterate_calls (ms : list nat) (entries : list centry) (d : dirpos)
    : outcome (list (list centry) * list centry * dirpos) :=
  match ms with
  | [] => Ret ([], entries, d)
  | m :: ms =>
      '(_, out, entries, d) ←
        iterate_loop update (λ n _, bool_decide (n < m)%nat) (length entries - dp_cursor d) 0 entries d;
      '(outs, entries, d) ← iterate_calls ms entries d;
      Ret (out :: outs, entries, d)
  end.

Definition shown (p : centry) : Prop := ce_is_whiteout p = false.
#[export] Instance shown_dec p : Decision (shown p).
Proof. unfold shown. apply _. Defined.

(** What the cache says about names: updates only touch inode numbers. *)
Definition listing (entries : list centry) : list (string * bool) :=
  (λ p, (ce_name p, ce_is_whiteout p)) <$> entries.
Definition shown_names (l : list (string * bool)) : list string :=
  (filter (λ x, x.2 = false) l).*1.

Context (update_ok : ∀ p, ∃ p', update p = (0, p') ∧ ce_name p' = ce_name p ∧
                                ce_is_whiteout p' = ce_is_whiteout p).

Lemma listing_insert entries i p p' :
  entries !! i = Some p → ce_name p' = ce_name p → ce_is_whiteout p' = ce_is_whiteout p →
  listing (<[i := p']> entries) = listing entries.
Proof.
  intros Hi Hn Hw. unfold listing. rewrite list_fmap_insert, Hn, Hw.
  apply list_insert_id. by rewrite list_lookup_fmap, Hi.
Qed.

Lemma drop_listing entries i p :
  entries !! i = Some p →
  drop i (listing entries) = (ce_name p, ce_is_whiteout p) :: drop (S i) (listing entries).
Proof. intros Hi. apply drop_S. unfold listing. by rewrite list_lookup_fmap, Hi. Qed.

(** One call, [n] entries already in its buffer of size [m]. *)
Lemma iterate_loop_spec m fuel : ∀ n entries d,
  (length entries - dp_cursor d ≤ fuel)%nat →
  ∃ out entries' d',
    iterate_loop update (λ n _, bool_decide (n < m)%nat) fuel n entries d = Ret (0, out, entries', d') ∧
    listing entries' = listing entries ∧ (dp_cursor d ≤ dp_cursor d')%nat ∧
    dp_pos d' - dp_pos d = Z.of_nat (dp_cursor d' - dp_cursor d) ∧
    ce_name <$> out =
      shown_names (take (dp_cursor d' - dp_cursor d) (drop (dp_cursor d) (listing entries))) ∧
    ((n + length out < m)%nat → (length entries ≤ dp_cursor d')%nat).
Proof.
  assert (∀ n entries d, entries !! dp_cursor d = None → 
    ∃ out entries' d', @Ret (Z * list centry * list centry * dirpos) (0, [], entries, d) = Ret (0, out, entries', d') ∧
    listing entries' = listing entries ∧ (dp_cursor d ≤ dp_cursor d')%nat ∧
    dp_pos d' - dp_pos d = Z.of_nat (dp_cursor d' - dp_cursor d) ∧
    ce_name <$> out =
      shown_names (take (dp_cursor d' - dp_cursor d) (drop (dp_cursor d) (listing entries))) ∧
    ((n + length out < m)%nat → (length entries ≤ dp_cursor d')%nat)) as Hend.
  { intros n entries d Hd. eexists _, _, _. split; [done|]. rewrite Nat.sub_diag.
    split_and!; [done|lia|lia|done|]. intros _. by apply lookup_ge_None. }
  induction fuel as [|fuel IH]; intros n entries d Hf; cbn [iterate_loop];
    destruct (entries !! dp_cursor d) as [p|] eqn:Ep; try by apply Hend.
  { apply lookup_lt_Some in Ep. lia. }
  pose proof (lookup_lt_Some _ _ _ Ep) as Hlt.
  destruct (ce_is_whiteout p) eqn:Ew.
  - destruct (IH n entries (DirPos (S (dp_cursor d)) (dp_pos d + 1)))
      as (out & es' & d' & -> & Hl & Hc & Hp & Ho & Hm); cbn [dp_cursor dp_pos] in *; [lia|].
    exists out, es', d'. split_and!; [done|done|lia|lia| |done].
    rewrite Ho, (drop_listing _ _ _ Ep).
    replace (dp_cursor d' - dp_cursor d)%nat with (S (dp_cursor d' - S (dp_cursor d)))%nat by lia.
    cbn [take]. unfold shown_names. rewrite filter_cons_False; [done|]. cbn. by rewrite Ew.
  - assert (∃ p', (if ce_ino p =? 0 then update p else (0, p)) = (0, p') ∧
              ce_name p' = ce_name p ∧ ce_is_whiteout p' = ce_is_whiteout p) as (p' & -> & Hn & Hw)
      by (destruct (_ =? _); [apply update_ok|exists p; by split_and!]).
    cbn [Z.eqb negb]. pose proof (listing_insert _ _ _ _ Ep Hn Hw) as Hli.
    case_bool_decide as Hnm; cbn [negb]; cycle 1.
    { eexists _, _, _. split; [done|]. rewrite Nat.sub_diag. split_and!; [done|lia|lia|done|].
      cbn [length]. lia. }
    destruct (IH (S n) (<[dp_cursor d:=p']> entries) (DirPos (S (dp_cursor d)) (dp_pos d + 1)))
      as (out & es' & d' & E & Hl & Hc & Hp & Ho & Hm); cbn [dp_cursor dp_pos] in *;
      [rewrite length_insert; lia|].
    rewrite E. cbn [mbind outcome_bind]. exists (p' :: out), es', d'. rewrite Hli in Hl, Ho.
    split_and!; [done|done|lia|lia| |].
    + cbn [fmap list_fmap]. rewrite Ho, (drop_listing _ _ _ Ep).
      replace (dp_cursor d' - dp_cursor d)%nat with (S (dp_cursor d' - S (dp_cursor d)))%nat by lia.
      cbn [take]. unfold shown_names. rewrite filter_cons_True by (cbn; congruence). cbn. by rewrite Hn.
    + cbn [length]. rewrite length_insert in Hm. intros ?. apply Hm. lia.
Qed.

Lemma iterate_calls_spec ms : ∀ entries d,
  ∃ outs entries' d', iterate_calls ms entries d = Ret (outs, entries', d') ∧
    listing entries' = listing entries ∧ (dp_cursor d ≤ dp_cursor d')%nat ∧
    dp_pos d' - dp_pos d = Z.of_nat (dp_cursor d' - dp_cursor d) ∧
    ce_name <$> concat outs =
      shown_names (take (dp_cursor d' - dp_cursor d) (drop (dp_cursor d) (listing entries))).
Proof.
  induction ms as [|m ms IH]; intros entries d; cbn [iterate_calls].
  { eexists _, _, _. split; [done|]. rewrite Nat.sub_diag. split_and!; [done|lia|lia|done]. }
  destruct (iterate_loop_spec m _ 0 entries d (le_n _)) as (out & es1 & d1 & -> & Hl1 & Hc1 & Hp1 & Ho1 & _).
  cbn [mbind outcome_bind].
  destruct (IH es1 d1) as (outs & es2 & d2 & -> & Hl2 & Hc2 & Hp2 & Ho2). cbn [mbind outcome_bind].
  exists (out :: outs), es2, d2. rewrite Hl1 in *. split_and!; [done|done|lia|lia|].
  cbn [concat]. rewrite fmap_app, Ho1, Ho2. unfold shown_names. rewrite <- fmap_app, <- filter_app.
  do 2 f_equal.
  replace (dp_cursor d2 - dp_cursor d)%nat
    with ((dp_cursor d1 - dp_cursor d) + (dp_cursor d2 - dp_cursor d1))%nat by lia.
  replace (dp_cursor d1) with (dp_cursor d + (dp_cursor d1 - dp_cursor d))%nat at 3 by lia.
  by rewrite <- drop_drop, take_take_drop.
Qed.
End resume.

Lemma seek_loop_spec {A} (entries : list A) : ∀ off pos,
  Z.of_nat (seek_loop entries off pos) = Z.min (Z.max 0 (pos - off)) (zlen entries).
Proof.
  induction entries as [|p entries IH]; intros off pos; cbn [seek_loop].
  { change (zlen (@nil A)) with 0. lia. }
  assert (zlen (p :: entries) = 1 + zlen entries) as -> by (unfold zlen; cbn [length]; lia).
  pose proof (zlen_nonneg entries).
  destruct (Z.leb_spec pos off); [lia|]. rewrite Nat2Z.inj_succ, IH. lia.
Qed.

(** Reading a merged directory in pieces lists every visible name exactly
    once.  However many getdents calls are made and however few entries fit
    into each, the names they return, in order, are those of the visible
    entries from the start up to the cursor, each call terminates, the file
    position counts the entries passed, and ovl_seek_cursor finds that cursor
    again from the position. *)
Theorem iterate_lists_each_name_once update ms entries :
  (∀ p, ∃ p', update p = (0, p') ∧ ce_name p' = ce_name p ∧ ce_is_whiteout p' = ce_is_whiteout p) →
  ∃ outs entries' d', iterate_calls update ms entries (DirPos 0 0) = Ret (outs, entries', d') ∧
    ce_name <$> concat outs = shown_names (take (dp_cursor d') (listing entries)) ∧
    dp_pos d' = Z.of_nat (dp_cursor d') ∧
    ((dp_cursor d' ≤ length entries)%nat → ovl_seek_cursor entries' (dp_pos d') = dp_cursor d').
Proof.
  intros Hup. destruct (iterate_calls_spec update Hup ms entries (DirPos 0 0))
    as (outs & es & d & E & Hl & _ & Hp & Ho). cbn [dp_cursor dp_pos] in *.
  rewrite Nat.sub_0_r in *. rewrite drop_0 in Ho. exists outs, es, d. split_and!; [done|done|lia|].
  intros Hd. unfold ovl_seek_cursor. pose proof (seek_loop_spec es 0 (dp_pos d)).
  assert (zlen es = zlen entries).
  { apply (f_equal length) in Hl. unfold listing in Hl. rewrite !length_fmap in Hl. unfold zlen. lia. }
  unfold zlen in *. lia.
Qed.

(** Inode numbers of different lower filesystems do not collide.  With
    [xinobits] bits reserved for the filesystem number, numbers that fit in
    the remaining bits are mapped injectively, stay within 64 bits, and are
    unchanged on filesystem 0; a number that does not fit is reported as it
    is. *)
Theorem remap_lower_ino_injective xinobits ino1 fsid1 ino2 fsid2 :
  0 < xinobits < 64 → 0 ≤ ino1 < two64 → 0 ≤ ino2 < two64 →
  0 ≤ fsid1 < 2 ^ xinobits → 0 ≤ fsid2 < 2 ^ xinobits →
  ino1 < 2 ^ (64 - xinobits) → ino2 < 2 ^ (64 - xinobits) →
  (ovl_remap_lower_ino ino1 xinobits fsid1 = ovl_remap_lower_ino ino2 xinobits fsid2 →
     ino1 = ino2 ∧ fsid1 = fsid2) ∧
  0 ≤ ovl_remap_lower_ino ino1 xinobits fsid1 < two64 ∧
  ovl_remap_lower_ino ino1 xinobits 0 = ino1.
Proof.
  intros Hx Hi1 Hi2 Hf1 Hf2 Hs1 Hs2.
  assert (∀ ino fsid, 0 ≤ ino < 2 ^ (64 - xinobits) → 0 ≤ fsid < 2 ^ xinobits →
            ovl_remap_lower_ino ino xinobits fsid = ino + fsid * 2 ^ (64 - xinobits)) as Hmap.
  { intros ino fsid Hi Hf. unfold ovl_remap_lower_ino.
    rewrite Z.shiftr_div_pow2, Z.div_small by lia. cbn [Z.eqb negb].
    rewrite Z.shiftl_mul_pow2 by lia. unfold u64.
    assert (two64 = 2 ^ xinobits * 2 ^ (64 - xinobits)) as ->.
    { rewrite <- Z.pow_add_r by lia. change two64 with (2 ^ 64). f_equal. lia. }
    rewrite Z.mod_small by nia. rewrite Z.add_comm, <- Z.lor_comm.
    rewrite <- (Z.shiftl_mul_pow2 fsid) by lia. symmetry. apply Z.add_nocarry_lor.
    apply Z.bits_inj'. intros n Hn. rewrite Z.land_spec, Z.bits_0, Z.shiftl_spec by lia.
    destruct (Z.ltb_spec n (64 - xinobits)); [by rewrite (Z.testbit_neg_r fsid) by lia|].
    rewrite (Z.bits_above_log2 ino n); [by rewrite andb_false_r|lia|].
    destruct (decide (ino = 0)) as [->|]; [cbn; lia|].
    apply Z.log2_lt_pow2; [lia|]. eapply Z.lt_le_trans; [apply Hi|].
    apply Z.pow_le_mono_r; lia. }
  assert (2 ^ xinobits * 2 ^ (64 - xinobits) = two64) as Hp.
  { rewrite <- Z.pow_add_r by lia. change two64 with (2 ^ 64). f_equal. lia. }
  pose proof (Z.pow_pos_nonneg 2 xinobits ltac:(lia) ltac:(lia)).
  rewrite !Hmap by lia. split_and!; [|nia|nia|lia].
  intros E. assert (fsid1 = fsid2) as ->; [|lia].
  destruct (Z.lt_trichotomy fsid1 fsid2) as [?|[?|?]]; [nia|done|nia].
Qed.

(** ** Witnesses *)

Definition rblib_id : RbLib := {| rb_insert_color t := t |}.
Lemma rblaws_id : @RbLaws rblib_id.
Proof. by split. Qed.

(** An upper layer with a whiteout for "b" and a file "c" over a lower layer. *)
Definition wit_upper_layer : layer_in :=
  LayerIn 7 [([Dirent "b" 11 DT_CHR; Dirent "c" 12 8], 0)] 0 (λ n, Some (bool_decide (n = "b"%string))).
Definition wit_lower_layer : layer_in :=
  LayerIn 8 [([Dirent "a" 21 8; Dirent "b" 22 8], 0); ([Dirent "." 23 4], 0)] 0 (λ _, None).
Definition wit_layers : list (bool * layer_in) := [(true, wit_upper_layer); (false, wit_lower_layer)].
Definition wit_rd_dentry : rd_dentry := RdDentry 0 false.
Definition wit_rdd : rdd := (@ovl_dir_read_merged rblib_id (λ _ _, true) (Some wit_rd_dentry) wit_layers).2.

Lemma wit_layers_ok : layers_ok wit_layers.
Proof.
  split.
  - repeat constructor; done.
  - intros x [= <-]. vm_compute. repeat constructor; intros Hx; rewrite ?elem_of_cons, elem_of_nil in Hx; naive_solver.
Qed.

Lemma merged_equals_spec_witness :
  rdd_entries wit_rdd = merge_spec (Some wit_rd_dentry) [] wit_layers.
Proof.
  apply (@merged_equals_spec rblib_id rblaws_id (Some wit_rd_dentry) (λ _ _, true) wit_layers wit_rdd
           wit_layers_ok).
  vm_compute. reflexivity.
Defined.

Lemma merged_topmost_wins_witness :
  NoDup (ce_name <$> rdd_entries wit_rdd) ∧
  ∀ name, lookup_name (rdd_entries wit_rdd) name = top_entry (Some wit_rd_dentry) wit_layers name.
Proof.
  apply (@merged_topmost_wins rblib_id rblaws_id (Some wit_rd_dentry) (λ _ _, true) wit_layers wit_rdd
           wit_layers_ok).
  vm_compute. reflexivity.
Defined.

Lemma check_empty_dir_spec_witness :
  let '(err, rest) := @ovl_check_empty_dir rblib_id (λ _ _, true) wit_rd_dentry wit_layers in
  let '(rerr, r) := @ovl_dir_read_merged rblib_id (λ _ _, true) (Some wit_rd_dentry) wit_layers in
  (rerr ≠ 0 → err = rerr) ∧
  (rerr = 0 →
     (err = 0 ∨ err = - ENOTEMPTY) ∧
     (err = 0 ↔ ∀ name p, top_entry (Some wit_rd_dentry) wit_layers name = Some p → visible p = false) ∧
     (err = 0 → ∀ p, p ∈ rest ↔ p ∈ rdd_entries r ∧ ce_is_whiteout p = true ∧ ce_is_upper p = true)).
Proof.
  apply (@check_empty_dir_spec rblib_id rblaws_id wit_rd_dentry (λ _ _, true) wit_layers wit_layers_ok).
Defined.

Lemma iterate_lists_each_name_once_witness :
  ∃ outs entries' d', iterate_calls (λ p, (0, set_ce_ino 5 p)) [1%nat; 9%nat] (rdd_entries wit_rdd) (DirPos 0 0)
      = Ret (outs, entries', d') ∧
    ce_name <$> concat outs = shown_names (take (dp_cursor d') (listing (rdd_entries wit_rdd))) ∧
    dp_pos d' = Z.of_nat (dp_cursor d') ∧
    ((dp_cursor d' ≤ length (rdd_entries wit_rdd))%nat → ovl_seek_cursor entries' (dp_pos d') = dp_cursor d').
Proof.
  apply (iterate_lists_each_name_once (λ p, (0, set_ce_ino 5 p)) [1%nat; 9%nat] (rdd_entries wit_rdd)).
  intros p. by exists (set_ce_ino 5 p).
Defined.

Lemma remap_lower_ino_injective_witness :
  (ovl_remap_lower_ino 5 8 1 = ovl_remap_lower_ino 5 8 2 → 5 = 5 ∧ 1 = 2) ∧
  0 ≤ ovl_remap_lower_ino 5 8 1 < two64 ∧
  ovl_remap_lower_ino 5 8 0 = 5.
Proof. apply (remap_lower_ino_injective 8 5 1 5 2); unfold two64; lia. Defined.
