(* ===== verification/Under.v ===== *)
(** The underlying filesystems as the overlay's lookup, file handle and index
    code sees them: extended attributes, name lookup, NFS file handles.  The
    kernel functions are the members of the class [Under]; [UnderLaws] states
    their documented behaviour and [layers] is an executable instance. *)

From Stdlib Require Import Ascii.
From Stdlib Require DecimalString DecimalZ DecimalPos.
From S2P Require Import Prelude Types.
From stdpp Require Import gmap.
Local Open Scope Z_scope.

(** ** Error pointers to values *)

Inductive eptr (A : Type) : Type := PNull | PErr (err : Z) | PPtr (a : A).
Arguments PNull {A}.
Arguments PErr {A} err.
Arguments PPtr {A} a.

(** [PTR_ERR] of a pointer the code knows to be [NULL] or an error. *)
Definition eptr_err {A} (p : eptr A) : Z := match p with PErr e => e | _ => 0 end.

#[export] Instance eptr_eq_dec {A} `{EqDecision A} : EqDecision (eptr A).
Proof. solve_decision. Defined.

(** ** Bytes as unsigned integers *)

#[export] Instance byte_eq_dec : EqDecision byte := Byte.byte_eq_dec.

Definition bz (b : byte) : Z := Z.of_N (Byte.to_N b).
Definition zb (z : Z) : byte := default x00 (Byte.of_N (Z.to_N (z mod 256))).

Lemma bz_range b : 0 ≤ bz b < 256.
Proof. unfold bz. pose proof (Byte.to_N_bounded b). lia. Qed.

Lemma bz_zb z : bz (zb z) = z mod 256.
Proof.
  unfold bz, zb. destruct (Byte.of_N (Z.to_N (z mod 256))) as [b|] eqn:E; cbn.
  - apply Byte.to_of_N in E. rewrite E. lia.
  - exfalso. apply Byte.of_N_None_iff in E. lia.
Qed.

(** Memory the code owns: reading outside it is a fault. *)
Definition memread {A} (l : list A) (off n : Z) : outcome (list A) :=
  if bool_decide (0 ≤ off ∧ 0 ≤ n ∧ off + n ≤ zlen l) then Ret (zslice l off n) else Fault.
Definition membyte (l : list byte) (i : Z) : outcome Z :=
  match zget l i with Some b => Ret (bz b) | None => Fault end.

(** ** The kernel interface *)

Class Under (W : Type) : Type := {
  (** [vfs_getxattr(dentry, name, buf, size)]: the result and what was stored
      in the buffer; with size 0 only the length is returned *)
  vfs_getxattr : W → dentry → string → Z → Z * list byte;
  vfs_setxattr : W → dentry → string → list byte → Z → Z * W;
  (** [lookup_one_len_unlocked(name, base, len)]: a dentry (perhaps negative)
      or an error *)
  lookup_one_len_unlocked : W → string → dentry → eptr dentry;
  (** [exportfs_encode_fh(dentry, buf, &dwords, 0)]: type, dwords, the buffer *)
  exportfs_encode_fh : W → dentry → Z → Z * Z * list byte;
  (** [exportfs_decode_fh(mnt, fid, dwords, type, acceptable, mnt)] *)
  exportfs_decode_fh : W → Z → list byte → Z → Z → option (dentry → bool) → eptr dentry;
  s_uuid : Z → list byte;             (* sb->s_uuid *)
  mnt_sb : Z → Z;
  mnt_root : Z → dentry;
  d_sb : dentry → Z;
  d_can_lookup : dentry → bool;
  d_unhashed : W → dentry → bool;
  is_subdir : W → dentry → dentry → bool;
  kmalloc_ok : W → Z → bool;          (* does an allocation of that size succeed *)
  (** lib/hexdump.c *)
  bin2hex : list byte → string;
  hex2bin : string → Z → option (list byte);
  kstrtoint : string → Z + Z;         (* inl errno, inr value *)
}.

(** linux/slab.h: no allocation is larger (2^22 with 4 KiB pages) *)
Definition KMALLOC_MAX_SIZE : Z := 4194304.

Class UnderLaws (W : Type) `{Under W} : Prop := {
  law_getxattr w d n sz r b :
    vfs_getxattr w d n sz = (r, b) → 0 < sz → 0 ≤ r → zlen b = r ∧ r ≤ sz;
  law_getxattr_size w d n :
    0 ≤ (vfs_getxattr w d n 0).1 → ∃ b,
    zlen b = (vfs_getxattr w d n 0).1 ∧
    ∀ sz, 0 < sz → zlen b ≤ sz → vfs_getxattr w d n sz = (zlen b, b);
  law_setxattr_get w d n v fl w' :
    vfs_setxattr w d n v fl = (0, w') →
    (vfs_getxattr w' d n 0).1 = zlen v ∧
    ∀ sz, 0 < sz → zlen v ≤ sz → vfs_getxattr w' d n sz = (zlen v, v);
  law_setxattr_encode w d n v fl w' x m :
    (vfs_setxattr w d n v fl).2 = w' → exportfs_encode_fh w' x m = exportfs_encode_fh w x m;
  law_setxattr_alloc w d n v fl w' k :
    (vfs_setxattr w d n v fl).2 = w' → kmalloc_ok w' k = kmalloc_ok w k;
  law_kmalloc_max w n : kmalloc_ok w n = true → n ≤ KMALLOC_MAX_SIZE;
  law_setxattr_res w d n v fl : (vfs_setxattr w d n v fl).1 ≤ 0;
  law_encode w d m t dw b :
    exportfs_encode_fh w d m = (t, dw, b) → dw ≤ m →
    0 ≤ dw ∧ zlen b = 4 * m ∧ t < 256;
  law_decode w m fid n t acc : exportfs_decode_fh w m fid n t acc ≠ PNull;
  law_decode_positive w m fid n t acc d :
    exportfs_decode_fh w m fid n t acc = PPtr d → is_Some (d_inode d);
  law_lookup w n d : lookup_one_len_unlocked w n d ≠ PNull;
  law_uuid sb : zlen (s_uuid sb) = 16;
  law_bin2hex b : Z.of_nat (String.length (bin2hex b)) = 2 * zlen b;
  law_bin2hex_digit b c s : bin2hex b = String c s → c ≠ "#"%char;
  law_hex2bin b s : hex2bin (bin2hex b +:+ s) (zlen b) = Some b;
  law_hex2bin_len s n b : hex2bin s n = Some b → 0 ≤ n → zlen b = n;
}.

(** ** [snprintf("%+i")] of the C library *)

Definition print_int (z : Z) : string :=
  (if bool_decide (0 ≤ z) then "+" else "") +:+ DecimalString.NilZero.string_of_int (Z.to_int z).

(** [kstrtoint] reads back what [%+i] printed. *)
Class IntLaws (W : Type) `{Under W} : Prop :=
  law_kstrtoint z : - 2 ^ 31 ≤ z < 2 ^ 31 → kstrtoint (print_int z) = inr z.

(** ** An executable instance *)

Record layers : Type := Layers {
  ly_xattr : gmap (Z * string) (list byte);
  ly_names : gmap (Z * string) dentry;
  ly_nodes : list dentry;
  ly_uuid : Z → byte;
}.

Definition hexdigit (n : Z) : Ascii.ascii :=
  match nth_error (String.list_ascii_of_string "0123456789abcdef") (Z.to_nat n) with
  | Some c => c | None => NUL end.
Definition hexval (c : Ascii.ascii) : option Z :=
  match String.index 0 (String c "") "0123456789abcdef" with
  | Some n => Some (Z.of_nat n) | None => None end.
Fixpoint ly_bin2hex (l : list byte) : string :=
  match l with
  | [] => ""
  | b :: l => String (hexdigit (bz b / 16)) (String (hexdigit (bz b mod 16)) (ly_bin2hex l))
  end.
Fixpoint ly_hex2bin (s : string) (n : nat) : option (list byte) :=
  match n, s with
  | O, _ => Some []
  | S n, String a (String b s) =>
      match hexval a, hexval b, ly_hex2bin s n with
      | Some x, Some y, Some l => Some (zb (16 * x + y) :: l)
      | _, _, _ => None
      end
  | S _, _ => None
  end.
Definition ly_kstrtoint (s : string) : Z + Z :=
  let s := match s with String "+"%char s => s | _ => s end in
  match DecimalString.NilZero.int_of_string s with
  | Some i => let z := Z.of_int i in
      if bool_decide (- 2 ^ 31 ≤ z < 2 ^ 31) then inr z else inl (- ERANGE)
  | None => inl (- EINVAL)
  end.

Definition ly_getxattr (w : layers) (d : dentry) (n : string) (sz : Z) : Z * list byte :=
  match ly_xattr w !! (d_ptr d, n) with
  | None => (- ENODATA, [])
  | Some b =>
      if sz =? 0 then (zlen b, [])
      else if sz <? zlen b then (- ERANGE, [])
      else (zlen b, b)
  end.

#[export] Instance layers_under : Under layers := {|
  vfs_getxattr := ly_getxattr;
  vfs_setxattr w d n v fl :=
    (0, Layers (<[(d_ptr d, n) := v]> (ly_xattr w)) (ly_names w) (ly_nodes w) (ly_uuid w));
  lookup_one_len_unlocked w n b :=
    if String.eqb n "" then PErr (- EACCES)
    else match ly_names w !! (d_ptr b, n) with
         | Some d => PPtr d
         | None => PPtr (Dentry 0 n 0 None)
         end;
  exportfs_encode_fh w d m :=
    if 1 <=? m then (1, 1, ztake (4 * m) (zb (d_ptr d) :: replicate (Z.to_nat (4 * m)) x00))
    else (255, 0, []);
  exportfs_decode_fh w mnt fid dw ty acc :=
    match find (λ d, bz (hd x00 fid) =? d_ptr d mod 256) (ly_nodes w) with
    | Some d => if bool_decide (is_Some (d_inode d)) && default (λ _, true) acc d
                then PPtr d else PErr (- ESTALE)
    | None => PErr (- ESTALE)
    end;
  s_uuid sb := replicate 16 (zb sb);
  mnt_sb m := m;
  mnt_root m := Dentry m "/" 0 None;
  d_sb d := match d_inode d with Some i => i_sb i | None => 0 end;
  d_can_lookup := d_is_dir;
  d_unhashed w d := false;
  is_subdir w d r := true;
  kmalloc_ok w n := n <=? KMALLOC_MAX_SIZE;
  bin2hex := ly_bin2hex;
  hex2bin s n := ly_hex2bin s (Z.to_nat n);
  kstrtoint := ly_kstrtoint;
|}.

Lemma ly_hexval_digit n : 0 ≤ n < 16 → hexval (hexdigit n) = Some n.
Proof.
  intros. destruct n as [|p|p]; try lia; [vm_compute; reflexivity|].
  do 4 (destruct p as [p|p|]; try (vm_compute; reflexivity); try lia).
Qed.

Lemma zb_bz b : zb (bz b) = b.
Proof.
  unfold zb, bz. pose proof (Byte.to_N_bounded b).
  rewrite Z.mod_small by lia. by rewrite N2Z.id, Byte.of_to_N.
Qed.

Lemma ly_hex2bin_bin2hex l s : ly_hex2bin (ly_bin2hex l +:+ s) (length l) = Some l.
Proof.
  induction l as [|b l IH]; [by destruct s|]. cbn [ly_bin2hex length]. rewrite !sapp_cons. cbn [ly_hex2bin].
  pose proof (bz_range b). rewrite !ly_hexval_digit, IH by lia.
  replace (16 * (bz b / 16) + bz b mod 16) with (bz b) by lia. by rewrite zb_bz.
Qed.

Lemma ly_bin2hex_len l : Z.of_nat (String.length (ly_bin2hex l)) = 2 * zlen l.
Proof. induction l as [|b l IH]; [done|]. unfold zlen in *. cbn [ly_bin2hex String.length length]. lia. Qed.

Lemma ly_hex2bin_len n : ∀ s l, ly_hex2bin s n = Some l → length l = n.
Proof.
  induction n as [|n IH]; intros s l.
  { intros Hs. destruct s; cbn in Hs; by injection Hs as <-. }
  destruct s as [|a [|b s]]; try done. cbn [ly_hex2bin].
  intros Hs. destruct (hexval a); [|done]. destruct (hexval b); [|done].
  destruct (ly_hex2bin s n) eqn:E; [|done]. injection Hs as <-. cbn. f_equal. by eapply IH.
Qed.

#[export] Instance layers_laws : UnderLaws layers.
Proof.
  split; cbn -[zb].
  - intros w d n sz r b. unfold ly_getxattr. destruct (_ !! _) as [v|]; [|intros [= <- <-]; done].
    pose proof (zlen_nonneg v). destruct (Z.eqb_spec sz 0); [lia|]. destruct (Z.ltb_spec sz (zlen v)); intros [= <- <-]; [done|lia].
  - intros w d n. unfold ly_getxattr. destruct (_ !! _) as [v|]; [|done]. cbn. intros _. exists v.
    split; [done|]. intros sz ? ?. destruct (Z.eqb_spec sz 0); [lia|]. by destruct (Z.ltb_spec sz (zlen v)); [lia|].
  - intros w d n v fl w' [= <-]. unfold ly_getxattr. cbn. rewrite lookup_insert_eq. split; [done|].
    intros sz ? ?. destruct (Z.eqb_spec sz 0); [lia|]. by destruct (Z.ltb_spec sz (zlen v)); [lia|].
  - done.
  - done.
  - intros w n. apply Z.leb_le.
  - done.
  - intros w d m t dw b. destruct (Z.leb_spec 1 m); intros [= <- <- <-] ?; [|unfold zlen; cbn; lia].
    split_and!; [done| |done]. rewrite zlen_ztake by lia. unfold zlen. cbn [length]. rewrite length_replicate. lia.
  - intros w m fid n t acc. by repeat case_match.
  - intros w m fid n t acc d. repeat case_match; try done. intros [= ->].
    apply andb_true_iff in H0 as [Hd _]. by apply bool_decide_eq_true in Hd.
  - intros w n d. by repeat case_match.
  - done.
  - apply ly_bin2hex_len.
  - intros [|b l] c s; [done|]. cbn [ly_bin2hex]. intros [= <- _].
    pose proof (bz_range b). assert (hexval (hexdigit (bz b / 16)) = Some (bz b / 16)) as E
      by (apply ly_hexval_digit; lia).
    intros Ec. by rewrite Ec in E.
  - intros b s. unfold zlen. rewrite Nat2Z.id. apply ly_hex2bin_bin2hex.
  - intros s n b Hb ?. apply ly_hex2bin_len in Hb. unfold zlen. lia.
Qed.

Lemma Z_to_int_print z :
  DecimalString.NilZero.int_of_string (DecimalString.NilZero.string_of_int (Z.to_int z))
  = Some (Z.to_int z).
Proof.
  apply DecimalString.NilZero.isi; destruct z; cbn; try done;
    intros [= Hn]; by apply DecimalPos.Unsigned.to_uint_nonnil in Hn.
Qed.

Lemma print_int_strip z :
  (match print_int z with String "+"%char s => s | s => s end)
  = DecimalString.NilZero.string_of_int (Z.to_int z).
Proof.
  unfold print_int. case_bool_decide; [done|]. rewrite sapp_nil.
  by destruct z; [lia|lia|].
Qed.

#[export] Instance layers_int : IntLaws layers.
Proof.
  intros z Hz. change (ly_kstrtoint (print_int z) = inr z).
  unfold ly_kstrtoint.
  replace (match print_int z with String "+"%char s => s | _ => print_int z end)
    with (DecimalString.NilZero.string_of_int (Z.to_int z))
    by (rewrite <- (print_int_strip z); destruct (print_int z) as [|[[] [] [] [] [] [] [] []] ?]; done).
  cbv zeta. rewrite Z_to_int_print, DecimalZ.of_to. by rewrite bool_decide_true.
Qed.
