(* ===== verification/Nlink.v ===== *)
(** inode.c and util.c: the persistent link count of indexed hard links.
    [ovl_set_nlink_upper]/[ovl_set_nlink_lower] store the union link count of
    the overlay inode relative to a real inode ("U+1", "L-2") and
    [ovl_get_nlink] computes it back. *)

From S2P Require Import Prelude Types Under.
From Stdlib Require DecimalPos.
From Stdlib Require Import Ascii.
Local Open Scope Z_scope.

(** The conversion to [int]. *)
Definition s32 (z : Z) : Z := (z + 2 ^ 31) mod 2 ^ 32 - 2 ^ 31.

Lemma s32_small z : - 2 ^ 31 ≤ z < 2 ^ 31 → s32 z = z.
Proof. unfold s32. intros. rewrite Z.mod_small by lia. lia. Qed.

Lemma s32_range z : - 2 ^ 31 ≤ s32 z < 2 ^ 31.
Proof. unfold s32. lia. Qed.

(** C strings and the bytes that hold them. *)
Definition bytes_of (s : string) : list byte := String.list_byte_of_string s.
Definition string_of (b : list byte) : string := String.string_of_list_byte b.

(** A buffer read as a C string: up to the first NUL. *)
Fixpoint cstr (s : string) : string :=
  match s with
  | EmptyString => EmptyString
  | String c s => if bool_decide (c = NUL) then EmptyString else String c (cstr s)
  end.

Lemma cstr_no_nul s : no_nul (cstr s).
Proof. induction s as [|c s IH]; [done|]. cbn. case_bool_decide; [done|]. by split. Qed.

Lemma cstr_id s : no_nul s → cstr s = s.
Proof.
  induction s as [|c s IH]; [done|]. cbn. intros [Hc Hs].
  rewrite bool_decide_false by done. by rewrite IH.
Qed.

Lemma string_of_bytes_of s : string_of (bytes_of s) = s.
Proof. apply String.string_of_list_byte_of_string. Qed.

Lemma zlen_bytes_of s : zlen (bytes_of s) = Z.of_nat (String.length s).
Proof.
  unfold zlen, bytes_of. f_equal. induction s as [|c s IH]; [done|]. cbn. by rewrite <- IH.
Qed.

Section nlink.
Context {W : Type} `{Under W}.
Implicit Types (w : W).

Definition NLINK_BUF : Z := 13.

(** ovl_set_nlink_common: [i_nlink] of the overlay inode, its upper dentry,
    the real inode and the letter of the format *)
Definition ovl_set_nlink_common w (upper : dentry) (nlink : Z) (realinode : inode) (letter : string)
    : Z * W :=
  let s := letter +:+ print_int (s32 (u32 (nlink - i_nlink realinode))) in
  let len := Z.of_nat (String.length s) in
  if NLINK_BUF <=? len then (- EIO, w)
  else vfs_setxattr w upper OVL_XATTR_NLINK (ztake len (bytes_of s)) 0.

Definition ovl_set_nlink_upper w (upper : dentry) (nlink : Z) : outcome (Z * W) :=
  match d_inode upper with
  | None => Fault
  | Some ui => Ret (ovl_set_nlink_common w upper nlink ui "U")
  end.

Definition ovl_set_nlink_lower w (upper lower : dentry) (nlink : Z) : outcome (Z * W) :=
  match d_inode lower with
  | None => Fault
  | Some li => Ret (ovl_set_nlink_common w upper nlink li "L")
  end.

(** ovl_get_nlink.  The buffer has 13 bytes; [buf[err]] is made NUL. *)
Definition ovl_get_nlink w (lowerdentry upperdentry : option dentry) (fallback : Z) : outcome Z :=
  match lowerdentry, upperdentry with
  | Some lower, Some upper =>
      match d_inode lower with
      | None => Fault
      | Some li =>
          if i_nlink li =? 1 then Ret fallback else
          let '(err, b) := vfs_getxattr w upper OVL_XATTR_NLINK (NLINK_BUF - 1) in
          if err <? 0 then Ret fallback else
          let buf := string_of (ztake err b) in
          match cstr buf with
          | String c0 (String c1 s1) =>
              if negb (Ascii.eqb c0 "L"%char || Ascii.eqb c0 "U"%char) || negb (Ascii.eqb c1 "+"%char || Ascii.eqb c1 "-"%char)
              then Ret fallback else
              match kstrtoint (String c1 s1) with
              | inl _ => Ret fallback
              | inr nlink_diff =>
                  match d_inode upper with
                  | None => Fault
                  | Some ui =>
                      let nlink := s32 (i_nlink (if Ascii.eqb c0 "L"%char then li else ui)) in
                      let nlink := s32 (nlink + nlink_diff) in
                      if nlink <=? 0 then Ret fallback else Ret (u32 nlink)
                  end
              end
          | _ => Ret fallback
          end
      end
  | _, _ => Ret fallback
  end.

End nlink.

(** ** The printed number fits *)

Lemma of_uint_acc_ge (d : Decimal.uint) : ∀ acc : positive,
  Z.pos acc * 10 ^ Z.of_nat (Decimal.nb_digits d) ≤ Z.pos (Pos.of_uint_acc d acc).
Proof.
  induction d as [|d IH|d IH|d IH|d IH|d IH|d IH|d IH|d IH|d IH|d IH];
    intros acc; cbn [Decimal.nb_digits Pos.of_uint_acc]; [lia|..];
    rewrite Nat2Z.inj_succ, Z.pow_succ_r by lia;
    (etrans; [|apply IH]);
    rewrite Z.mul_assoc; apply Z.mul_le_mono_nonneg_r; try apply Z.pow_nonneg; lia.
Qed.

Lemma to_uint_digits p :
  ∃ c d, Pos.to_uint p = c d ∧ (∀ d', Decimal.nb_digits (c d') = S (Decimal.nb_digits d')) ∧
    10 ^ Z.of_nat (Decimal.nb_digits d) ≤ Z.pos p.
Proof.
  pose proof (DecimalPos.Unsigned.of_to p) as Ho.
  destruct (Pos.to_uint p) as [|d|d|d|d|d|d|d|d|d|d] eqn:E; [done| |..].
  { (* no leading zero *)
    exfalso. pose proof (DecimalPos.Unsigned.to_of (Pos.to_uint p)) as Hn.
    rewrite E in Hn. rewrite Ho in Hn. cbn in Hn. rewrite E in Hn.
    pose proof (DecimalPos.Unsigned.to_uint_nonzero p) as Hz. rewrite E in Hz.
    unfold Decimal.unorm in Hn. cbn [Decimal.nzhead] in Hn.
    destruct (Decimal.nzhead d) as [| | | | | | | | | |] eqn:Hh; try congruence.
    by apply DecimalFacts.nzhead_nonzero in Hh. }
  all: eexists _, d; split; [reflexivity|split; [done|]];
    cbn in Ho; injection Ho as Ho; rewrite <- Ho; etrans; [|apply of_uint_acc_ge];
    rewrite <- (Z.mul_1_l (10 ^ _)) at 1; apply Z.mul_le_mono_nonneg_r; [apply Z.pow_nonneg; lia|lia].
Qed.

Lemma string_of_uint_length d :
  String.length (DecimalString.NilEmpty.string_of_uint d) = Decimal.nb_digits d.
Proof. induction d; cbn; auto. Qed.

Lemma print_pos_length p :
  Z.pos p < 10 ^ 10 →
  Z.of_nat (String.length (DecimalString.NilZero.string_of_uint (Pos.to_uint p))) ≤ 10.
Proof.
  intros Hp. destruct (to_uint_digits p) as (c & d & Ec & Hc & Hd).
  assert (String.length (DecimalString.NilZero.string_of_uint (Pos.to_uint p))
          = Decimal.nb_digits (Pos.to_uint p)) as ->.
  { pose proof (DecimalPos.Unsigned.to_uint_nonnil p).
    rewrite <- string_of_uint_length. by destruct (Pos.to_uint p). }
  rewrite Ec, Hc, Nat2Z.inj_succ.
  enough (Z.of_nat (Decimal.nb_digits d) < 10) by lia.
  apply (Z.pow_lt_mono_r_iff 10); lia.
Qed.

Lemma print_int_length z :
  - 2 ^ 31 ≤ z < 2 ^ 31 → Z.of_nat (String.length (print_int z)) ≤ 11.
Proof.
  intros Hz. unfold print_int. rewrite slen_app.
  destruct z as [|p|p]; [done|..]; cbn [Z.to_int].
  - rewrite bool_decide_true by lia. cbn [DecimalString.NilZero.string_of_int String.length].
    pose proof (print_pos_length p ltac:(lia)). lia.
  - rewrite bool_decide_false by lia. cbn [DecimalString.NilZero.string_of_int String.length].
    pose proof (print_pos_length p ltac:(lia)). lia.
Qed.

Lemma no_nul_app s t : no_nul s → no_nul t → no_nul (s +:+ t).
Proof. induction s as [|c s IH]; [done|]. rewrite sapp_cons. cbn. naive_solver. Qed.

Lemma no_nul_uint d : no_nul (DecimalString.NilEmpty.string_of_uint d).
Proof. induction d; cbn; by repeat split. Qed.

(** [+] or [-], then digits. *)
Lemma print_int_shape z :
  ∃ c s, print_int z = String c s ∧ (Ascii.eqb c "+"%char || Ascii.eqb c "-"%char = true) ∧
    no_nul (print_int z).
Proof.
  assert (∀ d, no_nul (DecimalString.NilZero.string_of_uint d)) as Hd
    by (intros d; destruct d; try apply no_nul_uint; by repeat split).
  unfold print_int. destruct z as [|p|p]; cbn [Z.to_int].
  - by eexists _, _.
  - rewrite bool_decide_true by lia. eexists _, _. split; [done|]. split; [done|].
    apply no_nul_app; [by repeat split|]. apply Hd.
  - rewrite bool_decide_false by lia. eexists _, _. split; [done|]. split; [done|].
    rewrite sapp_nil. cbn. split; [done|]. apply Hd.
Qed.

Section nlink_props.
Context {W : Type} `{UnderLaws W, !IntLaws W}.
Implicit Types (w : W).

(** Every stored value fits the 13-byte buffer of the code. *)
Lemma ovl_set_nlink_common_eq w upper nlink ri c :
  ovl_set_nlink_common w upper nlink ri (String c "") =
  vfs_setxattr w upper OVL_XATTR_NLINK
    (bytes_of (String c (print_int (s32 (u32 (nlink - i_nlink ri)))))) 0.
Proof.
  unfold ovl_set_nlink_common. rewrite sapp_cons, sapp_nil.
  set (s := String c _).
  assert (Z.of_nat (String.length s) < 13).
  { subst s. cbn [String.length]. pose proof (print_int_length _ (s32_range (u32 (nlink - i_nlink ri)))). lia. }
  unfold NLINK_BUF. destruct (Z.leb_spec 13 (Z.of_nat (String.length s))); [lia|].
  f_equal. rewrite <- zlen_bytes_of. unfold ztake, zlen. rewrite Nat2Z.id. by apply firstn_all.
Qed.

Lemma ovl_get_nlink_stored w lower upper li ui c diff fallback :
  d_inode lower = Some li → d_inode upper = Some ui → i_nlink li ≠ 1 →
  (Ascii.eqb c "L"%char || Ascii.eqb c "U"%char = true) →
  - 2 ^ 31 ≤ diff < 2 ^ 31 →
  vfs_getxattr w upper OVL_XATTR_NLINK 12 =
    (zlen (bytes_of (String c (print_int diff))), bytes_of (String c (print_int diff))) →
  ovl_get_nlink w (Some lower) (Some upper) fallback =
    let nlink := s32 (s32 (i_nlink (if Ascii.eqb c "L"%char then li else ui)) + diff) in
    Ret (if nlink <=? 0 then fallback else u32 nlink).
Proof.
  intros Hl Hu Hn Hc Hd Hx. unfold ovl_get_nlink. rewrite Hl.
  destruct (Z.eqb_spec (i_nlink li) 1); [done|].
  change (NLINK_BUF - 1) with 12. rewrite Hx.
  destruct (Z.ltb_spec (zlen (bytes_of (String c (print_int diff)))) 0) as [Hb|_].
  { pose proof (zlen_nonneg (bytes_of (String c (print_int diff)))). lia. }
  replace (ztake _ _) with (bytes_of (String c (print_int diff)))
    by (unfold ztake, zlen; rewrite Nat2Z.id; by rewrite firstn_all).
  rewrite string_of_bytes_of.
  destruct (print_int_shape diff) as (c1 & s1 & E & Hc1 & Hnn).
  rewrite cstr_id by (cbn; split; [by destruct c as [[] [] [] [] [] [] [] []]|done]).
  rewrite E at 1. rewrite Hc, Hc1. cbn [negb orb]. rewrite <- E.
  rewrite law_kstrtoint by done. rewrite Hu. cbv zeta. by destruct (Z.leb_spec (s32 (s32 (i_nlink (if Ascii.eqb c "L"%char then li else ui)) + diff)) 0).
Qed.

(** C39: The persistent link count: what [ovl_set_nlink_upper] stored before
    the upper inode's link count changed from [u] to [u'], and what
    [ovl_set_nlink_lower] stored before a copy-up, is read back by
    [ovl_get_nlink] as the union link count moved by the change of the inode
    it is relative to; the value always fits the on-stack buffer. *)
Theorem nlink_roundtrip w w' lower upper upper' li ui ui' n fallback (rel_upper : bool) :
  d_inode lower = Some li → d_inode upper = Some ui → d_inode upper' = Some ui' →
  (∀ v, vfs_getxattr v upper' = vfs_getxattr v upper) →
  i_nlink li ≠ 1 →
  0 < i_nlink li < 2 ^ 31 → 0 ≤ i_nlink ui < 2 ^ 31 → 0 ≤ i_nlink ui' < 2 ^ 31 → 0 ≤ n < 2 ^ 31 →
  (if rel_upper then ovl_set_nlink_upper w upper n else ovl_set_nlink_lower w upper lower n)
    = Ret (0, w') →
  let union := if rel_upper then n + (i_nlink ui' - i_nlink ui) else n in
  0 < union < 2 ^ 31 →
  ovl_get_nlink w' (Some lower) (Some upper') fallback = Ret union.
Proof.
  intros Hl Hu Hu' Hx Hn1 Hli Hui Hui' Hn Hset union Hun.
  set (ri := if rel_upper then ui else li).
  set (c := if rel_upper then "U"%char else "L"%char).
  assert (ovl_set_nlink_common w upper n ri (String c "") = (0, w')) as Hs.
  { unfold ovl_set_nlink_upper, ovl_set_nlink_lower in Hset. rewrite Hu, Hl in Hset.
    subst ri c. destruct rel_upper; by injection Hset. }
  rewrite ovl_set_nlink_common_eq in Hs.
  assert (s32 (u32 (n - i_nlink ri)) = n - i_nlink ri) as Ed
    by (subst ri; unfold s32, u32; destruct rel_upper; lia).
  rewrite Ed in Hs. apply law_setxattr_get in Hs as [_ Hg].
  erewrite (ovl_get_nlink_stored w' lower upper' li ui' c (n - i_nlink ri)); try done.
  - cbv zeta. unfold union, ri, c in *. unfold s32, u32. clear -Hli Hui Hui' Hn Hun.
    destruct rel_upper; cbn [Ascii.eqb Bool.eqb];
      match goal with |- Ret (if ?b then _ else _) = _ => destruct b eqn:Eb end;
      first [apply Z.leb_le in Eb; lia | f_equal; lia].
  - subst c. by destruct rel_upper.
  - subst ri. destruct rel_upper; lia.
  - rewrite Hx. apply Hg; [lia|].
    rewrite zlen_bytes_of. cbn [String.length].
    pose proof (print_int_length (n - i_nlink ri) ltac:(subst ri; destruct rel_upper; lia)). lia.
Qed.

End nlink_props.

(** A hard link whose union count is 3 over an upper inode with 1 link that
    gains one. *)
Lemma nlink_roundtrip_witness :
  let i n := Inode 70 1 5 n 0 0 (IAttrs 0 0 S_IFREG 0 0 0 0) in
  let upper n := Dentry 7 "f" 0 (Some (i n)) in
  let lower := Dentry 8 "f" 0 (Some (i 2)) in
  let w := Layers ∅ ∅ [] (λ _, x00) in
  let w' := (vfs_setxattr w (upper 1) OVL_XATTR_NLINK (bytes_of "U+2") 0).2 in
  ovl_set_nlink_upper w (upper 1) 3 = Ret (0, w') ∧
  ovl_get_nlink w' (Some lower) (Some (upper 2)) 9 = Ret 4.
Proof.
  intros i upper lower w w'. assert (ovl_set_nlink_upper w (upper 1) 3 = Ret (0, w')) as Hs by reflexivity.
  split; [exact Hs|].
  exact (nlink_roundtrip w w' lower (upper 1) (upper 2) (i 2) (i 1) (i 2) 3 9 true
    eq_refl eq_refl eq_refl (λ _, eq_refl) ltac:(cbn; lia) ltac:(cbn; lia) ltac:(cbn; lia)
    ltac:(cbn; lia) ltac:(lia) Hs ltac:(cbn; lia)).
Defined.
