(* ===== verification/Fh.v ===== *)
(** namei.c and copy_up.c: overlay file handles.  A handle is the packed
    [struct ovl_fh] as it lies in memory and in xattrs: a 5 byte header, the
    filesystem's uuid and the file identifier of the underlying filesystem.
    The operations encode, check, store, compare and decode handles and name
    the entries of the index directory after them. *)

From Stdlib Require Import Ascii.
From S2P Require Import Prelude Types Util Under Nlink.
Local Open Scope Z_scope.

(** ** overlayfs.h: struct ovl_fh *)

Definition OVL_FH_VERSION : Z := 0.
Definition OVL_FH_MAGIC : Z := 251.
Definition OVL_FH_FLAG_BIG_ENDIAN : Z := Z.shiftl 1 0.
Definition OVL_FH_FLAG_ANY_ENDIAN : Z := Z.shiftl 1 1.
Definition OVL_FH_FLAG_PATH_UPPER : Z := Z.shiftl 1 2.
Definition OVL_FH_FLAG_ALL : Z :=
  Z.lor OVL_FH_FLAG_BIG_ENDIAN (Z.lor OVL_FH_FLAG_ANY_ENDIAN OVL_FH_FLAG_PATH_UPPER).
(** a little-endian machine *)
Definition OVL_FH_FLAG_CPU_ENDIAN : Z := 0.

(** sizeof(struct ovl_fh), which is offsetof(struct ovl_fh, fid) *)
Definition FH_HDR : Z := 21.
Definition fh_version (fh : list byte) : outcome Z := membyte fh 0.
Definition fh_magic (fh : list byte) : outcome Z := membyte fh 1.
Definition fh_len (fh : list byte) : outcome Z := membyte fh 2.
Definition fh_flags (fh : list byte) : outcome Z := membyte fh 3.
Definition fh_type (fh : list byte) : outcome Z := membyte fh 4.
Definition fh_uuid (fh : list byte) : outcome (list byte) := memread fh 5 16.

(** uapi: MAX_HANDLE_SZ, FILEID_INVALID *)
Definition MAX_HANDLE_SZ : Z := 128.
Definition FILEID_INVALID : Z := 255.

(** ovl_check_fh_len *)
Definition ovl_check_fh_len (fh : list byte) (buflen : Z) : outcome Z :=
  if buflen <? FH_HDR then Ret (- EINVAL) else
  len ← fh_len fh;
  if buflen <? len then Ret (- EINVAL) else
  magic ← fh_magic fh;
  if negb (magic =? OVL_FH_MAGIC) then Ret (- EINVAL) else
  version ← fh_version fh;
  flags ← fh_flags fh;
  if (OVL_FH_VERSION <? version) || negb (Z.land flags (Z.lnot OVL_FH_FLAG_ALL) =? 0)
  then Ret (- ENODATA) else
  if (Z.land flags OVL_FH_FLAG_ANY_ENDIAN =? 0) &&
     negb (Z.land flags OVL_FH_FLAG_BIG_ENDIAN =? OVL_FH_FLAG_CPU_ENDIAN)
  then Ret (- ENODATA) else
  Ret 0.

Section fh.
Context {W : Type} `{Under W}.
Implicit Types (w : W) (fh : list byte).

(** ovl_get_fh: the buffer is zeroed and as long as the attribute was *)
Definition ovl_get_fh w (d : dentry) (name : string) : outcome (eptr (list byte)) :=
  let '(res, _) := vfs_getxattr w d name 0 in
  if res <? 0 then
    (if (res =? - ENODATA) || (res =? - EOPNOTSUPP) then Ret PNull else Ret PNull)
  else if res =? 0 then Ret PNull
  else if negb (kmalloc_ok w res) then Ret (PErr (- ENOMEM))
  else
    let '(res', b) := vfs_getxattr w d name res in
    if res' <? 0 then Ret PNull else
    let fh := b ++ replicate (Z.to_nat (res - zlen b)) x00 in
    err ← ovl_check_fh_len fh res';
    if err <? 0 then
      (if err =? - ENODATA then Ret PNull else Ret PNull)
    else Ret (PPtr fh).

(** ovl_encode_real_fh *)
Definition ovl_encode_real_fh w (real : dentry) (is_upper : bool) : outcome (eptr (list byte)) :=
  if negb (kmalloc_ok w MAX_HANDLE_SZ) then Ret (PErr (- ENOMEM)) else
  let '(ty, dwords, buf) := exportfs_encode_fh w real (Z.shiftr MAX_HANDLE_SZ 2) in
  let buflen := Z.shiftl dwords 2 in
  if (ty <? 0) || (MAX_HANDLE_SZ <? buflen) || (ty =? FILEID_INVALID) then Ret (PErr (- EIO))
  else
    let len := FH_HDR + buflen in
    if negb (kmalloc_ok w len) then Ret (PErr (- ENOMEM)) else
    let flags := OVL_FH_FLAG_CPU_ENDIAN in
    let flags := if is_upper then Z.lor flags OVL_FH_FLAG_PATH_UPPER else flags in
    fid ← memread buf 0 buflen;
    Ret (PPtr ([zb OVL_FH_VERSION; zb OVL_FH_MAGIC; zb len; zb flags; zb ty]
               ++ s_uuid (d_sb real) ++ fid)).

(** ovl_acceptable *)
Definition ovl_acceptable w (mnt : Z) (d : dentry) : bool :=
  if negb (d_is_dir d) then true
  else if d_unhashed w d then false
  else is_subdir w d (mnt_root mnt).

(** ovl_decode_real_fh *)
Definition ovl_decode_real_fh w fh (mnt : Z) (connected : bool) : outcome (eptr dentry) :=
  uuid ← fh_uuid fh;
  if negb (bool_decide (uuid = s_uuid (mnt_sb mnt))) then Ret PNull else
  len ← fh_len fh;
  type ← fh_type fh;
  let bytes := len - FH_HDR in
  match exportfs_decode_fh w mnt (zdrop FH_HDR fh) (Z.shiftr bytes 2) type
          (if connected then Some (ovl_acceptable w mnt) else None) with
  | PErr e =>
      flags ← fh_flags fh;
      if (e =? - ESTALE) && (Z.land flags OVL_FH_FLAG_PATH_UPPER =? 0)
      then Ret PNull else Ret (PErr e)
  | PNull => Fault
  | PPtr real => if ovl_dentry_weird real then Ret PNull else Ret (PPtr real)
  end.

(** ovl_verify_fh *)
Definition ovl_verify_fh w (d : dentry) (name : string) fh : outcome Z :=
  ofh ← ovl_get_fh w d name;
  match ofh with
  | PNull => Ret (- ENODATA)
  | PErr e => Ret e
  | PPtr ofh =>
      len ← fh_len fh;
      olen ← fh_len ofh;
      if negb (len =? olen) then Ret (- ESTALE) else
      a ← memread fh 0 len;
      b ← memread ofh 0 len;
      if bool_decide (a = b) then Ret 0 else Ret (- ESTALE)
  end.

(** ovl_verify_set_fh *)
Definition ovl_verify_set_fh w (d : dentry) (name : string) (real : dentry) (is_upper set : bool)
    : outcome (Z * W) :=
  fh ← ovl_encode_real_fh w real is_upper;
  match fh with
  | PErr e => Ret (e, w)
  | PNull => Fault
  | PPtr fh =>
      err ← ovl_verify_fh w d name fh;
      if set && (err =? - ENODATA) then
        len ← fh_len fh;
        v ← memread fh 0 len;
        Ret (vfs_setxattr w d name v 0)
      else Ret (err, w)
  end.

(** overlayfs.h: ovl_verify_origin and ovl_verify_upper *)
Definition ovl_verify_origin w (upper origin : dentry) (set : bool) : outcome (Z * W) :=
  ovl_verify_set_fh w upper OVL_XATTR_ORIGIN origin false set.
Definition ovl_verify_upper w (index upper : dentry) (set : bool) : outcome (Z * W) :=
  ovl_verify_set_fh w index OVL_XATTR_UPPER upper true set.

(** ovl_set_origin, with the lower super block's export operations; a write
    of a null handle when there are none *)
Definition ovl_check_setxattr w (ofs : ovl_fs) (upper : dentry) (name : string) (value : list byte)
    (xerr : Z) : Z * ovl_fs * W :=
  if fs_noxattr ofs then (xerr, ofs, w) else
  let '(err, w) := vfs_setxattr w upper name value 0 in
  if err =? - EOPNOTSUPP then
    (xerr, OvlFs (fs_upper_mnt ofs) (fs_upper_sb ofs) (fs_lower_fs ofs) (fs_lower_layers ofs)
             (fs_namelen ofs) (fs_indexdir ofs) (fs_workdir ofs) (fs_config ofs) true
             (fs_tmpfile ofs) (fs_xino_bits ofs), w)
  else (err, ofs, w).

Definition ovl_set_origin w (ofs : ovl_fs) (s_export_op : option (bool * bool)) (lower upper : dentry)
    : outcome (Z * ovl_fs * W) :=
  fh ← (if negb (ovl_can_decode_fh s_export_op =? 0) then ovl_encode_real_fh w lower false
        else Ret PNull);
  match fh with
  | PErr e => Ret (e, ofs, w)
  | PNull => Ret (ovl_check_setxattr w ofs upper OVL_XATTR_ORIGIN [] 0)
  | PPtr fh =>
      len ← fh_len fh;
      v ← memread fh 0 len;
      Ret (ovl_check_setxattr w ofs upper OVL_XATTR_ORIGIN v 0)
  end.

(** ovl_set_upper_fh *)
Definition ovl_set_upper_fh w (upper index : dentry) : outcome (Z * W) :=
  fh ← ovl_encode_real_fh w upper true;
  match fh with
  | PErr e => Ret (e, w)
  | PNull => Fault
  | PPtr fh =>
      len ← fh_len fh;
      v ← memread fh 0 len;
      Ret (vfs_setxattr w index OVL_XATTR_UPPER v 0)
  end.

(** ovl_check_origin_fh: the first layer whose filesystem decodes the handle *)
Fixpoint decode_layers w fh (connected : bool) (layers : list ovl_layer)
    : outcome (option (eptr dentry * ovl_layer)) :=
  match layers with
  | [] => Ret None
  | l :: ls =>
      origin ← ovl_decode_real_fh w fh (l_mnt l) connected;
      match origin with
      | PNull => decode_layers w fh connected ls
      | o => Ret (Some (o, l))
      end
  end.

(** [have] says that [*stackp] is not NULL on entry *)
Definition ovl_check_origin_fh w (ofs : ovl_fs) fh (connected : bool) (upper : option dentry)
    (have : bool) : outcome (Z + ovl_path) :=
  origin ← decode_layers w fh connected (fs_lower_layers ofs);
  match origin with
  | None | Some (PNull, _) => Ret (inl (- ESTALE))
  | Some (PErr e, _) => Ret (inl e)
  | Some (PPtr origin, layer) =>
      invalid ← match upper with
        | Some u =>
            if ovl_is_whiteout u then Ret false else
            match d_inode origin, d_inode u with
            | Some oi, Some ui =>
                Ret (negb (Z.land (Z.lxor (i_mode oi) (i_mode ui)) S_IFMT =? 0))
            | _, _ => Fault
            end
        | None => Ret false
        end;
      if (invalid : bool) then Ret (inl (- EIO))
      else if negb have && negb (kmalloc_ok w 16) then Ret (inl (- ENOMEM))
      else Ret (inr (OvlPath layer origin))
  end.

(** ovl_check_origin: result, [*stackp], [*ctrp] *)
Definition ovl_check_origin w (ofs : ovl_fs) (upper : dentry) (stackp : option ovl_path) (ctr : Z)
    : outcome (Z * option ovl_path * Z) :=
  fh ← ovl_get_fh w upper OVL_XATTR_ORIGIN;
  match fh with
  | PNull => Ret (0, stackp, ctr)
  | PErr e => Ret (e, stackp, ctr)
  | PPtr fh =>
      r ← ovl_check_origin_fh w ofs fh false (Some upper) (bool_decide (is_Some stackp));
      match r with
      | inl err => if err =? - ESTALE then Ret (0, stackp, ctr) else Ret (err, stackp, ctr)
      | inr p => if negb (ctr =? 0) then Ret (- EIO, Some p, ctr) else Ret (0, Some p, 1)
      end
  end.

(** ** The index directory *)

(** ovl_index_upper *)
Definition ovl_index_upper w (ofs : ovl_fs) (index : dentry) : outcome (eptr dentry) :=
  if negb (d_is_dir index) then Ret (PPtr index) else
  fh ← ovl_get_fh w index OVL_XATTR_UPPER;
  match fh with
  | PNull => Ret PNull
  | PErr e => Ret (PErr e)
  | PPtr fh =>
      upper ← ovl_decode_real_fh w fh (fs_upper_mnt ofs) true;
      match upper with
      | PNull => Ret (PErr (- ESTALE))
      | PErr e => Ret (PErr e)
      | PPtr upper => if negb (d_is_dir upper) then Ret (PErr (- EIO)) else Ret (PPtr upper)
      end
  end.

Definition ovl_is_temp_index (index : dentry) : bool :=
  match d_name index with String c _ => Ascii.eqb c "#"%char | EmptyString => false end.

(** ovl_verify_index *)
Definition ovl_verify_index w (ofs : ovl_fs) (index : dentry) : outcome Z :=
  match d_inode index with
  | None => Ret 0
  | Some ii =>
      if ovl_is_temp_index index then Ret (- ESTALE) else
      let nlen := Z.of_nat (String.length (d_name index)) in
      if nlen <? FH_HDR * 2 then Ret (- EINVAL) else
      let len := nlen / 2 in
      if negb (kmalloc_ok w len) then Ret (- ENOMEM) else
      match hex2bin (d_name index) len with
      | None => Ret (- EINVAL)
      | Some fh =>
          err ← ovl_check_fh_len fh len;
          if negb (err =? 0) then Ret err
          else if ovl_is_whiteout index then Ret err
          else if d_is_dir index && negb (c_nfs_export (fs_config ofs)) then Ret err
          else
            upper ← ovl_index_upper w ofs index;
            match upper with
            | PErr e => if e =? - ESTALE then Ret (- ENOENT) else Ret e
            | PNull => Ret (- ESTALE)
            | PPtr upper =>
                err ← ovl_verify_fh w upper OVL_XATTR_ORIGIN fh;
                if negb (err =? 0) then Ret err
                else if negb (d_is_dir index) && (i_nlink ii =? 1) then
                  r ← ovl_check_origin_fh w ofs fh false (Some index) true;
                  match r with
                  | inl err => Ret err
                  | inr origin =>
                      n ← ovl_get_nlink w (Some (op_dentry origin)) (Some index) 0;
                      if n =? 0 then Ret (- ENOENT) else Ret 0
                  end
                else Ret 0
            end
      end
  end.

(** ovl_get_index_name_fh and ovl_get_index_name: an errno or the name *)
Definition ovl_get_index_name_fh w fh : outcome (Z + string) :=
  len ← fh_len fh;
  if negb (kmalloc_ok w (len * 2)) then Ret (inl (- ENOMEM)) else
  b ← memread fh 0 len;
  Ret (inr (bin2hex b)).

Definition ovl_get_index_name w (origin : dentry) : outcome (Z + string) :=
  fh ← ovl_encode_real_fh w origin false;
  match fh with
  | PErr e => Ret (inl e)
  | PNull => Fault
  | PPtr fh => ovl_get_index_name_fh w fh
  end.

(** ovl_get_index_fh: [indexdir] is ofs->indexdir.  [ERR_PTR(0)] is NULL. *)
Definition ovl_get_index_fh w (indexdir : dentry) fh : outcome (eptr dentry) :=
  name ← ovl_get_index_name_fh w fh;
  match name with
  | inl err => Ret (PErr err)
  | inr name =>
      match lookup_one_len_unlocked w name indexdir with
      | PNull => Fault
      | PErr e => if e =? - ENOENT then Ret PNull else Ret (PErr e)
      | PPtr index =>
          if negb (bool_decide (is_Some (d_inode index))) then Ret PNull
          else if ovl_is_whiteout index then Ret (PErr (- ESTALE))
          else if ovl_dentry_weird index then Ret (PErr (- EIO))
          else Ret (PPtr index)
      end
  end.

(** ovl_lookup_index *)
Definition ovl_lookup_index w (indexdir : dentry) (upper : option dentry) (origin : dentry)
    (verify : bool) : outcome (eptr dentry) :=
  name ← ovl_get_index_name w origin;
  match name with
  | inl err => Ret (PErr err)
  | inr name =>
      match lookup_one_len_unlocked w name indexdir with
      | PNull => Fault
      | PErr e => if e =? - ENOENT then Ret PNull else Ret (PErr e)
      | PPtr index =>
          match d_inode index with
          | None => Ret PNull
          | Some inode =>
              if ovl_is_whiteout index && negb verify then Ret (PErr (- ESTALE)) else
              if ovl_dentry_weird index || ovl_is_whiteout index then Ret (PErr (- EIO)) else
              match d_inode origin with
              | None => Fault
              | Some oi =>
                  if negb (Z.land (Z.lxor (i_mode inode) (i_mode oi)) S_IFMT =? 0)
                  then Ret (PErr (- EIO))
                  else if d_is_dir origin && verify then
                    match upper with
                    | None => Ret (PErr (- EIO))
                    | Some upper =>
                        r ← ovl_verify_upper w index upper false;
                        if negb (fst r =? 0) then Ret (PErr (- EIO)) else Ret (PPtr index)
                    end
                  else
                    match upper with
                    | Some u =>
                        match d_inode u with
                        | None => Ret PNull
                        | Some ui => if negb (i_ptr ui =? i_ptr inode) then Ret PNull
                                     else Ret (PPtr index)
                        end
                    | None => Ret (PPtr index)
                    end
              end
          end
      end
  end.

(** ovl_path_next: [idx] 0 is the upper layer; the next index or -1.  [None]
    is the BUG_ON of an index outside the stack. *)
Definition ovl_path_next (ofs : ovl_fs) (idx : Z) (d : odentry) : option (Z * path) :=
  if idx <? 0 then None
  else if (idx =? 0) && bool_decide (is_Some (ovl_dentry_upper d)) then
    Some (if negb (numlower (od_entry d) =? 0) then 1 else -1, ovl_path_upper ofs d)
  else
    let idx := if idx =? 0 then 1 else idx in
    if numlower (od_entry d) <? idx then None
    else match lowerstack_at (od_entry d) (idx - 1) with
         | None => None
         | Some p => Some (if idx <? numlower (od_entry d) then idx + 1 else -1, path_of (Some p))
         end.

End fh.
