(* ===== verification/FhProps.v ===== *)
(** Properties of the file handles and of the index: the checks keep every
    later read of a handle inside its buffer, a stored handle verifies exactly
    against the object it was made from, and the index finds back the entries
    it named. *)

From Stdlib Require Import Ascii.
From S2P Require Import Prelude Types Util Under Nlink Fh.
Local Open Scope Z_scope.

Lemma membyte_ok l i : 0 ≤ i < zlen l → ∃ v, membyte l i = Ret v ∧ 0 ≤ v < 256.
Proof.
  intros [b Hb]%zget_is_Some. unfold membyte. rewrite Hb. exists (bz b).
  split; [done|apply bz_range].
Qed.

Lemma memread_ok {A} (l : list A) off n :
  0 ≤ off → 0 ≤ n → off + n ≤ zlen l → memread l off n = Ret (zslice l off n).
Proof. intros. unfold memread. by rewrite bool_decide_true. Qed.

Lemma memread_all {A} (l : list A) : memread l 0 (zlen l) = Ret l.
Proof.
  rewrite memread_ok by (pose proof (zlen_nonneg l); lia). f_equal.
  unfold zslice, zdrop, ztake, zlen. rewrite Nat2Z.id. by apply firstn_all.
Qed.

(** A handle whose header can be read and whose [len] bytes lie in its buffer. *)
Definition fh_ok (fh : list byte) : Prop :=
  FH_HDR ≤ zlen fh ∧ ∃ len, fh_len fh = Ret len ∧ 0 ≤ len ≤ zlen fh.

(** A handle that is valid and exactly as long as its buffer. *)
Definition fh_exact (fh : list byte) : Prop :=
  ovl_check_fh_len fh (zlen fh) = Ret 0 ∧ fh_len fh = Ret (zlen fh).

Lemma check_fh_len_ret fh n :
  n ≤ zlen fh →
  ∃ e, ovl_check_fh_len fh n = Ret e ∧ e ≤ 0 ∧
    (e = 0 → FH_HDR ≤ n ∧ ∃ len, fh_len fh = Ret len ∧ 0 ≤ len ≤ n).
Proof.
  intros Hn. unfold ovl_check_fh_len, fh_magic, fh_version, fh_flags, FH_HDR, EINVAL, ENODATA.
  assert (∀ P : Prop, ∃ e, @Ret Z (- 22) = Ret e ∧ e ≤ 0 ∧ (e = 0 → P)) as Hinval
    by (intros P; eexists; split_and!; [reflexivity|lia|lia]).
  assert (∀ P : Prop, ∃ e, @Ret Z (- 61) = Ret e ∧ e ≤ 0 ∧ (e = 0 → P)) as Hnodata
    by (intros P; eexists; split_and!; [reflexivity|lia|lia]).
  destruct (Z.ltb_spec n 21); [done|].
  unfold fh_len. destruct (membyte_ok fh 2) as (len & -> & Hl); [lia|]. cbn.
  destruct (Z.ltb_spec n len); [done|].
  destruct (membyte_ok fh 1) as (magic & -> & _); [lia|].
  destruct (membyte_ok fh 0) as (ver & -> & _); [lia|].
  destruct (membyte_ok fh 3) as (fl & -> & _); [lia|]. cbn.
  repeat case_match; try done.
  eexists; split_and!; [reflexivity|lia|]. intros _. split; [lia|]. exists len. split; [done|lia].
Qed.

Lemma fh_exact_ok fh : fh_exact fh → fh_ok fh.
Proof.
  intros [Hc Hl]. destruct (check_fh_len_ret fh (zlen fh)) as (e & E & _ & He); [lia|].
  rewrite Hc in E. injection E as <-. destruct He as [? (len & Hlen & ?)]; [done|].
  split; [done|]. by exists len.
Qed.

Lemma fh_ok_uuid fh : fh_ok fh → ∃ u, fh_uuid fh = Ret u.
Proof.
  intros [H21 _]. unfold fh_uuid, FH_HDR in *. rewrite memread_ok by lia. by eexists.
Qed.

Section fh_props.
Context {W : Type} `{UnderLaws W}.
Implicit Types (w : W) (fh : list byte).

(** The attribute [name] of [d] is [b]. *)
Definition stored w (d : dentry) (name : string) (b : list byte) : Prop :=
  (vfs_getxattr w d name 0).1 = zlen b ∧
  ∀ sz, 0 < sz → zlen b ≤ sz → vfs_getxattr w d name sz = (zlen b, b).

Lemma stored_fun w d name b b' : stored w d name b → stored w d name b' → b = b'.
Proof.
  intros [H1 G1] [H2 G2]. assert (zlen b = zlen b') as E by congruence.
  pose proof (zlen_nonneg b).
  specialize (G1 (zlen b + 1) ltac:(lia) ltac:(lia)).
  specialize (G2 (zlen b + 1) ltac:(lia) ltac:(lia)). congruence.
Qed.

(** ovl_get_fh in terms of the stored attribute. *)
Lemma get_fh_stored w d name b :
  stored w d name b → 0 < zlen b → kmalloc_ok w (zlen b) = true →
  ∃ e, ovl_check_fh_len b (zlen b) = Ret e ∧
    ovl_get_fh w d name = Ret (if e =? 0 then PPtr b else PNull).
Proof.
  intros [Hs Hg] Hb Hk. destruct (check_fh_len_ret b (zlen b)) as (e & E & He & _); [lia|].
  exists e. split; [done|]. unfold ovl_get_fh.
  destruct (vfs_getxattr w d name 0) as [r x]. cbn in Hs. subst r.
  destruct (Z.ltb_spec (zlen b) 0); [lia|]. destruct (Z.eqb_spec (zlen b) 0); [lia|].
  rewrite Hk. cbn [negb]. rewrite Hg by lia. destruct (Z.ltb_spec (zlen b) 0); [lia|].
  rewrite Z.sub_diag. cbn [Z.to_nat replicate]. rewrite app_nil_r, E. cbn.
  destruct (Z.ltb_spec e 0).
  - destruct (Z.eqb_spec e 0); [lia|]. by case_match.
  - by destruct (Z.eqb_spec e 0); [|lia].
Qed.

Lemma get_fh_ret w d name :
  ∃ r, ovl_get_fh w d name = Ret r ∧ (∀ e, r = PErr e → e = - ENOMEM) ∧
    ∀ fh, r = PPtr fh →
      stored w d name fh ∧ kmalloc_ok w (zlen fh) = true ∧
      ovl_check_fh_len fh (zlen fh) = Ret 0 ∧ fh_ok fh.
Proof.
  destruct (vfs_getxattr w d name 0) as [r x] eqn:E0.
  unfold ovl_get_fh at 1. rewrite E0.
  destruct (Z.ltb_spec r 0); [by case_match; eexists; split_and!|].
  destruct (Z.eqb_spec r 0); [by eexists; split_and!|].
  destruct (kmalloc_ok w r) eqn:Hk; cbn [negb]; [|eexists; split_and!; [done|by intros ? [= <-]|done]].
  destruct (law_getxattr_size w d name) as (b & Hb & Hg); [rewrite E0; cbn; lia|].
  rewrite E0 in Hb. cbn in Hb. subst r.
  assert (stored w d name b) as Hs by (split; [by rewrite E0|done]).
  destruct (get_fh_stored w d name b Hs) as (e & He & Hgf); [lia|done|].
  unfold ovl_get_fh in Hgf. rewrite E0 in Hgf.
  destruct (Z.ltb_spec (zlen b) 0); [lia|]. destruct (Z.eqb_spec (zlen b) 0); [lia|].
  rewrite Hk in Hgf. cbn [negb] in Hgf. rewrite Hgf. eexists. split; [done|].
  split; [intros e0 He0; by destruct (e =? 0)|]. intros fh. destruct (Z.eqb_spec e 0) as [->|]; [|done]. intros [= <-]. split_and!; try done.
  destruct (check_fh_len_ret b (zlen b)) as (e' & He' & _ & Hz); [lia|].
  rewrite He in He'. injection He' as <-. destruct (Hz eq_refl) as [? (len & ? & ?)].
  split; [done|]. by exists len.
Qed.

(** Encoded handles are valid, and name the filesystem of the object. *)
Lemma encode_ret w real up :
  ∃ r, ovl_encode_real_fh w real up = Ret r ∧ r ≠ PNull ∧
    (∀ e, r = PErr e → e < 0) ∧
    ∀ fh, r = PPtr fh →
      fh_exact fh ∧ fh_uuid fh = Ret (s_uuid (d_sb real)) ∧
      fh_flags fh = Ret (if up then OVL_FH_FLAG_PATH_UPPER else 0) ∧
      kmalloc_ok w (zlen fh) = true.
Proof.
  unfold ovl_encode_real_fh. destruct (kmalloc_ok w MAX_HANDLE_SZ); cbn [negb];
    [|eexists; split_and!; [done|done|by intros ? [= <-]|done]].
  destruct (exportfs_encode_fh w real (Z.shiftr MAX_HANDLE_SZ 2)) as [[ty dw] buf] eqn:E.
  destruct (_ || _ || _) eqn:Hbad; [eexists; split_and!; [done|done|by intros ? [= <-]|done]|].
  bdestruct. rewrite !Z.shiftl_mul_pow2 in * by lia. change (2 ^ 2) with 4 in *.
  unfold MAX_HANDLE_SZ in *. rewrite Z.ltb_ge in *.
  change (Z.shiftr 128 2) with 32 in E.
  apply law_encode in E as (Hdw & Hbuf & Hty); [|lia].
  destruct (kmalloc_ok w (FH_HDR + dw * 4)) eqn:Hk; cbn [negb];
    [|eexists; split_and!; [done|done|by intros ? [= <-]|done]].
  rewrite memread_ok by lia. cbn [mbind outcome_bind].
  set (fl := if up then _ else _).
  set (fh := [zb _; _; _; _; _] ++ _).
  eexists. split_and!; [reflexivity|done|done|]. intros ? [= <-].
  pose proof (law_uuid (d_sb real)) as Hu.
  assert (zlen fh = FH_HDR + dw * 4) as Hlen.
  { subst fh. rewrite !zlen_app, Hu, zlen_zslice by lia. unfold FH_HDR, zlen at 1. cbn [length]. lia. }
  assert (fh_len fh = Ret (zlen fh)) as Hl.
  { unfold fh_len, membyte. change (zget fh 2) with (Some (zb (FH_HDR + dw * 4))). cbv iota beta.
    rewrite bz_zb, Hlen. unfold FH_HDR in *. rewrite Z.mod_small by lia. done. }
  assert (fh_flags fh = Ret (if up then OVL_FH_FLAG_PATH_UPPER else 0)) as Hf.
  { unfold fh_flags, membyte. change (zget fh 3) with (Some (zb fl)). cbv iota beta.
    rewrite bz_zb. subst fl. destruct up; reflexivity. }
  split; [split; [|exact Hl]|split; [|split; [exact Hf|by rewrite Hlen]]].
  - unfold ovl_check_fh_len. rewrite Hl. destruct (Z.ltb_spec (zlen fh) FH_HDR); [lia|].
    cbn [mbind outcome_bind]. rewrite Z.ltb_irrefl. rewrite Hf.
    unfold fh_magic, fh_version, membyte.
    change (zget fh 1) with (Some (zb OVL_FH_MAGIC)). change (zget fh 0) with (Some (zb OVL_FH_VERSION)). cbv iota beta.
    rewrite !bz_zb. cbn [mbind outcome_bind]. by destruct up.
  - unfold fh_uuid. rewrite memread_ok by (unfold FH_HDR in *; lia). f_equal.
    change (zslice fh 5 16) with (ztake 16 (s_uuid (d_sb real) ++ zslice buf 0 (dw * 4))).
    unfold ztake. apply take_app_length'. unfold zlen in Hu. lia.
Qed.

(** ovl_verify_fh against a stored attribute. *)
Lemma verify_fh_stored w d name fh b :
  fh_exact fh → stored w d name b → 0 < zlen b → kmalloc_ok w (zlen b) = true →
  ovl_check_fh_len b (zlen b) = Ret 0 →
  ∃ len, fh_len b = Ret len ∧ 0 ≤ len ≤ zlen b ∧
    ovl_verify_fh w d name fh = Ret (if decide (fh = ztake len b) then 0 else - ESTALE).
Proof.
  intros Hfh Hs Hb Hk Hc. pose proof (fh_exact_ok fh Hfh) as [H21 _]. destruct Hfh as [_ Hl].
  destruct (check_fh_len_ret b (zlen b)) as (e & E & _ & He); [lia|].
  rewrite Hc in E. injection E as <-. destruct He as [_ (len & Hlen & ?)]; [done|].
  exists len. split_and!; [done|lia|lia|]. unfold ovl_verify_fh.
  destruct (get_fh_stored w d name b) as (e & E & ->); try done. rewrite Hc in E. injection E as <-.
  cbn [mbind outcome_bind]. rewrite Z.eqb_refl. rewrite Hl, Hlen. cbn [mbind outcome_bind].
  assert (zlen (ztake len b) = len) as Ht by (rewrite zlen_ztake by lia; lia).
  destruct (Z.eqb_spec (zlen fh) len) as [El|Hne]; cbn [negb].
  - rewrite memread_all. cbn [mbind outcome_bind]. rewrite memread_ok by lia.
    cbn [mbind outcome_bind]. change (zslice b 0 (zlen fh)) with (ztake (zlen fh) b).
    rewrite El. by case_bool_decide; case_decide.
  - case_decide as Hd; [|done]. rewrite Hd, Ht in Hne. done.
Qed.

(** What a successful comparison says. *)
Lemma verify_fh_ret w d name fh :
  fh_ok fh →
  ∃ e, ovl_verify_fh w d name fh = Ret e ∧
    (e = 0 → ∃ b, stored w d name b ∧ 0 < zlen b ∧ kmalloc_ok w (zlen b) = true ∧
       ovl_check_fh_len b (zlen b) = Ret 0).
Proof.
  intros [H21 (len & Hl & Hlen)]. unfold ovl_verify_fh.
  destruct (get_fh_ret w d name) as (r & -> & He & Hr). cbn [mbind outcome_bind].
  destruct r as [|e|ofh].
  - by eexists.
  - eexists. split; [done|]. intros ->. by specialize (He _ eq_refl).
  - destruct (Hr ofh eq_refl) as (Hs & Hk & Hc & H21' & olen & Hol & Holen).
    rewrite Hl, Hol. cbn [mbind outcome_bind].
    assert (∃ b, stored w d name b ∧ 0 < zlen b ∧ kmalloc_ok w (zlen b) = true ∧
       ovl_check_fh_len b (zlen b) = Ret 0) as Hex
      by (exists ofh; unfold FH_HDR in *; split_and!; done || lia).
    destruct (Z.eqb_spec len olen) as [->|]; cbn [negb]; [|by eexists].
    rewrite !memread_ok by lia. cbn [mbind outcome_bind].
    case_bool_decide; by eexists.
Qed.

(** Encoding does not depend on what xattrs hold. *)
Lemma encode_after_set w d n v fl x up :
  ovl_encode_real_fh (vfs_setxattr w d n v fl).2 x up = ovl_encode_real_fh w x up.
Proof.
  unfold ovl_encode_real_fh.
  rewrite !(law_setxattr_alloc w d n v fl _ _ eq_refl), (law_setxattr_encode w d n v fl _ _ _ eq_refl).
  destruct (exportfs_encode_fh w x _) as [[ty dw] buf].
  by rewrite (law_setxattr_alloc w d n v fl _ _ eq_refl).
Qed.

(** C31: Storing and verifying file handles.  After [ovl_verify_set_fh] with
    [set] returned 0 for an object, verifying the same object returns 0 and
    changes nothing, and verifying any object that encodes to another handle
    returns -ESTALE: the stored handle identifies exactly one object. *)
Theorem verify_set_roundtrip w w' d name real up :
  ovl_verify_set_fh w d name real up true = Ret (0, w') →
  ovl_verify_set_fh w' d name real up false = Ret (0, w') ∧
  ∀ other fh fh', ovl_encode_real_fh w' real up = Ret (PPtr fh) →
    ovl_encode_real_fh w' other up = Ret (PPtr fh') → fh' ≠ fh →
    ovl_verify_set_fh w' d name other up false = Ret (- ESTALE, w').
Proof.
  intros Hset. unfold ovl_verify_set_fh in Hset.
  destruct (encode_ret w real up) as (r & E & Hn & He & Hr). rewrite E in Hset.
  cbn [mbind outcome_bind] in Hset.
  destruct r as [|e|fh]; [done|injection Hset as ->; by specialize (He 0 eq_refl)|].
  destruct (Hr fh eq_refl) as (Hfh & _ & _ & Hka). pose proof (fh_exact_ok fh Hfh) as Hok.
  assert (ovl_encode_real_fh w' real up = Ret (PPtr fh) ∧
    ∃ b, stored w' d name b ∧ 0 < zlen b ∧ kmalloc_ok w' (zlen b) = true ∧
      ovl_check_fh_len b (zlen b) = Ret 0 ∧ ovl_verify_fh w' d name fh = Ret 0) as (E' & b & Hs & Hb & Hk & Hc & Hv).
  { destruct (verify_fh_ret w d name fh Hok) as (e & Ev & Hv). rewrite Ev in Hset.
    cbn [mbind outcome_bind] in Hset.
    destruct (Z.eqb_spec e (- ENODATA)) as [Ee|Ee]; cbn [andb] in Hset.
    - rewrite (proj2 Hfh) in Hset. cbn [mbind outcome_bind] in Hset. rewrite memread_all in Hset.
      cbn [mbind outcome_bind] in Hset. injection Hset as Hset.
      assert (w' = (vfs_setxattr w d name fh 0).2) as -> by (by rewrite Hset).
      split; [by rewrite encode_after_set|].
      assert (stored (vfs_setxattr w d name fh 0).2 d name fh) as Hs
        by (apply (law_setxattr_get w d name fh 0); by rewrite Hset).
      destruct Hok as [H21 _]. unfold FH_HDR in H21.
      assert (kmalloc_ok w (zlen fh) = true) as Hk by done.
      rewrite <- (law_setxattr_alloc w d name fh 0 _ _ eq_refl) in Hk.
      exists fh. split_and!; [done|lia|done|apply Hfh|].
      destruct (verify_fh_stored _ d name fh fh Hfh Hs) as (len & Hlen & _ & ->); [lia|done|apply Hfh|].
      destruct Hfh as [_ Hl]. rewrite Hl in Hlen. injection Hlen as <-.
      rewrite decide_True; [done|]. symmetry. unfold ztake, zlen. rewrite Nat2Z.id. by apply firstn_all.
    - injection Hset as Ez Ew. subst w' e. split; [done|]. destruct (Hv eq_refl) as (b & ? & ? & ? & ?).
      by exists b. }
  split.
  - unfold ovl_verify_set_fh. rewrite E'. cbn [mbind outcome_bind]. by rewrite Hv.
  - intros other fh0 fh' E0 Eo Hne. rewrite E' in E0. injection E0 as <-.
    unfold ovl_verify_set_fh. rewrite Eo. cbn [mbind outcome_bind].
    destruct (encode_ret w' other up) as (r & Eo' & _ & _ & Hr'). rewrite Eo in Eo'. injection Eo' as <-.
    destruct (Hr' fh' eq_refl) as (Hfh' & _ & _ & _).
    destruct (verify_fh_stored w' d name fh b Hfh Hs) as (len & Hlen & _ & Ev); [done..|].
    destruct (verify_fh_stored w' d name fh' b Hfh' Hs) as (len' & Hlen' & _ & ->); [done..|].
    rewrite Hlen in Hlen'. injection Hlen' as <-. rewrite Hv in Ev.
    destruct (decide (fh = ztake len b)); [|done]. by rewrite decide_False by congruence.
Qed.

(** ** No operation reads outside its buffers *)

(** Every branch returns. *)
Ltac ret_cases :=
  repeat match goal with |- ∃ _, ?m = Ret _ => match m with context [match ?x with _ => _ end] => destruct x end end;
  by eexists.

Lemma decode_ret w fh mnt c :
  fh_ok fh → ∃ r, ovl_decode_real_fh w fh mnt c = Ret r ∧ ∀ d, r = PPtr d → is_Some (d_inode d).
Proof.
  intros Hok. destruct (fh_ok_uuid fh Hok) as [u Hu]. destruct Hok as [H21 (len & Hl & _)].
  unfold FH_HDR in H21. unfold ovl_decode_real_fh. rewrite Hu, Hl. cbn [mbind outcome_bind].
  case_bool_decide; cbn [negb]; [|by eexists].
  unfold fh_type. destruct (membyte_ok fh 4) as (ty & -> & _); [lia|]. cbn [mbind outcome_bind].
  unfold fh_flags. destruct (membyte_ok fh 3) as (fl & -> & _); [lia|]. cbn [mbind outcome_bind].
  destruct (exportfs_decode_fh _ _ _ _ _ _) as [|e|d] eqn:E.
  - by apply law_decode in E.
  - destruct (_ && _); (eexists; split; [reflexivity|done]).
  - destruct (ovl_dentry_weird d); eexists; (split; [reflexivity|]); [done|]. intros ? [= <-].
    by eapply law_decode_positive.
Qed.

Lemma decode_layers_ret w fh c layers :
  fh_ok fh → ∃ r, decode_layers w fh c layers = Ret r ∧
    ∀ p l, r = Some (p, l) → p ≠ PNull ∧ ∀ d, p = PPtr d → is_Some (d_inode d).
Proof.
  intros Hok. induction layers as [|l ls IH]; cbn [decode_layers]; [by eexists|].
  destruct (decode_ret w fh (l_mnt l) c Hok) as (r & -> & Hr). cbn [mbind outcome_bind].
  destruct r as [|e|d]; [done|by eexists; split; [done|intros ?? [= <- <-]]|].
  eexists. split; [done|]. intros ?? [= <- <-]. split; [done|]. intros ? [= <-]. eauto.
Qed.

Lemma check_origin_fh_ret w ofs fh c upper have :
  fh_ok fh → (∀ u, upper = Some u → is_Some (d_inode u)) →
  ∃ r, ovl_check_origin_fh w ofs fh c upper have = Ret r ∧
    ∀ p, r = inr p → is_Some (d_inode (op_dentry p)).
Proof.
  intros Hok Hu. unfold ovl_check_origin_fh.
  destruct (decode_layers_ret w fh c (fs_lower_layers ofs) Hok) as (r & -> & Hr).
  cbn [mbind outcome_bind]. destruct r as [[[|e|o] l]|]; try (by eexists).
  destruct (Hr _ _ eq_refl) as [_ Ho]. destruct (Ho o eq_refl) as [oi Eo].
  assert (∃ b, match upper with
        | Some u =>
            if ovl_is_whiteout u then Ret false else
            match d_inode o, d_inode u with
            | Some oi, Some ui =>
                Ret (negb (Z.land (Z.lxor (i_mode oi) (i_mode ui)) S_IFMT =? 0))
            | _, _ => Fault
            end
        | None => Ret false
        end = Ret b) as [b ->].
  { destruct upper as [u|]; [|by eexists]. destruct (Hu u eq_refl) as [ui ->]. rewrite Eo.
    case_match; by eexists. }
  cbn [mbind outcome_bind]. repeat case_match; eexists; (split; [done|]); try done.
  intros ? [= <-]. cbn. by rewrite Eo.
Qed.

Lemma get_nlink_ret w lower upper fb :
  (∀ d, lower = Some d → is_Some (d_inode d)) → (∀ d, upper = Some d → is_Some (d_inode d)) →
  ∃ n, ovl_get_nlink w lower upper fb = Ret n.
Proof.
  intros Hl Hu. unfold ovl_get_nlink.
  destruct lower as [l|]; [|by eexists]. destruct (Hl l eq_refl) as [li ->].
  destruct upper as [u|]; [|by eexists]. destruct (Hu u eq_refl) as [ui ->].
  repeat case_match; by eexists.
Qed.

Lemma index_upper_ret w ofs index :
  is_Some (d_inode index) →
  ∃ r, ovl_index_upper w ofs index = Ret r ∧ ∀ d, r = PPtr d → is_Some (d_inode d).
Proof.
  intros Hi. unfold ovl_index_upper. case_match; [by eexists; split; [done|intros ? [= <-]]|].
  destruct (get_fh_ret w index OVL_XATTR_UPPER) as (r & -> & _ & Hr). cbn [mbind outcome_bind].
  destruct r as [|e|fh]; [by eexists..|]. destruct (Hr fh eq_refl) as (_ & _ & _ & Hok).
  destruct (decode_ret w fh (fs_upper_mnt ofs) true Hok) as (r & -> & Hd). cbn [mbind outcome_bind].
  destruct r as [|e|d]; [by eexists..|]. case_match; eexists; (split; [done|]); [done|].
  intros ? [= <-]. eauto.
Qed.

Lemma verify_index_ret w ofs index : ∃ e, ovl_verify_index w ofs index = Ret e.
Proof.
  unfold ovl_verify_index. destruct (d_inode index) as [ii|] eqn:Ei; [|by eexists].
  do 3 (case_match; [by eexists|]).
  destruct (hex2bin _ _) as [fh|] eqn:Eh; [|by eexists].
  apply law_hex2bin_len in Eh; [|apply Z.div_pos; lia].
  destruct (check_fh_len_ret fh (zlen fh)) as (e & Ec & _ & He); [lia|].
  rewrite <- Eh, Ec. cbn [mbind outcome_bind].
  destruct (Z.eqb_spec e 0) as [->|]; cbn [negb]; [|by eexists].
  destruct He as [? (len & ? & ?)]; [done|].
  assert (fh_ok fh) as Hok by (split; [done|by exists len]).
  do 2 (case_match; [by eexists|]).
  destruct (index_upper_ret w ofs index) as (r & -> & Hu); [by rewrite Ei|]. cbn [mbind outcome_bind].
  destruct r as [|e|u]; [by eexists|case_match; by eexists|].
  destruct (verify_fh_ret w u OVL_XATTR_ORIGIN fh Hok) as (e & -> & _). cbn [mbind outcome_bind].
  do 2 (case_match; try by eexists).
  destruct (check_origin_fh_ret w ofs fh false (Some index) true Hok) as (r & -> & Hp);
    [intros ? [= <-]; by rewrite Ei|]. cbn [mbind outcome_bind].
  destruct r as [e'|p]; [by eexists|].
  destruct (get_nlink_ret w (Some (op_dentry p)) (Some index) 0) as (n & ->);
    [intros ? [= <-]; eauto|intros ? [= <-]; by rewrite Ei|].
  cbn [mbind outcome_bind]. case_match; by eexists.
Qed.

Lemma verify_set_fh_ret w d name real up set :
  ∃ r, ovl_verify_set_fh w d name real up set = Ret r.
Proof.
  unfold ovl_verify_set_fh. destruct (encode_ret w real up) as (r & -> & Hn & _ & Hr).
  cbn [mbind outcome_bind]. destruct r as [|e|fh]; [done|by eexists|].
  destruct (Hr fh eq_refl) as (Hfh & _ & _ & _).
  destruct (verify_fh_ret w d name fh (fh_exact_ok fh Hfh)) as (e & -> & _). cbn [mbind outcome_bind].
  destruct (_ && _); [|by eexists]. rewrite (proj2 Hfh). cbn [mbind outcome_bind].
  rewrite memread_all. by eexists.
Qed.

Lemma index_name_ret w origin : ∃ r, ovl_get_index_name w origin = Ret r.
Proof.
  unfold ovl_get_index_name. destruct (encode_ret w origin false) as (r & -> & Hn & _ & Hr).
  cbn [mbind outcome_bind]. destruct r as [|e|fh]; [done|by eexists|].
  destruct (Hr fh eq_refl) as ([_ Hl] & _). unfold ovl_get_index_name_fh.
  rewrite Hl. cbn [mbind outcome_bind]. case_match; [by eexists|].
  rewrite memread_all. by eexists.
Qed.

Lemma lookup_index_ret w indexdir upper origin verify :
  is_Some (d_inode origin) → ∃ r, ovl_lookup_index w indexdir upper origin verify = Ret r.
Proof.
  intros [oi Eo]. unfold ovl_lookup_index.
  destruct (index_name_ret w origin) as ([e|name] & ->); cbn [mbind outcome_bind]; [by eexists|].
  destruct (lookup_one_len_unlocked w name indexdir) as [|e|index] eqn:El;
    [by apply law_lookup in El|case_match; by eexists|].
  destruct (d_inode index) as [ii|]; [|by eexists]. rewrite Eo.
  do 3 (destruct (_ : bool); [by eexists|]).
  destruct (_ && _); [|ret_cases].
  destruct upper as [u|]; [|by eexists].
  unfold ovl_verify_upper. destruct (verify_set_fh_ret w index OVL_XATTR_UPPER u true false) as ([e w'] & ->).
  cbn [mbind outcome_bind]. ret_cases.
Qed.


(** ** The index finds its entries *)

Lemma index_name_encode w origin name :
  ovl_get_index_name w origin = Ret (inr name) →
  ∃ fh, ovl_encode_real_fh w origin false = Ret (PPtr fh) ∧ fh_exact fh ∧
    kmalloc_ok w (zlen fh) = true ∧ name = bin2hex fh.
Proof.
  unfold ovl_get_index_name. destruct (encode_ret w origin false) as (r & E & Hn & _ & Hr).
  rewrite E. cbn [mbind outcome_bind]. destruct r as [|e|fh]; [done|done|].
  destruct (Hr fh eq_refl) as (Hfh & _ & _ & Hk). unfold ovl_get_index_name_fh.
  rewrite (proj2 Hfh). cbn [mbind outcome_bind].
  case_match; [done|]. rewrite memread_all. cbn [mbind outcome_bind]. intros [= <-]. eauto.
Qed.

Lemma bin2hex_inj b b' : bin2hex b = bin2hex b' → b = b'.
Proof.
  intros E. assert (zlen b = zlen b') as El
    by (pose proof (law_bin2hex b); pose proof (law_bin2hex b'); rewrite E in *; lia).
  pose proof (law_hex2bin b "") as H1. pose proof (law_hex2bin b' "") as H2.
  rewrite E, El in H1. rewrite H1 in H2. by injection H2.
Qed.

(** The checks of an entry whose name is the one of [origin]. *)
Lemma verify_index_name w ofs index ii origin fh :
  fh_exact fh → kmalloc_ok w (zlen fh) = true → d_name index = bin2hex fh →
  d_inode index = Some ii → ovl_is_whiteout index = false → d_is_dir index = false →
  i_nlink ii ≠ 1 → ovl_encode_real_fh w origin false = Ret (PPtr fh) →
  ovl_verify_index w ofs index = ovl_verify_fh w index OVL_XATTR_ORIGIN fh.
Proof.
  intros Hfh Hk Hname Hi Hw Hd Hnl Henc. pose proof (fh_exact_ok fh Hfh) as [H21 _].
  pose proof (law_bin2hex fh) as Hlen. unfold ovl_verify_index. rewrite Hi.
  assert (ovl_is_temp_index index = false) as ->.
  { unfold ovl_is_temp_index. rewrite Hname. destruct (bin2hex fh) as [|c s] eqn:E; [done|].
    apply law_bin2hex_digit in E. by destruct (Ascii.eqb_spec c "#"%char). }
  rewrite Hname, Hlen. unfold FH_HDR in *. destruct (Z.ltb_spec (2 * zlen fh) (21 * 2)); [lia|].
  replace (2 * zlen fh / 2) with (zlen fh) by lia. rewrite Hk. cbn [negb].
  rewrite <- (sapp_nil_r (bin2hex fh)), law_hex2bin.
  rewrite (proj1 Hfh). cbn [mbind outcome_bind]. rewrite Hw, Hd. cbn [Z.eqb negb andb].
  unfold ovl_index_upper. rewrite Hd. cbn [negb mbind outcome_bind].
  destruct (verify_fh_ret w index OVL_XATTR_ORIGIN fh (fh_exact_ok fh Hfh)) as (e & -> & _).
  cbn [mbind outcome_bind]. destruct (Z.eqb_spec e 0) as [->|]; cbn [negb]; [|done].
  by destruct (Z.eqb_spec (i_nlink ii) 1).
Qed.

(** C38: The index of copied up hard links.  A non-directory index entry named
    after an origin, whose origin xattr was written by [ovl_set_origin] for
    that same origin, passes [ovl_verify_index] as long as it has other links,
    and [ovl_lookup_index] for the origin and the entry's inode finds exactly
    that entry; origins with different handles never share a name. *)
Theorem index_entry_found w w' ofs ofs' ex indexdir origin oi index ii name :
  ovl_get_index_name w' origin = Ret (inr name) →
  ovl_can_decode_fh ex ≠ 0 → fs_noxattr ofs = false →
  ovl_set_origin w ofs ex origin index = Ret (0, ofs', w') → fs_noxattr ofs' = false →
  d_inode origin = Some oi → d_inode index = Some ii → d_name index = name →
  ftype (i_mode ii) = ftype (i_mode oi) → d_is_dir origin = false →
  ovl_is_whiteout index = false → ovl_dentry_weird index = false → i_nlink ii ≠ 1 →
  lookup_one_len_unlocked w' name indexdir = PPtr index →
  ovl_verify_index w' ofs' index = Ret 0 ∧
  ovl_lookup_index w' indexdir (Some index) origin true = Ret (PPtr index) ∧
  ∀ other name', ovl_get_index_name w' other = Ret (inr name') →
    ovl_encode_real_fh w' other false ≠ ovl_encode_real_fh w' origin false → name' ≠ name.
Proof.
  intros Hname Hex Hnx Hset Hnx' Ho Hi Hdn Hft Hdo Hw Hweird Hnl Hlook.
  destruct (index_name_encode w' origin name Hname) as (fh & Henc & Hfh & Hk & ->).
  assert (vfs_setxattr w index OVL_XATTR_ORIGIN fh 0 = (0, w')) as Hx.
  { unfold ovl_set_origin in Hset. destruct (Z.eqb_spec (ovl_can_decode_fh ex) 0); [done|].
    cbn [negb] in Hset. destruct (encode_ret w origin false) as (r & E & Hn & He & Hr).
    rewrite E in Hset. cbn [mbind outcome_bind] in Hset.
    destruct r as [|e|f]; [done|by injection Hset as -> _ _; specialize (He 0 eq_refl)|].
    destruct (Hr f eq_refl) as ([_ Hlf] & _). rewrite Hlf in Hset. cbn [mbind outcome_bind] in Hset.
    rewrite memread_all in Hset. cbn [mbind outcome_bind] in Hset. injection Hset as Hset.
    unfold ovl_check_setxattr in Hset. rewrite Hnx in Hset.
    destruct (vfs_setxattr w index OVL_XATTR_ORIGIN f 0) as [e w1] eqn:Ex.
    destruct (e =? - EOPNOTSUPP); [by injection Hset as <- _; cbn in Hnx'|].
    injection Hset as -> _ ->. assert (w' = (vfs_setxattr w index OVL_XATTR_ORIGIN f 0).2) as Ew by (by rewrite Ex).
    rewrite Ew, encode_after_set, E in Henc. by injection Henc as ->. }
  apply law_setxattr_get in Hx. change (stored w' index OVL_XATTR_ORIGIN fh) in Hx.
  pose proof (fh_exact_ok fh Hfh) as [H21 _]. unfold FH_HDR in H21.
  assert (d_is_dir index = false) as Hdi.
  { unfold d_is_dir, S_ISDIR in *. rewrite Hi, Ho in *. by rewrite Hft. }
  split_and!.
  - rewrite (verify_index_name w' ofs' index ii origin fh) by done.
    destruct (verify_fh_stored w' index OVL_XATTR_ORIGIN fh fh Hfh Hx) as (len & Hlen & _ & ->);
      [lia|done|apply Hfh|].
    rewrite (proj2 Hfh) in Hlen. injection Hlen as <-. rewrite decide_True; [done|].
    symmetry. unfold ztake, zlen. rewrite Nat2Z.id. by apply firstn_all.
  - unfold ovl_lookup_index. rewrite Hname. cbn [mbind outcome_bind]. rewrite Hlook, Hi, Hw, Hweird, Ho.
    cbn [andb orb]. rewrite Hdo. cbn [andb].
    assert (Z.land (Z.lxor (i_mode ii) (i_mode oi)) S_IFMT = 0) as ->.
    { unfold ftype in Hft. apply Z.bits_inj_0. intros n.
      rewrite Z.land_spec, Z.lxor_spec. assert (Z.testbit (Z.land (i_mode ii) S_IFMT) n = Z.testbit (Z.land (i_mode oi) S_IFMT) n) as Eb by (by rewrite Hft).
      rewrite !Z.land_spec in Eb. by destruct (Z.testbit (i_mode ii) n), (Z.testbit (i_mode oi) n), (Z.testbit S_IFMT n). }
    cbn [Z.eqb negb]. by rewrite Z.eqb_refl.
  - intros other name' Hn' Hne ->. destruct (index_name_encode w' other _ Hn') as (fh' & E' & _ & _ & Eb).
    apply bin2hex_inj in Eb as ->. by rewrite E', Henc in Hne.
Qed.

End fh_props.

(** ** Walking the layers of a dentry *)

(** The callers' loop [for (idx = 0; idx != -1; idx = next)]. *)
Fixpoint path_walk (fuel : nat) (ofs : ovl_fs) (idx : Z) (d : odentry) : option (list path) :=
  if idx =? -1 then Some [] else
  match fuel with
  | O => None
  | S fuel => '(next, p) ← ovl_path_next ofs idx d; ps ← path_walk fuel ofs next d; Some (p :: ps)
  end.

Lemma path_walk_lower ofs d n : ∀ fuel i,
  (n < fuel)%nat → 1 ≤ i → i = numlower (od_entry d) - Z.of_nat n →
  path_walk fuel ofs i d = Some ((λ p, path_of (Some p)) <$> zdrop (i - 1) (oe_lowerstack (od_entry d))).
Proof.
  induction n as [|n IH]; intros [|fuel] i Hf Hi En; try lia; cbn [path_walk];
    (destruct (Z.eqb_spec i (-1)); [lia|]); unfold ovl_path_next;
    (destruct (Z.ltb_spec i 0); [lia|]); (destruct (Z.eqb_spec i 0); [lia|]); cbn [andb];
    (destruct (Z.ltb_spec (numlower (od_entry d)) i); [lia|]);
    unfold lowerstack_at; unfold numlower in *;
    (destruct (zget_is_Some (oe_lowerstack (od_entry d)) (i - 1)) as [p Hp]; [lia|]);
    rewrite Hp; cbn [mbind option_bind];
    assert (zdrop (i - 1) (oe_lowerstack (od_entry d)) = p :: zdrop i (oe_lowerstack (od_entry d))) as ->.
  1, 3: unfold zdrop, zget in *; rewrite decide_True in Hp by lia;
    replace (Z.to_nat i) with (S (Z.to_nat (i - 1))) by lia; by apply drop_S.
  - destruct (Z.ltb_spec i (zlen (oe_lowerstack (od_entry d)))); [lia|].
    unfold zdrop. rewrite drop_ge by (unfold zlen in *; lia). by destruct fuel.
  - destruct (Z.ltb_spec i (zlen (oe_lowerstack (od_entry d)))); [|lia].
    rewrite (IH fuel (i + 1)) by lia. by replace (i + 1 - 1) with i by lia.
Qed.

Lemma path_walk_step fuel ofs idx d :
  idx ≠ -1 →
  path_walk (S fuel) ofs idx d =
  '(next, p) ← ovl_path_next ofs idx d; ps ← path_walk fuel ofs next d; Some (p :: ps).
Proof. intros Hi. cbn [path_walk]. by destruct (Z.eqb_spec idx (-1)). Qed.

(** Walking a dentry with [ovl_path_next] from index 0 until it returns -1
    visits the upper path first, if there is one, then every lower path from
    top to bottom, each exactly once, and never reaches a BUG_ON. *)
Theorem path_next_visits_stack ofs d :
  ovl_dentry_upper d ≠ None ∨ oe_lowerstack (od_entry d) ≠ [] →
  path_walk (S (S (length (oe_lowerstack (od_entry d))))) ofs 0 d =
  Some (match ovl_dentry_upper d with Some _ => [ovl_path_upper ofs d] | None => [] end ++
        ((λ p, path_of (Some p)) <$> oe_lowerstack (od_entry d))).
Proof.
  intros Hne. set (l := oe_lowerstack (od_entry d)).
  assert (l ≠ [] → ∀ fuel, (length l ≤ fuel)%nat →
    path_walk fuel ofs 1 d = Some ((λ p, path_of (Some p)) <$> l)) as Hlow.
  { intros Hl fuel Hf. rewrite (path_walk_lower ofs d (length l - 1)); [done| |lia|].
    - destruct l; [done|]. cbn in *. lia.
    - unfold numlower, zlen. fold l. destruct l; [done|]. cbn. lia. }
  destruct (ovl_dentry_upper d) as [u|] eqn:Eu.
  - rewrite path_walk_step by lia.
    assert (ovl_path_next ofs 0 d = Some (if negb (zlen l =? 0) then 1 else -1, ovl_path_upper ofs d)) as ->.
    { unfold ovl_path_next. rewrite Eu. cbn [Z.eqb Z.ltb andb Z.compare].
      by rewrite bool_decide_true by by eexists. }
    cbn [mbind option_bind]. destruct (Z.eqb_spec (zlen l) 0) as [Hz|Hz]; cbn [negb].
    + assert (l = []) as -> by (destruct l; [done|unfold zlen in Hz; cbn in Hz; lia]). reflexivity.
    + rewrite Hlow; [done| |lia]. by intros ->.
  - destruct Hne as [|Hl]; [done|]. fold l in Hl.
    rewrite app_nil_l, <- (Hlow Hl (S (S (length l)))) by lia. rewrite !path_walk_step by lia.
    assert (ovl_path_next ofs 0 d = ovl_path_next ofs 1 d) as ->; [|done].
    unfold ovl_path_next. rewrite Eu. cbn [Z.eqb Z.ltb andb Z.compare].
    by rewrite bool_decide_false by by intros [? ?].
Qed.

(** ** Concrete inputs *)

(** A lower file, its upper hard link in the index directory, a second file. *)
Module Example.
Definition node (p nlink : Z) (name : string) : dentry :=
  Dentry p name 0 (Some (Inode p 1 p nlink 0 0 (IAttrs 0 0 S_IFREG 0 0 0 0))).
Definition lower : dentry := node 8 2 "f".
Definition other : dentry := node 9 1 "g".
Definition lower_fh : list byte :=
  map zb [0; 251; 25; 0; 1] ++ replicate 16 (zb 1) ++ map zb [8; 0; 0; 0].
Definition index : dentry := node 30 2 (ly_bin2hex lower_fh).
Definition indexdir : dentry := node 20 1 "index".
Definition w0 : layers :=
  Layers ∅ {[ (20, ly_bin2hex lower_fh) := index ]} [lower; other] (λ _, x00).
Definition w1 : layers := (vfs_setxattr w0 index OVL_XATTR_ORIGIN lower_fh 0).2.
Definition ofs : ovl_fs :=
  OvlFs 1 1 [] [OvlLayer 1 1 0 0] 255 true true
    (OvlConfig None None None false true true None true false 0 false) false true 0.
End Example.

Lemma verify_set_roundtrip_witness :
  ovl_verify_set_fh Example.w0 Example.index OVL_XATTR_ORIGIN Example.lower false true
    = Ret (0, Example.w1) ∧
  ovl_verify_set_fh Example.w1 Example.index OVL_XATTR_ORIGIN Example.lower false false
    = Ret (0, Example.w1).
Proof.
  assert (ovl_verify_set_fh Example.w0 Example.index OVL_XATTR_ORIGIN Example.lower false true
    = Ret (0, Example.w1)) as H by (vm_compute; reflexivity).
  split; [exact H|].
  exact (proj1 (verify_set_roundtrip Example.w0 Example.w1 Example.index OVL_XATTR_ORIGIN
           Example.lower false H)).
Defined.


Lemma index_entry_found_witness :
  ovl_verify_index Example.w1 Example.ofs Example.index = Ret 0 ∧
  ovl_lookup_index Example.w1 Example.indexdir (Some Example.index) Example.lower true
    = Ret (PPtr Example.index).
Proof.
  assert (ovl_get_index_name Example.w1 Example.lower = Ret (inr (ly_bin2hex Example.lower_fh))) as H1
    by (vm_compute; reflexivity).
  assert (ovl_set_origin Example.w0 Example.ofs (Some (true, true)) Example.lower Example.index
    = Ret (0, Example.ofs, Example.w1)) as H2 by (vm_compute; reflexivity).
  assert (lookup_one_len_unlocked Example.w1 (ly_bin2hex Example.lower_fh) Example.indexdir
    = PPtr Example.index) as H3 by (vm_compute; reflexivity).
  destruct (index_entry_found Example.w0 Example.w1 Example.ofs Example.ofs (Some (true, true))
    Example.indexdir Example.lower _ Example.index _ (ly_bin2hex Example.lower_fh)
    H1 ltac:(done) eq_refl H2 eq_refl eq_refl eq_refl eq_refl eq_refl eq_refl eq_refl eq_refl
    ltac:(done) H3) as (E1 & E2 & _).
  split; [exact E1|exact E2].
Defined.

Lemma path_next_visits_stack_witness :
  let lp p := OvlPath (OvlLayer p 1 0 0) (Example.node p 1 "f") in
  let blk := OvlBlocks 0 0 false 0 0 0 [] in
  let d := ODentry 1 "f" 0
    (OvlInode None None 0 0 (Inode 1 1 1 1 0 0 (IAttrs 0 0 S_IFREG 0 0 0 0)) (Some Example.index) None blk)
    (OvlEntry 0 [lp 11; lp 12]) in
  path_walk 4 Example.ofs 0 d =
  Some [Path 1 (Some Example.index); Path 11 (Some (Example.node 11 1 "f"));
        Path 12 (Some (Example.node 12 1 "f"))].
Proof. intros lp blk d. exact (path_next_visits_stack Example.ofs d ltac:(by right)). Defined.
