(* ===== verification/Redirect.v ===== *)
(** Redirects and lookup in one layer.  util.c reads and validates the redirect
    xattr, namei.c follows it while it walks the elements of a path in one
    layer, and dir.c composes the redirect of a renamed directory. *)

From Stdlib Require Import Ascii.
From S2P Require Import Prelude Types Util Under Nlink Fh.
Local Open Scope Z_scope.

(** ** C strings *)

Definition SLASH : ascii := "/"%char.
Definition strlen (s : string) : Z := Z.of_nat (String.length s).
Fixpoint stake (n : nat) (s : string) : string :=
  match n, s with
  | S n, String c s => String c (stake n s)
  | _, _ => EmptyString
  end.
Fixpoint sdrop (n : nat) (s : string) : string :=
  match n, s with
  | O, s => s
  | S n, String _ s => sdrop n s
  | S _, EmptyString => EmptyString
  end.
Definition starts_slash (s : string) : bool :=
  match s with String c _ => Ascii.eqb c SLASH | EmptyString => false end.
(** the string up to [strchrnul(s, '/')] and the string from there *)
Fixpoint seg (s : string) : string :=
  match s with
  | EmptyString => EmptyString
  | String c s' => if Ascii.eqb c SLASH then EmptyString else String c (seg s')
  end.
Fixpoint strchrnul (s : string) : string :=
  match s with
  | EmptyString => EmptyString
  | String c s' => if Ascii.eqb c SLASH then s else strchrnul s'
  end.
Definition is_empty (s : string) : bool :=
  match s with EmptyString => true | _ => false end.
Definition has_slash (s : string) : bool := negb (is_empty (strchrnul s)).

(** ** util.c: reading xattrs *)

Section xattr.
Context {W : Type} `{Under W}.
Implicit Types (w : W).

Definition ovl_check_origin_xattr w (d : dentry) : bool :=
  let '(res, _) := vfs_getxattr w d OVL_XATTR_ORIGIN 0 in
  if 0 <=? res then true else false.

Definition ovl_check_dir_xattr w (d : dentry) (name : string) : bool :=
  if negb (d_is_dir d) then false else
  let '(res, val) := vfs_getxattr w d name 1 in
  if (res =? 1) && match val with b :: _ => bz b =? 121 | [] => false end then true else false.

(** overlayfs.h: ovl_is_impuredir; namei.c: ovl_is_opaquedir *)
Definition ovl_is_impuredir w (d : dentry) : bool := ovl_check_dir_xattr w d OVL_XATTR_IMPURE.
Definition ovl_is_opaquedir w (d : dentry) : bool := ovl_check_dir_xattr w d OVL_XATTR_OPAQUE.

Definition ovl_check_metacopy_xattr w (d : dentry) : outcome Z :=
  match d_inode d with
  | None => Fault
  | Some i =>
      if negb (S_ISREG (i_mode i)) then Ret 0 else
      let '(res, _) := vfs_getxattr w d OVL_XATTR_METACOPY 0 in
      if res <? 0 then
        if (res =? - ENODATA) || (res =? - EOPNOTSUPP) then Ret 0 else Ret res
      else Ret 1
  end.

(** ovl_getxattr: the result and, when it was allocated, the buffer *)
Definition ovl_getxattr w (d : dentry) (name : string) (padding : Z) : Z * option (list byte) :=
  let '(res, _) := vfs_getxattr w d name 0 in
  if res <? 0 then
    if (res =? - ENODATA) || (res =? - EOPNOTSUPP) then (- ENODATA, None) else (res, None)
  else if negb (res =? 0) then
    if negb (kmalloc_ok w (res + padding)) then (- ENOMEM, None) else
    let '(res', b) := vfs_getxattr w d name res in
    if res' <? 0 then (res', None)
    else (res', Some (b ++ replicate (Z.to_nat (res + padding - zlen b)) x00))
  else (res, None).

(** The loop over the elements of an absolute redirect: [false] is "invalid". *)
Fixpoint redirect_abs_loop (fuel : nat) (s : string) : outcome bool :=
  match fuel with
  | O => NoFuel
  | S fuel =>
      match s with
      | String c s =>
          if Ascii.eqb c SLASH then
            if is_empty (seg s) then Ret false
            else redirect_abs_loop fuel (strchrnul s)
          else Ret true
      | EmptyString => Ret true
      end
  end.

(** ovl_get_redirect_xattr: the redirect and the size of its buffer *)
Definition ovl_get_redirect_xattr w (d : dentry) (padding : Z) : outcome (eptr (string * Z)) :=
  match ovl_getxattr w d OVL_XATTR_REDIRECT (padding + 1) with
  | (res, buf) =>
      if res =? - ENODATA then Ret PNull
      else if res <? 0 then Ret (PErr res)
      else if res =? 0 then Ret (PErr (- EINVAL))
      else match buf with
      | None => Fault
      | Some b =>
          let s := cstr (string_of b) in
          if starts_slash s then
            ok ← redirect_abs_loop (S (String.length s)) s;
            if (ok : bool) then Ret (PPtr (s, zlen b)) else Ret (PErr (- EINVAL))
          else if has_slash s then Ret (PErr (- EINVAL))
          else Ret (PPtr (s, zlen b))
      end
  end.

(** ** namei.c: lookup in one layer *)

(** struct ovl_lookup_data; the name is its C string *)
Record ovl_lookup_data : Type := LookupData {
  ld_name : string;
  ld_is_dir : bool;
  ld_opaque : bool;
  ld_stop : bool;
  ld_last : bool;
  ld_redirect : option string;
  ld_metacopy : bool;
}.
Definition set_ld_stop (b : bool) (d : ovl_lookup_data) : ovl_lookup_data :=
  LookupData (ld_name d) (ld_is_dir d) (ld_opaque d) b (ld_last d) (ld_redirect d) (ld_metacopy d).
Definition set_ld_opaque (b : bool) (d : ovl_lookup_data) : ovl_lookup_data :=
  LookupData (ld_name d) (ld_is_dir d) b (ld_stop d) (ld_last d) (ld_redirect d) (ld_metacopy d).
Definition set_ld_is_dir (b : bool) (d : ovl_lookup_data) : ovl_lookup_data :=
  LookupData (ld_name d) b (ld_opaque d) (ld_stop d) (ld_last d) (ld_redirect d) (ld_metacopy d).
Definition set_ld_last (b : bool) (d : ovl_lookup_data) : ovl_lookup_data :=
  LookupData (ld_name d) (ld_is_dir d) (ld_opaque d) (ld_stop d) b (ld_redirect d) (ld_metacopy d).
Definition set_ld_metacopy (b : bool) (d : ovl_lookup_data) : ovl_lookup_data :=
  LookupData (ld_name d) (ld_is_dir d) (ld_opaque d) (ld_stop d) (ld_last d) (ld_redirect d) b.
Definition set_ld_redirect (s : string) (d : ovl_lookup_data) : ovl_lookup_data :=
  LookupData s (ld_is_dir d) (ld_opaque d) (ld_stop d) (ld_last d) (Some s) (ld_metacopy d).

(** ovl_check_redirect: the copies inside the buffer fault when they overflow
    it or read past the name *)
Definition ovl_check_redirect w (this : dentry) (d : ovl_lookup_data) (prelen : Z) (post : string)
    : outcome (Z * ovl_lookup_data) :=
  buf ← ovl_get_redirect_xattr w this (prelen + strlen post);
  match buf with
  | PNull => Ret (0, d)
  | PErr e => Ret (e, d)
  | PPtr (s, cap) =>
      '(s, d) ←
        (if starts_slash s then Ret (s, set_ld_stop false d)
         else if bool_decide (prelen + (strlen s + 1) ≤ cap ∧ prelen ≤ strlen (ld_name d))
              then Ret (stake (Z.to_nat prelen) (ld_name d) +:+ s, d)
              else Fault);
      if bool_decide (strlen s + strlen post + 1 ≤ cap)
      then Ret (0, set_ld_redirect (s +:+ post) d)
      else Fault
  end.

(** inode.c: ovl_lookup_trap_inode, over the inode cache of the super block *)
Definition S_DEAD : Z := 16.
Definition ovl_lookup_trap_inode (icache : Z → option ovl_inode) (dir : dentry) : outcome bool :=
  match d_inode dir with
  | None => Fault
  | Some key =>
      match icache (i_ptr key) with
      | None => Ret false
      | Some trap =>
          Ret (has_any (i_flags (oi_vfs trap)) S_DEAD &&
               negb (bool_decide (is_Some (ovl_inode_upper trap))) &&
               negb (bool_decide (is_Some (ovl_inode_lower trap))))
      end
  end.

Context (icache : Z → option ovl_inode).

(** ovl_lookup_single: result, lookup state, [*ret] when the result is 0 *)
Definition ovl_lookup_single w (base : dentry) (d : ovl_lookup_data) (name : string)
    (prelen : Z) (post : string) : outcome (Z * ovl_lookup_data * option dentry) :=
  let last_element := is_empty post in
  match lookup_one_len_unlocked w name base with
  | PNull => Fault
  | PErr err =>
      if (err =? - ENOENT) || (err =? - ENAMETOOLONG) then Ret (0, d, None)
      else Ret (err, d, None)
  | PPtr this =>
      if negb (bool_decide (is_Some (d_inode this))) then Ret (0, d, None)
      else if ovl_dentry_weird this then Ret (- EREMOTE, d, None)
      else if ovl_is_whiteout this then Ret (0, set_ld_stop true (set_ld_opaque true d), None)
      else if last_element && ld_metacopy d && negb (d_is_reg this)
      then Ret (0, set_ld_stop true d, None)
      else
        (* [inl]: the code jumped out; [inr]: it goes on to the redirect *)
        step ←
          (if negb (d_can_lookup this) then
             if ld_is_dir d || negb last_element then Ret (inl (0, set_ld_stop true d, None))
             else
               err ← ovl_check_metacopy_xattr w this;
               if err <? 0 then Ret (inl (err, d, None)) else
               let d := set_ld_metacopy (negb (err =? 0)) d in
               let d := set_ld_stop (negb (ld_metacopy d)) d in
               if negb (ld_metacopy d) || ld_last d then Ret (inl (0, d, Some this))
               else Ret (inr d)
           else
             trap ← ovl_lookup_trap_inode icache this;
             if (trap : bool) then Ret (inl (- ELOOP, d, None)) else
             let d := if last_element then set_ld_is_dir true d else d in
             if ld_last d then Ret (inl (0, d, Some this))
             else if ovl_is_opaquedir w this then
               let d := set_ld_stop true d in
               let d := if last_element then set_ld_opaque true d else d in
               Ret (inl (0, d, Some this))
             else Ret (inr d));
        match step with
        | inl r => Ret r
        | inr d =>
            '(err, d) ← ovl_check_redirect w this d prelen post;
            if negb (err =? 0) then Ret (err, d, None) else Ret (0, d, Some this)
        end
  end.

(** The loop of ovl_lookup_layer; [rem] counts from the end of the name. *)
Fixpoint lookup_layer_loop (fuel : nat) w (base : option dentry) (d : ovl_lookup_data) (rem : Z)
    (found : option dentry) : outcome (Z * ovl_lookup_data * option dentry) :=
  match base with
  | Some b =>
      if d_can_lookup b then
        match fuel with
        | O => NoFuel
        | S fuel =>
            let off := strlen (ld_name d) - rem in
            if negb (bool_decide (1 ≤ off ≤ strlen (ld_name d))) then Fault else
            let s := sdrop (Z.to_nat off) (ld_name d) in
            let thislen := strlen (seg s) in
            let next := strchrnul s in
            let at_end := is_empty next in
            if negb (starts_slash (sdrop (Z.to_nat (off - 1)) (ld_name d)))
            then Ret (- EIO, d, None) else
            '(err, d, base') ← ovl_lookup_single w b d (seg s) off next;
            if negb (err =? 0) then Ret (err, d, None) else
            if at_end then Ret (0, d, base') else
            let rem := u64 (rem - (thislen + 1)) in
            if strlen (ld_name d) <=? rem then Ret (- EIO, d, None)
            else lookup_layer_loop fuel w base' d rem base'
        end
      else Ret (0, d, found)
  | None => Ret (0, d, found)
  end.

Definition ovl_lookup_layer (fuel : nat) w (base : dentry) (d : ovl_lookup_data)
    : outcome (Z * ovl_lookup_data * option dentry) :=
  let rem := u64 (strlen (ld_name d) - 1) in
  if negb (starts_slash (ld_name d))
  then ovl_lookup_single w base d (ld_name d) 0 EmptyString
  else lookup_layer_loop fuel w (Some base) d rem None.

End xattr.

(** ** dir.c: composing a redirect *)

(** The names and cached redirects from a dentry up to the root, root excluded. *)
Definition ancestry : Type := list (string * option string).

Fixpoint get_redirect_loop (anc : ancestry) (buflen : Z) (acc : string) : Z + string :=
  match anc with
  | [] => inr acc
  | (d_name, redirect) :: up =>
      let name := default d_name redirect in
      let thislen := strlen name in
      if buflen <? thislen + (if starts_slash name then 0 else 1) then inl (- EXDEV) else
      let buflen := buflen - thislen in
      let acc := name +:+ acc in
      if starts_slash acc then inr acc
      else get_redirect_loop up (buflen - 1) (String SLASH acc)
  end.

Section set_redirect.
Context {W : Type} `{Under W}.
Implicit Types (w : W).
(** the module parameter redirect_max *)
Context (ovl_redirect_max : Z).

Definition ovl_get_redirect w (anc : ancestry) (abs_redirect : bool) : outcome (Z + string) :=
  if negb abs_redirect then
    match anc with
    | [] => Fault
    | (d_name, _) :: _ =>
        Ret (if kmalloc_ok w (strlen d_name + 1) then inr d_name else inl (- ENOMEM))
    end
  else
    let buflen := ovl_redirect_max + 1 in
    if negb (kmalloc_ok w buflen) then Ret (inl (- ENOMEM)) else
    match get_redirect_loop anc (buflen - 1) EmptyString with
    | inl e => Ret (inl e)
    | inr s => Ret (if kmalloc_ok w (strlen s + 1) then inr s else inl (- ENOMEM))
    end.

Definition ovl_need_absolute_redirect (d : odentry) (samedir : bool) : outcome bool :=
  if negb samedir then Ret true
  else if S_ISDIR (i_mode (oi_vfs (od_inode d))) then Ret false
  else match ovl_dentry_lower d ≫= d_inode with
       | Some li => Ret (1 <? i_nlink li)
       | None => Fault
       end.

(** ovl_set_redirect; [up] is the ancestry of the parent *)
Definition ovl_set_redirect w (ofs : ovl_fs) (d : odentry) (up : ancestry) (samedir : bool)
    : outcome (Z * odentry * ovl_fs * W) :=
  let redirect := oi_redirect (od_inode d) in
  absolute_redirect ← ovl_need_absolute_redirect d samedir;
  if match redirect with
     | Some r => negb absolute_redirect || starts_slash r
     | None => false
     end
  then Ret (0, d, ofs, w) else
  r ← ovl_get_redirect w ((od_name d, redirect) :: up) absolute_redirect;
  match r with
  | inl e => Ret (e, d, ofs, w)
  | inr redirect =>
      match ovl_dentry_upper d with
      | None => Fault
      | Some upper =>
          let '(err, ofs, w) :=
            ovl_check_setxattr w ofs upper OVL_XATTR_REDIRECT (bytes_of redirect) (- EXDEV) in
          if err =? 0
          then Ret (0, set_od_inode (set_oi_redirect (Some redirect) (od_inode d)) d, ofs, w)
          else Ret (- EXDEV, d, ofs, w)
      end
  end.

End set_redirect.
