(* ===== verification/RedirectProps.v ===== *)
(** Properties of redirects and of the lookup in one layer: the redirects the
    code accepts are well formed and fit their buffers, the walk over a path
    visits exactly its elements although redirects rewrite the name under it,
    and a redirect that dir.c stores is read back unchanged. *)

From Stdlib Require Import Ascii.
From S2P Require Import Prelude Types Util Under Nlink Fh FhProps Redirect.
Local Open Scope Z_scope.

(** ** Strings and paths *)

Definition noslash (s : string) : Prop := strchrnul s = EmptyString.

(** [slashed [a; b; c]] is "/a/b/c". *)
Fixpoint slashed (cs : list string) : string :=
  match cs with [] => EmptyString | c :: cs => String SLASH (c +:+ slashed cs) end.

Lemma strlen_app a b : strlen (a +:+ b) = strlen a + strlen b.
Proof. unfold strlen. rewrite slen_app. lia. Qed.
Lemma strlen_nonneg a : 0 ≤ strlen a.
Proof. unfold strlen. lia. Qed.
Lemma strlen_cons c a : strlen (String c a) = strlen a + 1.
Proof. unfold strlen. cbn [String.length]. lia. Qed.

Lemma sdrop_app a b : sdrop (Z.to_nat (strlen a)) (a +:+ b) = b.
Proof.
  unfold strlen. rewrite Nat2Z.id. induction a as [|c a IH]; [by destruct b|]. exact IH.
Qed.
Lemma stake_app a b : stake (Z.to_nat (strlen a)) (a +:+ b) = a.
Proof.
  unfold strlen. rewrite Nat2Z.id. induction a as [|c a IH]; [by destruct b|].
  rewrite sapp_cons. cbn [String.length stake]. by rewrite IH.
Qed.
Lemma strlen_stake n s : 0 ≤ n ≤ strlen s → strlen (stake (Z.to_nat n) s) = n.
Proof.
  unfold strlen. intros Hn. assert (∀ m s, (m ≤ String.length s)%nat → String.length (stake m s) = m) as Hs.
  { clear. induction m as [|m IH]; intros [|c s]; cbn; try lia. intros. rewrite IH; lia. }
  rewrite Hs; lia.
Qed.

Lemma seg_strchrnul s : seg s +:+ strchrnul s = s.
Proof.
  induction s as [|c s IH]; [done|]. cbn. destruct (Ascii.eqb c SLASH); [done|].
  rewrite sapp_cons. by rewrite IH.
Qed.

Lemma strchrnul_shape s : strchrnul s = EmptyString ∨ ∃ t, strchrnul s = String SLASH t.
Proof.
  induction s as [|c s IH]; [by left|]. cbn.
  destruct (Ascii.eqb_spec c SLASH) as [->|]; [right; by eexists|done].
Qed.

Lemma seg_noslash s : noslash (seg s).
Proof.
  unfold noslash. induction s as [|c s IH]; [done|]. cbn.
  destruct (Ascii.eqb_spec c SLASH) as [|Hc]; [done|]. cbn. by destruct (Ascii.eqb_spec c SLASH).
Qed.

Lemma noslash_split c t :
  noslash c → (t = EmptyString ∨ ∃ u, t = String SLASH u) →
  seg (c +:+ t) = c ∧ strchrnul (c +:+ t) = t.
Proof.
  intros Hc Ht. induction c as [|x c IH].
  - rewrite sapp_nil. destruct Ht as [->|[u ->]]; done.
  - unfold noslash in Hc. cbn in Hc. rewrite sapp_cons. cbn.
    destruct (Ascii.eqb x SLASH); [done|]. destruct (IH Hc) as [-> ->]. done.
Qed.

Lemma slashed_shape cs : slashed cs = EmptyString ∨ ∃ u, slashed cs = String SLASH u.
Proof. destruct cs; [by left|right; by eexists]. Qed.

Lemma slashed_exists s :
  (s = EmptyString ∨ ∃ t, s = String SLASH t) → ∃ cs, Forall noslash cs ∧ s = slashed cs.
Proof.
  remember (String.length s) as n eqn:En. revert s En.
  induction n as [n IH] using lt_wf_ind. intros s -> [->|[t ->]]; [by exists []|].
  destruct (IH (String.length (strchrnul t))) with (strchrnul t) as (cs & Hcs & E);
    [|done|apply strchrnul_shape|].
  { rewrite <- (seg_strchrnul t) at 2. cbn. rewrite slen_app. lia. }
  exists (seg t :: cs). split; [constructor; [apply seg_noslash|done]|].
  cbn. by rewrite <- E, seg_strchrnul.
Qed.

Lemma redirect_abs_loop_spec cs : Forall noslash cs → ∀ fuel,
  (String.length (slashed cs) < fuel)%nat →
  redirect_abs_loop fuel (slashed cs) = Ret (forallb (λ c, negb (is_empty c)) cs).
Proof.
  induction 1 as [|c cs Hc _ IH]; intros [|fuel] Hf; try lia; [done|].
  cbn [slashed redirect_abs_loop forallb]. cbn [slashed String.length] in Hf. rewrite slen_app in Hf.
  rewrite Ascii.eqb_refl. destruct (noslash_split c (slashed cs) Hc (slashed_shape cs)) as [-> ->].
  destruct (is_empty c); [done|]. apply IH. lia.
Qed.

Lemma slashed_inj cs : Forall noslash cs → ∀ cs', Forall noslash cs' →
  slashed cs = slashed cs' → cs = cs'.
Proof.
  induction 1 as [|c cs Hc _ IH]; intros [|c' cs'] Hcs' E; try done.
  apply Forall_cons in Hcs' as [Hc' Hcs']. cbn in E.
  assert (c +:+ slashed cs = c' +:+ slashed cs') as E' by congruence.
  destruct (noslash_split c (slashed cs) Hc (slashed_shape cs)) as [E1 E2].
  destruct (noslash_split c' (slashed cs') Hc' (slashed_shape cs')) as [E1' E2'].
  rewrite E' in E1, E2. rewrite (IH cs') by congruence. congruence.
Qed.

(** The redirects the code accepts: one element, or an absolute path without
    empty elements. *)
Definition redirect_valid (s : string) : Prop :=
  noslash s ∨ ∃ cs, cs ≠ [] ∧ Forall (λ c, noslash c ∧ c ≠ EmptyString) cs ∧ s = slashed cs.

Lemma string_of_app a b : string_of (a ++ b) = string_of a +:+ string_of b.
Proof.
  induction a as [|x a IH]; [done|].
  change (String (ascii_of_byte x) (string_of (a ++ b)) =
          String (ascii_of_byte x) (string_of a) +:+ string_of b).
  by rewrite sapp_cons, IH.
Qed.

Lemma cstr_padded_len a n :
  strlen (cstr (string_of (a ++ replicate (S n) x00))) ≤ zlen a.
Proof.
  rewrite string_of_app. induction a as [|x a IH]; [done|].
  change (string_of (x :: a)) with (String (ascii_of_byte x) (string_of a)).
  rewrite sapp_cons. cbn [cstr]. unfold zlen in *. case_bool_decide; [done|].
  rewrite strlen_cons. cbn [length]. lia.
Qed.

Lemma cstr_padded a n : no_nul (string_of a) → cstr (string_of (a ++ replicate (S n) x00)) = string_of a.
Proof.
  rewrite string_of_app. induction a as [|x a IH]; [done|].
  change (string_of (x :: a)) with (String (ascii_of_byte x) (string_of a)).
  rewrite sapp_cons. cbn [cstr no_nul]. intros [Hx Ha]. rewrite bool_decide_false by done. by rewrite IH.
Qed.

Section redirect.
Context {W : Type} `{UnderLaws W}.
Implicit Types (w : W) (d : ovl_lookup_data).

(** ** Reading a redirect *)

Lemma getxattr_ret w x name padding :
  0 ≤ padding →
  ∃ res buf, ovl_getxattr w x name padding = (res, buf) ∧
    (0 < res → ∃ b, stored w x name b ∧ res = zlen b ∧ zlen b + padding ≤ KMALLOC_MAX_SIZE ∧
       buf = Some (b ++ replicate (Z.to_nat padding) x00)).
Proof.
  intros Hp. unfold ovl_getxattr. destruct (vfs_getxattr w x name 0) as [res junk] eqn:E0.
  destruct (Z.ltb_spec res 0).
  { case_match; eexists _, _; (split; [done|]); unfold ENODATA; lia. }
  destruct (Z.eqb_spec res 0) as [->|]; cbn [negb]; [eexists _, _; split; [done|lia]|].
  destruct (kmalloc_ok w (res + padding)) eqn:Hk; cbn [negb];
    [apply law_kmalloc_max in Hk|eexists _, _; split; [done|unfold ENOMEM; lia]].
  destruct (law_getxattr_size w x name) as (b & Hb & Hg); [rewrite E0; cbn; lia|].
  rewrite E0 in Hb. cbn in Hb. subst res. rewrite Hg by lia.
  destruct (Z.ltb_spec (zlen b) 0); [lia|]. eexists _, _. split; [done|].
  intros _. exists b. split; [split; [by rewrite E0|done]|]. split; [done|]. split; [done|].
  by replace (zlen b + padding - zlen b) with padding by lia.
Qed.

Lemma redirect_valid_check s (cap : Z) :
  ∃ r : eptr (string * Z),
  (if starts_slash s then
     ok ← redirect_abs_loop (S (String.length s)) s;
     if (ok : bool) then Ret (PPtr (s, cap)) else Ret (PErr (- EINVAL))
   else if has_slash s then Ret (PErr (- EINVAL)) else Ret (PPtr (s, cap))) = Ret r ∧
  ((r = PPtr (s, cap) ∧ redirect_valid s) ∨ (r = PErr (- EINVAL) ∧ ¬ redirect_valid s)).
Proof.
  destruct (starts_slash s) eqn:Hs.
  - destruct (slashed_exists s) as (cs & Hcs & ->).
    { destruct s as [|c s]; [done|]. cbn in Hs. apply Ascii.eqb_eq in Hs as ->. right. by eexists. }
    rewrite redirect_abs_loop_spec by (done || lia). cbn [mbind outcome_bind].
    destruct (forallb _ cs) eqn:Hall; eexists; (split; [reflexivity|]); [left|right]; (split; [done|]).
    + right. exists cs. split; [by intros ->|]. split; [|done].
      rewrite forallb_forall in Hall. rewrite Forall_forall in Hcs |- *. intros c Hc.
      split; [by apply Hcs|]. apply list_elem_of_In, Hall in Hc. by destruct c.
    + intros Hv. apply not_true_iff_false in Hall. apply Hall. 
      destruct Hv as [Hv | (cs' & _ & Hcs' & E)].
      { destruct cs; [done|]. by cbn in Hv. }
      assert (cs = cs') as ->.
      { apply slashed_inj; [done| |done]. eapply Forall_impl; [exact Hcs'|]. by intros c []. }
      apply forallb_forall. intros c Hc. rewrite Forall_forall in Hcs'.
      apply list_elem_of_In, Hcs' in Hc as [_ Hc]. by destruct c.
  - unfold has_slash. destruct (is_empty (strchrnul s)) eqn:He; cbn [negb]; eexists; (split; [reflexivity|]).
    + left. split; [done|]. left. unfold noslash. by destruct (strchrnul s).
    + right. split; [done|]. intros [Hv|(cs & Hne & _ & ->)].
      * unfold noslash in Hv. by rewrite Hv in He.
      * by destruct cs.
Qed.

Lemma get_redirect_ret w x padding :
  0 ≤ padding →
  ∃ r, ovl_get_redirect_xattr w x padding = Ret r ∧
    ∀ s cap, r = PPtr (s, cap) →
      redirect_valid s ∧ no_nul s ∧ strlen s + padding + 1 ≤ cap ≤ KMALLOC_MAX_SIZE.
Proof.
  intros Hp. unfold ovl_get_redirect_xattr.
  destruct (getxattr_ret w x OVL_XATTR_REDIRECT (padding + 1)) as (res & buf & -> & Hb); [lia|].
  destruct (Z.eqb_spec res (- ENODATA)); [by eexists|].
  destruct (Z.ltb_spec res 0); [by eexists|]. destruct (Z.eqb_spec res 0); [by eexists|].
  destruct (Hb ltac:(lia)) as (b & _ & -> & Hmax & ->). set (c := b ++ _).
  destruct (redirect_valid_check (cstr (string_of c)) (zlen c)) as (r & -> & Hr).
  eexists. split; [done|]. intros s cap ->. destruct Hr as [[E Hv]|[? _]]; [|done].
  injection E as -> ->. split; [done|]. split; [apply cstr_no_nul|].
  assert (zlen c = zlen b + padding + 1) as ->
    by (subst c; rewrite zlen_app; unfold zlen at 2; rewrite length_replicate; lia).
  subst c. replace (Z.to_nat (padding + 1)) with (S (Z.to_nat padding)) by lia.
  pose proof (cstr_padded_len b (Z.to_nat padding)). lia.
Qed.

(** A stored redirect is read back exactly when it is valid. *)
Lemma get_redirect_stored w x s :
  stored w x OVL_XATTR_REDIRECT (bytes_of s) → s ≠ EmptyString → no_nul s →
  kmalloc_ok w (strlen s + 1) = true → redirect_valid s →
  ovl_get_redirect_xattr w x 0 = Ret (PPtr (s, strlen s + 1)).
Proof.
  intros [Hs Hg] Hne Hnn Hk Hv. unfold ovl_get_redirect_xattr, ovl_getxattr.
  pose proof (zlen_bytes_of s) as Hl. fold (strlen s) in Hl.
  assert (0 < strlen s) by (destruct s; [done|rewrite strlen_cons; pose proof (strlen_nonneg s); lia]).
  destruct (vfs_getxattr w x OVL_XATTR_REDIRECT 0) as [res junk]. cbn in Hs. rewrite Hl in Hs. subst res.
  destruct (Z.ltb_spec (strlen s) 0); [lia|]. destruct (Z.eqb_spec (strlen s) 0) as [|_]; [lia|].
  cbn [negb]. change (0 + 1) with 1. rewrite Hk. cbn [negb]. rewrite Hg by lia. rewrite Hl.
  destruct (Z.ltb_spec (strlen s) 0); [lia|].
  destruct (Z.eqb_spec (strlen s) (- ENODATA)); [unfold ENODATA in *; lia|].
  destruct (Z.ltb_spec (strlen s) 0); [lia|]. destruct (Z.eqb_spec (strlen s) 0); [lia|].
  replace (Z.to_nat (strlen s + 1 - strlen s)) with 1%nat by lia.
  rewrite cstr_padded, string_of_bytes_of by (by rewrite string_of_bytes_of).
  replace (zlen (bytes_of s ++ replicate 1 x00)) with (strlen s + 1)
    by (rewrite zlen_app, Hl; done).
  destruct (redirect_valid_check s (strlen s + 1)) as (r & -> & [[-> _]|[_ ?]]); done.
Qed.

(** ** One element *)

(** The rest [post] of the path stays at the end of the name, which stays
    bounded. *)
Definition keeps (d d' : ovl_lookup_data) (post : string) : Prop :=
  (ld_name d' = ld_name d ∨ ∃ pre, ld_name d' = pre +:+ post) ∧
  strlen (ld_name d') ≤ Z.max (strlen (ld_name d)) KMALLOC_MAX_SIZE.

Lemma check_redirect_ret w this d prelen post :
  0 ≤ prelen ≤ strlen (ld_name d) →
  ∃ err d', ovl_check_redirect w this d prelen post = Ret (err, d') ∧ keeps d d' post.
Proof.
  intros Hp. unfold ovl_check_redirect. pose proof (strlen_nonneg post).
  destruct (get_redirect_ret w this (prelen + strlen post)) as (r & -> & Hr); [lia|].
  cbn [mbind outcome_bind].
  destruct r as [|e|[s cap]]; [eexists _, _; (split; [done|split; [by left|lia]])..|].
  destruct (Hr s cap eq_refl) as (_ & _ & Hcap & Hmax).
  destruct (starts_slash s); cbn [mbind outcome_bind].
  - rewrite bool_decide_true by lia. eexists _, _. split; [done|].
    split; [right; by exists s|]. cbn. rewrite strlen_app. lia.
  - rewrite bool_decide_true by lia. cbn [mbind outcome_bind].
    rewrite strlen_app, strlen_stake by done. rewrite bool_decide_true by lia.
    eexists _, _. split; [done|]. split; [right; by eexists|].
    cbn. rewrite !strlen_app, strlen_stake by done. lia.
Qed.

Lemma check_metacopy_ret w x : is_Some (d_inode x) → ∃ e, ovl_check_metacopy_xattr w x = Ret e.
Proof.
  intros [i Hi]. unfold ovl_check_metacopy_xattr. rewrite Hi. destruct (vfs_getxattr _ _ _ _).
  repeat case_match; by eexists.
Qed.

Lemma trap_ret ic x : is_Some (d_inode x) → ∃ t, ovl_lookup_trap_inode ic x = Ret t.
Proof.
  intros [i Hi]. unfold ovl_lookup_trap_inode. rewrite Hi. case_match; by eexists.
Qed.

Lemma lookup_single_ret ic w base d name prelen post :
  0 ≤ prelen ≤ strlen (ld_name d) →
  ∃ err d' this, ovl_lookup_single ic w base d name prelen post = Ret (err, d', this) ∧
    keeps d d' post ∧ (∀ x, this = Some x → is_Some (d_inode x)).
Proof.
  intros Hp. unfold ovl_lookup_single.
  assert (∀ d', ld_name d' = ld_name d → keeps d d' post) as Hk by (intros d' E; split; [by left|rewrite E; lia]).
  destruct (lookup_one_len_unlocked w name base) as [|e|this] eqn:El; [by apply law_lookup in El| |].
  { case_match; eexists _, _, _; (split; [done|split; [by apply Hk|done]]). }
  case_bool_decide as Hpos; cbn [negb]; [|eexists _, _, _; by (split; [done|split; [by apply Hk|]])].
  assert (∀ o : option dentry, o = None ∨ o = Some this → ∀ x, o = Some x → is_Some (d_inode x)) as Ho
    by (intros o [->| ->]; [done|by intros x [= <-]]).
  do 3 (case_match; [eexists _, _, _; by (split; [done|split; [by apply Hk|]])|]).
  assert (∀ d1, ld_name d1 = ld_name d → ∃ err d' this',
    ('(err, d2) ← ovl_check_redirect w this d1 prelen post;
     if negb (err =? 0) then Ret (err, d2, None) else Ret (0, d2, Some this)) = Ret (err, d', this')
    ∧ keeps d d' post ∧ (∀ x, this' = Some x → is_Some (d_inode x))) as Hcont.
  { intros d1 E1. destruct (check_redirect_ret w this d1 prelen post) as (err & d' & -> & Hd');
      [by rewrite E1|]. cbn [mbind outcome_bind]. unfold keeps in *. rewrite E1 in Hd'.
    case_match; eexists _, _, _; (split; [done|split; [done|apply Ho; by auto]]). }
  assert (∀ err d1 o, ld_name d1 = ld_name d → o = None ∨ o = Some this → ∃ err' d' this',
    @Ret (Z * ovl_lookup_data * option dentry) (err, d1, o) = Ret (err', d', this') ∧ keeps d d' post ∧
    (∀ x, this' = Some x → is_Some (d_inode x))) as Hret.
  { intros err d1 o E1 Eo. eexists _, _, _. split; [done|]. split; [by apply Hk|by apply Ho]. }
  destruct (d_can_lookup this); cbn [negb].
  - destruct (trap_ret ic this Hpos) as [t ->]. cbn [mbind outcome_bind].
    repeat (case_match; try (by apply Hret; auto)); by apply Hcont.
  - destruct (check_metacopy_ret w this Hpos) as [e ->].
    destruct (_ || _); cbn [mbind outcome_bind]; [by apply Hret; auto|].
    repeat (case_match; try (by apply Hret; auto)); by apply Hcont.
Qed.

(** ** The walk over a path *)

(** Looking up the elements [cs] one after the other, each with the position
    and the rest of the path that belongs to it. *)
Fixpoint walk ic w (base : option dentry) (d : ovl_lookup_data) (cs : list string)
    (found : option dentry) : outcome (Z * ovl_lookup_data * option dentry) :=
  match cs, base with
  | c :: cs, Some b =>
      if d_can_lookup b then
        let post := slashed cs in
        '(err, d, base) ←
          ovl_lookup_single ic w b d c (strlen (ld_name d) - strlen post - strlen c) post;
        if negb (err =? 0) then Ret (err, d, None) else walk ic w base d cs base
      else Ret (0, d, found)
  | _, _ => Ret (0, d, found)
  end.

Lemma lookup_layer_loop_walks ic w cs : Forall noslash cs → cs ≠ [] →
  ∀ fuel base d pre found,
  (length cs ≤ fuel)%nat → strlen (slashed cs) < two64 → ld_name d = pre +:+ slashed cs →
  ∃ err d' this, lookup_layer_loop ic fuel w base d (strlen (slashed cs) - 1) found = Ret (err, d', this) ∧
    walk ic w base d cs found = Ret (err, d', this) ∧
    strlen (ld_name d') ≤ Z.max (strlen (ld_name d)) KMALLOC_MAX_SIZE ∧
    ((∀ x, found = Some x → is_Some (d_inode x)) → ∀ x, this = Some x → is_Some (d_inode x)).
Proof.
  induction 1 as [|c cs Hc Hcs IH]; [done|]. intros _ fuel base d pre found Hfuel Hlen Hname.
  assert (∀ (err : Z) o, o = None ∨ o = found → ∃ err' d' this,
    @Ret (Z * ovl_lookup_data * option dentry) (err, d, o) = Ret (err', d', this) ∧
    @Ret (Z * ovl_lookup_data * option dentry) (err, d, o) = Ret (err', d', this) ∧
    strlen (ld_name d') ≤ Z.max (strlen (ld_name d)) KMALLOC_MAX_SIZE ∧
    ((∀ x, found = Some x → is_Some (d_inode x)) → ∀ x, this = Some x → is_Some (d_inode x))) as Hret.
  { intros err o Ho. eexists _, _, _. split; [done|]. split; [done|]. split; [lia|].
    destruct Ho as [-> | ->]; [done|auto]. }
  destruct base as [b|]; [|destruct fuel; apply Hret; auto]. cbn [walk].
  destruct fuel as [|fuel]; [cbn in Hfuel; lia|]. cbn [lookup_layer_loop].
  destruct (d_can_lookup b); [|apply Hret; auto].
  assert (ld_name d = (pre +:+ String SLASH EmptyString) +:+ (c +:+ slashed cs)) as Hname'
    by (rewrite Hname, sapp_assoc; done).
  pose proof (strlen_nonneg pre). pose proof (strlen_nonneg c). pose proof (strlen_nonneg (slashed cs)) as Hn.
  cbn [slashed] in Hlen, Hname |- *. rewrite strlen_cons, strlen_app in *.
  set (off := strlen (ld_name d) - (strlen c + strlen (slashed cs) + 1 - 1)).
  assert (strlen (ld_name d) = strlen pre + 1 + strlen c + strlen (slashed cs)) as Hl
    by (rewrite Hname', !strlen_app; change (strlen (String SLASH EmptyString)) with 1; lia).
  assert (off = strlen pre + 1) as Eoff by lia.
  rewrite bool_decide_true by lia. cbn [negb].
  assert (sdrop (Z.to_nat off) (ld_name d) = c +:+ slashed cs) as ->.
  { rewrite Hname', Eoff. rewrite <- (sdrop_app (pre +:+ String SLASH EmptyString) (c +:+ slashed cs)) at 2.
    f_equal. rewrite strlen_app. done. }
  assert (sdrop (Z.to_nat (off - 1)) (ld_name d) = String SLASH (c +:+ slashed cs)) as ->.
  { rewrite Hname. replace (off - 1) with (strlen pre) by lia. apply sdrop_app. }
  cbn [starts_slash]. rewrite Ascii.eqb_refl. cbn [negb].
  destruct (noslash_split c (slashed cs) Hc (slashed_shape cs)) as [-> ->].
  replace (strlen (ld_name d) - strlen (slashed cs) - strlen c) with off by lia.
  destruct (lookup_single_ret ic w b d c off (slashed cs)) as (err & d' & this & -> & [Hk Hkm] & Hpos); [lia|].
  cbn [mbind outcome_bind].
  destruct (err =? 0); cbn [negb]; [|eexists _, _, _; (split; [done|split; [done|split; [lia|done]]])].
  destruct cs as [|c' cs].
  { cbn [slashed is_empty walk]. destruct this; eexists _, _, _; (split; [done|split; [done|split; [lia|done]]]). }
  cbn [slashed is_empty]. change (String SLASH (c' +:+ slashed cs)) with (slashed (c' :: cs)) in *.
  assert (∃ pre', ld_name d' = pre' +:+ slashed (c' :: cs)) as [pre' Hpre'].
  { destruct Hk as [->|Hk]; [|done]. exists (pre +:+ String SLASH c). rewrite Hname', !sapp_assoc. done. }
  assert (1 ≤ strlen (slashed (c' :: cs))).
  { cbn [slashed]. rewrite strlen_cons. pose proof (strlen_nonneg (c' +:+ slashed cs)). lia. }
  rewrite u64_small by lia.
  replace (strlen c + strlen (slashed (c' :: cs)) + 1 - 1 - (strlen c + 1))
    with (strlen (slashed (c' :: cs)) - 1) by lia.
  assert (strlen (slashed (c' :: cs)) ≤ strlen (ld_name d'))
    by (rewrite Hpre', strlen_app; pose proof (strlen_nonneg pre'); lia).
  destruct (Z.leb_spec (strlen (ld_name d')) (strlen (slashed (c' :: cs)) - 1)); [lia|].
  destruct (IH ltac:(done) fuel this d' pre' this) as (e2 & d2 & t2 & -> & -> & Hb & Ht);
    [cbn in Hfuel |- *; lia|lia|done|].
  eexists _, _, _. split; [done|]. split; [done|]. split; [lia|]. intros _. by apply Ht.
Qed.

(** C29: Looking up a path in one layer.  For an absolute name the pointer
    arithmetic of [ovl_lookup_layer], which counts from the end of a name that
    redirects replace while it is walked, visits exactly the elements of the
    path in order: it always returns, its WARN_ONs never fire, it never leaves
    the name's buffer, and it computes what looking the elements up one after
    the other computes. *)
Theorem lookup_layer_walks_path ic w base d cs fuel :
  cs ≠ [] → Forall noslash cs → ld_name d = slashed cs → strlen (ld_name d) < two64 →
  (length cs ≤ fuel)%nat →
  ∃ r, ovl_lookup_layer ic fuel w base d = Ret r ∧ walk ic w (Some base) d cs None = Ret r.
Proof.
  intros Hne Hcs Hname Hlen Hfuel. unfold ovl_lookup_layer.
  assert (1 ≤ strlen (slashed cs)).
  { destruct cs as [|c cs]; [done|]. cbn [slashed]. rewrite strlen_cons.
    pose proof (strlen_nonneg (c +:+ slashed cs)). lia. }
  assert (starts_slash (ld_name d) = true) as ->.
  { rewrite Hname. destruct cs; [done|]. cbn. done. }
  cbn [negb]. rewrite Hname in *. rewrite u64_small by lia.
  destruct (lookup_layer_loop_walks ic w cs Hcs Hne fuel (Some base) d EmptyString None)
    as (err & d' & this & E & Ew & _); try done. by eexists.
Qed.

(** Every lookup in a layer returns; it finds positive dentries only. *)
Lemma lookup_layer_ret ic w base d fuel :
  strlen (ld_name d) < two64 → (String.length (ld_name d) ≤ fuel)%nat →
  ∃ err d' this, ovl_lookup_layer ic fuel w base d = Ret (err, d', this) ∧
    strlen (ld_name d') ≤ Z.max (strlen (ld_name d)) KMALLOC_MAX_SIZE ∧
    (∀ x, this = Some x → is_Some (d_inode x)).
Proof.
  intros Hlen Hf. unfold ovl_lookup_layer. destruct (starts_slash (ld_name d)) eqn:Hs; cbn [negb].
  - destruct (slashed_exists (ld_name d)) as (cs & Hcs & E).
    { destruct (ld_name d); [by left|right]. cbn in Hs. apply Ascii.eqb_eq in Hs as ->. by eexists. }
    assert (length cs ≤ String.length (slashed cs))%nat as Hcl.
    { clear. induction cs as [|c cs IH]; [done|]. cbn. rewrite slen_app. lia. }
    rewrite E in *. assert (1 ≤ strlen (slashed cs)).
    { destruct (slashed cs); [done|]. rewrite strlen_cons. pose proof (strlen_nonneg s). lia. }
    rewrite u64_small by lia.
    destruct (lookup_layer_loop_walks ic w cs Hcs) with fuel (Some base) d EmptyString (@None dentry)
      as (err & d' & this & -> & _ & Hb & Ht); try done; try lia.
    { by intros ->. }
    eexists _, _, _. split; [done|]. rewrite E in Hb. split; [done|]. by apply Ht.
  - destruct (lookup_single_ret ic w base d (ld_name d) 0 EmptyString) as (err & d' & this & -> & [_ Hb] & Ht);
      [pose proof (strlen_nonneg (ld_name d)); lia|]. by eexists _, _, _.
Qed.

(** ** Stored redirects *)

(** The whole redirect path: names or cached redirects up to the nearest
    absolute redirect, or to the root. *)
Fixpoint full_path (anc : ancestry) (acc : string) : string :=
  match anc with
  | [] => acc
  | (n, r) :: up =>
      let name := default n r in
      if starts_slash name then name +:+ acc else full_path up (String SLASH (name +:+ acc))
  end.

Definition ancestry_ok (anc : ancestry) : Prop :=
  Forall (λ '(n, r), let name := default n r in
    redirect_valid name ∧ name ≠ EmptyString ∧ no_nul name) anc.

Lemma full_path_len anc : ∀ acc, strlen acc ≤ strlen (full_path anc acc).
Proof.
  induction anc as [|[n r] up IH]; intros acc; cbn [full_path]; [lia|].
  destruct (starts_slash _).
  - rewrite strlen_app. pose proof (strlen_nonneg (default n r)). lia.
  - etrans; [|apply IH]. rewrite strlen_cons, strlen_app. pose proof (strlen_nonneg (default n r)). lia.
Qed.

Lemma get_redirect_loop_spec anc : ancestry_ok anc → ∀ max acc,
  strlen acc ≤ max →
  get_redirect_loop anc (max - strlen acc) acc =
  if strlen (full_path anc acc) <=? max then inr (full_path anc acc) else inl (- EXDEV).
Proof.
  induction 1 as [|[n r] up (Hv & Hne & _) _ IH]; intros max acc Hacc; cbn [get_redirect_loop full_path].
  { by destruct (Z.leb_spec (strlen acc) max); [|lia]. }
  set (name := default n r) in *.
  assert (starts_slash (name +:+ acc) = starts_slash name) as -> by (by destruct name).
  destruct (starts_slash name).
  - rewrite strlen_app. destruct (Z.ltb_spec (max - strlen acc) (strlen name + 0)),
      (Z.leb_spec (strlen name + strlen acc) max); done || lia.
  - destruct (Z.ltb_spec (max - strlen acc) (strlen name + 1)).
    + destruct (Z.leb_spec (strlen (full_path up (String SLASH (name +:+ acc)))) max) as [Hle|]; [|done].
      pose proof (full_path_len up (String SLASH (name +:+ acc))) as Hf.
      rewrite strlen_cons, strlen_app in Hf. lia.
    + rewrite <- (IH max (String SLASH (name +:+ acc))) by (rewrite strlen_cons, strlen_app; lia).
      f_equal. rewrite strlen_cons, strlen_app. lia.
Qed.

Lemma no_nul_elem c s : c ≠ NUL → no_nul s → no_nul (String c s).
Proof. by split. Qed.

Lemma full_path_valid anc : ancestry_ok anc → ∀ cs, 
  Forall (λ c, noslash c ∧ c ≠ EmptyString ∧ no_nul c) cs → anc ≠ [] ∨ cs ≠ [] →
  redirect_valid (full_path anc (slashed cs)) ∧ no_nul (full_path anc (slashed cs)) ∧
  full_path anc (slashed cs) ≠ EmptyString.
Proof.
  assert (∀ cs, Forall (λ c, noslash c ∧ c ≠ EmptyString ∧ no_nul c) cs → no_nul (slashed cs)) as Hnn.
  { induction 1 as [|c cs (_ & _ & Hc) _ IH]; [done|]. cbn. split; [done|]. by apply no_nul_app. }
  induction 1 as [|[n r] up (Hv & Hne & Hnul) _ IH]; intros cs Hcs Hor; cbn [full_path].
  - destruct Hor as [|Hcs']; [done|]. split; [|split; [by apply Hnn|by destruct cs]].
    right. exists cs. split; [done|]. split; [|done]. eapply Forall_impl; [exact Hcs|]. naive_solver.
  - set (name := default n r) in *. destruct (starts_slash name) eqn:Hs.
    + destruct Hv as [Hv|(ns & Hns & Hall & E)].
      { destruct name as [|x name]; [done|]. unfold noslash in Hv. cbn in Hs, Hv. by rewrite Hs in Hv. }
      split; [|split; [apply no_nul_app; auto|by destruct name]].
      right. exists (ns ++ cs). split; [by destruct ns|]. split.
      * apply Forall_app. split; [done|]. eapply Forall_impl; [exact Hcs|]. naive_solver.
      * rewrite E. clear. induction ns as [|x ns IH]; [done|]. cbn. rewrite sapp_cons, sapp_assoc. by rewrite IH.
    + destruct Hv as [Hv|(ns & Hns & _ & E)]; [|by destruct ns; [|rewrite E in Hs]].
      change (String SLASH (name +:+ slashed cs)) with (slashed (name :: cs)).
      apply IH; [|by right]. by constructor.
Qed.

(** What ovl_check_setxattr with -EXDEV as its fallback does. *)
Lemma check_setxattr_ret w ofs upper name v e ofs' w' :
  ovl_check_setxattr w ofs upper name v (- EXDEV) = (e, ofs', w') →
  e = 0 → vfs_setxattr w upper name v 0 = (0, w').
Proof.
  unfold ovl_check_setxattr. destruct (fs_noxattr ofs); [intros [= <- <- <-]; done|].
  destruct (vfs_setxattr w upper name v 0) as [r w1]. destruct (r =? - EOPNOTSUPP).
  - intros [= <- <- <-]. done.
  - intros [= <- <- <-]. by intros ->.
Qed.

(** C30: Redirects of renamed directories.  [ovl_set_redirect] succeeds only
    with a well-formed redirect on the upper inode: either the one it already
    had, or the new one, which is the name itself when a relative redirect is
    enough and otherwise the whole path up to the nearest absolute redirect, at
    most [redirect_max] long; what it stored is read back by
    [ovl_get_redirect_xattr] unchanged.  A longer path is refused with -EXDEV
    and nothing is cached. *)
Theorem set_redirect_reads_back max w ofs (d : odentry) up samedir upper abs :
  let anc := (od_name d, oi_redirect (od_inode d)) :: up in
  ancestry_ok anc → noslash (od_name d) → od_name d ≠ EmptyString → no_nul (od_name d) →
  0 ≤ max → (∀ n, n ≤ Z.max (strlen (od_name d)) max + 1 → kmalloc_ok w n = true) →
  ovl_dentry_upper d = Some upper → ovl_need_absolute_redirect d samedir = Ret abs →
  ∃ err (d' : odentry) ofs' w', ovl_set_redirect max w ofs d up samedir = Ret (err, d', ofs', w') ∧
    (err ≠ 0 → err = - EXDEV ∧ d' = d) ∧
    (err = 0 → ∃ r, oi_redirect (od_inode d') = Some r ∧ redirect_valid r ∧
       ((d' = d ∧ w' = w ∧ (abs = true → starts_slash r = true)) ∨
        (r = (if abs then full_path anc EmptyString else od_name d) ∧
         (abs = true → strlen r ≤ max) ∧
         ovl_get_redirect_xattr w' upper 0 = Ret (PPtr (r, strlen r + 1))))).
Proof.
  intros anc Hanc Hns Hne Hnul Hmax Hk Hup Habs. unfold ovl_set_redirect. rewrite Habs. cbn [mbind outcome_bind].
  destruct (match oi_redirect (od_inode d) with Some r => negb abs || starts_slash r | None => false end) eqn:Hold.
  { eexists _, _, _, _. split; [done|]. split; [done|]. intros _.
    apply Forall_cons in Hanc as [(Hv & _ & _) _].
    destruct (oi_redirect (od_inode d)) as [r|]; [|done]. exists r. split; [done|]. split; [done|].
    left. split; [done|]. split; [done|]. by intros ->. }
  fold anc.
  assert (∀ r, r ≠ EmptyString → no_nul r → redirect_valid r →
    r = (if abs then full_path anc EmptyString else od_name d) → (abs = true → strlen r ≤ max) →
    ∃ err (d' : odentry) ofs' w',
    (let '(err, ofs, w) := ovl_check_setxattr w ofs upper OVL_XATTR_REDIRECT (bytes_of r) (- EXDEV) in
     if err =? 0 then Ret (0, set_od_inode (set_oi_redirect (Some r) (od_inode d)) d, ofs, w)
     else Ret (- EXDEV, d, ofs, w)) = Ret (err, d', ofs', w') ∧ (err ≠ 0 → err = - EXDEV ∧ d' = d) ∧
    (err = 0 → ∃ r, oi_redirect (od_inode d') = Some r ∧ redirect_valid r ∧
       ((d' = d ∧ w' = w ∧ (abs = true → starts_slash r = true)) ∨
        (r = (if abs then full_path anc EmptyString else od_name d) ∧
         (abs = true → strlen r ≤ max) ∧
         ovl_get_redirect_xattr w' upper 0 = Ret (PPtr (r, strlen r + 1)))))) as Hstore.
  { intros r Hr Hrn Hrv Er Hrl.
    destruct (ovl_check_setxattr _ _ _ _ _ _) as [[e ofs1] w1] eqn:Ex.
    destruct (Z.eqb_spec e 0) as [->|].
    - apply check_setxattr_ret in Ex; [|done]. eexists _, _, _, _. split; [done|]. split; [done|].
      intros _. exists r. split; [done|]. split; [done|]. right. split; [done|]. split; [done|].
      assert (w1 = (vfs_setxattr w upper OVL_XATTR_REDIRECT (bytes_of r) 0).2) as Ew by (by rewrite Ex).
      apply get_redirect_stored; try done; [by apply law_setxattr_get in Ex|].
      rewrite Ew, (law_setxattr_alloc w _ _ _ _ _ _ eq_refl). apply Hk.
      destruct abs; [specialize (Hrl eq_refl); lia|subst r; lia].
    - eexists _, _, _, _. split; [done|]. by split. }
  unfold ovl_get_redirect. rewrite Hup. destruct abs; cbn [negb].
  - rewrite Hk by lia. cbn [negb]. replace (max + 1 - 1) with (max - strlen EmptyString) by (change (strlen EmptyString) with 0; lia).
    rewrite (get_redirect_loop_spec anc Hanc max EmptyString) by done.
    destruct (Z.leb_spec (strlen (full_path anc EmptyString)) max); cbn [mbind outcome_bind].
    + rewrite Hk by lia. cbn [mbind outcome_bind].
      destruct (full_path_valid anc Hanc [] (Forall_nil_2 _)) as (Hv & Hn & He); [by left|].
      by apply Hstore.
    + eexists _, _, _, _. split; [done|]. by split.
  - unfold anc at 1. cbv iota beta. rewrite Hk by lia. cbn [mbind outcome_bind].
    apply Hstore; try done. by left.
Qed.

End redirect.

(** ** Concrete inputs *)

(** A directory "b" below the redirected "/x" is renamed to another parent. *)
Module Example.
Definition dir (p : Z) (name : string) : dentry :=
  Dentry p name 0 (Some (Inode p 1 p 2 0 0 (IAttrs 0 0 S_IFDIR 0 0 0 0))).
Definition renamed : odentry :=
  ODentry 5 "b" 0
    (OvlInode None None 0 0 (Inode 5 2 5 2 0 0 (IAttrs 0 0 S_IFDIR 0 0 0 0)) (Some (dir 50 "b")) None
       (OvlBlocks 0 0 false 0 0 0 []))
    (OvlEntry 0 []).
(** the layer: /a/b, where "a" is redirected to "/x" *)
Definition layer : layers :=
  Layers {[ (61, OVL_XATTR_REDIRECT) := bytes_of "/x" ]}
         {[ (60, "a") := dir 61 "a"; (61, "b") := dir 62 "b" ]} [] (λ _, x00).
End Example.

Lemma lookup_layer_walks_path_witness :
  let d := LookupData "/a/b" false false false false None false in
  ovl_lookup_layer (λ _, None) 2 Example.layer (Example.dir 60 "r") d
  = Ret (0, LookupData "/x/b" true false false false (Some "/x/b") false, Some (Example.dir 62 "b")).
Proof.
  intros d.
  destruct (lookup_layer_walks_path (λ _, None) Example.layer (Example.dir 60 "r") d ["a"; "b"] 2)
    as (r & E & Hw); [done|by repeat constructor|done|done|done|].
  rewrite E, <- Hw. vm_compute. reflexivity.
Defined.

Lemma set_redirect_reads_back_witness :
  let anc := [("b", None); ("a", Some "/x")] in
  ancestry_ok anc ∧ full_path anc EmptyString = "/x/b" ∧
  ∃ err d' ofs' w',
    ovl_set_redirect 256 (Layers ∅ ∅ [] (λ _, x00)) FhProps.Example.ofs Example.renamed
      [("a", Some "/x")] false = Ret (err, d', ofs', w') ∧ err = 0 ∧
    oi_redirect (od_inode d') = Some "/x/b" ∧
    ovl_get_redirect_xattr w' (Example.dir 50 "b") 0 = Ret (PPtr ("/x/b", 5)).
Proof.
  intros anc.
  assert (ancestry_ok anc) as Hanc.
  { constructor; [|constructor; [|constructor]]; cbn; split_and!; try done; [by left|].
    right. exists ["x"]. split_and!; [done|by repeat constructor|done]. }
  split; [done|]. split; [done|].
  destruct (set_redirect_reads_back 256 (Layers ∅ ∅ [] (λ _, x00)) FhProps.Example.ofs Example.renamed
    [("a", Some "/x")] false (Example.dir 50 "b") true)
    as (err & d' & ofs' & w' & E & _ & H0); [done|done|done|done|done| |done|done|].
  { intros n Hn. apply Z.leb_le. change (strlen (od_name Example.renamed)) with 1 in Hn.
    unfold KMALLOC_MAX_SIZE. lia. }
  exists err, d', ofs', w'. split; [exact E|]. revert E.
  vm_compute (ovl_set_redirect _ _ _ _ _ _). intros [= Ee Ed Eo Ew]. split; [done|].
  destruct (H0 (eq_sym Ee)) as (r & Hr & _ & [(Ed' & _)|(Er & _ & Hg)]).
  - rewrite <- Ed in Ed'. discriminate Ed'.
  - cbn in Er. subst r. split; [exact Hr|exact Hg].
Defined.
