(* ===== verification/Inode.v ===== *)
(** inode.c: overlay inodes.  Inode numbers and device numbers shown to user
    space ([ovl_getattr], [ovl_map_dev_ino]), permission checks, the filtered
    list of extended attributes, and the inode cache keyed by the real inode. *)

From Stdlib Require Import Ascii.
From S2P Require Import Prelude Types Util Under Nlink Fh Redirect.
Local Open Scope Z_scope.

Definition ovl_xino_bits (ofs : ovl_fs) : Z := fs_xino_bits ofs.

(** ** Inode numbers *)

(** ovl_map_dev_ino: [mode] and [ino] of the overlay inode, [s_dev] of the
    overlay super block *)
Definition ovl_map_dev_ino (ofs : ovl_fs) (s_dev mode ino : Z) (stat : kstat)
    (lower_layer : option ovl_layer) : kstat :=
  let samefs := negb (ovl_same_sb ofs =? NULL) in
  let xinobits := ovl_xino_bits ofs in
  let unmapped :=
    if S_ISDIR mode then set_st_ino ino (set_st_dev s_dev stat)
    else match lower_layer with
         | Some l => if negb (l_fsid l =? 0) then set_st_dev (l_pseudo_dev l) stat else stat
         | None => stat
         end in
  if samefs then set_st_dev s_dev stat
  else if negb (xinobits =? 0) then
    let shift := 64 - xinobits in
    if negb (Z.shiftr (st_ino stat) shift =? 0) then unmapped
    else
      let stat := match lower_layer with
                  | Some l => set_st_ino (Z.lor (st_ino stat) (u64 (Z.shiftl (l_fsid l) shift))) stat
                  | None => stat
                  end in
      set_st_dev s_dev stat
  else unmapped.

(** uapi/linux/stat.h *)
Definition STATX_NLINK : Z := 4.
Definition STATX_INO : Z := 256.
Definition STATX_BLOCKS : Z := 1024.

Section getattr.
(** vfs_getattr(path, &stat, mask, flags) *)
Context (vfs_getattr : path → Z → Z * kstat).

(** The part of ovl_getattr that replaces the inode and block numbers: error,
    stat, lower_layer. *)
Definition getattr_origin (ofs : ovl_fs) (d : odentry) (type : Z) (stat : kstat)
    (metacopy_blocks : bool) : Z * kstat * option ovl_layer :=
  let is_dir := S_ISDIR (i_mode (oi_vfs (od_inode d))) in
  let blocks stat (lower_layer : option ovl_layer) :=
    let '(err, s) := vfs_getattr (ovl_path_lowerdata d) STATX_BLOCKS in
    if negb (err =? 0) then (err, stat, lower_layer)
    else (0, set_st_blocks (st_blocks s) stat, lower_layer) in
  if negb (OVL_TYPE_UPPER type) then
    if metacopy_blocks then blocks stat (ovl_layer_lower d) else (0, stat, ovl_layer_lower d)
  else if OVL_TYPE_ORIGIN type then
    let lowermask := Z.lor STATX_INO (Z.lor STATX_BLOCKS (if negb is_dir then STATX_NLINK else 0)) in
    let realpath := ovl_path_lower d in
    let '(err, lowerstat) := vfs_getattr realpath lowermask in
    if negb (err =? 0) then (err, stat, None) else
    let '(stat, lower_layer) :=
      if ovl_test_flag OVL_INDEX (od_inode d) ||
         (negb (ovl_verify_lower ofs) && (is_dir || (st_nlink lowerstat =? 1)))
      then (set_st_ino (st_ino lowerstat) stat, ovl_layer_lower d)
      else (stat, None) in
    if metacopy_blocks then
      if path_ptr realpath =? match ovl_dentry_lowerdata d with Some l => d_ptr l | None => NULL end
      then (0, set_st_blocks (st_blocks lowerstat) stat, lower_layer)
      else blocks stat lower_layer
    else (0, stat, lower_layer)
  else if metacopy_blocks then blocks stat None else (0, stat, None).

(** ovl_getattr *)
Definition ovl_getattr (ofs : ovl_fs) (s_dev : Z) (d : odentry) (request_mask : Z) : Z * kstat :=
  let is_dir := S_ISDIR (i_mode (oi_vfs (od_inode d))) in
  let samefs := negb (ovl_same_sb ofs =? NULL) in
  let metacopy_blocks := ovl_is_metacopy_dentry d in
  let '(type, realpath) := ovl_path_real ofs d in
  let '(err, stat) := vfs_getattr realpath request_mask in
  if negb (err =? 0) then (err, stat) else
  let '(err, stat, lower_layer) :=
    if negb is_dir || samefs || negb (ovl_xino_bits ofs =? 0)
    then getattr_origin ofs d type stat metacopy_blocks
    else (0, stat, None) in
  if negb (err =? 0) then (err, stat) else
  let stat := ovl_map_dev_ino ofs s_dev (i_mode (oi_vfs (od_inode d))) (i_ino (oi_vfs (od_inode d)))
                stat lower_layer in
  let stat := if is_dir && OVL_TYPE_MERGE type then set_st_nlink 1 stat else stat in
  let stat := if negb is_dir && ovl_test_flag OVL_INDEX (od_inode d)
              then set_st_nlink (i_nlink (oi_vfs (od_inode d))) stat else stat in
  (0, stat).
End getattr.

(** ** Permissions *)

(** linux/fs.h *)
Definition MAY_EXEC : Z := 1.
Definition MAY_WRITE : Z := 2.
Definition MAY_READ : Z := 4.
Definition MAY_APPEND : Z := 8.
Definition MAY_NOT_BLOCK : Z := 128.

(** ovl_permission, given the checks of the task on the overlay inode and of
    the mounter on the real one *)
Definition ovl_permission (generic_permission : ovl_inode → Z → Z) (inode_permission : inode → Z → Z)
    (o : ovl_inode) (mask : Z) : Z :=
  let upperinode := ovl_inode_upper o in
  match (match upperinode with Some u => Some u | None => ovl_inode_lower o end) with
  | None => - ECHILD
  | Some realinode =>
      let err := generic_permission o mask in
      if negb (err =? 0) then err else
      let mask :=
        if negb (bool_decide (is_Some upperinode)) && negb (special_file (i_mode realinode)) &&
           has_any mask MAY_WRITE
        then Z.lor (Z.ldiff mask (Z.lor MAY_WRITE MAY_APPEND)) MAY_READ
        else mask in
      inode_permission realinode mask
  end.

(** ** Extended attributes *)

Definition XATTR_TRUSTED_PREFIX : string := "trusted.".
(** ovl_is_private_xattr: strncmp with the prefix *)
Definition ovl_is_private_xattr (name : string) : bool := String.prefix OVL_XATTR_PREFIX name.

(** ovl_can_list; [cap] is ns_capable_noaudit(CAP_SYS_ADMIN) *)
Definition ovl_can_list (cap : bool) (s : string) : bool :=
  if negb (String.prefix XATTR_TRUSTED_PREFIX s) then true
  else negb (ovl_is_private_xattr s) && cap.

(** The filter loop of ovl_listxattr: [list] starts at [s], [kept] is what lies
    before it; [None] is the broken list.  Each round drops [strnlen + 1]
    bytes, so its length is the fuel. *)
Fixpoint listxattr_loop (fuel : nat) (cap : bool) (kept s : string) (res : Z) : outcome (option (string * Z)) :=
  if is_empty s then Ret (Some (kept, res)) else
  match fuel with
  | O => NoFuel
  | S fuel =>
      let name := cstr s in
      let slen := strlen name + 1 in
      if strlen s <? slen then Ret None
      else
        let rest := sdrop (Z.to_nat slen) s in
        if negb (ovl_can_list cap name) then listxattr_loop fuel cap kept rest (res - slen)
        else listxattr_loop fuel cap (kept +:+ stake (Z.to_nat slen) s) rest res
  end.

(** ovl_listxattr, from the result of vfs_listxattr: the value returned and
    the names left in the buffer *)
Definition ovl_listxattr (cap : bool) (res : Z) (list : string) (size : Z) : outcome (Z * string) :=
  if (res <=? 0) || (size =? 0) then Ret (res, list)
  else
    r ← listxattr_loop (String.length list) cap EmptyString list res;
    match r with
    | None => Ret (- EIO, list)
    | Some (kept, res) => Ret (res, kept)
    end.

(** ** The inode cache *)

(** Two inodes are the same object. *)
Definition iptr (i : option inode) : Z := match i with Some i => i_ptr i | None => NULL end.

(** ovl_verify_inode *)
Definition ovl_verify_inode (o : ovl_inode) (lowerdentry upperdentry : option dentry) (strict : bool) : bool :=
  if S_ISDIR (i_mode (oi_vfs o)) && strict &&
     ((negb (bool_decide (is_Some lowerdentry)) && bool_decide (is_Some (ovl_inode_lower o))) ||
      (negb (bool_decide (is_Some upperdentry)) && bool_decide (is_Some (ovl_inode_upper o))))
  then false
  else if match lowerdentry with
          | Some l => negb (iptr (ovl_inode_lower o) =? iptr (d_inode l)) | None => false end
  then false
  else if match upperdentry with
          | Some u => negb (iptr (ovl_inode_upper o) =? iptr (d_inode u)) | None => false end
  then false
  else true.

(** ovl_lookup_inode: NULL, -ESTALE or the cached inode *)
Definition ovl_lookup_inode (icache : Z → option ovl_inode) (real : dentry) (is_upper : bool) : eptr ovl_inode :=
  match icache (iptr (d_inode real)) with
  | None => PNull
  | Some inode =>
      if negb (ovl_verify_inode inode (if is_upper then None else Some real)
                 (if is_upper then Some real else None) false)
      then PErr (- ESTALE) else PPtr inode
  end.

(** ovl_get_trap_inode: [iget5 key] is NULL, or the inode and whether it is new *)
Definition ovl_get_trap_inode (iget5 : Z → option (ovl_inode * bool)) (dir : dentry) : eptr ovl_inode :=
  if negb (d_is_dir dir) then PErr (- ENOTDIR) else
  match iget5 (iptr (d_inode dir)) with
  | None => PErr (- ENOMEM)
  | Some (trap, false) => PErr (- ELOOP)
  | Some (trap, true) =>
      let i := oi_vfs trap in
      let a := i_attrs i in
      PPtr (set_oi_vfs (Inode (i_ptr i) (i_sb i) (i_ino i) (i_nlink i) (i_rdev i) S_DEAD
              (IAttrs (at_uid a) (at_gid a) S_IFDIR (at_atime a) (at_mtime a) (at_ctime a) (at_size a))) trap)
  end.

(** ovl_hash_bylower: [s_export_op] tells whether the overlay can be exported *)
Definition ovl_hash_bylower (ofs : ovl_fs) (s_export_op : bool) (upper lower index : option dentry)
    : outcome bool :=
  match lower with
  | None => Ret false
  | Some l =>
      if bool_decide (is_Some index) then Ret true
      else if fs_upper_mnt ofs =? NULL then Ret true
      else
        broken ←
          (if (bool_decide (is_Some upper) || negb (ovl_indexdir ofs)) && negb (d_is_dir l) then
             match d_inode l with Some li => Ret (1 <? i_nlink li) | None => Fault end
           else Ret false);
        if (broken : bool) then Ret false
        else if s_export_op && bool_decide (is_Some upper) then Ret false
        else Ret true
  end.

Definition S_NOCMTIME : Z := 128.

(** ovl_fill_inode: numbers, mode, flags and device; [next_ino] is
    get_next_ino().  init_special_inode sets the device of device nodes. *)
Definition ovl_fill_inode (ofs : ovl_fs) (next_ino : Z) (i : inode) (mode rdev ino fsid : Z) : inode :=
  let xinobits := ovl_xino_bits ofs in
  let i_ino' :=
    if negb (ovl_same_sb ofs =? NULL) || negb (xinobits =? 0) then
      if negb (xinobits =? 0) && negb (fsid =? 0) && (Z.shiftr ino (64 - xinobits) =? 0)
      then Z.lor ino (u64 (Z.shiftl fsid (64 - xinobits))) else ino
    else next_ino in
  let a := i_attrs i in
  Inode (i_ptr i) (i_sb i) i_ino' (i_nlink i)
    (if (ftype mode =? S_IFCHR) || (ftype mode =? S_IFBLK) then rdev else i_rdev i)
    (Z.lor (i_flags i) S_NOCMTIME)
    (IAttrs (at_uid a) (at_gid a) mode (at_atime a) (at_mtime a) (at_ctime a) (at_size a)).

Definition set_i_nlink (n : Z) (i : inode) : inode :=
  Inode (i_ptr i) (i_sb i) (i_ino i) n (i_rdev i) (i_flags i) (i_attrs i).

(** struct ovl_inode_params; [oip_lowerpath] is the first element of the
    stack, when there is one *)
Record ovl_inode_params : Type := InodeParams {
  oip_newinode : bool;
  oip_upperdentry : option dentry;
  oip_lowerpath : option ovl_path;
  oip_index : option dentry;
  oip_numlower : Z;
  oip_redirect : option string;
  oip_lowerdata : option dentry;
}.

Section get_inode.
Context {W : Type} `{Under W}.
Implicit Types (w : W).
Context (s_export_op : bool) (next_ino : Z).
(** ovl_iget5 for a key, and new_inode *)
Context (iget5 : Z → option (ovl_inode * bool)) (new_inode : option ovl_inode).

(** After the inode was found or created: the rest of ovl_get_inode. *)
Definition get_inode_fill w (ofs : ovl_fs) (oip : ovl_inode_params) (realinode : inode) (bylower : bool)
    (inode : ovl_inode) (ino fsid : Z) : outcome (Z + ovl_inode) :=
  let upper := oip_upperdentry oip in
  let lower := op_dentry <$> oip_lowerpath oip in
  let is_dir := S_ISDIR (i_mode realinode) in
  let o := set_oi_vfs (ovl_fill_inode ofs next_ino (oi_vfs inode) (i_mode realinode) (i_rdev realinode)
                         ino fsid) inode in
  o ← ovl_inode_init o upper lower (oip_lowerdata oip);
  let o := match upper with
           | Some u => if ovl_is_impuredir w u then ovl_set_flag OVL_IMPURE o else o
           | None => o
           end in
  let o := if bool_decide (is_Some (oip_index oip)) then ovl_set_flag OVL_INDEX o else o in
  metacopy ← match upper with Some u => ovl_check_metacopy_xattr w u | None => Ret 0 end;
  if metacopy <? 0 then Ret (inl metacopy) else
  let o := if bool_decide (is_Some upper) && (metacopy =? 0) then ovl_set_flag OVL_UPPERDATA o else o in
  let o := set_oi_redirect (oip_redirect oip) o in
  let o := if bylower then ovl_set_flag OVL_CONST_INO o else o in
  let o :=
    if is_dir &&
       ((bool_decide (is_Some upper) && bool_decide (is_Some lower)) || (1 <? oip_numlower oip) ||
        match (match upper with Some u => Some u | None => lower end) with
        | Some d => ovl_check_origin_xattr w d
        | None => false
        end)
    then ovl_set_flag OVL_WHITEOUTS o else o in
  Ret (inr o).

(** ovl_get_inode *)
Definition ovl_get_inode w (ofs : ovl_fs) (oip : ovl_inode_params) : outcome (Z + ovl_inode) :=
  let upper := oip_upperdentry oip in
  let lower := op_dentry <$> oip_lowerpath oip in
  bylower ← ovl_hash_bylower ofs s_export_op upper lower (oip_index oip);
  let fsid := if (bylower : bool)
              then match oip_lowerpath oip with Some p => l_fsid (op_layer p) | None => 0 end else 0 in
  match (match upper with Some u => d_inode u | None => None end),
        (match lower with Some l => d_inode l | None => None end) with
  | None, None => Fault
  | upperinode, lowerinode =>
      realinode ← match upperinode, lowerinode with
                  | Some u, _ => Ret u | None, Some l => Ret l | None, None => Fault end;
      let is_dir := S_ISDIR (i_mode realinode) in
      if bool_decide (is_Some upper) || bylower then
        key ← match (if bylower then lowerinode else upperinode) with Some k => Ret k | None => Fault end;
        match iget5 (i_ptr key) with
        | None => Ret (inl (if oip_newinode oip then - EEXIST else - ENOMEM))
        | Some (inode, false) =>
            if negb (ovl_verify_inode inode lower upper true) then Ret (inl (- ESTALE))
            else Ret (inr inode)
        | Some (inode, true) =>
            let nlink := if is_dir then 1 else i_nlink realinode in
            nlink ← (if negb is_dir then ovl_get_nlink w lower upper nlink else Ret nlink);
            get_inode_fill w ofs oip realinode bylower
              (set_oi_vfs (set_i_nlink nlink (oi_vfs inode)) inode) (i_ino key) fsid
        end
      else
        match new_inode with
        | None => Ret (inl (- ENOMEM))
        | Some inode => get_inode_fill w ofs oip realinode bylower inode 0 fsid
        end
  end.

End get_inode.
