(* ===== verification/InodeProps.v ===== *)
(** Properties of overlay inodes: inode numbers are unique and do not change
    when a file is copied up, the xattr list hides exactly the private names,
    and an inode from the cache always belongs to the dentry it is found for. *)

From Stdlib Require Import Ascii.
From S2P Require Import Prelude Types Util Under Nlink Fh FhProps Redirect RedirectProps Inode Readdir.
Local Open Scope Z_scope.

(** ** Inode numbers *)

(** The inode number of a file of layer [fsid] in a unified number space. *)
Lemma lor_fsid_inj xb ino ino' f f' :
  0 < xb < 64 → 0 ≤ ino → 0 ≤ ino' → Z.shiftr ino (64 - xb) = 0 → Z.shiftr ino' (64 - xb) = 0 →
  0 ≤ f < 2 ^ xb → 0 ≤ f' < 2 ^ xb →
  Z.lor ino (u64 (Z.shiftl f (64 - xb))) = Z.lor ino' (u64 (Z.shiftl f' (64 - xb))) →
  ino = ino' ∧ f = f'.
Proof.
  intros Hx H0 H0' Hs Hs' Hf Hf' E.
  assert (∀ f, 0 ≤ f < 2 ^ xb → u64 (Z.shiftl f (64 - xb)) = Z.shiftl f (64 - xb)) as Hu.
  { intros g Hg. apply u64_small. rewrite Z.shiftl_mul_pow2 by lia.
    assert (two64 = 2 ^ xb * 2 ^ (64 - xb)) as -> by (rewrite <- Z.pow_add_r by lia; change two64 with (2 ^ 64); f_equal; lia).
    assert (0 < 2 ^ (64 - xb)) by (apply Z.pow_pos_nonneg; lia). nia. }
  rewrite !Hu in E by done.
  assert (∀ i, 0 ≤ i → Z.shiftr i (64 - xb) = 0 → Z.land i (Z.ones (64 - xb)) = i) as Hlow.
  { intros i Hi Hsi. rewrite Z.land_ones by lia. apply Z.mod_small. split; [done|].
    rewrite Z.shiftr_div_pow2 in Hsi by lia. apply Z.div_small_iff in Hsi; lia. }
  assert (∀ g, Z.land (Z.shiftl g (64 - xb)) (Z.ones (64 - xb)) = 0) as Hz.
  { intros g. rewrite Z.land_ones, Z.shiftl_mul_pow2 by lia. apply Z.mod_mul. lia. }
  split.
  - rewrite <- (Hlow ino), <- (Hlow ino') by done.
    assert (Z.land (Z.lor ino (Z.shiftl f (64 - xb))) (Z.ones (64 - xb)) =
            Z.land (Z.lor ino' (Z.shiftl f' (64 - xb))) (Z.ones (64 - xb))) as E2 by (by rewrite E).
    rewrite !Z.land_lor_distr_l, !Hz, !Z.lor_0_r in E2. done.
  - assert (Z.shiftr (Z.lor ino (Z.shiftl f (64 - xb))) (64 - xb) =
            Z.shiftr (Z.lor ino' (Z.shiftl f' (64 - xb))) (64 - xb)) as E2 by (by rewrite E).
    rewrite !Z.shiftr_lor, Hs, Hs', !Z.lor_0_l, !Z.shiftr_shiftl_l in E2 by lia.
    by replace (64 - xb - (64 - xb)) with 0 in E2 by lia.
Qed.

(** Unified inode numbers (xino).  When the layers are on different
    filesystems and the inode numbers leave the [xino] bits free, [stat] shows
    the overlay's device and an inode number that determines both the layer's
    filesystem and the real inode number, and the overlay inode's own [i_ino]
    and the number that [readdir] reports are the same. *)
Theorem xino_numbers_unique ofs s_dev mode oino stat mode' oino' stat' l l' next i rdev :
  ovl_same_sb ofs = NULL → 0 < ovl_xino_bits ofs < 64 →
  0 ≤ st_ino stat → 0 ≤ st_ino stat' →
  Z.shiftr (st_ino stat) (64 - ovl_xino_bits ofs) = 0 →
  Z.shiftr (st_ino stat') (64 - ovl_xino_bits ofs) = 0 →
  0 ≤ l_fsid l < 2 ^ ovl_xino_bits ofs → 0 ≤ l_fsid l' < 2 ^ ovl_xino_bits ofs →
  let s := ovl_map_dev_ino ofs s_dev mode oino stat (Some l) in
  let s' := ovl_map_dev_ino ofs s_dev mode' oino' stat' (Some l') in
  st_dev s = s_dev ∧ st_dev s' = s_dev ∧
  i_ino (ovl_fill_inode ofs next i mode rdev (st_ino stat) (l_fsid l)) = st_ino s ∧
  ovl_remap_lower_ino (st_ino stat) (ovl_xino_bits ofs) (l_fsid l) = st_ino s ∧
  (st_ino s = st_ino s' → st_ino stat = st_ino stat' ∧ l_fsid l = l_fsid l').
Proof.
  intros Hsb Hx H0 H0' Hs Hs' Hf Hf' s s'. subst s s'. unfold ovl_map_dev_ino, ovl_fill_inode.
  rewrite Hsb. cbn [Z.eqb negb orb NULL]. change (NULL =? NULL) with true. cbn [negb orb].
  destruct (Z.eqb_spec (ovl_xino_bits ofs) 0); [lia|]. cbn [negb andb].
  rewrite Hs, Hs'. cbn [Z.eqb negb]. split; [done|]. split; [done|]. split.
  - cbn. destruct (Z.eqb_spec (l_fsid l) 0) as [->|]; cbn [negb]; [|done].
    rewrite Z.shiftl_0_l. unfold u64. by rewrite Z.mod_0_l, Z.lor_0_r.
  - unfold ovl_remap_lower_ino. rewrite Hs. cbn [Z.eqb negb]. split; [done|].
    cbn. apply lor_fsid_inj; done || lia.
Qed.


(** ** The list of extended attributes *)

(** Names, each followed by a NUL. *)
Fixpoint nul_list (names : list string) : string :=
  match names with [] => EmptyString | n :: ns => n +:+ String NUL (nul_list ns) end.

Lemma cstr_nul n t : no_nul n → cstr (n +:+ String NUL t) = n.
Proof.
  induction n as [|c n IH]; [done|]. rewrite sapp_cons. cbn. intros [Hc Hn].
  rewrite bool_decide_false by done. by rewrite IH.
Qed.

Lemma nul_list_app a b : nul_list (a ++ b) = nul_list a +:+ nul_list b.
Proof. induction a as [|n a IH]; [done|]. cbn. rewrite IH, sapp_assoc. done. Qed.

Lemma listxattr_loop_spec cap names t : Forall no_nul names → no_nul t → ∀ fuel kept,
  (String.length (nul_list names +:+ t) ≤ fuel)%nat →
  listxattr_loop fuel cap (nul_list kept) (nul_list names +:+ t)
    (strlen (nul_list kept) + strlen (nul_list names +:+ t)) =
  if is_empty t
  then Ret (Some (nul_list (kept ++ filter (λ n, ovl_can_list cap n = true) names),
                  strlen (nul_list (kept ++ filter (λ n, ovl_can_list cap n = true) names))))
  else Ret None.
Proof.
  intros Hn Ht. induction Hn as [|n names Hn _ IH]; intros fuel kept Hf.
  - cbn [nul_list]. rewrite sapp_nil. destruct t as [|c t]; cbn [is_empty].
    + cbn [list_filter filter]. rewrite app_nil_r. change (strlen EmptyString) with 0.
      rewrite Z.add_0_r. by destruct fuel.
    + destruct fuel; [rewrite slen_app in Hf; cbn in Hf; lia|]. cbn [listxattr_loop is_empty].
      rewrite cstr_id by done. destruct (Z.ltb_spec (strlen (String c t)) (strlen (String c t) + 1)); [done|lia].
  - cbn [nul_list] in *. rewrite sapp_assoc in *. rewrite sapp_cons in *.
    set (rest := nul_list names +:+ t) in *.
    assert (strlen (n +:+ String NUL rest) = strlen n + 1 + strlen rest) as Hl
      by (rewrite strlen_app, strlen_cons; lia).
    pose proof (strlen_nonneg n). pose proof (strlen_nonneg rest).
    assert (is_empty (n +:+ String NUL rest) = false) as He by (by destruct n).
    destruct fuel as [|fuel]; [rewrite slen_app in Hf; cbn in Hf; lia|].
    cbn [listxattr_loop]. rewrite He, cstr_nul by done. rewrite Hl.
    destruct (Z.ltb_spec (strlen n + 1 + strlen rest) (strlen n + 1)); [lia|].
    assert (sdrop (Z.to_nat (strlen n + 1)) (n +:+ String NUL rest) = rest ∧
            stake (Z.to_nat (strlen n + 1)) (n +:+ String NUL rest) = n +:+ String NUL EmptyString) as [-> ->].
    { change (String NUL rest) with (String NUL EmptyString +:+ rest). rewrite <- sapp_assoc.
      replace (strlen n + 1) with (strlen (n +:+ String NUL EmptyString))
        by (rewrite strlen_app; done).
      by rewrite sdrop_app, stake_app. }
    assert (String.length rest ≤ fuel)%nat as Hf' by (rewrite slen_app in Hf; cbn in Hf; lia).
    rewrite filter_cons. destruct (ovl_can_list cap n) eqn:Hc; cbn [negb].
    + rewrite decide_True by done.
      replace (nul_list kept +:+ (n +:+ String NUL EmptyString)) with (nul_list (kept ++ [n]))
        by (by rewrite nul_list_app).
      replace (strlen (nul_list kept) + (strlen n + 1 + strlen rest))
        with (strlen (nul_list (kept ++ [n])) + strlen rest)
        by (rewrite nul_list_app, strlen_app; cbn [nul_list]; rewrite strlen_app; change (strlen (String NUL EmptyString)) with 1; lia).
      rewrite IH by done. by rewrite <- app_assoc.
    + rewrite decide_False by done.
      replace (strlen (nul_list kept) + (strlen n + 1 + strlen rest) - (strlen n + 1))
        with (strlen (nul_list kept) + strlen rest) by lia.
      by rewrite IH.
Qed.

Lemma prefix_app_l a b : ∀ n, String.prefix (a +:+ b) n = true → String.prefix a n = true.
Proof.
  induction a as [|c a IH]; intros [|d n]; try done. rewrite sapp_cons. cbn [String.prefix].
  destruct (Ascii.ascii_dec c d); [apply IH|done].
Qed.

(** The xattr list of a file.  From a well-formed list of the underlying
    filesystem [ovl_listxattr] keeps, in order, exactly the names the caller
    may see: all that do not begin with "trusted.", and for a privileged
    caller the other trusted names except the overlay's own; the result is the
    length of what is kept.  A list that does not end in a NUL is an I/O error,
    never a read past its end. *)
Theorem listxattr_filters cap names t size :
  Forall no_nul names → no_nul t → size ≠ 0 → nul_list names +:+ t ≠ EmptyString →
  let l := nul_list names +:+ t in
  let visible := filter (λ n, ovl_can_list cap n = true) names in
  ovl_listxattr cap (strlen l) l size =
    (if is_empty t then Ret (strlen (nul_list visible), nul_list visible) else Ret (- EIO, l)) ∧
  Forall (λ n, ovl_is_private_xattr n = false ∧
               (String.prefix XATTR_TRUSTED_PREFIX n = true → cap = true)) visible.
Proof.
  intros Hn Ht Hs Hne l visible. split.
  - unfold ovl_listxattr. assert (0 < strlen l).
    { subst l. destruct (nul_list names +:+ t); [done|]. rewrite strlen_cons. pose proof (strlen_nonneg s). lia. }
    destruct (Z.leb_spec (strlen l) 0); [lia|]. apply Z.eqb_neq in Hs. rewrite Hs. cbn [orb].
    pose proof (listxattr_loop_spec cap names t Hn Ht (String.length l) [] (le_n _)) as E.
    cbn [nul_list app] in E. change (strlen EmptyString) with 0 in E. rewrite Z.add_0_l in E.
    fold l in E. rewrite E. by destruct (is_empty t).
  - apply Forall_forall. intros n [Hc _]%list_elem_of_filter. unfold ovl_can_list in Hc.
    destruct (String.prefix XATTR_TRUSTED_PREFIX n) eqn:Hp; cbn [negb] in Hc.
    + apply andb_true_iff in Hc as [Hc1 Hc2]. apply negb_true_iff in Hc1. done.
    + split; [|done]. unfold ovl_is_private_xattr. apply not_true_iff_false. intros Hpr.
      by rewrite (prefix_app_l XATTR_TRUSTED_PREFIX "overlay." n Hpr) in Hp.
Qed.

(** ** The inode cache *)

Section cache.
Context {W : Type} `{UnderLaws W}.
Implicit Types (w : W).

(** Setting flags and the redirect keeps the real inodes. *)
Definition same_real (o o' : ovl_inode) : Prop :=
  ovl_inode_upper o' = ovl_inode_upper o ∧ ovl_inode_lower o' = ovl_inode_lower o.

Lemma inode_init_real o upper lower lowerdata o' :
  ovl_inode_init o upper lower lowerdata = Ret o' →
  (∀ u, upper = Some u → ovl_inode_upper o' = d_inode u) ∧
  (∀ l, lower = Some l → ovl_inode_lower o' = d_inode l).
Proof.
  unfold ovl_inode_init. case_match; [|done]. intros [= <-].
  split; intros x ->; cbn; repeat case_match; done.
Qed.

Lemma get_inode_fill_real nx w ofs oip ri bl o ino fsid o' :
  get_inode_fill nx w ofs oip ri bl o ino fsid = Ret (inr o') →
  (∀ u, oip_upperdentry oip = Some u → ovl_inode_upper o' = d_inode u) ∧
  (∀ p, oip_lowerpath oip = Some p → ovl_inode_lower o' = d_inode (op_dentry p)).
Proof.
  unfold get_inode_fill. intros E. apply outcome_bind_Ret in E as (o1 & Hi & E).
  apply inode_init_real in Hi as [Hu Hl]. apply outcome_bind_Ret in E as (m & _ & E).
  destruct (m <? 0); [done|]. injection E as <-.
  assert (∀ (b : bool) f (o : ovl_inode), same_real o (if b then ovl_set_flag f o else o)) as Hf
    by (intros [] ? ?; done).
  split.
  - intros u Eu. rewrite <- (Hu u Eu), Eu. by repeat case_match.
  - intros p Ep. rewrite <- (Hl (op_dentry p)) by (by rewrite Ep). by repeat case_match.
Qed.

(** The branches of ovl_get_inode that return. *)
Lemma get_inode_inv s_export_op nx iget5 new_inode w ofs oip r :
  ovl_get_inode s_export_op nx iget5 new_inode w ofs oip = Ret r →
  ∃ bl ri fsid, if bool_decide (is_Some (oip_upperdentry oip)) || bl then
     ∃ key, match iget5 (i_ptr key) with
        | None => Ret (inl (if oip_newinode oip then - EEXIST else - ENOMEM))
        | Some (inode, false) =>
            if negb (ovl_verify_inode inode (op_dentry <$> oip_lowerpath oip) (oip_upperdentry oip) true)
            then Ret (inl (- ESTALE)) else Ret (inr inode)
        | Some (inode, true) =>
            let nlink := if S_ISDIR (i_mode ri) then 1 else i_nlink ri in
            nlink ← (if negb (S_ISDIR (i_mode ri)) then ovl_get_nlink w (op_dentry <$> oip_lowerpath oip) (oip_upperdentry oip) nlink else Ret nlink);
            get_inode_fill nx w ofs oip ri bl
              (set_oi_vfs (set_i_nlink nlink (oi_vfs inode)) inode) (i_ino key) fsid
        end = Ret r
     else match new_inode with
        | None => Ret (inl (- ENOMEM))
        | Some inode => get_inode_fill nx w ofs oip ri bl inode 0 fsid
        end = Ret r.
Proof.
  unfold ovl_get_inode. intros E. apply outcome_bind_Ret in E as (bl & _ & E). exists bl.
  set (ui := match oip_upperdentry oip with Some u => d_inode u | None => None end) in E.
  set (li := match op_dentry <$> oip_lowerpath oip with Some l => d_inode l | None => None end) in E.
  destruct ui, li; try done; apply outcome_bind_Ret in E as (ri & _ & E);
    eexists ri, _; (destruct (_ || _); [|exact E]);
    apply outcome_bind_Ret in E as (key & _ & E); exists key; exact E.
Qed.

(** C33: An inode belongs to its dentry.  Whatever the inode cache holds,
    [ovl_get_inode] returns an inode only if its upper and lower real inodes
    are those of the dentry that was looked up; a cached inode whose real
    inodes moved is refused with -ESTALE instead of being shared. *)
Theorem get_inode_matches_dentry s_export_op nx iget5 new_inode w ofs oip o :
  ovl_get_inode s_export_op nx iget5 new_inode w ofs oip = Ret (inr o) →
  (∀ u, oip_upperdentry oip = Some u → iptr (ovl_inode_upper o) = iptr (d_inode u)) ∧
  (∀ p, oip_lowerpath oip = Some p → iptr (ovl_inode_lower o) = iptr (d_inode (op_dentry p))).
Proof.
  assert (∀ upper lower strict o, ovl_verify_inode o lower upper strict = true →
    (∀ u, upper = Some u → iptr (ovl_inode_upper o) = iptr (d_inode u)) ∧
    (∀ l, lower = Some l → iptr (ovl_inode_lower o) = iptr (d_inode l))) as Hver.
  { intros upper lower strict x Hv. unfold ovl_verify_inode in Hv.
    destruct (_ && _ && _); [done|]. split; intros ? ->;
      repeat case_match; try done; bdestruct; by apply Z.eqb_eq. }
  intros E. apply get_inode_inv in E as (bl & ri & fsid & E').
  assert (∀ a b c, get_inode_fill nx w ofs oip ri bl a b c = Ret (inr o) →
    (∀ u, oip_upperdentry oip = Some u → iptr (ovl_inode_upper o) = iptr (d_inode u)) ∧
    (∀ p, oip_lowerpath oip = Some p → iptr (ovl_inode_lower o) = iptr (d_inode (op_dentry p)))) as Hfill.
  { intros a b c Hx. apply get_inode_fill_real in Hx as [Hu Hl].
    split; intros ? Ex; [by rewrite (Hu _ Ex)|by rewrite (Hl _ Ex)]. }
  destruct (_ || _).
  - destruct E' as [key E']. destruct (iget5 (i_ptr key)) as [[inode []]|]; [| |done].
    + apply outcome_bind_Ret in E' as (n & _ & E'). eauto.
    + destruct (ovl_verify_inode _ _ _ _) eqn:Hv; [|done]. injection E' as ->.
      apply Hver in Hv as [Hu Hl]. split; [done|]. intros p Ep. apply Hl. by rewrite Ep.
  - destruct new_inode; [|done]. eauto.
Qed.

End cache.

(** ** Concrete inputs *)

Module Example.
(** an upper filesystem, two lower ones, 8 bits of inode number for the layer *)
Definition cfg : ovl_config := OvlConfig None None None false true true None false false 0 false.
Definition ofs (xino : Z) : ovl_fs :=
  OvlFs 1 100 [101; 102] [OvlLayer 11 1 1 901; OvlLayer 12 2 2 902] 255 false true cfg false true xino.
Definition file (p ino : Z) : dentry :=
  Dentry p "f" 0 (Some (Inode p 1 ino 1 0 0 (IAttrs 0 0 S_IFREG 0 0 0 0))).
Definition lower : ovl_path := OvlPath (OvlLayer 11 1 1 901) (file 30 5).
Definition blk : ovl_blocks := OvlBlocks 0 0 false 0 0 0 [].
Definition oinode (upper : option dentry) (flags : Z) : ovl_inode :=
  OvlInode None None 0 flags (Inode 9 9 77 1 0 0 (IAttrs 0 0 S_IFREG 0 0 0 0)) upper (d_inode (file 30 5)) blk.
Definition before : odentry := ODentry 8 "f" 0 (oinode None 16) (OvlEntry 0 [lower]).
Definition after : odentry := ODentry 8 "f" 0 (oinode (Some (file 40 6)) 24) (OvlEntry 1 [lower]).
Definition stat (dev ino nlink blocks : Z) : kstat :=
  Kstat dev ino nlink blocks 0 (IAttrs 0 0 S_IFREG 0 0 0 0).
Definition getattr (p : path) (m : Z) : Z * kstat :=
  (0, if p_mnt p =? 11 then stat 501 5 1 8 else stat 500 6 1 8).
End Example.

Lemma xino_numbers_unique_witness :
  let l := OvlLayer 11 1 1 901 in let l' := OvlLayer 12 2 2 902 in
  let st := ovl_map_dev_ino (Example.ofs 8) 7 S_IFREG 77 (Example.stat 501 5 1 8) (Some l) in
  let st' := ovl_map_dev_ino (Example.ofs 8) 7 S_IFREG 78 (Example.stat 502 5 1 8) (Some l') in
  st_dev st = 7 ∧ st_dev st' = 7 ∧ (st_ino st = st_ino st' → 5 = 5 ∧ 1 = 2).
Proof.
  destruct (xino_numbers_unique (Example.ofs 8) 7 S_IFREG 77 (Example.stat 501 5 1 8) S_IFREG 78
    (Example.stat 502 5 1 8) (OvlLayer 11 1 1 901) (OvlLayer 12 2 2 902) 0
    (Inode 9 9 77 1 0 0 (IAttrs 0 0 S_IFREG 0 0 0 0)) 0) as (H1 & H2 & _ & _ & H3);
    cbn; try done; try lia.
Defined.


Lemma listxattr_filters_witness :
  let names := ["user.a"; "trusted.overlay.origin"; "trusted.x"] in
  ovl_listxattr true (strlen (nul_list names)) (nul_list names) 100
  = Ret (17, nul_list ["user.a"; "trusted.x"]).
Proof.
  intros names. assert (Forall no_nul names) as Hn by (repeat constructor; done).
  pose proof (proj1 (listxattr_filters true names EmptyString 100
    Hn I ltac:(done) ltac:(done))) as H.
  rewrite sapp_nil_r in H. rewrite H. vm_compute. reflexivity.
Defined.

Lemma get_inode_matches_dentry_witness :
  let oip := InodeParams false (Some (Example.file 40 6)) (Some Example.lower) None 1 None None in
  ∃ o, ovl_get_inode false 0 (λ _, Some (Example.oinode None 0, true)) None
         (Layers ∅ ∅ [] (λ _, x00)) (Example.ofs 8) oip = Ret (inr o) ∧
    iptr (ovl_inode_upper o) = 40 ∧ iptr (ovl_inode_lower o) = 30.
Proof.
  intros oip.
  assert (∃ o, ovl_get_inode false 0 (λ _, Some (Example.oinode None 0, true)) None
    (Layers ∅ ∅ [] (λ _, x00)) (Example.ofs 8) oip = Ret (inr o)) as [o E]
    by (eexists; vm_compute; reflexivity).
  exists o. split; [exact E|].
  destruct (get_inode_matches_dentry _ _ _ _ _ _ _ _ E) as [Hu Hl].
  split; [exact (Hu _ eq_refl)|exact (Hl _ eq_refl)].
Defined.
