(* ===== verification/Lookup.v ===== *)
(** namei.c: [ovl_lookup], which finds a name in the upper layer and in the
    lower layers below it, follows redirects and metacopy files, verifies
    origins and the index, and builds the overlay dentry's stack and inode;
    [ovl_fix_origin] and [ovl_lower_positive].  References to dentries, the
    mounter's credentials and [d_splice_alias] are not part of the model. *)

From Stdlib Require Import Ascii.
From S2P Require Import Prelude Types Util Under Nlink Fh Redirect Inode.
Local Open Scope Z_scope.

(** What lookup reads and updates outside its arguments. *)
Record lkstate (W : Type) : Type := LkState {
  lk_w : W;                       (* the underlying filesystems *)
  lk_ofs : ovl_fs;                (* noxattr may be set *)
  lk_parent : ovl_inode;          (* d_inode(dentry->d_parent) *)
}.
Arguments LkState {W}. Arguments lk_w {W}. Arguments lk_ofs {W}. Arguments lk_parent {W}.

(** The variables of ovl_lookup's loop. *)
Record lkvars : Type := LkVars {
  v_d : ovl_lookup_data;
  v_stack : list ovl_path;        (* stack[0 .. ctr) *)
  v_origin : option dentry;
  v_metacopy : bool;
  v_poe : list ovl_path;          (* poe->lowerstack *)
  v_atroot : bool;                (* poe == roe *)
}.

Section lookup.
Context {W : Type} `{Under W}.
(** mnt_want_write; the export operations of a lower super block *)
Context (want_write : W → Z) (export_op : Z → option (bool * bool)).
(** the inode cache, and what ovl_get_inode needs *)
Context (icache : Z → option ovl_inode) (iget5 : Z → option (ovl_inode * bool))
        (new_inode : option ovl_inode) (s_export_op : bool) (next_ino : Z).
(** ofs->indexdir; the root's lower stack; the parent of an upper dentry *)
Context (indexdir : dentry) (roe : list ovl_path) (d_parent : dentry → dentry).
Implicit Types (st : lkstate W) (v : lkvars).

(** util.c: ovl_set_impure *)
Definition ovl_set_impure st (upperdentry : dentry) : Z * lkstate W :=
  if ovl_test_flag OVL_IMPURE (lk_parent st) then (0, st) else
  let '(err, ofs, w) := ovl_check_setxattr (lk_w st) (lk_ofs st) upperdentry OVL_XATTR_IMPURE
                          (bytes_of "y") 0 in
  (err, LkState w ofs (if err =? 0 then ovl_set_flag OVL_IMPURE (lk_parent st) else lk_parent st)).

(** ovl_fix_origin *)
Definition ovl_fix_origin st (lower upper : dentry) : outcome (Z * lkstate W) :=
  if ovl_check_origin_xattr (lk_w st) upper then Ret (0, st) else
  let err := want_write (lk_w st) in
  if negb (err =? 0) then Ret (err, st) else
  '(err, ofs, w) ← ovl_set_origin (lk_w st) (lk_ofs st) (export_op (d_sb lower)) lower upper;
  let st := LkState w ofs (lk_parent st) in
  if err =? 0 then Ret (ovl_set_impure st (d_parent upper)) else Ret (err, st).

(** The upper part: [inl] an error, [inr] the upper dentry, its origin path,
    "metacopy", the redirect of the upper inode and upperopaque. *)
Definition lookup_upper st (upperdir : option dentry) (d : ovl_lookup_data)
    : outcome (Z + (ovl_lookup_data * option dentry * option ovl_path * bool * option string * bool)) :=
  match upperdir with
  | None => Ret (inr (d, None, None, false, None, false))
  | Some upperdir =>
      '(err, d, upperdentry) ← ovl_lookup_layer icache (S (String.length (ld_name d))) (lk_w st) upperdir d;
      if negb (err =? 0) then Ret (inl err) else
      if match upperdentry with Some u => ovl_dentry_remote u | None => false end
      then Ret (inl (- EREMOTE)) else
      '(err, origin_path, metacopy) ←
        match upperdentry with
        | Some u =>
            if negb (ld_is_dir d) then
              '(err, op, _) ← ovl_check_origin (lk_w st) (lk_ofs st) u None 0;
              Ret (err, op, ld_metacopy d)
            else Ret (0, None, false)
        | None => Ret (0, None, false)
        end;
      if negb (err =? 0) then Ret (inl err) else
      match ld_redirect d with
      | Some r =>
          if negb (kmalloc_ok (lk_w st) (strlen r + 1)) then Ret (inl (- ENOMEM))
          else Ret (inr (d, upperdentry, origin_path, metacopy, Some r, ld_opaque d))
      | None => Ret (inr (d, upperdentry, origin_path, metacopy, None, ld_opaque d))
      end
  end.

(** One round of the loop on [poe->lowerstack[i]]: an error, or the variables
    and [Some i'] to go on with index [i'], [None] to leave the loop. *)
Definition lookup_lower_step st v (upperdentry : option dentry) (origin_path : option ovl_path) (i : Z)
    (lower : ovl_path) : outcome ((Z + (lkvars * option Z)) * lkstate W) :=
  let ofs := lk_ofs st in
  let follow := c_redirect_follow (fs_config ofs) in
  let last := if negb follow then i =? zlen (v_poe v) - 1 else l_idx (op_layer lower) =? zlen roe in
  '(err, d, this) ← ovl_lookup_layer icache (S (String.length (ld_name (v_d v)))) (lk_w st)
                       (op_dentry lower) (set_ld_last last (v_d v));
  if negb (err =? 0) then Ret (inl err, st) else
  match this with
  | None => Ret (inr (LkVars d (v_stack v) (v_origin v) (v_metacopy v) (v_poe v) (v_atroot v),
                      Some (i + 1)), st)
  | Some this =>
      let ctr := zlen (v_stack v) in
      '(err, st) ←
        match upperdentry with
        | Some u =>
            if (ctr =? 0) && negb (fs_noxattr ofs) && ld_is_dir d
            then ovl_fix_origin st this u else Ret (0, st)
        | None => Ret (0, st)
        end;
      if negb (err =? 0) then Ret (inl err, st) else
      let ofs := lk_ofs st in
      (* verify the origin: error, and whether it was verified *)
      '(err, verified) ←
        match upperdentry with
        | Some u =>
            if (ctr =? 0) &&
               ((ld_is_dir d && ovl_verify_lower ofs) ||
                (negb (ld_is_dir d) && c_index (fs_config ofs) && bool_decide (is_Some origin_path)))
            then '(err, _) ← ovl_verify_origin (lk_w st) u this false; Ret (err, true)
            else Ret (0, false)
        | None => Ret (0, false)
        end;
      if negb (err =? 0) then
        if ld_is_dir d
        then Ret (inr (LkVars d (v_stack v) (v_origin v) (v_metacopy v) (v_poe v) (v_atroot v), None), st)
        else Ret (inl err, st)
      else
        let origin := if (verified : bool) then Some this else v_origin v in
        let metacopy := if ld_metacopy d then true else v_metacopy v in
        if ld_metacopy d && negb (ctr =? 0)
        then Ret (inr (LkVars d (v_stack v) origin metacopy (v_poe v) (v_atroot v), Some (i + 1)), st)
        else if zlen (fs_lower_layers ofs) <=? ctr then Fault  (* stack[ctr] past its end *)
        else
          let stack := v_stack v ++ [OvlPath (op_layer lower) this] in
          if bool_decide (is_Some (ld_redirect d)) && negb (c_redirect_follow (fs_config ofs))
          then Ret (inl (- EPERM), st)
          else if ld_stop d
          then Ret (inr (LkVars d stack origin metacopy (v_poe v) (v_atroot v), None), st)
          else if match ld_redirect d with Some r => starts_slash r | None => false end && negb (v_atroot v)
          then Ret (inr (LkVars d stack origin metacopy roe true, Some (l_idx (op_layer lower))), st)
          else Ret (inr (LkVars d stack origin metacopy (v_poe v) (v_atroot v), Some (i + 1)), st)
  end.

(** The loop over the lower layers. *)
Fixpoint lookup_lower (n : nat) st v (upperdentry : option dentry) (origin_path : option ovl_path) (i : Z)
    : outcome ((Z + lkvars) * lkstate W) :=
  if ld_stop (v_d v) || (zlen (v_poe v) <=? i) then Ret (inr v, st) else
  match n with
  | O => NoFuel
  | S n =>
      match zget (v_poe v) i with
      | None => Fault
      | Some lower =>
          '(r, st) ← lookup_lower_step st v upperdentry origin_path i lower;
          match r with
          | inl err => Ret (inl err, st)
          | inr (v, None) => Ret (inr v, st)
          | inr (v, Some i) => lookup_lower n st v upperdentry origin_path i
          end
      end
  end.

(** After the loop, up to the inode: an error, or the stack and the origin;
    [allocated] tells that [stack] is not NULL. *)
Definition lookup_stack st v (allocated : bool) (upperdentry : option dentry) (origin_path : option ovl_path)
    : Z + (list ovl_path * option dentry) :=
  let d := v_d v in
  let ctr := zlen (v_stack v) in
  let stack :=
    if v_metacopy v then
      if ld_metacopy d then inl (- EIO)
      else if negb (c_metacopy (fs_config (lk_ofs st))) then inl (- EPERM)
      else inr (v_stack v)
    else match origin_path with
         | Some p =>
             if negb (ld_is_dir d) && bool_decide (is_Some upperdentry) && (ctr =? 0)
             then if allocated then inl (- EIO) else inr [p]
             else inr (v_stack v)
         | None => inr (v_stack v)
         end in
  match stack with
  | inl e => inl e
  | inr stack =>
      inr (stack,
           if negb (bool_decide (stack = [])) &&
              (negb (bool_decide (is_Some upperdentry)) || (negb (ld_is_dir d) && negb (v_metacopy v)))
           then op_dentry <$> head stack else v_origin v)
  end.

(** A looked up dentry: its d_fsdata and its inode, if any. *)
Record looked_up : Type := LookedUp { lu_entry : ovl_entry; lu_inode : option ovl_inode }.

(** The index, the entry and the inode. *)
Definition lookup_finish st v (upperdentry : option dentry) (upperredirect : option string)
    (upperopaque : bool) (stack : list ovl_path) (origin : option dentry) : outcome (Z + looked_up) :=
  let w := lk_w st in
  let ofs := lk_ofs st in
  let d := v_d v in
  let ctr := zlen stack in
  index ←
    match origin with
    | Some o =>
        if ovl_indexdir ofs && (negb (ld_is_dir d) || ovl_index_all ofs)
        then ovl_lookup_index w indexdir upperdentry o true else Ret PNull
    | None => Ret PNull
    end;
  match index with
  | PErr e => Ret (inl e)
  | _ =>
      let index := match index with PPtr i => Some i | _ => None end in
      if negb (kmalloc_ok w (8 + 16 * ctr)) then Ret (inl (- ENOMEM)) else
      let oe := OvlEntry 0 stack in
      let oe := if (upperopaque : bool) then ovl_dentry_set_opaque oe else oe in
      let oe := if bool_decide (is_Some upperdentry) then ovl_dentry_set_upper_alias oe else oe in
      r ← match upperdentry, index with
          | None, Some i =>
              r ← ovl_get_redirect_xattr w i 0;
              match r with
              | PErr e => Ret (inl e)
              | PNull => Ret (inr (Some i, None))
              | PPtr (s, _) => Ret (inr (Some i, Some s))
              end
          | _, _ => Ret (inr (upperdentry, upperredirect))
          end;
      match r with
      | inl e => Ret (inl e)
      | inr (upperdentry, upperredirect) =>
          if bool_decide (is_Some upperdentry) || negb (ctr =? 0) then
            r ← ovl_get_inode s_export_op next_ino iget5 new_inode w ofs
                  (InodeParams false upperdentry (head stack) index ctr upperredirect
                     (if (1 <? ctr) && negb (ld_is_dir d) then op_dentry <$> last stack else None));
            match r with
            | inl e => Ret (inl e)
            | inr inode => Ret (inr (LookedUp oe (Some inode)))
            end
          else Ret (inr (LookedUp oe None))
      end
  end.

(** ovl_lookup: [upperdir] and [poe] are the parent's upper dentry and lower
    stack, [atroot] tells that the parent is the root *)
Definition ovl_lookup st (upperdir : option dentry) (poe : list ovl_path) (atroot : bool) (name : string)
    : outcome ((Z + looked_up) * lkstate W) :=
  let ofs := lk_ofs st in
  if fs_namelen ofs <? strlen name then Ret (inl (- ENAMETOOLONG), st) else
  let d := LookupData name false false false
             (if c_redirect_follow (fs_config ofs) then false else zlen poe =? 0) None false in
  r ← lookup_upper st upperdir d;
  match r with
  | inl e => Ret (inl e, st)
  | inr (d, upperdentry, origin_path, metacopy, upperredirect, upperopaque) =>
      let toroot := match upperdir, ld_redirect d with
                    | Some _, Some r => starts_slash r | _, _ => false end in
      let '(poe, atroot) := if toroot then (roe, true) else (poe, atroot) in
      let allocated := negb (ld_stop d) && negb (zlen poe =? 0) in
      if allocated && negb (kmalloc_ok (lk_w st) (16 * zlen (fs_lower_layers ofs)))
      then Ret (inl (- ENOMEM), st) else
      '(r, st) ← lookup_lower (S (length poe + length roe)) st
                   (LkVars d [] None metacopy poe atroot) upperdentry origin_path 0;
      match r with
      | inl e => Ret (inl e, st)
      | inr v =>
          match lookup_stack st v allocated upperdentry origin_path with
          | inl e => Ret (inl e, st)
          | inr (stack, origin) =>
              r ← lookup_finish st v upperdentry upperredirect upperopaque stack origin;
              Ret (r, st)
          end
      end
  end.

(** ovl_lower_positive: [None] in [dentry]'s inode is a negative dentry; its
    entry may be marked opaque (a whiteout) *)
Fixpoint lower_positive_loop (w : W) (name : string) (poe : list ovl_path) : outcome bool :=
  match poe with
  | [] => Ret false
  | p :: poe =>
      match lookup_one_len_unlocked w name (op_dentry p) with
      | PNull => Fault
      | PErr e =>
          if (e =? - ENOENT) || (e =? - ENAMETOOLONG)
          then lower_positive_loop w name poe else Ret true
      | PPtr this =>
          if bool_decide (is_Some (d_inode this)) then Ret (negb (ovl_is_whiteout this))
          else lower_positive_loop w name poe
      end
  end.
Definition ovl_lower_positive (w : W) (name : string) (inode : option ovl_inode) (oe : ovl_entry)
    (poe : list ovl_path) : outcome bool :=
  match inode with
  | None => Ret (ovl_dentry_is_opaque oe)
  | Some o =>
      if negb (bool_decide (is_Some (oi_upper o))) then Ret true
      else lower_positive_loop w name poe
  end.

End lookup.
