(* ===== verification/LookupProps.v ===== *)
(** Properties of [ovl_lookup]: it returns on every content of the layers, its
    stack never overflows and goes strictly downwards through the layers; and
    on plain layers the stack is the one overlay semantics prescribes. *)

From Stdlib Require Import Ascii.
From S2P Require Import Prelude Types Util Under Nlink Fh FhProps Redirect RedirectProps Inode Lookup.
Local Open Scope Z_scope.

(** Layers strictly below [m], from top to bottom. *)
Fixpoint descends (m : Z) (l : list ovl_path) : Prop :=
  match l with
  | [] => True
  | p :: l => m < l_idx (op_layer p) ∧ descends (l_idx (op_layer p)) l
  end.

(** The lowest layer of a stack that starts below [m]. *)
Fixpoint lowest (m : Z) (l : list ovl_path) : Z :=
  match l with [] => m | p :: l => lowest (l_idx (op_layer p)) l end.

Lemma descends_snoc m l p :
  descends m (l ++ [p]) ↔ descends m l ∧ lowest m l < l_idx (op_layer p).
Proof.
  revert m. induction l as [|q l IH]; intros m; cbn; [naive_solver|]. rewrite IH. naive_solver.
Qed.
Lemma lowest_snoc m l p : lowest m (l ++ [p]) = l_idx (op_layer p).
Proof. revert m. induction l as [|q l IH]; intros m; cbn; done. Qed.
Lemma lowest_ge m l : descends m l → m + zlen l ≤ lowest m l.
Proof.
  revert m. unfold zlen. induction l as [|q l IH]; intros m; cbn; [lia|].
  intros [? Hd%IH]. lia.
Qed.

(** The lower stack of a dentry whose layers are among the [n] of the mount. *)
Definition stack_ok (n : Z) (l : list ovl_path) : Prop :=
  descends 0 l ∧ Forall (λ p, l_idx (op_layer p) ≤ n) l.

(** The root merges every layer. *)
Definition root_ok (n : Z) (roe : list ovl_path) : Prop :=
  zlen roe = n ∧ ∀ i p, zget roe i = Some p → l_idx (op_layer p) = i + 1.

Lemma zget_cons {A} (x : A) l i : 0 < i → zget (x :: l) i = zget l (i - 1).
Proof.
  intros Hi. unfold zget. rewrite !decide_True by lia.
  by replace (Z.to_nat i) with (S (Z.to_nat (i - 1))) by lia.
Qed.

Lemma descends_get m l i p :
  descends m l → zget l i = Some p → m + i < l_idx (op_layer p).
Proof.
  revert m i. induction l as [|q l IH]; intros m i Hd Hi.
  { apply zget_Some_bound in Hi. unfold zlen in Hi. cbn in Hi. lia. }
  pose proof (zget_Some_bound _ _ _ Hi) as Hb. destruct Hd as [Hq Hd].
  destruct (decide (i = 0)) as [->|Hne].
  - unfold zget in Hi. cbn in Hi. injection Hi as <-. lia.
  - rewrite zget_cons in Hi by lia. specialize (IH _ _ Hd Hi). lia.
Qed.

Lemma descends_gets m l i j p q :
  descends m l → zget l i = Some p → zget l j = Some q → i < j →
  l_idx (op_layer p) < l_idx (op_layer q).
Proof.
  revert m i j. induction l as [|x l IH]; intros m i j Hd Hi Hj Hij.
  { apply zget_Some_bound in Hi. unfold zlen in Hi. cbn in Hi. lia. }
  pose proof (zget_Some_bound _ _ _ Hi). destruct Hd as [_ Hd].
  rewrite zget_cons in Hj by lia. destruct (decide (i = 0)) as [->|Hne].
  - unfold zget in Hi. cbn in Hi. injection Hi as <-.
    pose proof (descends_get _ _ _ _ Hd Hj). pose proof (zget_Some_bound _ _ _ Hj). lia.
  - rewrite zget_cons in Hi by lia. eapply IH; eauto. lia.
Qed.

Lemma root_stack_ok n l : root_ok n l → stack_ok n l.
Proof.
  intros [Hn Hl].
  assert (∀ k l, (∀ i p, zget l i = Some p → l_idx (op_layer p) = k + i + 1) → descends k l) as Hd.
  { clear. intros k l. revert k. induction l as [|q l IH]; intros k Hk; [done|]. cbn.
    assert (l_idx (op_layer q) = k + 1) as Eq by (rewrite (Hk 0 q); [lia|done]).
    split; [lia|]. apply IH. intros j p Hj. pose proof (zget_Some_bound _ _ _ Hj).
    rewrite Eq. rewrite (Hk (j + 1) p); [lia|]. rewrite zget_cons by lia.
    by replace (j + 1 - 1) with j by lia. }
  split.
  - apply (Hd 0). intros j p Hj. rewrite (Hl j p Hj). lia.
  - apply Forall_lookup. intros j p Hj. pose proof (lookup_lt_Some _ _ _ Hj).
    rewrite (Hl (Z.of_nat j) p); [unfold zlen in Hn; lia|].
    unfold zget. rewrite decide_True by lia. by rewrite Nat2Z.id.
Qed.

Lemma stack_ok_len n l : 0 ≤ n → stack_ok n l → zlen l ≤ n.
Proof.
  intros Hn [Hd Hf]. pose proof (lowest_ge 0 l Hd).
  assert (∀ m, m ≤ n → lowest m l ≤ n) as Hl.
  { clear -Hf. induction Hf as [|p l Hp _ IH]; intros m Hm; [done|]. by apply IH. }
  specialize (Hl 0 Hn). lia.
Qed.

Lemma lookup_index_positive {W} `{UnderLaws W} (w : W) idir u o v x :
  ovl_lookup_index w idir u o v = Ret (PPtr x) → is_Some (d_inode x).
Proof.
  unfold ovl_lookup_index. destruct (ovl_get_index_name w o) as [[e|nm]| |]; cbn [mbind outcome_bind]; try done.
  destruct (lookup_one_len_unlocked w nm idir) as [|e|i]; [done|by case_match|].
  destruct (d_inode i) as [ii|] eqn:Ei; [|done].
  assert (∀ y, @Ret (eptr dentry) (PPtr i) = Ret (PPtr y) → is_Some (d_inode y)) as Hi
    by (intros y [= <-]; by rewrite Ei).
  repeat (case_match; try done); try apply Hi.
  intros E. apply outcome_bind_Ret in E as ([e w'] & _ & E). cbn in E. case_match; [done|]. by apply Hi.
Qed.

Section returns.
Context {W : Type} `{UnderLaws W}.
Context (ww : W → Z) (ex : Z → option (bool * bool)) (ic : Z → option ovl_inode)
        (ig : Z → option (ovl_inode * bool)) (ni : option ovl_inode) (sx : bool) (nx : Z)
        (idir : dentry) (roe : list ovl_path) (dp : dentry → dentry).
Implicit Types (w : W) (st : lkstate W) (v : lkvars).

Local Abbreviation step := (lookup_lower_step ww ex ic roe dp).
Local Abbreviation loop := (lookup_lower ww ex ic roe dp).

(** What no operation of lookup changes. *)
Definition same_layers st st' : Prop :=
  fs_lower_layers (lk_ofs st') = fs_lower_layers (lk_ofs st) ∧
  fs_config (lk_ofs st') = fs_config (lk_ofs st).

Lemma check_setxattr_layers w ofs u n val xe e ofs' w' :
  ovl_check_setxattr w ofs u n val xe = (e, ofs', w') →
  fs_lower_layers ofs' = fs_lower_layers ofs ∧ fs_config ofs' = fs_config ofs.
Proof.
  unfold ovl_check_setxattr. destruct (fs_noxattr ofs); [by intros [= _ <- _]|].
  destruct (vfs_setxattr _ _ _ _ _). by case_match; intros [= _ <- _].
Qed.

Lemma set_impure_layers st u e st' :
  ovl_set_impure st u = (e, st') → same_layers st st'.
Proof.
  unfold ovl_set_impure. case_match; [by intros [= _ <-]|].
  destruct (ovl_check_setxattr _ _ _ _ _ _) as [[e1 ofs1] w1] eqn:E.
  apply check_setxattr_layers in E. by intros [= _ <-].
Qed.

Lemma fix_origin_ret st lower upper :
  ∃ e st', ovl_fix_origin ww ex dp st lower upper = Ret (e, st') ∧ same_layers st st'.
Proof.
  assert (∀ e, ∃ e' st', @Ret (Z * lkstate W) (e, st) = Ret (e', st') ∧ same_layers st st') as Hst
    by (intros e; by eexists _, _).
  unfold ovl_fix_origin. case_match; [apply Hst|]. case_match; [apply Hst|].
  unfold ovl_set_origin.
  assert (∃ fh, (if negb (ovl_can_decode_fh (ex (d_sb lower)) =? 0)
      then ovl_encode_real_fh (lk_w st) lower false else Ret PNull) = Ret fh ∧
      ∀ b, fh = PPtr b → fh_len b = Ret (zlen b)) as (fh & -> & Hfh).
  { case_match; [|by eexists]. destruct (encode_ret (lk_w st) lower false) as (r & -> & _ & _ & Hr).
    eexists. split; [done|]. intros b ->. by destruct (Hr b eq_refl) as [[_ ?] _]. }
  assert (∀ (e : Z) ofs' w', fs_lower_layers ofs' = fs_lower_layers (lk_ofs st) ∧ fs_config ofs' = fs_config (lk_ofs st) →
    ∃ e' st', (let st := LkState w' ofs' (lk_parent st) in
       if e =? 0 then Ret (ovl_set_impure st (dp upper)) else Ret (e, st)) = Ret (e', st') ∧
       same_layers st st') as Hnext.
  { intros e ofs' w' Hs. cbv zeta. case_match; [|by eexists _, _].
    destruct (ovl_set_impure (LkState w' ofs' (lk_parent st)) (dp upper)) as [e2 st2] eqn:E2. apply set_impure_layers in E2 as [E3 E4].
    cbn in E3, E4. eexists _, _. split; [done|]. split; [by rewrite E3; apply Hs|by rewrite E4; apply Hs]. }
  cbn [mbind outcome_bind]. destruct fh as [|e|b].
  - destruct (ovl_check_setxattr _ _ _ _ _ _) as [[e ofs'] w'] eqn:E.
    apply check_setxattr_layers in E. cbn [mbind outcome_bind]. by apply Hnext.
  - cbn [mbind outcome_bind]. by apply Hnext.
  - rewrite (Hfh b eq_refl). cbn [mbind outcome_bind]. rewrite memread_all. cbn [mbind outcome_bind].
    destruct (ovl_check_setxattr _ _ _ _ _ _) as [[e ofs'] w'] eqn:E.
    apply check_setxattr_layers in E. cbn [mbind outcome_bind]. by apply Hnext.
Qed.

Definition positive (o : option dentry) : Prop := ∀ x, o = Some x → is_Some (d_inode x).

(** The loop's variables, with [n] lower layers. *)
Record vars_ok (n : Z) v : Prop := {
  ok_name : strlen (ld_name (v_d v)) ≤ KMALLOC_MAX_SIZE;
  ok_stack : stack_ok n (v_stack v);
  ok_pos : Forall (λ p, is_Some (d_inode (op_dentry p))) (v_stack v);
  ok_origin : positive (v_origin v);
  ok_poe : stack_ok n (v_poe v);
  ok_root : v_atroot v = true → v_poe v = roe;
}.
(** The next round looks below everything on the stack. *)
Definition next_ok v (i : Z) : Prop :=
  0 ≤ i ∧ ∀ j p, i ≤ j → zget (v_poe v) j = Some p → lowest 0 (v_stack v) < l_idx (op_layer p).
Definition rounds v (i : Z) : Z := (if v_atroot v then 0 else zlen roe) + (zlen (v_poe v) - i).

Lemma verify_phase_ret st (c : lkstate W → bool) (u : option dentry) (this : dentry) :
  ∃ e b, match u with
         | Some u => if c st then '(err, _) ← ovl_verify_origin (lk_w st) u this false; Ret (err, true)
                     else Ret (0, false)
         | None => Ret (0, false)
         end = Ret (e, b).
Proof.
  destruct u as [u|]; [|by eexists _, _]. destruct (c st); [|by eexists _, _].
  unfold ovl_verify_origin. destruct (verify_set_fh_ret (lk_w st) u OVL_XATTR_ORIGIN this false false) as ([e w'] & ->).
  by eexists _, _.
Qed.

Lemma fix_phase_ret st (c : bool) (u : option dentry) (this : dentry) :
  ∃ e st', match u with
           | Some u => if c then ovl_fix_origin ww ex dp st this u else Ret (0, st)
           | None => Ret (0, st)
           end = Ret (e, st') ∧ same_layers st st'.
Proof.
  destruct u as [u|]; [|by eexists _, _]. destruct c; [|by eexists _, _]. apply fix_origin_ret.
Qed.

Lemma lower_step_ret n st v u op i lower :
  zlen (fs_lower_layers (lk_ofs st)) = n → root_ok n roe → vars_ok n v → next_ok v i →
  zget (v_poe v) i = Some lower →
  ∃ r st', step st v u op i lower = Ret (r, st') ∧ same_layers st st' ∧
    ∀ v' oi, r = inr (v', oi) → vars_ok n v' ∧
      ∀ i', oi = Some i' → next_ok v' i' ∧ rounds v' i' < rounds v i.
Proof.
  intros Hn [Hr Hri] [Hname Hstack Hpos Horig Hpoe Hroot] [Hi Hnext] Hlow.
  assert (same_layers st st) as Hrefl by done.
  assert (Hb := zget_Some_bound _ _ _ Hlow).
  pose proof (Hnext i lower ltac:(lia) Hlow) as Hll.
  assert (l_idx (op_layer lower) ≤ n) as Hln.
  { destruct Hpoe as [_ Hf]. rewrite Forall_forall in Hf. apply Hf.
    unfold zget in Hlow. rewrite decide_True in Hlow by lia. by eapply list_elem_of_lookup_2. }
  unfold lookup_lower_step. set (lastb := if negb _ then _ else _).
  destruct (lookup_layer_ret ic (lk_w st) (op_dentry lower) (set_ld_last lastb (v_d v))
    (S (String.length (ld_name (v_d v))))) as (err & d' & this & -> & Hlen & Hthis);
    [cbn; unfold KMALLOC_MAX_SIZE, two64 in *; lia|cbn; lia|].
  cbn [mbind outcome_bind]. cbn in Hlen.
  assert (strlen (ld_name d') ≤ KMALLOC_MAX_SIZE) as Hname' by lia. clear Hlen.
  destruct (err =? 0); cbn [negb]; [|by eexists _, _].
  assert (∀ o m, positive o → vars_ok n (LkVars d' (v_stack v) o m (v_poe v) (v_atroot v))) as Hkeep
    by (intros; by split).
  assert (∀ o m stk, (∀ j p, i < j → zget (v_poe v) j = Some p → lowest 0 stk < l_idx (op_layer p)) →
    next_ok (LkVars d' stk o m (v_poe v) (v_atroot v)) (i + 1)) as Hadv.
  { intros o m stk Hs. split; [lia|]. intros j p Hj. apply Hs. lia. }
  assert (∀ o m stk, rounds (LkVars d' stk o m (v_poe v) (v_atroot v)) (i + 1) < rounds v i) as Hmeas
    by (intros; unfold rounds; cbn; lia).
  destruct this as [this|].
  2: { eexists _, _. split; [done|]. split; [done|]. intros v' oi [= <- <-]. split; [by apply Hkeep|].
       intros i' [= <-]. split; [|apply Hmeas]. apply Hadv. intros j p ?. apply Hnext. lia. }
  specialize (Hthis this eq_refl).
  destruct (fix_phase_ret st ((zlen (v_stack v) =? 0) && negb (fs_noxattr (lk_ofs st)) && ld_is_dir d') u this)
    as (e1 & st1 & -> & Hs1). cbn [mbind outcome_bind].
  destruct (e1 =? 0); cbn [negb]; [|by eexists _, _].
  destruct (verify_phase_ret st1 (λ st1, (zlen (v_stack v) =? 0) &&
    (ld_is_dir d' && ovl_verify_lower (lk_ofs st1)
     || negb (ld_is_dir d') && c_index (fs_config (lk_ofs st1)) && bool_decide (is_Some op))) u this)
    as (e2 & b & ->). cbn [mbind outcome_bind].
  destruct (e2 =? 0); cbn [negb].
  2: { destruct (ld_is_dir d'); [|by eexists _, _]. eexists _, _. split; [done|]. split; [done|].
       intros v' oi [= <- <-]. split; [by apply Hkeep|done]. }
  assert (positive (if b then Some this else v_origin v)) as Ho
    by (destruct b; [by intros x [= <-]|done]).
  destruct (ld_metacopy d' && negb (zlen (v_stack v) =? 0)).
  { eexists _, _. split; [done|]. split; [done|]. intros v' oi [= <- <-]. split; [by apply Hkeep|].
    intros i' [= <-]. split; [|apply Hmeas]. apply Hadv. intros j p ?. apply Hnext. lia. }
  destruct Hs1 as [Hs1 Hs1']. rewrite Hs1, Hn.
  pose proof (lowest_ge 0 (v_stack v) (proj1 Hstack)) as Hge.
  pose proof (zlen_nonneg (v_stack v)) as Hctr.
  destruct (Z.leb_spec n (zlen (v_stack v))); [lia|].
  set (stk := v_stack v ++ [OvlPath (op_layer lower) this]).
  assert (lowest 0 stk = l_idx (op_layer lower)) as Hls
    by exact (lowest_snoc 0 (v_stack v) (OvlPath (op_layer lower) this)).
  assert (stack_ok n stk ∧ Forall (λ p, is_Some (d_inode (op_dentry p))) stk) as [Hstk Hstkp].
  { split; [split|].
    - apply descends_snoc. split; [apply Hstack|]. done.
    - apply Forall_app. split; [apply Hstack|]. by constructor.
    - apply Forall_app. split; [done|]. by constructor. }
  assert (∀ o m, positive o → vars_ok n (LkVars d' stk o m (v_poe v) (v_atroot v))) as Hpush
    by (intros; by split).
  destruct (_ && negb (c_redirect_follow _)); [by eexists _, _|].
  destruct (ld_stop d').
  { eexists _, _. split; [done|]. split; [done|]. intros v' oi [= <- <-]. split; [by apply Hpush|done]. }
  destruct (_ && negb (v_atroot v)) eqn:Hsw.
  - eexists _, _. split; [done|]. split; [done|]. intros v' oi [= <- <-]. split.
    + split; cbn; try done. by apply root_stack_ok.
    + intros i' [= <-]. split.
      * split; [lia|]. cbn. intros j p Hj Hp. rewrite Hls, (Hri j p Hp). lia.
      * apply andb_true_iff in Hsw as [_ Hat]. apply negb_true_iff in Hat.
        unfold rounds. cbn. rewrite Hat. lia.
  - eexists _, _. split; [done|]. split; [done|]. intros v' oi [= <- <-]. split; [by apply Hpush|].
    intros i' [= <-]. split; [|apply Hmeas]. apply Hadv. intros j p Hj Hp. rewrite Hls.
    by eapply descends_gets; [apply Hpoe|done..].
Qed.

Lemma lower_ret n k : ∀ st v u op i,
  zlen (fs_lower_layers (lk_ofs st)) = n → root_ok n roe → vars_ok n v → next_ok v i →
  rounds v i < Z.of_nat k →
  ∃ r st', loop k st v u op i = Ret (r, st') ∧ same_layers st st' ∧ ∀ v', r = inr v' → vars_ok n v'.
Proof.
  induction k as [|k IH]; intros st v u op i Hn Hr Hv Hi Hk; cbn [lookup_lower];
    (destruct (ld_stop (v_d v) || (zlen (v_poe v) <=? i)) eqn:Hend;
      [eexists _, _; split; [done|]; split; [done|by intros ? [= <-]]|]);
    apply orb_false_iff in Hend as [_ Hlt%Z.leb_gt].
  - unfold rounds in Hk. exfalso. pose proof (zlen_nonneg roe). destruct (v_atroot v); lia.
  - destruct (zget_is_Some (v_poe v) i) as [lower Hl]; [destruct Hi; lia|]. rewrite Hl.
    destruct (lower_step_ret n st v u op i lower) as (r & st' & -> & [Hs1 Hs2] & Hr'); try done.
    cbn [mbind outcome_bind]. destruct r as [e|[v' [i'|]]].
    + by eexists _, _.
    + destruct (Hr' v' (Some i') eq_refl) as [Hv' Hi']. destruct (Hi' i' eq_refl) as [Hi2 Hm].
      destruct (IH st' v' u op i') as (r & st2 & -> & [Hs3 Hs4] & Hr2); try done; [by rewrite Hs1|lia|].
      eexists _, _. split; [done|]. split; [|done]. split; congruence.
    + destruct (Hr' v' None eq_refl) as [Hv' _]. eexists _, _. split; [done|].
      split; [done|]. by intros ? [= <-].
Qed.

(** ** The rest of ovl_lookup *)

Lemma upper_ret st ud d :
  strlen (ld_name d) ≤ KMALLOC_MAX_SIZE →
  ∃ r, lookup_upper ic st ud d = Ret r ∧
    ∀ d' u op m ur uo, r = inr (d', u, op, m, ur, uo) →
      strlen (ld_name d') ≤ KMALLOC_MAX_SIZE ∧ positive u ∧
      (∀ p, op = Some p → is_Some (d_inode (op_dentry p))).
Proof.
  intros Hlen. unfold lookup_upper.
  destruct ud as [ud|]; [|eexists; split; [done|]; by intros ?????? [= <- <- <- _ _ _]].
  destruct (lookup_layer_ret ic (lk_w st) ud d (S (String.length (ld_name d))))
    as (err & d' & u & -> & Hl & Hu); [unfold KMALLOC_MAX_SIZE, two64 in *; lia|lia|].
  cbn [mbind outcome_bind]. destruct (err =? 0); cbn [negb]; [|by eexists].
  destruct (match u with Some u => ovl_dentry_remote u | None => false end); [by eexists|].
  assert (∃ e op m, match u with
        | Some u =>
            if negb (ld_is_dir d') then
              '(err, op, _) ← ovl_check_origin (lk_w st) (lk_ofs st) u None 0;
              Ret (err, op, ld_metacopy d')
            else Ret (0, None, false)
        | None => Ret (0, None, false)
        end = Ret (e, op, m) ∧ ∀ p, op = Some p → is_Some (d_inode (op_dentry p)))
    as (e & op & m & -> & Hop).
  { destruct u as [u|]; [|by eexists _, _, _]. destruct (ld_is_dir d'); cbn [negb]; [by eexists _, _, _|].
    unfold ovl_check_origin.
    destruct (get_fh_ret (lk_w st) u OVL_XATTR_ORIGIN) as (r & -> & _ & Hr). cbn [mbind outcome_bind].
    destruct r as [|e|fh]; [by eexists _, _, _..|]. destruct (Hr fh eq_refl) as (_ & _ & _ & Hok).
    destruct (check_origin_fh_ret (lk_w st) (lk_ofs st) fh false (Some u) (bool_decide (is_Some (@None ovl_path))) Hok)
      as (r & -> & Hp); [intros ? [= <-]; by apply Hu|].
    cbn [mbind outcome_bind]. destruct r as [e|p]; [destruct (e =? - ESTALE); by eexists _, _, _|].
    cbn. eexists _, _, _. split; [done|]. intros q [= <-]. by apply Hp. }
  cbn [mbind outcome_bind]. destruct (e =? 0); cbn [negb]; [|by eexists].
  destruct (ld_redirect d') as [r|]; [destruct (kmalloc_ok _ _); cbn [negb]; [|by eexists]|];
    (eexists; split; [done|]; intros ?????? [= <- <- <- _ _ _]; split; [lia|done]).
Qed.

Lemma get_inode_ret w ofs oip :
  positive (oip_upperdentry oip) →
  (∀ p, oip_lowerpath oip = Some p → is_Some (d_inode (op_dentry p))) →
  is_Some (oip_upperdentry oip) ∨ is_Some (oip_lowerpath oip) →
  ∃ r, ovl_get_inode sx nx ig ni w ofs oip = Ret r.
Proof.
  intros Hu Hl Hor. unfold ovl_get_inode.
  assert (∀ ri bl o ino fsid, ∃ r, get_inode_fill nx w ofs oip ri bl o ino fsid = Ret r) as Hfill.
  { intros. unfold get_inode_fill. unfold ovl_inode_init.
    assert (is_Some (match oip_upperdentry oip with Some u => Some u
      | None => op_dentry <$> oip_lowerpath oip end ≫= d_inode)) as [x ->].
    { destruct (oip_upperdentry oip) as [u|]; [by apply Hu|].
      destruct (oip_lowerpath oip) as [p|]; [by apply Hl|]. by destruct Hor as [[]|[]]. }
    cbn [mbind outcome_bind].
    assert (∃ m, match oip_upperdentry oip with Some u => ovl_check_metacopy_xattr w u | None => Ret 0 end
      = Ret m) as [m ->].
    { destruct (oip_upperdentry oip) as [u|]; [|by eexists]. apply check_metacopy_ret. by apply Hu. }
    cbn [mbind outcome_bind]. case_match; by eexists. }
  assert (∃ bl, ovl_hash_bylower ofs sx (oip_upperdentry oip) (op_dentry <$> oip_lowerpath oip) (oip_index oip)
    = Ret bl ∧ (bl = true → is_Some (oip_lowerpath oip))) as (bl & -> & Hbl).
  { unfold ovl_hash_bylower. destruct (oip_lowerpath oip) as [p|]; cbn; [|by eexists].
    destruct (Hl p eq_refl) as [li ->]. repeat case_match; cbn; repeat case_match; by eexists. }
  cbn [mbind outcome_bind].
  assert (∀ lower upper f, (∀ d, lower = Some d → is_Some (d_inode d)) → positive upper →
    ∃ n, ovl_get_nlink w lower upper f = Ret n) as Hnl by (intros; by apply get_nlink_ret).
  assert (positive (op_dentry <$> oip_lowerpath oip)) as Hl'.
  { destruct (oip_lowerpath oip) as [p|]; [|done]. intros x [= <-]. by apply Hl. }
  set (lo := op_dentry <$> oip_lowerpath oip) in *.
  assert (is_Some lo ↔ is_Some (oip_lowerpath oip)) as Hlo by apply fmap_is_Some.
  clearbody lo. destruct (oip_upperdentry oip) as [u|] eqn:Eu.
  - destruct (Hu u eq_refl) as [ui ->].
    rewrite (bool_decide_true (is_Some (Some u))) by by eexists. cbn [orb].
    assert (∃ k, match (if bl then match lo with Some l => d_inode l | None => None end else Some ui) with
      Some k => Ret k | None => Fault end = Ret k) as [k Hk].
    { destruct bl; [|by eexists]. destruct (proj2 Hlo (Hbl eq_refl)) as [l El]. subst lo.
      destruct (Hl' l eq_refl) as [li ->]. by eexists. }
    destruct (match lo with Some l => d_inode l | None => None end) as [li|];
      cbn [mbind outcome_bind]; rewrite Hk; cbn [mbind outcome_bind];
      (destruct (ig (i_ptr k)) as [[o []]|]; [| |by eexists]);
      [|by destruct (ovl_verify_inode _ _ _ _); eexists| |by destruct (ovl_verify_inode _ _ _ _); eexists];
      (destruct (S_ISDIR _); cbn [negb]; [cbn [mbind outcome_bind]; apply Hfill|];
       destruct (Hnl lo (Some u) (i_nlink ui)) as [nl ->]; [done|done|]; apply Hfill).
  - destruct Hor as [[]|Hor]; [done|]. apply Hlo in Hor as [l El]. subst lo.
    destruct (Hl' l eq_refl) as [li ->]. cbn [mbind outcome_bind].
    rewrite (bool_decide_false (is_Some (@None dentry))) by by intros [].
    cbn [orb]. destruct bl; [|destruct ni; [apply Hfill|by eexists]].
    cbn [mbind outcome_bind].
    destruct (ig (i_ptr li)) as [[o []]|]; [|by destruct (ovl_verify_inode _ _ _ _); eexists|by eexists].
    destruct (S_ISDIR _); cbn [negb]; [cbn [mbind outcome_bind]; apply Hfill|].
    destruct (Hnl (Some l) None (i_nlink li)) as [nl ->]; [done|done|]. apply Hfill.
Qed.

Lemma finish_ret st v u ur uo stack origin :
  positive u → Forall (λ p, is_Some (d_inode (op_dentry p))) stack → positive origin →
  ∃ r, lookup_finish ig ni sx nx idir st v u ur uo stack origin = Ret r ∧
    ∀ lu, r = inr lu → oe_lowerstack (lu_entry lu) = stack.
Proof.
  intros Hu Hs Ho. unfold lookup_finish.
  assert (∃ i, match origin with
    | Some o => if ovl_indexdir (lk_ofs st) && (negb (ld_is_dir (v_d v)) || ovl_index_all (lk_ofs st))
                then ovl_lookup_index (lk_w st) idir u o true else Ret PNull
    | None => Ret PNull end = Ret i ∧ ∀ x, i = PPtr x → is_Some (d_inode x)) as (i & -> & Hi).
  { destruct origin as [o|]; [|by eexists]. case_match; [|by eexists].
    destruct (lookup_index_ret (lk_w st) idir u o true (Ho o eq_refl)) as [r Hr]. exists r.
    split; [done|]. intros x ->. by eapply lookup_index_positive. }
  cbn [mbind outcome_bind]. destruct i as [|e|x]; [|by eexists|].
  all: destruct (kmalloc_ok _ _); cbn [negb]; [|by eexists].
  all: set (oe := if bool_decide (is_Some u) then _ else _).
  all: assert (oe_lowerstack oe = stack) as Hoe by (subst oe; by repeat case_match).
  all: assert (∀ u' ur' (ix : option dentry), positive u' → ∃ r,
    (if bool_decide (is_Some u') || negb (zlen stack =? 0) then
       r ← ovl_get_inode sx nx ig ni (lk_w st) (lk_ofs st)
             (InodeParams false u' (head stack) ix (zlen stack) ur'
                (if (1 <? zlen stack) && negb (ld_is_dir (v_d v)) then op_dentry <$> last stack else None));
       match r with inl e => Ret (inl e) | inr inode => Ret (inr (LookedUp oe (Some inode))) end
     else Ret (inr (LookedUp oe None))) = Ret r ∧ ∀ lu, r = inr lu → oe_lowerstack (lu_entry lu) = stack) as Hget.
  1, 3: intros u' ur' ix Hu'; destruct (bool_decide (is_Some u') || negb (zlen stack =? 0)) eqn:Hc;
    [|eexists; split; [done|]; by intros ? [= <-]];
    match goal with |- context [ovl_get_inode _ _ _ _ _ _ ?p] => destruct (get_inode_ret (lk_w st) (lk_ofs st) p) as [r ->] end;
    [done
    |cbn; intros q Hq; destruct stack as [|p0 ?]; [done|]; cbn in Hq; injection Hq as <-; by apply Forall_cons in Hs as [? _]
    |cbn; apply orb_true_iff in Hc as [Hc|Hc]; [left; by apply bool_decide_eq_true in Hc|right; destruct stack; [done|by eexists]]
    |];
    cbn [mbind outcome_bind]; destruct r; (eexists; split; [done|]); [done|by intros ? [= <-]].
  - destruct u as [u|]; cbn [mbind outcome_bind]; by apply Hget.
  - destruct u as [u|]; [cbn [mbind outcome_bind]; by apply Hget|].
    destruct (get_redirect_ret (lk_w st) x 0) as (r & -> & _); [done|]. cbn [mbind outcome_bind].
    destruct r as [|e|[s c]]; cbn [mbind outcome_bind]; [| by eexists|];
      (apply Hget; intros y [= <-]; by apply Hi).
Qed.

(** C34: [ovl_lookup] always returns.  Whatever the layers contain - redirect,
    metacopy and origin xattrs included - looking up a name ends, never stores
    past the end of the stack it allocated and never follows a missing inode;
    the lower dentries of the result are taken from layers strictly below one
    another, or are the single decoded origin of a non-directory. *)
Theorem lookup_returns st ud poe atroot name n :
  n = zlen (fs_lower_layers (lk_ofs st)) → root_ok n roe → stack_ok n poe →
  (atroot = true → poe = roe) → fs_namelen (lk_ofs st) ≤ KMALLOC_MAX_SIZE →
  ∃ r st', ovl_lookup ww ex ic ig ni sx nx idir roe dp st ud poe atroot name = Ret (r, st') ∧
    ∀ lu, r = inr lu → let stack := oe_lowerstack (lu_entry lu) in
      (stack_ok n stack ∧ zlen stack ≤ n) ∨ zlen stack = 1.
Proof.
  intros Hn Hroot Hpoe Hat Hlen. unfold ovl_lookup.
  destruct (Z.ltb_spec (fs_namelen (lk_ofs st)) (strlen name)); [by eexists _, _|].
  set (d := LookupData _ _ _ _ _ _ _).
  destruct (upper_ret st ud d) as (r & -> & Hr); [cbn; lia|]. cbn [mbind outcome_bind].
  destruct r as [e|[[[[[d' u] op] m] ur] uo]]; [by eexists _, _|].
  destruct (Hr _ _ _ _ _ _ eq_refl) as (Hl & Hu & Hop). clear Hr.
  set (tr := match ud with Some _ => _ | None => false end).
  assert (∃ poe' at', (if tr then (roe, true) else (poe, atroot)) = (poe', at') ∧ stack_ok n poe' ∧
    (at' = true → poe' = roe)) as (poe' & at' & -> & Hpoe' & Hat').
  { destruct tr; eexists _, _; (split; [done|]); [|done]. split; [by apply root_stack_ok|done]. }
  assert (rounds (LkVars d' [] None m poe' at') 0 < Z.of_nat (S (length poe' + length roe))) as Hrounds
    by (unfold rounds, zlen; destruct at'; cbn; lia).
  cbv iota beta zeta. destruct (_ && negb (kmalloc_ok _ _)); [by eexists _, _|].
  destruct (lower_ret n (S (length poe' + length roe)) st (LkVars d' [] None m poe' at') u op 0)
    as (r & st' & -> & _ & Hr); [done|done| | |done|].
  { by split; cbn. }
  { split; [lia|]. cbn. intros j p Hj Hp. pose proof (descends_get 0 _ _ _ (proj1 Hpoe') Hp). lia. }
  cbn [mbind outcome_bind]. destruct r as [e|v]; [by eexists _, _|].
  destruct (Hr v eq_refl) as [_ Hstk Hpos Ho _ _]. unfold lookup_stack.
  set (sel := if v_metacopy v then _ else _).
  assert (∀ stk, sel = inr stk → (stk = v_stack v ∨ ∃ p, op = Some p ∧ stk = [p])) as Hsel.
  { subst sel. intros stk. repeat case_match; try done; intros [= <-]; try (by left). right. by eexists. }
  destruct sel as [e|stk]; [by eexists _, _|].
  set (org := if _ && _ then op_dentry <$> head stk else v_origin v).
  assert (Forall (λ p, is_Some (d_inode (op_dentry p))) stk) as Hpos'.
  { destruct (Hsel stk eq_refl) as [->|(p & -> & ->)]; [done|]. constructor; [by apply Hop|done]. }
  destruct (finish_ret st' v u ur uo stk org) as (r & -> & Hr2); [done|done| |].
  { subst org. destruct (_ && _); [|done]. intros x Hx. destruct stk as [|p stk]; [done|].
    cbn in Hx. injection Hx as <-. by apply Forall_cons in Hpos' as [? _]. }
  cbn [mbind outcome_bind]. eexists _, _. split; [done|]. intros lu ->.
  cbv zeta. rewrite (Hr2 lu eq_refl). destruct (Hsel stk eq_refl) as [->|(p & _ & ->)]; [left|by right].
  split; [done|]. apply stack_ok_len; [|done]. subst n. apply zlen_nonneg.
Qed.

End returns.

(** ** Concrete inputs *)

(** A name that is a directory in the upper layer and in two lower layers. *)
Module Example.
Definition dir (p : Z) (name : string) : dentry :=
  Dentry p name 0 (Some (Inode p 1 p 2 0 0 (IAttrs 0 0 S_IFDIR 0 0 0 0))).
Definition layer (i : Z) : ovl_layer := OvlLayer (10 + i) i 1 900.
Definition roe : list ovl_path :=
  [OvlPath (layer 1) (dir 21 "/"); OvlPath (layer 2) (dir 22 "/"); OvlPath (layer 3) (dir 23 "/")].
Definition cfg : ovl_config := OvlConfig None None None false true true None false false 0 false.
Definition ofs : ovl_fs :=
  OvlFs 1 100 [100; 101] [layer 1; layer 2; layer 3] 255 false true cfg true true 0.
Definition w : layers :=
  Layers {[ (33, OVL_XATTR_OPAQUE) := bytes_of "y" ]}
    {[ (20, "d") := dir 30 "d"; (21, "d") := dir 31 "d"; (23, "d") := dir 33 "d" ]} [] (λ _, x00).
Definition parent : ovl_inode :=
  OvlInode None None 0 0 (Inode 9 9 77 1 0 0 (IAttrs 0 0 S_IFDIR 0 0 0 0)) (Some (dir 20 "/")) None
    (OvlBlocks 0 0 false 0 0 0 []).
Definition fresh : ovl_inode :=
  OvlInode None None 0 0 (Inode 50 9 0 0 0 0 (IAttrs 0 0 0 0 0 0 0)) None None
    (OvlBlocks 0 0 false 0 0 0 []).
Definition st : lkstate layers := LkState w ofs parent.
End Example.

Lemma lookup_returns_witness :
  let run := ovl_lookup (λ _, 0) (λ _, None) (λ _, None) (λ _, Some (Example.fresh, true)) None false 0
    (Example.dir 99 "index") Example.roe (λ d, d) Example.st (Some (Example.dir 20 "/")) Example.roe true "d" in
  ∃ lu st', run = Ret (inr lu, st') ∧
    map (λ p, d_ptr (op_dentry p)) (oe_lowerstack (lu_entry lu)) = [31; 33].
Proof.
  intros run.
  destruct (lookup_returns (λ _, 0) (λ _, None) (λ _, None) (λ _, Some (Example.fresh, true)) None false 0
    (Example.dir 99 "index") Example.roe (λ d, d) Example.st (Some (Example.dir 20 "/")) Example.roe true "d" 3)
    as (r & st' & E & _).
  - reflexivity.
  - split; [reflexivity|]. intros i p Hp. pose proof (zget_Some_bound _ _ _ Hp) as Hb.
    change (zlen Example.roe) with 3 in Hb.
    assert (i = 0 ∨ i = 1 ∨ i = 2) as [->|[->| ->]] by lia; cbn in Hp; injection Hp as <-; reflexivity.
  - split; [cbn; lia|]. repeat constructor; cbn; lia.
  - reflexivity.
  - unfold KMALLOC_MAX_SIZE. cbn. lia.
  - exists (match r with inr lu => lu | inl _ => LookedUp (OvlEntry 0 []) None end), st'.
    split.
    + subst run. revert E. vm_compute. intros E. injection E as <- <-. reflexivity.
    + revert E. vm_compute. intros E. injection E as <- _. reflexivity.
Defined.
