(* ===== verification/LookupMerge.v ===== *)
(** The overlay semantics of lookup: on layers without redirects, metacopy
    files and origins, [ovl_lookup] finds exactly what the definition of a
    union mount prescribes. *)

From Stdlib Require Import Ascii.
From S2P Require Import Prelude Types Util Under Nlink Fh FhProps Redirect RedirectProps Inode InodeProps Lookup LookupProps.
Local Open Scope Z_scope.

(** ** The specification *)

(** What one layer has under a name. *)
Inductive found : Type :=
| Absent
| Whiteout
| NonDir (x : dentry)
| Dir (x : dentry) (opaque : bool).

(** The lower dentries of a name, from the topmost layer down: a file hides
    everything below it, directories merge until an opaque one, a whiteout
    ends the search. *)
Fixpoint merge (isdir : bool) (ls : list (ovl_layer * found)) : list ovl_path :=
  match ls with
  | [] => []
  | (l, f) :: ls =>
      match f with
      | Absent => merge isdir ls
      | Whiteout => []
      | NonDir x => if isdir then [] else [OvlPath l x]
      | Dir x o => OvlPath l x :: if o then [] else merge true ls
      end
  end.

Definition merge_below (upper : found) (ls : list (ovl_layer * found)) : list ovl_path :=
  match upper with
  | Absent => merge false ls
  | Whiteout | NonDir _ | Dir _ true => []
  | Dir _ false => merge true ls
  end.
Definition found_dentry (f : found) : option dentry :=
  match f with NonDir x | Dir x _ => Some x | _ => None end.

Section merge.
Context {W : Type} `{UnderLaws W}.
Context (ww : W → Z) (ex : Z → option (bool * bool)) (ic : Z → option ovl_inode)
        (ig : Z → option (ovl_inode * bool)) (ni : option ovl_inode) (sx : bool) (nx : Z)
        (idir : dentry) (roe : list ovl_path) (dp : dentry → dentry).
Implicit Types (w : W) (st : lkstate W) (v : lkvars).

(** A looked up dentry, seen as the layer's content. *)
Definition classify w (x : dentry) : found :=
  if negb (bool_decide (is_Some (d_inode x))) then Absent
  else if ovl_is_whiteout x then Whiteout
  else if d_can_lookup x then Dir x (ovl_is_opaquedir w x)
  else NonDir x.

(** The name in one layer. *)
Definition layer_found w (name : string) (base : dentry) : found :=
  match lookup_one_len_unlocked w name base with PPtr x => classify w x | _ => Absent end.

(** No overlay xattrs but "opaque". *)
Record plain w : Prop := {
  plain_redirect x : (vfs_getxattr w x OVL_XATTR_REDIRECT 0).1 = - ENODATA;
  plain_metacopy x : (vfs_getxattr w x OVL_XATTR_METACOPY 0).1 = - ENODATA;
  plain_origin x : (vfs_getxattr w x OVL_XATTR_ORIGIN 0).1 = - ENODATA;
}.
(** An ordinary directory to look in: the name resolves without error to an
    ordinary dentry that is no trap. *)
Definition plain_base w (name : string) (base : dentry) : Prop :=
  ∃ x, lookup_one_len_unlocked w name base = PPtr x ∧ ovl_dentry_weird x = false ∧
       ovl_dentry_remote x = false ∧
       ∀ i, d_inode x = Some i → ovl_lookup_trap_inode ic x = Ret false.

(** The lookup state after a layer. *)
Definition after (d : ovl_lookup_data) (f : found) : ovl_lookup_data :=
  match f with
  | Absent => d
  | Whiteout => set_ld_stop true (set_ld_opaque true d)
  | NonDir _ => if ld_is_dir d then set_ld_stop true d
                else set_ld_stop true (set_ld_metacopy false d)
  | Dir _ o => let d := set_ld_is_dir true d in
               if ld_last d then d
               else if o then set_ld_opaque true (set_ld_stop true d) else d
  end.
Definition taken (d : ovl_lookup_data) (f : found) : option dentry :=
  match f with
  | NonDir x => if ld_is_dir d then None else Some x
  | _ => found_dentry f
  end.

Lemma plain_check_redirect w x d prelen post :
  plain w → ovl_check_redirect w x d prelen post = Ret (0, d).
Proof.
  intros [Hr _ _]. unfold ovl_check_redirect, ovl_get_redirect_xattr, ovl_getxattr.
  specialize (Hr x). destruct (vfs_getxattr w x OVL_XATTR_REDIRECT 0) as [r b]. cbn in Hr. subst r. done.
Qed.

Lemma plain_check_metacopy w x :
  plain w → is_Some (d_inode x) → ovl_check_metacopy_xattr w x = Ret 0.
Proof.
  intros [_ Hm _] [i Hi]. unfold ovl_check_metacopy_xattr. rewrite Hi. case_match; [done|].
  specialize (Hm x). destruct (vfs_getxattr w x OVL_XATTR_METACOPY 0) as [r b]. cbn in Hm. by subst r.
Qed.

Lemma plain_layer fuel w base d :
  plain w → plain_base w (ld_name d) base → starts_slash (ld_name d) = false → ld_metacopy d = false →
  let f := layer_found w (ld_name d) base in
  ovl_lookup_layer ic fuel w base d = Ret (0, after d f, taken d f).
Proof.
  intros Hp (x & Hl & Hw & _ & Htrap) Hs Hm f. unfold f, layer_found. rewrite Hl.
  unfold ovl_lookup_layer. rewrite Hs. cbn [negb]. unfold ovl_lookup_single, classify. rewrite Hl.
  case_bool_decide as Hpos; cbn [negb]; [|done]. rewrite Hw.
  destruct (ovl_is_whiteout x); [done|]. rewrite Hm. cbn [is_empty andb].
  destruct Hpos as [i Hi]. destruct (d_can_lookup x); cbn [negb].
  - rewrite (Htrap i Hi). cbn [mbind outcome_bind after taken found_dentry]. cbn [ld_last set_ld_is_dir].
    destruct (ld_last d); [done|]. destruct (ovl_is_opaquedir w x); [done|].
    cbn [mbind outcome_bind]. by rewrite plain_check_redirect.
  - rewrite orb_false_r. cbn [after taken]. destruct (ld_is_dir d); [done|].
    rewrite plain_check_metacopy by (done || by rewrite Hi). done.
Qed.

(** ** The lower layers *)

(** A lookup that found nothing but directories so far, if anything. *)
Record searching v (name : string) : Prop := {
  s_name : ld_name (v_d v) = name;
  s_redirect : ld_redirect (v_d v) = None;
  s_meta : ld_metacopy (v_d v) = false ∧ v_metacopy v = false;
  s_origin : v_origin v = None;
}.

Definition simple st : Prop :=
  plain (lk_w st) ∧ fs_noxattr (lk_ofs st) = true ∧ c_index (fs_config (lk_ofs st)) = false ∧
  fs_indexdir (lk_ofs st) = false.

(** One round, on a layer of the stack. *)
Lemma plain_step st v name u i lower :
  simple st → searching v name → starts_slash name = false →
  plain_base (lk_w st) name (op_dentry lower) →
  zlen (v_stack v) < zlen (fs_lower_layers (lk_ofs st)) →
  let lastb := if negb (c_redirect_follow (fs_config (lk_ofs st)))
               then i =? zlen (v_poe v) - 1 else l_idx (op_layer lower) =? zlen roe in
  let f := layer_found (lk_w st) name (op_dentry lower) in
  let d := set_ld_last lastb (v_d v) in
  let v' := LkVars (after d f)
              (v_stack v ++ match taken d f with Some x => [OvlPath (op_layer lower) x] | None => [] end)
              None false (v_poe v) (v_atroot v) in
  searching v' name ∧
  ∃ next, lookup_lower_step ww ex ic roe dp st v u None i lower = Ret (inr (v', next), st) ∧
    (next = Some (i + 1) ∨ (next = None ∧ ld_stop (after d f) = true)).
Proof.
  intros (Hp & Hnx & Hix & _) [Hname Hred [Hm1 Hm2] Ho] Hs Hb Hcap lastb f d v'.
  assert (ld_name (after d f) = name ∧ ld_redirect (after d f) = None ∧ ld_metacopy (after d f) = false)
    as (Hn' & Hr' & Hm').
  { subst d f. unfold after. repeat case_match; cbn; done. }
  split; [by split|]. unfold lookup_lower_step. fold lastb. fold d.
  rewrite (plain_layer _ (lk_w st) (op_dentry lower) d) by (cbn; rewrite ?Hname; done).
  cbn [mbind outcome_bind Z.eqb negb]. replace (ld_name d) with name by done. fold f.
  destruct (taken d f) as [x|] eqn:Et.
  2: { exists (Some (i + 1)). split; [|by left]. unfold v'. by rewrite Ho, Hm2, app_nil_r. }
  assert (ovl_verify_lower (lk_ofs st) = false) as Hv by (unfold ovl_verify_lower; by rewrite Hix, andb_false_r).
  rewrite Hnx. cbn [negb]. rewrite andb_false_r. cbn [andb].
  assert (match u with Some _ => Ret (0, st) | None => Ret (0, st) end = Ret (0, st)) as -> by by destruct u.
  cbn [mbind outcome_bind Z.eqb negb]. rewrite Hv, Hix. rewrite !andb_false_r. cbn [andb orb].
  rewrite ?andb_false_r.
  assert (match u with Some _ => Ret (0, false) | None => Ret (0, false) end = Ret (0, false)) as ->
    by by destruct u.
  cbn [mbind outcome_bind Z.eqb negb]. rewrite Hm', Hm2, Ho. cbn [andb].
  destruct (Z.leb_spec (zlen (fs_lower_layers (lk_ofs st))) (zlen (v_stack v))); [lia|].
  rewrite Hr'. rewrite bool_decide_false by by intros []. cbn [andb].
  destruct (ld_stop (after d f)) eqn:Hst; eexists; (split; [reflexivity|]); [by right|by left].
Qed.

Lemma loop_stops k st v u op i :
  ld_stop (v_d v) = true ∨ zlen (v_poe v) ≤ i →
  lookup_lower ww ex ic roe dp k st v u op i = Ret (inr v, st).
Proof.
  intros Hs. assert (ld_stop (v_d v) || (zlen (v_poe v) <=? i) = true) as Hc.
  { apply orb_true_iff. destruct Hs as [->|Hs]; [by left|right]. by apply Z.leb_le. }
  destruct k; cbn [lookup_lower]; by rewrite Hc.
Qed.

Definition seen w (name : string) (ls : list ovl_path) : list (ovl_layer * found) :=
  map (λ p, (op_layer p, layer_found w name (op_dentry p))) ls.

Lemma zdrop_cons {A} (l : list A) i x : zget l i = Some x → zdrop i l = x :: zdrop (i + 1) l.
Proof.
  intros Hx. pose proof (zget_Some_bound _ _ _ Hx). unfold zget, zdrop in *.
  rewrite decide_True in Hx by lia. replace (Z.to_nat (i + 1)) with (S (Z.to_nat i)) by lia.
  by apply drop_S.
Qed.

Lemma plain_loop name st u k : ∀ v i,
  simple st → searching v name → starts_slash name = false → ld_stop (v_d v) = false → 0 ≤ i →
  (∀ p, p ∈ v_poe v → plain_base (lk_w st) name (op_dentry p)) →
  (∀ j p, zget (v_poe v) j = Some p → l_idx (op_layer p) = zlen roe → j = zlen (v_poe v) - 1) →
  zlen (v_stack v) + Z.max 0 (zlen (v_poe v) - i) ≤ zlen (fs_lower_layers (lk_ofs st)) →
  zlen (v_poe v) - i ≤ Z.of_nat k →
  ∃ v', lookup_lower ww ex ic roe dp k st v u None i = Ret (inr v', st) ∧ searching v' name ∧
    v_stack v' = v_stack v ++ merge (ld_is_dir (v_d v)) (seen (lk_w st) name (zdrop i (v_poe v))).
Proof.
  induction k as [|k IH]; intros v i Hsim Hv Hs Hstop Hi Hb Hlast Hcap Hk.
  { exists v. rewrite loop_stops by (right; lia). split; [done|]. split; [done|].
    unfold zdrop. rewrite drop_ge by (unfold zlen in Hk; lia). by rewrite app_nil_r. }
  destruct (decide (zlen (v_poe v) ≤ i)).
  { exists v. rewrite loop_stops by (by right). split; [done|]. split; [done|].
    unfold zdrop. rewrite drop_ge by (unfold zlen in *; lia). by rewrite app_nil_r. }
  destruct (zget_is_Some (v_poe v) i) as [lower Hl]; [lia|].
  assert (plain_base (lk_w st) name (op_dentry lower)) as Hlb.
  { apply Hb. unfold zget in Hl. rewrite decide_True in Hl by lia. by eapply list_elem_of_lookup_2. }
  rewrite (zdrop_cons _ _ _ Hl). cbn [seen map merge].
  destruct (plain_step st v name u i lower Hsim Hv Hs Hlb ltac:(lia)) as (Hv' & next & Hstep & Hnext).
  cbn [lookup_lower]. rewrite Hstop. destruct (Z.leb_spec (zlen (v_poe v)) i); [lia|]. cbn [orb].
  rewrite Hl, Hstep. cbn [mbind outcome_bind]. clear Hstep.
  set (lastb := if negb _ then _ else _) in *.
  assert (lastb = true → i = zlen (v_poe v) - 1) as Hlb'.
  { subst lastb. case_match; [by intros ?%Z.eqb_eq|intros Hx%Z.eqb_eq; eauto]. }
  clearbody lastb. set (f := layer_found (lk_w st) name (op_dentry lower)) in *.
  set (d := set_ld_last lastb (v_d v)) in *. set (v' := LkVars (after d f) _ _ _ _ _) in *.
  assert (∀ ks, (ld_stop (after d f) = true ∨ next = None ∨ lastb = true → ∃ v'',
    match next with Some i => lookup_lower ww ex ic roe dp k st v' u None i | None => Ret (inr v', st) end
      = Ret (inr v'', st) ∧ searching v'' name ∧ v_stack v'' = v_stack v' ++ ks) ∨ ks ≠ []) as Hend.
  { intros [|? ks]; [left|by right]. intros Hx. exists v'. rewrite app_nil_r. split; [|done].
    destruct Hnext as [->|[-> _]]; [|done]. apply loop_stops.
    destruct Hx as [?|[?|?]]; [by left|done|right; cbn; rewrite Hlb' by done; lia]. }
  assert (lastb = true → zdrop (i + 1) (v_poe v) = []) as Hnil.
  { intros Hx%Hlb'. unfold zdrop. apply drop_ge. unfold zlen in *. lia. }
  assert (ld_stop (after d f) = false → next = Some (i + 1)) as Hgo
    by (intros Hx; destruct Hnext as [?|[_ ?]]; [done|congruence]).
  assert (ld_stop (after d f) = false →
    ∃ v'', match next with Some i => lookup_lower ww ex ic roe dp k st v' u None i | None => Ret (inr v', st) end
      = Ret (inr v'', st) ∧ searching v'' name ∧
      v_stack v'' = v_stack v' ++ merge (ld_is_dir (after d f)) (seen (lk_w st) name (zdrop (i + 1) (v_poe v)))) as Hrec.
  { intros Hx. rewrite (Hgo Hx). pose proof (IH v' (i + 1)) as IH'. change (v_poe v') with (v_poe v) in IH'.
    apply IH'; try done; try lia. cbn. rewrite zlen_app. assert (zlen match taken d f with Some x => [OvlPath (op_layer lower) x] | None => [] end ≤ 1)
      by (destruct (taken d f); unfold zlen; cbn; lia). lia. }
  destruct f as [| |x|x o] eqn:Ef; cbn [after taken found_dentry] in *.
  - destruct (Hrec Hstop) as (v'' & ? & ? & E). exists v''. split; [done|]. split; [done|].
    rewrite E. cbn. by rewrite app_nil_r.
  - destruct (Hend []) as [He|]; [|done]. destruct He as (v'' & ? & ? & E); [by left|].
    exists v''. split; [done|]. split; [done|]. rewrite E. cbn. by rewrite !app_nil_r.
  - change (ld_is_dir d) with (ld_is_dir (v_d v)) in *.
    destruct (Hend []) as [He|]; [|done]. destruct He as (v'' & ? & ? & E); [left; by destruct (ld_is_dir (v_d v))|].
    exists v''. split; [done|]. split; [done|]. rewrite E. cbn. rewrite app_nil_r.
    by destruct (ld_is_dir (v_d v)).
  - change (ld_last (set_ld_is_dir true d)) with lastb in *. destruct lastb.
    + destruct (Hend []) as [He|]; [|done]. destruct He as (v'' & ? & ? & E); [by right; right|].
      exists v''. split; [done|]. split; [done|]. rewrite E, Hnil by done. cbn. rewrite app_nil_r.
      by destruct o.
    + destruct o.
      * destruct (Hend []) as [He|]; [|done]. destruct He as (v'' & ? & ? & E); [by left|].
        exists v''. split; [done|]. split; [done|]. rewrite E. cbn. by rewrite app_nil_r.
      * destruct (Hrec Hstop) as (v'' & ? & ? & E). exists v''. split; [done|]. split; [done|].
        rewrite E. cbn. by rewrite <- app_assoc.
Qed.
(** ** The upper layer and the result *)

Lemma plain_no_fh w x : plain w → ovl_get_fh w x OVL_XATTR_ORIGIN = Ret PNull.
Proof.
  intros [_ _ Ho]. unfold ovl_get_fh. specialize (Ho x).
  destruct (vfs_getxattr w x OVL_XATTR_ORIGIN 0) as [r b]. cbn in Ho. by subst r.
Qed.

Lemma plain_upper st ud d :
  plain (lk_w st) → starts_slash (ld_name d) = false → ld_metacopy d = false → ld_is_dir d = false →
  ld_redirect d = None → ld_opaque d = false →
  (∀ b, ud = Some b → plain_base (lk_w st) (ld_name d) b) →
  let f := match ud with Some b => layer_found (lk_w st) (ld_name d) b | None => Absent end in
  ∃ uo, lookup_upper ic st ud d = Ret (inr (after d f, found_dentry f, None, false, None, uo)) ∧
    (f = Whiteout → uo = true).
Proof.
  intros Hp Hs Hm Hd Hr Ho Hb f. unfold lookup_upper. destruct ud as [b|]; [|by exists false].
  specialize (Hb b eq_refl). pose proof (plain_layer (S (String.length (ld_name d))) _ _ _ Hp Hb Hs Hm) as E.
  cbv zeta in E. fold f in E. rewrite E. cbn [mbind outcome_bind Z.eqb negb].
  assert (taken d f = found_dentry f) as -> by (destruct f; cbn; by rewrite ?Hd).
  assert (match found_dentry f with Some u => ovl_dentry_remote u | None => false end = false) as ->.
  { destruct Hb as (x & Hx & _ & Hrem & _). subst f. unfold layer_found, classify. rewrite Hx.
    repeat case_match; simplify_eq/=; done. }
  assert (match found_dentry f with
    | Some u => if negb (ld_is_dir (after d f)) then
          '(err, op, _) ← ovl_check_origin (lk_w st) (lk_ofs st) u None 0; Ret (err, op, ld_metacopy (after d f))
        else Ret (0, None, false)
    | None => Ret (0, None, false) end = Ret (0, None, false)) as ->.
  { destruct (found_dentry f) as [u|] eqn:Ef; [|done]. destruct (ld_is_dir (after d f)); [done|]. cbn [negb].
    unfold ovl_check_origin. rewrite plain_no_fh by done. cbn. do 2 f_equal.
    destruct f; cbn in Ef |- *; rewrite ?Hd; cbn; try done. by destruct (ld_last d), opaque. }
  cbn [mbind outcome_bind Z.eqb negb].
  assert (ld_redirect (after d f) = None) as ->.
  { destruct f; cbn; rewrite ?Hd; cbn; try done. by destruct (ld_last d), opaque. }
  eexists. split; [reflexivity|]. by intros ->.
Qed.

Lemma get_inode_fresh w ofs oip r :
  plain w → positive (oip_upperdentry oip) →
  (∀ k, ∃ o, ig k = Some (o, true)) → is_Some ni →
  ovl_get_inode sx nx ig ni w ofs oip = Ret r → ∃ o, r = inr o.
Proof.
  intros Hp Hu Hig [o Hni] E. apply get_inode_inv in E as (bl & ri & fsid & E).
  assert (∀ a b c, get_inode_fill nx w ofs oip ri bl a b c = Ret r → ∃ o, r = inr o) as Hfill.
  { intros a b c Hx. unfold get_inode_fill in Hx. apply outcome_bind_Ret in Hx as (o1 & _ & Hx).
    assert (match oip_upperdentry oip with Some u => ovl_check_metacopy_xattr w u | None => Ret 0 end = Ret 0) as Hm.
    { destruct (oip_upperdentry oip) as [u|]; [|done]. apply plain_check_metacopy; [done|by apply Hu]. }
    rewrite Hm in Hx. cbn [mbind outcome_bind] in Hx. injection Hx as <-. by eexists. }
  destruct (_ || _).
  - destruct E as [key E]. destruct (Hig (i_ptr key)) as [o' Ho']. rewrite Ho' in E.
    apply outcome_bind_Ret in E as (n & _ & E). eauto.
  - rewrite Hni in E. eauto.
Qed.

Lemma merge_len isdir ls : zlen (merge isdir ls) ≤ zlen ls.
Proof.
  revert isdir. unfold zlen. induction ls as [|[l f] ls IH]; intros isdir; [done|]. cbn.
  pose proof (IH isdir). pose proof (IH true). repeat case_match; cbn; lia.
Qed.
Lemma merge_below_len f ls : zlen (merge_below f ls) ≤ zlen ls.
Proof.
  pose proof (merge_len true ls). pose proof (merge_len false ls). pose proof (zlen_nonneg ls).
  unfold merge_below. repeat case_match; try done.
Qed.

Lemma layer_found_pos w name b x :
  found_dentry (layer_found w name b) = Some x → is_Some (d_inode x).
Proof.
  unfold layer_found, classify. destruct (lookup_one_len_unlocked w name b) as [|e|y]; try done.
  case_bool_decide; cbn [negb]; [|done]. repeat case_match; cbn; try done; by intros [= <-].
Qed.

Lemma merge_pos w name poe : ∀ isdir,
  Forall (λ p, is_Some (d_inode (op_dentry p))) (merge isdir (seen w name poe)).
Proof.
  induction poe as [|p poe IH]; intros isdir; [constructor|]. cbn.
  destruct (layer_found w name (op_dentry p)) as [| |x|x o] eqn:E; [done|constructor|..].
  all: assert (is_Some (d_inode x)) by (eapply layer_found_pos; by rewrite E).
  - destruct isdir; by repeat constructor.
  - constructor; [done|]. destruct o; [constructor|done].
Qed.

Lemma merge_below_pos w name poe f p :
  head (merge_below f (seen w name poe)) = Some p → is_Some (d_inode (op_dentry p)).
Proof.
  assert (∀ l : list ovl_path, Forall (λ p, is_Some (d_inode (op_dentry p))) l → head l = Some p →
    is_Some (d_inode (op_dentry p))) as Hh.
  { intros [|q l] Hl Hq; [done|]. cbn in Hq. injection Hq as <-. by apply Forall_cons in Hl as [? _]. }
  apply Hh. unfold merge_below. repeat case_match; try constructor; apply merge_pos.
Qed.

(** The data ovl_lookup starts with. *)
Definition start_data (ofs : ovl_fs) (name : string) (poe : list ovl_path) : ovl_lookup_data :=
  LookupData name false false false (if c_redirect_follow (fs_config ofs) then false else zlen poe =? 0) None false.

(** Only the last element of a stack is in the lowest layer. *)
Lemma lowest_is_last n poe j p :
  stack_ok n poe → zget poe j = Some p → l_idx (op_layer p) = n → j = zlen poe - 1.
Proof.
  intros Hpoe Hj Hx. pose proof (zget_Some_bound _ _ _ Hj). destruct (decide (j = zlen poe - 1)) as [|Hne]; [done|].
  destruct (zget_is_Some poe (zlen poe - 1)) as [q Hq]; [lia|].
  pose proof (descends_gets 0 poe j (zlen poe - 1) p q (proj1 Hpoe) Hj Hq ltac:(lia)).
  destruct Hpoe as [_ Hf]. rewrite Forall_forall in Hf.
  assert (l_idx (op_layer q) ≤ n); [|lia]. apply Hf. unfold zget in Hq.
  rewrite decide_True in Hq by lia. by eapply list_elem_of_lookup_2.
Qed.

(** The loop over the lower layers collects the rest of the merge. *)
Lemma plain_lowers st name poe atroot upper u n :
  simple st → n = zlen (fs_lower_layers (lk_ofs st)) → root_ok n roe → stack_ok n poe →
  starts_slash name = false → (∀ p, p ∈ poe → plain_base (lk_w st) name (op_dentry p)) →
  ∃ v', lookup_lower ww ex ic roe dp (S (length poe + length roe)) st
    (LkVars (after (start_data (lk_ofs st) name poe) upper) [] None false poe atroot) u None 0 = Ret (inr v', st) ∧
    searching v' name ∧ v_stack v' = merge_below upper (seen (lk_w st) name poe).
Proof.
  intros Hsim Hn Hroot Hpoe Hs Hb. set (v := LkVars _ _ _ _ _ _).
  pose proof (stack_ok_len n poe ltac:(subst n; apply zlen_nonneg) Hpoe) as Hpl.
  assert (searching v name) as Hv by (split; cbn; unfold after, start_data; repeat case_match; done).
  destruct (ld_stop (v_d v)) eqn:Hst.
  - exists v. rewrite loop_stops by by left. split; [done|]. split; [done|]. cbn in Hst |- *.
    destruct upper as [| |x|x o]; cbn in Hst |- *; try done.
    destruct o; [done|]. exfalso. revert Hst. by repeat case_match.
  - destruct (plain_loop name st u (S (length poe + length roe)) v 0) as (v' & Hl & Hs' & Hst'); try done.
    + intros j p Hj Hx. eapply lowest_is_last; [done..|]. rewrite Hx. apply Hroot.
    + cbn. change (zlen (@nil ovl_path)) with 0. pose proof (zlen_nonneg poe). lia.
    + cbn. unfold zlen. lia.
    + exists v'. split; [done|]. split; [done|]. rewrite Hst'. cbn in Hst |- *. change (zdrop 0 poe) with poe.
      destruct upper as [| |x|x o]; cbn in Hst |- *; try done.
      destruct (c_redirect_follow _), o; try done; [|by destruct (zlen poe =? 0)].
      destruct (Z.eqb_spec (zlen poe) 0) as [Hz|]; [|done].
      destruct poe; [done|]. unfold zlen in Hz. cbn in Hz. lia.
Qed.

(** A lookup that found something gets its inode. *)
Lemma plain_get_inode w ofs oip :
  plain w → positive (oip_upperdentry oip) →
  (∀ p, oip_lowerpath oip = Some p → is_Some (d_inode (op_dentry p))) →
  is_Some (oip_upperdentry oip) ∨ is_Some (oip_lowerpath oip) →
  (∀ k, ∃ o, ig k = Some (o, true)) → is_Some ni →
  ∃ o, ovl_get_inode sx nx ig ni w ofs oip = Ret (inr o).
Proof.
  intros Hp Hu Hl Hsome Hig Hni. destruct (get_inode_ret ig ni sx nx w ofs oip) as [r Hr]; [done..|].
  rewrite Hr. apply get_inode_fresh in Hr as [o ->]; [by eexists|done..].
Qed.

End merge.

(** ** A concrete input: three lower layers, the second without the name, the
    third with an opaque directory. *)

