(* ===== verification/Kernel.v ===== *)
(** The kernel under the operations that change something: a state monad over
    the underlying filesystems [W], the overlay's own dentries and inodes, and
    what the running thread holds (credentials, locks, write access).

    Calls into the kernel are the members of the class [Kern] and may do
    anything to [W]; [KernLaws] states what the code relies on.  The monad
    faults on a [NULL] or negative dentry that is dereferenced, on a lock that
    is released without being held, and on a namespace change of a directory
    whose lock is not held (Documentation/filesystems/Locking). *)

From S2P Require Import Prelude Types Util Under.
From stdpp Require Import gmap.
Local Open Scope Z_scope.

(** ** What a thread holds *)

Inductive lock : Type :=
| LInode (i : Z)        (* inode_lock: i_rwsem of an inode *)
| LOvl (i : Z)          (* ovl_inode_lock: OVL_I(inode)->lock *)
| LWrite (i : Z)        (* get_write_access: i_writecount of an inode *)
| LRename.              (* s_vfs_rename_mutex *)
#[export] Instance lock_eq_dec : EqDecision lock.
Proof. solve_decision. Defined.

Record held : Type := Held {
  h_cred : Z;             (* current_cred() *)
  h_locks : list lock;
  h_write : Z;            (* mnt_want_write minus mnt_drop_write *)
}.

Fixpoint unlock1 (l : lock) (ls : list lock) : option (list lock) :=
  match ls with
  | [] => None
  | x :: ls => if decide (x = l) then Some ls else cons x <$> unlock1 l ls
  end.

(** ** The state *)

(** A dentry of the overlay; [dn_inode] is [NULL] for a negative one. *)
Record odent : Type := ODent {
  dn_name : string;
  dn_flags : Z;
  dn_parent : Z;
  dn_inode : Z;
  dn_entry : ovl_entry;
  dn_hashed : bool;
}.
Definition set_dn_entry (e : ovl_entry) (d : odent) : odent :=
  ODent (dn_name d) (dn_flags d) (dn_parent d) (dn_inode d) e (dn_hashed d).
Definition set_dn_inode (i : Z) (d : odent) : odent :=
  ODent (dn_name d) (dn_flags d) (dn_parent d) i (dn_entry d) (dn_hashed d).
Definition set_dn_hashed (h : bool) (d : odent) : odent :=
  ODent (dn_name d) (dn_flags d) (dn_parent d) (dn_inode d) (dn_entry d) h.

Record kst (W : Type) : Type := KSt {
  k_w : W;
  k_ofs : ovl_fs;
  k_dents : gmap Z odent;
  k_inodes : gmap Z ovl_inode;
  k_temp_id : Z;          (* ovl_lookup_temp's counter *)
  k_held : held;
}.
Arguments KSt {W}. Arguments k_w {W}. Arguments k_ofs {W}. Arguments k_dents {W}.
Arguments k_inodes {W}. Arguments k_temp_id {W}. Arguments k_held {W}.

Definition set_k_w {W} (w : W) (st : kst W) : kst W :=
  KSt w (k_ofs st) (k_dents st) (k_inodes st) (k_temp_id st) (k_held st).
Definition set_k_ofs {W} (o : ovl_fs) (st : kst W) : kst W :=
  KSt (k_w st) o (k_dents st) (k_inodes st) (k_temp_id st) (k_held st).
Definition set_k_dents {W} (d : gmap Z odent) (st : kst W) : kst W :=
  KSt (k_w st) (k_ofs st) d (k_inodes st) (k_temp_id st) (k_held st).
Definition set_k_inodes {W} (i : gmap Z ovl_inode) (st : kst W) : kst W :=
  KSt (k_w st) (k_ofs st) (k_dents st) i (k_temp_id st) (k_held st).
Definition set_k_temp_id {W} (n : Z) (st : kst W) : kst W :=
  KSt (k_w st) (k_ofs st) (k_dents st) (k_inodes st) n (k_held st).
Definition set_k_held {W} (h : held) (st : kst W) : kst W :=
  KSt (k_w st) (k_ofs st) (k_dents st) (k_inodes st) (k_temp_id st) h.

(** ** The monad *)

Definition kernel (W A : Type) : Type := kst W → outcome (A * kst W).

#[export] Instance kernel_ret {W} : MRet (kernel W) := λ A a st, Ret (a, st).
#[export] Instance kernel_bind {W} : MBind (kernel W) := λ A B f m st,
  match m st with Ret (a, st) => f a st | Fault => Fault | NoFuel => NoFuel end.

Definition get {W} : kernel W (kst W) := λ st, Ret (st, st).
Definition put {W} (st : kst W) : kernel W unit := λ _, Ret (tt, st).
Definition fault {W A} : kernel W A := λ _, Fault.
Definition nofuel {W A} : kernel W A := λ _, NoFuel.
Definition modify {W} (f : kst W → kst W) : kernel W unit := λ st, Ret (tt, f st).

(** A computation on the underlying filesystems, one that may also find out
    that the upper layer has no xattrs, and a value of the current state. *)
Definition on_w {W A} (f : W → A * W) : kernel W A := λ st,
  let '(a, w) := f (k_w st) in Ret (a, set_k_w w st).
Definition on_wo {W A} (f : W → outcome (A * W)) : kernel W A := λ st,
  match f (k_w st) with
  | Ret (a, w) => Ret (a, set_k_w w st) | Fault => Fault | NoFuel => NoFuel end.
Definition on_ofs {W A} (f : W → ovl_fs → outcome (A * ovl_fs * W)) : kernel W A := λ st,
  match f (k_w st) (k_ofs st) with
  | Ret (a, o, w) => Ret (a, set_k_ofs o (set_k_w w st)) | Fault => Fault | NoFuel => NoFuel end.
Definition ask {W A} (f : kst W → A) : kernel W A := λ st, Ret (f st, st).
Definition asko {W A} (f : kst W → outcome A) : kernel W A := λ st,
  match f st with Ret a => Ret (a, st) | Fault => Fault | NoFuel => NoFuel end.

(** A pointer that is dereferenced. *)
Definition deref {W A} (p : option A) : kernel W A :=
  match p with Some a => mret a | None => fault end.

(** [m ;? k]: [k] unless [m] returns an error number. *)
Definition ok_then {W} (m k : kernel W Z) : kernel W Z :=
  err ← m; if negb (err =? 0) then mret err else k.
Notation "m ;? k" := (ok_then m k) (at level 100, k at level 200, right associativity).

(** ** Locks, credentials, write access *)

Definition with_locks (ls : list lock) (h : held) : held := Held (h_cred h) ls (h_write h).
Definition lock_ {W} (l : lock) : kernel W unit :=
  modify (λ st, set_k_held (with_locks (l :: h_locks (k_held st)) (k_held st)) st).
Definition unlock_ {W} (l : lock) : kernel W unit := λ st,
  match unlock1 l (h_locks (k_held st)) with
  | Some ls => Ret (tt, set_k_held (with_locks ls (k_held st)) st)
  | None => Fault
  end.
Definition need_lock {W} (l : lock) : kernel W unit := λ st,
  if bool_decide (l ∈ h_locks (k_held st)) then Ret (tt, st) else Fault.

Definition inode_lock {W} (i : inode) : kernel W unit := lock_ (LInode (i_ptr i)).
Definition inode_unlock {W} (i : inode) : kernel W unit := unlock_ (LInode (i_ptr i)).

Definition override_creds {W} (new : Z) : kernel W Z := λ st,
  let h := k_held st in
  Ret (h_cred h, set_k_held (Held new (h_locks h) (h_write h)) st).
Definition revert_creds {W} (old : Z) : kernel W unit :=
  modify (λ st, let h := k_held st in set_k_held (Held old (h_locks h) (h_write h)) st).

(** ** The overlay's dentries and inodes *)

Definition dent {W} (d : Z) : kernel W odent := λ st,
  match k_dents st !! d with Some e => Ret (e, st) | None => Fault end.
Definition inode_of {W} (i : Z) : kernel W ovl_inode := λ st,
  match k_inodes st !! i with Some o => Ret (o, st) | None => Fault end.

(** A positive overlay dentry with its inode and its [d_fsdata]. *)
Definition view (dents : gmap Z odent) (inodes : gmap Z ovl_inode) (d : Z) : option odentry :=
  e ← dents !! d; o ← inodes !! dn_inode e;
  Some (ODentry d (dn_name e) (dn_flags e) o (dn_entry e)).
Definition oview {W} (d : Z) : kernel W odentry := λ st,
  match view (k_dents st) (k_inodes st) d with Some v => Ret (v, st) | None => Fault end.

Definition modify_inode {W} (i : Z) (f : ovl_inode → ovl_inode) : kernel W unit := λ st,
  match k_inodes st !! i with
  | Some o => Ret (tt, set_k_inodes (<[i := f o]> (k_inodes st)) st)
  | None => Fault
  end.
Definition modify_inodeo {W} (i : Z) (f : ovl_inode → outcome ovl_inode) : kernel W unit := λ st,
  match k_inodes st !! i with
  | Some o => match f o with
              | Ret o => Ret (tt, set_k_inodes (<[i := o]> (k_inodes st)) st)
              | _ => Fault end
  | None => Fault
  end.
Definition modify_entry {W} (d : Z) (f : ovl_entry → ovl_entry) : kernel W unit := λ st,
  match k_dents st !! d with
  | Some e => Ret (tt, set_k_dents (<[d := set_dn_entry (f (dn_entry e)) e]> (k_dents st)) st)
  | None => Fault
  end.
(** the inode of a positive dentry *)
Definition modify_dinode {W} (d : Z) (f : ovl_inode → ovl_inode) : kernel W unit :=
  e ← dent d; modify_inode (dn_inode e) f.

(** ** Calls into the kernel *)

Record iattr : Type := IAttr { ia_valid : Z; ia_attrs : iattrs }.
Definition ATTR_MODE : Z := 1.
Definition ATTR_UID : Z := 2.
Definition ATTR_GID : Z := 4.
Definition ATTR_SIZE : Z := 8.
Definition ATTR_ATIME : Z := 16.
Definition ATTR_MTIME : Z := 32.
Definition ATTR_ATIME_SET : Z := 128.
Definition ATTR_MTIME_SET : Z := 256.

Definition RENAME_NOREPLACE : Z := 1.
Definition RENAME_EXCHANGE : Z := 2.
Definition RENAME_WHITEOUT : Z := 4.

(** The calls that create an object return the dentry as it is afterwards. *)
Class Kern (W : Type) : Type := {
  mnt_want_write : W → Z * W;
  mutex_lock_interruptible : W → Z → Z * W;
  (** lock_rename returns the dentry that is an ancestor of the other *)
  rename_trap : W → dentry → dentry → option dentry;
  lookup_one_len : W → string → dentry → eptr dentry * W;
  real_parent : W → dentry → dentry;               (* d_parent *)
  vfs_create : W → inode → dentry → Z → Z * dentry * W;
  vfs_mkdir : W → inode → dentry → Z → Z * dentry * W;
  vfs_mknod : W → inode → dentry → Z → Z → Z * dentry * W;
  vfs_symlink : W → inode → dentry → string → Z * dentry * W;
  vfs_whiteout : W → inode → dentry → Z * dentry * W;
  vfs_link : W → dentry → inode → dentry → Z * dentry * W;
  vfs_tmpfile : W → dentry → Z → eptr dentry * W;
  vfs_rmdir : W → inode → dentry → Z * W;
  vfs_unlink : W → inode → dentry → Z * W;
  vfs_rename : W → inode → dentry → inode → dentry → Z → Z * W;
  notify_change : W → dentry → iattr → Z * W;
  vfs_removexattr : W → dentry → string → Z * W;
  (** vfs_listxattr(dentry, buf, size): the result and what is in the buffer *)
  vfs_listxattr : W → dentry → Z → Z * string;
  i_op_xattr : inode → bool;                       (* i_opflags & IOP_XATTR *)
  vfs_getattr : W → path → Z → Z * kstat;
  vfs_get_link : W → dentry → eptr string;
  (** the fields of an inode as they are now *)
  inode_now : W → inode → inode;
  inode_unhashed : W → Z → bool;
  security_inode_copy_up_xattr : W → string → Z;
  (** error and the new credentials, [NULL] if none *)
  security_inode_copy_up : W → Z → Z * Z * W;
  (** what an uninitialised variable of an int type holds *)
  uninitialized : W → Z;
}.

Definition dentry_now {W} `{Kern W} (w : W) (d : dentry) : dentry :=
  Dentry (d_ptr d) (d_name d) (d_flags d) (inode_now w <$> d_inode d).

(** A pointer or an error number, never [NULL]. *)
Definition valid_ptr {A} (p : eptr A) : Prop := p ≠ PNull ∧ ∀ e, p = PErr e → e ≠ 0.

Class KernLaws (W : Type) `{Kern W} : Prop := {
  law_mutex w i : (mutex_lock_interruptible w i).1 ≤ 0;
  law_lookup_one_len w n d : valid_ptr (lookup_one_len w n d).1;
  law_tmpfile w d m : valid_ptr (vfs_tmpfile w d m).1;
  law_tmpfile_positive w d m x : (vfs_tmpfile w d m).1 = PPtr x → is_Some (d_inode x);
  law_listxattr w d n r s :
    vfs_listxattr w d n = (r, s) → 0 < n → 0 < r → Z.of_nat (String.length s) = r ∧ r ≤ n;
  law_inode_now w i : i_ptr (inode_now w i) = i_ptr i;
  law_link w d : valid_ptr (vfs_get_link w d);
}.

(** ** Weakest preconditions: the computation returns, and [Q] holds then *)

Definition wp {W A} (m : kernel W A) (st : kst W) (Q : A → kst W → Prop) : Prop :=
  match m st with Ret (a, st') => Q a st' | _ => False end.

Section wp.
Context {W : Type}.
Implicit Types (st : kst W).

Lemma wp_ret {A} (a : A) st Q : Q a st → wp (mret a) st Q.
Proof. done. Qed.

Lemma wp_bind {A B} (m : kernel W A) (f : A → kernel W B) st Q :
  wp m st (λ a st', wp (f a) st' Q) → wp (m ≫= f) st Q.
Proof. unfold wp, mbind, kernel_bind. by destruct (m st) as [[a st']| |]. Qed.

Lemma wp_mono {A} (m : kernel W A) st (Q Q' : A → kst W → Prop) :
  wp m st Q → (∀ a st', Q a st' → Q' a st') → wp m st Q'.
Proof. unfold wp. destruct (m st) as [[a st']| |]; [|done..]. intros HQ HQ'. by apply HQ'. Qed.

Lemma wp_seq {A B} (m : kernel W A) (f : A → kernel W B) st (R : A → kst W → Prop) Q :
  wp m st R → (∀ a st', R a st' → wp (f a) st' Q) → wp (m ≫= f) st Q.
Proof. intros Hm Hf. apply wp_bind. by eapply wp_mono. Qed.

Lemma wp_run {A} (m : kernel W A) st Q :
  wp m st Q → ∃ a st', m st = Ret (a, st') ∧ Q a st'.
Proof. unfold wp. destruct (m st) as [[a st']| |]; [|done..]. intros HQ. by exists a, st'. Qed.

Lemma wp_on_w {A} (f : W → A * W) st Q :
  (∀ a w, f (k_w st) = (a, w) → Q a (set_k_w w st)) → wp (on_w f) st Q.
Proof. unfold wp, on_w. destruct (f (k_w st)) as [a w] eqn:E. intros HQ. by apply HQ. Qed.

Lemma wp_deref {A} (p : option A) a st Q : p = Some a → Q a st → wp (deref p) st Q.
Proof. by intros ->. Qed.

Lemma unlock1_held l ls : l ∈ ls → ∃ ls', unlock1 l ls = Some ls'.
Proof.
  induction ls as [|x ls IH]; [by intros ?%elem_of_nil|]. intros Hl. cbn.
  destruct (decide (x = l)); [by eexists|].
  apply elem_of_cons in Hl as [->|Hl]; [done|]. destruct (IH Hl) as [ls' ->]. by eexists.
Qed.

End wp.

(** ** An executable instance: the [layers] of [Under], where a directory's
    dentry and inode have the same pointer and nothing fails *)

Definition ly_add (k : Z * string) (x : dentry) (w : layers) : layers :=
  Layers (ly_xattr w) (<[k := x]> (ly_names w)) (ly_nodes w) (ly_uuid w).
Definition ly_del (k : Z * string) (w : layers) : layers :=
  Layers (ly_xattr w) (delete k (ly_names w)) (ly_nodes w) (ly_uuid w).
Definition ly_new (w : layers) (name : string) (mode rdev : Z) : dentry * layers :=
  let p := 1000 + zlen (ly_nodes w) in
  let x := Dentry p name 0 (Some (Inode p 1 p 1 rdev 0 (IAttrs 0 0 mode 0 0 0 0))) in
  (x, Layers (ly_xattr w) (ly_names w) (x :: ly_nodes w) (ly_uuid w)).
Definition ly_create (w : layers) (dir : inode) (d : dentry) (mode rdev : Z) : Z * dentry * layers :=
  let '(x, w) := ly_new w (d_name d) mode rdev in (0, x, ly_add (i_ptr dir, d_name d) x w).

#[export] Instance layers_kern : Kern layers := {|
  mnt_want_write w := (0, w);
  mutex_lock_interruptible w _ := (0, w);
  rename_trap _ _ _ := None;
  lookup_one_len w n d :=
    (match ly_names w !! (d_ptr d, n) with Some x => PPtr x | None => PPtr (Dentry 0 n 0 None) end, w);
  real_parent _ d := d;
  vfs_create w dir d mode := ly_create w dir d mode 0;
  vfs_mkdir w dir d mode := ly_create w dir d (Z.lor S_IFDIR mode) 0;
  vfs_mknod w dir d mode rdev := ly_create w dir d mode rdev;
  vfs_symlink w dir d _ := ly_create w dir d S_IFLNK 0;
  vfs_whiteout w dir d := ly_create w dir d S_IFCHR WHITEOUT_DEV;
  vfs_link w old dir new :=
    let x := Dentry (d_ptr old) (d_name new) 0 (d_inode old) in (0, x, ly_add (i_ptr dir, d_name new) x w);
  vfs_tmpfile w d mode := let '(x, w) := ly_new w "" mode 0 in (PPtr x, w);
  vfs_rmdir w dir d := (0, ly_del (i_ptr dir, d_name d) w);
  vfs_unlink w dir d := (0, ly_del (i_ptr dir, d_name d) w);
  vfs_rename w od o nd n _ := (0, ly_add (i_ptr nd, d_name n) o (ly_del (i_ptr od, d_name o) w));
  notify_change w _ _ := (0, w);
  vfs_removexattr w d n :=
    (0, Layers (delete (d_ptr d, n) (ly_xattr w)) (ly_names w) (ly_nodes w) (ly_uuid w));
  vfs_listxattr w d n :=
    let s := fold_right (λ x s, x +:+ String NUL s) EmptyString
               (omap (λ '((p, x), _), if p =? d_ptr d then Some x else None) (map_to_list (ly_xattr w))) in
    let len := Z.of_nat (String.length s) in
    if n =? 0 then (len, EmptyString) else if n <? len then (- ERANGE, EmptyString) else (len, s);
  i_op_xattr _ := true;
  vfs_getattr _ p _ :=
    match p_dentry p ≫= d_inode with
    | Some i => (0, Kstat 0 (i_ino i) (i_nlink i) 0 (i_rdev i) (i_attrs i))
    | None => (- ENOENT, Kstat 0 0 0 0 0 (IAttrs 0 0 0 0 0 0 0))
    end;
  vfs_get_link _ _ := PPtr "target";
  inode_now _ i := i;
  inode_unhashed _ _ := false;
  security_inode_copy_up_xattr _ _ := 0;
  security_inode_copy_up w _ := (0, NULL, w);
  uninitialized _ := 77;
|}.

#[export] Instance layers_kern_laws : KernLaws layers.
Proof.
  split; cbn; try done.
  - intros w n d. by destruct (_ !! _).
  - intros w d m x [= <-]. by eexists.
  - intros w d n r s. set (l := fold_right _ _ _). destruct (Z.eqb_spec n 0); [lia|].
    destruct (Z.ltb_spec n (Z.of_nat (String.length l))); intros [= <- <-]; [done|lia].
Qed.
