(* ===== verification/KernelProps.v ===== *)
(** How the state of [Kernel] evolves.  [quiet] steps leave the overlay's
    dentries and inodes and everything the thread holds as they are;
    [evolves] steps may copy objects up: an upper dentry, a flag or an upper
    alias that was there stays.  [ok] is the well-formedness of the overlay's
    dentries, which [evolves] preserves. *)

From S2P Require Import Prelude Types Util Under Kernel.
From stdpp Require Import gmap.
Local Open Scope Z_scope.

(** ** The overlay's own state may only lose xattr support *)

Definition ofs_noxattr (a : ovl_fs) : ovl_fs :=
  OvlFs (fs_upper_mnt a) (fs_upper_sb a) (fs_lower_fs a) (fs_lower_layers a) (fs_namelen a)
        (fs_indexdir a) (fs_workdir a) (fs_config a) true (fs_tmpfile a) (fs_xino_bits a).
Definition ofs_rel (a b : ovl_fs) : Prop := b = a ∨ b = ofs_noxattr a.

Lemma ofs_rel_indexdir a b : ofs_rel a b → ovl_indexdir b = ovl_indexdir a.
Proof. by intros [->| ->]. Qed.
#[export] Instance ofs_rel_preorder : PreOrder ofs_rel.
Proof. split; [by left|]. intros a b c [->| ->] [->| ->]; [by left|by right..]. Qed.

(** ** Quiet steps *)

Section quiet.
Context {W : Type}.
Implicit Types (st : kst W).

Record quiet st st' : Prop := {
  q_ofs : ofs_rel (k_ofs st) (k_ofs st');
  q_dents : k_dents st' = k_dents st;
  q_inodes : k_inodes st' = k_inodes st;
  q_held : k_held st' = k_held st;
}.

#[export] Instance quiet_preorder : PreOrder quiet.
Proof.
  split; [by split|]. intros a b c [o1 d1 i1 h1] [o2 d2 i2 h2].
  split; [by etrans|by rewrite d2|by rewrite i2|by rewrite h2].
Qed.

(** From any state reached quietly from [st0], [m] returns, is quiet, and its
    result satisfies [P]. *)
Definition quietly st0 {A} (m : kernel W A) (P : A → Prop) : Prop :=
  ∀ st, quiet st0 st → wp m st (λ a st', quiet st st' ∧ P a).

Lemma quietly_ret st0 {A} (a : A) (P : A → Prop) : P a → quietly st0 (mret a) P.
Proof. intros HP st Hst. by split. Qed.

Lemma quietly_bind st0 {A B} (m : kernel W A) (f : A → kernel W B) (P : A → Prop) (Q : B → Prop) :
  quietly st0 m P → (∀ a, P a → quietly st0 (f a) Q) → quietly st0 (m ≫= f) Q.
Proof.
  intros Hm Hf st Hst. eapply wp_seq; [by apply Hm|]. intros a st' [Hq HP].
  eapply wp_mono; [apply (Hf a HP); by etrans|]. intros b st2 [Hq2 HQ]. split; [by etrans|done].
Qed.

Lemma quietly_mono st0 {A} (m : kernel W A) (P Q : A → Prop) :
  quietly st0 m P → (∀ a, P a → Q a) → quietly st0 m Q.
Proof. intros Hm HPQ st Hst. eapply wp_mono; [by apply Hm|]. naive_solver. Qed.

Lemma quietly_on_w st0 {A} (f : W → A * W) (P : A → Prop) :
  (∀ w, P (f w).1) → quietly st0 (on_w f) P.
Proof.
  intros HP st Hst. unfold wp, on_w. specialize (HP (k_w st)). destruct (f (k_w st)) as [a w].
  split; [by split|done].
Qed.

Lemma quietly_on_wo st0 {A} (f : W → outcome (A * W)) (P : A → Prop) :
  (∀ w, ∃ a w', f w = Ret (a, w') ∧ P a) → quietly st0 (on_wo f) P.
Proof.
  intros HP st Hst. unfold wp, on_wo. destruct (HP (k_w st)) as (a & w & -> & HPa). split; [by split|done].
Qed.

Lemma quietly_ask st0 {A} (f : kst W → A) (P : A → Prop) :
  (∀ st, quiet st0 st → P (f st)) → quietly st0 (ask f) P.
Proof. intros HP st Hst. split; [done|by apply HP]. Qed.

Lemma quietly_asko st0 {A} (f : kst W → outcome A) (P : A → Prop) :
  (∀ st, quiet st0 st → ∃ a, f st = Ret a ∧ P a) → quietly st0 (asko f) P.
Proof. intros HP st Hst. unfold wp, asko. destruct (HP st Hst) as (a & -> & HPa). by split. Qed.

Lemma quietly_deref st0 {A} (p : option A) a (P : A → Prop) :
  p = Some a → P a → quietly st0 (deref p) P.
Proof. intros -> HP. by apply quietly_ret. Qed.

Lemma quietly_need_lock st0 l : l ∈ h_locks (k_held st0) → quietly st0 (need_lock l) (λ _, True).
Proof.
  intros Hl st Hst. unfold wp, need_lock. rewrite (q_held _ _ Hst), bool_decide_true by done. by split.
Qed.

Lemma quietly_oview st0 d v :
  view (k_dents st0) (k_inodes st0) d = Some v → quietly st0 (oview d) (λ x, x = v).
Proof.
  intros Hv st Hst. unfold wp, oview. rewrite (q_dents _ _ Hst), (q_inodes _ _ Hst), Hv. by split.
Qed.

Lemma quietly_dent st0 d e : k_dents st0 !! d = Some e → quietly st0 (dent d) (λ x, x = e).
Proof. intros Hv st Hst. unfold wp, dent. rewrite (q_dents _ _ Hst), Hv. by split. Qed.

Lemma quietly_inode st0 i o : k_inodes st0 !! i = Some o → quietly st0 (inode_of i) (λ x, x = o).
Proof. intros Hv st Hst. unfold wp, inode_of. rewrite (q_inodes _ _ Hst), Hv. by split. Qed.

Lemma quietly_get st0 : quietly st0 get (quiet st0).
Proof. intros st Hst. by split. Qed.

Lemma quietly_temp_id st0 n : quietly st0 (modify (set_k_temp_id n)) (λ _, True).
Proof. intros st Hst. by split. Qed.

Lemma quietly_wp st {A} (m : kernel W A) (P : A → Prop) Q :
  quietly st m P → (∀ a st', quiet st st' → P a → Q a st') → wp m st Q.
Proof. intros Hm HQ. eapply wp_mono; [by apply Hm|]. naive_solver. Qed.

End quiet.

(** ** Evolving steps *)

(** [ix]: there is an index directory. *)
Record inode_grows (ix : bool) (o o' : ovl_inode) : Prop := {
  ig_lower : oi_lower o' = oi_lower o;
  ig_upper u : oi_upper o = Some u → oi_upper o' = Some u;
  ig_new u : oi_upper o' = Some u → oi_upper o = Some u ∨ is_Some (d_inode u);
  ig_flags f : ovl_test_flag f o = true → ovl_test_flag f o' = true;
  ig_index : ovl_test_flag OVL_INDEX o' = true →
    ovl_test_flag OVL_INDEX o = true ∨ (is_Some (oi_lower o') ∧ is_Some (oi_upper o') ∧ ix = true);
  ig_whiteouts : ovl_test_flag OVL_WHITEOUTS o' = true →
    ovl_test_flag OVL_WHITEOUTS o = true ∨ oi_upper o = None;
}.
Arguments ig_lower {ix o o'}. Arguments ig_upper {ix o o'}. Arguments ig_new {ix o o'}.
Arguments ig_flags {ix o o'}. Arguments ig_index {ix o o'}. Arguments ig_whiteouts {ix o o'}.

Record entry_grows (e e' : ovl_entry) : Prop := {
  eg_stack : oe_lowerstack e' = oe_lowerstack e;
  eg_flags f : ovl_dentry_test_flag f e = true → ovl_dentry_test_flag f e' = true;
}.

Record dent_grows (d d' : odent) : Prop := {
  dg_name : dn_name d' = dn_name d;
  dg_flags : dn_flags d' = dn_flags d;
  dg_parent : dn_parent d' = dn_parent d;
  dg_inode : dn_inode d' = dn_inode d;
  dg_hashed : dn_hashed d' = dn_hashed d;
  dg_entry : entry_grows (dn_entry d) (dn_entry d');
}.

#[export] Instance inode_grows_preorder ix : PreOrder (inode_grows ix).
Proof.
  split; [intros o; split; try done; [intros u ?; by left|by left|by left]|].
  intros a b c [l1 u1 n1 f1 x1 w1] [l2 u2 n2 f2 x2 w2]. split; [congruence|auto| |auto| |].
  - intros u Hu. destruct (n2 u Hu) as [Hb|]; [by apply n1|by right].
  - intros Hc. destruct (x2 Hc) as [Hb|]; [|by right]. destruct (x1 Hb) as [|(Hl & [u Hu] & ?)]; [by left|right].
    rewrite l2. split_and!; [done| |done]. exists u. by apply u2.
  - intros Hc. destruct (w2 Hc) as [Hb|Hb]; [by apply w1|right].
    destruct (oi_upper a) as [u|] eqn:E; [|done]. by rewrite (u1 u eq_refl) in Hb.
Qed.
#[export] Instance entry_grows_preorder : PreOrder entry_grows.
Proof.
  split; [intros e; by split|]. intros a b c [s1 f1] [s2 f2]. split; [congruence|auto].
Qed.
#[export] Instance dent_grows_preorder : PreOrder dent_grows.
Proof.
  split; [intros e; by split|]. intros a b c [n1 f1 p1 i1 h1 e1] [n2 f2 p2 i2 h2 e2].
  split; [congruence..|by etrans].
Qed.

Section evolves.
Context {W : Type}.
Implicit Types (st : kst W).

Definition view_at st (d : Z) : option odentry := view (k_dents st) (k_inodes st) d.

(** The parent a copy-up goes to has an upper dentry. *)
Definition has_upper st (p : Z) : Prop := ∃ pv, view_at st p = Some pv ∧ is_Some (ovl_dentry_upper pv).

Definition aliased (e : odent) : bool := ovl_dentry_has_upper_alias (dn_entry e).

(** Where an upper alias appears, the parent has an upper dentry. *)
Record grows st st' : Prop := {
  gr_ofs : ofs_rel (k_ofs st) (k_ofs st');
  gr_dents d : option_Forall2 dent_grows (k_dents st !! d) (k_dents st' !! d);
  gr_inodes i : option_Forall2 (inode_grows (ovl_indexdir (k_ofs st))) (k_inodes st !! i) (k_inodes st' !! i);
  gr_linked d e e' : k_dents st !! d = Some e → k_dents st' !! d = Some e' → aliased e' = true →
    aliased e = true ∨ has_upper st' (dn_parent e');
}.

Definition evolves st st' : Prop := grows st st' ∧ k_held st' = k_held st.

(** How a view evolves. *)
Record view_grows (ix : bool) (v v' : odentry) : Prop := {
  vg_ptr : od_ptr v' = od_ptr v;
  vg_name : od_name v' = od_name v;
  vg_flags : od_flags v' = od_flags v;
  vg_inode : inode_grows ix (od_inode v) (od_inode v');
  vg_entry : entry_grows (od_entry v) (od_entry v');
}.
Lemma view_inv dents inodes d v :
  view dents inodes d = Some v →
  ∃ e o, dents !! d = Some e ∧ inodes !! dn_inode e = Some o ∧
    v = ODentry d (dn_name e) (dn_flags e) o (dn_entry e).
Proof.
  unfold view. destruct (dents !! d) as [e|]; [|done]. cbn.
  destruct (inodes !! dn_inode e) as [o|] eqn:E; [|done]. cbn. intros [= <-]. by exists e, o.
Qed.

Lemma grows_inode st st' i o :
  grows st st' → k_inodes st !! i = Some o → ∃ o', k_inodes st' !! i = Some o' ∧ inode_grows (ovl_indexdir (k_ofs st)) o o'.
Proof.
  intros Hg Ho. pose proof (gr_inodes _ _ Hg i) as Hi. rewrite Ho in Hi. inversion Hi; simplify_eq. by eexists.
Qed.
Lemma grows_dent st st' d e :
  grows st st' → k_dents st !! d = Some e → ∃ e', k_dents st' !! d = Some e' ∧ dent_grows e e'.
Proof.
  intros Hg Ho. pose proof (gr_dents _ _ Hg d) as Hi. rewrite Ho in Hi. inversion Hi; simplify_eq. by eexists.
Qed.
Lemma grows_view st st' d v :
  grows st st' → view (k_dents st) (k_inodes st) d = Some v →
  ∃ v', view (k_dents st') (k_inodes st') d = Some v' ∧ view_grows (ovl_indexdir (k_ofs st)) v v'.
Proof.
  intros Hg Hv. apply view_inv in Hv as (e & o & He & Ho & ->).
  destruct (grows_dent _ _ _ _ Hg He) as (e' & He' & [Hn Hf Hp Hi Hh Hen]).
  destruct (grows_inode _ _ _ _ Hg Ho) as (o' & Ho' & Hgo).
  exists (ODentry d (dn_name e') (dn_flags e') o' (dn_entry e')). split; [|by split].
  unfold view. rewrite He'. cbn. by rewrite Hi, Ho'.
Qed.
Lemma has_upper_grows st st' p : grows st st' → has_upper st p → has_upper st' p.
Proof.
  intros Hg (pv & Hpv & [u Hu]). destruct (grows_view _ _ _ _ Hg Hpv) as (pv' & Hpv' & Hvg).
  exists pv'. split; [done|]. exists u. by apply (ig_upper (vg_inode _ _ _ Hvg)).
Qed.

(** Steps that change no dentry. *)
Lemma grows_intro st st' :
  ofs_rel (k_ofs st) (k_ofs st') → k_dents st' = k_dents st →
  (∀ i, option_Forall2 (inode_grows (ovl_indexdir (k_ofs st))) (k_inodes st !! i) (k_inodes st' !! i)) → grows st st'.
Proof.
  intros Ho Hd Hi. split; [done|intros d; rewrite Hd; reflexivity|done|].
  intros d e e'. rewrite Hd. intros -> [= ->]. by left.
Qed.

#[export] Instance grows_preorder : PreOrder grows.
Proof.
  split; [intros st; apply grows_intro; [done..|intros i; reflexivity]|].
  intros a b c Hab Hbc. destruct Hab as [o1 d1 i1 l1] eqn:E1, Hbc as [o2 d2 i2 l2] eqn:E2.
  split; [by etrans|intros x; etrans; [apply d1|apply d2]| |].
  { intros x. etrans; [apply i1|]. rewrite <- (ofs_rel_indexdir _ _ o1). apply i2. }
  intros d e e'' He He'' Ha. destruct (grows_dent _ _ _ _ Hab He) as (e' & He' & _).
  destruct (l2 d e' e'' He' He'' Ha) as [Ha'|]; [|by right].
  destruct (l1 d e e' He He' Ha') as [|Hu]; [by left|right].
  destruct (grows_dent _ _ _ _ Hbc He') as (e2 & He2 & Hde). simplify_eq.
  rewrite (dg_parent _ _ Hde). by eapply has_upper_grows.
Qed.
#[export] Instance evolves_preorder : PreOrder evolves.
Proof.
  split; [by split|]. intros a b c [g1 h1] [g2 h2]. split; [by etrans|congruence].
Qed.

Lemma quiet_evolves st st' : quiet st st' → evolves st st'.
Proof.
  intros [o d i h]. split; [|done]. apply grows_intro; [done..|]. intros x. rewrite i. reflexivity.
Qed.

(** Holding something else does not matter for [grows]. *)
Lemma grows_held st h : grows st (set_k_held h st).
Proof. apply grows_intro; [done..|]. intros x. reflexivity. Qed.

(** ** Well-formed overlay dentries *)

(** Parents and inodes exist, real dentries are positive, a negative dentry has
    no lowers, the inode of a dentry with lowers knows its lower inode, an
    indexed inode has both real inodes, the parent of a dentry linked in the
    upper layer is there too, and a hashed dentry without lowers is pure upper. *)
Record ok st : Prop := {
  ok_parent d e : k_dents st !! d = Some e → is_Some (k_dents st !! dn_parent e);
  ok_inode d e : k_dents st !! d = Some e → dn_inode e ≠ NULL → is_Some (k_inodes st !! dn_inode e);
  ok_lower d e p : k_dents st !! d = Some e → p ∈ oe_lowerstack (dn_entry e) → is_Some (d_inode (op_dentry p));
  ok_upper i o u : k_inodes st !! i = Some o → oi_upper o = Some u → is_Some (d_inode u);
  ok_negative d e : k_dents st !! d = Some e → dn_inode e = NULL → oe_lowerstack (dn_entry e) = [];
  ok_null : k_inodes st !! NULL = None;
  ok_index i o : k_inodes st !! i = Some o → ovl_test_flag OVL_INDEX o = true →
    is_Some (oi_lower o) ∧ is_Some (oi_upper o) ∧ ovl_indexdir (k_ofs st) = true;
  ok_stack d e o : k_dents st !! d = Some e → k_inodes st !! dn_inode e = Some o →
    oe_lowerstack (dn_entry e) ≠ [] → is_Some (oi_lower o);
  ok_linked d e : k_dents st !! d = Some e → aliased e = true → has_upper st (dn_parent e);
  ok_real d e o : k_dents st !! d = Some e → k_inodes st !! dn_inode e = Some o → dn_hashed e = true →
    oe_lowerstack (dn_entry e) = [] →
    is_Some (oi_upper o) ∧ ovl_dentry_has_upper_alias (dn_entry e) = true ∧
    oi_lower o = None;
}.

Lemma grows_dent_inv st st' d e' :
  grows st st' → k_dents st' !! d = Some e' → ∃ e, k_dents st !! d = Some e ∧ dent_grows e e'.
Proof.
  intros Hg Ho. pose proof (gr_dents _ _ Hg d) as Hi. rewrite Ho in Hi. inversion Hi; simplify_eq. by eexists.
Qed.
Lemma grows_inode_inv st st' i o' :
  grows st st' → k_inodes st' !! i = Some o' → ∃ o, k_inodes st !! i = Some o ∧ inode_grows (ovl_indexdir (k_ofs st)) o o'.
Proof.
  intros Hg Ho. pose proof (gr_inodes _ _ Hg i) as Hi. rewrite Ho in Hi. inversion Hi; simplify_eq. by eexists.
Qed.

Lemma ok_grows st st' : ok st → grows st st' → ok st'.
Proof.
  intros Hok Hg. split.
  - intros d e' He'. destruct (grows_dent_inv _ _ _ _ Hg He') as (e & He & Hde).
    rewrite (dg_parent _ _ Hde). destruct (ok_parent _ Hok d e He) as [p Hpe].
    destruct (grows_dent _ _ _ _ Hg Hpe) as (p' & -> & _). by eexists.
  - intros d e' He' Hn. destruct (grows_dent_inv _ _ _ _ Hg He') as (e & He & Hde).
    rewrite (dg_inode _ _ Hde) in *. destruct (ok_inode _ Hok d e He Hn) as [o Ho].
    destruct (grows_inode _ _ _ _ Hg Ho) as (o' & -> & _). by eexists.
  - intros d e' p He' Hin. destruct (grows_dent_inv _ _ _ _ Hg He') as (e & He & Hde).
    rewrite (eg_stack _ _ (dg_entry _ _ Hde)) in Hin. by eapply ok_lower.
  - intros i o' u Ho' Hou. destruct (grows_inode_inv _ _ _ _ Hg Ho') as (o & Ho & Hgo).
    destruct (ig_new Hgo u Hou) as [Hold|]; [by eapply ok_upper|done].
  - intros d e' He'. destruct (grows_dent_inv _ _ _ _ Hg He') as (e & He & Hde).
    rewrite (dg_inode _ _ Hde), (eg_stack _ _ (dg_entry _ _ Hde)). by eapply ok_negative.
  - destruct (k_inodes st' !! NULL) as [o'|] eqn:Ho'; [|done].
    destruct (grows_inode_inv _ _ _ _ Hg Ho') as (o & Ho & _). by rewrite (ok_null _ Hok) in Ho.
  - intros i o' Ho' Hi. destruct (grows_inode_inv _ _ _ _ Hg Ho') as (o & Ho & Hgo).
    rewrite (ofs_rel_indexdir _ _ (gr_ofs _ _ Hg)).
    destruct (ig_index Hgo Hi) as [Hold|]; [|done].
    destruct (ok_index _ Hok i o Ho Hold) as (Hl & [u Hu] & ?). rewrite (ig_lower Hgo).
    split_and!; [done| |done]. exists u. by apply (ig_upper Hgo).
  - intros d e' o' He' Ho'. destruct (grows_dent_inv _ _ _ _ Hg He') as (e & He & Hde).
    destruct (grows_inode_inv _ _ _ _ Hg Ho') as (o & Ho & Hgo).
    rewrite (dg_inode _ _ Hde) in Ho. rewrite (eg_stack _ _ (dg_entry _ _ Hde)), (ig_lower Hgo).
    by eapply ok_stack.
  - intros d e' He' Ha. destruct (grows_dent_inv _ _ _ _ Hg He') as (e & He & Hde).
    destruct (gr_linked _ _ Hg d e e' He He' Ha) as [Hold|]; [|done].
    rewrite (dg_parent _ _ Hde). eapply has_upper_grows; [done|]. by eapply ok_linked.
  - intros d e' o' He' Ho'. destruct (grows_dent_inv _ _ _ _ Hg He') as (e & He & Hde).
    destruct (grows_inode_inv _ _ _ _ Hg Ho') as (o & Ho & Hgo).
    rewrite (dg_inode _ _ Hde) in Ho. rewrite (eg_stack _ _ (dg_entry _ _ Hde)), (dg_hashed _ _ Hde), (ig_lower Hgo).
    intros Hh Hs. destruct (ok_real _ Hok d e o He Ho Hh Hs) as ([u Hu] & Ha & Hd). split_and!.
    + exists u. by apply (ig_upper Hgo).
    + by apply (eg_flags _ _ (dg_entry _ _ Hde)).
    + done.
Qed.

(** Updates of one inode or one dentry. *)
Lemma grows_modify_inode st i o o' :
  k_inodes st !! i = Some o → inode_grows (ovl_indexdir (k_ofs st)) o o' →
  grows st (set_k_inodes (<[i := o']> (k_inodes st)) st).
Proof.
  intros Ho Hg. apply grows_intro; [done..|]. intros j. cbn.
  destruct (decide (i = j)) as [->|Hn].
  - rewrite Ho, lookup_insert_eq. by constructor.
  - rewrite lookup_insert_ne by done. reflexivity.
Qed.
Lemma grows_modify_entry st d e en :
  k_dents st !! d = Some e → entry_grows (dn_entry e) en →
  (ovl_dentry_has_upper_alias en = true → aliased e = true ∨ has_upper st (dn_parent e)) →
  grows st (set_k_dents (<[d := set_dn_entry en e]> (k_dents st)) st).
Proof.
  intros He Hg Ha.
  assert (∀ j, option_Forall2 dent_grows (k_dents st !! j) (<[d := set_dn_entry en e]> (k_dents st) !! j)) as Hd.
  { intros j. destruct (decide (d = j)) as [->|Hn].
    - rewrite He, lookup_insert_eq. constructor. by split.
    - rewrite lookup_insert_ne by done. reflexivity. }
  split; [done|exact Hd|intros d'; reflexivity|]. cbn. intros j x x' Hx Hx' Hax.
  destruct (decide (d = j)) as [->|Hn]; [|rewrite lookup_insert_ne in Hx' by done; simplify_eq; by left].
  rewrite lookup_insert_eq in Hx'. simplify_eq. destruct (Ha Hax) as [|(pv & Hpv & Hu)]; [by left|right].
  apply view_inv in Hpv as (pe & po & Hpe & Hpo & ->). specialize (Hd (dn_parent e)). rewrite Hpe in Hd.
  inversion Hd as [? pe' Hde Epe Epe'|]; simplify_eq.
  exists (ODentry (dn_parent e) (dn_name pe') (dn_flags pe') po (dn_entry pe')). split; [|done].
  unfold view_at, view. cbn. rewrite <- Epe'. cbn. by rewrite (dg_inode _ _ Hde), Hpo.
Qed.

Lemma wp_modify_inode st i o f Q :
  k_inodes st !! i = Some o → Q tt (set_k_inodes (<[i := f o]> (k_inodes st)) st) →
  wp (modify_inode i f) st Q.
Proof. unfold wp, modify_inode. by intros ->. Qed.
Lemma wp_modify_entry st d e f Q :
  k_dents st !! d = Some e → Q tt (set_k_dents (<[d := set_dn_entry (f (dn_entry e)) e]> (k_dents st)) st) →
  wp (modify_entry d f) st Q.
Proof. unfold wp, modify_entry. by intros ->. Qed.

Lemma wp_lock st l Q :
  Q tt (set_k_held (with_locks (l :: h_locks (k_held st)) (k_held st)) st) → wp (lock_ l) st Q.
Proof. done. Qed.
Lemma wp_unlock st l ls Q :
  unlock1 l (h_locks (k_held st)) = Some ls →
  Q tt (set_k_held (with_locks ls (k_held st)) st) → wp (unlock_ l) st Q.
Proof. unfold wp, unlock_. by intros ->. Qed.

Lemma unlock1_head l ls : unlock1 l (l :: ls) = Some ls.
Proof. cbn. by rewrite decide_True. Qed.

(** A body that runs under a lock and gives it back. *)
Lemma wp_locked {A B} l (m : kernel W A) (k : A → kernel W B) st Q :
  wp m (set_k_held (with_locks (l :: h_locks (k_held st)) (k_held st)) st)
     (λ a st', k_held st' = with_locks (l :: h_locks (k_held st)) (k_held st) ∧
               wp (k a) (set_k_held (k_held st) st') Q) →
  wp (lock_ l;; a ← m; unlock_ l;; k a) st Q.
Proof.
  intros Hm. apply wp_bind, wp_lock, wp_bind. eapply wp_mono; [exact Hm|]. intros a st' [Hh Hk].
  apply wp_bind. apply wp_unlock with (h_locks (k_held st)).
  - rewrite Hh. cbn. by rewrite decide_True.
  - rewrite Hh. by destruct (k_held st).
Qed.

Lemma evolves_ok st st' : ok st → evolves st st' → ok st'.
Proof. intros Hok [Hg _]. by eapply ok_grows. Qed.

Lemma flag_set f o : ovl_test_flag f (ovl_set_flag f o) = true.
Proof.
  change (Z.testbit (Z.setbit (oi_flags o) (ovl_inode_flag_bit f)) (ovl_inode_flag_bit f) = true).
  rewrite Z.setbit_eqb by (by destruct f). by rewrite Z.eqb_refl.
Qed.
Lemma flag_keep f g o : ovl_test_flag g o = true → ovl_test_flag g (ovl_set_flag f o) = true.
Proof.
  change (ovl_test_flag g (ovl_set_flag f o))
    with (Z.testbit (Z.setbit (oi_flags o) (ovl_inode_flag_bit f)) (ovl_inode_flag_bit g)).
  unfold ovl_test_flag. intros Hg. rewrite Z.setbit_eqb by (by destruct f). by rewrite Hg, orb_true_r.
Qed.
Lemma flag_other f g o : ovl_inode_flag_bit f ≠ ovl_inode_flag_bit g →
  ovl_test_flag g (ovl_set_flag f o) = ovl_test_flag g o.
Proof.
  intros Hn. change (ovl_test_flag g (ovl_set_flag f o))
    with (Z.testbit (Z.setbit (oi_flags o) (ovl_inode_flag_bit f)) (ovl_inode_flag_bit g)).
  by rewrite Z.setbit_neq by (by destruct f).
Qed.
Lemma set_flag_grows ix f o :
  (f = OVL_INDEX → is_Some (oi_lower o) ∧ is_Some (oi_upper o) ∧ ix = true) → f ≠ OVL_WHITEOUTS →
  inode_grows ix o (ovl_set_flag f o).
Proof.
  intros Hf Hw. split; [done|done|intros u ?; by left|intros g; apply flag_keep| |].
  - destruct (decide (ovl_inode_flag_bit f = ovl_inode_flag_bit OVL_INDEX)) as [Hb|Hn].
    + intros _. right. apply Hf. by destruct f.
    + rewrite flag_other by done. by left.
  - rewrite flag_other by (by destruct f). by left.
Qed.
(** A directory may hold whiteouts once it is copied up. *)
Lemma whiteouts_grows ix o o' :
  inode_grows ix o o' → oi_upper o = None → inode_grows ix o (ovl_set_flag OVL_WHITEOUTS o').
Proof.
  intros [l u n f x w] Hu. split; [done|done|done| | |by right].
  - intros g Hg. apply flag_keep, f, Hg.
  - by rewrite flag_other.
Qed.
Lemma grows_set_whiteouts st st' i o o' :
  grows st st' → k_inodes st !! i = Some o → oi_upper o = None → k_inodes st' !! i = Some o' →
  grows st (set_k_inodes (<[i := ovl_set_flag OVL_WHITEOUTS o']> (k_inodes st')) st').
Proof.
  intros Hg Ho Hu Ho'. split; [apply Hg|apply Hg| |].
  - intros j. cbn. destruct (decide (i = j)) as [->|Hn].
    + rewrite Ho, lookup_insert_eq. constructor. apply whiteouts_grows; [|done].
      destruct (grows_inode _ _ _ _ Hg Ho) as (x & Hx & Hgx). by simplify_eq.
    + rewrite lookup_insert_ne by done. apply Hg.
  - cbn. intros d e e' He He' Ha. destruct (gr_linked _ _ Hg d e e' He He' Ha) as [|(pv & Hpv & Hup)]; [by left|right].
    apply view_inv in Hpv as (pe & po & Hpe & Hpo & ->). cbn in Hup. unfold has_upper, view_at, view. cbn. rewrite Hpe. cbn.
    destruct (decide (i = dn_inode pe)) as [->|Hn].
    + rewrite lookup_insert_eq. simplify_eq. eexists. split; [reflexivity|exact Hup].
    + rewrite lookup_insert_ne by done. rewrite Hpo. eexists. split; [reflexivity|exact Hup].
Qed.
Lemma alias_grows e : entry_grows e (ovl_dentry_set_upper_alias e).
Proof.
  split; [done|]. intros f.
  change (ovl_dentry_test_flag f (ovl_dentry_set_upper_alias e))
    with (Z.testbit (Z.setbit (oe_flags e) 0) (ovl_entry_flag_bit f)).
  unfold ovl_dentry_test_flag. intros Hf. rewrite Z.setbit_eqb by done. by rewrite Hf, orb_true_r.
Qed.
Lemma alias_set e : ovl_dentry_has_upper_alias (ovl_dentry_set_upper_alias e) = true.
Proof.
  change (Z.testbit (Z.setbit (oe_flags e) 0) 0 = true). by rewrite Z.setbit_eqb.
Qed.

End evolves.
