(* ===== verification/Work.v ===== *)
(** The steps the copy-up and the directory operations are made of: the
    inline wrappers of overlayfs.h, write access, credentials and the locking of
    two directories (util.c), and the temporary objects, whiteouts and cleanup
    of the work directory (dir.c). *)

From Stdlib Require Import Ascii.
From Stdlib Require HexadecimalString HexadecimalN.
From S2P Require Import Prelude Types Util Under Redirect Kernel.
Local Open Scope Z_scope.

Section work.
Context {W : Type} `{Under W, Kern W}.
(** ofs->creator_cred, ofs->workdir and ofs->indexdir (when they exist) *)
Context (creator_cred : Z) (workdir indexdir : dentry).

(** ** util.c *)

Definition ovl_want_write : kernel W Z :=
  err ← on_w mnt_want_write;
  if negb (err =? 0) then mret err else
  modify (λ st, let h := k_held st in
            set_k_held (Held (h_cred h) (h_locks h) (h_write h + 1)) st);;
  mret 0.
Definition ovl_drop_write : kernel W unit := λ st,
  let h := k_held st in
  if h_write h <=? 0 then Fault
  else Ret (tt, set_k_held (Held (h_cred h) (h_locks h) (h_write h - 1)) st).

Definition ovl_workdir : kernel W (option dentry) :=
  ask (λ st, if fs_workdir (k_ofs st) then Some workdir else None).
Definition ovl_indexdir_dentry : kernel W (option dentry) :=
  ask (λ st, if ovl_indexdir (k_ofs st) then Some indexdir else None).

Definition ovl_override_creds : kernel W Z := override_creds creator_cred.

(** The mutex of an overlay inode (overlayfs.h). *)
Definition ovl_inode_lock (i : Z) : kernel W Z :=
  err ← on_w (λ w, mutex_lock_interruptible w i);
  if negb (err =? 0) then mret err else lock_ (LOvl i);; mret 0.
Definition ovl_inode_unlock (i : Z) : kernel W unit := unlock_ (LOvl i).

(** lock_rename and unlock_rename of the kernel: both directories, and the
    rename mutex when they differ *)
Definition lock_rename (p1 p2 : dentry) : kernel W (option dentry) :=
  i1 ← deref (d_inode p1); i2 ← deref (d_inode p2);
  if d_ptr p1 =? d_ptr p2 then inode_lock i1;; mret None else
  lock_ LRename;; inode_lock i1;; inode_lock i2;;
  ask (λ st, rename_trap (k_w st) p1 p2).
Definition unlock_rename (p1 p2 : dentry) : kernel W unit :=
  i1 ← deref (d_inode p1); i2 ← deref (d_inode p2);
  inode_unlock i1;;
  if d_ptr p1 =? d_ptr p2 then mret tt else inode_unlock i2;; unlock_ LRename.

Definition ovl_lock_rename_workdir (workdir upperdir : dentry) : kernel W Z :=
  if d_ptr workdir =? d_ptr upperdir then mret (- EIO) else
  trap ← lock_rename workdir upperdir;
  match trap with
  | Some _ => unlock_rename workdir upperdir;; mret (- EIO)
  | None => mret 0
  end.

(** ** overlayfs.h: namespace changes, under the lock of the directory *)

Definition in_dir {A} (dir : inode) (f : W → A * W) : kernel W A :=
  need_lock (LInode (i_ptr dir));; on_w f.
Definition creates (dir : inode) (f : W → Z * dentry * W) : kernel W (Z * dentry) :=
  in_dir dir f.

Definition ovl_do_rmdir (dir : inode) (d : dentry) : kernel W Z := in_dir dir (λ w, vfs_rmdir w dir d).
Definition ovl_do_unlink (dir : inode) (d : dentry) : kernel W Z := in_dir dir (λ w, vfs_unlink w dir d).
Definition ovl_do_link (old : dentry) (dir : inode) (new : dentry) : kernel W (Z * dentry) :=
  creates dir (λ w, vfs_link w old dir new).
Definition ovl_do_create (dir : inode) (d : dentry) (mode : Z) : kernel W (Z * dentry) :=
  creates dir (λ w, vfs_create w dir d mode).
Definition ovl_do_mkdir (dir : inode) (d : dentry) (mode : Z) : kernel W (Z * dentry) :=
  creates dir (λ w, vfs_mkdir w dir d mode).
Definition ovl_do_mknod (dir : inode) (d : dentry) (mode dev : Z) : kernel W (Z * dentry) :=
  creates dir (λ w, vfs_mknod w dir d mode dev).
Definition ovl_do_symlink (dir : inode) (d : dentry) (oldname : string) : kernel W (Z * dentry) :=
  creates dir (λ w, vfs_symlink w dir d oldname).
Definition ovl_do_whiteout (dir : inode) (d : dentry) : kernel W (Z * dentry) :=
  creates dir (λ w, vfs_whiteout w dir d).
Definition ovl_do_rename (olddir : inode) (old : dentry) (newdir : inode) (new : dentry) (flags : Z)
    : kernel W Z :=
  need_lock (LInode (i_ptr olddir));; in_dir newdir (λ w, vfs_rename w olddir old newdir new flags).
Definition ovl_do_setxattr (d : dentry) (name : string) (value : list byte) (flags : Z) : kernel W Z :=
  on_w (λ w, vfs_setxattr w d name value flags).
Definition ovl_do_removexattr (d : dentry) (name : string) : kernel W Z :=
  on_w (λ w, vfs_removexattr w d name).
Definition ovl_do_tmpfile (d : dentry) (mode : Z) : kernel W (eptr dentry) :=
  on_w (λ w, vfs_tmpfile w d mode).

(** lookup_one_len: the directory is locked by the caller *)
Definition lookup_locked (name : string) (dir : dentry) : kernel W (eptr dentry) :=
  i ← deref (d_inode dir); in_dir i (λ w, lookup_one_len w name dir).
Definition notify (d : dentry) (attr : iattr) : kernel W Z :=
  i ← deref (d_inode d); in_dir i (λ w, notify_change w d attr).

(** ** dir.c *)

Definition ovl_cleanup (wdir : inode) (wdentry : dentry) : kernel W Z :=
  if d_is_dir wdentry then ovl_do_rmdir wdir wdentry else ovl_do_unlink wdir wdentry.

(** snprintf(name, "#%x", id); the counter is an int and may wrap *)
Definition temp_name (id : Z) : string :=
  "#" +:+ HexadecimalString.NilZero.string_of_uint (N.to_hex_uint (Z.to_N (u32 id))).
Definition ovl_lookup_temp (workdir : dentry) : kernel W (eptr dentry) :=
  st ← get;
  let id := u32 (k_temp_id st + 1) in
  modify (set_k_temp_id id);;
  temp ← lookup_locked (temp_name id) workdir;
  match temp with
  | PPtr t => if bool_decide (is_Some (d_inode t)) then mret (PErr (- EIO)) else mret (PPtr t)
  | _ => mret temp
  end.

Definition ovl_whiteout (workdir : dentry) : kernel W (eptr dentry) :=
  wdir ← deref (d_inode workdir);
  whiteout ← ovl_lookup_temp workdir;
  match whiteout with
  | PPtr whiteout =>
      '(err, whiteout) ← ovl_do_whiteout wdir whiteout;
      mret (if negb (err =? 0) then PErr err else PPtr whiteout)
  | PErr e => mret (PErr e)
  | PNull => fault
  end.

Definition ovl_cleanup_and_whiteout (workdir : dentry) (dir : inode) (d : dentry) : kernel W Z :=
  wdir ← deref (d_inode workdir);
  whiteout ← ovl_whiteout workdir;
  match whiteout with
  | PPtr whiteout =>
      let flags := if d_is_dir d then RENAME_EXCHANGE else 0 in
      err ← ovl_do_rename wdir whiteout dir d flags;
      if negb (err =? 0) then ovl_cleanup wdir whiteout;; mret err
      else (if negb (flags =? 0) then ovl_cleanup wdir d;; mret tt else mret tt);; mret 0
  | PErr e => mret e
  | PNull => fault
  end.

(** struct ovl_cattr *)
Record ovl_cattr : Type := Cattr {
  ca_rdev : Z; ca_mode : Z; ca_link : string; ca_hardlink : option dentry;
}.
Definition OVL_CATTR (m : Z) : ovl_cattr := Cattr 0 m "" None.

(** error and newdentry *)
Definition ovl_mkdir_real (dir : inode) (d : dentry) (mode : Z) : kernel W (Z * dentry) :=
  '(err, d) ← ovl_do_mkdir dir d mode;
  if negb (err =? 0) then mret (err, d) else
  unhashed ← ask (λ st, d_unhashed (k_w st) d);
  if negb unhashed then mret (0, d) else
  (* d_parent: dir's dentry, locked with dir *)
  r ← (parent ← ask (λ st, real_parent (k_w st) d); in_dir dir (λ w, lookup_one_len w (d_name d) parent));
  match r with
  | PErr e => mret (e, d)
  | PPtr d' => mret (0, d')
  | PNull => fault
  end.

Definition ovl_create_real (dir : inode) (newdentry : eptr dentry) (attr : ovl_cattr)
    : kernel W (eptr dentry) :=
  match newdentry with
  | PErr e => mret (PErr e)
  | PNull => fault
  | PPtr d =>
      if bool_decide (is_Some (d_inode d)) then mret (PErr (- ESTALE)) else
      '(err, d) ←
        match ca_hardlink attr with
        | Some old => ovl_do_link old dir d
        | None =>
            let t := Z.land (ca_mode attr) S_IFMT in
            if t =? S_IFREG then ovl_do_create dir d (ca_mode attr)
            else if t =? S_IFDIR then ovl_mkdir_real dir d (ca_mode attr)
            else if (t =? S_IFCHR) || (t =? S_IFBLK) || (t =? S_IFIFO) || (t =? S_IFSOCK)
            then ovl_do_mknod dir d (ca_mode attr) (ca_rdev attr)
            else if t =? S_IFLNK then ovl_do_symlink dir d (ca_link attr)
            else mret (- EPERM, d)
        end;
      let err := if (err =? 0) && negb (bool_decide (is_Some (d_inode d))) then - EIO else err in
      mret (if negb (err =? 0) then PErr err else PPtr d)
  end.

Definition ovl_create_temp (workdir : dentry) (attr : ovl_cattr) : kernel W (eptr dentry) :=
  wdir ← deref (d_inode workdir);
  temp ← ovl_lookup_temp workdir;
  ovl_create_real wdir temp attr.

End work.
