(* ===== verification/CopyUp.v ===== *)
(** copy_up.c: copying an object of a lower layer up to the upper layer - its
    xattrs and attributes, the temporary object that is renamed or linked into
    place, the index entry, the hard links of an indexed inode, and the walk up
    to the topmost parent that has not been copied. *)

From Stdlib Require Import Ascii.
From S2P Require Import Prelude Types Util Under Nlink Fh Redirect Inode Block Lookup Kernel Work.
From stdpp Require Import gmap.
Local Open Scope Z_scope.

Definition XATTR_NAME_CAPS : string := "security.capability".
Definition STATX_BASIC_STATS : Z := 2047.
Definition STATX_ATIME : Z := 32.
Definition STATX_MTIME : Z := 64.

(** struct ovl_copy_up_ctx *)
Record ovl_copy_up_ctx : Type := Ctx {
  cu_parent : option Z;
  cu_dentry : Z;
  cu_lowerpath : path;
  cu_stat : kstat;
  cu_pstat : kstat;
  cu_link : string;
  cu_destdir : option dentry;
  cu_destname : string;
  cu_workdir : option dentry;
  cu_origin : bool;
  cu_indexed : bool;
  cu_metacopy : bool;
}.
Definition cu_target (origin indexed : bool) (destdir : option dentry) (destname : string)
    (workdir : option dentry) (c : ovl_copy_up_ctx) : ovl_copy_up_ctx :=
  Ctx (cu_parent c) (cu_dentry c) (cu_lowerpath c) (cu_stat c) (cu_pstat c) (cu_link c)
      destdir destname workdir origin indexed (cu_metacopy c).

Section copy_up.
Context {W : Type} `{Under W, Kern W}.
Context (creator_cred : Z) (workdir indexdir : dentry).
(** the export operations of a lower super block *)
Context (export_op : Z → option (bool * bool)).

(** ** Attributes *)

(** The value of an xattr: the buffer [value] grows until it fits. *)
Fixpoint copy_value (fuel : nat) (old : dentry) (name : string) (value : list byte)
    : kernel W (Z + Z * list byte) :=
  match fuel with
  | O => nofuel
  | S fuel =>
      w ← ask k_w;
      let '(size, b) := vfs_getxattr w old name (zlen value) in
      let value := if (0 <? size) && (0 <? zlen value) then b ++ zdrop (zlen b) value else value in
      let size := if size =? - ERANGE then (vfs_getxattr w old name 0).1 else size in
      if size <? 0 then mret (inl size)
      else if zlen value <? size then
        if negb (kmalloc_ok w size) then mret (inl (- ENOMEM))
        else copy_value fuel old name (value ++ replicate (Z.to_nat (size - zlen value)) x00)
      else mret (inr (size, value))
  end.

Fixpoint copy_xattr_loop (fuel : nat) (old new : dentry) (s : string) (value : list byte) (error : Z)
    : kernel W Z :=
  if is_empty s then mret error else
  match fuel with
  | O => nofuel
  | S fuel =>
      let name := cstr s in
      let slen := strlen name + 1 in
      if strlen s <? slen then mret (- EIO) else
      let rest := sdrop (Z.to_nat slen) s in
      if ovl_is_private_xattr name then copy_xattr_loop fuel old new rest value error
      else
        r ← copy_value 3 old name value;
        match r with
        | inl e => mret e
        | inr (size, value) =>
            error ← ask (λ st, security_inode_copy_up_xattr (k_w st) name);
            if (error <? 0) && negb (error =? - EOPNOTSUPP) then mret error
            else if error =? 1 then copy_xattr_loop fuel old new rest value 0
            else
              error ← on_w (λ w, vfs_setxattr w new name (ztake size value) 0);
              if negb (error =? 0) then mret error
              else copy_xattr_loop fuel old new rest value error
        end
  end.

Definition ovl_copy_xattr (old new : dentry) : kernel W Z :=
  oi ← deref (d_inode old); ni ← deref (d_inode new);
  if negb (i_op_xattr oi) || negb (i_op_xattr ni) then mret 0 else
  w ← ask k_w;
  let list_size := (vfs_listxattr w old 0).1 in
  if list_size <=? 0 then mret (if list_size =? - EOPNOTSUPP then 0 else list_size) else
  if negb (kmalloc_ok w list_size) then mret (- ENOMEM) else
  let '(list_size, buf) := vfs_listxattr w old list_size in
  if list_size <=? 0 then mret list_size
  else copy_xattr_loop (String.length buf) old new buf [] (uninitialized w).

Definition no_attrs : iattrs := IAttrs 0 0 0 0 0 0 0.
Definition ovl_set_size (upper : dentry) (stat : kstat) : kernel W Z :=
  notify upper (IAttr ATTR_SIZE (IAttrs 0 0 0 0 0 0 (st_size stat))).
Definition ovl_set_timestamps (upper : dentry) (stat : kstat) : kernel W Z :=
  notify upper (IAttr (Z.lor (Z.lor ATTR_ATIME ATTR_MTIME) (Z.lor ATTR_ATIME_SET ATTR_MTIME_SET))
                 (IAttrs 0 0 0 (at_atime (st_attrs stat)) (at_mtime (st_attrs stat)) 0 0)).
Definition ovl_set_attr (upper : dentry) (stat : kstat) : kernel W Z :=
  err ← (if negb (S_ISLNK (st_mode stat))
         then notify upper (IAttr ATTR_MODE (IAttrs 0 0 (st_mode stat) 0 0 0 0)) else mret 0);
  if negb (err =? 0) then mret err else
  err ← notify upper (IAttr (Z.lor ATTR_UID ATTR_GID)
                       (IAttrs (at_uid (st_attrs stat)) (at_gid (st_attrs stat)) 0 0 0 0 0));
  if negb (err =? 0) then mret err else
  ovl_set_timestamps upper stat;; mret 0.

(** ovl_copy_up_data: everything after its [return 0] is unreachable *)
Definition ovl_copy_up_data (len : Z) : Z := if len =? 0 then 0 else 0.

(** ** Overlay dentries *)

Definition overlay_set_impure (d : Z) (upper : dentry) : kernel W Z :=
  e ← dent d;
  o ← inode_of (dn_inode e);
  st ← get;
  let '(err, l) := ovl_set_impure (LkState (k_w st) (k_ofs st) o) upper in
  modify (λ st, set_k_ofs (lk_ofs l) (set_k_w (lk_w l) st));;
  modify_inode (dn_inode e) (λ _, lk_parent l);;
  mret err.

Definition overlay_set_nlink_upper (d : Z) : kernel W Z :=
  v ← oview d; u ← deref (ovl_dentry_upper v);
  on_wo (λ w, ovl_set_nlink_upper w (dentry_now w u) (i_nlink (oi_vfs (od_inode v)))).
Definition overlay_set_nlink_lower (d : Z) : kernel W Z :=
  v ← oview d; u ← deref (ovl_dentry_upper v); l ← deref (ovl_dentry_lower v);
  on_wo (λ w, ovl_set_nlink_lower w (dentry_now w u) (dentry_now w l) (i_nlink (oi_vfs (od_inode v)))).

Definition ovl_copy_up_start (d : Z) (flags : Z) : kernel W Z :=
  e ← dent d;
  err ← ovl_inode_lock (dn_inode e);
  if negb (err =? 0) then mret err else
  v ← oview d;
  if ovl_already_copied_up_locked v flags then ovl_inode_unlock (dn_inode e);; mret 1
  else mret 0.
Definition ovl_copy_up_end (d : Z) : kernel W unit := e ← dent d; ovl_inode_unlock (dn_inode e).

(** ** The index entry of a directory *)

Definition ovl_create_index (d : Z) (origin upper : dentry) : kernel W Z :=
  indexdir ← ovl_indexdir_dentry indexdir;
  indexdir ← deref indexdir;
  dir ← deref (d_inode indexdir);
  v ← oview d;
  if negb (S_ISDIR (i_mode (oi_vfs (od_inode v)))) then mret (- EIO) else
  if ovl_test_flag OVL_INDEX (od_inode v) then mret (- EIO) else
  name ← asko (λ st, ovl_get_index_name (k_w st) origin);
  match name with
  | inl e => mret e
  | inr name =>
      temp ← ovl_create_temp indexdir (OVL_CATTR (Z.lor S_IFDIR 0));
      match temp with
      | PErr e => mret e
      | PNull => fault
      | PPtr temp =>
          err ← on_wo (λ w, ovl_set_upper_fh w upper temp);
          err ← (if negb (err =? 0) then mret err else
                 index ← lookup_locked name indexdir;
                 match index with
                 | PErr e => mret e
                 | PNull => fault
                 | PPtr index => ovl_do_rename dir temp dir index 0
                 end);
          if negb (err =? 0) then ovl_cleanup dir temp;; mret err else mret err
      end
  end.

(** ** Another hard link of an inode that was copied up *)

Definition ovl_link_up (c : ovl_copy_up_ctx) : kernel W Z :=
  parent ← deref (cu_parent c);
  pv ← oview parent;
  upperdir ← deref (ovl_dentry_upper pv);
  udir ← deref (d_inode upperdir);
  err ← overlay_set_impure parent upperdir;
  if negb (err =? 0) then mret err else
  err ← overlay_set_nlink_lower (cu_dentry c);
  if negb (err =? 0) then mret err else
  inode_lock udir;;
  err ← (
    e ← dent (cu_dentry c);
    upper ← lookup_locked (dn_name e) upperdir;
    match upper with
    | PErr err => mret err
    | PNull => fault
    | PPtr upper =>
        v ← oview (cu_dentry c);
        old ← deref (ovl_dentry_upper v);
        '(err, _) ← ovl_do_link old udir upper;
        if negb (err =? 0) then mret err else
        ovl_set_timestamps upperdir (cu_pstat c);;
        modify_entry (cu_dentry c) ovl_dentry_set_upper_alias;;
        mret 0
    end);
  inode_unlock udir;;
  if negb (err =? 0) then mret err else
  overlay_set_nlink_upper (cu_dentry c).

(** ** Filling the temporary object *)

Definition init_blocks (c : ovl_copy_up_ctx) : kernel W Z :=
  if S_ISREG (st_mode (cu_stat c)) && negb (cu_metacopy c) && negb (st_size (cu_stat c) =? 0) then
    e ← dent (cu_dentry c);
    o ← inode_of (dn_inode e);
    w ← ask k_w;
    let size := st_size (cu_stat c) in
    let n := u32 (if negb (size mod BLOCK_SIZE =? 0) then size / BLOCK_SIZE + 1 else size / BLOCK_SIZE) in
    let '(err, b) := copy_up_init_blocks size (kmalloc_ok w (n + 1)) (oi_blk o) in
    modify_inode (dn_inode e) (set_oi_blk b);;
    mret err
  else mret 0.

Definition ovl_copy_up_inode (c : ovl_copy_up_ctx) (temp : dentry) : kernel W Z :=
  err ← init_blocks c;
  if negb (err =? 0) then mret err else
  lower ← deref (p_dentry (cu_lowerpath c));
  err ← ovl_copy_xattr lower temp;
  if negb (err =? 0) then mret err else
  err ← (if cu_origin c
         then on_ofs (λ w ofs, ovl_set_origin w ofs (export_op (d_sb lower)) lower temp)
         else mret 0);
  if negb (err =? 0) then mret err else
  err ← (if cu_metacopy c
         then on_ofs (λ w ofs, Ret (ovl_check_setxattr w ofs temp OVL_XATTR_METACOPY [] (- EOPNOTSUPP)))
         else mret 0);
  if negb (err =? 0) then mret err else
  ti ← deref (d_inode temp);
  inode_lock ti;;
  err ← (if cu_metacopy c then ovl_set_size temp (cu_stat c) else mret 0);
  err ← (if negb (err =? 0) then mret err else ovl_set_attr temp (cu_stat c));
  inode_unlock ti;;
  mret err.

(** struct ovl_cu_creds: [Some old] when the credentials were replaced *)
Definition ovl_prep_cu_creds (d : Z) : kernel W (Z * option Z) :=
  '(err, new) ← on_w (λ w, security_inode_copy_up w d);
  if err <? 0 then mret (err, None)
  else if negb (new =? NULL) then old ← override_creds new; mret (0, Some old)
  else mret (0, None).
Definition ovl_revert_cu_creds (cc : option Z) : kernel W unit :=
  match cc with Some old => revert_creds old | None => mret tt end.

(** The new upper dentry becomes visible. *)
Definition publish (c : ovl_copy_up_ctx) (temp : dentry) : kernel W unit :=
  e ← dent (cu_dentry c);
  (if negb (cu_metacopy c) then modify_inode (dn_inode e) ovl_set_upperdata else mret tt);;
  unhashed ← ask (λ st, inode_unhashed (k_w st) (dn_inode e));
  modify_inodeo (dn_inode e) (λ o, ovl_inode_update o unhashed temp).

Definition ovl_copy_up_workdir (c : ovl_copy_up_ctx) : kernel W Z :=
  destdir ← deref (cu_destdir c);
  wd ← deref (cu_workdir c);
  udir ← deref (d_inode destdir);
  wdir ← deref (d_inode wd);
  err ← ovl_lock_rename_workdir wd destdir;
  if negb (err =? 0) then mret err else
  err ← (
    '(err, cc) ← ovl_prep_cu_creds (cu_dentry c);
    if negb (err =? 0) then mret err else
    temp ← ovl_create_temp wd
             (Cattr (st_rdev (cu_stat c)) (Z.land (st_mode (cu_stat c)) S_IFMT) (cu_link c) None);
    ovl_revert_cu_creds cc;;
    match temp with
    | PErr e => mret e
    | PNull => fault
    | PPtr temp =>
        err ← ovl_copy_up_inode c temp;
        err ← (if negb (err =? 0) then mret err
               else if S_ISDIR (st_mode (cu_stat c)) && cu_indexed c
               then lower ← deref (p_dentry (cu_lowerpath c)); ovl_create_index (cu_dentry c) lower temp
               else mret 0);
        err ← (if negb (err =? 0) then mret err else
               upper ← lookup_locked (cu_destname c) destdir;
               match upper with
               | PErr e => mret e
               | PNull => fault
               | PPtr upper => ovl_do_rename wdir temp udir upper 0
               end);
        if negb (err =? 0) then ovl_cleanup wdir temp;; mret err else
        publish c temp;;
        e ← dent (cu_dentry c);
        o ← inode_of (dn_inode e);
        (if S_ISDIR (i_mode (oi_vfs o)) then modify_inode (dn_inode e) (ovl_set_flag OVL_WHITEOUTS)
         else mret tt);;
        mret 0
    end);
  unlock_rename wd destdir;;
  mret err.

Definition ovl_copy_up_tmpfile (c : ovl_copy_up_ctx) : kernel W Z :=
  destdir ← deref (cu_destdir c);
  wd ← deref (cu_workdir c);
  udir ← deref (d_inode destdir);
  '(err, cc) ← ovl_prep_cu_creds (cu_dentry c);
  if negb (err =? 0) then mret err else
  temp ← ovl_do_tmpfile wd (st_mode (cu_stat c));
  ovl_revert_cu_creds cc;;
  match temp with
  | PErr e => mret e
  | PNull => fault
  | PPtr temp =>
      err ← ovl_copy_up_inode c temp;
      if negb (err =? 0) then mret err else
      inode_lock udir;;
      err ← (upper ← lookup_locked (cu_destname c) destdir;
             match upper with
             | PErr e => mret e
             | PNull => fault
             | PPtr upper => '(err, _) ← ovl_do_link temp udir upper; mret err
             end);
      inode_unlock udir;;
      if negb (err =? 0) then mret err else
      publish c temp;; mret 0
  end.

(** ** One dentry *)

Definition ovl_do_copy_up (c : ovl_copy_up_ctx) : kernel W Z :=
  v ← oview (cu_dentry c);
  ofs ← ask k_ofs;
  let is_dir := S_ISDIR (st_mode (cu_stat c)) in
  let indexed := ovl_need_index ofs v in
  let to_index := indexed && negb is_dir in
  idx ← ovl_indexdir_dentry indexdir;
  let wd := if indexed && is_dir then idx else cu_workdir c in
  let origin := is_dir || (st_nlink (cu_stat c) =? 1) || to_index in
  r ← (if to_index then
         lower ← deref (p_dentry (cu_lowerpath c));
         name ← asko (λ st, ovl_get_index_name (k_w st) lower);
         match name with
         | inl e => mret (inl e)
         | inr name => mret (inr (cu_target origin indexed idx name wd c))
         end
       else match cu_parent c with
            | None => mret (inl (- EIO))
            | Some parent =>
                destdir ← deref (cu_destdir c);
                err ← overlay_set_impure parent destdir;
                mret (if negb (err =? 0) then inl err
                      else inr (cu_target origin indexed (cu_destdir c) (cu_destname c) wd c))
            end);
  match r with
  | inl err => mret err
  | inr c =>
      err ← (if S_ISREG (st_mode (cu_stat c)) && fs_tmpfile ofs then ovl_copy_up_tmpfile c
             else ovl_copy_up_workdir c);
      if negb (err =? 0) then mret err else
      e ← dent (cu_dentry c);
      (if cu_indexed c then modify_inode (dn_inode e) (ovl_set_flag OVL_INDEX) else mret tt);;
      if to_index then overlay_set_nlink_upper (cu_dentry c)
      else
        destdir ← deref (cu_destdir c);
        udir ← deref (d_inode destdir);
        inode_lock udir;;
        ovl_set_timestamps destdir (cu_pstat c);;
        inode_unlock udir;;
        modify_entry (cu_dentry c) ovl_dentry_set_upper_alias;;
        mret 0
  end.

Definition ovl_need_meta_copy_up (ofs : ovl_fs) (mode flags : Z) : bool :=
  if negb (c_metacopy (fs_config ofs)) then false
  else if negb (S_ISREG mode) then false
  else if negb (flags =? 0) && (has_any (OPEN_FMODE flags) FMODE_WRITE || has_any flags O_TRUNC) then false
  else true.

Definition ovl_copy_up_meta_inode_data (c : ovl_copy_up_ctx) : kernel W Z :=
  v ← oview (cu_dentry c);
  match ovl_dentry_upper v, p_dentry (ovl_path_lowerdata v) with
  | Some upper, Some _ =>
      w ← ask k_w;
      let '(err, capability) :=
        if negb (st_size (cu_stat c) =? 0) then ovl_getxattr w upper XATTR_NAME_CAPS 0 else (0, None) in
      if (err <? 0) && negb (err =? - ENODATA) then mret err else
      let cap_size := err in
      let err := ovl_copy_up_data (st_size (cu_stat c)) in
      if negb (err =? 0) then mret err else
      err ← match capability with
            | Some cap => ovl_do_setxattr upper XATTR_NAME_CAPS (ztake cap_size cap) 0
            | None => mret 0
            end;
      if negb (err =? 0) then mret err else
      err ← ovl_do_removexattr upper OVL_XATTR_METACOPY;
      if negb (err =? 0) then mret err else
      modify_dinode (cu_dentry c) ovl_set_upperdata;; mret 0
  | _, _ => mret (- EIO)
  end.

Definition zero_stat : kstat := Kstat 0 0 0 0 0 no_attrs.

Definition ovl_copy_up_one (parent : option Z) (d flags : Z) : kernel W Z :=
  wd ← ovl_workdir workdir;
  if negb (bool_decide (is_Some wd)) then mret (- EROFS) else
  v ← oview d;
  ofs ← ask k_ofs;
  let lowerpath := ovl_path_lower v in
  lower ← deref (p_dentry lowerpath);
  '(err, stat) ← ask (λ st, vfs_getattr (k_w st) lowerpath STATX_BASIC_STATS);
  if negb (err =? 0) then mret err else
  let metacopy := ovl_need_meta_copy_up ofs (st_mode stat) flags in
  '(err, pstat, destdir) ←
    match parent with
    | Some parent =>
        pv ← oview parent;
        let parentpath := ovl_path_upper ofs pv in
        destdir ← deref (p_dentry parentpath);
        '(err, pstat) ← ask (λ st, vfs_getattr (k_w st) parentpath (Z.lor STATX_ATIME STATX_MTIME));
        mret (err, pstat, Some destdir)
    | None => mret (0, zero_stat, None)
    end;
  if negb (err =? 0) then mret err else
  let stat := if has_any flags O_TRUNC then set_st_size 0 stat else stat in
  link ← (if S_ISLNK (st_mode stat) then ask (λ st, vfs_get_link (k_w st) lower) else mret (PPtr ""));
  match link with
  | PErr e => mret e
  | PNull => fault
  | PPtr link =>
      let c := Ctx parent d lowerpath stat pstat link destdir (od_name v) wd false false metacopy in
      err ← ovl_copy_up_start d flags;
      if negb (err =? 0) then mret (if 0 <? err then 0 else err) else
      err ← (
        v ← oview d;
        err ← (if negb (bool_decide (is_Some (ovl_dentry_upper v))) then ovl_do_copy_up c else mret 0);
        v ← oview d;
        err ← (if (err =? 0) && bool_decide (is_Some parent) && negb (ovl_dentry_has_upper_alias (od_entry v))
               then ovl_link_up c else mret err);
        v ← oview d;
        if (err =? 0) && ovl_dentry_needs_data_copy_up_locked v flags
        then ovl_copy_up_meta_inode_data c else mret err);
      ovl_copy_up_end d;;
      mret err
  end.

(** ** A dentry and its parents *)

(** the topmost dentry not yet copied up, and its parent *)
Fixpoint find_topmost (fuel : nat) (next : Z) : kernel W (Z * Z) :=
  match fuel with
  | O => nofuel
  | S fuel =>
      e ← dent next;
      pv ← oview (dn_parent e);
      if bool_decide (is_Some (ovl_dentry_upper pv)) then mret (dn_parent e, next)
      else find_topmost fuel (dn_parent e)
  end.

Fixpoint copy_up_flags_loop (fuel : nat) (depth : nat) (d flags : Z) (is_disconnected : bool) : kernel W Z :=
  match fuel with
  | O => nofuel
  | S fuel =>
      v ← oview d;
      if ovl_already_copied_up v flags then mret 0 else
      '(parent, next) ← (if is_disconnected then mret (None, d)
                         else '(p, n) ← find_topmost depth d; mret (Some p, n));
      err ← ovl_copy_up_one parent next flags;
      if negb (err =? 0) then mret err
      else copy_up_flags_loop fuel depth d flags is_disconnected
  end.

Definition ovl_copy_up_flags (fuel depth : nat) (d flags : Z) : kernel W Z :=
  old_cred ← ovl_override_creds creator_cred;
  v ← oview d;
  if disconnected v && S_ISDIR (i_mode (oi_vfs (od_inode v))) then mret (- EIO) else
  err ← copy_up_flags_loop fuel depth d flags (disconnected v);
  revert_creds old_cred;;
  mret err.

Definition ovl_open_need_copy_up (v : odentry) (flags : Z) : bool :=
  if ovl_already_copied_up v flags then false
  else if special_file (i_mode (oi_vfs (od_inode v))) then false
  else if negb (ovl_open_flags_need_copy_up flags) then false
  else true.

Definition ovl_maybe_copy_up (fuel depth : nat) (d flags : Z) : kernel W Z :=
  v ← oview d;
  if ovl_open_need_copy_up v flags then
    err ← ovl_want_write;
    if negb (err =? 0) then mret err else
    err ← ovl_copy_up_flags fuel depth d flags;
    ovl_drop_write;;
    mret err
  else mret 0.

Definition ovl_copy_up_with_data (fuel depth : nat) (d : Z) : kernel W Z := ovl_copy_up_flags fuel depth d O_WRONLY.
Definition ovl_copy_up (fuel depth : nat) (d : Z) : kernel W Z := ovl_copy_up_flags fuel depth d 0.

End copy_up.
