(* ===== verification/WorkProps.v ===== *)
(** The steps of [Work] and the quiet parts of [CopyUp] return, whatever the
    kernel answers, as long as the directories they change are locked. *)

From Stdlib Require Import Ascii.
From S2P Require Import Prelude Types Util Under Nlink Fh FhProps Redirect RedirectProps Inode Block Lookup Kernel KernelProps Work CopyUp.
From stdpp Require Import gmap.
Local Open Scope Z_scope.

Create HintDb quiet.

(** Results that are not [NULL], and that are positive dentries. *)
Definition positive_ptr (r : eptr dentry) : Prop := valid_ptr r ∧ ∀ d, r = PPtr d → is_Some (d_inode d).

Lemma valid_ptr_err {A} e : e ≠ 0 → valid_ptr (@PErr A e).
Proof. intros He. split; [done|]. by intros ? [= <-]. Qed.
Lemma valid_ptr_ptr {A} (a : A) : valid_ptr (PPtr a).
Proof. done. Qed.
Lemma positive_err e : e ≠ 0 → positive_ptr (PErr e).
Proof. intros He. split; [by apply valid_ptr_err|done]. Qed.
#[export] Hint Resolve valid_ptr_err valid_ptr_ptr positive_err : quiet.
Definition any {A} (a : A) : Prop := True.

Section work.
Context {W : Type} `{Under W, !UnderLaws W, Kern W, !KernLaws W}.
Implicit Types (st : kst W).

Definition locked st (i : inode) : Prop := LInode (i_ptr i) ∈ h_locks (k_held st).

Lemma quietly_in_dir st0 dir {A} (f : W → A * W) (P : A → Prop) :
  locked st0 dir → (∀ w, P (f w).1) → quietly st0 (in_dir dir f) P.
Proof.
  intros Hl HP. unfold in_dir. eapply quietly_bind; [by apply quietly_need_lock|].
  intros _ _. by apply quietly_on_w.
Qed.

Lemma lookup_locked_quiet st0 n d i :
  d_inode d = Some i → locked st0 i → quietly st0 (lookup_locked n d) valid_ptr.
Proof.
  intros Hd Hl. unfold lookup_locked. rewrite Hd. eapply quietly_bind with (P := eq i); [by apply quietly_ret|].
  intros _ <-. apply quietly_in_dir; [done|]. intros w. apply law_lookup_one_len.
Qed.

Lemma notify_quiet st0 d i a : d_inode d = Some i → locked st0 i → quietly st0 (notify d a) any.
Proof.
  intros Hd Hl. unfold notify. rewrite Hd. eapply quietly_bind with (P := eq i); [by apply quietly_ret|].
  intros _ <-. by apply quietly_in_dir.
Qed.

Lemma rename_quiet st0 od o nd n f : locked st0 od → locked st0 nd → quietly st0 (ovl_do_rename od o nd n f) any.
Proof.
  intros Ho Hn. unfold ovl_do_rename. eapply quietly_bind; [by apply quietly_need_lock|].
  intros _ _. by apply quietly_in_dir.
Qed.

Lemma cleanup_quiet st0 dir d : locked st0 dir → quietly st0 (ovl_cleanup dir d) any.
Proof. intros Hl. unfold ovl_cleanup. case_match; by apply quietly_in_dir. Qed.

Lemma lookup_temp_quiet st0 wd i : d_inode wd = Some i → locked st0 i → quietly st0 (ovl_lookup_temp wd) valid_ptr.
Proof.
  intros Hd Hl. unfold ovl_lookup_temp.
  eapply quietly_bind; [apply quietly_get|]. intros s _.
  eapply quietly_bind; [apply quietly_temp_id|]. intros _ _.
  eapply quietly_bind; [by eapply lookup_locked_quiet|].
  intros [|e|t] [Hn Ht]; [done|by apply quietly_ret|].
  case_bool_decide; apply quietly_ret; auto with quiet.
Qed.

Lemma create_real_quiet st0 dir r a :
  locked st0 dir → valid_ptr r → quietly st0 (ovl_create_real dir r a) positive_ptr.
Proof.
  intros Hl [Hn Hr]. unfold ovl_create_real. destruct r as [|e|d]; [done| |].
  { apply quietly_ret, positive_err. by apply Hr. }
  case_bool_decide; [apply quietly_ret; by apply positive_err|].
  eapply quietly_bind with (P := any).
  - destruct (ca_hardlink a); [by apply quietly_in_dir|]. cbv zeta.
    case_match; [by apply quietly_in_dir|]. case_match;
      [|case_match; [by apply quietly_in_dir|case_match; [by apply quietly_in_dir|by apply quietly_ret]]].
    unfold ovl_mkdir_real. eapply quietly_bind with (P := any); [by apply quietly_in_dir|].
    intros [err d'] _. case_match; [by apply quietly_ret|].
    eapply quietly_bind with (P := any); [by apply quietly_ask|]. intros u _.
    case_match; [by apply quietly_ret|].
    eapply quietly_bind with (P := valid_ptr).
    + eapply quietly_bind with (P := any); [by apply quietly_ask|]. intros p _.
      apply quietly_in_dir; [done|]. intros w. apply law_lookup_one_len.
    + intros [|e|x] [Hx _]; [done|by apply quietly_ret..].
  - intros [err d'] _. cbv zeta. apply quietly_ret.
    case_bool_decide as Hp; cbn [negb].
    + rewrite andb_false_r. destruct (Z.eqb_spec err 0); [|by apply positive_err].
      split; [apply valid_ptr_ptr|]. by intros ? [= <-].
    + rewrite andb_true_r. destruct (Z.eqb_spec err 0); [by apply positive_err|].
      destruct (Z.eqb_spec err 0); [done|by apply positive_err].
Qed.

Lemma create_temp_quiet st0 wd i a :
  d_inode wd = Some i → locked st0 i → quietly st0 (ovl_create_temp wd a) positive_ptr.
Proof.
  intros Hd Hl. unfold ovl_create_temp. rewrite Hd. eapply quietly_bind with (P := eq i); [by apply quietly_ret|].
  intros _ <-. eapply quietly_bind; [by eapply lookup_temp_quiet|]. intros r Hr. by apply create_real_quiet.
Qed.

(** ** Copying xattrs and attributes *)

Lemma copy_value_S st fuel old name value :
  copy_value (S fuel) old name value st =
    let '(size, b) := vfs_getxattr (k_w st) old name (zlen value) in
    let v' := if (0 <? size) && (0 <? zlen value) then b ++ zdrop (zlen b) value else value in
    let size' := if size =? - ERANGE then (vfs_getxattr (k_w st) old name 0).1 else size in
    if size' <? 0 then Ret (inl size', st)
    else if zlen v' <? size' then
      if negb (kmalloc_ok (k_w st) size') then Ret (inl (- ENOMEM), st)
      else copy_value fuel old name (v' ++ replicate (Z.to_nat (size' - zlen v')) x00) st
    else Ret (inr (size', v'), st).
Proof.
  cbn [copy_value]. unfold ask, mbind, kernel_bind. cbv beta.
  destruct (vfs_getxattr _ _ _ _) as [size b]. cbv zeta. by repeat case_match.
Qed.

Lemma copy_value_fits st fuel old name value :
  (vfs_getxattr (k_w st) old name 0).1 ≤ zlen value → 0 < zlen value →
  ∃ r, copy_value (S fuel) old name value st = Ret (r, st).
Proof.
  intros Hfit Hv. rewrite copy_value_S.
  destruct (vfs_getxattr (k_w st) old name (zlen value)) as [size b] eqn:E.
  assert (0 ≤ size → zlen b = size ∧ size ≤ zlen value) as Hlaw by (intros; by eapply law_getxattr).
  cbv zeta. set (v' := if (0 <? size) && (0 <? zlen value) then b ++ zdrop (zlen b) value else value).
  assert (zlen v' = zlen value) as Hv'.
  { unfold v'. destruct (Z.ltb_spec 0 size); cbn [andb]; [|done]. case_match; [|done].
    destruct Hlaw; [lia|]. rewrite zlen_app, zlen_zdrop by apply zlen_nonneg. lia. }
  rewrite Hv'. set (size' := if size =? - ERANGE then (vfs_getxattr (k_w st) old name 0).1 else size).
  assert (size' ≤ zlen value) as Hs.
  { unfold size'. case_match; [done|]. destruct (Z.le_gt_cases 0 size); [by apply Hlaw|lia]. }
  case_match; [by eexists|]. destruct (Z.ltb_spec (zlen value) size'); [lia|]. by eexists.
Qed.

(** One retry is enough. *)
Lemma copy_value_returns st fuel old name value :
  ∃ r, copy_value (S (S fuel)) old name value st = Ret (r, st).
Proof.
  pose proof (zlen_nonneg value).
  destruct (Z.le_gt_cases (vfs_getxattr (k_w st) old name 0).1 (zlen value)) as [Hle|Hgt].
  { destruct (Z.eq_dec (zlen value) 0) as [E0|]; [|apply copy_value_fits; [done|lia]].
    rewrite E0 in Hle. rewrite copy_value_S, E0.
    destruct (vfs_getxattr (k_w st) old name 0) as [size b]. cbn [fst] in *. cbv zeta.
    replace (0 <? 0) with false by done. rewrite andb_false_r.
    assert ((if size =? - ERANGE then size else size) = size) as Hs by (by case_match).
    rewrite Hs, E0. destruct (Z.ltb_spec size 0); [by eexists|]. destruct (Z.ltb_spec 0 size); [lia|]. by eexists. }
  set (L := (vfs_getxattr (k_w st) old name 0).1) in *.
  rewrite copy_value_S.
  destruct (vfs_getxattr (k_w st) old name (zlen value)) as [size b] eqn:E.
  cbv zeta. set (v' := if (0 <? size) && (0 <? zlen value) then b ++ zdrop (zlen b) value else value). set (size' := if size =? - ERANGE then (vfs_getxattr (k_w st) old name 0).1 else size).
  assert (zlen v' = zlen value) as Hv'.
  { unfold v'. destruct (Z.ltb_spec 0 size); cbn [andb]; [|done].
    destruct (Z.ltb_spec 0 (zlen value)); [|done].
    destruct (law_getxattr _ _ _ _ _ _ E) as [Hb Hbs]; [lia|lia|].
    rewrite zlen_app, zlen_zdrop by apply zlen_nonneg. lia. }
  case_match eqn:Hneg; [by eexists|]. destruct (Z.ltb_spec (zlen v') size'); [|by eexists].
  case_match; [by eexists|].
  assert (size' = L) as HsL.
  { unfold size' in *. case_match; [done|].
    destruct (Z.eq_dec (zlen value) 0) as [E0|]; [rewrite E0 in E; unfold L; by rewrite E|].
    destruct (law_getxattr _ _ _ _ _ _ E) as [_ Hbs]; [lia|lia|]. lia. }
  apply (copy_value_fits st fuel); fold L; rewrite zlen_app; unfold zlen at 2;
    rewrite length_replicate; lia.
Qed.

Lemma slen_sdrop n s : String.length (sdrop n s) = (String.length s - n)%nat.
Proof. revert s. induction n as [|n IH]; intros [|c s]; cbn; [done..|]. apply IH. Qed.

Lemma copy_xattr_loop_quiet fuel : ∀ st0 old new s value e,
  (String.length s ≤ fuel)%nat → quietly st0 (copy_xattr_loop fuel old new s value e) any.
Proof.
  induction fuel as [|fuel IH]; intros st0 old new s value e Hs.
  { destruct s; [|cbn in Hs; lia]. by apply quietly_ret. }
  cbn [copy_xattr_loop]. case_match eqn:Hempty; [by apply quietly_ret|].
  cbv zeta. case_match eqn:Hlt; [by apply quietly_ret|].
  assert (String.length (sdrop (Z.to_nat (strlen (cstr s) + 1)) s) ≤ fuel)%nat as Hrest.
  { rewrite slen_sdrop. unfold strlen. destruct s; [done|]. cbn in *. lia. }
  case_match; [by apply IH|].
  eapply quietly_bind with (P := any).
  { intros st Hst. unfold wp. destruct (copy_value_returns st 1 old (cstr s) value) as [r ->]. by split. }
  intros [err|[size v]] _; [by apply quietly_ret|].
  eapply quietly_bind with (P := any); [by apply quietly_ask|]. intros error _.
  case_match; [by apply quietly_ret|]. case_match; [by apply IH|].
  eapply quietly_bind with (P := any); [by apply quietly_on_w|]. intros error' _.
  case_match; [by apply quietly_ret|by apply IH].
Qed.

Lemma copy_xattr_quiet st0 old new oi ni :
  d_inode old = Some oi → d_inode new = Some ni → quietly st0 (ovl_copy_xattr old new) any.
Proof.
  intros Ho Hn. unfold ovl_copy_xattr. rewrite Ho, Hn.
  eapply quietly_bind with (P := any); [by apply quietly_ret|]. intros ? _.
  eapply quietly_bind with (P := any); [by apply quietly_ret|]. intros ? _.
  case_match; [by apply quietly_ret|].
  eapply quietly_bind with (P := any); [by apply quietly_ask|]. intros w _. cbv zeta.
  destruct (_ <=? 0); [by apply quietly_ret|].
  destruct (kmalloc_ok w _); cbn [negb]; [|by apply quietly_ret].
  destruct (vfs_listxattr w old (vfs_listxattr w old 0).1) as [n buf]. destruct (n <=? 0); [by apply quietly_ret|].
  by apply copy_xattr_loop_quiet.
Qed.

Lemma set_attr_quiet st0 d i s : d_inode d = Some i → locked st0 i → quietly st0 (ovl_set_attr d s) any.
Proof.
  intros Hd Hl. unfold ovl_set_attr.
  eapply quietly_bind with (P := any); [case_match; [by eapply notify_quiet|by apply quietly_ret]|].
  intros e _. case_match; [by apply quietly_ret|].
  eapply quietly_bind with (P := any); [by eapply notify_quiet|]. intros e' _.
  case_match; [by apply quietly_ret|].
  eapply quietly_bind with (P := any); [by eapply notify_quiet|]. intros _ _. by apply quietly_ret.
Qed.

(** ** Xattrs the overlay stores *)

Lemma check_setxattr_ofs w ofs u n v x :
  ∃ e ofs' w', ovl_check_setxattr w ofs u n v x = (e, ofs', w') ∧ ofs_rel ofs ofs'.
Proof.
  unfold ovl_check_setxattr. destruct (fs_noxattr ofs); [by eexists _, _, _|].
  destruct (vfs_setxattr _ _ _ _ _). case_match; eexists _, _, _; (split; [done|]); [by right|by left].
Qed.

Lemma quietly_on_ofs st0 {A} (f : W → ovl_fs → outcome (A * ovl_fs * W)) (P : A → Prop) :
  (∀ w o, ∃ a o' w', f w o = Ret (a, o', w') ∧ ofs_rel o o' ∧ P a) → quietly st0 (on_ofs f) P.
Proof.
  intros HP st Hst. unfold wp, on_ofs.
  destruct (HP (k_w st) (k_ofs st)) as (a & o & w & -> & Ho & HPa). by split.
Qed.

Lemma set_origin_returns ex w ofs lower upper :
  ∃ e ofs' w', ovl_set_origin w ofs ex lower upper = Ret (e, ofs', w') ∧ ofs_rel ofs ofs' ∧ any e.
Proof.
  unfold ovl_set_origin.
  assert (∃ fh, (if negb (ovl_can_decode_fh ex =? 0) then ovl_encode_real_fh w lower false else Ret PNull) = Ret fh ∧
    ∀ b, fh = PPtr b → fh_len b = Ret (zlen b)) as (fh & -> & Hfh).
  { case_match; [|by eexists]. destruct (encode_ret w lower false) as (r & -> & _ & _ & Hr).
    eexists. split; [done|]. intros b ->. by destruct (Hr b eq_refl) as [[_ ?] _]. }
  cbn [mbind outcome_bind].
  destruct fh as [|e|b]; [|by eexists _, _, _|rewrite (Hfh b eq_refl); cbn [mbind outcome_bind];
    rewrite memread_all; cbn [mbind outcome_bind]];
  edestruct (check_setxattr_ofs w ofs upper OVL_XATTR_ORIGIN) as (e & o' & w' & -> & Ho); by eexists _, _, _.
Qed.

Lemma set_upper_fh_returns w upper index :
  ∃ e w', ovl_set_upper_fh w upper index = Ret (e, w') ∧ any e.
Proof.
  unfold ovl_set_upper_fh. destruct (encode_ret w upper true) as (r & -> & Hn & _ & Hr). cbn [mbind outcome_bind].
  destruct r as [|e|b]; [done|by eexists _, _|]. destruct (Hr b eq_refl) as [[_ Hl] _].
  rewrite Hl. cbn [mbind outcome_bind]. rewrite memread_all. cbn [mbind outcome_bind].
  destruct (vfs_setxattr _ _ _ _ _). by eexists _, _.
Qed.

End work.
