(* ===== verification/CopyUpSteps.v ===== *)
(** What the stages of a copy-up do to the overlay: attributes, index entries
    and the temporary object leave every upper dentry as it is, and the object
    is published by exactly one rename or link. *)

From Stdlib Require Import Ascii.
From S2P Require Import Prelude Types Util Under Nlink Fh FhProps Redirect RedirectProps Inode Block Lookup Kernel KernelProps Work CopyUp WorkProps.
From stdpp Require Import gmap.
Local Open Scope Z_scope.

(** ** Rules for single steps *)

Section rules.
Context {W : Type}.
Implicit Types (st : kst W).

Lemma wp_quiet {A B} st (m : kernel W A) (P : A → Prop) (f : A → kernel W B) Q :
  quietly st m P → (∀ a st', quiet st st' → P a → wp (f a) st' Q) → wp (m ≫= f) st Q.
Proof. intros Hm Hf. eapply wp_seq; [by apply Hm|]. naive_solver. Qed.

Lemma wp_oview {B} st d v (f : odentry → kernel W B) Q :
  view (k_dents st) (k_inodes st) d = Some v → wp (f v) st Q → wp (oview d ≫= f) st Q.
Proof. intros Hv. unfold wp, mbind, kernel_bind, oview. by rewrite Hv. Qed.
Lemma wp_dent {B} st d e (f : odent → kernel W B) Q :
  k_dents st !! d = Some e → wp (f e) st Q → wp (dent d ≫= f) st Q.
Proof. intros Hv. unfold wp, mbind, kernel_bind, dent. by rewrite Hv. Qed.
Lemma wp_inode {B} st i o (f : ovl_inode → kernel W B) Q :
  k_inodes st !! i = Some o → wp (f o) st Q → wp (inode_of i ≫= f) st Q.
Proof. intros Hv. unfold wp, mbind, kernel_bind, inode_of. by rewrite Hv. Qed.
Lemma wp_ask {A B} st (g : kst W → A) (f : A → kernel W B) Q :
  wp (f (g st)) st Q → wp (ask g ≫= f) st Q.
Proof. done. Qed.
Lemma wp_get {B} st (f : kst W → kernel W B) Q : wp (f st) st Q → wp (get ≫= f) st Q.
Proof. done. Qed.
Lemma wp_mret {A B} st (a : A) (f : A → kernel W B) Q : wp (f a) st Q → wp (mret a ≫= f) st Q.
Proof. done. Qed.
Lemma wp_deref_bind {A B} st (p : option A) a (f : A → kernel W B) Q :
  p = Some a → wp (f a) st Q → wp (deref p ≫= f) st Q.
Proof. by intros ->. Qed.
Lemma wp_assoc {A B C} st (m : kernel W A) (f : A → kernel W B) (g : B → kernel W C) Q :
  wp (m ≫= λ a, f a ≫= g) st Q → wp ((m ≫= f) ≫= g) st Q.
Proof. unfold wp, mbind, kernel_bind. by destruct (m st) as [[a st']| |]. Qed.

(** No inode got an upper dentry. *)
Definition same_uppers st st' : Prop :=
  ∀ i, oi_upper <$> k_inodes st' !! i = oi_upper <$> k_inodes st !! i.
#[export] Instance same_uppers_preorder : PreOrder same_uppers.
Proof. split; [by intros st i|]. intros a b c H1 H2 i. by rewrite H2. Qed.

Definition prepares st st' : Prop := evolves st st' ∧ same_uppers st st'.
#[export] Instance prepares_preorder : PreOrder prepares.
Proof. split; [by split|]. intros a b c [] []. split; by etrans. Qed.

Lemma quiet_prepares st st' : quiet st st' → prepares st st'.
Proof. intros Hq. split; [by apply quiet_evolves|]. intros i. by rewrite (q_inodes _ _ Hq). Qed.
Lemma prepares_evolves st st' : prepares st st' → evolves st st'.
Proof. by intros []. Qed.

Lemma prepares_modify st i o o' :
  k_inodes st !! i = Some o → inode_grows (ovl_indexdir (k_ofs st)) o o' → oi_upper o' = oi_upper o →
  prepares st (set_k_inodes (<[i := o']> (k_inodes st)) st).
Proof.
  intros Ho Hg Hu. split; [split; [by apply grows_modify_inode with o|done]|].
  intros j. cbn. destruct (decide (i = j)) as [->|]; [|by rewrite lookup_insert_ne].
  rewrite lookup_insert_eq, Ho. cbn. by rewrite Hu.
Qed.

(** What the inode and the dentry have become. *)
Lemma evolves_dent st st' d e :
  evolves st st' → k_dents st !! d = Some e → ∃ e', k_dents st' !! d = Some e' ∧ dent_grows e e'.
Proof. intros [Hg _]. by apply grows_dent. Qed.
Lemma evolves_inode st st' i o :
  evolves st st' → k_inodes st !! i = Some o → ∃ o', k_inodes st' !! i = Some o' ∧ inode_grows (ovl_indexdir (k_ofs st)) o o'.
Proof. intros [Hg _]. by apply grows_inode. Qed.
Lemma evolves_view st st' d v :
  evolves st st' → view (k_dents st) (k_inodes st) d = Some v →
  ∃ v', view (k_dents st') (k_inodes st') d = Some v' ∧ view_grows (ovl_indexdir (k_ofs st)) v v'.
Proof. intros [Hg _]. by apply grows_view. Qed.
Lemma prepares_inode st st' i o :
  prepares st st' → k_inodes st !! i = Some o →
  ∃ o', k_inodes st' !! i = Some o' ∧ inode_grows (ovl_indexdir (k_ofs st)) o o' ∧ oi_upper o' = oi_upper o.
Proof.
  intros [He Hu] Ho. destruct (evolves_inode _ _ _ _ He Ho) as (o' & Ho' & Hg). exists o'.
  split_and!; [done..|]. specialize (Hu i). rewrite Ho, Ho' in Hu. by injection Hu.
Qed.

(** A body under a lock, as a relation between the states outside. *)
Lemma grows_outside st l st' :
  evolves (set_k_held (with_locks l (k_held st)) st) st' → evolves st (set_k_held (k_held st) st').
Proof.
  intros [Hg Hh]. split; [|done]. etrans; [apply (grows_held st)|]. etrans; [exact Hg|]. apply grows_held.
Qed.
Lemma prepares_outside st l st' :
  prepares (set_k_held (with_locks l (k_held st)) st) st' → prepares st (set_k_held (k_held st) st').
Proof. intros [He Hu]. split; [by eapply grows_outside|]. intros i. by apply Hu. Qed.

(** [inode_lock; m; inode_unlock]. *)
Lemma wp_inode_locked {A B} i (m : kernel W A) (k : A → kernel W B) st (R : A → kst W → Prop) Q :
  wp m (set_k_held (with_locks (LInode (i_ptr i) :: h_locks (k_held st)) (k_held st)) st)
    (λ a st', evolves (set_k_held (with_locks (LInode (i_ptr i) :: h_locks (k_held st)) (k_held st)) st) st' ∧ R a st') →
  (∀ a st', evolves (set_k_held (with_locks (LInode (i_ptr i) :: h_locks (k_held st)) (k_held st)) st) st' →
     R a st' → wp (k a) (set_k_held (k_held st) st') Q) →
  wp (inode_lock i;; a ← m; inode_unlock i;; k a) st Q.
Proof.
  intros Hm Hk. apply wp_locked. eapply wp_mono; [exact Hm|]. intros a st' [He HR].
  split; [by destruct He|]. by apply Hk.
Qed.

End rules.

(** ** The stages *)

Section stages.
Context {W : Type} `{Under W, !UnderLaws W, Kern W, !KernLaws W}.
Context (indexdir : dentry) (export_op : Z → option (bool * bool)).
Implicit Types (st : kst W).

Lemma set_impure_step st d e o u :
  k_dents st !! d = Some e → k_inodes st !! dn_inode e = Some o →
  wp (overlay_set_impure d u) st (λ _ st', prepares st st').
Proof.
  intros He Ho. unfold overlay_set_impure. eapply wp_dent; [done|]. eapply wp_inode; [done|]. apply wp_get.
  assert (∃ err w' ofs' o', ovl_set_impure (LkState (k_w st) (k_ofs st) o) u = (err, LkState w' ofs' o') ∧
    ofs_rel (k_ofs st) ofs' ∧ inode_grows (ovl_indexdir (k_ofs st)) o o' ∧ oi_upper o' = oi_upper o) as (err & w' & ofs' & o' & -> & Hofs & Hg & Hu).
  { unfold ovl_set_impure. cbn [lk_parent lk_w lk_ofs].
    destruct (ovl_test_flag OVL_IMPURE o); [by eexists _, _, _, _|].
    destruct (check_setxattr_ofs (k_w st) (k_ofs st) u OVL_XATTR_IMPURE (bytes_of "y") 0)
      as (err & ofs' & w' & -> & Hofs).
    eexists _, _, _, _. split_and!; [done|done|case_match; [by apply set_flag_grows|done]|by case_match]. }
  apply wp_bind. change (wp (modify_inode (dn_inode e) (λ _, o');; mret err)
    (set_k_ofs ofs' (set_k_w w' st)) (λ _ st', prepares st st')).
  apply wp_bind. eapply wp_modify_inode; [exact Ho|]. apply wp_ret.
  etrans; [|apply (prepares_modify _ _ o); [done| |done]]; [apply quiet_prepares; by split|].
  cbn. by rewrite (ofs_rel_indexdir _ _ Hofs).
Qed.

Lemma set_nlink_upper_quiet st d v u :
  view (k_dents st) (k_inodes st) d = Some v → ovl_dentry_upper v = Some u → is_Some (d_inode u) →
  quietly st (overlay_set_nlink_upper d) any.
Proof.
  intros Hv Hu [i Hi]. unfold overlay_set_nlink_upper.
  eapply quietly_bind; [by apply quietly_oview|]. intros ? ->.
  eapply quietly_bind with (P := eq u); [by eapply quietly_deref|]. intros ? <-.
  apply quietly_on_wo. intros w. unfold ovl_set_nlink_upper.
  assert (d_inode (dentry_now w u) = Some (inode_now w i)) as -> by (cbn; by rewrite Hi).
  destruct (ovl_set_nlink_common _ _ _ _ _). by eexists _, _.
Qed.

Lemma set_nlink_lower_quiet st d v u l :
  view (k_dents st) (k_inodes st) d = Some v → ovl_dentry_upper v = Some u →
  ovl_dentry_lower v = Some l → is_Some (d_inode l) →
  quietly st (overlay_set_nlink_lower d) any.
Proof.
  intros Hv Hu Hl [i Hi]. unfold overlay_set_nlink_lower.
  eapply quietly_bind; [by apply quietly_oview|]. intros ? ->.
  eapply quietly_bind with (P := eq u); [by eapply quietly_deref|]. intros ? <-.
  eapply quietly_bind with (P := eq l); [by eapply quietly_deref|]. intros ? <-.
  apply quietly_on_wo. intros w. unfold ovl_set_nlink_lower.
  assert (d_inode (dentry_now w l) = Some (inode_now w i)) as -> by (cbn; by rewrite Hi).
  destruct (ovl_set_nlink_common _ _ _ _ _). by eexists _, _.
Qed.

Lemma index_name_quiet st0 origin : quietly st0 (asko (λ st, ovl_get_index_name (k_w st) origin)) any.
Proof.
  apply quietly_asko. intros st _. destruct (index_name_ret (k_w st) origin) as [r ->]. by eexists.
Qed.

Lemma create_index_quiet st d v origin upper i :
  view (k_dents st) (k_inodes st) d = Some v → ovl_indexdir (k_ofs st) = true →
  d_inode indexdir = Some i → locked st i →
  quietly st (ovl_create_index indexdir d origin upper) any.
Proof.
  intros Hv Hidx Hi Hl. unfold ovl_create_index.
  eapply quietly_bind with (P := eq (Some indexdir)).
  { apply quietly_ask. intros st' Hq. unfold ovl_indexdir.
    destruct (q_ofs _ _ Hq) as [-> | ->]; unfold ovl_indexdir in Hidx; cbn; by rewrite Hidx. }
  intros ? <-. eapply quietly_bind with (P := eq indexdir); [by apply quietly_ret|]. intros ? <-.
  rewrite Hi. eapply quietly_bind with (P := eq i); [by apply quietly_ret|]. intros ? <-.
  eapply quietly_bind; [by apply quietly_oview|]. intros ? ->.
  case_match; [by apply quietly_ret|]. case_match; [by apply quietly_ret|].
  eapply quietly_bind; [apply index_name_quiet|]. intros [e|name] _; [by apply quietly_ret|].
  eapply quietly_bind; [by eapply create_temp_quiet|]. intros [|e|temp] [[Ht _] _]; [done|by apply quietly_ret|].
  eapply quietly_bind with (P := any); [apply quietly_on_wo; intros w; apply set_upper_fh_returns|]. intros err _.
  eapply quietly_bind with (P := any).
  - case_match; [by apply quietly_ret|].
    eapply quietly_bind; [by eapply lookup_locked_quiet|]. intros [|e|index] [Hx _]; [done|by apply quietly_ret|].
    by apply rename_quiet.
  - intros err' _. case_match; [|by apply quietly_ret].
    eapply quietly_bind with (P := any); [by apply cleanup_quiet|]. intros _ _. by apply quietly_ret.
Qed.

Lemma init_blocks_step st c e o :
  k_dents st !! cu_dentry c = Some e → k_inodes st !! dn_inode e = Some o →
  wp (init_blocks c) st (λ _ st', prepares st st').
Proof.
  intros He Ho. unfold init_blocks. case_match; [|by apply wp_ret].
  eapply wp_dent; [done|]. eapply wp_inode; [done|]. apply wp_ask. cbv zeta.
  destruct (copy_up_init_blocks _ _ _) as [err b]. apply wp_bind.
  eapply wp_modify_inode; [done|]. apply wp_ret. apply (prepares_modify _ _ o); [done| |done].
  split; try done; [intros u ?| |]; by left.
Qed.

Lemma copy_up_inode_step st c temp e o lower li ti :
  k_dents st !! cu_dentry c = Some e → k_inodes st !! dn_inode e = Some o →
  p_dentry (cu_lowerpath c) = Some lower → d_inode lower = Some li → d_inode temp = Some ti →
  wp (ovl_copy_up_inode export_op c temp) st (λ _ st', prepares st st').
Proof.
  intros He Ho Hl Hli Hti. unfold ovl_copy_up_inode.
  eapply wp_seq; [by eapply init_blocks_step|]. intros err st1 Q1.
  case_match; [by apply wp_ret|]. rewrite Hl. apply wp_mret.
  eapply wp_mono with (Q := λ _ st', prepares st1 st'); [|intros ? ? ?; etrans; [exact Q1|done]].
  eapply wp_quiet; [by eapply copy_xattr_quiet|]. intros err1 st2 Q2 _.
  case_match; [apply wp_ret; by apply quiet_prepares|].
  eapply wp_quiet with (P := any); [destruct (cu_origin c);
    [apply quietly_on_ofs; intros; apply set_origin_returns|by apply quietly_ret]|]. intros err2 st3 Q3 _.
  case_match; [apply wp_ret, quiet_prepares; by etrans|].
  eapply wp_quiet with (P := any); [destruct (cu_metacopy c); [|by apply quietly_ret]|].
  { apply quietly_on_ofs. intros w ofs. edestruct (check_setxattr_ofs w ofs temp OVL_XATTR_METACOPY) as (x & o' & w' & -> & Hofs).
    by eexists _, _, _. }
  intros err3 st4 Q4 _. case_match; [apply wp_ret, quiet_prepares; by rewrite Q2, Q3|].
  rewrite Hti. apply wp_mret.
  assert (quiet st1 st4) as Q14 by (by rewrite Q2, Q3).
  apply wp_bind, wp_lock.
  eapply wp_quiet with (P := any).
  { destruct (cu_metacopy c); [|by apply quietly_ret]. eapply notify_quiet; [done|]. by left. }
  intros err4 st5 Q5 _.
  eapply wp_quiet with (P := any).
  { case_match; [by apply quietly_ret|]. eapply set_attr_quiet; [done|].
    unfold locked. rewrite (q_held _ _ Q5). by left. }
  intros err5 st6 Q6 _. apply wp_bind.
  assert (quiet (set_k_held (with_locks (LInode (i_ptr ti) :: h_locks (k_held st4)) (k_held st4)) st4) st6)
    as Q46 by (by etrans).
  eapply wp_unlock; [rewrite (q_held _ _ Q46); apply unlock1_head|]. apply wp_ret.
  etrans; [by apply quiet_prepares|].
  replace (set_k_held _ st6) with (set_k_held (k_held st4) st6)
    by (rewrite (q_held _ _ Q46); by destruct (k_held st4)).
  eapply prepares_outside. by apply quiet_prepares.
Qed.

End stages.

(** ** Credentials and the two directories of a rename *)

Section publish.
Context {W : Type} `{Under W, !UnderLaws W, Kern W, !KernLaws W}.
Implicit Types (st : kst W).

Lemma wp_cu_creds {A} st d (m : kernel W A) (P : A → Prop) (f : A → kernel W Z) Q :
  (∀ h w, h_locks h = h_locks (k_held st) → quietly (set_k_held h (set_k_w w st)) m P) →
  (∀ err st', quiet st st' → err ≠ 0 → Q err st') →
  (∀ a st', quiet st st' → P a → wp (f a) st' Q) →
  wp ('(err, cc) ← ovl_prep_cu_creds d;
      if negb (err =? 0) then mret err else a ← m; ovl_revert_cu_creds cc;; f a) st Q.
Proof.
  intros Hm Herr Hf. unfold ovl_prep_cu_creds. apply wp_assoc, wp_bind, wp_on_w. intros [err new] w _.
  case_match eqn:Hneg.
  { apply wp_mret. destruct (Z.eqb_spec err 0); [lia|]. apply wp_ret. apply Herr; [by split|done]. }
  case_match.
  - apply wp_assoc. apply wp_bind. unfold wp at 1. unfold override_creds. apply wp_mret.
    change (negb (0 =? 0)) with false. cbn [negb].
    set (st1 := set_k_held _ _).
    eapply wp_quiet; [by apply (Hm (Held new (h_locks (k_held st)) (h_write (k_held st))) w)|].
    intros a st' Hq HP. apply wp_bind. unfold ovl_revert_cu_creds, revert_creds, modify, wp at 1.
    apply Hf; [|done]. destruct Hq as [q1 q2 q3 q4]. split; [done..|]. cbn. rewrite q4. cbn. by destruct (k_held st).
  - apply wp_mret. change (negb (0 =? 0)) with false.
    eapply wp_quiet; [apply (Hm (k_held st) w); done|]. intros a st' Hq HP. apply wp_mret.
    apply Hf; [|done]. destruct Hq as [q1 q2 q3 q4]. by split.
Qed.

Definition rename_locks (wi di : inode) (ls : list lock) : list lock :=
  LInode (i_ptr di) :: LInode (i_ptr wi) :: LRename :: ls.

Lemma unlock_rename_step st wd dd wi di ls Q :
  d_inode wd = Some wi → d_inode dd = Some di → d_ptr wd ≠ d_ptr dd →
  h_locks (k_held st) = rename_locks wi di ls →
  Q tt (set_k_held (with_locks ls (k_held st)) st) → wp (unlock_rename wd dd) st Q.
Proof.
  intros Hwd Hdd Hne Hls HQ. unfold unlock_rename. rewrite Hwd, Hdd. apply wp_mret, wp_mret. apply wp_bind.
  destruct (Z.eqb_spec (d_ptr wd) (d_ptr dd)); [done|].
  assert (unlock1 (LInode (i_ptr wi)) (rename_locks wi di ls) = Some (LInode (i_ptr di) :: LRename :: ls)) as E1.
  { unfold rename_locks. cbn. destruct (decide _) as [E|]; [by injection E as ->|]. by rewrite decide_True. }
  eapply wp_unlock; [by rewrite Hls|]. apply wp_bind. eapply wp_unlock; [cbn; by rewrite decide_True|].
  eapply wp_unlock; [cbn; by rewrite decide_True|]. cbn. done.
Qed.

Lemma lock_workdir_step st wd dd wi di :
  d_inode wd = Some wi → d_inode dd = Some di →
  wp (ovl_lock_rename_workdir wd dd) st (λ r st',
    (r = - EIO ∧ quiet st st') ∨
    (r = 0 ∧ d_ptr wd ≠ d_ptr dd ∧
     st' = set_k_held (with_locks (rename_locks wi di (h_locks (k_held st))) (k_held st)) st)).
Proof.
  intros Hwd Hdd. unfold ovl_lock_rename_workdir, lock_rename.
  destruct (Z.eqb_spec (d_ptr wd) (d_ptr dd)); [by apply wp_ret; left|].
  rewrite Hwd, Hdd. apply wp_assoc, wp_mret, wp_assoc, wp_mret.
  apply wp_assoc, wp_bind, wp_lock. apply wp_assoc, wp_bind, wp_lock. apply wp_assoc, wp_bind, wp_lock.
  apply wp_ask. destruct (rename_trap _ _ _); [|apply wp_ret; by right].
  apply wp_bind. eapply unlock_rename_step; [done..|by cbn|]. apply wp_ret. left. split; [done|].
  split; [done..|]. cbn. by destruct (k_held st).
Qed.

(** ** Publishing the copy *)

(** The inode of [e] has an upper dentry, and its data unless [metacopy]. *)
Definition published st (ip : Z) (metacopy : bool) : Prop :=
  ∃ o, k_inodes st !! ip = Some o ∧ is_Some (oi_upper o) ∧
    (metacopy = false → ovl_test_flag OVL_UPPERDATA o = true).

Lemma published_grows st st' ip m : grows st st' → published st ip m → published st' ip m.
Proof.
  intros Hg (o & Ho & [u Hu] & Hd). destruct (grows_inode _ _ _ _ Hg Ho) as (o' & Ho' & Hog).
  exists o'. split_and!; [done|exists u; by apply (ig_upper Hog)|]. intros Hm. by apply (ig_flags Hog), Hd.
Qed.

Lemma published_whiteouts st ip m o :
  published st ip m → k_inodes st !! ip = Some o →
  published (set_k_inodes (<[ip := ovl_set_flag OVL_WHITEOUTS o]> (k_inodes st)) st) ip m.
Proof.
  intros (o' & Ho' & Hu & Hd) Ho. simplify_eq. eexists. cbn. rewrite lookup_insert_eq. split_and!; [done|exact Hu|].
  intros Hm. apply (flag_keep OVL_WHITEOUTS OVL_UPPERDATA). by apply Hd.
Qed.

Lemma publish_step st c temp e o :
  k_dents st !! cu_dentry c = Some e → k_inodes st !! dn_inode e = Some o → oi_upper o = None →
  is_Some (d_inode temp) →
  wp (publish c temp) st (λ _ st', evolves st st' ∧ published st' (dn_inode e) (cu_metacopy c)).
Proof.
  intros He Ho Hu [ti Hti]. unfold publish. eapply wp_dent; [done|].
  set (o1 := if negb (cu_metacopy c) then ovl_set_upperdata o else o).
  assert (inode_grows (ovl_indexdir (k_ofs st)) o o1 ∧ oi_upper o1 = None) as [Hg1 Hu1]
    by (unfold o1; case_match; [split; [by apply set_flag_grows|done]|done]).
  assert (wp (if negb (cu_metacopy c) then modify_inode (dn_inode e) ovl_set_upperdata else mret tt) st
    (λ _ st', evolves st st' ∧ k_inodes st' !! dn_inode e = Some o1)) as Hdata.
  { unfold o1. case_match; [|by apply wp_ret]. eapply wp_modify_inode; [done|].
    split; [|by cbn; rewrite lookup_insert_eq]. split; [|done].
    apply grows_modify_inode with o; [done|by apply set_flag_grows]. }
  eapply wp_seq; [exact Hdata|]. intros _ st1 [Hev Ho1]. apply wp_ask.
  unfold wp, modify_inodeo. rewrite Ho1. unfold ovl_inode_update. rewrite Hti.
  set (o2 := if _ && _ then _ else _).
  assert (oi_upper o2 = Some temp ∧ oi_flags o2 = oi_flags o1 ∧ oi_lower o2 = oi_lower o1) as (Hu2 & Hf2 & Hl2) by (unfold o2; by destruct (inode_unhashed _ _ && _)).
  assert (inode_grows (ovl_indexdir (k_ofs st1)) o1 o2) as Hg2.
  { split; [done|by rewrite Hu1| | |unfold ovl_test_flag; rewrite Hf2; by left..].
    - intros u. rewrite Hu2. intros [= <-]. right. by exists ti.
    - intros f. unfold ovl_test_flag. by rewrite Hf2. }
  split.
  - etrans; [exact Hev|]. split; [|done]. by apply grows_modify_inode with o1.
  - exists o2. cbn. rewrite lookup_insert_eq. split_and!; [done|by rewrite Hu2|].
    intros Hm. unfold ovl_test_flag. rewrite Hf2. change (ovl_test_flag OVL_UPPERDATA o1 = true).
    unfold o1. rewrite Hm. apply flag_set.
Qed.

End publish.
