(* ===== verification/CopyUpStages.v ===== *)
(** The stages of the copy-up of one dentry: the copy through the work
    directory or through an unnamed file, the additional hard link, the data of
    a metacopy file.  Each returns, gives back what it takes, publishes the
    object on success and leaves every upper dentry as it is on failure. *)

From Stdlib Require Import Ascii.
From S2P Require Import Prelude Types Util Under Nlink Fh FhProps Redirect RedirectProps Inode Block Lookup Kernel KernelProps Work CopyUp WorkProps CopyUpSteps.
From stdpp Require Import gmap.
Local Open Scope Z_scope.

Section copy_up.
Context {W : Type} `{Under W, !UnderLaws W, Kern W, !KernLaws W}.
Context (indexdir : dentry) (export_op : Z → option (bool * bool)).
Implicit Types (st : kst W).

(** ** One object *)

(** The dentry and its lower object, before a copy-up. *)
Record to_copy st (c : ovl_copy_up_ctx) (e : odent) (o : ovl_inode) : Prop := {
  tc_dent : k_dents st !! cu_dentry c = Some e;
  tc_inode : k_inodes st !! dn_inode e = Some o;
  tc_upper : oi_upper o = None;
  tc_stack : oe_lowerstack (dn_entry e) ≠ [] → is_Some (oi_lower o);
  tc_lower : ∃ l, p_dentry (cu_lowerpath c) = Some l ∧ is_Some (d_inode l);
}.

Lemma to_copy_prepares st st' c e o :
  to_copy st c e o → prepares st st' → ∃ e' o', to_copy st' c e' o' ∧ dn_inode e' = dn_inode e.
Proof.
  intros [He Ho Hu Hs Hl] Hp. destruct (evolves_dent _ _ _ _ (proj1 Hp) He) as (e' & He' & Hde).
  destruct (prepares_inode _ _ _ _ Hp Ho) as (o' & Ho' & Hg & Hu').
  exists e', o'. split; [|apply (dg_inode _ _ Hde)].
  split; [done|by rewrite (dg_inode _ _ Hde)|congruence| |done].
  by rewrite (eg_stack _ _ (dg_entry _ _ Hde)), (ig_lower Hg).
Qed.

(** The result of a copy-up stage that publishes the object on success. *)
Definition publishes st (ip : Z) (metacopy : bool) (r : Z) st' : Prop :=
  evolves st st' ∧ (r ≠ 0 → same_uppers st st') ∧ (r = 0 → published st' ip metacopy).

Lemma publishes_fails st ip m r st' : prepares st st' → r ≠ 0 → publishes st ip m r st'.
Proof. intros [He Hu] Hr. by split_and!. Qed.

Lemma publishes_from st st1 ip m r st' : prepares st st1 → publishes st1 ip m r st' → publishes st ip m r st'.
Proof.
  intros [He Hu] (He' & Hu' & Hp). split_and!; [by etrans| |done]. intros Hr. etrans; [exact Hu|by apply Hu'].
Qed.

Lemma publish_last st c e o temp :
  to_copy st c e o → is_Some (d_inode temp) →
  wp (publish c temp) st (λ _ st', publishes st (dn_inode e) (cu_metacopy c) 0 st').
Proof.
  intros [He Ho Hu Hs Hl] Ht. eapply wp_mono; [by eapply publish_step|].
  intros _ st' [Hev Hp]. by split_and!.
Qed.

Lemma evolves_locked st st' i : evolves st st' → locked st i → locked st' i.
Proof. intros [_ Hh]. unfold locked. by rewrite Hh. Qed.

(** From a temporary object, in the work directory, to the visible copy. *)
Lemma install_step st c e o destdir udir wdir temp ti :
  to_copy st c e o → d_inode temp = Some ti → d_inode destdir = Some udir →
  locked st udir → locked st wdir →
  (cu_indexed c = true → S_ISDIR (st_mode (cu_stat c)) = true →
   ovl_indexdir (k_ofs st) = true ∧ d_inode indexdir = Some wdir) →
  wp (err ← ovl_copy_up_inode export_op c temp;
      err ← (if negb (err =? 0) then mret err
             else if S_ISDIR (st_mode (cu_stat c)) && cu_indexed c
             then lower ← deref (p_dentry (cu_lowerpath c)); ovl_create_index indexdir (cu_dentry c) lower temp
             else mret 0);
      err ← (if negb (err =? 0) then mret err else
             upper ← lookup_locked (cu_destname c) destdir;
             match upper with
             | PErr e => mret e
             | PNull => fault
             | PPtr upper => ovl_do_rename wdir temp udir upper 0
             end);
      if negb (err =? 0) then ovl_cleanup wdir temp;; mret err else
      publish c temp;;
      e ← dent (cu_dentry c);
      o ← inode_of (dn_inode e);
      (if S_ISDIR (i_mode (oi_vfs o)) then modify_inode (dn_inode e) (ovl_set_flag OVL_WHITEOUTS)
       else mret tt);;
      mret 0) st (publishes st (dn_inode e) (cu_metacopy c)).
Proof.
  intros Htc Hti Hdi Hlu Hlw Hidx. destruct (tc_lower _ _ _ _ Htc) as (l & Hl & [li Hli]).
  eapply wp_seq; [by eapply copy_up_inode_step; [apply Htc..|done|done|done]|]. intros err st1 Hp1. cbn beta in Hp1.
  eapply wp_mono; [|intros r st'; apply publishes_from; exact Hp1].
  destruct (to_copy_prepares _ _ _ _ _ Htc Hp1) as (e1 & o1 & Htc1 & He1).
  pose proof (evolves_locked _ _ _ (proj1 Hp1) Hlu) as Hlu1.
  pose proof (evolves_locked _ _ _ (proj1 Hp1) Hlw) as Hlw1.
  eapply wp_quiet with (P := any).
  { case_match; [by apply quietly_ret|]. case_match eqn:Hd; [|by apply quietly_ret].
    apply andb_true_iff in Hd as [Hd Hi]. destruct (Hidx Hi Hd) as [Hix Hiw].
    eapply quietly_bind with (P := any); [by eapply quietly_deref|]. intros lo _.
    eapply create_index_quiet; [|by rewrite (ofs_rel_indexdir _ _ (gr_ofs _ _ (proj1 (proj1 Hp1))))|exact Hiw|exact Hlw1].
    unfold view. rewrite (tc_dent _ _ _ _ Htc1). cbn. by rewrite (tc_inode _ _ _ _ Htc1). }
  intros err2 st2 Hq2 _. eapply wp_mono; [|intros r st'; apply publishes_from; by apply quiet_prepares].
  pose proof (evolves_locked _ _ _ (quiet_evolves _ _ Hq2) Hlu1) as Hlu2.
  pose proof (evolves_locked _ _ _ (quiet_evolves _ _ Hq2) Hlw1) as Hlw2.
  eapply wp_quiet with (P := any).
  { case_match; [by apply quietly_ret|]. eapply quietly_bind; [by eapply lookup_locked_quiet|].
    intros [|x|x] [Hx _]; [done|by apply quietly_ret|by apply rename_quiet]. }
  intros err3 st3 Hq3 _. eapply wp_mono; [|intros r st'; apply publishes_from; by apply quiet_prepares].
  destruct (Z.eqb_spec err3 0) as [->|Herr]; cbn [negb].
  - destruct (to_copy_prepares _ st3 _ _ _ Htc1) as (e3 & o3 & Htc3 & He3);
      [apply quiet_prepares; etrans; [exact Hq2|done]|].
    eapply wp_seq; [eapply publish_last; [done|by exists ti]|]. intros _ st4 (Hev & _ & Hpub).
    destruct (evolves_dent _ _ _ _ Hev (tc_dent _ _ _ _ Htc3)) as (e4 & He4 & Hde4).
    eapply wp_dent; [exact He4|]. destruct (Hpub eq_refl) as (o4 & Ho4 & Hu4 & Hf4).
    rewrite (dg_inode _ _ Hde4). eapply wp_inode; [exact Ho4|].
    assert (published st4 (dn_inode e) (cu_metacopy c)) as Hpub4 by (rewrite <- He1, <- He3; by apply Hpub).
    eapply wp_seq with (R := λ _ st', evolves st3 st' ∧ published st' (dn_inode e) (cu_metacopy c)).
    { case_match; [|by apply wp_ret]. eapply wp_modify_inode; [done|]. split.
      - split; [|apply Hev]. eapply grows_set_whiteouts; [apply Hev|apply Htc3|apply Htc3|done].
      - rewrite <- He1, <- He3. apply published_whiteouts; [by apply Hpub|done]. }
    intros _ st5 [Hev5 Hpub5]. apply wp_ret. by split_and!.
  - eapply wp_quiet with (P := any); 
      [apply cleanup_quiet; eapply evolves_locked; [by apply quiet_evolves|exact Hlw2]|]. intros _ st4 Hq4 _.
    apply wp_ret. apply publishes_fails; [by apply quiet_prepares|done].
Qed.

Lemma copy_up_workdir_step st c e o destdir wd udir wdir :
  to_copy st c e o →
  cu_destdir c = Some destdir → d_inode destdir = Some udir →
  cu_workdir c = Some wd → d_inode wd = Some wdir →
  (cu_indexed c = true → S_ISDIR (st_mode (cu_stat c)) = true → ovl_indexdir (k_ofs st) = true ∧ wd = indexdir) →
  wp (ovl_copy_up_workdir indexdir export_op c) st (publishes st (dn_inode e) (cu_metacopy c)).
Proof.
  intros Htc Hdd Hdi Hwd Hwi Hidx. unfold ovl_copy_up_workdir.
  rewrite Hdd, Hwd. apply wp_mret, wp_mret. rewrite Hdi, Hwi. apply wp_mret, wp_mret.
  eapply wp_seq; [by apply lock_workdir_step|]. intros r st1 [[-> Hq]|(-> & Hne & ->)].
  { apply wp_ret. apply publishes_fails; [by apply quiet_prepares|done]. }
  cbn [Z.eqb negb]. set (st1 := set_k_held _ st).
  assert (grows st st1) as Hg1 by apply grows_held.
  assert (to_copy st1 c e o) as Htc1 by (by destruct Htc).
  assert (LInode (i_ptr wdir) ∈ h_locks (k_held st1) ∧ LInode (i_ptr udir) ∈ h_locks (k_held st1)) as [Hlw Hlu].
  { cbn. unfold rename_locks. split; [right; by left|by left]. }
  eapply wp_seq with (R := publishes st1 (dn_inode e) (cu_metacopy c)).
  - eapply wp_cu_creds with (P := positive_ptr).
    + intros h w Hh. eapply create_temp_quiet; [done|]. unfold locked. cbn. by rewrite Hh.
    + intros err st2 Hq Herr. by apply publishes_fails; [apply quiet_prepares|].
    + intros [|err|temp] st2 Hq [[Hnn Herr] Hpos]; [done| |].
      { apply wp_ret, publishes_fails; [by apply quiet_prepares|by apply Herr]. }
      destruct (Hpos temp eq_refl) as [ti Hti].
      destruct (to_copy_prepares _ st2 _ _ _ Htc1) as (e2 & o2 & Htc2 & He2); [by apply quiet_prepares|].
      eapply wp_mono; [|intros r st'; apply publishes_from; by apply quiet_prepares].
      rewrite <- He2. eapply install_step; [done..| | |].
      * eapply evolves_locked; [by apply quiet_evolves|exact Hlu].
      * eapply evolves_locked; [by apply quiet_evolves|exact Hlw].
      * intros Hi Hd. destruct (Hidx Hi Hd) as [Hix ->]. split; [|done].
        by rewrite (ofs_rel_indexdir _ _ (q_ofs _ _ Hq)).
  - intros r st2 (Hev & Hu & Hp). apply wp_bind.
    eapply unlock_rename_step; [done..| |].
    { destruct Hev as [_ ->]. cbn. done. }
    apply wp_ret.
    replace (with_locks _ (k_held st2)) with (k_held st)
      by (destruct Hev as [_ ->]; cbn; by destruct (k_held st)).
    split_and!.
    + by eapply grows_outside.
    + intros Hr i. by apply (Hu Hr).
    + intros Hr. by apply Hp.
Qed.

(** From a temporary file without a name to the visible copy. *)
Lemma link_temp_step st c e o destdir udir temp ti :
  to_copy st c e o → d_inode temp = Some ti → d_inode destdir = Some udir →
  wp (err ← ovl_copy_up_inode export_op c temp;
      if negb (err =? 0) then mret err else
      inode_lock udir;;
      err ← (upper ← lookup_locked (cu_destname c) destdir;
             match upper with
             | PErr e => mret e
             | PNull => fault
             | PPtr upper => '(err, _) ← ovl_do_link temp udir upper; mret err
             end);
      inode_unlock udir;;
      if negb (err =? 0) then mret err else
      publish c temp;; mret 0) st (publishes st (dn_inode e) (cu_metacopy c)).
Proof.
  intros Htc Hti Hdi.
  destruct (tc_lower _ _ _ _ Htc) as (l & Hl & [li Hli]).
  eapply wp_seq; [by eapply copy_up_inode_step; [apply Htc..|done|done|done]|]. intros err st1 Hp1. cbn beta in Hp1.
  eapply wp_mono; [|intros r st'; apply publishes_from; exact Hp1].
  destruct (to_copy_prepares _ _ _ _ _ Htc Hp1) as (e1 & o1 & Htc1 & <-).
  destruct (Z.eqb_spec err 0) as [->|]; cbn [negb]; [|by apply wp_ret, publishes_fails].
  eapply wp_inode_locked with (R := λ _ st', quiet
    (set_k_held (with_locks (LInode (i_ptr udir) :: h_locks (k_held st1)) (k_held st1)) st1) st').
  + eapply wp_quiet; [eapply lookup_locked_quiet; [done|by left]|].
    intros [|x|x] st2 Hq2 [Hx _]; [done|apply wp_ret; by split; [apply quiet_evolves|]|].
    eapply quietly_wp with (P := any); [|intros ? st3 Hq3 _].
    * eapply quietly_bind with (P := any); [|intros [? ?] _; by apply quietly_ret].
      apply quietly_in_dir; [|done]. unfold locked. rewrite (q_held _ _ Hq2). by left.
    * split; [apply quiet_evolves|]; by etrans.
  + intros err2 st2 Hev Hq2. apply quiet_prepares, prepares_outside in Hq2.
    destruct (Z.eqb_spec err2 0) as [->|]; cbn [negb]; [|by apply wp_ret, publishes_fails].
    eapply wp_mono; [|intros r st'; apply publishes_from; exact Hq2].
    destruct (to_copy_prepares _ _ _ _ _ Htc1 Hq2) as (e2 & o2 & Htc2 & <-).
    eapply wp_seq; [eapply publish_last; [done|by exists ti]|]. intros ? st3 Hpub. by apply wp_ret.
Qed.

Lemma copy_up_tmpfile_step st c e o destdir wd udir :
  to_copy st c e o →
  cu_destdir c = Some destdir → d_inode destdir = Some udir → cu_workdir c = Some wd →
  wp (ovl_copy_up_tmpfile export_op c) st (publishes st (dn_inode e) (cu_metacopy c)).
Proof.
  intros Htc Hdd Hdi Hwd. unfold ovl_copy_up_tmpfile.
  rewrite Hdd, Hwd. apply wp_mret, wp_mret. rewrite Hdi. apply wp_mret.
  eapply wp_cu_creds with (P := positive_ptr).
  - intros h w _. apply quietly_on_w. intros w'. split; [apply law_tmpfile|apply law_tmpfile_positive].
  - intros err st2 Hq Herr. by apply publishes_fails; [apply quiet_prepares|].
  - intros [|err|temp] st2 Hq [[Hnn Herr] Hpos]; [done| |].
    { apply wp_ret, publishes_fails; [by apply quiet_prepares|by apply Herr]. }
    destruct (Hpos temp eq_refl) as [ti Hti].
    destruct (to_copy_prepares _ st2 _ _ _ Htc) as (e2 & o2 & Htc2 & He2); [by apply quiet_prepares|].
    eapply wp_mono; [|intros r st'; apply publishes_from; by apply quiet_prepares].
    rewrite <- He2. by eapply link_temp_step.
Qed.

(** ** One dentry *)

Lemma index_name_err_quiet st0 origin :
  quietly st0 (asko (λ st, ovl_get_index_name (k_w st) origin)) (λ r, ∀ e, r = inl e → e ≠ 0).
Proof.
  apply quietly_asko. intros st _. unfold ovl_get_index_name.
  destruct (encode_ret (k_w st) origin false) as (r & -> & Hn & He & Hr). cbn [mbind outcome_bind].
  destruct r as [|e|fh]; [done| |].
  { eexists. split; [done|]. intros ? [= <-]. specialize (He e eq_refl). lia. }
  destruct (Hr fh eq_refl) as ([_ Hl] & _). unfold ovl_get_index_name_fh.
  rewrite Hl. cbn [mbind outcome_bind]. case_match; [eexists; split; [done|by intros ? [= <-]]|].
  rewrite memread_all. eexists. by split.
Qed.

(** The parent's real directory in the upper layer. *)
Definition parent_ok st (c : ovl_copy_up_ctx) : Prop :=
  ∀ p, cu_parent c = Some p → (∀ e, k_dents st !! cu_dentry c = Some e → dn_parent e = p) ∧ ∃ pe po dd, k_dents st !! p = Some pe ∧ k_inodes st !! dn_inode pe = Some po ∧
    oi_upper po = Some dd ∧ cu_destdir c = Some dd ∧ is_Some (d_inode dd).

Lemma parent_ok_upper st c e p :
  parent_ok st c → cu_parent c = Some p → k_dents st !! cu_dentry c = Some e → has_upper st (dn_parent e).
Proof.
  intros Hpar Hp He. destruct (Hpar p Hp) as (Hpp & pe & po & dd & Hpe & Hpo & Hu & _). rewrite (Hpp e He).
  exists (ODentry p (dn_name pe) (dn_flags pe) po (dn_entry pe)). split; [|by exists dd].
  unfold view_at, view. rewrite Hpe. cbn. by rewrite Hpo.
Qed.

Lemma do_copy_up_step st c e o wd :
  to_copy st c e o → parent_ok st c → is_Some (d_inode indexdir) →
  cu_workdir c = Some wd → is_Some (d_inode wd) →
  wp (ovl_do_copy_up indexdir export_op c) st
    (λ r st', evolves st st' ∧ (r = 0 → published st' (dn_inode e) (cu_metacopy c))).
Proof.
  intros Htc Hpar [ii Hii] Hwd [wi Hwi]. unfold ovl_do_copy_up.
  set (v := ODentry (cu_dentry c) (dn_name e) (dn_flags e) o (dn_entry e)).
  eapply wp_oview with (v := v).
  { unfold view. rewrite (tc_dent _ _ _ _ Htc). cbn. by rewrite (tc_inode _ _ _ _ Htc). }
  apply wp_ask. cbv zeta. set (is_dir := S_ISDIR _). set (indexed := ovl_need_index _ v).
  apply wp_ask. set (idx := if ovl_indexdir _ then _ else _).
  assert (indexed = true → idx = Some indexdir ∧ ovl_indexdir (k_ofs st) = true) as Hidx.
  { unfold indexed, ovl_need_index, idx. destruct (ovl_dentry_lower v); [|done].
    by destruct (ovl_indexdir (k_ofs st)). }
  set (wd' := if indexed && is_dir then idx else _).
  assert (∃ x xi, wd' = Some x ∧ d_inode x = Some xi ∧ (indexed = true → is_dir = true → x = indexdir)) as (x & xi & Hx & Hxi & Hxd).
  { unfold wd'. destruct indexed, is_dir; cbn [andb]; try (by exists wd, wi).
    destruct Hidx as [-> _]; [done|]. by exists indexdir, ii. }
  eapply wp_seq with (R := λ r st1, prepares st st1 ∧ match r with
    | inl err => err ≠ 0
    | inr c' => ∃ origin dd name, c' = cu_target origin indexed (Some dd) name wd' c ∧ is_Some (d_inode dd) ∧
      (indexed && negb is_dir = false → has_upper st (dn_parent e)) end).
  { destruct (indexed && negb is_dir) eqn:Ht.
    - apply andb_true_iff in Ht as [Hi _]. destruct (Hidx Hi) as [-> _].
      destruct (tc_lower _ _ _ _ Htc) as (l & Hl & _). rewrite Hl. apply wp_mret.
      eapply wp_quiet; [apply index_name_err_quiet|]. intros r st1 Hq Hr. apply quiet_prepares in Hq.
      destruct r as [err|name]; apply wp_ret; (split; [done|]); [by apply Hr|].
      eexists _, _, _. split; [done|]. by split; [exists ii|].
    - destruct (cu_parent c) as [p|] eqn:Hp; [|by apply wp_ret].
      destruct (Hpar p Hp) as (Hpp & pe & po & dd & Hpe & Hpo & Hu & Hdd & Hpos). rewrite Hdd. apply wp_mret.
      eapply wp_seq; [by eapply set_impure_step|]. intros err st1 Hp1. apply wp_ret. split; [done|].
      destruct (Z.eqb_spec err 0); cbn [negb]; [|done]. eexists _, _, _. split_and!; [done..|]. intros _.
      by eapply parent_ok_upper; [..|apply Htc]. }
  intros [err|c'] st1 [Hp1 Hc]; [by apply wp_ret; split; [apply Hp1|]|].
  destruct Hc as (origin & dd & name & -> & [di Hdi] & Hupp). set (c' := cu_target _ _ _ _ _ _).
  destruct (to_copy_prepares _ _ _ _ _ Htc Hp1) as (e1 & o1 & Htc1 & He1).
  assert (to_copy st1 c' e1 o1) as Htc' by (by destruct Htc1).
  eapply wp_seq with (R := publishes st1 (dn_inode e1) (cu_metacopy c)).
  { case_match.
    - by eapply (copy_up_tmpfile_step st1 c').
    - eapply (copy_up_workdir_step st1 c'); [done|done|exact Hdi|exact Hx|exact Hxi|].
      intros Hi Hd. split; [|by apply Hxd]. rewrite (ofs_rel_indexdir _ _ (gr_ofs _ _ (proj1 (proj1 Hp1)))).
      by apply Hidx. }
  intros err st2 (Hev2 & _ & Hpub2).
  assert (evolves st st2) as Hev by (etrans; [apply Hp1|done]).
  destruct (Z.eqb_spec err 0) as [->|]; cbn [negb]; [|by apply wp_ret].
  specialize (Hpub2 eq_refl). rewrite He1 in Hpub2.
  destruct (evolves_dent _ _ _ _ Hev (tc_dent _ _ _ _ Htc)) as (e2 & He2 & Hde2).
  eapply wp_dent; [exact He2|]. destruct Hpub2 as (o2 & Ho2 & [u2 Hu2] & Hf2).
  eapply wp_seq with (R := λ _ st', evolves st2 st' ∧ is_Some (k_inodes st' !! dn_inode e)).
  { rewrite (dg_inode _ _ Hde2). case_match; [|by apply wp_ret]. eapply wp_modify_inode; [done|].
    split; [|cbn; rewrite lookup_insert_eq; by eexists]. split; [|done].
    apply grows_modify_inode with o2; [done|]. apply set_flag_grows; [intros _|done].
    split_and!; [|by exists u2|rewrite (ofs_rel_indexdir _ _ (gr_ofs _ _ (proj1 Hev))); by apply Hidx].
    destruct (evolves_inode _ _ _ _ Hev (tc_inode _ _ _ _ Htc)) as (o2' & Ho2' & Hg2). simplify_eq.
    rewrite (ig_lower Hg2). apply (tc_stack _ _ _ _ Htc). intros Hnil.
    assert (indexed = true) as Hi by done. unfold indexed, ovl_need_index, ovl_dentry_lower, numlower in Hi.
    cbn in Hi. by rewrite Hnil in Hi. }
  intros _ st3 [Hev3 _].
  assert (published st3 (dn_inode e) (cu_metacopy c)) as Hpub3
    by (eapply published_grows; [apply Hev3|]; by exists o2).
  destruct (indexed && negb is_dir) eqn:Htoi.
  - destruct (evolves_inode _ _ _ _ Hev3 Ho2) as (o3 & Ho3 & Hg3).
    destruct (evolves_dent _ _ _ _ Hev3 He2) as (e3 & He3 & Hde3).
    eapply quietly_wp.
    + eapply (set_nlink_upper_quiet st3 (cu_dentry c) (ODentry (cu_dentry c) (dn_name e3) (dn_flags e3) o3 (dn_entry e3)));
        [|by apply (ig_upper Hg3)|].
      { unfold view. cbn. rewrite He3. cbn. by rewrite (dg_inode _ _ Hde3), (dg_inode _ _ Hde2), Ho3. }
      destruct (evolves_inode _ _ _ _ Hev (tc_inode _ _ _ _ Htc)) as (o2' & Ho2' & Hg2).
      simplify_eq. destruct (ig_new Hg2 u2 Hu2) as [Hold|]; [|done].
      by rewrite (tc_upper _ _ _ _ Htc) in Hold.
    + intros r st4 Hq4 _. split; [etrans; [exact Hev|]; etrans; [exact Hev3|by apply quiet_evolves]|].
      intros _. eapply published_grows; [apply (quiet_evolves _ _ Hq4)|done].
  - apply wp_mret. rewrite Hdi. apply wp_mret.
    eapply wp_inode_locked with (R := λ _ _, True).
    + eapply quietly_wp with (P := any); [eapply notify_quiet; [done|by left]|]. intros _ st4 Hq4 _.
      by split; [apply quiet_evolves|].
    + intros _ st4 Hev4 _. apply grows_outside in Hev4.
      set (st4' := set_k_held (k_held st3) st4) in *.
      assert (evolves st2 st4') as Hev24 by (by etrans).
      destruct (evolves_dent _ _ _ _ Hev24 He2) as (e4 & He4 & Hde4).
      apply wp_bind. eapply wp_modify_entry; [exact He4|]. apply wp_ret.
      assert (has_upper st4' (dn_parent e4)) as Hup4.
      { rewrite (dg_parent _ _ Hde4), (dg_parent _ _ Hde2). eapply has_upper_grows; [|by apply Hupp].
        etrans; [apply Hev|apply Hev24]. }
      assert (evolves st4' (set_k_dents (<[cu_dentry c:=set_dn_entry (ovl_dentry_set_upper_alias (dn_entry e4)) e4]>
        (k_dents st4')) st4')) as Hev5
        by (split; [apply grows_modify_entry; [done|apply alias_grows|by right]|done]).
      split; [etrans; [exact Hev|]; etrans; [exact Hev24|exact Hev5]|].
      intros _. eapply published_grows; [|exact Hpub3]. etrans; [apply Hev4|apply Hev5].
Qed.

End copy_up.

Section more.
Context {W : Type} `{Under W, !UnderLaws W, Kern W, !KernLaws W}.
Implicit Types (st : kst W).

(** Another name of an inode that has an upper dentry. *)
Definition has_alias st d : Prop :=
  ∃ e, k_dents st !! d = Some e ∧ ovl_dentry_has_upper_alias (dn_entry e) = true.

Lemma has_alias_grows st st' d : grows st st' → has_alias st d → has_alias st' d.
Proof.
  intros Hg (e & He & Ha). destruct (grows_dent _ _ _ _ Hg He) as (e' & He' & Hde).
  exists e'. split; [done|]. by apply (eg_flags _ _ (dg_entry _ _ Hde) OVL_E_UPPER_ALIAS).
Qed.

(** Facts about the dentry that every stage keeps. *)
Record copied st (d : Z) (e : odent) (o : ovl_inode) : Prop := {
  cp_dent : k_dents st !! d = Some e;
  cp_inode : k_inodes st !! dn_inode e = Some o;
  cp_upper : ∃ u, oi_upper o = Some u ∧ is_Some (d_inode u);
  cp_lower : ∃ p l, oe_lowerstack (dn_entry e) = p :: l ∧ is_Some (d_inode (op_dentry p));
}.
Lemma copied_evolves st st' d e o :
  copied st d e o → evolves st st' → ∃ e' o', copied st' d e' o' ∧ dn_inode e' = dn_inode e ∧ inode_grows (ovl_indexdir (k_ofs st)) o o'.
Proof.
  intros [He Ho (u & Hu & Hpos) Hl] Hev. destruct (evolves_dent _ _ _ _ Hev He) as (e' & He' & Hde).
  destruct (evolves_inode _ _ _ _ Hev Ho) as (o' & Ho' & Hg).
  exists e', o'. split; [|split; [apply (dg_inode _ _ Hde)|done]].
  split; [done|by rewrite (dg_inode _ _ Hde)|exists u; split; [by apply (ig_upper Hg)|done]|].
  by rewrite (eg_stack _ _ (dg_entry _ _ Hde)).
Qed.
Lemma view_of st d e o :
  k_dents st !! d = Some e → k_inodes st !! dn_inode e = Some o →
  view (k_dents st) (k_inodes st) d = Some (ODentry d (dn_name e) (dn_flags e) o (dn_entry e)).
Proof. intros He Ho. unfold view. rewrite He. cbn. by rewrite Ho. Qed.
Lemma lower_of d e o p l :
  oe_lowerstack (dn_entry e) = p :: l →
  ovl_dentry_lower (ODentry d (dn_name e) (dn_flags e) o (dn_entry e)) = Some (op_dentry p).
Proof.
  intros E. unfold ovl_dentry_lower, numlower, lowerstack_at. cbn. rewrite E. unfold zlen. cbn [length].
  destruct (Z.eqb_spec (Z.of_nat (S (length l))) 0); [lia|]. done.
Qed.

Lemma link_up_step st c e o :
  copied st (cu_dentry c) e o → is_Some (cu_parent c) → parent_ok st c →
  wp (ovl_link_up c) st (λ r st', evolves st st' ∧ (r = 0 → has_alias st' (cu_dentry c))).
Proof.
  intros Hc [p Hp] Hpar. pose proof (parent_ok_upper _ _ _ _ Hpar Hp (cp_dent _ _ _ _ Hc)) as Hup.
  destruct (Hpar p Hp) as (Hpp & pe & po & dd & Hpe & Hpo & Hu & _ & [di Hdi]).
  unfold ovl_link_up. rewrite Hp. apply wp_mret.
  eapply wp_oview; [by apply view_of|]. eapply wp_deref_bind; [exact Hu|]. rewrite Hdi. apply wp_mret.
  eapply wp_seq; [by eapply set_impure_step|]. intros err st1 [Hev1 _].
  destruct (Z.eqb_spec err 0) as [->|]; cbn [negb]; [|by apply wp_ret].
  destruct (copied_evolves _ _ _ _ _ Hc Hev1) as (e1 & o1 & Hc1 & _ & _).
  destruct (evolves_dent _ _ _ _ Hev1 (cp_dent _ _ _ _ Hc)) as (e1' & He1' & Hde1).
  rewrite (cp_dent _ _ _ _ Hc1) in He1'. injection He1' as <-.
  destruct (cp_upper _ _ _ _ Hc1) as (u & Hu1 & Hupos). destruct (cp_lower _ _ _ _ Hc1) as (lp & ll & Hl1 & Hlpos).
  eapply wp_quiet.
  { eapply set_nlink_lower_quiet; [apply view_of; [apply Hc1|apply Hc1]|exact Hu1|by eapply lower_of|done]. }
  intros err2 st2 Hq2 _. pose proof (quiet_evolves _ _ Hq2) as Hev2.
  destruct (Z.eqb_spec err2 0) as [->|]; cbn [negb]; [|apply wp_ret; split; [by etrans|done]].
  assert (evolves st st2) as Hev02 by (by etrans).
  set (ls := LInode (i_ptr di) :: h_locks (k_held st2)).
  eapply wp_inode_locked with (R := λ r st', r = 0 → has_alias st' (cu_dentry c)).
  - fold ls. set (st2l := set_k_held _ st2).
    assert (grows st2 st2l) as Hg2 by apply grows_held.
    destruct (grows_dent _ _ _ _ (proj1 Hev2) (cp_dent _ _ _ _ Hc1)) as (e2 & He2 & Hde2).
    eapply wp_dent; [exact He2|].
    eapply wp_quiet; [eapply lookup_locked_quiet; [done|by left]|].
    intros [|x|x] st3 Hq3 [Hx Hx0]; [done|apply wp_ret; split; [by apply quiet_evolves|by intros ->; destruct (Hx0 0)]|].
    destruct (evolves_inode _ _ _ _ Hev2 (cp_inode _ _ _ _ Hc1)) as (o2 & Ho2 & Hg).
    assert (quiet st2l st3) as Hq3' by done.
    eapply wp_oview with (v := ODentry (cu_dentry c) (dn_name e2) (dn_flags e2) o2 (dn_entry e2)).
    { apply view_of; [by rewrite (q_dents _ _ Hq3)|by rewrite (q_inodes _ _ Hq3), (dg_inode _ _ Hde2)]. }
    eapply wp_deref_bind; [exact (ig_upper Hg u Hu1)|].
    eapply wp_quiet with (P := any).
    { apply quietly_in_dir; [|done]. unfold locked. rewrite (q_held _ _ Hq3). by left. }
    intros [err4 y] st4 Hq4 _.
    destruct (Z.eqb_spec err4 0) as [->|]; cbn [negb];
      [|apply wp_ret; split; [apply quiet_evolves; by etrans|done]].
    eapply wp_quiet with (P := any).
    { eapply notify_quiet; [done|]. unfold locked. rewrite (q_held _ _ Hq4), (q_held _ _ Hq3). by left. }
    intros _ st5 Hq5 _. assert (quiet st2l st5) as Hq25 by (etrans; [exact Hq3|]; by etrans).
    apply wp_bind. eapply wp_modify_entry; [by rewrite (q_dents _ _ Hq25)|]. apply wp_ret.
    split.
    + etrans; [by apply quiet_evolves|]. split; [|done]. apply grows_modify_entry; [by rewrite (q_dents _ _ Hq25)|apply alias_grows|right].
      rewrite (dg_parent _ _ Hde2), (dg_parent _ _ Hde1). eapply has_upper_grows; [|exact Hup].
      etrans; [|apply (quiet_evolves _ _ Hq25)]. etrans; [apply Hev02|apply grows_held].
    + intros _. eexists. cbn. rewrite lookup_insert_eq. split; [done|]. apply alias_set.
  - intros r st3 Hev3 Ha. apply grows_outside in Hev3. set (st3' := set_k_held _ st3) in *.
    assert (evolves st st3') as Hev03 by (etrans; [exact Hev02|done]).
    destruct (Z.eqb_spec r 0) as [->|]; cbn [negb]; [|by apply wp_ret].
    destruct (copied_evolves _ _ _ _ _ Hc Hev03) as (e3 & o3 & Hc3 & _ & _).
    destruct (cp_upper _ _ _ _ Hc3) as (u3 & Hu3 & Hupos3).
    eapply quietly_wp.
    { eapply set_nlink_upper_quiet; [apply view_of; [apply Hc3|apply Hc3]|exact Hu3|done]. }
    intros r4 st4 Hq4 _. split; [etrans; [exact Hev03|by apply quiet_evolves]|].
    intros _. eapply has_alias_grows; [apply (quiet_evolves _ _ Hq4)|]. by apply (Ha eq_refl).
Qed.

Lemma meta_data_step st c e o :
  copied st (cu_dentry c) e o →
  wp (ovl_copy_up_meta_inode_data c) st
    (λ r st', evolves st st' ∧ (r = 0 → published st' (dn_inode e) false)).
Proof.
  intros Hc. unfold ovl_copy_up_meta_inode_data.
  eapply wp_oview; [apply view_of; [apply Hc|apply Hc]|].
  destruct (cp_upper _ _ _ _ Hc) as (u & Hu & _). set (v := ODentry _ _ _ _ _).
  assert (ovl_dentry_upper v = Some u) as -> by exact Hu.
  destruct (p_dentry _); [|by apply wp_ret]. apply wp_ask.
  destruct (if negb (st_size (cu_stat c) =? 0) then _ else _) as [err cap].
  destruct (_ && _) eqn:Eerr.
  { apply wp_ret. split; [done|]. intros ->. cbn in Eerr. done. }
  unfold ovl_copy_up_data. destruct (st_size (cu_stat c) =? 0); cbn [negb Z.eqb].
  all: eapply wp_quiet with (P := any); [destruct cap; [by apply quietly_on_w|by apply quietly_ret]|].
  all: intros err2 st2 Hq2 _; destruct (Z.eqb_spec err2 0) as [->|]; cbn [negb];
    [|apply wp_ret; split; [by apply quiet_evolves|done]].
  all: eapply wp_quiet with (P := any); [by apply quietly_on_w|].
  all: intros err3 st3 Hq3 _; assert (quiet st st3) as Hq by (by etrans);
    destruct (Z.eqb_spec err3 0) as [->|]; cbn [negb]; [|apply wp_ret; split; [by apply quiet_evolves|done]].
  all: apply wp_bind; unfold modify_dinode; eapply wp_dent; [rewrite (q_dents _ _ Hq); apply Hc|];
    eapply wp_modify_inode; [rewrite (q_inodes _ _ Hq); apply Hc|]; apply wp_ret.
  all: split; [etrans; [by apply quiet_evolves|]; split; [|done];
      apply grows_modify_inode with o; [rewrite (q_inodes _ _ Hq); apply Hc|by apply set_flag_grows]|].
  all: intros _; exists (ovl_set_upperdata o); split; [apply lookup_insert_eq|];
    split; [by exists u|intros _; apply flag_set].
Qed.

End more.
