(* ===== verification/CopyUpProps.v ===== *)
(** Copy-up of a dentry and of its parents: it returns whatever the kernel
    answers, gives back every lock and the credentials it took, and after
    success the dentry is copied up. *)

From Stdlib Require Import Ascii.
From S2P Require Import Prelude Types Util Under Nlink Fh FhProps Redirect RedirectProps Inode InodeProps Block Lookup Kernel KernelProps Work CopyUp WorkProps CopyUpSteps CopyUpStages.
From stdpp Require Import gmap.
Local Open Scope Z_scope.

Section one.
Context {W : Type} `{Under W, !UnderLaws W, Kern W, !KernLaws W}.
Context (workdir indexdir : dentry) (export_op : Z → option (bool * bool)).
Implicit Types (st : kst W).


Lemma copy_up_start_step st d flags e o :
  k_dents st !! d = Some e → k_inodes st !! dn_inode e = Some o →
  let v := ODentry d (dn_name e) (dn_flags e) o (dn_entry e) in
  wp (ovl_copy_up_start d flags) st (λ r st',
    (r ≠ 0 ∧ quiet st st' ∧ (0 < r → ovl_already_copied_up_locked v flags = true)) ∨
    (r = 0 ∧ ∃ w, st' = set_k_held (with_locks (LOvl (dn_inode e) :: h_locks (k_held st)) (k_held st)) (set_k_w w st))).
Proof.
  intros He Ho v. unfold ovl_copy_up_start. eapply wp_dent; [done|]. unfold ovl_inode_lock.
  apply wp_assoc, wp_bind, wp_on_w. intros err w Ew.
  pose proof (law_mutex (k_w st) (dn_inode e)) as Hm. rewrite Ew in Hm. cbn in Hm.
  destruct (Z.eqb_spec err 0) as [->|Herr]; cbn [negb].
  - apply wp_assoc, wp_bind, wp_lock. apply wp_mret. cbn [Z.eqb negb].
    eapply wp_oview; [by apply view_of|]. fold v. destruct (ovl_already_copied_up_locked v flags) eqn:Ea.
    + apply wp_bind. eapply wp_unlock; [apply unlock1_head|]. apply wp_ret. left. split_and!; [done| |done].
      split; [done..|]. cbn. by destruct (k_held st).
    + apply wp_ret. right. split; [done|]. by exists w.
  - apply wp_mret. destruct (Z.eqb_spec err 0); [done|]. apply wp_ret. left. split_and!; [done|by split|lia].
Qed.

(** After a copy-up the checks under the lock succeed. *)
Lemma already_locked v flags :
  is_Some (ovl_dentry_upper v) → ovl_dentry_has_upper_alias (od_entry v) = true ∨ disconnected v = true →
  ovl_dentry_needs_data_copy_up_locked v flags = false →
  ovl_already_copied_up_locked v flags = true.
Proof.
  intros Hu Ha Hd. unfold ovl_already_copied_up_locked. rewrite bool_decide_true, Hd by done.
  by destruct Ha as [-> | ->]; rewrite ?orb_true_r.
Qed.

Lemma lowerpath_of v p l :
  oe_lowerstack (od_entry v) = p :: l → p_dentry (ovl_path_lower v) = Some (op_dentry p).
Proof.
  intros E. unfold ovl_path_lower, numlower, lowerstack_at. rewrite E. unfold zlen. cbn [length].
  destruct (Z.eqb_spec (Z.of_nat (S (length l))) 0); [lia|]. done.
Qed.

(** The part of ovl_copy_up_one under the overlay inode's lock. *)
Lemma copy_up_locked_step st c e o p l flags wd :
  k_dents st !! cu_dentry c = Some e → k_inodes st !! dn_inode e = Some o →
  (∀ u, oi_upper o = Some u → is_Some (d_inode u)) → is_Some (oi_lower o) →
  oe_lowerstack (dn_entry e) = p :: l → is_Some (d_inode (op_dentry p)) →
  cu_lowerpath c = ovl_path_lower (ODentry (cu_dentry c) (dn_name e) (dn_flags e) o (dn_entry e)) →
  parent_ok st c → is_Some (d_inode indexdir) → cu_workdir c = Some wd → is_Some (d_inode wd) →
  wp (v ← oview (cu_dentry c);
      err ← (if negb (bool_decide (is_Some (ovl_dentry_upper v))) then ovl_do_copy_up indexdir export_op c else mret 0);
      v ← oview (cu_dentry c);
      err ← (if (err =? 0) && bool_decide (is_Some (cu_parent c)) && negb (ovl_dentry_has_upper_alias (od_entry v))
             then ovl_link_up c else mret err);
      v ← oview (cu_dentry c);
      (if (err =? 0) && ovl_dentry_needs_data_copy_up_locked v flags
       then ovl_copy_up_meta_inode_data c else mret err)) st
    (λ r st', evolves st st' ∧ (r = 0 → is_Some (cu_parent c) ∨ has_any (dn_flags e) DCACHE_DISCONNECTED = true →
       ∃ v', view_at st' (cu_dentry c) = Some v' ∧ ovl_already_copied_up_locked v' flags = true)).
Proof.
  intros He Ho Hupos Hlow Hl Hlpos Hlp Hpar Hidx Hwd Hwdpos.
  eapply wp_oview; [by apply view_of|]. set (v := ODentry _ _ _ _ _).
  eapply wp_seq with (R := λ r st1, evolves st st1 ∧ (r = 0 → ∃ e1 o1, copied st1 (cu_dentry c) e1 o1)).
  { case_bool_decide as Hu; cbn [negb].
    - apply wp_ret. split; [done|]. intros _. exists e, o. destruct Hu as [u Hu].
      split; [done..|exists u; split; [done|by apply Hupos]|by exists p, l].
    - assert (to_copy st c e o) as Htc.
      { split; [done..| |done|].
        - destruct (oi_upper o) as [u|] eqn:E; [|done]. by destruct Hu; exists u.
        - exists (op_dentry p). by rewrite Hlp, (lowerpath_of _ p l). }
      eapply wp_mono; [by eapply do_copy_up_step|]. intros r st1 [Hev Hp]. split; [done|]. intros Hr.
      destruct (Hp Hr) as (o1 & Ho1 & [u1 Hu1] & _).
      destruct (evolves_dent _ _ _ _ Hev He) as (e1 & He1 & Hde).
      destruct (evolves_inode _ _ _ _ Hev Ho) as (o1' & Ho1' & Hg).
      rewrite Ho1 in Ho1'. injection Ho1' as <-. exists e1, o1. split; [done|by rewrite (dg_inode _ _ Hde)| |].
      + exists u1. split; [done|]. destruct (ig_new Hg u1 Hu1) as [Hold|]; [|done].
        by rewrite (tc_upper _ _ _ _ Htc) in Hold.
      + exists p, l. by rewrite (eg_stack _ _ (dg_entry _ _ Hde)). }
  intros err st1 [Hev1 Hc1].
  destruct (evolves_dent _ _ _ _ Hev1 He) as (e1 & He1 & Hde1).
  destruct (evolves_inode _ _ _ _ Hev1 Ho) as (o1 & Ho1 & Hg1).
  eapply wp_oview; [apply view_of; [done|by rewrite (dg_inode _ _ Hde1)]|]. cbn [od_entry].
  eapply wp_seq with (R := λ r st2, evolves st1 st2 ∧ (r = 0 → err = 0 ∧ (is_Some (cu_parent c) → has_alias st2 (cu_dentry c)))).
  { destruct (Z.eqb_spec err 0) as [->|]; cbn [andb]; [|by apply wp_ret].
    destruct (Hc1 eq_refl) as (e1' & o1' & Hc).
    case_bool_decide as Hsp; cbn [andb]; [|by apply wp_ret].
    destruct (ovl_dentry_has_upper_alias (dn_entry e1)) eqn:Ea; cbn [negb].
    - apply wp_ret. split; [done|]. intros _. split; [done|]. intros _. by exists e1.
    - eapply wp_mono; [eapply link_up_step with (e := e1') (o := o1'); [exact Hc|done|]|].
      + intros q Hq. destruct (Hpar q Hq) as (Hpp & pe & po & dd & Hpe & Hpo & Hpu & Hdd & Hpos).
        destruct (evolves_dent _ _ _ _ Hev1 Hpe) as (pe1 & Hpe1 & Hpde).
        destruct (evolves_inode _ _ _ _ Hev1 Hpo) as (po1 & Hpo1 & Hpg).
        split; [intros x Hx; simplify_eq; rewrite (dg_parent _ _ Hde1); by apply Hpp|].
        exists pe1, po1, dd. split_and!; [done|by rewrite (dg_inode _ _ Hpde)|by apply (ig_upper Hpg)|done|done].
      + intros r st2 [Hev Ha]. split; [done|]. intros Hr. split; [done|]. intros _. by apply Ha. }
  intros err2 st2 [Hev2 Ha2].
  assert (evolves st st2) as Hev02 by (by etrans).
  destruct (evolves_dent _ _ _ _ Hev02 He) as (e2 & He2 & Hde2).
  destruct (evolves_inode _ _ _ _ Hev02 Ho) as (o2 & Ho2 & Hg2).
  set (v2 := ODentry (cu_dentry c) (dn_name e2) (dn_flags e2) o2 (dn_entry e2)).
  eapply wp_oview with (v := v2); [apply view_of; [done|by rewrite (dg_inode _ _ Hde2)]|].
  destruct (Z.eqb_spec err2 0) as [->|]; cbn [andb]; [|by apply wp_ret].
  destruct (Ha2 eq_refl) as [-> Halias]. destruct (Hc1 eq_refl) as (e1' & o1' & Hc).
  destruct (copied_evolves _ _ _ _ _ Hc Hev2) as (e2' & o2' & Hc2 & _ & _).
  (* the final state, whatever the last stage did *)
  assert (∀ st3, evolves st2 st3 →
    (∀ e3 o3, k_dents st3 !! cu_dentry c = Some e3 → k_inodes st3 !! dn_inode e3 = Some o3 →
       ovl_dentry_needs_data_copy_up_locked (ODentry (cu_dentry c) (dn_name e3) (dn_flags e3) o3 (dn_entry e3)) flags = false) →
    is_Some (cu_parent c) ∨ has_any (dn_flags e) DCACHE_DISCONNECTED = true →
    ∃ v', view_at st3 (cu_dentry c) = Some v' ∧ ovl_already_copied_up_locked v' flags = true) as Hfin.
  { intros st3 Hev3 Hdata Hwho. destruct (copied_evolves _ _ _ _ _ Hc2 Hev3) as (e3 & o3 & Hc3 & _ & _).
    eexists. split; [apply view_of; [apply Hc3|apply Hc3]|]. apply already_locked.
    - destruct (cp_upper _ _ _ _ Hc3) as (u & Hu & _). by exists u.
    - destruct Hwho as [Hsp|Hd]; [left|right].
      + destruct (has_alias_grows _ _ _ (proj1 Hev3) (Halias Hsp)) as (x & Hx & Hax).
        cbn [od_entry]. rewrite (cp_dent _ _ _ _ Hc3) in Hx. by injection Hx as <-.
      + unfold disconnected. cbn [od_flags].
        destruct (evolves_dent _ _ _ _ Hev3 He2) as (x & Hx & Hdx).
        rewrite (cp_dent _ _ _ _ Hc3) in Hx. injection Hx as <-.
        by rewrite (dg_flags _ _ Hdx), (dg_flags _ _ Hde2).
    - apply Hdata; apply Hc3. }
  destruct (ovl_dentry_needs_data_copy_up_locked v2 flags) eqn:Hneed.
  - eapply wp_mono; [by eapply meta_data_step|]. intros r st3 [Hev3 Hp3].
    split; [by etrans|]. intros Hr. apply Hfin; [done|]. intros e3 o3 He3 Ho3.
    destruct (Hp3 Hr) as (o3' & Ho3' & _ & Hf3).
    destruct (evolves_dent _ _ _ _ Hev3 (cp_dent _ _ _ _ Hc2)) as (x & Hx & Hdx).
    rewrite He3 in Hx. injection Hx as <-. rewrite (dg_inode _ _ Hdx), Ho3' in Ho3. injection Ho3 as <-.
    unfold ovl_dentry_needs_data_copy_up_locked. case_match; [done|]. cbn [od_inode]. by rewrite Hf3.
  - apply wp_ret. split; [done|]. intros _. apply Hfin; [done|]. intros e3 o3 He3 Ho3.
    rewrite He2 in He3. injection He3 as <-. rewrite (dg_inode _ _ Hde2), Ho2 in Ho3. by injection Ho3 as <-.
Qed.


Definition parent_of st (d p : Z) : Prop := ∃ e, k_dents st !! d = Some e ∧ dn_parent e = p.

Lemma copy_up_one_step st parent d flags v :
  ok st → fs_workdir (k_ofs st) = true → is_Some (d_inode workdir) → is_Some (d_inode indexdir) →
  view_at st d = Some v → oe_lowerstack (od_entry v) ≠ [] →
  (∀ p, parent = Some p → has_upper st p ∧ parent_of st d p) →
  wp (ovl_copy_up_one workdir indexdir export_op parent d flags) st
    (λ r st', evolves st st' ∧ (r = 0 → is_Some parent ∨ disconnected v = true →
       ∃ v', view_at st' d = Some v' ∧ ovl_already_copied_up_locked v' flags = true)).
Proof.
  intros Hok Hfw Hwd Hidx Hv Hne Hpar.
  destruct (view_inv _ _ _ _ Hv) as (e & o & He & Ho & ->). cbn [od_entry] in Hne. set (v := ODentry _ _ _ _ _).
  destruct (oe_lowerstack (dn_entry e)) as [|p l] eqn:El; [done|].
  assert (is_Some (d_inode (op_dentry p))) as Hppos by (eapply (ok_lower _ Hok d e); [done|]; rewrite El; by left).
  unfold ovl_copy_up_one. unfold ovl_workdir at 1. apply wp_ask. rewrite Hfw, bool_decide_true by done. cbn [negb].
  eapply wp_oview; [exact Hv|]. fold v. apply wp_ask. cbv zeta.
  eapply wp_deref_bind; [by eapply lowerpath_of|].
  apply wp_ask. destruct (vfs_getattr _ _ _) as [err stat].
  destruct (Z.eqb_spec err 0) as [->|]; cbn [negb]; [|by apply wp_ret].
  eapply wp_seq with (R := λ r st1, st1 = st ∧ match r with (err, pstat, destdir) =>
    ∀ q, parent = Some q → dn_parent e = q ∧ ∃ pe po dd, k_dents st !! q = Some pe ∧ k_inodes st !! dn_inode pe = Some po ∧
      oi_upper po = Some dd ∧ destdir = Some dd ∧ is_Some (d_inode dd) end).
  { destruct parent as [q|]; [|by apply wp_ret]. destruct (Hpar q eq_refl) as [(pv & Hpv & [dd Hdd]) (e' & He' & Hpp)]. simplify_eq.
    destruct (view_inv _ _ _ _ Hpv) as (pe & po & Hpe & Hpo & ->).
    eapply wp_oview; [exact Hpv|]. eapply wp_deref_bind; [exact Hdd|]. apply wp_ask.
    destruct (vfs_getattr _ _ _) as [err pstat]. apply wp_ret. split; [done|].
    intros ? [= <-]. split; [done|]. exists pe, po, dd. split_and!; [done..|]. by eapply (ok_upper _ Hok). }
  intros [[err2 pstat] destdir] st1 [-> Hdest].
  destruct (Z.eqb_spec err2 0) as [->|]; cbn [negb]; [|by apply wp_ret].
  set (stat' := if has_any flags O_TRUNC then _ else stat).
  eapply wp_seq with (R := λ r st1, st1 = st ∧ valid_ptr r).
  { case_match; [|by apply wp_ret]. split; [done|]. apply law_link. }
  intros [|x|link] st1 [-> [Hx Hx0]]; [done|apply wp_ret; split; [done|by intros ->; destruct (Hx0 0)]|].
  set (c := Ctx _ _ _ _ _ _ _ _ _ _ _ _).
  eapply wp_seq; [by eapply copy_up_start_step|]. intros r st1 [(Hr & Hq & Hraced)|(-> & w & ->)].
  - destruct (Z.eqb_spec r 0); [done|]. cbn [negb]. apply wp_ret. split; [by apply quiet_evolves|].
    intros Hr0 _. destruct (Z.ltb_spec 0 r); [|lia]. exists v. split; [|by apply Hraced].
    unfold view_at. by rewrite (q_dents _ _ Hq), (q_inodes _ _ Hq).
  - cbn [Z.eqb negb]. set (st1 := set_k_held _ _).
    eapply wp_seq.
    { eapply (copy_up_locked_step st1 c e o p l flags workdir); try done.
      - intros u Hu. by eapply (ok_upper _ Hok).
      - eapply (ok_stack _ Hok d e); [done..|]. by rewrite El.
      - intros q Hq. destruct (Hdest q Hq) as [Hpp ?]. split; [|done]. intros e0 He0.
        change (k_dents st !! d = Some e0) in He0. by simplify_eq. }
    intros r st2 [[Hg2 Hh2] Hdone]. apply wp_bind. unfold ovl_copy_up_end.
    destruct (grows_dent _ _ _ _ Hg2 (He : k_dents st1 !! d = Some e)) as (e2 & He2 & Hde2).
    eapply wp_dent; [exact He2|]. eapply wp_unlock; [rewrite Hh2, (dg_inode _ _ Hde2); apply unlock1_head|].
    apply wp_ret. split.
    + split; [|by rewrite Hh2; cbn; destruct (k_held st)].
      etrans; [|by apply grows_held]. etrans; [|exact Hg2]. etrans; [|apply grows_held].
      apply (quiet_evolves st (set_k_w w st)). by split.
    + intros Hr Hwho. destruct (Hdone Hr) as (v' & Hv' & Ha); [by destruct Hwho; [left|right]|]. by exists v'.
Qed.

End one.

(** ** All the parents *)

Section all.
Context {W : Type} `{Under W, !UnderLaws W, Kern W, !KernLaws W}.
Context (creator_cred : Z) (workdir indexdir : dentry) (export_op : Z → option (bool * bool)).
Implicit Types (st : kst W).

(** A dentry that can be found by name. *)
Definition hashed st (d : Z) : Prop := ∃ e, k_dents st !! d = Some e ∧ dn_hashed e = true.

(** [chain st d n top]: going up from [d], [n] ancestors have no upper dentry;
    the parent of [top], the last of them (or [d] itself), has one. *)
Inductive chain st : Z → nat → Z → Prop :=
| chain_top d e :
    k_dents st !! d = Some e → dn_hashed e = true → has_upper st (dn_parent e) → chain st d 0 d
| chain_up d e pv n top :
    k_dents st !! d = Some e → dn_hashed e = true →
    view_at st (dn_parent e) = Some pv → ovl_dentry_upper pv = None →
    chain st (dn_parent e) n top → chain st d (S n) top.

Lemma chain_grows st st' d n top :
  chain st d n top → grows st st' → ∃ m top', (m ≤ n)%nat ∧ chain st' d m top'.
Proof.
  intros Hc Hg. induction Hc as [d e He Hh Hp|d e pv n top He Hh Hpv Hu Hc IH].
  - destruct (grows_dent _ _ _ _ Hg He) as (e' & He' & Hde). exists 0%nat, d. split; [lia|].
    eapply chain_top; [done|by rewrite ?(dg_hashed _ _ Hde)|]. rewrite (dg_parent _ _ Hde). by eapply has_upper_grows.
  - destruct (grows_dent _ _ _ _ Hg He) as (e' & He' & Hde).
    destruct (grows_view _ _ _ _ Hg Hpv) as (pv' & Hpv' & _). rewrite <- (dg_parent _ _ Hde) in Hpv'.
    destruct (ovl_dentry_upper pv') as [u|] eqn:Eu.
    + exists 0%nat, d. split; [lia|]. eapply chain_top; [done|by rewrite ?(dg_hashed _ _ Hde)|]. by exists pv'.
    + destruct IH as (m & top' & Hm & Hc'). exists (S m), top'. split; [lia|].
      eapply chain_up; [done|by rewrite (dg_hashed _ _ Hde)|done|done|]. by rewrite (dg_parent _ _ Hde).
Qed.

(** Once the topmost one is copied up, the chain is shorter. *)
Lemma chain_progress st st' d n top :
  chain st d (S n) top → grows st st' → has_upper st' top → ∃ m top', (m ≤ n)%nat ∧ chain st' d m top'.
Proof.
  intros Hc Hg Htop. remember (S n) as k eqn:Ek. revert n Ek.
  induction Hc as [d e He Hh Hp|d e pv k top He Hh Hpv Hu Hc IH]; intros n Ek; [done|]. injection Ek as ->.
  destruct (grows_dent _ _ _ _ Hg He) as (e' & He' & Hde).
  destruct (grows_view _ _ _ _ Hg Hpv) as (pv' & Hpv' & _). rewrite <- (dg_parent _ _ Hde) in Hpv'.
  destruct (ovl_dentry_upper pv') as [u|] eqn:Eu.
  { exists 0%nat, d. split; [lia|]. eapply chain_top; [done|by rewrite ?(dg_hashed _ _ Hde)|]. by exists pv'. }
  destruct n as [|n].
  - inversion Hc as [d' e1 He1 Hh1 Hp1 E1|]; subst.
    destruct Htop as (tv & Htv & [u Htu]). rewrite <- (dg_parent _ _ Hde) in Htv. unfold view_at in *.
    rewrite Htv in Hpv'. injection Hpv' as <-. congruence.
  - destruct (IH Htop n eq_refl) as (m & top' & Hm & Hc'). exists (S m), top'. split; [lia|].
    eapply chain_up; [done|by rewrite (dg_hashed _ _ Hde)|done|done|]. by rewrite (dg_parent _ _ Hde).
Qed.

Lemma find_topmost_step depth st d n top :
  chain st d n top → (n < depth)%nat →
  ∃ p, find_topmost depth d st = Ret ((p, top), st) ∧ (has_upper st p ∧ parent_of st top p) ∧ (n = 0%nat → top = d) ∧ hashed st top ∧
    ((0 < n)%nat → ∃ v, view_at st top = Some v ∧ ovl_dentry_upper v = None).
Proof.
  intros Hc. revert depth. induction Hc as [d e He Hh Hp|d e pv n top He Hh Hpv Hu Hc IH]; intros [|depth] Hd; try lia.
  - exists (dn_parent e). destruct Hp as (pv & Hpv & Hu).
    cbn [find_topmost]. unfold mbind, kernel_bind, dent, oview. rewrite He. unfold view_at in Hpv. rewrite Hpv.
    rewrite bool_decide_true by done. split_and!; [done|by exists pv|by exists e|done|by exists e|lia].
  - destruct (IH depth) as (p & Hf & Hp & H0' & Hht & Hpos); [lia|]. exists p.
    cbn [find_topmost]. unfold mbind, kernel_bind, dent, oview. rewrite He. unfold view_at in Hpv. rewrite Hpv.
    rewrite bool_decide_false by (rewrite Hu; by intros []).
    split_and!; [done|apply Hp|apply Hp|done|done|]. intros _. destruct n as [|n]; [|by apply Hpos; lia].
    rewrite (H0' eq_refl). by exists pv.
Qed.

(** The test under the inode's lock is the stronger one. *)
Lemma locked_implies_copied v flags :
  ovl_already_copied_up_locked v flags = true → ovl_already_copied_up v flags = true.
Proof.
  unfold ovl_already_copied_up_locked, ovl_already_copied_up.
  unfold ovl_dentry_needs_data_copy_up_locked, ovl_dentry_needs_data_copy_up, ovl_has_upperdata.
  destruct (bool_decide _), (ovl_dentry_has_upper_alias _ || _); cbn [andb]; try done.
  destruct (ovl_open_flags_need_copy_up flags); cbn [negb andb]; [|done].
  destruct (ovl_test_flag OVL_UPPERDATA _); cbn [negb]; [|done]. by destruct (ovl_should_check_upperdata _).
Qed.

Lemma locked_upper v flags : ovl_already_copied_up_locked v flags = true → is_Some (ovl_dentry_upper v).
Proof. unfold ovl_already_copied_up_locked. case_bool_decide; [done|by cbn]. Qed.

(** An object that is not copied up has a lower. *)
Lemma not_copied_lower st d v flags :
  ok st → hashed st d → view_at st d = Some v → ovl_already_copied_up v flags = false →
  oe_lowerstack (od_entry v) ≠ [].
Proof.
  intros Hok (e & He & Hh) Hv Hn Hs. destruct (view_inv _ _ _ _ Hv) as (e1 & o & He1 & Ho & ->). simplify_eq.
  destruct (ok_real _ Hok d e o He Ho Hh Hs) as (Hu & Ha & Hf).
  unfold ovl_already_copied_up in Hn. rewrite bool_decide_true in Hn by done. cbn [od_entry] in Hn. rewrite Ha in Hn.
  unfold ovl_dentry_needs_data_copy_up, ovl_has_upperdata, ovl_should_check_upperdata, ovl_inode_lower in Hn.
  cbn [od_inode orb andb] in Hn.
  destruct (ovl_open_flags_need_copy_up flags); [|done]. cbn [negb] in Hn.
  destruct (S_ISREG _); [|done]. cbn [negb] in Hn.
  by rewrite Hf in Hn.
Qed.
Lemma no_upper_lower st d v :
  ok st → hashed st d → view_at st d = Some v → ovl_dentry_upper v = None → oe_lowerstack (od_entry v) ≠ [].
Proof.
  intros Hok (e & He & Hh) Hv Hu Hs. destruct (view_inv _ _ _ _ Hv) as (e1 & o & He1 & Ho & ->). simplify_eq.
  destruct (ok_real _ Hok d e o He Ho Hh Hs) as ([u Hu'] & _). unfold ovl_dentry_upper in Hu. cbn in Hu. congruence.
Qed.

Lemma evolves_workdir st st' : evolves st st' → fs_workdir (k_ofs st') = fs_workdir (k_ofs st).
Proof. intros [Hg _]. by destruct (gr_ofs _ _ Hg) as [-> | ->]. Qed.

Lemma copy_up_loop_connected flags depth d : ∀ fuel st n top v,
  ok st → fs_workdir (k_ofs st) = true → is_Some (d_inode workdir) → is_Some (d_inode indexdir) →
  view_at st d = Some v → chain st d n top → (n < depth)%nat → (n + 1 < fuel)%nat →
  wp (copy_up_flags_loop workdir indexdir export_op fuel depth d flags false) st
    (λ r st', evolves st st' ∧ (r = 0 → ∃ v', view_at st' d = Some v' ∧ ovl_already_copied_up v' flags = true)).
Proof.
  intros fuel. induction fuel as [|fuel IH]; intros st n top v Hok Hfw Hwd Hidx Hv Hc Hd Hfuel; [lia|].
  cbn [copy_up_flags_loop]. eapply wp_oview; [exact Hv|].
  destruct (ovl_already_copied_up v flags) eqn:Ea; [apply wp_ret; split; [done|]; by exists v|].
  destruct (find_topmost_step depth _ _ _ _ Hc Hd) as (p & Hf & Hp & Htop0 & Hht & Htop).
  apply wp_assoc, wp_bind. unfold wp at 1. rewrite Hf. apply wp_mret.
  assert (∃ tv, view_at st top = Some tv ∧ oe_lowerstack (od_entry tv) ≠ [] ∧ (n = 0%nat → top = d ∧ tv = v)) as (tv & Htv & Htl & Htd).
  { destruct n as [|n].
    - rewrite (Htop0 eq_refl). exists v. split_and!; [done| |done].
      rewrite (Htop0 eq_refl) in Hht. by eapply not_copied_lower.
    - destruct Htop as (tv & Htv & Htu); [lia|]. exists tv. split_and!; [done|by eapply no_upper_lower|done]. }
  eapply wp_seq; [eapply copy_up_one_step; [done..| |]; [exact Htl|by intros ? [= <-]]|].
  intros r st1 [Hev Hdone]. destruct (Z.eqb_spec r 0) as [->|]; cbn [negb]; [|by apply wp_ret].
  destruct (Hdone eq_refl (or_introl (ex_intro _ p eq_refl))) as (tv' & Htv' & Hta).
  destruct (evolves_view _ _ _ _ Hev Hv) as (v1 & Hv1 & _).
  destruct n as [|n].
  - destruct (Htd eq_refl) as [-> ->]. destruct fuel as [|fuel]; [lia|]. cbn [copy_up_flags_loop].
    eapply wp_oview; [exact Htv'|]. rewrite (locked_implies_copied _ _ Hta). apply wp_ret. split; [done|].
    intros _. exists tv'. split; [done|]. by apply locked_implies_copied.
  - destruct (chain_progress _ st1 _ _ _ Hc (proj1 Hev)) as (m & top' & Hm & Hc').
    { exists tv'. split; [done|]. by eapply locked_upper. }
    eapply wp_mono; [eapply (IH st1 m top'); [by eapply evolves_ok|by rewrite (evolves_workdir _ _ Hev)|done|done|exact Hv1|done|lia|lia]|].
    intros r st2 [Hev2 Hr]. split; [by etrans|done].
Qed.

Lemma copy_up_loop_disconnected flags depth d fuel st v :
  ok st → fs_workdir (k_ofs st) = true → is_Some (d_inode workdir) → is_Some (d_inode indexdir) →
  hashed st d → view_at st d = Some v → disconnected v = true → (1 < fuel)%nat →
  wp (copy_up_flags_loop workdir indexdir export_op fuel depth d flags true) st
    (λ r st', evolves st st' ∧ (r = 0 → ∃ v', view_at st' d = Some v' ∧ ovl_already_copied_up v' flags = true)).
Proof.
  intros Hok Hfw Hwd Hidx Hh Hv Hdis Hfuel. destruct fuel as [|[|fuel]]; [lia..|].
  cbn [copy_up_flags_loop]. eapply wp_oview; [exact Hv|].
  destruct (ovl_already_copied_up v flags) eqn:Ea; [apply wp_ret; split; [done|]; by exists v|].
  apply wp_mret. eapply wp_seq; [eapply copy_up_one_step; [done..| |done]; by eapply not_copied_lower|].
  intros r st1 [Hev Hdone]. destruct (Z.eqb_spec r 0) as [->|]; cbn [negb]; [|by apply wp_ret].
  destruct (Hdone eq_refl (or_intror Hdis)) as (v' & Hv' & Ha).
  eapply wp_oview; [exact Hv'|]. rewrite (locked_implies_copied _ _ Ha). apply wp_ret. split; [done|].
  intros _. exists v'. split; [done|]. by apply locked_implies_copied.
Qed.

End all.

Section flags.
Context {W : Type} `{Under W, !UnderLaws W, Kern W, !KernLaws W}.
Context (creator_cred : Z) (workdir indexdir : dentry) (export_op : Z → option (bool * bool)).
Implicit Types (st : kst W).

(** The work and index directories exist. *)
Record dirs_ok st : Prop := {
  do_workdir : fs_workdir (k_ofs st) = true;
  do_work : is_Some (d_inode workdir);
  do_index : is_Some (d_inode indexdir);
}.

(** A dentry that can be copied up with [depth] and [fuel] rounds of the loops. *)
Definition can_copy st (d : Z) (v : odentry) (depth fuel : nat) : Prop :=
  (hashed st d ∧ disconnected v = true ∧ S_ISDIR (i_mode (oi_vfs (od_inode v))) = false ∧ (1 < fuel)%nat) ∨
  (disconnected v = false ∧ ∃ n top, chain st d n top ∧ (n < depth)%nat ∧ (n + 1 < fuel)%nat).

Lemma view_at_held st h d : view_at (set_k_held h st) d = view_at st d.
Proof. done. Qed.
Lemma chain_same st st' d n top :
  k_dents st' = k_dents st → k_inodes st' = k_inodes st → chain st d n top → chain st' d n top.
Proof.
  intros Hd Hi. induction 1 as [d e He Hh (pv & Hpv & Hu)|d e pv n top He Hh Hpv Hu Hc IH].
  - eapply chain_top; [by rewrite Hd|done|]. exists pv. unfold view_at in *. by rewrite Hd, Hi.
  - eapply chain_up; [by rewrite Hd|done| |done..]. unfold view_at in *. by rewrite Hd, Hi.
Qed.

(** ovl_copy_up_flags, with credentials and locks as before. *)
Lemma copy_up_flags_step st d flags v depth fuel :
  ok st → dirs_ok st → view_at st d = Some v → can_copy st d v depth fuel →
  wp (ovl_copy_up_flags creator_cred workdir indexdir export_op fuel depth d flags) st
    (λ r st', evolves st st' ∧ (r = 0 → ∃ v', view_at st' d = Some v' ∧ ovl_already_copied_up v' flags = true)).
Proof.
  intros Hok [Hfw Hwd Hidx] Hv Hcan. unfold ovl_copy_up_flags. apply wp_bind.
  unfold wp at 1, ovl_override_creds, override_creds. set (st1 := set_k_held _ st).
  assert (ok st1) as Hok1 by (eapply ok_grows; [exact Hok|apply grows_held]).
  eapply wp_oview; [exact Hv|].
  assert (disconnected v && S_ISDIR (i_mode (oi_vfs (od_inode v))) = false) as ->.
  { destruct Hcan as [(_ & -> & -> & _)|(-> & _)]; done. }
  eapply wp_seq with (R := λ r st', evolves st1 st' ∧ (r = 0 → ∃ v', view_at st' d = Some v' ∧ ovl_already_copied_up v' flags = true)).
  { destruct Hcan as [(Hh & Hd & _ & Hf)|(Hd & n & top & Hc & Hn & Hf)]; rewrite Hd.
    - by eapply copy_up_loop_disconnected.
    - eapply copy_up_loop_connected; [done..| |done|done]. eapply chain_same; [..|exact Hc]; done. }
  intros r st2 [[Hg Hh] Hr]. apply wp_bind. unfold wp at 1, revert_creds, modify. apply wp_ret. split.
  - split; [|cbn; rewrite Hh; cbn; by destruct (k_held st)].
    etrans; [apply (grows_held st)|]. etrans; [exact Hg|apply grows_held].
  - intros Hr0. destruct (Hr Hr0) as (v' & Hv' & Ha). by exists v'.
Qed.

(** ovl_maybe_copy_up does nothing, or copies up. *)
Lemma maybe_copy_up_step st d flags v depth fuel :
  ok st → dirs_ok st → view_at st d = Some v → can_copy st d v depth fuel → 0 ≤ h_write (k_held st) →
  wp (ovl_maybe_copy_up creator_cred workdir indexdir export_op fuel depth d flags) st
    (λ r st', evolves st st' ∧
       (r = 0 → if ovl_open_need_copy_up v flags then ∃ v', view_at st' d = Some v' ∧ ovl_already_copied_up v' flags = true
                else st' = st)).
Proof.
  intros Hok Hdirs Hv Hcan Hw.
  unfold ovl_maybe_copy_up. eapply wp_oview; [exact Hv|].
  destruct (ovl_open_need_copy_up v flags) eqn:Hneed; [|by apply wp_ret].
  unfold ovl_want_write. apply wp_assoc, wp_bind, wp_on_w. intros err w _.
  destruct (Z.eqb_spec err 0) as [->|He]; cbn [negb].
  - apply wp_assoc, wp_bind. unfold wp at 1, modify. apply wp_mret. cbn [Z.eqb negb].
    set (st1 := set_k_held _ _). assert (grows st st1) as Hg1.
    { etrans; [|apply grows_held]. apply (quiet_evolves st (set_k_w w st)). by split. }
    eapply wp_seq; [eapply (copy_up_flags_step st1 d flags v depth fuel); [by eapply ok_grows| |exact Hv|]|].
    { destruct Hdirs. by split. }
    { destruct Hcan as [?|(? & n & top & Hc & ?)]; [by left|right]. split; [done|]. exists n, top. split; [|done].
      eapply chain_same; [..|exact Hc]; done. }
    intros r st2 [[Hg2 Hh2] Hr]. apply wp_bind. unfold wp, ovl_drop_write. rewrite Hh2. cbn.
    destruct (Z.leb_spec (h_write (k_held st) + 1) 0); [lia|]. split.
    + split; [etrans; [exact Hg1|]; etrans; [exact Hg2|apply grows_held]|].
      cbn. replace (h_write (k_held st) + 1 - 1) with (h_write (k_held st)) by lia. by destruct (k_held st).
    + intros Hr0. destruct (Hr Hr0) as (v' & Hv' & Ha). by exists v'.
  - apply wp_mret. destruct (Z.eqb_spec err 0); [done|]. apply wp_ret. split; [|done]. apply quiet_evolves. by split.
Qed.



(** The copy-up of a disconnected directory is refused, but the caller goes
    on with the mounter's credentials: this path leaves ovl_copy_up_flags
    without revert_creds. *)
Theorem disconnected_dir_keeps_creds st d flags v depth fuel :
  view_at st d = Some v → disconnected v = true → S_ISDIR (i_mode (oi_vfs (od_inode v))) = true →
  ∃ st', ovl_copy_up_flags creator_cred workdir indexdir export_op fuel depth d flags st = Ret (- EIO, st') ∧
    h_cred (k_held st') = creator_cred.
Proof.
  intros Hv Hd Hdir. exists (set_k_held (Held creator_cred (h_locks (k_held st)) (h_write (k_held st))) st). split; [|done].
  unfold ovl_copy_up_flags, ovl_override_creds, override_creds, mbind, kernel_bind, oview. cbn [k_dents k_inodes set_k_held].
  unfold view_at in Hv. rewrite Hv, Hd, Hdir. reflexivity.
Qed.

End flags.

Section xattr.
Context {W : Type} `{Under W, Kern W}.

(** When a lower object has only the overlay's own private xattrs,
    ovl_copy_xattr returns a variable that was never set. *)
Theorem copy_xattr_uninitialised st old new oi ni names :
  d_inode old = Some oi → d_inode new = Some ni → i_op_xattr oi = true → i_op_xattr ni = true →
  names ≠ [] → Forall (λ n, no_nul n ∧ ovl_is_private_xattr n = true) names →
  let buf := nul_list names in
  (vfs_listxattr (k_w st) old 0).1 = strlen buf →
  vfs_listxattr (k_w st) old (strlen buf) = (strlen buf, buf) → kmalloc_ok (k_w st) (strlen buf) = true →
  ovl_copy_xattr old new st = Ret (uninitialized (k_w st), st).
Proof.
  intros Ho Hn Hox Hnx Hne Hp buf H0' Hl Hk. unfold ovl_copy_xattr. rewrite Ho, Hn.
  assert (0 < strlen buf) as Hpos.
  { destruct names as [|n ns]; [done|]. subst buf. cbn [nul_list]. rewrite strlen_app, strlen_cons.
    pose proof (strlen_nonneg n). pose proof (strlen_nonneg (nul_list ns)). lia. }
  unfold mbind, kernel_bind, deref, mret, kernel_ret, ask. rewrite Hox, Hnx. cbn [negb orb].
  rewrite H0'. destruct (Z.leb_spec (strlen buf) 0); [lia|]. rewrite Hk. cbn [negb]. rewrite Hl.
  destruct (Z.leb_spec (strlen buf) 0); [lia|].
  generalize (uninitialized (k_w st)). intros e.
  enough (∀ fuel, (String.length buf ≤ fuel)%nat → copy_xattr_loop fuel old new buf [] e st = Ret (e, st)) as Hgo
    by (by apply Hgo).
  clear -Hp. subst buf. induction Hp as [|n ns [Hn Hpr] _ IH]; intros fuel Hf; [by destruct fuel|].
  cbn [nul_list] in *. rewrite slen_app in Hf. cbn in Hf. destruct fuel as [|fuel]; [lia|]. cbn [copy_xattr_loop].
  assert (is_empty (n +:+ String NUL (nul_list ns)) = false) as -> by (by destruct n).
  rewrite cstr_nul by done. rewrite strlen_app, strlen_cons.
  pose proof (strlen_nonneg (nul_list ns)).
  destruct (Z.ltb_spec (strlen n + (strlen (nul_list ns) + 1)) (strlen n + 1)); [lia|].
  assert (sdrop (Z.to_nat (strlen n + 1)) (n +:+ String NUL (nul_list ns)) = nul_list ns) as ->.
  { change (String NUL (nul_list ns)) with (String NUL EmptyString +:+ nul_list ns). rewrite <- sapp_assoc.
    replace (strlen n + 1) with (strlen (n +:+ String NUL EmptyString)) by (rewrite strlen_app; done).
    apply sdrop_app. }
  rewrite Hpr. apply IH. lia.
Qed.

End xattr.

(** ** A root that is in the upper layer with a file below it that is not *)

Module example.
Definition attrs (mode : Z) : iattrs := IAttrs 0 0 mode 0 0 0 5.
Definition node (p mode : Z) : inode := Inode p 9 p 1 0 0 (attrs mode).
Definition real (p : Z) (name : string) (mode : Z) : dentry := Dentry p name 0 (Some (node p mode)).
Definition config : ovl_config := OvlConfig None None None false true true None false false 0 false.
Definition ofs : ovl_fs := OvlFs 5 9 [8] [] 255 false true config false false 0.
Definition layer : ovl_layer := OvlLayer 6 1 1 0.
Definition no_blocks : ovl_blocks := OvlBlocks 0 0 false 0 0 0 [].
Definition lower_file : dentry := real 22 "f" (Z.lor S_IFREG 420).
Definition root_inode : ovl_inode :=
  OvlInode None None 0 0 (node 1 S_IFDIR) (Some (real 11 "/" S_IFDIR)) (Some (node 21 S_IFDIR)) no_blocks.
Definition file_inode (mode : Z) : ovl_inode := OvlInode None None 0 0 (node 2 mode) None (Some (node 22 mode)) no_blocks.
Definition root : odent := ODent "/" 0 1 1 (OvlEntry 1 [OvlPath layer (real 21 "/" S_IFDIR)]) true.
Definition file (flags : Z) : odent := ODent "f" flags 1 2 (OvlEntry 0 [OvlPath layer lower_file]) true.
Definition world : layers := Layers ∅ ∅ [] (λ _, x00).
Definition state (flags mode : Z) : kst layers :=
  KSt world ofs (<[2 := file flags]> {[1 := root]}) (<[2 := file_inode mode]> {[1 := root_inode]}) 0 (Held 3 [] 0).
Definition work : dentry := real 31 "work" S_IFDIR.
Definition index : dentry := real 32 "index" S_IFDIR.

Definition stat : kstat := Kstat 8 22 1 1 0 (attrs (Z.lor S_IFREG 420)).
Definition ctx : ovl_copy_up_ctx :=
  Ctx (Some 1) 2 (Path 6 (Some lower_file)) stat stat "" (Some (real 11 "/" S_IFDIR)) "f" (Some work)
      true false false.
Definition overlay_xattr : string := OVL_XATTR_OPAQUE.
Definition marked : kst layers :=
  set_k_w (Layers {[ (22, overlay_xattr) := [x00] ]} ∅ [] (λ _, x00)) (state 0 (Z.lor S_IFREG 420)).

Lemma lookup_two {A} (x y a : A) (i : Z) : (<[2 := y]> {[1 := x]} : gmap Z A) !! i = Some a → (i = 1 ∧ a = x) ∨ (i = 2 ∧ a = y).
Proof. intros [[<- ->]|[_ [<- ->]%lookup_singleton_Some]]%lookup_insert_Some; auto. Qed.

Lemma state_ok flags mode : ok (state flags mode).
Proof.
  split; cbn [k_dents k_inodes state].
  - by intros d e [[-> ->]|[-> ->]]%lookup_two; eexists.
  - by intros d e [[-> ->]|[-> ->]]%lookup_two _; eexists.
  - by intros d e p [[-> ->]|[-> ->]]%lookup_two ->%list_elem_of_singleton; eexists.
  - intros i o u [[-> ->]|[-> ->]]%lookup_two; [intros [= <-]; by eexists|done].
  - by intros d e [[-> ->]|[-> ->]]%lookup_two.
  - done.
  - by intros i o [[-> ->]|[-> ->]]%lookup_two.
  - by intros d e o [[-> ->]|[-> ->]]%lookup_two [[? ->]|[? ->]]%lookup_two; eexists.
  - intros d e [[-> ->]|[-> ->]]%lookup_two; [|done]. intros _.
    exists (ODentry 1 "/" 0 root_inode (dn_entry root)). split; [reflexivity|by eexists].
  - by intros d e o [[-> ->]|[-> ->]]%lookup_two.
Qed.
End example.


Lemma disconnected_dir_keeps_creds_witness :
  ∃ st', ovl_copy_up_flags 7 example.work example.index (λ _, None) 3 2 2 0
           (example.state DCACHE_DISCONNECTED S_IFDIR) = Ret (- EIO, st') ∧ h_cred (k_held st') = 7.
Proof.
  apply (disconnected_dir_keeps_creds 7 example.work example.index (λ _, None)
           (example.state DCACHE_DISCONNECTED S_IFDIR) 2 0
           (ODentry 2 "f" DCACHE_DISCONNECTED (example.file_inode S_IFDIR)
              (dn_entry (example.file DCACHE_DISCONNECTED)))); reflexivity.
Defined.


Lemma copy_xattr_uninitialised_witness :
  ovl_copy_xattr example.lower_file (example.real 40 "#1" S_IFREG) example.marked = Ret (77, example.marked).
Proof.
  change 77 with (uninitialized (k_w example.marked)).
  apply (copy_xattr_uninitialised example.marked example.lower_file (example.real 40 "#1" S_IFREG)
           (example.node 22 (Z.lor S_IFREG 420)) (example.node 40 S_IFREG) [example.overlay_xattr]);
    try reflexivity; [done|].
  constructor; [|done]. by split; [|vm_compute].
Defined.
