(* ===== verification/Dir.v ===== *)
(** The steps the directory operations of dir.c share: the link count of
    indexed inodes around an operation and the cleanup of the index (util.c),
    opaque directories, redirects, the emptiness test, new inodes and their
    instantiation, and the replacement of a directory that only holds
    whiteouts. *)

From S2P Require Import Prelude Types Util Under Nlink Fh Redirect Inode Block Readdir Lookup Kernel Work CopyUp.
From stdpp Require Import gmap fin_sets.
Local Open Scope Z_scope.

(** An ACL: the number of its entries and its xattr representation. *)
Record posix_acl : Type := PosixAcl { a_count : Z; a_bytes : list byte }.
Definition XATTR_NAME_POSIX_ACL_ACCESS : string := "system.posix_acl_access".
Definition XATTR_NAME_POSIX_ACL_DEFAULT : string := "system.posix_acl_default".
Definition XATTR_CREATE : Z := 1.

(** What the directory operations call besides [Kern]. *)
Class DirKern (W : Type) : Type := {
  current_umask : W → Z;
  IS_POSIXACL : inode → bool;
  (** error, mode, default ACL and ACL *)
  posix_acl_create : W → inode → Z → Z * Z * option posix_acl * option posix_acl;
  posix_acl_xattr_size : Z → Z;
  (** the result of posix_acl_to_xattr(acl, buffer, size) and the buffer *)
  posix_acl_to_xattr : posix_acl → Z → Z * list byte;
  (** prepare_creds with the fsuid and fsgid of an inode; [None] is [NULL] *)
  prepare_creds : W → inode → option Z;
  security_dentry_create_files_as : W → Z → Z → Z → Z → Z;
  (** new_inode: the VFS part, and what the memory of block_status held *)
  new_inode : W → option (inode * list Z);
  get_next_ino : W → Z;
  inode_init_owner : W → inode → inode → Z → inode;
  (** the overlay inode that another thread put into the inode cache for a new
      upper object (ovl_obtain_alias), if one did *)
  racing_alias : W → Z → option ovl_inode;
  (** what reading a real directory gives *)
  read_dir : W → dentry → layer_in;
}.

(** A racing ovl_obtain_alias knows only the upper object. *)
Class DirLaws (W : Type) `{DirKern W} : Prop := {
  law_racing w k o : racing_alias w k = Some o →
    oi_lower o = None ∧ ovl_test_flag OVL_INDEX o = false ∧
    ∃ u, oi_upper o = Some u ∧ is_Some (d_inode u);
}.

(** Link counts are unsigned ints. *)
Definition inc_nlink (o : ovl_inode) : ovl_inode :=
  set_oi_vfs (set_i_nlink (u32 (i_nlink (oi_vfs o) + 1)) (oi_vfs o)) o.
Definition drop_nlink (o : ovl_inode) : ovl_inode :=
  set_oi_vfs (set_i_nlink (u32 (i_nlink (oi_vfs o) - 1)) (oi_vfs o)) o.
Definition clear_nlink (o : ovl_inode) : ovl_inode := set_oi_vfs (set_i_nlink 0 (oi_vfs o)) o.
Definition set_nlink (n : Z) (o : ovl_inode) : ovl_inode := set_oi_vfs (set_i_nlink n (oi_vfs o)) o.

Definition ovl_type_merge (v : odentry) : bool := OVL_TYPE_MERGE (ovl_path_type v).
Definition ovl_type_origin (v : odentry) : bool := OVL_TYPE_ORIGIN (ovl_path_type v).
Definition ovl_pure_upper (v : odentry) : bool :=
  negb (bool_decide (is_Some (ovl_dentry_lower v))) && negb (ovl_test_flag OVL_WHITEOUTS (od_inode v)).
Definition ovl_type_merge_or_lower (v : odentry) : bool :=
  let type := ovl_path_type v in OVL_TYPE_MERGE type || negb (OVL_TYPE_UPPER type).
Definition d_is_dir_of (v : odentry) : bool := S_ISDIR (i_mode (oi_vfs (od_inode v))).
Definition ovl_can_move (ofs : ovl_fs) (v : odentry) : bool :=
  ovl_redirect_dir ofs || negb (d_is_dir_of v) || negb (ovl_type_merge_or_lower v).

(** Two dentries, or their inodes, are the same object. *)
Definition same_dentry (a b : dentry) : bool := d_ptr a =? d_ptr b.
Definition same_inode (a b : option inode) : bool :=
  match a, b with
  | Some a, Some b => i_ptr a =? i_ptr b
  | None, None => true
  | _, _ => false
  end.
Definition ovl_matches_upper (v : odentry) (upper : dentry) : outcome bool :=
  match ovl_dentry_upper v with
  | Some u => Ret (same_inode (d_inode u) (d_inode upper))
  | None => Fault
  end.

Section dir.
Context {W : Type} `{Under W, Kern W, DirKern W, RbLib}.
Context (creator_cred : Z) (workdir indexdir : dentry) (export_op : Z → option (bool * bool)).
Context (ovl_redirect_max : Z) (kmalloc : list centry → string → bool) (s_export_op : bool).
(** rounds for the copy-up of the parents and the depth of the tree *)
Context (fuel depth : nat).

(** ** util.c: link counts and the index *)

Definition ovl_cleanup_index (d : Z) : kernel W unit :=
  idx ← ovl_indexdir_dentry indexdir;
  indexdir ← deref idx;
  dir ← deref (d_inode indexdir);
  v ← oview d;
  lower ← deref (ovl_dentry_lower v);
  name ← asko (λ st, ovl_get_index_name (k_w st) lower);
  match name with
  | inl _ => mret tt
  | inr name =>
      upper ← deref (ovl_dentry_upper v);
      inode ← deref (d_inode upper);
      inode ← ask (λ st, inode_now (k_w st) inode);
      if negb (S_ISDIR (i_mode inode)) && negb (i_nlink inode =? 1) then
        modify_dinode d (set_nlink (u32 (i_nlink inode - 1)));;
        overlay_set_nlink_upper d;; mret tt
      else
        inode_lock dir;;
        (index ← lookup_locked name indexdir;
         match index with
         | PErr _ => mret tt
         | PNull => fault
         | PPtr index =>
             ofs ← ask k_ofs;
             (if ovl_index_all ofs then ovl_cleanup_and_whiteout indexdir dir index
              else ovl_cleanup dir index);; mret tt
         end);;
        inode_unlock dir
  end.

Definition ovl_nlink_start (d : Z) : kernel W Z :=
  e ← dent d;
  if dn_inode e =? NULL then mret (- ENOENT) else
  v ← oview d;
  ofs ← ask k_ofs;
  err ← (if ovl_need_index ofs v && negb (ovl_dentry_has_upper_alias (od_entry v))
         then ovl_copy_up creator_cred workdir indexdir export_op fuel depth d else mret 0);
  if negb (err =? 0) then mret err else
  err ← ovl_inode_lock (dn_inode e);
  if negb (err =? 0) then mret err else
  v ← oview d;
  if d_is_dir_of v || negb (ovl_test_flag OVL_INDEX (od_inode v)) then mret 0 else
  old_cred ← ovl_override_creds creator_cred;
  err ← overlay_set_nlink_upper d;
  revert_creds old_cred;;
  (if negb (err =? 0) then ovl_inode_unlock (dn_inode e) else mret tt);;
  mret err.

Definition ovl_nlink_end (d : Z) : kernel W unit :=
  e ← dent d;
  o ← inode_of (dn_inode e);
  (if ovl_test_flag OVL_INDEX o && (i_nlink (oi_vfs o) =? 0) then
     old_cred ← ovl_override_creds creator_cred;
     ovl_cleanup_index d;;
     revert_creds old_cred
   else mret tt);;
  ovl_inode_unlock (dn_inode e).

(** ** Overlay dentries *)

(** util.c: ovl_dir_modified, with the attributes the upper inode has now *)
Definition overlay_dir_modified (d : Z) (impurity : bool) : kernel W unit :=
  v ← oview d;
  o ← asko (λ st, ovl_dir_modified
              (set_od_inode (set_oi_upper (dentry_now (k_w st) <$> oi_upper (od_inode v)) (od_inode v)) v) impurity);
  modify_dinode d (λ o0, set_oi_vfs (oi_vfs o) (set_oi_version (oi_version o) o0)).

Definition ovl_set_opaque_xerr (d : Z) (upper : dentry) (xerr : Z) : kernel W Z :=
  err ← on_ofs (λ w ofs, Ret (ovl_check_setxattr w ofs upper OVL_XATTR_OPAQUE (bytes_of "y") xerr));
  if negb (err =? 0) then mret err else
  modify_entry d ovl_dentry_set_opaque;; mret 0.
Definition ovl_set_opaque (d : Z) (upper : dentry) : kernel W Z := ovl_set_opaque_xerr d upper (- EIO).

(** the names and redirects from a dentry up to the root *)
Fixpoint ancestry_of (fuel : nat) (d : Z) : kernel W ancestry :=
  match fuel with
  | O => nofuel
  | S fuel =>
      e ← dent d;
      if dn_parent e =? d then mret [] else
      o ← inode_of (dn_inode e);
      up ← ancestry_of fuel (dn_parent e);
      mret ((dn_name e, oi_redirect o) :: up)
  end.

Definition overlay_set_redirect (d : Z) (samedir : bool) : kernel W Z :=
  v ← oview d;
  e ← dent d;
  up ← ancestry_of depth (dn_parent e);
  '(err, v) ← on_ofs (λ w ofs,
    '(err, v, ofs, w) ← ovl_set_redirect ovl_redirect_max w ofs v up samedir; Ret ((err, v), ofs, w));
  modify_dinode d (set_oi_redirect (oi_redirect (od_inode v)));;
  mret err.

(** readdir.c: ovl_check_empty_dir over the layers ovl_path_next visits *)
Definition merged_dirs (w : W) (v : odentry) : list (bool * layer_in) :=
  match ovl_dentry_upper v with Some u => [(true, read_dir w u)] | None => [] end ++
  ((λ p, (false, read_dir w (op_dentry p))) <$> oe_lowerstack (od_entry v)).
Definition check_empty_dir (d : Z) : kernel W (Z * list centry) :=
  old_cred ← ovl_override_creds creator_cred;
  r ← (v ← oview d;
       ask (λ st, ovl_check_empty_dir kmalloc
                    (RdDentry (ovl_xino_bits (k_ofs st)) (ovl_test_flag OVL_IMPURE (od_inode v)))
                    (merged_dirs (k_w st) v)));
  revert_creds old_cred;;
  mret r.

(** readdir.c: ovl_cleanup_whiteouts *)
Fixpoint cleanup_whiteouts_loop (upper : dentry) (dir : inode) (l : list centry) : kernel W unit :=
  match l with
  | [] => mret tt
  | p :: l =>
      (if negb (ce_is_whiteout p) || negb (ce_is_upper p) then mret tt else
       x ← lookup_locked (ce_name p) upper;
       match x with
       | PErr _ => mret tt
       | PNull => fault
       | PPtr x => if bool_decide (is_Some (d_inode x)) then ovl_cleanup dir x;; mret tt else mret tt
       end);;
      cleanup_whiteouts_loop upper dir l
  end.
Definition ovl_cleanup_whiteouts (upper : dentry) (l : list centry) : kernel W unit :=
  dir ← deref (d_inode upper);
  inode_lock dir;;
  cleanup_whiteouts_loop upper dir l;;
  inode_unlock dir.

(** The whole of ovl_lower_positive: its negative dentry has no inode. *)
Definition lower_positive (d : Z) : kernel W bool :=
  old_cred ← ovl_override_creds creator_cred;
  r ← (e ← dent d;
       pe ← dent (dn_parent e);
       asko (λ st, ovl_lower_positive (k_w st) (dn_name e)
                     (if dn_inode e =? NULL then None else k_inodes st !! dn_inode e)
                     (dn_entry e) (oe_lowerstack (dn_entry pe))));
  revert_creds old_cred;;
  mret r.

Definition d_drop (d : Z) : kernel W unit :=
  e ← dent d;
  modify (λ st, set_k_dents (<[d := set_dn_hashed false e]> (k_dents st)) st).

(** The parent of a dentry, its upper directory and that directory's inode. *)
Definition upper_parent (d : Z) : kernel W (Z * dentry * inode) :=
  e ← dent d;
  pv ← oview (dn_parent e);
  upperdir ← deref (ovl_dentry_upper pv);
  udir ← deref (d_inode upperdir);
  mret (dn_parent e, upperdir, udir).

(** ** New inodes *)

(** The inode an operation gives to a new dentry: one that it has just
    allocated, which no one else can see yet, or the inode of a hard link. *)
Inductive inode_arg : Type := Preallocated (o : ovl_inode) | Linked (ip : Z).
Definition is_linked (i : inode_arg) : bool := match i with Linked _ => true | _ => false end.

(** super.c: ovl_alloc_inode sets the overlay's own fields; inode.c:
    ovl_new_inode *)
Definition ovl_alloc_inode (i : inode) (stale_block_status : list Z) : ovl_inode :=
  OvlInode None None 0 0 i None None (alloc_blocks stale_block_status).
Definition ovl_new_inode (mode rdev : Z) : kernel W (option ovl_inode) :=
  st ← get;
  match new_inode (k_w st) with
  | None => mret None
  | Some (i, stale) =>
      let i := ovl_fill_inode (k_ofs st) (get_next_ino (k_w st)) i mode rdev 0 0 in
      mret (Some (ovl_alloc_inode i stale))
  end.

(** ovl_get_inode for a new upper object: the preallocated inode, or the one
    another thread has put into the cache; it becomes visible here *)
Definition get_new_inode (o : ovl_inode) (newdentry : dentry) : kernel W (Z + Z) :=
  st ← get;
  let iget5 key := match racing_alias (k_w st) key with
                   | Some alias => Some (alias, false) | None => Some (o, true) end in
  r ← asko (λ st, ovl_get_inode s_export_op (get_next_ino (k_w st)) iget5 None
                    (k_w st) (k_ofs st) (InodeParams true (Some newdentry) None None 0 None None));
  match r with
  | inl e => mret (inl e)
  | inr o =>
      let ip := fresh (dom (k_inodes st) ∪ {[NULL]}) in
      modify (λ st, set_k_inodes (<[ip := o]> (k_inodes st)) st);;
      mret (inr ip)
  end.

(** ** dir.c *)

Definition d_instantiate (d ip : Z) : kernel W unit :=
  e ← dent d;
  modify (λ st, set_k_dents (<[d := set_dn_inode ip e]> (k_dents st)) st).

Definition ovl_instantiate (d : Z) (inode : inode_arg) (newdentry : dentry) : kernel W Z :=
  e ← dent d;
  overlay_dir_modified (dn_parent e) false;;
  modify_entry d ovl_dentry_set_upper_alias;;
  r ← match inode with
      | Preallocated o => get_new_inode o newdentry
      | Linked ip => modify_inode ip inc_nlink;; mret (inr ip)
      end;
  match r with
  | inl err => mret err
  | inr ip =>
      d_instantiate d ip;;
      (if is_linked inode then d_drop d else mret tt);;
      mret 0
  end.

Definition ovl_create_upper (d : Z) (inode : inode_arg) (attr : ovl_cattr) : kernel W Z :=
  '(parent, upperdir, udir) ← upper_parent d;
  let hardlink := bool_decide (is_Some (ca_hardlink attr)) in
  umask ← ask (λ st, current_umask (k_w st));
  let attr := if negb hardlink && negb (IS_POSIXACL udir)
              then Cattr (ca_rdev attr) (Z.ldiff (ca_mode attr) umask) (ca_link attr) (ca_hardlink attr)
              else attr in
  inode_lock udir;;
  err ← (
    e ← dent d;
    x ← lookup_locked (dn_name e) upperdir;
    newdentry ← ovl_create_real udir x attr;
    match newdentry with
    | PErr err => mret err
    | PNull => fault
    | PPtr newdentry =>
        pv ← oview parent;
        (if ovl_type_merge pv && d_is_dir newdentry then ovl_set_opaque d newdentry;; mret tt else mret tt);;
        err ← ovl_instantiate d inode newdentry;
        if negb (err =? 0) then ovl_cleanup udir newdentry;; mret err else mret 0
    end);
  inode_unlock udir;;
  mret err.

(** Replace a directory that only holds whiteouts by an empty opaque one. *)
Definition ovl_clear_empty (d : Z) (l : list centry) : kernel W (eptr dentry) :=
  wd ← ovl_workdir workdir;
  workdir ← deref wd;
  wdir ← deref (d_inode workdir);
  '(_, upperdir, udir) ← upper_parent d;
  err ← ovl_lock_rename_workdir workdir upperdir;
  if negb (err =? 0) then mret (PErr err) else
  r ← (
    v ← oview d;
    ofs ← ask k_ofs;
    let upperpath := ovl_path_upper ofs v in
    '(err, stat) ← ask (λ st, vfs_getattr (k_w st) upperpath STATX_BASIC_STATS);
    if negb (err =? 0) then mret (inl err) else
    if negb (S_ISDIR (st_mode stat)) then mret (inl (- ESTALE)) else
    upper ← deref (p_dentry upperpath);
    parent ← ask (λ st, real_parent (k_w st) upper);
    if negb (same_inode (d_inode parent) (Some udir)) then mret (inl (- ESTALE)) else
    opaquedir ← ovl_create_temp workdir (OVL_CATTR (st_mode stat));
    match opaquedir with
    | PErr err => mret (inl err)
    | PNull => fault
    | PPtr opaquedir =>
        err ← ovl_copy_xattr upper opaquedir;
        err ← (if negb (err =? 0) then mret err else ovl_set_opaque d opaquedir);
        err ← (if negb (err =? 0) then mret err else
               oi ← deref (d_inode opaquedir);
               inode_lock oi;;
               err ← ovl_set_attr opaquedir stat;
               inode_unlock oi;; mret err);
        err ← (if negb (err =? 0) then mret err
               else ovl_do_rename wdir opaquedir udir upper RENAME_EXCHANGE);
        if negb (err =? 0) then ovl_cleanup wdir opaquedir;; mret (inl err) else
        ovl_cleanup_whiteouts upper l;;
        ovl_cleanup wdir upper;;
        mret (inr opaquedir)
    end);
  unlock_rename workdir upperdir;;
  match r with
  | inl err => mret (PErr err)
  | inr opaquedir => d_drop d;; mret (PPtr opaquedir)
  end.

Definition ovl_set_upper_acl (upper : dentry) (name : string) (acl : option posix_acl) : kernel W Z :=
  match acl with
  | None => mret 0
  | Some acl =>
      let size := posix_acl_xattr_size (a_count acl) in
      ok ← ask (λ st, kmalloc_ok (k_w st) size);
      if negb ok then mret (- ENOMEM) else
      let '(err, buffer) := posix_acl_to_xattr acl size in
      if err <? 0 then mret err else ovl_do_setxattr upper name (ztake size buffer) XATTR_CREATE
  end.

End dir.
