(* ===== verification/DirOps.v ===== *)
(** dir.c: the operations of directories - creating an object beside or over a
    whiteout, hard links, removal with and without a whiteout, rename. *)

From S2P Require Import Prelude Types Util Under Nlink Fh Redirect Inode Block Readdir Lookup Kernel Work CopyUp Dir.
From stdpp Require Import gmap.
Local Open Scope Z_scope.

Section dir_ops.
Context {W : Type} `{Under W, Kern W, DirKern W, RbLib}.
Context (creator_cred : Z) (workdir indexdir : dentry) (export_op : Z → option (bool * bool)).
Context (ovl_redirect_max : Z) (kmalloc : list centry → string → bool) (s_export_op : bool).
Context (fuel depth : nat).

#[local] Abbreviation copy_up := (ovl_copy_up creator_cred workdir indexdir export_op fuel depth).
#[local] Abbreviation nlink_start := (ovl_nlink_start creator_cred workdir indexdir export_op fuel depth).
#[local] Abbreviation nlink_end := (ovl_nlink_end creator_cred indexdir).
#[local] Abbreviation set_redirect := (overlay_set_redirect ovl_redirect_max depth).

(** ** Creation *)

Definition ovl_create_over_whiteout (d : Z) (inode : inode_arg) (cattr : ovl_cattr) : kernel W Z :=
  wd ← ovl_workdir workdir;
  workdir ← deref wd;
  wdir ← deref (d_inode workdir);
  '(parent, upperdir, udir) ← upper_parent d;
  let hardlink := bool_decide (is_Some (ca_hardlink cattr)) in
  pv ← oview parent;
  '(err, mode, default_acl, acl) ←
    (if hardlink then mret (0, ca_mode cattr, None, None)
     else ask (λ st, posix_acl_create (k_w st) (oi_vfs (od_inode pv)) (ca_mode cattr)));
  if negb (err =? 0) then mret err else
  let cattr := Cattr (ca_rdev cattr) mode (ca_link cattr) (ca_hardlink cattr) in
  ovl_lock_rename_workdir workdir upperdir ;?
  err ← (
    e ← dent d;
    upper ← lookup_locked (dn_name e) upperdir;
    match upper with
    | PErr err => mret err
    | PNull => fault
    | PPtr upper =>
        if negb (ovl_is_whiteout upper) then mret (- ESTALE) else
        newdentry ← ovl_create_temp workdir cattr;
        match newdentry with
        | PErr err => mret err
        | PNull => fault
        | PPtr newdentry =>
            ni ← deref (d_inode newdentry);
            err ← (
              (if negb hardlink && negb (S_ISLNK mode) && negb (i_mode ni =? mode) then
                 inode_lock ni;;
                 err ← notify newdentry (IAttr ATTR_MODE (IAttrs 0 0 mode 0 0 0 0));
                 inode_unlock ni;; mret err
               else mret 0) ;?
              (if hardlink then mret 0 else
                 ovl_set_upper_acl newdentry XATTR_NAME_POSIX_ACL_ACCESS acl ;?
                 ovl_set_upper_acl newdentry XATTR_NAME_POSIX_ACL_DEFAULT default_acl) ;?
              (if negb hardlink && S_ISDIR mode then
                 ovl_set_opaque d newdentry ;?
                 ovl_do_rename wdir newdentry udir upper RENAME_EXCHANGE ;?
                 (ovl_cleanup wdir upper;; mret 0)
               else ovl_do_rename wdir newdentry udir upper 0) ;?
              ovl_instantiate s_export_op d inode newdentry);
            if negb (err =? 0) then ovl_cleanup wdir newdentry;; mret err else mret 0
        end
    end);
  unlock_rename workdir upperdir;;
  mret err.

(** The inode a dentry shows, if it has one. *)
Definition dentry_inode (st : kst W) (e : odent) : option ovl_inode :=
  if dn_inode e =? NULL then None else k_inodes st !! dn_inode e.

Definition ovl_create_or_link (d : Z) (inode : inode_arg) (attr : ovl_cattr) (origin : bool) : kernel W Z :=
  e ← dent d;
  copy_up (dn_parent e) ;?
  old_cred ← ovl_override_creds creator_cred;
  err ← (
    (if (origin : bool) then
       pv ← oview (dn_parent e);
       u ← deref (ovl_dentry_upper pv);
       overlay_set_impure (dn_parent e) u
     else mret 0) ;?
    o ← match inode with Preallocated o => mret o | Linked ip => inode_of ip end;
    cred ← ask (λ st, prepare_creds (k_w st) (oi_vfs o));
    match cred with
    | None => mret (- ENOMEM)
    | Some cred =>
        (if bool_decide (is_Some (ca_hardlink attr)) then mret 0
         else ask (λ st, security_dentry_create_files_as (k_w st) d (ca_mode attr) old_cred cred)) ;?
        override_creds cred;;
        e ← dent d;
        o ← ask (λ st, dentry_inode st e);
        if negb (ovl_dentry_is_whiteout o (dn_entry e)) then ovl_create_upper s_export_op d inode attr
        else ovl_create_over_whiteout d inode attr
    end);
  revert_creds old_cred;;
  mret err.

Definition ovl_create_object (d mode rdev : Z) (link : string) : kernel W Z :=
  ovl_want_write ;?
  err ← (
    inode ← ovl_new_inode mode rdev;
    match inode with
    | None => mret (- ENOMEM)
    | Some o =>
        e ← dent d;
        pe ← dent (dn_parent e);
        po ← inode_of (dn_inode pe);
        vfs ← ask (λ st, inode_init_owner (k_w st) (oi_vfs o) (oi_vfs po) mode);
        ovl_create_or_link d (Preallocated (set_oi_vfs vfs o)) (Cattr rdev (i_mode vfs) link None) false
    end);
  ovl_drop_write;;
  mret err.

Definition ovl_create (d mode : Z) : kernel W Z :=
  ovl_create_object d (Z.lor (Z.land mode 4095) S_IFREG) 0 "".
Definition ovl_mkdir (d mode : Z) : kernel W Z :=
  ovl_create_object d (Z.lor (Z.land mode 4095) S_IFDIR) 0 "".
Definition ovl_mknod (d mode rdev : Z) : kernel W Z :=
  if S_ISCHR mode && (rdev =? WHITEOUT_DEV) then mret (- EPERM) else ovl_create_object d mode rdev "".
Definition ovl_symlink (d : Z) (link : string) : kernel W Z := ovl_create_object d S_IFLNK 0 link.

(** ** Hard links *)

Definition ovl_set_link_redirect (d : Z) : kernel W Z :=
  old_cred ← ovl_override_creds creator_cred;
  err ← set_redirect d false;
  revert_creds old_cred;;
  mret err.

Definition ovl_link (old new : Z) : kernel W Z :=
  ovl_want_write ;?
  err ← (
    copy_up old ;?
    e ← dent new;
    copy_up (dn_parent e) ;?
    v ← oview old;
    (if ovl_is_metacopy_dentry v then ovl_set_link_redirect old else mret 0) ;?
    nlink_start old ;?
    err ← (
      eo ← dent old;
      v ← oview old;
      ovl_create_or_link new (Linked (dn_inode eo)) (Cattr 0 0 "" (ovl_dentry_upper v)) (ovl_type_origin v));
    nlink_end old;;
    mret err);
  ovl_drop_write;;
  mret err.

(** ** Removal *)

(** The replaced directory, if [l] names whiteouts to get rid of first. *)
Definition clear_first (d : Z) (l : list centry) : kernel W (Z + option dentry) :=
  match l with
  | [] => mret (inr None)
  | _ =>
      r ← ovl_clear_empty workdir d l;
      match r with
      | PErr e => mret (inl e)
      | PNull => fault
      | PPtr o => mret (inr (Some o))
      end
  end.

Definition ovl_remove_and_whiteout (d : Z) (l : list centry) : kernel W Z :=
  wd ← ovl_workdir workdir;
  '(parent, upperdir, udir) ← upper_parent d;
  match wd with
  | None => mret (- EROFS)
  | Some workdir =>
      r ← clear_first d l;
      match r with
      | inl err => mret err
      | inr opaquedir =>
          ovl_lock_rename_workdir workdir upperdir ;?
          err ← (
            e ← dent d;
            upper ← lookup_locked (dn_name e) upperdir;
            match upper with
            | PErr err => mret err
            | PNull => fault
            | PPtr upper =>
                v ← oview d;
                stale ← match opaquedir with
                        | Some o => mret (negb (same_dentry upper o))
                        | None =>
                            if bool_decide (is_Some (ovl_dentry_upper v))
                            then asko (λ _, matches ← ovl_matches_upper v upper; Ret (negb matches))
                            else mret false
                        end;
                if (stale : bool) then mret (- ESTALE) else
                err ← ovl_cleanup_and_whiteout workdir udir upper;
                (if err =? 0 then overlay_dir_modified parent true else mret tt);;
                d_drop d;;
                mret err
            end);
          unlock_rename workdir upperdir;;
          mret err
      end
  end.

Definition ovl_remove_upper (d : Z) (is_dir : bool) (l : list centry) : kernel W Z :=
  '(parent, upperdir, dir) ← upper_parent d;
  r ← clear_first d l;
  match r with
  | inl err => mret err
  | inr opaquedir =>
      inode_lock dir;;
      err ← (
        e ← dent d;
        upper ← lookup_locked (dn_name e) upperdir;
        match upper with
        | PErr err => mret err
        | PNull => fault
        | PPtr upper =>
            v ← oview d;
            stale ← match opaquedir with
                    | Some o => mret (negb (same_dentry upper o))
                    | None => asko (λ _, matches ← ovl_matches_upper v upper; Ret (negb matches))
                    end;
            if (stale : bool) then mret (- ESTALE) else
            err ← (if is_dir then ovl_do_rmdir dir upper else ovl_do_unlink dir upper);
            overlay_dir_modified parent (ovl_type_origin v);;
            (if err =? 0 then d_drop d else mret tt);;
            mret err
        end);
      inode_unlock dir;;
      mret err
  end.

(** Copy the attributes of the upper inode, ctime among them. *)
Definition copyattr_from (real : option inode) (d : Z) : kernel W unit :=
  ui ← deref real;
  ui ← ask (λ st, inode_now (k_w st) ui);
  modify_dinode d (λ o, set_oi_vfs (ovl_copyattr ui (oi_vfs o)) o).

Definition ovl_do_remove (d : Z) (is_dir : bool) : kernel W Z :=
  positive ← lower_positive creator_cred d;
  v ← oview d;
  '(err, l) ← (if is_dir && (positive || negb (ovl_pure_upper v))
               then check_empty_dir creator_cred kmalloc d else mret (0, []));
  if negb (err =? 0) then mret err else
  ovl_want_write ;?
  err ← (
    e ← dent d;
    copy_up (dn_parent e) ;?
    nlink_start d ;?
    err ← (
      old_cred ← ovl_override_creds creator_cred;
      err ← (if negb positive then ovl_remove_upper d is_dir l else ovl_remove_and_whiteout d l);
      revert_creds old_cred;;
      (if err =? 0 then modify_dinode d (if is_dir then clear_nlink else drop_nlink) else mret tt);;
      mret err);
    nlink_end d;;
    v ← oview d;
    match ovl_dentry_upper v with
    | Some u => copyattr_from (d_inode u) d;; mret err
    | None => mret err
    end);
  ovl_drop_write;;
  mret err.

Definition ovl_unlink (d : Z) : kernel W Z := ovl_do_remove d false.
Definition ovl_rmdir (d : Z) : kernel W Z := ovl_do_remove d true.

End dir_ops.
