(* ===== verification/DirSteps.v ===== *)
(** How the directory operations change the overlay.  [extends] is what every
    step keeps: dentries stay where they are, upper dentries, flags and links
    stay, well-formedness ([ok]) is preserved; new inodes may appear.  A
    computation [keeps] a state when from every later state it returns, extends
    and gives back what the thread held. *)

From S2P Require Import Prelude Types Util Under Nlink Fh Redirect RedirectProps Inode Block Readdir Lookup LookupProps Kernel KernelProps Work CopyUp WorkProps CopyUpSteps CopyUpStages CopyUpProps Dir.
From stdpp Require Import gmap.
Local Open Scope Z_scope.

(** ** What every step keeps *)

(** [fz]: the dentry also stays negative or hashed if it is. *)
Record dent_keeps (fz : Prop) (e e' : odent) : Prop := {
  dk_name : dn_name e' = dn_name e;
  dk_flags : dn_flags e' = dn_flags e;
  dk_parent : dn_parent e' = dn_parent e;
  dk_still : dn_inode e ≠ NULL ∨ fz → dn_inode e' = dn_inode e;
  dk_entry : entry_grows (dn_entry e) (dn_entry e');
  dk_unhashed : dn_hashed e = false → dn_hashed e' = false;
  dk_hashed : fz → dn_hashed e' = dn_hashed e;
}.
Arguments dk_name {fz} e e'. Arguments dk_flags {fz} e e'. Arguments dk_parent {fz} e e'.
Arguments dk_still {fz} e e'. Arguments dk_entry {fz} e e'. Arguments dk_unhashed {fz} e e'. Arguments dk_hashed {fz} e e'.
#[export] Instance dent_keeps_preorder fz : PreOrder (dent_keeps fz).
Proof.
  split; [by split|]. intros a b c [n1 f1 p1 i1 e1 h1 k1] [n2 f2 p2 i2 e2 h2 k2].
  split; [congruence..| |by etrans|auto|intros Hf; by rewrite k2, k1]. intros Hn. rewrite i2; [by apply i1|by rewrite i1].
Qed.
Lemma dent_grows_keeps fz e e' : dent_grows e e' → dent_keeps fz e e'.
Proof. intros [n f p i h en]. split; [done..| |done]. by rewrite h. Qed.
Lemma dk_inode {fz} e e' : dent_keeps fz e e' → dn_inode e ≠ NULL → dn_inode e' = dn_inode e.
Proof. intros Hk Hn. apply (dk_still _ _ Hk). by left. Qed.
Lemma dent_keeps_weaken {fz : Prop} {fz' : Prop} e e' : (fz' → fz) → dent_keeps fz e e' → dent_keeps fz' e e'.
Proof. intros Hf [n f p i en h k]. split; [done..| |done|done|auto]. intros [|]; apply i; auto. Qed.

(** What a step may not change: dentries that stay negative or hashed, and
    whether inodes may get an upper dentry. *)
Record frozen : Type := Frozen { fz_dent :> Z → Prop; fz_uppers : Prop }.

Section extends.
Context {W : Type} {N : frozen}.
Implicit Types (st : kst W).

Record extends st st' : Prop := {
  ex_ofs : ofs_rel (k_ofs st) (k_ofs st');
  ex_dents d e : k_dents st !! d = Some e → ∃ e', k_dents st' !! d = Some e' ∧ dent_keeps (N d) e e';
  ex_inodes i o : k_inodes st !! i = Some o →
    ∃ o', k_inodes st' !! i = Some o' ∧ inode_grows (ovl_indexdir (k_ofs st)) o o';
  ex_uppers i o o' : fz_uppers N → k_inodes st !! i = Some o → k_inodes st' !! i = Some o' → oi_upper o' = oi_upper o;
  ex_ok : ok st → ok st';
}.
#[export] Instance extends_preorder : PreOrder extends.
Proof.
  split.
  - intros st. split; [done|by eexists|by eexists| |done]. intros i o o' _ Ho Ho'. congruence.
  - intros a b c [o1 d1 i1 u1 k1] [o2 d2 i2 u2 k2]. split; [by etrans| | | |by auto].
    + intros d e He. destruct (d1 d e He) as (e' & He' & Hk). destruct (d2 d e' He') as (e2 & He2 & Hk2).
      exists e2. split; [done|by etrans].
    + intros i o Ho. destruct (i1 i o Ho) as (o' & Ho' & Hk). destruct (i2 i o' Ho') as (o3 & Ho3 & Hk2).
      exists o3. split; [done|]. rewrite (ofs_rel_indexdir _ _ o1) in Hk2. by etrans.
    + intros i o o' Hf Ho Ho'. destruct (i1 i o Ho) as (o2' & Ho2 & _). rewrite (u2 i o2' o') by done. by apply (u1 i).
Qed.

Lemma grows_extends st st' : grows st st' → (fz_uppers N → same_uppers st st') → extends st st'.
Proof.
  intros Hg Hu. split; [apply Hg| | | |intros ?; by eapply ok_grows].
  - intros d e He. destruct (grows_dent _ _ _ _ Hg He) as (e' & ? & ?%(dent_grows_keeps (N d))). by exists e'.
  - intros i o Ho. by eapply grows_inode.
  - intros i o o' Hf Ho Ho'. specialize (Hu Hf i). rewrite Ho, Ho' in Hu. by injection Hu.
Qed.

Lemma not_null st i o : ok st → k_inodes st !! i = Some o → i ≠ NULL.
Proof. intros Hok Ho ->. by rewrite (ok_null _ Hok) in Ho. Qed.

Lemma extends_view st st' d v :
  ok st → extends st st' → view_at st d = Some v →
  ∃ v', view_at st' d = Some v' ∧ view_grows (ovl_indexdir (k_ofs st)) v v'.
Proof.
  intros Hok Hx Hv. apply view_inv in Hv as (e & o & He & Ho & ->).
  destruct (ex_dents _ _ Hx _ _ He) as (e' & He' & [Hn Hf Hp Hi Hen _ _]).
  destruct (ex_inodes _ _ Hx _ _ Ho) as (o' & Ho' & Hgo).
  exists (ODentry d (dn_name e') (dn_flags e') o' (dn_entry e')). split; [|by split].
  unfold view_at, view. rewrite He'. cbn. rewrite Hi by (left; by eapply not_null). by rewrite Ho'.
Qed.

Lemma extends_upper st st' p : ok st → extends st st' → has_upper st p → has_upper st' p.
Proof.
  intros Hok Hx (v & Hv & [u Hu]). destruct (extends_view _ _ _ _ Hok Hx Hv) as (v' & Hv' & Hg).
  exists v'. split; [done|]. exists u. by apply (ig_upper (vg_inode _ _ _ Hg)).
Qed.

(** Two states that differ in what is held. *)
Lemma extends_held st h : extends st (set_k_held h st).
Proof. apply grows_extends; [apply grows_held|]. by intros _ i. Qed.
Lemma extends_same st st' :
  ofs_rel (k_ofs st) (k_ofs st') → k_dents st' = k_dents st → k_inodes st' = k_inodes st → extends st st'.
Proof.
  intros Ho Hd Hi. apply grows_extends; [apply grows_intro; [done..|]|]; [|intros _]; intros i; rewrite Hi; reflexivity.
Qed.

Definition reach st st' : Prop := extends st st' ∧ k_held st' = k_held st.
#[export] Instance reach_preorder : PreOrder reach.
Proof. split; [by split|]. intros a b c [x1 h1] [x2 h2]. split; [by etrans|congruence]. Qed.
Lemma prepares_reach st st' : prepares st st' → reach st st'.
Proof. intros [[Hg Hh] Hu]. split; [by apply grows_extends|done]. Qed.
Lemma evolves_reach st st' : ¬ fz_uppers N → evolves st st' → reach st st'.
Proof. intros Hn [Hg Hh]. split; [by apply grows_extends|done]. Qed.
Lemma quiet_reach st st' : quiet st st' → reach st st'.
Proof. intros Hq. by apply prepares_reach, quiet_prepares. Qed.

End extends.
Arguments extends {W} N st st'. Arguments reach {W} N st st'.
Arguments ex_ofs {W N} st st'. Arguments ex_dents {W N} st st'. Arguments ex_inodes {W N} st st'. Arguments ex_ok {W N} st st'.
Arguments ex_uppers {W N} st st'.

Class weaker (M N : frozen) : Prop := weaker_sub : (∀ d, M d → N d) ∧ (fz_uppers M → fz_uppers N).
#[export] Instance weaker_refl N : weaker N N.
Proof. by split. Qed.
(** The two extremes, and: no inode gets an upper dentry. *)
Definition nobody : frozen := Frozen (λ _, False) False.
Definition everybody : frozen := Frozen (λ _, True) False.
Definition settled : frozen := Frozen (λ _, False) True.
(** No dentry is frozen. *)
Class droppable (N : frozen) : Prop := no_dent d : ¬ N d.
#[export] Instance droppable_nobody : droppable nobody.
Proof. by intros d []. Qed.
#[export] Instance droppable_settled : droppable settled.
Proof. by intros d []. Qed.
#[export] Instance weaker_nobody N : weaker nobody N.
Proof. by split. Qed.

Lemma extends_weaken {W} {N M : frozen} `{Hw : !weaker M N} (st st' : kst W) : extends N st st' → extends M st st'.
Proof.
  destruct Hw as [Hs Hu]. intros [o d i u k]. split; [done| |done|intros ????; apply u, Hu; done|done].
intros x e He. destruct (d x e He) as (e' & He' & Hk).
  exists e'. split; [done|]. eapply dent_keeps_weaken; [apply Hs|done].
Qed.
Lemma reach_weaken {W} {N M : frozen} `{!weaker M N} (st st' : kst W) : reach N st st' → reach M st st'.
Proof. intros [Hx Hh]. split; [by eapply extends_weaken|done]. Qed.

Lemma grows_everybody {W} (st st' : kst W) : grows st st' → extends everybody st st'.
Proof. intros Hg. apply grows_extends; [done|]. by intros []. Qed.
Lemma evolves_everybody {W} (st st' : kst W) : evolves st st' → reach everybody st st'.
Proof. intros Hg. apply evolves_reach; [by intros []|done]. Qed.

(** ** Computations that keep a state: the dentries of [N] have kept their state
    before it, those of [M] after it. *)

Definition gives {W} (N M : frozen) (st0 : kst W) {A} (m : kernel W A) (Q : A → kst W → Prop) : Prop :=
  ∀ st, reach N st0 st → wp m st (λ a st', reach M st st' ∧ Q a st').
Definition keeps {W} (N M : frozen) (st0 : kst W) {A} (m : kernel W A) (P : A → Prop) : Prop :=
  gives N M st0 m (λ a _, P a).
(** [achieves F]: a result 0 means that [F] holds from now on. *)
Definition achieves {W} (N M : frozen) (st0 : kst W) (m : kernel W Z) (F : kst W → Prop) : Prop :=
  gives N M st0 m (λ r st, r = 0 → F st).
Definition lasting {W} (F : kst W → Prop) : Prop := ∀ st st', extends nobody st st' → F st → F st'.

Section keeps.
Context {W : Type} {N M : frozen} `{!weaker M N}.
Implicit Types (st : kst W).

Lemma reach_weaker st st' : reach N st st' → reach M st st'.
Proof. by apply reach_weaken. Qed.

Lemma keeps_ret st0 {A} (a : A) (P : A → Prop) : P a → keeps N M st0 (mret a) P.
Proof. intros HP st Hst. by split. Qed.
Lemma keeps_bind st0 {A B} (m : kernel W A) (f : A → kernel W B) (P : A → Prop) (Q : B → Prop) :
  keeps N N st0 m P → (∀ a, P a → keeps N M st0 (f a) Q) → keeps N M st0 (m ≫= f) Q.
Proof.
  intros Hm Hf st Hst. eapply wp_seq; [by apply Hm|]. intros a st' [Hr HP].
  eapply wp_mono; [apply (Hf a HP); by etrans|]. intros b st2 [Hr2 HQ].
  split; [etrans; [by apply reach_weaker|done]|done].
Qed.
Lemma keeps_bind_to st0 {A B} (m : kernel W A) (f : A → kernel W B) (P : A → Prop) (Q : B → Prop) :
  keeps N M st0 m P → (∀ a, P a → keeps M M st0 (f a) Q) → keeps N M st0 (m ≫= f) Q.
Proof.
  intros Hm Hf st Hst. eapply wp_seq; [by apply Hm|]. intros a st' [Hr HP].
  eapply wp_mono; [apply (Hf a HP); etrans; [by apply reach_weaker|done]|]. intros b st2 [Hr2 HQ].
  split; [by etrans|done].
Qed.
Lemma keeps_mono st0 {A} (m : kernel W A) (P Q : A → Prop) :
  keeps N M st0 m P → (∀ a, P a → Q a) → keeps N M st0 m Q.
Proof. intros Hm HPQ st Hst. eapply wp_mono; [by apply Hm|]. naive_solver. Qed.
Lemma keeps_weaken st0 {A} (m : kernel W A) P : keeps N N st0 m P → keeps N M st0 m P.
Proof. intros Hm st Hst. eapply wp_mono; [by apply Hm|]. intros a st' [Hr HP]. split; [by apply reach_weaker|done]. Qed.
Lemma keeps_restart {L : frozen} `{!weaker M L} st0 {A} (m : kernel W A) P :
  (∀ st, reach N st0 st → keeps L L st m P) → keeps N M st0 m P.
Proof.
  intros Hm st Hst. eapply wp_mono; [by apply (Hm st Hst)|]. intros a st' [Hr HP]. split; [by apply (reach_weaken (N := L))|done].
Qed.
Lemma keeps_later st0 st1 {A} (m : kernel W A) P : reach N st0 st1 → keeps N M st0 m P → keeps N M st1 m P.
Proof. intros Hr Hm st Hst. apply Hm. by etrans. Qed.
Lemma keeps_wp st {A B} (m : kernel W A) (f : A → kernel W B) P Q :
  keeps N M st m P → (∀ a st', reach M st st' → P a → wp (f a) st' Q) → wp (m ≫= f) st Q.
Proof. intros Hm Hf. eapply wp_seq; [by apply Hm|]. naive_solver. Qed.

Lemma keeps_quiet st0 {A} (m : kernel W A) P : (∀ st, reach N st0 st → quietly st m P) → keeps N M st0 m P.
Proof.
  intros Hm st Hst. eapply wp_mono; [by apply (Hm st Hst)|]. intros a st' [Hq HP]. split; [by apply quiet_reach|done].
Qed.
Lemma keeps_prepares st0 {A} (m : kernel W A) P :
  (∀ st, reach N st0 st → wp m st (λ a st', prepares st st' ∧ P a)) → keeps N M st0 m P.
Proof.
  intros Hm st Hst. eapply wp_mono; [by apply (Hm st Hst)|]. intros a st' [Hq HP]. split; [by apply prepares_reach|done].
Qed.

Lemma keeps_ask st0 {A} (f : kst W → A) P : (∀ st, reach N st0 st → P (f st)) → keeps N M st0 (ask f) P.
Proof. intros HP. apply keeps_quiet. intros st Hst. apply quietly_ask. intros st' Hq. apply HP. etrans; [exact Hst|by apply quiet_reach]. Qed.
Lemma keeps_get st0 : keeps N M st0 get (reach N st0).
Proof. intros st Hst. by split. Qed.
Lemma keeps_asko st0 {A} (f : kst W → outcome A) P :
  (∀ st, reach N st0 st → ∃ a, f st = Ret a ∧ P a) → keeps N M st0 (asko f) P.
Proof. intros HP st Hst. unfold wp, asko. destruct (HP st Hst) as (a & -> & HPa). by split. Qed.
Lemma keeps_deref st0 {A} (p : option A) a (P : A → Prop) : p = Some a → P a → keeps N M st0 (deref p) P.
Proof. intros ->. apply keeps_ret. Qed.
Lemma keeps_dent st0 d e : k_dents st0 !! d = Some e → keeps N M st0 (dent d) (dent_keeps (N d) e).
Proof.
  intros He st [Hx Hh]. destruct (ex_dents _ _ Hx _ _ He) as (e' & He' & Hk). unfold wp, dent. by rewrite He'.
Qed.
Lemma keeps_inode st0 i o :
  k_inodes st0 !! i = Some o → keeps N M st0 (inode_of i) (inode_grows (ovl_indexdir (k_ofs st0)) o).
Proof.
  intros He st [Hx Hh]. destruct (ex_inodes _ _ Hx _ _ He) as (e' & He' & Hk). unfold wp, inode_of. by rewrite He'.
Qed.
Lemma keeps_oview st0 d v :
  ok st0 → view_at st0 d = Some v → keeps N M st0 (oview d) (view_grows (ovl_indexdir (k_ofs st0)) v).
Proof.
  intros Hok Hv st [Hx Hh]. destruct (extends_view _ _ _ _ Hok Hx Hv) as (v' & Hv' & Hg).
  unfold view_at in Hv'. unfold wp, oview. by rewrite Hv'.
Qed.
Lemma keeps_then st0 (m k : kernel W Z) : keeps N N st0 m any → keeps N M st0 k any → keeps N M st0 (m ;? k) any.
Proof.
  intros Hm Hk. unfold ok_then. eapply keeps_bind; [exact Hm|]. intros r _. case_match; [by apply keeps_ret|done].
Qed.

End keeps.

(** ** Locks and credentials *)

Section brackets.
Context {W : Type} `{Under W, !UnderLaws W, Kern W, !KernLaws W}.
Context {N M : frozen} `{!weaker M N}.
Implicit Types (st : kst W).

Lemma reach_locked st st' i : reach N st st' → locked st i → locked st' i.
Proof. intros [_ Hh]. unfold locked. by rewrite Hh. Qed.

(** A body between two changes of what is held. *)
Lemma wp_between st {A B} h (m : kernel W A) (rel : kernel W unit) (k : A → kernel W B) (P : A → kst W → Prop) Q :
  gives N M (set_k_held h st) m P → (∀ a, lasting (P a)) →
  (∀ st', k_held st' = h → wp rel st' (λ _ st2, st2 = set_k_held (k_held st) st')) →
  (∀ a st', reach M st st' → P a st' → wp (k a) st' Q) →
  wp (a ← m; rel;; k a) (set_k_held h st) Q.
Proof.
  intros Hm HP Hrel Hk. eapply wp_seq; [by apply Hm|].
  intros a st1 [[Hx1 Hh1] HPa]. eapply wp_seq; [apply Hrel; by rewrite Hh1|]. intros _ st2 ->.
  apply Hk; [|eapply HP; [apply extends_held|done]]. split; [|done]. etrans; [apply (extends_held st h)|]. etrans; [exact Hx1|apply extends_held].
Qed.

Lemma gives_set_held st0 st h {A} (m : kernel W A) P :
  reach N st0 st → gives N M (set_k_held h st0) m P → gives N M (set_k_held h st) m P.
Proof.
  intros [Hx Hh] Hm st' Hst'. apply Hm. etrans; [|exact Hst']. split; [|done].
  etrans; [|etrans; [exact Hx|]]; apply extends_same; (by left) || done.
Qed.

Definition lock_held (ls : list lock) (h : held) : held := with_locks (ls ++ h_locks h) h.

Lemma wp_in_lock st {A B} i (m : kernel W A) (k : A → kernel W B) (P : A → kst W → Prop) Q :
  gives N M (set_k_held (lock_held [LInode (i_ptr i)] (k_held st)) st) m P → (∀ a, lasting (P a)) →
  (∀ a st', reach M st st' → P a st' → wp (k a) st' Q) → wp (inode_lock i;; a ← m; inode_unlock i;; k a) st Q.
Proof.
  intros Hm HP Hk. apply wp_bind, wp_lock. eapply wp_between; [exact Hm|done| |exact Hk].
  intros st' Hh'. eapply wp_unlock; [rewrite Hh'; apply unlock1_head|]. rewrite Hh'. by destruct (k_held st).
Qed.
Lemma keeps_locked st0 {A B} i (m : kernel W A) (k : A → kernel W B) P Q :
  keeps N M (set_k_held (lock_held [LInode (i_ptr i)] (k_held st0)) st0) m P →
  (∀ a, P a → keeps M M st0 (k a) Q) → keeps N M st0 (inode_lock i;; a ← m; inode_unlock i;; k a) Q.
Proof.
  intros Hm Hk st Hst. eapply wp_in_lock; [rewrite (proj2 Hst); by eapply gives_set_held|by intros ????|].
  intros a st' Hr HP. eapply wp_mono; [apply (Hk a HP); etrans; [by apply (reach_weaker (N:=N))|done]|]. intros b st2 [Hr2 HQ]. split; [by etrans|done].
Qed.
Lemma keeps_locked_end st0 {A} i (m : kernel W A) P :
  keeps N M (set_k_held (lock_held [LInode (i_ptr i)] (k_held st0)) st0) m P →
  keeps N M st0 (inode_lock i;; m;; inode_unlock i) any.
Proof.
  intros Hm st Hst.
  assert (wp (inode_lock i;; a ← m; inode_unlock i;; mret tt) st (λ a st', reach M st st' ∧ any a)) as Hwp
    by (eapply keeps_locked; [exact Hm|intros; by apply keeps_ret|done]).
  revert Hwp. unfold wp, mbind, kernel_bind. destruct (inode_lock i st) as [[[] st1]| |]; [|done..].
  destruct (m st1) as [[a st2]| |]; [|done..]. by destruct (inode_unlock i st2) as [[[] st3]| |].
Qed.

Definition cred_held (c : Z) (h : held) : held := Held c (h_locks h) (h_write h).
Lemma wp_creds st {A B} c (m : Z → kernel W A) (k : A → kernel W B) (P : A → kst W → Prop) Q :
  gives N M (set_k_held (cred_held c (k_held st)) st) (m (h_cred (k_held st))) P → (∀ a, lasting (P a)) →
  (∀ a st', reach M st st' → P a st' → wp (k a) st' Q) →
  wp (old ← override_creds c; a ← m old; revert_creds old;; k a) st Q.
Proof.
  intros Hm HP Hk. apply wp_bind. unfold wp at 1, override_creds. eapply wp_between; [exact Hm|done| |exact Hk].
  intros st' Hh'. unfold wp, revert_creds, modify. rewrite Hh'. cbn. by destruct (k_held st).
Qed.
Lemma keeps_creds st0 {A B} c (m : Z → kernel W A) (k : A → kernel W B) P Q :
  keeps N M (set_k_held (cred_held c (k_held st0)) st0) (m (h_cred (k_held st0))) P →
  (∀ a, P a → keeps M M st0 (k a) Q) →
  keeps N M st0 (old ← override_creds c; a ← m old; revert_creds old;; k a) Q.
Proof.
  intros Hm Hk st Hst. eapply wp_creds; [rewrite (proj2 Hst); by eapply gives_set_held|by intros ????|].
  intros a st' Hr HP. eapply wp_mono; [apply (Hk a HP); etrans; [by apply (reach_weaker (N:=N))|done]|]. intros b st2 [Hr2 HQ]. split; [by etrans|done].
Qed.

(** The locks of a rename between the work directory and another one. *)
Lemma wp_rename_lock st {A B} wd dd wi di (m : kernel W A) (k : A → kernel W B) (e : Z → B) (P : A → kst W → Prop) Q :
  d_inode wd = Some wi → d_inode dd = Some di →
  (∀ st', reach M st st' → Q (e (- EIO)) st') →
  gives N M (set_k_held (lock_held [LInode (i_ptr di); LInode (i_ptr wi); LRename] (k_held st)) st) m P →
  (∀ a, lasting (P a)) →
  (∀ a st', reach M st st' → P a st' → wp (k a) st' Q) →
  wp (err ← ovl_lock_rename_workdir wd dd;
      if negb (err =? 0) then mret (e err) else (a ← m; unlock_rename wd dd;; k a)) st Q.
Proof.
  intros Hwd Hdd He Hm HP Hk. eapply wp_seq; [by apply lock_workdir_step|].
  intros r st1 [[-> Hq]|(-> & Hne & ->)]; [apply wp_ret, He; by apply quiet_reach|].
  cbn [Z.eqb negb]. eapply wp_between; [exact Hm|done| |exact Hk].
  intros st' Hh'. eapply unlock_rename_step; [done..|by rewrite Hh'|]. rewrite Hh'. by destruct (k_held st).
Qed.
Lemma keeps_rename_lock st0 {A B} wd dd wi di (m : kernel W A) (k : A → kernel W B) (e : Z → B) P (Q : B → Prop) :
  d_inode wd = Some wi → d_inode dd = Some di → Q (e (- EIO)) →
  keeps N M (set_k_held (lock_held [LInode (i_ptr di); LInode (i_ptr wi); LRename] (k_held st0)) st0) m P →
  (∀ a, P a → keeps M M st0 (k a) Q) →
  keeps N M st0 (err ← ovl_lock_rename_workdir wd dd;
             if negb (err =? 0) then mret (e err) else (a ← m; unlock_rename wd dd;; k a)) Q.
Proof.
  intros Hwd Hdd He Hm Hk st Hst.
  eapply wp_rename_lock; [done..|by intros|rewrite (proj2 Hst); by eapply gives_set_held|by intros ????|].
  intros a st' Hr HP. eapply wp_mono; [apply (Hk a HP); etrans; [by apply (reach_weaker (N:=N))|done]|]. intros b st2 [Hr2 HQ]. split; [by etrans|done].
Qed.

(** Write access to the upper mount. *)
Definition write_held (h : held) : held := Held (h_cred h) (h_locks h) (h_write h + 1).
Lemma wp_write st (m : kernel W Z) (k : Z → kernel W Z) (P : Z → kst W → Prop) Q :
  0 ≤ h_write (k_held st) →
  (∀ r st', reach M st st' → r ≠ 0 → Q r st') →
  gives N M (set_k_held (write_held (k_held st)) st) m P → (∀ a, lasting (P a)) →
  (∀ r st', reach M st st' → P r st' → wp (k r) st' Q) →
  wp (ovl_want_write ;? (r ← m; ovl_drop_write;; k r)) st Q.
Proof.
  intros Hw He Hm HP Hk. unfold ok_then, ovl_want_write. apply wp_assoc, wp_bind, wp_on_w. intros err w _.
  assert (quiet st (set_k_w w st)) as Hq by by split.
  destruct (Z.eqb_spec err 0) as [->|Hne]; cbn [negb].
  2:{ apply wp_mret. destruct (Z.eqb_spec err 0); [done|]. cbn [negb]. apply wp_ret, He; [by apply quiet_reach|done]. }
  apply wp_assoc, wp_bind. unfold wp at 1, modify. apply wp_mret. cbn [Z.eqb negb].
  eapply (wp_between (set_k_w w st) (write_held (k_held st))); [|exact HP| |].
  - eapply gives_set_held; [by apply quiet_reach|exact Hm].
  - intros st' Hh'. unfold wp, ovl_drop_write. rewrite Hh'. cbn.
    destruct (Z.leb_spec (h_write (k_held st) + 1) 0); [lia|]. f_equal.
    replace (h_write (k_held st) + 1 - 1) with (h_write (k_held st)) by lia. by destruct (k_held st).
  - intros r st' Hr. apply Hk. etrans; [by apply quiet_reach|exact Hr].
Qed.

Lemma locked_head st0 i l : locked (set_k_held (lock_held (LInode (i_ptr i) :: l) (k_held st0)) st0) i.
Proof. by left. Qed.
Lemma locked_second st0 i x l : locked (set_k_held (lock_held (x :: LInode (i_ptr i) :: l) (k_held st0)) st0) i.
Proof. by right; left. Qed.

(** Quiet operations of [Work] in a locked directory. *)
Lemma lookup_keeps st0 n d i : d_inode d = Some i → locked st0 i → keeps N M st0 (lookup_locked n d) valid_ptr.
Proof. intros Hd Hl. apply keeps_quiet. intros st Hst. eapply lookup_locked_quiet; [done|by eapply reach_locked]. Qed.
Lemma cleanup_keeps st0 dir d : locked st0 dir → keeps N M st0 (ovl_cleanup dir d) any.
Proof. intros Hl. apply keeps_quiet. intros st Hst. apply cleanup_quiet. by eapply reach_locked. Qed.
Lemma rename_keeps st0 od o nd n f : locked st0 od → locked st0 nd → keeps N M st0 (ovl_do_rename od o nd n f) any.
Proof. intros Ho Hn. apply keeps_quiet. intros st Hst. apply rename_quiet; by eapply reach_locked. Qed.
Lemma in_dir_keeps st0 dir {A} (f : W → A * W) (P : A → Prop) :
  locked st0 dir → (∀ w, P (f w).1) → keeps N M st0 (in_dir dir f) P.
Proof. intros Hl HP. apply keeps_quiet. intros st Hst. apply quietly_in_dir; [by eapply reach_locked|done]. Qed.
Lemma create_temp_keeps st0 wd i a :
  d_inode wd = Some i → locked st0 i → keeps N M st0 (ovl_create_temp wd a) positive_ptr.
Proof. intros Hd Hl. apply keeps_quiet. intros st Hst. eapply create_temp_quiet; [done|by eapply reach_locked]. Qed.

End brackets.

(** ** Operations whose success means something *)

Section achieves.
Context {W : Type} `{Under W, !UnderLaws W, Kern W, !KernLaws W}.
Context {N M : frozen} `{!weaker M N} (F : kst W → Prop).
Implicit Types (st : kst W).

(** A continuation that only reports success when it is given success. *)
Definition reports st0 (k : Z → kernel W Z) : Prop := ∀ r, keeps M M st0 (k r) (λ x, x = 0 → r = 0).

Lemma reports_ret st0 : reports st0 (λ r, mret r).
Proof. intros r. by apply keeps_ret. Qed.
Lemma lasting_success (r : Z) : lasting F → lasting (λ st, r = 0 → F st).
Proof. intros HF st st' Hx Hr Hr0. eapply HF; [done|by apply Hr]. Qed.

Lemma achieves_err st0 r : r ≠ 0 → achieves N M st0 (mret r) F.
Proof. intros Hr st Hst. by split. Qed.
Lemma achieves_bind st0 {A} (m : kernel W A) (f : A → kernel W Z) (P : A → Prop) :
  keeps N N st0 m P → (∀ a, P a → achieves N M st0 (f a) F) → achieves N M st0 (m ≫= f) F.
Proof.
  intros Hm Hf st Hst. eapply wp_seq; [by apply Hm|]. intros a st' [Hr HP].
  eapply wp_mono; [apply (Hf a HP); by etrans|]. intros b st2 [Hr2 HQ].
  split; [etrans; [by apply (reach_weaker (N := N))|done]|done].
Qed.
Lemma achieves_then st0 (m k : kernel W Z) : keeps N N st0 m any → achieves N M st0 k F → achieves N M st0 (m ;? k) F.
Proof.
  intros Hm Hk. unfold ok_then. eapply achieves_bind; [exact Hm|]. intros r _.
  destruct (Z.eqb_spec r 0); cbn [negb]; [done|by apply achieves_err].
Qed.
Lemma achieves_tail st0 st' k r : lasting F → reach M st0 st' → (r = 0 → F st') → reports st0 k →
  wp (k r) st' (λ r st2, reach M st' st2 ∧ (r = 0 → F st2)).
Proof.
  intros HF Hst HFr Hk. eapply wp_mono; [by apply (Hk r)|]. intros x st2 [Hr Hx]. split; [done|].
  intros Hx0. eapply HF; [|by apply HFr, Hx]. by eapply (extends_weaken (N := M)), Hr.
Qed.
Lemma achieves_end st0 (m : kernel W Z) k :
  lasting F → achieves N M st0 m F → reports st0 k → achieves N M st0 (m ≫= k) F.
Proof.
  intros HF Hm Hk st Hst. eapply wp_seq; [by apply Hm|]. intros r st' [Hr HFr].
  eapply wp_mono; [eapply achieves_tail; [done|etrans; [by apply (reach_weaker (N := N))|exact Hr]|done..]|].
  intros x st2 [Hr2 ?]. split; [by etrans|done].
Qed.
Lemma achieves_in_lock st0 i (m : kernel W Z) k :
  lasting F → achieves N M (set_k_held (lock_held [LInode (i_ptr i)] (k_held st0)) st0) m F → reports st0 k →
  achieves N M st0 (inode_lock i;; r ← m; inode_unlock i;; k r) F.
Proof.
  intros HF Hm Hk st Hst.
  eapply wp_in_lock; [rewrite (proj2 Hst); by eapply gives_set_held|intros; by apply lasting_success|].
  intros r st' Hr HFr.
  eapply wp_mono; [eapply achieves_tail; [done|etrans; [by apply (reach_weaker (N := N))|exact Hr]|done..]|].
  intros x st2 [Hr2 ?]. split; [by etrans|done].
Qed.
Lemma achieves_creds st0 c (m : Z → kernel W Z) k :
  lasting F → achieves N M (set_k_held (cred_held c (k_held st0)) st0) (m (h_cred (k_held st0))) F → reports st0 k →
  achieves N M st0 (old ← override_creds c; r ← m old; revert_creds old;; k r) F.
Proof.
  intros HF Hm Hk st Hst.
  eapply wp_creds; [rewrite (proj2 Hst); by eapply gives_set_held|intros; by apply lasting_success|].
  intros r st' Hr HFr.
  eapply wp_mono; [eapply achieves_tail; [done|etrans; [by apply (reach_weaker (N := N))|exact Hr]|done..]|].
  intros x st2 [Hr2 ?]. split; [by etrans|done].
Qed.
Lemma achieves_rename_lock st0 wd dd wi di (m : kernel W Z) k :
  d_inode wd = Some wi → d_inode dd = Some di → lasting F →
  achieves N M (set_k_held (lock_held [LInode (i_ptr di); LInode (i_ptr wi); LRename] (k_held st0)) st0) m F →
  reports st0 k →
  achieves N M st0 (ovl_lock_rename_workdir wd dd ;? (r ← m; unlock_rename wd dd;; k r)) F.
Proof.
  intros Hwd Hdd HF Hm Hk st Hst. unfold ok_then.
  eapply wp_rename_lock with (e := λ e, e); [done..|by intros|rewrite (proj2 Hst); by eapply gives_set_held|intros; by apply lasting_success|].
  intros r st' Hr HFr.
  eapply wp_mono; [eapply achieves_tail; [done|etrans; [by apply (reach_weaker (N := N))|exact Hr]|done..]|].
  intros x st2 [Hr2 ?]. split; [by etrans|done].
Qed.

Lemma achieves_write st0 (m : kernel W Z) k :
  0 ≤ h_write (k_held st0) → lasting F →
  achieves N M (set_k_held (write_held (k_held st0)) st0) m F → reports st0 k →
  achieves N M st0 (ovl_want_write ;? (r ← m; ovl_drop_write;; k r)) F.
Proof.
  intros Hw HF Hm Hk st Hst.
  eapply wp_write; [by rewrite (proj2 Hst)|by intros|rewrite (proj2 Hst); by eapply gives_set_held|intros; by apply lasting_success|].
  intros r st' Hr HFr.
  eapply wp_mono; [eapply achieves_tail; [done|etrans; [by apply (reach_weaker (N := N))|exact Hr]|done..]|].
  intros x st2 [Hr2 ?]. split; [by etrans|done].
Qed.

End achieves.

(** What follows a step may rely on what it achieved. *)
Lemma achieves_after {W} {N M : frozen} `{!weaker M N} (st0 : kst W) (m k : kernel W Z) F G :
  achieves N N st0 m F → (∀ st, reach N st0 st → F st → achieves N M st k G) → achieves N M st0 (m ;? k) G.
Proof.
  intros Hm Hk st Hst. unfold ok_then. eapply wp_seq; [by apply Hm|]. intros r st1 [Hr HF].
  destruct (Z.eqb_spec r 0) as [->|]; cbn [negb]; [|apply wp_ret; split; [by apply (reach_weaker (N := N))|done]].
  eapply wp_mono; [apply (Hk st1); [by etrans|by apply HF|done]|].
  intros x st2 [Hr2 ?]. split; [etrans; [by apply (reach_weaker (N := N))|done]|done].
Qed.
Lemma achieves_from {W} {N M : frozen} `{!weaker M N} (st0 : kst W) {A} (m : kernel W A) (f : A → kernel W Z) Q F :
  gives N N st0 m Q → (∀ a st, reach N st0 st → Q a st → achieves N M st (f a) F) → achieves N M st0 (m ≫= f) F.
Proof.
  intros Hm Hf st Hst. eapply wp_seq; [by apply Hm|]. intros a st1 [Hr HQ].
  eapply wp_mono; [apply (Hf a st1); [by etrans|done|done]|].
  intros x st2 [Hr2 ?]. split; [etrans; [by apply (reach_weaker (N := N))|done]|done].
Qed.
Lemma achieves_earlier {W} {N M L : frozen} `{!weaker M N} (st0 : kst W) (m : kernel W Z) F :
  achieves M L st0 m F → achieves N L st0 m F.
Proof. intros Hm st Hst. apply Hm. by apply (reach_weaker (N := N)). Qed.
Lemma keeps_achieves {W} {N M : frozen} (st0 : kst W) (m : kernel W Z) P : keeps N M st0 m P → achieves N M st0 m (λ _, True).
Proof. intros Hm st Hst. eapply wp_mono; [by apply Hm|]. by intros r st' []. Qed.
Lemma lasting_true {W} : lasting (λ _ : kst W, True).
Proof. done. Qed.
Lemma gives_keeps {W} {N M : frozen} (st0 : kst W) {A} (m : kernel W A) Q : gives N M st0 m Q → keeps N M st0 m any.
Proof. intros Hm st Hst. eapply wp_mono; [by apply Hm|]. by intros a st' []. Qed.
Lemma achieves_keeps {W} {N M : frozen} (st0 : kst W) (m : kernel W Z) F : achieves N M st0 m F → keeps N M st0 m any.
Proof. intros Hm st Hst. eapply wp_mono; [by apply Hm|]. by intros r st' []. Qed.
Lemma keeps_after {W} {N M : frozen} `{!weaker M N} (st0 : kst W) (m k : kernel W Z) F :
  achieves N N st0 m F → (∀ st, reach N st0 st → F st → keeps N M st k any) → keeps N M st0 (m ;? k) any.
Proof.
  intros Hm Hk st Hst.
  eapply wp_mono; [apply (achieves_after (M := M) st0 m k F (λ _, True) Hm); [|done]|intros x st2 []; by split].
  intros st1 Hr1 HF st2 Hr2. eapply wp_mono; [by apply (Hk st1 Hr1 HF)|]. naive_solver.
Qed.

Section whiteouts.
Context {W : Type} `{Under W, !UnderLaws W, Kern W, !KernLaws W}.
Context {N : frozen}.
Implicit Types (st : kst W).

Lemma whiteout_keeps st0 wd wi :
  d_inode wd = Some wi → locked st0 wi → keeps N N st0 (ovl_whiteout wd) valid_ptr.
Proof.
  intros Hwd Hl. unfold ovl_whiteout. eapply keeps_bind with (P := eq wi); [by eapply keeps_deref|].
  intros _ <-. eapply keeps_bind with (P := valid_ptr).
  { apply keeps_quiet. intros st Hst. eapply lookup_temp_quiet; [done|by eapply reach_locked]. }
  intros [|e|x] Hx; [by destruct Hx|by apply keeps_ret|].
  eapply keeps_bind with (P := any); [by apply in_dir_keeps|]. intros [err y] _. apply keeps_ret.
  destruct (Z.eqb_spec err 0); cbn [negb]; [apply valid_ptr_ptr|by apply valid_ptr_err].
Qed.

Lemma cleanup_and_whiteout_keeps st0 wd wi dir d :
  d_inode wd = Some wi → locked st0 wi → locked st0 dir → keeps N N st0 (ovl_cleanup_and_whiteout wd dir d) any.
Proof.
  intros Hwd Hw Hd. unfold ovl_cleanup_and_whiteout. eapply keeps_bind with (P := eq wi); [by eapply keeps_deref|].
  intros _ <-. eapply keeps_bind; [by eapply whiteout_keeps|].
  intros [|e|x] Hx; [by destruct Hx|by apply keeps_ret|].
  eapply keeps_bind; [by apply rename_keeps|]. intros err _. case_match.
  - eapply keeps_bind; [by apply cleanup_keeps|]. intros _ _. by apply keeps_ret.
  - eapply keeps_bind with (P := any); [|intros; by apply keeps_ret]. case_match; [|by apply keeps_ret].
    eapply keeps_bind; [by apply cleanup_keeps|]. intros _ _. by apply keeps_ret.
Qed.

End whiteouts.

(** ** Changes of one dentry or inode *)

Section changes.
Context {W : Type} {N : frozen}.
Implicit Types (st : kst W).

Definition inode_keeps (ix : bool) (o o' : ovl_inode) : Prop := inode_grows ix o o' ∧ oi_upper o' = oi_upper o.

Lemma keeps_modify_inode st0 i o f :
  k_inodes st0 !! i = Some o → (∀ o, inode_keeps (ovl_indexdir (k_ofs st0)) o (f o)) →
  keeps N N st0 (modify_inode i f) any.
Proof.
  intros Ho Hf. apply keeps_prepares. intros st [Hx Hh]. destruct (ex_inodes _ _ Hx _ _ Ho) as (o' & Ho' & _).
  eapply wp_modify_inode; [done|]. split; [|done]. apply prepares_modify with o'; [done| |apply Hf].
  rewrite (ofs_rel_indexdir _ _ (ex_ofs _ _ Hx)). apply Hf.
Qed.

Lemma keeps_modify_dinode st0 d v f :
  ok st0 → view_at st0 d = Some v → (∀ o, inode_keeps (ovl_indexdir (k_ofs st0)) o (f o)) →
  keeps N N st0 (modify_dinode d f) any.
Proof.
  intros Hok Hv Hf. apply view_inv in Hv as (e & o & He & Ho & _). unfold modify_dinode.
  eapply keeps_bind; [by apply keeps_dent|]. intros e' Hk.
  rewrite (dk_inode _ _ Hk) by (by eapply not_null). by eapply keeps_modify_inode.
Qed.

Lemma vfs_keeps ix o i v : inode_keeps ix o (set_oi_vfs i (set_oi_version v o)).
Proof. split; [|done]. split; [done|done|intros u ?; by left|done|by left..]. Qed.
Lemma vfs_only_keeps ix o i : inode_keeps ix o (set_oi_vfs i o).
Proof. split; [|done]. split; [done|done|intros u ?; by left|done|by left..]. Qed.
Lemma redirect_keeps ix o r : inode_keeps ix o (set_oi_redirect r o).
Proof. split; [|done]. split; [done|done|intros u ?; by left|done|by left..]. Qed.

Lemma keeps_modify_entry st0 d e f :
  k_dents st0 !! d = Some e → ok st0 → (∀ en, entry_grows en (f en)) →
  (∀ en, ovl_dentry_has_upper_alias (f en) = true → ovl_dentry_has_upper_alias en = true ∨ has_upper st0 (dn_parent e)) →
  keeps N N st0 (modify_entry d f) any.
Proof.
  intros He Hok Hf Ha. apply keeps_prepares. intros st [Hx Hh].
  destruct (ex_dents _ _ Hx _ _ He) as (e' & He' & Hk). eapply wp_modify_entry; [done|].
  split; [|done]. split; [|by intros i]. split; [|done]. apply grows_modify_entry; [done|done|]. intros Hal.
  destruct (Ha _ Hal) as [|Hu]; [by left|right]. rewrite (dk_parent _ _ Hk). by eapply extends_upper.
Qed.

Lemma opaque_grows e : entry_grows e (ovl_dentry_set_opaque e).
Proof.
  split; [done|]. intros f.
  change (ovl_dentry_test_flag f (ovl_dentry_set_opaque e))
    with (Z.testbit (Z.setbit (oe_flags e) 1) (ovl_entry_flag_bit f)).
  unfold ovl_dentry_test_flag. intros Hf. rewrite Z.setbit_eqb by done. by rewrite Hf, orb_true_r.
Qed.
Lemma opaque_alias e : ovl_dentry_has_upper_alias (ovl_dentry_set_opaque e) = ovl_dentry_has_upper_alias e.
Proof. change (Z.testbit (Z.setbit (oe_flags e) 1) 0 = Z.testbit (oe_flags e) 0). by rewrite Z.setbit_neq. Qed.

(** Replacing a dentry. *)
Lemma view_set_dent st d e e' p pv :
  ok st → k_dents st !! d = Some e → dent_keeps (N d) e e' → view_at st p = Some pv →
  ∃ pv', view_at (set_k_dents (<[d := e']> (k_dents st)) st) p = Some pv' ∧ od_inode pv' = od_inode pv.
Proof.
  intros Hok He Hk Hpv. apply view_inv in Hpv as (pe & po & Hpe & Hpo & ->).
  destruct (decide (d = p)) as [->|Hn].
  - simplify_eq. exists (ODentry p (dn_name e') (dn_flags e') po (dn_entry e')). split; [|done].
    unfold view_at, view. cbn. rewrite lookup_insert_eq. cbn.
    by rewrite (dk_inode _ _ Hk) by (by eapply not_null); rewrite Hpo.
  - exists (ODentry p (dn_name pe) (dn_flags pe) po (dn_entry pe)). split; [|done].
    unfold view_at, view. cbn. rewrite lookup_insert_ne by done. rewrite Hpe. cbn. by rewrite Hpo.
Qed.

Lemma extends_set_dent st d e e' :
  k_dents st !! d = Some e → dent_keeps (N d) e e' →
  (ok st → dn_inode e' ≠ NULL → is_Some (k_inodes st !! dn_inode e')) →
  (ok st → aliased e' = true → has_upper st (dn_parent e)) →
  (ok st → ∀ o, k_inodes st !! dn_inode e' = Some o → dn_hashed e' = true → oe_lowerstack (dn_entry e) = [] →
     is_Some (oi_upper o) ∧ aliased e' = true ∧ oi_lower o = None) →
  extends N st (set_k_dents (<[d := e']> (k_dents st)) st).
Proof.
  intros He Hk Hin Hal Hre. split; [by left| |by eexists|intros i x x' _; cbn; congruence|]; cbn.
  { intros x ex Hx. destruct (decide (d = x)) as [->|]; [|rewrite lookup_insert_ne by done; by eexists].
    simplify_eq. rewrite lookup_insert_eq. by eexists. }
  intros Hok.
  assert (∀ p, has_upper st p → has_upper (set_k_dents (<[d := e']> (k_dents st)) st) p) as Hup.
  { intros p (pv & Hpv & Hu). destruct (view_set_dent st d e e' p pv Hok He Hk Hpv) as (pv' & Hpv' & Ei).
    exists pv'. split; [done|]. unfold ovl_dentry_upper. by rewrite Ei. }
  assert (oe_lowerstack (dn_entry e') = oe_lowerstack (dn_entry e)) as Hs by apply (eg_stack _ _ (dk_entry _ _ Hk)).
  split; cbn; try apply Hok.
  - intros x ex [[<- <-]|[Hn Hx]]%lookup_insert_Some.
    + rewrite (dk_parent _ _ Hk). destruct (decide (d = dn_parent e)) as [<-|]; [rewrite lookup_insert_eq; by eexists|].
      rewrite lookup_insert_ne by done. by eapply ok_parent.
    + destruct (decide (d = dn_parent ex)) as [<-|]; [rewrite lookup_insert_eq; by eexists|].
      rewrite lookup_insert_ne by done. by eapply ok_parent.
  - intros x ex [[<- <-]|[Hn Hx]]%lookup_insert_Some; [by apply Hin|by eapply ok_inode].
  - intros x ex p [[<- <-]|[Hn Hx]]%lookup_insert_Some; [rewrite Hs|]; by eapply ok_lower.
  - intros x ex [[<- <-]|[Hn Hx]]%lookup_insert_Some Hnull; [|by eapply ok_negative].
    rewrite Hs. eapply ok_negative; [done..|]. destruct (decide (dn_inode e = NULL)) as [|Hnn]; [done|].
    by rewrite <- (dk_inode _ _ Hk Hnn).
  - intros x ex o [[<- <-]|[Hn Hx]]%lookup_insert_Some Ho; [|by eapply ok_stack].
    rewrite Hs. intros Hne. assert (dn_inode e ≠ NULL) as Hnn by (intros Hnull; by apply Hne, (ok_negative _ Hok d e)).
    rewrite (dk_inode _ _ Hk Hnn) in Ho. by eapply ok_stack.
  - intros x ex [[<- <-]|[Hn Hx]]%lookup_insert_Some Ha; apply Hup; [|by eapply ok_linked].
    rewrite (dk_parent _ _ Hk). by apply Hal.
  - intros x ex o [[<- <-]|[Hn Hx]]%lookup_insert_Some Ho Hh; [rewrite Hs; by apply Hre|by eapply ok_real].
Qed.

End changes.

Lemma keeps_d_drop {W} {N : frozen} `{!droppable N} (st0 : kst W) d e :
  k_dents st0 !! d = Some e → keeps N N st0 (d_drop d) any.
Proof.
  intros He. unfold d_drop. intros st [Hx Hh]. destruct (ex_dents _ _ Hx _ _ He) as (e' & He' & _).
  eapply wp_dent; [done|]. split; [|done]. split; [|done].
  eapply (extends_set_dent (N := N)); [done|split; [done..|by intros ?%no_dent]|..].
  - intros Hok Hn. exact (ok_inode _ Hok d e' He' Hn).
  - intros Hok Ha. exact (ok_linked _ Hok d e' He' Ha).
  - done.
Qed.

(** A new inode. *)
Section new_inode.
Context {W : Type} {N : frozen}.
Implicit Types (st : kst W).

Lemma extends_new_inode st ip o :
  ip ∉ dom (k_inodes st) ∪ {[NULL]} →
  (∃ u, oi_upper o = Some u ∧ is_Some (d_inode u)) → ovl_test_flag OVL_INDEX o = false →
  extends N st (set_k_inodes (<[ip := o]> (k_inodes st)) st).
Proof.
  intros [Hip Hnull]%not_elem_of_union (u & Hu & Hupos) Hix. apply not_elem_of_dom in Hip. rewrite not_elem_of_singleton in Hnull.
  split; [by left|by eexists| | |].
  { intros i x Hi. cbn. rewrite lookup_insert_ne by congruence. by eexists. }
  { intros i x x' _ Hi. cbn. rewrite lookup_insert_ne by congruence. congruence. }
  intros Hok.
  assert (∀ d e, k_dents st !! d = Some e → dn_inode e ≠ ip) as Href.
  { intros d e He Heq. destruct (decide (dn_inode e = NULL)) as [En|En]; [congruence|].
    destruct (ok_inode _ Hok d e He En) as [? Ei]. congruence. }
  assert (∀ p, has_upper st p → has_upper (set_k_inodes (<[ip := o]> (k_inodes st)) st) p) as Hup.
  { intros p (pv & Hpv & Hpu). apply view_inv in Hpv as (pe & po & Hpe & Hpo & ->).
    exists (ODentry p (dn_name pe) (dn_flags pe) po (dn_entry pe)). split; [|done]. unfold view_at, view. cbn.
    rewrite Hpe. cbn. rewrite lookup_insert_ne by (symmetry; by eapply Href). by rewrite Hpo. }
  split; cbn; try apply Hok.
  - intros d e He Hn. rewrite lookup_insert_ne by (symmetry; by eapply Href). by eapply ok_inode.
  - intros i x v [[<- <-]|[Hn Hx]]%lookup_insert_Some; [by intros; simplify_eq|by eapply ok_upper].
  - rewrite lookup_insert_ne by done. by apply ok_null.
  - intros i x [[<- <-]|[Hn Hx]]%lookup_insert_Some; [intros Ht; unfold ovl_test_flag in Hix; cbn in Hix, Ht; congruence|by eapply ok_index].
  - intros d e x He. rewrite lookup_insert_ne by (symmetry; by eapply Href). by eapply ok_stack.
  - intros d e He Ha. apply Hup. by eapply ok_linked.
  - intros d e x He. rewrite lookup_insert_ne by (symmetry; by eapply Href). by eapply ok_real.
Qed.

End new_inode.
