(* ===== verification/DirParts.v ===== *)
(** The shared steps of [Dir] keep the overlay: they return, extend it and give
    back what the thread held, from any state in which the dentries they work
    on are in place. *)

From S2P Require Import Prelude Types Util Under Nlink Fh FhProps Redirect RedirectProps Inode Block Readdir Lookup LookupProps Kernel KernelProps Work CopyUp WorkProps CopyUpSteps CopyUpStages CopyUpProps Dir DirSteps.
From stdpp Require Import gmap.
Local Open Scope Z_scope.

Section marks.
Context {W : Type} `{Under W, !UnderLaws W, Kern W, !KernLaws W, DirKern W, !DirLaws W, RbLib}.
Context {N : frozen}.
Implicit Types (st : kst W).

(** ** Attributes, marks and redirects *)

Lemma dir_modified_keeps st0 p b : ok st0 → has_upper st0 p → keeps N N st0 (overlay_dir_modified p b) any.
Proof.
  intros Hok (v & Hv & [u Hu]). unfold overlay_dir_modified.
  eapply keeps_bind; [by apply keeps_oview|]. intros v' Hg.
  assert (is_Some (d_inode u)) as [ui Hui].
  { apply view_inv in Hv as (e & o & He & Ho & ->). by eapply (ok_upper _ Hok). }
  eapply keeps_bind with (P := any).
  - apply keeps_asko. intros st Hst. pose proof (ig_upper (vg_inode _ _ _ Hg) u Hu) as Hu'.
    unfold ovl_dir_modified. cbn. rewrite Hu'. cbn. rewrite Hui. cbn. by eexists.
  - intros o _. eapply keeps_modify_dinode; [done..|]. intros o'. apply vfs_keeps.
Qed.

Lemma set_opaque_keeps st0 d e u x :
  ok st0 → k_dents st0 !! d = Some e → keeps N N st0 (ovl_set_opaque_xerr d u x) any.
Proof.
  intros Hok He. unfold ovl_set_opaque_xerr. eapply keeps_bind with (P := any).
  - apply keeps_quiet. intros st Hst. apply quietly_on_ofs. intros w o.
    destruct (check_setxattr_ofs w o u OVL_XATTR_OPAQUE (bytes_of "y") x) as (r & o' & w' & -> & Ho). by eexists _, _, _.
  - intros r _. case_match; [by apply keeps_ret|]. eapply keeps_bind with (P := any); [|intros; by apply keeps_ret].
    eapply keeps_modify_entry; [done..|apply opaque_grows|]. intros en. rewrite opaque_alias. by left.
Qed.

Lemma upper_parent_keeps st d e :
  ok st → k_dents st !! d = Some e → has_upper st (dn_parent e) →
  keeps N N st (upper_parent d) (λ '(p, u, ui), p = dn_parent e ∧ d_inode u = Some ui).
Proof.
  intros Hok He (v & Hv & [u Hu]). unfold upper_parent.
  eapply keeps_bind; [by apply keeps_dent|]. intros e' Hk. rewrite (dk_parent _ _ Hk).
  eapply keeps_bind; [by apply keeps_oview|]. intros v' Hg.
  assert (is_Some (d_inode u)) as [ui Hui].
  { apply view_inv in Hv as (pe & o & Hpe & Ho & ->). by eapply (ok_upper _ Hok). }
  eapply keeps_bind with (P := eq u); [eapply keeps_deref; [by apply (ig_upper (vg_inode _ _ _ Hg))|done]|]. intros _ <-.
  eapply keeps_bind with (P := eq ui); [by eapply keeps_deref|]. intros _ <-. by apply keeps_ret.
Qed.

End marks.

Section rooted.
Context {W : Type} `{Under W, !UnderLaws W, Kern W, !KernLaws W, DirKern W, !DirLaws W, RbLib}.
Implicit Types (st : kst W).

(** [d] is [n] steps below the root, every dentry on the way is positive, and
    the root is in the upper layer. *)
Inductive rooted st : Z → nat → Prop :=
| rooted_root d e :
    k_dents st !! d = Some e → dn_parent e = d → dn_hashed e = true →
    has_any (dn_flags e) DCACHE_DISCONNECTED = false → has_upper st d → rooted st d 0
| rooted_below d e n :
    k_dents st !! d = Some e → dn_parent e ≠ d → dn_hashed e = true →
    has_any (dn_flags e) DCACHE_DISCONNECTED = false → is_Some (view_at st d) →
    rooted st (dn_parent e) n → rooted st d (S n).

Lemma rooted_grows st st' d n : grows st st' → rooted st d n → rooted st' d n.
Proof.
  intros Hg. induction 1 as [d e He Hp Hh Hf Hu|d e n He Hp Hh Hf [v Hv] _ IH].
  - destruct (grows_dent _ _ _ _ Hg He) as (e' & He' & Hk).
    eapply rooted_root; [done|by rewrite (dg_parent _ _ Hk)|by rewrite (dg_hashed _ _ Hk)|by rewrite (dg_flags _ _ Hk)|].
    by eapply has_upper_grows.
  - destruct (grows_dent _ _ _ _ Hg He) as (e' & He' & Hk).
    destruct (grows_view _ _ _ _ Hg Hv) as (v' & Hv' & _).
    eapply rooted_below; [done|by rewrite (dg_parent _ _ Hk)|by rewrite (dg_hashed _ _ Hk)|by rewrite (dg_flags _ _ Hk)|by exists v'|].
    by rewrite (dg_parent _ _ Hk).
Qed.
Lemma rooted_extends st st' d n : ok st → extends everybody st st' → rooted st d n → rooted st' d n.
Proof.
  intros Hok Hx. induction 1 as [d e He Hp Hh Hf Hu|d e n He Hp Hh Hf [v Hv] _ IH];
    destruct (ex_dents _ _ Hx _ _ He) as (e' & He' & Hk).
  - eapply rooted_root; [done|by rewrite (dk_parent _ _ Hk)|by rewrite (dk_hashed _ _ Hk)|by rewrite (dk_flags _ _ Hk)|].
    by eapply extends_upper.
  - destruct (extends_view _ _ _ _ Hok Hx Hv) as (v' & Hv' & _).
    eapply rooted_below; [done|by rewrite (dk_parent _ _ Hk)|by rewrite (dk_hashed _ _ Hk)|by rewrite (dk_flags _ _ Hk)|by exists v'|].
    by rewrite (dk_parent _ _ Hk).
Qed.
Lemma rooted_view st d n : rooted st d n → ∃ v, view_at st d = Some v ∧ disconnected v = false ∧ hashed st d.
Proof.
  intros [? e He Hp Hh Hf (v & Hv & _)|? e ? He Hp Hh Hf [v Hv] _]; exists v;
    (split; [done|split; [|by exists e]]);
    apply view_inv in Hv as (e' & o & He' & Ho & ->); by simplify_eq.
Qed.
Lemma rooted_parent st d n e : rooted st d n → k_dents st !! d = Some e → ∃ m, (m ≤ n)%nat ∧ rooted st (dn_parent e) m.
Proof.
  intros Hr He. inversion Hr as [? e' He' Hp|? e' m He' ?????]; simplify_eq.
  - exists 0%nat. by split.
  - exists m. split; [lia|done].
Qed.
Lemma rooted_chain st d n : rooted st d n → ∃ m top, (m ≤ n)%nat ∧ chain st d m top.
Proof.
  induction 1 as [d e He Hp Hh Hf Hu|d e n He Hp Hh Hf Hv Hr IH].
  - exists 0%nat, d. split; [done|]. apply chain_top with e; [done..|]. by rewrite Hp.
  - destruct (rooted_view _ _ _ Hr) as (pv & Hpv & _). destruct (ovl_dentry_upper pv) as [u|] eqn:Eu.
    + exists 0%nat, d. split; [lia|]. apply chain_top with e; [done..|]. exists pv. by rewrite Eu.
    + destruct IH as (m & top & Hm & Hc). exists (S m), top. split; [lia|]. by eapply chain_up.
Qed.

End rooted.

Section redirects.
Context {W : Type} `{Under W, !UnderLaws W, Kern W, !KernLaws W, DirKern W, !DirLaws W, RbLib}.
Context {N : frozen}.
Implicit Types (st : kst W).

Lemma ancestry_keeps st0 depth d n :
  ok st0 → rooted st0 d n → (n < depth)%nat → keeps N N st0 (ancestry_of depth d) any.
Proof.
  intros Hok Hr. revert depth.
  induction Hr as [d e He Hp Hh Hf (v & Hv & _)|d e n He Hp Hh Hf [v Hv] _ IH]; intros [|depth] Hd; try lia;
    cbn [ancestry_of]; (eapply keeps_bind; [by apply keeps_dent|]); intros e' Hk; rewrite (dk_parent _ _ Hk).
  - rewrite Hp, Z.eqb_refl. by apply keeps_ret.
  - destruct (Z.eqb_spec (dn_parent e) d); [done|].
    apply view_inv in Hv as (e1 & o & He1 & Ho & ->). simplify_eq.
    rewrite (dk_inode _ _ Hk) by (by eapply not_null).
    eapply keeps_bind; [by apply keeps_inode|]. intros o' _.
    eapply keeps_bind; [apply IH; lia|]. intros up _. by apply keeps_ret.
Qed.

(** A redirect can be stored on a dentry with an upper; one that stays in its
    directory and is not a directory has a lower. *)
Lemma set_redirect_returns w ofs v up samedir rmax u :
  ovl_dentry_upper v = Some u →
  (samedir = true → ∃ l, ovl_dentry_lower v = Some l ∧ is_Some (d_inode l)) →
  ∃ err v' ofs' w', ovl_set_redirect rmax w ofs v up samedir = Ret (err, v', ofs', w') ∧ ofs_rel ofs ofs'.
Proof.
  intros Hu Hl. unfold ovl_set_redirect.
  assert (∃ b, ovl_need_absolute_redirect v samedir = Ret b) as [b ->].
  { unfold ovl_need_absolute_redirect. destruct samedir; cbn [negb]; [|by eexists].
    destruct (S_ISDIR _) eqn:Ed; [by eexists|]. destruct (Hl eq_refl) as (l & -> & [li Hli]).
    cbn. rewrite Hli. by eexists. }
  cbn [mbind outcome_bind]. case_match; [by eexists _, _, _, _|].
  assert (∃ r, ovl_get_redirect rmax w ((od_name v, oi_redirect (od_inode v)) :: up) b = Ret r) as [r ->].
  { unfold ovl_get_redirect. destruct (negb b); [by eexists|]. destruct (negb (kmalloc_ok w (rmax + 1))); [by eexists|].
    destruct (get_redirect_loop _ _ _); by eexists. }
  cbn [mbind outcome_bind]. destruct r as [e|s]; [by eexists _, _, _, _|]. rewrite Hu.
  destruct (check_setxattr_ofs w ofs u OVL_XATTR_REDIRECT (bytes_of s) (- EXDEV)) as (err & ofs' & w' & -> & Ho).
  destruct (err =? 0); by eexists _, _, _, _.
Qed.

Lemma set_redirect_keeps st0 rmax depth d n v samedir u :
  ok st0 → rooted st0 d n → (n < depth)%nat → view_at st0 d = Some v → ovl_dentry_upper v = Some u →
  (samedir = true → oe_lowerstack (od_entry v) ≠ []) →
  keeps N N st0 (overlay_set_redirect rmax depth d samedir) any.
Proof.
  intros Hok Hr Hd Hv Hu Hl. unfold overlay_set_redirect.
  pose proof Hv as (e & o & He & Ho & Ev)%view_inv.
  eapply keeps_bind; [by apply keeps_oview|]. intros v' Hg.
  eapply keeps_bind; [by apply keeps_dent|]. intros e' Hk. rewrite (dk_parent _ _ Hk).
  destruct (rooted_parent _ _ _ _ Hr He) as (m & Hm & Hrp).
  eapply keeps_bind; [eapply ancestry_keeps; [done|exact Hrp|lia]|]. intros up _.
  eapply keeps_bind with (P := any).
  - apply keeps_quiet. intros st Hst. apply quietly_on_ofs. intros w ofs.
    destruct (set_redirect_returns w ofs v' up samedir rmax u) as (err & v2 & ofs' & w' & -> & Ho').
    + by apply (ig_upper (vg_inode _ _ _ Hg)).
    + intros Hs. specialize (Hl Hs). rewrite Ev in Hl. cbn in Hl.
      pose proof (eg_stack _ _ (vg_entry _ _ _ Hg)) as Es. rewrite Ev in Es. cbn in Es.
      destruct (oe_lowerstack (dn_entry e)) as [|p l] eqn:El; [done|]. exists (op_dentry p). split.
      * unfold ovl_dentry_lower, numlower, lowerstack_at. rewrite Es. unfold zlen. cbn [length].
        by destruct (Z.eqb_spec (Z.of_nat (S (length l))) 0); [lia|].
      * eapply (ok_lower _ Hok d e); [done|]. rewrite El. by left.
    + cbn. by eexists _, _, _.
  - intros [err v2] _. eapply keeps_bind with (P := any); [|intros; by apply keeps_ret].
    eapply keeps_modify_dinode; [done..|]. intros o'. apply redirect_keeps.
Qed.

End redirects.

(** ** Copy-up *)

Section copy_up.
Context {W : Type} `{Under W, !UnderLaws W, Kern W, !KernLaws W, DirKern W, !DirLaws W, RbLib}.
Implicit Types (st : kst W).
Context (creator_cred : Z) (workdir indexdir : dentry) (export_op : Z → option (bool * bool)).
Context (fuel depth : nat).

(** A dentry that can be copied up with the given bounds. *)
Definition reachable st (d : Z) : Prop := ∃ n, rooted st d n ∧ (n < depth)%nat ∧ (n + 1 < fuel)%nat.

Lemma reachable_grows st st' d : grows st st' → reachable st d → reachable st' d.
Proof. intros Hg (n & Hr & ?). exists n. split; [by eapply rooted_grows|done]. Qed.
Lemma reachable_parent st d e : reachable st d → k_dents st !! d = Some e → reachable st (dn_parent e).
Proof. intros (n & Hr & ?) He. destruct (rooted_parent _ _ _ _ Hr He) as (m & ? & Hm). exists m. split; [done|lia]. Qed.

Lemma reachable_extends st st' d : ok st → extends everybody st st' → reachable st d → reachable st' d.
Proof. intros Hok Hx (n & Hr & ?). exists n. split; [by eapply rooted_extends|done]. Qed.

Lemma dirs_ok_extends {N'} st st' : extends N' st st' → dirs_ok workdir indexdir st → dirs_ok workdir indexdir st'.
Proof. intros Hx [Hw ? ?]. split; [|done..]. by destruct (ex_ofs _ _ Hx) as [->| ->]. Qed.
Lemma workdir_keeps {N} st : dirs_ok workdir indexdir st → keeps N N st (ovl_workdir workdir) (eq (Some workdir)).
Proof.
  intros [Hw _ _]. apply keeps_ask. intros st' [Hx _]. pose proof (ex_ofs _ _ Hx) as [->| ->]; cbn; by rewrite Hw.
Qed.

Lemma dirs_ok_grows st st' : grows st st' → dirs_ok workdir indexdir st → dirs_ok workdir indexdir st'.
Proof. intros Hg [Hw ? ?]. split; [|done..]. by destruct (gr_ofs _ _ Hg) as [->| ->]. Qed.

Lemma copy_up_reachable st d flags :
  ok st → dirs_ok workdir indexdir st → reachable st d →
  wp (ovl_copy_up_flags creator_cred workdir indexdir export_op fuel depth d flags) st (λ r st',
    evolves st st' ∧ (r = 0 → has_upper st' d ∧ ∃ e', k_dents st' !! d = Some e' ∧ aliased e' = true)).
Proof.
  intros Hok Hdirs (n & Hr & Hn & Hf). destruct (rooted_view _ _ _ Hr) as (v & Hv & Hdis & _).
  destruct (rooted_chain _ _ _ Hr) as (m & top & Hm & Hc).
  eapply wp_mono; [eapply copy_up_flags_step; [done..|]; right; split; [exact Hdis|exists m, top; split; [done|lia]]|].
  intros r st' [Hev Hd]. split; [done|]. intros Hr0. destruct (Hd Hr0) as (v' & Hv' & Ha).
  destruct (evolves_view _ _ _ _ Hev Hv) as (v2 & Hv2 & Hg). unfold view_at in Hv'. rewrite Hv2 in Hv'. injection Hv' as ->.
  assert (disconnected v' = false) as Hdis' by (unfold disconnected; by rewrite (vg_flags _ _ _ Hg)).
  unfold ovl_already_copied_up in Ha. rewrite Hdis', orb_false_r in Ha.
  case_bool_decide as Hu; [|done]. destruct (ovl_dentry_has_upper_alias _) eqn:Eal; [|done].
  split; [by exists v'|]. apply view_inv in Hv2 as (e & o & He & Ho & ->). by exists e.
Qed.

(** [d] has been copied up and linked. *)
Definition copied d st : Prop := ok st ∧ has_upper st d ∧ ∃ e, k_dents st !! d = Some e ∧ aliased e = true.
Lemma copied_lasting d : lasting (copied d).
Proof.
  intros st st' Hx (Hok & Hu & e & He & Ha). split; [by eapply ex_ok|]. split; [by eapply extends_upper|].
  destruct (ex_dents _ _ Hx _ _ He) as (e' & He' & Hk). exists e'. split; [done|].
  by apply (eg_flags _ _ (dk_entry _ _ Hk)).
Qed.
Lemma copy_up_achieves st d flags :
  ok st → dirs_ok workdir indexdir st → reachable st d →
  achieves everybody everybody st
    (ovl_copy_up_flags creator_cred workdir indexdir export_op fuel depth d flags) (copied d).
Proof.
  intros Hok Hdirs Hr st1 [Hx Hh]. assert (ok st1) as Hok1 by (by eapply ex_ok).
  eapply wp_mono; [apply copy_up_reachable; [done|by eapply dirs_ok_extends|by eapply (reachable_extends st)]|].
  intros r st2 [Hev Hd]. split; [apply evolves_reach; [by intros []|done]|]. intros Hr0. split; [by eapply evolves_ok|by apply Hd].
Qed.

End copy_up.

(** ** Link counts *)

Section nlink.
Context {W : Type} `{Under W, !UnderLaws W, Kern W, !KernLaws W, DirKern W, !DirLaws W, RbLib}.
Context {N : frozen}.
Implicit Types (st : kst W).
Context (creator_cred : Z) (workdir indexdir : dentry) (export_op : Z → option (bool * bool)).
Context (fuel depth : nat).

Lemma set_impure_keeps st d v u :
  ok st → view_at st d = Some v → keeps N N st (overlay_set_impure d u) any.
Proof.
  intros Hok Hv. apply keeps_prepares. intros st1 [Hx Hh].
  destruct (extends_view _ _ _ _ Hok Hx Hv) as (v' & (e & o & He & Ho & _)%view_inv & _).
  eapply wp_mono; [by eapply set_impure_step|]. intros r st2 Hp. by split.
Qed.

Lemma nlink_upper_keeps st0 d v :
  ok st0 → view_at st0 d = Some v → is_Some (ovl_dentry_upper v) → keeps N N st0 (overlay_set_nlink_upper d) any.
Proof.
  intros Hok Hv [u Hu]. apply keeps_quiet. intros st [Hx Hh].
  destruct (extends_view _ _ _ _ Hok Hx Hv) as (v' & Hv' & Hg).
  assert (ovl_dentry_upper v' = Some u) as Hu' by (by apply (ig_upper (vg_inode _ _ _ Hg))).
  eapply set_nlink_upper_quiet; [exact Hv'|exact Hu'|].
  apply view_inv in Hv' as (e & o & He & Ho & ->). by eapply (ok_upper _ (ex_ok _ _ Hx Hok)).
Qed.

(** The dentry of an indexed inode has a lower. *)
Definition index_sound st (d : Z) : Prop :=
  ∀ e o, k_dents st !! d = Some e → k_inodes st !! dn_inode e = Some o →
    oe_lowerstack (dn_entry e) = [] → oi_lower o = None.

Lemma index_sound_extends st st' d v :
  ok st → extends N st st' → view_at st d = Some v → index_sound st d → index_sound st' d.
Proof.
  intros Hok Hx Hv Hi e' o' He' Ho' Hs. apply view_inv in Hv as (e & o & He & Ho & ->).
  destruct (ex_dents _ _ Hx _ _ He) as (e1 & He1 & Hk). destruct (ex_inodes _ _ Hx _ _ Ho) as (o1 & Ho1 & Hg).
  simplify_eq. rewrite (dk_inode _ _ Hk) in Ho' by (by eapply not_null). simplify_eq.
  rewrite (ig_lower Hg). eapply Hi; [done..|]. by rewrite <- (eg_stack _ _ (dk_entry _ _ Hk)).
Qed.
Lemma reachable_index_sound st d : ok st → reachable fuel depth st d → index_sound st d.
Proof.
  intros Hok (n & Hr & _). destruct (rooted_view _ _ _ Hr) as (v & _ & _ & (e0 & He0 & Hh)). intros e o He Ho Hs.
  rewrite He in He0. injection He0 as <-.
  by destruct (ok_real _ Hok d e o He Ho Hh Hs) as (_ & _ & ?).
Qed.

Lemma cleanup_index_keeps st0 d v :
  ok st0 → view_at st0 d = Some v → ovl_test_flag OVL_INDEX (od_inode v) = true → index_sound st0 d →
  is_Some (d_inode indexdir) → keeps N N st0 (ovl_cleanup_index indexdir d) any.
Proof.
  intros Hok Hv Hix Hsound [ii Hii]. pose proof Hv as (e & o & He & Ho & Ev)%view_inv.
  assert (ovl_test_flag OVL_INDEX o = true) as Hixo by (by subst v).
  destruct (ok_index _ Hok _ _ Ho Hixo) as ([lo Hlo] & [u Hu] & Hidx). destruct (ok_upper _ Hok _ _ _ Ho Hu) as [ui Hui].
  assert (∃ l, ovl_dentry_lower v = Some l) as [l Hl].
  { subst v. destruct (oe_lowerstack (dn_entry e)) as [|p ls] eqn:El; [|by eexists; eapply lower_of].
    by rewrite (Hsound e o He Ho El) in Hlo. }
  unfold ovl_cleanup_index. eapply keeps_bind with (P := eq (Some indexdir)).
  { apply keeps_ask. intros st Hst. by rewrite (ofs_rel_indexdir _ _ (ex_ofs _ _ (proj1 Hst))), Hidx. }
  intros _ <-. eapply keeps_bind with (P := eq indexdir); [by eapply keeps_deref|]. intros _ <-.
  eapply keeps_bind with (P := eq ii); [by eapply keeps_deref|]. intros _ <-.
  eapply keeps_bind; [by apply keeps_oview|]. intros v' Hg.
  assert (ovl_dentry_lower v' = Some l) as Hl'.
  { unfold ovl_dentry_lower, numlower, lowerstack_at in *. by rewrite (eg_stack _ _ (vg_entry _ _ _ Hg)). }
  assert (ovl_dentry_upper v' = Some u) as Hu' by (apply (ig_upper (vg_inode _ _ _ Hg)); by subst v).
  eapply keeps_bind with (P := any); [by eapply keeps_deref|]. intros l' _.
  eapply keeps_bind with (P := any); [apply keeps_quiet; intros; apply index_name_quiet|]. intros [err|name] _; [by apply keeps_ret|].
  eapply keeps_bind with (P := eq u); [by eapply keeps_deref|]. intros _ <-.
  eapply keeps_bind with (P := any); [by eapply keeps_deref|]. intros i _.
  eapply keeps_bind with (P := any); [by apply keeps_ask|]. intros i' _. case_match.
  - eapply keeps_bind with (P := any); [eapply keeps_modify_dinode; [done..|]; intros; apply vfs_only_keeps|]. intros _ _.
    eapply keeps_bind with (P := any); [eapply nlink_upper_keeps; [done..|]; exists u; by subst v|].
    intros _ _. by apply keeps_ret.
  - eapply keeps_locked_end with (P := any). set (st1 := set_k_held _ st0).
    assert (locked st1 ii) as Hl1 by apply locked_head.
    eapply keeps_bind; [by eapply lookup_keeps|]. intros [|err|index] Hx; [by destruct Hx|by apply keeps_ret|].
    eapply keeps_bind with (P := any); [by apply keeps_ask|]. intros ofs _.
    eapply keeps_bind with (P := any); [|intros; by apply keeps_ret].
    case_match; [by eapply cleanup_and_whiteout_keeps|by apply cleanup_keeps].
Qed.

Definition olock (e : odent) : list lock := [LOvl (dn_inode e)].

End nlink.

Section nlink_section.
Context {W : Type} `{Under W, !UnderLaws W, Kern W, !KernLaws W, DirKern W, !DirLaws W, RbLib}.
Context {N : frozen}.
Implicit Types (st : kst W).
Context (creator_cred : Z) (workdir indexdir : dentry) (export_op : Z → option (bool * bool)).
Context (fuel depth : nat).

(** ovl_nlink_start leaves the overlay inode locked when it succeeds. *)
Lemma nlink_start_step st d e :
  ok st → dirs_ok workdir indexdir st → reachable fuel depth st d → k_dents st !! d = Some e →
  wp (ovl_nlink_start creator_cred workdir indexdir export_op fuel depth d) st (λ r st',
    extends everybody st st' ∧
    k_held st' = if r =? 0 then lock_held (olock e) (k_held st) else k_held st).
Proof.
  intros Hok Hdirs Hr He. destruct Hr as (n & Hrn & Hb). destruct (rooted_view _ _ _ Hrn) as (v & Hv & _).
  assert (reachable fuel depth st d) as Hr by (by exists n). pose proof Hv as (e1 & o & He1 & Ho & Ev)%view_inv. simplify_eq.
  pose proof (not_null _ _ _ Hok Ho) as Hnn.
  unfold ovl_nlink_start. eapply wp_dent; [done|]. destruct (Z.eqb_spec (dn_inode e) NULL); [done|].
  eapply wp_oview; [exact Hv|]. apply wp_ask.
  eapply wp_seq with (R := λ _ st', evolves st st').
  { case_match; [|by apply wp_ret]. eapply wp_mono; [by apply copy_up_reachable|]. by intros ?? []. }
  intros err st1 Hev1. destruct (Z.eqb_spec err 0) as [->|Hne]; cbn [negb].
  2:{ apply wp_ret. split; [apply grows_everybody, Hev1|]. destruct (Z.eqb_spec err 0); [done|apply Hev1]. }
  unfold ovl_inode_lock. apply wp_assoc, wp_bind, wp_on_w. intros err w _.
  assert (evolves st1 (set_k_w w st1)) as Hevw by (apply quiet_evolves; by split).
  destruct (Z.eqb_spec err 0) as [->|Hne]; cbn [negb].
  2:{ apply wp_mret. destruct (Z.eqb_spec err 0); [done|]. apply wp_ret. split; [apply grows_everybody; etrans; [apply Hev1|apply Hevw]|].
      destruct (Z.eqb_spec err 0); [done|apply Hev1]. }
  apply wp_assoc, wp_bind, wp_lock, wp_mret. cbn [Z.eqb negb].
  set (st2 := set_k_held _ _). assert (grows st st2) as Hg2.
  { etrans; [apply Hev1|]. etrans; [apply Hevw|apply grows_held]. }
  assert (k_held st2 = lock_held (olock e) (k_held st)) as Hh2 by (unfold st2; cbn; by rewrite (proj2 Hev1)).
  assert (ok st2) as Hok2 by (by eapply ok_grows).
  destruct (grows_view _ _ _ _ Hg2 Hv) as (v2 & Hv2 & _).
  eapply wp_oview; [exact Hv2|]. destruct (d_is_dir_of v2 || negb (ovl_test_flag OVL_INDEX (od_inode v2))) eqn:Ei.
  { apply wp_ret. split; [by apply grows_everybody|done]. }
  apply orb_false_iff in Ei as [_ Ei%negb_false_iff].
  assert (is_Some (ovl_dentry_upper v2)) as Hu2.
  { pose proof Hv2 as (e2 & o2 & He2 & Ho2 & ->)%view_inv. by destruct (ok_index _ Hok2 _ _ Ho2 Ei) as (_ & ? & _). }
  eapply wp_creds with (m := λ _, overlay_set_nlink_upper d) (P := λ _ _, True); [|by intros ????|].
  { eapply nlink_upper_keeps; [|exact Hv2|done]. eapply ok_grows; [exact Hok2|apply grows_held]. }
  intros err st3 [Hx3 Hh3] _. assert (extends everybody st st3) as Hx by (etrans; [by apply grows_everybody|done]).
  destruct (Z.eqb_spec err 0) as [->|Hne]; cbn [negb].
  - apply wp_mret, wp_ret. cbn [Z.eqb]. split; [done|congruence].
  - apply wp_bind. eapply wp_unlock; [rewrite Hh3, Hh2; apply unlock1_head|]. apply wp_ret.
    destruct (Z.eqb_spec err 0); [done|]. split; [etrans; [exact Hx|apply extends_held]|].
    rewrite Hh3, Hh2. cbn. by destruct (k_held st).
Qed.

(** What runs between ovl_nlink_start and ovl_nlink_end. *)
Lemma wp_nlink_section {N0} `{!weaker N N0} st d e v {A B} (m : kernel W A) (k : A → kernel W B) (P : A → kst W → Prop) Q st1 :
  ok st → view_at st d = Some v → k_dents st !! d = Some e → index_sound st d → is_Some (d_inode indexdir) →
  gives N0 N (set_k_held (lock_held (olock e) (k_held st)) st) m P → (∀ a, lasting (P a)) →
  (∀ a st', reach N st st' → P a st' → wp (k a) st' Q) →
  reach N0 (set_k_held (lock_held (olock e) (k_held st)) st) st1 →
  wp (a ← m; ovl_nlink_end creator_cred indexdir d;; k a) st1 Q.
Proof.
  intros Hok Hv He Hs Hidx Hm HP Hk Hr1. pose proof Hv as (e1 & o & He1 & Ho & Ev)%view_inv. rewrite He in He1. injection He1 as <-.
  assert (extends N st (set_k_held (lock_held (olock e) (k_held st)) st)) as Hx0 by apply extends_held.
  eapply wp_seq; [by apply Hm|]. intros a st2 [Hr2 HPa]. apply wp_bind.
  assert (extends N st st2) as Hx2 by (etrans; [exact Hx0|]; etrans; [apply (reach_weaker (N := N0)), Hr1|apply Hr2]).
  assert (k_held st2 = lock_held (olock e) (k_held st)) as Hh2 by (rewrite (proj2 Hr2); apply Hr1).
  assert (ok st2) as Hok2 by (by eapply ex_ok).
  destruct (ex_dents _ _ Hx2 _ _ He) as (e2 & He2 & Hk2). destruct (ex_inodes _ _ Hx2 _ _ Ho) as (o2 & Ho2 & Hg2).
  assert (dn_inode e2 = dn_inode e) as Hie by (apply (dk_inode _ _ Hk2); by eapply not_null).
  unfold ovl_nlink_end. eapply wp_dent; [done|]. eapply wp_inode; [by rewrite Hie|].
  destruct (extends_view _ _ _ _ Hok Hx2 Hv) as (v2 & Hv2 & Hgv).
  eapply wp_seq with (R := λ _ st', reach N st2 st').
  { destruct (ovl_test_flag OVL_INDEX o2 && _) eqn:Ei; [|by apply wp_ret]. apply andb_true_iff in Ei as [Ei _].
    assert (wp (old_cred ← ovl_override_creds creator_cred; _ ← ovl_cleanup_index indexdir d; revert_creds old_cred;; mret tt)
      st2 (λ _ st', reach N st2 st')) as Hwp.
    { eapply wp_creds with (m := λ _, ovl_cleanup_index indexdir d) (P := λ _ _, True); [|by intros ????|intros; by apply wp_ret].
      eapply cleanup_index_keeps; [|exact Hv2| | |done].
      - eapply ok_grows; [exact Hok2|apply grows_held].
      - pose proof Hv2 as (e3 & o3 & He3 & Ho3 & ->)%view_inv. cbn. simplify_eq. rewrite Hie in Ho3. by simplify_eq.
      - eapply (index_sound_extends st); [done|etrans; [exact Hx2|apply extends_held]|exact Hv|done]. }
    revert Hwp. unfold wp, mbind, kernel_bind. destruct (ovl_override_creds creator_cred st2) as [[c st3]| |]; [|done..].
    destruct (ovl_cleanup_index indexdir d st3) as [[[] st4]| |]; [|done..]. by destruct (revert_creds c st4) as [[[] ?]| |]. }
  intros _ st3 [Hx3 Hh3]. eapply wp_unlock; [rewrite Hh3, Hh2, Hie; apply unlock1_head|].
  apply Hk; [|eapply HP; [|done]; etrans; [apply (extends_weaken (N := N)), Hx3|apply extends_held]].
  split; [etrans; [exact Hx2|]; etrans; [exact Hx3|apply extends_held]|].
  rewrite Hh3, Hh2. cbn. by destruct (k_held st).
Qed.

End nlink_section.

(** ** ovl_nlink_start, a body, ovl_nlink_end *)

Section nlink_bracket.
Context {W : Type} `{Under W, !UnderLaws W, Kern W, !KernLaws W, DirKern W, !DirLaws W, RbLib}.
Context (creator_cred : Z) (workdir indexdir : dentry) (export_op : Z → option (bool * bool)).
Context (fuel depth : nat).
Context {M : frozen} `{!weaker M everybody} (F : kst W → Prop).
Implicit Types (st : kst W).

Lemma achieves_nlink st0 d e (m : kernel W Z) k :
  ok st0 → dirs_ok workdir indexdir st0 → reachable fuel depth st0 d → k_dents st0 !! d = Some e → lasting F →
  achieves everybody M (set_k_held (lock_held (olock e) (k_held st0)) st0) m F → reports (M := M) st0 k →
  achieves everybody M st0 (ovl_nlink_start creator_cred workdir indexdir export_op fuel depth d ;?
    (r ← m; ovl_nlink_end creator_cred indexdir d;; k r)) F.
Proof.
  intros Hok0 Hdirs0 Hr0 He0 HF Hm Hk st Hst.
  assert (ok st) as Hok by (eapply ex_ok; [apply Hst|done]).
  assert (dirs_ok workdir indexdir st) as Hdirs by (eapply dirs_ok_extends; [apply Hst|done]).
  assert (reachable fuel depth st d) as Hr by (eapply reachable_extends; [exact Hok0|apply Hst|done]).
  destruct (ex_dents _ _ (proj1 Hst) _ _ He0) as (e' & He & Hke).
  assert (olock e' = olock e) as Hle by (unfold olock; by rewrite (dk_still _ _ Hke) by (by right)).
  destruct Hr as (n & Hrn & Hb). destruct (rooted_view _ _ _ Hrn) as (v & Hv & _).
  assert (reachable fuel depth st d) as Hr by (by exists n).
  unfold ok_then. eapply wp_seq; [by eapply nlink_start_step|]. intros r st1 [Hx1 Hh1].
  destruct (Z.eqb_spec r 0) as [->|Hne]; cbn [negb].
  2:{ apply wp_ret. split; [|done]. split; [by eapply (extends_weaken (N := everybody))|done]. }
  eapply (wp_nlink_section (N := M) creator_cred indexdir (N0 := everybody) st);
    [done|exact Hv|done|by eapply reachable_index_sound|apply Hdirs| |intros; by apply lasting_success| |].
  - rewrite Hle, (proj2 Hst). by eapply gives_set_held.
  - intros r st' Hr' HFr. eapply wp_mono; [eapply (achieves_tail (M := M)) with (st0 := st0) (k := k); [done| |exact HFr|exact Hk]|].
    + etrans; [by apply (reach_weaken (N := everybody))|exact Hr'].
    + intros x st2 [Hr2 ?]. split; [by etrans|done].
  - split; [|done]. etrans; [|exact Hx1]. apply extends_same; (by left) || done.
Qed.

End nlink_bracket.
