(* ===== verification/DirCreate.v ===== *)
(** Creating objects: the new inode and its instantiation, creation beside the
    lower layers or over a whiteout.  Every stage returns and leaves a
    well-formed overlay. *)

From S2P Require Import Prelude Types Util Under Nlink Fh FhProps Redirect RedirectProps Inode InodeProps Block Readdir Lookup LookupProps Kernel KernelProps Work CopyUp WorkProps CopyUpSteps CopyUpStages CopyUpProps Dir DirSteps DirParts DirOps.
From stdpp Require Import gmap fin_sets.
Local Open Scope Z_scope.

Section create.
Context {W : Type} `{Under W, !UnderLaws W, Kern W, !KernLaws W, DirKern W, !DirLaws W, RbLib}.
Context (s_export_op : bool) {N : frozen}.
Implicit Types (st : kst W).

(** A preallocated inode has no real inodes and no flags yet. *)
Definition blank (o : ovl_inode) : Prop := oi_lower o = None ∧ oi_upper o = None ∧ oi_flags o = 0.

(** What a new overlay inode is: purely upper, not indexed. *)
Definition pure_upper_inode (o : ovl_inode) : Prop :=
  oi_lower o = None ∧ ovl_test_flag OVL_INDEX o = false ∧ ∃ u, oi_upper o = Some u ∧ is_Some (d_inode u).

Lemma fill_new_inode nx (w : W) ofs newdentry ri bl o ino fsid o' :
  get_inode_fill nx w ofs (InodeParams true (Some newdentry) None None 0 None None) ri bl o ino fsid = Ret (inr o') →
  oi_lower o = None → oi_flags o = 0 → is_Some (d_inode newdentry) → pure_upper_inode o'.
Proof.
  intros E Hl Hf [ui Hui]. unfold get_inode_fill in E. apply outcome_bind_Ret in E as (o1 & Hi & E).
  unfold ovl_inode_init in Hi. cbn in Hi. rewrite Hui in Hi. injection Hi as <-.
  apply outcome_bind_Ret in E as (m & _ & E). destruct (m <? 0); [done|]. injection E as <-.
  split_and!.
  - by repeat case_match.
  - assert (∀ (b : bool) f o, f ≠ OVL_INDEX → ovl_test_flag OVL_INDEX (if b then ovl_set_flag f o else o)
      = ovl_test_flag OVL_INDEX o) as Hif.
    { intros [] f x Hn; [|done]. apply flag_other. by destruct f. }
    rewrite Hif by done. rewrite Hif by done.
    change (ovl_test_flag OVL_INDEX (set_oi_redirect ?r ?x)) with (ovl_test_flag OVL_INDEX x).
    rewrite Hif by done. rewrite Hif by done. unfold ovl_test_flag. cbn. by rewrite Hf.
  - exists newdentry. split; [by repeat case_match|by exists ui].
Qed.

Lemma fill_error nx (w : W) ofs oip ri bl o ino fsid e :
  get_inode_fill nx w ofs oip ri bl o ino fsid = Ret (inl e) → e ≠ 0.
Proof.
  intros E. unfold get_inode_fill in E. apply outcome_bind_Ret in E as (o1 & _ & E).
  apply outcome_bind_Ret in E as (m & _ & E). destruct (Z.ltb_spec m 0); [injection E as <-; lia|done].
Qed.

Lemma get_new_inode_step st o newdentry :
  blank o → is_Some (d_inode newdentry) →
  wp (get_new_inode s_export_op o newdentry) st (λ r st',
    reach N st st' ∧ match r with
    | inl e => e ≠ 0
    | inr ip => ip ≠ NULL ∧ ∃ o', k_inodes st' !! ip = Some o' ∧ pure_upper_inode o'
    end).
Proof.
  intros (Hl & Hu & Hf) Hpos. unfold get_new_inode. apply wp_get. cbv zeta.
  set (ig := λ key, match racing_alias (k_w st) key with Some alias => Some (alias, false) | None => Some (o, true) end).
  set (oip := InodeParams true (Some newdentry) None None 0 None None).
  destruct (get_inode_ret ig None s_export_op (get_next_ino (k_w st)) (k_w st) (k_ofs st) oip) as [r Er].
  { by intros ? [= <-]. }
  { done. }
  { left. by eexists. }
  eapply wp_seq with (R := λ r' st', st' = st ∧ r' = r); [unfold wp, asko; by rewrite Er|]. intros ? ? [-> ->].
  assert (match r with inl e => e ≠ 0 | inr o' => pure_upper_inode o' end) as Hres.
  { apply get_inode_inv in Er as (bl & ri & fsid & Er). cbn [oip_upperdentry oip] in Er.
    rewrite bool_decide_true in Er by (by eexists). cbn [orb] in Er. destruct Er as [key Er]. unfold ig in Er.
    destruct (racing_alias (k_w st) (i_ptr key)) as [al|] eqn:Eal.
    - destruct (negb (ovl_verify_inode al _ _ true)); injection Er as <-; [done|].
      destruct (law_racing _ _ _ Eal) as (? & ? & ?). by split_and!.
    - apply outcome_bind_Ret in Er as (n & _ & Er). destruct r as [e|o']; [by eapply fill_error|by eapply fill_new_inode]. }
  destruct r as [e|o']; [by apply wp_ret|].
  apply wp_bind. unfold wp at 1, modify. apply wp_ret.
  set (ip := fresh _). pose proof (is_fresh (dom (k_inodes st) ∪ {[NULL]})) as Hfresh. fold ip in Hfresh.
  destruct Hres as (Hpl & Hpi & Hpu). split.
  - split; [|done]. by apply extends_new_inode.
  - split; [set_solver|]. exists o'. cbn. rewrite lookup_insert_eq. by split_and!.
Qed.

End create.

(** ** Instantiation *)

Section instantiate.
Context {W : Type} `{Under W, !UnderLaws W, Kern W, !KernLaws W, DirKern W, !DirLaws W, RbLib}.
Context (s_export_op : bool).
Implicit Types (st : kst W).

(** A negative dentry gets its inode. *)
Lemma extends_instantiate st d e e' :
  k_dents st !! d = Some e → dn_inode e = NULL → aliased e = true →
  dn_name e' = dn_name e → dn_flags e' = dn_flags e → dn_parent e' = dn_parent e → dn_entry e' = dn_entry e →
  (dn_hashed e = false → dn_hashed e' = false) →
  (∃ o, k_inodes st !! dn_inode e' = Some o ∧ (dn_hashed e' = true → pure_upper_inode o)) →
  extends nobody st (set_k_dents (<[d := e']> (k_dents st)) st).
Proof.
  intros He Hneg Hal Hn Hf Hp Hen Hun (o & Ho & Hpu).
  eapply extends_set_dent; [done|split; [done..| |by rewrite Hen|done|by intros []]|by eexists| |].
  - by intros [].
  - intros Hok _. by eapply ok_linked.
  - intros Hok o' Ho' Hh Hs. simplify_eq. destruct (Hpu Hh) as (Hl & _ & u & Hu & _).
    split_and!; [by exists u| |done]. unfold aliased in *. by rewrite Hen.
Qed.

(** The inode for a new dentry: a blank one, or one that exists. *)
Definition good_arg st (i : inode_arg) : Prop :=
  match i with
  | Preallocated o => blank o
  | Linked ip => ∃ o, k_inodes st !! ip = Some o ∧ is_Some (oi_upper o)
  end.
Lemma good_arg_extends {N} st st' i : extends N st st' → good_arg st i → good_arg st' i.
Proof.
  intros Hx. destruct i as [o|ip]; [done|]. intros (o & Ho & u & Hu).
  destruct (ex_inodes _ _ Hx _ _ Ho) as (o' & Ho' & Hg). exists o'. split; [done|]. exists u. by apply (ig_upper Hg).
Qed.

(** [d] is negative, its parent is in the upper layer. *)
Definition creatable st (d : Z) (i : inode_arg) : Prop :=
  ok st ∧ good_arg st i ∧ ∃ e, k_dents st !! d = Some e ∧ dn_inode e = NULL ∧ has_upper st (dn_parent e).

Lemma creatable_reach st st' d i : reach everybody st st' → creatable st d i → creatable st' d i.
Proof.
  intros [Hx Hh] (Hok & Hg & e & He & Hn & Hu). destruct (ex_dents _ _ Hx _ _ He) as (e' & He' & Hk).
  split; [by eapply ex_ok|]. split.
  - by eapply good_arg_extends.
  - exists e'. rewrite (dk_parent _ _ Hk), (dk_still _ _ Hk) by (by right). split_and!; [done..|]. by eapply extends_upper.
Qed.

(** [d] shows an object of the upper layer, the one it is a link to. *)
Definition linked_to (i : inode_arg) : option Z := match i with Preallocated _ => None | Linked ip => Some ip end.
Definition instantiated (link : option Z) (d : Z) st : Prop :=
  ∃ e o, k_dents st !! d = Some e ∧ dn_inode e ≠ NULL ∧ k_inodes st !! dn_inode e = Some o ∧
    is_Some (oi_upper o) ∧ aliased e = true ∧ ∀ ip, link = Some ip → dn_inode e = ip.

Lemma alias_modify_step st d i :
  creatable st d i → wp (modify_entry d ovl_dentry_set_upper_alias) st (λ _ st',
    reach everybody st st' ∧ ∃ e, k_dents st' !! d = Some e ∧ aliased e = true).
Proof.
  intros (Hok & _ & e & He & _ & Hu). eapply wp_modify_entry; [done|]. split.
  - apply evolves_everybody. split; [|done]. apply grows_modify_entry; [done|apply alias_grows|by right].
  - exists (set_dn_entry (ovl_dentry_set_upper_alias (dn_entry e)) e). cbn. rewrite lookup_insert_eq.
    split; [done|apply alias_set].
Qed.

Lemma d_instantiate_new st d e ip o :
  k_dents st !! d = Some e → dn_inode e = NULL → aliased e = true → ip ≠ NULL →
  k_inodes st !! ip = Some o → pure_upper_inode o →
  wp (d_instantiate d ip) st (λ _ st', reach nobody st st' ∧ instantiated None d st').
Proof.
  intros He Hn Ha Hip Ho Hp. unfold d_instantiate. eapply wp_dent; [done|]. split; [split; [|done]|].
  - eapply extends_instantiate; [done..|]. by exists o.
  - destruct Hp as (_ & _ & u & Hu & _). exists (set_dn_inode ip e), o. cbn. rewrite lookup_insert_eq.
    split_and!; [done..|by exists u|done|done].
Qed.

Lemma d_instantiate_linked st d e ip o :
  ok st → k_dents st !! d = Some e → dn_inode e = NULL → aliased e = true → k_inodes st !! ip = Some o →
  is_Some (oi_upper o) → wp (d_instantiate d ip;; d_drop d) st (λ _ st', reach nobody st st' ∧ instantiated (Some ip) d st').
Proof.
  intros Hok He Hn Ha Ho Hu. unfold d_instantiate, d_drop. apply wp_assoc. eapply wp_dent; [done|].
  apply wp_bind. unfold wp at 1, modify. eapply wp_dent; [cbn; by rewrite lookup_insert_eq|].
  unfold wp, modify, set_k_dents. cbn. rewrite insert_insert_eq. split; [split; [|done]|].
  - eapply extends_instantiate; [done..|]. exists o. by split.
  - exists (set_dn_hashed false (set_dn_inode ip e)), o. cbn. rewrite lookup_insert_eq. split_and!; [done| |done..|by intros ? [= <-]].
    by eapply not_null.
Qed.

Lemma instantiate_step st d i newdentry :
  creatable st d i → is_Some (d_inode newdentry) →
  wp (ovl_instantiate s_export_op d i newdentry) st (λ r st',
    reach nobody st st' ∧ (r = 0 → instantiated (linked_to i) d st')).
Proof.
  intros Hc Hpos. unfold ovl_instantiate. pose proof Hc as (Hok & Hg & e & He & Hn & Hu).
  eapply wp_dent; [done|].
  eapply keeps_wp with (P := any); [by apply (dir_modified_keeps (N := everybody))|].
  intros _ st1 Hr1 _. pose proof (creatable_reach _ _ _ _ Hr1 Hc) as Hc1.
  eapply wp_seq; [by eapply alias_modify_step|]. intros _ st2 (Hr2 & e2 & He2 & Ha2).
  pose proof (creatable_reach _ _ _ _ Hr2 Hc1) as (Hok2 & Hg2 & ? & ? & Hn2 & _). simplify_eq.
  assert (reach everybody st st2) as Hr by (by etrans).
  assert (∀ st', reach everybody st st' → reach nobody st st') as Hw by (intros ?; by apply reach_weaken).
  destruct i as [o|ip].
  - eapply wp_seq; [by apply (get_new_inode_step _ (N := everybody))|]. intros [err|ip] st3 [Hr3 Hip].
    + apply wp_ret. split; [apply Hw; by etrans|done].
    + destruct Hip as (Hnull & o' & Ho' & Hp). destruct (ex_dents _ _ (proj1 Hr3) _ _ He2) as (e3 & He3 & Hk3).
      eapply wp_seq; [eapply d_instantiate_new; [exact He3| | |done..]|].
      * by rewrite (dk_still _ _ Hk3) by (by right).
      * by apply (eg_flags _ _ (dk_entry _ _ Hk3)).
      * intros [] st4 [Hr4 Hi4]. apply wp_mret, wp_ret. split; [etrans; [apply Hw; by etrans|done]|done].
  - destruct Hg2 as (o & Ho & u & Hou). apply wp_assoc. eapply wp_seq with (R := λ _ st3, reach everybody st2 st3 ∧ k_dents st3 = k_dents st2).
    { eapply wp_modify_inode; [done|]. split; [|done]. apply evolves_everybody. split; [|done].
      apply grows_modify_inode with o; [done|by apply vfs_only_keeps]. }
    intros [] st3 [Hr3 Hd3]. apply wp_mret. destruct (ex_inodes _ _ (proj1 Hr3) _ _ Ho) as (o3 & Ho3 & Hg3).
    assert (wp ((d_instantiate d ip;; d_drop d);; mret 0) st3 (λ r st', reach nobody st st' ∧ (r = 0 → instantiated (Some ip) d st'))) as Hwp.
    { eapply wp_seq; [eapply d_instantiate_linked; [by eapply ex_ok; [apply Hr3|]|by rewrite Hd3|done..|exists u; by apply (ig_upper Hg3)]|].
      intros [] st4 [Hr4 Hi4]. apply wp_ret. split; [etrans; [apply Hw; by etrans|done]|done]. }
    revert Hwp. unfold wp, mbind, kernel_bind. cbn [is_linked]. destruct (d_instantiate d ip st3) as [[[] ?]| |]; done.
Qed.

Lemma instantiated_lasting l d : lasting (instantiated l d).
Proof.
  intros st st' Hx (e & o & He & Hn & Ho & (u & Hu) & Ha & Hl). destruct (ex_dents _ _ Hx _ _ He) as (e' & He' & Hk).
  destruct (ex_inodes _ _ Hx _ _ Ho) as (o' & Ho' & Hg).
  exists e', o'. rewrite (dk_inode _ _ Hk) by done. split_and!; [done..|exists u; by apply (ig_upper Hg)| |done]. by apply (eg_flags _ _ (dk_entry _ _ Hk)).
Qed.

Lemma instantiate_achieves st d i newdentry :
  creatable st d i → is_Some (d_inode newdentry) →
  achieves everybody nobody st (ovl_instantiate s_export_op d i newdentry) (instantiated (linked_to i) d).
Proof. intros Hc Hpos st' Hst'. apply instantiate_step; [by eapply creatable_reach|done]. Qed.

(** ** Creation in the upper directory of the parent *)

Lemma create_real_keeps {N} st dir r a :
  locked st dir → valid_ptr r → keeps N N st (ovl_create_real dir r a) positive_ptr.
Proof. intros Hl Hr. apply keeps_quiet. intros st' Hst. apply create_real_quiet; [by eapply reach_locked|done]. Qed.

Lemma creatable_held st h d i : creatable st d i → creatable (set_k_held h st) d i.
Proof.
  intros (Hok & Hg & e & He & Hn & Hu). split; [eapply ok_grows; [exact Hok|apply grows_held]|].
  split; [by destruct i|]. exists e. split_and!; [done..|]. eapply has_upper_grows; [apply grows_held|done].
Qed.

Lemma create_upper_achieves st d i attr :
  creatable st d i → achieves everybody nobody st (ovl_create_upper s_export_op d i attr) (instantiated (linked_to i) d).
Proof.
  intros Hc. pose proof Hc as (Hok & _ & e & He & _ & Hu). unfold ovl_create_upper.
  eapply achieves_bind; [by eapply upper_parent_keeps|]. intros [[p u] ui] [-> Hui].
  eapply achieves_bind with (P := any); [by apply keeps_ask|]. intros umask _. cbv zeta.
  apply (achieves_in_lock (N := everybody) (M := nobody)) with (k := λ err, mret err); [apply instantiated_lasting| |apply reports_ret].
  set (attr' := if _ : bool then _ else _). clearbody attr'.
  set (st1 := set_k_held _ st). assert (creatable st1 d i) as Hc1 by (by apply creatable_held).
  assert (locked st1 ui) as Hl by apply locked_head.
  eapply achieves_bind; [by apply keeps_dent|]. intros e1 _.
  eapply achieves_bind; [by eapply lookup_keeps|]. intros x Hx.
  eapply achieves_bind; [by apply create_real_keeps|]. intros [|err|nd] [Hv Hpos].
  - by destruct Hv.
  - apply achieves_err. by apply Hv.
  - destruct Hu as (pv & Hpv & Hpu).
    eapply achieves_bind; [apply keeps_oview; [by destruct Hc1|exact Hpv]|]. intros pv' _.
    eapply achieves_bind with (P := any).
    { case_match; [|by apply keeps_ret]. eapply keeps_bind with (P := any); [|intros; by apply keeps_ret].
      eapply set_opaque_keeps; [by destruct Hc1|done]. }
    intros _ _. eapply achieves_end; [apply instantiated_lasting|apply instantiate_achieves; [done|by apply Hpos]|].
    intros r. destruct (Z.eqb_spec r 0); cbn [negb]; [by apply keeps_ret|].
    eapply keeps_bind; [by apply cleanup_keeps|]. intros _ _. by apply keeps_ret.
Qed.

(** ** Creation over a whiteout *)

Lemma set_upper_acl_keeps {N} st u n acl : keeps N N st (ovl_set_upper_acl u n acl) any.
Proof.
  unfold ovl_set_upper_acl. destruct acl as [acl|]; [|by apply keeps_ret].
  eapply keeps_bind with (P := any); [by apply keeps_ask|]. intros b _. case_match; [by apply keeps_ret|].
  destruct (posix_acl_to_xattr acl _) as [err buf]. case_match; [by apply keeps_ret|].
  apply keeps_quiet. intros. by apply quietly_on_w.
Qed.

Lemma fix_mode_keeps {N} st d i attr :
  d_inode d = Some i → keeps N N st (inode_lock i;; err ← notify d attr; inode_unlock i;; mret err) any.
Proof.
  intros Hi. eapply keeps_locked with (P := any); [|intros; by apply keeps_ret].
  apply keeps_quiet. intros st' Hst. eapply notify_quiet; [done|]. eapply reach_locked; [done|]. apply locked_head.
Qed.

Context (workdir indexdir : dentry).

(** The new object takes the place of the whiteout. *)
Lemma replace_whiteout_achieves st d i mode hardlink acl default_acl wi ui upper nd ni :
  creatable st d i → d_inode nd = Some ni → locked st wi → locked st ui →
  achieves everybody nobody st
    ((if negb hardlink && negb (S_ISLNK mode) && negb (i_mode ni =? mode) then
        inode_lock ni;;
        err ← notify nd (IAttr ATTR_MODE (IAttrs 0 0 mode 0 0 0 0));
        inode_unlock ni;; mret err
      else mret 0) ;?
     (if hardlink : bool then mret 0 else
        ovl_set_upper_acl nd XATTR_NAME_POSIX_ACL_ACCESS acl ;?
        ovl_set_upper_acl nd XATTR_NAME_POSIX_ACL_DEFAULT default_acl) ;?
     (if negb hardlink && S_ISDIR mode then
        ovl_set_opaque d nd ;?
        ovl_do_rename wi nd ui upper RENAME_EXCHANGE ;?
        (ovl_cleanup wi upper;; mret 0)
      else ovl_do_rename wi nd ui upper 0) ;?
     ovl_instantiate s_export_op d i nd) (instantiated (linked_to i) d).
Proof.
  intros Hc Hni Hwl Hul. pose proof Hc as (Hok & _ & e & He & _ & Hu).
  apply achieves_then; [case_match; [by apply fix_mode_keeps|by apply keeps_ret]|].
  apply achieves_then; [case_match; [by apply keeps_ret|]; apply keeps_then; apply set_upper_acl_keeps|].
  apply achieves_then; [case_match|apply instantiate_achieves; [done|by exists ni]].
  - apply keeps_then; [by eapply set_opaque_keeps|]. apply keeps_then; [by apply rename_keeps|].
    eapply keeps_bind; [by apply cleanup_keeps|]. intros _ _. by apply keeps_ret.
  - by apply rename_keeps.
Qed.

Lemma create_over_whiteout_achieves st d i attr :
  creatable st d i → dirs_ok workdir indexdir st →
  achieves everybody nobody st (ovl_create_over_whiteout workdir s_export_op d i attr) (instantiated (linked_to i) d).
Proof.
  intros Hc Hdirs. pose proof Hc as (Hok & _ & e & He & _ & Hu). pose proof Hu as (pv & Hpv & _).
  pose proof (do_work _ _ _ Hdirs) as [wi Hwi]. unfold ovl_create_over_whiteout.
  eapply achieves_bind; [by eapply workdir_keeps|]. intros _ <-.
  eapply achieves_bind with (P := eq workdir); [by eapply keeps_deref|]. intros _ <-.
  eapply achieves_bind with (P := eq wi); [by eapply keeps_deref|]. intros _ <-.
  eapply achieves_bind; [by eapply upper_parent_keeps|]. intros [[p u] ui] [-> Hui].
  eapply achieves_bind; [by apply keeps_oview|]. intros pv' _.
  eapply achieves_bind with (P := any); [case_match; [by apply keeps_ret|by apply keeps_ask]|].
  intros [[[err mode] dacl] acl] _. destruct (Z.eqb_spec err 0); cbn [negb]; [|by apply achieves_err].
  eapply achieves_rename_lock; [done..|apply instantiated_lasting| |apply reports_ret].
  set (st1 := set_k_held _ st). assert (creatable st1 d i) as Hc1 by (by apply creatable_held).
  assert (locked st1 ui) as Hul by apply locked_head. assert (locked st1 wi) as Hwl by apply locked_second.
  eapply achieves_bind; [by apply keeps_dent|]. intros e1 _.
  eapply achieves_bind; [by eapply lookup_keeps|]. intros [|err1|upper] [Hv Hpos]; [done|by apply achieves_err, Hpos|].
  destruct (ovl_is_whiteout upper); cbn [negb]; [|by apply achieves_err].
  eapply achieves_bind; [by eapply create_temp_keeps|]. intros [|err1|nd] [Hv1 Hpos1]; [by destruct Hv1|apply achieves_err; by apply Hv1|].
  destruct (Hpos1 nd eq_refl) as [ni Hni].
  eapply achieves_bind with (P := eq ni); [by eapply keeps_deref|]. intros _ <-.
  eapply achieves_end; [apply instantiated_lasting|by apply replace_whiteout_achieves|].
  intros r. destruct (Z.eqb_spec r 0); cbn [negb]; [by apply keeps_ret|].
  eapply keeps_bind; [by apply cleanup_keeps|]. intros _ _. by apply keeps_ret.
Qed.

End instantiate.

(** ** Creation with the credentials of the new owner *)

Section owner.
Context {W : Type} `{Under W, !UnderLaws W, Kern W, !KernLaws W, DirKern W, !DirLaws W, RbLib}.
Implicit Types (st : kst W).

(** [achieves], except that the credentials may be other ones afterwards. *)
Definition achieves_cred (N M : frozen) st0 (m : kernel W Z) (F : kst W → Prop) : Prop :=
  ∀ st, reach N st0 st → wp m st (λ r st',
    (extends M st st' ∧ ∃ c, k_held st' = cred_held c (k_held st)) ∧ (r = 0 → F st')).

Context {N M : frozen} `{!weaker M N} (F : kst W → Prop).

Lemma cred_of st0 m : achieves N M st0 m F → achieves_cred N M st0 m F.
Proof.
  intros Hm st Hst. eapply wp_mono; [by apply Hm|]. intros r st' [[Hx Hh] HF]. split; [|done]. split; [done|].
  exists (h_cred (k_held st)). rewrite Hh. by destruct (k_held st).
Qed.
Lemma cred_bind st0 {A} (m : kernel W A) (f : A → kernel W Z) (P : A → Prop) :
  keeps N N st0 m P → (∀ a, P a → achieves_cred N M st0 (f a) F) → achieves_cred N M st0 (m ≫= f) F.
Proof.
  intros Hm Hf st Hst. eapply wp_seq; [by apply Hm|]. intros a st' [Hr HP].
  eapply wp_mono; [apply (Hf a HP); by etrans|]. intros r st2 [[Hx [c Hh]] HF]. split; [|done]. split.
  - etrans; [|exact Hx]. by apply (reach_weaker (N := N)).
  - exists c. by rewrite Hh, (proj2 Hr).
Qed.
Lemma cred_then st0 (m k : kernel W Z) :
  keeps N N st0 m any → achieves_cred N M st0 k F → achieves_cred N M st0 (m ;? k) F.
Proof.
  intros Hm Hk. unfold ok_then. eapply cred_bind; [exact Hm|]. intros r _.
  destruct (Z.eqb_spec r 0); cbn [negb]; [done|]. by apply cred_of, achieves_err.
Qed.
Lemma cred_override st0 c m :
  achieves N M (set_k_held (cred_held c (k_held st0)) st0) m F → achieves_cred N M st0 (override_creds c;; m) F.
Proof.
  intros Hm st Hst. apply wp_bind. unfold wp at 1, override_creds.
  eapply wp_mono; [eapply (gives_set_held st0 st _ m); [done| |reflexivity]; rewrite (proj2 Hst); exact Hm|].
  intros r st' [[Hx Hh] HF]. split; [|done]. split; [|by exists c]. etrans; [|exact Hx]. apply extends_held.
Qed.
Lemma cred_bracket st0 c (m : Z → kernel W Z) :
  lasting F → achieves_cred N M (set_k_held (cred_held c (k_held st0)) st0) (m (h_cred (k_held st0))) F →
  achieves N M st0 (old ← override_creds c; r ← m old; revert_creds old;; mret r) F.
Proof.
  intros HF Hm st Hst. apply wp_bind. unfold wp at 1, override_creds. rewrite (proj2 Hst).
  eapply wp_seq.
  { apply Hm. split; [|done]. etrans; [|etrans; [apply Hst|]]; apply extends_same; (by left) || done. }
  intros r st' [[Hx [c' Hh]] HFr]. apply wp_bind. unfold wp at 1, revert_creds, modify. apply wp_ret. split.
  - split; [etrans; [apply extends_held|etrans; [exact Hx|apply extends_held]]|].
    rewrite Hh. cbn. rewrite (proj2 Hst). by destruct (k_held st0).
  - intros Hr. eapply HF; [apply extends_held|by apply HFr].
Qed.

End owner.

Section create_or_link.
Context {W : Type} `{Under W, !UnderLaws W, Kern W, !KernLaws W, DirKern W, !DirLaws W, RbLib}.
Context (creator_cred : Z) (workdir indexdir : dentry) (export_op : Z → option (bool * bool)).
Context (s_export_op : bool) (fuel depth : nat).
Implicit Types (st : kst W).

(** [d] is negative and its parent can be copied up. *)
Definition can_create st (d : Z) : Prop :=
  ok st ∧ dirs_ok workdir indexdir st ∧
  ∃ e, k_dents st !! d = Some e ∧ dn_inode e = NULL ∧ reachable fuel depth st (dn_parent e).

Lemma arg_keeps {N} st i :
  good_arg st i → keeps N N st (match i with Preallocated o => mret o | Linked ip => inode_of ip end) any.
Proof.
  destruct i as [o|ip]; [by intros; apply keeps_ret|]. intros (o & Ho & _).
  eapply keeps_weaken, keeps_mono; [by apply keeps_inode|done].
Qed.

Lemma create_or_link_achieves st d i attr origin :
  can_create st d → good_arg st i → achieves everybody nobody st
    (ovl_create_or_link creator_cred workdir indexdir export_op s_export_op fuel depth d i attr origin) (instantiated (linked_to i) d).
Proof.
  intros (Hok & Hdirs & e & He & Hn & Hr) Hg. unfold ovl_create_or_link.
  eapply achieves_bind; [by apply keeps_dent|]. intros e1 Hk1. rewrite (dk_parent _ _ Hk1).
  eapply achieves_after; [by apply copy_up_achieves|]. intros st1 Hr1 (Hok1 & Hu1 & _).
  assert (creatable st1 d i) as Hc1.
  { split; [done|]. destruct (ex_dents _ _ (proj1 Hr1) _ _ He) as (e2 & He2 & Hk2). split.
    - eapply good_arg_extends; [apply Hr1|done].
    - exists e2. rewrite (dk_parent _ _ Hk2), (dk_still _ _ Hk2) by (by right). done. }
  assert (dirs_ok workdir indexdir st1) as Hdirs1 by (eapply dirs_ok_extends; [apply Hr1|done]). clear Hr1.
  apply cred_bracket; [apply instantiated_lasting|].
  set (st2 := set_k_held _ st1). assert (creatable st2 d i) as Hc2 by (by apply creatable_held).
  pose proof Hc2 as (Hok2 & Hg2 & e2 & He2 & Hn2 & _).
  assert (has_upper st2 (dn_parent e)) as (pv & Hpv & u & Hu) by (eapply has_upper_grows; [apply grows_held|exact Hu1]).
  apply cred_then.
  { destruct origin; [|by apply keeps_ret]. eapply keeps_bind; [by apply keeps_oview|]. intros pv' Hgv.
    eapply keeps_bind with (P := any); [eapply keeps_deref; [by apply (ig_upper (vg_inode _ _ _ Hgv))|done]|].
    intros u' _. by eapply set_impure_keeps. }
  eapply cred_bind; [by apply arg_keeps|]. intros o _.
  eapply cred_bind with (P := any); [by apply keeps_ask|]. intros [cred|] _; [|by apply cred_of, achieves_err].
  apply cred_then; [case_match; [by apply keeps_ret|by apply keeps_ask]|].
  apply cred_override. set (st3 := set_k_held _ st2).
  assert (creatable st3 d i) as Hc3 by (by apply creatable_held).
  eapply achieves_bind; [by apply keeps_dent|]. intros e3 _.
  eapply achieves_bind with (P := any); [by apply keeps_ask|]. intros o3 _. case_match.
  - by apply create_upper_achieves.
  - eapply create_over_whiteout_achieves; [done|].
    eapply dirs_ok_extends; [|exact Hdirs1]. etrans; [apply (extends_held (N := nobody))|apply extends_held].
Qed.

Lemma can_create_extends st st' d : extends everybody st st' → can_create st d → can_create st' d.
Proof.
  intros Hx (Hok & Hdirs & e & He & Hn & Hr). split; [by eapply ex_ok|]. split; [by eapply dirs_ok_extends|].
  destruct (ex_dents _ _ Hx _ _ He) as (e' & He' & Hk). exists e'.
  rewrite (dk_parent _ _ Hk), (dk_still _ _ Hk) by (by right). split_and!; [done..|]. by eapply reachable_extends.
Qed.

Lemma new_inode_keeps {N} st mode rdev :
  keeps N N st (ovl_new_inode mode rdev) (λ r, ∀ o, r = Some o → blank o).
Proof.
  unfold ovl_new_inode. eapply keeps_bind; [apply keeps_get|]. intros st1 _.
  destruct (new_inode (k_w st1)) as [[i stale]|]; [|by apply keeps_ret].
  apply keeps_ret. intros o [= <-]. by split_and!.
Qed.

Lemma create_object_achieves st d mode rdev link :
  can_create st d → 0 ≤ h_write (k_held st) →
  achieves everybody nobody st
    (ovl_create_object creator_cred workdir indexdir export_op s_export_op fuel depth d mode rdev link) (instantiated None d).
Proof.
  intros Hc Hw. unfold ovl_create_object.
  apply achieves_write; [done|apply instantiated_lasting| |apply reports_ret].
  set (st1 := set_k_held _ st). assert (can_create st1 d) as Hc1 by (eapply can_create_extends; [apply extends_held|done]).
  pose proof Hc1 as (Hok & _ & e & He & Hn & n & Hr & _). destruct (rooted_view _ _ _ Hr) as (pv & Hpv & _).
  pose proof Hpv as (pe & po & Hpe & Hpo & _)%view_inv.
  eapply achieves_bind; [apply new_inode_keeps|]. intros [o|] Ho; [|by apply achieves_err].
  eapply achieves_bind; [by apply keeps_dent|]. intros e1 Hk1. rewrite (dk_parent _ _ Hk1).
  eapply achieves_bind; [by apply keeps_dent|]. intros pe1 Hpk. rewrite (dk_still _ _ Hpk) by (by right).
  eapply achieves_bind; [by apply keeps_inode|]. intros po1 _.
  eapply achieves_bind with (P := any); [by apply keeps_ask|]. intros vfs _.
  apply create_or_link_achieves; [done|]. destruct (Ho o eq_refl) as (? & ? & ?). by split_and!.
Qed.

(** ** Hard links *)

Context (ovl_redirect_max : Z).

Lemma set_link_redirect_keeps {N} st d n :
  ok st → rooted st d n → (n < depth)%nat → has_upper st d →
  keeps N N st (ovl_set_link_redirect creator_cred ovl_redirect_max depth d) any.
Proof.
  intros Hok Hr Hd (v & Hv & u & Hu). unfold ovl_set_link_redirect, ovl_override_creds.
  eapply keeps_creds with (P := any); [|intros; by apply keeps_ret].
  eapply set_redirect_keeps with (n := n) (v := v); [| |done..].
  - eapply ok_grows; [exact Hok|apply grows_held].
  - eapply rooted_grows; [apply grows_held|done].
Qed.

Lemma link_achieves st old new eo0 :
  k_dents st !! old = Some eo0 → can_create st new → reachable fuel depth st old → 0 ≤ h_write (k_held st) →
  achieves everybody nobody st
    (ovl_link creator_cred workdir indexdir export_op ovl_redirect_max s_export_op fuel depth old new) (instantiated (Some (dn_inode eo0)) new).
Proof.
  intros Heo0 Hc Ho Hw. unfold ovl_link.
  apply achieves_write; [done|apply instantiated_lasting| |apply reports_ret].
  assert (extends everybody st (set_k_held (write_held (k_held st)) st)) as Hx by apply extends_held.
  apply (reachable_extends _ _ _ _ _ (proj1 Hc) Hx) in Ho. apply (can_create_extends _ _ _ Hx) in Hc.
  set (st1 := set_k_held _ st) in *. change (k_dents st1 !! old = Some eo0) in Heo0. clearbody st1. clear Hx.
  eapply achieves_after; [apply copy_up_achieves; [apply Hc|apply Hc|done]|]. intros st2 [Hx2 _] (Hok2 & Hu2 & _).
  apply (reachable_extends _ _ _ _ _ (proj1 Hc) Hx2) in Ho. apply (can_create_extends _ _ _ Hx2) in Hc.
  destruct (ex_dents _ _ Hx2 _ _ Heo0) as (eo' & Heo' & Hke).
  pose proof Hc as (_ & Hdirs & e & He & Hn & Hr). pose proof Ho as (n & Hrn & Hb & _).
  destruct (rooted_view _ _ _ Hrn) as (v & Hv & _). pose proof Hv as (eo & oo & Heo & Hoo & _)%view_inv.
  rewrite Heo in Heo'. injection Heo' as <-. rewrite <- (dk_still _ _ Hke) by (by right).
  eapply achieves_bind; [by apply keeps_dent|]. intros e1 Hk1. rewrite (dk_parent _ _ Hk1).
  apply achieves_then; [eapply achieves_keeps; by apply copy_up_achieves|].
  eapply achieves_bind; [by apply keeps_oview|]. intros v1 _.
  apply achieves_then; [case_match; [by eapply set_link_redirect_keeps|by apply keeps_ret]|].
  eapply achieves_nlink; [done..|apply instantiated_lasting| |apply reports_ret].
  set (st3 := set_k_held _ st2). assert (extends everybody st2 st3) as Hx3 by apply extends_held.
  eapply achieves_bind; [by apply keeps_dent|]. intros eo1 Hko. rewrite (dk_still _ _ Hko) by (by right).
  eapply achieves_bind; [apply keeps_oview; [by eapply ex_ok|exact Hv]|]. intros v2 _.
  apply (create_or_link_achieves _ new (Linked (dn_inode eo))); [by eapply can_create_extends|]. exists oo. split; [done|].
  destruct Hu2 as (w & Hvw & u & Huw). pose proof Hvw as (? & ? & ? & ? & ->)%view_inv. simplify_eq. by exists u.
Qed.

End create_or_link.
