(* ===== verification/DirRemove.v ===== *)
(** Removing objects: the emptiness test, the replacement of a directory that
    only holds whiteouts, removal with and without a whiteout.  Every stage
    returns, leaves a well-formed overlay and unhashes the dentry when it
    succeeds. *)

From S2P Require Import Prelude Types Util Under Nlink Fh FhProps Redirect RedirectProps Inode InodeProps Block Readdir Lookup LookupProps Kernel KernelProps Work CopyUp WorkProps CopyUpSteps CopyUpStages CopyUpProps Dir DirSteps DirParts DirOps.
From stdpp Require Import gmap.
Local Open Scope Z_scope.

(** ** The whiteouts an empty directory holds are in the upper layer *)

Section no_upper.
Context `{RbLib} (dentry : option rd_dentry) (kmalloc : list centry → string → bool).
Implicit Types (r : rdd).

(** No entry read so far comes from an upper directory. *)
Definition lower_entries r : Prop := Forall (λ p, ce_is_upper p = false) (r_heap r).
Definition reads_lower r : Prop := r_is_upper r = false ∧ lower_entries r.

Lemma entry_new_lower r n i t : reads_lower r → reads_lower (ovl_cache_entry_new dentry kmalloc r n i t).2.
Proof.
  intros [Hu Hl]. unfold ovl_cache_entry_new. case_match; [by split|]. cbn. split; [done|].
  unfold lower_entries. cbn. apply Forall_app. split; [done|]. by constructor.
Qed.
Lemma fill_merge_lower e r : reads_lower r → reads_lower (ovl_fill_merge dentry kmalloc e r).2.
Proof.
  intros Hr. unfold ovl_fill_merge, ovl_cache_entry_add_rb, ovl_fill_lowest. cbv zeta.
  set (r1 := rdd_status _ _ r). assert (reads_lower r1) as Hr1 by done. clearbody r1. clear r Hr.
  pose proof (entry_new_lower r1 (de_name e) (de_ino e) (de_type e) Hr1) as Hn.
  destruct (ovl_cache_entry_new _ _ r1 _ _ _) as [[p|] r2]; cbn in Hn;
    repeat case_match; simplify_eq; done.
Qed.
Lemma iterate_lower es : ∀ r, reads_lower r → reads_lower (iterate_dir (ovl_fill_merge dentry kmalloc) es r).
Proof.
  induction es as [|e es IH]; intros r Hr; [done|]. cbn. pose proof (fill_merge_lower e r Hr) as Hf.
  destruct (ovl_fill_merge dentry kmalloc e r) as [x r1]. case_match; [done|by apply IH].
Qed.
Lemma read_loop_lower bs : ∀ r, reads_lower r → reads_lower (dir_read_loop (ovl_fill_merge dentry kmalloc) bs r).2.
Proof.
  induction bs as [|[es ret] bs IH]; intros r Hr; [done|]. cbn.
  pose proof (iterate_lower es (rdd_status 0 0 r) Hr) as Hi. set (r1 := iterate_dir _ _ _) in *.
  case_match; [by apply IH|done].
Qed.
Lemma check_whiteouts_lower lk chain : ∀ h, Forall (λ p, ce_is_upper p = false) h →
  Forall (λ p, ce_is_upper p = false) (check_whiteouts_loop lk chain h).
Proof.
  induction chain as [|p chain IH]; intros h Hh; [done|]. cbn. apply IH.
  destruct (h !! p) as [e|] eqn:E; [|done]. destruct (lk (ce_name e)); [|done].
  apply Forall_insert; [done|]. exact (Forall_lookup_1 _ _ _ _ Hh E).
Qed.
Lemma dir_read_lower b l r :
  reads_lower r → reads_lower (ovl_dir_read b (ovl_fill_merge dentry kmalloc) l r).2.
Proof.
  intros Hr. unfold ovl_dir_read. case_match; [done|].
  pose proof (read_loop_lower (li_batches l) (rdd_heap (r_heap r) [] r) Hr) as Hl.
  destruct (dir_read_loop _ _ _) as [err r1]. case_match; [|done]. unfold ovl_check_whiteouts. cbv zeta.
  case_match; [|done]. destruct Hl as [? Hl]. split; [done|]. by apply check_whiteouts_lower.
Qed.
Lemma merged_loop_lower layers : ∀ r,
  Forall (λ x, x.1 = false) layers → lower_entries r → lower_entries (dir_read_merged_loop kmalloc dentry layers r).2.
Proof.
  induction layers as [|[u l] layers IH]; intros r Hu Hr; [done|].
  apply Forall_cons_1 in Hu as [Hu Hus]. cbn in Hu. subst u. destruct layers as [|x layers].
  - cbn. set (b := match dentry with Some _ => true | None => false end).
    set (r1 := rdd_lists _ _ _ _). pose proof (dir_read_lower b l r1 (conj eq_refl Hr)) as Hl.
    destruct (ovl_dir_read _ _ _ _) as [err r2]. apply Hl.
  - cbn [dir_read_merged_loop]. set (b := match dentry with Some _ => true | None => false end).
    set (r1 := rdd_layer _ _ _). pose proof (dir_read_lower b l r1 (conj eq_refl Hr)) as Hl.
    destruct (ovl_dir_read _ _ _ _) as [err r2]. case_match; [apply Hl|]. apply IH; [done|apply Hl].
Qed.

Lemma check_empty_upper l : Forall (λ p, ce_is_upper p = false) l → (check_empty_loop l).1 = 0 → (check_empty_loop l).2 = [].
Proof.
  induction l as [|p l IH]; intros Hl; [done|]. apply Forall_cons_1 in Hl as [Hp Hl]. cbn.
  rewrite Hp. repeat case_match; cbn; auto. by intros.
Qed.

End no_upper.

Lemma rdd_entries_lower r : lower_entries r → Forall (λ p, ce_is_upper p = false) (rdd_entries r).
Proof.
  intros Hr. unfold rdd_entries. apply Forall_forall. intros p Hp.
  apply list_elem_of_omap in Hp as (i & _ & Hi). exact (Forall_lookup_1 _ _ _ _ Hr Hi).
Qed.

(** An empty directory without an upper part needs no clearing. *)
Lemma check_empty_dir_lower `{RbLib} kmalloc d layers :
  Forall (λ x, x.1 = false) layers → (ovl_check_empty_dir kmalloc d layers).1 = 0 →
  (ovl_check_empty_dir kmalloc d layers).2 = [].
Proof.
  intros Hl. unfold ovl_check_empty_dir, ovl_dir_read_merged.
  pose proof (merged_loop_lower (Some d) kmalloc layers rdd_empty Hl (Forall_nil_2 _)) as Hm.
  destruct (dir_read_merged_loop _ _ _ _) as [err r]. cbn in Hm.
  destruct (Z.eqb_spec err 0); cbn [negb]; [|done]. by apply check_empty_upper, rdd_entries_lower.
Qed.

(** ** The steps of removal *)

Section remove.
Context {W : Type} `{Under W, !UnderLaws W, Kern W, !KernLaws W, DirKern W, !DirLaws W, RbLib}.
Implicit Types (st : kst W).

(** [d] is no longer hashed. *)
Definition dropped (d : Z) st : Prop := ∃ e, k_dents st !! d = Some e ∧ dn_hashed e = false.
Lemma dropped_lasting d : lasting (dropped d).
Proof.
  intros st st' Hx (e & He & Hh). destruct (ex_dents _ _ Hx _ _ He) as (e' & He' & Hk).
  exists e'. split; [done|by apply (dk_unhashed _ _ Hk)].
Qed.
Lemma d_drop_gives {N} `{!droppable N} st0 d e : k_dents st0 !! d = Some e → gives N N st0 (d_drop d) (λ _, dropped d).
Proof.
  intros He st Hst. destruct (ex_dents _ _ (proj1 Hst) _ _ He) as (e' & He' & _).
  pose proof (keeps_d_drop st0 d e He st Hst) as Hd. unfold d_drop, dent, wp, mbind, kernel_bind, modify in *.
  rewrite He' in *. destruct Hd as [Hd _]. split; [done|]. exists (set_dn_hashed false e'). cbn. by rewrite lookup_insert_eq.
Qed.

Lemma cleanup_whiteouts_keeps {N} st upper ui l :
  d_inode upper = Some ui → keeps N N st (ovl_cleanup_whiteouts upper l) any.
Proof.
  intros Hui. unfold ovl_cleanup_whiteouts. eapply keeps_bind with (P := eq ui); [by eapply keeps_deref|]. intros _ <-.
  eapply keeps_locked_end with (P := any). set (st1 := set_k_held _ st).
  assert (locked st1 ui) as Hl by apply locked_head. clearbody st1. induction l as [|p l IH]; [by apply keeps_ret|].
  cbn [cleanup_whiteouts_loop]. eapply keeps_bind with (P := any); [|by intros].
  case_match; [by apply keeps_ret|]. eapply keeps_bind; [by eapply lookup_keeps|].
  intros [|e|x] Hx; [by destruct Hx|by apply keeps_ret|]. case_match; [|by apply keeps_ret].
  eapply keeps_bind; [by apply cleanup_keeps|]. intros _ _. by apply keeps_ret.
Qed.

Context (workdir indexdir : dentry).

(** The state in which a directory [d] with an upper can be emptied. *)
Definition removable st (d : Z) : Prop :=
  ok st ∧ dirs_ok workdir indexdir st ∧
  ∃ e o, k_dents st !! d = Some e ∧ k_inodes st !! dn_inode e = Some o ∧ has_upper st (dn_parent e).

(** The opaque directory that replaces the one with the whiteouts. *)
Definition opaque_result (r : Z + dentry) : Prop := match r with inl e => e ≠ 0 | inr d => is_Some (d_inode d) end.

Lemma opaque_dir_keeps {N} st d e v u ui wi udir stat l :
  ok st → k_dents st !! d = Some e → view_at st d = Some v → ovl_dentry_upper v = Some u → d_inode u = Some ui →
  d_inode workdir = Some wi → locked st wi → locked st udir →
  keeps N N st
    (opaquedir ← ovl_create_temp workdir (OVL_CATTR (st_mode stat));
     match opaquedir with
     | PErr err => mret (inl err)
     | PNull => fault
     | PPtr opaquedir =>
         err ← ovl_copy_xattr u opaquedir;
         err ← (if negb (err =? 0) then mret err else ovl_set_opaque d opaquedir);
         err ← (if negb (err =? 0) then mret err else
                oi ← deref (d_inode opaquedir);
                inode_lock oi;;
                err ← ovl_set_attr opaquedir stat;
                inode_unlock oi;; mret err);
         err ← (if negb (err =? 0) then mret err
                else ovl_do_rename wi opaquedir udir u RENAME_EXCHANGE);
         if negb (err =? 0) then ovl_cleanup wi opaquedir;; mret (inl err) else
         ovl_cleanup_whiteouts u l;;
         ovl_cleanup wi u;;
         mret (inr opaquedir)
     end) opaque_result.
Proof.
  intros Hok He Hv Hu Hui Hwi Hwl Hul.
  eapply keeps_bind; [by eapply create_temp_keeps|]. intros [|err|od] [Hvp Hpos]; [by destruct Hvp|apply keeps_ret; by apply Hvp|].
  destruct (Hpos od eq_refl) as [oi Hoi].
  eapply keeps_bind with (P := any); [apply keeps_quiet; intros; by eapply copy_xattr_quiet|]. intros err _.
  eapply keeps_bind with (P := any); [case_match; [by apply keeps_ret|by eapply set_opaque_keeps]|]. clear err. intros err _.
  eapply keeps_bind with (P := any).
  { case_match; [by apply keeps_ret|]. eapply keeps_bind with (P := eq oi); [by eapply keeps_deref|]. intros _ <-.
    eapply keeps_locked with (P := any); [|intros; by apply keeps_ret]. apply keeps_quiet. intros st' Hst.
    eapply set_attr_quiet; [done|]. eapply reach_locked; [done|]. apply locked_head. }
  clear err. intros err _.
  eapply keeps_bind with (P := any); [case_match; [by apply keeps_ret|by apply rename_keeps]|]. clear err. intros err _.
  destruct (Z.eqb_spec err 0); cbn [negb].
  - eapply keeps_bind; [by eapply cleanup_whiteouts_keeps|]. intros _ _.
    eapply keeps_bind; [by apply cleanup_keeps|]. intros _ _. apply keeps_ret. by exists oi.
  - eapply keeps_bind; [by apply cleanup_keeps|]. intros _ _. by apply keeps_ret.
Qed.

Lemma clear_empty_keeps {N} `{!droppable N} st d l :
  removable st d → has_upper st d → keeps N N st (ovl_clear_empty workdir d l) positive_ptr.
Proof.
  intros (Hok & Hdirs & e & o & He & Ho & Hp) (v & Hv & u & Hu). unfold ovl_clear_empty.
  pose proof (do_work _ _ _ Hdirs) as [wi Hwi].
  assert (is_Some (d_inode u)) as [ui Hui].
  { pose proof Hv as (e1 & o1 & He1 & Ho1 & ->)%view_inv. by eapply (ok_upper _ Hok). }
  eapply keeps_bind; [by eapply workdir_keeps|]. intros _ <-.
  eapply keeps_bind with (P := eq workdir); [by eapply keeps_deref|]. intros _ <-.
  eapply keeps_bind with (P := eq wi); [by eapply keeps_deref|]. intros _ <-.
  eapply keeps_bind; [by eapply upper_parent_keeps|]. intros [[p up] udir] [-> Hudir].
  eapply keeps_rename_lock with (e := PErr) (P := opaque_result); [done..|by apply positive_err| |].
  2:{ intros [err|od] Hr; [apply keeps_ret; by apply positive_err|].
      eapply keeps_bind; [by eapply keeps_d_drop|]. intros _ _. apply keeps_ret. split; [apply valid_ptr_ptr|by intros ? [= <-]]. }
  set (st1 := set_k_held _ st). assert (ok st1) as Hok1 by (eapply ok_grows; [exact Hok|apply grows_held]).
  assert (locked st1 udir) as Hul by apply locked_head. assert (locked st1 wi) as Hwl by apply locked_second.
  eapply keeps_bind; [by apply keeps_oview|]. intros v' Hg.
  assert (ovl_dentry_upper v' = Some u) as Hu' by (by apply (ig_upper (vg_inode _ _ _ Hg))).
  eapply keeps_bind with (P := any); [by apply keeps_ask|]. intros ofs _. cbv zeta.
  eapply keeps_bind with (P := any); [by apply keeps_ask|]. intros [err stat] _.
  destruct (Z.eqb_spec err 0); cbn [negb]; [|by apply keeps_ret].
  case_match; [by apply keeps_ret|].
  eapply keeps_bind with (P := eq u); [by eapply keeps_deref|]. intros _ <-.
  eapply keeps_bind with (P := any); [by apply keeps_ask|]. intros parent _.
  case_match; [by apply keeps_ret|]. by eapply opaque_dir_keeps.
Qed.

Lemma clear_first_keeps {N} `{!droppable N} st d l :
  removable st d → (l ≠ [] → has_upper st d) →
  keeps N N st (clear_first workdir d l) (λ r, match r with inl e => e ≠ 0 | inr o => ∀ d, o = Some d → is_Some (d_inode d) end).
Proof.
  intros Hr Hl. unfold clear_first. destruct l as [|p l]; [by apply keeps_ret|].
  eapply keeps_bind; [by apply clear_empty_keeps, Hl|]. intros [|err|od] [Hv Hp]; [by destruct Hv|apply keeps_ret; by apply Hv|].
  apply keeps_ret. intros x [= <-]. by apply Hp.
Qed.

Lemma matches_keeps {N} st v u : is_Some (ovl_dentry_upper v) →
  keeps N N st (asko (λ _, matches ← ovl_matches_upper v u; Ret (negb matches))) any.
Proof. intros [x Hx]. apply keeps_asko. intros st' _. unfold ovl_matches_upper. rewrite Hx. by eexists. Qed.

Lemma removable_held st h d : removable st d → removable (set_k_held h st) d.
Proof.
  intros (Hok & Hdirs & e & o & He & Ho & Hp). split; [eapply ok_grows; [exact Hok|apply grows_held]|].
  split; [eapply dirs_ok_grows; [apply grows_held|exact Hdirs]|].
  exists e, o. split_and!; [done..|]. eapply has_upper_grows; [apply grows_held|done].
Qed.
Lemma has_upper_held st h d : has_upper st d → has_upper (set_k_held h st) d.
Proof. apply has_upper_grows, grows_held. Qed.

Lemma dropping_end st d e err :
  k_dents st !! d = Some e → achieves nobody nobody st (d_drop d;; mret err) (dropped d).
Proof.
  intros He st' Hst. eapply wp_seq; [by eapply (d_drop_gives (N := nobody))|]. intros [] st2 [Hr Hd].
  apply wp_ret. by split.
Qed.

Lemma remove_and_whiteout_achieves st d l :
  removable st d → (l ≠ [] → has_upper st d) →
  achieves nobody nobody st (ovl_remove_and_whiteout workdir d l) (dropped d).
Proof.
  intros Hrm Hl. pose proof Hrm as (Hok & Hdirs & e & o & He & Ho & Hp). unfold ovl_remove_and_whiteout.
  pose proof (do_work _ _ _ Hdirs) as [wi Hwi].
  eapply achieves_bind; [by eapply workdir_keeps|]. intros _ <-.
  eapply achieves_bind; [by eapply upper_parent_keeps|]. intros [[p up] udir] [-> Hudir].
  eapply achieves_bind; [by eapply (clear_first_keeps (N := nobody))|]. intros [err|od] Hr; [by apply achieves_err|].
  eapply achieves_rename_lock; [done..|apply dropped_lasting| |apply reports_ret].
  apply (removable_held _ (lock_held [LInode (i_ptr udir); LInode (i_ptr wi); LRename] (k_held st))) in Hrm.
  set (st1 := set_k_held _ st) in *.
  assert (locked st1 udir) as Hul by apply locked_head. assert (locked st1 wi) as Hwl by apply locked_second.
  assert (has_upper st1 (dn_parent e)) as Hp1 by (by apply has_upper_held).
  destruct Hrm as (Hok1 & _). clear Hp.
  eapply achieves_bind; [by apply keeps_dent|]. intros e1 _.
  eapply achieves_bind; [by eapply lookup_keeps|]. intros [|err|upper] Hv; [by destruct Hv|by apply achieves_err, Hv|].
  eapply achieves_bind with (P := any).
  { eapply keeps_mono; [apply keeps_oview with (v := ODentry d (dn_name e) (dn_flags e) o (dn_entry e)); [done|]|done].
    unfold view_at, view. cbn. rewrite He. cbn. by rewrite Ho. }
  intros v _. eapply achieves_bind with (P := any).
  { destruct od; [by apply keeps_ret|]. case_bool_decide; [by apply matches_keeps|by apply keeps_ret]. }
  intros stale _. destruct stale; [by apply achieves_err|].
  eapply achieves_bind; [by eapply cleanup_and_whiteout_keeps|]. intros err _.
  eapply achieves_bind with (P := any); [case_match; [by apply dir_modified_keeps|by apply keeps_ret]|].
  intros _ _. by eapply dropping_end.
Qed.

Lemma remove_upper_achieves st d is_dir l :
  removable st d → has_upper st d → achieves nobody nobody st (ovl_remove_upper workdir d is_dir l) (dropped d).
Proof.
  intros Hrm Hu. pose proof Hrm as (Hok & Hdirs & e & o & He & Ho & Hp). unfold ovl_remove_upper.
  eapply achieves_bind; [by eapply upper_parent_keeps|]. intros [[p up] udir] [-> Hudir].
  eapply achieves_bind; [by eapply (clear_first_keeps (N := nobody))|]. intros [err|od] Hr; [by apply achieves_err|].
  apply (achieves_in_lock (N := nobody) (M := nobody)) with (k := λ err, mret err); [apply dropped_lasting| |apply reports_ret].
  apply (removable_held _ (lock_held [LInode (i_ptr udir)] (k_held st))) in Hrm.
  set (st1 := set_k_held _ st) in *. assert (locked st1 udir) as Hul by apply locked_head.
  assert (has_upper st1 (dn_parent e)) as Hp1 by (by apply has_upper_held).
  assert (has_upper st1 d) as (v & Hv & u & Hvu) by (by apply has_upper_held). destruct Hrm as (Hok1 & _). clear Hp.
  eapply achieves_bind; [by apply keeps_dent|]. intros e1 _.
  eapply achieves_bind; [by eapply lookup_keeps|]. intros [|err|upper] Hx; [by destruct Hx|by apply achieves_err, Hx|].
  eapply achieves_bind; [by apply keeps_oview|]. intros v' Hg.
  eapply achieves_bind with (P := any).
  { destruct od; [by apply keeps_ret|]. apply matches_keeps. exists u. by apply (ig_upper (vg_inode _ _ _ Hg)). }
  intros stale _. destruct stale; [by apply achieves_err|].
  eapply achieves_bind with (P := any); [case_match; by apply in_dir_keeps|]. intros err _.
  eapply achieves_bind with (P := any); [by apply dir_modified_keeps|]. intros _ _.
  destruct (Z.eqb_spec err 0); [by eapply dropping_end|].
  eapply achieves_bind with (P := any); [by apply keeps_ret|]. intros _ _. by apply achieves_err.
Qed.

End remove.

(** ** The whole removal *)

Section do_remove.
Context {W : Type} `{Under W, !UnderLaws W, Kern W, !KernLaws W, DirKern W, !DirLaws W, RbLib}.
Context (creator_cred : Z) (workdir indexdir : dentry) (export_op : Z → option (bool * bool)).
Context (kmalloc : list centry → string → bool) (fuel depth : nat).
Implicit Types (st : kst W).

(** [d] has an upper in a well-formed overlay. *)
Definition upper_there (d : Z) st : Prop := ok st ∧ has_upper st d.
Lemma upper_there_lasting d : lasting (upper_there d).
Proof. intros st st' Hx [Hok Hu]. split; [by eapply ex_ok|by eapply extends_upper]. Qed.
Lemma upper_there_if d (P : Prop) : lasting (λ st, P → upper_there d st).
Proof. intros st st' Hx HP ?. eapply upper_there_lasting; [done|by apply HP]. Qed.

Lemma lower_loop_returns (w : W) n poe : ∃ b, lower_positive_loop w n poe = Ret b.
Proof.
  induction poe as [|p poe IH]; [by eexists|]. cbn.
  destruct (lookup_one_len_unlocked w n (op_dentry p)) as [|e|x] eqn:El; [by apply law_lookup in El|..]; case_match; eauto.
Qed.

(** Without a positive name below, the dentry is in the upper layer. *)
Lemma lower_positive_gives {N} st d v :
  ok st → view_at st d = Some v →
  gives N N st (lower_positive creator_cred d) (λ b st', b = false → upper_there d st').
Proof.
  intros Hok Hv st1 Hst1. assert (ok st1) as Hok1 by (eapply ex_ok; [apply Hst1|done]).
  destruct (extends_view _ _ _ _ Hok (proj1 Hst1) Hv) as (v1 & Hv1 & _). clear Hv v st Hst1 Hok.
  pose proof Hv1 as (e & o & He & Ho & Ev)%view_inv. destruct (ok_parent _ Hok1 _ _ He) as [pe Hpe].
  pose proof (not_null _ _ _ Hok1 Ho) as Hnn.
  unfold lower_positive, ovl_override_creds.
  eapply (wp_creds (N := N) (M := N)) with (P := λ b st', b = false → upper_there d st').
  - intros st3 [Hx3 Hh3].
    assert (extends N st1 st3) as Hx by (etrans; [apply extends_held|exact Hx3]).
    assert (ok st3) as Hok3 by (by eapply ex_ok).
    destruct (ex_dents _ _ Hx _ _ He) as (e3 & He3 & Hk3). destruct (ex_dents _ _ Hx _ _ Hpe) as (pe3 & Hpe3 & _).
    destruct (ex_inodes _ _ Hx _ _ Ho) as (o3 & Ho3 & _).
    eapply wp_dent; [done|]. eapply wp_dent; [by rewrite (dk_parent _ _ Hk3)|].
    unfold wp, asko. rewrite (dk_inode _ _ Hk3 Hnn), Ho3. destruct (Z.eqb_spec (dn_inode e) NULL) as [|_]; [done|].
    cbn [ovl_lower_positive]. case_bool_decide as Hu; cbn [negb]; [|by split].
    destruct (lower_loop_returns (k_w st3) (dn_name e3) (oe_lowerstack (dn_entry pe3))) as [b ->].
    split; [done|]. intros _. split; [done|].
    exists (ODentry d (dn_name e3) (dn_flags e3) o3 (dn_entry e3)). split; [|exact Hu].
    unfold view_at, view. rewrite He3. cbn. by rewrite (dk_inode _ _ Hk3 Hnn), Ho3.
  - intros b. apply upper_there_if.
  - intros b st2 Hr HP. apply wp_ret. by split.
Qed.

(** The emptiness test; what has to be cleared is in the upper layer. *)
Lemma check_empty_gives {N} st d v :
  ok st → view_at st d = Some v →
  gives N N st (check_empty_dir creator_cred kmalloc d) (λ r st', r.1 = 0 ∧ r.2 ≠ [] → upper_there d st').
Proof.
  intros Hok Hv st1 Hst1. assert (ok st1) as Hok1 by (eapply ex_ok; [apply Hst1|done]).
  destruct (extends_view _ _ _ _ Hok (proj1 Hst1) Hv) as (v1 & Hv1 & _). clear Hv v st Hst1 Hok.
  unfold check_empty_dir, ovl_override_creds.
  eapply (wp_creds (N := N) (M := N)) with (P := λ r st', r.1 = 0 ∧ r.2 ≠ [] → upper_there d st').
  - intros st3 [Hx3 Hh3].
    assert (extends N st1 st3) as Hx by (etrans; [apply extends_held|exact Hx3]).
    assert (ok st3) as Hok3 by (by eapply ex_ok). destruct (extends_view _ _ _ _ Hok1 Hx Hv1) as (v3 & Hv3 & _).
    eapply wp_oview; [exact Hv3|]. split; [done|]. intros [Hr0 Hrl]. split; [done|]. exists v3. split; [done|].
    destruct (ovl_dentry_upper v3) as [u|] eqn:Eu; [by eexists|]. destruct Hrl. apply check_empty_dir_lower; [|done].
    unfold merged_dirs. rewrite Eu. cbn. apply Forall_forall. by intros x (p & -> & _)%list_elem_of_fmap.
  - intros r. apply upper_there_if.
  - intros r st2 Hr HP. apply wp_ret. by split.
Qed.

(** A positive dentry that can be reached from the root. *)
Definition can_remove st (d : Z) : Prop :=
  ok st ∧ dirs_ok workdir indexdir st ∧ reachable fuel depth st d.

Lemma can_remove_extends st st' d : extends everybody st st' → can_remove st d → can_remove st' d.
Proof.
  intros Hx (Hok & Hdirs & Hr). split_and!; [by eapply ex_ok|by eapply dirs_ok_extends|by eapply reachable_extends].
Qed.
Lemma can_remove_view st d : can_remove st d → ∃ v, view_at st d = Some v.
Proof. intros (_ & _ & n & Hr & _). destruct (rooted_view _ _ _ Hr) as (v & Hv & _). by exists v. Qed.

Lemma copyattr_keeps {N} st d v i :
  ok st → view_at st d = Some v → is_Some i → keeps N N st (copyattr_from i d) any.
Proof.
  intros Hok Hv [ui Hui]. unfold copyattr_from. eapply keeps_bind with (P := any); [by eapply keeps_deref|].
  intros ? _. eapply keeps_bind with (P := any); [by apply keeps_ask|]. intros i' _.
  eapply keeps_modify_dinode; [done..|]. intros o. apply vfs_only_keeps.
Qed.

(** The attributes that are copied back after the removal. *)
Lemma copy_ctime_reports st d v :
  ok st → view_at st d = Some v →
  reports (M := nobody) st (λ err, v ← oview d;
    match ovl_dentry_upper v with Some u => copyattr_from (d_inode u) d;; mret err | None => mret err end).
Proof.
  intros Hok Hv r st1 Hst1. assert (ok st1) as Hok1 by (eapply ex_ok; [apply Hst1|done]).
  destruct (extends_view _ _ _ _ Hok (proj1 Hst1) Hv) as (v1 & Hv1 & _).
  eapply wp_oview; [exact Hv1|]. destruct (ovl_dentry_upper v1) as [u|] eqn:Eu; [|by apply wp_ret].
  assert (is_Some (d_inode u)) as Hui.
  { pose proof Hv1 as (e & o & He & Ho & ->)%view_inv. by eapply (ok_upper _ Hok1). }
  eapply keeps_wp; [by eapply copyattr_keeps|]. intros [] st2 Hr2 _. by apply wp_ret.
Qed.

(** Between ovl_nlink_start and ovl_nlink_end. *)
Lemma remove_body_achieves st d is_dir l (positive : bool) :
  removable workdir indexdir st d → (positive = false ∨ l ≠ [] → has_upper st d) →
  achieves everybody nobody st
    (old_cred ← ovl_override_creds creator_cred;
     err ← (if negb positive then ovl_remove_upper workdir d is_dir l else ovl_remove_and_whiteout workdir d l);
     revert_creds old_cred;;
     (if err =? 0 then modify_dinode d (if (is_dir : bool) then clear_nlink else drop_nlink) else mret tt);;
     mret err) (dropped d).
Proof.
  intros Hrm Hu. apply (achieves_earlier (M := nobody)).
  apply (achieves_creds (N := nobody) (M := nobody)) with
    (m := λ _, if negb positive then ovl_remove_upper workdir d is_dir l else ovl_remove_and_whiteout workdir d l)
    (k := λ err, (if err =? 0 then modify_dinode d (if is_dir then clear_nlink else drop_nlink) else mret tt);; mret err).
  - apply dropped_lasting.
  - apply (removable_held _ _ _ (cred_held creator_cred (k_held st))) in Hrm. destruct positive; cbn [negb].
    + apply (remove_and_whiteout_achieves _ indexdir); [done|]. intros. apply has_upper_held, Hu. by right.
    + apply (remove_upper_achieves _ indexdir); [done|]. apply has_upper_held, Hu. by left.
  - intros r. destruct Hrm as (Hok & _ & e & o & He & Ho & _).
    eapply keeps_bind with (P := any); [|intros; by apply keeps_ret]. case_match; [|by apply keeps_ret].
    eapply keeps_modify_dinode with (v := ODentry d (dn_name e) (dn_flags e) o (dn_entry e)); [done| |].
    + unfold view_at, view. rewrite He. cbn. by rewrite Ho.
    + intros o'. destruct is_dir; apply vfs_only_keeps.
Qed.

Lemma do_remove_achieves st d is_dir :
  can_remove st d → 0 ≤ h_write (k_held st) →
  achieves everybody nobody st
    (ovl_do_remove creator_cred workdir indexdir export_op kmalloc fuel depth d is_dir) (dropped d).
Proof.
  intros Hc Hw. unfold ovl_do_remove. destruct (can_remove_view _ _ Hc) as (v & Hv).
  eapply achieves_from; [eapply lower_positive_gives; [apply Hc|exact Hv]|]. intros positive st1 Hr1 Hpos.
  apply (can_remove_extends _ st1) in Hc; [|apply Hr1]. rewrite <- (proj2 Hr1) in Hw. clear v Hv st Hr1.
  destruct (can_remove_view _ _ Hc) as (v & Hv).
  eapply achieves_bind; [apply keeps_oview; [apply Hc|exact Hv]|]. intros v1 _.
  eapply achieves_from with (Q := λ r st', r.1 = 0 ∧ r.2 ≠ [] → upper_there d st').
  { case_match; [eapply check_empty_gives; [apply Hc|exact Hv]|]. intros st2 Hr2. split; [done|]. by intros []. }
  intros [err l] st2 Hr2 Hl. destruct (Z.eqb_spec err 0) as [->|Hne]; cbn [negb]; [|by apply achieves_err].
  assert (positive = false ∨ l ≠ [] → upper_there d st2) as Hu.
  { intros [->|Hne]; [|by apply Hl]. eapply upper_there_lasting; [|by apply Hpos].
    apply (extends_weaken (N := everybody)), Hr2. }
  apply (can_remove_extends _ st2) in Hc; [|apply Hr2]. rewrite <- (proj2 Hr2) in Hw. clear v Hv v1 st1 Hr2 Hpos Hl.
  apply achieves_write; [done|apply dropped_lasting| |apply reports_ret].
  assert (extends everybody st2 (set_k_held (write_held (k_held st2)) st2)) as Hx by apply extends_held.
  apply (can_remove_extends _ _ _ Hx) in Hc.
  assert (positive = false ∨ l ≠ [] → upper_there d (set_k_held (write_held (k_held st2)) st2)) as Hu1.
  { intros Hp. eapply upper_there_lasting; [|by apply Hu]. apply extends_held. }
  set (st3 := set_k_held _ st2) in *. clearbody st3. clear Hx Hu Hw st2.
  pose proof Hc as (Hok & Hdirs & Hr). destruct (can_remove_view _ _ Hc) as (v & Hv).
  pose proof Hv as (e & o & He & Ho & _)%view_inv.
  eapply achieves_bind; [by apply keeps_dent|]. intros e1 Hk. rewrite (dk_parent _ _ Hk).
  eapply achieves_after; [apply copy_up_achieves; [done..|by eapply reachable_parent]|].
  intros st4 Hr4 (Hok4 & Hp4 & _). apply (can_remove_extends _ st4) in Hc; [|apply Hr4].
  destruct (ex_dents _ _ (proj1 Hr4) _ _ He) as (e4 & He4 & Hk4).
  destruct (ex_inodes _ _ (proj1 Hr4) _ _ Ho) as (o4 & Ho4 & _).
  destruct (extends_view _ _ _ _ Hok (proj1 Hr4) Hv) as (v4 & Hv4 & _).
  eapply achieves_nlink; [apply _|done|apply Hc|apply Hc|done|apply dropped_lasting| |by eapply copy_ctime_reports].
  apply remove_body_achieves.
  - apply removable_held. split; [done|]. split; [apply Hc|]. exists e4, o4.
    rewrite (dk_still _ _ Hk4) by (by right). split_and!; [done|done|]. by rewrite (dk_parent _ _ Hk4).
  - intros Hp. apply has_upper_held. eapply (extends_upper st3); [done|apply Hr4|by apply Hu1].
Qed.

End do_remove.
