(* ===== verification/Rename.v ===== *)
(** dir.c: ovl_rename - which rename is done in the upper layer so that the
    names of the lower layers stay hidden, and its bookkeeping. *)

From S2P Require Import Prelude Types Util Under Nlink Fh Redirect Inode Block Readdir Lookup Kernel Work CopyUp Dir DirOps.
From stdpp Require Import gmap.
Local Open Scope Z_scope.

(** The flags of the real rename, and whether the whiteout that was exchanged
    has to be removed afterwards. *)
Definition rename_plan (overwrite old_lower_positive is_dir new_is_whiteout : bool) (flags : Z) : Z * bool :=
  if overwrite then
    if old_lower_positive then
      if negb new_is_whiteout then (Z.lor flags RENAME_WHITEOUT, false)
      else (Z.lor flags RENAME_EXCHANGE, false)
    else if is_dir && new_is_whiteout then (Z.lor flags RENAME_EXCHANGE, true)
    else (flags, false)
  else (flags, false).

Section rename.
Context {W : Type} `{Under W, Kern W, DirKern W, RbLib}.
Context (creator_cred : Z) (workdir indexdir : dentry) (export_op : Z → option (bool * bool)).
Context (ovl_redirect_max : Z) (kmalloc : list centry → string → bool).
Context (fuel depth : nat).

#[local] Abbreviation copy_up := (ovl_copy_up creator_cred workdir indexdir export_op fuel depth).
#[local] Abbreviation nlink_start := (ovl_nlink_start creator_cred workdir indexdir export_op fuel depth).
#[local] Abbreviation nlink_end := (ovl_nlink_end creator_cred indexdir).
#[local] Abbreviation set_redirect := (overlay_set_redirect ovl_redirect_max depth).

(** A dentry that may be negative. *)
Definition oview_opt (d : Z) : kernel W (option odentry) :=
  e ← dent d;
  if dn_inode e =? NULL then mret None else v ← oview d; mret (Some v).

(** The upper directory of a dentry's parent. *)
Definition upper_of_parent (d : Z) : kernel W dentry :=
  e ← dent d;
  pv ← oview (dn_parent e);
  deref (ovl_dentry_upper pv).

(** A directory that leaves a merged directory must not be merged again: a
    redirect, or the opaque mark on a pure upper one. *)
Definition prepare_moved (v : odentry) (real : dentry) (is_dir opaque samedir : bool) (to_parent : Z)
    : kernel W Z :=
  if ovl_type_merge_or_lower v then set_redirect (od_ptr v) samedir
  else if is_dir && negb opaque then
    pv ← oview to_parent;
    if ovl_type_merge pv then ovl_set_opaque_xerr (od_ptr v) real (- EXDEV) else mret 0
  else mret 0.

(** The rename of the real dentries and what the overlay's dentries keep of it. *)
Definition rename_apply (old new flags : Z) (overwrite is_dir new_is_dir samedir cleanup_whiteout : bool)
    (eo en : odent) (v : odentry) (nv : option odentry) (odir ndir : inode) (olddentry newdentry : dentry)
    : kernel W Z :=
  prepare_moved v olddentry is_dir (ovl_dentry_is_opaque (dn_entry eo)) samedir (dn_parent en) ;?
  (if overwrite then mret 0 else
     nv ← oview new;
     prepare_moved nv newdentry new_is_dir (ovl_dentry_is_opaque (dn_entry en)) samedir (dn_parent eo)) ;?
  ovl_do_rename odir olddentry ndir newdentry flags ;?
  ((if (cleanup_whiteout : bool) then ovl_cleanup odir newdentry;; mret tt else mret tt);;
   (if overwrite && bool_decide (is_Some nv)
    then modify_dinode new (if new_is_dir then clear_nlink else drop_nlink) else mret tt);;
   v ← oview old;
   nv ← oview_opt new;
   let new_origin := match nv with Some nv => ovl_type_origin nv | None => false end in
   overlay_dir_modified (dn_parent eo) (ovl_type_origin v || (negb overwrite && new_origin));;
   overlay_dir_modified (dn_parent en) (ovl_type_origin v || new_origin);;
   copyattr_from (d_inode olddentry) old;;
   (match nv with
    | Some nv => if bool_decide (is_Some (ovl_dentry_upper nv))
                 then copyattr_from (d_inode newdentry) new else mret tt
    | None => mret tt
    end);;
   mret 0).

(** The dentry found under the new name, if it may be replaced. *)
Definition target_of (new_opaque : bool) (opaquedir : option dentry) (nv : option odentry) (nd : dentry) : kernel W (option dentry) :=
  let other := if bool_decide (is_Some (d_inode nd)) && (negb new_opaque || negb (ovl_is_whiteout nd)) then None else Some nd in
  match nv with
  | Some nv =>
      if bool_decide (is_Some (ovl_dentry_upper nv)) then
        match opaquedir with
        | Some o => mret (if same_dentry nd o then Some o else None)
        | None => matches ← asko (λ _, ovl_matches_upper nv nd); mret (if (matches : bool) then Some nd else None)
        end
      else mret other
  | None => mret other
  end.

(** Between lock_rename and unlock_rename. *)
Definition rename_locked (old new flags : Z) (overwrite is_dir new_is_dir samedir cleanup_whiteout : bool)
    (opaquedir trap : option dentry) (old_upperdir new_upperdir : dentry) : kernel W Z :=
  eo ← dent old;
  en ← dent new;
  odir ← deref (d_inode old_upperdir);
  ndir ← deref (d_inode new_upperdir);
  olddentry ← lookup_locked (dn_name eo) old_upperdir;
  match olddentry with
  | PErr err => mret err
  | PNull => fault
  | PPtr olddentry =>
      v ← oview old;
      matches ← asko (λ _, ovl_matches_upper v olddentry);
      if negb matches then mret (- ESTALE) else
      newdentry ← lookup_locked (dn_name en) new_upperdir;
      match newdentry with
      | PErr err => mret err
      | PNull => fault
      | PPtr newdentry =>
          let new_opaque := ovl_dentry_is_opaque (dn_entry en) in
          nv ← oview_opt new;
          r ← target_of new_opaque opaquedir nv newdentry;
          match r with
          | None => mret (- ESTALE)
          | Some newdentry =>
              let is_trap d := match trap with Some t => same_dentry d t | None => false end in
              if is_trap olddentry || is_trap newdentry then mret (- ESTALE) else
              if same_inode (d_inode olddentry) (d_inode newdentry) then mret (- ESTALE) else
              rename_apply old new flags overwrite is_dir new_is_dir samedir cleanup_whiteout eo en v nv
                odir ndir olddentry newdentry
          end
      end
  end.

(** With the credentials of the mounter: the marks on the parents, the locks. *)
Definition rename_in_upper (old new flags : Z) (overwrite is_dir new_is_dir samedir cleanup_whiteout : bool)
    (old_parent new_parent : Z) (l : list centry) : kernel W Z :=
  r ← clear_first workdir new l;
  match r with
  | inl err => mret err
  | inr opaquedir =>
      old_upperdir ← upper_of_parent old;
      new_upperdir ← upper_of_parent new;
      (if negb samedir then
         v ← oview old;
         (if ovl_type_origin v then overlay_set_impure new_parent new_upperdir else mret 0) ;?
         (if overwrite then mret 0 else
            nv ← oview new;
            if ovl_type_origin nv then overlay_set_impure old_parent old_upperdir else mret 0)
       else mret 0) ;?
      trap ← lock_rename new_upperdir old_upperdir;
      err ← rename_locked old new flags overwrite is_dir new_is_dir samedir cleanup_whiteout
              opaquedir trap old_upperdir new_upperdir;
      unlock_rename new_upperdir old_upperdir;;
      mret err
  end.

Definition ovl_rename (old new flags : Z) : kernel W Z :=
  eo ← dent old;
  en ← dent new;
  v ← oview old;
  nv ← oview_opt new;
  peo ← dent (dn_parent eo);
  pen ← dent (dn_parent en);
  ofs ← ask k_ofs;
  let overwrite := Z.land flags RENAME_EXCHANGE =? 0 in
  let is_dir := d_is_dir_of v in
  let new_is_dir := match nv with Some nv => d_is_dir_of nv | None => false end in
  let samedir := dn_inode peo =? dn_inode pen in
  if negb (Z.ldiff flags (Z.lor RENAME_EXCHANGE RENAME_NOREPLACE) =? 0) then mret (- EINVAL) else
  let flags := Z.ldiff flags RENAME_NOREPLACE in
  if negb (ovl_can_move ofs v) then mret (- EXDEV) else
  (* ovl_can_move of a negative dentry: it is no directory *)
  if negb overwrite && negb (match nv with Some nv => ovl_can_move ofs nv | None => true end)
  then mret (- EXDEV) else
  '(err, l) ← (match nv with
               | Some nv => if overwrite && new_is_dir && negb (ovl_pure_upper nv)
                            then check_empty_dir creator_cred kmalloc new else mret (0, [])
               | None => mret (0, [])
               end);
  if negb (err =? 0) then mret err else
  positive ← (if overwrite then lower_positive creator_cred old else mret false);
  new_inode ← ask (λ st, dentry_inode st en);
  let '(flags, cleanup_whiteout) :=
    rename_plan overwrite positive is_dir (ovl_dentry_is_whiteout new_inode (dn_entry en)) flags in
  ovl_want_write ;?
  err ← (
    copy_up old ;?
    copy_up (dn_parent en) ;?
    let update_nlink := overwrite && bool_decide (is_Some nv) in
    (if negb overwrite then copy_up new
     else if bool_decide (is_Some nv) then nlink_start new else mret 0) ;?
    err ← (
      old_cred ← ovl_override_creds creator_cred;
      err ← rename_in_upper old new flags overwrite is_dir new_is_dir samedir cleanup_whiteout (dn_parent eo) (dn_parent en) l;
      revert_creds old_cred;;
      mret err);
    (if update_nlink then nlink_end new else mret tt);;
    mret err);
  ovl_drop_write;;
  mret err.

End rename.
