(* ===== verification/RenameProps.v ===== *)
(** Rename between the locks - redirects and opaque marks for what moves, the
    real rename and its bookkeeping - and the whole of ovl_rename: it returns,
    gives back what the thread held and leaves a well-formed overlay; the real
    rename hides the names of the lower layers. *)

From S2P Require Import Prelude Types Util Block Readdir Under Nlink Fh FhProps Redirect RedirectProps Inode InodeProps Lookup LookupProps Kernel KernelProps Work CopyUp WorkProps CopyUpSteps CopyUpStages CopyUpProps Dir DirOps DirSteps DirParts DirRemove Rename.
From stdpp Require Import gmap.
Local Open Scope Z_scope.

Section rename_steps.
Context {W : Type} `{Under W, !UnderLaws W, Kern W, !KernLaws W, DirKern W, !DirLaws W, RbLib}.
Context (ovl_redirect_max : Z) (depth : nat) {N : frozen}.
Implicit Types (st : kst W).

(** A merge type needs a lower dentry. *)
Lemma merge_stack v u : ovl_dentry_upper v = Some u → ovl_type_merge_or_lower v = true → oe_lowerstack (od_entry v) ≠ [].
Proof.
  intros Hu. unfold ovl_type_merge_or_lower, ovl_path_type. rewrite bool_decide_true by (by eexists).
  intros Ht Hs. unfold numlower in Ht. by rewrite Hs in Ht.
Qed.

Lemma view_upper {ix} v v' u : view_grows ix v v' → ovl_dentry_upper v = Some u → ovl_dentry_upper v' = Some u.
Proof. intros Hg. apply (ig_upper (vg_inode _ _ _ Hg)). Qed.

Lemma view_ptr st d v : view_at st d = Some v → od_ptr v = d.
Proof. by intros (e & o & _ & _ & ->)%view_inv. Qed.

Lemma prepare_moved_keeps st d n v v' u real is_dir opaque samedir p pv :
  ok st → rooted st d n → (n < depth)%nat → view_at st d = Some v → ovl_dentry_upper v = Some u →
  view_grows (ovl_indexdir (k_ofs st)) v v' → view_at st p = Some pv →
  keeps N N st (prepare_moved ovl_redirect_max depth v' real is_dir opaque samedir p) any.
Proof.
  intros Hok Hr Hd Hv Hu Hg Hpv. unfold prepare_moved. rewrite (vg_ptr _ _ _ Hg), (view_ptr _ _ _ Hv).
  destruct (ovl_type_merge_or_lower v') eqn:Em.
  - eapply set_redirect_keeps; [done..|]. intros _. rewrite <- (eg_stack _ _ (vg_entry _ _ _ Hg)).
    by eapply merge_stack, Em; eapply view_upper.
  - case_match; [|by apply keeps_ret]. eapply keeps_bind; [by apply keeps_oview|]. intros pv' _.
    case_match; [|by apply keeps_ret]. pose proof Hv as (e & o & He & _)%view_inv. by eapply set_opaque_keeps.
Qed.

(** A dentry that may be negative. *)
Lemma positive_view st d e :
  ok st → k_dents st !! d = Some e → dn_inode e ≠ NULL → ∃ v, view_at st d = Some v.
Proof.
  intros Hok He Hn. destruct (ok_inode _ Hok _ _ He Hn) as [o Ho]. exists (ODentry d (dn_name e) (dn_flags e) o (dn_entry e)).
  unfold view_at, view. rewrite He. cbn. by rewrite Ho.
Qed.
Definition seen st (d : Z) (e : odent) (nv : option odentry) : Prop :=
  match nv with
  | Some v' => dn_inode e ≠ NULL ∧ ∃ v, view_at st d = Some v ∧ view_grows (ovl_indexdir (k_ofs st)) v v' ∧
      (fz_uppers N → ovl_dentry_upper v' = ovl_dentry_upper v)
  | None => dn_inode e = NULL
  end.
Lemma oview_opt_keeps st d e :
  ok st → k_dents st !! d = Some e → (dn_inode e = NULL → fz_dent N d) →
  keeps N N st (oview_opt d) (seen st d e).
Proof.
  intros Hok He Hneg. unfold oview_opt. eapply keeps_bind; [by apply keeps_dent|]. intros e1 Hk.
  destruct (Z.eqb_spec (dn_inode e1) NULL) as [Hn1|Hn1].
  - apply keeps_ret. cbn. destruct (decide (dn_inode e = NULL)) as [|Hn]; [done|]. by rewrite (dk_inode _ _ Hk) in Hn1.
  - assert (dn_inode e ≠ NULL) as Hn.
    { intros Hn. apply Hn1. rewrite (dk_still _ _ Hk); [done|]. right. by apply Hneg. }
    destruct (positive_view st d e Hok He Hn) as [v Hv].
    eapply keeps_bind with (P := λ v', view_grows (ovl_indexdir (k_ofs st)) v v' ∧
      (fz_uppers N → ovl_dentry_upper v' = ovl_dentry_upper v)).
    + intros st1 Hst1. destruct (extends_view _ _ _ _ Hok (proj1 Hst1) Hv) as (v' & Hv' & Hg).
      unfold view_at in Hv'. unfold wp, oview. rewrite Hv'. split; [done|]. split; [done|]. intros Hf.
      apply view_inv in Hv as (e0 & o & He0 & Ho & ->). simplify_eq.
      apply view_inv in Hv' as (e' & o' & He' & Ho' & ->). unfold ovl_dentry_upper. cbn.
      destruct (ex_dents _ _ (proj1 Hst1) _ _ He) as (e2 & He2 & Hk2). simplify_eq.
      rewrite (dk_inode _ _ Hk2 Hn) in Ho'. by eapply (ex_uppers _ _ (proj1 Hst1)).
    + intros v' [Hg Hu]. apply keeps_ret. cbn. split; [done|]. by exists v.
Qed.

(** What the real dentries of both names are, after the checks. *)
Lemma matches_spec_keeps st v u real :
  ovl_dentry_upper v = Some u → is_Some (d_inode u) →
  keeps N N st (asko (λ _, ovl_matches_upper v real)) (λ b, b = true → is_Some (d_inode real)).
Proof.
  intros Hu [ui Hui]. apply keeps_asko. intros st' _. unfold ovl_matches_upper. rewrite Hu. eexists. split; [done|].
  unfold same_inode. rewrite Hui. destruct (d_inode real); [by eexists|done].
Qed.

(** What holds of both names when the locks are taken: [old] and the parents
    are in the upper layer, [new] too when the names are exchanged, and a
    negative [new] stays negative. *)
Record renames st (old new : Z) (eo en : odent) (overwrite : bool) : Prop := {
  rn_ok : ok st;
  rn_old : k_dents st !! old = Some eo;
  rn_new : k_dents st !! new = Some en;
  rn_upper : has_upper st old;
  rn_rooted : ∃ n, rooted st old n ∧ (n < depth)%nat;
  rn_oldp : has_upper st (dn_parent eo);
  rn_newp : has_upper st (dn_parent en);
  rn_negative : dn_inode en = NULL → fz_dent N new ∧ overwrite = true;
  rn_exchange : overwrite = false → has_upper st new ∧ ∃ n, rooted st new n ∧ (n < depth)%nat;
  rn_settled : fz_uppers N;
}.

Lemma upper_positive st d v u : ok st → view_at st d = Some v → ovl_dentry_upper v = Some u → is_Some (d_inode u).
Proof. intros Hok (e & o & He & Ho & ->)%view_inv Hu. by eapply (ok_upper _ Hok). Qed.

(** The bookkeeping after the real rename. *)
Lemma rename_done_keeps st old new eo en overwrite nv odir od nd (new_is_dir cleanup_whiteout : bool) :
  renames st old new eo en overwrite → locked st odir → is_Some (d_inode od) →
  seen st new en nv → (∀ v, nv = Some v → is_Some (ovl_dentry_upper v) → is_Some (d_inode nd)) →
  keeps N N st
   ((if cleanup_whiteout then ovl_cleanup odir nd;; mret tt else mret tt);;
    (if overwrite && bool_decide (is_Some nv)
     then modify_dinode new (if new_is_dir then clear_nlink else drop_nlink) else mret tt);;
    v ← oview old;
    nv ← oview_opt new;
    let new_origin := match nv with Some nv => ovl_type_origin nv | None => false end in
    overlay_dir_modified (dn_parent eo) (ovl_type_origin v || (negb overwrite && new_origin));;
    overlay_dir_modified (dn_parent en) (ovl_type_origin v || new_origin);;
    copyattr_from (d_inode od) old;;
    (match nv with
     | Some nv => if bool_decide (is_Some (ovl_dentry_upper nv)) then copyattr_from (d_inode nd) new else mret tt
     | None => mret tt
     end);;
    mret 0) any.
Proof.
  intros Hrn Hl Hod Hseen Hnd. pose proof (rn_ok _ _ _ _ _ _ Hrn) as Hok.
  destruct (rn_upper _ _ _ _ _ _ Hrn) as (v & Hv & u & Hu).
  eapply keeps_bind with (P := any).
  { case_match; [|by apply keeps_ret]. eapply keeps_bind; [by apply cleanup_keeps|]. intros _ _. by apply keeps_ret. }
  intros _ _. eapply keeps_bind with (P := any).
  { destruct nv as [nv|]; [|rewrite andb_false_r; by apply keeps_ret]. case_match; [|by apply keeps_ret].
    destruct Hseen as (_ & nv0 & Hnv0 & _). eapply keeps_modify_dinode; [done..|]. intros o. case_match; apply vfs_only_keeps. }
  intros _ _. eapply keeps_bind; [by apply keeps_oview|]. intros v1 _.
  eapply keeps_bind; [apply oview_opt_keeps; [done|apply Hrn|intros Hn; exact (proj1 (rn_negative _ _ _ _ _ _ Hrn Hn))]|].
  intros nv1 Hseen1. cbv zeta.
  eapply keeps_bind with (P := any); [apply dir_modified_keeps; [done|apply Hrn]|]. intros _ _.
  eapply keeps_bind with (P := any); [apply dir_modified_keeps; [done|apply Hrn]|]. intros _ _.
  eapply keeps_bind with (P := any); [by eapply copyattr_keeps|]. intros _ _.
  eapply keeps_bind with (P := any); [|intros; by apply keeps_ret].
  destruct nv1 as [nv1|]; [|by apply keeps_ret]. case_bool_decide as Hu1; [|by apply keeps_ret].
  destruct Hseen1 as (Hn & v0 & Hv0 & _ & Hsame1). specialize (Hsame1 (rn_settled _ _ _ _ _ _ Hrn)).
  eapply copyattr_keeps; [done|exact Hv0|]. destruct nv as [nv|]; [|done]. apply (Hnd nv eq_refl).
  destruct Hseen as (_ & v0' & Hv0' & _ & Hsame). rewrite Hv0 in Hv0'. injection Hv0' as <-.
  rewrite (Hsame (rn_settled _ _ _ _ _ _ Hrn)), <- Hsame1. exact Hu1.
Qed.

Lemma rename_apply_keeps st old new eo en eo1 en1 overwrite v v' nv odir ndir od nd flags
    (is_dir new_is_dir samedir cleanup_whiteout : bool) :
  renames st old new eo en overwrite → dn_parent eo1 = dn_parent eo → dn_parent en1 = dn_parent en →
  locked st odir → locked st ndir → is_Some (d_inode od) →
  view_at st old = Some v → view_grows (ovl_indexdir (k_ofs st)) v v' →
  seen st new en nv → (∀ v, nv = Some v → is_Some (ovl_dentry_upper v) → is_Some (d_inode nd)) →
  keeps N N st (rename_apply ovl_redirect_max depth old new flags overwrite is_dir new_is_dir samedir cleanup_whiteout
    eo1 en1 v' nv odir ndir od nd) any.
Proof.
  intros Hrn Hpo Hpn Hlo Hln Hod Hv Hg Hseen Hnd. pose proof (rn_ok _ _ _ _ _ _ Hrn) as Hok.
  unfold rename_apply. rewrite Hpo, Hpn.
  assert (∃ u, ovl_dentry_upper v = Some u) as [u Hu].
  { destruct (rn_upper _ _ _ _ _ _ Hrn) as (v0 & Hv0 & u & Hu). rewrite Hv in Hv0. injection Hv0 as <-. by exists u. }
  destruct (rn_rooted _ _ _ _ _ _ Hrn) as (n & Hr & Hn).
  destruct (rn_oldp _ _ _ _ _ _ Hrn) as (opv & Hopv & _). destruct (rn_newp _ _ _ _ _ _ Hrn) as (npv & Hnpv & _).
  apply keeps_then; [by eapply prepare_moved_keeps|].
  apply keeps_then.
  { destruct overwrite; [by apply keeps_ret|].
    destruct (rn_exchange _ _ _ _ _ _ Hrn eq_refl) as ((w & Hw & uw & Huw) & m & Hrm & Hm).
    eapply keeps_bind; [by apply keeps_oview|]. intros w' Hgw. by eapply prepare_moved_keeps. }
  apply keeps_then; [by apply rename_keeps|]. by eapply rename_done_keeps.
Qed.

Lemma target_keeps st new en nv nd new_opaque opaquedir :
  ok st → seen st new en nv → (∀ o, opaquedir = Some o → is_Some (d_inode o)) → fz_uppers N →
  keeps N N st (target_of new_opaque opaquedir nv nd) (λ r, ∀ x, r = Some x →
    ∀ v, nv = Some v → is_Some (ovl_dentry_upper v) → is_Some (d_inode x)).
Proof.
  intros Hok Hseen Hop Hset. unfold target_of. destruct nv as [nv|]; [|apply keeps_ret; by intros].
  case_bool_decide as Hu; [|apply keeps_ret; intros x _ v [= <-] ?; by destruct Hu].
  destruct opaquedir as [o|].
  - apply keeps_ret. intros x Hx v _ _. case_match; simplify_eq. by apply Hop.
  - destruct Hu as [u Hu]. destruct Hseen as (_ & v0 & Hv0 & _ & Hsame).
    eapply keeps_bind; [eapply matches_spec_keeps; [exact Hu|]|].
    + eapply upper_positive; [done|exact Hv0|]. by rewrite <- (Hsame Hset).
    + intros b Hb. apply keeps_ret. intros x Hx v _ _. destruct b; simplify_eq. by apply Hb.
Qed.

Lemma rename_locked_keeps st old new eo en overwrite flags uo un odir ndir opaquedir trap
    (is_dir new_is_dir samedir cleanup_whiteout : bool) :
  renames st old new eo en overwrite → d_inode uo = Some odir → d_inode un = Some ndir →
  locked st odir → locked st ndir → (∀ o, opaquedir = Some o → is_Some (d_inode o)) →
  keeps N N st (rename_locked ovl_redirect_max depth old new flags overwrite is_dir new_is_dir samedir cleanup_whiteout
    opaquedir trap uo un) any.
Proof.
  intros Hrn Huo Hun Hlo Hln Hop. pose proof (rn_ok _ _ _ _ _ _ Hrn) as Hok.
  destruct (rn_upper _ _ _ _ _ _ Hrn) as (v & Hv & u & Hu). unfold rename_locked.
  eapply keeps_bind; [apply keeps_dent, Hrn|]. intros eo1 Ho1.
  eapply keeps_bind; [apply keeps_dent, Hrn|]. intros en1 Hn1.
  eapply keeps_bind with (P := eq odir); [by eapply keeps_deref|]. intros _ <-.
  eapply keeps_bind with (P := eq ndir); [by eapply keeps_deref|]. intros _ <-.
  eapply keeps_bind; [by eapply lookup_keeps|]. intros [|err|od] Hx; [by destruct Hx|by apply keeps_ret|].
  eapply keeps_bind; [by apply keeps_oview|]. intros v' Hg.
  eapply keeps_bind; [eapply matches_spec_keeps; [by eapply view_upper|by eapply upper_positive]|].
  intros [] Hod; cbn [negb]; [|by apply keeps_ret]. specialize (Hod eq_refl).
  eapply keeps_bind; [by eapply lookup_keeps|]. intros [|err|nd] Hy; [by destruct Hy|by apply keeps_ret|]. cbv zeta.
  eapply keeps_bind; [apply oview_opt_keeps; [done|apply Hrn|intros Hn; exact (proj1 (rn_negative _ _ _ _ _ _ Hrn Hn))]|].
  intros nv Hseen.
  eapply keeps_bind; [by eapply (target_keeps _ _ _ nv nd (ovl_dentry_is_opaque (dn_entry en1)) opaquedir), Hrn|].
  intros [x|] Hxp; [|by apply keeps_ret]. specialize (Hxp x eq_refl).
  do 2 match goal with |- keeps _ _ _ (if ?b then _ else _) _ => destruct b; [by apply keeps_ret|] end.
  eapply rename_apply_keeps; [done|by rewrite (dk_parent _ _ Ho1)|by rewrite (dk_parent _ _ Hn1)|done..].
Qed.

End rename_steps.

Section rename_lock.
Context {W : Type} `{Under W, !UnderLaws W, Kern W, !KernLaws W}.
Context {N : frozen}.
Implicit Types (st : kst W).

(** lock_rename of two upper directories. *)
Definition pair_locks (p1 p2 : dentry) (i1 i2 : inode) : list lock :=
  if d_ptr p1 =? d_ptr p2 then [LInode (i_ptr i1)] else [LInode (i_ptr i2); LInode (i_ptr i1); LRename].

Lemma keeps_lock_pair st0 {A B} p1 p2 i1 i2 (m : option dentry → kernel W A) (k : A → kernel W B) P Q :
  d_inode p1 = Some i1 → d_inode p2 = Some i2 →
  (∀ trap, keeps N N (set_k_held (lock_held (pair_locks p1 p2 i1 i2) (k_held st0)) st0) (m trap) P) →
  (∀ a, P a → keeps N N st0 (k a) Q) →
  keeps N N st0 (trap ← lock_rename p1 p2; a ← m trap; unlock_rename p1 p2;; k a) Q.
Proof.
  intros Hi1 Hi2 Hm Hk st Hst.
  assert (wp (lock_rename p1 p2) st (λ _ st', st' = set_k_held (lock_held (pair_locks p1 p2 i1 i2) (k_held st)) st)) as Hlock.
  { unfold lock_rename. rewrite Hi1, Hi2. apply wp_mret, wp_mret. unfold pair_locks. case_match.
    - apply wp_bind, wp_lock, wp_ret. done.
    - apply wp_bind, wp_lock, wp_bind, wp_lock, wp_bind, wp_lock. done. }
  eapply wp_seq; [exact Hlock|]. intros trap st1 ->.
  eapply (wp_between (N := N) (M := N)) with (P := λ a _, P a); [|by intros ????| |].
  - rewrite (proj2 Hst). eapply gives_set_held; [exact Hst|apply Hm].
  - intros st' Hh'. unfold pair_locks in Hh'. destruct (Z.eqb_spec (d_ptr p1) (d_ptr p2)) as [E|E].
    + unfold unlock_rename. rewrite Hi1, Hi2, E, Z.eqb_refl. apply wp_mret, wp_mret, wp_bind.
      eapply wp_unlock; [rewrite Hh'; apply unlock1_head|]. apply wp_ret. rewrite Hh'. by destruct (k_held st).
    + eapply unlock_rename_step; [done..|by rewrite Hh'|]. rewrite Hh'. by destruct (k_held st).
  - intros a st2 Hr HP. eapply wp_mono; [apply (Hk a HP); by etrans|]. intros b st3 [Hr3 HQ]. split; [by etrans|done].
Qed.

End rename_lock.

Section rename_in_upper.
Context {W : Type} `{Under W, !UnderLaws W, Kern W, !KernLaws W, DirKern W, !DirLaws W, RbLib}.
Context (creator_cred : Z) (workdir indexdir : dentry) (ovl_redirect_max : Z) (depth : nat).
Context {N : frozen}.
Implicit Types (st : kst W).

Lemma upper_of_parent_keeps st d e pv u :
  ok st → k_dents st !! d = Some e → view_at st (dn_parent e) = Some pv → ovl_dentry_upper pv = Some u →
  keeps N N st (upper_of_parent d) (eq u).
Proof.
  intros Hok He Hpv Hu. unfold upper_of_parent. eapply keeps_bind; [by apply keeps_dent|]. intros e' Hk.
  rewrite (dk_parent _ _ Hk). eapply keeps_bind; [by apply keeps_oview|]. intros pv' Hg.
  eapply keeps_deref; [by eapply view_upper|done].
Qed.

Lemma renames_held st h old new eo en overwrite :
  renames depth (N := N) st old new eo en overwrite → renames depth (N := N) (set_k_held h st) old new eo en overwrite.
Proof.
  intros Hrn. destruct Hrn as [Hok Ho Hn Hu (n & Hr & Hd) Hop Hnp Hneg Hex Hs]. split; try done.
  - eapply ok_grows; [exact Hok|apply grows_held].
  - exists n. split; [|done]. eapply rooted_grows; [apply grows_held|done].
  - intros E. destruct (Hex E) as (Hnu & m & Hm & ?). split; [by apply has_upper_held|]. exists m. split; [|done].
    eapply rooted_grows; [apply grows_held|done].
Qed.

(** Two upper directories that are the same dentry have the same inode. *)
Definition parents_apart st (p1 p2 : Z) : Prop :=
  ∀ v1 v2 u1 u2, view_at st p1 = Some v1 → view_at st p2 = Some v2 →
    ovl_dentry_upper v1 = Some u1 → ovl_dentry_upper v2 = Some u2 → d_ptr u1 = d_ptr u2 → d_inode u1 = d_inode u2.

Lemma rename_in_upper_keeps st old new eo en overwrite flags l (is_dir new_is_dir samedir cleanup_whiteout : bool) :
  renames depth (N := N) st old new eo en overwrite → parents_apart st (dn_parent en) (dn_parent eo) →
  (l ≠ [] → droppable N ∧ removable workdir indexdir st new ∧ has_upper st new) →
  keeps N N st (rename_in_upper workdir ovl_redirect_max depth old new flags overwrite is_dir new_is_dir samedir
    cleanup_whiteout (dn_parent eo) (dn_parent en) l) any.
Proof.
  intros Hrn Hap Hl. pose proof (rn_ok _ _ _ _ _ _ _ Hrn) as Hok. unfold rename_in_upper.
  destruct (rn_upper _ _ _ _ _ _ _ Hrn) as (v & Hv & _).
  destruct (rn_oldp _ _ _ _ _ _ _ Hrn) as (opv & Hopv & uo & Huo). destruct (rn_newp _ _ _ _ _ _ _ Hrn) as (npv & Hnpv & un & Hun).
  destruct (upper_positive _ _ _ _ Hok Hopv Huo) as [odir Hodir]. destruct (upper_positive _ _ _ _ Hok Hnpv Hun) as [ndir Hndir].
  eapply keeps_bind with (P := λ r, match r with inl _ => True | inr o => ∀ d, o = Some d → is_Some (d_inode d) end).
  { destruct (decide (l = [])) as [->|Hne]; [by apply keeps_ret|]. destruct (Hl Hne) as (Hdrop & Hrm & Hu).
    eapply keeps_mono; [by apply (clear_first_keeps _ indexdir)|]. by intros []. }
  intros [err|opaquedir] Hop; [by apply keeps_ret|].
  eapply keeps_bind; [eapply upper_of_parent_keeps; [done|apply Hrn|done..]|]. intros _ <-.
  eapply keeps_bind; [eapply upper_of_parent_keeps; [done|apply Hrn|done..]|]. intros _ <-.
  apply keeps_then.
  { destruct samedir; [by apply keeps_ret|]. cbn [negb]. eapply keeps_bind; [by apply keeps_oview|]. intros v' _.
    apply keeps_then; [case_match; [by eapply set_impure_keeps|by apply keeps_ret]|].
    destruct overwrite; [by apply keeps_ret|]. destruct (rn_exchange _ _ _ _ _ _ _ Hrn eq_refl) as ((w & Hw & _) & _).
    eapply keeps_bind; [by apply keeps_oview|]. intros w' _. case_match; [by eapply set_impure_keeps|by apply keeps_ret]. }
  eapply keeps_lock_pair with (P := any); [exact Hndir|exact Hodir| |intros; by apply keeps_ret].
  intros trap. set (st1 := set_k_held _ st). eapply rename_locked_keeps; [by apply renames_held|done..| | |done].
  - unfold st1, locked, pair_locks. cbn. case_match eqn:E; [|by left].
    apply Z.eqb_eq in E. pose proof (Hap _ _ _ _ Hnpv Hopv Hun Huo E) as Hi. rewrite Hndir, Hodir in Hi. injection Hi as ->. by left.
  - unfold st1, locked, pair_locks. cbn. case_match; [by left|by right; left].
Qed.

End rename_in_upper.

Section rename.
Context {W : Type} `{Under W, !UnderLaws W, Kern W, !KernLaws W, DirKern W, !DirLaws W, RbLib}.
Context (creator_cred : Z) (workdir indexdir : dentry) (export_op : Z → option (bool * bool)).
Context (ovl_redirect_max : Z) (kmalloc : list centry → string → bool) (fuel depth : nat).
Implicit Types (st : kst W).

(** The two parents are the same directory, or both are in the upper layer
    already (and the same dentry there only if it is the same directory). *)
Definition same_or_apart st (p1 p2 : Z) : Prop :=
  (∃ e1 e2, k_dents st !! p1 = Some e1 ∧ k_dents st !! p2 = Some e2 ∧ dn_inode e1 = dn_inode e2) ∨
  (∃ v1 v2 u1 u2, view_at st p1 = Some v1 ∧ view_at st p2 = Some v2 ∧
     ovl_dentry_upper v1 = Some u1 ∧ ovl_dentry_upper v2 = Some u2 ∧ (d_ptr u1 = d_ptr u2 → d_inode u1 = d_inode u2)).

Lemma same_or_apart_extends st st' p1 p2 :
  ok st → extends everybody st st' → same_or_apart st p1 p2 → same_or_apart st' p1 p2.
Proof.
  intros Hok Hx [(e1 & e2 & He1 & He2 & E)|(v1 & v2 & u1 & u2 & Hv1 & Hv2 & Hu1 & Hu2 & E)].
  - left. destruct (ex_dents _ _ Hx _ _ He1) as (e1' & ? & Hk1). destruct (ex_dents _ _ Hx _ _ He2) as (e2' & ? & Hk2).
    exists e1', e2'. split_and!; [done..|]. by rewrite (dk_still _ _ Hk1), (dk_still _ _ Hk2) by (by right).
  - right. destruct (extends_view _ _ _ _ Hok Hx Hv1) as (v1' & ? & Hg1).
    destruct (extends_view _ _ _ _ Hok Hx Hv2) as (v2' & ? & Hg2).
    exists v1', v2', u1, u2. split_and!; [done..| | |done]; by eapply view_upper.
Qed.
Lemma same_or_apart_parents st p1 p2 : same_or_apart st p1 p2 → parents_apart st p1 p2.
Proof.
  intros [(e1 & e2 & He1 & He2 & E)|(v1 & v2 & u1 & u2 & Hv1 & Hv2 & Hu1 & Hu2 & E)] w1 w2 x1 x2 Hw1 Hw2 Hx1 Hx2; [|simplify_eq; done].
  apply view_inv in Hw1 as (e1' & o1 & ? & Ho1 & ->). apply view_inv in Hw2 as (e2' & o2 & ? & Ho2 & ->). simplify_eq.
  rewrite E in Ho1. simplify_eq. unfold ovl_dentry_upper in *. cbn in *. by simplify_eq.
Qed.

(** The copy-ups are done. *)
Definition ready st (old new po pn : Z) (negative overwrite : bool) (l : list centry) : Prop :=
  ok st ∧ dirs_ok workdir indexdir st ∧ reachable fuel depth st old ∧ has_upper st old ∧
  has_upper st po ∧ has_upper st pn ∧ same_or_apart st pn po ∧
  (∃ eo en, k_dents st !! old = Some eo ∧ k_dents st !! new = Some en ∧ dn_parent eo = po ∧ dn_parent en = pn ∧
     (dn_inode en = NULL ↔ negative = true)) ∧
  (negative = true → overwrite = true ∧ l = []) ∧
  (overwrite = false → has_upper st new ∧ reachable fuel depth st new) ∧ (l ≠ [] → has_upper st new).

Lemma ready_extends st st' old new po pn negative overwrite l :
  extends everybody st st' → ready st old new po pn negative overwrite l → ready st' old new po pn negative overwrite l.
Proof.
  intros Hx (Hok & Hdirs & Hr & Ho & Hpo & Hpn & Hap & (eo & en & Heo & Hen & Ep & En & Hneg) & Hn & Hex & Hl).
  destruct (ex_dents _ _ Hx _ _ Heo) as (eo' & Heo' & Hko). destruct (ex_dents _ _ Hx _ _ Hen) as (en' & Hen' & Hkn).
  split_and!; [by eapply ex_ok|by eapply dirs_ok_extends|by eapply reachable_extends|by eapply extends_upper..
    |by eapply same_or_apart_extends| |done| |].
  - exists eo', en'. rewrite (dk_parent _ _ Hko), (dk_parent _ _ Hkn), (dk_still _ _ Hkn) by (by right). done.
  - intros E. destruct (Hex E) as [? ?]. split; [by eapply extends_upper|by eapply reachable_extends].
  - intros Hne. eapply extends_upper; [done|exact Hx|by apply Hl].
Qed.

Definition rename_frozen (new : Z) (negative : bool) : frozen := Frozen (λ x, x = new ∧ negative = true) True.

Lemma ready_renames st old new po pn negative overwrite l :
  ready st old new po pn negative overwrite l → ∃ eo en,
    renames depth (N := rename_frozen new negative) st old new eo en overwrite ∧ dn_parent eo = po ∧ dn_parent en = pn ∧
    (l ≠ [] → droppable (rename_frozen new negative) ∧ removable workdir indexdir st new ∧ has_upper st new).
Proof.
  intros (Hok & Hdirs & (n & Hr & Hn & _) & Ho & Hpo & Hpn & Hap & (eo & en & Heo & Hen & <- & <- & Hneg) & Hngv & Hex & Hl).
  exists eo, en. split; [|split; [done|split; [done|]]].
  - split; try done; [by exists n| |].
    + intros E. apply Hneg in E. split; [by split|by apply Hngv].
    + intros E. destruct (Hex E) as (Hu & m & Hrm & Hm & _). split; [done|by exists m].
  - intros Hne. assert (negative = false) as ->.
    { destruct negative; [|done]. by destruct (Hngv eq_refl). }
    destruct (Hl Hne) as (v & Hv & Hu). pose proof Hv as (e & o & He & Ho' & _)%view_inv. simplify_eq. split.
    + intros d (_ & [=]).
    + split; [|by exists v]. split; [done|]. split; [done|]. by exists en, o.
Qed.

Lemma rename_body_achieves st old new po pn negative overwrite l flags (is_dir new_is_dir samedir cleanup_whiteout : bool) :
  ready st old new po pn negative overwrite l →
  achieves everybody nobody st
    (old_cred ← ovl_override_creds creator_cred;
     err ← rename_in_upper workdir ovl_redirect_max depth old new flags overwrite is_dir new_is_dir samedir cleanup_whiteout po pn l;
     revert_creds old_cred;;
     mret err) (λ _, True).
Proof.
  intros Hready. eapply (keeps_achieves _ _ any), (keeps_restart (L := rename_frozen new negative)). intros st1 Hr1.
  apply (ready_extends _ st1) in Hready; [|apply Hr1]. pose proof Hready as (_ & _ & _ & _ & _ & _ & Hap & _).
  destruct (ready_renames _ _ _ _ _ _ _ _ Hready) as (eo & en & Hrn & <- & <- & Hl).
  apply (keeps_creds (N := rename_frozen new negative) (M := rename_frozen new negative)) with
    (m := λ _, rename_in_upper workdir ovl_redirect_max depth old new flags overwrite is_dir new_is_dir samedir
       cleanup_whiteout (dn_parent eo) (dn_parent en) l) (k := λ err, mret err) (P := any); [|intros; by apply keeps_ret].
  apply (rename_in_upper_keeps workdir indexdir).
  - by apply renames_held.
  - apply same_or_apart_parents. eapply same_or_apart_extends; [apply Hready|apply extends_held|done].
  - intros Hne. destruct (Hl Hne) as (? & ? & ?). split_and!; [done|by apply removable_held|by apply has_upper_held].
Qed.

(** [old] and the parents can be copied up, [new] too if it is positive. *)
Definition can_rename st (old new flags : Z) : Prop :=
  ok st ∧ dirs_ok workdir indexdir st ∧ reachable fuel depth st old ∧
  ∃ eo en, k_dents st !! old = Some eo ∧ k_dents st !! new = Some en ∧
    reachable fuel depth st (dn_parent en) ∧ same_or_apart st (dn_parent en) (dn_parent eo) ∧
    (dn_inode en = NULL → Z.land flags RENAME_EXCHANGE = 0) ∧ (dn_inode en ≠ NULL → reachable fuel depth st new).

Lemma can_rename_extends st st' old new flags :
  extends everybody st st' → can_rename st old new flags → can_rename st' old new flags.
Proof.
  intros Hx (Hok & Hdirs & Hr & eo & en & Heo & Hen & Hrp & Hap & Hneg & Hpos).
  destruct (ex_dents _ _ Hx _ _ Heo) as (eo' & Heo' & Hko). destruct (ex_dents _ _ Hx _ _ Hen) as (en' & Hen' & Hkn).
  split_and!; [by eapply ex_ok|by eapply dirs_ok_extends|by eapply reachable_extends|].
  exists eo', en'. rewrite (dk_parent _ _ Hko), (dk_parent _ _ Hkn), (dk_still _ _ Hkn) by (by right).
  split_and!; [done|done|by eapply reachable_extends|by eapply same_or_apart_extends|done|].
  intros Hn. by eapply reachable_extends, Hpos.
Qed.

#[local] Abbreviation copy_up := (ovl_copy_up creator_cred workdir indexdir export_op fuel depth).
#[local] Abbreviation nlink_start := (ovl_nlink_start creator_cred workdir indexdir export_op fuel depth).
#[local] Abbreviation nlink_end := (ovl_nlink_end creator_cred indexdir).

(** With write access: the copy-ups, then the body. *)
Lemma rename_writing_achieves st old new eo en flags0 nv l flags (overwrite is_dir new_is_dir samedir cleanup_whiteout : bool) :
  can_rename st old new flags0 → k_dents st !! old = Some eo → k_dents st !! new = Some en →
  overwrite = (Z.land flags0 RENAME_EXCHANGE =? 0) → (nv = None ↔ dn_inode en = NULL) →
  (l ≠ [] → nv ≠ None ∧ upper_there new st) →
  achieves everybody nobody st
   (copy_up old ;?
    copy_up (dn_parent en) ;?
    let update_nlink := overwrite && bool_decide (is_Some (nv : option odentry)) in
    (if negb overwrite then copy_up new
     else if bool_decide (is_Some nv) then nlink_start new else mret 0) ;?
    err ← (
      old_cred ← ovl_override_creds creator_cred;
      err ← rename_in_upper workdir ovl_redirect_max depth old new flags overwrite is_dir new_is_dir samedir
              cleanup_whiteout (dn_parent eo) (dn_parent en) l;
      revert_creds old_cred;;
      mret err);
    (if update_nlink then nlink_end new else mret tt);;
    mret err) (λ _, True).
Proof.
  intros Hc Heo Hen Eow Hnv Hl. cbv zeta.
  eapply achieves_after; [apply copy_up_achieves; apply Hc|]. intros st1 Hr1 (Hok1 & Ho1 & (eo1 & Heo1 & Hal)).
  assert (has_upper st1 (dn_parent eo)) as Hpo1.
  { destruct (ex_dents _ _ (proj1 Hr1) _ _ Heo) as (e & He & Hk). simplify_eq.
    rewrite <- (dk_parent _ _ Hk). by eapply ok_linked. }
  assert (can_rename st1 old new flags0) as Hc1 by (eapply can_rename_extends; [apply Hr1|done]).
  destruct (ex_dents _ _ (proj1 Hr1) _ _ Hen) as (en1 & Hen1 & Hkn1).
  pose proof Hc1 as (_ & Hdirs1 & _ & eo' & en' & Heo' & Hen' & Hrp1 & _). simplify_eq.
  rewrite (dk_parent _ _ Hkn1) in Hrp1.
  eapply achieves_after; [by apply copy_up_achieves|]. intros st2 Hr2 (Hok2 & Hpn2 & _).
  set (overwrite := Z.land flags0 RENAME_EXCHANGE =? 0).
  set (negative := match nv with None => true | Some _ => false end).
  assert (∀ st', reach everybody st2 st' → (overwrite = false → has_upper st' new) →
    ready st' old new (dn_parent eo) (dn_parent en) negative overwrite l) as Hready.
  { intros st' [Hx2 _]. assert (extends everybody st1 st') as Hx1 by (etrans; [apply Hr2|done]).
    assert (extends everybody st st') as Hx by (etrans; [apply Hr1|done]).
    apply (can_rename_extends _ st') in Hc; [|exact Hx].
    destruct Hc as (Hok' & Hdirs & Hr & eo2 & en2 & Heo2 & Hen2 & Hrp & Hap & Hneg & Hpos).
    destruct (ex_dents _ _ Hx _ _ Heo) as (? & ? & Hko). destruct (ex_dents _ _ Hx _ _ Hen) as (? & ? & Hkn). simplify_eq.
    rewrite (dk_parent _ _ Hko), (dk_parent _ _ Hkn) in *. rewrite (dk_still _ _ Hkn) in * by (by right).
    intros Hex.
    split_and!; [done..|by eapply (extends_upper st1)|by eapply (extends_upper st1)|by eapply (extends_upper st2)|done| | | |].
    - exists eo2, en2. rewrite (dk_parent _ _ Hko), (dk_parent _ _ Hkn), (dk_still _ _ Hkn) by (by right).
      split_and!; [done..|]. rewrite <- Hnv. unfold negative. by destruct nv.
    - intros E. assert (nv = None) as Hnn by (unfold negative in E; by destruct nv). split.
      + unfold overwrite. apply Z.eqb_eq, Hneg. by apply Hnv.
      + destruct (decide (l = [])) as [|Hne]; [done|]. by destruct (Hl Hne).
    - intros E. split; [by apply Hex|]. apply Hpos. intros Hn. apply Hneg in Hn. unfold overwrite in E. by rewrite Hn in E.
    - intros Hne. destruct (Hl Hne) as (_ & Hok & Hu). by eapply (extends_upper st). }
  destruct (ex_dents _ _ (proj1 Hr2) _ _ Hen1) as (en2 & Hen2 & Hkn2).
  pose proof (can_rename_extends _ _ _ _ _ (proj1 Hr2) Hc1) as (_ & Hdirs2 & _ & eo2 & en2' & _ & Hen2' & _ & _ & _ & Hpos2).
  rewrite Hen2 in Hen2'. injection Hen2' as <-. rewrite (dk_still _ _ Hkn2), (dk_still _ _ Hkn1) in Hpos2 by (by right).
  assert (overwrite = false → dn_inode en ≠ NULL) as Hex.
  { intros E Hn. destruct Hc as (_ & _ & _ & ? & en3 & _ & Hen3 & _ & _ & Hneg & _).
    rewrite Hen in Hen3. injection Hen3 as <-. unfold overwrite in E. by rewrite (Hneg Hn) in E. }
  destruct overwrite eqn:Eow.
  - destruct nv as [nv|]; cbn [negb andb].
    + rewrite bool_decide_true by (by eexists). eapply achieves_nlink; [apply _|done|done| |exact Hen2|apply lasting_true| |apply reports_ret].
      * apply Hpos2. by intros ?%Hnv.
      * eapply rename_body_achieves, ready_extends; [apply extends_held|]. by apply Hready.
    + rewrite bool_decide_false by (by intros []). apply achieves_then; [by apply keeps_ret|].
      eapply achieves_end; [apply lasting_true|eapply rename_body_achieves, (Hready st2); done|].
      intros r. eapply keeps_bind with (P := any); [by apply keeps_ret|]. intros _ _. by apply keeps_ret.
  - cbn [negb andb]. eapply achieves_after; [apply copy_up_achieves; [done|by eapply dirs_ok_extends, Hdirs1; apply Hr2|]|].
    + by apply Hpos2, Hex.
    + intros st3 Hr3 (_ & Hn3 & _). eapply achieves_end; [apply lasting_true|eapply rename_body_achieves, Hready; done|].
      intros r. eapply keeps_bind with (P := any); [by apply keeps_ret|]. intros _ _. by apply keeps_ret.
Qed.

Lemma rename_achieves st old new flags :
  can_rename st old new flags → 0 ≤ h_write (k_held st) →
  achieves everybody nobody st
    (ovl_rename creator_cred workdir indexdir export_op ovl_redirect_max kmalloc fuel depth old new flags) (λ _, True).
Proof.
  intros Hc Hw. pose proof Hc as (Hok & Hdirs & (n & Hr & _) & eo & en & Heo & Hen & (m & Hrp & _) & _).
  destruct (rooted_view _ _ _ Hr) as (v & Hv & _). destruct (rooted_view _ _ _ Hrp) as (pv & (pe & po & Hpe & _)%view_inv & _).
  destruct (ok_parent _ Hok _ _ Heo) as [peo Hpeo]. unfold ovl_rename.
  eapply achieves_bind; [by apply keeps_dent|]. intros eo1 Hko. rewrite (dk_parent _ _ Hko).
  eapply achieves_bind; [by apply keeps_dent|]. intros en1 Hkn. rewrite (dk_parent _ _ Hkn).
  eapply achieves_bind; [by apply keeps_oview|]. intros v1 _.
  eapply achieves_bind; [by eapply oview_opt_keeps|]. intros nv Hseen.
  eapply achieves_bind; [by apply keeps_dent|]. intros peo1 _.
  eapply achieves_bind; [by apply keeps_dent|]. intros pen1 _.
  eapply achieves_bind with (P := any); [by apply keeps_ask|]. intros ofs _. cbv zeta.
  do 3 match goal with |- achieves _ _ _ (if ?b then _ else _) _ => destruct b; [by apply achieves_err|] end.
  set (overwrite := Z.land flags RENAME_EXCHANGE =? 0).
  eapply achieves_from with (Q := λ r st', r.1 = 0 ∧ r.2 ≠ [] → nv ≠ None ∧ upper_there new st').
  { destruct nv as [nv|]; [|intros st1 Hst1; split; [done|]; by intros []]. destruct Hseen as (_ & nv0 & Hnv0 & _).
    case_match; [|intros st1 Hst1; split; [done|]; by intros []].
    intros st1 Hst1. eapply wp_mono; [by eapply (check_empty_gives _ _ st new nv0)|]. intros r st2 [Hr2 Hu]. split; [done|].
    intros Hl. split; [done|by apply Hu]. }
  intros [err l] st1 Hr1 Hl. destruct (Z.eqb_spec err 0) as [->|]; cbn [negb]; [|by apply achieves_err].
  apply (can_rename_extends _ st1) in Hc; [|apply Hr1]. rewrite <- (proj2 Hr1) in Hw.
  destruct (ex_dents _ _ (proj1 Hr1) _ _ Heo) as (eo' & Heo' & Hko'). destruct (ex_dents _ _ (proj1 Hr1) _ _ Hen) as (en' & Hen' & Hkn').
  destruct (extends_view _ _ _ _ Hok (proj1 Hr1) Hv) as (v' & Hv' & _). rewrite <- (dk_parent _ _ Hko'), <- (dk_parent _ _ Hkn').
  assert (nv = None ↔ dn_inode en' = NULL) as Hnv.
  { rewrite (dk_still _ _ Hkn') by (by right). destruct nv; [|done]. destruct Hseen as [Hn _]. by split. }
  clear Hr Hrp Hpe Hpeo Hseen.
  eapply achieves_bind with (P := any).
  { case_match; [eapply gives_keeps, lower_positive_gives; [apply Hc|done]|by apply keeps_ret]. }
  intros positive _. eapply achieves_bind with (P := any); [by apply keeps_ask|]. intros new_inode _.
  destruct (rename_plan _ _ _ _ _) as [flags1 cw].
  apply achieves_write; [done|apply lasting_true| |apply reports_ret].
  assert (extends everybody st1 (set_k_held (write_held (k_held st1)) st1)) as Hx by apply extends_held.
  eapply rename_writing_achieves; [by eapply can_rename_extends|done..|].
  intros Hne. destruct (Hl (conj eq_refl Hne)) as [? Hu]. split; [done|].
  eapply upper_there_lasting, Hu. apply extends_held.
Qed.

End rename.
