(* ===== verification/Attr.v ===== *)
(** inode.c and super.c: changing the attributes and the extended attributes of
    an overlay inode, ACLs, symbolic links, access times and extents; and these
    changes as steps on a well-formed overlay: what they keep and what their
    success means; private xattrs stay private. *)

From S2P Require Import Prelude Types Util Block Readdir Under Nlink Fh Redirect RedirectProps Inode Lookup LookupProps Kernel KernelProps Work CopyUp WorkProps CopyUpSteps CopyUpStages CopyUpProps Dir DirOps DirSteps DirParts DirRemove.
From stdpp Require Import gmap.
Local Open Scope Z_scope.

Definition ATTR_KILL_SUID : Z := 2048.
Definition ATTR_KILL_SGID : Z := 4096.
Definition S_ISGID : Z := 1024.
Definition S_ATIME : Z := 1.
Definition ACL_TYPE_ACCESS : Z := 32768.
Definition ACL_TYPE_DEFAULT : Z := 16384.
Definition CAP_FSETID : Z := 4.
Definition FIEMAP_FLAG_SYNC : Z := 1.

(** What these operations call besides [Kern]. *)
Class AttrKern (W : Type) : Type := {
  (** the error and the attributes, which it may change *)
  setattr_prepare : W → inode → iattr → Z * iattr;
  i_writecount : W → inode → Z;
  get_write_access : W → inode → Z * W;
  put_write_access : W → inode → W;
  posix_acl_from_xattr : list byte → eptr posix_acl;
  i_op_set_acl : inode → bool;
  i_op_fiemap : inode → bool;
  inode_owner_or_capable : W → inode → bool;
  in_group_p : W → Z → bool;
  capable_wrt_inode_uidgid : W → inode → Z → bool;
  get_acl : W → inode → Z → eptr posix_acl;
  touch_atime : W → path → W;
  filemap_write_and_wait : W → inode → W;
  fiemap : W → inode → Z → Z → Z * W;
}.

Section attr.
Context {W : Type} `{Under W, Kern W, DirKern W, AttrKern W}.
Context (creator_cred : Z) (workdir indexdir : dentry) (export_op : Z → option (bool * bool)).
Context (CONFIG_FS_POSIX_ACL : bool) (fuel depth : nat).

#[local] Abbreviation copy_up := (ovl_copy_up creator_cred workdir indexdir export_op fuel depth).
#[local] Abbreviation copy_up_with_data := (ovl_copy_up_with_data creator_cred workdir indexdir export_op fuel depth).

(** ** inode.c *)

(** A body that runs with write access to an inode, if one is given. *)
Definition with_write_access (winode : option inode) (m : kernel W Z) : kernel W Z :=
  match winode with
  | None => m
  | Some i =>
      on_w (λ w, get_write_access w i) ;?
      lock_ (LWrite (i_ptr i));;
      err ← m;
      unlock_ (LWrite (i_ptr i));;
      modify (λ st, set_k_w (put_write_access (k_w st) i) st);;
      mret err
  end.

(** Truncation is refused while the file is executed. *)
Definition text_busy (d : Z) : kernel W bool :=
  v ← oview d;
  real ← deref (ovl_dentry_real v);
  realinode ← deref (d_inode real);
  ask (λ st, i_writecount (k_w st) realinode <? 0).

Definition ovl_setattr (d : Z) (attr : iattr) : kernel W Z :=
  e ← dent d;
  o ← inode_of (dn_inode e);
  '(err, attr) ← ask (λ st, setattr_prepare (k_w st) (oi_vfs o) attr);
  if negb (err =? 0) then mret err else
  let full_copy_up := has_any (ia_valid attr) ATTR_SIZE in
  ovl_want_write ;?
  err ← (
    busy ← (if full_copy_up then text_busy d else mret false);
    if (busy : bool) then mret (- ETXTBSY) else
    (if negb full_copy_up then copy_up d else copy_up_with_data d) ;?
    v ← oview d;
    upperdentry ← deref (ovl_dentry_upper v);
    ui ← deref (d_inode upperdentry);
    with_write_access (if full_copy_up then Some ui else None) (
      let attr := if has_any (ia_valid attr) (Z.lor ATTR_KILL_SUID ATTR_KILL_SGID)
                  then IAttr (Z.ldiff (ia_valid attr) ATTR_MODE) (ia_attrs attr) else attr in
      inode_lock ui;;
      err ← (
        old_cred ← ovl_override_creds creator_cred;
        err ← notify upperdentry attr;
        revert_creds old_cred;;
        (if err =? 0 then copyattr_from (Some ui) d else mret tt);;
        mret err);
      inode_unlock ui;;
      mret err));
  ovl_drop_write;;
  mret err.

(** The xattr is looked for before the file is copied up to remove it. *)
Definition xattr_present (real : option dentry) (name : string) : kernel W Z :=
  real ← deref real;
  ask (λ st, (vfs_getxattr (k_w st) real name 0).1).

(** [value] is [None] for a removal. *)
Definition ovl_xattr_set (d : Z) (name : string) (value : option (list byte)) (flags : Z) : kernel W Z :=
  v ← oview d;
  let upperdentry := ovl_dentry_upper v in
  let has_upper := bool_decide (is_Some upperdentry) in
  ovl_want_write ;?
  err ← (
    err ← (if negb (bool_decide (is_Some value)) && negb has_upper
           then xattr_present (ovl_dentry_real v) name else mret 0);
    if err <? 0 then mret err else
    (if negb has_upper then copy_up d else mret 0) ;?
    v ← oview d;
    realdentry ← deref (if has_upper then upperdentry else ovl_dentry_upper v);
    old_cred ← ovl_override_creds creator_cred;
    err ← match value with
          | Some b => ovl_do_setxattr realdentry name b flags
          | None => ovl_do_removexattr realdentry name
          end;
    revert_creds old_cred;;
    copyattr_from (d_inode realdentry) d;;
    mret err);
  ovl_drop_write;;
  mret err.

(** The result and what is in the buffer. *)
Definition ovl_xattr_get (d : Z) (name : string) (size : Z) : kernel W (Z * list byte) :=
  v ← oview d;
  realdentry ← deref (ovl_dentry_real v);
  old_cred ← ovl_override_creds creator_cred;
  res ← ask (λ st, vfs_getxattr (k_w st) realdentry name size);
  revert_creds old_cred;;
  mret res.

(** [None] is the NULL dentry of a path walk under RCU. *)
Definition ovl_get_link (dentry : option Z) : kernel W (eptr string) :=
  match dentry with
  | None => mret (PErr (- ECHILD))
  | Some d =>
      old_cred ← ovl_override_creds creator_cred;
      p ← (v ← oview d; real ← deref (ovl_dentry_real v); ask (λ st, vfs_get_link (k_w st) real));
      revert_creds old_cred;;
      mret p
  end.

Definition ovl_get_acl (inode : Z) (type : Z) : kernel W (eptr posix_acl) :=
  o ← inode_of inode;
  if negb CONFIG_FS_POSIX_ACL then mret PNull else
  realinode ← deref (ovl_inode_real o);
  if negb (IS_POSIXACL realinode) then mret PNull else
  old_cred ← ovl_override_creds creator_cred;
  acl ← ask (λ st, get_acl (k_w st) realinode type);
  revert_creds old_cred;;
  mret acl.

Definition set_atime (t : Z) (i : inode) : inode :=
  let a := i_attrs i in
  set_i_attrs (IAttrs (at_uid a) (at_gid a) (at_mode a) t (at_mtime a) (at_ctime a) (at_size a)) i.
Definition ovl_update_time (inode : Z) (flags : Z) : kernel W Z :=
  if has_any flags S_ATIME then
    o ← inode_of inode;
    match oi_upper o with
    | Some upper =>
        modify (λ st, set_k_w (touch_atime (k_w st) (Path (fs_upper_mnt (k_ofs st)) (Some upper))) st);;
        ui ← deref (d_inode upper);
        ui ← ask (λ st, inode_now (k_w st) ui);
        modify_inode inode (λ o, set_oi_vfs (set_atime (at_atime (i_attrs ui)) (oi_vfs o)) o);;
        mret 0
    | None => mret 0
    end
  else mret 0.

Definition ovl_fiemap (inode : Z) (fi_flags start len : Z) : kernel W Z :=
  o ← inode_of inode;
  realinode ← deref (ovl_inode_real o);
  if negb (i_op_fiemap realinode) then mret (- EOPNOTSUPP) else
  old_cred ← ovl_override_creds creator_cred;
  err ← ((if has_any fi_flags FIEMAP_FLAG_SYNC
          then modify (λ st, set_k_w (filemap_write_and_wait (k_w st) realinode) st) else mret tt);;
         on_w (λ w, fiemap w realinode start len));
  revert_creds old_cred;;
  mret err.

(** ** super.c: the xattr handlers *)

(** [name] and [flags] are those of the handler, [xflags] those of the call. *)
Definition ovl_posix_acl_xattr_set (d : Z) (name : string) (type : Z) (value : option (list byte)) (xflags : Z)
    : kernel W Z :=
  wd ← ovl_workdir workdir;
  v ← oview d;
  let inode := oi_vfs (od_inode v) in
  let acl := match value with Some b => posix_acl_from_xattr b | None => PNull end in
  match acl with
  | PErr err => mret err
  | _ =>
      wd ← deref wd;
      wdir ← deref (d_inode wd);
      if negb (IS_POSIXACL wdir) then mret (- EOPNOTSUPP) else
      realinode ← deref (ovl_inode_real (od_inode v));
      if negb (i_op_set_acl realinode) then mret (- EOPNOTSUPP) else
      if (type =? ACL_TYPE_DEFAULT) && negb (S_ISDIR (i_mode inode))
      then mret (match acl with PNull => 0 | _ => - EACCES end) else
      owner ← ask (λ st, inode_owner_or_capable (k_w st) inode);
      if negb owner then mret (- EPERM) else
      clear_sgid ← ask (λ st, has_any (i_mode inode) S_ISGID && (type =? ACL_TYPE_ACCESS) &&
                              negb (in_group_p (k_w st) (at_gid (i_attrs inode))) &&
                              negb (capable_wrt_inode_uidgid (k_w st) inode CAP_FSETID));
      (if (clear_sgid : bool)
       then ovl_setattr d (IAttr ATTR_KILL_SGID (IAttrs 0 0 0 0 0 0 0)) else mret 0) ;?
      err ← ovl_xattr_set d name value xflags;
      (if err =? 0 then
         v ← oview d; real ← deref (ovl_inode_real (od_inode v));
         real ← ask (λ st, inode_now (k_w st) real);
         modify_dinode d (λ o, set_oi_vfs (ovl_copyattr real (oi_vfs o)) o)
       else mret tt);;
      mret err
  end.

(** ovl_xattr_handlers, the first that fits the name is used: the ACLs by
    their names, the overlay's own prefix, anything *)
Inductive xattr_handler : Type := HAclAccess | HAclDefault | HOwn | HOther.
Definition ovl_xattr_handlers : list xattr_handler :=
  (if CONFIG_FS_POSIX_ACL then [HAclAccess; HAclDefault] else []) ++ [HOwn; HOther].
Definition handles (name : string) (h : xattr_handler) : bool :=
  match h with
  | HAclAccess => String.eqb name XATTR_NAME_POSIX_ACL_ACCESS
  | HAclDefault => String.eqb name XATTR_NAME_POSIX_ACL_DEFAULT
  | HOwn => String.prefix OVL_XATTR_PREFIX name
  | HOther => true
  end.
Definition handler_of (name : string) : option xattr_handler := List.find (handles name) ovl_xattr_handlers.

Definition xattr_set_op (d : Z) (name : string) (value : option (list byte)) (flags : Z) : kernel W Z :=
  match handler_of name with
  | Some HAclAccess => ovl_posix_acl_xattr_set d XATTR_NAME_POSIX_ACL_ACCESS ACL_TYPE_ACCESS value flags
  | Some HAclDefault => ovl_posix_acl_xattr_set d XATTR_NAME_POSIX_ACL_DEFAULT ACL_TYPE_DEFAULT value flags
  | Some HOther => ovl_xattr_set d name value flags
  | Some HOwn | None => mret (- EOPNOTSUPP)
  end.
Definition xattr_get_op (d : Z) (name : string) (size : Z) : kernel W (Z * list byte) :=
  match handler_of name with
  | Some HAclAccess => ovl_xattr_get d XATTR_NAME_POSIX_ACL_ACCESS size
  | Some HAclDefault => ovl_xattr_get d XATTR_NAME_POSIX_ACL_DEFAULT size
  | Some HOther => ovl_xattr_get d name size
  | Some HOwn | None => mret (- EOPNOTSUPP, [])
  end.

End attr.

(** What held stays true after steps that keep the state. *)
Lemma achieves_lasting {W} {N M : frozen} `{!weaker M N} (st0 : kst W) (m : kernel W Z) P F :
  lasting F → F st0 → keeps N M st0 m P → achieves N M st0 m F.
Proof.
  intros HF HF0 Hm st Hst. eapply wp_mono; [by apply Hm|]. intros r st' [Hr _]. split; [done|]. intros _.
  eapply HF; [|exact HF0]. apply (extends_weaken (N := M)). etrans; [|apply Hr]. by apply (extends_weaken (N := N)), Hst.
Qed.
Lemma achieves_weaken {W} {N M L : frozen} `{!weaker L M} (st0 : kst W) (m : kernel W Z) F :
  achieves N M st0 m F → achieves N L st0 m F.
Proof.
  intros Hm st Hst. eapply wp_mono; [by apply Hm|]. intros r st' [Hr ?]. split; [|done]. by apply (reach_weaken (N := M)).
Qed.
Lemma achieves_mono {W} {N M : frozen} (st0 : kst W) (m : kernel W Z) (F G : kst W → Prop) :
  achieves N M st0 m F → (∀ st, F st → G st) → achieves N M st0 m G.
Proof. intros Hm HFG st Hst. eapply wp_mono; [by apply Hm|]. intros r st' [Hr HF]. split; [done|]. auto. Qed.

Section steps.
Context {W : Type} `{Under W, !UnderLaws W, Kern W, !KernLaws W, DirKern W, AttrKern W}.
Context {N : frozen}.
Implicit Types (st : kst W).

Lemma write_access_keeps st winode (m : kernel W Z) :
  keeps N N (if winode is Some i then set_k_held (lock_held [LWrite (i_ptr i)] (k_held st)) st else st) m any →
  keeps N N st (with_write_access winode m) any.
Proof.
  destruct winode as [i|]; [|done]. intros Hm. unfold with_write_access. apply keeps_then.
  { apply keeps_quiet. intros. by apply quietly_on_w. }
  intros st1 Hst1. apply wp_bind, wp_lock.
  eapply (wp_between (N := N) st1 (lock_held [LWrite (i_ptr i)] (k_held st1))) with (P := λ _ _, True).
  - rewrite (proj2 Hst1). eapply gives_set_held; [exact Hst1|exact Hm].
  - by intros ????.
  - intros st' Hh'. eapply wp_unlock; [rewrite Hh'; apply unlock1_head|]. rewrite Hh'. by destruct (k_held st1).
  - intros r st2 Hr2 _. apply wp_bind. unfold wp at 1, modify. apply wp_ret. split; [|done].
    etrans; [exact Hr2|]. apply quiet_reach. by split.
Qed.

(** A hashed dentry has a positive real dentry and a real inode. *)
Lemma real_dentry st d v :
  ok st → view_at st d = Some v → hashed st d →
  (∃ r, ovl_dentry_real v = Some r ∧ is_Some (d_inode r)) ∧ is_Some (ovl_inode_real (od_inode v)).
Proof.
  intros Hok Hv (e & He & Hh). pose proof Hv as (e0 & o & He0 & Ho & ->)%view_inv. simplify_eq.
  unfold ovl_dentry_real, ovl_inode_real, ovl_dentry_upper, ovl_inode_upper. cbn.
  destruct (oi_upper o) as [u|] eqn:Eu.
  { destruct (ok_upper _ Hok _ _ _ Ho Eu) as [ui Hui]. cbn. rewrite Hui. split; [|by eexists]. exists u. by rewrite Hui. }
  cbn. destruct (oe_lowerstack (dn_entry e)) as [|p l] eqn:El.
  { destruct (ok_real _ Hok _ _ _ He Ho Hh El) as ([u Hu] & _). by simplify_eq. }
  split; [|eapply ok_stack; [done..|by rewrite El]]. exists (op_dentry p). split; [by eapply lower_of|].
  eapply ok_lower; [done..|]. rewrite El. by left.
Qed.
End steps.

Section attr.
Context {W : Type} `{Under W, !UnderLaws W, Kern W, !KernLaws W, DirKern W, !DirLaws W, AttrKern W, RbLib}.
Context (creator_cred : Z) (workdir indexdir : dentry) (export_op : Z → option (bool * bool)).
Context (CONFIG_FS_POSIX_ACL : bool) (fuel depth : nat).
Implicit Types (st : kst W).

#[local] Abbreviation can_change := (can_remove workdir indexdir fuel depth).

Lemma can_change_hashed st d : can_change st d → ∃ v, view_at st d = Some v ∧ hashed st d.
Proof. intros (_ & _ & n & Hr & _). destruct (rooted_view _ _ _ Hr) as (v & Hv & _ & Hh). by exists v. Qed.

(** A computation that looks at the real dentry. *)
Lemma real_now {A} st d (f : option dentry → kernel W A) P :
  can_change st d →
  (∀ r st', reach everybody st st' → is_Some (d_inode r) → keeps everybody everybody st' (f (Some r)) P) →
  keeps everybody everybody st (v ← oview d; f (ovl_dentry_real v)) P.
Proof.
  intros Hc Hf st1 Hst1. pose proof (can_remove_extends _ _ _ _ _ _ _ (proj1 Hst1) Hc) as Hc1.
  destruct (can_change_hashed _ _ Hc1) as (v & Hv & Hh).
  destruct (real_dentry _ _ _ (proj1 Hc1) Hv Hh) as [(r & Hr & Hi) _].
  eapply wp_oview; [exact Hv|]. rewrite Hr. by apply (Hf r st1).
Qed.

Lemma text_busy_keeps st d : can_change st d → keeps everybody everybody st (text_busy d) any.
Proof.
  intros Hc. unfold text_busy.
  apply (real_now st d (λ r, real ← deref r; ri ← deref (d_inode real); ask (λ st, i_writecount (k_w st) ri <? 0))); [done|].
  intros r st' _ [ri Hri]. eapply keeps_bind with (P := eq r); [by eapply keeps_deref|]. intros _ <-.
  eapply keeps_bind with (P := eq ri); [by eapply keeps_deref|]. intros _ <-. by apply keeps_ask.
Qed.

(** What ovl_setattr does to the upper object. *)
Lemma apply_attrs_keeps st d v attr u ui winode :
  ok st → view_at st d = Some v → d_inode u = Some ui →
  keeps everybody everybody st (with_write_access winode (
    inode_lock ui;;
    err ← (
      old_cred ← ovl_override_creds creator_cred;
      err ← notify u attr;
      revert_creds old_cred;;
      (if err =? 0 then copyattr_from (Some ui) d else mret tt);;
      mret err);
    inode_unlock ui;;
    mret err)) any.
Proof.
  intros Hok Hv Hui. apply write_access_keeps. set (st1 := if winode is Some i then _ else st).
  assert (extends everybody st st1) as Hx by (subst st1; destruct winode; [apply extends_held|done]).
  assert (ok st1) as Hok1 by (by eapply ex_ok). destruct (extends_view _ _ _ _ Hok Hx Hv) as (v1 & Hv1 & _).
  clearbody st1. eapply keeps_locked with (P := any); [|intros; by apply keeps_ret].
  eapply keeps_creds with (m := λ _, notify u attr) (P := any).
  - apply keeps_quiet. intros st2 Hst2. eapply notify_quiet; [done|]. eapply reach_locked; [exact Hst2|]. by left.
  - intros r _. eapply keeps_bind with (P := any); [|intros; by apply keeps_ret].
    case_match; [|by apply keeps_ret]. set (st2 := set_k_held _ st1).
    assert (extends everybody st1 st2) as Hx2 by apply extends_held.
    destruct (extends_view _ _ _ _ Hok1 Hx2 Hv1) as (v2 & Hv2 & _).
    eapply copyattr_keeps; [by eapply ex_ok|exact Hv2|by eexists].
Qed.

(** The real work starts with write access to the mount. *)
Lemma achieves_change st d (m : kernel W Z) F :
  can_change st d → 0 ≤ h_write (k_held st) → lasting F →
  (∀ st', extends everybody st st' → can_change st' d → achieves everybody everybody st' m F) →
  achieves everybody everybody st (ovl_want_write ;? (err ← m; ovl_drop_write;; mret err)) F.
Proof.
  intros Hc Hw HF Hm. apply achieves_write; [done|done| |apply reports_ret].
  assert (extends everybody st (set_k_held (write_held (k_held st)) st)) as Hx by apply extends_held.
  apply Hm; [done|]. by eapply can_remove_extends.
Qed.

Lemma setattr_achieves st d attr :
  can_change st d → 0 ≤ h_write (k_held st) →
  achieves everybody everybody st (ovl_setattr creator_cred workdir indexdir export_op fuel depth d attr) (copied d).
Proof.
  intros Hc Hw. destruct (can_change_hashed _ _ Hc) as (v & Hv & _). pose proof Hv as (e & o & He & Ho & _)%view_inv.
  unfold ovl_setattr. eapply achieves_bind; [by apply keeps_dent|]. intros e1 Hk. rewrite (dk_still _ _ Hk) by (by right).
  eapply achieves_bind; [by apply keeps_inode|]. intros o1 _.
  eapply achieves_bind with (P := any); [by apply keeps_ask|]. intros [err a] _.
  destruct (Z.eqb_spec err 0) as [->|]; cbn [negb]; [|by apply achieves_err].
  eapply achieves_change; [done..|apply copied_lasting|].
  intros st0 _ Hc0. clear st Hc Hw v Hv e o He Ho e1 Hk o1. eapply achieves_bind with (P := any); [case_match; [by apply text_busy_keeps|by apply keeps_ret]|].
  intros [] _; [by apply achieves_err|]. destruct Hc0 as (Hok & Hdirs & Hr).
  eapply achieves_after; [case_match; by apply copy_up_achieves|].
  intros st1 Hr1 Hcp. apply (achieves_lasting _ _ any); [apply copied_lasting|done|].
  destruct Hcp as (Hok1 & (v & Hv & u & Hu) & _).
  pose proof Hv as (e & o & He & Ho & Ev)%view_inv. destruct (ok_upper _ Hok1 _ _ u Ho) as [ui Hui]; [by subst v|].
  eapply keeps_bind; [by apply keeps_oview|]. intros v1 Hg.
  eapply keeps_bind with (P := eq u); [eapply keeps_deref; [by apply (ig_upper (vg_inode _ _ _ Hg))|done]|]. intros _ <-.
  eapply keeps_bind with (P := eq ui); [by eapply keeps_deref|]. intros _ <-.
  by eapply apply_attrs_keeps.
Qed.

(** After the copy-up of ovl_xattr_set. *)
Lemma xattr_apply_keeps st d v u ui name value flags :
  ok st → view_at st d = Some v → d_inode u = Some ui →
  keeps everybody everybody st (
    old_cred ← ovl_override_creds creator_cred;
    err ← match value with
          | Some b => ovl_do_setxattr u name b flags
          | None => ovl_do_removexattr u name
          end;
    revert_creds old_cred;;
    copyattr_from (d_inode u) d;;
    mret err) any.
Proof.
  intros Hok Hv Hui. unfold ovl_override_creds.
  eapply keeps_creds with (m := λ _, match value with
    Some b => ovl_do_setxattr u name b flags | None => ovl_do_removexattr u name end) (P := any).
  - apply keeps_quiet. intros. destruct value; by apply quietly_on_w.
  - intros r _. eapply keeps_bind with (P := any); [|intros; by apply keeps_ret].
    eapply copyattr_keeps; [done|exact Hv|by eexists].
Qed.

Lemma xattr_present_keeps st r name : keeps everybody everybody st (xattr_present (Some r) name) any.
Proof.
  unfold xattr_present. eapply keeps_bind with (P := eq r); [by eapply keeps_deref|]. intros _ <-. by apply keeps_ask.
Qed.

Lemma xattr_set_achieves st d name value flags :
  can_change st d → 0 ≤ h_write (k_held st) →
  achieves everybody everybody st
    (ovl_xattr_set creator_cred workdir indexdir export_op fuel depth d name value flags) (upper_there d).
Proof.
  intros Hc Hw st1 Hst1. unfold ovl_xattr_set.
  pose proof (can_remove_extends _ _ _ _ _ _ _ (proj1 Hst1) Hc) as Hc1. rewrite <- (proj2 Hst1) in Hw.
  destruct (can_change_hashed _ _ Hc1) as (v & Hv & Hh). destruct (real_dentry _ _ _ (proj1 Hc1) Hv Hh) as [(r & Hr & _) _].
  eapply wp_oview; [exact Hv|]. cbv zeta. rewrite Hr.
  eapply wp_mono; [eapply (achieves_change st1 d) with (F := upper_there d) (st := st1);
    [done|done|apply upper_there_lasting| |done]|done].
  intros st2 Hx2 Hc2. destruct (extends_view _ _ _ _ (proj1 Hc1) Hx2 Hv) as (v2 & Hv2 & Hg2).
  eapply achieves_bind with (P := any); [case_match; [apply xattr_present_keeps|by apply keeps_ret]|].
  intros err _. destruct (Z.ltb_spec err 0); [apply achieves_err; lia|]. destruct Hc2 as (Hok2 & Hdirs2 & Hr2).
  eapply (achieves_after (N := everybody)) with (F := upper_there d).
  { case_bool_decide as Hu; cbn [negb].
    - apply (achieves_lasting _ _ any); [apply upper_there_lasting| |by apply keeps_ret].
      split; [done|]. exists v2. split; [done|]. destruct Hu as [u Hu]. exists u. by apply (ig_upper (vg_inode _ _ _ Hg2)).
    - eapply achieves_mono; [by apply copy_up_achieves|]. by intros st3 (? & ? & _). }
  intros st3 Hr3 Hut. apply (achieves_lasting _ _ any); [apply upper_there_lasting|done|].
  destruct Hut as (Hok3 & v3 & Hv3 & u & Hu3).
  pose proof Hv3 as (e & o & He & Ho & Ev)%view_inv. destruct (ok_upper _ Hok3 _ _ u Ho) as [ui Hui]; [by subst v3|].
  eapply keeps_bind; [by apply keeps_oview|]. intros v4 Hg4.
  eapply keeps_bind with (P := eq u); [|intros _ <-; by eapply xattr_apply_keeps].
  eapply keeps_deref; [|done]. case_bool_decide as Hu; [|by apply (ig_upper (vg_inode _ _ _ Hg4))].
  destruct Hu as [u0 Hu]. destruct (extends_view _ _ _ _ (proj1 Hc1) (transitivity Hx2 (proj1 Hr3)) Hv) as (v5 & Hv5 & Hg5).
  pose proof (ig_upper (vg_inode _ _ _ Hg5) _ Hu) as Hu5. rewrite Hv5 in Hv3. injection Hv3 as ->.
  rewrite Hu. by rewrite <- Hu3.
Qed.

(** The attributes the overlay inode takes over after an ACL was set. *)
Lemma acl_attrs_reports st d :
  can_change st d → reports (M := everybody) st (λ err,
    (if err =? 0 then
       v ← oview d; real ← deref (ovl_inode_real (od_inode v));
       real ← ask (λ st, inode_now (k_w st) real);
       modify_dinode d (λ o, set_oi_vfs (ovl_copyattr real (oi_vfs o)) o)
     else mret tt);;
    mret err).
Proof.
  intros Hc r. eapply keeps_bind with (P := any); [|intros; by apply keeps_ret].
  case_match; [|by apply keeps_ret]. intros st1 Hst1.
  pose proof (can_remove_extends _ _ _ _ _ _ _ (proj1 Hst1) Hc) as Hc1.
  destruct (can_change_hashed _ _ Hc1) as (v & Hv & Hh). destruct (real_dentry _ _ _ (proj1 Hc1) Hv Hh) as [_ [ri Hri]].
  eapply wp_oview; [exact Hv|]. rewrite Hri. apply wp_bind, wp_ret. apply wp_ask.
  eapply (keeps_modify_dinode (N := everybody)); [apply Hc1|exact Hv| |done]. intros o. apply vfs_only_keeps.
Qed.

Lemma acl_set_achieves st d name type value flags :
  can_change st d → 0 ≤ h_write (k_held st) →
  achieves everybody everybody st
    (ovl_posix_acl_xattr_set creator_cred workdir indexdir export_op fuel depth d name type value flags) (λ _, True).
Proof.
  intros Hc Hw st1 Hst1. unfold ovl_posix_acl_xattr_set.
  pose proof (can_remove_extends _ _ _ _ _ _ _ (proj1 Hst1) Hc) as Hc1. rewrite <- (proj2 Hst1) in Hw. clear st Hst1 Hc.
  pose proof Hc1 as (Hok & [Hfw [wi Hwi] _] & _).
  destruct (can_change_hashed _ _ Hc1) as (v & Hv & Hh). destruct (real_dentry _ _ _ Hok Hv Hh) as [_ [ri Hri]].
  apply wp_bind. unfold ovl_workdir, wp at 1, ask. rewrite Hfw. eapply wp_oview; [exact Hv|]. cbv zeta.
  set (acl := match value with Some b => posix_acl_from_xattr b | None => PNull end).
  apply (wp_mono _ _ (λ r st', reach everybody st1 st' ∧ any r)); [|by intros ?? []].
  destruct acl as [|err|a] eqn:Ea; [|by apply wp_ret|].
  all: apply wp_bind, wp_ret; rewrite Hwi; apply wp_bind, wp_ret.
  all: case_match; [by apply wp_ret|]; rewrite Hri; apply wp_bind, wp_ret.
  all: case_match; [by apply wp_ret|]; case_match; [by apply wp_ret|].
  all: apply wp_ask; case_match; [by apply wp_ret|]; apply wp_ask.
  all: match goal with |- context [ok_then ?m ?k] => set (m1 := m); set (k1 := k) end.
  all: assert (keeps everybody everybody st1 (m1 ;? k1) any) as Hk; [|by apply Hk].
  all: apply keeps_then; subst m1 k1; [case_match; [eapply achieves_keeps; by apply setattr_achieves|by apply keeps_ret]|].
  all: eapply achieves_keeps, achieves_end; [apply upper_there_lasting|by apply xattr_set_achieves|by apply acl_attrs_reports].
Qed.

Lemma xattr_op_achieves st d name value flags :
  can_change st d → 0 ≤ h_write (k_held st) →
  achieves everybody everybody st
    (xattr_set_op creator_cred workdir indexdir export_op CONFIG_FS_POSIX_ACL fuel depth d name value flags) (λ _, True).
Proof.
  intros Hc Hw. unfold xattr_set_op. destruct (handler_of _ name) as [[]|]; try (by apply achieves_err); try by apply acl_set_achieves.
  eapply achieves_mono; [by apply xattr_set_achieves|done].
Qed.

(** Names with the overlay's prefix go to the handler that refuses them. *)
Lemma private_handler name : ovl_is_private_xattr name = true → handler_of CONFIG_FS_POSIX_ACL name = Some HOwn.
Proof.
  unfold ovl_is_private_xattr, handler_of, ovl_xattr_handlers. intros Hp.
  assert (∀ x, String.prefix OVL_XATTR_PREFIX x = false → String.eqb name x = false) as Hne.
  { intros x Hx. destruct (String.eqb_spec name x) as [->|]; [by rewrite Hx in Hp|done]. }
  destruct CONFIG_FS_POSIX_ACL; cbn [app List.find handles].
  - rewrite !Hne by done. by rewrite Hp.
  - by rewrite Hp.
Qed.

End attr.
