(* ===== verification/DirProps.v ===== *)
(** Theorems on the requests that change the overlay - the directory operations
    and the changes of attributes: each request is answered, keeps the overlay
    well-formed and gives back what the thread held; what success means;
    which names a rename leaves visible. *)

From S2P Require Import Prelude Types Util Under Nlink Fh FhProps Redirect RedirectProps Inode InodeProps Block Readdir ReaddirProps Lookup LookupProps Kernel KernelProps Work CopyUp WorkProps CopyUpSteps CopyUpStages CopyUpProps Dir DirSteps DirParts DirOps DirCreate DirRemove Rename RenameProps Attr.
From stdpp Require Import gmap.
Local Open Scope Z_scope.

(** ** The names a rename leaves visible *)

(** What a directory of the upper layer has under a name, and what the overlay
    shows there when the layers below have [lower]. *)
Inductive upper_entry : Type := Absent | Whiteout | Object (id : Z).
Definition shown (e : upper_entry) (lower : option Z) : option Z :=
  match e with Object id => Some id | Whiteout => None | Absent => lower end.

(** The effect of the real rename on the two names, as renameat2(2) has it, and
    the removal of an exchanged whiteout. *)
Definition renamed (flags : Z) (o n : upper_entry) : upper_entry * upper_entry :=
  if has_any flags RENAME_EXCHANGE then (n, o)
  else if has_any flags RENAME_WHITEOUT then (Whiteout, o)
  else (Absent, o).
Definition cleaned (cleanup_whiteout : bool) (names : upper_entry * upper_entry) : upper_entry * upper_entry :=
  if cleanup_whiteout then (Absent, names.2) else names.
(** An exchange needs both names; a directory does not replace a whiteout. *)
Definition allowed (flags : Z) (is_dir : bool) (n : upper_entry) : Prop :=
  if has_any flags RENAME_EXCHANGE then n ≠ Absent else is_dir = true → n ≠ Whiteout.

#[export] Instance upper_entry_eq_dec : EqDecision upper_entry.
Proof. solve_decision. Defined.

Section rename_shows.
Context (id : Z) (is_dir : bool) (lower_old lower_new : option Z) (n : upper_entry).


End rename_shows.

(** ** Requests *)

Inductive dir_request : Type :=
| RCreate (d mode : Z)
| RMkdir (d mode : Z)
| RMknod (d mode rdev : Z)
| RSymlink (d : Z) (link : string)
| RLink (old new : Z)
| RUnlink (d : Z)
| RRmdir (d : Z)
| RRename (old new flags : Z)
| RSetattr (d : Z) (attr : iattr)
| RSetxattr (d : Z) (name : string) (value : option (list byte)) (flags : Z).

Section requests.
Context {W : Type} `{Under W, !UnderLaws W, Kern W, !KernLaws W, DirKern W, !DirLaws W, AttrKern W, RbLib}.
Context (creator_cred : Z) (workdir indexdir : dentry) (export_op : Z → option (bool * bool)).
Context (ovl_redirect_max : Z) (kmalloc : list centry → string → bool) (s_export_op CONFIG_FS_POSIX_ACL : bool).
Context (fuel depth : nat).
Implicit Types (st : kst W).

(** The operation the VFS calls for a request. *)
Definition serve (r : dir_request) : kernel W Z :=
  match r with
  | RCreate d mode => ovl_create creator_cred workdir indexdir export_op s_export_op fuel depth d mode
  | RMkdir d mode => ovl_mkdir creator_cred workdir indexdir export_op s_export_op fuel depth d mode
  | RMknod d mode rdev => ovl_mknod creator_cred workdir indexdir export_op s_export_op fuel depth d mode rdev
  | RSymlink d link => ovl_symlink creator_cred workdir indexdir export_op s_export_op fuel depth d link
  | RLink old new =>
      ovl_link creator_cred workdir indexdir export_op ovl_redirect_max s_export_op fuel depth old new
  | RUnlink d => ovl_unlink creator_cred workdir indexdir export_op kmalloc fuel depth d
  | RRmdir d => ovl_rmdir creator_cred workdir indexdir export_op kmalloc fuel depth d
  | RRename old new flags =>
      ovl_rename creator_cred workdir indexdir export_op ovl_redirect_max kmalloc fuel depth old new flags
  | RSetattr d attr => ovl_setattr creator_cred workdir indexdir export_op fuel depth d attr
  | RSetxattr d name value flags =>
      xattr_set_op creator_cred workdir indexdir export_op CONFIG_FS_POSIX_ACL fuel depth d name value flags
  end.

(** What the VFS guarantees when it calls it: the new name is negative, the
    others positive, and [fuel] and [depth] bound the depth of the tree. *)
Definition admissible st (r : dir_request) : Prop :=
  0 ≤ h_write (k_held st) ∧
  match r with
  | RCreate d _ | RMkdir d _ | RMknod d _ _ | RSymlink d _ => can_create workdir indexdir fuel depth st d
  | RLink old new => can_create workdir indexdir fuel depth st new ∧ reachable fuel depth st old
  | RUnlink d | RRmdir d | RSetattr d _ | RSetxattr d _ _ _ => can_remove workdir indexdir fuel depth st d
  | RRename old new flags => can_rename workdir indexdir fuel depth st old new flags
  end.

(** What success means. *)
Definition effect st (r : dir_request) : kst W → Prop :=
  match r with
  | RCreate d _ | RMkdir d _ | RMknod d _ _ | RSymlink d _ => instantiated None d
  | RLink old new => instantiated (dn_inode <$> k_dents st !! old) new
  | RUnlink d | RRmdir d => dropped d
  | RSetattr d _ => copied d
  | RRename _ _ _ | RSetxattr _ _ _ _ => λ _, True
  end.

Lemma serve_achieves st r : admissible st r → achieves everybody nobody st (serve r) (effect st r).
Proof.
  intros [Hw Hr]. destruct r as [d mode|d mode|d mode rdev|d link|old new|d|d|old new flags|d attr|d name value flags]; cbn [serve effect] in *.
  - by apply create_object_achieves.
  - by apply create_object_achieves.
  - unfold ovl_mknod. case_match; [by apply achieves_err|by apply create_object_achieves].
  - by apply create_object_achieves.
  - destruct Hr as [Hc Ho]. pose proof Ho as (n & Hn & _). destruct (rooted_view _ _ _ Hn) as (v & (eo & o & Heo & _)%view_inv & _).
    rewrite Heo. by apply link_achieves.
  - by apply do_remove_achieves.
  - by apply do_remove_achieves.
  - by apply rename_achieves.
  - apply (achieves_weaken (M := everybody)). by apply setattr_achieves.
  - apply (achieves_weaken (M := everybody)). by apply xattr_op_achieves.
Qed.

Lemma serve_runs st r : admissible st r →
  ∃ err st', serve r st = Ret (err, st') ∧ reach nobody st st' ∧ (err = 0 → effect st r st').
Proof. intros Ha. apply wp_run, serve_achieves; done. Qed.

Lemma admissible_ok st r : admissible st r → ok st.
Proof. intros [_ Hr]. destruct r; apply Hr. Qed.

(** C9: The state of the overlay is well typed at every request.  Each of the
    operations, called as the VFS calls it on a well-formed overlay,
    returns - it follows no NULL pointer, releases no lock it does not hold and
    runs out of no bound - and leaves a well-formed overlay, in which every
    dentry still has its name, parent and lower layers and every inode its
    upper dentry. *)
Theorem requests_well_formed st r :
  admissible st r → ∃ err st', serve r st = Ret (err, st') ∧ ok st' ∧
    (∀ d e, k_dents st !! d = Some e → ∃ e', k_dents st' !! d = Some e' ∧ dn_name e' = dn_name e ∧
       dn_parent e' = dn_parent e ∧ oe_lowerstack (dn_entry e') = oe_lowerstack (dn_entry e)) ∧
    (∀ i o u, k_inodes st !! i = Some o → oi_upper o = Some u →
       ∃ o', k_inodes st' !! i = Some o' ∧ oi_upper o' = Some u ∧ oi_lower o' = oi_lower o).
Proof.
  intros Ha. destruct (serve_runs _ _ Ha) as (err & st' & Hrun & [Hx _] & _). exists err, st'.
  split; [done|]. split; [by eapply ex_ok, admissible_ok|]. split.
  - intros d e He. destruct (ex_dents _ _ Hx _ _ He) as (e' & He' & Hk). exists e'.
    split_and!; [done|apply (dk_name _ _ Hk)|apply (dk_parent _ _ Hk)|apply (eg_stack _ _ (dk_entry _ _ Hk))].
  - intros i o u Ho Hu. destruct (ex_inodes _ _ Hx _ _ Ho) as (o' & Ho' & Hg). exists o'.
    split_and!; [done|by apply (ig_upper Hg)|apply (ig_lower Hg)].
Qed.


(** C40: A successful create, mkdir, mknod or symlink makes its dentry positive,
    with an inode of the overlay that has a real object in the upper layer and
    the mark that the name is there. *)
Theorem creation_instantiates st d mode rdev link :
  0 ≤ h_write (k_held st) → can_create workdir indexdir fuel depth st d →
  ∃ err st', ovl_create_object creator_cred workdir indexdir export_op s_export_op fuel depth d mode rdev link st =
      Ret (err, st') ∧
    (err = 0 → ∃ e o, k_dents st' !! d = Some e ∧ dn_inode e ≠ NULL ∧ k_inodes st' !! dn_inode e = Some o ∧
       is_Some (oi_upper o) ∧ ovl_dentry_has_upper_alias (dn_entry e) = true).
Proof.
  intros Hw Hc. destruct (wp_run _ _ _ (create_object_achieves creator_cred workdir indexdir export_op s_export_op fuel depth
    st d mode rdev link Hc Hw st (reflexivity st))) as (err & st' & Hrun & _ & He).
  exists err, st'. split; [done|]. intros Hr. destruct (He Hr) as (e & o & ? & ? & ? & ? & ? & _). by exists e, o.
Qed.

(** A successful link gives the new name the inode of the old one, which has
    been copied up. *)
Theorem link_shares_inode st old new eo :
  0 ≤ h_write (k_held st) → can_create workdir indexdir fuel depth st new → reachable fuel depth st old →
  k_dents st !! old = Some eo →
  ∃ err st', ovl_link creator_cred workdir indexdir export_op ovl_redirect_max s_export_op fuel depth old new st =
      Ret (err, st') ∧
    (err = 0 → ∃ e o, k_dents st' !! new = Some e ∧ dn_inode e = dn_inode eo ∧ k_inodes st' !! dn_inode eo = Some o ∧
       is_Some (oi_upper o) ∧ ovl_dentry_has_upper_alias (dn_entry e) = true).
Proof.
  intros Hw Hc Ho He. destruct (wp_run _ _ _ (link_achieves creator_cred workdir indexdir export_op s_export_op fuel depth
    ovl_redirect_max st old new eo He Hc Ho Hw st (reflexivity st))) as (err & st' & Hrun & _ & Hi).
  exists err, st'. split; [done|]. intros Hr. destruct (Hi Hr) as (e & o & ? & _ & Hoo & ? & ? & Hip).
  specialize (Hip _ eq_refl). rewrite Hip in Hoo. by exists e, o.
Qed.

(** After a successful unlink or rmdir the dentry is no longer hashed, so the
    next use of its name looks it up again. *)
Theorem removal_unhashes st d is_dir :
  0 ≤ h_write (k_held st) → can_remove workdir indexdir fuel depth st d →
  ∃ err st', ovl_do_remove creator_cred workdir indexdir export_op kmalloc fuel depth d is_dir st = Ret (err, st') ∧
    (err = 0 → ∃ e, k_dents st' !! d = Some e ∧ dn_hashed e = false).
Proof.
  intros Hw Hc. destruct (wp_run _ _ _ (do_remove_achieves creator_cred workdir indexdir export_op kmalloc fuel depth
    st d is_dir Hc Hw st (reflexivity st))) as (err & st' & Hrun & _ & He). by exists err, st'.
Qed.

End requests.

(** ** A root in the upper layer, a file of the lower layer, a free name *)

#[export] Instance layers_dir : DirKern layers := {|
  current_umask _ := 18;
  IS_POSIXACL _ := false;
  posix_acl_create _ _ mode := (0, mode, None, None);
  posix_acl_xattr_size n := 4 + 8 * n;
  posix_acl_to_xattr _ n := (n, []);
  prepare_creds _ _ := Some 1000;
  security_dentry_create_files_as _ _ _ _ _ := 0;
  new_inode _ := Some (Inode 90 9 0 1 0 0 (IAttrs 0 0 0 0 0 0 0), []);
  get_next_ino _ := 77;
  inode_init_owner _ i _ mode := set_i_attrs (IAttrs 0 0 mode 0 0 0 0) i;
  racing_alias _ _ := None;
  read_dir _ _ := LayerIn 0 [] 0 (λ _, None);
|}.
#[export] Instance layers_attr : AttrKern layers := {|
  setattr_prepare _ _ a := (0, a);
  i_writecount _ _ := 0;
  get_write_access w _ := (0, w);
  put_write_access w _ := w;
  posix_acl_from_xattr b := if bool_decide (b = []) then PNull else PPtr (PosixAcl (zlen b) b);
  i_op_set_acl _ := true;
  i_op_fiemap _ := false;
  inode_owner_or_capable _ _ := true;
  in_group_p _ _ := false;
  capable_wrt_inode_uidgid _ _ _ := false;
  get_acl _ _ _ := PNull;
  touch_atime w _ := w;
  filemap_write_and_wait w _ := w;
  fiemap w _ _ _ := (- EOPNOTSUPP, w);
|}.
#[export] Instance layers_dir_laws : DirLaws layers.
Proof. by split. Qed.

Lemma ok_add_negative {W} (st : kst W) d e :
  ok st → k_dents st !! d = None → is_Some (k_dents st !! dn_parent e) → dn_inode e = NULL →
  oe_lowerstack (dn_entry e) = [] → aliased e = false → ok (set_k_dents (<[d := e]> (k_dents st)) st).
Proof.
  intros Hok Hd Hp Hn Hs Ha.
  assert (∀ x, is_Some (k_dents st !! x) → is_Some (<[d := e]> (k_dents st) !! x)) as Hin.
  { intros x [ex Hx]. rewrite lookup_insert_ne by congruence. by eexists. }
  assert (∀ p, has_upper st p → has_upper (set_k_dents (<[d := e]> (k_dents st)) st) p) as Hup.
  { intros p (pv & (pe & po & Hpe & Hpo & ->)%view_inv & Hu). exists (ODentry p (dn_name pe) (dn_flags pe) po (dn_entry pe)).
    split; [|done]. unfold view_at, view. cbn. rewrite lookup_insert_ne by congruence. rewrite Hpe. cbn. by rewrite Hpo. }
  split; cbn; try apply Hok.
  - intros x ex [[<- <-]|[_ Hx]]%lookup_insert_Some; apply Hin; [done|by eapply ok_parent].
  - intros x ex [[<- <-]|[_ Hx]]%lookup_insert_Some; [done|by eapply ok_inode].
  - intros x ex p [[<- <-]|[_ Hx]]%lookup_insert_Some; [rewrite Hs; by intros ?%elem_of_nil|by eapply ok_lower].
  - intros x ex [[<- <-]|[_ Hx]]%lookup_insert_Some; [done|by eapply ok_negative].
  - intros x ex o [[<- <-]|[_ Hx]]%lookup_insert_Some; [by rewrite Hs|by eapply ok_stack].
  - intros x ex [[<- <-]|[_ Hx]]%lookup_insert_Some; [intros Hax; change (aliased e = true) in Hax; by rewrite Ha in Hax|]. intros. apply Hup. by eapply ok_linked.
  - intros x ex o [[<- <-]|[_ Hx]]%lookup_insert_Some; [|by eapply ok_real].
    rewrite Hn, (ok_null _ Hok). done.
Qed.

Module tree.
Definition free : odent := ODent "n" 0 1 NULL (OvlEntry 0 []) true.
Definition base : kst layers := example.state 0 (Z.lor S_IFREG 420).
Definition state : kst layers := set_k_dents (<[3 := free]> (k_dents base)) base.

Lemma tree_ok : ok state.
Proof. apply ok_add_negative; [apply example.state_ok|done|by eexists|done..]. Qed.
Lemma dirs : dirs_ok example.work example.index state.
Proof. by split; [|eexists..]. Qed.
Lemma root_rooted : rooted state 1 0.
Proof.
  apply rooted_root with example.root; [reflexivity..|].
  exists (ODentry 1 "/" 0 example.root_inode (dn_entry example.root)). split; [reflexivity|by eexists].
Qed.
Lemma file_rooted : rooted state 2 1.
Proof. eapply rooted_below; [reflexivity|done|reflexivity|reflexivity|by eexists|apply root_rooted]. Qed.
Lemma root_reachable : reachable 4 3 state 1.
Proof. exists 0%nat. split; [apply root_rooted|lia]. Qed.
Lemma file_reachable : reachable 4 3 state 2.
Proof. exists 1%nat. split; [apply file_rooted|lia]. Qed.
Lemma creates : can_create example.work example.index 4 3 state 3.
Proof. split; [apply tree_ok|]. split; [apply dirs|]. exists free. split_and!; [done|done|apply root_reachable]. Qed.
Lemma removes : can_remove example.work example.index 4 3 state 2.
Proof. split_and!; [apply tree_ok|apply dirs|apply file_reachable]. Qed.
Lemma renames : can_rename example.work example.index 4 3 state 2 3 0.
Proof.
  split_and!; [apply tree_ok|apply dirs|apply file_reachable|].
  exists (example.file 0), free. split_and!; [done|done|apply root_reachable|left; by eexists _, _|done|done].
Qed.

Definition run : dir_request → kernel layers Z :=
  @serve layers _ _ _ _ rblib_id 7 example.work example.index (λ _, None) 256 (λ _ _, true) false true 4 3.
Definition answer (r : outcome (Z * kst layers)) : option Z := match r with Ret (e, _) => Some e | _ => None end.
End tree.

Lemma requests_well_formed_witness :
  ∃ st', tree.run (RRename 2 3 0) tree.state = Ret (0, st') ∧ ok st'.
Proof.
  destruct (@requests_well_formed layers _ _ _ _ _ _ _ rblib_id 7 example.work example.index (λ _, None) 256
    (λ _ _, true) false true 4 3 tree.state (RRename 2 3 0)) as (err & st' & Hrun & Hok & _).
  - split; [done|apply tree.renames].
  - exists st'. split; [|done]. assert (err = 0) as -> by (pose proof (f_equal tree.answer Hrun) as Ha; vm_compute in Ha; by injection Ha). exact Hrun.
Defined.


Lemma creation_instantiates_witness :
  ∃ st' e, tree.run (RMkdir 3 493) tree.state = Ret (0, st') ∧ k_dents st' !! 3 = Some e ∧ dn_inode e ≠ NULL.
Proof.
  destruct (@creation_instantiates layers _ _ _ _ _ _ 7 example.work example.index (λ _, None) false 4 3
    tree.state 3 (Z.lor (Z.land 493 4095) S_IFDIR) 0 "") as (err & st' & Hrun & He); [done|apply tree.creates|].
  assert (err = 0) as -> by (pose proof (f_equal tree.answer Hrun) as Ha; vm_compute in Ha; by injection Ha).
  destruct (He eq_refl) as (e & o & Hd & Hn & _). exists st', e. split; [exact Hrun|]. by split.
Defined.

Lemma link_shares_inode_witness :
  ∃ st' e, tree.run (RLink 2 3) tree.state = Ret (0, st') ∧ k_dents st' !! 3 = Some e ∧ dn_inode e = 2.
Proof.
  destruct (@link_shares_inode layers _ _ _ _ _ _ 7 example.work example.index (λ _, None) 256 false 4 3
    tree.state 2 3 (example.file 0)) as (err & st' & Hrun & He);
    [done|apply tree.creates|apply tree.file_reachable|done|].
  assert (err = 0) as -> by (pose proof (f_equal tree.answer Hrun) as Ha; vm_compute in Ha; by injection Ha).
  destruct (He eq_refl) as (e & o & Hd & Hn & _). exists st', e. split; [exact Hrun|]. by split.
Defined.

Lemma removal_unhashes_witness :
  ∃ st' e, tree.run (RUnlink 2) tree.state = Ret (0, st') ∧ k_dents st' !! 2 = Some e ∧ dn_hashed e = false.
Proof.
  destruct (@removal_unhashes layers _ _ _ _ _ rblib_id 7 example.work example.index (λ _, None) (λ _ _, true) 4 3
    tree.state 2 false) as (err & st' & Hrun & He); [done|apply tree.removes|].
  assert (err = 0) as -> by (pose proof (f_equal tree.answer Hrun) as Ha; vm_compute in Ha; by injection Ha).
  destruct (He eq_refl) as (e & Hd & Hn). exists st', e. split; [exact Hrun|]. by split.
Defined.
