(* ===== verification/Export.v ===== *)
(** export.c: file handles for NFS - which real object is encoded, and how a
    decoded one finds its overlay dentry again. *)

From S2P Require Import Prelude Types Util Under Nlink Fh Redirect Inode Block Readdir Lookup Kernel Work CopyUp Dir DirOps.
From stdpp Require Import gmap fin_sets.
Local Open Scope Z_scope.

Definition OVL_FILEID : Z := 251.

(** The dentry and inode caches of the overlay, and the lookup of a name in an
    overlay directory (lookup_one_len, which ends in ovl_lookup). *)
Class ExportKern (W : Type) : Type := {
  d_find_any_alias : kst W → Z → option Z;
  (** ilookup5 with ovl_inode_test: the inode whose i_private is the key *)
  ilookup5 : kst W → Z → option Z;
  overlay_lookup_one_len : string → Z → kernel W (eptr Z);
  d_alloc_anon_ok : W → bool;
  ovl_alloc_entry_ok : W → bool;
}.

Section export.
Context {W : Type} `{Under W, Kern W, DirKern W, ExportKern W}.
Context (creator_cred : Z) (workdir indexdir : dentry) (export_op : Z → option (bool * bool)) (s_export_op : bool).
(** the root of the overlay *)
Context (s_root : Z) (fuel depth : nat).

#[local] Abbreviation copy_up := (ovl_copy_up creator_cred workdir indexdir export_op fuel depth).

(** ** Encoding *)

Definition ovl_encode_maybe_copy_up (d : Z) : kernel W Z :=
  v ← oview d;
  if bool_decide (is_Some (ovl_dentry_upper v)) then mret 0 else
  ovl_want_write ;? (err ← copy_up d; ovl_drop_write;; mret err).

(** The lowest layer from which a connectable handle can be encoded. *)
Definition ovl_connectable_layer (d : Z) : kernel W Z :=
  v ← oview d;
  if d =? s_root then mret (numlower (od_entry v)) else
  if bool_decide (is_Some (ovl_dentry_upper v)) && negb (ovl_test_flag OVL_INDEX (od_inode v)) then mret 0 else
  p ← deref (lowerstack_at (od_entry v) 0);
  mret (l_idx (op_layer p)).

(** The loop of ovl_connect_layer: up to the topmost ancestor that is
    connectable in the origin's layer. *)
Fixpoint connect_loop (n : nat) (origin_layer next : Z) : kernel W Z :=
  match n with
  | O => nofuel
  | S n =>
      e ← dent next;
      let parent := dn_parent e in
      if parent =? next then mret (- EIO) else
      layer ← ovl_connectable_layer parent;
      if layer <? origin_layer then ovl_encode_maybe_copy_up next else
      pv ← oview parent;
      if ovl_dentry_test_flag OVL_E_CONNECTED (od_entry pv) || ovl_test_flag OVL_INDEX (od_inode pv)
      then mret 0
      else connect_loop n origin_layer parent
  end.

Definition ovl_connect_layer (d : Z) : kernel W Z :=
  v ← oview d;
  if (d =? s_root) || negb (bool_decide (is_Some (ovl_dentry_lower v))) then mret (- EIO) else
  p ← deref (lowerstack_at (od_entry v) 0);
  let origin_layer := l_idx (op_layer p) in
  if ovl_dentry_test_flag OVL_E_CONNECTED (od_entry v) then mret origin_layer else
  err ← connect_loop depth origin_layer d;
  (if err =? 0 then modify_entry d (ovl_dentry_set_flag OVL_E_CONNECTED) else mret tt);;
  mret (if negb (err =? 0) then err else origin_layer).

(** 0 for an upper handle, positive for a lower one. *)
Definition ovl_check_encode_origin (d : Z) : kernel W Z :=
  v ← oview d;
  ofs ← ask k_ofs;
  if negb (bool_decide (is_Some (ovl_dentry_lower v))) then mret 0 else
  if bool_decide (is_Some (ovl_dentry_upper v)) && negb (ovl_test_flag OVL_INDEX (od_inode v)) then mret 0 else
  if d_is_dir_of v && negb (fs_upper_mnt ofs =? NULL) then ovl_connect_layer d
  else mret 1.

(** The result and the bytes copied to the buffer. *)
Definition ovl_d_to_fh (d : Z) (buflen : Z) : kernel W (Z * list byte) :=
  enc_lower ← ovl_check_encode_origin d;
  if enc_lower <? 0 then mret (enc_lower, []) else
  v ← oview d;
  real ← deref (if negb (enc_lower =? 0) then ovl_dentry_lower v else ovl_dentry_upper v);
  fh ← asko (λ st, ovl_encode_real_fh (k_w st) real (enc_lower =? 0));
  match fh with
  | PErr err => mret (err, [])
  | PNull => fault
  | PPtr fh =>
      len ← asko (λ _, fh_len fh);
      if buflen <? len then mret (- EOVERFLOW, []) else
      bytes ← asko (λ _, memread fh 0 len);
      mret (len, bytes)
  end.

(** The type of the handle, [*max_len] and the handle. *)
Definition ovl_dentry_to_fh (d : Z) (max_len : Z) : kernel W (Z * Z * list byte) :=
  '(res, fid) ← ovl_d_to_fh d (Z.shiftl max_len 2);
  if res <=? 0 then mret (FILEID_INVALID, max_len, fid)
  else mret (OVL_FILEID, Z.shiftr (res + 3) 2, fid).

Definition ovl_encode_fh (inode max_len : Z) (parent : option Z) : kernel W (Z * Z * list byte) :=
  if bool_decide (is_Some parent) then mret (FILEID_INVALID, max_len, []) else
  dentry ← ask (λ st, d_find_any_alias st inode);
  match dentry with
  | None => mret (FILEID_INVALID, max_len, [])
  | Some d => ovl_dentry_to_fh d max_len
  end.

(** ** Decoding: the overlay's dentry for a real one *)

(** ovl_get_inode with the inode cache: the inode's pointer *)
Definition get_cached_inode (oip : ovl_inode_params) : kernel W (Z + Z) :=
  st ← get;
  let upper := oip_upperdentry oip in
  let lower := op_dentry <$> oip_lowerpath oip in
  bylower ← asko (λ st, ovl_hash_bylower (k_ofs st) s_export_op upper lower (oip_index oip));
  let key := iptr (if (bylower : bool) then lower ≫= d_inode else upper ≫= d_inode) in
  let cached := if bool_decide (is_Some upper) || bylower
                then ip ← ilookup5 st key; o ← k_inodes st !! ip; Some (ip, o) else None in
  let allocated := match new_inode (k_w st) with
                   | Some (i, stale) => Some (ovl_alloc_inode i stale) | None => None end in
  let iget5 := λ _ : Z, match cached with
                    | Some (_, o) => Some (o, false)
                    | None => (λ o, (o, true)) <$> allocated
                    end in
  r ← asko (λ st, ovl_get_inode s_export_op (get_next_ino (k_w st)) iget5 allocated (k_w st) (k_ofs st) oip);
  match r, cached with
  | inl e, _ => mret (inl e)
  | inr _, Some (ip, _) => mret (inr ip)
  | inr o, None =>
      let ip := fresh (dom (k_inodes st) ∪ {[NULL]}) in
      modify (λ st, set_k_inodes (<[ip := o]> (k_inodes st)) st);;
      mret (inr ip)
  end.

(** An anonymous, disconnected dentry. *)
Definition d_instantiate_anon (oe : ovl_entry) (ip : Z) : kernel W Z :=
  st ← get;
  let d := fresh (dom (k_dents st)) in
  modify (λ st, set_k_dents (<[d := ODent "/" DCACHE_DISCONNECTED d ip oe true]> (k_dents st)) st);;
  mret d.

Definition ovl_obtain_alias (upper_alias : option dentry) (lowerpath : option ovl_path) (index : option dentry)
    : kernel W (eptr Z) :=
  let lower := op_dentry <$> lowerpath in
  let upper := match upper_alias with Some u => Some u | None => index end in
  real ← deref (match upper with Some u => Some u | None => lower end);
  if d_is_dir real then mret (PErr (- EIO)) else
  inode ← get_cached_inode
            (InodeParams false upper lowerpath index (if bool_decide (is_Some lower) then 1 else 0) None None);
  match inode with
  | inl err => mret (PErr err)
  | inr ip =>
      (if bool_decide (is_Some upper) then modify_inode ip (ovl_set_flag OVL_UPPERDATA) else mret tt);;
      dentry ← ask (λ st, d_find_any_alias st ip);
      match dentry with
      | Some d => mret (PPtr d)
      | None =>
          nomem ← ask (λ st, negb (d_alloc_anon_ok (k_w st)) || negb (ovl_alloc_entry_ok (k_w st)));
          if (nomem : bool) then mret (PErr (- ENOMEM)) else
          let oe := OvlEntry 0 (match lowerpath with Some p => [p] | None => [] end) in
          let oe := if bool_decide (is_Some upper_alias) then ovl_dentry_set_upper_alias oe else oe in
          d ← d_instantiate_anon oe ip;
          mret (PPtr d)
      end
  end.

(** The upper or lower dentry that is on layer [idx]. *)
Definition ovl_dentry_real_at (v : odentry) (idx : Z) : option dentry :=
  if idx =? 0 then ovl_dentry_upper v
  else op_dentry <$> List.find (λ p, l_idx (op_layer p) =? idx) (oe_lowerstack (od_entry v)).
Definition is_real (r : option dentry) (real : dentry) : bool :=
  match r with Some r => same_dentry r real | None => false end.

(** release_dentry_name_snapshot follows the name's pointer. *)
Definition release_dentry_name_snapshot (name : option string) : kernel W unit :=
  match name with Some _ => mret tt | None => fault end.

Definition ovl_lookup_real_one (connected : Z) (real : dentry) (layer : ovl_layer) : kernel W (eptr Z) :=
  cv ← oview connected;
  let dir := oi_vfs (od_inode cv) in
  inode_lock dir;;
  cv ← oview connected;
  parent ← ask (λ st, real_parent (k_w st) real);
  '(name, this) ← (
    if negb (is_real (ovl_dentry_real_at cv (l_idx layer)) parent) then mret (None, PErr (- ECHILD)) else
    let name := d_name real in
    this ← overlay_lookup_one_len name connected;
    match this with
    | PErr err => mret (Some name, PErr err)
    | PNull => mret (Some name, PErr (- ENOENT))
    | PPtr d =>
        e ← dent d;
        if dn_inode e =? NULL then mret (Some name, PErr (- ENOENT)) else
        v ← oview d;
        if negb (is_real (ovl_dentry_real_at v (l_idx layer)) real) then mret (Some name, PErr (- ESTALE))
        else mret (Some name, PPtr d)
    end);
  release_dentry_name_snapshot name;;
  inode_unlock dir;;
  mret this.

(** The overlay of the upper layer in ovl_lookup_real_inode and
    ovl_get_dentry: only [mnt] is set. *)
Definition upper_layer (ofs : ovl_fs) : ovl_layer := OvlLayer (fs_upper_mnt ofs) 0 0 0.

(** ovl_lookup_inode and d_find_any_alias: the dentry in the caches *)
Definition find_alias (real : dentry) (is_upper : bool) : kernel W (eptr Z) :=
  ask (λ st, match ovl_lookup_inode (λ k, ip ← ilookup5 st k; k_inodes st !! ip) real is_upper with
             | PErr err => PErr err
             | PNull => PNull
             | PPtr _ => match ip ← ilookup5 st (iptr (d_inode real)); d_find_any_alias st ip with
                         | Some d => PPtr d | None => PNull end
             end).

(** What looking for a real dentry needs to know of the upper layer: the lookup
    itself, one level down. *)
Section lookup_real.
Context (lookup_in_upper : dentry → ovl_layer → kernel W (eptr Z)).

(** A directory of a lower layer that was copied up is found by its index. *)
Definition lookup_real_index (real : dentry) (layer : ovl_layer) : kernel W (eptr Z) :=
  ofs ← ask k_ofs;
  if negb (negb (l_idx layer =? 0) && ovl_indexdir ofs && d_is_dir real) then mret PNull else
  index ← asko (λ st, ovl_lookup_index (k_w st) indexdir None real false);
  match index with
  | PErr err => mret (PErr err)
  | PNull => mret PNull
  | PPtr index =>
      upper ← asko (λ st, ovl_index_upper (k_w st) ofs index);
      match upper with
      | PErr err => mret (PErr err)
      | PNull => mret PNull
      | PPtr upper => lookup_in_upper upper (upper_layer ofs)
      end
  end.

Definition ovl_lookup_real_inode (real : dentry) (layer : ovl_layer) : kernel W (eptr Z) :=
  this ← find_alias real (l_idx layer =? 0);
  this ← match this with PNull => lookup_real_index real layer | _ => mret this end;
  match this with
  | PPtr d =>
      v ← oview d;
      if negb (is_real (ovl_dentry_real_at v (l_idx layer)) real) then mret (PErr (- EIO)) else mret (PPtr d)
  | _ => mret this
  end.

Definition is_root (layer : ovl_layer) (real : dentry) : bool := same_dentry real (mnt_root (l_mnt layer)).

(** The loop of ovl_lookup_real_ancestor. *)
Fixpoint ancestor_loop (n : nat) (next : dentry) (layer : ovl_layer) : kernel W (eptr Z) :=
  match n with
  | O => nofuel
  | S n =>
      parent ← ask (λ st, real_parent (k_w st) next);
      ancestor ← ovl_lookup_real_inode next layer;
      match ancestor with
      | PNull =>
          if is_root layer parent then mret (PPtr s_root) else
          if same_dentry parent next then mret (PErr (- EXDEV)) else
          ancestor_loop n parent layer
      | _ => mret ancestor
      end
  end.
Definition ovl_lookup_real_ancestor (real : dentry) (layer : ovl_layer) : kernel W (eptr Z) :=
  if is_root layer real then mret (PPtr s_root) else ancestor_loop depth real layer.

(** The topmost dentry below [real_connected] on the way to [next]; the
    connected dentry and the child, or an error. *)
Fixpoint topmost_loop (n : nat) (connected : Z) (real_connected : option dentry) (next : dentry) (layer : ovl_layer)
    : kernel W (Z + Z * dentry) :=
  match n with
  | O => nofuel
  | S n =>
      parent ← ask (λ st, real_parent (k_w st) next);
      if is_real real_connected parent then mret (inr (connected, next)) else
      if is_root layer parent then mret (inr (s_root, next)) else
      if same_dentry parent next then mret (inl (- EXDEV)) else
      topmost_loop n connected real_connected parent layer
  end.

(** The loop of ovl_lookup_real. *)
Fixpoint connect_real_loop (n : nat) (connected : Z) (real : dentry) (layer : ovl_layer) : kernel W (eptr Z) :=
  match n with
  | O => nofuel
  | S n =>
      cv ← oview connected;
      let real_connected := ovl_dentry_real_at cv (l_idx layer) in
      if is_real real_connected real then mret (PPtr connected) else
      r ← topmost_loop depth connected real_connected real layer;
      match r with
      | inl err => mret (PErr err)
      | inr (connected, next) =>
          this ← ovl_lookup_real_one connected next layer;
          this ← match this with
                 | PErr err => if err =? - ECHILD then ovl_lookup_real_ancestor real layer else mret this
                 | _ => mret this
                 end;
          match this with
          | PPtr d => connect_real_loop n d real layer
          | PErr err => mret (PErr err)
          | PNull => fault
          end
      end
  end.
Definition lookup_real_with (real : dentry) (layer : ovl_layer) : kernel W (eptr Z) :=
  connected ← ovl_lookup_real_ancestor real layer;
  match connected with
  | PPtr d => connect_real_loop (S depth) d real layer
  | err => mret err
  end.
End lookup_real.

(** A lookup in a lower layer may look once in the upper layer. *)
Fixpoint lookup_real_levels (n : nat) (real : dentry) (layer : ovl_layer) : kernel W (eptr Z) :=
  match n with
  | O => nofuel
  | S n => lookup_real_with (lookup_real_levels n) real layer
  end.
Definition ovl_lookup_real (real : dentry) (layer : ovl_layer) : kernel W (eptr Z) := lookup_real_levels 2 real layer.

(** ** Decoding: file handles *)

Definition ovl_get_dentry (upper : option dentry) (lowerpath : option ovl_path) (index : option dentry)
    : kernel W (eptr Z) :=
  ofs ← ask k_ofs;
  layer ← deref (match upper with Some _ => Some (upper_layer ofs) | None => op_layer <$> lowerpath end);
  real ← deref (match upper, index with
                | Some u, _ => Some u | None, Some i => Some i | None, None => op_dentry <$> lowerpath end);
  if negb (d_is_dir real) then ovl_obtain_alias upper lowerpath index else
  unhashed ← ask (λ st, d_unhashed (k_w st) real);
  if has_any (d_flags real) DCACHE_DISCONNECTED || unhashed then mret (PErr (- ENOENT)) else
  ovl_lookup_real real layer.

Definition ovl_upper_fh_to_d (fh : list byte) : kernel W (eptr Z) :=
  ofs ← ask k_ofs;
  if fs_upper_mnt ofs =? NULL then mret (PErr (- EACCES)) else
  upper ← asko (λ st, ovl_decode_real_fh (k_w st) fh (fs_upper_mnt ofs) true);
  match upper with
  | PPtr upper => ovl_get_dentry (Some upper) None None
  | PErr err => mret (PErr err)
  | PNull => mret PNull
  end.

(** The dentry in the caches for a decoded origin. *)
Definition cached_origin (origin : dentry) : kernel W (eptr Z) :=
  if negb (d_is_dir origin) || negb (has_any (d_flags origin) DCACHE_DISCONNECTED)
  then find_alias origin false else mret PNull.

(** The rest of ovl_lower_fh_to_d: a directory is decoded again, now connected
    and on its layer; an index has to be that of the origin. *)
Definition lower_again (fh : list byte) (origin : ovl_path) (index : option dentry) : kernel W (eptr Z) :=
  r ← (if d_is_dir (op_dentry origin)
       then asko (λ st, ovl_check_origin_fh (k_w st) (k_ofs st) fh true None true) else mret (inr origin));
  match r with
  | inl err => mret (PErr err)
  | inr origin =>
      err ← match index with
            | Some i => on_wo (λ w, ovl_verify_origin w i (op_dentry origin) false)
            | None => mret 0
            end;
      if negb (err =? 0) then mret (PErr err) else ovl_get_dentry None (Some origin) index
  end.

Definition ovl_lower_fh_to_d (fh : list byte) : kernel W (eptr Z) :=
  r ← asko (λ st, ovl_check_origin_fh (k_w st) (k_ofs st) fh false None true);
  match r with
  | inl err => mret (PErr err)
  | inr origin =>
      dentry ← cached_origin (op_dentry origin);
      match dentry with
      | PErr err => mret (PErr err)
      | PPtr d => mret (PPtr d)
      | PNull =>
          ofs ← ask k_ofs;
          index ← (if ovl_indexdir ofs then asko (λ st, ovl_get_index_fh (k_w st) indexdir fh) else mret PNull);
          match index with
          | PErr err => mret (PErr err)
          | _ =>
              let index := match index with PPtr i => Some i | _ => None end in
              match index with
              | Some i =>
                  if d_is_dir i then
                    upper ← asko (λ st, ovl_index_upper (k_w st) ofs i);
                    match upper with
                    | PErr err => mret (PErr err)
                    | PNull => mret PNull
                    | PPtr upper => ovl_get_dentry (Some upper) None None
                    end
                  else lower_again fh origin index
              | None => lower_again fh origin index
              end
          end
      end
  end.

Definition ovl_fh_to_dentry (fid : list byte) (fh_len fh_type : Z) : kernel W (eptr Z) :=
  let len := Z.shiftl fh_len 2 in
  if negb (fh_type =? OVL_FILEID) then mret (PErr (- EINVAL)) else
  err ← asko (λ _, ovl_check_fh_len fid len);
  if negb (err =? 0) then mret (PErr err) else
  flags ← asko (λ _, fh_flags fid);
  if has_any flags OVL_FH_FLAG_PATH_UPPER then ovl_upper_fh_to_d fid else ovl_lower_fh_to_d fid.

(** Connectable handles are not supported. *)
Definition ovl_fh_to_parent (fid : list byte) (fh_len fh_type : Z) : kernel W (eptr Z) := mret (PErr (- EACCES)).
Definition ovl_get_name (parent child : Z) : kernel W Z := mret (- EIO).
Definition ovl_get_parent (d : Z) : kernel W (eptr Z) := mret (PErr (- EIO)).

End export.
