(* ===== verification/ExportSteps.v ===== *)
(** Encoding a file handle - which object is encoded, that a lower directory is
    connected to its layer first, what the handle looks like - and decoding one
    that the overlay has encoded. *)

From S2P Require Import Prelude Types Util Block Readdir Under Nlink Fh FhProps Redirect RedirectProps Inode InodeProps Lookup LookupProps Kernel KernelProps Work CopyUp WorkProps CopyUpSteps CopyUpStages CopyUpProps Dir DirOps DirSteps DirParts DirRemove Attr Export.
From stdpp Require Import gmap.
Local Open Scope Z_scope.

(** Setting a flag of a dentry. *)
Lemma entry_flag_grows f e : entry_grows e (ovl_dentry_set_flag f e).
Proof.
  split; [done|]. intros g Hg. unfold ovl_dentry_test_flag, ovl_dentry_set_flag in *. cbn.
  rewrite Z.setbit_eqb by (by destruct f). by rewrite Hg, orb_true_r.
Qed.
Lemma connected_alias e :
  ovl_dentry_has_upper_alias (ovl_dentry_set_flag OVL_E_CONNECTED e) = ovl_dentry_has_upper_alias e.
Proof. change (Z.testbit (Z.setbit (oe_flags e) 2) 0 = Z.testbit (oe_flags e) 0). by rewrite Z.setbit_neq. Qed.
Lemma connected_flag e : ovl_dentry_test_flag OVL_E_CONNECTED (ovl_dentry_set_flag OVL_E_CONNECTED e) = true.
Proof. change (Z.testbit (Z.setbit (oe_flags e) 2) 2 = true). by apply Z.setbit_eq. Qed.

(** ovl_connectable_layer as a function. *)
Definition connectable (v : odentry) (root : bool) : Z :=
  if root then numlower (od_entry v)
  else if bool_decide (is_Some (ovl_dentry_upper v)) && negb (ovl_test_flag OVL_INDEX (od_inode v)) then 0
  else default 0 (l_idx ∘ op_layer <$> lowerstack_at (od_entry v) 0).
Definition marked (v : odentry) : bool :=
  ovl_dentry_test_flag OVL_E_CONNECTED (od_entry v) || ovl_test_flag OVL_INDEX (od_inode v).

(** The parent of [d], and the layer it can be connected from. *)
Record parent_layer {W} (s_root : Z) (st : kst W) (d : Z) (p : Z) (pv : odentry) (n : Z) : Prop := {
  pl_parent : ∃ e, k_dents st !! d = Some e ∧ dn_parent e = p ∧ p ≠ d;
  pl_layer : view_at st p = Some pv ∧ n ≤ connectable pv (p =? s_root);
}.
(** The ancestors of [d] up to a connected or indexed one, or up to one that
    has just been copied up, can all be connected from layer [n]. *)
Inductive connects {W} (s_root : Z) (st st' : kst W) (n : Z) : Z → Prop :=
| connects_copied d : has_upper st' d → connects s_root st st' n d
| connects_marked d p pv : parent_layer s_root st d p pv n → marked pv = true → connects s_root st st' n d
| connects_up d p pv : parent_layer s_root st d p pv n → connects s_root st st' n p → connects s_root st st' n d.

Section encode.
Context {W : Type} `{Under W, !UnderLaws W, Kern W, !KernLaws W, DirKern W, !DirLaws W, ExportKern W, RbLib}.
Context (creator_cred : Z) (workdir indexdir : dentry) (export_op : Z → option (bool * bool)).
Context (s_root : Z) (fuel depth : nat).
Implicit Types (st : kst W).

#[local] Abbreviation can_change := (can_remove workdir indexdir fuel depth).

Lemma can_change_parent st d e :
  can_change st d → k_dents st !! d = Some e → can_change st (dn_parent e).
Proof. intros (? & ? & ?) He. split_and!; [done..|by eapply reachable_parent]. Qed.

Lemma maybe_copy_up_achieves st d :
  can_change st d → 0 ≤ h_write (k_held st) →
  achieves everybody everybody st
    (ovl_encode_maybe_copy_up creator_cred workdir indexdir export_op fuel depth d) (upper_there d).
Proof.
  intros Hc Hw st1 Hst1. pose proof (can_remove_extends _ _ _ _ _ _ _ (proj1 Hst1) Hc) as Hc1.
  rewrite <- (proj2 Hst1) in Hw. destruct (can_change_hashed _ _ _ _ _ _ Hc1) as (v & Hv & _).
  unfold ovl_encode_maybe_copy_up. eapply wp_oview; [exact Hv|]. case_bool_decide as Hu.
  { apply wp_ret. split; [done|]. intros _. split; [apply Hc1|]. by exists v. }
  eapply (achieves_change workdir indexdir fuel depth st1 d); [done..|apply upper_there_lasting| |done].
  intros st2 _ (Hok & Hdirs & Hr). eapply achieves_mono; [by apply copy_up_achieves|]. by intros st3 (? & ? & _).
Qed.

(** A hashed dentry that is not a pure upper one has a lower. *)
Lemma lower_exists st d v :
  ok st → view_at st d = Some v → hashed st d →
  ovl_dentry_upper v = None ∨ ovl_test_flag OVL_INDEX (od_inode v) = true →
  ∃ p, lowerstack_at (od_entry v) 0 = Some p ∧ ovl_dentry_lower v = Some (op_dentry p).
Proof.
  intros Hok Hv Hh Hl. assert (oe_lowerstack (od_entry v) ≠ []) as Hne.
  { destruct Hl as [Hu|Hi]; [by eapply no_upper_lower|].
    destruct Hh as (e & He & Hh). pose proof Hv as (e0 & o & He0 & Ho & ->)%view_inv. simplify_eq. cbn in *. intros Hs.
    destruct (ok_real _ Hok _ _ _ He Ho Hh Hs) as (_ & _ & Hlo). destruct (ok_index _ Hok _ _ Ho Hi) as ([? ?] & _). congruence. }
  unfold ovl_dentry_lower, numlower, lowerstack_at. destruct (oe_lowerstack (od_entry v)) as [|p l]; [done|].
  exists p. split; [done|]. unfold zlen. cbn [length]. by destruct (Z.eqb_spec (Z.of_nat (S (length l))) 0); [lia|].
Qed.

Lemma connectable_layer_step st d v :
  ok st → view_at st d = Some v → hashed st d →
  ovl_connectable_layer s_root d st = Ret (connectable v (d =? s_root), st).
Proof.
  intros Hok Hv Hh. assert (wp (ovl_connectable_layer s_root d) st (λ r st', (r, st') = (connectable v (d =? s_root), st))) as Hwp.
  { unfold ovl_connectable_layer, connectable. eapply wp_oview; [exact Hv|].
    case_match; [by apply wp_ret|]. destruct (bool_decide _ && negb _) eqn:Eu; [by apply wp_ret|].
    destruct (lower_exists st d v) as (p & Hp & _); [done..| |].
    { apply andb_false_iff in Eu as [Eu%bool_decide_eq_false|Eu%negb_false_iff]; [left|by right].
      destruct (ovl_dentry_upper v); [|done]. destruct Eu. by eexists. }
    rewrite Hp. apply wp_bind, wp_ret, wp_ret. done. }
  apply wp_run in Hwp as (r & st' & Hr & E). rewrite <- E. exact Hr.
Qed.

Lemma wp_connectable st d v {A} (f : Z → kernel W A) Q :
  ok st → view_at st d = Some v → hashed st d →
  wp (f (connectable v (d =? s_root))) st Q → wp (ovl_connectable_layer s_root d ≫= f) st Q.
Proof. intros. apply wp_bind. unfold wp at 1. by erewrite connectable_layer_step. Qed.

(** The loop ends below the root, and connects. *)
Lemma connect_loop_step n : ∀ st next m layer,
  ok st → dirs_ok workdir indexdir st → 0 ≤ h_write (k_held st) →
  rooted st next m → (m < n)%nat → (m < depth)%nat → (m + 1 < fuel)%nat →
  wp (connect_loop creator_cred workdir indexdir export_op s_root fuel depth n layer next) st
    (λ r st', reach everybody st st' ∧ (r = 0 → connects s_root st st' layer next)).
Proof.
  induction n as [|n IH]; intros st next m layer Hok Hdirs Hw Hr Hn Hd Hf; [lia|]. cbn [connect_loop].
  destruct (rooted_view _ _ _ Hr) as (v & Hv & _). pose proof Hv as (e & o & He & Ho & _)%view_inv.
  eapply wp_dent; [done|]. destruct (Z.eqb_spec (dn_parent e) next) as [|Hne]; [by apply wp_ret|].
  assert (∃ m', m = S m' ∧ rooted st (dn_parent e) m') as (m' & -> & Hrp).
  { inversion Hr; simplify_eq. by eexists. }
  destruct (rooted_view _ _ _ Hrp) as (pv & Hpv & _ & Hph). pose proof Hpv as (pe & po & Hpe & Hpo & _)%view_inv.
  eapply wp_connectable; [done..|]. destruct (Z.ltb_spec (connectable pv (dn_parent e =? s_root)) layer) as [|Hge].
  { eapply wp_mono; [apply (maybe_copy_up_achieves st next); [|done|done]|].
    - split_and!; [done..|]. exists (S m'). split_and!; [done|lia..].
    - intros r st' [Hr' Hup]. split; [done|]. intros Hr0. apply connects_copied. by apply Hup. }
  eapply wp_oview; [exact Hpv|].
  assert (parent_layer s_root st next (dn_parent e) pv layer) as Hpl by (split; [by exists e|done]).
  destruct (ovl_dentry_test_flag _ _ || _) eqn:Em.
  { apply wp_ret. split; [done|]. intros _. by eapply connects_marked. }
  eapply wp_mono; [apply (IH st (dn_parent e) m'); by try lia|].
  intros r st' [Hr' Hc]. split; [done|]. intros Hr0. by eapply connects_up, Hc.
Qed.

Lemma connect_layer_step st d v :
  can_change st d → 0 ≤ h_write (k_held st) → view_at st d = Some v → is_Some (ovl_dentry_lower v) →
  wp (ovl_connect_layer creator_cred workdir indexdir export_op s_root fuel depth d) st (λ r st',
    reach everybody st st' ∧ (r = 0 → ∃ p, lowerstack_at (od_entry v) 0 = Some p ∧ l_idx (op_layer p) = 0)).
Proof.
  intros Hc Hw Hv [l Hl]. pose proof Hc as (Hok & Hdirs & m & Hr & Hd & Hf).
  pose proof Hv as (e & o & He & Ho & Ev)%view_inv. unfold ovl_connect_layer.
  eapply wp_oview; [exact Hv|]. destruct (_ || _); [by apply wp_ret|].
  assert (∃ p, lowerstack_at (od_entry v) 0 = Some p) as [p Hp].
  { unfold ovl_dentry_lower in Hl. destruct (_ =? 0); [done|]. destruct (lowerstack_at _ 0) as [p|]; [by exists p|done]. }
  rewrite Hp. apply wp_bind, wp_ret. case_match; [apply wp_ret; split; [done|]; intros; by exists p|].
  eapply wp_seq; [by eapply connect_loop_step|]. intros r st1 [Hr1 _].
  assert (reach everybody st1 st1 → keeps everybody everybody st1
    ((if r =? 0 then modify_entry d (ovl_dentry_set_flag OVL_E_CONNECTED) else mret tt);;
     mret (if negb (r =? 0) then r else l_idx (op_layer p)))
    (λ x, x = 0 → l_idx (op_layer p) = 0)) as Hk.
  { intros _. eapply keeps_bind with (P := any).
    - case_match; [|by apply keeps_ret]. destruct (ex_dents _ _ (proj1 Hr1) _ _ He) as (e1 & He1 & _).
      eapply keeps_modify_entry; [done|by eapply ex_ok, Hok; apply Hr1|apply entry_flag_grows|].
      intros en. rewrite connected_alias. by left.
    - intros _ _. apply keeps_ret. destruct (Z.eqb_spec r 0); cbn [negb]; [done|by intros ?]. }
  eapply wp_mono; [by apply Hk|]. intros x st2 [Hr2 Hx]. split; [by etrans|]. intros. exists p. auto.
Qed.

(** The object whose handle is encoded, and whether it is in the upper layer. *)
Definition encoded_object (v : odentry) : option dentry * bool :=
  if negb (bool_decide (is_Some (ovl_dentry_lower v))) ||
     (bool_decide (is_Some (ovl_dentry_upper v)) && negb (ovl_test_flag OVL_INDEX (od_inode v)))
  then (ovl_dentry_upper v, true) else (ovl_dentry_lower v, false).

(** Lower layers are numbered from 1. *)
Definition numbered (v : odentry) : Prop := ∀ p, p ∈ oe_lowerstack (od_entry v) → 0 < l_idx (op_layer p).

Lemma check_encode_origin_step st d v :
  can_change st d → 0 ≤ h_write (k_held st) → view_at st d = Some v → numbered v →
  wp (ovl_check_encode_origin creator_cred workdir indexdir export_op s_root fuel depth d) st (λ r st',
    reach everybody st st' ∧ (r =? 0) = (encoded_object v).2).
Proof.
  intros Hc Hw Hv Hn. unfold ovl_check_encode_origin, encoded_object. eapply wp_oview; [exact Hv|]. apply wp_ask.
  case_bool_decide as Hl; cbn [negb orb]; [|by apply wp_ret].
  destruct (bool_decide _ && negb _); [by apply wp_ret|]. case_match; [|by apply wp_ret].
  eapply wp_mono; [by apply connect_layer_step|]. intros r st' [Hr Hz]. split; [done|]. cbn.
  destruct (Z.eqb_spec r 0) as [->|]; [|done]. destruct Hz as (p & Hp & Hi); [done|].
  assert (p ∈ oe_lowerstack (od_entry v)) as Hin%Hn; [|lia]. unfold lowerstack_at, zget in Hp.
  rewrite decide_True in Hp by lia. by eapply list_elem_of_lookup_2.
Qed.

Lemma encoded_exists st d v :
  ok st → view_at st d = Some v → hashed st d → ∃ r, (encoded_object v).1 = Some r ∧ is_Some (d_inode r).
Proof.
  intros Hok Hv Hh. destruct (real_dentry _ _ _ Hok Hv Hh) as [(r & Hr & Hi) _].
  unfold encoded_object, ovl_dentry_real in *. pose proof Hv as (e & o & He & Ho & Ev)%view_inv.
  destruct (ovl_dentry_upper v) as [u|] eqn:Eu.
  - simplify_eq. destruct (_ || _) eqn:Eb; [by exists r|]. apply orb_false_iff in Eb as [Eb _].
    apply negb_false_iff, bool_decide_eq_true in Eb as [l Hl]. exists l. split; [done|].
    unfold ovl_dentry_lower, lowerstack_at, numlower in Hl. destruct (oe_lowerstack _) as [|p ls] eqn:El; [done|].
    case_match; [done|]. cbn in Hl. injection Hl as <-. eapply ok_lower; [done|exact He|]. cbn in El. rewrite El. by left.
  - rewrite Hr, bool_decide_true by by eexists. cbn. by exists r.
Qed.

(** What was encoded, in at most [buflen] bytes. *)
Definition handle_of (w : W) (v : odentry) (buflen : Z) (fid : list byte) : Prop :=
  ∃ real, (encoded_object v).1 = Some real ∧ ovl_encode_real_fh w real (encoded_object v).2 = Ret (PPtr fid) ∧
    fh_exact fid ∧ zlen fid ≤ buflen ∧ FH_HDR ≤ zlen fid.

Lemma encoded_later ix v v' r :
  view_grows ix v v' → (encoded_object v).1 = Some r →
  (if (encoded_object v).2 then ovl_dentry_upper v' else ovl_dentry_lower v') = Some r.
Proof.
  intros Hg. unfold encoded_object. case_match; cbn; intros Hr; [by apply (ig_upper (vg_inode _ _ _ Hg))|].
  unfold ovl_dentry_lower, numlower, lowerstack_at in *. by rewrite (eg_stack _ _ (vg_entry _ _ _ Hg)).
Qed.

Lemma d_to_fh_step st d v buflen :
  can_change st d → 0 ≤ h_write (k_held st) → view_at st d = Some v → numbered v →
  wp (ovl_d_to_fh creator_cred workdir indexdir export_op s_root fuel depth d buflen) st (λ r st',
    reach everybody st st' ∧ (r.1 ≤ 0 ∨ r.1 = zlen r.2 ∧ handle_of (k_w st') v buflen r.2)).
Proof.
  intros Hc Hw Hv Hn. unfold ovl_d_to_fh. eapply wp_seq; [by apply check_encode_origin_step|].
  intros r st1 [Hr1 Hz]. destruct (Z.ltb_spec r 0); [apply wp_ret; split; [done|left; cbn; lia]|].
  destruct (can_change_hashed _ _ _ _ _ _ Hc) as (v0 & Hv0 & Hh). rewrite Hv in Hv0. injection Hv0 as <-.
  destruct (encoded_exists _ _ _ (proj1 Hc) Hv Hh) as (real & Hreal & _).
  destruct (extends_view _ _ _ _ (proj1 Hc) (proj1 Hr1) Hv) as (v1 & Hv1 & Hg1).
  eapply wp_oview; [exact Hv1|]. pose proof (encoded_later _ _ _ _ Hg1 Hreal) as Hl. rewrite <- Hz in Hl.
  assert ((if negb (r =? 0) then ovl_dentry_lower v1 else ovl_dentry_upper v1) = Some real) as ->
    by (by destruct (r =? 0)).
  apply wp_bind, wp_ret. apply wp_bind. unfold wp at 1, asko. rewrite Hz.
  destruct (encode_ret (k_w st1) real (encoded_object v).2) as (x & E & Hne & Hneg & Hfh). rewrite E.
  destruct x as [|err|fh]; [done|apply wp_ret; split; [done|left]; cbn; specialize (Hneg err eq_refl); lia|].
  destruct (Hfh fh eq_refl) as (Hx & _ & _ & _). pose proof Hx as [Hchk Hlen].
  apply wp_bind. unfold wp at 1, asko. rewrite Hlen.
  destruct (Z.ltb_spec buflen (zlen fh)); [apply wp_ret; split; [done|by left]|].
  apply wp_bind. unfold wp at 1, asko. rewrite memread_ok by (pose proof (zlen_nonneg fh); lia).
  assert (zslice fh 0 (zlen fh) = fh) as ->.
  { unfold zslice, ztake, zdrop, zlen. cbn. rewrite drop_0, Nat2Z.id. by apply take_ge. }
  apply wp_ret. split; [done|right]. split; [done|]. exists real. split_and!; [done..|].
  destruct (check_fh_len_ret fh (zlen fh)) as (e & He & _ & Hz0); [lia|]. rewrite Hchk in He. injection He as <-. by apply Hz0.
Qed.

End encode.

(** A dentry of the same inode; a directory has only one. *)
Record same_object (x real : dentry) : Prop := {
  so_inode : d_inode x = d_inode real;
  so_dir : d_is_dir real = true → x = real;
  so_weird : ovl_dentry_weird x = ovl_dentry_weird real;
}.

(** exportfs finds the objects of its own handles. *)
Definition decodes {W} `{Under W} (w : W) (real : dentry) : Prop :=
  ∀ m t dw b mnt acc, exportfs_encode_fh w real m = (t, dw, b) → dw ≤ m → 0 ≤ t → t ≠ FILEID_INVALID →
    mnt_sb mnt = d_sb real → (∀ f x, acc = Some f → same_object x real → f x = true) →
    ∃ x, exportfs_decode_fh w mnt (zslice b 0 (4 * dw)) dw t acc = PPtr x ∧ same_object x real.

Lemma same_object_dir x real : same_object x real → d_is_dir x = d_is_dir real.
Proof. intros [Hi _ _]. unfold d_is_dir. by rewrite Hi. Qed.

Section handles.
Context {W : Type} `{Under W, !UnderLaws W}.
Implicit Types (w : W).

(** The parts of an encoded handle. *)
Lemma encode_bytes w real up fh :
  ovl_encode_real_fh w real up = Ret (PPtr fh) →
  ∃ t dw buf, exportfs_encode_fh w real 32 = (t, dw, buf) ∧ 0 ≤ t ∧ t ≠ FILEID_INVALID ∧ 0 ≤ dw ≤ 32 ∧
    zdrop FH_HDR fh = zslice buf 0 (4 * dw) ∧ fh_type fh = Ret t ∧ zlen fh = FH_HDR + 4 * dw.
Proof.
  unfold ovl_encode_real_fh. destruct (kmalloc_ok w MAX_HANDLE_SZ); cbn [negb]; [|done].
  change (Z.shiftr MAX_HANDLE_SZ 2) with 32.
  destruct (exportfs_encode_fh w real 32) as [[t dw] buf] eqn:E.
  destruct (_ || _ || _) eqn:Hbad; [done|]. bdestruct. rewrite !Z.shiftl_mul_pow2 in * by lia. change (2 ^ 2) with 4 in *.
  unfold MAX_HANDLE_SZ, FILEID_INVALID in *. rewrite Z.ltb_ge in *.
  pose proof E as (Hdw & Hbuf & Hty)%law_encode; [|lia].
  destruct (kmalloc_ok w (FH_HDR + dw * 4)); cbn [negb]; [|done].
  rewrite memread_ok by lia. cbn [mbind outcome_bind]. set (fl := if up then _ else _). intros [= <-].
  pose proof (law_uuid (d_sb real)) as Hu. exists t, dw, buf. split; [done|]. split; [lia|]. split; [lia|]. split; [lia|].
  replace (4 * dw) with (dw * 4) by lia. split_and!.
  - unfold zdrop. change (Z.to_nat FH_HDR) with (5 + 16)%nat. cbn [app drop Nat.add].
    apply drop_app_length'. unfold zlen in Hu. lia.
  - unfold fh_type, membyte. cbn [app]. change (zget _ 4) with (Some (zb t)). cbv iota beta. rewrite bz_zb, Z.mod_small by lia. done.
  - pose proof (zlen_zslice buf 0 (dw * 4)) as Hs. unfold FH_HDR, zlen in *. cbn [length app]. rewrite length_app. lia.
Qed.

Lemma decode_encoded w real up fh mnt c :
  decodes w real → ovl_encode_real_fh w real up = Ret (PPtr fh) → mnt_sb mnt = d_sb real →
  ovl_dentry_weird real = false → (c = true → ∀ x, same_object x real → ovl_acceptable w mnt x = true) →
  ∃ x, ovl_decode_real_fh w fh mnt c = Ret (PPtr x) ∧ same_object x real.
Proof.
  intros Hd He Hsb Hw Hacc. pose proof (encode_bytes _ _ _ _ He) as (t & dw & buf & E & Ht0 & Ht & Hdw & Hfid & Hty & Hlen).
  destruct (encode_ret w real up) as (r & Er & _ & _ & Hr). rewrite He in Er. injection Er as <-.
  destruct (Hr fh eq_refl) as ([_ Hl] & Hu & _).
  unfold ovl_decode_real_fh. rewrite Hu. cbn [mbind outcome_bind]. rewrite Hsb, bool_decide_true by done. cbn [negb].
  rewrite Hl. cbn [mbind outcome_bind]. rewrite Hty. cbn [mbind outcome_bind].
  assert (Z.shiftr (zlen fh - FH_HDR) 2 = dw) as ->.
  { rewrite Hlen, Z.shiftr_div_pow2 by lia. change (2 ^ 2) with 4. lia. }
  rewrite Hfid. destruct (Hd 32 t dw buf mnt (if c then Some (ovl_acceptable w mnt) else None)) as (x & -> & Hx); [done|lia|done..| |].
  { destruct c; [|done]. intros f x [= <-] Hx. by apply Hacc. }
  rewrite (so_weird _ _ Hx), Hw. by exists x.
Qed.

(** Handles of a layer's file system are not mistaken for another one's. *)
Definition on_layer (ofs : ovl_fs) (real : dentry) : Prop :=
  (∃ l, l ∈ fs_lower_layers ofs ∧ mnt_sb (l_mnt l) = d_sb real) ∧
  ∀ l, l ∈ fs_lower_layers ofs → s_uuid (mnt_sb (l_mnt l)) = s_uuid (d_sb real) → mnt_sb (l_mnt l) = d_sb real.

Lemma check_origin_encoded w ofs real fh :
  decodes w real → ovl_encode_real_fh w real false = Ret (PPtr fh) → on_layer ofs real → ovl_dentry_weird real = false →
  ∃ l x, ovl_check_origin_fh w ofs fh false None true = Ret (inr (OvlPath l x)) ∧ same_object x real.
Proof.
  intros Hd He [Hin Huni] Hw. destruct (encode_ret w real false) as (r & Er & _ & _ & Hr). rewrite He in Er. injection Er as <-.
  destruct (Hr fh eq_refl) as (Hx & Hu & _). unfold ovl_check_origin_fh.
  assert (∃ l x, decode_layers w fh false (fs_lower_layers ofs) = Ret (Some (PPtr x, l)) ∧ same_object x real) as (l & x & -> & Hxr).
  { revert Hin Huni. induction (fs_lower_layers ofs) as [|l ls IH]; intros (l0 & Hl0 & Hsb) Huni; [by apply elem_of_nil in Hl0|].
    cbn [decode_layers]. destruct (decide (s_uuid (mnt_sb (l_mnt l)) = s_uuid (d_sb real))) as [Hs|Hs].
    - destruct (decode_encoded w real false fh (l_mnt l) false) as (x & -> & Hxr); try done; [by apply Huni; [left|]|].
      cbn [mbind outcome_bind]. by exists l, x.
    - assert (ovl_decode_real_fh w fh (l_mnt l) false = Ret PNull) as ->.
      { unfold ovl_decode_real_fh. rewrite Hu. cbn [mbind outcome_bind]. by rewrite bool_decide_false. }
      cbn [mbind outcome_bind]. apply IH.
      + exists l0. apply elem_of_cons in Hl0 as [->|Hl0]; [by rewrite Hsb in Hs|done].
      + intros l' Hl'. apply Huni. by right. }
  cbn [mbind outcome_bind]. cbn [negb andb]. by exists l, x.
Qed.

End handles.

(** Steps that leave the real file systems alone. *)
Record same_world {W} (st st' : kst W) : Prop := {
  sw_reach : reach everybody st st';
  sw_w : k_w st' = k_w st;
  sw_ofs : k_ofs st' = k_ofs st;
}.
#[export] Instance same_world_preorder {W} : PreOrder (@same_world W).
Proof. split; [by split|]. intros a b c [? ? ?] [? ? ?]. split; [by etrans|congruence..]. Qed.

(** An alias is a dentry of the inode; the lookup of a name in an overlay
    directory fills the dentry cache, and asks to be repeated (-ECHILD) only in
    a path walk under RCU. *)
Class ExportLaws (W : Type) `{ExportKern W} : Prop := {
  law_alias_dents (st st' : kst W) i : k_dents st' = k_dents st → d_find_any_alias st' i = d_find_any_alias st i;
  law_alias (st : kst W) i d : d_find_any_alias st i = Some d → ∃ e, k_dents st !! d = Some e ∧ dn_inode e = i;
  law_lookup_overlay (st : kst W) name d v : ok st → view_at st d = Some v →
    wp (overlay_lookup_one_len name d) st (λ r st', same_world st st' ∧
      (∀ x, r = PPtr x → is_Some (k_dents st' !! x)) ∧ ∀ e, r = PErr e → e ≠ - ECHILD);
}.

Section decode.
Context {W : Type} `{Under W, !UnderLaws W, Kern W, !KernLaws W, DirKern W, !DirLaws W, ExportKern W, !ExportLaws W}.
Context (indexdir : dentry) (s_export_op : bool) (s_root : Z) (depth : nat).
Implicit Types (st : kst W).

(** The inode [ip] is hashed by [real], and [d] is the dentry that is found for it. *)
Record cached st (ip d : Z) (real : dentry) (upper : bool) : Prop := {
  ca_inode : ilookup5 st (iptr (d_inode real)) = Some ip;
  ca_alias : d_find_any_alias st ip = Some d;
  ca_real : ∃ o, k_inodes st !! ip = Some o ∧ S_ISDIR (i_mode (oi_vfs o)) = d_is_dir real ∧
    iptr (if upper then ovl_inode_upper o else ovl_inode_lower o) = iptr (d_inode real);
}.

Lemma find_cached st ip d real x upper {A} (f : eptr Z → kernel W A) Q :
  cached st ip d real upper → same_object x real → wp (f (PPtr d)) st Q → wp (find_alias x upper ≫= f) st Q.
Proof.
  intros [Hi Ha (o & Ho & _ & Hr)] [Hx _ _] Hf. apply wp_ask. unfold ovl_lookup_inode.
  rewrite Hx, Hi. cbn [mbind option_bind]. rewrite Ho. unfold ovl_verify_inode. rewrite andb_false_r. cbn [andb].
  assert (negb (iptr (if upper then ovl_inode_upper o else ovl_inode_lower o) =? iptr (d_inode real)) = false) as Hn
    by (by rewrite Hr, Z.eqb_refl).
  destruct upper; rewrite Hx, Hn; cbn [negb]; by rewrite Ha.
Qed.

(** A lower handle is found through the inode cache. *)
Lemma lower_decodes st ip d real fh :
  decodes (k_w st) real → ovl_encode_real_fh (k_w st) real false = Ret (PPtr fh) → on_layer (k_ofs st) real →
  ovl_dentry_weird real = false → (d_is_dir real = true → has_any (d_flags real) DCACHE_DISCONNECTED = false) →
  cached st ip d real false →
  ovl_lower_fh_to_d indexdir s_export_op s_root depth fh st = Ret (PPtr d, st).
Proof.
  intros Hd He Hl Hw Hc Hca. destruct (check_origin_encoded _ _ _ _ Hd He Hl Hw) as (l & x & Ho & Hx).
  assert (wp (ovl_lower_fh_to_d indexdir s_export_op s_root depth fh) st (λ r st', (r, st') = (PPtr d, st))) as Hwp.
  { unfold ovl_lower_fh_to_d. apply wp_bind. unfold wp at 1, asko. rewrite Ho. cbn [op_dentry].
    unfold cached_origin.
    assert (negb (d_is_dir x) || negb (has_any (d_flags x) DCACHE_DISCONNECTED) = true) as ->.
    { rewrite (same_object_dir _ _ Hx). destruct (d_is_dir real) eqn:Edir; [|done].
      rewrite (so_dir _ _ Hx Edir), Hc by done. done. }
    eapply find_cached; [done|done|]. by apply wp_ret. }
  apply wp_run in Hwp as (r & st' & Hr & E). by rewrite <- E.
Qed.

(** A file of the upper layer: its inode is found when it is looked up by the
    upper dentry. *)
Lemma alias_decodes st ip d real x :
  cached st ip d real true → same_object x real → is_Some (d_inode real) → d_is_dir real = false →
  wp (ovl_obtain_alias s_export_op (Some x) None None) st (λ r _, r = PPtr d).
Proof.
  intros Hca Hx [ri Hri] Hdir. pose proof Hca as [Hi Ha (o & Ho & Hty & Hr)].
  unfold ovl_obtain_alias. apply wp_bind, wp_ret. rewrite (same_object_dir _ _ Hx), Hdir.
  eapply wp_seq with (R := λ r st', r = inr ip ∧ st' = st).
  - unfold get_cached_inode. apply wp_bind. unfold wp at 1, get. cbn [oip_upperdentry oip_lowerpath oip_index fmap option_fmap option_map].
    apply wp_bind. unfold wp at 1, asko. cbn [ovl_hash_bylower]. rewrite bool_decide_true by by eexists. cbn [orb mbind option_bind].
    rewrite (so_inode _ _ Hx), Hi. cbn [mbind option_bind]. rewrite Ho. cbn [mbind option_bind].
    apply wp_bind. unfold wp at 1, asko, ovl_get_inode. cbn [oip_upperdentry oip_lowerpath oip_index fmap option_fmap option_map ovl_hash_bylower mbind outcome_bind].
    rewrite (so_inode _ _ Hx), Hri. cbn [mbind outcome_bind]. rewrite bool_decide_true by by eexists. cbn [orb mbind outcome_bind].
    assert (ovl_verify_inode o None (Some x) true = true) as Hv.
    { unfold ovl_verify_inode. rewrite Hty, Hdir. cbn [andb]. by rewrite (so_inode _ _ Hx), Hr, Z.eqb_refl. }
    rewrite Hv. cbn [negb]. by apply wp_ret.
  - intros r st' [-> ->]. rewrite bool_decide_true by by eexists.
    apply wp_bind. unfold modify_inode, wp at 1. rewrite Ho. apply wp_ask.
    rewrite (law_alias_dents st) by done. rewrite Ha. by apply wp_ret.
Qed.

(** A directory of the upper layer is found by its dentry. *)
Lemma dir_decodes st ip d real v n :
  cached st ip d real true → is_Some (d_inode real) → view_at st d = Some v → ovl_dentry_upper v = Some real →
  (is_root (upper_layer (k_ofs st)) real = true → s_root = d) → (0 < depth)%nat →
  lookup_real_levels indexdir s_root depth (S n) real (upper_layer (k_ofs st)) st = Ret (PPtr d, st).
Proof.
  intros Hca Hri Hv Hu Hroot Hdep. pose proof Hca as [Hi Ha _].
  assert (wp (lookup_real_levels indexdir s_root depth (S n) real (upper_layer (k_ofs st))) st (λ r st', (r, st') = (PPtr d, st))) as Hwp;
    [|apply wp_run in Hwp as (r & st' & Hr & E); by rewrite <- E].
  cbn [lookup_real_levels]. unfold lookup_real_with.
  assert (is_real (ovl_dentry_real_at v 0) real = true) as Hreal.
  { unfold ovl_dentry_real_at. cbn. rewrite Hu. apply Z.eqb_refl. }
  eapply wp_seq with (R := λ r st', r = PPtr d ∧ st' = st).
  - unfold ovl_lookup_real_ancestor. case_match eqn:Er; [apply wp_ret; by rewrite Hroot|].
    destruct depth as [|dep]; [lia|]. cbn [ancestor_loop]. apply wp_ask.
    eapply wp_seq with (R := λ r st', r = PPtr d ∧ st' = st); [|by intros r st' [-> ->]; apply wp_ret].
    unfold ovl_lookup_real_inode. cbn [upper_layer l_idx Z.eqb]. eapply find_cached; [done|by split|].
    apply wp_bind, wp_ret. eapply wp_oview; [exact Hv|]. rewrite Hreal. by apply wp_ret.
  - intros r st' [-> ->]. cbn [connect_real_loop]. eapply wp_oview; [exact Hv|]. cbn [upper_layer l_idx]. rewrite Hreal.
    by apply wp_ret.
Qed.

Lemma upper_decodes st ip d real fh v :
  decodes (k_w st) real → ovl_encode_real_fh (k_w st) real true = Ret (PPtr fh) →
  fs_upper_mnt (k_ofs st) ≠ NULL → mnt_sb (fs_upper_mnt (k_ofs st)) = d_sb real →
  ovl_dentry_weird real = false → is_Some (d_inode real) →
  (d_is_dir real = true → has_any (d_flags real) DCACHE_DISCONNECTED = false ∧
     d_unhashed (k_w st) real = false ∧ is_subdir (k_w st) real (mnt_root (fs_upper_mnt (k_ofs st))) = true) →
  (is_root (upper_layer (k_ofs st)) real = true → s_root = d) → (0 < depth)%nat →
  cached st ip d real true → view_at st d = Some v → ovl_dentry_upper v = Some real →
  wp (ovl_upper_fh_to_d indexdir s_export_op s_root depth fh) st (λ r _, r = PPtr d).
Proof.
  intros Hd He Hmnt Hsb Hw Hri Hdir Hroot Hdep Hca Hv Hu. unfold ovl_upper_fh_to_d. apply wp_ask.
  destruct (Z.eqb_spec (fs_upper_mnt (k_ofs st)) NULL) as [|_]; [done|].
  destruct (decode_encoded (k_w st) real true fh (fs_upper_mnt (k_ofs st)) true) as (x & Hx & Hxr); [done..| |].
  { intros _ x Hxr. unfold ovl_acceptable. rewrite (same_object_dir _ _ Hxr). destruct (d_is_dir real) eqn:Edir; [|done].
    destruct (Hdir eq_refl) as (_ & Hun & Hs). by rewrite (so_dir _ _ Hxr Edir), Hun. }
  apply wp_bind. unfold wp at 1, asko. rewrite Hx. unfold ovl_get_dentry. apply wp_ask.
  apply wp_bind, wp_ret. apply wp_bind, wp_ret. rewrite (same_object_dir _ _ Hxr).
  destruct (d_is_dir real) eqn:Edir; cbn [negb]; [|by eapply alias_decodes].
  destruct (Hdir eq_refl) as (Hdis & Hun & _). rewrite (so_dir _ _ Hxr Edir). apply wp_ask. rewrite Hdis, Hun. cbn [orb].
  unfold wp, ovl_lookup_real. by erewrite dir_decodes.
Qed.

End decode.
