(* ===== verification/ExportProps.v ===== *)
(** Theorems on NFS export: what is encoded, and that the handle leads back. *)

From S2P Require Import Prelude Types Util Under Nlink Fh FhProps Redirect RedirectProps Inode InodeProps Block Readdir Lookup LookupProps Kernel KernelProps Work CopyUp WorkProps CopyUpSteps CopyUpStages CopyUpProps Dir DirSteps DirParts DirOps DirRemove Attr DirProps Export ExportSteps.
From stdpp Require Import gmap.
Local Open Scope Z_scope.

Lemma check_fh_len_mono fh n m : ovl_check_fh_len fh n = Ret 0 → n ≤ m → ovl_check_fh_len fh m = Ret 0.
Proof.
  unfold ovl_check_fh_len. destruct (Z.ltb_spec n FH_HDR), (Z.ltb_spec m FH_HDR); try done; [lia|].
  intros E Hm. revert E. destruct (fh_len fh) as [len| |]; [|done..]. cbn [mbind outcome_bind].
  destruct (Z.ltb_spec n len), (Z.ltb_spec m len); try done. lia.
Qed.

Section export_props.
Context {W : Type} `{Under W, !UnderLaws W, Kern W, !KernLaws W, DirKern W, !DirLaws W, ExportKern W, !ExportLaws W, RbLib}.
Context (creator_cred : Z) (workdir indexdir : dentry) (export_op : Z → option (bool * bool)) (s_export_op : bool).
Context (s_root : Z) (fuel depth : nat).
Implicit Types (st : kst W).

#[local] Abbreviation can_change := (can_remove workdir indexdir fuel depth).

Lemma encode_fh_step st ip d v max_len :
  can_change st d → 0 ≤ h_write (k_held st) → d_find_any_alias st ip = Some d → view_at st d = Some v → numbered v →
  wp (ovl_encode_fh creator_cred workdir indexdir export_op s_root fuel depth ip max_len None) st (λ '(type, len, fid) st',
    reach everybody st st' ∧
    (type = FILEID_INVALID ∧ len = max_len ∨
     type = OVL_FILEID ∧ handle_of (k_w st') v (4 * max_len) fid ∧ zlen fid ≤ 4 * len < zlen fid + 4)).
Proof.
  intros Hc Hw Ha Hv Hn. unfold ovl_encode_fh. rewrite bool_decide_false by by intros []. apply wp_ask. rewrite Ha.
  unfold ovl_dentry_to_fh. eapply wp_seq; [by eapply d_to_fh_step|]. intros [res fid] st1 [Hr1 Hres]. cbn [fst snd] in *.
  destruct (Z.leb_spec res 0); [apply wp_ret; split; [done|by left]|].
  destruct Hres as [|[-> Hh]]; [lia|]. apply wp_ret. split; [done|]. right. split; [done|].
  rewrite Z.shiftl_mul_pow2 in Hh by lia. change (2 ^ 2) with 4 in Hh. replace (4 * max_len) with (max_len * 4) by lia.
  split; [done|]. rewrite Z.shiftr_div_pow2 by lia. change (2 ^ 2) with 4. lia.
Qed.

(** C23: Encoding a file handle returns, with the overlay well formed and what
    the thread held given back.  Either the handle is refused and the caller's
    length stays, or it fits the caller's buffer, its length is rounded up to
    words, it passes the checks of decoding, and it is the handle of the object
    the table in export.c names: the upper one for a pure upper or unindexed
    object, else the topmost lower one, with the flag that tells which. *)
Theorem encode_fh_handle st ip d v max_len :
  can_change st d → 0 ≤ h_write (k_held st) → d_find_any_alias st ip = Some d → view_at st d = Some v → numbered v →
  ∃ type len fid st',
    ovl_encode_fh creator_cred workdir indexdir export_op s_root fuel depth ip max_len None st = Ret (type, len, fid, st') ∧
    ok st' ∧ k_held st' = k_held st ∧
    (type = FILEID_INVALID ∧ len = max_len ∨
     type = OVL_FILEID ∧ zlen fid ≤ 4 * max_len ∧ zlen fid ≤ 4 * len < zlen fid + 4 ∧
     ovl_check_fh_len fid (4 * len) = Ret 0 ∧
     fh_flags fid = Ret (if (encoded_object v).2 then OVL_FH_FLAG_PATH_UPPER else 0) ∧
     ∃ real, (encoded_object v).1 = Some real ∧
       ovl_encode_real_fh (k_w st') real (encoded_object v).2 = Ret (PPtr fid)).
Proof.
  intros Hc Hw Ha Hv Hn. destruct (wp_run _ _ _ (encode_fh_step st ip d v max_len Hc Hw Ha Hv Hn))
    as ([[type len] fid] & st' & Hrun & [Hx Hh] & Hres).
  exists type, len, fid, st'. split; [done|]. split; [by eapply ex_ok, Hc|]. split; [done|].
  destruct Hres as [?|(-> & (real & Hr & He & [Hchk _] & Hfit & _) & Hlen)]; [by left|right].
  split; [done|]. split; [done|]. split; [done|]. split; [by eapply check_fh_len_mono; [|apply Hlen]|]. split; [|by exists real].
  destruct (encode_ret (k_w st') real (encoded_object v).2) as (r & Er & _ & _ & Hfh). rewrite He in Er. injection Er as <-.
  by destruct (Hfh fid eq_refl) as (_ & _ & ? & _).
Qed.

(** What has to hold of an object when its handle comes back: exportfs and the
    caches still know it. *)
Record findable st (ip d : Z) (real : dentry) (upper : bool) : Prop := {
  fi_decodes : decodes (k_w st) real;
  fi_weird : ovl_dentry_weird real = false;
  fi_cached : cached st ip d real upper;
  fi_layer : if upper then fs_upper_mnt (k_ofs st) ≠ NULL ∧ mnt_sb (fs_upper_mnt (k_ofs st)) = d_sb real ∧
                           (is_root (upper_layer (k_ofs st)) real = true → s_root = d)
             else on_layer (k_ofs st) real;
  fi_dir : d_is_dir real = true → has_any (d_flags real) DCACHE_DISCONNECTED = false ∧
             (upper = true → d_unhashed (k_w st) real = false ∧
                is_subdir (k_w st) real (mnt_root (fs_upper_mnt (k_ofs st))) = true);
}.


End export_props.

(** ** The tree of [DirProps], whose layers decode the handle of the lower file *)

#[export] Instance layers_export : ExportKern layers := {|
  d_find_any_alias st i := fst <$> List.find (λ '(_, e), dn_inode e =? i) (map_to_list (k_dents st));
  ilookup5 st k :=
    fst <$> List.find (λ '(_, o), (iptr (ovl_inode_upper o) =? k) || (iptr (ovl_inode_lower o) =? k))
              (map_to_list (k_inodes st));
  overlay_lookup_one_len name d :=
    ask (λ st, match List.find (λ '(_, e), (dn_parent e =? d) && String.eqb (dn_name e) name) (map_to_list (k_dents st)) with
               | Some (x, _) => PPtr x | None => PNull end);
  d_alloc_anon_ok _ := true;
  ovl_alloc_entry_ok _ := true;
|}.
#[export] Instance layers_export_laws : ExportLaws layers.
Proof.
  split; cbn [d_find_any_alias overlay_lookup_one_len layers_export].
  - intros st st' i E. by rewrite E.
  - intros st i d Hd. destruct (List.find _ _) as [[x e]|] eqn:Ef; [|done]. injection Hd as <-.
    apply List.find_some in Ef as [Hin%list_elem_of_In%elem_of_map_to_list Hi%Z.eqb_eq]. by exists e.
  - intros st name d v _ _. split; [done|]. destruct (List.find _ _) as [[x e]|] eqn:Ef; [|done].
    apply List.find_some in Ef as [Hin%list_elem_of_In%elem_of_map_to_list _]. split; [|done]. intros ? [= <-]. by exists e.
Qed.

Module exported.
Definition layer : ovl_layer := OvlLayer 9 1 1 0.
Definition ofs : ovl_fs := OvlFs 5 9 [8] [layer] 255 false true example.config false false 0.
Definition world : layers := Layers ∅ ∅ [example.lower_file] (λ _, x00).
Definition state : kst layers := set_k_ofs ofs (set_k_w world (example.state 0 (Z.lor S_IFREG 420))).
Definition v : odentry := ODentry 2 "f" 0 (example.file_inode (Z.lor S_IFREG 420)) (dn_entry (example.file 0)).

Lemma exported_ok : ok state.
Proof. destruct (example.state_ok 0 (Z.lor S_IFREG 420)) as [a b c d e f g h i j]. by split. Qed.
Lemma changes : can_remove example.work example.index 4 3 state 2.
Proof.
  split; [apply exported_ok|]. split; [by split; [|eexists..]|]. exists 1%nat. split; [|lia].
  eapply rooted_below; [reflexivity|done|reflexivity|reflexivity|by eexists|].
  apply rooted_root with example.root; [reflexivity..|].
  exists (ODentry 1 "/" 0 example.root_inode (dn_entry example.root)). split; [reflexivity|by eexists].
Qed.
Lemma v_numbered : numbered v.
Proof. by intros p ->%list_elem_of_singleton. Qed.
Lemma decodes_file m mnt t acc :
  1 ≤ m → (∀ f, acc = Some f → f example.lower_file = true) →
  exportfs_decode_fh world mnt
    (zslice (ztake (4 * m) (zb 22 :: replicate (Z.to_nat (4 * m)) x00)) 0 4) 1 t acc = PPtr example.lower_file.
Proof.
  intros Hm Hacc. assert (∃ l, zslice (ztake (4 * m) (zb 22 :: replicate (Z.to_nat (4 * m)) x00)) 0 4 = zb 22 :: l) as [l ->].
  { unfold zslice, ztake, zdrop. destruct (Z.to_nat (4 * m)) as [|k] eqn:E; [lia|]. by eexists. }
  cbn. destruct acc as [f|]; [|done]. specialize (Hacc f eq_refl). vm_compute in Hacc. vm_compute. by rewrite Hacc.
Qed.
Definition encode : kernel layers (Z * Z * list byte) :=
  ovl_encode_fh 7 example.work example.index (λ _, None) 1 4 3 2 16 None.
Definition kind (r : outcome (Z * Z * list byte * kst layers)) : option (Z * Z) :=
  match r with Ret (type, len, _, _) => Some (type, len) | _ => None end.
End exported.

Lemma encode_fh_handle_witness :
  ∃ fid st', exported.encode exported.state = Ret (OVL_FILEID, 7, fid, st') ∧ zlen fid ≤ 64 ∧ fh_flags fid = Ret 0.
Proof.
  destruct (encode_fh_handle 7 example.work example.index (λ _, None) 1 4 3 exported.state 2 2 exported.v 16)
    as (type & len & fid & st' & Hrun & _ & _ & Hres);
    [apply exported.changes|done|reflexivity|reflexivity|apply exported.v_numbered|].
  pose proof (f_equal exported.kind Hrun) as Hk. vm_compute in Hk. injection Hk as <- <-.
  destruct Hres as [[? _]|(_ & Hfit & _ & _ & Hfl & _)]; [done|]. exists fid, st'. split; [exact Hrun|]. by split.
Defined.

