(* ===== verification/Clean.v ===== *)
(** readdir.c and super.c: cleaning and creating the work and the index
    directory when the overlay is mounted, and that this returns, whatever the
    kernel answers, and gives back the locks. *)

From S2P Require Import Prelude Types Util Readdir Under Fh FhProps Redirect RedirectProps Kernel KernelProps Work CopyUp WorkProps Dir.
Local Open Scope Z_scope.

Section clean.
Context {W : Type} `{Under W, Kern W, DirKern W, RbLib}.
(** kmalloc of a directory cache entry *)
Context (kmalloc : list centry → string → bool).

(** ovl_dir_read of one real directory with ovl_fill_merge: the error and the
    entries read. *)
Definition read_entries (d : dentry) : kernel W (Z * list centry) :=
  ask (λ st, let '(err, r) := ovl_dir_read false (ovl_fill_merge None kmalloc) (read_dir (k_w st) d) rdd_empty in
             (err, rdd_entries r)).
Definition dot_or_dotdot (p : centry) : bool := is_dot (ce_name p) || is_dotdot (ce_name p).

(** The loop over the entries: [clean] runs on each one that exists. *)
Fixpoint cleanup_loop (clean : dentry → kernel W unit) (d : dentry) (l : list centry) : kernel W unit :=
  match l with
  | [] => mret tt
  | p :: l =>
      (if dot_or_dotdot p then mret tt else
       x ← lookup_locked (ce_name p) d;
       match x with
       | PErr _ => mret tt
       | PNull => fault
       | PPtr x => if bool_decide (is_Some (d_inode x)) then clean x else mret tt
       end);;
      cleanup_loop clean d l
  end.

Definition ovl_workdir_cleanup_recurse (cleanup : inode → dentry → Z → kernel W unit) (d : dentry) (level : Z)
    : kernel W unit :=
  dir ← deref (d_inode d);
  '(err, l) ← read_entries d;
  if negb (err =? 0) then mret tt else
  inode_lock dir;;
  cleanup_loop (λ x, cleanup dir x level) d l;;
  inode_unlock dir;;
  mret tt.

(** [dir] is locked; a directory that is not empty is emptied without the
    lock.  The levels are 0 and 1, so three rounds are enough. *)
Fixpoint ovl_workdir_cleanup (n : nat) (dir : inode) (d : dentry) (level : Z) : kernel W unit :=
  match n with
  | O => nofuel
  | S n =>
      if negb (d_is_dir d) || (1 <? level) then ovl_cleanup dir d;; mret tt else
      err ← ovl_do_rmdir dir d;
      if err =? 0 then mret tt else
      inode_unlock dir;;
      ovl_workdir_cleanup_recurse (ovl_workdir_cleanup n) d (level + 1);;
      inode_lock dir;;
      ovl_cleanup dir d;; mret tt
  end.
Definition cleanup_rounds : nat := 3.

(** What becomes of an index entry that ovl_verify_index answered [err] for. *)
Inductive index_action : Type := IKeep | IClean | IWhiteout | IAbort.
Definition index_action_of (err : Z) (nfs_export : bool) : index_action :=
  if err =? 0 then IKeep
  else if err =? - ESTALE then IClean
  else if negb (err =? - ENOENT) then IAbort
  else if nfs_export then IWhiteout else IClean.

Fixpoint indexdir_cleanup_loop (indexdir : dentry) (dir : inode) (l : list centry) (err : Z) : kernel W Z :=
  match l with
  | [] => mret err
  | p :: l =>
      if dot_or_dotdot p then indexdir_cleanup_loop indexdir dir l err else
      index ← lookup_locked (ce_name p) indexdir;
      match index with
      | PErr err => mret err
      | PNull => fault
      | PPtr index =>
          err ← asko (λ st, ovl_verify_index (k_w st) (k_ofs st) index);
          nfs ← ask (λ st, c_nfs_export (fs_config (k_ofs st)));
          err ← match index_action_of err nfs with
                | IKeep => mret 0
                | IClean => ovl_cleanup dir index
                | IWhiteout => ovl_cleanup_and_whiteout indexdir dir index
                | IAbort => mret err
                end;
          if negb (err =? 0) then mret err else indexdir_cleanup_loop indexdir dir l err
      end
  end.
Definition ovl_indexdir_cleanup (indexdir : dentry) : kernel W Z :=
  dir ← deref (d_inode indexdir);
  '(err, l) ← read_entries indexdir;
  if negb (err =? 0) then mret err else
  inode_lock dir;;
  err ← indexdir_cleanup_loop indexdir dir l err;
  inode_unlock dir;;
  mret err.

(** ** super.c: ovl_workdir_create *)

Definition OVL_WORKDIR_NAME : string := "work".
Definition OVL_INDEXDIR_NAME : string := "index".

(** Removing a POSIX ACL xattr: these answers are as good as success. *)
Definition acl_removed (err : Z) : bool := (err =? 0) || (err =? - ENODATA) || (err =? - EOPNOTSUPP).

(** The new directory without ACLs and mode bits. *)
Definition workdir_prepare (work : dentry) : kernel W Z :=
  err ← on_w (λ w, vfs_removexattr w work XATTR_NAME_POSIX_ACL_DEFAULT);
  if negb (acl_removed err) then mret err else
  err ← on_w (λ w, vfs_removexattr w work XATTR_NAME_POSIX_ACL_ACCESS);
  if negb (acl_removed err) then mret err else
  i ← deref (d_inode work);
  inode_lock i;;
  err ← notify work (IAttr ATTR_MODE (IAttrs 0 0 S_IFDIR 0 0 0 0));
  inode_unlock i;;
  mret err.

(** The lookup, which is tried once more after a clean-up. *)
Fixpoint workdir_try (n : nat) (workbasedir : dentry) (dir : inode) (name : string) (persist retried : bool)
    : kernel W (option dentry) :=
  match n with
  | O => nofuel
  | S n =>
      work ← lookup_locked name workbasedir;
      match work with
      | PErr _ => mret None
      | PNull => fault
      | PPtr w =>
          if bool_decide (is_Some (d_inode w)) then
            if (retried : bool) then mret None else
            if (persist : bool) then mret (Some w) else
            ovl_workdir_cleanup cleanup_rounds dir w 0;;
            workdir_try n workbasedir dir name persist true
          else
            work ← ovl_create_real dir (PPtr w) (OVL_CATTR S_IFDIR);
            match work with
            | PErr _ => mret None
            | PNull => fault
            | PPtr w => err ← workdir_prepare w; mret (if err =? 0 then Some w else None)
            end
      end
  end.
Definition ovl_workdir_create (workbasedir : dentry) (name : string) (persist : bool) : kernel W (option dentry) :=
  dir ← deref (d_inode workbasedir);
  inode_lock dir;;
  work ← workdir_try 2 workbasedir dir name persist false;
  inode_unlock dir;;
  mret work.

End clean.

Section quiet_locks.
Context {W : Type}.
Implicit Types (st : kst W).

Definition take_lock (l : lock) st : kst W := set_k_held (with_locks (l :: h_locks (k_held st)) (k_held st)) st.

Lemma quiet_outside st0 h st : quiet (set_k_held h st0) st → quiet st0 (set_k_held (k_held st0) st).
Proof. by intros [? ? ? _]. Qed.
Lemma quiet_inside h st0 st : quiet st0 st → quiet (set_k_held h st0) (set_k_held h st).
Proof. by intros [? ? ? _]. Qed.

(** A body that runs with a lock, and one that runs without it. *)
Lemma quietly_locked st0 l {A B} (m : kernel W A) (k : A → kernel W B) P Q :
  quietly (take_lock l st0) m P → (∀ a, P a → quietly st0 (k a) Q) →
  quietly st0 (lock_ l;; a ← m; unlock_ l;; k a) Q.
Proof.
  intros Hm Hk st Hst. apply wp_locked. rewrite (q_held _ _ Hst).
  eapply wp_mono; [apply Hm; by apply quiet_inside|]. intros a st1 [Hq1 HP].
  split; [by rewrite (q_held _ _ Hq1)|]. rewrite <- (q_held _ _ Hst).
  assert (quiet st (set_k_held (k_held st) st1)) as Hq by (by eapply quiet_outside).
  eapply wp_mono; [apply Hk; [done|by etrans]|]. intros b st2 [? ?]. split; [by etrans|done].
Qed.
Lemma quietly_unlocked st0 l ls {A B} (m : kernel W A) (k : A → kernel W B) P Q :
  h_locks (k_held st0) = l :: ls → quietly (set_k_held (with_locks ls (k_held st0)) st0) m P →
  (∀ a, P a → quietly st0 (k a) Q) → quietly st0 (unlock_ l;; a ← m; lock_ l;; k a) Q.
Proof.
  intros Hl Hm Hk st Hst. pose proof (q_held _ _ Hst) as Hh. apply wp_bind, wp_unlock with ls.
  { rewrite Hh, Hl. apply unlock1_head. }
  apply wp_bind. rewrite Hh. eapply wp_mono; [apply Hm; by apply quiet_inside|]. intros a st1 [Hq1 HP].
  apply wp_bind, wp_lock. pose proof (q_held _ _ Hq1) as E. cbn in E. rewrite E. cbn. rewrite <- Hl.
  assert (set_k_held (with_locks (h_locks (k_held st0)) (with_locks ls (k_held st0))) st1 = set_k_held (k_held st) st1) as ->
    by (rewrite Hh; by destruct (k_held st0)).
  assert (quiet st (set_k_held (k_held st) st1)) as Hq by (by eapply quiet_outside).
  eapply wp_mono; [apply Hk; [done|by etrans]|]. intros b st2 [? ?]. split; [by etrans|done].
Qed.
End quiet_locks.

Section clean.
Context {W : Type} `{Under W, !UnderLaws W, Kern W, !KernLaws W, DirKern W, RbLib}.
Context (kmalloc : list centry → string → bool).
Implicit Types (st : kst W).

Lemma head_locked st dir ls : h_locks (k_held st) = LInode (i_ptr dir) :: ls → locked st dir.
Proof. intros Hl. unfold locked. rewrite Hl. by left. Qed.

Lemma dir_inode d : d_is_dir d = true → ∃ i, d_inode d = Some i.
Proof. unfold d_is_dir. destruct (d_inode d) as [i|]; [by eexists|done]. Qed.

Lemma read_entries_quiet st0 d : quietly st0 (read_entries kmalloc d) any.
Proof. by apply quietly_ask. Qed.

Lemma cleanup_loop_quiet clean d i l : ∀ st0,
  d_inode d = Some i → locked st0 i → (∀ x, is_Some (d_inode x) → quietly st0 (clean x) any) →
  quietly st0 (cleanup_loop clean d l) any.
Proof.
  intros st0 Hi Hl Hc. induction l as [|p l IH]; cbn [cleanup_loop]; [by apply quietly_ret|].
  eapply quietly_bind with (P := any); [|by intros _ _].
  case_match; [by apply quietly_ret|]. eapply quietly_bind; [by eapply lookup_locked_quiet|].
  intros [|e|x] [Hn _]; [done|by apply quietly_ret|]. case_bool_decide; [by apply Hc|by apply quietly_ret].
Qed.

(** The recursion over levels 0 and 1 ends. *)
Lemma workdir_cleanup_quiet n : ∀ st0 dir d level ls,
  h_locks (k_held st0) = LInode (i_ptr dir) :: ls → 0 ≤ level → (Z.to_nat (2 - level) < n)%nat →
  quietly st0 (ovl_workdir_cleanup kmalloc n dir d level) any.
Proof.
  induction n as [|n IH]; intros st0 dir d level ls Hls Hlv Hn; [lia|]. cbn [ovl_workdir_cleanup].
  pose proof (head_locked _ _ _ Hls) as Hl.
  destruct (negb (d_is_dir d) || _) eqn:Eb.
  { eapply quietly_bind; [by apply cleanup_quiet|]. intros _ _. by apply quietly_ret. }
  apply orb_false_iff in Eb as [Hd%negb_false_iff Hlt%Z.ltb_ge]. destruct (dir_inode _ Hd) as [i Hi].
  eapply quietly_bind with (P := any); [by apply quietly_in_dir|]. intros err _. case_match; [by apply quietly_ret|].
  eapply quietly_unlocked with (P := any); [done| |intros _ _; eapply quietly_bind; [by apply cleanup_quiet|]; intros _ _; by apply quietly_ret].
  unfold ovl_workdir_cleanup_recurse. rewrite Hi. eapply quietly_bind with (P := eq i); [by apply quietly_ret|].
  intros _ <-. eapply quietly_bind; [apply read_entries_quiet|]. intros [e l] _. case_match; [by apply quietly_ret|].
  eapply quietly_locked with (P := any); [|intros _ _; by apply quietly_ret].
  eapply cleanup_loop_quiet; [exact Hi|by left|]. intros x _. eapply IH; [done|lia|lia].
Qed.

Lemma workdir_prepare_quiet st0 work : is_Some (d_inode work) → quietly st0 (workdir_prepare work) any.
Proof.
  intros [i Hi]. unfold workdir_prepare. do 2 (eapply quietly_bind with (P := any); [by apply quietly_on_w|]; intros ? _; case_match; [by apply quietly_ret|]).
  rewrite Hi. eapply quietly_bind with (P := eq i); [by apply quietly_ret|]. intros _ <-.
  eapply quietly_locked with (P := any); [|intros ? _; by apply quietly_ret]. eapply notify_quiet; [done|by left].
Qed.

Definition positive_opt (r : option dentry) : Prop := ∀ w, r = Some w → is_Some (d_inode w).

Lemma workdir_try_quiet n : ∀ st0 base dir name persist retried ls,
  d_inode base = Some dir → h_locks (k_held st0) = LInode (i_ptr dir) :: ls → (1 ≤ n)%nat → retried = true ∨ (2 ≤ n)%nat →
  quietly st0 (workdir_try kmalloc n base dir name persist retried) positive_opt.
Proof.
  induction n as [|n IH]; intros st0 base dir name persist retried ls Hb Hls Hn Hr; [lia|]. cbn [workdir_try].
  pose proof (head_locked _ _ _ Hls) as Hl.
  eapply quietly_bind; [by eapply lookup_locked_quiet|]. intros [|e|w] [Hne _]; [done|by apply quietly_ret|].
  case_bool_decide as Hw.
  - destruct retried; [by apply quietly_ret|]. destruct persist; [apply quietly_ret; by intros ? [= <-]|].
    eapply quietly_bind; [eapply workdir_cleanup_quiet; [done|lia|unfold cleanup_rounds; lia]|]. intros _ _.
    eapply IH; [done|done| |by left]. destruct Hr; [done|lia].
  - eapply quietly_bind; [by apply create_real_quiet|]. intros [|e|x] [[Hx _] Hp]; [done|by apply quietly_ret|].
    eapply quietly_bind; [apply workdir_prepare_quiet; by apply Hp|]. intros err _. apply quietly_ret.
    case_match; [|done]. intros ? [= <-]. by apply Hp.
Qed.

Lemma workdir_create_quiet st0 base name persist :
  is_Some (d_inode base) → quietly st0 (ovl_workdir_create kmalloc base name persist) positive_opt.
Proof.
  intros [dir Hd]. unfold ovl_workdir_create. rewrite Hd. eapply quietly_bind with (P := eq dir); [by apply quietly_ret|].
  intros _ <-. eapply quietly_locked; [|intros r Hr; by apply quietly_ret].
  eapply workdir_try_quiet; [done|done|lia|right; lia].
Qed.

Lemma whiteout_quiet st0 wd wi : d_inode wd = Some wi → locked st0 wi → quietly st0 (ovl_whiteout wd) valid_ptr.
Proof.
  intros Hw Hl. unfold ovl_whiteout. rewrite Hw. eapply quietly_bind with (P := eq wi); [by apply quietly_ret|].
  intros _ <-. eapply quietly_bind; [by eapply lookup_temp_quiet|].
  intros [|e|x] Hx; [by destruct Hx|apply quietly_ret; split; [done|]; apply Hx|].
  eapply quietly_bind with (P := any); [by apply quietly_in_dir|]. intros [err y] _. apply quietly_ret.
  destruct (Z.eqb_spec err 0); cbn [negb]; auto with quiet.
Qed.
Lemma cleanup_and_whiteout_quiet st0 wd wi dir d :
  d_inode wd = Some wi → locked st0 wi → locked st0 dir → quietly st0 (ovl_cleanup_and_whiteout wd dir d) any.
Proof.
  intros Hwd Hw Hd. unfold ovl_cleanup_and_whiteout. rewrite Hwd. eapply quietly_bind with (P := eq wi); [by apply quietly_ret|].
  intros _ <-. eapply quietly_bind; [by eapply whiteout_quiet|].
  intros [|e|x] Hx; [by destruct Hx|by apply quietly_ret|].
  eapply quietly_bind; [by apply rename_quiet|]. intros err _. case_match.
  - eapply quietly_bind; [by apply cleanup_quiet|]. intros _ _. by apply quietly_ret.
  - eapply quietly_bind with (P := any); [|intros; by apply quietly_ret]. case_match; [|by apply quietly_ret].
    eapply quietly_bind; [by apply cleanup_quiet|]. intros _ _. by apply quietly_ret.
Qed.

Lemma indexdir_loop_quiet indexdir dir l : ∀ st0 err,
  d_inode indexdir = Some dir → locked st0 dir → quietly st0 (indexdir_cleanup_loop indexdir dir l err) any.
Proof.
  induction l as [|p l IH]; intros st0 err Hi Hl; cbn [indexdir_cleanup_loop]; [by apply quietly_ret|].
  case_match; [by apply IH|]. eapply quietly_bind; [by eapply lookup_locked_quiet|].
  intros [|e|x] [Hn _]; [done|by apply quietly_ret|].
  eapply quietly_bind with (P := any).
  { apply quietly_asko. intros st _. destruct (verify_index_ret (k_w st) (k_ofs st) x) as [r Hr]. by exists r. }
  intros v _. eapply quietly_bind with (P := any); [by apply quietly_ask|]. intros nfs _.
  eapply quietly_bind with (P := any).
  { case_match; [by apply quietly_ret|by apply cleanup_quiet|by eapply cleanup_and_whiteout_quiet|by apply quietly_ret]. }
  intros a _. case_match; [by apply quietly_ret|by apply IH].
Qed.
Lemma indexdir_cleanup_quiet st0 indexdir :
  is_Some (d_inode indexdir) → quietly st0 (ovl_indexdir_cleanup kmalloc indexdir) any.
Proof.
  intros [dir Hd]. unfold ovl_indexdir_cleanup. rewrite Hd. eapply quietly_bind with (P := eq dir); [by apply quietly_ret|].
  intros _ <-. eapply quietly_bind; [apply read_entries_quiet|]. intros [e l] _. case_match; [by apply quietly_ret|].
  eapply quietly_locked with (P := any); [|intros a _; by apply quietly_ret].
  apply indexdir_loop_quiet; [done|by left].
Qed.

End clean.
