(* ===== verification/MountState.v ===== *)
(** super.c: what a mount works on - the super block, the fields of struct
    ovl_fs that only mounting and unmounting use, the cache of trap inodes, the
    in-use bits of directories, and a ledger of the references it holds. *)

From S2P Require Import Prelude Types Util Under Options Inode Kernel.
From stdpp Require Import gmap.
Local Open Scope Z_scope.

(** ** State *)

(** References: a vfsmount (mntput), a dentry (dput), a trap inode (iput), an
    anonymous device number (free_anon_bdev), credentials (put_cred). *)
Inductive ref : Type := RMnt (m : Z) | RDentry (d : Z) | RTrap (i : Z) | RDev (dev : Z) | RCred (c : Z).
#[export] Instance ref_eq_dec : EqDecision ref.
Proof. solve_decision. Defined.

(** struct ovl_fs, the fields that [ovl_fs] leaves out; the four traps are
    those of the upper directory, the work base directory, the work directory
    and the index directory. *)
Record mount_fs : Type := MountFs {
  mf_creator_cred : option Z;
  mf_workbasedir : option dentry;
  mf_workdir : option dentry;
  mf_indexdir : option dentry;
  mf_upperdir_locked : bool;
  mf_workdir_locked : bool;
  mf_upperdir_trap : option Z;
  mf_workbasedir_trap : option Z;
  mf_workdir_trap : option Z;
  mf_indexdir_trap : option Z;
  mf_layer_traps : list Z;          (* lower_layers[i].trap *)
  mf_lower_devs : list Z;           (* lower_fs[i].pseudo_dev *)
}.
Definition mount_fs_zero : mount_fs := MountFs None None None None false false None None None None [] [].

(** struct super_block *)
Record super_block : Type := SuperBlock {
  s_stack_depth : Z;
  s_rdonly : bool;                  (* SB_RDONLY in s_flags *)
  s_reval : bool;                   (* s_d_op is ovl_reval_dentry_operations *)
  s_export : bool;                  (* s_export_op is set *)
  s_root : option Z;
}.
Definition super_zero : super_block := SuperBlock 0 false false false None.

Record mst (W : Type) : Type := MSt {
  m_k : kst W;
  m_fs : mount_fs;
  m_sb : super_block;
  m_cache : gmap Z Z;               (* trap inodes of the inode cache, by real inode *)
  m_istate : gmap Z Z;              (* i_state of real inodes *)
  m_bdevs : gset Z;                 (* anonymous device numbers in use *)
  m_refs : list ref;
}.
Arguments MSt {W}. Arguments m_k {W}. Arguments m_fs {W}. Arguments m_sb {W}. Arguments m_cache {W}.
Arguments m_istate {W}. Arguments m_bdevs {W}. Arguments m_refs {W}.

Section setters.
Context {W : Type}.
Implicit Types (st : mst W).
Definition set_m_k k st : mst W := MSt k (m_fs st) (m_sb st) (m_cache st) (m_istate st) (m_bdevs st) (m_refs st).
Definition set_m_fs f st : mst W := MSt (m_k st) f (m_sb st) (m_cache st) (m_istate st) (m_bdevs st) (m_refs st).
Definition set_m_sb s st : mst W := MSt (m_k st) (m_fs st) s (m_cache st) (m_istate st) (m_bdevs st) (m_refs st).
Definition set_m_cache c st : mst W := MSt (m_k st) (m_fs st) (m_sb st) c (m_istate st) (m_bdevs st) (m_refs st).
Definition set_m_istate i st : mst W := MSt (m_k st) (m_fs st) (m_sb st) (m_cache st) i (m_bdevs st) (m_refs st).
Definition set_m_bdevs b st : mst W := MSt (m_k st) (m_fs st) (m_sb st) (m_cache st) (m_istate st) b (m_refs st).
Definition set_m_refs r st : mst W := MSt (m_k st) (m_fs st) (m_sb st) (m_cache st) (m_istate st) (m_bdevs st) r.
Definition m_ofs st : ovl_fs := k_ofs (m_k st).
Definition m_w st : W := k_w (m_k st).
Definition set_m_ofs o st : mst W := set_m_k (set_k_ofs o (m_k st)) st.
End setters.

Definition fs_set_cred c f : mount_fs := MountFs c (mf_workbasedir f) (mf_workdir f) (mf_indexdir f) (mf_upperdir_locked f) (mf_workdir_locked f) (mf_upperdir_trap f) (mf_workbasedir_trap f) (mf_workdir_trap f) (mf_indexdir_trap f) (mf_layer_traps f) (mf_lower_devs f).
Definition fs_set_workbasedir d f : mount_fs := MountFs (mf_creator_cred f) d (mf_workdir f) (mf_indexdir f) (mf_upperdir_locked f) (mf_workdir_locked f) (mf_upperdir_trap f) (mf_workbasedir_trap f) (mf_workdir_trap f) (mf_indexdir_trap f) (mf_layer_traps f) (mf_lower_devs f).
Definition fs_set_workdir d f : mount_fs := MountFs (mf_creator_cred f) (mf_workbasedir f) d (mf_indexdir f) (mf_upperdir_locked f) (mf_workdir_locked f) (mf_upperdir_trap f) (mf_workbasedir_trap f) (mf_workdir_trap f) (mf_indexdir_trap f) (mf_layer_traps f) (mf_lower_devs f).
Definition fs_set_indexdir d f : mount_fs := MountFs (mf_creator_cred f) (mf_workbasedir f) (mf_workdir f) d (mf_upperdir_locked f) (mf_workdir_locked f) (mf_upperdir_trap f) (mf_workbasedir_trap f) (mf_workdir_trap f) (mf_indexdir_trap f) (mf_layer_traps f) (mf_lower_devs f).
Definition fs_set_locked u w f : mount_fs := MountFs (mf_creator_cred f) (mf_workbasedir f) (mf_workdir f) (mf_indexdir f) u w (mf_upperdir_trap f) (mf_workbasedir_trap f) (mf_workdir_trap f) (mf_indexdir_trap f) (mf_layer_traps f) (mf_lower_devs f).
Definition fs_set_traps u b w i f : mount_fs := MountFs (mf_creator_cred f) (mf_workbasedir f) (mf_workdir f) (mf_indexdir f) (mf_upperdir_locked f) (mf_workdir_locked f) u b w i (mf_layer_traps f) (mf_lower_devs f).
Definition fs_add_layer_trap t f : mount_fs := MountFs (mf_creator_cred f) (mf_workbasedir f) (mf_workdir f) (mf_indexdir f) (mf_upperdir_locked f) (mf_workdir_locked f) (mf_upperdir_trap f) (mf_workbasedir_trap f) (mf_workdir_trap f) (mf_indexdir_trap f) (mf_layer_traps f ++ [t]) (mf_lower_devs f).
Definition fs_add_lower_dev d f : mount_fs := MountFs (mf_creator_cred f) (mf_workbasedir f) (mf_workdir f) (mf_indexdir f) (mf_upperdir_locked f) (mf_workdir_locked f) (mf_upperdir_trap f) (mf_workbasedir_trap f) (mf_workdir_trap f) (mf_indexdir_trap f) (mf_layer_traps f) (mf_lower_devs f ++ [d]).

Definition sb_set_depth n s : super_block := SuperBlock n (s_rdonly s) (s_reval s) (s_export s) (s_root s).
Definition sb_set_rdonly s : super_block := SuperBlock (s_stack_depth s) true (s_reval s) (s_export s) (s_root s).
Definition sb_set_reval r s : super_block := SuperBlock (s_stack_depth s) (s_rdonly s) r (s_export s) (s_root s).
Definition sb_set_export s : super_block := SuperBlock (s_stack_depth s) (s_rdonly s) (s_reval s) true (s_root s).
Definition sb_set_root d s : super_block := SuperBlock (s_stack_depth s) (s_rdonly s) (s_reval s) (s_export s) (Some d).

(** struct ovl_fs *)
Definition ofs_set_upper (m sb : Z) (o : ovl_fs) : ovl_fs :=
  OvlFs m sb (fs_lower_fs o) (fs_lower_layers o) (fs_namelen o) (fs_indexdir o) (fs_workdir o) (fs_config o) (fs_noxattr o) (fs_tmpfile o) (fs_xino_bits o).
Definition ofs_set_lower (sbs : list Z) (layers : list ovl_layer) (o : ovl_fs) : ovl_fs :=
  OvlFs (fs_upper_mnt o) (fs_upper_sb o) sbs layers (fs_namelen o) (fs_indexdir o) (fs_workdir o) (fs_config o) (fs_noxattr o) (fs_tmpfile o) (fs_xino_bits o).
Definition ofs_set_namelen (n : Z) (o : ovl_fs) : ovl_fs :=
  OvlFs (fs_upper_mnt o) (fs_upper_sb o) (fs_lower_fs o) (fs_lower_layers o) n (fs_indexdir o) (fs_workdir o) (fs_config o) (fs_noxattr o) (fs_tmpfile o) (fs_xino_bits o).
Definition ofs_set_dirs (index work : bool) (o : ovl_fs) : ovl_fs :=
  OvlFs (fs_upper_mnt o) (fs_upper_sb o) (fs_lower_fs o) (fs_lower_layers o) (fs_namelen o) index work (fs_config o) (fs_noxattr o) (fs_tmpfile o) (fs_xino_bits o).
Definition ofs_set_config (c : ovl_config) (o : ovl_fs) : ovl_fs :=
  OvlFs (fs_upper_mnt o) (fs_upper_sb o) (fs_lower_fs o) (fs_lower_layers o) (fs_namelen o) (fs_indexdir o) (fs_workdir o) c (fs_noxattr o) (fs_tmpfile o) (fs_xino_bits o).
Definition ofs_set_caps (noxattr tmpfile : bool) (o : ovl_fs) : ovl_fs :=
  OvlFs (fs_upper_mnt o) (fs_upper_sb o) (fs_lower_fs o) (fs_lower_layers o) (fs_namelen o) (fs_indexdir o) (fs_workdir o) (fs_config o) noxattr tmpfile (fs_xino_bits o).
Definition ofs_set_xino (bits : Z) (o : ovl_fs) : ovl_fs :=
  OvlFs (fs_upper_mnt o) (fs_upper_sb o) (fs_lower_fs o) (fs_lower_layers o) (fs_namelen o) (fs_indexdir o) (fs_workdir o) (fs_config o) (fs_noxattr o) (fs_tmpfile o) bits.

(** ** The monad *)

Definition mount (W A : Type) : Type := mst W → outcome (A * mst W).
#[export] Instance mount_ret {W} : MRet (mount W) := λ A a st, Ret (a, st).
#[export] Instance mount_bind {W} : MBind (mount W) := λ A B f m st,
  match m st with Ret (a, st) => f a st | Fault => Fault | NoFuel => NoFuel end.

Definition lift {W A} (m : kernel W A) : mount W A := λ st,
  match m (m_k st) with Ret (a, k) => Ret (a, set_m_k k st) | Fault => Fault | NoFuel => NoFuel end.
Definition peek {W A} (f : mst W → A) : mount W A := λ st, Ret (f st, st).
Definition mmodify {W} (f : mst W → mst W) : mount W unit := λ st, Ret (tt, f st).
Definition mfault {W A} : mount W A := λ _, Fault.
Definition mnofuel {W A} : mount W A := λ _, NoFuel.
Definition mderef {W A} (p : option A) : mount W A := match p with Some a => mret a | None => mfault end.
Definition mo {W A} (o : outcome A) : mount W A := λ st,
  match o with Ret a => Ret (a, st) | Fault => Fault | NoFuel => NoFuel end.

Definition mok_then {W} (m k : mount W Z) : mount W Z :=
  err ← m; if negb (err =? 0) then mret err else k.
Notation "m >;? k" := (mok_then m k) (at level 100, k at level 200, right associativity).

Definition on_fs {W} (f : mount_fs → mount_fs) : mount W unit := mmodify (λ st, set_m_fs (f (m_fs st)) st).
Definition on_sb {W} (f : super_block → super_block) : mount W unit := mmodify (λ st, set_m_sb (f (m_sb st)) st).
Definition on_fs_ofs {W} (f : ovl_fs → ovl_fs) : mount W unit := mmodify (λ st, set_m_ofs (f (m_ofs st)) st).
Definition on_config {W} (f : ovl_config → ovl_config) : mount W unit :=
  on_fs_ofs (λ o, ofs_set_config (f (fs_config o)) o).
Definition config {W} : mount W ovl_config := peek (λ st, fs_config (m_ofs st)).

(** ** References *)

Definition hold {W} (r : ref) : mount W unit := mmodify (λ st, set_m_refs (r :: m_refs st) st).
Fixpoint drop1 (r : ref) (l : list ref) : option (list ref) :=
  match l with
  | [] => None
  | x :: l => if decide (x = r) then Some l else cons x <$> drop1 r l
  end.
(** Giving back what is not held is a fault. *)
Definition release {W} (r : ref) : mount W unit := λ st,
  match drop1 r (m_refs st) with Some l => Ret (tt, set_m_refs l st) | None => Fault end.

(** struct path: the mount and a positive dentry; an unset path is [None]. *)
Definition mpath : Type := Z * dentry.
Definition dget {W} (d : dentry) : mount W unit := hold (RDentry (d_ptr d)).
Definition dput {W} (d : option dentry) : mount W unit :=
  match d with Some d => release (RDentry (d_ptr d)) | None => mret tt end.
Definition mntput {W} (m : Z) : mount W unit := if m =? NULL then mret tt else release (RMnt m).
Definition path_hold {W} (p : mpath) : mount W unit := hold (RMnt p.1);; dget p.2.
Definition path_put {W} (p : option mpath) : mount W unit :=
  match p with Some p => dput (Some p.2);; release (RMnt p.1) | None => mret tt end.
(** iput of a trap inode: it has one reference, so it leaves the cache *)
Definition iput_trap {W} (t : option Z) : mount W unit :=
  match t with
  | None => mret tt
  | Some ip =>
      release (RTrap ip);;
      mmodify (λ st, set_m_cache (filter (λ kv, kv.2 ≠ ip) (m_cache st))
                       (set_m_k (set_k_inodes (delete ip (k_inodes (m_k st))) (m_k st)) st))
  end.

(** ** The in-use bit (util.c) *)

Definition istate {W} (st : mst W) (i : Z) : Z := default 0 (m_istate st !! i).
Definition inuse_trylock {W} (d : dentry) : mount W bool :=
  i ← mderef (d_inode d);
  s ← peek (λ st, istate st (i_ptr i));
  let '(locked, s) := ovl_inuse_trylock s in
  mmodify (λ st, set_m_istate (<[i_ptr i := s]> (m_istate st)) st);;
  mret locked.
Definition inuse_unlock {W} (d : option dentry) : mount W unit :=
  match d with
  | None => mret tt
  | Some d =>
      i ← mderef (d_inode d);
      mmodify (λ st, set_m_istate (<[i_ptr i := ovl_inuse_unlock (istate st (i_ptr i))]> (m_istate st)) st)
  end.
Definition is_inuse {W} (d : dentry) : mount W bool :=
  i ← mderef (d_inode d); peek (λ st, ovl_is_inuse (istate st (i_ptr i))).

(** ** Calls into the kernel *)

Class MountKern (W : Type) : Type := {
  prepare_kernel_creds : W → option Z;            (* prepare_creds *)
  kern_path : W → string → Z + Z * dentry;        (* LOOKUP_FOLLOW *)
  vfs_statfs : W → mpath → Z * Z;                 (* error, f_namelen *)
  sb_rdonly : W → Z → bool;
  sb_stack_depth : W → Z → Z;
  clone_private_mount : W → mpath → eptr Z;
  get_anon_bdev : W → gset Z → Z + Z;             (* error or a number *)
  d_alloc_root_ok : W → bool;
}.
Class MountLaws (W : Type) `{Under W, MountKern W} : Prop := {
  law_kern_path w n m d : kern_path w n = inr (m, d) → m ≠ NULL ∧ is_Some (d_inode d);
  law_kern_path_err w n e : kern_path w n = inl e → e ≠ 0;
  (** a clone is of the same file system, rooted at the dentry *)
  law_clone w m d c : clone_private_mount w (m, d) = PPtr c → c ≠ NULL ∧ mnt_sb c = mnt_sb m ∧ mnt_root c = d;
  law_clone_valid w p : clone_private_mount w p ≠ PNull ∧ ∀ e, clone_private_mount w p = PErr e → e ≠ 0;
  law_bdev w used d : get_anon_bdev w used = inr d → d ∉ used;
  law_bdev_err w used e : get_anon_bdev w used = inl e → e < 0;
}.
