(* ===== verification/Mount.v ===== *)
(** super.c: mounting - the layers, their file system ids, the traps and the
    in-use locks, the work and the index directory, the checks that layers do
    not overlap, ovl_fill_super and what a failed mount gives back. *)

From S2P Require Import Prelude Types Util Under Options Nlink Fh Redirect Inode Readdir Kernel Work Dir Clean MountState.
From stdpp Require Import gmap.
Local Open Scope Z_scope.

Definition OVL_MAX_STACK : Z := 500.
Definition FILESYSTEM_MAX_STACK_DEPTH : Z := 2.

Section mounting.
Context {W : Type} `{Under W, Kern W, DirKern W, MountKern W, RbLib, OptLib}.
Context (mp : ovl_params) (kmalloc : list centry → string → bool).
(** the s_export_op of a real super block *)
Context (export_op : Z → option (bool * bool)).
(** enough for the longest path *)
Context (depth : nat).

(** ** Traps, in-use directories *)

(** ovl_get_trap_inode over the inode cache of the new super block *)
Definition get_trap (dir : dentry) : mount W (eptr Z) :=
  st ← peek id;
  let k := m_k st in
  let alloc := match new_inode (k_w k) with
               | Some (i, stale) => Some (ovl_alloc_inode i stale) | None => None end in
  let iget5 key := match m_cache st !! key ≫= λ ip, k_inodes k !! ip with
                   | Some o => Some (o, false) | None => (λ o, (o, true)) <$> alloc end in
  match ovl_get_trap_inode iget5 dir with
  | PErr e => mret (PErr e)
  | PNull => mfault
  | PPtr o =>
      let ip := fresh (dom (k_inodes k) ∪ {[NULL]}) in
      mmodify (λ st, set_m_cache (<[iptr (d_inode dir) := ip]> (m_cache st))
                       (set_m_k (set_k_inodes (<[ip := o]> (k_inodes (m_k st))) (m_k st)) st));;
      hold (RTrap ip);;
      mret (PPtr ip)
  end.
Definition ovl_setup_trap (dir : dentry) (set_trap : Z → mount_fs → mount_fs) : mount W Z :=
  trap ← get_trap dir;
  match trap with
  | PErr err => mret err
  | PPtr ip => on_fs (set_trap ip);; mret 0
  | PNull => mfault
  end.
Definition set_upperdir_trap (t : Z) (f : mount_fs) : mount_fs :=
  fs_set_traps (Some t) (mf_workbasedir_trap f) (mf_workdir_trap f) (mf_indexdir_trap f) f.
Definition set_workbasedir_trap (t : Z) (f : mount_fs) : mount_fs :=
  fs_set_traps (mf_upperdir_trap f) (Some t) (mf_workdir_trap f) (mf_indexdir_trap f) f.
Definition set_workdir_trap (t : Z) (f : mount_fs) : mount_fs :=
  fs_set_traps (mf_upperdir_trap f) (mf_workbasedir_trap f) (Some t) (mf_indexdir_trap f) f.
Definition set_indexdir_trap (t : Z) (f : mount_fs) : mount_fs :=
  fs_set_traps (mf_upperdir_trap f) (mf_workbasedir_trap f) (mf_workdir_trap f) (Some t) f.

Definition ovl_report_in_use : mount W Z :=
  c ← config; mret (if c_index c then - EBUSY else 0).

(** ** Paths *)

(** The error, and the path if there is none. *)
Definition ovl_mount_dir_noesc (name : string) : mount W (Z * option mpath) :=
  if bool_decide (name = ""%string) then mret (- EINVAL, None) else
  r ← peek (λ st, kern_path (m_w st) name);
  match r with
  | inl err => mret (err, None)
  | inr p =>
      path_hold p;;
      if ovl_dentry_weird p.2 || negb (d_is_dir p.2) then path_put (Some p);; mret (- EINVAL, None)
      else mret (0, Some p)
  end.
Definition ovl_mount_dir (name : option string) : mount W (Z * option mpath) :=
  name ← mderef name;
  match kstrdup name with
  | None => mret (- ENOMEM, None)
  | Some tmp =>
      '(err, p) ← ovl_mount_dir_noesc (ovl_unescape tmp);
      match p with
      | Some p => if ovl_dentry_remote p.2 then path_put (Some p);; mret (- EINVAL, None) else mret (err, Some p)
      | None => mret (err, None)
      end
  end.
Definition ovl_check_namelen (p : mpath) : mount W Z :=
  '(err, len) ← peek (λ st, vfs_statfs (m_w st) p);
  (if err =? 0 then on_fs_ofs (λ o, ofs_set_namelen (Z.max (fs_namelen o) len) o) else mret tt);;
  mret err.

(** Neither file handles nor 32-bit inode numbers: what a file system without
    them turns off. *)
Definition ovl_lower_dir (name : string) : mount W (Z * option mpath * bool) :=
  '(err, p) ← ovl_mount_dir_noesc name;
  match p with
  | None => mret (err, None, false)
  | Some p =>
      err ← ovl_check_namelen p;
      if negb (err =? 0) then path_put (Some p);; mret (err, None, false) else
      d ← peek (λ st, sb_stack_depth (m_w st) (mnt_sb p.1));
      on_sb (λ s, sb_set_depth (Z.max (s_stack_depth s) d) s);;
      let fh_type := ovl_can_decode_fh (export_op (d_sb p.2)) in
      on_config (λ c,
        if (c_nfs_export c || (c_index c && bool_decide (is_Some (c_upperdir c)))) && (fh_type =? 0)
        then cfg_nfs_export false (cfg_index false c) else c);;
      (if negb (fh_type =? FILEID_INO32_GEN) then on_fs_ofs (ofs_set_xino 0) else mret tt);;
      mret (0, Some p, ovl_dentry_remote p.2)
  end.
Definition ovl_workdir_ok (workdir upperdir : dentry) : mount W bool :=
  if d_ptr workdir =? d_ptr upperdir then mret false else
  trap ← lift (lock_rename workdir upperdir);
  lift (unlock_rename workdir upperdir);;
  mret (match trap with None => true | Some _ => false end).

(** ** The upper and the work directory *)

Definition ovl_get_upper : mount W (Z * option mpath) :=
  c ← config;
  '(err, p) ← ovl_mount_dir (c_upperdir c);
  match p with
  | None => mret (err, None)
  | Some p =>
      rdonly ← peek (λ st, sb_rdonly (m_w st) (mnt_sb p.1));
      err ← (
        if (rdonly : bool) then mret (- EINVAL) else
        ovl_check_namelen p >;?
        ovl_setup_trap p.2 set_upperdir_trap >;?
        mnt ← peek (λ st, clone_private_mount (m_w st) p);
        match mnt with
        | PErr err => mret err
        | PNull => mfault
        | PPtr m =>
            hold (RMnt m);;
            on_fs_ofs (ofs_set_upper m (mnt_sb m));;
            locked ← inuse_trylock (mnt_root m);
            if (locked : bool) then on_fs (λ f, fs_set_locked true (mf_workdir_locked f) f);; mret 0
            else ovl_report_in_use
        end);
      mret (err, Some p)
  end.

(** ofs->workdir and ofs->indexdir *)
Definition set_workdir (d : option dentry) : mount W unit :=
  on_fs (fs_set_workdir d);;
  on_fs_ofs (λ o, ofs_set_dirs (fs_indexdir o) (bool_decide (is_Some d)) o).
Definition set_indexdir (d : option dentry) : mount W unit :=
  on_fs (fs_set_indexdir d);;
  on_fs_ofs (λ o, ofs_set_dirs (bool_decide (is_Some d)) (fs_workdir o) o).
Definition create_dir (name : string) (persist : bool) : mount W (option dentry) :=
  f ← peek m_fs;
  base ← mderef (mf_workbasedir f);
  d ← lift (ovl_workdir_create kmalloc base name persist);
  match d with Some x => dget x;; mret d | None => mret None end.

(** What the upper file system can do, tried out in the work directory. *)
Definition probe_tmpfile (workdir : dentry) : mount W unit :=
  temp ← lift (ovl_do_tmpfile workdir S_IFREG);
  on_fs_ofs (λ o, ofs_set_caps (fs_noxattr o) (match temp with PErr _ => false | _ => true end) o).
Definition probe_xattr (workdir : dentry) : mount W unit :=
  err ← lift (ovl_do_setxattr workdir OVL_XATTR_OPAQUE (bytes_of "0") 0);
  if negb (err =? 0) then
    on_fs_ofs (λ o, ofs_set_caps true (fs_tmpfile o) o);;
    on_config (λ c, cfg_metacopy false (cfg_index false c))
  else lift (ovl_do_removexattr workdir OVL_XATTR_OPAQUE);; mret tt.
Definition probe_fh (workdir : dentry) : mount W unit :=
  let fh_type := ovl_can_decode_fh (export_op (d_sb workdir)) in
  on_config (λ c, if c_index c && (fh_type =? 0) then cfg_index false c else c);;
  (if negb (fh_type =? FILEID_INO32_GEN) then on_fs_ofs (ofs_set_xino 0) else mret tt);;
  on_config (λ c, if c_nfs_export c && negb (c_index c) then cfg_nfs_export false c else c).

Definition ovl_make_workdir (workpath : mpath) : mount W Z :=
  lift ovl_want_write >;?
  err ← (
    workdir ← create_dir OVL_WORKDIR_NAME false;
    set_workdir workdir;;
    match workdir with
    | None => mret 0
    | Some workdir =>
        ovl_setup_trap workdir set_workdir_trap >;?
        err ← peek (λ st, ovl_check_d_type_supported (read_dir (m_w st) workpath.2));
        if err <? 0 then mret err else
        probe_tmpfile workdir;;
        probe_xattr workdir;;
        probe_fh workdir;;
        mret 0
    end);
  lift ovl_drop_write;;
  mret err.

(** ofs->workbasedir and its in-use lock *)
Definition take_workbasedir (d : dentry) : mount W Z :=
  dget d;;
  on_fs (fs_set_workbasedir (Some d));;
  locked ← inuse_trylock d;
  if (locked : bool) then on_fs (λ f, fs_set_locked (mf_upperdir_locked f) true f);; mret 0
  else ovl_report_in_use.
Definition workdir_in (upperpath p : mpath) : mount W Z :=
  if negb (upperpath.1 =? p.1) then mret (- EINVAL) else
  sep ← ovl_workdir_ok p.2 upperpath.2;
  if negb sep then mret (- EINVAL) else
  take_workbasedir p.2 >;?
  ovl_setup_trap p.2 set_workbasedir_trap >;?
  ovl_make_workdir p.
Definition ovl_get_workdir (upperpath : mpath) : mount W Z :=
  c ← config;
  '(err, p) ← ovl_mount_dir (c_workdir c);
  match p with
  | None => mret err
  | Some p => err ← workdir_in upperpath p; path_put (Some p);; mret err
  end.

Definition ovl_get_indexdir (oe : ovl_entry) (upperpath : mpath) : mount W Z :=
  lift ovl_want_write >;?
  err ← (
    origin ← mderef (lowerstack_at oe 0);
    lift (on_wo (λ w, ovl_verify_origin w upperpath.2 (op_dentry origin) true)) >;?
    indexdir ← create_dir OVL_INDEXDIR_NAME true;
    set_indexdir indexdir;;
    match indexdir with
    | None => mret 0
    | Some indexdir =>
        ovl_setup_trap indexdir set_indexdir_trap >;?
        has_origin ← peek (λ st, ovl_check_origin_xattr (m_w st) indexdir);
        (* the result is only reported *)
        (if (has_origin : bool)
         then lift (on_wo (λ w, ovl_verify_set_fh w indexdir OVL_XATTR_ORIGIN upperpath.2 true false)) else mret 0);;
        lift (on_wo (λ w, ovl_verify_upper w indexdir upperpath.2 true)) >;?
        lift (ovl_indexdir_cleanup kmalloc indexdir)
    end);
  lift ovl_drop_write;;
  mret err.

(** ** Lower layers *)

Definition ovl_lower_uuid_ok (ofs : ovl_fs) (uuid : list byte) : bool :=
  let c := fs_config ofs in
  if negb (c_nfs_export c) && negb (c_index c && negb (fs_upper_mnt ofs =? NULL)) then true
  else forallb (λ sb, negb (bool_decide (s_uuid sb = uuid))) (fs_lower_fs ofs).

(** The position of a super block among the lower file systems. *)
Fixpoint lower_fs_index (sb : Z) (l : list Z) : option Z :=
  match l with
  | [] => None
  | x :: l => if x =? sb then Some 0 else Z.succ <$> lower_fs_index sb l
  end.

(** [n] is the size of the array lower_fs. *)
Definition ovl_get_fsid (n : Z) (p : mpath) : mount W Z :=
  let sb := mnt_sb p.1 in
  ofs ← peek m_ofs;
  if negb (fs_upper_mnt ofs =? NULL) && (fs_upper_sb ofs =? sb) then mret 0 else
  match lower_fs_index sb (fs_lower_fs ofs) with
  | Some i => mret (i + 1)
  | None =>
      (if negb (ovl_lower_uuid_ok ofs (s_uuid sb))
       then on_config (λ c, cfg_nfs_export false (cfg_index false c)) else mret tt);;
      dev ← peek (λ st, get_anon_bdev (m_w st) (m_bdevs st));
      match dev with
      | inl err => mret err
      | inr dev =>
          mmodify (λ st, set_m_bdevs ({[dev]} ∪ m_bdevs st) st);;
          hold (RDev dev);;
          if n <=? numlowerfs ofs then mfault else
          on_fs_ofs (λ o, ofs_set_lower (fs_lower_fs o ++ [sb]) (fs_lower_layers o) o);;
          on_fs (fs_add_lower_dev dev);;
          peek (λ st, numlowerfs (m_ofs st))
      end
  end.

(** The pseudo device of a layer's file system; fsid 0 has none. *)
Definition layer_dev (f : mount_fs) (fsid : Z) : option Z :=
  if fsid =? 0 then Some 0 else zget (mf_lower_devs f) (fsid - 1).

(** One round of the loop of ovl_get_lower_layers; [n] is the size of the
    arrays, [i] the index of the path. *)
Definition clone_layer (n i fsid : Z) (p : mpath) (trap : Z) : mount W Z :=
  mnt ← peek (λ st, clone_private_mount (m_w st) p);
  match mnt with
  | PErr err => iput_trap (Some trap);; mret err
  | PNull => mfault
  | PPtr m =>
      hold (RMnt m);;
      f ← peek m_fs;
      dev ← mderef (layer_dev f fsid);
      numlower ← peek (λ st, zlen (fs_lower_layers (m_ofs st)));
      if n <=? numlower then mfault else
      on_fs_ofs (λ o, ofs_set_lower (fs_lower_fs o) (fs_lower_layers o ++ [OvlLayer m (i + 1) fsid dev]) o);;
      on_fs (fs_add_layer_trap trap);;
      mret 0
  end.
Definition get_lower_layer (n i : Z) (p : mpath) : mount W Z :=
  fsid ← ovl_get_fsid n p;
  if fsid <? 0 then mret fsid else
  trap ← get_trap p.2;
  match trap with
  | PErr err => mret err
  | PNull => mfault
  | PPtr trap =>
      inuse ← is_inuse p.2;
      (* the trap is not given back on this error *)
      (if (inuse : bool) then ovl_report_in_use else mret 0) >;?
      clone_layer n i fsid p trap
  end.
Fixpoint lower_layers_loop (n : Z) (stack : list mpath) (i : Z) : mount W Z :=
  match stack with
  | [] => mret 0
  | p :: stack => get_lower_layer n i p >;? lower_layers_loop n stack (i + 1)
  end.

(** When all layers are on one file system, inode numbers need no extra bits;
    else "xino=on" reserves the bits for the fsids. *)
Definition choose_xino (ofs : ovl_fs) : ovl_fs :=
  if (numlowerfs ofs =? 0) || ((numlowerfs ofs =? 1) && (fs_upper_mnt ofs =? NULL))
  then ofs_set_xino 0 (ofs_set_config (cfg_xino OVL_XINO_OFF (fs_config ofs)) ofs)
  else if (c_xino (fs_config ofs) =? OVL_XINO_ON) && (fs_xino_bits ofs =? 0)
  then ofs_set_xino (Z.log2 (numlowerfs ofs) + 1) ofs
  else ofs.

Definition ovl_get_lower_layers (stack : list mpath) : mount W Z :=
  let n := zlen stack in
  alloc ← peek (λ st, kmalloc_ok (m_w st) (n * 32) && kmalloc_ok (m_w st) (n * 16));
  if negb alloc then mret (- ENOMEM) else
  lower_layers_loop n stack 0 >;?
  on_fs_ofs choose_xino;;
  mret 0.

(** The paths of the lower directories, or an error with those found so far;
    the flag tells whether one is remote. *)
Fixpoint lower_dirs_loop (names : list string) (stack : list mpath) (remote : bool) : mount W (Z * list mpath * bool) :=
  match names with
  | [] => mret (0, stack, remote)
  | name :: names =>
      '(err, p, r) ← ovl_lower_dir name;
      match p with
      | None => mret (err, stack, remote)
      | Some p => lower_dirs_loop names (stack ++ [p]) (remote || r)
      end
  end.
Fixpoint put_paths (l : list mpath) : mount W unit :=
  match l with [] => mret tt | p :: l => path_put (Some p);; put_paths l end.

(** dget of the roots of all layers *)
Fixpoint get_roots (stack : list mpath) (layers : list ovl_layer) : mount W (list ovl_path) :=
  match stack, layers with
  | p :: stack, l :: layers => dget p.2;; rest ← get_roots stack layers; mret (OvlPath l p.2 :: rest)
  | [], _ => mret []
  | _, [] => mfault
  end.

(** From the paths on. *)
Definition lowerstack_from (stack : list mpath) (remote : bool) : mount W (Z + ovl_entry) :=
  on_sb (λ s, sb_set_depth (s_stack_depth s + 1) s);;
  deep ← peek (λ st, FILESYSTEM_MAX_STACK_DEPTH <? s_stack_depth (m_sb st));
  if (deep : bool) then mret (inl (- EINVAL)) else
  err ← ovl_get_lower_layers stack;
  if negb (err =? 0) then mret (inl err) else
  alloc ← peek (λ st, kmalloc_ok (m_w st) (24 + 16 * zlen stack));
  if negb alloc then mret (inl (- ENOMEM)) else
  layers ← peek (λ st, fs_lower_layers (m_ofs st));
  roots ← get_roots stack layers;
  on_sb (sb_set_reval remote);;
  mret (inr (OvlEntry 0 roots)).

Definition ovl_get_lowerstack : mount W (Z + ovl_entry) :=
  c ← config;
  lowerdir ← mderef (c_lowerdir c);
  match kstrdup lowerdir with
  | None => mret (inl (- ENOMEM))
  | Some lowertmp =>
      let '(stacklen, buf) := ovl_split_lowerdirs lowertmp in
      let no_upper := negb (bool_decide (is_Some (c_upperdir c))) in
      if OVL_MAX_STACK <? stacklen then mret (inl (- EINVAL)) else
      if no_upper && (stacklen =? 1) then mret (inl (- EINVAL)) else
      (if no_upper && c_nfs_export c && c_redirect_follow c
       then on_config (cfg_nfs_export false) else mret tt);;
      alloc ← peek (λ st, kmalloc_ok (m_w st) (stacklen * 16));
      if negb alloc then mret (inl (- ENOMEM)) else
      '(err, stack, remote) ← lower_dirs_loop (lower_names (Z.to_nat stacklen) buf) [] false;
      r ← (if negb (err =? 0) then mret (inl err) else lowerstack_from stack remote);
      put_paths stack;;
      mret r
  end.

(** ** Overlapping layers *)

(** Up to the root of the file system, looking for traps. *)
Fixpoint check_layer_loop (n : nat) (next : dentry) : mount W Z :=
  match n with
  | O => mnofuel
  | S n =>
      parent ← peek (λ st, real_parent (m_w st) next);
      if same_dentry parent next then mret 0 else
      st ← peek id;
      trap ← mo (ovl_lookup_trap_inode (λ k, m_cache st !! k ≫= λ ip, k_inodes (m_k st) !! ip) parent);
      if (trap : bool) then mret (- ELOOP) else
      inuse ← is_inuse parent;
      (if (inuse : bool) then ovl_report_in_use else mret 0) >;?
      check_layer_loop n parent
  end.
Definition ovl_check_layer (d : option dentry) : mount W Z :=
  match d with None => mret 0 | Some d => check_layer_loop depth d end.
Fixpoint check_layers (l : list dentry) : mount W Z :=
  match l with [] => mret 0 | d :: l => ovl_check_layer (Some d) >;? check_layers l end.
Definition ovl_check_overlapping_layers : mount W Z :=
  ofs ← peek m_ofs;
  f ← peek m_fs;
  (if negb (fs_upper_mnt ofs =? NULL)
   then ovl_check_layer (Some (mnt_root (fs_upper_mnt ofs))) >;? ovl_check_layer (mf_workbasedir f)
   else mret 0) >;?
  check_layers ((λ l, mnt_root (l_mnt l)) <$> fs_lower_layers ofs).

(** ** Releasing struct ovl_fs *)

Fixpoint free_layers (traps : list Z) (layers : list ovl_layer) : mount W unit :=
  match traps, layers with
  | t :: traps, l :: layers => iput_trap (Some t);; mntput (l_mnt l);; free_layers traps layers
  | _, _ => mret tt
  end.
Fixpoint free_devs (l : list Z) : mount W unit :=
  match l with
  | [] => mret tt
  | d :: l => release (RDev d);; mmodify (λ st, set_m_bdevs (m_bdevs st ∖ {[d]}) st);; free_devs l
  end.
Definition ovl_free_fs : mount W unit :=
  f ← peek m_fs;
  ofs ← peek m_ofs;
  iput_trap (mf_workbasedir_trap f);;
  iput_trap (mf_indexdir_trap f);;
  iput_trap (mf_workdir_trap f);;
  iput_trap (mf_upperdir_trap f);;
  dput (mf_indexdir f);;
  dput (mf_workdir f);;
  (if mf_workdir_locked f then inuse_unlock (mf_workbasedir f) else mret tt);;
  dput (mf_workbasedir f);;
  (if mf_upperdir_locked f then inuse_unlock (Some (mnt_root (fs_upper_mnt ofs))) else mret tt);;
  mntput (fs_upper_mnt ofs);;
  free_layers (mf_layer_traps f) (fs_lower_layers ofs);;
  free_devs (mf_lower_devs f);;
  match mf_creator_cred f with Some c => release (RCred c) | None => mret tt end.

(** ** ovl_fill_super *)

Definition config_zero : ovl_config := OvlConfig None None None false false false None false false 0 false.
Definition ofs_zero : ovl_fs := OvlFs NULL NULL [] [] 0 false false config_zero false false 0.
Definition default_config : ovl_config :=
  cfg_flags false (ovl_index_def mp) (ovl_nfs_export_def mp) (ovl_xino_def mp) (ovl_metacopy_def mp) config_zero.

(** The upper layer, if one is configured; the error and the path. *)
Definition fill_upper : mount W (Z * option mpath) :=
  c ← config;
  if negb (bool_decide (is_Some (c_upperdir c))) then mret (0, None) else
  if negb (bool_decide (is_Some (c_workdir c))) then mret (- EINVAL, None) else
  '(err, upperpath) ← ovl_get_upper;
  if negb (err =? 0) then mret (err, upperpath) else
  p ← mderef upperpath;
  err ← ovl_get_workdir p;
  if negb (err =? 0) then mret (err, upperpath) else
  ofs ← peek m_ofs;
  (if negb (fs_workdir ofs) then on_sb sb_set_rdonly else mret tt);;
  d ← peek (λ st, sb_stack_depth (m_w st) (mnt_sb (fs_upper_mnt ofs)));
  on_sb (sb_set_depth d);;
  mret (0, upperpath).

(** The index directory of a writable mount that wants one. *)
Definition fill_index (oe : ovl_entry) (upperpath : option mpath) : mount W Z :=
  ofs ← peek m_ofs;
  (if fs_upper_mnt ofs =? NULL then on_sb sb_set_rdonly else mret tt);;
  if ovl_force_readonly ofs || negb (c_index (fs_config ofs)) then mret 0 else
  p ← mderef upperpath;
  ovl_get_indexdir oe p >;?
  f ← peek m_fs;
  (if negb (bool_decide (is_Some (mf_indexdir f)))
   then dput (mf_workdir f);; set_workdir None;; on_sb sb_set_rdonly else mret tt);;
  mret 0.

(** The features that are left in the end. *)
Definition final_config (ofs : ovl_fs) : ovl_config :=
  let c := fs_config ofs in
  let c := if negb (fs_indexdir ofs)
           then let c := cfg_index false c in
                if negb (fs_upper_mnt ofs =? NULL) && c_nfs_export c then cfg_nfs_export false c else c
           else c in
  if c_metacopy c && c_nfs_export c then cfg_nfs_export false c else c.

(** The root dentry. *)
Definition fill_root (oe : ovl_entry) (upperpath : option mpath) : mount W Z :=
  inode ← lift (ovl_new_inode S_IFDIR 0);
  alloc ← peek (λ st, d_alloc_root_ok (m_w st));
  match inode, alloc with
  | Some o, true =>
      impure ← peek (λ st, match upperpath with Some p => ovl_is_impuredir (m_w st) p.2 | None => false end);
      let oe := if upperpath is Some _ then ovl_dentry_set_upper_alias oe else oe in
      let oe := ovl_dentry_set_flag OVL_E_CONNECTED oe in
      let o := if (impure : bool) then ovl_set_flag OVL_IMPURE o else o in
      let o := ovl_set_flag OVL_WHITEOUTS o in
      let o := ovl_set_flag OVL_UPPERDATA o in
      let lower := if numlower oe =? 0 then None else op_dentry <$> lowerstack_at oe 0 in
      o ← mo (ovl_inode_init o (snd <$> upperpath) lower None);
      st ← peek id;
      let ip := fresh (dom (k_inodes (m_k st)) ∪ {[NULL]}) in
      let d := fresh (dom (k_dents (m_k st))) in
      mmodify (λ st, set_m_k (set_k_dents (<[d := ODent "/" 0 d ip oe true]> (k_dents (m_k st)))
                               (set_k_inodes (<[ip := o]> (k_inodes (m_k st))) (m_k st))) st);;
      (match upperpath with Some p => mntput p.1 | None => mret tt end);;
      on_sb (sb_set_root d);;
      mret 0
  | _, _ => mret (- ENOMEM)
  end.

(** ovl_entry_stack_free *)
Fixpoint ovl_entry_stack_free (stack : list ovl_path) : mount W unit :=
  match stack with [] => mret tt | p :: stack => dput (Some (op_dentry p));; ovl_entry_stack_free stack end.

(** From the stack of lower directories on. *)
Definition fill_layers (upperpath : option mpath) : mount W Z :=
  r ← ovl_get_lowerstack;
  match r with
  | inl err => mret err
  | inr oe =>
      err ← (fill_index oe upperpath >;?
             ovl_check_overlapping_layers >;?
             on_fs_ofs (λ o, ofs_set_config (final_config o) o);;
             nfs ← peek (λ st, c_nfs_export (fs_config (m_ofs st)));
             (if (nfs : bool) then on_sb sb_set_export else mret tt);;
             fill_root oe upperpath);
      if negb (err =? 0) then ovl_entry_stack_free (oe_lowerstack oe);; mret err else mret 0
  end.

(** Everything after the credentials; the error and the path to put. *)
Definition fill_parts (data : option string) : mount W (Z * option mpath) :=
  '(err, c) ← mo (ovl_parse_opt mp data default_config);
  on_config (λ _, c);;
  if negb (err =? 0) then mret (err, None) else
  if negb (bool_decide (is_Some (c_lowerdir c))) then mret (- EINVAL, None) else
  (if negb (c_xino c =? OVL_XINO_OFF) then on_fs_ofs (ofs_set_xino 32) else mret tt);;
  '(err, upperpath) ← fill_upper;
  if negb (err =? 0) then mret (err, upperpath) else
  err ← fill_layers upperpath;
  mret (err, upperpath).

Definition ovl_fill_super (data : option string) : mount W Z :=
  mmodify (λ st, set_m_sb super_zero (set_m_fs mount_fs_zero (set_m_ofs ofs_zero st)));;
  cred ← peek (λ st, prepare_kernel_creds (m_w st));
  '(err, upperpath) ← match cred with
    | None => mret (- ENOMEM, None)
    | Some c => hold (RCred c);; on_fs (fs_set_cred (Some c));; fill_parts data
    end;
  if negb (err =? 0) then path_put upperpath;; ovl_free_fs;; mret err
  else mret 0.

End mounting.
