(* ===== verification/MountInv.v ===== *)
(** The invariant of a mount in progress: every reference in the ledger is
    recorded in struct ovl_fs or accounted for by the caller, the in-use bits
    and device numbers taken are those recorded, the traps are in the inode
    cache, and the lower layers are numbered consistently. *)

From S2P Require Import Prelude Types Util Under Options Nlink Fh Redirect Inode Readdir Kernel KernelProps Work Dir MountState Mount.
From stdpp Require Import gmap.
Local Open Scope Z_scope.

(** ** Weakest preconditions of the mount monad *)

Definition mwp {W A} (m : mount W A) (st : mst W) (Q : A → mst W → Prop) : Prop :=
  match m st with Ret (a, st') => Q a st' | _ => False end.

Section mwp.
Context {W : Type}.
Implicit Types (st : mst W).

Lemma mwp_ret {A} (a : A) st Q : Q a st → mwp (mret a) st Q.
Proof. done. Qed.
Lemma mwp_bind {A B} (m : mount W A) (f : A → mount W B) st Q :
  mwp m st (λ a st', mwp (f a) st' Q) → mwp (m ≫= f) st Q.
Proof. unfold mwp, mbind, mount_bind. by destruct (m st) as [[a st']| |]. Qed.
Lemma mwp_mono {A} (m : mount W A) st (Q Q' : A → mst W → Prop) :
  mwp m st Q → (∀ a st', Q a st' → Q' a st') → mwp m st Q'.
Proof. unfold mwp. destruct (m st) as [[a st']| |]; [|done..]. intros HQ HQ'. by apply HQ'. Qed.
Lemma mwp_seq {A B} (m : mount W A) (f : A → mount W B) st (R : A → mst W → Prop) Q :
  mwp m st R → (∀ a st', R a st' → mwp (f a) st' Q) → mwp (m ≫= f) st Q.
Proof. intros Hm Hf. apply mwp_bind. by eapply mwp_mono. Qed.
Lemma mwp_run {A} (m : mount W A) st Q :
  mwp m st Q → ∃ a st', m st = Ret (a, st') ∧ Q a st'.
Proof. unfold mwp. destruct (m st) as [[a st']| |]; [|done..]. intros HQ. by exists a, st'. Qed.
Lemma mwp_peek {A B} (g : mst W → A) (f : A → mount W B) st Q : mwp (f (g st)) st Q → mwp (peek g ≫= f) st Q.
Proof. done. Qed.
Lemma mwp_modify {B} (g : mst W → mst W) (f : unit → mount W B) st Q : mwp (f tt) (g st) Q → mwp (mmodify g ≫= f) st Q.
Proof. done. Qed.
Lemma mwp_mret {A B} st (a : A) (f : A → mount W B) Q : mwp (f a) st Q → mwp (mret a ≫= f) st Q.
Proof. done. Qed.
Lemma mwp_deref {A B} st (p : option A) a (f : A → mount W B) Q : p = Some a → mwp (f a) st Q → mwp (mderef p ≫= f) st Q.
Proof. by intros ->. Qed.
Lemma mwp_assoc {A B C} st (m : mount W A) (f : A → mount W B) (g : B → mount W C) Q :
  mwp (m ≫= λ a, f a ≫= g) st Q → mwp ((m ≫= f) ≫= g) st Q.
Proof. unfold mwp, mbind, mount_bind. by destruct (m st) as [[a st']| |]. Qed.
Lemma mwp_assoc3 {A B C D} st (a : mount W A) (b : mount W B) (c : B → mount W C) (g : C → mount W D) Q :
  mwp ((a ≫= λ _, b) ≫= λ x, c x ≫= g) st Q → mwp ((a ≫= λ _, b ≫= c) ≫= g) st Q.
Proof. unfold mwp, mbind, mount_bind. destruct (a st) as [[x st']| |]; [|done..]. by destruct (b st') as [[y st2]| |]. Qed.
(** [m >;? k]: an error ends it. *)
Lemma mwp_then (m k : mount W Z) st (R : Z → mst W → Prop) Q :
  mwp m st R → (∀ err st', R err st' → err ≠ 0 → Q err st') → (∀ st', R 0 st' → mwp k st' Q) → mwp (mok_then m k) st Q.
Proof.
  intros Hm He Hk. eapply mwp_seq; [exact Hm|]. intros err st' HR. destruct (Z.eqb_spec err 0) as [->|Hne]; cbn [negb].
  - by apply Hk.
  - apply mwp_ret. by apply He.
Qed.

(** ** The ledger *)

Lemma drop1_perm r l l' : l ≡ₚ r :: l' → ∃ l2, drop1 r l = Some l2 ∧ l2 ≡ₚ l'.
Proof.
  revert l'. induction l as [|x l IH]; intros l' Hp; [by apply Permutation_nil_cons in Hp|]. cbn.
  destruct (decide (x = r)) as [->|Hn]; [exists l; split; [done|by apply Permutation.Permutation_cons_inv in Hp]|].
  assert (r ∈ l) as Hin.
  { assert (r ∈ x :: l) as Hr by (rewrite Hp; by left). apply elem_of_cons in Hr as [->|]; done. }
  apply elem_of_Permutation in Hin as [l3 Hl3]. destruct (IH l3 Hl3) as (l2 & -> & Hl2). exists (x :: l2). split; [done|].
  rewrite Hl2. apply Permutation.Permutation_cons_inv with r. rewrite <- Hp, Hl3. apply perm_swap.
Qed.
Lemma mwp_release {B} r l (f : unit → mount W B) st Q :
  m_refs st ≡ₚ r :: l → (∀ l', l' ≡ₚ l → mwp (f tt) (set_m_refs l' st) Q) → mwp (release r ≫= f) st Q.
Proof.
  intros Hr Hf. destruct (drop1_perm _ _ _ Hr) as (l' & Hd & Hl). apply mwp_bind. unfold mwp at 1, release. rewrite Hd.
  by apply Hf.
Qed.
End mwp.

(** What struct ovl_fs owns. *)
Definition dref (d : option dentry) : list ref := match d with Some d => [RDentry (d_ptr d)] | None => [] end.
Definition tref (t : option Z) : list ref := match t with Some t => [RTrap t] | None => [] end.
Definition mref (m : Z) : list ref := if m =? NULL then [] else [RMnt m].
Definition cref (c : option Z) : list ref := match c with Some c => [RCred c] | None => [] end.
Definition tlist (t : option Z) : list Z := match t with Some t => [t] | None => [] end.
Definition all_traps (f : mount_fs) : list Z :=
  tlist (mf_upperdir_trap f) ++ tlist (mf_workbasedir_trap f) ++ tlist (mf_workdir_trap f) ++ tlist (mf_indexdir_trap f) ++
  mf_layer_traps f.
Definition owned (f : mount_fs) (o : ovl_fs) : list ref :=
  (cref (mf_creator_cred f) ++ dref (mf_workbasedir f) ++ dref (mf_workdir f) ++ dref (mf_indexdir f)) ++
  (RTrap <$> all_traps f) ++ mref (fs_upper_mnt o) ++ ((λ l, RMnt (l_mnt l)) <$> fs_lower_layers o) ++
  (RDev <$> mf_lower_devs f).

(** The features that a mount may turn off, never on. *)
Definition wants_fh (o : ovl_fs) : bool :=
  c_nfs_export (fs_config o) || (c_index (fs_config o) && negb (fs_upper_mnt o =? NULL)).
Record cfg_le (c c' : ovl_config) : Prop := {
  cl_lowerdir : c_lowerdir c' = c_lowerdir c;
  cl_upperdir : c_upperdir c' = c_upperdir c;
  cl_workdir : c_workdir c' = c_workdir c;
  cl_index : c_index c' = true → c_index c = true;
  cl_nfs : c_nfs_export c' = true → c_nfs_export c = true;
}.
#[export] Instance cfg_le_preorder : PreOrder cfg_le.
Proof. split; [by split|]. intros a b c [] []. split; try congruence; auto. Qed.

Section inv.
Context {W : Type} `{Under W}.
Implicit Types (st : mst W).

(** A trap inode for the directory [d] is in the cache. *)
Definition dead_inode (o : ovl_inode) : Prop :=
  has_any (i_flags (oi_vfs o)) S_DEAD = true ∧ oi_upper o = None ∧ oi_lower o = None ∧ oi_flags o = 0.
Definition cached_trap st (d : dentry) (ip : Z) : Prop :=
  m_cache st !! iptr (d_inode d) = Some ip ∧ ∃ o, k_inodes (m_k st) !! ip = Some o.

(** The state the mount started from. *)
Context (st0 : mst W).

(** The directories whose in-use bit the mount has set. *)
Definition has_iptr (d : option dentry) (p : Z) : bool :=
  match d with Some d => iptr (d_inode d) =? p | None => false end.
Definition locked_by st (p : Z) : bool :=
  (mf_upperdir_locked (m_fs st) && has_iptr (Some (mnt_root (fs_upper_mnt (m_ofs st)))) p) ||
  (mf_workdir_locked (m_fs st) && has_iptr (mf_workbasedir (m_fs st)) p).

Definition inuse_inv st : Prop := ∀ p,
  if locked_by st p then Z.land (istate st0 p) I_OVL_INUSE = 0 ∧ istate st p = Z.lor (istate st0 p) I_OVL_INUSE
  else istate st p = istate st0 p.

Record bdevs_inv st : Prop := {
  bi_used : m_bdevs st = m_bdevs st0 ∪ list_to_set (mf_lower_devs (m_fs st));
  bi_nodup : NoDup (mf_lower_devs (m_fs st));
  bi_new d : d ∈ mf_lower_devs (m_fs st) → d ∉ m_bdevs st0;
}.

Record traps_inv st : Prop := {
  ti_inodes i o : k_inodes (m_k st) !! i = Some o → i ≠ NULL ∧ dead_inode o;
  ti_nodup : NoDup (all_traps (m_fs st));
  ti_cached t : t ∈ all_traps (m_fs st) → ∃ d, cached_trap st d t;
  ti_upper : fs_upper_mnt (m_ofs st) ≠ NULL → ∃ t, mf_upperdir_trap (m_fs st) = Some t ∧
    cached_trap st (mnt_root (fs_upper_mnt (m_ofs st))) t;
  ti_workbase d t : mf_workbasedir (m_fs st) = Some d → mf_workbasedir_trap (m_fs st) = Some t → cached_trap st d t;
  ti_layers i l : fs_lower_layers (m_ofs st) !! i = Some l → ∃ t, mf_layer_traps (m_fs st) !! i = Some t ∧
    cached_trap st (mnt_root (l_mnt l)) t;
  ti_length : length (mf_layer_traps (m_fs st)) = length (fs_lower_layers (m_ofs st));
}.

Record dirs_inv st : Prop := {
  di_upper : fs_upper_mnt (m_ofs st) ≠ NULL → is_Some (d_inode (mnt_root (fs_upper_mnt (m_ofs st)))) ∧
    fs_upper_sb (m_ofs st) = mnt_sb (fs_upper_mnt (m_ofs st));
  di_locked : mf_upperdir_locked (m_fs st) = true → fs_upper_mnt (m_ofs st) ≠ NULL;
  di_workbase d : mf_workbasedir (m_fs st) = Some d → is_Some (d_inode d);
  di_workdir : fs_workdir (m_ofs st) = bool_decide (is_Some (mf_workdir (m_fs st)));
  di_workdir_ok d : mf_workdir (m_fs st) = Some d → is_Some (d_inode d);
  di_indexdir : fs_indexdir (m_ofs st) = bool_decide (is_Some (mf_indexdir (m_fs st)));
  di_indexdir_ok d : mf_indexdir (m_fs st) = Some d → is_Some (d_inode d);
}.

(** A layer's place, its file system id and its device number. *)
Record layer_ok st (i : nat) (l : ovl_layer) : Prop := {
  lo_idx : l_idx l = Z.of_nat i + 1;
  lo_mnt : l_mnt l ≠ NULL;
  lo_root : is_Some (d_inode (mnt_root (l_mnt l)));
  lo_fsid : (l_fsid l = 0 ∧ fs_upper_mnt (m_ofs st) ≠ NULL ∧ mnt_sb (l_mnt l) = fs_upper_sb (m_ofs st)) ∨
    (0 < l_fsid l ∧ zget (fs_lower_fs (m_ofs st)) (l_fsid l - 1) = Some (mnt_sb (l_mnt l)) ∧
     zget (mf_lower_devs (m_fs st)) (l_fsid l - 1) = Some (l_pseudo_dev l));
}.
Record lower_inv st : Prop := {
  li_layers i l : fs_lower_layers (m_ofs st) !! i = Some l → layer_ok st i l;
  li_sbs : NoDup (fs_lower_fs (m_ofs st));
  li_not_upper sb : sb ∈ fs_lower_fs (m_ofs st) → fs_upper_mnt (m_ofs st) ≠ NULL → sb ≠ fs_upper_sb (m_ofs st);
  li_devs : length (mf_lower_devs (m_fs st)) = length (fs_lower_fs (m_ofs st));
  li_uuids : wants_fh (m_ofs st) = true → NoDup (s_uuid <$> fs_lower_fs (m_ofs st));
}.

Record minv (base : list ref) st : Prop := {
  mi_held : k_held (m_k st) = k_held (m_k st0);
  mi_dents : k_dents (m_k st) = k_dents (m_k st0);
  mi_refs : m_refs st ≡ₚ owned (m_fs st) (m_ofs st) ++ base;
  mi_inuse : inuse_inv st;
  mi_bdevs : bdevs_inv st;
  mi_traps : traps_inv st;
  mi_dirs : dirs_inv st;
  mi_lower : lower_inv st;
}.

(** How the state develops: what is set stays, features only get lost. *)
Record later0 st st' : Prop := {
  la_cfg : cfg_le (fs_config (m_ofs st)) (fs_config (m_ofs st'));
  la_upper : fs_upper_mnt (m_ofs st) ≠ NULL →
    fs_upper_mnt (m_ofs st') = fs_upper_mnt (m_ofs st) ∧ fs_upper_sb (m_ofs st') = fs_upper_sb (m_ofs st);
  la_no_upper : c_upperdir (fs_config (m_ofs st)) = None → fs_upper_mnt (m_ofs st) = NULL → fs_upper_mnt (m_ofs st') = NULL;
  la_layers : fs_lower_layers (m_ofs st) `prefix_of` fs_lower_layers (m_ofs st');
  la_sbs : fs_lower_fs (m_ofs st) `prefix_of` fs_lower_fs (m_ofs st');
  la_workbase d : mf_workbasedir (m_fs st) = Some d → mf_workbasedir (m_fs st') = Some d;
  la_workbase_trap : is_Some (mf_workbasedir_trap (m_fs st)) → is_Some (mf_workbasedir_trap (m_fs st'));
  la_rdonly : s_rdonly (m_sb st) = true → s_rdonly (m_sb st') = true;
}.
Record later st st' : Prop := {
  la_later : later0 st st';
  la_xino : fs_xino_bits (m_ofs st') = fs_xino_bits (m_ofs st) ∨ fs_xino_bits (m_ofs st') = 0;
}.
#[export] Instance later0_preorder : PreOrder later0.
Proof.
  split; [intros a; by split|]. intros a b c [a1 a2 a3 a4 a5 a6 a7 a8] [b1 b2 b3 b4 b5 b6 b7 b8].
  split; [by etrans| | |by etrans|by etrans|auto|auto|auto].
  - intros Hu. destruct (a2 Hu) as [E1 E2]. rewrite <- E1 in Hu. destruct (b2 Hu) as [E3 E4]. split; congruence.
  - intros Hc Hu. apply b3; [|auto]. by rewrite (cl_upperdir _ _ a1).
Qed.
#[export] Instance later_preorder : PreOrder later.
Proof.
  split; [intros a; split; [done|by left]|]. intros a b c [a1 a2] [b1 b2]. split; [by etrans|].
  destruct a2 as [E|E], b2 as [E2|E2]; [left|right|right|right]; congruence.
Qed.

(** ** Steps that only change the underlying file systems, the super block or
    features *)

Record core (o o' : ovl_fs) : Prop := {
  co_upper : fs_upper_mnt o' = fs_upper_mnt o;
  co_upper_sb : fs_upper_sb o' = fs_upper_sb o;
  co_sbs : fs_lower_fs o' = fs_lower_fs o;
  co_layers : fs_lower_layers o' = fs_lower_layers o;
  co_indexdir : fs_indexdir o' = fs_indexdir o;
  co_workdir : fs_workdir o' = fs_workdir o;
  co_cfg : cfg_le (fs_config o) (fs_config o');
  co_xino : fs_xino_bits o' = fs_xino_bits o ∨ fs_xino_bits o' = 0;
}.
Lemma core_caps o n a b x : x = fs_xino_bits o ∨ x = 0 →
  core o (OvlFs (fs_upper_mnt o) (fs_upper_sb o) (fs_lower_fs o) (fs_lower_layers o) n (fs_indexdir o) (fs_workdir o) (fs_config o) a b x).
Proof. by split. Qed.
Lemma core_rel o o' : ofs_rel o o' → core o o'.
Proof. intros [->| ->]; split; by try left. Qed.
Lemma core_config f o : cfg_le (fs_config o) (f (fs_config o)) → core o (ofs_set_config (f (fs_config o)) o).
Proof. intros Hc. split; by try left. Qed.
Lemma core_wants o o' : core o o' → wants_fh o' = true → wants_fh o = true.
Proof.
  intros Hc. unfold wants_fh. rewrite (co_upper _ _ Hc). rewrite !orb_true_iff, !andb_true_iff.
  intros [Hn|[Hi ?]]; [left; by apply (cl_nfs _ _ (co_cfg _ _ Hc))|right]. split; [by apply (cl_index _ _ (co_cfg _ _ Hc))|done].
Qed.

Record still st st' : Prop := {
  sl_core : core (m_ofs st) (m_ofs st');
  sl_dents : k_dents (m_k st') = k_dents (m_k st);
  sl_inodes : k_inodes (m_k st') = k_inodes (m_k st);
  sl_held : k_held (m_k st') = k_held (m_k st);
  sl_fs : m_fs st' = m_fs st;
  sl_cache : m_cache st' = m_cache st;
  sl_istate : m_istate st' = m_istate st;
  sl_bdevs : m_bdevs st' = m_bdevs st;
  sl_refs : m_refs st' = m_refs st;
  sl_rdonly : s_rdonly (m_sb st) = true → s_rdonly (m_sb st') = true;
}.
#[export] Instance core_preorder : PreOrder core.
Proof.
  split; [intros a; split; by try left|]. intros a b c [] []. split; try congruence; [by etrans|].
  destruct co_xino0 as [E|E], co_xino1 as [E2|E2]; [left|right|right|right]; congruence.
Qed.
#[export] Instance still_preorder : PreOrder still.
Proof. split; [intros a; by split|]. intros a b c [] []. split; try congruence; [by etrans|auto]. Qed.

Lemma still_trap st st' d ip : still st st' → cached_trap st d ip → cached_trap st' d ip.
Proof. intros Hs [Hc Ho]. split; [by rewrite (sl_cache _ _ Hs)|by rewrite (sl_inodes _ _ Hs)]. Qed.

Lemma minv_still base st st' : still st st' → minv base st → minv base st'.
Proof.
  intros Hs [Hh Hd Hr Hi [b1 b2 b3] [t1 t2 t3 t4 t5 t6 t7] [d1 d2 d3 d4 d5 d6 d7] [l1 l2 l3 l4 l5]].
  pose proof (sl_core _ _ Hs) as Hc. destruct Hc as [c1 c2 c3 c4 c5 c6 c7 c8] eqn:Ec. clear Ec.
  assert (Hf := sl_fs _ _ Hs). assert (Hwant := core_wants _ _ (sl_core _ _ Hs)).
  split.
  - by rewrite (sl_held _ _ Hs).
  - by rewrite (sl_dents _ _ Hs).
  - unfold owned. rewrite (sl_refs _ _ Hs), Hf, c1, c4. exact Hr.
  - intros p. specialize (Hi p). unfold locked_by, istate in *. by rewrite Hf, c1, (sl_istate _ _ Hs).
  - split; rewrite ?Hf, ?(sl_bdevs _ _ Hs); done.
  - split.
    + by rewrite (sl_inodes _ _ Hs).
    + by rewrite Hf.
    + rewrite Hf. intros t Ht. destruct (t3 t Ht) as [d Hd']. exists d. by eapply still_trap.
    + rewrite Hf, c1. intros Hu. destruct (t4 Hu) as (t & ? & ?). exists t. split; [done|by eapply still_trap].
    + rewrite Hf. intros d t ? ?. eapply still_trap; [done|by apply t5].
    + rewrite Hf, c4. intros i l Hl. destruct (t6 i l Hl) as (t & ? & ?). exists t. split; [done|by eapply still_trap].
    + by rewrite Hf, c4.
  - split; rewrite ?Hf, ?c1, ?c2, ?c5, ?c6; done.
  - split; rewrite ?Hf, ?c1, ?c2, ?c3, ?c4; try done; [|intros ?; apply l5; by apply Hwant].
    intros i l Hl. destruct (l1 i l Hl) as [o1 o2 o3 o4]. split; [done..|]. by rewrite Hf, c1, c2, c3.
Qed.
Lemma later_still st st' : still st st' → later st st'.
Proof.
  intros [Hc _ _ _ Hf _ _ _ _ Hro]. destruct Hc. split; [|done].
  split; [done|by intros|intros; congruence|by rewrite co_layers0|by rewrite co_sbs0|intros; congruence|by rewrite Hf|done].
Qed.

Lemma still_lift (k : kst W) st : quiet (m_k st) k → still st (set_m_k k st).
Proof. intros [Ho Hd Hi Hh]. split; try done. by apply core_rel. Qed.
Lemma still_sb s st : (s_rdonly (m_sb st) = true → s_rdonly s = true) → still st (set_m_sb s st).
Proof. by split. Qed.
Lemma still_ofs o st : core (m_ofs st) o → still st (set_m_ofs o st).
Proof. by split. Qed.

Lemma mwp_lift {A} (m : kernel W A) (P : A → Prop) st Q :
  quietly (m_k st) m P → (∀ a st', still st st' → P a → Q a st') → mwp (lift m) st Q.
Proof.
  intros Hm HQ. unfold mwp, lift. specialize (Hm (m_k st) ltac:(done)). unfold wp in Hm.
  destruct (m (m_k st)) as [[a k]| |]; [|done..]. destruct Hm. apply HQ; [by apply still_lift|done].
Qed.

Lemma minv_refs base base' st l :
  minv base st → l ≡ₚ owned (m_fs st) (m_ofs st) ++ base' → minv base' (set_m_refs l st).
Proof.
  intros [? ? ? ? [] [] [] [li1 ? ? ? ?]] ?. split; [done|done|done|done|by split..|].
  split; [|done..]. intros i l' Hl. destruct (li1 i l' Hl). by split.
Qed.
Lemma later_refs l st : later st (set_m_refs l st).
Proof. split; [by split|by left]. Qed.

End inv.
