(* ===== verification/MountSteps.v ===== *)
(** The steps of a mount keep its invariant: paths, traps, in-use locks, the
    upper, the work and the index directory. *)

From S2P Require Import Prelude Types Util Under Options Nlink Fh FhProps Redirect RedirectProps Inode Readdir Kernel KernelProps Work CopyUp WorkProps CopyUpSteps Dir Clean MountState Mount MountInv.
From stdpp Require Import gmap.
Local Open Scope Z_scope.

Section steps.
Context {W : Type} `{Under W, !UnderLaws W, Kern W, !KernLaws W, DirKern W, MountKern W, !MountLaws W, RbLib, OptLib}.
Context (mp : ovl_params) (kmalloc : list centry → string → bool).
Context (export_op : Z → option (bool * bool)) (st0 : mst W).
Implicit Types (st : mst W).

#[local] Abbreviation minv := (minv st0).

Lemma mwp_hold {B} base st r (f : unit → mount W B) Q :
  minv base st → (∀ st', minv (r :: base) st' → st' = set_m_refs (r :: m_refs st) st → mwp (f tt) st' Q) →
  mwp (hold r ≫= f) st Q.
Proof.
  intros Hi Hf. apply mwp_modify, Hf; [|done]. eapply minv_refs; [done|]. rewrite (mi_refs _ _ _ Hi).
  apply Permutation_middle.
Qed.
Lemma mwp_drop {B} base st r (f : unit → mount W B) Q :
  minv (r :: base) st → (∀ l, minv base (set_m_refs l st) → mwp (f tt) (set_m_refs l st) Q) → mwp (release r ≫= f) st Q.
Proof.
  intros Hi Hf. eapply mwp_release with (l := owned (m_fs st) (m_ofs st) ++ base).
  { rewrite (mi_refs _ _ _ Hi). symmetry. apply Permutation_middle. }
  intros l Hl. apply Hf. by eapply minv_refs.
Qed.
(** ** Paths *)

Definition path_refs (p : mpath) : list ref := [RDentry (d_ptr p.2); RMnt p.1].

Lemma path_hold_step {B} base st p (f : unit → mount W B) Q :
  minv base st → (∀ l, minv (path_refs p ++ base) (set_m_refs l st) → mwp (f tt) (set_m_refs l st) Q) →
  mwp (path_hold p ≫= f) st Q.
Proof.
  intros Hi Hf. unfold path_hold. apply mwp_assoc. eapply mwp_hold; [done|]. intros st1 Hi1 ->. unfold dget.
  eapply mwp_hold; [done|]. intros st2 Hi2 ->. by apply Hf.
Qed.
Lemma path_put_step {B} base st p (f : unit → mount W B) Q :
  minv (path_refs p ++ base) st → (∀ l, minv base (set_m_refs l st) → mwp (f tt) (set_m_refs l st) Q) →
  mwp (path_put (Some p) ≫= f) st Q.
Proof.
  intros Hi Hf. unfold path_put. apply mwp_assoc. unfold dput. eapply mwp_drop; [exact Hi|]. intros l Hl.
  eapply mwp_drop; [exact Hl|]. intros l2 Hl2. by apply Hf.
Qed.

(** What the caller holds when it got a path, if it did. *)
Definition opath_refs (p : option mpath) : list ref := match p with Some p => path_refs p | None => [] end.
Definition dir_path (p : mpath) : Prop := p.1 ≠ NULL ∧ is_Some (d_inode p.2) ∧ d_is_dir p.2 = true.
(** The result of looking a directory up: an error, or a path. *)
Definition path_result (err : Z) (p : option mpath) : Prop :=
  match p with Some p => err = 0 ∧ dir_path p | None => err ≠ 0 end.

Lemma mount_dir_noesc_step base st name :
  minv base st → mwp (ovl_mount_dir_noesc name) st (λ '(err, p) st', later st st' ∧
    m_fs st' = m_fs st ∧ m_ofs st' = m_ofs st ∧ minv (opath_refs p ++ base) st' ∧ path_result err p).
Proof.
  intros Hi. unfold ovl_mount_dir_noesc. case_bool_decide; [by apply mwp_ret|]. apply mwp_peek.
  destruct (kern_path (m_w st) name) as [e|[m d]] eqn:Ek.
  { apply mwp_ret. split_and!; [done..|]. by eapply law_kern_path_err. }
  destruct (law_kern_path _ _ _ _ Ek) as [Hm Hd]. eapply path_hold_step; [done|]. intros l Hl.
  destruct (_ || _) eqn:Eb.
  - eapply path_put_step; [exact Hl|]. intros l2 Hl2. apply mwp_ret. split; [etrans; apply later_refs|]. done.
  - apply orb_false_iff in Eb as [_ Eb%negb_false_iff]. apply mwp_ret. split; [apply later_refs|]. done.
Qed.

Lemma mount_dir_step base st name :
  minv base st → is_Some name → mwp (ovl_mount_dir name) st (λ '(err, p) st', later st st' ∧
    m_fs st' = m_fs st ∧ m_ofs st' = m_ofs st ∧ minv (opath_refs p ++ base) st' ∧ path_result err p).
Proof.
  intros Hi [n ->]. unfold ovl_mount_dir. apply mwp_mret. destruct (kstrdup n); [|by apply mwp_ret].
  eapply mwp_seq; [by apply mount_dir_noesc_step|]. intros [err [p|]] st1 (Hl & Hf & Ho & Hi1 & Hp); [|by apply mwp_ret].
  case_match; [|by apply mwp_ret]. eapply path_put_step; [exact Hi1|]. intros l Hl2. apply mwp_ret.
  split; [etrans; [done|apply later_refs]|]. done.
Qed.

Lemma check_namelen_still st p : mwp (ovl_check_namelen p) st (λ _ st', still st st').
Proof.
  unfold ovl_check_namelen. apply mwp_peek. destruct (vfs_statfs _ _) as [err len]. case_match.
  - apply mwp_modify, mwp_ret. apply still_ofs. by split; try left.
  - by apply mwp_ret.
Qed.
Lemma keeps_namelen {B} base st p (f : Z → mount W B) Q :
  minv base st → (∀ err st', minv base st' → still st st' → mwp (f err) st' Q) → mwp (ovl_check_namelen p ≫= f) st Q.
Proof. intros Hi Hf. eapply mwp_seq; [apply check_namelen_still|]. cbv beta. intros err st1 Hs. apply Hf; [by eapply minv_still|done]. Qed.

(** ** Traps *)

Definition set_new_trap (d : dentry) (ip : Z) (o : ovl_inode) st : mst W :=
  set_m_refs (RTrap ip :: m_refs st)
    (set_m_cache (<[iptr (d_inode d) := ip]> (m_cache st)) (set_m_k (set_k_inodes (<[ip := o]> (k_inodes (m_k st))) (m_k st)) st)).

Lemma dead_new i stale : dead_inode (set_oi_vfs (Inode (i_ptr i) (i_sb i) (i_ino i) (i_nlink i) (i_rdev i) S_DEAD
  (IAttrs (at_uid (i_attrs i)) (at_gid (i_attrs i)) S_IFDIR (at_atime (i_attrs i)) (at_mtime (i_attrs i)) (at_ctime (i_attrs i))
     (at_size (i_attrs i)))) (ovl_alloc_inode i stale)).
Proof. by split_and!. Qed.

(** A directory that has no trap yet is not one of the trapped ones. *)
Lemma insert_trap_keeps st d ip o d' t :
  m_cache st !! iptr (d_inode d) ≫= (λ ip, k_inodes (m_k st) !! ip) = None → k_inodes (m_k st) !! ip = None →
  cached_trap st d' t → cached_trap (set_new_trap d ip o st) d' t.
Proof.
  intros Hn Hip [Hc [o' Ho]]. split; cbn.
  - rewrite lookup_insert_ne; [done|]. intros E. rewrite E, Hc in Hn. cbn in Hn. by rewrite Ho in Hn.
  - exists o'. rewrite lookup_insert_ne by congruence. done.
Qed.

Lemma new_trap_inv base st d ip o :
  minv base st → m_cache st !! iptr (d_inode d) ≫= (λ ip, k_inodes (m_k st) !! ip) = None →
  k_inodes (m_k st) !! ip = None → ip ≠ NULL → dead_inode o →
  minv (RTrap ip :: base) (set_new_trap d ip o st).
Proof.
  intros Hi Hn Hip Hnull Ho. pose proof Hi as [? ? Hr ? [] [t1 t2 t3 t4 t5 t6 t7] [] [l1 l2 l3 l4 l5]].
  assert (∀ d' t, cached_trap st d' t → cached_trap (set_new_trap d ip o st) d' t) as Hk by (intros; by apply insert_trap_keeps).
  split; [done|done| |done|by split| |by split|].
  - cbn. rewrite Hr. apply Permutation_middle.
  - split; [|done| | | | |done].
    + intros i o' Hio. cbn in Hio. apply lookup_insert_Some in Hio as [[<- <-]|[_ Hio]]; [done|by apply (t1 i)].
    + intros t Ht. destruct (t3 t Ht) as [d' Hd']. exists d'. by apply Hk.
    + intros Hu. destruct (t4 Hu) as (t & ? & ?). exists t. split; [done|by apply Hk].
    + intros d' t ? ?. by apply Hk, t5.
    + intros i l Hl. destruct (t6 i l Hl) as (t & ? & ?). exists t. split; [done|by apply Hk].
  - split; [|done..]. intros i l Hl. destruct (l1 i l Hl). by split.
Qed.

(** [ip] is the trap of [d], not yet recorded. *)
Record new_trap st (d : dentry) (ip : Z) : Prop := {
  nt_cached : cached_trap st d ip;
  nt_fresh : ip ∉ all_traps (m_fs st);
}.

Lemma later_same_fs st st' : m_fs st' = m_fs st → m_ofs st' = m_ofs st → m_sb st' = m_sb st → later st st'.
Proof. intros Hf Ho Hsb. split; [|rewrite Ho; by left]. by split; rewrite ?Ho, ?Hf, ?Hsb. Qed.

Lemma get_trap_step base st d :
  minv base st → mwp (get_trap d) st (λ r st', later st st' ∧ m_fs st' = m_fs st ∧ m_ofs st' = m_ofs st ∧
    match r with
    | PErr e => e ≠ 0 ∧ minv base st'
    | PPtr ip => new_trap st' d ip ∧ minv (RTrap ip :: base) st' ∧ is_Some (d_inode d)
    | PNull => False
    end).
Proof.
  intros Hi. unfold get_trap. apply mwp_peek. unfold ovl_get_trap_inode. cbv beta zeta delta [id].
  destruct (d_is_dir d) eqn:Ed; cbn [negb]; [|by apply mwp_ret].
  destruct (m_cache st !! iptr (d_inode d) ≫= (λ ip, k_inodes (m_k st) !! ip)) as [o|] eqn:Ec; [by apply mwp_ret|].
  destruct (new_inode (k_w (m_k st))) as [[i stale]|]; [|by apply mwp_ret].
  cbn [fmap option_fmap option_map]. set (ip := fresh _).
  assert (ip ∉ dom (k_inodes (m_k st)) ∪ {[NULL]}) as Hip by apply is_fresh.
  apply not_elem_of_union in Hip as [Hip1%not_elem_of_dom Hip2%not_elem_of_singleton].
  apply mwp_modify, mwp_modify, mwp_ret. cbv zeta.
  split; [by apply later_same_fs|]. split; [done|]. split; [done|]. split.
  - split; [|].
    + split; [apply (lookup_insert_eq (m_cache st))|]. eexists. apply (lookup_insert_eq (k_inodes (m_k st))).
    + cbn. intros Hin. destruct (ti_cached _ (mi_traps _ _ _ Hi) _ Hin) as (d' & _ & o & Ho). congruence.
  - split; [apply (new_trap_inv base st d ip (set_oi_vfs _ (ovl_alloc_inode i stale))); [done|exact Ec|done|done|apply dead_new]|]. unfold d_is_dir in Ed.
    destruct (d_inode d); [by eexists|done].
Qed.

(** Recording it among the four traps of struct ovl_fs. *)
Lemma record_trap base st st' d ip :
  minv (RTrap ip :: base) st → new_trap st d ip →
  m_k st' = m_k st → m_cache st' = m_cache st → m_istate st' = m_istate st → m_bdevs st' = m_bdevs st → m_refs st' = m_refs st →
  m_sb st' = m_sb st →
  all_traps (m_fs st') ≡ₚ ip :: all_traps (m_fs st) →
  (∃ a b c e, m_fs st' = fs_set_traps a b c e (m_fs st) ∧
     (fs_upper_mnt (m_ofs st) ≠ NULL → a = mf_upperdir_trap (m_fs st)) ∧
     (mf_workbasedir (m_fs st) ≠ None → b = mf_workbasedir_trap (m_fs st) ∨ mf_workbasedir (m_fs st) = Some d ∧ b = Some ip) ∧
     (is_Some (mf_workbasedir_trap (m_fs st)) → is_Some b)) →
  minv base st' ∧ later st st'.
Proof.
  intros Hi [Hc Hn] Ek Eca Ei Eb Er Es Et (a & b & c & e & Ef & Ha & Hbt & Hb2).
  pose proof Hi as [Hheld Hdents Hr Hu [b1 b2 b3] [t1 t2 t3 t4 t5 t6 t7] [d1 d2 d3 d4 d5 d6 d7] [l1 l2 l3 l4 l5]].
  assert (m_ofs st' = m_ofs st) as Eo by (unfold m_ofs; by rewrite Ek).
  assert (∀ d' t, cached_trap st d' t → cached_trap st' d' t) as Hk by (intros d' t; unfold cached_trap; by rewrite Eca, Ek).
  split.
  - split; [by rewrite Ek|by rewrite Ek| | | | | |].
    + rewrite Er, Hr. unfold owned. rewrite Et, Eo, Ef. cbn. solve_Permutation.
    + intros p. specialize (Hu p). unfold locked_by, istate in *. rewrite Eo, Ei, Ef. done.
    + split; rewrite ?Eb, ?Ef; done.
    + split.
      * by rewrite Ek.
      * rewrite Et. by constructor.
      * intros t. rewrite Et. intros [->|Ht]%elem_of_cons; [exists d; by apply Hk|]. destruct (t3 t Ht) as [d' ?]. exists d'. by apply Hk.
      * rewrite Eo. intros Hne. destruct (t4 Hne) as (t & Ht & ?). exists t. split; [|by apply Hk]. rewrite Ef. cbn. by rewrite (Ha Hne).
      * rewrite Ef. cbn. intros d' t Hd' Hbb. destruct Hbt as [E|[E1 E2]]; [by rewrite Hd'| |].
        -- apply Hk, t5; [done|congruence].
        -- simplify_eq. by apply Hk.
      * rewrite Eo, Ef. cbn. intros i l Hl. destruct (t6 i l Hl) as (t & ? & ?). exists t. split; [done|by apply Hk].
      * by rewrite Eo, Ef.
    + split; rewrite ?Eo, ?Ef; done.
    + split; rewrite ?Eo, ?Ef; try done. intros i l Hl. destruct (l1 i l Hl) as [o1 o2 o3 o4]. split; [done..|]. by rewrite Eo, Ef.
  - split; [|rewrite Eo; by left]. by split; rewrite ?Eo, ?Ef, ?Es.
Qed.

(** Storing the new trap with [set]. *)
Record records (f : mount_fs) (upper : Z) (d : dentry) (set : Z → mount_fs → mount_fs) : Prop := {
  rs_traps ip : all_traps (set ip f) ≡ₚ ip :: all_traps f;
  rs_shape ip : ∃ a b c e, set ip f = fs_set_traps a b c e f ∧
     (upper ≠ NULL → a = mf_upperdir_trap f) ∧
     (mf_workbasedir f ≠ None → b = mf_workbasedir_trap f ∨ mf_workbasedir f = Some d ∧ b = Some ip) ∧
     (is_Some (mf_workbasedir_trap f) → is_Some b);
}.
Lemma setup_trap_step base st d set :
  minv base st → records (m_fs st) (fs_upper_mnt (m_ofs st)) d set →
  mwp (ovl_setup_trap d set) st (λ r st', later st st' ∧ minv base st' ∧ m_ofs st' = m_ofs st ∧
    (r = 0 ∧ (∃ ip, m_fs st' = set ip (m_fs st) ∧ cached_trap st' d ip) ∨ r ≠ 0 ∧ m_fs st' = m_fs st)).
Proof.
  intros Hi [Hp Hs]. unfold ovl_setup_trap. eapply mwp_seq; [by apply get_trap_step|].
  intros [|e|ip] st1 (Hl & Hf & Ho & Hr); [done| |].
  - destruct Hr as [Hne Hi1]. apply mwp_ret. split_and!; [done..|]. by right.
  - destruct Hr as (Hn & Hi1 & _). apply mwp_modify, mwp_ret. set (st2 := set_m_fs _ _).
    destruct (record_trap base st1 st2 d ip) as [Hi2 Hl2]; [done|done|done|done|done|done|done|done| | |].
    + subst st2. cbn. rewrite Hf. apply Hp.
    + subst st2. cbn. rewrite Hf, Ho. apply Hs.
    + split; [by etrans|]. split; [done|]. split; [done|]. left. split; [done|]. exists ip. subst st2. cbn. rewrite Hf.
      split; [done|]. apply Hn.
Qed.
Lemma records_upper f d : mf_upperdir_trap f = None → records f NULL d set_upperdir_trap.
Proof.
  intros Hn. split; intros ip; [unfold all_traps; rewrite Hn; cbn; solve_Permutation|].
  do 4 eexists. split; [done|]. split; [done|]. split; [by left|done].
Qed.
Lemma records_workbasedir f u d :
  mf_workbasedir f = Some d → mf_workbasedir_trap f = None → records f u d set_workbasedir_trap.
Proof.
  intros Hd Hn. split; intros ip; [unfold all_traps; rewrite Hn; cbn; solve_Permutation|].
  do 4 eexists. split; [done|]. split; [done|]. split; [by right|]. by eexists.
Qed.
Lemma records_workdir f u d : mf_workdir_trap f = None → records f u d set_workdir_trap.
Proof.
  intros Hn. split; intros ip; [unfold all_traps; rewrite Hn; cbn; solve_Permutation|].
  do 4 eexists. split; [done|]. split; [done|]. split; [by left|done].
Qed.
Lemma records_indexdir f u d : mf_indexdir_trap f = None → records f u d set_indexdir_trap.
Proof.
  intros Hn. split; intros ip; [unfold all_traps; rewrite Hn; cbn; solve_Permutation|].
  do 4 eexists. split; [done|]. split; [done|]. split; [by left|done].
Qed.

(** ** In-use locks *)

Lemma trylock_step {B} base st d i set (f : unit → mount W B) (g : mount W B) Q :
  minv base st → d_inode d = Some i → (∀ p, locked_by (set_m_fs (set (m_fs st)) st) p = locked_by st p || (i_ptr i =? p)) →
  (∀ st', inuse_inv st0 st' → m_k st' = m_k st → m_fs st' = set (m_fs st) → m_cache st' = m_cache st →
     m_bdevs st' = m_bdevs st → m_refs st' = m_refs st → m_sb st' = m_sb st → mwp (f tt) st' Q) →
  (∀ st', minv base st' → m_k st' = m_k st → m_fs st' = m_fs st → m_sb st' = m_sb st → mwp g st' Q) →
  mwp (locked ← inuse_trylock d; if (locked : bool) then on_fs set ≫= f else g) st Q.
Proof.
  intros Hi Hd Hset Hf Hg. unfold inuse_trylock. apply mwp_assoc. rewrite Hd. apply mwp_mret. apply mwp_assoc.
  apply mwp_peek. unfold ovl_inuse_trylock. pose proof (mi_inuse _ _ _ Hi (i_ptr i)) as Hii.
  assert (∀ p s, istate (set_m_istate (<[i_ptr i := s]> (m_istate st)) st) p = if i_ptr i =? p then s else istate st p) as His.
  { intros p s. unfold istate. cbn. destruct (Z.eqb_spec (i_ptr i) p) as [<-|Hne]; [by rewrite lookup_insert_eq|by rewrite lookup_insert_ne]. }
  destruct (Z.eqb_spec (Z.land (istate st (i_ptr i)) I_OVL_INUSE) 0) as [Hz|Hnz].
  - apply mwp_assoc, mwp_modify, mwp_mret, mwp_modify. apply Hf; [|done..]. intros p. cbn [m_fs].
    assert (locked_by st (i_ptr i) = false) as Hnl.
    { destruct (locked_by st (i_ptr i)); [|done]. destruct Hii as [_ E]. rewrite E in Hz.
      rewrite Z.land_lor_distr_l, Z.land_diag in Hz. apply Z.lor_eq_0_iff in Hz as [_ Hz]. done. }
    rewrite Hnl in Hii. unfold set_m_fs at 1. change (locked_by _ p) with (locked_by (set_m_fs (set (m_fs st)) st) p) at 1.
    rewrite Hset. change (istate (set_m_fs _ _) p) with (istate (set_m_istate (<[i_ptr i := Z.lor (istate st (i_ptr i)) I_OVL_INUSE]> (m_istate st)) st) p).
    rewrite His. destruct (Z.eqb_spec (i_ptr i) p) as [<-|Hne].
    + rewrite orb_true_r. rewrite <- Hii. done.
    + rewrite orb_false_r. apply (mi_inuse _ _ _ Hi).
  - apply mwp_assoc, mwp_modify, mwp_mret. apply Hg; [|done..].
    destruct Hi as [? ? ? Hu [] [] [] [l1 ? ? ? ?]]. split; [done|done|done| |by split|by split|by split|].
    + intros p. specialize (Hu p). rewrite His. change (locked_by _ p) with (locked_by st p).
      destruct (Z.eqb_spec (i_ptr i) p) as [<-|]; [done|done].
    + split; [|done..]. intros j l Hl. destruct (l1 j l Hl). by split.
Qed.

Lemma minv_locked base st set :
  minv base st → (∃ u w, set = fs_set_locked u w (m_fs st) ∧ (u = true → fs_upper_mnt (m_ofs st) ≠ NULL)) →
  ∀ st', inuse_inv st0 st' → m_k st' = m_k st → m_fs st' = set → m_cache st' = m_cache st →
     m_bdevs st' = m_bdevs st → m_refs st' = m_refs st → m_sb st' = m_sb st → minv base st' ∧ later st st'.
Proof.
  intros [? ? Hr ? [b1 b2 b3] [t1 t2 t3 t4 t5 t6 t7] [d1 d2 d3 d4 d5 d6 d7] [l1 l2 l3 l4 l5]] (u & w & -> & Hu) st' Hi Ek Ef Ec Eb Er Es.
  assert (m_ofs st' = m_ofs st) as Eo by (unfold m_ofs; by rewrite Ek).
  assert (∀ d' t, cached_trap st d' t → cached_trap st' d' t) as Hk by (intros d' t; unfold cached_trap; by rewrite Ec, Ek).
  split.
  - split; [by rewrite Ek|by rewrite Ek|by rewrite Er, Ef, Eo|done| | | |].
    + split; rewrite ?Eb, ?Ef; done.
    + split; rewrite ?Ek, ?Ef, ?Eo; try done.
      * intros t Ht. destruct (t3 t Ht) as [d ?]. exists d. by apply Hk.
      * intros Hn. destruct (t4 Hn) as (t & ? & ?). exists t. split; [done|by apply Hk].
      * intros d t ? ?. by apply Hk, t5.
      * intros i l Hl. destruct (t6 i l Hl) as (t & ? & ?). exists t. split; [done|by apply Hk].
    + split; rewrite ?Ef, ?Eo; done.
    + split; rewrite ?Ef, ?Eo; try done. intros i l Hl. destruct (l1 i l Hl) as [o1 o2 o3 o4]. split; [done..|]. by rewrite Ef, Eo.
  - split; [|rewrite Eo; by left]. by split; rewrite ?Eo, ?Ef, ?Es.
Qed.

(** ** The upper directory *)

(** No lower layer is recorded yet, and none is by this step. *)
Definition no_lower st : Prop := fs_lower_layers (m_ofs st) = [] ∧ fs_lower_fs (m_ofs st) = [].
Record early st st' : Prop := {
  ea_later : later st st';
  ea_lower : no_lower st → no_lower st';
}.
#[export] Instance early_preorder : PreOrder early.
Proof. split; [intros a; by split|]. intros a b c [] []. split; [by etrans|auto]. Qed.
Lemma early_still st st' : still st st' → early st st'.
Proof.
  intros Hs. split; [by apply later_still|]. destruct (sl_core _ _ Hs). unfold no_lower. by rewrite co_layers, co_sbs.
Qed.
Lemma early_ofs st st' : later st st' → m_ofs st' = m_ofs st → early st st'.
Proof. intros Hl Ho. split; [done|]. unfold no_lower. by rewrite Ho. Qed.

Lemma set_upper_step base st m t :
  minv (RMnt m :: base) st → fs_upper_mnt (m_ofs st) = NULL → m ≠ NULL → is_Some (d_inode (mnt_root m)) →
  mf_upperdir_trap (m_fs st) = Some t → cached_trap st (mnt_root m) t → mf_upperdir_locked (m_fs st) = false →
  no_lower st → is_Some (c_upperdir (fs_config (m_ofs st))) →
  let st' := set_m_ofs (ofs_set_upper m (mnt_sb m) (m_ofs st)) st in minv base st' ∧ early st st'.
Proof.
  intros [? ? Hr Hi [] [t1 t2 t3 t4 t5 t6 t7] [d1 d2 d3 d4 d5 d6 d7] [l1 l2 l3 l4 l5]] Hn Hm Hroot Ht Hc Hlk [Hl Hs] [up Hup] st'.
  split; [|split; [split; [split|by left]|by split]].
  - split; [done|done| | |by split| | |].
    + assert (mref (fs_upper_mnt (m_ofs st)) = []) as E by (by rewrite Hn).
      assert (mref m = [RMnt m]) as E2 by (unfold mref; by destruct (Z.eqb_spec m NULL)).
      change (m_refs st') with (m_refs st). rewrite Hr. unfold owned. rewrite E.
      change (fs_upper_mnt (m_ofs st')) with m. rewrite E2. cbn. solve_Permutation.
    + intros p. specialize (Hi p). unfold locked_by in *. cbn. rewrite Hlk in *. done.
    + split; [done|done|done|intros _; by exists t|done|done|done].
    + split; try done.
    + assert (fs_lower_layers (m_ofs st') = []) as Hl' by exact Hl. assert (fs_lower_fs (m_ofs st') = []) as Hs' by exact Hs.
      split; rewrite ?Hl', ?Hs'; [done|constructor|by intros ? ?%elem_of_nil| |intros _; constructor].
      rewrite <- Hs. exact l4.
  - done.
  - intros. congruence.
  - intros E. congruence.
  - done.
  - done.
  - done.
  - done.
  - done.
Qed.

(** What the upper directory's set-up leaves alone. *)
Record same_work (f f' : mount_fs) : Prop := {
  sw_workbasedir : mf_workbasedir f' = mf_workbasedir f;
  sw_workdir : mf_workdir f' = mf_workdir f;
  sw_indexdir : mf_indexdir f' = mf_indexdir f;
  sw_locked : mf_workdir_locked f' = mf_workdir_locked f;
  sw_base_trap : mf_workbasedir_trap f' = mf_workbasedir_trap f;
  sw_work_trap : mf_workdir_trap f' = mf_workdir_trap f;
  sw_index_trap : mf_indexdir_trap f' = mf_indexdir_trap f;
}.
Record upper_ready st (p : mpath) : Prop := {
  ur_mnt : fs_upper_mnt (m_ofs st) ≠ NULL;
  ur_root : mnt_root (fs_upper_mnt (m_ofs st)) = p.2;
  ur_path : dir_path p;
}.
Lemma upper_ready_later st st' p : later0 st st' → upper_ready st p → upper_ready st' p.
Proof. intros Hl [Hm Hr Hp]. destruct (la_upper _ _ Hl Hm) as [E _]. split; [by rewrite E|by rewrite E|done]. Qed.

Lemma get_upper_step base st :
  minv base st → fs_upper_mnt (m_ofs st) = NULL → mf_upperdir_trap (m_fs st) = None →
  mf_upperdir_locked (m_fs st) = false → no_lower st → is_Some (c_upperdir (fs_config (m_ofs st))) →
  mwp ovl_get_upper st (λ '(err, p) st', early st st' ∧ minv (opath_refs p ++ base) st' ∧ same_work (m_fs st) (m_fs st') ∧
    match p with Some p => err = 0 → upper_ready st' p | None => err ≠ 0 end).
Proof.
  intros Hi Hn Ht Hlk Hlow Hup. unfold ovl_get_upper, config. apply mwp_peek.
  eapply mwp_seq; [by apply mount_dir_step|]. intros [err [p|]] st1 (Hl1 & Hf1 & Ho1 & Hi1 & Hp); cbn [path_result opath_refs] in *;
    [|apply mwp_ret; split; [by apply early_ofs|]; split; [done|]; split; [by rewrite Hf1|done]].
  destruct Hp as [-> Hp]. apply mwp_peek.
  enough (∀ err st', early st st' ∧ minv (path_refs p ++ base) st' ∧ same_work (m_fs st) (m_fs st') ∧ (err = 0 → upper_ready st' p) →
            mwp (mret (err, Some p)) st' (λ '(err, p0) st', early st st' ∧ minv (opath_refs p0 ++ base) st' ∧ same_work (m_fs st) (m_fs st') ∧
    match p0 with Some p => err = 0 → upper_ready st' p | None => err ≠ 0 end)) as Hend.
  2:{ intros e st' Hx. by apply mwp_ret. }
  eapply mwp_seq; [|apply Hend]. clear Hend.
  assert (early st st1) as He1 by (by apply early_ofs).
  case_match; [apply mwp_ret; split; [done|]; split; [done|]; split; [by rewrite Hf1|done]|].
  eapply mwp_then; [eapply mwp_mono; [apply check_namelen_still|]; intros e st' Hs; exact Hs| |].
  { intros e st2 Hs Hne. cbv beta in Hs. split; [etrans; [exact He1|by apply early_still]|]. split; [by eapply minv_still|].
    rewrite (sl_fs _ _ Hs), Hf1. done. }
  cbv beta. intros st2 Hs2. assert (early st st2) as He2 by (etrans; [exact He1|by apply early_still]).
  assert (minv (path_refs p ++ base) st2) as Hi2 by (by eapply minv_still). pose proof (sl_fs _ _ Hs2) as Hf2. rewrite Hf1 in Hf2.
  assert (fs_upper_mnt (m_ofs st2) = NULL) as Hn2 by (rewrite (co_upper _ _ (sl_core _ _ Hs2)), Ho1; done).
  eapply mwp_then; [eapply setup_trap_step; [exact Hi2|]; rewrite Hn2, Hf2; by apply records_upper| |].
  { intros e st3 (Hl3 & Hi3 & Ho3 & [[-> _]|[_ Hf3]]) Hne; [done|].
    split; [etrans; [exact He2|by apply early_ofs]|]. split; [done|]. rewrite Hf3, Hf2. done. }
  intros st3 (Hl3 & Hi3 & Ho3 & [[_ (ip & Hf3 & Hc3)]|[? _]]); [|done].
  assert (early st st3) as He3 by (etrans; [exact He2|by apply early_ofs]). rewrite Hf2 in Hf3.
  assert (same_work (m_fs st) (m_fs st3)) as Hsw3 by (by rewrite Hf3).
  apply mwp_peek. destruct p as [pm pd]. destruct (law_clone_valid (m_w st3) (pm, pd)) as [Hnn Hee].
  destruct (clone_private_mount _ _) as [|e|m] eqn:Ecl; [done|apply mwp_ret; split_and!; [done..|]; intros ->; by specialize (Hee 0 eq_refl)|].
  destruct (law_clone _ _ _ _ Ecl) as (Hm & Hsb & Hroot). eapply mwp_hold; [exact Hi3|]. intros st4 Hi4 Est4.
  destruct (set_upper_step (path_refs (pm, pd) ++ base) st4 m ip) as [Hi5 He5]; [done|..].
  { rewrite Est4. change (fs_upper_mnt (m_ofs st3) = NULL). by rewrite Ho3. }
  { done. } { rewrite Hroot. apply Hp. } { rewrite Est4. cbn. by rewrite Hf3. }
  { rewrite Hroot, Est4. exact Hc3. } { rewrite Est4. cbn. rewrite Hf3. done. } { rewrite Est4. by apply He3. }
  { rewrite Est4. change (is_Some (c_upperdir (fs_config (m_ofs st3)))). by rewrite (cl_upperdir _ _ (la_cfg _ _ (la_later _ _ (ea_later _ _ He3)))). }
  apply mwp_modify. set (st5 := set_m_ofs _ st4) in *.
  assert (early st st5) as He5'.
  { etrans; [exact He3|]. etrans; [|exact He5]. rewrite Est4. apply early_ofs; [apply later_refs|done]. }
  assert (m_fs st5 = m_fs st3) as Hf5 by (subst st5; by rewrite Est4).
  assert (upper_ready st5 (pm, pd)) as Hu5 by (by split).
  assert (d_inode (mnt_root m) = d_inode pd) as Hri by (by rewrite Hroot).
  destruct (proj1 (proj2 Hp)) as [ri Hri2]. cbn in Hri2.
  eapply (trylock_step (path_refs (pm, pd) ++ base) st5 _ ri (λ f, fs_set_locked true (mf_workdir_locked f) f) (λ _, mret 0));
    [done|by rewrite Hri| | |].
  - intros q. unfold locked_by. change (m_ofs (set_m_fs _ st5)) with (m_ofs st5). cbn [m_fs set_m_fs fs_set_locked mf_upperdir_locked mf_workdir_locked mf_workbasedir has_iptr].
    rewrite Hf5, Hf3. cbn [set_upperdir_trap fs_set_traps mf_upperdir_locked mf_workdir_locked mf_workbasedir]. rewrite Hlk. cbn [andb orb].
    change (fs_upper_mnt (m_ofs st5)) with m. rewrite Hri, Hri2. cbn [iptr]. apply orb_comm.
  - intros st6 Hu6 Ek6 Ef6 Ec6 Eb6 Er6 Es6. apply mwp_ret.
    destruct (minv_locked (path_refs (pm, pd) ++ base) st5 (m_fs st6)) with (st' := st6) as [Hi6 Hl6]; [done| |done..|].
    { rewrite Ef6. do 2 eexists. split; [done|]. intros _. apply Hu5. }
    assert (m_ofs st6 = m_ofs st5) as Ho6 by (unfold m_ofs; by rewrite Ek6).
    split; [etrans; [exact He5'|by apply early_ofs]|]. split; [done|].
    split; [rewrite Ef6, Hf5; by destruct Hsw3|]. intros _. destruct Hu5. by split; rewrite ?Ho6.
  - intros st6 Hi6 Ek6 Ef6 Es6. unfold ovl_report_in_use, config. apply mwp_peek, mwp_ret.
    assert (m_ofs st6 = m_ofs st5) as Ho6 by (unfold m_ofs; by rewrite Ek6).
    split; [etrans; [exact He5'|apply early_ofs; [by apply later_same_fs|done]]|]. split; [done|].
    split; [by rewrite Ef6, Hf5|]. intros _. destruct Hu5. by split; rewrite ?Ho6.
Qed.

End steps.
