(* ===== verification/MountWork.v ===== *)
(** The work and the index directory of a mount: the steps under write access
    keep the invariant and give the write access back. *)

From S2P Require Import Prelude Types Util Under Options Nlink Fh FhProps Redirect RedirectProps Inode Readdir Kernel KernelProps Work CopyUp WorkProps CopyUpSteps Dir Clean MountState Mount MountInv MountSteps.
From stdpp Require Import gmap.
Local Open Scope Z_scope.

(** ** Write access *)

Definition set_m_held {W} (h : held) (st : mst W) : mst W := set_m_k (set_k_held h (m_k st)) st.
Definition more_write (h : held) : held := Held (h_cred h) (h_locks h) (h_write h + 1).

Section held.
Context {W : Type} `{Under W}.
Implicit Types (st : mst W).

Lemma minv_held st0 base st h : minv st0 base st → minv (set_m_held h st0) base (set_m_held h st).
Proof.
  intros [? ? ? ? [] [] [] [l1 ? ? ? ?]]. split; [done|done|done|done|by split|by split|by split|].
  split; [|done..]. intros i l Hl. destruct (l1 i l Hl). by split.
Qed.
Lemma early_held st st' h h' : early st st' → early (set_m_held h st) (set_m_held h' st').
Proof. intros [[[] ?] ?]. by split. Qed.
Lemma set_held_eq st : set_m_held (k_held (m_k st)) st = st.
Proof. by destruct st as [[] ? ? ? ? ? ?]. Qed.

Context `{!UnderLaws W, Kern W, !KernLaws W}.

(** A body under write access: [R] relates its start to its end and does not
    depend on what the thread holds. *)
Lemma want_write_step st0 base st (body : mount W Z) (R : Z → mst W → mst W → Prop) :
  minv st0 base st → 0 ≤ h_write (k_held (m_k st0)) →
  (∀ st1, minv (set_m_held (more_write (k_held (m_k st0))) st0) base st1 → early st st1 → m_fs st1 = m_fs st →
     m_ofs st1 = m_ofs st → m_refs st1 = m_refs st → mwp body st1 (λ r st2,
       minv (set_m_held (more_write (k_held (m_k st0))) st0) base st2 ∧ R r st1 st2)) →
  mwp (mok_then (lift ovl_want_write) (err ← body; lift ovl_drop_write;; mret err)) st (λ r st',
    minv st0 base st' ∧ (r ≠ 0 ∧ early st st' ∧ m_fs st' = m_fs st ∧ m_ofs st' = m_ofs st ∨
      ∃ st1 st2, early st st1 ∧ m_fs st1 = m_fs st ∧ m_ofs st1 = m_ofs st ∧ R r st1 st2 ∧
         st' = set_m_held (k_held (m_k st0)) st2)).
Proof.
  intros Hi Hw Hb. unfold mok_then. apply mwp_bind. unfold mwp at 1, lift, ovl_want_write, mbind, kernel_bind, on_w.
  destruct (mnt_want_write (k_w (m_k st))) as [err w]. destruct (Z.eqb_spec err 0) as [->|Hne]; cbn [negb].
  2:{ unfold mret, kernel_ret, mount_ret. cbv beta iota.
      destruct (Z.eqb_spec err 0) as [|_]; [done|]. cbn [negb]. apply mwp_ret.
      assert (still st (set_m_k (set_k_w w (m_k st)) st)) as Hs by (apply still_lift; by split).
      split; [by eapply minv_still|]. left. split; [done|]. split; [by apply early_still|]. done. }
  unfold modify, mret, kernel_ret. cbv beta iota. cbn [Z.eqb negb]. set (st1 := set_m_k _ st).
  assert (still st (set_m_k (set_k_w w (m_k st)) st)) as Hs by (apply still_lift; by split).
  assert (st1 = set_m_held (more_write (k_held (m_k st0))) (set_m_k (set_k_w w (m_k st)) st)) as E1
    by (subst st1; by rewrite <- (mi_held _ _ _ Hi)).
  assert (early st st1) as He1.
  { rewrite E1. rewrite <- (set_held_eq st) at 1. by apply early_held, early_still. }
  eapply mwp_seq; [apply (Hb st1); [rewrite E1; apply minv_held; by eapply minv_still|done|by rewrite E1..]|].
  intros r st2 [Hi2 HR]. apply mwp_bind. unfold mwp at 1, lift, ovl_drop_write. pose proof (mi_held _ _ _ Hi2) as Hh2.
  change (k_held (m_k st2) = more_write (k_held (m_k st0))) in Hh2. rewrite Hh2. cbn [h_write more_write].
  destruct (Z.leb_spec (h_write (k_held (m_k st0)) + 1) 0); [lia|]. apply mwp_ret.
  assert (set_m_k (set_k_held (Held (h_cred (k_held (m_k st0))) (h_locks (k_held (m_k st0))) (h_write (k_held (m_k st0)) + 1 - 1)) (m_k st2)) st2
    = set_m_held (k_held (m_k st0)) st2) as E2.
  { unfold set_m_held. do 2 f_equal. destruct (k_held (m_k st0)) as [c l n]. cbn. f_equal. lia. }
  cbn [h_cred h_locks more_write]. rewrite E2. split.
  - apply (minv_held _ _ _ (k_held (m_k st0))) in Hi2. unfold set_m_held in Hi2 at 1 2. cbn in Hi2.
    change (minv (set_m_held (k_held (m_k st0)) st0) base (set_m_held (k_held (m_k st0)) st2)) in Hi2. by rewrite set_held_eq in Hi2.
  - right. exists st1, st2. split; [done|]. split; [by rewrite E1|]. split; [by rewrite E1|done].
Qed.

(** lock_rename and unlock_rename in a row. *)
Lemma lock_pair_quiet (k : kst W) p1 p2 i1 i2 :
  d_inode p1 = Some i1 → d_inode p2 = Some i2 → d_ptr p1 ≠ d_ptr p2 →
  wp (t ← lock_rename p1 p2; unlock_rename p1 p2;; mret t) k (λ _ k', quiet k k').
Proof.
  intros Hi1 Hi2 Hne. unfold lock_rename. rewrite Hi1, Hi2. apply wp_assoc, wp_mret, wp_assoc, wp_mret.
  destruct (Z.eqb_spec (d_ptr p1) (d_ptr p2)); [done|].
  apply wp_assoc, wp_bind, wp_lock. apply wp_assoc, wp_bind, wp_lock. apply wp_assoc, wp_bind, wp_lock. apply wp_ask.
  apply wp_bind. eapply unlock_rename_step; [done..|by cbn|]. apply wp_ret. split; [done..|]. cbn. by destruct (k_held k).
Qed.
Lemma workdir_ok_still st wd up :
  is_Some (d_inode wd) → is_Some (d_inode up) → mwp (ovl_workdir_ok wd up) st (λ _ st', still st st').
Proof.
  intros [i1 H1] [i2 H2]. unfold ovl_workdir_ok. destruct (Z.eqb_spec (d_ptr wd) (d_ptr up)); [by apply mwp_ret|].
  pose proof (lock_pair_quiet (m_k st) wd up i1 i2 H1 H2 n) as Hq. apply mwp_bind. unfold mwp at 1, lift.
  unfold wp, mbind, kernel_bind in Hq. destruct (lock_rename wd up (m_k st)) as [[t k1]| |]; [|done..].
  apply mwp_bind. unfold mwp at 1. change (m_k (set_m_k k1 st)) with k1.
  destruct (unlock_rename wd up k1) as [[u k2]| |]; [|done..]. apply mwp_ret. by apply (still_lift k2 st).
Qed.
End held.

Section work.
Context {W : Type} `{Under W, !UnderLaws W, Kern W, !KernLaws W, DirKern W, MountKern W, !MountLaws W, RbLib, OptLib}.
Context (kmalloc : list centry → string → bool) (export_op : Z → option (bool * bool)).
Implicit Types (st : mst W).

(** ** Recording a directory in struct ovl_fs *)

(** A change of [mount_fs] and of the flags of [ovl_fs] that leaves traps,
    locks, layers and the upper mount alone. *)
Record same_rest (f f' : mount_fs) (o o' : ovl_fs) : Prop := {
  sr_locked : mf_upperdir_locked f' = mf_upperdir_locked f ∧ mf_workdir_locked f' = mf_workdir_locked f;
  sr_upper_trap : mf_upperdir_trap f' = mf_upperdir_trap f;
  sr_base_trap : mf_workbasedir_trap f' = mf_workbasedir_trap f;
  sr_work_trap : mf_workdir_trap f' = mf_workdir_trap f;
  sr_index_trap : mf_indexdir_trap f' = mf_indexdir_trap f;
  sr_layer_traps : mf_layer_traps f' = mf_layer_traps f;
  sr_devs : mf_lower_devs f' = mf_lower_devs f;
  sr_upper : fs_upper_mnt o' = fs_upper_mnt o ∧ fs_upper_sb o' = fs_upper_sb o;
  sr_layers : fs_lower_layers o' = fs_lower_layers o ∧ fs_lower_fs o' = fs_lower_fs o;
  sr_cfg : fs_config o' = fs_config o;
  sr_xino : fs_xino_bits o' = fs_xino_bits o;
}.

Lemma minv_dirs st0 base base' st f o :
  minv st0 base st → same_rest (m_fs st) f (m_ofs st) o →
  let st' := set_m_fs f (set_m_ofs o st) in
  owned (m_fs st) (m_ofs st) ++ base ≡ₚ owned f o ++ base' →
  (mf_workbasedir f = mf_workbasedir (m_fs st) ∨
   mf_workbasedir (m_fs st) = None ∧ mf_workdir_locked f = false ∧ mf_workbasedir_trap f = None) →
  dirs_inv st' → minv st0 base' st' ∧ early st st'.
Proof.
  intros [? ? Hr Hi [b1 b2 b3] [t1 t2 t3 t4 t5 t6 t7] Hd [l1 l2 l3 l4 l5]]
    [[s1 s1'] s2 s3 s4 s5 s6 s7 [s8 s8'] [s9 s9'] s10 s11] st' Hperm Hwb Hdirs.
  assert (Ef : m_fs st' = f) by done. assert (Eo : m_ofs st' = o) by done.
  assert (all_traps f = all_traps (m_fs st)) as Et by (unfold all_traps; by rewrite s2, s3, s4, s5, s6).
  split.
  - split; [done|done|by rewrite Ef, Eo, <- Hperm; exact Hr| | | |done|].
    + intros p. specialize (Hi p). unfold locked_by in *. rewrite Ef, Eo, s1, s8.
      change (istate st' p) with (istate st p).
      destruct Hwb as [->|(E1 & E2 & _)]; [by rewrite s1'|]. rewrite E1 in Hi. rewrite E2. cbn [andb orb].
      rewrite orb_false_r. destruct (mf_workdir_locked (m_fs st)); cbn in Hi; by rewrite orb_false_r in Hi.
    + split; rewrite Ef, ?s7; done.
    + split; rewrite ?Ef, ?Eo, ?Et, ?s8, ?s9, ?s6, ?s2; try done.
      intros d t Hwd Htd. destruct Hwb as [E|(E1 & _ & E2)]; [|congruence]. apply t5; congruence.
    + split; rewrite ?Ef, ?Eo, ?s9, ?s9', ?s8, ?s8', ?s7; try done.
      * intros i l Hl. destruct (l1 i l Hl) as [o1 o2 o3 o4]. split; [done..|]. by rewrite Eo, Ef, s8, s8', s9', s7.
      * unfold wants_fh. rewrite s10, s8. exact l5.
  - split; [|unfold no_lower; by rewrite Eo, s9, s9']. split; [|rewrite Eo; left; exact s11].
    split; rewrite ?Eo, ?Ef, ?s8, ?s8', ?s9, ?s9', ?s10, ?s3; try done.
    intros d Hwd. destruct Hwb as [->|(E & _)]; [done|congruence].
Qed.

Lemma set_workbasedir_step st0 base st d :
  minv st0 (RDentry (d_ptr d) :: base) st → mf_workbasedir (m_fs st) = None → mf_workdir_locked (m_fs st) = false →
  mf_workbasedir_trap (m_fs st) = None → is_Some (d_inode d) →
  minv st0 base (set_m_fs (fs_set_workbasedir (Some d) (m_fs st)) st) ∧ early st (set_m_fs (fs_set_workbasedir (Some d) (m_fs st)) st).
Proof.
  intros Hi Hn Hlk Ht Hd.
  assert (set_m_fs (fs_set_workbasedir (Some d) (m_fs st)) st = set_m_fs (fs_set_workbasedir (Some d) (m_fs st)) (set_m_ofs (m_ofs st) st)) as ->
    by (by destruct st as [[] ? ? ? ? ? ?]).
  eapply minv_dirs; [exact Hi|by split| | |].
  - unfold owned. rewrite Hn. cbn. solve_Permutation.
  - right. done.
  - destruct (mi_dirs _ _ _ Hi). split; try done. by intros ? [= <-].
Qed.

Lemma set_workdir_inv st0 base st d :
  minv st0 (dref d ++ base) st → mf_workdir (m_fs st) = None → positive_opt d →
  mwp (set_workdir d) st (λ _ st', minv st0 base st' ∧ early st st' ∧ m_fs st' = fs_set_workdir d (m_fs st) ∧
    m_ofs st' = ofs_set_dirs (fs_indexdir (m_ofs st)) (bool_decide (is_Some d)) (m_ofs st)).
Proof.
  intros Hi Hn Hd. unfold set_workdir. apply mwp_modify. unfold on_fs_ofs, mmodify, mwp.
  destruct (minv_dirs st0 (dref d ++ base) base st (fs_set_workdir d (m_fs st))
    (ofs_set_dirs (fs_indexdir (m_ofs st)) (bool_decide (is_Some d)) (m_ofs st))) as [Hi' He]; [done|by split| |by left| |].
  - unfold owned. rewrite Hn. cbn. solve_Permutation.
  - destruct (mi_dirs _ _ _ Hi). by split.
  - split; [exact Hi'|]. split; [exact He|]. done.
Qed.
Lemma set_indexdir_inv st0 base st d :
  minv st0 (dref d ++ base) st → mf_indexdir (m_fs st) = None → positive_opt d →
  mwp (set_indexdir d) st (λ _ st', minv st0 base st' ∧ early st st' ∧ m_fs st' = fs_set_indexdir d (m_fs st) ∧
    m_ofs st' = ofs_set_dirs (bool_decide (is_Some d)) (fs_workdir (m_ofs st)) (m_ofs st)).
Proof.
  intros Hi Hn Hd. unfold set_indexdir. apply mwp_modify. unfold on_fs_ofs, mmodify, mwp.
  destruct (minv_dirs st0 (dref d ++ base) base st (fs_set_indexdir d (m_fs st))
    (ofs_set_dirs (bool_decide (is_Some d)) (fs_workdir (m_ofs st)) (m_ofs st))) as [Hi' He]; [done|by split| |by left| |].
  - unfold owned. rewrite Hn. cbn. solve_Permutation.
  - destruct (mi_dirs _ _ _ Hi). by split.
  - split; [exact Hi'|]. split; [exact He|]. done.
Qed.

(** The work directory is given up when there is no index directory. *)
Lemma drop_workdir_inv st0 base st :
  minv st0 base st → mwp (dput (mf_workdir (m_fs st));; set_workdir None) st (λ _ st', minv st0 base st' ∧ early st st' ∧
    m_fs st' = fs_set_workdir None (m_fs st) ∧ m_ofs st' = ofs_set_dirs (fs_indexdir (m_ofs st)) false (m_ofs st)).
Proof.
  intros Hi. eapply mwp_seq with (R := λ _ st', ∃ l, st' = set_m_refs l st ∧ dref (mf_workdir (m_fs st)) ++ l ≡ₚ m_refs st).
  - destruct (mf_workdir (m_fs st)) as [d|] eqn:Ed; cbn [dput dref].
    + destruct (drop1_perm (RDentry (d_ptr d)) (m_refs st)
        (owned (fs_set_workdir None (m_fs st)) (m_ofs st) ++ base)) as (l & Hl & Hp).
      { rewrite (mi_refs _ _ _ Hi). unfold owned. rewrite Ed. cbn. solve_Permutation. }
      unfold mwp, release. rewrite Hl. exists l. split; [done|]. rewrite Hp, (mi_refs _ _ _ Hi). unfold owned. rewrite Ed. cbn. solve_Permutation.
    + apply mwp_ret. exists (m_refs st). split; [by destruct st|done].
  - intros _ st1 (l & -> & Hl). unfold set_workdir. apply mwp_modify. unfold on_fs_ofs, mmodify, mwp.
    destruct (minv_dirs st0 base (dref (mf_workdir (m_fs st)) ++ base) st (fs_set_workdir None (m_fs st))
      (ofs_set_dirs (fs_indexdir (m_ofs st)) false (m_ofs st))) as [Hi' He]; [done|by split| |by left| |].
    + unfold owned. cbn. solve_Permutation.
    + destruct (mi_dirs _ _ _ Hi). by split.
    + set (st2 := set_m_fs _ (set_m_ofs _ st)) in *.
      assert (minv st0 base (set_m_refs l st2)) as Hi2.
      { eapply minv_refs; [exact Hi'|]. pose proof (mi_refs _ _ _ Hi') as Hr. change (m_refs st2) with (m_refs st) in Hr.
        rewrite Hr in Hl. apply (Permutation.Permutation_app_inv_l (dref (mf_workdir (m_fs st)))). rewrite Hl. solve_Permutation. }
      split; [exact Hi2|]. split; [etrans; [exact He|apply (early_ofs st2 (set_m_refs l st2)); [apply later_refs|done]]|]. done.
Qed.

(** ** Creating the directories *)

Lemma create_dir_step st0 base st b name persist :
  minv st0 base st → mf_workbasedir (m_fs st) = Some b →
  mwp (create_dir kmalloc name persist) st (λ d st', minv st0 (dref d ++ base) st' ∧ early st st' ∧ m_fs st' = m_fs st ∧
    core (m_ofs st) (m_ofs st') ∧ positive_opt d).
Proof.
  intros Hi Hb. unfold create_dir. apply mwp_peek. eapply mwp_deref; [exact Hb|].
  apply mwp_bind. eapply mwp_lift; [apply workdir_create_quiet; by eapply (di_workbase _ (mi_dirs _ _ _ Hi))|].
  intros d st1 Hs Hd. assert (minv st0 base st1) as Hi1 by (by eapply minv_still).
  destruct d as [d|]; [|apply mwp_ret; split; [done|]; split; [by apply early_still|]; split; [apply (sl_fs _ _ Hs)|];
    split; [apply (sl_core _ _ Hs)|done]].
  unfold dget. eapply mwp_hold; [exact Hi1|]. intros st2 Hi2 ->. apply mwp_ret.
  split; [exact Hi2|]. split; [etrans; [by apply early_still|apply early_ofs; [apply later_refs|done]]|].
  split; [apply (sl_fs _ _ Hs)|]. split; [apply (sl_core _ _ Hs)|done].
Qed.

(** Trying out what the upper file system can do only turns features off. *)
Lemma cfg_index_le c : cfg_le c (cfg_index false c).
Proof. by split. Qed.
Lemma cfg_nfs_le c : cfg_le c (cfg_nfs_export false c).
Proof. by split. Qed.
Lemma cfg_metacopy_le b c : cfg_le c (cfg_metacopy b c).
Proof. by split. Qed.
Lemma still_config st f : cfg_le (fs_config (m_ofs st)) (f (fs_config (m_ofs st))) →
  still st (set_m_ofs (ofs_set_config (f (fs_config (m_ofs st))) (m_ofs st)) st).
Proof. intros Hc. apply still_ofs. by apply (core_config f). Qed.
Lemma still_caps st a b : still st (set_m_ofs (ofs_set_caps a b (m_ofs st)) st).
Proof. apply still_ofs, core_caps. by left. Qed.
Lemma still_xino st : still st (set_m_ofs (ofs_set_xino 0 (m_ofs st)) st).
Proof. apply still_ofs, core_caps. by right. Qed.

Lemma mwp_config {B} st f (g : unit → mount W B) Q :
  cfg_le (fs_config (m_ofs st)) (f (fs_config (m_ofs st))) →
  (∀ st', still st st' → fs_config (m_ofs st') = f (fs_config (m_ofs st)) → fs_upper_mnt (m_ofs st') = fs_upper_mnt (m_ofs st) →
     fs_xino_bits (m_ofs st') = fs_xino_bits (m_ofs st) → mwp (g tt) st' Q) →
  mwp (on_config f ≫= g) st Q.
Proof. intros Hc Hg. apply mwp_modify, Hg; [by apply still_config|done..]. Qed.

Lemma probes_still st wd : is_Some (d_inode wd) →
  mwp (probe_tmpfile wd;; probe_xattr wd;; probe_fh export_op wd) st (λ _ st', still st st').
Proof.
  intros Hwd. unfold probe_tmpfile. apply mwp_assoc, mwp_bind.
  eapply mwp_lift with (P := any); [by apply quietly_on_w|]. intros t st1 Hs1 _. apply mwp_modify.
  assert (still st1 (set_m_ofs (ofs_set_caps (fs_noxattr (m_ofs st1)) (match t with PErr _ => false | _ => true end) (m_ofs st1)) st1)) as Hs2
    by apply still_caps.
  set (st2 := set_m_ofs _ st1) in *. eapply mwp_seq with (R := λ _ st', still st st').
  - unfold probe_xattr. apply mwp_bind. eapply mwp_lift with (P := any); [by apply quietly_on_w|]. intros err st3 Hs3 _. case_match.
    + apply mwp_modify. assert (still st3 (set_m_ofs (ofs_set_caps true (fs_tmpfile (m_ofs st3)) (m_ofs st3)) st3)) as Hs4 by apply still_caps.
      set (st4 := set_m_ofs _ st3) in *. unfold on_config, on_fs_ofs, mmodify, mwp. etrans; [exact Hs1|]. etrans; [exact Hs2|]. etrans; [exact Hs3|].
      etrans; [exact Hs4|]. apply (still_config st4 (λ c, cfg_metacopy false (cfg_index false c))).
      etrans; [apply cfg_index_le|apply cfg_metacopy_le].
    + apply mwp_bind. eapply mwp_lift with (P := any); [by apply quietly_on_w|]. intros e st4 Hs4 _. apply mwp_ret.
      do 3 (etrans; [eassumption|]). done.
  - cbv beta. intros _ st3 Hs3. unfold probe_fh. cbv zeta. eapply mwp_config; [case_match; [apply cfg_index_le|done]|].
    intros st4 Hs4 _ _ _. eapply mwp_seq with (R := λ _ st', still st st').
    + case_match; [|apply mwp_ret; by etrans]. unfold on_fs_ofs, mmodify, mwp. etrans; [exact Hs3|]. etrans; [exact Hs4|]. apply still_xino.
    + cbv beta. intros _ st5 Hs5. unfold on_config, on_fs_ofs, mmodify, mwp. etrans; [exact Hs5|].
      apply (still_config st5 (λ c, if c_nfs_export c && negb (c_index c) then cfg_nfs_export false c else c)).
      case_match; [apply cfg_nfs_le|done].
Qed.

(** What the work directory's set-up leaves alone. *)
Record same_index (f f' : mount_fs) : Prop := {
  si_indexdir : mf_indexdir f' = mf_indexdir f;
  si_index_trap : mf_indexdir_trap f' = mf_indexdir_trap f;
}.
#[export] Instance same_index_preorder : PreOrder same_index.
Proof. split; [intros a; by split|]. intros a b c [] []. split; congruence. Qed.

Lemma make_workdir_step st0 base st b workpath :
  minv st0 base st → 0 ≤ h_write (k_held (m_k st0)) → mf_workbasedir (m_fs st) = Some b →
  mf_workdir (m_fs st) = None → mf_workdir_trap (m_fs st) = None →
  mwp (ovl_make_workdir kmalloc export_op workpath) st (λ _ st', minv st0 base st' ∧ early st st' ∧ same_index (m_fs st) (m_fs st')).
Proof.
  intros Hi Hw Hb Hwd Ht. unfold ovl_make_workdir.
  eapply mwp_mono; [eapply want_write_step with (R := λ _ st1 st2, early st1 st2 ∧ same_index (m_fs st1) (m_fs st2)); [exact Hi|done|]|].
  - intros st1 Hi1 He1 Hf1 Ho1 _. eapply mwp_seq; [eapply create_dir_step; [exact Hi1|by rewrite Hf1]|].
    intros d st2 (Hi2 & He2 & Hf2 & Hc2 & Hd2). eapply mwp_seq; [apply set_workdir_inv; [exact Hi2|by rewrite Hf2, Hf1|exact Hd2]|].
    intros _ st3 (Hi3 & He3 & Hf3 & Ho3). assert (early st1 st3) as He13 by (by etrans).
    assert (same_index (m_fs st1) (m_fs st3)) as Hsi3 by (by rewrite Hf3, Hf2).
    destruct d as [wd|]; [|by apply mwp_ret]. eapply mwp_then.
    + eapply setup_trap_step; [exact Hi3|]. apply records_workdir. by rewrite Hf3, Hf2, Hf1.
    + intros e st4 (Hl4 & Hi4 & Ho4 & [[-> _]|[_ Hf4]]) Hne; [done|]. split; [done|].
      split; [etrans; [exact He13|by apply early_ofs]|]. by rewrite Hf4.
    + intros st4 (Hl4 & Hi4 & Ho4 & [[_ (ip & Hf4 & Hc4)]|[? _]]); [|done].
      assert (early st1 st4) as He14 by (etrans; [exact He13|by apply early_ofs]).
      assert (same_index (m_fs st1) (m_fs st4)) as Hsi4 by (rewrite Hf4; by destruct Hsi3).
      apply mwp_peek. case_match; [by apply mwp_ret|].
      pose proof (probes_still st4 wd (Hd2 wd eq_refl)) as Hp.
      assert (∀ st5, still st4 st5 → mwp (mret 0) st5 (λ _ st6,
        minv (set_m_held (more_write (k_held (m_k st0))) st0) base st6 ∧ early st1 st6 ∧ same_index (m_fs st1) (m_fs st6))) as Hend.
      { intros st5 Hs5. apply mwp_ret. split; [by eapply minv_still|]. split; [etrans; [exact He14|by apply early_still]|].
        by rewrite (sl_fs _ _ Hs5). }
      unfold mwp, mbind, mount_bind in Hp |- *. destruct (probe_tmpfile wd st4) as [[? s1]| |]; [|done..].
      destruct (probe_xattr wd s1) as [[? s2]| |]; [|done..]. destruct (probe_fh export_op wd s2) as [[? s3]| |]; [|done..]. by apply Hend.
  - intros r st' [Hi' [(_ & He & Hf & _)|(st1 & st2 & He1 & Hf1 & Ho1 & [He2 Hs2] & ->)]]; [split; [done|]; split; [done|by rewrite Hf]|].
    split; [done|]. split; [|rewrite Hf1 in Hs2; done]. etrans; [exact He1|]. rewrite <- (set_held_eq st1) at 1. by apply early_held.
Qed.

Lemma take_workbasedir_step st0 base st d :
  minv st0 base st → mf_workbasedir (m_fs st) = None → mf_workdir_locked (m_fs st) = false →
  mf_workbasedir_trap (m_fs st) = None → is_Some (d_inode d) →
  mwp (take_workbasedir d) st (λ _ st', minv st0 base st' ∧ early st st' ∧ ∃ l,
    m_fs st' = fs_set_locked (mf_upperdir_locked (m_fs st)) l (fs_set_workbasedir (Some d) (m_fs st))).
Proof.
  intros Hi Hb Hlk Ht [i Hd]. unfold take_workbasedir, dget. eapply mwp_hold; [exact Hi|]. intros st1 Hi1 E1. apply mwp_modify.
  destruct (set_workbasedir_step st0 base st1 d) as [Hi2 He2]; [done|by rewrite E1..|by eexists|].
  set (st2 := set_m_fs _ st1) in *. assert (early st st2) as He02.
  { etrans; [|exact He2]. rewrite E1. apply early_ofs; [apply later_refs|done]. }
  assert (m_fs st2 = fs_set_workbasedir (Some d) (m_fs st)) as Hf2 by (subst st2; by rewrite E1).
  eapply (trylock_step st0 base st2 _ i (λ f, fs_set_locked (mf_upperdir_locked f) true f) (λ _, mret 0)); [done|done| | |].
  - intros q. unfold locked_by. change (m_ofs (set_m_fs _ st2)) with (m_ofs st2). cbn [m_fs set_m_fs fs_set_locked mf_upperdir_locked mf_workdir_locked mf_workbasedir].
    rewrite Hf2. cbn [fs_set_workbasedir mf_upperdir_locked mf_workdir_locked mf_workbasedir has_iptr]. rewrite Hlk, Hd. cbn [andb iptr].
    by rewrite orb_false_r.
  - intros st3 Hu3 Ek3 Ef3 Ec3 Eb3 Er3 Es3. apply mwp_ret.
    destruct (minv_locked st0 base st2 (m_fs st3)) with (st' := st3) as [Hi3 Hl3]; [done| |done..|].
    { rewrite Ef3. do 2 eexists. split; [done|]. apply (di_locked _ (mi_dirs _ _ _ Hi2)). }
    split; [done|]. split; [|exists true; by rewrite Ef3, Hf2].
    etrans; [exact He02|apply early_ofs; [done|unfold m_ofs; by rewrite Ek3]].
  - intros st3 Hi3 Ek3 Ef3 Es3. unfold ovl_report_in_use, config. apply mwp_peek, mwp_ret.
    assert (m_ofs st3 = m_ofs st2) as Ho3 by (unfold m_ofs; by rewrite Ek3).
    split; [done|]. split; [etrans; [exact He02|apply early_ofs; [by apply later_same_fs|done]]|].
    exists (mf_workdir_locked (m_fs st)). rewrite Ef3, Hf2. by destruct (m_fs st).
Qed.

Definition workbase_set st : Prop := is_Some (mf_workbasedir (m_fs st)) ∧ is_Some (mf_workbasedir_trap (m_fs st)).
Lemma workbase_later st st' : later0 st st' → workbase_set st → workbase_set st'.
Proof. intros Hl [[d Hd] Ht]. split; [exists d; by apply (la_workbase _ _ Hl)|by apply (la_workbase_trap _ _ Hl)]. Qed.

(** The work directory below the work base directory, which gets its own trap
    and in-use lock. *)
Lemma workdir_in_step st0 base st up p :
  minv st0 base st → 0 ≤ h_write (k_held (m_k st0)) → is_Some (d_inode up.2) → is_Some (d_inode p.2) →
  mf_workbasedir (m_fs st) = None → mf_workbasedir_trap (m_fs st) = None → mf_workdir (m_fs st) = None →
  mf_workdir_trap (m_fs st) = None → mf_workdir_locked (m_fs st) = false →
  mwp (workdir_in kmalloc export_op up p) st (λ err st', minv st0 base st' ∧ early st st' ∧ same_index (m_fs st) (m_fs st') ∧
    (err = 0 → workbase_set st')).
Proof.
  intros Hi Hw Hup Hp Hb Hbt Hwd Hwt Hlk. unfold workdir_in. case_match; [by apply mwp_ret|].
  eapply mwp_seq; [by apply workdir_ok_still|]. cbv beta. intros sep st1 Hs1.
  assert (minv st0 base st1) as Hi1 by (by eapply minv_still). pose proof (early_still _ _ Hs1) as He1.
  pose proof (sl_fs _ _ Hs1) as Hf1. rewrite <- Hf1 in *. destruct sep; cbn [negb]; [|by apply mwp_ret].
  eapply mwp_then; [by apply take_workbasedir_step| |].
  { intros e st2 (Hi2 & He2 & l & Hf2) Hne. split; [done|]. split; [by etrans|]. split; [by rewrite Hf2|done]. }
  intros st2 (Hi2 & He2 & l & Hf2). assert (early st st2) as He02 by (by etrans).
  eapply mwp_then; [eapply setup_trap_step; [exact Hi2|]; apply records_workbasedir; by rewrite Hf2| |].
  - intros e st3 (Hl3 & Hi3 & Ho3 & [[-> _]|[_ Hf3]]) Hne; [done|]. split; [done|].
    split; [etrans; [exact He02|by apply early_ofs]|]. split; [by rewrite Hf3, Hf2|done].
  - intros st3 (Hl3 & Hi3 & Ho3 & [[_ (ip & Hf3 & Hc3)]|[? _]]); [|done]. rewrite Hf2 in Hf3.
    eapply mwp_mono; [eapply make_workdir_step with (b := p.2); [exact Hi3|done|by rewrite Hf3..]|].
    intros e st4 (Hi4 & He4 & Hs4). split; [done|].
    split; [etrans; [exact He02|]; etrans; [by apply early_ofs|exact He4]|]. split; [destruct Hs4 as [s1 s2]; by rewrite Hf3 in s1, s2|].
    intros _. eapply workbase_later; [apply He4|]. split; rewrite Hf3; by eexists.
Qed.
Lemma get_workdir_step st0 base st up :
  minv st0 base st → 0 ≤ h_write (k_held (m_k st0)) → is_Some (d_inode up.2) → is_Some (c_workdir (fs_config (m_ofs st))) →
  mf_workbasedir (m_fs st) = None → mf_workbasedir_trap (m_fs st) = None → mf_workdir (m_fs st) = None →
  mf_workdir_trap (m_fs st) = None → mf_workdir_locked (m_fs st) = false →
  mwp (ovl_get_workdir kmalloc export_op up) st (λ err st', minv st0 base st' ∧ early st st' ∧ same_index (m_fs st) (m_fs st') ∧
    (err = 0 → workbase_set st')).
Proof.
  intros Hi Hw Hup Hcw Hb Hbt Hwd Hwt Hlk. unfold ovl_get_workdir, config. apply mwp_peek.
  eapply mwp_seq; [by apply mount_dir_step|]. intros [err [p|]] st1 (Hl1 & Hf1 & Ho1 & Hi1 & Hp); cbn [path_result opath_refs] in *;
    [|apply mwp_ret; split; [done|]; split; [by apply early_ofs|]; split; [by rewrite Hf1|done]].
  destruct Hp as [-> (_ & Hp & _)]. assert (early st st1) as He1 by (by apply early_ofs). rewrite <- Hf1 in *.
  eapply mwp_seq; [by apply workdir_in_step|]. intros e st2 (Hi2 & He2 & Hs2 & Hr2).
  eapply path_put_step; [exact Hi2|]. intros l Hl. apply mwp_ret. split; [done|].
  split; [etrans; [exact He1|]; etrans; [exact He2|apply early_ofs; [apply later_refs|done]]|]. done.
Qed.

(** The index directory. *)
Lemma verify_quiet (k : kst W) d name real up set : quietly k (on_wo (λ w, ovl_verify_set_fh w d name real up set)) any.
Proof. apply quietly_on_wo. intros w. destruct (verify_set_fh_ret w d name real up set) as [[e w'] Hr]. by exists e, w'. Qed.

(** What the index directory's set-up leaves alone. *)
Record early_wd st st' : Prop := {
  ew_early : early st st';
  ew_workdir : mf_workdir (m_fs st') = mf_workdir (m_fs st);
  ew_layers : fs_lower_layers (m_ofs st') = fs_lower_layers (m_ofs st);
  ew_sbs : fs_lower_fs (m_ofs st') = fs_lower_fs (m_ofs st);
}.
#[export] Instance early_wd_preorder : PreOrder early_wd.
Proof. split; [intros a; by split|]. intros a b c [] []. split; [by etrans|congruence..]. Qed.
Lemma early_wd_still st st' : still st st' → early_wd st st'.
Proof.
  intros Hs. split; [by apply early_still|by rewrite (sl_fs _ _ Hs)|apply (co_layers _ _ (sl_core _ _ Hs))|apply (co_sbs _ _ (sl_core _ _ Hs))].
Qed.
Lemma early_wd_ofs st st' : later st st' → m_ofs st' = m_ofs st → mf_workdir (m_fs st') = mf_workdir (m_fs st) → early_wd st st'.
Proof. intros Hl Ho Hf. split; [by apply early_ofs|done|by rewrite Ho..]. Qed.

Lemma get_indexdir_step st0 base st oe up p :
  minv st0 base st → 0 ≤ h_write (k_held (m_k st0)) → is_Some (mf_workbasedir (m_fs st)) → lowerstack_at oe 0 = Some p →
  mf_indexdir (m_fs st) = None → mf_indexdir_trap (m_fs st) = None →
  mwp (ovl_get_indexdir kmalloc oe up) st (λ _ st', minv st0 base st' ∧ early_wd st st').
Proof.
  intros Hi Hw [b Hb] Hoe Hix Ht. unfold ovl_get_indexdir.
  eapply mwp_mono; [eapply want_write_step with (R := λ _ st1 st2, early_wd st1 st2); [exact Hi|done|]|].
  - intros st1 Hi1 _ Hf1 Ho1 _. eapply mwp_deref; [exact Hoe|].
    eapply mwp_then; [eapply mwp_lift; [apply verify_quiet|]; intros a st2 Hs2 _; exact Hs2| |]; cbv beta.
    { intros e st2 Hs2 _. split; [by eapply minv_still|by apply early_wd_still]. }
    intros st2 Hs2. assert (minv (set_m_held (more_write (k_held (m_k st0))) st0) base st2) as Hi2 by (by eapply minv_still).
    pose proof (sl_fs _ _ Hs2) as Hf2. rewrite Hf1 in Hf2.
    eapply mwp_seq; [eapply create_dir_step; [exact Hi2|by rewrite Hf2]|]. intros d st3 (Hi3 & He3 & Hf3 & Hc3 & Hd3). rewrite Hf2 in Hf3.
    eapply mwp_seq; [apply set_indexdir_inv; [exact Hi3|by rewrite Hf3|exact Hd3]|]. intros _ st4 (Hi4 & He4 & Hf4 & Ho4). rewrite Hf3 in Hf4.
    assert (early_wd st1 st4) as He14.
    { etrans; [by apply early_wd_still|]. destruct Hc3. split; [by etrans|by rewrite Hf4, Hf2|by rewrite Ho4..]. }
    destruct d as [ix|]; [|by apply mwp_ret].
    eapply mwp_then; [eapply setup_trap_step; [exact Hi4|]; apply records_indexdir; by rewrite Hf4| |].
    { intros e st5 (Hl5 & Hi5 & Ho5 & Hf5) _. split; [done|]. etrans; [exact He14|]. apply early_wd_ofs; [done|done|].
      by destruct Hf5 as [[_ (ip & -> & _)]|[_ ->]]. }
    intros st5 (Hl5 & Hi5 & Ho5 & Hf5). assert (early_wd st1 st5) as He15.
    { etrans; [exact He14|]. apply early_wd_ofs; [done|done|]. by destruct Hf5 as [[_ (ip & -> & _)]|[_ ->]]. }
    apply mwp_peek. eapply mwp_seq with (R := λ _ st', still st5 st').
    { case_match; [eapply mwp_lift; [apply verify_quiet|by intros]|by apply mwp_ret]. }
    cbv beta. intros _ st6 Hs6. eapply mwp_then; [eapply mwp_lift; [apply verify_quiet|]; intros a st7 Hs7 _; exact Hs7| |]; cbv beta.
    { intros e st7 Hs7 _. assert (still st5 st7) as Hs by (by etrans). split; [by eapply minv_still|etrans; [exact He15|by apply early_wd_still]]. }
    intros st7 Hs7. eapply mwp_lift; [apply indexdir_cleanup_quiet; by apply Hd3|]. intros e st8 Hs8 _.
    assert (still st5 st8) as Hs by (etrans; [exact Hs6|by etrans]). split; [by eapply minv_still|etrans; [exact He15|by apply early_wd_still]].
  - intros r st' [Hi' [(_ & He & Hf & Ho)|(st1 & st2 & He1 & Hf1 & Ho1 & [He2 Hwd Hla Hsb] & ->)]];
      (split; [done|]); [split; [done|by rewrite Hf|by rewrite Ho..]|].
    split; [|cbn; by rewrite Hwd, Hf1|change (fs_lower_layers (m_ofs st2) = fs_lower_layers (m_ofs st)); by rewrite Hla, Ho1|
      change (fs_lower_fs (m_ofs st2) = fs_lower_fs (m_ofs st)); by rewrite Hsb, Ho1]. etrans; [exact He1|]. rewrite <- (set_held_eq st1) at 1. by apply early_held.
Qed.

End work.
