(* ===== verification/MountLayers.v ===== *)
(** The lower layers of a mount: one file system id per file system, a trap and
    a private mount per layer, the stack of their roots. *)

From S2P Require Import Prelude Types Util Under Options OptionsProps Nlink Fh FhProps Redirect RedirectProps Inode Readdir Kernel KernelProps Work CopyUp WorkProps CopyUpSteps Dir Clean MountState Mount MountInv MountSteps MountWork.
From stdpp Require Import gmap.
Local Open Scope Z_scope.

Section layers.
Context {W : Type} `{Under W, !UnderLaws W, Kern W, !KernLaws W, DirKern W, MountKern W, !MountLaws W, RbLib, OptLib}.
Context (export_op : Z → option (bool * bool)) (st0 : mst W).
Implicit Types (st : mst W).

#[local] Abbreviation minv := (minv st0).

(** Steps of this stage. *)
Record low st st' : Prop := {
  lw_later : later st st';
  lw_index : same_index (m_fs st) (m_fs st');
  lw_workdir : mf_workdir (m_fs st') = mf_workdir (m_fs st);
}.
#[export] Instance low_preorder : PreOrder low.
Proof. split; [intros a; by split|]. intros a b c [] []. split; [by etrans|by etrans|congruence]. Qed.
Lemma low_still st st' : still st st' → low st st'.
Proof. intros Hs. split; [by apply later_still|..]; by rewrite (sl_fs _ _ Hs). Qed.
Lemma low_same st st' : later st st' → m_fs st' = m_fs st → low st st'.
Proof. intros Hl Hf. split; [done|..]; by rewrite Hf. Qed.
Lemma low_refs l st : low st (set_m_refs l st).
Proof. by apply low_same; [apply later_refs|]. Qed.

(** ** File system ids *)

Lemma lower_fs_index_spec sb l :
  match lower_fs_index sb l with
  | Some i => 0 ≤ i ∧ zget l i = Some sb
  | None => sb ∉ l
  end.
Proof.
  induction l as [|x l IH]; cbn; [by intros ?%elem_of_nil|]. destruct (Z.eqb_spec x sb) as [->|Hne]; [done|].
  destruct (lower_fs_index sb l) as [i|]; cbn.
  - destruct IH as [Hi Hg]. split; [lia|]. unfold zget in *. rewrite decide_True in Hg by lia. rewrite decide_True by lia.
    by replace (Z.to_nat (Z.succ i)) with (S (Z.to_nat i)) by lia.
  - intros [->|]%elem_of_cons; done.
Qed.

Lemma uuid_ok_spec ofs sb : ovl_lower_uuid_ok ofs (s_uuid sb) = true → wants_fh ofs = true →
  s_uuid sb ∉ s_uuid <$> fs_lower_fs ofs.
Proof.
  unfold ovl_lower_uuid_ok, wants_fh. intros Hu Hw.
  assert (negb (c_nfs_export (fs_config ofs)) && negb (c_index (fs_config ofs) && negb (fs_upper_mnt ofs =? NULL)) = false) as E.
  { apply orb_true_iff in Hw as [-> | ->]; [done|]. by rewrite andb_false_r. }
  rewrite E in Hu. rewrite forallb_forall in Hu. intros (x & Hx & Hin)%list_elem_of_fmap.
  apply list_elem_of_In, Hu in Hin. apply negb_true_iff, bool_decide_eq_false in Hin. done.
Qed.

(** A file system and its device number are added. *)
Definition add_lower_fs (sb dev : Z) st : mst W :=
  set_m_fs (fs_add_lower_dev dev (m_fs st))
    (set_m_ofs (ofs_set_lower (fs_lower_fs (m_ofs st) ++ [sb]) (fs_lower_layers (m_ofs st)) (m_ofs st))
      (set_m_refs (RDev dev :: m_refs st) (set_m_bdevs ({[dev]} ∪ m_bdevs st) st))).
Lemma zget_app_l {A} (l l' : list A) i x : zget l i = Some x → zget (l ++ l') i = Some x.
Proof. unfold zget. case_decide; [|done]. apply lookup_app_l_Some. Qed.

Lemma add_lower_fs_inv base st sb dev :
  minv base st → sb ∉ fs_lower_fs (m_ofs st) → dev ∉ m_bdevs st →
  (fs_upper_mnt (m_ofs st) ≠ NULL → sb ≠ fs_upper_sb (m_ofs st)) →
  (wants_fh (m_ofs st) = true → s_uuid sb ∉ s_uuid <$> fs_lower_fs (m_ofs st)) →
  minv base (add_lower_fs sb dev st) ∧ low st (add_lower_fs sb dev st).
Proof.
  intros [? ? Hr ? [b1 b2 b3] [] [] [l1 l2 l3 l4 l5]] Hsb Hdev Hup Hu.
  assert ((dev ∉ m_bdevs st0) ∧ (dev ∉ mf_lower_devs (m_fs st))) as [Hd1 Hd2].
  { rewrite b1 in Hdev. apply not_elem_of_union in Hdev as [? Hd]. by rewrite elem_of_list_to_set in Hd. }
  split.
  - split; [done|done| |done| |by split|by split|].
    + cbn. rewrite Hr. unfold owned. cbn. rewrite fmap_app. cbn. solve_Permutation.
    + split; cbn.
      * rewrite b1, list_to_set_app_L. cbn. set_solver.
      * rewrite NoDup_app. split; [done|]. split; [|apply NoDup_singleton]. by intros x Hx ->%list_elem_of_singleton.
      * intros d [Hd|Hd%list_elem_of_singleton]%elem_of_app; [by apply b3|by subst].
    + assert (∀ i l, fs_lower_layers (m_ofs st) !! i = Some l → layer_ok (add_lower_fs sb dev st) i l) as Hl.
      { intros i l Hil. destruct (l1 i l Hil) as [o1 o2 o3 o4]. split; [done..|]. destruct o4 as [?|(? & ? & ?)]; [by left|right].
        split; [done|]. split; by apply zget_app_l. }
      split; cbn; [exact Hl| | | |].
      * rewrite NoDup_app. split; [done|]. split; [|apply NoDup_singleton]. by intros x Hx ->%list_elem_of_singleton.
      * intros x [Hx|Hx%list_elem_of_singleton]%elem_of_app ?; [by apply l3|subst; by apply Hup].
      * rewrite !length_app. cbn. unfold m_ofs in l4. by rewrite l4.
      * intros Hw. rewrite fmap_app, NoDup_app. split; [by apply l5|]. split; [|apply NoDup_singleton].
        intros x Hx ->%list_elem_of_singleton. by apply Hu in Hw.
  - split; [|done|done]. split; [|by left]. split; try done. by eexists.
Qed.

(** The file system id of a super block. *)
Definition fsid_ok st (sb fsid : Z) : Prop :=
  fsid = 0 ∧ fs_upper_mnt (m_ofs st) ≠ NULL ∧ sb = fs_upper_sb (m_ofs st) ∨
  0 < fsid ∧ zget (fs_lower_fs (m_ofs st)) (fsid - 1) = Some sb.

Lemma get_fsid_step base st n p :
  minv base st → numlowerfs (m_ofs st) < n →
  mwp (ovl_get_fsid n p) st (λ fsid st', minv base st' ∧ low st st' ∧
    fs_lower_layers (m_ofs st') = fs_lower_layers (m_ofs st) ∧ numlowerfs (m_ofs st') ≤ numlowerfs (m_ofs st) + 1 ∧
    (0 ≤ fsid → fsid_ok st' (mnt_sb p.1) fsid)).
Proof.
  intros Hi Hn. unfold ovl_get_fsid. apply mwp_peek. destruct (negb _ && _) eqn:Eu.
  { apply andb_true_iff in Eu as [Eu%negb_true_iff%Z.eqb_neq Es%Z.eqb_eq]. apply mwp_ret.
    split; [done|]. split; [done|]. split; [done|]. split; [lia|]. intros _. by left. }
  pose proof (lower_fs_index_spec (mnt_sb p.1) (fs_lower_fs (m_ofs st))) as Hx.
  destruct (lower_fs_index _ _) as [i|].
  { apply mwp_ret. split; [done|]. split; [done|]. split; [done|]. split; [lia|]. intros _. right. destruct Hx. split; [lia|].
    by replace (i + 1 - 1) with i by lia. }
  eapply mwp_seq with (R := λ _ st1, still st st1 ∧ (wants_fh (m_ofs st1) = true →
    s_uuid (mnt_sb p.1) ∉ s_uuid <$> fs_lower_fs (m_ofs st))).
  { destruct (ovl_lower_uuid_ok _ _) eqn:Euu; cbn [negb]; [apply mwp_ret; split; [done|]; by apply uuid_ok_spec|].
    unfold on_config, on_fs_ofs, mmodify, mwp. split; [|done].
    apply (still_config st (λ c, cfg_nfs_export false (cfg_index false c))). etrans; [apply cfg_index_le|apply cfg_nfs_le]. }
  intros _ st1 [Hs1 Hw1]. pose proof (sl_core _ _ Hs1) as Hc1. assert (minv base st1) as Hi1 by (by eapply minv_still).
  apply mwp_peek. destruct (get_anon_bdev _ _) as [e|dev] eqn:Ed.
  { apply mwp_ret. split; [done|]. split; [by apply low_still|]. rewrite (co_layers _ _ Hc1). unfold numlowerfs. rewrite (co_sbs _ _ Hc1).
    split; [done|]. split; [lia|]. intros. apply law_bdev_err in Ed. lia. }
  apply law_bdev in Ed. apply mwp_modify. unfold hold. apply mwp_modify. destruct (Z.leb_spec n (numlowerfs (m_ofs st))); [lia|].
  apply mwp_modify, mwp_modify. unfold mwp, peek.
  destruct (add_lower_fs_inv base st1 (mnt_sb p.1) dev) as [Hi2 Hl2]; [done| |done| | |].
  { by rewrite (co_sbs _ _ Hc1). }
  { rewrite (co_upper _ _ Hc1), (co_upper_sb _ _ Hc1). intros Hu E. rewrite E, Z.eqb_refl, andb_true_r in Eu.
    by apply negb_false_iff, Z.eqb_eq in Eu. }
  { by rewrite (co_sbs _ _ Hc1). }
  split; [exact Hi2|]. split; [etrans; [by apply low_still|exact Hl2]|]. split; [apply (co_layers _ _ Hc1)|].
  assert (numlowerfs (m_ofs (add_lower_fs (mnt_sb p.1) dev st1)) = numlowerfs (m_ofs st) + 1) as E.
  { unfold numlowerfs, add_lower_fs. cbn. rewrite zlen_app. change (k_ofs (m_k st1)) with (m_ofs st1). by rewrite (co_sbs _ _ Hc1). }
  split; [change (numlowerfs (m_ofs (add_lower_fs (mnt_sb p.1) dev st1)) ≤ numlowerfs (m_ofs st) + 1); lia|]. intros _. right.
  assert (0 ≤ numlowerfs (m_ofs st)) by apply zlen_nonneg.
  assert (∀ x, x = numlowerfs (m_ofs st) + 1 → 0 < x ∧ zget (fs_lower_fs (m_ofs (add_lower_fs (mnt_sb p.1) dev st1))) (x - 1) = Some (mnt_sb p.1)) as Hz.
  { intros x ->. split; [lia|]. cbn. change (k_ofs (m_k st1)) with (m_ofs st1). rewrite (co_sbs _ _ Hc1). unfold zget, numlowerfs, zlen.
    rewrite decide_True by lia. rewrite lookup_app_r by lia.
    by replace (Z.to_nat (Z.of_nat (length (fs_lower_fs (m_ofs st))) + 1 - 1) - length (fs_lower_fs (m_ofs st)))%nat with 0%nat by lia. }
  apply Hz. exact E.
Qed.

(** ** Traps that are not recorded yet *)

Lemma iput_new_trap {B} base st ip (f : unit → mount W B) Q :
  minv (RTrap ip :: base) st → ip ∉ all_traps (m_fs st) →
  (∀ st', minv base st' → low st st' → m_ofs st' = m_ofs st → mwp (f tt) st' Q) → mwp (iput_trap (Some ip) ≫= f) st Q.
Proof.
  intros Hi Hn Hf. unfold iput_trap. apply mwp_assoc. eapply mwp_drop; [exact Hi|]. intros l Hl.
  apply mwp_modify, Hf; [|by apply low_same; [apply later_same_fs|]|done].
  destruct Hl as [? ? ? ? [] [t1 t2 t3 t4 t5 t6 t7] [] [l1 ? ? ? ?]]. set (st1 := set_m_refs l st) in *.
  assert (∀ d t, t ∈ all_traps (m_fs st) → cached_trap st1 d t → cached_trap
    (set_m_cache (filter (λ kv, kv.2 ≠ ip) (m_cache st1)) (set_m_k (set_k_inodes (delete ip (k_inodes (m_k st1))) (m_k st1)) st1)) d t) as Hk.
  { intros d' t Ht [Hc [o Ho]]. assert (t ≠ ip) by (by intros ->). split; cbn.
    - apply map_lookup_filter_Some. by split.
    - exists o. by rewrite lookup_delete_ne. }
  assert (∀ i t, mf_layer_traps (m_fs st) !! i = Some t → t ∈ all_traps (m_fs st)) as Hlt.
  { intros i t Ht. unfold all_traps. do 4 (apply elem_of_app; right). by eapply list_elem_of_lookup_2. }
  split; [done|done|done|done|by split| |by split|].
  - split; [|done| | | | |done].
    + intros i o Ho. cbn in Ho. apply lookup_delete_Some in Ho as [_ Ho]. by apply t1 in Ho.
    + intros t Ht. destruct (t3 t Ht) as [d' ?]. exists d'. by apply Hk.
    + intros Hu. destruct (t4 Hu) as (t & Ht & ?). exists t. split; [done|]. apply Hk; [|done].
      unfold all_traps. change (m_fs st1) with (m_fs st) in Ht. rewrite Ht. by left.
    + intros d' t Hd' Ht. apply Hk; [|by apply t5]. unfold all_traps. cbn in Ht. rewrite Ht. apply elem_of_app. right. by left.
    + intros i lay Hlay. destruct (t6 i lay Hlay) as (t & Ht & ?). exists t. split; [done|]. apply Hk; [by eapply Hlt|done].
  - split; [|done..]. intros i lay Hlay. destruct (l1 i lay Hlay). by split.
Qed.

(** ** One more layer *)

Definition add_layer (l : ovl_layer) (t : Z) st : mst W :=
  set_m_fs (fs_add_layer_trap t (m_fs st))
    (set_m_ofs (ofs_set_lower (fs_lower_fs (m_ofs st)) (fs_lower_layers (m_ofs st) ++ [l]) (m_ofs st)) st).
Lemma add_layer_inv base st l t :
  minv (RMnt (l_mnt l) :: RTrap t :: base) st → new_trap st (mnt_root (l_mnt l)) t →
  layer_ok st (length (fs_lower_layers (m_ofs st))) l →
  minv base (add_layer l t st) ∧ low st (add_layer l t st).
Proof.
  intros [? ? Hr ? [] [t1 t2 t3 t4 t5 t6 t7] [] [l1 l2 l3 l4 l5]] [Hc Hn] Hl.
  split; [|split; [split; [split; try done; by eexists|by left]|done|done]].
  split; [done|done| |done|by split| |by split|].
  - change (m_refs (add_layer l t st)) with (m_refs st). rewrite Hr. unfold owned, all_traps. cbn. rewrite !fmap_app. cbn. solve_Permutation.
  - assert (all_traps (m_fs (add_layer l t st)) = all_traps (m_fs st) ++ [t]) as Et by (unfold all_traps; cbn; by rewrite !app_assoc).
    split; rewrite ?Et; [done| | |done|done| |].
    + rewrite NoDup_app. split; [done|]. split; [|apply NoDup_singleton]. by intros x Hx ->%list_elem_of_singleton.
    + intros x [Hx| ->%list_elem_of_singleton]%elem_of_app; [by apply t3|]. by exists (mnt_root (l_mnt l)).
    + intros i lay [[_ Hlay]|[-> <-]]%lookup_snoc_Some.
      * destruct (t6 i lay Hlay) as (x & ? & ?). exists x. split; [by apply lookup_app_l_Some|done].
      * exists t. split; [|done]. rewrite <- t7. apply lookup_snoc_Some. by right.
    + cbn. rewrite !length_app. cbn. unfold m_ofs in t7. by rewrite t7.
  - split; [|done..]. intros i lay [[_ Hlay]|[-> <-]]%lookup_snoc_Some; [destruct (l1 i lay Hlay)|destruct Hl]; by split.
Qed.

(** What an error leaves behind: at most the trap of a lower directory that is
    in use elsewhere. *)
Definition leaked (err : Z) (leak : list ref) : Prop := leak = [] ∨ err = - EBUSY ∧ ∃ t, leak = [RTrap t].
Definition failed base (err : Z) st : Prop := err ≠ 0 ∧ ∃ leak, minv (leak ++ base) st ∧ leaked err leak.

Lemma failed_plain base err st : err ≠ 0 → minv base st → failed base err st.
Proof. intros He Hi. split; [done|]. exists []. split; [done|by left]. Qed.

Lemma layer_dev_some st sb fsid : lower_inv st → fsid_ok st sb fsid → ∃ dev, layer_dev (m_fs st) fsid = Some dev ∧
  (fsid ≠ 0 → zget (mf_lower_devs (m_fs st)) (fsid - 1) = Some dev).
Proof.
  intros Hl [(-> & _)|[Hpos Hg]]; [by exists 0|]. unfold layer_dev. destruct (Z.eqb_spec fsid 0); [lia|].
  unfold zget in *. rewrite decide_True in Hg |- * by lia. apply lookup_lt_Some in Hg. rewrite <- (li_devs _ Hl) in Hg.
  apply lookup_lt_is_Some in Hg as [dev Hdev]. exists dev. by split.
Qed.
Lemma fsid_ok_same st st' sb fsid : m_ofs st' = m_ofs st → fsid_ok st sb fsid → fsid_ok st' sb fsid.
Proof. unfold fsid_ok. by intros ->. Qed.

(** One round, for the [i]-th path. *)
Definition layer_added st st' (p : mpath) : Prop :=
  ∃ l, fs_lower_layers (m_ofs st') = fs_lower_layers (m_ofs st) ++ [l] ∧ mnt_root (l_mnt l) = p.2.

Lemma clone_layer_step base st n p i fsid t :
  minv (RTrap t :: base) st → new_trap st p.2 t → dir_path p → fsid_ok st (mnt_sb p.1) fsid →
  zlen (fs_lower_layers (m_ofs st)) = i → i < n →
  mwp (clone_layer n i fsid p t) st (λ err st', low st st' ∧ fs_lower_fs (m_ofs st') = fs_lower_fs (m_ofs st) ∧
    (err = 0 → minv base st' ∧ layer_added st st' p) ∧ (err ≠ 0 → failed base err st')).
Proof.
  intros Hi Hnt Hp Hfs Hlen Hn. unfold clone_layer. apply mwp_peek. destruct p as [pm pd].
  destruct (law_clone_valid (m_w st) (pm, pd)) as [Hnn Hee].
  destruct (clone_private_mount _ _) as [|e|m] eqn:Ecl; [done| |].
  { eapply iput_new_trap; [exact Hi|apply Hnt|]. intros st1 Hi1 Hl1 Ho1. apply mwp_ret. rewrite Ho1.
    assert (e ≠ 0) by (intros ->; by specialize (Hee 0 eq_refl)). split; [done|]. split; [done|]. split; [done|]. intros; by apply failed_plain. }
  destruct (law_clone _ _ _ _ Ecl) as (Hm & Hsb & Hroot). eapply mwp_hold; [exact Hi|]. intros st1 Hi1 E1. apply mwp_peek.
  destruct (layer_dev_some st (mnt_sb pm) fsid) as (dev & Hdev & Hdev0); [apply (mi_lower _ _ _ Hi)|done|].
  eapply mwp_deref; [rewrite E1; exact Hdev|]. apply mwp_peek.
  assert (zlen (fs_lower_layers (m_ofs st1)) = i) as -> by (by rewrite E1). destruct (Z.leb_spec n i); [lia|].
  apply mwp_modify, mwp_modify, mwp_ret. set (l := OvlLayer m (i + 1) fsid dev).
  destruct (add_layer_inv base st1 l t) as [Hi2 Hl2].
  { exact Hi1. } { change (mnt_root (l_mnt l)) with (mnt_root m). rewrite E1, Hroot. by destruct Hnt. }
  { split; [rewrite E1; change (i + 1 = zlen (fs_lower_layers (m_ofs st)) + 1); lia|done|change (mnt_root (l_mnt l)) with (mnt_root m); rewrite Hroot; apply Hp|].
    rewrite E1. cbn [l_mnt l_fsid l l_pseudo_dev]. rewrite Hsb. destruct Hfs as [(-> & ? & ?)|[? ?]]; [by left|right]. split; [done|].
    split; [done|]. apply Hdev0. lia. }
  split; [etrans; [|exact Hl2]; rewrite E1; apply low_refs|]. split; [by rewrite E1|]. split; [|done]. intros _. split; [exact Hi2|].
  exists l. split; [by rewrite E1|exact Hroot].
Qed.

Lemma lower_layer_step base st n p i :
  minv base st → dir_path p → zlen (fs_lower_layers (m_ofs st)) = i → numlowerfs (m_ofs st) ≤ i → i < n →
  mwp (get_lower_layer n i p) st (λ err st', low st st' ∧ numlowerfs (m_ofs st') ≤ i + 1 ∧
    (err = 0 → minv base st' ∧ layer_added st st' p) ∧ (err ≠ 0 → failed base err st')).
Proof.
  intros Hi Hp Hlen Hnum Hn. unfold get_lower_layer.
  eapply mwp_seq; [apply get_fsid_step; [exact Hi|lia]|]. intros fsid st1 (Hi1 & Hl1 & Hla1 & Hnum1 & Hfs).
  destruct (Z.ltb_spec fsid 0); [apply mwp_ret; split; [done|]; split; [lia|]; split; [lia|]; intros; by apply failed_plain|].
  specialize (Hfs ltac:(lia)).
  eapply mwp_seq; [by apply get_trap_step|]. intros [|e|t] st2 (Hl2 & Hf2 & Ho2 & Hr2); [done| |].
  { destruct Hr2 as [Hne Hi2]. apply mwp_ret. split; [etrans; [done|by apply low_same]|]. rewrite Ho2. split; [lia|]. split; [done|].
    intros; by apply failed_plain. }
  destruct Hr2 as (Hnt & Hi2 & [ri Hri]). assert (low st st2) as Hl02 by (etrans; [exact Hl1|by apply low_same]).
  unfold is_inuse. apply mwp_assoc. rewrite Hri. apply mwp_mret, mwp_peek.
  eapply mwp_then with (R := λ err st', st' = st2 ∧ (err ≠ 0 → err = - EBUSY)).
  { case_match; [|by apply mwp_ret]. unfold ovl_report_in_use, config. apply mwp_peek, mwp_ret. split; [done|]. by case_match. }
  { intros err st3 [-> Hb] Hne. split; [done|]. rewrite Ho2. split; [lia|]. split; [done|]. intros _. split; [done|].
    exists [RTrap t]. split; [done|]. right. split; [by apply Hb|by exists t]. }
  intros st3 [-> _]. eapply mwp_mono; [apply (clone_layer_step base); [exact Hi2|done|done| | |done]|].
  { by eapply fsid_ok_same. } { by rewrite Ho2, Hla1. }
  intros err st4 (Hl4 & Hfs4 & Hok & Herr). split; [by etrans|]. unfold numlowerfs in *. rewrite Hfs4, Ho2. split; [lia|].
  split; [|done]. intros He. destruct (Hok He) as [? (l & Hl & ?)]. split; [done|]. exists l. by rewrite Hl, Ho2, Hla1.
Qed.

Lemma layers_loop_step n stack : ∀ base st i,
  minv base st → Forall dir_path stack → zlen (fs_lower_layers (m_ofs st)) = i → numlowerfs (m_ofs st) ≤ i →
  i + zlen stack = n →
  mwp (lower_layers_loop n stack i) st (λ err st', low st st' ∧ numlowerfs (m_ofs st') ≤ n ∧
    (err = 0 → minv base st' ∧ ∃ ls, fs_lower_layers (m_ofs st') = fs_lower_layers (m_ofs st) ++ ls ∧
       Forall2 (λ l p, mnt_root (l_mnt l) = p.2) ls stack) ∧
    (err ≠ 0 → failed base err st')).
Proof.
  induction stack as [|p stack IH]; intros base st i Hi Hps Hlen Hnum Hn.
  { apply mwp_ret. unfold zlen in Hn. cbn in Hn. split; [done|]. split; [lia|]. split; [|done]. intros _. split; [done|]. exists [].
    by rewrite app_nil_r. }
  apply Forall_cons in Hps as [Hp Hps]. cbn [lower_layers_loop]. pose proof (zlen_nonneg stack).
  assert (i + 1 + zlen stack = n) as Hn' by (unfold zlen in *; cbn [length] in Hn; lia).
  eapply mwp_then; [apply (lower_layer_step base); [done..|lia]| |].
  - intros err st1 (Hl1 & Hn1 & _ & Herr) Hne. split; [done|]. split; [lia|]. split; [done|]. by intros _; apply Herr.
  - intros st1 (Hl1 & Hn1 & Hok & _). destruct (Hok eq_refl) as [Hi1 (l & Hla & Hroot)].
    eapply mwp_mono; [apply (IH base st1 (i + 1)); [done|done| |done|done]|].
    { rewrite Hla, zlen_app, Hlen. done. }
    intros err st2 (Hl2 & Hn2 & Hok2 & Herr2). split; [by etrans|]. split; [done|]. split; [|done].
    intros He. destruct (Hok2 He) as [Hi2 (ls & Hls & HF)]. split; [done|]. exists (l :: ls). split; [|by constructor].
    by rewrite Hls, Hla, <- app_assoc.
Qed.

(** ** The bits for file system ids *)

Definition xino_fits (o : ovl_fs) : Prop :=
  fs_xino_bits o = 0 ∨ 1 ≤ fs_xino_bits o ≤ 32 ∧ numlowerfs o < 2 ^ fs_xino_bits o.
Lemma choose_xino_fits o : (fs_xino_bits o = 0 ∨ fs_xino_bits o = 32) → numlowerfs o ≤ OVL_MAX_STACK → xino_fits (choose_xino o).
Proof.
  intros Hx Hn. unfold OVL_MAX_STACK in Hn. assert (0 ≤ numlowerfs o) by apply zlen_nonneg. unfold choose_xino, xino_fits.
  destruct (Z.eqb_spec (numlowerfs o) 0); [by left|]. cbn [orb]. destruct (_ && (fs_upper_mnt o =? NULL)); [by left|].
  destruct ((c_xino (fs_config o) =? OVL_XINO_ON) && _) eqn:E.
  - right. change (fs_xino_bits (ofs_set_xino _ o)) with (Z.log2 (numlowerfs o) + 1). change (numlowerfs (ofs_set_xino _ o)) with (numlowerfs o).
    pose proof (Z.log2_spec (numlowerfs o) ltac:(lia)). pose proof (Z.log2_le_mono (numlowerfs o) 500 ltac:(lia)) as Hl.
    change (Z.log2 500) with 8 in Hl. pose proof (Z.log2_nonneg (numlowerfs o)). rewrite <- Z.add_1_r in *. lia.
  - destruct Hx as [->| ->]; [by left|right]. split; [lia|]. change (2 ^ 32) with 4294967296. lia.
Qed.

Lemma choose_xino_same o : ∃ c x, choose_xino o = ofs_set_xino x (ofs_set_config c o) ∧ cfg_le (fs_config o) c ∧
  wants_fh (choose_xino o) = wants_fh o.
Proof.
  unfold choose_xino. repeat case_match.
  - by exists (cfg_xino OVL_XINO_OFF (fs_config o)), 0.
  - exists (fs_config o). eexists. split; [by destruct o|done].
  - exists (fs_config o), (fs_xino_bits o). split; [by destruct o|done].
Qed.
Lemma choose_xino_inv base st :
  minv base st → let st' := set_m_ofs (choose_xino (m_ofs st)) st in minv base st' ∧ later0 st st' ∧ m_fs st' = m_fs st.
Proof.
  intros [? ? Hr Hi [] [t1 t2 t3 t4 t5 t6 t7] [d1 d2 d3 d4 d5 d6 d7] [l1 l2 l3 l4 l5]].
  destruct (choose_xino_same (m_ofs st)) as (c & x & -> & Hc & Hw). cbv zeta. split; [|split; [by split|done]].
  split; [done|done|done|done|by split|by split|by split|].
  split; [|done|done|done|intros Hf; apply l5; by rewrite <- Hw]. intros i l Hl. destruct (l1 i l Hl). by split.
Qed.

Record low0 st st' : Prop := {
  l0_later : later0 st st';
  l0_index : same_index (m_fs st) (m_fs st');
  l0_workdir : mf_workdir (m_fs st') = mf_workdir (m_fs st);
}.
#[export] Instance low0_preorder : PreOrder low0.
Proof. split; [intros a; by split|]. intros a b c [] []. split; [by etrans|by etrans|congruence]. Qed.
Lemma low_low0 st st' : low st st' → low0 st st'.
Proof. intros [[] ? ?]. by split. Qed.

Definition xino_wide st : Prop := fs_xino_bits (m_ofs st) = 0 ∨ fs_xino_bits (m_ofs st) = 32.
Lemma xino_wide_later st st' : later st st' → xino_wide st → xino_wide st'.
Proof. intros [_ [E|E]] Hx; [unfold xino_wide; by rewrite E|by left]. Qed.

Definition rooted_at (l : ovl_layer) (p : mpath) : Prop := mnt_root (l_mnt l) = p.2.
Lemma lower_layers_step base st stack :
  minv base st → no_lower st → Forall dir_path stack → zlen stack ≤ OVL_MAX_STACK → xino_wide st →
  mwp (ovl_get_lower_layers stack) st (λ err st', low0 st st' ∧
    (err = 0 → minv base st' ∧ Forall2 rooted_at (fs_lower_layers (m_ofs st')) stack ∧ xino_fits (m_ofs st')) ∧
    (err ≠ 0 → failed base err st')).
Proof.
  intros Hi [Hla Hsb] Hps Hmax Hx. unfold ovl_get_lower_layers. apply mwp_peek.
  case_match; [apply mwp_ret; split; [done|]; split; [done|]; intros; by apply failed_plain|].
  eapply mwp_then; [apply (layers_loop_step (zlen stack) stack base st 0); [done|done|by rewrite Hla|unfold numlowerfs; by rewrite Hsb|done]| |].
  - intros err st1 (Hl1 & _ & _ & Herr) Hne. split; [by apply low_low0|]. split; [done|]. by intros _; apply Herr.
  - intros st1 (Hl1 & Hn1 & Hok & _). destruct (Hok eq_refl) as [Hi1 (ls & Hls & HF)]. rewrite Hla in Hls. cbn in Hls.
    apply mwp_modify, mwp_ret. destruct (choose_xino_inv base st1 Hi1) as (Hi2 & Hl2 & Hf2).
    split; [etrans; [by apply low_low0|]; split; [exact Hl2|by rewrite Hf2..]|]. split; [|done]. intros _. split; [exact Hi2|].
    destruct (choose_xino_same (m_ofs st1)) as (c & x & E & _ & _). split.
    + change (m_ofs (set_m_ofs (choose_xino (m_ofs st1)) st1)) with (choose_xino (m_ofs st1)). rewrite E. cbn. by rewrite Hls.
    + apply choose_xino_fits; [|lia]. eapply xino_wide_later; [apply Hl1|done].
Qed.

(** ** Lower directories *)

(** The features that need file handles, as ovl_lower_dir tests them, and what
    a layer then has to support. *)
Definition cfg_fh (c : ovl_config) : bool := c_nfs_export c || (c_index c && bool_decide (is_Some (c_upperdir c))).
Definition decodable (d : dentry) : Prop := ovl_can_decode_fh (export_op (d_sb d)) ≠ 0.
Lemma cfg_fh_le c c' : cfg_le c c' → cfg_fh c' = true → cfg_fh c = true.
Proof.
  intros [_ Hu _ Hix Hn]. unfold cfg_fh. rewrite Hu, !orb_true_iff, !andb_true_iff. intros [?|[? ?]]; [left|right]; auto.
Qed.

Lemma lower_dir_step base st name :
  minv base st → mwp (ovl_lower_dir export_op name) st (λ '(err, p, _) st', low st st' ∧ core (m_ofs st) (m_ofs st') ∧
    minv (opath_refs p ++ base) st' ∧ path_result err p ∧
    ∀ p', p = Some p' → cfg_fh (fs_config (m_ofs st')) = true → decodable p'.2).
Proof.
  intros Hi. unfold ovl_lower_dir. eapply mwp_seq; [by apply mount_dir_noesc_step|].
  intros [err [p|]] st1 (Hl1 & Hf1 & Ho1 & Hi1 & Hp); [|apply mwp_ret; split; [by apply low_same|]; by rewrite Ho1].
  cbn [opath_refs path_result] in *. assert (low st st1) as Hlow1 by (by apply low_same).
  eapply keeps_namelen; [exact Hi1|]. intros e st2 Hi2 Hs2.
  assert (low st st2) as Hlow2 by (etrans; [exact Hlow1|by apply low_still]).
  assert (core (m_ofs st) (m_ofs st2)) as Hc2 by (rewrite <- Ho1; apply (sl_core _ _ Hs2)).
  destruct (Z.eqb_spec e 0) as [->|Hne]; cbn [negb].
  2:{ eapply path_put_step; [exact Hi2|]. intros l Hl. apply mwp_ret. split; [etrans; [exact Hlow2|apply low_refs]|]. done. }
  apply mwp_peek. apply mwp_modify. set (st3 := set_m_sb _ st2). assert (still st2 st3) as Hs3 by (by apply still_sb).
  eapply mwp_config; [case_match; [etrans; [apply cfg_index_le|apply cfg_nfs_le]|done]|]. intros st4 Hs4 Hcfg4 _ _.
  assert (still st2 st4) as Hs24 by (by etrans).
  eapply mwp_seq with (R := λ _ st5, still st2 st5 ∧ fs_config (m_ofs st5) = fs_config (m_ofs st4)).
  { destruct (negb (ovl_can_decode_fh _ =? FILEID_INO32_GEN)); [|by apply mwp_ret]. unfold on_fs_ofs, mmodify, mwp.
    split; [|done]. etrans; [exact Hs24|apply still_xino]. }
  intros _ st5 [Hs5 Hcfg5]. apply mwp_ret. split; [etrans; [exact Hlow2|by apply low_still]|].
  split; [etrans; [exact Hc2|apply (sl_core _ _ Hs5)]|]. split; [by eapply minv_still|]. split; [cbn; tauto|].
  intros p' [= <-] Hw. rewrite Hcfg5, Hcfg4 in Hw. unfold decodable. change (m_ofs st3) with (m_ofs st2) in Hw. fold (cfg_fh (fs_config (m_ofs st2))) in Hw.
  destruct (Z.eqb_spec (ovl_can_decode_fh (export_op (d_sb p.2))) 0); [|done]. rewrite andb_true_r in Hw.
  destruct (cfg_fh (fs_config (m_ofs st2))) eqn:E; [done|congruence].
Qed.

Definition paths_refs (l : list mpath) : list ref := l ≫= path_refs.
Lemma lower_dirs_step names : ∀ base st stack remote,
  minv (paths_refs stack ++ base) st → Forall dir_path stack →
  (cfg_fh (fs_config (m_ofs st)) = true → Forall (λ p, decodable p.2) stack) →
  mwp (lower_dirs_loop export_op names stack remote) st (λ '(err, stack', _) st', low st st' ∧ core (m_ofs st) (m_ofs st') ∧
    minv (paths_refs stack' ++ base) st' ∧ Forall dir_path stack' ∧ (err = 0 → length stack' = (length stack + length names)%nat) ∧
    (cfg_fh (fs_config (m_ofs st')) = true → Forall (λ p, decodable p.2) stack')).
Proof.
  induction names as [|name names IH]; intros base st stack remote Hi Hps Hdec; cbn [lower_dirs_loop].
  { apply mwp_ret. split; [done|]. split; [done|]. split; [done|]. split; [done|]. split; [intros _; cbn; lia|done]. }
  eapply mwp_seq; [by apply lower_dir_step|]. intros [[err p] r] st1 (Hl1 & Hc1 & Hi1 & Hp & Hd1).
  assert (cfg_fh (fs_config (m_ofs st1)) = true → Forall (λ p, decodable p.2) stack) as Hdec1
    by (intros; apply Hdec; eapply cfg_fh_le; [apply Hc1|done]).
  destruct p as [p|]; [|apply mwp_ret; split; [done|]; split; [done|]; split; [done|]; split; [done|]; split; [|done]; intros; done].
  cbn [path_result opath_refs] in *. eapply mwp_mono; [apply (IH base st1 (stack ++ [p]) (remote || r))|].
  - unfold paths_refs. rewrite bind_app. cbn [mbind list_bind]. rewrite app_nil_r.
    assert ((stack ≫= path_refs) ++ path_refs p ++ base ≡ₚ path_refs p ++ paths_refs stack ++ base) as E by (unfold paths_refs; solve_Permutation).
    rewrite <- app_assoc. destruct Hi1. split; try done. by rewrite mi_refs, E.
  - apply Forall_app. split; [done|]. by constructor; [apply Hp|].
  - intros Hw. apply Forall_app. split; [by apply Hdec1|]. constructor; [by apply Hd1|done].
  - intros [[e stack'] rem] st2 (Hl2 & Hc2 & Hi2 & Hps2 & Hlen & Hdec2). split; [by etrans|]. split; [by etrans|].
    split; [done|]. split; [done|]. split; [|done]. intros He. rewrite (Hlen He), length_app. cbn. lia.
Qed.

Lemma put_paths_step {B} l : ∀ base st (f : unit → mount W B) Q,
  minv (paths_refs l ++ base) st → (∀ r, minv base (set_m_refs r st) → mwp (f tt) (set_m_refs r st) Q) →
  mwp (put_paths l ≫= f) st Q.
Proof.
  induction l as [|p l IH]; intros base st f Q Hi Hf; cbn [put_paths].
  - apply mwp_mret. assert (set_m_refs (m_refs st) st = st) as E by (by destruct st).
    specialize (Hf (m_refs st)). rewrite E in Hf. by apply Hf.
  - apply mwp_assoc. cbn [paths_refs mbind list_bind] in Hi. rewrite <- app_assoc in Hi.
    eapply path_put_step; [exact Hi|]. intros r Hr. eapply IH; [exact Hr|]. intros r2 Hr2. by apply Hf.
Qed.

End layers.
