(* ===== verification/MountStack.v ===== *)
(** The stack of lower directories of a mount and the walk that finds overlapping
    layers; and what ovl_free_fs gives back: from every state of a mount in
    progress, every reference, in-use bit and device number that the mount took. *)

From S2P Require Import Prelude Types Util Options OptionsProps Readdir Under Nlink Fh FhProps Redirect RedirectProps Inode Kernel KernelProps Work CopyUp WorkProps CopyUpSteps Dir Clean MountState Mount MountInv MountSteps MountWork MountLayers.
From stdpp Require Import gmap.
Local Open Scope Z_scope.

Section stack.
Context {W : Type} `{Under W, !UnderLaws W, Kern W, !KernLaws W, DirKern W, MountKern W, !MountLaws W, RbLib, OptLib}.
Context (export_op : Z → option (bool * bool)) (st0 : mst W).
Implicit Types (st : mst W).

#[local] Abbreviation minv := (minv st0).

Lemma minv_perm base base' st : base ≡ₚ base' → minv base st → minv base' st.
Proof. intros Hp []. split; try done. by rewrite <- Hp. Qed.
Lemma minv_set_refs_id st : set_m_refs (m_refs st) st = st.
Proof. by destruct st. Qed.

(** ** The roots of the layers *)

Definition stack_refs (l : list ovl_path) : list ref := (λ p, RDentry (d_ptr (op_dentry p))) <$> l.

Lemma get_roots_step stack : ∀ base st layers,
  minv base st → Forall2 rooted_at layers stack →
  mwp (get_roots stack layers) st (λ roots st', minv (stack_refs roots ++ base) st' ∧ (∃ l, st' = set_m_refs l st) ∧
    op_layer <$> roots = layers ∧ op_dentry <$> roots = snd <$> stack).
Proof.
  induction stack as [|p stack IH]; intros base st layers Hi HF.
  { apply Forall2_nil_inv_r in HF as ->. apply mwp_ret. split; [done|]. split; [|done]. exists (m_refs st). by rewrite minv_set_refs_id. }
  apply Forall2_cons_inv_r in HF as (l & layers' & Hr & HF & ->). cbn [get_roots]. unfold dget.
  eapply mwp_hold; [exact Hi|]. intros st1 Hi1 ->. eapply mwp_seq; [by eapply IH|].
  intros roots st2 (Hi2 & [l2 ->] & Hl & Hd). apply mwp_ret. split.
  - eapply minv_perm; [|exact Hi2]. cbn. symmetry. apply Permutation_middle.
  - split; [by exists l2|]. cbn. by rewrite Hl, Hd.
Qed.

(** ** The lower stack *)

Record stack_ok st (oe : ovl_entry) : Prop := {
  so_layers : op_layer <$> oe_lowerstack oe = fs_lower_layers (m_ofs st);
  so_roots p : p ∈ oe_lowerstack oe → op_dentry p = mnt_root (l_mnt (op_layer p)) ∧ is_Some (d_inode (op_dentry p));
  so_flags : oe_flags oe = 0;
  so_size : 1 ≤ zlen (oe_lowerstack oe) ≤ OVL_MAX_STACK;
  so_decode : cfg_fh (fs_config (m_ofs st)) = true → ∀ p, p ∈ oe_lowerstack oe → decodable export_op (op_dentry p);
  so_xino : xino_fits (m_ofs st);
}.
Lemma stack_ok_same st st' oe : fs_lower_layers (m_ofs st') = fs_lower_layers (m_ofs st) →
  cfg_le (fs_config (m_ofs st)) (fs_config (m_ofs st')) → xino_fits (m_ofs st') → stack_ok st oe → stack_ok st' oe.
Proof.
  intros Hl Hc Hx []. split; try done; [by rewrite Hl|]. intros Hw. apply so_decode0. by eapply cfg_fh_le.
Qed.

Lemma rooted_roots roots layers stack :
  op_layer <$> roots = layers → op_dentry <$> roots = snd <$> stack → Forall2 rooted_at layers stack → Forall dir_path stack →
  (∀ p, p ∈ roots → op_dentry p = mnt_root (l_mnt (op_layer p)) ∧ is_Some (d_inode (op_dentry p)) ∧
     ∃ q, q ∈ stack ∧ q.2 = op_dentry p) ∧ length roots = length stack.
Proof.
  intros <-. revert stack. induction roots as [|r roots IH]; intros [|p stack] Hd HF Hp; try done.
  { split; [by intros p ?%elem_of_nil|done]. }
  cbn in Hd, HF. injection Hd as Hd0 Hd. apply Forall2_cons_1 in HF as [Hr HF]. apply Forall_cons in Hp as [Hp Hps].
  destruct (IH stack Hd HF Hps) as [Hx Hlen]. split; [|cbn; by rewrite Hlen].
  intros q [->|Hq]%elem_of_cons.
  - unfold rooted_at in Hr. rewrite Hd0, Hr. split; [done|]. split; [apply Hp|]. exists p. split; [by left|done].
  - destruct (Hx q Hq) as (? & ? & p' & ? & ?). split; [done|]. split; [done|]. exists p'. split; [by right|done].
Qed.

Definition result_ok base (st : mst W) (r : Z + ovl_entry) : Prop :=
  match r with
  | inl err => failed st0 base err st
  | inr oe => minv (stack_refs (oe_lowerstack oe) ++ base) st ∧ stack_ok st oe
  end.

Lemma lowerstack_from_step base st stack remote :
  minv base st → no_lower st → xino_wide st → Forall dir_path stack → 1 ≤ zlen stack ≤ OVL_MAX_STACK →
  (cfg_fh (fs_config (m_ofs st)) = true → Forall (λ p, decodable export_op p.2) stack) →
  mwp (lowerstack_from stack remote) st (λ r st', low0 st st' ∧ result_ok base st' r ∧
    ∀ oe, r = inr oe → zlen (oe_lowerstack oe) = zlen stack).
Proof.
  intros Hi Hnl Hx Hps Hlen Hdec. unfold lowerstack_from. apply mwp_modify. set (st1 := set_m_sb _ st).
  assert (still st st1) as Hs1 by (by apply still_sb). assert (minv base st1) as Hi1 by (by eapply minv_still).
  assert (low0 st st1) as Hl1 by (by apply low_low0, low_still).
  apply mwp_peek. case_match; [apply mwp_ret; split; [done|]; split; [by apply failed_plain|done]|].
  eapply mwp_seq; [eapply (lower_layers_step export_op); [exact Hi1|done|done|lia|done]|]. intros err st2 (Hl2 & Hok & Herr).
  assert (low0 st st2) as Hl02 by (by etrans).
  destruct (Z.eqb_spec err 0) as [->|Hne]; cbn [negb]; [|apply mwp_ret; split; [done|]; split; [by apply Herr|done]].
  destruct (Hok eq_refl) as (Hi2 & HF & Hx2). apply mwp_peek. destruct (kmalloc_ok _ _); cbn [negb];
    [|apply mwp_ret; split; [done|]; split; [by apply failed_plain|done]].
  apply mwp_peek. eapply mwp_seq; [by eapply get_roots_step|]. intros roots st3 (Hi3 & [l3 ->] & Hla & Hd).
  apply mwp_modify, mwp_ret. destruct (rooted_roots _ _ _ Hla Hd HF Hps) as [Hroots Hrl].
  split; [etrans; [exact Hl02|]; etrans; [apply low_low0, low_refs|]; by apply low_low0, low_still, still_sb|].
  split; [|intros oe [= <-]; unfold zlen; cbn; by rewrite Hrl]. split.
  - eapply minv_still; [by apply still_sb|exact Hi3].
  - split; [exact Hla|intros p Hp; by apply Hroots in Hp as (? & ? & _)|done|unfold zlen in *; cbn [oe_lowerstack]; by rewrite Hrl| |exact Hx2].
    intros Hw p Hp. apply Hroots in Hp as (_ & _ & q & Hq & <-). cbn in Hw.
    rewrite Forall_forall in Hdec. apply Hdec; [|done]. eapply cfg_fh_le; [|exact Hw]. apply Hl02.
Qed.

Lemma lower_names_length n buf : length (lower_names n buf) = n.
Proof. revert buf. induction n as [|n IH]; intros buf; [done|]. cbn [lower_names].
  destruct (Options.cstr buf) as [s rest]. cbn [length]. by rewrite IH. Qed.
Lemma split_lowerdirs_pos s : 1 ≤ (ovl_split_lowerdirs s).1.
Proof.
  unfold ovl_split_lowerdirs. assert (∀ n t, (String.length t ≤ n)%nat → 1 ≤ (split_lowerdirs_loop t).1) as Hn; [|by eapply Hn]. clear s.
  induction n as [|n IH]; intros [|c s] Hl; cbn in Hl; [cbn; lia|lia|cbn; lia|]. cbn [split_lowerdirs_loop].
  destruct (bool_decide (c = BSLASH)); [destruct s as [|c' s]; [cbn; lia|cbn in Hl]|destruct (bool_decide (c = _))];
    pose proof (IH s ltac:(lia)); destruct (split_lowerdirs_loop s) as [k d]; cbn [fst] in *; lia.
Qed.

Lemma get_lowerstack_step base st :
  minv base st → no_lower st → xino_wide st → is_Some (c_lowerdir (fs_config (m_ofs st))) →
  mwp (ovl_get_lowerstack export_op) st (λ r st', low0 st st' ∧ result_ok base st' r ∧
    (∀ oe, r = inr oe → c_upperdir (fs_config (m_ofs st)) = None → 2 ≤ zlen (oe_lowerstack oe))).
Proof.
  intros Hi Hnl Hx [low Hlow]. unfold ovl_get_lowerstack, config. apply mwp_peek. rewrite Hlow. apply mwp_mret.
  destruct (kstrdup low) as [tmp|]; [|apply mwp_ret; split; [done|]; split; [by apply failed_plain|done]].
  pose proof (split_lowerdirs_pos tmp) as Hpos. destruct (ovl_split_lowerdirs tmp) as [n buf] eqn:En. cbn [fst] in Hpos.
  destruct (Z.ltb_spec OVL_MAX_STACK n); [apply mwp_ret; split; [done|]; split; [by apply failed_plain|done]|].
  destruct (_ && (n =? 1)) eqn:E1; [apply mwp_ret; split; [done|]; split; [by apply failed_plain|done]|].
  assert (c_upperdir (fs_config (m_ofs st)) = None → 2 ≤ n) as Htwo.
  { intros E. rewrite E in E1. cbn in E1. apply Z.eqb_neq in E1. lia. } clear E1.
  eapply mwp_seq with (R := λ _ st1, still st st1).
  { case_match; [|by apply mwp_ret]. unfold on_config, on_fs_ofs, mmodify, mwp. apply still_config, cfg_nfs_le. }
  cbv beta. intros _ st1 Hs1. apply mwp_peek. assert (minv base st1) as Hi1 by (by eapply minv_still).
  assert (low0 st st1) as Hl1 by (by apply low_low0, low_still).
  destruct (kmalloc_ok _ _); cbn [negb]; [|apply mwp_ret; split; [done|]; split; [by apply failed_plain|done]].
  eapply mwp_seq; [apply (lower_dirs_step export_op st0 _ base st1 [] false); [done|constructor|intros; constructor]|].
  intros [[err stack] rem] st2 (Hl2 & Hc2 & Hi2 & Hps & Hlen & Hdec).
  assert (low0 st st2) as Hl02 by (etrans; [done|by apply low_low0]).
  eapply mwp_seq with (R := λ r st3, low0 st2 st3 ∧ result_ok (paths_refs stack ++ base) st3 r ∧
    ∀ oe, r = inr oe → c_upperdir (fs_config (m_ofs st)) = None → 2 ≤ zlen (oe_lowerstack oe)).
  - destruct (Z.eqb_spec err 0) as [->|Hne]; cbn [negb];
      [|apply mwp_ret; split; [done|]; split; [by apply failed_plain|done]].
    specialize (Hlen eq_refl). rewrite lower_names_length in Hlen. cbn in Hlen.
    assert (zlen stack = n) as Hz by (unfold zlen; lia).
    assert (no_lower st2) as Hnl2.
    { destruct Hnl as [E1 E2]. pose proof (sl_core _ _ Hs1) as Hc1. destruct Hc1, Hc2. split; congruence. }
    eapply mwp_mono; [eapply lowerstack_from_step; [exact Hi2|exact Hnl2| |done|lia|exact Hdec]|].
    { eapply xino_wide_later; [apply Hl2|]. eapply xino_wide_later; [by apply later_still|done]. }
    intros r st3 (Hl3 & Hr & Hsize). split; [done|]. split; [exact Hr|]. intros oe Ho Hno. rewrite (Hsize _ Ho). specialize (Htwo Hno). lia.
  - intros r st3 (Hl3 & Hr & Hsize). assert (low0 st st3) as Hl03 by (by etrans). destruct r as [e|oe].
    + destruct Hr as (Hne & leak & Hi3 & Hlk). eapply put_paths_step with (base := leak ++ base).
      { eapply minv_perm; [|exact Hi3]. rewrite !app_assoc. by rewrite (Permutation.Permutation_app_comm leak). }
      intros l Hl. apply mwp_ret. split; [etrans; [exact Hl03|apply low_low0, low_refs]|]. split; [|done]. split; [done|]. by exists leak.
    + destruct Hr as [Hi3 Hso]. eapply put_paths_step with (base := stack_refs (oe_lowerstack oe) ++ base).
      { eapply minv_perm; [|exact Hi3]. rewrite !app_assoc. by rewrite (Permutation.Permutation_app_comm (stack_refs _)). }
      intros l Hl. apply mwp_ret. split; [etrans; [exact Hl03|apply low_low0, low_refs]|]. split; [|exact Hsize]. split; [exact Hl|by destruct Hso].
Qed.

(** ** Overlapping layers *)

(** Proper ancestors, and the walk up reaching the root of the file system
    within [n] steps. *)
Inductive ancestor (w : W) : dentry → dentry → Prop :=
  | anc_parent d : same_dentry (real_parent w d) d = false → ancestor w d (real_parent w d)
  | anc_up d a : same_dentry (real_parent w d) d = false → ancestor w (real_parent w d) a → ancestor w d a.
Fixpoint reaches (w : W) (n : nat) (d : dentry) : bool :=
  match n with
  | O => false
  | S n => same_dentry (real_parent w d) d || reaches w n (real_parent w d)
  end.
(** The real directories as the mount sees them: at most [depth] deep, and
    positive up to the root. *)
Record bounded (depth : nat) (w : W) : Prop := {
  bd_depth d : is_Some (d_inode d) → reaches w depth d = true;
  bd_parent d : is_Some (d_inode d) → is_Some (d_inode (real_parent w d));
}.

Definition trap_free st (a : dentry) : Prop :=
  ovl_lookup_trap_inode (λ k, m_cache st !! k ≫= λ ip, k_inodes (m_k st) !! ip) a = Ret false.

Lemma check_layer_step n : ∀ st d,
  reaches (m_w st) n d = true → (∀ d, is_Some (d_inode d) → is_Some (d_inode (real_parent (m_w st) d))) → is_Some (d_inode d) →
  mwp (check_layer_loop n d) st (λ err st', st' = st ∧ (err = 0 → ∀ a, ancestor (m_w st) d a → trap_free st a)).
Proof.
  induction n as [|n IH]; intros st d Hr Hpos Hd; [done|]. cbn [reaches check_layer_loop] in *. apply mwp_peek.
  destruct (same_dentry _ d) eqn:Es; [apply mwp_ret; split; [done|]; intros _ a Ha; inversion Ha; congruence|].
  apply mwp_peek. cbv beta delta [id]. cbn [orb] in Hr. specialize (Hpos _ Hd) as Hp.
  destruct (trap_ret (λ k, m_cache st !! k ≫= λ ip, k_inodes (m_k st) !! ip) _ Hp) as [t Ht]. rewrite Ht. apply mwp_bind.
  unfold mo, mwp at 1. destruct t; [by apply mwp_ret|]. destruct Hp as [i Hi]. unfold is_inuse. apply mwp_assoc. rewrite Hi.
  apply mwp_mret, mwp_peek. eapply mwp_then with (R := λ _ st', st' = st).
  { case_match; [|by apply mwp_ret]. unfold ovl_report_in_use, config. by apply mwp_peek, mwp_ret. }
  { intros err st' -> Hne. split; [done|]. by intros. }
  intros st' ->. eapply mwp_mono; [apply IH; [done|done|by exists i]|]. intros err st' [-> Hok]. split; [done|].
  intros He a Ha. inversion Ha; subst; [done|by apply Hok].
Qed.

Lemma check_layers_step depth l : ∀ st,
  bounded depth (m_w st) → Forall (λ d, is_Some (d_inode d)) l →
  mwp (check_layers depth l) st (λ err st', st' = st ∧ (err = 0 → ∀ d a, d ∈ l → ancestor (m_w st) d a → trap_free st a)).
Proof.
  induction l as [|d l IH]; intros st Hb HF; [apply mwp_ret; split; [done|]; by intros _ d a ?%elem_of_nil|].
  apply Forall_cons in HF as [Hd HF]. cbn [check_layers]. unfold ovl_check_layer.
  eapply mwp_then; [apply check_layer_step; [by apply Hb|apply Hb|done]| |].
  - intros err st' [-> _] Hne. by split.
  - intros st' [-> Hok]. eapply mwp_mono; [by apply IH|]. intros err st' [-> Hok2]. split; [done|].
    intros He x a [->|Hx]%elem_of_cons Ha; [by apply Hok|by eapply Hok2].
Qed.

(** The directories of a mount that must not overlap, and their traps. *)
Definition layer_dirs st : list dentry :=
  (if fs_upper_mnt (m_ofs st) =? NULL then []
   else mnt_root (fs_upper_mnt (m_ofs st)) :: match mf_workbasedir (m_fs st) with Some d => [d] | None => [] end) ++
  ((λ l, mnt_root (l_mnt l)) <$> fs_lower_layers (m_ofs st)).
Definition dir_inode (d : dentry) : Z := iptr (d_inode d).
Record apart st : Prop := {
  ap_distinct : NoDup (dir_inode <$> layer_dirs st);
  ap_above d a : d ∈ layer_dirs st → ancestor (m_w st) d a → dir_inode a ∉ dir_inode <$> layer_dirs st;
}.

Lemma check_overlapping_step depth base st :
  minv base st → bounded depth (m_w st) → (fs_upper_mnt (m_ofs st) ≠ NULL → workbase_set st) →
  mwp (ovl_check_overlapping_layers depth) st (λ err st', st' = st ∧
    (err = 0 → ∀ d a, d ∈ layer_dirs st → ancestor (m_w st) d a → trap_free st a)).
Proof.
  intros Hi Hb Hwb. unfold ovl_check_overlapping_layers. apply mwp_peek, mwp_peek.
  assert (∀ l, Forall (λ d, is_Some (d_inode d)) l → mwp (check_layers depth l) st (λ err st', st' = st ∧
    (err = 0 → ∀ d a, d ∈ l → ancestor (m_w st) d a → trap_free st a))) as Hch by (intros; by apply check_layers_step).
  eapply mwp_then with (R := λ err st', st' = st ∧ (err = 0 → ∀ d a,
    d ∈ (if fs_upper_mnt (m_ofs st) =? NULL then []
         else mnt_root (fs_upper_mnt (m_ofs st)) :: match mf_workbasedir (m_fs st) with Some d => [d] | None => [] end) →
    ancestor (m_w st) d a → trap_free st a)).
  - destruct (Z.eqb_spec (fs_upper_mnt (m_ofs st)) NULL) as [E|Hne]; cbn [negb].
    + apply mwp_ret. split; [done|]. by intros _ d a ?%elem_of_nil.
    + destruct (Hwb Hne) as [[wb Ewb] _]. rewrite Ewb.
      assert (is_Some (d_inode wb)) as Hwbi by (by apply (di_workbase _ (mi_dirs _ _ _ Hi))).
      assert (is_Some (d_inode (mnt_root (fs_upper_mnt (m_ofs st))))) as Hui by (by apply (di_upper _ (mi_dirs _ _ _ Hi))).
      eapply mwp_then; [apply check_layer_step; [by apply Hb|apply Hb|done]| |].
      { intros err st' [-> _] ?. by split. }
      intros st' [-> Hok]. eapply mwp_mono; [apply check_layer_step; [by apply Hb|apply Hb|done]|].
      intros err st' [-> Hok2]. split; [done|]. intros He d a [->|[->|?%elem_of_nil]%elem_of_cons]%elem_of_cons Ha;
        [by apply Hok|by apply Hok2|done].
  - intros err st' [-> _] ?. by split.
  - intros st' [-> Hok]. eapply mwp_mono; [apply Hch|].
    + apply Forall_fmap, Forall_forall. intros l Hl. apply list_elem_of_lookup in Hl as [i Hl].
      by destruct (li_layers _ (mi_lower _ _ _ Hi) _ _ Hl).
    + intros err st' [-> Hok2]. split; [done|]. intros He d a [Hd|Hd]%elem_of_app Ha; [by eapply Hok|by eapply Hok2].
Qed.

(** The traps of these directories. *)
Lemma layer_dirs_trapped base st :
  minv base st → (fs_upper_mnt (m_ofs st) ≠ NULL → workbase_set st) →
  ∃ traps, NoDup traps ∧ Forall2 (cached_trap st) (layer_dirs st) traps.
Proof.
  intros Hi Hwb. destruct (mi_traps _ _ _ Hi) as [_ t2 _ t4 t5 t6 t7].
  assert (Forall2 (cached_trap st) ((λ l, mnt_root (l_mnt l)) <$> fs_lower_layers (m_ofs st)) (mf_layer_traps (m_fs st))) as HF.
  { apply Forall2_same_length_lookup_2; [by rewrite length_fmap|]. intros i d t Hd Ht.
    apply list_lookup_fmap_Some in Hd as (l & -> & Hl). destruct (t6 i l Hl) as (t' & ? & ?). by simplify_eq. }
  unfold layer_dirs. unfold all_traps in t2. destruct (Z.eqb_spec (fs_upper_mnt (m_ofs st)) NULL) as [E|Hne].
  - exists (mf_layer_traps (m_fs st)). split; [|exact HF]. by repeat apply NoDup_app in t2 as (_ & _ & t2).
  - destruct (t4 Hne) as (tu & Etu & Hcu). destruct (Hwb Hne) as [[wb Ewb] [tw Etw]]. rewrite Ewb, Etu, Etw in *.
    exists (tu :: tw :: mf_layer_traps (m_fs st)). cbn [tlist app] in t2. split; [|constructor; [done|constructor; [by apply t5|done]]].
    cbn in t2. eapply sublist_NoDup; [exact t2|]. do 2 apply sublist_skip. by do 2 apply sublist_inserts_l.
Qed.

Lemma trapped_apart base st :
  minv base st → (fs_upper_mnt (m_ofs st) ≠ NULL → workbase_set st) →
  (∀ d a, d ∈ layer_dirs st → ancestor (m_w st) d a → trap_free st a) → apart st.
Proof.
  intros Hi Hwb Hfree. destruct (layer_dirs_trapped base st Hi Hwb) as (traps & Hnd & HF). split.
  - clear Hfree. revert Hnd. induction HF as [|d t l traps Hc HF IH]; intros Hnd; [constructor|].
    apply NoDup_cons in Hnd as [Hni Hnd]. cbn. constructor; [|by apply IH].
    intros (d' & E & Hd')%list_elem_of_fmap. apply list_elem_of_lookup in Hd' as [i Hd'].
    eapply Forall2_lookup_l in HF as (t' & Ht' & Hc'); [|exact Hd']. destruct Hc as [Hc _], Hc' as [Hc' _].
    unfold dir_inode in E. rewrite E, Hc' in Hc. simplify_eq. apply Hni. by eapply list_elem_of_lookup_2.
  - intros d a Hd Ha (r & E & Hr)%list_elem_of_fmap. specialize (Hfree d a Hd Ha). apply list_elem_of_lookup in Hr as [i Hr].
    eapply Forall2_lookup_l in HF as (t & Ht & Hc); [|exact Hr]. destruct Hc as [Hc [o Ho]].
    unfold trap_free, ovl_lookup_trap_inode in Hfree. destruct (d_inode a) as [ia|] eqn:Eia; [|done].
    unfold dir_inode in E. rewrite Eia in E. cbn [iptr] in E. rewrite E, Hc in Hfree. cbn in Hfree. rewrite Ho in Hfree.
    destruct (ti_inodes _ (mi_traps _ _ _ Hi) _ _ Ho) as [_ (Hdead & Hup & Hlo & _)].
    unfold ovl_inode_upper, ovl_inode_lower in Hfree. rewrite Hup, Hlo, Hdead in Hfree. done.
Qed.

End stack.

Section free.
Context {W : Type} `{Under W, !UnderLaws W, Kern W, !KernLaws W, DirKern W, MountKern W, !MountLaws W, RbLib, OptLib}.
Context (st0 : mst W).
Implicit Types (st : mst W).

(** Steps that only give references back. *)
Record frees st st' : Prop := {
  fr_w : m_w st' = m_w st;
  fr_held : k_held (m_k st') = k_held (m_k st);
  fr_dents : k_dents (m_k st') = k_dents (m_k st);
  fr_istate : m_istate st' = m_istate st;
  fr_bdevs : m_bdevs st' = m_bdevs st;
}.
#[export] Instance frees_preorder : PreOrder frees.
Proof. split; [intros a; by split|]. intros a b c [] []. split; congruence. Qed.

Lemma release_step {B} r l (f : unit → mount W B) st Q :
  m_refs st ≡ₚ r :: l → (∀ st', frees st st' → m_refs st' ≡ₚ l → mwp (f tt) st' Q) → mwp (release r ≫= f) st Q.
Proof. intros Hr Hf. eapply mwp_release; [exact Hr|]. intros l' Hl. by apply Hf. Qed.
Lemma dput_step {B} d l (f : unit → mount W B) st Q :
  m_refs st ≡ₚ dref d ++ l → (∀ st', frees st st' → m_refs st' ≡ₚ l → mwp (f tt) st' Q) → mwp (dput d ≫= f) st Q.
Proof. destruct d; intros Hr Hf; cbn [dput]; [by eapply release_step; [exact Hr|]|apply mwp_mret, Hf; [done|exact Hr]]. Qed.
Lemma mntput_step {B} m l (f : unit → mount W B) st Q :
  m_refs st ≡ₚ mref m ++ l → (∀ st', frees st st' → m_refs st' ≡ₚ l → mwp (f tt) st' Q) → mwp (mntput m ≫= f) st Q.
Proof.
  unfold mref, mntput. destruct (m =? NULL); intros Hr Hf; [apply mwp_mret, Hf; [done|exact Hr]|by eapply release_step; [exact Hr|]].
Qed.
Lemma iput_step {B} t l (f : unit → mount W B) st Q :
  m_refs st ≡ₚ tref t ++ l → (∀ st', frees st st' → m_refs st' ≡ₚ l → mwp (f tt) st' Q) → mwp (iput_trap t ≫= f) st Q.
Proof.
  destruct t as [t|]; intros Hr Hf; cbn [iput_trap]; [|apply mwp_mret, Hf; [done|exact Hr]]. apply mwp_assoc.
  eapply release_step; [exact Hr|]. intros st1 [] Hr1. apply mwp_modify, Hf; [by split|done].
Qed.

Lemma free_layers_step {B} layers : ∀ traps l st (f : unit → mount W B) Q,
  length traps = length layers → (∀ x, x ∈ layers → l_mnt x ≠ NULL) →
  m_refs st ≡ₚ (RTrap <$> traps) ++ ((λ x, RMnt (l_mnt x)) <$> layers) ++ l →
  (∀ st', frees st st' → m_refs st' ≡ₚ l → mwp (f tt) st' Q) → mwp (free_layers traps layers ≫= f) st Q.
Proof.
  induction layers as [|x layers IH]; intros [|t traps] l st f Q Hlen Hm Hr Hf; try done; cbn [free_layers]; [apply mwp_mret, Hf; [done|exact Hr]|].
  apply mwp_assoc. eapply iput_step with (t := Some t); [exact Hr|]. intros st1 Hs1 Hr1. apply mwp_assoc.
  assert (mref (l_mnt x) = [RMnt (l_mnt x)]) as E.
  { unfold mref. destruct (Z.eqb_spec (l_mnt x) NULL) as [E|]; [|done]. exfalso. apply (Hm x); [by left|done]. }
  eapply mntput_step with (l := (RTrap <$> traps) ++ ((λ x, RMnt (l_mnt x)) <$> layers) ++ l).
  { rewrite E, Hr1. cbn. solve_Permutation. }
  intros st2 Hs2 Hr2. eapply IH; [by injection Hlen|intros y Hy; apply Hm; by right|exact Hr2|].
  intros st3 Hs3 Hr3. apply Hf; [|done]. etrans; [exact Hs1|]. by etrans.
Qed.

Lemma free_devs_step {B} devs : ∀ l st (f : unit → mount W B) Q,
  m_refs st ≡ₚ (RDev <$> devs) ++ l →
  (∀ st', frees (set_m_bdevs (m_bdevs st ∖ list_to_set devs) st) st' → m_refs st' ≡ₚ l → mwp (f tt) st' Q) →
  mwp (free_devs devs ≫= f) st Q.
Proof.
  induction devs as [|d devs IH]; intros l st f Q Hr Hf; cbn [free_devs].
  - apply mwp_mret, Hf; [|done]. split; try done. cbn. by rewrite difference_empty_L.
  - apply mwp_assoc. eapply release_step; [exact Hr|]. intros st1 Hs1 Hr1. apply mwp_assoc, mwp_modify.
    eapply IH; [exact Hr1|]. intros st2 [Hw2 Hh2 Hd2 Hi2 Hb2] Hr2. apply Hf; [|done]. destruct Hs1 as [Hw1 Hh1 Hd1 Hi1 Hb1].
    split; [by rewrite Hw2|by rewrite Hh2|by rewrite Hd2|by rewrite Hi2|]. rewrite Hb2. cbn. rewrite Hb1.
    by rewrite difference_difference_l_L.
Qed.

(** Unlocking a directory, if it was locked. *)
Definition unlocked (b : bool) (d : option dentry) st st' : Prop :=
  (∀ p, istate st' p = if b && has_iptr d p then ovl_inuse_unlock (istate st p) else istate st p) ∧
  m_w st' = m_w st ∧ k_held (m_k st') = k_held (m_k st) ∧ k_dents (m_k st') = k_dents (m_k st) ∧ m_bdevs st' = m_bdevs st.
Lemma unlock_step {B} (b : bool) d l st (f : unit → mount W B) Q :
  m_refs st ≡ₚ l → (b = true → ∀ x, d = Some x → is_Some (d_inode x)) →
  (∀ st', unlocked b d st st' → m_refs st' ≡ₚ l → mwp (f tt) st' Q) →
  mwp ((if b then inuse_unlock d else mret tt) ≫= f) st Q.
Proof.
  intros Hr Hd Hf. destruct b; [|by apply mwp_mret, Hf]. destruct d as [d|]; cbn [inuse_unlock]; [|apply mwp_mret, Hf; [|done]; by split].
  destruct (Hd eq_refl d eq_refl) as [i Hi]. apply mwp_assoc. rewrite Hi. apply mwp_mret, mwp_modify, Hf; [|done].
  split; [|done]. intros p. cbn [has_iptr]. rewrite Hi. cbn [iptr andb]. unfold istate at 1. cbn.
  destruct (Z.eqb_spec (i_ptr i) p) as [<-|Hne]; [by rewrite lookup_insert_eq|by rewrite lookup_insert_ne].
Qed.

(** The state when everything is given back but what is accounted for in
    [base]. *)
Record given_back (base : list ref) st : Prop := {
  gb_refs : m_refs st ≡ₚ base;
  gb_inuse p : istate st p = istate st0 p;
  gb_bdevs : m_bdevs st = m_bdevs st0;
  gb_held : k_held (m_k st) = k_held (m_k st0);
  gb_dents : k_dents (m_k st) = k_dents (m_k st0);
}.

Lemma unlock_lor s : Z.land s I_OVL_INUSE = 0 → ovl_inuse_unlock (Z.lor s I_OVL_INUSE) = s.
Proof.
  intros E. unfold ovl_inuse_unlock. apply Z.bits_inj. intros n. rewrite Z.ldiff_spec, Z.lor_spec.
  assert (Z.testbit s n && Z.testbit I_OVL_INUSE n = false) as Hn by (by rewrite <- Z.land_spec, E, Z.bits_0).
  destruct (Z.testbit s n), (Z.testbit I_OVL_INUSE n); done.
Qed.
Lemma unlock_plain s : Z.land s I_OVL_INUSE = 0 → ovl_inuse_unlock s = s.
Proof.
  intros E. unfold ovl_inuse_unlock. apply Z.bits_inj. intros n. rewrite Z.ldiff_spec.
  assert (Z.testbit s n && Z.testbit I_OVL_INUSE n = false) as Hn by (by rewrite <- Z.land_spec, E, Z.bits_0).
  destruct (Z.testbit s n), (Z.testbit I_OVL_INUSE n); done.
Qed.

(** The references of struct ovl_fs in the order of ovl_free_fs. *)
Definition free_order (f : mount_fs) (o : ovl_fs) : list ref :=
  tref (mf_workbasedir_trap f) ++ tref (mf_indexdir_trap f) ++ tref (mf_workdir_trap f) ++ tref (mf_upperdir_trap f) ++
  dref (mf_indexdir f) ++ dref (mf_workdir f) ++ dref (mf_workbasedir f) ++ mref (fs_upper_mnt o) ++
  ((RTrap <$> mf_layer_traps f) ++ ((λ x, RMnt (l_mnt x)) <$> fs_lower_layers o)) ++
  (RDev <$> mf_lower_devs f) ++ cref (mf_creator_cred f).
Lemma owned_order f o : owned f o ≡ₚ free_order f o.
Proof.
  assert (∀ t, RTrap <$> tlist t = tref t) as E by (by intros []).
  unfold owned, free_order, all_traps. rewrite !fmap_app, !E. solve_Permutation.
Qed.

Lemma free_fs_step {B} base st (f : unit → mount W B) Q :
  minv st0 base st → (∀ st', given_back base st' → mwp (f tt) st' Q) → mwp (ovl_free_fs ≫= f) st Q.
Proof.
  intros Hi Hf. unfold ovl_free_fs. apply mwp_assoc, mwp_peek. apply mwp_assoc, mwp_peek.
  pose proof Hi as [Hh Hd Hr Hu [b1 b2 b3] Ht Hdi Hl].
  assert (m_refs st ≡ₚ free_order (m_fs st) (m_ofs st) ++ base) as Hr0 by (by rewrite Hr, owned_order).
  set (fs := m_fs st) in *. set (o := m_ofs st) in *. unfold free_order in Hr0. rewrite <- !app_assoc in Hr0.
  apply mwp_assoc. eapply iput_step; [exact Hr0|]. intros s1 F1 R1.
  apply mwp_assoc. eapply iput_step; [exact R1|]. intros s2 F2 R2.
  apply mwp_assoc. eapply iput_step; [exact R2|]. intros s3 F3 R3.
  apply mwp_assoc. eapply iput_step; [exact R3|]. intros s4 F4 R4.
  apply mwp_assoc. eapply dput_step; [exact R4|]. intros s5 F5 R5.
  apply mwp_assoc. eapply dput_step; [exact R5|]. intros s6 F6 R6.
  assert (frees st s6) as F06 by (do 5 (etrans; [eassumption|]); eassumption). clear F1 F2 F3 F4 F5 F6 R1 R2 R3 R4 R5.
  apply mwp_assoc. eapply unlock_step; [exact R6|intros _; apply (di_workbase _ Hdi)|]. intros s7 U7 R7.
  apply mwp_assoc. eapply dput_step; [exact R7|]. intros s8 F8 R8.
  apply mwp_assoc. eapply (unlock_step (mf_upperdir_locked fs)); [exact R8| |].
  { intros Hlk x [= <-]. by apply (di_upper _ Hdi), (di_locked _ Hdi). }
  intros s9 U9 R9. apply mwp_assoc. eapply mntput_step; [exact R9|]. intros s10 F10 R10.
  apply mwp_assoc. eapply free_layers_step; [exact (ti_length _ Ht)| |exact R10|].
  { intros x Hx. apply list_elem_of_lookup in Hx as [i Hx]. by destruct (li_layers _ Hl _ _ Hx). }
  intros s11 F11 R11. apply mwp_assoc. eapply free_devs_step; [exact R11|]. intros s12 F12 R12.
  assert (∀ s13, frees s12 s13 → m_refs s13 ≡ₚ base → given_back base s13) as Hend; last first.
  { destruct (mf_creator_cred fs) as [c|]; cbn [cref] in R12.
    - eapply release_step; [exact R12|]. intros s13 F13 R13. by apply Hf, Hend.
    - by apply mwp_mret, Hf, Hend. }
  intros s13 F13 R13. assert (frees s9 s11) as F911 by (by etrans). destruct U7 as (U7 & _ & Uh7 & Ud7 & Ub7), U9 as (U9 & _ & Uh9 & Ud9 & Ub9).
  destruct F06, F8, F911, F12, F13. unfold istate in *. cbn [m_k m_istate m_bdevs set_m_bdevs] in *.
  split; [done| | |congruence|congruence].
  - intros p. unfold istate in *.
    replace (m_istate s13) with (m_istate s9) by congruence. rewrite U9. replace (m_istate s8) with (m_istate s7) by congruence.
    rewrite U7. replace (m_istate s6) with (m_istate st) by congruence. specialize (Hu p). unfold locked_by, istate in Hu.
    fold fs o in Hu. destruct (mf_upperdir_locked fs && has_iptr _ p), (mf_workdir_locked fs && has_iptr _ p); cbn [orb] in Hu;
      [destruct Hu as [Hz ->]; rewrite unlock_lor by done; by apply unlock_plain|destruct Hu as [Hz ->]; by apply unlock_lor..|done].
  - replace (m_bdevs s13) with (m_bdevs s11 ∖ list_to_set (mf_lower_devs fs)) by congruence.
    replace (m_bdevs s11) with (m_bdevs st) by congruence. rewrite b1. fold fs. apply leibniz_equiv. intros d.
    rewrite elem_of_difference, elem_of_union, !elem_of_list_to_set. split; [tauto|]. intros Hd0. split; [by left|].
    intros Hin. by apply (b3 d).
Qed.

End free.
