(* ===== verification/MountFill.v ===== *)
(** ovl_fill_super, stage by stage: the upper layer, the lower layers, the index
    directory, the root dentry. *)

From S2P Require Import Prelude Types Util Under Options OptionsProps Nlink Fh FhProps Redirect RedirectProps Inode Readdir Kernel KernelProps Work CopyUp WorkProps CopyUpSteps Dir Clean MountState Mount MountInv MountSteps MountWork MountLayers MountStack.
From stdpp Require Import gmap.
Local Open Scope Z_scope.

Section fill.
Context {W : Type} `{Under W, !UnderLaws W, Kern W, !KernLaws W, DirKern W, MountKern W, !MountLaws W, RbLib, OptLib}.
Context (mp : ovl_params) (kmalloc : list centry → string → bool).
Context (export_op : Z → option (bool * bool)) (depth : nat) (st0 : mst W).
Implicit Types (st : mst W).

#[local] Abbreviation minv := (minv st0).

(** Nothing but the credentials is set. *)
Definition blank (f : mount_fs) : Prop := ∃ c, f = fs_set_cred c mount_fs_zero.
(** The upper layer is set up, if there is one. *)
Definition upper_set st (up : option mpath) : Prop :=
  match up with
  | Some p => upper_ready st p ∧ workbase_set st
  | None => c_upperdir (fs_config (m_ofs st)) = None ∧ fs_upper_mnt (m_ofs st) = NULL
  end.
(** A mount without a work directory is read-only. *)
Definition no_work_ro st : Prop := mf_workdir (m_fs st) = None → fs_upper_mnt (m_ofs st) ≠ NULL → s_rdonly (m_sb st) = true.

Lemma upper_set_later st st' up : later0 st st' → upper_set st up → upper_set st' up.
Proof.
  intros Hl. destruct up as [p|]; cbn.
  - intros [Hu Hw]. split; [by eapply upper_ready_later|by eapply workbase_later].
  - intros [Hc Hn]. split; [rewrite (cl_upperdir _ _ (la_cfg _ _ Hl)); done|by apply (la_no_upper _ _ Hl)].
Qed.
Lemma upper_set_workbase st up : upper_set st up → fs_upper_mnt (m_ofs st) ≠ NULL → workbase_set st.
Proof. destruct up as [p|]; [by intros [_ ?]|by intros [_ ?]]. Qed.

Lemma fill_upper_step base st :
  minv base st → 0 ≤ h_write (k_held (m_k st0)) → fs_upper_mnt (m_ofs st) = NULL → blank (m_fs st) → no_lower st →
  mwp (fill_upper kmalloc export_op) st (λ '(err, up) st', early st st' ∧ minv (opath_refs up ++ base) st' ∧
    (err = 0 → upper_set st' up ∧ no_work_ro st' ∧ mf_indexdir (m_fs st') = None ∧ mf_indexdir_trap (m_fs st') = None)).
Proof.
  intros Hi Hw Hn [c Hbl] Hnl. unfold fill_upper, config. apply mwp_peek.
  case_bool_decide as Hup; cbn [negb]; last first.
  { apply mwp_ret. split; [done|]. split; [done|]. intros _. split; [split; [|done]|split; [by intros _|by rewrite Hbl]].
    destruct (c_upperdir _) eqn:E; [|done]. exfalso. apply Hup. by eexists. }
  case_bool_decide as Hwd; cbn [negb]; [|apply mwp_ret; split; [done|]; by split].
  eapply mwp_seq; [apply (get_upper_step st0 base); by rewrite ?Hbl|]. intros [err up] st1 (He1 & Hi1 & Hsw & Hup1).
  destruct (Z.eqb_spec err 0) as [->|Hne]; cbn [negb]; [|apply mwp_ret; split; [done|]; by split].
  destruct up as [p|]; [|done]. specialize (Hup1 eq_refl). apply mwp_mret. destruct Hsw as [s1 s2 s3 s4 s5 s6 s7].
  rewrite Hbl in s1, s2, s3, s4, s5, s6, s7. cbn in s1, s2, s3, s4, s5, s6, s7.
  eapply mwp_seq; [eapply get_workdir_step; [exact Hi1|done|apply Hup1| |done..]|].
  { by rewrite (cl_workdir _ _ (la_cfg _ _ (la_later _ _ (ea_later _ _ He1)))). }
  intros err st2 (Hi2 & He2 & Hsi & Hwb). assert (early st st2) as He02 by (by etrans).
  destruct (Z.eqb_spec err 0) as [->|Hne]; cbn [negb]; [|apply mwp_ret; split; [done|]; by split].
  apply mwp_peek. set (st3 := if negb (fs_workdir (m_ofs st2)) then set_m_sb (sb_set_rdonly (m_sb st2)) st2 else st2).
  apply mwp_seq with (R := λ _ st', st' = st3).
  { subst st3. by case_match. }
  intros _ ? ->. apply mwp_peek. unfold on_sb. apply mwp_modify, mwp_ret.
  assert (still st2 st3) as Hs3 by (subst st3; case_match; [by apply still_sb|done]).
  set (st4 := set_m_sb _ st3). assert (still st2 st4) as Hs4 by (etrans; [exact Hs3|by apply still_sb]).
  split; [etrans; [exact He02|by apply early_still]|]. split; [by eapply minv_still|]. intros _.
  split; [eapply upper_set_later; [apply later_still, Hs4|]; split; [|by apply Hwb]; eapply upper_ready_later; [apply He2|done]|].
  rewrite (sl_fs _ _ Hs4). split; [|destruct Hsi; split; congruence].
  unfold no_work_ro. rewrite (sl_fs _ _ Hs4). intros Hwn _. change (s_rdonly (m_sb st3) = true). subst st3.
  rewrite (di_workdir _ (mi_dirs _ _ _ Hi2)), Hwn. done.
Qed.

(** ** The index directory *)

Definition ro_ok st : Prop := ovl_force_readonly (m_ofs st) = true → s_rdonly (m_sb st) = true.
(** The lower layers stay as they are. *)
Record settled st st' : Prop := {
  st_later : later st st';
  st_layers : fs_lower_layers (m_ofs st') = fs_lower_layers (m_ofs st);
  st_sbs : fs_lower_fs (m_ofs st') = fs_lower_fs (m_ofs st);
}.
#[export] Instance settled_preorder : PreOrder settled.
Proof. split; [intros a; by split|]. intros a b c [] []. split; [by etrans|congruence..]. Qed.
Lemma settled_still st st' : still st st' → settled st st'.
Proof. intros Hs. destruct (early_wd_still _ _ Hs) as [[] ? ?]. by split. Qed.
Lemma xino_fits_settled st st' : settled st st' → xino_fits (m_ofs st) → xino_fits (m_ofs st').
Proof.
  intros [[_ Hx] _ Hs]. unfold xino_fits, numlowerfs. rewrite Hs. destruct Hx as [->| ->]; [done|by left].
Qed.
Lemma stack_ok_settled st st' oe : settled st st' → stack_ok export_op st oe → stack_ok export_op st' oe.
Proof.
  intros Hs Ho. eapply stack_ok_same; [apply Hs|apply Hs|eapply xino_fits_settled; [done|apply Ho]|done].
Qed.

Lemma fill_index_step base st oe up :
  minv base st → 0 ≤ h_write (k_held (m_k st0)) → stack_ok export_op st oe → upper_set st up → no_work_ro st →
  mf_indexdir (m_fs st) = None → mf_indexdir_trap (m_fs st) = None →
  mwp (fill_index kmalloc oe up) st (λ err st', minv base st' ∧ settled st st' ∧ (err = 0 → ro_ok st')).
Proof.
  intros Hi Hw Hso Hup Hro Hix Hixt. unfold fill_index. apply mwp_peek.
  set (st1 := if fs_upper_mnt (m_ofs st) =? NULL then set_m_sb (sb_set_rdonly (m_sb st)) st else st).
  apply mwp_seq with (R := λ _ st', st' = st1).
  { subst st1. by case_match. }
  intros _ ? ->. assert (still st st1) as Hs1 by (subst st1; case_match; [by apply still_sb|done]).
  assert (minv base st1) as Hi1 by (by eapply minv_still). pose proof (settled_still _ _ Hs1) as He1.
  assert (m_ofs st1 = m_ofs st) as Ho1 by (subst st1; by case_match).
  assert (ro_ok st1) as Hro1.
  { intros Hf. rewrite Ho1 in Hf. apply orb_true_iff in Hf. subst st1. destruct (Z.eqb_spec (fs_upper_mnt (m_ofs st)) NULL); [done|].
    destruct Hf as [|Hf]; [done|]. apply Hro; [|done]. rewrite (di_workdir _ (mi_dirs _ _ _ Hi)) in Hf.
    by destruct (mf_workdir (m_fs st)). }
  destruct (_ || _) eqn:Eoff; [by apply mwp_ret|]. apply orb_false_iff in Eoff as [Eforce _]. apply orb_false_iff in Eforce as [Eup _].
  destruct up as [p|]; [|destruct Hup as [_ Hup]; rewrite Hup in Eup; done]. apply mwp_mret.
  destruct Hup as [Hur [Hwb Hwbt]].
  assert (is_Some (lowerstack_at oe 0)) as [q Hq].
  { unfold lowerstack_at. destruct (so_size _ _ _ Hso) as [Hsz _]. destruct (oe_lowerstack oe) as [|q l]; [done|by exists q]. }
  eapply mwp_then; [eapply get_indexdir_step; [exact Hi1|done| |exact Hq| |]; rewrite (sl_fs _ _ Hs1); done| |].
  { intros err st2 (Hi2 & [[] ? ? ?]) Hne. split; [done|]. split; [|done]. etrans; [exact He1|by split]. }
  intros st2 (Hi2 & [[He2 _] Hwd2 Hla2 Hsb2]). assert (settled st st2) as He02 by (etrans; [exact He1|by split]).
  assert (fs_upper_mnt (m_ofs st) ≠ NULL) as Hun by (by apply Z.eqb_neq).
  apply mwp_peek. case_bool_decide as Hixd; cbn [negb].
  - apply mwp_mret, mwp_ret. split; [done|]. split; [done|]. intros _ Hf. apply (la_rdonly _ _ (la_later _ _ He2)), Hro1.
    unfold ovl_force_readonly in *. rewrite Ho1. rewrite Eup. cbn [orb].
    destruct (la_upper _ _ (la_later _ _ (st_later _ _ He02)) Hun) as [Eu _]. rewrite Eu, Eup in Hf. cbn [orb] in Hf.
    rewrite (di_workdir _ (mi_dirs _ _ _ Hi2)), Hwd2 in Hf. rewrite <- Ho1, (di_workdir _ (mi_dirs _ _ _ Hi1)). exact Hf.
  - apply mwp_assoc3. eapply mwp_seq; [by apply drop_workdir_inv|]. intros _ st3 (Hi3 & He3 & Hf3 & Ho3).
    unfold on_sb. apply mwp_modify, mwp_ret. set (st4 := set_m_sb _ st3). assert (still st3 st4) as Hs4 by (by apply still_sb).
    split; [by eapply minv_still|]. split; [|done]. etrans; [exact He02|]. etrans; [|by apply settled_still].
    split; [apply He3|by rewrite Ho3..].
Qed.

End fill.

(** ** The root dentry *)

Section root.
Context {W : Type} `{Under W, !UnderLaws W, Kern W, !KernLaws W, DirKern W, MountKern W, !MountLaws W, RbLib, OptLib}.
Implicit Types (st : mst W).

(** The inode and the entry of the root. *)
Record root_parts (up : option dentry) (o : ovl_inode) (oe : ovl_entry) : Prop := {
  rp_upper : oi_upper o = up;
  rp_upper_ok u : up = Some u → is_Some (d_inode u);
  rp_index : ovl_test_flag OVL_INDEX o = false;
  rp_lower : is_Some (oi_lower o);
  rp_alias : ovl_dentry_has_upper_alias oe = bool_decide (is_Some up);
  rp_stack : oe_lowerstack oe ≠ [];
  rp_stack_ok p : p ∈ oe_lowerstack oe → is_Some (d_inode (op_dentry p));
}.

Lemma root_ok (k : kst W) ip d up o oe :
  k_dents k = ∅ → (∀ i o, k_inodes k !! i = Some o → i ≠ NULL ∧ dead_inode o) → ip ≠ NULL → root_parts up o oe →
  ok (set_k_dents (<[d := ODent "/" 0 d ip oe true]> (k_dents k)) (set_k_inodes (<[ip := o]> (k_inodes k)) k)).
Proof.
  intros Hd Hdead Hip [r1 r2 r3 r4 r5 r6 r7].
  assert (∀ x e, <[d := ODent "/" 0 d ip oe true]> (k_dents k) !! x = Some e → x = d ∧ e = ODent "/" 0 d ip oe true) as Hde.
  { intros x e. rewrite Hd. intros [[<- <-]|[_ He]]%lookup_insert_Some; [done|]. by rewrite lookup_empty in He. }
  split; cbn [k_dents k_inodes k_ofs set_k_dents set_k_inodes].
  - intros x e [-> ->]%Hde. cbn. exists (ODent "/" 0 d ip oe true). apply lookup_insert_eq.
  - intros x e [-> ->]%Hde _. cbn. exists o. apply lookup_insert_eq.
  - intros x e p [-> ->]%Hde. apply r7.
  - intros i o' u [[<- <-]|[_ Ho]]%lookup_insert_Some Hu; [apply r2; congruence|].
    apply Hdead in Ho as (_ & _ & Hn & _). congruence.
  - intros x e [-> ->]%Hde. cbn. done.
  - rewrite lookup_insert_ne by done. destruct (k_inodes k !! NULL) eqn:E; [|done]. by apply Hdead in E as [? _].
  - intros i o' [[<- <-]|[_ Ho]]%lookup_insert_Some Hf; [congruence|]. apply Hdead in Ho as (_ & _ & _ & _ & Hfl).
    unfold ovl_test_flag in Hf. by rewrite Hfl, Z.bits_0 in Hf.
  - intros x e o' [-> ->]%Hde. cbn. intros Ho _. rewrite (lookup_insert_eq (k_inodes k)) in Ho. by simplify_eq.
  - intros x e [-> ->]%Hde. unfold aliased. cbn [dn_entry dn_parent]. rewrite r5. intros Hal%bool_decide_eq_true.
    unfold has_upper, view_at, view. cbn. rewrite (lookup_insert_eq (k_dents k)). cbn.
    rewrite (lookup_insert_eq (k_inodes k)). cbn. eexists. split; [done|]. cbn. unfold ovl_dentry_upper. cbn. by rewrite r1.
  - intros x e o' [-> ->]%Hde. cbn. intros _ _ Hs. by rewrite Hs in r6.
Qed.

Lemma root_parts_init i stale (impure : bool) (up : option dentry) oe :
  oe_flags oe = 0 → oe_lowerstack oe ≠ [] → (∀ p, p ∈ oe_lowerstack oe → is_Some (d_inode (op_dentry p))) →
  (∀ u, up = Some u → is_Some (d_inode u)) →
  let o := ovl_alloc_inode i stale in
  let oe' := ovl_dentry_set_flag OVL_E_CONNECTED (if up is Some _ then ovl_dentry_set_upper_alias oe else oe) in
  let lower := if numlower oe' =? 0 then None else op_dentry <$> lowerstack_at oe' 0 in
  ∃ o', ovl_inode_init (ovl_set_flag OVL_UPPERDATA (ovl_set_flag OVL_WHITEOUTS (if impure then ovl_set_flag OVL_IMPURE o else o)))
    up lower None = Ret o' ∧ root_parts up o' oe'.
Proof.
  intros Hf Hne Hst Hup o oe' lower.
  assert (oe_lowerstack oe' = oe_lowerstack oe) as Es by (subst oe'; by destruct up).
  destruct oe as [fl [|p l]]; cbn [oe_flags oe_lowerstack] in *; [done|]. subst fl.
  destruct (Hst p ltac:(by left)) as [li Hli].
  assert (lower = Some (op_dentry p)) as ->.
  { subst lower. unfold numlower, lowerstack_at. rewrite Es. unfold zlen. cbn [length].
    destruct (Z.eqb_spec (Z.of_nat (S (length l))) 0); [lia|done]. }
  assert (∃ ri, match up with Some u => Some u | None => Some (op_dentry p) end ≫= d_inode = Some ri) as [ri Hri].
  { destruct up as [u|]; cbn; [|by exists li]. by destruct (Hup u eq_refl) as [ui ->]; exists ui. }
  unfold ovl_inode_init. rewrite Hri. eexists. split; [reflexivity|].
  split; [by destruct up, impure|exact Hup|by destruct up, impure|cbn; rewrite Hli; destruct up, impure; by eexists|by destruct up|
    by rewrite Es|by rewrite Es].
Qed.

Lemma new_inode_ret (k : kst W) mode rdev :
  ∃ r, ovl_new_inode mode rdev k = Ret (r, k) ∧ ∀ o, r = Some o → ∃ i stale, o = ovl_alloc_inode i stale.
Proof.
  unfold ovl_new_inode, get, mbind, kernel_bind. destruct (new_inode (k_w k)) as [[i stale]|]; [|by exists None].
  eexists. split; [reflexivity|]. intros o [= <-]. by do 2 eexists.
Qed.

Context (st0 : mst W).
#[local] Abbreviation minv := (minv st0).

(** The references of the root dentry: the dentry of the upper layer (and the
    lower stack's, accounted for in the base). *)
Definition upper_ref (up : option mpath) : list ref := match up with Some p => [RDentry (d_ptr p.2)] | None => [] end.

(** The root dentry and its inode are there. *)
Record rooted (oe : ovl_entry) (up : option mpath) base st st' : Prop := {
  ro_ok_k : ok (m_k st');
  ro_root : ∃ d e, s_root (m_sb st') = Some d ∧ k_dents (m_k st') = {[d := e]} ∧ dn_parent e = d ∧
    oe_lowerstack (dn_entry e) = oe_lowerstack oe ∧
    (∃ v, view_at (m_k st') d = Some v ∧ ovl_dentry_upper v = snd <$> up) ∧
    ovl_dentry_test_flag OVL_E_CONNECTED (dn_entry e) = true;
  ro_refs : m_refs st' ≡ₚ owned (m_fs st') (m_ofs st') ++ upper_ref up ++ base;
  ro_fs : m_fs st' = m_fs st;
  ro_ofs : m_ofs st' = m_ofs st;
  ro_w : m_w st' = m_w st;
  ro_held : k_held (m_k st') = k_held (m_k st);
  ro_istate : m_istate st' = m_istate st;
  ro_bdevs : m_bdevs st' = m_bdevs st;
  ro_rdonly : s_rdonly (m_sb st') = s_rdonly (m_sb st);
  ro_traps i o : k_inodes (m_k st) !! i = Some o → k_inodes (m_k st') !! i = Some o;
  ro_cache : m_cache st' = m_cache st;
}.

Lemma fill_root_step export_op base st oe up :
  minv (opath_refs up ++ base) st → k_dents (m_k st) = ∅ → stack_ok export_op st oe → upper_set st up →
  mwp (fill_root oe up) st (λ err st',
    (err ≠ 0 → minv (opath_refs up ++ base) st') ∧ (err = 0 → rooted oe up base st st')).
Proof.
  intros Hi Hd Hso Hup. unfold fill_root. eapply mwp_seq with (R := λ r st1, st1 = st ∧ ∀ o, r = Some o → ∃ i stale, o = ovl_alloc_inode i stale).
  { destruct (new_inode_ret (m_k st) S_IFDIR 0) as (r & Hr & Hro). unfold mwp, lift. rewrite Hr. split; [by destruct st|done]. }
  intros r ? [-> Hr]. apply mwp_peek. destruct r as [o|]; [|by apply mwp_ret].
  destruct (d_alloc_root_ok _); [|by apply mwp_ret]. destruct (Hr o eq_refl) as (i & stale & ->). clear Hr. apply mwp_peek.
  set (impure := match up with Some p => ovl_is_impuredir _ p.2 | None => false end).
  destruct (root_parts_init i stale impure (snd <$> up) oe) as (o' & Ho' & Hparts).
  { apply (so_flags _ _ _ Hso). }
  { intros E. destruct (so_size _ _ _ Hso) as [Hsz _]. rewrite E in Hsz. by cbn in Hsz. }
  { intros p Hp. by apply (so_roots _ _ _ Hso). }
  { intros u Hu. destruct up as [p|]; [|done]. cbn in Hu. simplify_eq. by destruct Hup as [[_ _ (_ & ? & _)] _]. }
  assert ((if snd <$> up is Some _ then ovl_dentry_set_upper_alias oe else oe) =
          (if up is Some _ then ovl_dentry_set_upper_alias oe else oe)) as Eoe by (by destruct up).
  rewrite Eoe in Ho', Hparts. cbv zeta in Ho', Hparts. cbv zeta.
  set (oe' := ovl_dentry_set_flag OVL_E_CONNECTED _) in *.
  apply mwp_bind. unfold mo, mwp at 1. rewrite Ho'. apply mwp_peek. unfold id.
  set (ip := fresh (dom (k_inodes (m_k st)) ∪ {[NULL]})). set (d := fresh (dom (k_dents (m_k st)))).
  assert (ip ∉ dom (k_inodes (m_k st)) ∪ {[NULL]}) as Hip by apply is_fresh.
  apply not_elem_of_union in Hip as [Hip1%not_elem_of_dom Hip2%not_elem_of_singleton].
  apply mwp_modify. set (st1 := set_m_k _ st).
  assert (ok (m_k st1)) as Hok.
  { apply (root_ok (m_k st) ip d (snd <$> up)); [done|apply (ti_inodes _ (mi_traps _ _ _ Hi))|done|exact Hparts]. }
  eapply mwp_seq with (R := λ _ st2, ∃ l, st2 = set_m_refs l st1 ∧ l ≡ₚ owned (m_fs st) (m_ofs st) ++ upper_ref up ++ base).
  { pose proof (mi_refs _ _ _ Hi) as Hrefs. destruct up as [p|]; cbn [opath_refs upper_ref] in *;
      [|apply mwp_ret; exists (m_refs st1); split; [by destruct st1|exact Hrefs]].
    destruct (drop1_perm (RMnt p.1) (m_refs st) (owned (m_fs st) (m_ofs st) ++ upper_ref (Some p) ++ base)) as (l & Hl & Hp).
    { rewrite Hrefs. cbn. solve_Permutation. }
    destruct Hup as [[_ _ (Hpm & _ & _)] _]. unfold mntput. destruct (Z.eqb_spec p.1 NULL) as [|_]; [done|].
    unfold release, mwp. change (m_refs st1) with (m_refs st). rewrite Hl. exists l. split; [done|exact Hp]. }
  intros _ ? (l & -> & Hl). unfold on_sb. apply mwp_modify, mwp_ret. split; [done|]. intros _.
  split; try done.
  - exists d, (ODent "/" 0 d ip oe' true). split; [done|]. split; [|split; [done|]].
    + change (<[d := ODent "/" 0 d ip oe' true]> (k_dents (m_k st)) = {[d := ODent "/" 0 d ip oe' true]}). by rewrite Hd.
    + split; [by destruct up|]. split; [|by apply Z.setbit_eq].
      unfold view_at, view. cbn. rewrite (lookup_insert_eq (k_dents (m_k st))). cbn. rewrite (lookup_insert_eq (k_inodes (m_k st))).
      cbn. eexists. split; [done|]. unfold ovl_dentry_upper. cbn. apply (rp_upper _ _ _ Hparts).
  - intros x y Hx. change (<[ip := o']> (k_inodes (m_k st)) !! x = Some y). rewrite lookup_insert_ne; [done|]. intros <-. congruence.
Qed.

End root.

(** ** From the lower layers to the root dentry *)

(** The features that need an index directory have one. *)
Record features_ok (o : ovl_fs) : Prop := {
  fo_index : c_index (fs_config o) = true → fs_indexdir o = true;
  fo_nfs : c_nfs_export (fs_config o) = true → fs_upper_mnt o ≠ NULL → fs_indexdir o = true;
  fo_metacopy : c_nfs_export (fs_config o) = true → c_metacopy (fs_config o) = false;
}.
Lemma final_features o : features_ok (ofs_set_config (final_config o) o) ∧ cfg_le (fs_config o) (final_config o).
Proof.
  unfold final_config. destruct o as [up usb sbs ls nl ix wd c na tf xb]; cbn.
  destruct c as [c1 c2 c3 c4 c5 c6 c7 idx nfs xi meta]; cbn.
  destruct ix, idx, nfs, meta, (Z.eqb_spec up NULL); cbn; (split; [split; cbn; by try done|by split]).
Qed.

Section mounted.
Context {W : Type} `{Under W, !UnderLaws W, Kern W, !KernLaws W, DirKern W, MountKern W, !MountLaws W, RbLib, OptLib}.
Context (kmalloc : list centry → string → bool).
Context (export_op : Z → option (bool * bool)) (depth : nat) (st0 : mst W).
Implicit Types (st : mst W).
#[local] Abbreviation minv := (minv st0).

(** A mounted overlay. *)
Record mounted (base : list ref) (up : option mpath) st : Prop := {
  mt_ok : ok (m_k st);
  mt_root : ∃ d e, s_root (m_sb st) = Some d ∧ k_dents (m_k st) = {[d := e]} ∧ dn_parent e = d ∧
    ovl_dentry_test_flag OVL_E_CONNECTED (dn_entry e) = true ∧
    op_layer <$> oe_lowerstack (dn_entry e) = fs_lower_layers (m_ofs st) ∧
    (∀ p, p ∈ oe_lowerstack (dn_entry e) → op_dentry p = mnt_root (l_mnt (op_layer p))) ∧
    (∃ v, view_at (m_k st) d = Some v ∧ ovl_dentry_upper v = snd <$> up) ∧
    m_refs st ≡ₚ owned (m_fs st) (m_ofs st) ++ upper_ref up ++ stack_refs (oe_lowerstack (dn_entry e)) ++ base;
  mt_upper : match up with
    | Some p => fs_upper_mnt (m_ofs st) ≠ NULL ∧ mnt_root (fs_upper_mnt (m_ofs st)) = p.2
    | None => fs_upper_mnt (m_ofs st) = NULL
    end;
  mt_held : k_held (m_k st) = k_held (m_k st0);
  mt_inuse : inuse_inv st0 st;
  mt_bdevs : bdevs_inv st0 st;
  mt_lower : lower_inv st;
  mt_size : 1 ≤ zlen (fs_lower_layers (m_ofs st)) ≤ OVL_MAX_STACK;
  mt_xino : xino_fits (m_ofs st);
  mt_features : features_ok (m_ofs st);
  mt_decode : cfg_fh (fs_config (m_ofs st)) = true → ∀ l, l ∈ fs_lower_layers (m_ofs st) → decodable export_op (mnt_root (l_mnt l));
  mt_rdonly : ro_ok st;
  mt_apart : apart st;
}.

Lemma put_stack_inv l : ∀ base st (f : unit → mount W Z) Q,
  minv (stack_refs l ++ base) st → (∀ r, minv base (set_m_refs r st) → mwp (f tt) (set_m_refs r st) Q) →
  mwp (ovl_entry_stack_free l ≫= f) st Q.
Proof.
  induction l as [|p l IH]; intros base st f Q Hi Hf; cbn [ovl_entry_stack_free].
  - apply mwp_mret. specialize (Hf (m_refs st)). rewrite minv_set_refs_id in Hf. by apply Hf.
  - apply mwp_assoc. unfold dput. eapply mwp_drop; [exact Hi|]. intros r Hr. eapply IH; [exact Hr|].
    intros r2 Hr2. by apply Hf.
Qed.

Lemma lower_inv_same st st' : m_ofs st' = m_ofs st → m_fs st' = m_fs st → lower_inv st → lower_inv st'.
Proof.
  intros Ho Hf [l1 l2 l3 l4 l5]. split; rewrite ?Ho, ?Hf; try done. intros i l Hl.
  destruct (l1 i l Hl) as [a b c d]. split; [done..|by rewrite Ho, Hf].
Qed.

Lemma mounted_rooted base up st st' oe :
  minv (opath_refs up ++ stack_refs (oe_lowerstack oe) ++ base) st → upper_set st up → stack_ok export_op st oe →
  features_ok (m_ofs st) → ro_ok st → apart st → rooted oe up (stack_refs (oe_lowerstack oe) ++ base) st st' →
  mounted base up st'.
Proof.
  intros Hi Hup Hso Hfe Hro Hap [k1 (d & e & E1 & E2 & E3 & E4 & E5 & E6) k3 k4 k5 k6 k7 k8 k9 k10 k11 k12].
  assert (m_fs st' = m_fs st ∧ m_ofs st' = m_ofs st) as [Ef Eo] by done. split.
  - done.
  - exists d, e. split; [done|]. split; [done|]. split; [done|]. split; [done|]. rewrite E4, Eo.
    split; [apply (so_layers _ _ _ Hso)|]. split; [intros p Hp; by apply (so_roots _ _ _ Hso)|]. split; [done|].
    by rewrite <- Eo.
  - rewrite Eo. destruct up as [p|]; [by destruct Hup as [[] _]|by destruct Hup].
  - rewrite k7. apply (mi_held _ _ _ Hi).
  - intros p. pose proof (mi_inuse _ _ _ Hi p) as Hu. unfold locked_by, istate in *. by rewrite Ef, Eo, k8.
  - destruct (mi_bdevs _ _ _ Hi). by split; rewrite ?Ef, ?k9.
  - eapply lower_inv_same; [done..|apply (mi_lower _ _ _ Hi)].
  - rewrite Eo, <- (so_layers _ _ _ Hso). unfold zlen. rewrite length_fmap. apply (so_size _ _ _ Hso).
  - rewrite Eo. apply (so_xino _ _ _ Hso).
  - by rewrite Eo.
  - rewrite Eo. intros Hc l Hl. rewrite <- (so_layers _ _ _ Hso) in Hl. apply list_elem_of_fmap in Hl as (p & -> & Hp).
    destruct (so_roots _ _ _ Hso p Hp) as [<- _]. by apply (so_decode _ _ _ Hso).
  - unfold ro_ok. by rewrite Eo, k10.
  - destruct Hap as [a1 a2]. assert (layer_dirs st' = layer_dirs st) as El by (unfold layer_dirs; by rewrite Eo, Ef).
    split; rewrite El; [done|]. intros x a Hx Ha. eapply a2; [exact Hx|by rewrite <- k6].
Qed.

(** The index directory, the overlap check, the features, the root. *)
Lemma fill_stages_step base up st oe :
  (∀ w, bounded depth w) → 0 ≤ h_write (k_held (m_k st0)) → k_dents (m_k st0) = ∅ →
  minv (stack_refs (oe_lowerstack oe) ++ opath_refs up ++ base) st → stack_ok export_op st oe → upper_set st up → no_work_ro st →
  mf_indexdir (m_fs st) = None → mf_indexdir_trap (m_fs st) = None →
  mwp (fill_index kmalloc oe up >;?
       ovl_check_overlapping_layers depth >;?
       on_fs_ofs (λ o, ofs_set_config (final_config o) o);;
       nfs ← peek (λ st, c_nfs_export (fs_config (m_ofs st)));
       (if (nfs : bool) then on_sb sb_set_export else mret tt);;
       fill_root oe up) st (λ err st',
    (err ≠ 0 → minv (stack_refs (oe_lowerstack oe) ++ opath_refs up ++ base) st') ∧ (err = 0 → mounted base up st')).
Proof.
  intros Hb Hw Hd0 Hi Hso Hup Hro Hix Hixt.
  eapply mwp_then; [by eapply fill_index_step| |].
  { intros err st1 (Hi1 & _ & _) Hne. by split. }
  intros st1 (Hi1 & Hs1 & Hro1). specialize (Hro1 eq_refl).
  assert (upper_set st1 up) as Hup1 by (eapply upper_set_later; [apply Hs1|done]).
  eapply mwp_then; [eapply check_overlapping_step; [exact Hi1|by apply Hb|by eapply upper_set_workbase]| |].
  { intros err st2 [-> _] Hne. by split. }
  intros st2 [-> Hov]. assert (apart st1) as Hap by (eapply trapped_apart; [exact Hi1|by eapply upper_set_workbase|by apply Hov]).
  destruct (final_features (m_ofs st1)) as [Hfe Hle]. unfold on_fs_ofs. apply mwp_modify. set (st3 := set_m_ofs _ st1).
  assert (still st1 st3) as Hs3 by (apply still_ofs, (core_config (λ _, final_config (m_ofs st1))), Hle).
  apply mwp_peek. set (st4 := if c_nfs_export (fs_config (m_ofs st3)) then set_m_sb (sb_set_export (m_sb st3)) st3 else st3).
  eapply mwp_seq with (R := λ _ st', st' = st4).
  { subst st4. by case_match. }
  intros _ ? ->. assert (still st3 st4) as Hs4 by (subst st4; case_match; [by apply still_sb|done]).
  assert (still st1 st4) as Hs14 by (by etrans).
  assert (m_ofs st4 = m_ofs st3 ∧ m_fs st4 = m_fs st3 ∧ m_w st4 = m_w st3 ∧ s_rdonly (m_sb st4) = s_rdonly (m_sb st3)) as (Eo & Ef & Ew & Er)
    by (subst st4; by case_match).
  assert (minv (opath_refs up ++ stack_refs (oe_lowerstack oe) ++ base) st4) as Hi4.
  { eapply minv_perm; [|eapply minv_still; [exact Hs14|exact Hi1]]. solve_Permutation. }
  assert (stack_ok export_op st4 oe) as Hso4 by (eapply stack_ok_settled; [etrans; [exact Hs1|by apply settled_still]|done]).
  assert (upper_set st4 up) as Hup4 by (eapply upper_set_later; [apply later_still, Hs14|done]).
  eapply mwp_mono; [eapply fill_root_step; [exact Hi4|by rewrite (mi_dents _ _ _ Hi4)|exact Hso4|exact Hup4]|].
  intros err st5 [Herr Hok]. split.
  - intros Hne. eapply minv_perm; [|by apply Herr]. solve_Permutation.
  - intros He. eapply mounted_rooted; [exact Hi4|exact Hup4|exact Hso4| | |  |by apply Hok].
    + by rewrite Eo.
    + unfold ro_ok. rewrite Eo, Er. exact Hro1.
    + destruct Hap as [a1 a2]. assert (layer_dirs st4 = layer_dirs st1) as El by (unfold layer_dirs; by rewrite Eo, Ef).
      split; rewrite El; [done|]. intros x a Hx Ha. eapply a2; [exact Hx|]. by rewrite Ew in Ha.
Qed.

Lemma fill_layers_step base up st :
  (∀ w, bounded depth w) → 0 ≤ h_write (k_held (m_k st0)) → k_dents (m_k st0) = ∅ →
  minv (opath_refs up ++ base) st → upper_set st up → no_work_ro st → no_lower st → xino_wide st →
  is_Some (c_lowerdir (fs_config (m_ofs st))) → mf_indexdir (m_fs st) = None → mf_indexdir_trap (m_fs st) = None →
  mwp (fill_layers kmalloc export_op depth up) st (λ err st',
    (err ≠ 0 → failed st0 (opath_refs up ++ base) err st') ∧ (err = 0 → mounted base up st')).
Proof.
  intros Hb Hw Hd0 Hi Hup Hro Hnl Hx Hlow Hix Hixt. unfold fill_layers.
  eapply mwp_seq; [by eapply get_lowerstack_step|]. intros [err|oe] st1 (Hl1 & Hr & _).
  { apply mwp_ret. split; [done|]. intros ->. by destruct Hr. }
  destruct Hr as [Hi1 Hso]. destruct Hl1 as [Hl1 [Hsi1 Hsi2] Hwd1].
  eapply mwp_seq; [eapply fill_stages_step; [done|done|done|exact Hi1|done|by eapply upper_set_later| |congruence|congruence]|].
  { intros Hwd Hu. apply (la_rdonly _ _ Hl1), Hro; [congruence|]. intros En. destruct up as [p|].
    - by destruct Hup as [[] _].
    - destruct Hup as [Hc _]. by rewrite (la_no_upper _ _ Hl1) in Hu. }
  intros err st2 [Herr Hok]. destruct (Z.eqb_spec err 0) as [->|Hne]; cbn [negb]; [apply mwp_ret; split; [done|by intros; apply Hok]|].
  eapply put_stack_inv; [by apply Herr|]. intros r Hr. apply mwp_ret. split; [|done]. intros _. by apply failed_plain.
Qed.

End mounted.
