(* ===== verification/MountProps.v ===== *)
(** Mounting as a whole: ovl_fill_super returns for every option string and
    every answer of the kernel; a failed mount gives back what it took, a
    successful one is a well-formed overlay whose layers do not overlap. *)

From S2P Require Import Prelude Types Util Under Options OptionsProps Nlink Fh FhProps Redirect RedirectProps Inode Readdir ReaddirProps Kernel KernelProps Work CopyUp WorkProps CopyUpSteps Dir DirProps Clean MountState Mount MountInv MountSteps MountWork MountLayers MountStack MountFill.
From stdpp Require Import gmap.
Local Open Scope Z_scope.

Section fill_super.
Context {W : Type} `{Under W, !UnderLaws W, Kern W, !KernLaws W, DirKern W, MountKern W, !MountLaws W, RbLib, OptLib}.
Context (mp : ovl_params) (kmalloc : list centry → string → bool).
Context (export_op : Z → option (bool * bool)) (depth : nat).
Implicit Types (st : mst W).

(** A new super block, in a thread that may hold write access already. *)
Record fresh_sb st : Prop := {
  fs_no_dents : k_dents (m_k st) = ∅;
  fs_no_inodes : k_inodes (m_k st) = ∅;
  fs_no_traps : m_cache st = ∅;
  fs_write : 0 ≤ h_write (k_held (m_k st));
}.
(** The state after ovl_fill_super has allocated struct ovl_fs. *)
Definition start st : mst W := set_m_sb super_zero (set_m_fs mount_fs_zero (set_m_ofs ofs_zero st)).

Lemma start_inv st : fresh_sb st → minv (start st) (m_refs st) (start st).
Proof.
  intros [Hd Hin Hc Hw]. split; [done|done|done|done| | | |].
  - split; cbn; [set_solver|constructor|by intros d ?%elem_of_nil].
  - split; cbn; try done; [|constructor|by intros t ?%elem_of_nil].
    intros i o. rewrite Hin. by rewrite lookup_empty.
  - by split; cbn.
  - split; cbn; try done. constructor.
Qed.

(** Before there are lower layers, options can be set freely. *)
Lemma minv_early st0 base st o :
  minv st0 base st → no_lower st →
  fs_upper_mnt o = fs_upper_mnt (m_ofs st) → fs_upper_sb o = fs_upper_sb (m_ofs st) → fs_lower_fs o = [] → fs_lower_layers o = [] →
  fs_indexdir o = fs_indexdir (m_ofs st) → fs_workdir o = fs_workdir (m_ofs st) → minv st0 base (set_m_ofs o st).
Proof.
  intros [? ? Hr Hi [] [t1 t2 t3 t4 t5 t6 t7] [d1 d2 d3 d4 d5 d6 d7] [l1 l2 l3 l4 l5]] [E1 E2] Hu Hus Hlf Hll Hix Hwd.
  assert (Eo : m_ofs (set_m_ofs o st) = o) by done. assert (Ef : m_fs (set_m_ofs o st) = m_fs st) by done.
  split; [done|done| | |by split| | |].
  - unfold owned. rewrite Ef, Eo, Hu, Hll. unfold owned in Hr. rewrite E1 in Hr. exact Hr.
  - intros p. specialize (Hi p). unfold locked_by in *. by rewrite Ef, Eo, Hu.
  - split; rewrite ?Ef, ?Eo, ?Hu, ?Hll; try done. by rewrite <- E1.
  - split; rewrite ?Ef, ?Eo, ?Hu, ?Hus, ?Hix, ?Hwd; done.
  - split; rewrite ?Ef, ?Eo, ?Hu, ?Hlf, ?Hll; [done|constructor|by intros sb ?%elem_of_nil|by rewrite <- E2|constructor].
Qed.

Lemma parse_opt_ret opt c : ∃ r, ovl_parse_opt mp opt c = Ret r.
Proof.
  unfold ovl_parse_opt. destruct (kstrdup _) as [m|]; [|by eexists].
  destruct (parse_loop_total (opt_fuel opt) opt (cfg_redirect_mode (Some m) c) false false) as [[[[err c'] a] b] E]; [done|].
  rewrite E. cbn. case_match; by eexists.
Qed.

(** Everything after the credentials. *)
Lemma fill_parts_step st0 base st data :
  (∀ w, bounded depth w) → 0 ≤ h_write (k_held (m_k st0)) → k_dents (m_k st0) = ∅ →
  minv st0 base st → blank (m_fs st) → m_ofs st = ofs_zero →
  mwp (fill_parts mp kmalloc export_op depth data) st (λ '(err, up) st',
    (err ≠ 0 → failed st0 (opath_refs up ++ base) err st') ∧ (err = 0 → mounted export_op st0 base up st')).
Proof.
  intros Hb Hw Hd0 Hi Hbl Ho. unfold fill_parts. destruct (parse_opt_ret data (default_config mp)) as [[err c] Hp].
  apply mwp_bind. unfold mo, mwp at 1. rewrite Hp. unfold on_config, on_fs_ofs. apply mwp_modify.
  set (st1 := set_m_ofs _ st). assert (no_lower st) as Hnl by (split; by rewrite Ho).
  assert (minv st0 base st1) as Hi1 by (subst st1; rewrite Ho; apply minv_early; rewrite ?Ho; done).
  assert (no_lower st1) as Hnl1 by (split; subst st1; cbn; by apply Hnl).
  destruct (Z.eqb_spec err 0) as [->|Hne]; cbn [negb]; [|apply mwp_ret; split; [by intros; apply failed_plain|done]].
  case_bool_decide as Hlow; cbn [negb]; [|apply mwp_ret; split; [by intros; apply failed_plain|done]].
  set (st2 := if negb (c_xino c =? OVL_XINO_OFF) then set_m_ofs (ofs_set_xino 32 (m_ofs st1)) st1 else st1).
  eapply mwp_seq with (R := λ _ st', st' = st2).
  { subst st2. by case_match. }
  intros _ ? ->. assert (minv st0 base st2) as Hi2.
  { subst st2. case_match; [|done]. apply minv_early; try done; apply Hnl1. }
  assert (no_lower st2 ∧ m_fs st2 = m_fs st ∧ fs_config (m_ofs st2) = c ∧ fs_upper_mnt (m_ofs st2) = NULL ∧ xino_wide st2) as (Hnl2 & Ef2 & Ec2 & Eu2 & Hx2).
  { assert (m_ofs st1 = ofs_set_config c ofs_zero) as E1 by (subst st1; by rewrite Ho).
    assert (m_fs st2 = m_fs st) as -> by (subst st2; by case_match).
    assert (m_ofs st2 = ofs_set_config c ofs_zero ∨ m_ofs st2 = ofs_set_xino 32 (ofs_set_config c ofs_zero)) as Ho2
      by (subst st2; case_match; [right|left]; by rewrite <- E1).
    unfold no_lower, xino_wide. destruct Ho2 as [-> | ->]; cbn; auto 10. }
  eapply mwp_seq; [eapply fill_upper_step; [exact Hi2|done|done|by rewrite Ef2|done]|].
  intros [err up] st3 (He3 & Hi3 & Hok3).
  destruct (Z.eqb_spec err 0) as [->|Hne]; cbn [negb]; [|apply mwp_ret; split; [by intros; apply failed_plain|done]].
  destruct (Hok3 eq_refl) as (Hup3 & Hro3 & Hix3 & Hixt3).
  eapply mwp_seq; [eapply fill_layers_step; [done|done|done|exact Hi3|done|done|by apply He3| | |done|done]|].
  { eapply xino_wide_later; [apply He3|done]. }
  { by rewrite (cl_lowerdir _ _ (la_cfg _ _ (la_later _ _ (ea_later _ _ He3)))), Ec2. }
  intros err st4 [Herr Hok]. by apply mwp_ret.
Qed.

Definition fill_post st err st' : Prop :=
  (err ≠ 0 → ∃ leak, given_back st (leak ++ m_refs st) st' ∧ leaked err leak) ∧
  (err = 0 → ∃ up, mounted export_op (start st) (m_refs st) up st').

Lemma fill_super_step st data :
  (∀ w, bounded depth w) → fresh_sb st → mwp (ovl_fill_super mp kmalloc export_op depth data) st (fill_post st).
Proof.
  intros Hb Hf. pose proof (start_inv st Hf) as Hi. unfold ovl_fill_super. apply mwp_modify. fold (start st). apply mwp_peek.
  eapply mwp_seq with (R := λ '(err, up) st',
    (err ≠ 0 → failed (start st) (opath_refs up ++ m_refs st) err st') ∧ (err = 0 → mounted export_op (start st) (m_refs st) up st')).
  - destruct (prepare_kernel_creds _) as [c|]; [|apply mwp_ret; split; [by intros; apply failed_plain|done]].
    apply mwp_modify, mwp_modify. set (st1 := set_m_fs _ (set_m_refs _ (start st))). apply fill_parts_step; [done|apply (fs_write _ Hf)|apply (fs_no_dents _ Hf)| | |done].
    + destruct Hi as [? ? ? ? [] [] [] [l1 ? ? ? ?]]. split; [done|done| |done|by split|by split|by split|by split].
      change (RCred c :: m_refs st ≡ₚ owned (m_fs st1) (m_ofs st1) ++ m_refs st). done.
    + by exists (Some c).
  - intros [err up] st1 [Herr Hok]. destruct (Z.eqb_spec err 0) as [->|Hne]; cbn [negb].
    { apply mwp_ret. split; [done|]. intros _. exists up. by apply Hok. }
    destruct (Herr Hne) as (_ & leak & Hi1 & Hlk).
    eapply mwp_seq with (R := λ _ st2, minv (start st) (leak ++ m_refs st) st2).
    + destruct up as [p|]; [|by apply mwp_ret].
      assert (minv (start st) (path_refs p ++ leak ++ m_refs st) st1) as Hi2 by (eapply minv_perm; [|exact Hi1]; cbn; solve_Permutation).
      unfold mwp. pose proof (path_put_step (start st) (leak ++ m_refs st) st1 p (λ _, mret tt) (λ _ st2, minv (start st) (leak ++ m_refs st) st2) Hi2) as Hx.
      unfold mwp, mbind, mount_bind in Hx. destruct (path_put (Some p) st1) as [[[] st2]| |]; by apply Hx.
    + intros _ st2 Hi2. eapply free_fs_step; [exact Hi2|]. intros st3 [g1 g2 g3 g4 g5]. apply mwp_ret. split; [|done]. intros _.
      exists leak. split; [|done]. split; done.
Qed.

(** ** What a mount promises *)

(** C18: ovl_fill_super returns whatever the options are and whatever fails; when
    it fails, every reference, in-use bit, device number, lock and credential
    that it took is given back, except for one trap inode when a lower
    directory is in use elsewhere. *)
Theorem fill_super_gives_back st data :
  (∀ w, bounded depth w) → fresh_sb st →
  ∃ err st', ovl_fill_super mp kmalloc export_op depth data st = Ret (err, st') ∧
    k_held (m_k st') = k_held (m_k st) ∧
    (err ≠ 0 → (∀ p, istate st' p = istate st p) ∧ m_bdevs st' = m_bdevs st ∧ k_dents (m_k st') = ∅ ∧
       (m_refs st' ≡ₚ m_refs st ∨ err = - EBUSY ∧ ∃ t, m_refs st' ≡ₚ RTrap t :: m_refs st)).
Proof.
  intros Hb Hf. apply mwp_run. eapply mwp_mono; [by apply fill_super_step|]. intros err st' [Herr Hok].
  destruct (Z.eq_dec err 0) as [->|Hne].
  - destruct (Hok eq_refl) as [up Hm]. split; [apply (mt_held _ _ _ _ _ Hm)|done].
  - destruct (Herr Hne) as (leak & [g1 g2 g3 g4 g5] & Hlk). split; [done|]. intros _. split; [done|]. split; [done|].
    split; [by rewrite g5, (fs_no_dents _ Hf)|]. destruct Hlk as [->|[He [t ->]]]; [by left|]. right. split; [done|]. by exists t.
Qed.

Lemma fill_super_mounted st data st' :
  (∀ w, bounded depth w) → fresh_sb st → ovl_fill_super mp kmalloc export_op depth data st = Ret (0, st') →
  ∃ up, mounted export_op (start st) (m_refs st) up st'.
Proof.
  intros Hb Hf Hrun. pose proof (fill_super_step st data Hb Hf) as Hx. unfold mwp in Hx. rewrite Hrun in Hx. by apply Hx.
Qed.

Lemma layer_fsid st i l : lower_inv st → fs_lower_layers (m_ofs st) !! i = Some l →
  fsid_ok st (mnt_sb (l_mnt l)) (l_fsid l).
Proof. intros Hl Hi. destruct (li_layers _ Hl i l Hi) as [_ _ _ [(? & ? & ?)|(? & ? & _)]]; [by left|by right]. Qed.
Lemma fsid_inj st sb1 sb2 f1 f2 : lower_inv st → fsid_ok st sb1 f1 → fsid_ok st sb2 f2 → f1 = f2 ↔ sb1 = sb2.
Proof.
  intros Hl. assert (∀ f sb, zget (fs_lower_fs (m_ofs st)) (f - 1) = Some sb → sb ∈ fs_lower_fs (m_ofs st)) as Hin.
  { intros f sb Hg. unfold zget in Hg. case_decide; [|done]. by eapply list_elem_of_lookup_2. }
  intros [(-> & Hu1 & ->)|[Hp1 Hg1]] [(-> & Hu2 & ->)|[Hp2 Hg2]].
  - done.
  - split; [lia|]. intros E. exfalso. by apply (li_not_upper _ Hl sb2); [by eapply Hin|..].
  - split; [lia|]. intros E. exfalso. by apply (li_not_upper _ Hl sb1); [by eapply Hin|..].
  - split; [intros ->; congruence|intros ->]. unfold zget in *. rewrite decide_True in Hg1 by lia. rewrite decide_True in Hg2 by lia.
    assert (Z.to_nat (f1 - 1) = Z.to_nat (f2 - 1)) as E by (by eapply NoDup_lookup; [apply (li_sbs _ Hl)|..]). lia.
Qed.

(** C20: the lower layers of a mount are numbered from 1 in the order of the
    option; two of them have the same file system id exactly when they are on
    the same file system, id 0 being that of the upper layer; different ids
    have different pseudo device numbers, which nothing else uses; and the ids
    fit the bits that "xino" reserves for them. *)
Theorem fill_super_identifies_layers st data st' :
  (∀ w, bounded depth w) → fresh_sb st → ovl_fill_super mp kmalloc export_op depth data st = Ret (0, st') →
  let o := m_ofs st' in
  1 ≤ zlen (fs_lower_layers o) ≤ OVL_MAX_STACK ∧
  (∀ i l, fs_lower_layers o !! i = Some l → l_idx l = Z.of_nat i + 1 ∧
     (l_fsid l = 0 ↔ fs_upper_mnt o ≠ NULL ∧ mnt_sb (l_mnt l) = fs_upper_sb o) ∧
     (l_fsid l ≠ 0 → l_pseudo_dev l ∉ m_bdevs st) ∧
     (fs_xino_bits o ≠ 0 → 0 ≤ l_fsid l < 2 ^ fs_xino_bits o)) ∧
  ∀ i j l1 l2, fs_lower_layers o !! i = Some l1 → fs_lower_layers o !! j = Some l2 →
    (l_fsid l1 = l_fsid l2 ↔ mnt_sb (l_mnt l1) = mnt_sb (l_mnt l2)) ∧
    (l_fsid l1 ≠ 0 → l_fsid l2 ≠ 0 → (l_pseudo_dev l1 = l_pseudo_dev l2 ↔ l_fsid l1 = l_fsid l2)).
Proof.
  intros Hb Hf Hrun o. destruct (fill_super_mounted _ _ _ Hb Hf Hrun) as [up Hm]. pose proof (mt_lower _ _ _ _ _ Hm) as Hl.
  destruct (mt_bdevs _ _ _ _ _ Hm) as [_ Hbn Hbx].
  split; [apply (mt_size _ _ _ _ _ Hm)|]. split.
  - intros i l Hi. pose proof (li_layers _ Hl i l Hi) as [o1 _ _ o4]. split; [done|].
    assert (l_fsid l = 0 ↔ fs_upper_mnt o ≠ NULL ∧ mnt_sb (l_mnt l) = fs_upper_sb o) as Hz.
    { split; [destruct o4 as [?|[? _]]; [tauto|lia]|]. intros [Hu Hs]. destruct o4 as [?|(Hp & Hg & _)]; [tauto|]. exfalso.
      apply (li_not_upper _ Hl (mnt_sb (l_mnt l))); [|done|done]. unfold zget in Hg. case_decide; [|done]. by eapply list_elem_of_lookup_2. }
    split; [done|]. split.
    + intros Hne. destruct o4 as [?|(Hp & _ & Hg)]; [tauto|]. apply Hbx. unfold zget in Hg. case_decide; [|done]. by eapply list_elem_of_lookup_2.
    + intros Hx. destruct (mt_xino _ _ _ _ _ Hm) as [|[Hbits Hfit]]; [done|]. fold o in Hbits, Hfit. destruct o4 as [(-> & _)|(Hp & Hg & _)]; [split; [done|apply Z.pow_pos_nonneg; lia]|].
      unfold zget in Hg. rewrite decide_True in Hg by lia. apply lookup_lt_Some in Hg. fold o in Hg. unfold numlowerfs, zlen in Hfit.
      split; [lia|]. eapply Z.le_lt_trans; [|exact Hfit]. lia.
  - intros i j l1 l2 Hi Hj. split; [apply (fsid_inj st'); [done|by eapply layer_fsid..]|]. intros Hn1 Hn2.
    destruct (li_layers _ Hl i l1 Hi) as [_ _ _ [?|(Hp1 & _ & Hg1)]]; [tauto|].
    destruct (li_layers _ Hl j l2 Hj) as [_ _ _ [?|(Hp2 & _ & Hg2)]]; [tauto|].
    split; [|intros E; rewrite E in Hg1; congruence]. intros E. unfold zget in *. rewrite decide_True in Hg1 by lia. rewrite decide_True in Hg2 by lia. rewrite <- E in Hg2.
    assert (Z.to_nat (l_fsid l1 - 1) = Z.to_nat (l_fsid l2 - 1)) by (by eapply NoDup_lookup; [exact Hbn|..]). lia.
Qed.

(** C21: the features of a mount are consistent: the index feature, and NFS
    export of a writable mount, come with an index directory; metacopy and NFS
    export exclude each other; when file handles are needed every layer can
    decode them and its uuid tells its file system; and a mount without an
    upper or a work directory is read-only. *)
Theorem fill_super_features st data st' :
  (∀ w, bounded depth w) → fresh_sb st → ovl_fill_super mp kmalloc export_op depth data st = Ret (0, st') →
  let o := m_ofs st' in
  features_ok o ∧ (ovl_force_readonly o = true → s_rdonly (m_sb st') = true) ∧
  (cfg_fh (fs_config o) = true → ∀ l, l ∈ fs_lower_layers o → ovl_can_decode_fh (export_op (d_sb (mnt_root (l_mnt l)))) ≠ 0) ∧
  (wants_fh o = true → ∀ sb1 sb2, sb1 ∈ fs_lower_fs o → sb2 ∈ fs_lower_fs o → s_uuid sb1 = s_uuid sb2 → sb1 = sb2).
Proof.
  intros Hb Hf Hrun o. destruct (fill_super_mounted _ _ _ Hb Hf Hrun) as [up Hm].
  split; [apply (mt_features _ _ _ _ _ Hm)|]. split; [apply (mt_rdonly _ _ _ _ _ Hm)|]. split; [apply (mt_decode _ _ _ _ _ Hm)|].
  intros Hw sb1 sb2 [i Hi]%list_elem_of_lookup [j Hj]%list_elem_of_lookup E.
  pose proof (li_uuids _ (mt_lower _ _ _ _ _ Hm) Hw) as Hnd.
  assert (i = j) as ->; [|congruence]. change (NoDup (s_uuid <$> fs_lower_fs o)) in Hnd.
  eapply NoDup_lookup; [exact Hnd|by apply list_lookup_fmap_Some_2|rewrite E; by apply list_lookup_fmap_Some_2].
Qed.

(** C19: the layers of a mount do not overlap: the roots of the upper layer, the
    work base directory and the lower layers are distinct directories, and none
    is above another. *)
Theorem fill_super_layers_apart st data st' :
  (∀ w, bounded depth w) → fresh_sb st → ovl_fill_super mp kmalloc export_op depth data st = Ret (0, st') →
  NoDup (dir_inode <$> layer_dirs st') ∧
  ∀ d a, d ∈ layer_dirs st' → ancestor (m_w st') d a → dir_inode a ∉ dir_inode <$> layer_dirs st'.
Proof.
  intros Hb Hf Hrun. destruct (fill_super_mounted _ _ _ Hb Hf Hrun) as [up Hm]. by destruct (mt_apart _ _ _ _ _ Hm).
Qed.

(** C15: a successful mount is a well-formed overlay: the invariant that every
    directory operation needs holds, the root is the only dentry, its stack is
    made of the roots of the lower layers, its upper dentry is the root of the
    upper mount, and the references held are those of struct ovl_fs and of the
    root. *)
Theorem fill_super_well_formed st data st' :
  (∀ w, bounded depth w) → fresh_sb st → ovl_fill_super mp kmalloc export_op depth data st = Ret (0, st') →
  ok (m_k st') ∧ ∃ d e v, s_root (m_sb st') = Some d ∧ k_dents (m_k st') = {[d := e]} ∧ dn_parent e = d ∧
    view_at (m_k st') d = Some v ∧
    op_layer <$> oe_lowerstack (dn_entry e) = fs_lower_layers (m_ofs st') ∧
    (∀ p, p ∈ oe_lowerstack (dn_entry e) → op_dentry p = mnt_root (l_mnt (op_layer p))) ∧
    match ovl_dentry_upper v with
    | Some u => fs_upper_mnt (m_ofs st') ≠ NULL ∧ u = mnt_root (fs_upper_mnt (m_ofs st'))
    | None => fs_upper_mnt (m_ofs st') = NULL
    end ∧
    m_refs st' ≡ₚ owned (m_fs st') (m_ofs st') ++ dref (ovl_dentry_upper v) ++ stack_refs (oe_lowerstack (dn_entry e)) ++ m_refs st.
Proof.
  intros Hb Hf Hrun. destruct (fill_super_mounted _ _ _ Hb Hf Hrun) as [up Hm]. split; [apply (mt_ok _ _ _ _ _ Hm)|].
  destruct (mt_root _ _ _ _ _ Hm) as (d & e & E1 & E2 & E3 & _ & E4 & E5 & (v & E6 & E7) & E8).
  exists d, e, v. split_and!; [done..| |].
  - rewrite E7. pose proof (mt_upper _ _ _ _ _ Hm) as Hu. destruct up as [p|]; cbn; [|done]. by destruct Hu as [? ->].
  - rewrite E7, E8. by destruct up.
Qed.

End fill_super.

(** ** A small world *)

(** Directory [p] is /l1, /l1/sub, /l2, /up, /work or one above them; the
    parent of directory [10 * p + i] is [p]; /l1 and what is below it are on one
    file system, the rest on another. *)
Module world.
Definition sb_of (p : Z) : Z := if (p =? 21) || (p =? 212) then 1 else 2.
Definition dir_of (p : Z) : dentry :=
  Dentry p "d" 0 (Some (Inode p (sb_of p) p 1 0 0 (IAttrs 0 0 S_IFDIR 0 0 0 0))).
Definition parent_of (d : dentry) : dentry :=
  if (10 <=? d_ptr d) && (d_ptr d <? 1000) then dir_of (d_ptr d / 10) else d.

#[local] Instance under : Under layers := {|
  vfs_getxattr := @vfs_getxattr layers layers_under;
  vfs_setxattr := @vfs_setxattr layers layers_under;
  lookup_one_len_unlocked := @lookup_one_len_unlocked layers layers_under;
  exportfs_encode_fh := @exportfs_encode_fh layers layers_under;
  exportfs_decode_fh := @exportfs_decode_fh layers layers_under;
  s_uuid := @s_uuid layers layers_under;
  mnt_sb := sb_of;
  mnt_root := dir_of;
  d_sb := @d_sb layers layers_under;
  d_can_lookup := @d_can_lookup layers layers_under;
  d_unhashed := @d_unhashed layers layers_under;
  is_subdir := @is_subdir layers layers_under;
  kmalloc_ok := @kmalloc_ok layers layers_under;
  bin2hex := @bin2hex layers layers_under;
  hex2bin := @hex2bin layers layers_under;
  kstrtoint := @kstrtoint layers layers_under;
|}.
#[local] Instance under_laws : UnderLaws layers.
Proof. destruct layers_laws. by split. Qed.
#[local] Instance kern : Kern layers := {|
  mnt_want_write := @mnt_want_write layers layers_kern;
  mutex_lock_interruptible := @mutex_lock_interruptible layers layers_kern;
  rename_trap := @rename_trap layers layers_kern;
  lookup_one_len := @lookup_one_len layers layers_kern;
  real_parent _ := parent_of;
  vfs_create := @vfs_create layers layers_kern;
  vfs_mkdir := @vfs_mkdir layers layers_kern;
  vfs_mknod := @vfs_mknod layers layers_kern;
  vfs_symlink := @vfs_symlink layers layers_kern;
  vfs_whiteout := @vfs_whiteout layers layers_kern;
  vfs_link := @vfs_link layers layers_kern;
  vfs_tmpfile := @vfs_tmpfile layers layers_kern;
  vfs_rmdir := @vfs_rmdir layers layers_kern;
  vfs_unlink := @vfs_unlink layers layers_kern;
  vfs_rename := @vfs_rename layers layers_kern;
  notify_change := @notify_change layers layers_kern;
  vfs_removexattr := @vfs_removexattr layers layers_kern;
  vfs_listxattr := @vfs_listxattr layers layers_kern;
  i_op_xattr := @i_op_xattr layers layers_kern;
  vfs_getattr := @vfs_getattr layers layers_kern;
  vfs_get_link := @vfs_get_link layers layers_kern;
  inode_now := @inode_now layers layers_kern;
  inode_unhashed := @inode_unhashed layers layers_kern;
  security_inode_copy_up_xattr := @security_inode_copy_up_xattr layers layers_kern;
  security_inode_copy_up := @security_inode_copy_up layers layers_kern;
  uninitialized := @uninitialized layers layers_kern;
|}.
#[local] Instance kern_laws : KernLaws layers.
Proof. destruct layers_kern_laws. by split. Qed.

Definition place (name : string) : option (Z * Z) :=
  if String.eqb name "/l1" then Some (21, 21)
  else if String.eqb name "/l1/sub" then Some (212, 212)
  else if String.eqb name "/l2" then Some (32, 32)
  else if String.eqb name "/up" then Some (43, 43)
  else if String.eqb name "/work" then Some (43, 44)
  else None.
#[local] Instance iattrs_eq_dec : EqDecision iattrs.
Proof. solve_decision. Defined.
#[local] Instance inode_eq_dec : EqDecision inode.
Proof. solve_decision. Defined.
#[local] Instance dentry_eq_dec : EqDecision dentry.
Proof. solve_decision. Defined.
#[local] Instance mounts : MountKern layers := {|
  prepare_kernel_creds _ := Some 5;
  kern_path _ name := match place name with Some (m, p) => inr (m, dir_of p) | None => inl (- ENOENT) end;
  vfs_statfs _ _ := (0, 255);
  sb_rdonly _ _ := false;
  sb_stack_depth _ _ := 0;
  clone_private_mount _ p := if bool_decide (p.1 ≠ NULL ∧ mnt_root p.1 = p.2) then PPtr p.1 else PErr (- EINVAL);
  get_anon_bdev _ used := inr (fresh used);
  d_alloc_root_ok _ := true;
|}.
#[local] Instance mount_laws : MountLaws layers.
Proof.
  split; cbn.
  - intros _ n m d. unfold place. repeat case_match; intros; simplify_eq; (split; [done|by eexists]).
  - intros _ n e. unfold place. by repeat case_match; intros; simplify_eq.
  - intros _ m d c. case_bool_decide as E; [|done]. intros [= <-]. by destruct E.
  - intros _ p. case_bool_decide; (split; [done|]); by intros e [= <-].
  - intros _ used d [= <-]. apply is_fresh.
  - done.
Qed.
Lemma bounded_world w : bounded 4 w.
Proof.
  split.
  - intros d _. cbn [reaches]. unfold real_parent, kern.
    assert (∀ x, d_ptr x < 10 → same_dentry (parent_of x) x = true) as H0.
    { intros x Hx. unfold parent_of. destruct (Z.leb_spec 10 (d_ptr x)); [lia|]. apply Z.eqb_refl. }
    assert (∀ x, same_dentry (parent_of x) x = true ∨ parent_of x = dir_of (d_ptr x / 10) ∧ 10 ≤ d_ptr x < 1000) as Hp.
    { intros x. unfold parent_of. destruct (Z.leb_spec 10 (d_ptr x)), (Z.ltb_spec (d_ptr x) 1000); cbn [andb];
        try (left; apply Z.eqb_refl). by right. }
    destruct (Hp d) as [->|[-> Hd]]; [done|]. apply orb_true_iff. right.
    destruct (Hp (dir_of (d_ptr d / 10))) as [->|[-> Hd2]]; [done|]. apply orb_true_iff. right. cbn [d_ptr dir_of] in *.
    rewrite H0; [done|]. cbn. assert (d_ptr d / 10 < 100) by (apply Z.div_lt_upper_bound; lia).
    apply Z.div_lt_upper_bound; lia.
  - intros d Hd. cbn. unfold parent_of. case_match; [by eexists|done].
Qed.

Definition state : mst layers :=
  MSt (KSt (Layers ∅ ∅ [] (λ _, Byte.x00)) ofs_zero ∅ ∅ 0 (Held 3 [] 0)) mount_fs_zero super_zero ∅ ∅ ∅ [RMnt 9].
Definition defaults : ovl_params := OvlParams false true false false false false.
Abbreviation run_in st opts := (@ovl_fill_super layers under kern layers_dir mounts rblib_id optlib defaults
  (λ _ _, true) (λ _, Some (true, false)) 4 (Some opts%string) st).
Abbreviation run opts := (run_in state opts).
Definition answer (r : outcome (Z * mst layers)) : option Z := match r with Ret (e, _) => Some e | _ => None end.
Definition writable : string := "lowerdir=/l1:/l2,upperdir=/up,workdir=/work,index=on,nfs_export=on".
Lemma fresh_state : fresh_sb state.
Proof. by split. Qed.
Lemma run_writable : ∃ st', run writable = Ret (0, st').
Proof.
  destruct (run writable) as [[e st']| |] eqn:E.
  - exists st'. f_equal. f_equal. pose proof (f_equal answer E) as Ha. vm_compute in Ha. by injection Ha.
  - pose proof (f_equal answer E) as Ha. by vm_compute in Ha.
  - pose proof (f_equal answer E) as Ha. by vm_compute in Ha.
Qed.

(** /l2 is in use by another overlay. *)
Definition in_use : mst layers := set_m_istate {[32 := I_OVL_INUSE]} state.
Definition refs (r : outcome (Z * mst layers)) : list ref := match r with Ret (_, st) => m_refs st | _ => [] end.
(** The trap of a lower directory that is in use is not given back. *)
Lemma lower_in_use_leaks_trap :
  answer (run_in in_use writable) = Some (- EBUSY) ∧ ∃ t, refs (run_in in_use writable) = [RTrap t; RMnt 9].
Proof. split; [vm_compute; reflexivity|]. eexists. vm_compute. reflexivity. Qed.
End world.

Lemma fill_super_gives_back_witness :
  ∃ st', world.run "lowerdir=/l1:/l1/sub" = Ret (- ELOOP, st') ∧ m_refs st' ≡ₚ [RMnt 9].
Proof.
  destruct (@fill_super_gives_back layers world.under world.under_laws world.kern world.kern_laws _ world.mounts world.mount_laws rblib_id optlib
    world.defaults (λ _ _, true) (λ _, Some (true, false)) 4 world.state (Some "lowerdir=/l1:/l1/sub"%string)) as (err & st' & Hrun & _ & He);
    [apply world.bounded_world|apply world.fresh_state|].
  assert (err = - ELOOP) as -> by (pose proof (f_equal world.answer Hrun) as Ha; vm_compute in Ha; by injection Ha).
  exists st'. split; [exact Hrun|]. by destruct (He ltac:(done)) as (_ & _ & _ & [?|[? _]]).
Defined.

Lemma fill_super_identifies_layers_witness :
  ∃ st', world.run world.writable = Ret (0, st') ∧ 1 ≤ zlen (fs_lower_layers (m_ofs st')) ≤ OVL_MAX_STACK.
Proof.
  destruct world.run_writable as [st' Hrun]. exists st'. split; [exact Hrun|].
  by destruct (@fill_super_identifies_layers layers world.under world.under_laws world.kern world.kern_laws _ world.mounts world.mount_laws
    rblib_id optlib world.defaults (λ _ _, true) (λ _, Some (true, false)) 4 world.state (Some world.writable) st'
    world.bounded_world world.fresh_state Hrun).
Defined.

Lemma fill_super_features_witness :
  ∃ st', world.run world.writable = Ret (0, st') ∧ features_ok (m_ofs st').
Proof.
  destruct world.run_writable as [st' Hrun]. exists st'. split; [exact Hrun|].
  by destruct (@fill_super_features layers world.under world.under_laws world.kern world.kern_laws _ world.mounts world.mount_laws
    rblib_id optlib world.defaults (λ _ _, true) (λ _, Some (true, false)) 4 world.state (Some world.writable) st'
    world.bounded_world world.fresh_state Hrun).
Defined.

Lemma fill_super_layers_apart_witness :
  ∃ st', world.run world.writable = Ret (0, st') ∧ NoDup (dir_inode <$> @layer_dirs _ world.under st').
Proof.
  destruct world.run_writable as [st' Hrun]. exists st'. split; [exact Hrun|].
  by destruct (@fill_super_layers_apart layers world.under world.under_laws world.kern world.kern_laws _ world.mounts world.mount_laws
    rblib_id optlib world.defaults (λ _ _, true) (λ _, Some (true, false)) 4 world.state (Some world.writable) st'
    world.bounded_world world.fresh_state Hrun).
Defined.

Lemma fill_super_well_formed_witness : ∃ st', world.run world.writable = Ret (0, st') ∧ ok (m_k st').
Proof.
  destruct world.run_writable as [st' Hrun]. exists st'. split; [exact Hrun|].
  by destruct (@fill_super_well_formed layers world.under world.under_laws world.kern world.kern_laws _ world.mounts world.mount_laws
    rblib_id optlib world.defaults (λ _ _, true) (λ _, Some (true, false)) 4 world.state (Some world.writable) st'
    world.bounded_world world.fresh_state Hrun).
Defined.
