(* ===== verification/File.v ===== *)
(** file.c: the file operations of the overlay - the real file behind an open
    overlay file, opening, seeking, reading and writing (through the block
    paths while a file is copied lazily), and the operations that the real file
    performs. *)

From S2P Require Import Prelude Vfs Types Util Under Nlink Fh Redirect Inode Block BlockRead BlockWrite BlockStore Lookup Kernel Work CopyUp Dir DirOps Attr.
From stdpp Require Import gmap.
Local Open Scope Z_scope.

(** ** State *)

(** struct file of the overlay; [f_private] is the real file of private_data. *)
Record file : Type := File {
  f_dentry : Z;
  f_flags : Z;
  f_pos : Z;
  f_private : Z;
}.
Definition set_f_flags (n : Z) (f : file) : file := File (f_dentry f) n (f_pos f) (f_private f).
Definition set_f_pos (n : Z) (f : file) : file := File (f_dentry f) (f_flags f) n (f_private f).
Definition set_f_private (r : Z) (f : file) : file := File (f_dentry f) (f_flags f) (f_pos f) r.

(** The overlay, its open files, the references to real files that are held,
    the write accesses to the mount of the overlay, and the queue of
    meta_save_fifo. *)
Record fstate (W : Type) : Type := FSt {
  x_k : kst W;
  x_files : gmap Z file;
  x_refs : list Z;
  x_mnt : Z;
  x_fifo : list meta_save_task;
}.
Arguments FSt {W}. Arguments x_k {W}. Arguments x_files {W}. Arguments x_refs {W}. Arguments x_mnt {W}. Arguments x_fifo {W}.
Definition set_x_k {W} k (st : fstate W) : fstate W := FSt k (x_files st) (x_refs st) (x_mnt st) (x_fifo st).
Definition set_x_files {W} f (st : fstate W) : fstate W := FSt (x_k st) f (x_refs st) (x_mnt st) (x_fifo st).
Definition set_x_refs {W} r (st : fstate W) : fstate W := FSt (x_k st) (x_files st) r (x_mnt st) (x_fifo st).
Definition set_x_mnt {W} n (st : fstate W) : fstate W := FSt (x_k st) (x_files st) (x_refs st) n (x_fifo st).
Definition set_x_fifo {W} q (st : fstate W) : fstate W := FSt (x_k st) (x_files st) (x_refs st) (x_mnt st) q.
Definition x_w {W} (st : fstate W) : W := k_w (x_k st).

Definition files (W A : Type) : Type := fstate W → outcome (A * fstate W).
#[export] Instance files_ret {W} : MRet (files W) := λ A a st, Ret (a, st).
#[export] Instance files_bind {W} : MBind (files W) := λ A B f m st,
  match m st with Ret (a, st) => f a st | Fault => Fault | NoFuel => NoFuel end.
Definition klift {W A} (m : kernel W A) : files W A := λ st,
  match m (x_k st) with Ret (a, k) => Ret (a, set_x_k k st) | Fault => Fault | NoFuel => NoFuel end.
Definition fpeek {W A} (f : fstate W → A) : files W A := λ st, Ret (f st, st).
Definition fmodify {W} (f : fstate W → fstate W) : files W unit := λ st, Ret (tt, f st).
Definition ffault {W A} : files W A := λ _, Fault.
Definition run_outcome {W A} (r : outcome A) : files W A := λ st,
  match r with Ret a => Ret (a, st) | Fault => Fault | NoFuel => NoFuel end.
Definition fderef {W A} (p : option A) : files W A := match p with Some a => mret a | None => ffault end.
Definition fok_then {W} (m k : files W Z) : files W Z :=
  err ← m; if negb (err =? 0) then mret err else k.
Notation "m ;;? k" := (fok_then m k) (at level 100, k at level 200, right associativity).

(** References to real files; giving back what is not held is a fault. *)
Definition get_file {W} (r : Z) : files W unit := fmodify (λ st, set_x_refs (r :: x_refs st) st).
Fixpoint remove1 (r : Z) (l : list Z) : option (list Z) :=
  match l with [] => None | x :: l => if x =? r then Some l else cons x <$> remove1 r l end.
Definition fput {W} (r : Z) : files W unit := λ st,
  match remove1 r (x_refs st) with Some l => Ret (tt, set_x_refs l st) | None => Fault end.

(** The overlay file [p], its overlay inode. *)
Definition file_at {W} (p : Z) : files W file := λ st,
  match x_files st !! p with Some f => Ret (f, st) | None => Fault end.
Definition update_file {W} (p : Z) (g : file → file) : files W unit :=
  f ← file_at p; fmodify (λ st, set_x_files (<[p := g f]> (x_files st)) st).
Definition file_inode {W} (f : file) : files W ovl_inode :=
  v ← klift (oview (f_dentry f)); mret (od_inode v).
Definition modify_file_inode {W} (f : file) (g : ovl_inode → ovl_inode) : files W unit :=
  e ← klift (dent (f_dentry f)); klift (modify_inode (dn_inode e) g).

(** ** Calls into the kernel *)

Inductive copy_op : Type := OVL_COPY | OVL_CLONE | OVL_DEDUPE.

Class FileKern (W : Type) : Type := {
  (** dentry, flags, inode, credentials; a file or an error pointer *)
  open_with_fake_path : W → Z → Z → inode → Z → Z * W;
  file_flags : W → Z → Z;
  set_file_flags : W → Z → Z → W;
  file_pos : W → Z → Z;
  set_file_pos : W → Z → Z → W;
  is_append_only : W → Z → bool;             (* IS_APPEND(file_inode(file)) *)
  has_direct_io : W → Z → bool;
  check_flags : W → Z → option (Z → Z);
  vfs_llseek : W → Z → Z → Z → Z * W;
  vfs_fsync_range : W → Z → Z → Z → bool → Z * W;
  has_mmap : W → Z → bool;
  call_mmap : W → Z → Z * W;
  vfs_fallocate : W → Z → Z → Z → Z → Z * W;
  vfs_fadvise : W → Z → Z → Z → Z → Z * W;
  vfs_ioctl : W → Z → Z → Z → Z * W;
  vfs_copy_range : W → copy_op → Z → Z → Z → Z → Z → Z → Z * W;
  file_remove_privs : W → Z → Z * W;
  touch_file : W → Z → W;                    (* touch_atime(&file->f_path) *)
  mnt_want_write_file : W → Z → Z;
  capable_immutable : W → bool;              (* CAP_LINUX_IMMUTABLE *)
  get_user_flags : W → Z → option Z;         (* get_user of an int *)
  copy_fsx_xflags : W → Z → option Z;        (* fsx_xflags of a struct fsxattr *)
}.

Definition OVL_SETFL_MASK : Z := Z.lor O_APPEND (Z.lor O_NONBLOCK (Z.lor O_NDELAY O_DIRECT)).
Definition SEEK_SET : Z := 0.
Definition SEEK_CUR : Z := 1.
Definition FS_IOC_GETFLAGS : Z := 2148034049.
Definition FS_IOC_SETFLAGS : Z := 1074292226.
Definition FS_IOC_FSGETXATTR : Z := 2149341215.
Definition FS_IOC_FSSETXATTR : Z := 1075599392.
Definition FS_IOC32_GETFLAGS : Z := 2147771905.
Definition FS_IOC32_SETFLAGS : Z := 1074030082.
Definition FS_SYNC_FL : Z := 8.
Definition FS_IMMUTABLE_FL : Z := 16.
Definition FS_APPEND_FL : Z := 32.
Definition FS_NOATIME_FL : Z := 128.
Definition FS_XFLAG_IMMUTABLE : Z := 8.
Definition FS_XFLAG_APPEND : Z := 16.
Definition FS_XFLAG_SYNC : Z := 32.
Definition FS_XFLAG_NOATIME : Z := 64.
Definition REMAP_FILE_DEDUP : Z := 1.
Definition REMAP_FILE_ADVISORY : Z := 2.

Section file.
Context {W : Type} `{Vfs W, Under W, Kern W, DirKern W, AttrKern W, FileKern W}.
Context (creator_cred : Z) (workdir indexdir : dentry) (export_op : Z → option (bool * bool)).
Context (fuel depth : nat).

#[local] Abbreviation maybe_copy_up := (ovl_maybe_copy_up creator_cred workdir indexdir export_op fuel depth).

(** ** The real file *)

(** A call with the credentials of the mounter. *)
Definition as_creator {A} (m : files W A) : files W A :=
  old_cred ← klift (ovl_override_creds creator_cred);
  a ← m;
  klift (revert_creds old_cred);;
  mret a.
Definition on_real {A} (f : W → A * W) : files W A := klift (on_w f).
Definition on_w_ (f : W → W) : files W unit := on_real (λ w, (tt, f w)).

Definition ovl_open_realfile (p : Z) (realinode : option inode) : files W Z :=
  f ← file_at p;
  realinode ← fderef realinode;
  as_creator (
    cred ← fpeek (λ st, h_cred (k_held (x_k st)));
    r ← on_real (λ w, open_with_fake_path w (f_dentry f) (Z.lor (f_flags f) (Z.lor O_NOATIME FMODE_NONOTIFY)) realinode cred);
    (if IS_ERR r then mret tt else get_file r);;
    mret r).

Definition ovl_change_flags (real flags : Z) : files W Z :=
  let flags := Z.lor flags (Z.lor O_NOATIME FMODE_NONOTIFY) in
  old ← fpeek (λ st, file_flags (x_w st) real);
  if negb (Z.ldiff (Z.lxor old flags) OVL_SETFL_MASK =? 0) then mret (- EIO) else
  let flags := Z.land flags OVL_SETFL_MASK in
  append ← fpeek (λ st, is_append_only (x_w st) real);
  if has_any (Z.lxor flags old) O_APPEND && append then mret (- EPERM) else
  direct ← fpeek (λ st, has_direct_io (x_w st) real);
  if has_any flags O_DIRECT && negb direct then mret (- EINVAL) else
  checker ← fpeek (λ st, check_flags (x_w st) real);
  let err := match checker with Some c => c flags | None => 0 end in
  if negb (err =? 0) then mret err else
  on_w_ (λ w, set_file_flags w real (Z.lor (Z.ldiff old OVL_SETFL_MASK) flags));;
  mret 0.

(** The error, the real file and whether it has to be put (FDPUT_FPUT). *)
Definition ovl_real_fdget_meta (p : Z) (allow_meta : bool) : files W (Z * Z * bool) :=
  f ← file_at p;
  o ← file_inode f;
  let realinode := if allow_meta then ovl_inode_real o else ovl_inode_realdata o in
  open_on ← fpeek (λ st, vfs_inode (x_w st) (f_private f));
  if negb (open_on =? iptr realinode) then
    r ← ovl_open_realfile p realinode;
    mret (PTR_ERR_OR_ZERO r, r, true)
  else
    flags ← fpeek (λ st, file_flags (x_w st) (f_private f));
    if negb (Z.ldiff (Z.lxor (f_flags f) flags) O_NOATIME =? 0) then
      err ← ovl_change_flags (f_private f) (f_flags f);
      mret (err, f_private f, false)
    else mret (0, f_private f, false).
Definition ovl_real_fdget (p : Z) : files W (Z * Z * bool) := ovl_real_fdget_meta p false.
Definition fdput (real : Z) (put : bool) : files W unit := if put then fput real else mret tt.

(** A body that works on the real file. *)
Definition with_real_meta (p : Z) (allow_meta : bool) (body : Z → files W Z) : files W Z :=
  '(err, real, put) ← ovl_real_fdget_meta p allow_meta;
  if negb (err =? 0) then mret err else
  ret ← body real;
  fdput real put;;
  mret ret.
Definition with_real (p : Z) : (Z → files W Z) → files W Z := with_real_meta p false.

(** ** Opening and releasing *)

Definition ovl_open (p : Z) : files W Z :=
  f ← file_at p;
  klift (maybe_copy_up (f_dentry f) (f_flags f)) ;;?
  update_file p (λ f, set_f_flags (Z.ldiff (f_flags f) (Z.lor O_CREAT (Z.lor O_EXCL (Z.lor O_NOCTTY O_TRUNC)))) f);;
  o ← file_inode f;
  realfile ← ovl_open_realfile p (ovl_inode_realdata o);
  if IS_ERR realfile then mret (PTR_ERR realfile) else
  update_file p (set_f_private realfile);;
  mret 0.
Definition ovl_release (p : Z) : files W Z := f ← file_at p; fput (f_private f);; mret 0.

(** ** Seeking *)

Definition ovl_llseek (p offset whence : Z) : files W Z :=
  f ← file_at p;
  if (offset =? 0) && (whence =? SEEK_CUR) then mret (f_pos f) else
  if (offset =? 0) && (whence =? SEEK_SET) then update_file p (set_f_pos 0);; mret 0 else
  with_real p (λ real,
    o ← file_inode f;
    klift (inode_lock (oi_vfs o));;
    ret ← (
      f ← file_at p;
      on_w_ (λ w, set_file_pos w real (f_pos f));;
      ret ← as_creator (on_real (λ w, vfs_llseek w real offset whence));
      pos ← fpeek (λ st, file_pos (x_w st) real);
      update_file p (set_f_pos pos);;
      mret ret);
    klift (inode_unlock (oi_vfs o));;
    mret ret).

(** ** Reading and writing *)

(** Attributes of the real inode as they are now. *)
Definition copy_real (copy : inode → inode → inode) (f : file) : files W unit :=
  o ← file_inode f;
  real ← fderef (ovl_inode_real o);
  real ← fpeek (λ st, inode_now (x_w st) real);
  modify_file_inode f (λ o, set_oi_vfs (copy real (oi_vfs o)) o).

Definition ovl_file_accessed (p : Z) : files W unit :=
  f ← file_at p;
  if has_any (f_flags f) O_NOATIME then mret tt else
  o ← file_inode f;
  match ovl_inode_upper o with
  | None => mret tt
  | Some u =>
      u ← fpeek (λ st, inode_now (x_w st) u);
      modify_file_inode f (λ o,
        let a := i_attrs (oi_vfs o) in
        set_oi_vfs (set_i_attrs (IAttrs (at_uid a) (at_gid a) (at_mode a) (at_atime a) (at_mtime (i_attrs u)) (at_ctime (i_attrs u))
          (at_size a)) (oi_vfs o)) o);;
      on_w_ (λ w, touch_file w p)
  end.

(** A computation of the block paths on the block fields of the file's inode. *)
Definition on_blocks {A} (f : file) (m : bstate W → outcome (A * bstate W)) : files W A :=
  e ← klift (dent (f_dentry f));
  o ← klift (inode_of (dn_inode e));
  s ← fpeek (λ st, BState (x_w st) (oi_blk o) (x_fifo st));
  '(a, s) ← run_outcome (m s);
  fmodify (set_x_fifo (bs_fifo s));;
  klift (modify (set_k_w (bs_w s)));;
  klift (modify_inode (dn_inode e) (set_oi_blk (bs_b s)));;
  mret a.
Definition block_paths (f : file) : files W (path * path) :=
  v ← klift (oview (f_dentry f));
  ofs ← fpeek (λ st, k_ofs (x_k st));
  mret (ovl_path_upper ofs v, ovl_path_lowerdata v).

(** The result, the position afterwards and the bytes read; [n] bounds the
    iterations of the block loop. *)
Definition ovl_read_iter (n : nat) (p pos count : Z) : files W (Z * Z * list byte) :=
  if count =? 0 then mret (0, pos, []) else
  '(err, real, put) ← ovl_real_fdget p;
  if negb (err =? 0) then mret (err, pos, []) else
  f ← file_at p;
  r ← as_creator (
    '(upper, lower) ← block_paths f;
    on_blocks f (ovl_read_data n upper lower real pos count));
  ovl_file_accessed p;;
  fdput real put;;
  mret r.

Definition ovl_write_iter (n : nat) (p pos : Z) (d : list byte) : files W (Z * Z) :=
  if zlen d =? 0 then mret (0, pos) else
  f ← file_at p;
  o ← file_inode f;
  klift (inode_lock (oi_vfs o));;
  r ← (
    copy_real ovl_copyattr f;;
    err ← on_real (λ w, file_remove_privs w p);
    if negb (err =? 0) then mret (err, pos) else
    '(err, real, put) ← ovl_real_fdget p;
    if negb (err =? 0) then mret (err, pos) else
    r ← as_creator (
      '(upper, lower) ← block_paths f;
      on_blocks f (ovl_write_data n upper lower real pos d));
    copy_real ovl_copyattr f;;
    fdput real put;;
    mret r);
  klift (inode_unlock (oi_vfs o));;
  mret r.

(** ** What the real file does *)

Definition ovl_fsync (p start end_ : Z) (datasync : bool) : files W Z :=
  with_real_meta p (negb datasync) (λ real,
    f ← file_at p;
    o ← file_inode f;
    on ← fpeek (λ st, vfs_inode (x_w st) real);
    if on =? iptr (ovl_inode_upper o)
    then as_creator (on_real (λ w, vfs_fsync_range w real start end_ datasync)) else mret 0).

(** The reference taken here belongs to the mapping afterwards; [own] tells
    whether vma->vm_file is the file. *)
Definition ovl_mmap (p : Z) (own : bool) : files W Z :=
  f ← file_at p;
  can ← fpeek (λ st, has_mmap (x_w st) (f_private f));
  if negb can then mret (- ENODEV) else
  if negb own then mret (- EIO) else
  get_file (f_private f);;
  ret ← as_creator (on_real (λ w, call_mmap w (f_private f)));
  (if negb (ret =? 0) then fput (f_private f) else mret tt);;
  ovl_file_accessed p;;
  mret ret.

Definition ovl_fallocate (p mode offset len : Z) : files W Z :=
  with_real p (λ real,
    ret ← as_creator (on_real (λ w, vfs_fallocate w real mode offset len));
    f ← file_at p;
    copy_real ovl_copyattr f;;
    mret ret).
Definition ovl_fadvise (p offset len advice : Z) : files W Z :=
  with_real p (λ real, as_creator (on_real (λ w, vfs_fadvise w real offset len advice))).

Definition ovl_real_ioctl (p cmd arg : Z) : files W Z :=
  with_real p (λ real, as_creator (on_real (λ w, vfs_ioctl w real cmd arg))).
Definition ovl_ioctl_set_flags (p cmd arg iflags : Z) : files W Z :=
  f ← file_at p;
  o ← file_inode f;
  owner ← fpeek (λ st, inode_owner_or_capable (x_w st) (oi_vfs o));
  if negb owner then mret (- EACCES) else
  err ← fpeek (λ st, mnt_want_write_file (x_w st) p);
  if negb (err =? 0) then mret err else
  fmodify (λ st, set_x_mnt (x_mnt st + 1) st);;
  klift (inode_lock (oi_vfs o));;
  ret ← (
    capable ← fpeek (λ st, capable_immutable (x_w st));
    if has_any (Z.lxor iflags (i_flags (oi_vfs o))) (Z.lor S_APPEND S_IMMUTABLE) && negb capable then mret (- EPERM) else
    klift (maybe_copy_up (f_dentry f) O_WRONLY) ;;?
    ret ← ovl_real_ioctl p cmd arg;
    copy_real ovl_copyflags f;;
    mret ret);
  klift (inode_unlock (oi_vfs o));;
  fmodify (λ st, set_x_mnt (x_mnt st - 1) st);;
  mret ret.

(** Flags of the user's request as inode flags. *)
Definition flag_to (from from_bit to_bit : Z) : Z := if has_any from from_bit then to_bit else 0.
Definition ovl_fsflags_to_iflags (flags : Z) : Z :=
  Z.lor (flag_to flags FS_SYNC_FL S_SYNC) (Z.lor (flag_to flags FS_APPEND_FL S_APPEND)
    (Z.lor (flag_to flags FS_IMMUTABLE_FL S_IMMUTABLE) (flag_to flags FS_NOATIME_FL S_NOATIME))).
Definition ovl_fsxflags_to_iflags (xflags : Z) : Z :=
  Z.lor (flag_to xflags FS_XFLAG_SYNC S_SYNC) (Z.lor (flag_to xflags FS_XFLAG_APPEND S_APPEND)
    (Z.lor (flag_to xflags FS_XFLAG_IMMUTABLE S_IMMUTABLE) (flag_to xflags FS_XFLAG_NOATIME S_NOATIME))).
Definition ovl_ioctl_set_fsflags (p cmd arg : Z) : files W Z :=
  flags ← fpeek (λ st, get_user_flags (x_w st) arg);
  match flags with
  | None => mret (- EFAULT)
  | Some flags => ovl_ioctl_set_flags p cmd arg (ovl_fsflags_to_iflags flags)
  end.
Definition ovl_ioctl_set_fsxflags (p cmd arg : Z) : files W Z :=
  flags ← fpeek (λ st, copy_fsx_xflags (x_w st) arg);
  match flags with
  | None => mret (- EFAULT)
  | Some flags => ovl_ioctl_set_flags p cmd arg (ovl_fsxflags_to_iflags flags)
  end.
Definition ovl_ioctl (p cmd arg : Z) : files W Z :=
  if (cmd =? FS_IOC_GETFLAGS) || (cmd =? FS_IOC_FSGETXATTR) then ovl_real_ioctl p cmd arg
  else if cmd =? FS_IOC_SETFLAGS then ovl_ioctl_set_fsflags p cmd arg
  else if cmd =? FS_IOC_FSSETXATTR then ovl_ioctl_set_fsxflags p cmd arg
  else mret (- ENOTTY).
Definition ovl_compat_ioctl (p cmd arg : Z) : files W Z :=
  if cmd =? FS_IOC32_GETFLAGS then ovl_ioctl p FS_IOC_GETFLAGS arg
  else if cmd =? FS_IOC32_SETFLAGS then ovl_ioctl p FS_IOC_SETFLAGS arg
  else mret (- ENOIOCTLCMD).

(** ** Copying between files *)

Definition ovl_copyfile (p_in pos_in p_out pos_out len flags : Z) (op : copy_op) : files W Z :=
  with_real p_out (λ real_out,
    with_real p_in (λ real_in,
      ret ← as_creator (on_real (λ w, vfs_copy_range w op real_in pos_in real_out pos_out len flags));
      f_out ← file_at p_out;
      copy_real ovl_copyattr f_out;;
      mret ret)).
Definition ovl_copy_file_range (p_in pos_in p_out pos_out len flags : Z) : files W Z :=
  ovl_copyfile p_in pos_in p_out pos_out len flags OVL_COPY.
Definition ovl_remap_file_range (p_in pos_in p_out pos_out len remap_flags : Z) : files W Z :=
  if negb (Z.ldiff remap_flags (Z.lor REMAP_FILE_DEDUP REMAP_FILE_ADVISORY) =? 0) then mret (- EINVAL) else
  let dedup := has_any remap_flags REMAP_FILE_DEDUP in
  f_in ← file_at p_in; o_in ← file_inode f_in;
  f_out ← file_at p_out; o_out ← file_inode f_out;
  if dedup && negb (bool_decide (is_Some (ovl_inode_upper o_in)) && bool_decide (is_Some (ovl_inode_upper o_out)))
  then mret (- EPERM)
  else ovl_copyfile p_in pos_in p_out pos_out len remap_flags (if dedup then OVL_DEDUPE else OVL_CLONE).

End file.
