(* ===== verification/FileSteps.v ===== *)
(** The steps of the file operations: what a request on an open file keeps.
    The computations of [File] are followed with [fwp]; [fsame] steps leave the
    overlay and its open files as they are, [fgrows] steps may copy up, change
    attributes or move positions.  Both are taken relative to a relation [Rw] on
    the underlying files, so that the same proofs bound the effect of a request
    on their contents. *)

From S2P Require Import Prelude Vfs Types Util Under Nlink Fh Redirect Inode Block BlockRead BlockWrite BlockStore Lookup Kernel KernelProps Work CopyUp WorkProps CopyUpSteps CopyUpProps Dir DirSteps Attr File.
From stdpp Require Import gmap.
Local Open Scope Z_scope.

(** ** Weakest preconditions *)

Definition fwp {W A} (m : files W A) (st : fstate W) (Q : A → fstate W → Prop) : Prop :=
  match m st with Ret (a, st') => Q a st' | _ => False end.

Section fwp.
Context {W : Type}.
Implicit Types (st : fstate W).

Lemma fwp_ret {A} (a : A) st Q : Q a st → fwp (mret a) st Q.
Proof. done. Qed.
Lemma fwp_bind {A B} (m : files W A) (f : A → files W B) st Q :
  fwp m st (λ a st', fwp (f a) st' Q) → fwp (m ≫= f) st Q.
Proof. unfold fwp, mbind, files_bind. by destruct (m st) as [[a st']| |]. Qed.
Lemma fwp_mono {A} (m : files W A) st (Q Q' : A → fstate W → Prop) :
  fwp m st Q → (∀ a st', Q a st' → Q' a st') → fwp m st Q'.
Proof. unfold fwp. destruct (m st) as [[a st']| |]; [|done..]. intros HQ HQ'. by apply HQ'. Qed.
Lemma fwp_seq {A B} (m : files W A) (f : A → files W B) st (R : A → fstate W → Prop) Q :
  fwp m st R → (∀ a st', R a st' → fwp (f a) st' Q) → fwp (m ≫= f) st Q.
Proof. intros Hm Hf. apply fwp_bind. by eapply fwp_mono. Qed.
Lemma fwp_run {A} (m : files W A) st Q :
  fwp m st Q → ∃ a st', m st = Ret (a, st') ∧ Q a st'.
Proof. unfold fwp. destruct (m st) as [[a st']| |]; [|done..]. intros HQ. by exists a, st'. Qed.
Lemma fwp_klift {A B} (m : kernel W A) (f : A → files W B) st Q :
  wp m (x_k st) (λ a k, fwp (f a) (set_x_k k st) Q) → fwp (klift m ≫= f) st Q.
Proof. unfold fwp, wp, mbind, files_bind, klift. by destruct (m (x_k st)) as [[a k]| |]. Qed.
Lemma fwp_klift_end {A} (m : kernel W A) st Q :
  wp m (x_k st) (λ a k, Q a (set_x_k k st)) → fwp (klift m) st Q.
Proof. unfold fwp, wp, klift. by destruct (m (x_k st)) as [[a k]| |]. Qed.
Lemma fwp_peek {A B} st (g : fstate W → A) (f : A → files W B) Q :
  fwp (f (g st)) st Q → fwp (fpeek g ≫= f) st Q.
Proof. done. Qed.
Lemma fwp_mret {A B} st (a : A) (f : A → files W B) Q : fwp (f a) st Q → fwp (mret a ≫= f) st Q.
Proof. done. Qed.
Lemma fwp_modify {B} st g (f : unit → files W B) Q : fwp (f tt) (g st) Q → fwp (fmodify g ≫= f) st Q.
Proof. done. Qed.
Lemma fwp_deref {A B} st (p : option A) a (f : A → files W B) Q :
  p = Some a → fwp (f a) st Q → fwp (fderef p ≫= f) st Q.
Proof. by intros ->. Qed.
Lemma fwp_assoc {A B C} st (m : files W A) (f : A → files W B) (g : B → files W C) Q :
  fwp (m ≫= λ a, f a ≫= g) st Q → fwp ((m ≫= f) ≫= g) st Q.
Proof. unfold fwp, mbind, files_bind. by destruct (m st) as [[a st']| |]. Qed.
Lemma fwp_file {B} st p f (k : file → files W B) Q :
  x_files st !! p = Some f → fwp (k f) st Q → fwp (file_at p ≫= k) st Q.
Proof. intros Hf. unfold fwp, mbind, files_bind, file_at. by rewrite Hf. Qed.
Lemma fwp_update {B} st p f g (k : unit → files W B) Q :
  x_files st !! p = Some f → fwp (k tt) (set_x_files (<[p := g f]> (x_files st)) st) Q → fwp (update_file p g ≫= k) st Q.
Proof. intros Hf. unfold fwp, mbind, files_bind, update_file, file_at, mbind, files_bind. by rewrite Hf. Qed.
Lemma fwp_put {B} st r l (k : unit → files W B) Q :
  x_refs st = r :: l → fwp (k tt) (set_x_refs l st) Q → fwp (fput r ≫= k) st Q.
Proof. intros Hr. unfold fwp, mbind, files_bind, fput. rewrite Hr. cbn. by rewrite Z.eqb_refl. Qed.

(** The overlay inode of an open file. *)
Definition view_of st (p : Z) : option odentry :=
  f ← x_files st !! p; view_at (x_k st) (f_dentry f).
Definition inode_at st (p : Z) : option ovl_inode := od_inode <$> view_of st p.
Lemma view_of_Some st p v :
  view_of st p = Some v → ∃ f, x_files st !! p = Some f ∧ view_at (x_k st) (f_dentry f) = Some v.
Proof. unfold view_of. destruct (x_files st !! p) as [f|]; [|done]. cbn. intros Hv. by exists f. Qed.
Lemma fwp_inode {B} st p f v (k : ovl_inode → files W B) Q :
  x_files st !! p = Some f → view_of st p = Some v → fwp (k (od_inode v)) st Q → fwp (file_inode f ≫= k) st Q.
Proof.
  intros Hf Hv HQ. unfold view_of in Hv. rewrite Hf in Hv. cbn in Hv.
  unfold file_inode. apply fwp_assoc, fwp_klift. unfold wp, oview. unfold view_at in Hv. rewrite Hv. by destruct st.
Qed.
End fwp.

(** ** What a step keeps *)

Definition files_kept (a b : gmap Z file) : Prop :=
  ∀ p f, a !! p = Some f → ∃ f', b !! p = Some f' ∧ f_dentry f' = f_dentry f ∧ f_private f' = f_private f.
#[export] Instance files_kept_preorder : PreOrder files_kept.
Proof.
  split; [intros a p f Hf; by exists f|]. intros a b c H1 H2 p f Hf. destruct (H1 p f Hf) as (f1 & Hf1 & Hd1 & Hp1).
  destruct (H2 p f1 Hf1) as (f2 & Hf2 & Hd2 & Hp2). exists f2. split_and!; congruence.
Qed.
Lemma files_kept_insert m p f g :
  m !! p = Some f → f_dentry (g f) = f_dentry f → f_private (g f) = f_private f → files_kept m (<[p := g f]> m).
Proof.
  intros Hf Hd Hp q x Hx. destruct (decide (p = q)) as [->|]; [|by exists x; rewrite lookup_insert_ne].
  exists (g f). rewrite lookup_insert_eq. simplify_eq. done.
Qed.

Section keeps.
Context {W : Type} {Rw : relation W} `{!PreOrder Rw}.
Implicit Types (st : fstate W).

Record fsame st st' : Prop := {
  fs_k : quiet (x_k st) (x_k st');
  fs_files : x_files st' = x_files st;
  fs_refs : x_refs st' = x_refs st;
  fs_mnt : x_mnt st' = x_mnt st;
  fs_w : Rw (x_w st) (x_w st');
}.
Record fgrows st st' : Prop := {
  fg_k : evolves (x_k st) (x_k st');
  fg_files : files_kept (x_files st) (x_files st');
  fg_refs : x_refs st' = x_refs st;
  fg_mnt : x_mnt st' = x_mnt st;
  fg_w : Rw (x_w st) (x_w st');
}.
#[export] Instance fsame_preorder : PreOrder fsame.
Proof.
  split; [intros st; split; done|]. intros a b c [k1 f1 r1 m1 w1] [k2 f2 r2 m2 w2]. split; first [congruence|by etrans].
Qed.
#[export] Instance fgrows_preorder : PreOrder fgrows.
Proof.
  split; [intros st; split; done|]. intros a b c [k1 f1 r1 m1 w1] [k2 f2 r2 m2 w2]. split; first [congruence|by etrans].
Qed.
Lemma fsame_fgrows st st' : fsame st st' → fgrows st st'.
Proof. intros [k f r m w]. split; [by apply quiet_evolves|by rewrite f|done..]. Qed.

(** More references, or something else held, meanwhile. *)
Definition add_refs (l : list Z) st : fstate W := set_x_refs (l ++ x_refs st) st.
Definition drop_refs (l : list Z) st : fstate W := set_x_refs l st.
Definition hold (h : held) st : fstate W := set_x_k (set_k_held h (x_k st)) st.
Lemma fgrows_refs l st st' : fgrows (add_refs l st) st' → fgrows st (drop_refs (x_refs st) st').
Proof. intros [k f r m w]. by split. Qed.
Lemma fgrows_hold h st st' : fgrows (hold h st) st' → fgrows st (hold (k_held (x_k st)) st').
Proof.
  intros [[Hg Hh] f r m w]. split; [|done..]. split; [|done].
  etrans; [apply (grows_held (x_k st) h)|]. etrans; [exact Hg|apply grows_held].
Qed.
Lemma fsame_hold h st st' : fsame (hold h st) st' → fsame st (hold (k_held (x_k st)) st').
Proof. intros [[o d i hh] f r m w]. split; [|done..]. by split. Qed.

Lemma fsame_view st st' p : fsame st st' → view_of st' p = view_of st p.
Proof. intros [[o d i h] f r m w]. unfold view_of, view_at. by rewrite f, d, i. Qed.
Lemma fgrows_view st st' p v :
  fgrows st st' → view_of st p = Some v →
  ∃ v', view_of st' p = Some v' ∧ view_grows (ovl_indexdir (k_ofs (x_k st))) v v'.
Proof.
  intros [[Hg _] Hf _ _ _] (f & Hp & Hv)%view_of_Some. destruct (Hf _ _ Hp) as (f' & Hp' & Hd & _).
  destruct (grows_view _ _ _ _ Hg Hv) as (v' & Hv' & Hvg). exists v'. split; [|done].
  unfold view_of, view_at. rewrite Hp'. cbn. by rewrite Hd.
Qed.
End keeps.
Arguments fsame {W} Rw st st'. Arguments fgrows {W} Rw st st'.

(** ** The calls that every request is made of *)

Section calls.
Context {W : Type} `{Vfs W, Under W, Kern W, DirKern W, AttrKern W, FileKern W}.
Context (creator_cred : Z).
Implicit Types (st : fstate W).

Definition set_w (w : W) st : fstate W := set_x_k (set_k_w w (x_k st)) st.

Lemma hold_same h st : h = k_held (x_k st) → hold h st = st.
Proof. intros ->. by destruct st as [[]]. Qed.

(** A body that runs as the mounter. *)
Lemma fwp_creator {A} (m : files W A) st Q :
  fwp m (hold (cred_held creator_cred (k_held (x_k st))) st)
    (λ a st', k_held (x_k st') = cred_held creator_cred (k_held (x_k st)) ∧ Q a (hold (k_held (x_k st)) st')) →
  fwp (as_creator creator_cred m) st Q.
Proof.
  intros Hm. unfold as_creator, ovl_override_creds. apply fwp_klift. unfold wp, override_creds.
  eapply fwp_seq; [exact Hm|]. intros a st' [Hh HQ]. apply fwp_klift. unfold wp, revert_creds, modify. apply fwp_ret.
  revert HQ. unfold hold. cbn. rewrite Hh. cbn. by destruct (k_held (x_k st)).
Qed.
Lemma creator_real {A} (f : W → A * W) st Q :
  (∀ a w, f (x_w st) = (a, w) → Q a (set_w w st)) → fwp (as_creator creator_cred (on_real f)) st Q.
Proof.
  intros HQ. apply fwp_creator. unfold on_real. apply fwp_klift_end, wp_on_w. intros a w Hf. split; [done|].
  apply HQ in Hf. done.
Qed.
Lemma fwp_creator_real {A B} (f : W → A * W) (k : A → files W B) st Q :
  (∀ a w, f (x_w st) = (a, w) → fwp (k a) (set_w w st) Q) → fwp (as_creator creator_cred (on_real f) ≫= k) st Q.
Proof. intros HQ. apply fwp_bind. by apply creator_real. Qed.
Lemma fwp_real {A B} (f : W → A * W) (k : A → files W B) st Q :
  (∀ a w, f (x_w st) = (a, w) → fwp (k a) (set_w w st) Q) → fwp (on_real f ≫= k) st Q.
Proof. intros HQ. unfold on_real. apply fwp_klift, wp_on_w. apply HQ. Qed.
Lemma fwp_on_w {B} (f : W → W) (k : unit → files W B) st Q :
  fwp (k tt) (set_w (f (x_w st)) st) Q → fwp (on_w_ f ≫= k) st Q.
Proof. intros HQ. unfold on_w_. apply fwp_real. by intros [] w [= <-]. Qed.

Lemma open_realfile_runs p f ri st Q :
  x_files st !! p = Some f →
  (∀ r w, open_with_fake_path (x_w st) (f_dentry f) (Z.lor (f_flags f) (Z.lor O_NOATIME FMODE_NONOTIFY)) ri creator_cred = (r, w) →
     Q r (add_refs (if IS_ERR r then [] else [r]) (set_w w st))) →
  fwp (ovl_open_realfile creator_cred p (Some ri)) st Q.
Proof.
  intros Hf HQ. unfold ovl_open_realfile. eapply fwp_file; [done|]. eapply fwp_deref; [done|].
  apply fwp_creator, fwp_peek, fwp_real. intros r w Hr. specialize (HQ r w Hr).
  destruct (IS_ERR r); apply fwp_bind; (split; [done|]); exact HQ.
Qed.

(** The flags a real file has after ovl_change_flags. *)
Definition new_flags (old flags : Z) : Z :=
  Z.lor (Z.ldiff old OVL_SETFL_MASK) (Z.land (Z.lor flags (Z.lor O_NOATIME FMODE_NONOTIFY)) OVL_SETFL_MASK).
Definition flags_refused (w : W) (real err : Z) : Prop :=
  err < 0 ∨ ∃ c n, check_flags w real = Some c ∧ err = c n ∧ err ≠ 0.
Lemma change_flags_runs real flags st Q :
  (∀ err, flags_refused (x_w st) real err → Q err st) →
  Q 0 (set_w (set_file_flags (x_w st) real (new_flags (file_flags (x_w st) real) flags)) st) →
  fwp (ovl_change_flags real flags) st Q.
Proof.
  intros He HQ. unfold ovl_change_flags. cbv zeta. apply fwp_peek.
  case_match; [apply fwp_ret, He; left; by unfold EIO|]. apply fwp_peek.
  case_match; [apply fwp_ret, He; left; by unfold EPERM|]. apply fwp_peek.
  case_match; [apply fwp_ret, He; left; by unfold EINVAL|]. apply fwp_peek.
  case_match eqn:Hc; [|by apply fwp_on_w, fwp_ret].
  apply fwp_ret, He. destruct (check_flags (x_w st) real) as [c|] eqn:Ec; [|done]. right. exists c. eexists. split; [exact Ec|]; split; [reflexivity|].
  apply negb_true_iff, Z.eqb_neq in Hc. exact Hc.
Qed.

(** The real file: opened anew when the file has been copied up since it was
    opened, else the one that is open, with the flags of now. *)
Lemma fdget_runs p meta f v ri st Q :
  x_files st !! p = Some f → view_of st p = Some v →
  (if meta : bool then ovl_inode_real (od_inode v) else ovl_inode_realdata (od_inode v)) = Some ri →
  (∀ r w, vfs_inode (x_w st) (f_private f) ≠ i_ptr ri →
     open_with_fake_path (x_w st) (f_dentry f) (Z.lor (f_flags f) (Z.lor O_NOATIME FMODE_NONOTIFY)) ri creator_cred = (r, w) →
     Q (PTR_ERR_OR_ZERO r, r, true) (add_refs (if IS_ERR r then [] else [r]) (set_w w st))) →
  (vfs_inode (x_w st) (f_private f) = i_ptr ri →
     Z.ldiff (Z.lxor (f_flags f) (file_flags (x_w st) (f_private f))) O_NOATIME = 0 → Q (0, f_private f, false) st) →
  (∀ err, vfs_inode (x_w st) (f_private f) = i_ptr ri → flags_refused (x_w st) (f_private f) err →
     Q (err, f_private f, false) st) →
  (vfs_inode (x_w st) (f_private f) = i_ptr ri →
     Q (0, f_private f, false)
       (set_w (set_file_flags (x_w st) (f_private f) (new_flags (file_flags (x_w st) (f_private f)) (f_flags f))) st)) →
  fwp (ovl_real_fdget_meta creator_cred p meta) st Q.
Proof.
  intros Hf Hv Hri Hopen Hsame Hbad Hflags. unfold ovl_real_fdget_meta. eapply fwp_file; [done|]. eapply fwp_inode; [done..|].
  cbv zeta. rewrite Hri. apply fwp_peek. cbn [iptr].
  destruct (Z.eqb_spec (vfs_inode (x_w st) (f_private f)) (i_ptr ri)) as [Hi|Hi]; cbn [negb].
  - apply fwp_peek. destruct (Z.eqb_spec (Z.ldiff (Z.lxor (f_flags f) (file_flags (x_w st) (f_private f))) O_NOATIME) 0) as [Hx|Hx]; cbn [negb].
    + apply fwp_ret. by apply Hsame.
    + eapply fwp_seq; [apply change_flags_runs with (Q := λ err st',
        (flags_refused (x_w st) (f_private f) err ∧ st' = st) ∨ (err = 0 ∧ st' = set_w (set_file_flags (x_w st) (f_private f) (new_flags (file_flags (x_w st) (f_private f)) (f_flags f))) st))|].
      * intros err He. by left.
      * by right.
      * intros err st' [[He ->]|[-> ->]]; apply fwp_ret; [by apply Hbad|by apply Hflags].
  - eapply fwp_seq; [eapply open_realfile_runs with (Q := λ r st', ∃ w,
      open_with_fake_path (x_w st) (f_dentry f) (Z.lor (f_flags f) (Z.lor O_NOATIME FMODE_NONOTIFY)) ri creator_cred = (r, w) ∧
      st' = add_refs (if IS_ERR r then [] else [r]) (set_w w st)); [done|by eexists]|].
    intros r st' (w & Hr & ->). apply fwp_ret. by apply Hopen.
Qed.
End calls.

(** ** Requests relative to a relation on the underlying files *)

(** [Rw] holds across every call; the calls that may write need a [good] file,
    and an open file ([isopen]) on the inode [u] is one. *)
Class FileRel {W : Type} `{Vfs W, FileKern W} (u : Z) (Rw : relation W) (isopen good : W → Z → Prop) : Prop := {
  #[global] rel_pre :: PreOrder Rw;
  rel_good w w' f : Rw w w' → good w f → good w' f;
  rel_private w f : isopen w f → vfs_inode w f = u → good w f;
  rel_fresh w d fl i c r w' : open_with_fake_path w d fl i c = (r, w') → IS_ERR r = false → i_ptr i = u → good w' r;
  rel_isopen w w' f : Rw w w' → isopen w f → isopen w' f;
  rel_fake_path w d fl i c : Rw w (open_with_fake_path w d fl i c).2;
  rel_set_flags w f n : Rw w (set_file_flags w f n);
  rel_set_pos w f n : Rw w (set_file_pos w f n);
  rel_llseek w f o n : Rw w (vfs_llseek w f o n).2;
  rel_read w f p n : 0 ≤ p → 0 ≤ n → Rw w (vfs_iter_read w f p n).2;
  rel_write w f p d : good w f → 0 ≤ p → Rw w (vfs_iter_write w f p d).2;
  rel_fsync w f s e d : Rw w (vfs_fsync_range w f s e d).2;
  rel_mmap w f : Rw w (call_mmap w f).2;
  rel_fallocate w f m o l : good w f → Rw w (vfs_fallocate w f m o l).2;
  rel_fadvise w f o l a : Rw w (vfs_fadvise w f o l a).2;
  rel_ioctl w f c a : Rw w (vfs_ioctl w f c a).2;
  rel_copy w op fi pi fo po l fl : good w fo → Rw w (vfs_copy_range w op fi pi fo po l fl).2;
  rel_privs w p : Rw w (file_remove_privs w p).2;
  rel_touch w p : Rw w (touch_file w p);
}.

Section relative.
Context {W : Type} `{Vfs W, Under W, !UnderLaws W, Kern W, !KernLaws W, DirKern W, AttrKern W, FileKern W}.
Context {u : Z} {Rw : relation W} {isopen good : W → Z → Prop} `{!FileRel u Rw isopen good}.
Context (creator_cred : Z).
Implicit Types (st : fstate W).

Lemma fsame_set_w st w : Rw (x_w st) w → fsame Rw st (set_w w st).
Proof. intros Hw. split; [by split|done..|exact Hw]. Qed.
Lemma fgrows_set_w st w : Rw (x_w st) w → fgrows Rw st (set_w w st).
Proof. intros Hw. by apply fsame_fgrows, fsame_set_w. Qed.
Lemma fsame_refs l st w : Rw (x_w st) w → fsame Rw (add_refs l st) (add_refs l (set_w w st)).
Proof. intros Hw. split; [by split|done..|exact Hw]. Qed.

(** The real file of an open file, which is referenced if it had to be opened. *)
Lemma fdget_rel p (meta : bool) f v ri st Q :
  x_files st !! p = Some f → view_of st p = Some v →
  (if meta then ovl_inode_real (od_inode v) else ovl_inode_realdata (od_inode v)) = Some ri →
  (∀ err real put st', err ≠ 0 → fgrows Rw st st' → Q (err, real, put) st') →
  (∀ real (put : bool) st1, fsame Rw (add_refs (if put then [real] else []) st) st1 →
     (i_ptr ri = u → isopen (x_w st) (f_private f) → good (x_w st1) real) →
     Q (0, real, put) st1) →
  fwp (ovl_real_fdget_meta creator_cred p meta) st Q.
Proof.
  intros Hf Hv Hri He HQ. eapply (fdget_runs creator_cred p meta); [done..| | | |].
  - intros r w _ Hr. pose proof (f_equal snd Hr) as Hw. cbn in Hw. unfold PTR_ERR_OR_ZERO. destruct (IS_ERR r) eqn:Ee.
    + apply He; [unfold IS_ERR in Ee; apply bool_decide_eq_true in Ee; lia|].
      change (fgrows Rw st (set_w w st)). subst w. apply fgrows_set_w, rel_fake_path.
    + apply HQ; [apply (fsame_refs [r]); subst w; apply rel_fake_path|].
      intros Hu _. by eapply rel_fresh.
  - intros Hi _. apply (HQ _ false); [by destruct st|]. intros Hu Ho. apply rel_private; congruence.
  - intros err Hi Hr. apply He; [|done]. by destruct Hr as [|(c & n & _ & _ & ?)]; [lia|].
  - intros Hi. apply (HQ _ false); [apply (fsame_refs []); apply rel_set_flags|].
    intros Hu Ho. eapply rel_good; [apply rel_set_flags|]. apply rel_private; congruence.
Qed.
Lemma fdput_runs {B} real (put : bool) st st1 st2 (k : unit → files W B) Q :
  fsame Rw (add_refs (if put then [real] else []) st) st1 → fgrows Rw st1 st2 →
  (∀ st', fgrows Rw st st' → x_k st' = x_k st2 → x_files st' = x_files st2 → x_fifo st' = x_fifo st2 → fwp (k tt) st' Q) →
  fwp (fdput real put ≫= k) st2 Q.
Proof.
  intros Hs Hg HQ.
  assert (fgrows Rw st (drop_refs (x_refs st) st2)) as Hall.
  { apply fgrows_refs with (l := if put then [real] else []). etrans; [by apply fsame_fgrows|exact Hg]. }
  pose proof (fg_refs _ _ Hg) as Hr. rewrite (fs_refs _ _ Hs) in Hr. destruct put; cbn [fdput].
  - eapply fwp_put; [exact Hr|]. by apply HQ.
  - apply fwp_mret. apply HQ; [|done..]. replace st2 with (drop_refs (x_refs st) st2); [done|].
    cbn in Hr. unfold drop_refs, set_x_refs. rewrite <- Hr. by destruct st2.
Qed.

(** What is referenced for a body is put again. *)
Lemma with_real_runs p (meta : bool) f v ri st body Q :
  x_files st !! p = Some f → view_of st p = Some v →
  (if meta then ovl_inode_real (od_inode v) else ovl_inode_realdata (od_inode v)) = Some ri →
  (∀ ret st', fgrows Rw st st' → Q ret st') →
  (∀ real l st1, fsame Rw (add_refs l st) st1 →
     (i_ptr ri = u → isopen (x_w st) (f_private f) → good (x_w st1) real) →
     fwp (body real) st1 (λ _, fgrows Rw st1)) →
  fwp (with_real_meta creator_cred p meta body) st Q.
Proof.
  intros Hf Hv Hri HQ Hbody. unfold with_real_meta. apply fwp_bind. eapply fdget_rel; [done..| |].
  - intros err real put st' He Hg. destruct (Z.eqb_spec err 0); [done|]. by apply fwp_ret, HQ.
  - intros real put st1 Hs Hg. cbn [negb Z.eqb]. eapply fwp_seq; [by eapply Hbody|].
    intros ret st2 Hg2. eapply fdput_runs; [done..|]. intros st' Hg' _ _ _. by apply fwp_ret, HQ.
Qed.

(** ** Changes of the overlay inode *)

Definition upd_inode (i : Z) (o : ovl_inode) st : fstate W :=
  set_x_k (set_k_inodes (<[i := o]> (k_inodes (x_k st))) (x_k st)) st.

(** [i] is the inode of the open file. *)
Definition inode_ptr st (p i : Z) (v : odentry) : Prop :=
  k_inodes (x_k st) !! i = Some (od_inode v) ∧
  ∀ o, view_of (upd_inode i o st) p = Some (set_od_inode o v).
Lemma inode_ptr_intro st p f e o :
  x_files st !! p = Some f → k_dents (x_k st) !! f_dentry f = Some e → k_inodes (x_k st) !! dn_inode e = Some o →
  inode_ptr st p (dn_inode e) (ODentry (f_dentry f) (dn_name e) (dn_flags e) o (dn_entry e)).
Proof.
  intros Hf He Ho. split; [done|]. intros o'. unfold view_of. cbn. rewrite Hf. unfold view_at, view. cbn. rewrite He. cbn.
  by rewrite lookup_insert_eq.
Qed.

Lemma fwp_modify_inode {B} st p f v g (k : unit → files W B) Q :
  x_files st !! p = Some f → view_of st p = Some v →
  (∀ i, inode_ptr st p i v → fwp (k tt) (upd_inode i (g (od_inode v)) st) Q) →
  fwp (modify_file_inode f g ≫= k) st Q.
Proof.
  intros Hf (f' & Hf' & Hv)%view_of_Some HQ. simplify_eq. apply view_inv in Hv as (e & o & He & Ho & ->).
  unfold modify_file_inode. apply fwp_assoc, fwp_klift. unfold wp, dent. rewrite He.
  apply fwp_klift. unfold wp, modify_inode. cbn. rewrite Ho. apply HQ. by apply inode_ptr_intro.
Qed.
Lemma fgrows_upd st i o o' :
  k_inodes (x_k st) !! i = Some o → inode_grows (ovl_indexdir (k_ofs (x_k st))) o o' → fgrows Rw st (upd_inode i o' st).
Proof. intros Ho Hg. split; [|done..]. split; [by eapply grows_modify_inode|done]. Qed.
Lemma set_vfs_grows ix o i : inode_grows ix o (set_oi_vfs i o).
Proof. apply vfs_only_keeps. Qed.
Lemma set_blk_grows ix o b : inode_grows ix o (set_oi_blk b o).
Proof. split; [done|done|intros x ?; by left|done|by left..]. Qed.

(** Attributes of the real inode. *)
Lemma copy_real_runs {B} st p f v copy (k : unit → files W B) Q :
  x_files st !! p = Some f → view_of st p = Some v → is_Some (ovl_inode_real (od_inode v)) →
  (∀ i vfs, inode_ptr st p i v → fwp (k tt) (upd_inode i (set_oi_vfs vfs (od_inode v)) st) Q) →
  fwp (copy_real copy f ≫= k) st Q.
Proof.
  intros Hf Hv [ri Hri] HQ. unfold copy_real. apply fwp_assoc. eapply fwp_inode; [done..|].
  apply fwp_assoc. eapply fwp_deref; [done|]. apply fwp_assoc, fwp_peek.
  eapply fwp_modify_inode; [done..|]. intros i Ho. by apply HQ.
Qed.

(** The real inode stays there. *)
Lemma real_grows ix o o' : inode_grows ix o o' → is_Some (ovl_inode_real o) → is_Some (ovl_inode_real o').
Proof.
  intros Hg. unfold ovl_inode_real, ovl_inode_upper, ovl_inode_lower. rewrite (ig_lower Hg).
  destruct (oi_upper o) as [x|] eqn:Eu; [by rewrite (ig_upper Hg _ Eu)|].
  cbn. destruct (oi_upper o') as [x|] eqn:Eu'; [|done]. cbn.
  destruct (ig_new Hg _ Eu') as [|[y ->]]; [congruence|by eexists].
Qed.
(** So do data in the upper layer. *)
Definition upper_data (o : ovl_inode) (ui : inode) : Prop :=
  ovl_inode_upper o = Some ui ∧ (ovl_test_flag OVL_UPPERDATA o = true ∨ oi_lower o = None).
Lemma upper_data_grows ix o o' ui : inode_grows ix o o' → upper_data o ui → upper_data o' ui.
Proof.
  intros Hg [Hu Hd]. unfold upper_data, ovl_inode_upper in *. destruct (oi_upper o) as [x|] eqn:Eu; [|done].
  rewrite (ig_upper Hg _ Eu), (ig_lower Hg). split; [done|]. destruct Hd; [left; by apply (ig_flags Hg)|by right].
Qed.
Lemma upper_data_real o ui : upper_data o ui → ovl_inode_realdata o = Some ui ∧ ovl_inode_real o = Some ui.
Proof.
  intros [Hu Hd]. unfold ovl_inode_realdata, ovl_inode_real. rewrite Hu. split; [|done].
  unfold ovl_has_upperdata, ovl_should_check_upperdata, ovl_inode_lower.
  destruct (S_ISREG _); [|done]. destruct Hd as [Hd|Hd]; rewrite Hd; [|done]. by case_bool_decide.
Qed.

(** The block fields. *)
Lemma on_blocks_runs {A} st p f v (m : bstate W → outcome (A * bstate W)) a s Q :
  x_files st !! p = Some f → view_of st p = Some v →
  m (BState (x_w st) (oi_blk (od_inode v)) (x_fifo st)) = Ret (a, s) →
  (∀ i, inode_ptr st p i v →
     Q a (upd_inode i (set_oi_blk (bs_b s) (od_inode v)) (set_w (bs_w s) (set_x_fifo (bs_fifo s) st)))) →
  fwp (on_blocks f m) st Q.
Proof.
  intros Hf (f' & Hf' & Hv)%view_of_Some Hm HQ. simplify_eq. apply view_inv in Hv as (e & o & He & Ho & ->).
  unfold on_blocks. apply fwp_klift. unfold wp, dent. rewrite He. apply fwp_klift. unfold wp, inode_of. cbn. rewrite Ho.
  apply fwp_peek. cbn in Hm. destruct st as [k fs rs mn q]. unfold set_x_k in *. cbn in *.
  apply fwp_bind. unfold fwp, run_outcome, x_w in *. destruct k. cbn in *. rewrite Hm.
  apply fwp_modify, fwp_klift. unfold wp, modify. apply fwp_klift. unfold wp, modify_inode. cbn. rewrite Ho.
  apply fwp_ret. by apply HQ, inode_ptr_intro.
Qed.
Lemma block_paths_runs {B} st p f v (k : path * path → files W B) Q :
  x_files st !! p = Some f → view_of st p = Some v →
  fwp (k (ovl_path_upper (k_ofs (x_k st)) v, ovl_path_lowerdata v)) st Q → fwp (block_paths f ≫= k) st Q.
Proof.
  intros Hf Hv HQ. unfold view_of in Hv. rewrite Hf in Hv. cbn in Hv.
  unfold block_paths. apply fwp_assoc, fwp_klift. unfold wp, oview. unfold view_at in Hv. rewrite Hv.
  apply fwp_assoc, fwp_peek, fwp_mret. destruct st as [[] ? ? ? ?]. exact HQ.
Qed.

(** The block paths, as the mounter. *)
Lemma blocks_bind {A B} st p f v (m : path → path → bstate W → outcome (A * bstate W)) a s (k : A → files W B) Q :
  x_files st !! p = Some f → view_of st p = Some v →
  m (ovl_path_upper (k_ofs (x_k st)) v) (ovl_path_lowerdata v) (BState (x_w st) (oi_blk (od_inode v)) (x_fifo st)) = Ret (a, s) →
  Rw (x_w st) (bs_w s) →
  (∀ st', fgrows Rw st st' → x_files st' = x_files st → x_w st' = bs_w s → x_fifo st' = bs_fifo s →
     k_ofs (x_k st') = k_ofs (x_k st) → view_of st' p = Some (set_od_inode (set_oi_blk (bs_b s) (od_inode v)) v) →
     fwp (k a) st' Q) →
  fwp (as_creator creator_cred ('(upper, lower) ← block_paths f; on_blocks f (m upper lower)) ≫= k) st Q.
Proof.
  intros Hf Hv Hm Hw HQ. apply fwp_bind, fwp_creator. eapply block_paths_runs; [exact Hf|exact Hv|].
  eapply on_blocks_runs; [exact Hf|exact Hv|exact Hm|]. intros i Hi. split; [done|]. apply HQ; try done.
  - eapply (fgrows_hold (cred_held creator_cred (k_held (x_k st))) st).
    eapply transitivity; [|eapply fgrows_upd; [exact (proj1 Hi)|apply set_blk_grows]].
    split; try done. apply quiet_evolves. by split.
  - apply (proj2 Hi).
Qed.

(** ** What the operations keep *)

(** An open file with a real inode. *)
Definition backed st (p : Z) : Prop := ∃ v, view_of st p = Some v ∧ is_Some (ovl_inode_real (od_inode v)).
Lemma backed_grows st st' p : fgrows Rw st st' → backed st p → backed st' p.
Proof.
  intros Hg (v & Hv & Hr). destruct (fgrows_view _ _ _ _ Hg Hv) as (v' & Hv' & Hvg). exists v'. split; [done|].
  by eapply real_grows; [apply (vg_inode _ _ _ Hvg)|].
Qed.
Lemma backed_same st st' p : fsame Rw st st' → backed st p → backed st' p.
Proof. intros Hs. by apply backed_grows, fsame_fgrows. Qed.
Lemma backed_refs l st p : backed st p → backed (add_refs l st) p.
Proof. done. Qed.
Lemma backed_file st p : backed st p → ∃ f v, x_files st !! p = Some f ∧ view_of st p = Some v ∧ is_Some (ovl_inode_real (od_inode v)).
Proof. intros (v & Hv & Hr). pose proof Hv as (f & Hf & _)%view_of_Some. by exists f, v. Qed.

Lemma accessed_runs {B} st p (k : unit → files W B) Q :
  backed st p → (∀ st', fgrows Rw st st' → fwp (k tt) st' Q) → fwp (ovl_file_accessed p ≫= k) st Q.
Proof.
  intros (f & v & Hf & Hv & _)%backed_file HQ. unfold ovl_file_accessed. apply fwp_assoc. eapply fwp_file; [done|].
  case_match; [by apply fwp_mret, HQ|]. apply fwp_assoc. eapply fwp_inode; [done..|].
  case_match; [|by apply fwp_mret, HQ]. apply fwp_assoc, fwp_peek. cbv beta zeta.
  apply fwp_assoc. eapply fwp_modify_inode; [done..|]. intros i' Ho. apply fwp_on_w. apply HQ.
  etrans; [eapply fgrows_upd; [exact (proj1 Ho)|apply set_vfs_grows]|]. apply fgrows_set_w. apply rel_touch.
Qed.

(** A body that ends with the attributes of the real inode. *)
Lemma attrs_end st p copy (ret : Z) :
  backed st p → fwp (f ← file_at p; copy_real copy f;; mret ret) st (λ _, fgrows Rw st).
Proof.
  intros (f & v & Hf & Hv & Hr)%backed_file. eapply fwp_file; [done|]. eapply copy_real_runs; [done..|].
  intros i vfs Ho. apply fwp_ret. eapply fgrows_upd; [exact (proj1 Ho)|apply set_vfs_grows].
Qed.

End relative.
