(* ===== verification/FileRun.v ===== *)
(** Each file operation returns and keeps what [fgrows] says: nobody's
    references or what the thread held are lost, and the underlying files change
    only as [Rw] allows. *)

From S2P Require Import Prelude Vfs Types Util Under Nlink Fh Redirect Inode Block BlockRead BlockWrite BlockStore Lookup Kernel KernelProps Work CopyUp WorkProps CopyUpSteps CopyUpProps Dir DirSteps Attr File FileSteps.
From stdpp Require Import gmap.
Local Open Scope Z_scope.

Section run.
Context {W : Type} `{Vfs W, Under W, !UnderLaws W, Kern W, !KernLaws W, DirKern W, AttrKern W, FileKern W}.
Context (creator_cred : Z) (workdir indexdir : dentry) (export_op : Z → option (bool * bool)).
Context (fuel depth : nat).
Implicit Types (st : fstate W).

(** An open file whose data are in [ri]. *)
Definition opened st (p : Z) (ri : inode) : Prop :=
  ∃ f v, x_files st !! p = Some f ∧ view_of st p = Some v ∧
    ovl_inode_realdata (od_inode v) = Some ri ∧ is_Some (ovl_inode_real (od_inode v)).
(** Its real file is open. *)
Definition live (isopen : W → Z → Prop) st (p : Z) : Prop := ∃ f, x_files st !! p = Some f ∧ isopen (x_w st) (f_private f).
Lemma opened_backed st p ri : opened st p ri → backed st p.
Proof. intros (f & v & _ & Hv & _ & Hr). by exists v. Qed.

Section relative.
Context {u : Z} {Rw : relation W} {isopen good : W → Z → Prop} `{!FileRel u Rw isopen good}.

Abbreviation runs m st := (fwp m st (λ _, fgrows Rw st)).

Lemma opened_same l st st' p ri : fsame Rw (add_refs l st) st' → opened st p ri → opened st' p ri.
Proof.
  intros Hs (f & v & Hf & Hv & Hd & Hr). exists f, v. split; [by rewrite (fs_files _ _ Hs)|].
  split; [|done]. rewrite (fsame_view _ _ p Hs). exact Hv.
Qed.
Lemma live_same l st st' p : fsame Rw (add_refs l st) st' → live isopen st p → live isopen st' p.
Proof.
  intros Hs (f & Hf & Ho). exists f. split; [by rewrite (fs_files _ _ Hs)|].
  eapply rel_isopen; [apply (fs_w _ _ Hs)|exact Ho].
Qed.

(** The frame of most operations. *)
Lemma real_runs st p ri body :
  opened st p ri → live isopen st p →
  (∀ real l st1, fsame Rw (add_refs l st) st1 → (i_ptr ri = u → good (x_w st1) real) → runs (body real) st1) →
  runs (with_real creator_cred p body) st.
Proof.
  intros (f & v & Hf & Hv & Hd & Hr) (f' & Hf' & Ho) Hbody. simplify_eq.
  eapply with_real_runs; [done..|]. intros real l st1 Hs Hg. apply (Hbody real l); [done|auto].
Qed.
Lemma real_meta_runs st p ri meta body :
  opened st p ri → (∀ real l st1, fsame Rw (add_refs l st) st1 → runs (body real) st1) →
  runs (with_real_meta creator_cred p meta body) st.
Proof.
  intros (f & v & Hf & Hv & Hd & [rr Hr]) Hbody.
  eapply (with_real_runs creator_cred p meta) with (ri := if meta then rr else ri); [done|done|by destruct meta|done|].
  intros real l st1 Hs _. by apply (Hbody real l).
Qed.
Lemma creator_runs st {A} (g : W → A * W) :
  Rw (x_w st) (g (x_w st)).2 → runs (as_creator creator_cred (on_real g)) st.
Proof.
  intros Hg. apply creator_real. intros a w Ha. rewrite Ha in Hg. by apply fgrows_set_w.
Qed.

(** A body under the lock of an inode. *)
Lemma fwp_locked {A B} st i (m : files W A) (k : A → files W B) Q :
  fwp m (hold (lock_held [LInode (i_ptr i)] (k_held (x_k st))) st)
    (λ a st', fgrows Rw (hold (lock_held [LInode (i_ptr i)] (k_held (x_k st))) st) st' ∧
       (fgrows Rw st (hold (k_held (x_k st)) st') → fwp (k a) (hold (k_held (x_k st)) st') Q)) →
  fwp (klift (inode_lock i);; a ← m; klift (inode_unlock i);; k a) st Q.
Proof.
  intros Hm. apply fwp_klift. apply wp_lock. eapply fwp_seq; [exact Hm|]. intros a st' [Hg Hk].
  pose proof (proj2 (fg_k _ _ Hg)) as Hh. cbn in Hh.
  apply fwp_klift. eapply wp_unlock; [rewrite Hh; apply unlock1_head|].
  specialize (Hk (fgrows_hold _ _ _ Hg)). revert Hk. unfold hold. rewrite Hh. cbn. by destruct (k_held (x_k st)).
Qed.

Lemma fgrows_files st p f g :
  x_files st !! p = Some f → f_dentry (g f) = f_dentry f → f_private (g f) = f_private f →
  fgrows Rw st (set_x_files (<[p := g f]> (x_files st)) st).
Proof. intros Hf Hd Hp. split; try done. by apply files_kept_insert. Qed.

Lemma llseek_runs st p ri offset whence :
  opened st p ri → live isopen st p → runs (ovl_llseek creator_cred p offset whence) st.
Proof.
  intros Ho Hl. pose proof Ho as (f & v & Hf & Hv & _). unfold ovl_llseek. eapply fwp_file; [done|].
  case_match; [by apply fwp_ret|]. case_match.
  { eapply fwp_update; [done|]. apply fwp_ret. by apply fgrows_files. }
  eapply real_runs; [done..|]. intros real l st1 Hs _.
  destruct (opened_same _ _ _ _ _ Hs Ho) as (f1 & v1 & Hf1 & Hv1 & _).
  assert (f1 = f) as -> by (rewrite (fs_files _ _ Hs) in Hf1; cbn in Hf1; congruence).
  eapply fwp_inode; [done..|]. apply fwp_locked. set (st2 := hold _ st1).
  eapply fwp_file; [done|]. apply fwp_on_w. apply fwp_creator_real. intros ret w Hw. apply fwp_peek. eapply fwp_update; [done|]. apply fwp_ret.
  split; [|intros Hg; by apply fwp_ret]. eapply transitivity; [|by apply (fgrows_files _ p f)].
  eapply transitivity; [apply fgrows_set_w, rel_set_pos|]. apply fgrows_set_w.
  apply (f_equal snd) in Hw. cbn in Hw. subst. apply rel_llseek.
Qed.

Lemma fsync_runs st p ri start end_ datasync :
  opened st p ri → live isopen st p → runs (ovl_fsync creator_cred p start end_ datasync) st.
Proof.
  intros Ho Hl. unfold ovl_fsync. eapply real_meta_runs; [done..|]. intros real l st1 Hs.
  destruct (opened_same _ _ _ _ _ Hs Ho) as (f1 & v1 & Hf1 & Hv1 & _).
  eapply fwp_file; [done|]. eapply fwp_inode; [done..|]. apply fwp_peek.
  case_match; [|by apply fwp_ret]. apply creator_runs, rel_fsync.
Qed.

(** The mapping keeps a reference to the real file. *)
Lemma mmap_runs st p own :
  backed st p →
  fwp (ovl_mmap creator_cred p own) st (λ ret st', ∃ f, x_files st !! p = Some f ∧
    (if ret =? 0 then fgrows Rw (add_refs [f_private f] st) st' else fgrows Rw st st')).
Proof.
  intros Hb. destruct (backed_file _ _ Hb) as (f & v & Hf & Hv & Hr). unfold ovl_mmap. eapply fwp_file; [done|]. apply fwp_peek.
  case_match; [apply fwp_ret; by exists f|]. case_match; [apply fwp_ret; by exists f|].
  unfold get_file. apply fwp_modify, fwp_creator_real. intros ret w Hw. apply (f_equal snd) in Hw. cbn in Hw.
  assert (fgrows Rw st (set_w w st)) as Hg by (apply fgrows_set_w; subst w; apply rel_mmap).
  destruct (ret =? 0) eqn:Er; cbn [negb].
  - apply fwp_mret. eapply accessed_runs; [exact Hb|]. intros st' Hg'. apply fwp_ret. exists f. split; [done|]. rewrite Er.
    etrans; [|exact Hg']. by destruct Hg.
  - apply (fwp_put _ _ (x_refs st)); [done|]. eapply accessed_runs; [exact Hb|]. intros st' Hg'. apply fwp_ret. exists f. split; [done|]. rewrite Er.
    etrans; [|exact Hg']. exact Hg.
Qed.

Lemma fallocate_runs st p ri mode offset len :
  opened st p ri → live isopen st p → i_ptr ri = u → runs (ovl_fallocate creator_cred p mode offset len) st.
Proof.
  intros Ho Hl Hu. eapply real_runs; [done..|]. intros real l st1 Hs Hg.
  apply fwp_creator_real. intros ret w Hw. apply (f_equal snd) in Hw. cbn in Hw.
  assert (fgrows Rw st1 (set_w w st1)) as Hg1 by (apply fgrows_set_w; subst w; apply rel_fallocate; auto).
  eapply fwp_mono; [apply (attrs_end (set_w w st1))|intros ? st2 Hg2; by etrans].
  eapply backed_grows; [exact Hg1|]. eapply opened_backed, opened_same; done.
Qed.
Lemma fadvise_runs st p ri offset len advice :
  opened st p ri → live isopen st p → runs (ovl_fadvise creator_cred p offset len advice) st.
Proof. intros Ho Hl. eapply real_runs; [done..|]. intros real l st1 _ _. apply creator_runs, rel_fadvise. Qed.
Lemma real_ioctl_runs st p ri cmd arg :
  opened st p ri → live isopen st p → runs (ovl_real_ioctl creator_cred p cmd arg) st.
Proof. intros Ho Hl. eapply real_runs; [done..|]. intros real l st1 _ _. apply creator_runs, rel_ioctl. Qed.

Lemma copyfile_runs st p_in pos_in p_out pos_out len flags op ri_in ri_out :
  opened st p_in ri_in → live isopen st p_in → opened st p_out ri_out → live isopen st p_out → i_ptr ri_out = u →
  runs (ovl_copyfile creator_cred p_in pos_in p_out pos_out len flags op) st.
Proof.
  intros Hi Hli Ho Hlo Hu. eapply real_runs; [exact Ho|done|]. intros real_out l st1 Hs Hg.
  pose proof (opened_same _ _ _ _ _ Hs Hi) as Hi1. pose proof (live_same _ _ _ _ Hs Hli) as Hli1.
  eapply real_runs; [exact Hi1|done|]. intros real_in l2 st2 Hs2 _.
  apply fwp_creator_real. intros ret w Hw. apply (f_equal snd) in Hw. cbn in Hw.
  assert (fgrows Rw st2 (set_w w st2)) as Hg1.
  { apply fgrows_set_w. subst w. apply rel_copy. eapply rel_good; [apply (fs_w _ _ Hs2)|]. by apply Hg. }
  eapply fwp_mono; [apply (attrs_end (set_w w st2))|intros ? st3 Hg2; by etrans].
  eapply backed_grows; [exact Hg1|]. eapply opened_backed, opened_same; [exact Hs2|]. eapply opened_same; done.
Qed.
Lemma remap_runs st p_in pos_in p_out pos_out len flags ri_in ri_out :
  opened st p_in ri_in → live isopen st p_in → opened st p_out ri_out → live isopen st p_out → i_ptr ri_out = u →
  runs (ovl_remap_file_range creator_cred p_in pos_in p_out pos_out len flags) st.
Proof.
  intros Hi Hli Ho Hlo Hu. pose proof Hi as (fi & vi & Hfi & Hvi & _). pose proof Ho as (fo & vo & Hfo & Hvo & _).
  unfold ovl_remap_file_range. case_match; [by apply fwp_ret|]. cbv zeta.
  eapply fwp_file; [done|]. eapply fwp_inode; [done..|]. eapply fwp_file; [done|]. eapply fwp_inode; [done..|].
  case_match; [by apply fwp_ret|]. by eapply copyfile_runs.
Qed.
(** An ioctl that sets nothing. *)
Lemma ioctl_runs st p cmd arg ri :
  opened st p ri → live isopen st p → (cmd =? FS_IOC_SETFLAGS) = false → (cmd =? FS_IOC_FSSETXATTR) = false →
  runs (ovl_ioctl creator_cred workdir indexdir export_op fuel depth p cmd arg) st.
Proof.
  intros Ho Hl H1' H2'. unfold ovl_ioctl. rewrite H1', H2'. case_match; [by eapply real_ioctl_runs|by apply fwp_ret].
Qed.

(** Reading and writing a file that is not copied lazily, or no longer. *)
Definition whole st (p : Z) : Prop := ∃ v, view_of st p = Some v ∧ cow_status (oi_blk (od_inode v)) = false.

Lemma read_runs st n p ri pos count :
  opened st p ri → whole st p → 0 ≤ pos → 0 ≤ count → runs (ovl_read_iter creator_cred n p pos count) st.
Proof.
  intros Ho (v' & Hv & Hcow) Hpos Hcount. pose proof Ho as (f & v & Hf & Hv' & Hd & Hr). assert (v' = v) as -> by congruence.
  unfold ovl_read_iter. case_match; [by apply fwp_ret|]. unfold ovl_real_fdget. apply fwp_bind.
  eapply (fdget_rel creator_cred p false); [done..| |].
  { intros err real put st' He Hg. destruct (Z.eqb_spec err 0); [done|]. by apply fwp_ret. }
  intros real put st1 Hs _. cbn [negb Z.eqb].
  assert (view_of st1 p = Some v) as Hv1 by (rewrite (fsame_view _ _ p Hs); exact Hv).
  assert (x_files st1 !! p = Some f) as Hf1 by (rewrite (fs_files _ _ Hs); exact Hf).
  destruct (vfs_iter_read (x_w st1) real pos count) as [[ret d] w] eqn:Er.
  eapply fwp_file; [done|]. eapply blocks_bind; [exact Hf1|exact Hv1| | |].
  { unfold ovl_read_data. cbn [bs_b]. rewrite Hcow. cbn [bs_w]. rewrite Er. reflexivity. }
  { pose proof (rel_read (x_w st1) real pos count Hpos Hcount) as Hrd. by rewrite Er in Hrd. }
  intros st3 Hg3 _ _ _ _ _.
  eapply accessed_runs; [eapply backed_grows; [exact Hg3|]; eexists; by split|]. intros st4 Hg4.
  eapply fdput_runs; [exact Hs|etrans; [exact Hg3|exact Hg4]|]. intros st5 Hg5 _ _ _. by apply fwp_ret.
Qed.

Lemma write_runs st n p f v ui pos d :
  x_files st !! p = Some f → view_of st p = Some v → upper_data (od_inode v) ui → i_ptr ui = u →
  isopen (x_w st) (f_private f) → cow_status (oi_blk (od_inode v)) = false → 0 ≤ pos →
  runs (ovl_write_iter creator_cred n p pos d) st.
Proof.
  intros Hf Hv Hu Hui Hop Hcow Hpos. unfold ovl_write_iter. case_match; [by apply fwp_ret|].
  eapply fwp_file; [done|]. eapply fwp_inode; [done..|]. apply fwp_locked. set (st1 := hold _ st).
  assert (view_of st1 p = Some v) as Hv1 by done. assert (x_files st1 !! p = Some f) as Hf1 by done.
  eapply copy_real_runs; [done|exact Hv1|eexists; apply (upper_data_real _ _ Hu)|]. intros i vfs Hi.
  apply fwp_real. intros err w Hw. apply (f_equal snd) in Hw. cbn in Hw.
  set (v3 := set_od_inode (set_oi_vfs vfs (od_inode v)) v). set (st3 := set_w w _).
  assert (fgrows Rw st1 st3) as Hg3.
  { etrans; [eapply fgrows_upd; [exact (proj1 Hi)|apply set_vfs_grows]|]. apply fgrows_set_w. subst w. apply rel_privs. }
  assert (upper_data (od_inode v3) ui) as Hu3 by (eapply upper_data_grows; [apply (set_vfs_grows false)|exact Hu]).
  destruct (upper_data_real _ _ Hu3) as [Hd3 Hr3].
  case_match; [apply fwp_ret; split; [done|]; intros Hg; by apply fwp_ret|].
  apply fwp_bind. eapply (fdget_rel creator_cred p false) with (v := v3); [done|apply (proj2 Hi)|exact Hd3| |].
  { intros err' real put st' He Hg. destruct (Z.eqb_spec err' 0); [done|]. apply fwp_ret.
    split; [by etrans|]. intros Hg'. by apply fwp_ret. }
  intros real put st4 Hs Hgood. cbn [negb Z.eqb].
  assert (view_of st4 p = Some v3) as Hv4 by (rewrite (fsame_view _ _ p Hs); apply (proj2 Hi)).
  assert (x_files st4 !! p = Some f) as Hf4 by (rewrite (fs_files _ _ Hs); exact Hf).
  assert (good (x_w st4) real) as Hgd.
  { apply Hgood; [done|]. eapply rel_isopen; [apply (fg_w _ _ Hg3)|exact Hop]. }
  destruct (vfs_iter_write (x_w st4) real pos d) as [[ret p'] w4] eqn:Er.
  eapply blocks_bind; [exact Hf4|exact Hv4| | |].
  { unfold ovl_write_data. cbn [bs_b v3 set_od_inode od_inode set_oi_vfs oi_blk]. rewrite Hcow. cbn [bs_w]. rewrite Er. reflexivity. }
  { pose proof (rel_write (x_w st4) real pos d Hgd Hpos) as Hrd. by rewrite Er in Hrd. }
  intros st5 Hg5 Hf5 _ _ _ Hv5.
  eapply copy_real_runs; [by rewrite Hf5|exact Hv5|by eexists|]. intros j vfs' Hj.
  eapply fdput_runs; [exact Hs|etrans; [exact Hg5|eapply fgrows_upd; [exact (proj1 Hj)|apply set_vfs_grows]]|].
  intros st6 Hg6 _ _ _. apply fwp_ret. split; [by etrans|]. intros Hg. by apply fwp_ret.
Qed.
End relative.

(** ** Operations that may copy up *)

#[export] Instance free_pre : PreOrder (λ _ _ : W, True).
Proof. by split. Qed.
#[export] Instance free_rel u : FileRel u (λ _ _ : W, True) (λ _ _, True) (λ _ _, True).
Proof. by split; [apply _|..]. Qed.

Abbreviation maybe_copy_up := (ovl_maybe_copy_up creator_cred workdir indexdir export_op fuel depth).
Abbreviation free := (λ _ _ : W, True).

(** After a copy-up for writing, the data are in the upper inode. *)
Lemma copied_up_data {W'} (k : kst W') d v flags :
  ok k → view_at k d = Some v → ovl_already_copied_up v flags = true → ovl_open_flags_need_copy_up flags = true →
  ∃ ui, ovl_inode_upper (od_inode v) = Some ui ∧ ovl_inode_realdata (od_inode v) = Some ui ∧
        ovl_inode_real (od_inode v) = Some ui.
Proof.
  intros Hok (e & o & He & Ho & ->)%view_inv. unfold ovl_already_copied_up, ovl_dentry_needs_data_copy_up, ovl_dentry_upper.
  cbn. intros Ha Hf. rewrite Hf in Ha. cbn [negb] in Ha. case_bool_decide as Hu; [|done]. destruct Hu as [x Hu].
  destruct (ok_upper _ Hok _ _ _ Ho Hu) as [ui Hui]. exists ui.
  unfold ovl_inode_realdata, ovl_inode_real, ovl_inode_upper. rewrite Hu. cbn. rewrite Hui.
  destruct (ovl_has_upperdata o); [done|]. cbn in Ha. by rewrite andb_false_r in Ha.
Qed.

Lemma copy_up_runs st p f v flags :
  x_files st !! p = Some f → view_of st p = Some v → ok (x_k st) → dirs_ok workdir indexdir (x_k st) →
  can_copy (x_k st) (f_dentry f) v depth fuel → 0 ≤ h_write (k_held (x_k st)) →
  fwp (klift (maybe_copy_up (f_dentry f) flags)) st (λ r st', fgrows free st st' ∧ x_files st' = x_files st ∧
    (r = 0 → if ovl_open_need_copy_up v flags
             then ∃ v' ui, view_of st' p = Some v' ∧ ovl_inode_upper (od_inode v') = Some ui ∧
                    ovl_inode_realdata (od_inode v') = Some ui ∧ ovl_inode_real (od_inode v') = Some ui
             else st' = st)).
Proof.
  intros Hf (f' & Hf' & Hv)%view_of_Some Hok Hd Hc Hw. simplify_eq. apply fwp_klift_end.
  eapply wp_mono; [by apply maybe_copy_up_step|]. intros r k [Hev Hr]. split; [by split|]. split; [done|].
  intros Hr0. specialize (Hr Hr0). destruct (ovl_open_need_copy_up v flags) eqn:Hn; [|subst k; by destruct st].
  destruct Hr as (v' & Hv' & Ha). assert (ok k) as Hok' by (by eapply evolves_ok).
  destruct (copied_up_data _ _ _ _ Hok' Hv' Ha) as (ui & Hu & Hrd & Hrr).
  { revert Hn. unfold ovl_open_need_copy_up. destruct (ovl_already_copied_up v flags), (special_file (i_mode (oi_vfs (od_inode v)))); [done..|]. by destruct (ovl_open_flags_need_copy_up flags). }
  exists v', ui. split_and!; [|done..]. unfold view_of. cbn. by rewrite Hf.
Qed.

(** What ovl_open leaves behind: on success a real file on the inode that holds
    the data now, the upper one if the flags asked for a copy-up. *)
Definition open_post st (p : Z) v (flags ret : Z) st' : Prop :=
  evolves (x_k st) (x_k st') ∧ x_mnt st' = x_mnt st ∧
  if ret =? 0 then
    ∃ f v' ri w fl, x_files st' !! p = Some f ∧ view_of st' p = Some v' ∧
      ovl_inode_realdata (od_inode v') = Some ri ∧ x_refs st' = f_private f :: x_refs st ∧
      open_with_fake_path w (f_dentry f) fl ri creator_cred = (f_private f, x_w st') ∧ IS_ERR (f_private f) = false ∧
      (if ovl_open_need_copy_up v flags then ovl_inode_upper (od_inode v') = Some ri else v' = v)
  else x_refs st' = x_refs st ∧ files_kept (x_files st) (x_files st').

Lemma open_runs st p f v ri :
  x_files st !! p = Some f → view_of st p = Some v → ovl_inode_realdata (od_inode v) = Some ri →
  ok (x_k st) → dirs_ok workdir indexdir (x_k st) → can_copy (x_k st) (f_dentry f) v depth fuel →
  0 ≤ h_write (k_held (x_k st)) →
  fwp (ovl_open creator_cred workdir indexdir export_op fuel depth p) st (λ ret, open_post st p v (f_flags f) ret).
Proof.
  intros Hf Hv Hri Hok Hd Hc Hw. unfold ovl_open. eapply fwp_file; [done|]. unfold fok_then.
  eapply fwp_seq; [by eapply copy_up_runs|]. intros r st1 (Hg & Hf1 & Hr).
  pose proof Hg as [Hev _ Hrf Hmn _]. destruct (Z.eqb_spec r 0) as [->|Hne]; cbn [negb]; cycle 1.
  { apply fwp_ret. split_and!; [done..|]. destruct (Z.eqb_spec r 0); [done|]. by rewrite Hf1. }
  specialize (Hr eq_refl). assert (∃ v1 ri1, view_of st1 p = Some v1 ∧ ovl_inode_realdata (od_inode v1) = Some ri1 ∧
    (if ovl_open_need_copy_up v (f_flags f) then ovl_inode_upper (od_inode v1) = Some ri1 else v1 = v)) as (v1 & ri1 & Hv1 & Hri1 & Hup).
  { destruct (ovl_open_need_copy_up v (f_flags f)); [|subst st1; by exists v, ri].
    destruct Hr as (v1 & ui & ? & ? & ? & _). by exists v1, ui. }
  eapply fwp_update; [by rewrite Hf1|]. set (st2 := set_x_files _ st1). set (f2 := set_f_flags _ f) in *.
  assert (x_files st2 !! p = Some f2) as Hf2 by (cbn; by rewrite lookup_insert_eq).
  assert (view_of st2 p = Some v1) as Hv2 by (revert Hv1; unfold view_of; by rewrite Hf2, Hf1, Hf).
  change (fwp (o ← file_inode f2; realfile ← ovl_open_realfile creator_cred p (ovl_inode_realdata o);
    if IS_ERR realfile then mret (PTR_ERR realfile) else update_file p (set_f_private realfile);; mret 0) st2
    (λ ret, open_post st p v (f_flags f) ret)).
  eapply fwp_inode; [exact Hf2|exact Hv2|]. rewrite Hri1. eapply fwp_bind, open_realfile_runs; [exact Hf2|].
  intros x w Hx. destruct (IS_ERR x) eqn:Ex.
  - apply fwp_ret. split; [etrans; [exact Hev|]; apply quiet_evolves; by split|]. split; [done|].
    unfold PTR_ERR, IS_ERR in *. apply bool_decide_eq_true in Ex. destruct (Z.eqb_spec x 0); [lia|]. split; [done|].
    cbn. rewrite Hf1. by apply files_kept_insert.
  - eapply fwp_update; [exact Hf2|]. apply fwp_ret. split; [etrans; [exact Hev|]; apply quiet_evolves; by split|]. split; [done|].
    exists (set_f_private x f2), v1, ri1, (x_w st2), (Z.lor (f_flags f2) (Z.lor O_NOATIME FMODE_NONOTIFY)). split_and!; [cbn; by rewrite lookup_insert_eq| | |cbn; by rewrite Hrf|exact Hx|done..].
    + revert Hv2. unfold view_of. rewrite Hf2. cbn. by rewrite lookup_insert_eq.
    + done.
Qed.

Lemma fgrows_mnt {Rw : relation W} st st' n : fgrows Rw (set_x_mnt n st) st' → fgrows Rw st (set_x_mnt (x_mnt st) st').
Proof. intros [k f r m w]. by split. Qed.

Lemma set_flags_runs st p f v ri cmd arg iflags :
  x_files st !! p = Some f → view_of st p = Some v → ovl_inode_realdata (od_inode v) = Some ri →
  is_Some (ovl_inode_real (od_inode v)) →
  ok (x_k st) → dirs_ok workdir indexdir (x_k st) → can_copy (x_k st) (f_dentry f) v depth fuel →
  0 ≤ h_write (k_held (x_k st)) →
  fwp (ovl_ioctl_set_flags creator_cred workdir indexdir export_op fuel depth p cmd arg iflags) st (λ _, fgrows free st).
Proof.
  intros Hf Hv Hri Hrr Hok Hd Hc Hw. unfold ovl_ioctl_set_flags. eapply fwp_file; [done|]. eapply fwp_inode; [done..|].
  apply fwp_peek. case_match; [by apply fwp_ret|]. apply fwp_peek. case_match; [by apply fwp_ret|]. apply fwp_modify.
  set (st1 := set_x_mnt _ st). apply (fwp_locked (Rw := free)). set (st2 := hold _ st1). apply fwp_peek.
  assert (∀ (ret : Z) st', fgrows free st2 st' → fgrows free st2 st' ∧ (fgrows free st1 (hold (k_held (x_k st1)) st') →
    fwp (fmodify (λ st, set_x_mnt (x_mnt st - 1) st);; mret ret) (hold (k_held (x_k st1)) st') (λ _, fgrows free st))) as Hend.
  { intros ret st' Hg. split; [done|]. intros Hg1. apply fwp_modify, fwp_ret. apply fgrows_mnt in Hg1.
    pose proof (fg_mnt _ _ Hg) as Hm. cbn in Hm. cbn. rewrite Hm. by replace (x_mnt st + 1 - 1) with (x_mnt st) by lia. }
  case_match; [by apply fwp_ret, Hend|]. unfold fok_then. eapply fwp_seq.
  { apply (copy_up_runs st2 p f v); [done..| | | |done].
    - eapply ok_grows; [exact Hok|]. apply grows_held.
    - destruct Hd. by split.
    - destruct Hc as [?|(? & n & top & Hc & ?)]; [by left|right]. split; [done|]. exists n, top. split; [|done].
      eapply chain_same; [..|exact Hc]; done. }
  intros r st3 (Hg3 & Hf3 & Hr). destruct (Z.eqb_spec r 0) as [->|]; cbn [negb]; [|by apply fwp_ret, Hend].
  assert (∃ ri3, opened st3 p ri3) as (ri3 & Ho3).
  { specialize (Hr eq_refl). destruct (ovl_open_need_copy_up v O_WRONLY); [|subst st3; by exists ri, f, v].
    destruct Hr as (v3 & ui & ? & ? & ? & ?). exists ui, f, v3. rewrite Hf3. by split_and!. }
  eapply fwp_seq; [eapply (real_ioctl_runs (u := 0)); [exact Ho3|exists f; by rewrite Hf3]|].
  intros ret st4 Hg4. assert (backed st4 p) as (f4 & v4 & Hf4 & Hv4 & Hr4)%backed_file by (eapply backed_grows; [exact Hg4|]; by eapply opened_backed).
  assert (copy_real (W := W) ovl_copyflags f = copy_real ovl_copyflags f4) as ->.
  { destruct (fg_files _ _ Hg4 p f) as (f' & Hf' & Hdf & _); [by rewrite Hf3|]. simplify_eq.
    unfold copy_real, file_inode, modify_file_inode. by rewrite Hdf. }
  eapply copy_real_runs; [done..|]. intros i vfs Hi. apply fwp_ret, Hend. etrans; [exact Hg3|]. etrans; [exact Hg4|].
  eapply (fgrows_upd (u := 0)); [exact (proj1 Hi)|apply set_vfs_grows].
Qed.

End run.
