(* ===== verification/FileStore.v ===== *)
(** What the code relies on for the contents of files, and the reads and writes
    of an open file that is copied block by block: they act on a plain file. *)

From S2P Require Import Prelude Vfs Types Util Under Nlink Fh Redirect Inode Block BlockView BlockRead BlockWrite BlockWriteSpec BlockStore Lookup Kernel KernelProps Work CopyUp WorkProps CopyUpSteps CopyUpProps Dir DirSteps Attr File FileSteps FileRun.
From stdpp Require Import gmap.
Local Open Scope Z_scope.

(** ** Calls on open files *)

(** Open files stay open on their inode, dentries keep theirs. *)
Record calm {W} `{Vfs W} (w w' : W) : Prop := {
  calm_file f : vfs_isopen w f = true → vfs_isopen w' f = true ∧ vfs_inode w' f = vfs_inode w f;
  calm_dinode d : vfs_dinode w' d = vfs_dinode w d;
}.
#[export] Instance calm_preorder {W} `{Vfs W} : PreOrder calm.
Proof.
  split; [by split|]. intros a b c [f1 d1] [f2 d2]. split; [|intros d; by rewrite d2].
  intros f Ho. destruct (f1 f Ho) as [Ho1 Hi1]. destruct (f2 f Ho1) as [Ho2 Hi2]. split; congruence.
Qed.
Lemma frame_calm {W} `{Vfs W} (w w' : W) : vfs_frame w w' → calm w w'.
Proof. intros [fo fi fa fd]. split; auto. Qed.
(** At most the bytes of the inode [t] change. *)
Definition touches {W} `{Vfs W} (t : Z) (w w' : W) : Prop :=
  calm w w' ∧ ∀ i, i ≠ t → vfs_bytes w' i = vfs_bytes w i.
Definition idle {W} `{Vfs W} (w w' : W) : Prop := calm w w' ∧ same_bytes w w'.
#[export] Instance touches_preorder {W} `{Vfs W} t : PreOrder (touches t).
Proof. split; [by split|]. intros a b c [c1 b1] [c2 b2]. split; [by etrans|]. intros i Hi. by rewrite b2, b1. Qed.
#[export] Instance idle_preorder {W} `{Vfs W} : PreOrder idle.
Proof. split; [by split|]. intros a b c [c1 b1] [c2 b2]. split; [by etrans|]. by eapply same_bytes_trans. Qed.
Lemma idle_touches {W} `{Vfs W} t (w w' : W) : idle w w' → touches t w w'.
Proof. intros [Hc Hb]. split; [done|]. intros i _. apply Hb. Qed.

Class FileLaws (W : Type) `{Vfs W, FileKern W} : Prop := {
  law_fake_path w d fl i c r w' :
    open_with_fake_path w d fl i c = (r, w') →
    idle w w' ∧ (IS_ERR r = false →
      vfs_isopen w' r = true ∧ vfs_inode w' r = i_ptr i ∧ vfs_append w' r = has_any fl O_APPEND);
  law_append w f : vfs_append w f = has_any (file_flags w f) O_APPEND;
  law_set_flags w f n :
    idle w (set_file_flags w f n) ∧ (vfs_isopen w f = true → file_flags (set_file_flags w f n) f = n);
  law_check_flags w f c n : check_flags w f = Some c → c n ≤ 0;
  law_set_pos w f n : idle w (set_file_pos w f n);
  law_llseek w f o n : idle w (vfs_llseek w f o n).2;
  law_fsync w f s e d : idle w (vfs_fsync_range w f s e d).2;
  law_mmap w f : idle w (call_mmap w f).2;
  law_fadvise w f o l a : idle w (vfs_fadvise w f o l a).2;
  law_ioctl w f c a : idle w (vfs_ioctl w f c a).2;
  law_privs w p : (file_remove_privs w p).1 ≤ 0 ∧ idle w (file_remove_privs w p).2;
  law_touch w p : idle w (touch_file w p);
  law_fallocate w f m o l : touches (vfs_inode w f) w (vfs_fallocate w f m o l).2;
  law_copy w op fi pi fo po l fl : touches (vfs_inode w fo) w (vfs_copy_range w op fi pi fo po l fl).2;
}.

Section laws.
Context {W : Type} `{VfsLaws W, FileKern W, !FileLaws W}.

#[export] Instance touches_rel u :
  FileRel u (touches u) (λ w f, vfs_isopen w f = true) (λ w f, vfs_isopen w f = true ∧ vfs_inode w f = u).
Proof.
  split; try (by intros; apply idle_touches; first
    [apply law_set_flags|apply law_set_pos|apply law_llseek|apply law_fsync|apply law_mmap|apply law_fadvise
    |apply law_ioctl|apply law_privs|apply law_touch]).
  - apply _.
  - intros w w' f [[Hc _] _] [Ho Hi]. destruct (Hc f Ho) as [? Hi']. split; [done|congruence].
  - done.
  - intros w d fl i c r w' Hr He <-. by destruct (law_fake_path _ _ _ _ _ _ _ Hr) as [_ (? & ? & _)].
  - intros w w' f [[Hc _] _] Ho. by destruct (Hc f Ho).
  - intros w d fl i c. destruct (open_with_fake_path w d fl i c) as [r w'] eqn:E.
    by apply idle_touches, (law_fake_path _ _ _ _ _ _ _ E).
  - intros w f p n Hp Hn. destruct (vfs_iter_read w f p n) as [[r d] w'] eqn:E.
    apply law_read in E as (Hf & Hb & _); [|done..]. apply idle_touches. split; [by apply frame_calm|done].
  - intros w f p d [Ho <-] Hp. destruct (vfs_iter_write w f p d) as [[r p'] w'] eqn:E.
    apply law_write in E as (Hf & _ & Hz & _ & Hs); [|done]. split; [by apply frame_calm|]. intros i Hi.
    destruct (Z.leb_spec r 0); [by apply Hz|]. by destruct Hs as (_ & _ & Hs); [|apply Hs].
  - intros w f m o l [_ <-]. apply law_fallocate.
  - intros w op fi pi fo po l fl [_ <-]. apply law_copy.
Qed.
End laws.

(** ** Flag bits *)

Lemma has_any_append n : has_any n O_APPEND = Z.testbit n 10.
Proof.
  unfold has_any. change O_APPEND with (2 ^ 10). destruct (Z.testbit n 10) eqn:E.
  - apply negb_true_iff, Z.eqb_neq. intros Hz. assert (Z.testbit (Z.land n (2 ^ 10)) 10 = true) as Ht.
    { rewrite Z.land_spec, E, Z.pow2_bits_true by lia. done. }
    by rewrite Hz, Z.bits_0 in Ht.
  - apply negb_false_iff, Z.eqb_eq, Z.bits_inj_0. intros k. rewrite Z.land_spec.
    destruct (Z.eq_dec k 10) as [->|]; [by rewrite E|].
    destruct (Z.lt_ge_cases k 0); [by rewrite !Z.testbit_neg_r|]. rewrite Z.pow2_bits_false by lia. apply andb_false_r.
Qed.
Lemma append_opened fl : has_any (Z.lor fl (Z.lor O_NOATIME FMODE_NONOTIFY)) O_APPEND = has_any fl O_APPEND.
Proof. rewrite !has_any_append, !Z.lor_spec. by rewrite orb_false_r. Qed.
Lemma append_same fl fl' : Z.ldiff (Z.lxor fl fl') O_NOATIME = 0 → has_any fl' O_APPEND = has_any fl O_APPEND.
Proof.
  intros Hz. assert (Z.testbit (Z.ldiff (Z.lxor fl fl') O_NOATIME) 10 = false) as Hb by by rewrite Hz, Z.bits_0.
  rewrite Z.ldiff_spec, Z.lxor_spec in Hb. change (Z.testbit O_NOATIME 10) with false in Hb. rewrite andb_true_r in Hb.
  rewrite !has_any_append. by destruct (Z.testbit fl 10), (Z.testbit fl' 10).
Qed.
Lemma append_new old fl : has_any (new_flags old fl) O_APPEND = has_any fl O_APPEND.
Proof.
  rewrite !has_any_append. unfold new_flags. rewrite Z.lor_spec, Z.ldiff_spec, Z.land_spec, !Z.lor_spec.
  change (Z.testbit OVL_SETFL_MASK 10) with true. change (Z.testbit O_NOATIME 10) with false.
  change (Z.testbit FMODE_NONOTIFY 10) with false. by destruct (Z.testbit old 10), (Z.testbit fl 10).
Qed.

(** ** A file that is copied block by block *)

Section store.
Context {W : Type} `{VfsLaws W, !VfsReliable W, Kern W, FileKern W, !FileLaws W}.
Context (creator_cred p u l nb : Z) (L : list byte) (up lp : path) (f : file).
Implicit Types (st : fstate W) (F d : list byte).

(** [f] is the open file [p], not opened for appending; its inode has its data in
    the upper inode [u], where the blocks not copied yet are in the lower inode
    [l]; it reads as [F]. *)
Definition blocks_show (s : bstate W) F : Prop :=
  u ≠ l ∧ vfs_bytes (bs_w s) l = L ∧
  if cow_status (bs_b s) then
    io_ok up lp u l s ∧ cow_rel (vfs_bytes (bs_w s) l) (vfs_bytes (bs_w s) u) (bs_b s) F ∧ block_count (bs_b s) = nb
  else vfs_bytes (bs_w s) u = F.
Definition blocks_of st v : bstate W := BState (x_w st) (oi_blk (od_inode v)) (x_fifo st).
Record shows_as st v F : Prop := {
  sh_file : x_files st !! p = Some f;
  sh_view : view_of st p = Some v;
  sh_data : ∃ ui, upper_data (od_inode v) ui ∧ i_ptr ui = u;
  sh_paths : ovl_path_upper (k_ofs (x_k st)) v = up ∧ ovl_path_lowerdata v = lp;
  sh_open : vfs_isopen (x_w st) (f_private f) = true;
  sh_blocks : blocks_show (blocks_of st v) F;
}.
Definition shows st F : Prop := has_any (f_flags f) O_APPEND = false ∧ ∃ v, shows_as st v F.

Lemma blocks_show_store s F real :
  realfile_ok u real (bs_w s) → blocks_show s F → store_rel up lp u l real nb L s F.
Proof. intros Hr (Hne & HL & Hb). by split. Qed.
Lemma store_blocks_show s F real : store_rel up lp u l real nb L s F → blocks_show s F.
Proof. intros (_ & Hne & HL & Hb). by split. Qed.

Lemma cached_calm w w' x i : calm w w' → cached w x i → cached w' x i.
Proof.
  intros [Hc _] [?|(? & Ho & ?)]; [by left|right]. destruct (Hc x Ho) as [? Hi]. split_and!; [done..|congruence].
Qed.
Lemma blocks_show_idle s F w' : idle (bs_w s) w' → blocks_show s F → blocks_show (set_bs_w w' s) F.
Proof.
  intros [Hc Hb] (Hne & HL & HB). split; [done|]. cbn. rewrite !Hb. split; [done|].
  destruct (cow_status (bs_b s)); [|done]. destruct HB as ([io1 io2 io3 io4 io5] & HR & Hn). split_and!; [|done..].
  split; cbn; rewrite ?(calm_dinode _ _ Hc); eauto using cached_calm.
Qed.

(** What does not change it. *)
Lemma shows_idle st v F w : idle (x_w st) w → shows_as st v F → shows_as (set_w w st) v F.
Proof.
  intros Hi [sf sv sd sp so sb]. split; [done|exact sv|done|done| |].
  - by destruct (calm_file _ _ (proj1 Hi) _ so).
  - exact (blocks_show_idle (blocks_of st v) F w Hi sb).
Qed.
Lemma shows_attrs st v F i vfs :
  inode_ptr st p i v → shows_as st v F →
  shows_as (upd_inode i (set_oi_vfs vfs (od_inode v)) st) (set_od_inode (set_oi_vfs vfs (od_inode v)) v) F.
Proof.
  intros [_ Hv] [sf sv sd sp so sb]. split; [done|apply Hv| |done..].
  destruct sd as (ui & Hu & ?). exists ui. split; [|done]. eapply upper_data_grows; [apply (set_vfs_grows false)|exact Hu].
Qed.
(** Only the overlay, its open files and the queue matter. *)
Lemma shows_ext st st' v F :
  x_k st' = x_k st → x_files st' = x_files st → x_fifo st' = x_fifo st → shows_as st v F → shows_as st' v F.
Proof.
  intros Hk Hf Hq [sf sv sd sp so sb]. split; unfold view_of, blocks_of, x_w in *; by rewrite ?Hk, ?Hf, ?Hq.
Qed.
Lemma shows_hold st v F h : shows_as st v F → shows_as (hold h st) v F.
Proof. intros [sf sv sd sp so sb]. by split. Qed.

(** ** One operation *)

(** The real file, if it can be had, is one that the block paths can use. *)
Lemma fdget_shows st v F Q :
  has_any (f_flags f) O_APPEND = false → shows_as st v F →
  (∀ err real put st', err < 0 → fgrows (λ _ _, True) st st' → shows_as st' v F → Q (err, real, put) st') →
  (∀ real (put : bool) st1, fsame (λ _ _, True) (add_refs (if put then [real] else []) st) st1 → shows_as st1 v F →
     realfile_ok u real (x_w st1) → Q (0, real, put) st1) →
  fwp (ovl_real_fdget creator_cred p) st Q.
Proof.
  intros Ha Hs He HQ. pose proof Hs as [sf sv (ui & Hu & Hui) sp so sb]. destruct (upper_data_real _ _ Hu) as [Hrd _].
  eapply (fdget_runs creator_cred p false); [done..| | | |].
  - intros r w _ Hr. destruct (law_fake_path _ _ _ _ _ _ _ Hr) as [Hi Hok]. unfold PTR_ERR_OR_ZERO.
    pose proof (shows_idle _ _ _ _ Hi Hs) as Hs'. destruct (IS_ERR r) eqn:Ee.
    + apply He; [unfold IS_ERR in Ee; apply bool_decide_eq_true in Ee; lia| |].
      * change (fgrows (λ _ _, True) st (set_w w st)). by apply fgrows_set_w.
      * by eapply shows_ext, Hs'.
    + apply HQ; [by apply fsame_refs|by eapply shows_ext, Hs'|].
      destruct (Hok eq_refl) as (? & ? & Happ). split_and!; [done|etrans; [exact Happ|by rewrite append_opened]|by rewrite <- Hui].
  - intros Hi Hx. apply (HQ _ false); [by destruct st|done|]. split_and!; [done| |congruence].
    by rewrite law_append, (append_same _ _ Hx).
  - intros err Hi Hr. apply He; [|done..]. destruct Hr as [|(c & n & Hc & -> & ?)]; [done|].
    apply (law_check_flags _ _ _ n) in Hc. lia.
  - intros Hi. destruct (law_set_flags (x_w st) (f_private f) (new_flags (file_flags (x_w st) (f_private f)) (f_flags f))) as [Hid Hfl].
    pose proof (shows_idle _ _ _ _ Hid Hs) as Hs'. apply (HQ _ false); [by apply (fsame_refs [])|by eapply shows_ext, Hs'|].
    destruct (calm_file _ _ (proj1 Hid) _ so) as [Ho' Hi']. split_and!; [exact Ho'| |].
    + change (x_w (set_w ?w st)) with w. rewrite law_append, Hfl by done. by rewrite append_new.
    + rewrite <- Hui, <- Hi. exact Hi'.
Qed.

(** The access time. *)
Lemma accessed_shows {B} st v F (k : unit → files W B) Q :
  shows_as st v F → (∀ st' v', fgrows (λ _ _, True) st st' → shows_as st' v' F → fwp (k tt) st' Q) →
  fwp (ovl_file_accessed p ≫= k) st Q.
Proof.
  intros Hs HQ. unfold ovl_file_accessed. apply fwp_assoc. eapply fwp_file; [apply Hs|].
  case_match; [by eapply fwp_mret, HQ|]. apply fwp_assoc. eapply fwp_inode; [apply Hs..|].
  case_match; [|by eapply fwp_mret, HQ]. apply fwp_assoc, fwp_peek. cbv beta zeta.
  apply fwp_assoc. eapply fwp_modify_inode; [apply Hs..|]. intros i' Ho. apply fwp_on_w. eapply HQ.
  - etrans; [eapply (fgrows_upd (u := 0)); [exact (proj1 Ho)|apply set_vfs_grows]|]. by apply fgrows_set_w.
  - apply shows_idle; [apply law_touch|]. by apply shows_attrs.
Qed.

(** The block paths after a successful look at the real file. *)
Lemma blocks_shows {A B} st v F real op (m : path → path → bstate W → outcome (A * bstate W))
    (out : A → Z * list byte) (k : A → files W B) Q :
  shows_as st v F → realfile_ok u real (x_w st) → op_ok nb F op →
  (∀ s, run_op up lp real op s = ('(a, s) ← m up lp s; Ret (out a, s))) →
  (∀ a st' v', fgrows (λ _ _, True) st st' → file_step F op (out a) (op_result F op) → shows_as st' v' (op_result F op) →
     is_Some (ovl_inode_real (od_inode v')) → fwp (k a) st' Q) →
  fwp (as_creator creator_cred ('(upper, lower) ← block_paths f; on_blocks f (m upper lower)) ≫= k) st Q.
Proof.
  intros Hs Hr Hop Hm HQ. pose proof Hs as [sf sv (ui & Hu & Hui) [sp1 sp2] so sb].
  destruct (run_op_refines up lp u l real nb L F (blocks_of st v) op) as (r & s' & E & Hst & HS' & Hfr);
    [by apply blocks_show_store|done|]. rewrite Hm in E.
  destruct (m up lp (blocks_of st v)) as [[a s1]| |] eqn:Em; [|done..]. injection E as <- <-.
  eapply (blocks_bind (u := 0)); [exact sf|exact sv|rewrite sp1, sp2; exact Em|done|].
  intros st' Hg Hf Hw Hq Ho Hv.
  assert (upper_data (set_oi_blk (bs_b s1) (od_inode v)) ui) as Hu' by (eapply upper_data_grows; [apply (set_blk_grows false)|exact Hu]).
  apply (HQ _ _ (set_od_inode (set_oi_blk (bs_b s1) (od_inode v)) v)); [exact Hg|exact Hst| |exists ui; apply (upper_data_real _ _ Hu')].
  split; [by rewrite Hf|exact Hv|by exists ui|by rewrite Ho| |].
  - rewrite Hw. by apply (frame_open _ _ Hfr).
  - apply store_blocks_show in HS'. unfold blocks_of. cbn. rewrite Hw, Hq. by destruct s1.
Qed.

(** What a call may answer: an error that changes nothing, or what a plain file
    answers. *)
Inductive answers : list byte → file_op → Z * list byte → list byte → Prop :=
| answers_failed F op err : err < 0 → answers F op (err, []) F
| answers_done F op r F' : file_step F op r F' → answers F op r F'.
Inductive answers_all : list byte → list file_op → list (Z * list byte) → list byte → Prop :=
| all_nil F : answers_all F [] [] F
| all_cons F op r F' ops rs F'' :
    answers F op r F' → answers_all F' ops rs F'' → answers_all F (op :: ops) (r :: rs) F''.

(** The calls of the VFS for a pread and a pwrite. *)
Definition call_op (op : file_op) : files W (Z * list byte) :=
  match op with
  | PRead pos n => '(ret, _, d) ← ovl_read_iter creator_cred (op_fuel op) p pos n; mret (ret, d)
  | PWrite pos d => '(ret, _) ← ovl_write_iter creator_cred (op_fuel op) p pos d; mret (ret, [])
  end.
Fixpoint call_ops (ops : list file_op) : files W (list (Z * list byte)) :=
  match ops with
  | [] => mret []
  | op :: ops => r ← call_op op; rs ← call_ops ops; mret (r :: rs)
  end.

Lemma read_shows st F pos n :
  shows st F → op_ok nb F (PRead pos n) →
  fwp (call_op (PRead pos n)) st (λ r st', fgrows (λ _ _, True) st st' ∧ answers F (PRead pos n) r F ∧ shows st' F).
Proof.
  intros [Ha (v & Hs)] Hop. cbn [call_op]. unfold ovl_read_iter. pose proof Hop as (_ & Hn & _).
  destruct (Z.eqb_spec n 0) as [?|_]; [lia|]. apply fwp_assoc, fwp_bind. eapply fdget_shows; [exact Ha|exact Hs| |].
  { intros err real put st' He Hg Hs'. destruct (Z.eqb_spec err 0); [lia|]. apply fwp_mret, fwp_ret.
    split; [done|]. split; [by constructor|]. split; [done|]. by exists v. }
  intros real put st1 Hsm Hs1 Hr. cbn [negb Z.eqb]. apply fwp_assoc. eapply fwp_file; [apply Hs1|]. apply fwp_assoc.
  eapply (blocks_shows st1 v F real (PRead pos n) _ (λ a, (a.1.1, a.2))); [exact Hs1|exact Hr|exact Hop| |].
  { intros s. cbn [run_op]. by destruct (ovl_read_data _ _ _ _ _ _ s) as [[[[? ?] ?] ?]| |]. }
  intros [[ret pos'] d] st2 v2 Hg2 Hst Hs2 _. apply fwp_assoc. eapply accessed_shows; [exact Hs2|]. intros st3 v3 Hg3 Hs3.
  apply fwp_assoc. eapply (fdput_runs (u := 0)); [exact Hsm|etrans; [exact Hg2|exact Hg3]|].
  intros st4 Hg4 Hk Hf Hq. apply fwp_mret, fwp_ret. split; [done|]. split; [by constructor|]. split; [done|].
  exists v3. by eapply shows_ext, Hs3.
Qed.

Lemma write_shows st F pos d :
  shows st F → op_ok nb F (PWrite pos d) →
  fwp (call_op (PWrite pos d)) st (λ r st', ∃ F', fgrows (λ _ _, True) st st' ∧ answers F (PWrite pos d) r F' ∧ shows st' F').
Proof.
  intros [Ha (v & Hs)] Hop. cbn [call_op]. unfold ovl_write_iter. pose proof Hop as (_ & Hn & _).
  destruct (Z.eqb_spec (zlen d) 0) as [?|_]; [lia|]. apply fwp_bind. eapply fwp_file; [apply Hs|].
  eapply fwp_inode; [apply Hs..|]. apply (fwp_locked (Rw := λ _ _, True)). set (st1 := hold _ st).
  assert (shows_as st1 v F) as Hs1 by by apply shows_hold.
  assert (∀ (r : Z * Z) F' st' v', fgrows (λ _ _, True) st1 st' → answers F (PWrite pos d) (r.1, []) F' → shows_as st' v' F' →
    fgrows (λ _ _, True) st1 st' ∧ (fgrows (λ _ _, True) st (hold (k_held (x_k st)) st') →
      fwp (mret r) (hold (k_held (x_k st)) st') (λ a st2, fwp (let '(ret, _) := a in mret (ret, [])) st2 (λ r st3,
        ∃ F', fgrows (λ _ _, True) st st3 ∧ answers F (PWrite pos d) r F' ∧ shows st3 F')))) as Hend.
  { intros [ret pos'] F' st' v' Hg Hr Hs'. split; [done|]. intros Hg'. apply fwp_ret, fwp_ret. exists F'.
    split; [done|]. split; [done|]. split; [done|]. exists v'. by apply shows_hold. }
  destruct (sh_data _ _ _ Hs) as (ui & Hu & _).
  eapply copy_real_runs; [apply Hs1..|eexists; apply (upper_data_real _ _ Hu)|]. intros i vfs Hi.
  apply fwp_real. intros err w Hw. destruct (law_privs (x_w (upd_inode i (set_oi_vfs vfs (od_inode v)) st1)) p) as [Hle Hid].
  rewrite Hw in Hle, Hid. cbn in Hle.
  set (v3 := set_od_inode (set_oi_vfs vfs (od_inode v)) v). set (st3 := set_w w _).
  assert (shows_as st3 v3 F) as Hs3 by (apply shows_idle; [exact Hid|by apply shows_attrs]).
  assert (fgrows (λ _ _, True) st1 st3) as Hg3.
  { etrans; [eapply (fgrows_upd (u := 0)); [exact (proj1 Hi)|apply set_vfs_grows]|]. by apply fgrows_set_w. }
  destruct (Z.eqb_spec err 0) as [->|Hne]; cbn [negb].
  2: { apply fwp_ret. eapply Hend; [exact Hg3|apply answers_failed; cbn; lia|exact Hs3]. }
  apply fwp_bind. eapply fdget_shows; [exact Ha|exact Hs3| |].
  { intros err real put st' He Hg Hs'. destruct (Z.eqb_spec err 0); [lia|]. apply fwp_ret.
    eapply Hend; [etrans; [exact Hg3|exact Hg]|by apply answers_failed|exact Hs']. }
  intros real put st4 Hsm Hs4 Hr. cbn [negb Z.eqb].
  eapply (blocks_shows st4 v3 F real (PWrite pos d) _ (λ a, (a.1, []))); [exact Hs4|exact Hr|exact Hop| |].
  { intros s. cbn [run_op]. by destruct (ovl_write_data _ _ _ _ _ _ s) as [[[? ?] ?]| |]. }
  intros [ret pos'] st5 v5 Hg5 Hst Hs5 Hr5.
  eapply copy_real_runs; [apply Hs5..|exact Hr5|]. intros j vfs' Hj.
  eapply (fdput_runs (u := 0)); [exact Hsm|etrans; [exact Hg5|eapply (fgrows_upd (u := 0)); [exact (proj1 Hj)|apply set_vfs_grows]]|].
  intros st6 Hg6 Hk Hf Hq. apply fwp_ret. eapply Hend; [etrans; [exact Hg3|exact Hg6]|by apply answers_done|].
  eapply shows_ext; [exact Hk|exact Hf|exact Hq|]. by apply shows_attrs.
Qed.

(** Contents only grow, so what may be asked of the first may be asked later. *)
Lemma answers_longer F op r F' : answers F op r F' → op_ok nb F op → zlen F ≤ zlen F'.
Proof.
  intros [?|F0 op0 r0 F1 [|]] Hop; [done..|]. destruct Hop as (? & ? & _). rewrite zlen_fwrite by lia. lia.
Qed.
Lemma op_ok_longer F F' op : zlen F ≤ zlen F' → op_ok nb F op → op_ok nb F' op.
Proof. intros Hle. destruct op; [|done]. intros (? & ? & ? & ?). split_and!; lia. Qed.

Lemma call_ops_run ops : ∀ F st,
  shows st F → Forall (op_ok nb F) ops →
  fwp (call_ops ops) st (λ rs st', ∃ F', fgrows (λ _ _, True) st st' ∧ answers_all F ops rs F' ∧ shows st' F').
Proof.
  induction ops as [|op ops IH]; intros F st Hs Hops; cbn [call_ops].
  { apply fwp_ret. exists F. split; [done|]. split; [constructor|done]. }
  inversion Hops as [|x xs Hop Hrest E]; subst.
  assert (fwp (call_op op) st (λ r st', ∃ F', fgrows (λ _ _, True) st st' ∧ answers F op r F' ∧ shows st' F')) as Hone.
  { destruct op; [|by apply write_shows]. eapply fwp_mono; [by apply read_shows|]. intros r st' (? & ? & ?). by exists F. }
  eapply fwp_seq; [exact Hone|]. intros r st1 (F1 & Hg1 & Hr1 & Hs1).
  eapply fwp_seq; [apply (IH F1 st1 Hs1)|].
  { eapply Forall_impl; [exact Hrest|]. intros o. apply op_ok_longer. by eapply answers_longer. }
  intros rs st2 (F2 & Hg2 & Hr2 & Hs2). apply fwp_ret. exists F2. split; [by etrans|]. split; [by econstructor|done].
Qed.

(** The byte of the file a reader gets. *)
Definition visible st (i : Z) : option byte :=
  o ← inode_at st p;
  if cow_status (oi_blk o) then cow_view (vfs_bytes (x_w st) l) (vfs_bytes (x_w st) u) (oi_blk o) i
  else zget (vfs_bytes (x_w st) u) i.
Lemma shows_visible st F i : shows st F → 0 ≤ i → visible st i = zget F i.
Proof.
  intros [_ (v & [sf sv _ _ _ (_ & HL & Hb)])] Hi. unfold visible, inode_at. rewrite sv. cbn in *.
  destruct (cow_status (oi_blk (od_inode v))); [|by rewrite Hb]. destruct Hb as (_ & [_ Hv] & _). by apply Hv.
Qed.
End store.
