(* ===== verification/FileWorld.v ===== *)
(** An executable kernel for the file operations: the [layers] of [Under] and
    [Kernel] with the contents of files and a table of open files.  A dentry and
    its inode have the same pointer; nothing fails. *)

From S2P Require Import Prelude Vfs Types Util Under Block BlockRead BlockWrite Kernel Work CopyUp Dir DirOps DirProps Attr File FileStore.
From stdpp Require Import gmap.
Local Open Scope Z_scope.

(** ** The kernel of a component, with more beside it *)

Definition beside {A B C} (r : C * A) (b : B) : C * (A * B) := (r.1, (r.2, b)).
Definition beside2 {A B C D} (r : C * D * A) (b : B) : C * D * (A * B) := (r.1.1, r.1.2, (r.2, b)).

Section pair.
Context {A B : Type}.

#[export] Instance pair_under `{Under A} : Under (A * B) := {|
  vfs_getxattr w := vfs_getxattr w.1;
  vfs_setxattr w d n v fl := beside (vfs_setxattr w.1 d n v fl) w.2;
  lookup_one_len_unlocked w := lookup_one_len_unlocked w.1;
  exportfs_encode_fh w := exportfs_encode_fh w.1;
  exportfs_decode_fh w := exportfs_decode_fh w.1;
  s_uuid := s_uuid (W := A);
  mnt_sb := mnt_sb (W := A);
  mnt_root := mnt_root (W := A);
  d_sb := d_sb (W := A);
  d_can_lookup := d_can_lookup (W := A);
  d_unhashed w := d_unhashed w.1;
  is_subdir w := is_subdir w.1;
  kmalloc_ok w := kmalloc_ok w.1;
  bin2hex := bin2hex (W := A);
  hex2bin := hex2bin (W := A);
  kstrtoint := kstrtoint (W := A);
|}.
#[export] Instance pair_under_laws `{UnderLaws A} : UnderLaws (A * B).
Proof.
  split; cbn.
  all: first [intros [a x]|idtac]; cbn; try apply H0; unfold beside; cbn.
  - intros d n v fl w' [= E <-]. apply (law_setxattr_get a d n v fl). by destruct (vfs_setxattr a d n v fl); cbn in *; subst.
  - intros d n v fl w' y m <-. by apply (law_setxattr_encode a d n v fl).
  - intros d n v fl w' k <-. by apply (law_setxattr_alloc a d n v fl).
Qed.

#[export] Instance pair_kern `{Kern A} : Kern (A * B) := {|
  mnt_want_write w := beside (mnt_want_write w.1) w.2;
  mutex_lock_interruptible w i := beside (mutex_lock_interruptible w.1 i) w.2;
  rename_trap w := rename_trap w.1;
  lookup_one_len w n d := beside (lookup_one_len w.1 n d) w.2;
  real_parent w := real_parent w.1;
  vfs_create w i d m := beside2 (vfs_create w.1 i d m) w.2;
  vfs_mkdir w i d m := beside2 (vfs_mkdir w.1 i d m) w.2;
  vfs_mknod w i d m r := beside2 (vfs_mknod w.1 i d m r) w.2;
  vfs_symlink w i d s := beside2 (vfs_symlink w.1 i d s) w.2;
  vfs_whiteout w i d := beside2 (vfs_whiteout w.1 i d) w.2;
  vfs_link w o i d := beside2 (vfs_link w.1 o i d) w.2;
  vfs_tmpfile w d m := beside (vfs_tmpfile w.1 d m) w.2;
  vfs_rmdir w i d := beside (vfs_rmdir w.1 i d) w.2;
  vfs_unlink w i d := beside (vfs_unlink w.1 i d) w.2;
  vfs_rename w i o j n f := beside (vfs_rename w.1 i o j n f) w.2;
  notify_change w d a := beside (notify_change w.1 d a) w.2;
  vfs_removexattr w d n := beside (vfs_removexattr w.1 d n) w.2;
  vfs_listxattr w := vfs_listxattr w.1;
  i_op_xattr := i_op_xattr (W := A);
  vfs_getattr w := vfs_getattr w.1;
  vfs_get_link w := vfs_get_link w.1;
  inode_now w := inode_now w.1;
  inode_unhashed w := inode_unhashed w.1;
  security_inode_copy_up_xattr w := security_inode_copy_up_xattr w.1;
  security_inode_copy_up w c := beside2 (security_inode_copy_up w.1 c) w.2;
  uninitialized w := uninitialized w.1;
|}.
#[export] Instance pair_kern_laws `{KernLaws A} : KernLaws (A * B).
Proof.
  split; cbn.
  all: first [intros [a x]|idtac]; cbn; try apply H0.
Qed.

#[export] Instance pair_dir `{DirKern A} : DirKern (A * B) := {|
  current_umask w := current_umask w.1;
  IS_POSIXACL := IS_POSIXACL (W := A);
  posix_acl_create w := posix_acl_create w.1;
  posix_acl_xattr_size := posix_acl_xattr_size (W := A);
  posix_acl_to_xattr := posix_acl_to_xattr (W := A);
  prepare_creds w := prepare_creds w.1;
  security_dentry_create_files_as w := security_dentry_create_files_as w.1;
  new_inode w := new_inode w.1;
  get_next_ino w := get_next_ino w.1;
  inode_init_owner w := inode_init_owner w.1;
  racing_alias w := racing_alias w.1;
  read_dir w := read_dir w.1;
|}.
#[export] Instance pair_attr `{AttrKern A} : AttrKern (A * B) := {|
  setattr_prepare w := setattr_prepare w.1;
  i_writecount w := i_writecount w.1;
  get_write_access w i := beside (get_write_access w.1 i) w.2;
  put_write_access w i := (put_write_access w.1 i, w.2);
  posix_acl_from_xattr := posix_acl_from_xattr (W := A);
  i_op_set_acl := i_op_set_acl (W := A);
  i_op_fiemap := i_op_fiemap (W := A);
  inode_owner_or_capable w := inode_owner_or_capable w.1;
  in_group_p w := in_group_p w.1;
  capable_wrt_inode_uidgid w := capable_wrt_inode_uidgid w.1;
  get_acl w := get_acl w.1;
  touch_atime w p := (touch_atime w.1 p, w.2);
  filemap_write_and_wait w i := (filemap_write_and_wait w.1 i, w.2);
  fiemap w i s l := beside (fiemap w.1 i s l) w.2;
|}.
End pair.

(** ** Contents and open files *)

(** An open file: inode, flags, position. *)
Record ofile : Type := OFile { of_inode : Z; of_flags : Z; of_pos : Z }.
(** The file with the pointer [n] is the [n]-th of the table. *)
Record fdata : Type := FData { fd_bytes : gmap Z (list byte); fd_open : list ofile }.
Definition fworld : Type := layers * fdata.

Definition fw_bytes (w : fworld) (i : Z) : list byte := default [] (fd_bytes w.2 !! i).
Definition fw_put (w : fworld) (i : Z) (c : list byte) : fworld := (w.1, FData (<[i := c]> (fd_bytes w.2)) (fd_open w.2)).
Definition fw_file (w : fworld) (f : Z) : option ofile := zget (fd_open w.2) (f - 1).
Definition fw_add (w : fworld) (x : ofile) : Z * fworld :=
  (zlen (fd_open w.2) + 1, (w.1, FData (fd_bytes w.2) (fd_open w.2 ++ [x]))).
Definition fw_alter (g : ofile → ofile) (w : fworld) (f : Z) : fworld :=
  (w.1, FData (fd_bytes w.2) (if f <=? 0 then fd_open w.2 else alter g (Z.to_nat (f - 1)) (fd_open w.2))).
Definition fw_inode (w : fworld) (f : Z) : Z := default 0 (of_inode <$> fw_file w f).
Definition fw_flags (w : fworld) (f : Z) : Z := default 0 (of_flags <$> fw_file w f).
Definition fw_size (w : fworld) (f : Z) : Z := zlen (fw_bytes w (fw_inode w f)).

#[export] Instance fworld_vfs : Vfs fworld := {|
  vfs_isopen w f := bool_decide (is_Some (fw_file w f));
  vfs_inode := fw_inode;
  vfs_append w f := has_any (fw_flags w f) O_APPEND;
  vfs_dinode w d := d;
  vfs_bytes := fw_bytes;
  dentry_open w d fl := fw_add w (OFile d fl 0);
  vfs_iter_read w f p n := let d := zslice (fw_bytes w (fw_inode w f)) p n in (zlen d, d, w);
  vfs_iter_write w f p d :=
    let q := if has_any (fw_flags w f) O_APPEND then fw_size w f else p in
    (zlen d, q + zlen d, fw_put w (fw_inode w f) (fwrite (fw_bytes w (fw_inode w f)) q d));
  do_clone_file_range w fi pi fo po n := (- EOPNOTSUPP, w);
  do_splice_direct w fi pi fo po n :=
    let d := zslice (fw_bytes w (fw_inode w fi)) pi n in
    (zlen d, fw_put w (fw_inode w fo) (fwrite (fw_bytes w (fw_inode w fo)) po d));
  signal_pending w := (false, w);
|}.

Definition fw_seek (w : fworld) (f off whence : Z) : Z :=
  if whence =? SEEK_CUR then default 0 (of_pos <$> fw_file w f) + off
  else if whence =? 2 then fw_size w f + off else off.
#[export] Instance fworld_files : FileKern fworld := {|
  open_with_fake_path w d fl i c := fw_add w (OFile (i_ptr i) fl 0);
  file_flags := fw_flags;
  set_file_flags w f n := fw_alter (λ x, OFile (of_inode x) n (of_pos x)) w f;
  file_pos w f := default 0 (of_pos <$> fw_file w f);
  set_file_pos w f n := fw_alter (λ x, OFile (of_inode x) (of_flags x) n) w f;
  is_append_only _ _ := false;
  has_direct_io _ _ := true;
  check_flags _ _ := None;
  vfs_llseek w f off whence :=
    let n := fw_seek w f off whence in (n, fw_alter (λ x, OFile (of_inode x) (of_flags x) n) w f);
  vfs_fsync_range w _ _ _ _ := (0, w);
  has_mmap _ _ := true;
  call_mmap w _ := (0, w);
  vfs_fallocate w f _ off len :=
    (0, fw_put w (fw_inode w f)
          (fw_bytes w (fw_inode w f) ++ replicate (Z.to_nat (off + len - fw_size w f)) x00));
  vfs_fadvise w _ _ _ _ := (0, w);
  vfs_ioctl w _ _ _ := (0, w);
  vfs_copy_range w _ fi pi fo po len _ :=
    let d := zslice (fw_bytes w (fw_inode w fi)) pi len in
    (zlen d, fw_put w (fw_inode w fo) (fwrite (fw_bytes w (fw_inode w fo)) po d));
  file_remove_privs w _ := (0, w);
  touch_file w _ := w;
  mnt_want_write_file _ _ := 0;
  capable_immutable _ := true;
  get_user_flags _ _ := Some 0;
  copy_fsx_xflags _ _ := Some 0;
|}.

(** ** It keeps the contracts *)

Section laws.
Implicit Types (w : fworld) (c d : list byte).

Lemma fw_bytes_put w i c j : fw_bytes (fw_put w i c) j = if decide (i = j) then c else fw_bytes w j.
Proof.
  unfold fw_bytes, fw_put. cbn. case_decide; subst; [by rewrite lookup_insert_eq|by rewrite lookup_insert_ne].
Qed.
Lemma fw_put_set w i c : set_bytes w (fw_put w i c) i c.
Proof. split; cbn -[fw_put fw_bytes]; [|intros j Hj]; rewrite fw_bytes_put; by case_decide. Qed.
Lemma fw_put_same w i : same_bytes w (fw_put w i (fw_bytes w i)).
Proof. intros j. cbn -[fw_put fw_bytes]. rewrite fw_bytes_put. by case_decide; subst. Qed.
Lemma fw_put_frame w i c : vfs_frame w (fw_put w i c).
Proof. by split. Qed.

Lemma fw_file_add w x f y : fw_file w f = Some y → fw_file (fw_add w x).2 f = Some y.
Proof.
  unfold fw_file, fw_add, zget. cbn. case_decide; [|done]. intros Hl. by apply lookup_app_l_Some.
Qed.
Lemma fw_file_new w x : fw_file (fw_add w x).2 (zlen (fd_open w.2) + 1) = Some x.
Proof.
  unfold fw_file, fw_add, zget. cbn. unfold zlen. case_decide; [|lia].
  replace (Z.to_nat _) with (length (fd_open w.2)) by lia. by apply list_lookup_middle.
Qed.
Lemma fw_add_frame w x : vfs_frame w (fw_add w x).2.
Proof.
  split; cbn -[fw_add].
  - intros f [y Hy]%bool_decide_eq_true. rewrite (fw_file_add _ x _ _ Hy). by apply bool_decide_eq_true; eexists.
  - intros f [y Hy]%bool_decide_eq_true. unfold fw_inode. by rewrite (fw_file_add _ x _ _ Hy), Hy.
  - intros f [y Hy]%bool_decide_eq_true. unfold fw_flags. by rewrite (fw_file_add _ x _ _ Hy), Hy.
  - done.
Qed.
Lemma fw_add_open w x :
  vfs_isopen (fw_add w x).2 (zlen (fd_open w.2) + 1) = true ∧
  vfs_inode (fw_add w x).2 (zlen (fd_open w.2) + 1) = of_inode x ∧
  fw_flags (fw_add w x).2 (zlen (fd_open w.2) + 1) = of_flags x.
Proof.
  cbn -[fw_add]. unfold fw_inode, fw_flags. rewrite fw_file_new. split_and!; [|done..].
  by apply bool_decide_eq_true; eexists.
Qed.
Lemma fw_file_alter g w f f' :
  fw_file (fw_alter g w f) f' = if decide (f = f') then g <$> fw_file w f' else fw_file w f'.
Proof.
  unfold fw_file, fw_alter, zget. cbn. destruct (Z.leb_spec f 0).
  - repeat case_decide; try done; lia.
  - case_decide; [|by case_decide]. destruct (decide (f = f')) as [->|Hn].
    + by rewrite list_lookup_alter_eq.
    + rewrite list_lookup_alter_ne by lia. done.
Qed.
Lemma fw_alter_idle g w f : (∀ x, of_inode (g x) = of_inode x) → idle w (fw_alter g w f).
Proof.
  intros Hg. split; [|by intros i]. split; [|done]. intros f' [y Hy]%bool_decide_eq_true. cbn -[fw_alter].
  unfold fw_inode. rewrite fw_file_alter, Hy. case_decide; cbn; by rewrite ?Hg.
Qed.
Lemma fw_put_touches w i c : touches i w (fw_put w i c).
Proof. split; [apply frame_calm, fw_put_frame|]. apply fw_put_set. Qed.
Lemma fw_len_pos w : 0 < zlen (fd_open w.2) + 1.
Proof. unfold zlen. lia. Qed.

#[export] Instance fworld_laws : VfsLaws fworld.
Proof.
  split; cbn -[fw_put fw_add fw_bytes].
  - intros w d fl r w' [= <- <-]. destruct (fw_add_open w (OFile d fl 0)) as (Ho & Hi & _). pose proof (fw_len_pos w).
    split_and!; [apply fw_add_frame|by intros i|by left|]. by intros _.
  - intros w f p n r d w' [= <- <- <-] Hp Hn. rewrite zlen_zslice by lia. split_and!; [by split|by intros i|lia| |].
    + intros _. split; [|done]. rewrite <- zlen_zslice by lia. by apply zslice_clip.
    + unfold i_size; cbn -[fw_bytes]. lia.
  - intros w f p d r p' w' [= <- <- <-] Hp. split_and!; [apply fw_put_frame|lia| | |].
    + intros Hr. rewrite (zlen_nil_inv d) by lia. assert (∀ c q, fwrite c q [] = c) as -> by done. apply fw_put_same.
    + intros Hr ->. lia.
    + intros Hr. split; [done|]. assert (ztake (zlen d) d = d) as -> by (unfold ztake; apply firstn_all2; unfold zlen; lia). apply fw_put_set.
  - intros w fi pi fo po n r w' [= <- <-] ? ? ?. split_and!; [by split|by intros _ i|]. unfold EOPNOTSUPP. lia.
  - intros w fi pi fo po n r w' [= <- <-] ? ? ?. rewrite zlen_zslice by lia. split_and!; [apply fw_put_frame|lia| | |].
    + intros Hr. rewrite (zlen_nil_inv (zslice _ pi n)) by (rewrite zlen_zslice by lia; lia). apply fw_put_same.
    + unfold i_size; cbn -[fw_bytes]. lia.
    + intros Hr. unfold i_size; cbn -[fw_put fw_bytes]. split; [lia|].
      rewrite (zslice_clip _ pi n), zlen_zslice by lia. apply fw_put_set.
  - intros w b w' [= <- <-]. split; [by split|by intros i].
Qed.
#[export] Instance fworld_reliable : VfsReliable fworld.
Proof.
  split; cbn -[fw_put fw_add fw_bytes].
  - intros. apply fw_len_pos.
  - unfold i_size; cbn -[fw_bytes]. intros. rewrite zlen_zslice by lia. lia.
  - intros. rewrite zlen_zslice by lia. lia.
  - done.
  - unfold i_size; cbn -[fw_bytes]. intros. rewrite zlen_zslice by lia. lia.
  - intros. rewrite zlen_zslice by lia. lia.
  - done.
Qed.
#[export] Instance fworld_file_laws : FileLaws fworld.
Proof.
  assert (∀ w, idle w w) as Hid by done.
  split; cbn -[fw_put fw_add fw_bytes fw_alter]; try done.
  - intros w d fl i c r w' [= <- <-]. destruct (fw_add_open w (OFile (i_ptr i) fl 0)) as (Ho & Hi & Hf).
    split; [split; [apply frame_calm, fw_add_frame|by intros j]|]. intros _. split_and!; [exact Ho|exact Hi|exact (f_equal (λ n, has_any n O_APPEND) Hf)].
  - intros w f n. split; [by apply fw_alter_idle|]. intros [y Hy]%bool_decide_eq_true. unfold fw_flags.
    by rewrite fw_file_alter, decide_True, Hy.
  - intros. by apply fw_alter_idle.
  - intros. by apply fw_alter_idle.
  - intros. apply fw_put_touches.
  - intros. apply fw_put_touches.
Qed.
End laws.
