(* ===== verification/Action.v ===== *)
(** A state monad with faults over any type of states, for components that keep
    a state around the one of [Kernel], and its weakest preconditions. *)

From S2P Require Import Prelude Kernel.

Definition action (S A : Type) : Type := S → outcome (A * S).
#[global] Typeclasses Opaque action.

#[export] Instance action_ret {S} : MRet (action S) := λ A a st, Ret (a, st).
#[export] Instance action_bind {S} : MBind (action S) := λ A B f m st,
  match m st with Ret (a, st) => f a st | Fault => Fault | NoFuel => NoFuel end.

Definition aget {S A} (f : S → A) : action S A := λ st, Ret (f st, st).
Definition aset {S} (f : S → S) : action S unit := λ st, Ret (tt, f st).
Definition afault {S A} : action S A := λ _, Fault.
Definition anofuel {S A} : action S A := λ _, NoFuel.
Definition aderef {S A} (p : option A) : action S A := match p with Some a => mret a | None => afault end.

(** A computation on a part of the state. *)
Definition zoom {S T A} (get : S → T) (set : T → S → S) (m : T → outcome (A * T)) : action S A := λ st,
  match m (get st) with Ret (a, t) => Ret (a, set t st) | Fault => Fault | NoFuel => NoFuel end.

(** The computation returns, and [Q] holds then. *)
Definition awp {S A} (m : action S A) (st : S) (Q : A → S → Prop) : Prop :=
  match m st with Ret (a, st') => Q a st' | _ => False end.

Section awp.
Context {S : Type}.
Implicit Types (st : S).

Lemma awp_ret {A} (a : A) st (Q : A → S → Prop) : Q a st → awp (mret a) st Q.
Proof. done. Qed.
Lemma awp_bind {A B} (m : action S A) (f : A → action S B) st Q :
  awp m st (λ a st', awp (f a) st' Q) → awp (m ≫= f) st Q.
Proof. unfold awp, mbind, action_bind. by destruct (m st) as [[a st']| |]. Qed.
Lemma awp_mono {A} (m : action S A) st (Q Q' : A → S → Prop) :
  awp m st Q → (∀ a st', Q a st' → Q' a st') → awp m st Q'.
Proof. unfold awp. destruct (m st) as [[a st']| |]; [|done..]. intros HQ HQ'. by apply HQ'. Qed.
Lemma awp_seq {A B} (m : action S A) (f : A → action S B) st (R : A → S → Prop) Q :
  awp m st R → (∀ a st', R a st' → awp (f a) st' Q) → awp (m ≫= f) st Q.
Proof. intros Hm Hf. apply awp_bind. by eapply awp_mono. Qed.
Lemma awp_run {A} (m : action S A) st Q :
  awp m st Q → ∃ a st', m st = Ret (a, st') ∧ Q a st'.
Proof. unfold awp. destruct (m st) as [[a st']| |]; [|done..]. intros HQ. by exists a, st'. Qed.
Lemma awp_assoc {A B C} st (m : action S A) (f : A → action S B) (g : B → action S C) Q :
  awp (m ≫= λ a, f a ≫= g) st Q → awp ((m ≫= f) ≫= g) st Q.
Proof. unfold awp, mbind, action_bind. by destruct (m st) as [[a st']| |]. Qed.
Lemma awp_assoc_r {A B C} st (m : action S A) (f : A → action S B) (g : B → action S C) Q :
  awp ((m ≫= f) ≫= g) st Q → awp (m ≫= λ a, f a ≫= g) st Q.
Proof. unfold awp, mbind, action_bind. by destruct (m st) as [[a st']| |]. Qed.
Lemma awp_get {A B} st (g : S → A) (f : A → action S B) Q : awp (f (g st)) st Q → awp (aget g ≫= f) st Q.
Proof. done. Qed.
Lemma awp_set {B} st g (f : unit → action S B) Q : awp (f tt) (g st) Q → awp (aset g ≫= f) st Q.
Proof. done. Qed.
Lemma awp_mret {A B} st (a : A) (f : A → action S B) Q : awp (f a) st Q → awp (mret a ≫= f) st Q.
Proof. done. Qed.
Lemma awp_deref {A B} st (p : option A) a (f : A → action S B) Q :
  p = Some a → awp (f a) st Q → awp (aderef p ≫= f) st Q.
Proof. by intros ->. Qed.

(** A computation of [Kernel] on the kernel's part of the state. *)
Section zoom.
Context {W : Type} (get : S → kst W) (set : kst W → S → S).
Lemma awp_zoom {A B} (m : kernel W A) (f : A → action S B) st Q :
  wp m (get st) (λ a k, awp (f a) (set k st) Q) → awp (zoom get set m ≫= f) st Q.
Proof. unfold awp, wp, mbind, action_bind, zoom. by destruct (m (get st)) as [[a k]| |]. Qed.
Lemma awp_zoom_end {A} (m : kernel W A) st Q :
  wp m (get st) (λ a k, Q a (set k st)) → awp (zoom get set m) st Q.
Proof. unfold awp, wp, zoom. by destruct (m (get st)) as [[a k]| |]. Qed.
End zoom.
End awp.
