(* ===== verification/DirFile.v ===== *)
(** readdir.c: open directories and the caches of their entries.  A cache is an
    object on a heap: it belongs to an overlay inode, which may forget it while
    open files still read it, and it is freed by hand - by the last file that
    puts it, or, when no file counts it, with the inode. *)

From S2P Require Import Prelude Vfs Types Util Under Nlink Fh Redirect Inode Block Readdir Lookup Kernel Work CopyUp Dir DirOps Attr Export File Action.
From stdpp Require Import gmap.
Local Open Scope Z_scope.

(** ** State *)

(** struct ovl_dir_cache: the entries are named by their index in [dc_heap]. *)
Record dcache : Type := DCache {
  dc_refcount : Z;
  dc_version : Z;
  dc_heap : list centry;
  dc_list : list nat;
  dc_root : rbtree;
}.
Definition set_dc_refcount (n : Z) (c : dcache) : dcache := DCache n (dc_version c) (dc_heap c) (dc_list c) (dc_root c).
Definition set_dc_version (n : Z) (c : dcache) : dcache := DCache (dc_refcount c) n (dc_heap c) (dc_list c) (dc_root c).
Definition set_dc_entries (h : list centry) (l : list nat) (root : rbtree) (c : dcache) : dcache :=
  DCache (dc_refcount c) (dc_version c) h l root.
Definition set_dc_entry (q : nat) (e : centry) (c : dcache) : dcache :=
  set_dc_entries (<[q := e]> (dc_heap c)) (dc_list c) (dc_root c) c.
Definition dc_entries (c : dcache) : list centry := omap (λ q, dc_heap c !! q) (dc_list c).

(** struct file and struct ovl_dir_file; the cursor is the position in the
    list of entries, its length for the head of the list, [None] for NULL. *)
Record odfile : Type := ODFile {
  df_dentry : Z;
  df_pos : Z;
  od_is_real : bool;
  od_is_upper : bool;
  od_cache : Z;
  od_cursor : option nat;
  od_realfile : Z;
  od_upperfile : Z;
}.
Definition set_df_pos (n : Z) (f : odfile) : odfile :=
  ODFile (df_dentry f) n (od_is_real f) (od_is_upper f) (od_cache f) (od_cursor f) (od_realfile f) (od_upperfile f).
Definition set_od_is_real (b : bool) (f : odfile) : odfile :=
  ODFile (df_dentry f) (df_pos f) b (od_is_upper f) (od_cache f) (od_cursor f) (od_realfile f) (od_upperfile f).
Definition set_od_cache (c : Z) (cur : option nat) (f : odfile) : odfile :=
  ODFile (df_dentry f) (df_pos f) (od_is_real f) (od_is_upper f) c cur (od_realfile f) (od_upperfile f).
Definition set_od_upperfile (r : Z) (f : odfile) : odfile :=
  ODFile (df_dentry f) (df_pos f) (od_is_real f) (od_is_upper f) (od_cache f) (od_cursor f) (od_realfile f) r.

(** The overlay, its open directories, the heap of caches, the [cache] of each
    inode of a directory (no entry is NULL), the references to real files, and
    whether a WARN_ON has fired. *)
Record dstate (W : Type) : Type := DSt {
  y_k : kst W;
  y_files : gmap Z odfile;
  y_caches : gmap Z dcache;
  y_icache : gmap Z Z;
  y_refs : list Z;
  y_warned : bool;
}.
Arguments DSt {W}. Arguments y_k {W}. Arguments y_files {W}. Arguments y_caches {W}. Arguments y_icache {W}.
Arguments y_refs {W}. Arguments y_warned {W}.
Definition set_y_k {W} k (st : dstate W) : dstate W :=
  DSt k (y_files st) (y_caches st) (y_icache st) (y_refs st) (y_warned st).
Definition set_y_files {W} f (st : dstate W) : dstate W :=
  DSt (y_k st) f (y_caches st) (y_icache st) (y_refs st) (y_warned st).
Definition set_y_caches {W} c (st : dstate W) : dstate W :=
  DSt (y_k st) (y_files st) c (y_icache st) (y_refs st) (y_warned st).
Definition set_y_icache {W} m (st : dstate W) : dstate W :=
  DSt (y_k st) (y_files st) (y_caches st) m (y_refs st) (y_warned st).
Definition set_y_refs {W} r (st : dstate W) : dstate W :=
  DSt (y_k st) (y_files st) (y_caches st) (y_icache st) r (y_warned st).
Definition set_y_warned {W} b (st : dstate W) : dstate W :=
  DSt (y_k st) (y_files st) (y_caches st) (y_icache st) (y_refs st) b.

(** What the actor of a dir_context is given - the entry and its offset, after
    those it has taken - and whether it takes it. *)
Definition diractor : Type := list (Z * dirent) → Z * dirent → bool.

Class DirFileKern (W : Type) : Type := {
  (** kzalloc: of a struct ovl_dir_file, and of a cache beside those at the
      addresses in use, whose address or NULL it returns *)
  kzalloc_od : W → bool;
  kzalloc_cache : W → gset Z → Z;
  (** iterate_dir of a real directory from its f_pos: the entries the actor has
      taken, the position, the result *)
  iterate_real : W → Z → diractor → list (Z * dirent) * Z * Z * W;
  (** vfs_getattr of an overlay dentry, which ends in ovl_getattr *)
  overlay_getattr : kst W → Z → Z * kstat;
}.

Section dirfile.
Context {W : Type} `{Vfs W, Under W, Kern W, DirKern W, FileKern W, ExportKern W, DirFileKern W, RbLib}.
Context (kmalloc : list centry → string → bool).

#[local] Abbreviation dirs := (action (dstate W)).

Definition kern {A} (m : kernel W A) : dirs A := zoom y_k set_y_k m.
Definition dir_w {A} (f : W → A * W) : dirs A := kern (on_w f).

(** Every access to a cache is to one that has not been freed. *)
Definition dir_file (p : Z) : dirs odfile := f ← aget (λ st, y_files st !! p); aderef f.
Definition update_dir_file (p : Z) (g : odfile → odfile) : dirs unit :=
  f ← dir_file p; aset (λ st, set_y_files (<[p := g f]> (y_files st)) st).
Definition cache_at (c : Z) : dirs dcache := x ← aget (λ st, y_caches st !! c); aderef x.
Definition update_cache (c : Z) (g : dcache → dcache) : dirs unit :=
  x ← cache_at c; aset (λ st, set_y_caches (<[c := g x]> (y_caches st)) st).
Definition kfree_cache (c : Z) : dirs unit :=
  _ ← cache_at c; aset (λ st, set_y_caches (delete c (y_caches st)) st).

Definition WARN_ON (b : bool) : dirs unit := aset (λ st, set_y_warned (y_warned st || b) st).
Definition get_real (r : Z) : dirs unit := aset (λ st, set_y_refs (r :: y_refs st) st).
Definition put_real (r : Z) : dirs unit :=
  l ← aget (λ st, remove1 r (y_refs st)); l ← aderef l; aset (set_y_refs l).

(** ** The cache of an inode *)

Definition d_inode_of (d : Z) : dirs Z := e ← kern (dent d); mret (dn_inode e).
Definition ovl_dir_cache (i : Z) : dirs Z := aget (λ st, default NULL (y_icache st !! i)).
Definition ovl_set_dir_cache (i c : Z) : dirs unit :=
  aset (λ st, set_y_icache (if c =? NULL then delete i (y_icache st) else <[i := c]> (y_icache st)) st).
Definition ovl_dentry_version_get (d : Z) : dirs Z := v ← kern (oview d); mret (oi_version (od_inode v)).
Definition ovl_dir_is_real (d : Z) : dirs bool :=
  v ← kern (oview d); mret (negb (ovl_test_flag OVL_WHITEOUTS (od_inode v))).

Definition ovl_cache_free (c : Z) : dirs unit := update_cache c (λ x, set_dc_entries [] [] (dc_root x) x).
Definition ovl_dir_cache_free (i : Z) : dirs unit :=
  c ← ovl_dir_cache i;
  if c =? NULL then mret tt else ovl_cache_free c;; kfree_cache c.

Definition ovl_cache_put (p : Z) : dirs unit :=
  f ← dir_file p;
  let c := od_cache f in
  cache ← cache_at c;
  WARN_ON (dc_refcount cache <=? 0);;
  update_cache c (λ x, set_dc_refcount (dc_refcount x - 1) x);;
  cache ← cache_at c;
  if negb (dc_refcount cache =? 0) then mret tt else
  i ← d_inode_of (df_dentry f);
  cur ← ovl_dir_cache i;
  (if cur =? c then ovl_set_dir_cache i NULL else mret tt);;
  ovl_cache_free c;;
  kfree_cache c.

Definition ovl_dir_reset (p : Z) : dirs unit :=
  f ← dir_file p;
  let c := od_cache f in
  (if c =? NULL then mret tt else
   version ← ovl_dentry_version_get (df_dentry f);
   cache ← cache_at c;
   if version =? dc_version cache then mret tt else
   ovl_cache_put p;;
   update_dir_file p (set_od_cache NULL None));;
  is_real ← ovl_dir_is_real (df_dentry f);
  if Bool.eqb (od_is_real f) is_real then mret tt else
  WARN_ON is_real;;
  if is_real then mret tt else update_dir_file p (set_od_is_real false).

(** The entries of the layers, merged (rdd.dentry is the directory). *)
Definition read_merged (d : Z) : dirs (Z * rdd) :=
  kern (v ← oview d;
        ask (λ st, ovl_dir_read_merged kmalloc
          (Some (RdDentry (ovl_xino_bits (k_ofs st)) (ovl_test_flag OVL_IMPURE (od_inode v))))
          (merged_dirs (k_w st) v))).
Definition ovl_seek_cursor (p pos : Z) : dirs unit :=
  f ← dir_file p;
  cache ← cache_at (od_cache f);
  update_dir_file p (set_od_cache (od_cache f) (Some (Readdir.ovl_seek_cursor (dc_list cache) pos))).

(** A new cache, zeroed; NULL if there is no memory. *)
Definition alloc_cache (refcount : Z) : dirs Z :=
  c ← aget (λ st, kzalloc_cache (k_w (y_k st)) (dom (y_caches st)));
  (if c =? NULL then mret tt
   else aset (λ st, set_y_caches (<[c := DCache refcount 0 [] [] RBNil]> (y_caches st)) st));;
  mret c.

Definition ovl_cache_get (d : Z) : dirs Z :=
  i ← d_inode_of d;
  c ← ovl_dir_cache i;
  version ← ovl_dentry_version_get d;
  hit ← (if c =? NULL then mret false else cache ← cache_at c; mret (version =? dc_version cache));
  if hit : bool then
    cache ← cache_at c;
    WARN_ON (dc_refcount cache =? 0);;
    update_cache c (λ x, set_dc_refcount (dc_refcount x + 1) x);;
    mret c
  else
    ovl_set_dir_cache i NULL;;
    c ← alloc_cache 1;
    if c =? NULL then mret (- ENOMEM) else
    '(res, r) ← read_merged d;
    update_cache c (set_dc_entries (r_heap r) (r_list r) (r_root r));;
    if negb (res =? 0) then ovl_cache_free c;; kfree_cache c;; mret res else
    version ← ovl_dentry_version_get d;
    update_cache c (set_dc_version version);;
    ovl_set_dir_cache i c;;
    mret c.

(** ** Inode numbers *)

(** The error and the entry with its inode number. *)
Definition ovl_cache_update_ino (d : Z) (p : centry) : dirs (Z * centry) :=
  ofs ← aget (λ st, k_ofs (y_k st));
  let xinobits := ovl_xino_bits ofs in
  let out (err ino : Z) : dirs (Z * centry) := mret (err, set_ce_ino ino p) in
  if (ovl_same_sb ofs =? NULL) && (xinobits =? 0) then out 0 (ce_real_ino p) else
  this ← (if is_dot (ce_name p) then mret (PPtr d)
          else if is_dotdot (ce_name p) then e ← kern (dent d); mret (PPtr (dn_parent e))
          else kern (overlay_lookup_one_len (ce_name p) d));
  match this with
  | PErr err => out err (ce_real_ino p)
  | PNull => out 0 (ce_real_ino p)
  | PPtr this =>
      e ← kern (dent this);
      if dn_inode e =? NULL then out 0 (ce_real_ino p) else
      v ← kern (oview this);
      let type := ovl_path_type v in
      if OVL_TYPE_ORIGIN type then
        '(err, stat) ← aget (λ st, overlay_getattr (y_k st) this);
        if negb (err =? 0) then out err (ce_real_ino p) else out 0 (st_ino stat)
      else if negb (xinobits =? 0) && negb (OVL_TYPE_UPPER type) then
        l ← aderef (ovl_layer_lower v);
        out 0 (ovl_remap_lower_ino (ce_real_ino p) xinobits (l_fsid l))
      else out 0 (ce_real_ino p)
  end.

(** ** Impure directories: the entries whose inode number is not the real one *)

(** The entries left, those kept so far, their tree. *)
Fixpoint impure_loop (d : Z) (l : list nat) (h : list centry) (kept : list nat) (root : rbtree)
    : dirs (Z * (list centry * list nat * rbtree)) :=
  match l with
  | [] => mret (0, (h, kept, root))
  | q :: l' =>
      p ← aderef (h !! q);
      '(err, p) ← (if is_dot (ce_name p) || is_dotdot (ce_name p) then mret (0, p) else ovl_cache_update_ino d p);
      let h := <[q := p]> h in
      if negb (err =? 0) then mret (err, (h, kept ++ l, root)) else
      if ce_ino p =? ce_real_ino p then impure_loop d l' h kept root else
      let '(found, link) := ovl_cache_entry_find_link root (ce_name p) in
      if found : bool then WARN_ON true;; mret (- EIO, (h, kept ++ l, root)) else
      impure_loop d l' h (kept ++ [q]) (rb_insert_color (link (RBNode RBNil q (ce_name p) RBNil)))
  end.

Definition ovl_dir_read_impure (d : Z) : dirs (Z * (list centry * list nat * rbtree)) :=
  v ← kern (oview d);
  upper ← aderef (ovl_dentry_upper v);
  '(err, r) ← aget (λ st, ovl_dir_read false (ovl_fill_plain None kmalloc) (read_dir (k_w (y_k st)) upper) rdd_empty);
  if negb (err =? 0) then mret (err, (r_heap r, r_list r, RBNil)) else
  impure_loop d (r_list r) (r_heap r) [] RBNil.

Definition ovl_cache_get_impure (d : Z) : dirs Z :=
  i ← d_inode_of d;
  c ← ovl_dir_cache i;
  version ← ovl_dentry_version_get d;
  hit ← (if c =? NULL then mret false else cache ← cache_at c; mret (version =? dc_version cache));
  if hit : bool then mret c else
  ovl_dir_cache_free i;;
  ovl_set_dir_cache i NULL;;
  c ← alloc_cache 0;
  if c =? NULL then mret (- ENOMEM) else
  '(res, (h, l, root)) ← ovl_dir_read_impure d;
  update_cache c (set_dc_entries h l root);;
  if negb (res =? 0) then ovl_cache_free c;; kfree_cache c;; mret res else
  if bool_decide (l = []) then
    err ← kern ovl_want_write;
    (if negb (err =? 0) then mret tt else
     v ← kern (oview d);
     upper ← aderef (ovl_dentry_upper v);
     kern (ovl_do_removexattr upper OVL_XATTR_IMPURE);;
     kern ovl_drop_write);;
    kern (modify_dinode d (ovl_clear_flag OVL_IMPURE));;
    kfree_cache c;;
    mret NULL
  else
    version ← ovl_dentry_version_get d;
    update_cache c (set_dc_version version);;
    ovl_set_dir_cache i c;;
    mret c.

(** ** Iterating: the result, the position and what the actor has taken *)

Definition ovl_is_impure_dir (f : odfile) : dirs bool :=
  v ← kern (oview (df_dentry f)); mret (od_is_upper f && ovl_test_flag OVL_IMPURE (od_inode v)).

(** The inode number of an entry in the cache at [c]. *)
Definition impure_ino (caches : gmap Z dcache) (c : Z) (name : string) : option Z :=
  x ← caches !! c; q ← ovl_cache_entry_find (dc_root x) name; ce_ino <$> dc_heap x !! q.

Definition iterate_plain (p : Z) (fill : dirent → dirent) (actor : diractor) : dirs (Z * Z * list (Z * dirent)) :=
  f ← dir_file p;
  let fill_at (x : Z * dirent) := (x.1, fill x.2) in
  '(taken, pos, err) ← dir_w (λ w,
    let '(taken, pos, err, w) := iterate_real w (od_realfile f) (λ taken x, actor (fill_at <$> taken) (fill_at x)) in
    (taken, pos, err, w));
  mret (err, pos, fill_at <$> taken).

Definition ovl_iterate_real (p pos : Z) (actor : diractor) : dirs (Z * Z * list (Z * dirent)) :=
  f ← dir_file p;
  let dir := df_dentry f in
  v ← kern (oview dir);
  ofs ← aget (λ st, k_ofs (y_k st));
  let xinobits := ovl_xino_bits ofs in
  let fsid := if negb (xinobits =? 0) then match ovl_layer_lower v with Some l => l_fsid l | None => 0 end else 0 in
  e ← kern (dent dir);
  parent ← kern (oview (dn_parent e));
  '(err, parent_ino) ← (if OVL_TYPE_MERGE (ovl_path_type parent)
                        then '(err, stat) ← aget (λ st, overlay_getattr (y_k st) (dn_parent e)); mret (err, st_ino stat)
                        else mret (0, 0));
  if negb (err =? 0) then mret (err, pos, []) else
  impure ← ovl_is_impure_dir f;
  c ← (if impure : bool then ovl_cache_get_impure dir else mret NULL);
  if IS_ERR c then mret (PTR_ERR c, pos, []) else
  find ← aget (λ st, if c =? NULL then None else Some (impure_ino (y_caches st) c));
  iterate_plain p (λ x, Dirent (de_name x) (ovl_fill_real parent_ino find xinobits fsid (de_name x) (de_ino x)) (de_type x)) actor.

(** The loop over the cached entries; [n] bounds the entries that are left. *)
Fixpoint iterate_cached (n : nat) (p pos : Z) (actor : diractor) (taken : list (Z * dirent))
    : dirs (Z * Z * list (Z * dirent)) :=
  f ← dir_file p;
  cursor ← aderef (od_cursor f);
  cache ← cache_at (od_cache f);
  match dc_list cache !! cursor with
  | None => mret (0, pos, taken)
  | Some q =>
      match n with
      | O => anofuel
      | S n =>
          let next (taken : list (Z * dirent)) : dirs (Z * Z * list (Z * dirent)) :=
            update_dir_file p (set_od_cache (od_cache f) (Some (S cursor)));;
            iterate_cached n p (pos + 1) actor taken in
          e ← aderef (dc_heap cache !! q);
          if ce_is_whiteout e then next taken else
          '(err, e) ← (if ce_ino e =? 0 then
                         '(err, e) ← ovl_cache_update_ino (df_dentry f) e;
                         update_cache (od_cache f) (set_dc_entry q e);;
                         mret (err, e)
                       else mret (0, e));
          if negb (err =? 0) then mret (err, pos, taken) else
          let x := (pos, Dirent (ce_name e) (ce_ino e) (ce_type e)) in
          if negb (actor taken x) then mret (0, pos, taken) else next (taken ++ [x])
      end
  end.

Definition ovl_iterate (p pos : Z) (actor : diractor) : dirs (Z * Z * list (Z * dirent)) :=
  (if pos =? 0 then ovl_dir_reset p else mret tt);;
  f ← dir_file p;
  let dentry := df_dentry f in
  if od_is_real f then
    ofs ← aget (λ st, k_ofs (y_k st));
    e ← kern (dent dentry);
    parent ← kern (oview (dn_parent e));
    impure ← ovl_is_impure_dir f;
    if negb (ovl_xino_bits ofs =? 0) ||
       (negb (ovl_same_sb ofs =? NULL) && (impure || OVL_TYPE_MERGE (ovl_path_type parent)))
    then ovl_iterate_real p pos actor
    else iterate_plain p id actor
  else
    err ← (if negb (od_cache f =? NULL) then mret 0 else
           c ← ovl_cache_get dentry;
           if IS_ERR c then mret (PTR_ERR c) else
           update_dir_file p (set_od_cache c (od_cursor f));;
           ovl_seek_cursor p pos;;
           mret 0);
    if negb (err =? 0) then mret (err, pos, []) else
    f ← dir_file p;
    cache ← cache_at (od_cache f);
    iterate_cached (length (dc_list cache)) p pos actor [].

(** ** The other operations of an open directory *)

Definition file_inode_of (d : Z) : dirs inode := v ← kern (oview d); mret (oi_vfs (od_inode v)).

Definition ovl_dir_llseek (p offset origin : Z) : dirs Z :=
  f ← dir_file p;
  i ← file_inode_of (df_dentry f);
  kern (inode_lock i);;
  (if df_pos f =? 0 then ovl_dir_reset p else mret tt);;
  f ← dir_file p;
  res ← (if od_is_real f then
           res ← dir_w (λ w, vfs_llseek w (od_realfile f) offset origin);
           pos ← aget (λ st, file_pos (k_w (y_k st)) (od_realfile f));
           update_dir_file p (set_df_pos pos);;
           mret res
         else
           entries ← (if od_cache f =? NULL then mret None
                      else cache ← cache_at (od_cache f); mret (Some (dc_list cache)));
           let '(res, pos, cursor) := Readdir.ovl_dir_llseek entries (df_pos f) offset origin (default O (od_cursor f)) in
           update_dir_file p (set_df_pos pos);;
           (if od_cache f =? NULL then mret tt else update_dir_file p (set_od_cache (od_cache f) (Some cursor)));;
           mret res);
  kern (inode_unlock i);;
  mret res.

(** [others] is what happens between opening the upper directory and taking
    the lock. *)
Definition ovl_dir_fsync (others : dirs unit) (p start end_ : Z) (datasync : bool) : dirs Z :=
  f ← dir_file p;
  v ← kern (oview (df_dentry f));
  if negb (OVL_TYPE_UPPER (ovl_path_type v)) then mret 0 else
  r ← (if od_is_upper f then mret (inr (od_realfile f)) else
       if negb (od_upperfile f =? NULL) then mret (inr (od_upperfile f)) else
       ofs ← aget (λ st, k_ofs (y_k st));
       realfile ← dir_w (λ w, ovl_path_open w (ovl_path_upper ofs v) O_RDONLY);
       (if IS_ERR realfile then mret tt else get_real realfile);;
       others;;
       i ← file_inode_of (df_dentry f);
       kern (inode_lock i);;
       f ← dir_file p;
       r ← (if od_upperfile f =? NULL then
              if IS_ERR realfile then mret (inl (PTR_ERR realfile))
              else update_dir_file p (set_od_upperfile realfile);; mret (inr realfile)
            else
              (if IS_ERR realfile then mret tt else put_real realfile);;
              mret (inr (od_upperfile f)));
       kern (inode_unlock i);;
       mret r);
  match r with
  | inl err => mret err
  | inr realfile => dir_w (λ w, vfs_fsync_range w realfile start end_ datasync)
  end.

Definition ovl_dir_release (p : Z) : dirs Z :=
  f ← dir_file p;
  (if od_cache f =? NULL then mret tt else
   i ← file_inode_of (df_dentry f);
   kern (inode_lock i);;
   ovl_cache_put p;;
   kern (inode_unlock i));;
  put_real (od_realfile f);;
  (if od_upperfile f =? NULL then mret tt else put_real (od_upperfile f));;
  aset (λ st, set_y_files (delete p (y_files st)) st);;
  mret 0.

(** The file [p], of the overlay dentry [d]; it is open when 0 is returned. *)
Definition ovl_dir_open (p d flags : Z) : dirs Z :=
  alloc ← aget (λ st, kzalloc_od (k_w (y_k st)));
  if negb alloc then mret (- ENOMEM) else
  v ← kern (oview d);
  ofs ← aget (λ st, k_ofs (y_k st));
  let '(type, realpath) := ovl_path_real ofs v in
  realfile ← dir_w (λ w, ovl_path_open w realpath flags);
  if IS_ERR realfile then mret (PTR_ERR realfile) else
  get_real realfile;;
  is_real ← ovl_dir_is_real d;
  aset (λ st, set_y_files (<[p := ODFile d 0 is_real (OVL_TYPE_UPPER type) NULL None realfile NULL]> (y_files st)) st);;
  mret 0.
End dirfile.
