(* ===== verification/DirFileRead.v ===== *)
(** What reading directories into a cache gives: entries that the list and the
    tree of the cache find, and proper error numbers. *)

From S2P Require Import Prelude Vfs Types Util Under Nlink Fh Redirect Inode Block Readdir ReaddirTree Lookup Kernel KernelProps Work CopyUp WorkProps CopyUpSteps CopyUpProps Dir DirSteps DirOps Attr Export ExportSteps File Action DirFile.
From stdpp Require Import gmap.
Local Open Scope Z_scope.

Definition errno_ok (err : Z) : Prop := err = 0 ∨ IS_ERR err = true.
Lemma errno_err err : errno_ok err → err ≠ 0 → IS_ERR err = true.
Proof. by intros [|]. Qed.

(** The dentry has a real object. *)
Definition present (v : odentry) : Prop := is_Some (ovl_dentry_upper v) ∨ oe_lowerstack (od_entry v) ≠ [].

(** What the directory files rely on: an address is free or NULL, errors are
    error numbers, and a dentry that a lookup finds has a real object. *)
Class DirFileLaws (W : Type) `{Vfs W, DirKern W, ExportKern W, DirFileKern W} : Prop := {
  law_kzalloc w s : kzalloc_cache w s = NULL ∨ (0 < kzalloc_cache w s ∧ kzalloc_cache w s ∉ s);
  law_read_dir w d : errno_ok (li_lock (read_dir w d)) ∧ Forall (λ b, 0 ≤ b.2 ∨ IS_ERR b.2 = true) (li_batches (read_dir w d));
  law_read_names w d : let names := de_name <$> concat (li_batches (read_dir w d)).*1 in NoDup names ∧ Forall no_nul names;
  law_real_open w d fl : 0 < (dentry_open w d fl).1 ∨ IS_ERR (dentry_open w d fl).1 = true;
  law_overlay_getattr (st : kst W) d : errno_ok (overlay_getattr st d).1;
  law_lookup_present (st : kst W) name d v : ok st → view_at st d = Some v →
    wp (overlay_lookup_one_len name d) st (λ r st',
      (∀ x v', r = PPtr x → view_at st' x = Some v' → present v') ∧ (∀ e, r = PErr e → IS_ERR e = true));
}.

(** ** Indices of entries *)

Definition in_heap (h : list centry) (l : list nat) : Prop := Forall (λ q, (q < length h)%nat) l.
Lemma in_heap_app h l l' : in_heap h (l ++ l') ↔ in_heap h l ∧ in_heap h l'.
Proof. apply Forall_app. Qed.
Lemma in_heap_grow h h' l : (length h ≤ length h')%nat → in_heap h l → in_heap h' l.
Proof. intros Hle Hl. eapply Forall_impl; [exact Hl|]. cbn. lia. Qed.

Section indices.
Context `{RbLib, !RbLaws} (dentry : option rd_dentry) (kmalloc : list centry → string → bool).
Implicit Types (r : rdd).

Record indexed (r : rdd) : Prop := {
  ix_list : in_heap (r_heap r) (r_list r);
  ix_middle : in_heap (r_heap r) (r_middle r);
  ix_root : in_heap (r_heap r) (inorder (r_root r)).*1;
}.

Lemma find_inorder t name p : ovl_cache_entry_find t name = Some p → p ∈ (inorder t).*1.
Proof.
  induction t as [|l IHl q n r IHr]; [done|]. cbn. intros Hf. rewrite fmap_app, fmap_cons. apply elem_of_app.
  destruct (0 <? _); [right; apply elem_of_cons; right; auto|].
  destruct (_ || _); [left; auto|]. injection Hf as ->. right. apply elem_of_cons. by left.
Qed.
Lemma link_inorder root name t : ∀ found link, ovl_cache_entry_find_link root name = (found, link) →
  ∀ x, x ∈ inorder (link t) → x ∈ inorder root ∨ x ∈ inorder t.
Proof.
  induction root as [|l IHl q n r IHr]; intros found link; cbn; [intros [= <- <-]; by right|].
  destruct (0 <? _); [|destruct (_ || _)].
  - destruct (ovl_cache_entry_find_link r name) as [f k]. intros [= <- <-] x. cbn.
    specialize (IHr _ _ eq_refl x). rewrite !elem_of_app, !elem_of_cons. tauto.
  - destruct (ovl_cache_entry_find_link l name) as [f k]. intros [= <- <-] x. cbn.
    specialize (IHl _ _ eq_refl x). rewrite !elem_of_app, !elem_of_cons. tauto.
  - intros [= <- <-] x. by right.
Qed.
Lemma insert_in_heap h root name p found link :
  ovl_cache_entry_find_link root name = (found, link) →
  in_heap h (inorder root).*1 → (p < length h)%nat →
  in_heap h (inorder (rb_insert_color (link (RBNode RBNil p name RBNil)))).*1.
Proof.
  intros Hl Hr Hp. rewrite law_rb_insert_color. apply Forall_fmap, Forall_forall. intros x Hx.
  destruct (link_inorder _ _ _ _ _ Hl x Hx) as [Hx'|Hx'].
  - apply (Forall_forall (λ q, (q < length h)%nat) (inorder root).*1) with (x := x.1) in Hr; [exact Hr|].
    by apply list_elem_of_fmap_2.
  - cbn in Hx'. apply list_elem_of_singleton in Hx' as ->. exact Hp.
Qed.

(** What a change of an [rdd] keeps. *)
Definition indexes r r' : Prop := indexed r → indexed r'.
Lemma entry_new_indexed r n i t p r' :
  ovl_cache_entry_new dentry kmalloc r n i t = (p, r') → indexed r →
  indexed r' ∧ ∀ q, p = Some q → (q < length (r_heap r'))%nat.
Proof.
  unfold ovl_cache_entry_new. case_match; [intros [= <- <-]; done|]. intros [= <- <-] [Hl Hm Hr]. cbn.
  split; [|intros q [= <-]; rewrite length_app; cbn; lia].
  split; cbn; eapply in_heap_grow; [|done| |done| |done]; rewrite length_app; lia.
Qed.
Lemma del_in_heap h p l : in_heap h l → in_heap h (list_del p l).
Proof. intros Hl. apply Forall_forall. intros q Hq. unfold list_del in Hq. apply list_elem_of_filter in Hq as [_ Hq]. by eapply Forall_forall in Hl. Qed.

Lemma fill_merge_indexed e r : indexes r (ovl_fill_merge dentry kmalloc e r).2.
Proof.
  intros Hr. unfold ovl_fill_merge. cbv zeta. set (r1 := rdd_status _ _ r). assert (indexed r1) as Hi by by destruct Hr.
  clearbody r1. clear r Hr. destruct (negb _).
  - unfold ovl_cache_entry_add_rb. destruct (ovl_cache_entry_find_link _ _) as [found link] eqn:El.
    destruct found; [done|]. destruct (ovl_cache_entry_new _ _ _ _ _ _) as [p r2] eqn:En.
    destruct (entry_new_indexed _ _ _ _ _ _ En Hi) as [He2 Hp].
    assert (r_root r2 = r_root r1) as Hroot.
    { revert En. unfold ovl_cache_entry_new. by case_match; intros [= <- <-]. }
    destruct p as [p|]; cbn; [|by destruct He2]. specialize (Hp p eq_refl). destruct He2 as [Hl Hm Ht]. split; cbn.
    + apply in_heap_app. split; [done|by constructor].
    + done.
    + eapply insert_in_heap; [exact El|by rewrite <- Hroot|done].
  - unfold ovl_fill_lowest. destruct (ovl_cache_entry_find _ _) as [p|] eqn:Ef.
    + cbn. destruct Hi as [Hl Hm Ht]. split; cbn; [by apply del_in_heap| |done].
      apply in_heap_app. split; [by apply del_in_heap|]. constructor; [|done].
      apply find_inorder in Ef. by eapply Forall_forall in Ht.
    + destruct (ovl_cache_entry_new _ _ _ _ _ _) as [p r2] eqn:En.
      destruct (entry_new_indexed _ _ _ _ _ _ En Hi) as [[Hl Hm Ht] Hp].
      destruct p as [p|]; cbn; [|by split]. specialize (Hp p eq_refl). split; cbn; [done| |done].
      apply in_heap_app. split; [done|by constructor].
Qed.
Lemma fill_plain_indexed e r : indexes r (ovl_fill_plain dentry kmalloc e r).2.
Proof.
  intros Hr. unfold ovl_fill_plain. cbv zeta. set (r1 := rdd_status _ _ r). assert (indexed r1) as Hi by by destruct Hr.
  clearbody r1. destruct (ovl_cache_entry_new _ _ _ _ _ _) as [p r2] eqn:En.
  destruct (entry_new_indexed _ _ _ _ _ _ En Hi) as [[Hl Hm Ht] Hp].
  destruct p as [p|]; cbn; [|by split]. specialize (Hp p eq_refl). split; cbn; [|done..].
  apply in_heap_app. split; [done|by constructor].
Qed.
End indices.

(** ** Reading with an actor that keeps the indices *)

Section read.
Context (actor : dirent → rdd → Z * rdd).
Context (Hactor : ∀ e r, indexes r (actor e r).2).
Context (Herr : ∀ e r, errno_ok (r_err r) → errno_ok (r_err (actor e r).2)).
Implicit Types (r : rdd).

Lemma iterate_indexed es : ∀ r, indexed r → errno_ok (r_err r) →
  indexed (iterate_dir actor es r) ∧ errno_ok (r_err (iterate_dir actor es r)).
Proof.
  induction es as [|e es IH]; intros r Hr He; [done|]. cbn. pose proof (Hactor e r Hr) as Hi. pose proof (Herr e r He) as He2.
  destruct (actor e r) as [x r1]. case_match; [done|by apply IH].
Qed.
Lemma read_loop_indexed bs : Forall (λ b : list dirent * Z, 0 ≤ b.2 ∨ IS_ERR b.2 = true) bs → ∀ r, indexed r →
  indexed (dir_read_loop actor bs r).2 ∧ errno_ok (dir_read_loop actor bs r).1.
Proof.
  induction 1 as [|[es ret] bs Hb Hbs IH]; intros r Hr; [by split; [destruct Hr|left]|]. cbn.
  destruct (iterate_indexed es (rdd_status 0 0 r)) as [Hi He2]; [by destruct Hr|by left|].
  set (r1 := iterate_dir _ _ _) in *. case_match; [by apply IH|]. split; [done|]. cbn.
  destruct (Z.leb_spec 0 ret); [done|]. right. destruct Hb as [Hb|]; [cbn in Hb; lia|done].
Qed.
Lemma check_whiteouts_length lk chain : ∀ h, length (check_whiteouts_loop lk chain h) = length h.
Proof.
  induction chain as [|p chain IH]; intros h; [done|]. cbn. rewrite IH.
  destruct (h !! p); [|done]. destruct (lk _); [|done]. apply length_insert.
Qed.
Lemma dir_read_indexed b l r :
  errno_ok (li_lock l) → Forall (λ b : list dirent * Z, 0 ≤ b.2 ∨ IS_ERR b.2 = true) (li_batches l) → indexed r →
  indexed (ovl_dir_read b actor l r).2 ∧ errno_ok (ovl_dir_read b actor l r).1.
Proof.
  intros Hlk Hbs Hr. unfold ovl_dir_read. case_match eqn:Ho; [by split; [|right]|].
  destruct (read_loop_indexed _ Hbs (rdd_heap (r_heap r) [] r)) as [Hi He2]; [by destruct Hr|].
  destruct (dir_read_loop _ _ _) as [err r1]. case_match; [|done]. unfold ovl_check_whiteouts. cbv zeta.
  case_match; [|done]. split; [|done]. destruct Hi as [Hl Hm Ht].
  split; cbn; (apply (in_heap_grow (r_heap r1)); [by rewrite check_whiteouts_length|done]).
Qed.
End read.

Section merged.
Context {W : Type} `{Vfs W, DirKern W, ExportKern W, DirFileKern W, !DirFileLaws W, RbLib, !RbLaws}.
Context (kmalloc : list centry → string → bool).

Lemma entry_new_err dentry (r : rdd) n i t : r_err (ovl_cache_entry_new dentry kmalloc r n i t).2 = r_err r.
Proof. unfold ovl_cache_entry_new. by case_match. Qed.
Lemma fill_merge_err dentry e (r : rdd) :
  errno_ok (r_err r) → errno_ok (r_err (ovl_fill_merge dentry kmalloc e r).2).
Proof.
  intros He. unfold ovl_fill_merge, ovl_cache_entry_add_rb, ovl_fill_lowest. cbv zeta.
  set (r1 := rdd_status _ _ r). assert (errno_ok (r_err r1)) as Hi by done. clearbody r1.
  pose proof (entry_new_err dentry r1 (de_name e) (de_ino e) (de_type e)) as Hn.
  destruct (ovl_cache_entry_new _ _ _ _ _ _) as [[p|] r2]; cbn in Hn;
    repeat case_match; simplify_eq; cbn; try (by rewrite Hn); try done; by right.
Qed.
Lemma fill_plain_err dentry e (r : rdd) :
  errno_ok (r_err r) → errno_ok (r_err (ovl_fill_plain dentry kmalloc e r).2).
Proof.
  intros He. unfold ovl_fill_plain. cbv zeta.
  set (r1 := rdd_status _ _ r). assert (errno_ok (r_err r1)) as Hi by done. clearbody r1.
  pose proof (entry_new_err dentry r1 (de_name e) (de_ino e) (de_type e)) as Hn.
  destruct (ovl_cache_entry_new _ _ _ _ _ _) as [[p|] r2]; cbn in Hn |- *; [by rewrite Hn|by right].
Qed.

Lemma empty_indexed : indexed rdd_empty.
Proof. split; constructor. Qed.

Lemma read_plain_indexed w d r err :
  ovl_dir_read false (ovl_fill_plain None kmalloc) (read_dir w d) rdd_empty = (err, r) → indexed r ∧ errno_ok err.
Proof.
  intros Hr. destruct (law_read_dir w d) as [Hlk Hbs].
  pose proof (dir_read_indexed (ovl_fill_plain None kmalloc) (fill_plain_indexed None kmalloc) (fill_plain_err None)
    false (read_dir w d) rdd_empty Hlk Hbs empty_indexed) as Hread. by rewrite Hr in Hread.
Qed.

Definition good_layer (l : layer_in) : Prop :=
  errno_ok (li_lock l) ∧ Forall (λ b : list dirent * Z, 0 ≤ b.2 ∨ IS_ERR b.2 = true) (li_batches l).
Lemma merged_loop_indexed dentry layers : Forall (λ x : bool * layer_in, good_layer x.2) layers → ∀ r, indexed r →
  indexed (dir_read_merged_loop kmalloc dentry layers r).2 ∧ errno_ok (dir_read_merged_loop kmalloc dentry layers r).1.
Proof.
  induction 1 as [|[up l] layers [Hlk Hbs] Hls IH]; intros r Hr; [by split; [|left]|].
  pose proof (dir_read_indexed (ovl_fill_merge dentry kmalloc) (fill_merge_indexed dentry kmalloc) (fill_merge_err dentry)) as Hread.
  cbn in Hlk, Hbs. cbn [dir_read_merged_loop]. cbv zeta. set (has := match dentry with Some _ => true | None => false end).
  destruct layers as [|x layers].
  - destruct (Hread has l (rdd_lists (r_root r) (r_list r) [] (rdd_layer up true r)) Hlk Hbs) as [Hi He2];
      [destruct Hr; split; [done|constructor|done]|].
    destruct (ovl_dir_read _ _ _ _) as [err r1]. split; [|done]. destruct Hi as [Hl Hm Ht].
    split; cbn; [by apply in_heap_app|constructor|done].
  - destruct (Hread has l (rdd_layer up false r) Hlk Hbs) as [Hi He2]; [by destruct Hr|].
    destruct (ovl_dir_read _ _ _ _) as [err r1]. case_match; [done|]. by apply IH.
Qed.
Lemma merged_dirs_good w v : Forall (λ x, good_layer x.2) (merged_dirs w v).
Proof.
  unfold merged_dirs. apply Forall_app. split.
  - case_match; [|done]. constructor; [|done]. apply law_read_dir.
  - apply Forall_fmap, Forall_forall. intros x _. apply law_read_dir.
Qed.
Lemma read_merged_indexed dentry w v err r :
  ovl_dir_read_merged kmalloc dentry (merged_dirs w v) = (err, r) → in_heap (r_heap r) (r_list r) ∧ errno_ok err.
Proof.
  intros Hr. destruct (merged_loop_indexed dentry _ (merged_dirs_good w v) rdd_empty empty_indexed) as [Hi He2].
  unfold ovl_dir_read_merged in Hr. rewrite Hr in Hi, He2. by split; [apply Hi|].
Qed.

(** The entries of one directory, unmerged: they have different names. *)
Definition plain_names (r r' : rdd) (l : list dirent) : Prop :=
  ∃ ns, ns `sublist_of` (de_name <$> l) ∧ ce_name <$> r_heap r' = (ce_name <$> r_heap r) ++ ns ∧
    r_list r' = r_list r ++ seq (length (r_heap r)) (length ns).
Lemma plain_names_refl r r' l : r_heap r' = r_heap r → r_list r' = r_list r → plain_names r r' l.
Proof. intros Hh Hl. exists []. rewrite Hh, Hl, !app_nil_r. split; [apply sublist_nil_l|done]. Qed.
Lemma plain_names_trans r r1 r2 l l' : plain_names r r1 l → plain_names r1 r2 l' → plain_names r r2 (l ++ l').
Proof.
  intros (n1 & Hs1 & Hh1 & Hl1) (n2 & Hs2 & Hh2 & Hl2). exists (n1 ++ n2). rewrite fmap_app. split_and!.
  - by apply sublist_app.
  - by rewrite Hh2, Hh1, app_assoc.
  - assert (length (r_heap r1) = (length (r_heap r) + length n1)%nat) as Hlen
      by (apply (f_equal length) in Hh1; rewrite length_app, !length_fmap in Hh1; done).
    by rewrite Hl2, Hl1, Hlen, length_app, seq_app, app_assoc.
Qed.
Lemma fill_plain_names e r : plain_names r (ovl_fill_plain None kmalloc e r).2 [e].
Proof.
  unfold ovl_fill_plain, ovl_cache_entry_new. cbv zeta. destruct (kmalloc _ _); cbn; [|by apply plain_names_refl].
  exists [de_name e]. split_and!; [done|by cbn; rewrite fmap_app|done].
Qed.
Lemma iterate_plain_names es : ∀ r, plain_names r (iterate_dir (ovl_fill_plain None kmalloc) es r) es.
Proof.
  induction es as [|e es IH]; intros r; [by apply plain_names_refl|]. cbn. pose proof (fill_plain_names e r) as Hn.
  destruct (ovl_fill_plain None kmalloc e r) as [x r1]. cbn in Hn. case_match.
  - destruct Hn as (ns & Hs & ?). exists ns. split; [|done]. etrans; [exact Hs|]. cbn. apply sublist_skip, sublist_nil_l.
  - apply (plain_names_trans _ r1 _ [e]); [done|apply IH].
Qed.
Lemma loop_plain_names bs : ∀ r, plain_names r (dir_read_loop (ovl_fill_plain None kmalloc) bs r).2 (concat bs.*1).
Proof.
  induction bs as [|[es ret] bs IH]; intros r; [by apply plain_names_refl|]. cbn.
  pose proof (iterate_plain_names es (rdd_status 0 0 r)) as Hn. set (r1 := iterate_dir _ _ _) in *.
  case_match; [eapply plain_names_trans; [exact Hn|apply IH]|].
  destruct Hn as (ns & Hs & ?). exists ns. split; [|done]. etrans; [exact Hs|]. rewrite fmap_app. by apply sublist_inserts_r.
Qed.
Lemma read_plain_names w d r err :
  ovl_dir_read false (ovl_fill_plain None kmalloc) (read_dir w d) rdd_empty = (err, r) →
  NoDup (ce_name <$> r_heap r) ∧ Forall no_nul (ce_name <$> r_heap r) ∧ r_list r = seq 0 (length (r_heap r)).
Proof.
  unfold ovl_dir_read. destruct (IS_ERR _); [intros [= <- <-]; cbn; split_and!; constructor|].
  pose proof (loop_plain_names (li_batches (read_dir w d)) (rdd_heap (r_heap rdd_empty) [] rdd_empty)) as Hn.
  destruct (dir_read_loop _ _ _) as [e r1]. rewrite andb_false_r. intros [= <- <-].
  destruct Hn as (ns & Hs & Hh & Hl). cbn in Hh, Hl. destruct (law_read_names w d) as [Hnd Hnn].
  rewrite Hh. split_and!; [by eapply sublist_NoDup|apply Forall_forall; intros x Hx; rewrite Forall_forall in Hnn; apply Hnn; eapply elem_of_submseteq; [exact Hx|by apply sublist_submseteq]|].
  rewrite Hl. f_equal. apply (f_equal length) in Hh. by rewrite length_fmap in Hh.
Qed.
End merged.
