(* ===== verification/DirFileInv.v ===== *)
(** The invariant of open directories and their caches: the reference count of
    a cache is the number of files that hold it, a cache without references is
    the one of an inode that no file holds a cache of, every cache is held or
    belongs to an inode, and what a merged cache shows was read from the layers
    when the directory had the version the cache has. *)

From S2P Require Import Prelude Vfs Types Util Under Nlink Fh Redirect Inode Block Readdir ReaddirProps Lookup Kernel KernelProps Work CopyUp WorkProps CopyUpSteps CopyUpProps Dir DirSteps DirOps Attr Export ExportSteps File Action DirFile DirFileRead.
From stdpp Require Import gmap.
Local Open Scope Z_scope.

(** ** How the overlay changes around an open directory *)

Record inode_lasts (o o' : ovl_inode) : Prop := {
  il_upper u : oi_upper o = Some u → oi_upper o' = Some u;
  il_whiteouts : ovl_test_flag OVL_WHITEOUTS o = true → ovl_test_flag OVL_WHITEOUTS o' = true;
  il_never : is_Some (oi_upper o) → ovl_test_flag OVL_WHITEOUTS o = false → ovl_test_flag OVL_WHITEOUTS o' = false;
}.
#[export] Instance inode_lasts_preorder : PreOrder inode_lasts.
Proof.
  split; [by split|]. intros a b c [u1 w1 n1] [u2 w2 n2]. split; [auto|auto|].
  intros [u Hu] Hw. apply n2; [exists u; by apply u1|apply n1; [by exists u|done]].
Qed.
Record odent_lasts (e e' : odent) : Prop := {
  ol_parent : dn_parent e' = dn_parent e;
  ol_inode : dn_inode e ≠ NULL → dn_inode e' = dn_inode e;
  ol_stack : oe_lowerstack (dn_entry e') = oe_lowerstack (dn_entry e);
}.
#[export] Instance odent_lasts_preorder : PreOrder odent_lasts.
Proof.
  split; [by split|]. intros a b c [p1 i1 s1] [p2 i2 s2]. split; [congruence| |congruence].
  intros Hn. rewrite i2; rewrite i1; done.
Qed.

Section lasts.
Context {W : Type}.
Implicit Types (k : kst W).

Record lasts k k' : Prop := {
  la_dents d e : k_dents k !! d = Some e → ∃ e', k_dents k' !! d = Some e' ∧ odent_lasts e e';
  la_inodes i o : k_inodes k !! i = Some o → ∃ o', k_inodes k' !! i = Some o' ∧ inode_lasts o o';
  la_ok : ok k → ok k';
}.
#[export] Instance lasts_preorder : PreOrder lasts.
Proof.
  split; [intros k; split; [by eexists|by eexists|done]|]. intros a b c [d1 i1 k1] [d2 i2 k2]. split; [| |auto].
  - intros d e He. destruct (d1 d e He) as (e' & He' & H1). destruct (d2 d e' He') as (e2 & He2 & H2). exists e2. split; [done|by etrans].
  - intros i o Ho. destruct (i1 i o Ho) as (o' & Ho' & H1). destruct (i2 i o' Ho') as (o2 & Ho2 & H2). exists o2. split; [done|by etrans].
Qed.
Lemma grows_inode_lasts ix o o' : inode_grows ix o o' → inode_lasts o o'.
Proof.
  intros Hg. split; [intros u; apply (ig_upper Hg)|apply (ig_flags Hg)|]. intros [u Hu] Hw.
  destruct (ovl_test_flag OVL_WHITEOUTS o') eqn:E; [|done]. destruct (ig_whiteouts Hg E); congruence.
Qed.
Lemma extends_lasts N k k' : extends N k k' → lasts k k'.
Proof.
  intros [_ d i _ Hok]. split; [| |done].
  - intros x e He. destruct (d x e He) as (e' & He' & Hk). exists e'. split; [done|].
    split; [apply (dk_parent _ _ Hk)|intros Hn; by apply (dk_inode _ _ Hk)|apply (eg_stack _ _ (dk_entry _ _ Hk))].
  - intros x o Ho. destruct (i x o Ho) as (o' & Ho' & Hg). exists o'. split; [done|by eapply grows_inode_lasts].
Qed.
Lemma lasts_same k k' : k_dents k' = k_dents k → k_inodes k' = k_inodes k → ofs_rel (k_ofs k) (k_ofs k') → lasts k k'.
Proof. intros Hd Hi Ho. by apply (extends_lasts nobody), extends_same. Qed.

(** An open directory and its parent have inodes and real objects. *)
Definition stands k (d : Z) (v : odentry) : Prop := view_at k d = Some v ∧ present v.
Definition open_dir k (d i : Z) : Prop :=
  ∃ e v pv, k_dents k !! d = Some e ∧ dn_inode e = i ∧ stands k d v ∧ stands k (dn_parent e) pv.

Lemma stands_lasts k k' d v : ok k → lasts k k' → stands k d v → ∃ v', stands k' d v' ∧ inode_lasts (od_inode v) (od_inode v').
Proof.
  intros Hok Hl [Hv Hp]. apply view_inv in Hv as (e & o & He & Ho & ->).
  destruct (la_dents _ _ Hl _ _ He) as (e' & He' & Hde). destruct (la_inodes _ _ Hl _ _ Ho) as (o' & Ho' & Hoo).
  exists (ODentry d (dn_name e') (dn_flags e') o' (dn_entry e')). split; [|done]. split.
  - unfold view_at, view. rewrite He'. cbn. rewrite (ol_inode _ _ Hde) by (by eapply not_null). by rewrite Ho'.
  - destruct Hp as [[u Hu]|Hs]; [left; exists u; by apply (il_upper _ _ Hoo)|right]. cbn. by rewrite (ol_stack _ _ Hde).
Qed.
Lemma open_dir_inode k d i : open_dir k d i → ∃ e o, k_dents k !! d = Some e ∧ dn_inode e = i ∧ k_inodes k !! i = Some o ∧
  view_at k d = Some (ODentry d (dn_name e) (dn_flags e) o (dn_entry e)).
Proof.
  intros (e & v & pv & He & Hi & [Hv _] & _). pose proof Hv as Hv'. apply view_inv in Hv' as (e' & o & He' & Ho & ->). simplify_eq.
  by exists e, o.
Qed.
Lemma open_dir_lasts k k' d i : ok k → lasts k k' → open_dir k d i → open_dir k' d i.
Proof.
  intros Hok Hl (e & v & pv & He & Hi & Hv & Hpv).
  destruct (stands_lasts _ _ _ _ Hok Hl Hv) as (v' & Hv' & _). destruct (stands_lasts _ _ _ _ Hok Hl Hpv) as (pv' & Hpv' & _).
  destruct (la_dents _ _ Hl _ _ He) as (e' & He' & Hde). exists e', v', pv'. split_and!; [done| |done|by rewrite (ol_parent _ _ Hde)].
  destruct Hv as [Hv _]. apply view_inv in Hv as (x & o & Hx & Ho & ->). simplify_eq.
  apply (ol_inode _ _ Hde). by eapply not_null.
Qed.

(** Forgetting that a directory is impure. *)
Lemma clear_flag_other f g o : ovl_inode_flag_bit f ≠ ovl_inode_flag_bit g →
  ovl_test_flag g (ovl_clear_flag f o) = ovl_test_flag g o.
Proof.
  intros Hn. change (ovl_test_flag g (ovl_clear_flag f o))
    with (Z.testbit (Z.clearbit (oi_flags o) (ovl_inode_flag_bit f)) (ovl_inode_flag_bit g)).
  by rewrite Z.clearbit_neq by (by destruct f).
Qed.
Lemma clear_impure_lasts k i o :
  k_inodes k !! i = Some o → lasts k (set_k_inodes (<[i := ovl_clear_flag OVL_IMPURE o]> (k_inodes k)) k).
Proof.
  intros Ho. set (k' := set_k_inodes _ k).
  assert (∀ j x, k_inodes k' !! j = Some x → ∃ y, k_inodes k !! j = Some y ∧ oi_upper x = oi_upper y ∧ oi_lower x = oi_lower y ∧
    ovl_test_flag OVL_INDEX x = ovl_test_flag OVL_INDEX y) as Hback.
  { intros j x. cbn. destruct (decide (i = j)) as [->|]; [|rewrite lookup_insert_ne by done; by exists x].
    rewrite lookup_insert_eq. intros [= <-]. exists o. split_and!; [done..|by apply (clear_flag_other OVL_IMPURE OVL_INDEX)]. }
  assert (∀ d, has_upper k d → has_upper k' d) as Hup.
  { intros d (pv & Hpv & Hu). apply view_inv in Hpv as (e & x & He & Hx & ->). unfold has_upper, view_at, view. cbn.
    rewrite He. cbn. destruct (decide (i = dn_inode e)) as [->|]; [|rewrite lookup_insert_ne, Hx by done; by eexists].
    rewrite lookup_insert_eq. simplify_eq. by eexists. }
  split.
  - intros d e He. by exists e.
  - intros j x Hx. cbn. destruct (decide (i = j)) as [->|]; [|rewrite lookup_insert_ne by done; by exists x].
    rewrite lookup_insert_eq. simplify_eq. eexists. split; [done|]. split; [done|by rewrite clear_flag_other..].
  - intros Hok. split; try apply Hok.
    + intros d e He Hn. destruct (ok_inode _ Hok d e He Hn) as [x Hx]. cbn. destruct (decide (i = dn_inode e)) as [->|];
        [by rewrite lookup_insert_eq; eexists|rewrite lookup_insert_ne by done; by eexists].
    + intros j x u Hx Hu. destruct (Hback j x Hx) as (y & Hy & Huy & _). rewrite Huy in Hu. by eapply ok_upper.
    + destruct (k_inodes k' !! NULL) as [x|] eqn:Hx; [|done]. destruct (Hback _ x Hx) as (y & Hy & _). by rewrite (ok_null _ Hok) in Hy.
    + intros j x Hx Hi. destruct (Hback j x Hx) as (y & Hy & -> & -> & Hiy). rewrite Hiy in Hi. by eapply (ok_index _ Hok).
    + intros d e x He Hx Hs. destruct (Hback _ x Hx) as (y & Hy & _ & -> & _). by eapply (ok_stack _ Hok).
    + intros d e He Ha. apply Hup. by eapply (ok_linked _ Hok).
    + intros d e x He Hx Hh Hs. destruct (Hback _ x Hx) as (y & Hy & -> & -> & _). by eapply (ok_real _ Hok).
Qed.
End lasts.

(** ** Counting the files that hold a cache *)

Section holders.
Implicit Types (m : gmap Z odfile).

Definition holds (c : Z) (f : odfile) : Z := if od_cache f =? c then 1 else 0.
Definition holders (c : Z) m : Z := Z.of_nat (size (filter (λ x : Z * odfile, od_cache x.2 = c) m)).

Lemma holders_nonneg c m : 0 ≤ holders c m.
Proof. unfold holders. lia. Qed.
Lemma holders_insert c m p f : m !! p = None → holders c (<[p := f]> m) = holds c f + holders c m.
Proof.
  intros Hp. unfold holders, holds. destruct (Z.eqb_spec (od_cache f) c) as [Hc|Hc].
  - rewrite map_filter_insert_True by done. rewrite map_size_insert_None; [lia|].
    apply map_lookup_filter_None. by left.
  - rewrite map_filter_insert_not'; [lia|done|]. intros y Hy. by rewrite Hp in Hy.
Qed.
Lemma holders_delete c m p f : m !! p = Some f → holders c m = holds c f + holders c (delete p m).
Proof.
  intros Hp. rewrite <- (insert_delete_id m p f) at 1 by done. apply holders_insert, lookup_delete_eq.
Qed.
Lemma holders_replace c m p f f' :
  m !! p = Some f → holders c (<[p := f']> m) = holders c m - holds c f + holds c f'.
Proof.
  intros Hp. rewrite (holders_delete c m p f Hp), <- insert_delete_eq, holders_insert by apply lookup_delete_eq. lia.
Qed.
Lemma holds_other c f : od_cache f ≠ c → holds c f = 0.
Proof. intros Hn. unfold holds. by apply Z.eqb_neq in Hn as ->. Qed.
Lemma holds_this f : holds (od_cache f) f = 1.
Proof. unfold holds. by rewrite Z.eqb_refl. Qed.
Lemma holders_pos m p f : m !! p = Some f → 0 < holders (od_cache f) m.
Proof. intros Hp. rewrite (holders_delete _ m p f Hp), holds_this. pose proof (holders_nonneg (od_cache f) (delete p m)). lia. Qed.
Lemma holders_some c m : 0 < holders c m → ∃ p f, m !! p = Some f ∧ od_cache f = c.
Proof.
  unfold holders. intros Hs. destruct (map_choose (filter (λ x : Z * odfile, od_cache x.2 = c) m)) as (p & f & Hp).
  { intros He. rewrite He, map_size_empty in Hs. lia. }
  apply map_lookup_filter_Some in Hp as [Hp Hc]. by exists p, f.
Qed.
End holders.

(** ** The caches *)

Section caches.
Context {W : Type} `{Vfs W, DirKern W, ExportKern W, DirFileKern W, RbLib}.
Context (kmalloc : list centry → string → bool).
(** what is known of the listing of the cache an open file holds; the position
    of the file: its f_pos, or that of a read under way *)
Context (shows : Z → list (string * bool) → Prop) (posof : Z → odfile → Z).
Implicit Types (k : kst W) (files : gmap Z odfile) (caches : gmap Z dcache) (icache : gmap Z Z).

Definition on_inode k (f : odfile) (i : Z) : Prop := ∃ e, k_dents k !! df_dentry f = Some e ∧ dn_inode e = i.

(** The entries of [x] are those the layers of a directory merged to when it
    had the version of [x]; inode numbers are found out later. *)
Definition same_listing (l l' : list centry) : Prop := set_ce_ino 0 <$> l = set_ce_ino 0 <$> l'.
Lemma same_listing_names l l' : same_listing l l' → listing l = listing l'.
Proof.
  unfold same_listing, listing. revert l'. induction l as [|e l IH]; intros [|e' l']; cbn; try done.
  intros [= Hn Ht Hri Hu Hw Hl]. by rewrite Hn, Hw, (IH l').
Qed.
Definition merged_at k (i : Z) (version : Z) (l : list centry) : Prop :=
  ∃ d v r, view_at k d = Some v ∧ (∃ e, k_dents k !! d = Some e ∧ dn_inode e = i) ∧
    oi_version (od_inode v) = version ∧
    ovl_dir_read_merged kmalloc (Some (RdDentry (ovl_xino_bits (k_ofs k)) (ovl_test_flag OVL_IMPURE (od_inode v))))
      (merged_dirs (k_w k) v) = (0, r) ∧ same_listing l (rdd_entries r).
Definition read_from k (i : Z) (x : dcache) : Prop :=
  ∃ k0, lasts k0 k ∧ merged_at k0 i (dc_version x) (dc_entries x).

(** All is well, but for a cache [gone] that is about to be freed. *)
Record caches_but (gone : option Z) k files caches icache : Prop := {
  co_pos c x : caches !! c = Some x → 0 < c;
  co_file p f : files !! p = Some f → od_cache f ≠ NULL →
    ∃ x, caches !! od_cache f = Some x ∧ od_cursor f = Some (Readdir.ovl_seek_cursor (dc_list x) (posof p f)) ∧ shows p (listing (dc_entries x));
  co_count c x : caches !! c = Some x → dc_refcount x = holders c files;
  co_icache i c : icache !! i = Some c → Some c ≠ gone → ∃ x o, caches !! c = Some x ∧ k_inodes k !! i = Some o ∧
    (dc_refcount x = 0 → is_Some (oi_upper o) ∧ ovl_test_flag OVL_WHITEOUTS o = false);
  co_live c x : caches !! c = Some x → Some c ≠ gone → 0 < dc_refcount x ∨ ∃ i, icache !! i = Some c;
  co_owner c x : caches !! c = Some x → ∃ i,
    (∀ p f, files !! p = Some f → od_cache f = c → on_inode k f i) ∧
    (∀ j, icache !! j = Some c → j = i) ∧ (0 < dc_refcount x → read_from k i x);
  co_entries c x : caches !! c = Some x → in_heap (dc_heap x) (dc_list x);
}.
Definition caches_ok := caches_but None.

Lemma on_inode_lasts k k' f i : ok k → lasts k k' → i ≠ NULL → on_inode k f i → on_inode k' f i.
Proof.
  intros Hok Hl Hn (e & He & Hi). destruct (la_dents _ _ Hl _ _ He) as (e' & He' & Hde). exists e'. split; [done|].
  rewrite (ol_inode _ _ Hde); congruence.
Qed.
Lemma caches_null gone k files caches icache : caches_but gone k files caches icache → caches !! NULL = None.
Proof. intros Hc. destruct (caches !! NULL) as [x|] eqn:E; [|done]. by apply (co_pos _ _ _ _ _ Hc) in E. Qed.

Lemma caches_lasts k k' files caches icache :
  ok k → lasts k k' → (∀ p f, files !! p = Some f → ∃ i, open_dir k (df_dentry f) i) →
  caches_ok k files caches icache → caches_ok k' files caches icache.
Proof.
  intros Hok Hl Hf [hp hf hc hi hl ho he]. split; try done.
  - intros i c Hi Hg. destruct (hi i c Hi Hg) as (x & o & Hx & Ho & Hz). destruct (la_inodes _ _ Hl _ _ Ho) as (o' & Ho' & Hoo).
    exists x, o'. split_and!; [done..|]. intros Hz0. destruct (Hz Hz0) as [[u Hu] Hw].
    split; [exists u; by apply (il_upper _ _ Hoo)|]. apply (il_never _ _ Hoo); [by exists u|done].
  - intros c x Hx. destruct (ho c x Hx) as (i & Hfi & Hii & Hr). exists i. split_and!; [|done|].
    + intros p f Hp Hcf. destruct (Hf p f Hp) as (j & Hj). pose proof (Hfi p f Hp Hcf) as Hon.
      apply (on_inode_lasts k); [done..| |done]. destruct (open_dir_inode _ _ _ Hj) as (e & o & He & Hij & Ho & _).
      destruct Hon as (e' & He' & Hie). simplify_eq. by eapply not_null.
    + intros Hz0. destruct (Hr Hz0) as (k0 & Hk0 & Hm). exists k0. split; [by etrans|done].
Qed.

(** An entry has got its inode number. *)
Lemma entry_ino_listing x q e n :
  dc_heap x !! q = Some e → same_listing (dc_entries (set_dc_entry q (set_ce_ino n e) x)) (dc_entries x).
Proof.
  intros He. unfold same_listing, dc_entries. cbn. induction (dc_list x) as [|y l IH]; [done|]. cbn.
  destruct (decide (q = y)) as [->|Hn].
  - rewrite list_lookup_insert_eq by (by eapply lookup_lt_Some). rewrite He. cbn. by rewrite IH.
  - rewrite list_lookup_insert_ne by done. destruct (dc_heap x !! y); cbn; by rewrite IH.
Qed.
Lemma caches_entry k files caches icache c x q e n :
  caches !! c = Some x → dc_heap x !! q = Some e →
  caches_ok k files caches icache → caches_ok k files (<[c := set_dc_entry q (set_ce_ino n e) x]> caches) icache.
Proof.
  intros Hx He [hp hf hc hi hl ho he]. set (x' := set_dc_entry q (set_ce_ino n e) x).
  assert (∀ c' y, <[c := x']> caches !! c' = Some y → ∃ y0, caches !! c' = Some y0 ∧ dc_refcount y = dc_refcount y0 ∧
    dc_list y = dc_list y0 ∧ length (dc_heap y) = length (dc_heap y0) ∧ dc_version y = dc_version y0 ∧ same_listing (dc_entries y) (dc_entries y0)) as Hback.
  { intros c' y. destruct (decide (c = c')) as [->|].
    - rewrite lookup_insert_eq. intros [= <-]. exists x. split_and!; [done..|apply length_insert|done|by apply entry_ino_listing].
    - rewrite lookup_insert_ne by done. by exists y. }
  assert (∀ c' y0, caches !! c' = Some y0 → ∃ y, <[c := x']> caches !! c' = Some y ∧ dc_refcount y = dc_refcount y0 ∧ dc_list y = dc_list y0 ∧
    listing (dc_entries y) = listing (dc_entries y0)) as Hforth.
  { intros c' y0 Hy. destruct (decide (c = c')) as [->|].
    - rewrite lookup_insert_eq. simplify_eq. exists x'. split_and!; [done..|]. by apply same_listing_names, entry_ino_listing.
    - rewrite lookup_insert_ne by done. by exists y0. }
  split.
  - intros c' y Hy. destruct (Hback _ _ Hy) as (y0 & Hy0 & _). by eapply hp.
  - intros p f Hp Hn. destruct (hf p f Hp Hn) as (y0 & Hy0 & Hm). destruct (Hforth _ _ Hy0) as (y & Hy & _ & Hl & Hnames).
    exists y. by rewrite Hl, Hnames.
  - intros c' y Hy. destruct (Hback _ _ Hy) as (y0 & Hy0 & -> & _). by apply hc.
  - intros i c' Hi Hg. destruct (hi i c' Hi Hg) as (y0 & o & Hy0 & Ho & Hz). destruct (Hforth _ _ Hy0) as (y & Hy & Hr & _).
    exists y, o. by rewrite Hr.
  - intros c' y Hy. destruct (Hback _ _ Hy) as (y0 & Hy0 & -> & _). by eapply hl.
  - intros c' y Hy. destruct (Hback _ _ Hy) as (y0 & Hy0 & Hr & _ & _ & Hv & Hs). destruct (ho c' y0 Hy0) as (i & Hfi & Hii & Hrd).
    exists i. split_and!; [done..|]. rewrite Hr. intros Hz0. destruct (Hrd Hz0) as (k0 & Hk0 & d & v & r & Hv0 & Hd & Hver & Hm & Hs0).
    exists k0. split; [done|]. exists d, v, r. split_and!; [done..|by rewrite Hv|done|]. unfold same_listing in *. by etrans.
  - intros c' y Hy. destruct (Hback _ _ Hy) as (y0 & Hy0 & _ & Hl & Hh & _). rewrite Hl. eapply in_heap_grow; [|by eapply he]. lia.
Qed.

(** The file [p] lets go of its cache, the last one to free it. *)
Lemma caches_put k files caches icache p f f' x :
  files !! p = Some f → caches !! od_cache f = Some x → od_cache f' = NULL → df_dentry f' = df_dentry f →
  caches_ok k files caches icache →
  caches_but (if dc_refcount x =? 1 then Some (od_cache f) else None) k (<[p := f']> files) (<[od_cache f := set_dc_refcount (dc_refcount x - 1) x]> caches) icache.
Proof.
  intros Hp Hx Hf' Hd Hok. pose proof (caches_null _ _ _ _ _ Hok) as Hnull. destruct Hok as [hp hf hc hi hl ho he].
  assert (od_cache f ≠ NULL) as Hcn by congruence.
  pose proof (holders_pos _ _ _ Hp) as Hpos. pose proof (hc _ _ Hx) as Hcx.
  assert (∀ q g, <[p := f']> files !! q = Some g → od_cache g ≠ NULL → files !! q = Some g) as Hback.
  { intros q g. destruct (decide (p = q)) as [->|]; [rewrite lookup_insert_eq; intros [= <-] ?; congruence|by rewrite lookup_insert_ne]. }
  split.
  - intros c y. destruct (decide (od_cache f = c)) as [<-|]; [rewrite lookup_insert_eq; intros _; by eapply hp|rewrite lookup_insert_ne by done; apply hp].
  - intros q g Hq Hn. destruct (hf q g (Hback q g Hq Hn) Hn) as (y & Hy & Hcur).
    destruct (decide (od_cache f = od_cache g)) as [He|].
    + rewrite <- He in Hy |- *. rewrite lookup_insert_eq. simplify_eq. by eexists.
    + rewrite lookup_insert_ne by done. by exists y.
  - intros c y Hy. rewrite (holders_replace c files p f f' Hp).
    destruct (decide (od_cache f = c)) as [<-|Hn].
    + rewrite lookup_insert_eq in Hy. injection Hy as <-. rewrite holds_this, (holds_other _ f') by congruence. cbn. lia.
    + rewrite lookup_insert_ne in Hy by done. assert (c ≠ NULL) by congruence.
      rewrite (hc c y Hy), !holds_other by congruence. lia.
  - intros i c Hi Hg. destruct (hi i c Hi) as (y & o & Hy & Ho & Hz); [done|]. destruct (decide (od_cache f = c)) as [<-|].
    + rewrite lookup_insert_eq. simplify_eq. eexists _, o. split_and!; [done..|]. cbn. intros Hz1.
      destruct (Z.eqb_spec (dc_refcount x) 1); [done|lia].
    + rewrite lookup_insert_ne by done. by exists y, o.
  - intros c y. destruct (decide (od_cache f = c)) as [<-|].
    + rewrite lookup_insert_eq. intros [= <-] Hg. left. cbn. destruct (Z.eqb_spec (dc_refcount x) 1); [done|lia].
    + rewrite lookup_insert_ne by done. intros Hy _. by apply hl.
  - intros c y Hy. assert (∃ y0, caches !! c = Some y0 ∧ (0 < dc_refcount y → 0 < dc_refcount y0) ∧ dc_version y = dc_version y0 ∧ dc_entries y = dc_entries y0) as (y0 & Hy0 & Hr & Hv & Hen).
    { destruct (decide (od_cache f = c)) as [<-|]; [rewrite lookup_insert_eq in Hy; injection Hy as <-; exists x; split_and!; [done|cbn; lia|done..]|].
      rewrite lookup_insert_ne in Hy by done. by exists y. }
    destruct (ho c y0 Hy0) as (i & Hfi & Hii & Hrd). exists i. split_and!; [|done|].
    + intros q g Hq Hcg. apply (Hfi q g); [|done]. apply Hback; [done|]. rewrite Hcg. intros ->. congruence.
    + intros Hz. unfold read_from. rewrite Hv, Hen. by apply Hrd, Hr.
  - intros c y. destruct (decide (od_cache f = c)) as [<-|].
    + rewrite lookup_insert_eq. intros [= <-]. exact (he _ _ Hx).
    + rewrite lookup_insert_ne by done. apply he.
Qed.

(** A cache that nobody counts disappears, and its inode forgets it. *)
Definition forget (icache : gmap Z Z) (i c : Z) : gmap Z Z :=
  if default NULL (icache !! i) =? c then delete i icache else icache.
Lemma caches_free gone k files caches icache c x i :
  caches_but gone k files caches icache → (∀ c', Some c' ≠ gone ∨ c' = c) → caches !! c = Some x → dc_refcount x = 0 →
  (∀ j, icache !! j = Some c → j = i) →
  caches_ok k files (delete c caches) (forget icache i c).
Proof.
  intros [hp hf hc hi hl ho he] Hgone Hx Hzero Honly. rewrite (hc _ _ Hx) in Hzero.
  assert (∀ c', c' ≠ c → Some c' ≠ gone) as Hg by (intros c' Hn; by destruct (Hgone c')).
  assert (∀ j c', forget icache i c !! j = Some c' ↔ c' ≠ c ∧ icache !! j = Some c') as Hfg.
  { intros j c'. unfold forget. pose proof (hp _ _ Hx) as Hcp. destruct (Z.eqb_spec (default NULL (icache !! i)) c) as [He|Hn].
    - destruct (icache !! i) as [ci|] eqn:Ei; cbn in He; [subst ci|unfold NULL in He; lia].
      destruct (decide (i = j)) as [->|]; [rewrite lookup_delete_eq; split; [done|intros [? ?]; congruence]|].
      rewrite lookup_delete_ne by done. split; [|tauto]. intros Hj. split; [|done]. intros ->. by apply Honly in Hj.
    - split; [|tauto]. intros Hj. split; [|done]. intros ->. pose proof (Honly _ Hj) as ->. by rewrite Hj in Hn. }
  assert (∀ c' y, delete c caches !! c' = Some y ↔ c' ≠ c ∧ caches !! c' = Some y) as Hdel.
  { intros c' y. rewrite lookup_delete_Some. naive_solver. }
  split.
  - intros c' y [_ Hy]%Hdel. by eapply hp.
  - intros p f Hp Hn. assert (od_cache f ≠ c) as Hnc by (intros <-; pose proof (holders_pos _ _ _ Hp); lia).
    destruct (hf p f Hp Hn) as (y & Hy & ?). exists y. by rewrite lookup_delete_ne by done.
  - intros c' y [Hn Hy]%Hdel. by apply hc.
  - intros j c' [Hn Hj]%Hfg _. destruct (hi j c' Hj (Hg _ Hn)) as (y & o & Hy & ?). exists y, o. by rewrite lookup_delete_ne by done.
  - intros c' y [Hn Hy]%Hdel _. destruct (hl c' y Hy (Hg _ Hn)) as [|[j Hj]]; [by left|right]. exists j. by apply Hfg.
  - intros c' y [Hn Hy]%Hdel. destruct (ho c' y Hy) as (j & Hfj & Hjj & Hr). exists j. split_and!; [done| |done].
    intros j' [_ Hj']%Hfg. by apply Hjj.
  - intros c' y [Hn Hy]%Hdel. by eapply he.
Qed.

(** The file [p] takes the cache of its inode. *)
Lemma caches_take k files caches icache p f f' c x i :
  files !! p = Some f → od_cache f = NULL → od_cache f' = c →
  od_cursor f' = Some (Readdir.ovl_seek_cursor (dc_list x) (posof p f')) → shows p (listing (dc_entries x)) →
  df_dentry f' = df_dentry f → on_inode k f i → icache !! i = Some c → caches !! c = Some x → 0 < dc_refcount x →
  caches_ok k files caches icache →
  caches_ok k (<[p := f']> files) (<[c := set_dc_refcount (dc_refcount x + 1) x]> caches) icache.
Proof.
  intros Hp Hf <- Hcur Hsh Hd Hon Hi Hx Hpos Hok. pose proof (caches_null _ _ _ _ _ Hok) as Hnull. destruct Hok as [hp hf hc hi hl ho he].
  set (x' := set_dc_refcount _ x).
  assert (∀ c' y, <[od_cache f' := x']> caches !! c' = Some y → ∃ y0, caches !! c' = Some y0 ∧ dc_version y = dc_version y0 ∧
    dc_heap y = dc_heap y0 ∧ dc_list y = dc_list y0 ∧ (0 < dc_refcount y0 ∨ dc_refcount y = dc_refcount y0) ∧ dc_refcount y = dc_refcount y0 + holds c' f') as Hback.
  { intros c' y. destruct (decide (od_cache f' = c')) as [<-|Hn].
    - rewrite lookup_insert_eq. intros [= <-]. exists x. rewrite holds_this. split_and!; [done..|by left|done].
    - rewrite lookup_insert_ne, holds_other by done. exists y. split_and!; [done..|by right|lia]. }
  assert (∀ c' y0, caches !! c' = Some y0 → ∃ y, <[od_cache f' := x']> caches !! c' = Some y ∧ dc_list y = dc_list y0 ∧ (dc_refcount y = 0 → dc_refcount y0 = 0) ∧
    dc_entries y = dc_entries y0) as Hforth.
  { intros c' y0 Hy. destruct (decide (od_cache f' = c')) as [<-|]; [rewrite lookup_insert_eq; simplify_eq; exists x'; split_and!; [done..|cbn; lia|done]|].
    rewrite lookup_insert_ne by done. by exists y0. }
  split.
  - intros c' y (y0 & Hy0 & _)%Hback. by eapply hp.
  - intros q g. destruct (decide (p = q)) as [<-|Hn].
    + rewrite lookup_insert_eq. intros [= <-] _. exists x'. by rewrite lookup_insert_eq.
    + rewrite lookup_insert_ne by done. intros Hq Hg. destruct (hf q g Hq Hg) as (y0 & Hy0 & Hm).
      destruct (Hforth _ _ Hy0) as (y & Hy & Hl & _ & Hen). exists y. by rewrite Hl, Hen.
  - intros c' y (y0 & Hy0 & _ & _ & _ & _ & ->)%Hback. rewrite (holders_replace c' files p f f' Hp), (hc _ _ Hy0).
    rewrite (holds_other c' f); [lia|]. intros Hc. congruence.
  - intros j c' Hj Hg. destruct (hi j c' Hj Hg) as (y0 & o & Hy0 & Ho & Hz). destruct (Hforth _ _ Hy0) as (y & Hy & _ & Hr & _).
    exists y, o. split_and!; [done..|]. intros Hyz. by apply Hz, Hr.
  - intros c' y (y0 & Hy0 & _ & _ & _ & Hor & Hr)%Hback Hg. destruct (hl _ _ Hy0 Hg) as [|]; [left|by right].
    rewrite Hr. unfold holds. case_match; lia.
  - intros c' y (y0 & Hy0 & Hv & Hh & Hl & Hor & Hr)%Hback. destruct (ho _ _ Hy0) as (j & Hfj & Hjj & Hrd). exists j. split_and!; [|done|].
    + intros q g. destruct (decide (p = q)) as [<-|Hn]; [|rewrite lookup_insert_ne by done; apply Hfj].
      rewrite lookup_insert_eq. intros [= <-] <-. destruct Hon as (e & He & Hie). exists e. rewrite Hd. split; [done|]. rewrite Hie. by apply Hjj.
    + intros Hz. unfold read_from, dc_entries. rewrite Hv, Hh, Hl. apply Hrd. destruct Hor; [done|lia].
  - intros c' y (y0 & Hy0 & _ & Hh & Hl & _)%Hback. rewrite Hh, Hl. by eapply he.
Qed.

(** An inode forgets a cache that files still hold. *)
Lemma caches_unset k files caches icache i :
  (∀ c x, icache !! i = Some c → caches !! c = Some x → 0 < dc_refcount x) →
  caches_ok k files caches icache → caches_ok k files caches (delete i icache).
Proof.
  intros Hheld [hp hf hc hi hl ho he]. split; try done.
  - intros j c [_ Hj]%lookup_delete_Some. by apply hi.
  - intros c x Hx Hg. destruct (hl c x Hx Hg) as [|[j Hj]]; [by left|]. destruct (decide (i = j)) as [->|].
    + left. by eapply Hheld.
    + right. exists j. by rewrite lookup_delete_ne.
  - intros c x Hx. destruct (ho c x Hx) as (j & Hfj & Hjj & Hr). exists j. split_and!; [done| |done].
    intros j' [_ Hj']%lookup_delete_Some. by apply Hjj.
Qed.

(** A new cache for the inode [i]; [held]: the file [p] takes it. *)
Lemma caches_new k files caches icache p f f' c x i o (held : bool) :
  files !! p = Some f → od_cache f = NULL → od_cache f' = (if held then c else NULL) →
  (held = true → od_cursor f' = Some (Readdir.ovl_seek_cursor (dc_list x) (posof p f')) ∧ shows p (listing (dc_entries x))) → df_dentry f' = df_dentry f → on_inode k f i → caches !! c = None → 0 < c → icache !! i = None →
  k_inodes k !! i = Some o → in_heap (dc_heap x) (dc_list x) →
  (if held then dc_refcount x = 1 ∧ read_from k i x
   else dc_refcount x = 0 ∧ is_Some (oi_upper o) ∧ ovl_test_flag OVL_WHITEOUTS o = false) →
  caches_ok k files caches icache → caches_ok k (<[p := f']> files) (<[c := x]> caches) (<[i := c]> icache).
Proof.
  intros Hp Hf Hf' Hcur Hd Hon Hc Hcp Hi Ho Hh Hx Hok. destruct Hok as [hp hf hc hi hl ho he].
  assert (∀ q g, files !! q = Some g → od_cache g ≠ c) as Hno.
  { intros q g Hq Hg. destruct (hf q g Hq) as (y & Hy & _); [unfold NULL; lia|]. congruence. }
  assert (∀ j, icache !! j ≠ Some c) as Hnoi by (intros j Hj; destruct (hi j c Hj) as (y & o' & Hy & _); [done|congruence]).
  assert (∀ q g, <[p := f']> files !! q = Some g → od_cache g ≠ NULL → (held = true ∧ g = f' ∧ q = p) ∨ files !! q = Some g ∧ q ≠ p) as Hback.
  { intros q g. destruct (decide (p = q)) as [<-|]; [rewrite lookup_insert_eq; intros [= <-] Hn; left; by destruct held|].
    rewrite lookup_insert_ne by done. intros Hq _. by right. }
  assert (holders c files = 0) as Hz.
  { pose proof (holders_nonneg c files). destruct (decide (0 < holders c files)) as [Hlt|]; [|lia].
    destruct (holders_some _ _ Hlt) as (q & g & Hq & Hg). by apply Hno in Hq. }
  split.
  - intros c' y. destruct (decide (c = c')) as [<-|]; [done|rewrite lookup_insert_ne by done; apply hp].
  - intros q g Hq Hn. destruct (Hback q g Hq Hn) as [(-> & -> & ->)|[Hq' Hqp]].
    + rewrite Hf'. exists x. rewrite lookup_insert_eq. split; [done|by apply Hcur].
    + destruct (hf q g Hq' Hn) as (y & Hy & ?). exists y. rewrite lookup_insert_ne; [done|]. intros ->. by eapply Hno.
  - intros c' y. rewrite (holders_replace c' files p f f' Hp). destruct (decide (c = c')) as [<-|Hn].
    + rewrite lookup_insert_eq. intros [= <-]. rewrite Hz, (holds_other c f) by (rewrite Hf; unfold NULL; lia).
      unfold holds. rewrite Hf'. destruct held; [rewrite Z.eqb_refl; lia|]. destruct (Z.eqb_spec NULL c); [unfold NULL in *; lia|]. lia.
    + rewrite lookup_insert_ne by done. intros Hy. rewrite (hc _ _ Hy). unfold holds. rewrite Hf, Hf'.
      pose proof (hp _ _ Hy). destruct (Z.eqb_spec NULL c'); [unfold NULL in *; lia|].
      destruct held; [|destruct (Z.eqb_spec NULL c'); [done|lia]]. destruct (Z.eqb_spec c c'); [done|lia].
  - intros j c' Hj Hg. destruct (decide (i = j)) as [<-|Hn].
    + rewrite lookup_insert_eq in Hj. injection Hj as <-. exists x, o. rewrite lookup_insert_eq. split_and!; [done..|]. destruct held; [lia|]. tauto.
    + rewrite lookup_insert_ne in Hj by done. destruct (hi j c' Hj Hg) as (y & o' & Hy & ?). exists y, o'. rewrite lookup_insert_ne; [done|congruence].
  - intros c' y. destruct (decide (c = c')) as [<-|]; [intros _ _; right; exists i; by rewrite lookup_insert_eq|].
    rewrite lookup_insert_ne by done. intros Hy Hg. destruct (hl _ _ Hy Hg) as [|[j Hj]]; [by left|right]. exists j.
    rewrite lookup_insert_ne; [done|congruence].
  - intros c' y. destruct (decide (c = c')) as [<-|Hn].
    + rewrite lookup_insert_eq. intros [= <-]. exists i. split_and!.
      * intros q g Hq Hg. destruct (Hback q g Hq) as [(-> & -> & ->)|[Hq' _]]; [rewrite Hg; unfold NULL; lia| |by apply Hno in Hq'].
        destruct Hon as (e & He & Hie). exists e. by rewrite Hd.
      * intros j. destruct (decide (i = j)); [done|]. rewrite lookup_insert_ne by done. intros Hj. by apply Hnoi in Hj.
      * intros Hlt. destruct held; [by destruct Hx|lia].
    + rewrite lookup_insert_ne by done. intros Hy. destruct (ho _ _ Hy) as (j & Hfj & Hjj & Hr). exists j. split_and!; [| |done].
      * intros q g Hq Hg. pose proof (hp _ _ Hy). destruct (Hback q g Hq) as [(-> & -> & ->)|[Hq' _]]; [rewrite Hg; unfold NULL; lia|congruence|by apply (Hfj q g)].
      * intros j'. destruct (decide (i = j')) as [<-|]; [rewrite lookup_insert_eq; congruence|]. rewrite lookup_insert_ne by done. apply Hjj.
  - intros c' y. destruct (decide (c = c')) as [<-|]; [rewrite lookup_insert_eq; by intros [= <-]|rewrite lookup_insert_ne by done; apply he].
Qed.

(** A file without a cache appears or disappears. *)
Lemma caches_open k files caches icache p f :
  files !! p = None → od_cache f = NULL → caches_ok k files caches icache → caches_ok k (<[p := f]> files) caches icache.
Proof.
  intros Hp Hf Hok. pose proof (caches_null _ _ _ _ _ Hok) as Hnull. destruct Hok as [hp hf hc hi hl ho he].
  assert (∀ q g, <[p := f]> files !! q = Some g → od_cache g ≠ NULL → files !! q = Some g) as Hback.
  { intros q g. destruct (decide (p = q)) as [<-|]; [rewrite lookup_insert_eq; by intros [= <-]|by rewrite lookup_insert_ne]. }
  split; try done.
  - intros q g Hq Hn. by apply (hf q g (Hback q g Hq Hn)).
  - intros c x Hx. rewrite (holders_insert c files p f Hp), (holds_other c f) by congruence. by rewrite (hc _ _ Hx).
  - intros c x Hx. destruct (ho _ _ Hx) as (i & Hfi & Hii & Hr). exists i. split_and!; [|done..].
    intros q g Hq Hg. apply (Hfi q g); [|done]. apply Hback; [done|congruence].
Qed.
Lemma caches_close k files caches icache p f :
  files !! p = Some f → od_cache f = NULL → caches_ok k files caches icache → caches_ok k (delete p files) caches icache.
Proof.
  intros Hp Hf Hok. pose proof (caches_null _ _ _ _ _ Hok) as Hnull. destruct Hok as [hp hf hc hi hl ho he]. split; try done.
  - intros q g [_ Hq]%lookup_delete_Some. exact (hf q g Hq).
  - intros c x Hx. rewrite (hc _ _ Hx), (holders_delete c files p f Hp), (holds_other c f) by congruence. lia.
  - intros c x Hx. destruct (ho _ _ Hx) as (i & Hfi & Hii & Hr). exists i. split_and!; [|done..].
    intros q g [_ Hq]%lookup_delete_Some. exact (Hfi q g Hq).
Qed.
End caches.

(** Only the position of a file has changed. *)
Lemma caches_cursor {W} `{Vfs W, DirKern W, ExportKern W, DirFileKern W, RbLib} kmalloc (shows shows' : Z → list (string * bool) → Prop) posof posof' (k : kst W) files caches icache p f f' :
  files !! p = Some f → od_cache f' = od_cache f → df_dentry f' = df_dentry f →
  (∀ q g, q ≠ p → files !! q = Some g → od_cache g ≠ NULL → posof' q g = posof q g) → (∀ q l, q ≠ p → shows q l → shows' q l) →
  (∀ x, od_cache f ≠ NULL → caches !! od_cache f = Some x → shows p (listing (dc_entries x)) →
     od_cursor f' = Some (Readdir.ovl_seek_cursor (dc_list x) (posof' p f')) ∧ shows' p (listing (dc_entries x))) →
  caches_ok kmalloc shows posof k files caches icache → caches_ok kmalloc shows' posof' k (<[p := f']> files) caches icache.
Proof.
  intros Hp Hcf Hdf Hpos Hsh Hcur [hp hf hc hi hl ho he].
  assert (∀ q g, <[p := f']> files !! q = Some g → ∃ g0, files !! q = Some g0 ∧ od_cache g = od_cache g0 ∧ df_dentry g = df_dentry g0 ∧ (g = g0 ∧ q ≠ p ∨ q = p ∧ g = f' ∧ g0 = f)) as Hback.
  { intros q g. destruct (decide (p = q)) as [->|]; [rewrite lookup_insert_eq; intros [= <-]; exists f; split_and!; [done..|by right]|].
    rewrite lookup_insert_ne by done. exists g. split_and!; [done..|by left]. }
  split; try done.
  - intros q g Hq Hn. destruct (Hback q g Hq) as (g0 & Hg0 & Hc0 & _ & [[-> Hqp]|(-> & -> & ->)]).
    + destruct (hf q g0 Hg0 Hn) as (x & Hx & Hcu & Hs). exists x. rewrite (Hpos q g0 Hqp Hg0 Hn). split_and!; [done..|by apply Hsh].
    + rewrite Hcf in Hn |- *. destruct (hf p f Hp Hn) as (x & Hx & _ & Hs). exists x. split; [done|]. by apply Hcur.
  - intros c x Hx. rewrite (holders_replace c files p f f' Hp). unfold holds. rewrite Hcf, (hc c x Hx). lia.
  - intros c x Hx. destruct (ho c x Hx) as (i & Hfi & Hii & Hr). exists i. split_and!; [|done..].
    intros q g Hq Hcg. destruct (Hback q g Hq) as (g0 & Hg0 & Hc0 & Hd0 & _). rewrite Hc0 in Hcg.
    destruct (Hfi q g0 Hg0 Hcg) as (e & He & Hi). exists e. by rewrite Hd0.
Qed.
