(* ===== verification/DirFileRun.v ===== *)
(** The steps the operations of open directories are made of: each keeps the
    invariant of [DirFileInv], or says what is missing for it. *)

From S2P Require Import Prelude Vfs Types Util Under Nlink Fh Redirect Inode Block Readdir ReaddirTree ReaddirProps Lookup Kernel KernelProps Work CopyUp WorkProps CopyUpSteps CopyUpProps Dir DirSteps DirOps Attr Export ExportSteps File Action DirFile DirFileRead DirFileInv.
From stdpp Require Import gmap.
Local Open Scope Z_scope.

(** ** Real files of open directories *)

Definition file_refs (f : odfile) : list Z := od_realfile f :: if od_upperfile f =? NULL then [] else [od_upperfile f].
Definition owned (m : gmap Z odfile) : list Z := concat ((λ x, file_refs x.2) <$> map_to_list m).

Lemma owned_insert m p f : m !! p = None → owned (<[p := f]> m) ≡ₚ file_refs f ++ owned m.
Proof. intros Hp. unfold owned. by rewrite (map_to_list_insert m p f Hp). Qed.
Lemma owned_delete m p f : m !! p = Some f → owned m ≡ₚ file_refs f ++ owned (delete p m).
Proof. intros Hp. rewrite <- (insert_delete_id m p f) at 1 by done. apply owned_insert, lookup_delete_eq. Qed.
Lemma owned_replace m p f f' r :
  m !! p = Some f → file_refs f' ≡ₚ r ++ file_refs f → owned (<[p := f']> m) ≡ₚ r ++ owned m.
Proof.
  intros Hp Hr. rewrite (owned_delete m p f Hp), <- insert_delete_eq, owned_insert by apply lookup_delete_eq.
  by rewrite Hr, app_assoc.
Qed.

Lemma remove1_cons_perm r l l' : l ≡ₚ r :: l' → ∃ x, remove1 r l = Some x ∧ x ≡ₚ l'.
Proof.
  revert l'. induction l as [|y l IH]; intros l' Hp; [by apply Permutation_nil_cons in Hp|]. cbn.
  destruct (Z.eqb_spec y r) as [->|Hn]; [exists l; split; [done|by apply Permutation_cons_inv in Hp]|].
  assert (r ∈ l) as Hin.
  { assert (r ∈ y :: l) as [|]%elem_of_cons by (rewrite Hp; by left); [congruence|done]. }
  apply elem_of_Permutation in Hin as [l2 Hl2]. destruct (IH l2 Hl2) as (x & -> & Hx). cbn. eexists. split; [done|].
  rewrite Hx. rewrite Hl2 in Hp. apply (Permutation_cons_inv (a := r)). rewrite <- Hp. apply perm_swap.
Qed.

(** ** The invariant *)

Section inv.
Context {W : Type} `{Vfs W, DirKern W, ExportKern W, DirFileKern W, RbLib}.
Context (kmalloc : list centry → string → bool) (shows : Z → list (string * bool) → Prop) (posof : Z → odfile → Z).
Implicit Types (k : kst W) (st : dstate W).

(** A file that is read directly holds no cache; when it was opened on an upper
    directory, its directory never gets whiteouts. *)
Record inode_inv (f : odfile) (o : ovl_inode) : Prop := {
  fi_real : od_is_real f = true → od_cache f = NULL;
  fi_merged : od_is_real f = false → ovl_test_flag OVL_WHITEOUTS o = true;
  fi_upper : od_is_upper f = true → is_Some (oi_upper o);
  fi_impure : od_is_real f = true → od_is_upper f = true → ovl_test_flag OVL_WHITEOUTS o = false;
}.
Definition file_inv k (f : odfile) : Prop :=
  ∃ i o, open_dir k (df_dentry f) i ∧ k_inodes k !! i = Some o ∧ inode_inv f o.

(** [extra]: real files that are referenced but not by an open directory. *)
Record dinv (extra : list Z) st : Prop := {
  di_ok : ok (y_k st);
  di_write : 0 ≤ h_write (k_held (y_k st));
  di_warned : y_warned st = false;
  di_files p f : y_files st !! p = Some f → file_inv (y_k st) f;
  di_caches : caches_ok kmalloc shows posof (y_k st) (y_files st) (y_caches st) (y_icache st);
  di_refs : y_refs st ≡ₚ extra ++ owned (y_files st);
  di_pos p f : y_files st !! p = Some f → od_is_real f = false → 0 ≤ posof p f;
}.

Lemma inode_inv_lasts f o o' : inode_lasts o o' → inode_inv f o → inode_inv f o'.
Proof.
  intros [u w n] [r m up im]. split; [done|auto| |auto]. intros Hu. destruct (up Hu) as [x Hx]. exists x. auto.
Qed.
Lemma file_inv_lasts k k' f : ok k → lasts k k' → file_inv k f → file_inv k' f.
Proof.
  intros Hok Hl (i & o & Hd & Ho & Hf). destruct (la_inodes _ _ Hl _ _ Ho) as (o' & Ho' & Hoo).
  exists i, o'. split_and!; [by eapply open_dir_lasts|done|by eapply inode_inv_lasts].
Qed.
Lemma dinv_k extra st k' : lasts (y_k st) k' → 0 ≤ h_write (k_held k') → dinv extra st → dinv extra (set_y_k k' st).
Proof.
  intros Hl Hw [o w wn f c r ps]. split; cbn; [by apply (la_ok _ _ Hl)|done|done| | |done|done].
  - intros p g Hp. eapply file_inv_lasts; [done..|by eapply f].
  - eapply caches_lasts; [done..| |done]. intros p g Hp. destruct (f p g Hp) as (i & _ & Hi & _). by exists i.
Qed.

(** The kernel's part has moved on; nothing else is held. *)
Definition kstep st st' : Prop :=
  ∃ k', st' = set_y_k k' st ∧ lasts (y_k st) k' ∧ k_held k' = k_held (y_k st).
Lemma set_k_id st : set_y_k (y_k st) st = st.
Proof. by destruct st. Qed.
#[export] Instance kstep_preorder : PreOrder kstep.
Proof.
  split; [intros st; exists (y_k st); by rewrite set_k_id|]. intros a b c (k1 & -> & Hl1 & Hh1) (k2 & -> & Hl2 & Hh2).
  exists k2. split; [done|]. cbn in *. split; [by etrans|congruence].
Qed.
Lemma kstep_w st w : kstep st (set_y_k (set_k_w w (y_k st)) st).
Proof. eexists. split; [done|]. split; [by apply lasts_same; [..|left]|done]. Qed.
Lemma dinv_kstep extra st st' : kstep st st' → dinv extra st → dinv extra st'.
Proof. intros (k' & -> & Hl & Hh) Hi. apply dinv_k; [done| |done]. rewrite Hh. apply Hi. Qed.

(** A file and the caches change together. *)
Lemma dinv_file extra st p f f' caches icache r :
  y_files st !! p = Some f → file_refs f' ≡ₚ r ++ file_refs f → file_inv (y_k st) f' →
  (od_is_real f' = false → 0 ≤ posof p f') →
  caches_ok kmalloc shows posof (y_k st) (<[p := f']> (y_files st)) caches icache → dinv (r ++ extra) st →
  dinv extra (DSt (y_k st) (<[p := f']> (y_files st)) caches icache (y_refs st) (y_warned st)).
Proof.
  intros Hp Hr Hf Hpos Hc [o w wn fs c rs ps]. split; cbn; [done..| |done| |].
  - intros q g. destruct (decide (p = q)) as [<-|]; [rewrite lookup_insert_eq; by intros [= <-]|rewrite lookup_insert_ne by done; apply fs].
  - rewrite rs, (owned_replace (y_files st) p f f' r Hp Hr). rewrite !app_assoc. apply Permutation_app_tail, Permutation_app_comm.
  - intros q g. destruct (decide (p = q)) as [<-|]; [rewrite lookup_insert_eq; by intros [= <-]|rewrite lookup_insert_ne by done; apply ps].
Qed.

Lemma dinv_again extra k m caches icache refs w p f f' caches' icache' r :
  dinv (r ++ extra) (DSt k (<[p := f]> m) caches icache refs w) → file_refs f' ≡ₚ r ++ file_refs f → file_inv k f' →
  (od_is_real f' = false → 0 ≤ posof p f') →
  caches_ok kmalloc shows posof k (<[p := f']> m) caches' icache' → dinv extra (DSt k (<[p := f']> m) caches' icache' refs w).
Proof.
  intros Hi Hr Hf Hpos Hc.
  pose proof (dinv_file extra (DSt k (<[p := f]> m) caches icache refs w) p f f' caches' icache' r (lookup_insert_eq m p f) Hr Hf Hpos) as Hset.
  cbn in Hset. rewrite insert_insert_eq in Hset. by apply Hset.
Qed.

(** ** Rules for the primitive steps *)

Section rules.
Context {A : Type}.
Implicit Types (Q : A → dstate W → Prop).

Lemma awp_oview st d v (f : odentry → action (dstate W) A) Q :
  view_at (y_k st) d = Some v → awp (f v) st Q → awp (kern (oview d) ≫= f) st Q.
Proof. intros Hv HQ. apply awp_zoom. unfold wp, oview. unfold view_at in Hv. rewrite Hv. by rewrite set_k_id. Qed.
Lemma awp_dent st d e (f : odent → action (dstate W) A) Q :
  k_dents (y_k st) !! d = Some e → awp (f e) st Q → awp (kern (dent d) ≫= f) st Q.
Proof. intros He HQ. apply awp_zoom. unfold wp, dent. rewrite He. by rewrite set_k_id. Qed.
Lemma awp_file st p x (f : odfile → action (dstate W) A) Q :
  y_files st !! p = Some x → awp (f x) st Q → awp (dir_file p ≫= f) st Q.
Proof. intros Hx HQ. unfold dir_file. apply awp_assoc, awp_get. by rewrite Hx. Qed.
Lemma awp_update_file st p x g (f : unit → action (dstate W) A) Q :
  y_files st !! p = Some x → awp (f tt) (set_y_files (<[p := g x]> (y_files st)) st) Q → awp (update_dir_file p g ≫= f) st Q.
Proof. intros Hx HQ. unfold update_dir_file. apply awp_assoc. eapply awp_file; [done|]. exact HQ. Qed.
Lemma awp_cache st c x (f : dcache → action (dstate W) A) Q :
  y_caches st !! c = Some x → awp (f x) st Q → awp (cache_at c ≫= f) st Q.
Proof. intros Hx HQ. unfold cache_at. apply awp_assoc, awp_get. by rewrite Hx. Qed.
Lemma awp_update_cache st c x g (f : unit → action (dstate W) A) Q :
  y_caches st !! c = Some x → awp (f tt) (set_y_caches (<[c := g x]> (y_caches st)) st) Q → awp (update_cache c g ≫= f) st Q.
Proof. intros Hx HQ. unfold update_cache. apply awp_assoc. eapply awp_cache; [done|]. exact HQ. Qed.
(** A warning that does not fire. *)
Lemma awp_quiet_warn st b (f : unit → action (dstate W) A) Q :
  b = false → awp (f tt) st Q → awp (WARN_ON b ≫= f) st Q.
Proof. intros -> HQ. unfold WARN_ON. apply awp_set. rewrite orb_false_r. by destruct st. Qed.
Lemma awp_dir_inode st d e (f : Z → action (dstate W) A) Q :
  k_dents (y_k st) !! d = Some e → awp (f (dn_inode e)) st Q → awp (d_inode_of d ≫= f) st Q.
Proof. intros He HQ. unfold d_inode_of. apply awp_assoc. by eapply awp_dent. Qed.
Lemma awp_version st d v (f : Z → action (dstate W) A) Q :
  view_at (y_k st) d = Some v → awp (f (oi_version (od_inode v))) st Q → awp (ovl_dentry_version_get d ≫= f) st Q.
Proof. intros Hv HQ. unfold ovl_dentry_version_get. apply awp_assoc. by eapply awp_oview. Qed.
Lemma awp_put_real st r l (f : unit → action (dstate W) A) Q :
  y_refs st ≡ₚ r :: l → (∀ x, x ≡ₚ l → awp (f tt) (set_y_refs x st) Q) → awp (put_real r ≫= f) st Q.
Proof.
  intros Hp HQ. destruct (remove1_cons_perm _ _ _ Hp) as (x & Hx & Hl). unfold put_real. apply awp_assoc, awp_get.
  apply awp_assoc. eapply awp_deref; [exact Hx|]. apply awp_set. by apply HQ.
Qed.
End rules.

Lemma free_cache_runs st c x Q :
  y_caches st !! c = Some x → Q tt (set_y_caches (delete c (y_caches st)) st) →
  awp (ovl_cache_free c;; kfree_cache c) st Q.
Proof.
  intros Hx HQ. unfold ovl_cache_free. eapply awp_update_cache; [done|]. unfold kfree_cache.
  eapply awp_cache; [apply lookup_insert_eq|]. unfold awp, aset. cbn. by rewrite delete_insert_eq.
Qed.
Lemma awp_free st c x {A} (f : unit → action (dstate W) A) Q :
  y_caches st !! c = Some x → awp (f tt) (set_y_caches (delete c (y_caches st)) st) Q →
  awp (ovl_cache_free c;; kfree_cache c ≫= f) st Q.
Proof.
  intros Hx HQ. unfold ovl_cache_free. eapply awp_update_cache; [done|]. unfold kfree_cache. apply awp_assoc.
  eapply awp_cache; [apply lookup_insert_eq|]. apply awp_set. cbn. by rewrite delete_insert_eq.
Qed.
Lemma set_dir_cache_eq i c st Q :
  Q tt (set_y_icache (if c =? NULL then delete i (y_icache st) else <[i := c]> (y_icache st)) st) → awp (ovl_set_dir_cache i c) st Q.
Proof. done. Qed.

(** ** Putting, resetting and getting the cache of a merged directory *)

Section cache.
Context `{!DirFileLaws W, Under W, Kern W, FileKern W, !RbLaws}.

Lemma file_inode_view st p f extra :
  dinv extra st → y_files st !! p = Some f → ∃ e o,
    k_dents (y_k st) !! df_dentry f = Some e ∧ k_inodes (y_k st) !! dn_inode e = Some o ∧
    view_at (y_k st) (df_dentry f) = Some (ODentry (df_dentry f) (dn_name e) (dn_flags e) o (dn_entry e)) ∧
    open_dir (y_k st) (df_dentry f) (dn_inode e) ∧ inode_inv f o.
Proof.
  intros Hi Hp. destruct (di_files _ _ Hi p f Hp) as (i & o & Hd & Ho & Hf).
  destruct (open_dir_inode _ _ _ Hd) as (e & o' & He & <- & Ho' & Hv). simplify_eq. by exists e, o.
Qed.

(** After a put the file has to forget the cache. *)
Lemma put_runs extra st p f Q :
  dinv extra st → y_files st !! p = Some f → od_cache f ≠ NULL →
  (∀ caches icache, (∀ f', od_cache f' = NULL → df_dentry f' = df_dentry f →
      caches_ok kmalloc shows posof (y_k st) (<[p := f']> (y_files st)) caches icache) →
    Q tt (set_y_icache icache (set_y_caches caches st))) →
  awp (ovl_cache_put p) st Q.
Proof.
  intros Hi Hp Hc HQ. pose proof (di_caches _ _ Hi) as Hok. destruct (co_file _ _ _ _ _ _ _ _ Hok p f Hp Hc) as (x & Hx & _).
  destruct (file_inode_view _ _ _ _ Hi Hp) as (e & o & He & _).
  pose proof (holders_pos _ _ _ Hp) as Hpos. rewrite <- (co_count _ _ _ _ _ _ _ _ Hok _ _ Hx) in Hpos.
  pose proof (λ f' Hf' Hd, caches_put kmalloc shows posof _ _ _ _ p f f' x Hp Hx Hf' Hd Hok) as Hput.
  unfold ovl_cache_put. eapply awp_file; [done|]. cbv zeta. eapply awp_cache; [done|].
  apply awp_quiet_warn; [by apply Z.leb_gt|]. eapply awp_update_cache; [done|]. eapply awp_cache; [apply lookup_insert_eq|].
  cbn [dc_refcount set_dc_refcount]. destruct (Z.eqb_spec (dc_refcount x - 1) 0) as [Hz|Hz]; cbn [negb].
  - eapply awp_dir_inode; [done|]. unfold ovl_dir_cache. apply awp_get. cbn [y_icache set_y_caches].
    eapply awp_seq with (R := λ _ st', st' = set_y_icache (forget (y_icache st) (dn_inode e) (od_cache f))
      (set_y_caches (<[od_cache f := set_dc_refcount (dc_refcount x - 1) x]> (y_caches st)) st)).
    { unfold forget. destruct (Z.eqb_spec (default NULL (y_icache st !! dn_inode e)) (od_cache f)); [by apply set_dir_cache_eq|apply awp_ret; by destruct st]. }
    intros _ st' ->. eapply free_cache_runs; [cbn; apply lookup_insert_eq|]. cbn.
    change (set_y_caches ?c (set_y_icache ?i (set_y_caches _ st))) with (set_y_icache i (set_y_caches c st)).
    rewrite delete_insert_eq. apply HQ. intros f' Hf' Hd. specialize (Hput f' Hf' Hd).
    destruct (Z.eqb_spec (dc_refcount x) 1) as [_|]; [|lia].
    rewrite <- (delete_insert_eq (y_caches st) (od_cache f) (set_dc_refcount (dc_refcount x - 1) x)).
    eapply caches_free; [exact Hput|intros c'; destruct (decide (c' = od_cache f)); [by right|left; congruence]|apply lookup_insert_eq|done|].
    intros j Hj. destruct (co_owner _ _ _ _ _ _ _ _ Hok _ _ Hx) as (i & Hfi & Hii & _).
    destruct (Hfi p f Hp eq_refl) as (e' & He' & Hie). simplify_eq. by apply Hii.
  - apply awp_ret. change (Q tt (set_y_icache (y_icache st) (set_y_caches (<[od_cache f := set_dc_refcount (dc_refcount x - 1) x]> (y_caches st)) st))).
    apply HQ. intros f' Hf' Hd. specialize (Hput f' Hf' Hd). by destruct (Z.eqb_spec (dc_refcount x) 1) as [|_]; [lia|].
Qed.

(** What a reset, an iteration or a seek leaves of a file. *)
Definition same_file (f f' : odfile) : Prop :=
  df_dentry f' = df_dentry f ∧ od_is_upper f' = od_is_upper f ∧ od_realfile f' = od_realfile f ∧ od_upperfile f' = od_upperfile f.
#[export] Instance same_file_preorder : PreOrder same_file.
Proof. split; [by intros f; split_and!|]. intros a b c (? & ? & ? & ?) (? & ? & ? & ?). split_and!; congruence. Qed.
Lemma same_file_refs f f' : same_file f f' → file_refs f' = file_refs f.
Proof. intros (_ & _ & Hr & Hu). unfold file_refs. by rewrite Hr, Hu. Qed.

(** A file that is reset holds no cache, or one of the present version. *)
Definition reset_file k (f f' : odfile) (caches : gmap Z dcache) : Prop :=
  same_file f f' ∧ df_pos f' = df_pos f ∧
  ∀ v, view_at k (df_dentry f) = Some v → od_is_real f' = negb (ovl_test_flag OVL_WHITEOUTS (od_inode v)) ∧
    (od_cache f' ≠ NULL → ∃ x, caches !! od_cache f' = Some x ∧ dc_version x = oi_version (od_inode v)).

Lemma reset_runs extra st p f Q :
  dinv extra st → y_files st !! p = Some f → (∀ g, df_pos g = df_pos f → 0 ≤ posof p g) →
  (∀ f' caches icache, let st' := DSt (y_k st) (<[p := f']> (y_files st)) caches icache (y_refs st) (y_warned st) in
     dinv extra st' → reset_file (y_k st) f f' caches → Q tt st') →
  awp (ovl_dir_reset p) st Q.
Proof.
  intros Hi Hp Hpz HQ. destruct (file_inode_view _ _ _ _ Hi Hp) as (e & o & He & Ho & Hv & Hd & Hf).
  unfold ovl_dir_reset. eapply awp_file; [done|]. cbv zeta.
  eapply awp_seq with (R := λ _ st1, ∃ f1 caches icache, st1 = DSt (y_k st) (<[p := f1]> (y_files st)) caches icache (y_refs st) (y_warned st) ∧
    dinv extra st1 ∧ same_file f f1 ∧ df_pos f1 = df_pos f ∧ od_is_real f1 = od_is_real f ∧
    (od_cache f1 ≠ NULL → ∃ x, caches !! od_cache f1 = Some x ∧ dc_version x = oi_version o)).
  { assert (st = DSt (y_k st) (<[p := f]> (y_files st)) (y_caches st) (y_icache st) (y_refs st) (y_warned st)) as Hst
      by (rewrite insert_id by done; by destruct st).
    destruct (Z.eqb_spec (od_cache f) NULL) as [Hc|Hc].
    { apply awp_ret. exists f, (y_caches st), (y_icache st). by split_and!. }
    eapply awp_version; [done|]. destruct (co_file _ _ _ _ _ _ _ _ (di_caches _ _ Hi) p f Hp Hc) as (x & Hx & _).
    eapply awp_cache; [done|]. cbn [od_inode]. destruct (Z.eqb_spec (oi_version o) (dc_version x)) as [Hver|Hver].
    { apply awp_ret. exists f, (y_caches st), (y_icache st). split_and!; [done..|by exists x]. }
    apply awp_bind. eapply put_runs; [done..|]. intros caches icache Hco.
    unfold update_dir_file. eapply awp_file; [done|]. unfold awp, aset.
    exists (set_od_cache NULL None f), caches, icache. split_and!; [done| |done..].
    eapply (dinv_file extra st p f _ caches icache []); [done|done| |intros _; by apply Hpz|by apply Hco|done].
    exists (dn_inode e), o. split_and!; [done..|]. destruct Hf as [r m u im]. by split. }
  intros _ st1 (f1 & caches & icache & -> & Hi1 & Hs1 & Hpos1 & Hr1 & Hc1).
  unfold ovl_dir_is_real. apply awp_assoc. eapply awp_oview; [done|]. apply awp_mret. cbn [od_inode].
  pose proof Hs1 as (Hd1 & Hu1 & _).
  destruct (file_inode_view _ p f1 _ Hi1) as (e' & o' & He' & Ho' & _ & _ & Hf1); [cbn; apply lookup_insert_eq|].
  cbn in He', Ho'. rewrite Hd1 in He'. simplify_eq.
  destruct (eqb_spec (od_is_real f) (negb (ovl_test_flag OVL_WHITEOUTS o))) as [Heq|Hne].
  - apply awp_ret. apply HQ; [done|]. split; [done|]. split; [done|]. intros v Hv'. rewrite Hv in Hv'. injection Hv' as <-.
    split; [rewrite Hr1; exact Heq|exact Hc1].
  - assert (ovl_test_flag OVL_WHITEOUTS o = true ∧ od_is_real f = true) as [Hw Hr].
    { destruct (od_is_real f) eqn:Er; [by destruct (ovl_test_flag OVL_WHITEOUTS o)|]. by rewrite (fi_merged _ _ Hf Er) in Hne. }
    rewrite Hw. cbn [negb]. apply awp_quiet_warn; [done|]. unfold update_dir_file. eapply awp_file; [cbn; apply lookup_insert_eq|].
    unfold awp, aset. cbn. rewrite insert_insert_eq. apply HQ.
    + pose proof (fi_real _ _ Hf1 (eq_trans Hr1 Hr)) as Hcn.
      eapply (dinv_again extra _ _ _ _ _ _ p f1 _ _ _ []); [exact Hi1|done| |intros _; by apply Hpz|].
      * exists (dn_inode e), o. cbn. rewrite Hd1. split_and!; [done..|]. destruct Hf1 as [r m u im]. by split.
      * rewrite <- (insert_insert_eq (y_files st) p _ f1).
        eapply caches_cursor; [apply lookup_insert_eq|done|done|done|done| |apply (di_caches _ _ Hi1)]. intros x Hx. by rewrite Hcn in Hx.
    + split; [exact Hs1|]. split; [exact Hpos1|]. intros v Hv'. rewrite Hv in Hv'. injection Hv' as <-.
      cbn [od_inode]. rewrite Hw. split; [done|exact Hc1].
Qed.

(** What [read_merged] reads. *)
Definition merged_read st (v : odentry) : Z * rdd :=
  ovl_dir_read_merged kmalloc (Some (RdDentry (ovl_xino_bits (k_ofs (y_k st))) (ovl_test_flag OVL_IMPURE (od_inode v))))
    (merged_dirs (k_w (y_k st)) v).
Lemma read_merged_runs st d v {A} (f : Z * rdd → action (dstate W) A) Q :
  view_at (y_k st) d = Some v → awp (f (merged_read st v)) st Q → awp (read_merged kmalloc d ≫= f) st Q.
Proof.
  intros Hv HQ. unfold read_merged. apply awp_zoom. apply wp_bind. unfold wp at 1, oview. unfold view_at in Hv. rewrite Hv.
  unfold wp, ask. rewrite set_k_id. exact HQ.
Qed.
Lemma alloc_runs st n {A} (f : Z → action (dstate W) A) Q :
  awp (f NULL) st Q →
  (∀ c, 0 < c → y_caches st !! c = None → awp (f c) (set_y_caches (<[c := DCache n 0 [] [] RBNil]> (y_caches st)) st) Q) →
  awp (alloc_cache n ≫= f) st Q.
Proof.
  intros Hn Hc. unfold alloc_cache. apply awp_assoc, awp_get.
  destruct (law_kzalloc (k_w (y_k st)) (dom (y_caches st))) as [->|[Hpos Hf]]; [exact Hn|].
  destruct (Z.eqb_spec (kzalloc_cache (k_w (y_k st)) (dom (y_caches st))) NULL) as [Hz|_]; [rewrite Hz in Hpos; by apply Z.lt_irrefl in Hpos|].
  apply awp_assoc, awp_set, awp_mret. apply Hc; [done|by apply not_elem_of_dom].
Qed.
(** The cache of an inode, if it has the present version. *)
Lemma hit_runs st c version {A} (f : bool → action (dstate W) A) Q :
  (c ≠ NULL → is_Some (y_caches st !! c)) →
  (∀ hit : bool, (hit = true → c ≠ NULL ∧ ∃ x, y_caches st !! c = Some x ∧ dc_version x = version) → awp (f hit) st Q) →
  awp ((if c =? NULL then mret false else cache ← cache_at c; mret (version =? dc_version cache)) ≫= f) st Q.
Proof.
  intros Hc HQ. destruct (Z.eqb_spec c NULL) as [->|Hn]; [by apply awp_mret, HQ|]. destruct (Hc Hn) as [x Hx].
  apply awp_assoc. eapply awp_cache; [done|]. apply awp_mret, HQ. intros Hv%Z.eqb_eq. split; [done|]. by exists x.
Qed.
(** The cache an inode has, [NULL] or one on the heap. *)
Lemma icache_there extra st i :
  dinv extra st → default NULL (y_icache st !! i) ≠ NULL →
  ∃ x o, y_icache st !! i = Some (default NULL (y_icache st !! i)) ∧
    y_caches st !! (default NULL (y_icache st !! i)) = Some x ∧ k_inodes (y_k st) !! i = Some o ∧
    (dc_refcount x = 0 → is_Some (oi_upper o) ∧ ovl_test_flag OVL_WHITEOUTS o = false).
Proof.
  intros Hi Hn. destruct (y_icache st !! i) as [c|] eqn:Ei; [|done].
  destruct (co_icache _ _ _ _ _ _ _ _ (di_caches _ _ Hi) i c Ei) as (x & o & Hx & Ho & Hz); [done|]. by exists x, o.
Qed.

(** A file that may hold cache [c], at any entry, in the state [st']. *)
Definition takeable st p (f : odfile) c st' : Prop :=
  ∃ caches icache x, st' = DSt (y_k st) (y_files st) caches icache (y_refs st) (y_warned st) ∧ 0 < c ∧ caches !! c = Some x ∧
    (∀ v, view_at (y_k st) (df_dentry f) = Some v → dc_version x = oi_version (od_inode v)) ∧
    ∀ f', od_cache f' = c → od_cursor f' = Some (Readdir.ovl_seek_cursor (dc_list x) (posof p f')) → shows p (listing (dc_entries x)) →
      df_dentry f' = df_dentry f →
      caches_ok kmalloc shows posof (y_k st) (<[p := f']> (y_files st)) caches icache.

Lemma cache_get_runs extra st p f Q :
  dinv extra st → y_files st !! p = Some f → od_cache f = NULL → od_is_real f = false →
  (∀ c caches icache, let st' := DSt (y_k st) (y_files st) caches icache (y_refs st) (y_warned st) in
     IS_ERR c = true → dinv extra st' → Q c st') →
  (∀ c st', takeable st p f c st' → Q c st') →
  awp (ovl_cache_get kmalloc (df_dentry f)) st Q.
Proof.
  intros Hi Hp Hc Hr Herr HQ. destruct (file_inode_view _ _ _ _ Hi Hp) as (e & o & He & Ho & Hv & Hd & Hf).
  pose proof (di_caches _ _ Hi) as Hok. assert (on_inode (y_k st) f (dn_inode e)) as Hon by by exists e.
  assert (∀ c x, y_icache st !! dn_inode e = Some c → y_caches st !! c = Some x → 0 < dc_refcount x) as Hheld.
  { intros c x Hic Hx. destruct (co_icache _ _ _ _ _ _ _ _ Hok _ _ Hic) as (x' & o' & Hx' & Ho' & Hz); [done|]. simplify_eq.
    destruct (decide (dc_refcount x = 0)) as [Hz0|Hn].
    - destruct (Hz Hz0) as [_ Hw]. by rewrite (fi_merged _ _ Hf Hr) in Hw.
    - rewrite (co_count _ _ _ _ _ _ _ _ Hok _ _ Hx) in Hn |- *. pose proof (holders_nonneg c (y_files st)). lia. }
  unfold ovl_cache_get. eapply awp_dir_inode; [done|]. unfold ovl_dir_cache. apply awp_get. eapply awp_version; [done|].
  apply hit_runs; [intros Hn; destruct (icache_there _ _ _ Hi Hn) as (x & _ & _ & Hx & _); by exists x|].
  intros [|] Hhit; cbn [od_inode] in Hhit.
  - destruct (Hhit eq_refl) as (Hn & x & Hx & Hver). destruct (icache_there _ _ _ Hi Hn) as (x' & o' & Hic & Hx' & _). simplify_eq.
    set (c := default NULL (y_icache st !! dn_inode e)) in *. pose proof (Hheld _ _ Hic Hx) as Hpos.
    eapply awp_cache; [done|]. apply awp_quiet_warn; [apply Z.eqb_neq; lia|]. eapply awp_update_cache; [done|]. apply awp_ret.
    apply HQ. eexists _, (y_icache st), _. split; [by destruct st|]. split; [by apply (co_pos _ _ _ _ _ _ _ _ Hok _ _ Hx)|].
    split; [apply lookup_insert_eq|]. split; [intros v Hv'; rewrite Hv in Hv'; injection Hv' as <-; exact Hver|]. intros f' Hf' Hn' Hs' Hd'. by eapply caches_take.
  - apply awp_bind, set_dir_cache_eq. cbn [Z.eqb NULL]. change (NULL =? NULL) with true. cbn [NULL].
    set (st1 := set_y_icache (delete (dn_inode e) (y_icache st)) st).
    assert (caches_ok kmalloc shows posof (y_k st) (y_files st) (y_caches st) (delete (dn_inode e) (y_icache st))) as Hok1 by by apply caches_unset.
    assert (dinv extra st1) as Hi1 by (by destruct Hi; split).
    apply alloc_runs; [apply awp_ret, (Herr (- ENOMEM) (y_caches st) (delete (dn_inode e) (y_icache st))); [done|exact Hi1]|].
    intros c Hcp Hfresh. destruct (Z.eqb_spec c NULL) as [->|_]; [unfold NULL in *; lia|].
    eapply read_merged_runs; [done|]. destruct (merged_read _ _) as [res r] eqn:Er.
    destruct (read_merged_indexed kmalloc _ _ _ _ _ Er) as [Hheap Hres].
    eapply awp_update_cache; [apply lookup_insert_eq|]. cbn [y_caches set_y_caches]. rewrite insert_insert_eq. destruct (Z.eqb_spec res 0) as [->|Hne]; cbn [negb].
    + eapply awp_version; [done|]. eapply awp_update_cache; [apply lookup_insert_eq|]. cbn [y_caches set_y_caches]. rewrite insert_insert_eq.
      apply awp_bind, set_dir_cache_eq. destruct (Z.eqb_spec c NULL); [unfold NULL in *; lia|]. apply awp_ret. apply HQ. cbn.
      eexists _, _, _. split; [done|]. split; [done|]. split; [apply lookup_insert_eq|]. split; [intros v Hv'; rewrite Hv in Hv'; by injection Hv' as <-|].
      intros f' Hf' Hn' Hs' Hd'.
      eapply (caches_new kmalloc shows posof _ _ _ _ p f f' c _ _ o true); try done; [by apply lookup_delete_eq|].
      split; [done|]. exists (y_k st). split; [done|]. eexists _, _, r. split; [exact Hv|]. split; [by exists e|]. split; [done|]. split; [exact Er|done].
    + eapply awp_free; [apply lookup_insert_eq|]. apply awp_ret.
      specialize (Herr res (y_caches st) (delete (dn_inode e) (y_icache st)) (errno_err _ Hres Hne) Hi1).
      cbn. by rewrite delete_insert_id.
Qed.
End cache.
End inv.
