(* ===== verification/DirFileImpure.v ===== *)
(** Inode numbers of entries, and the caches of impure directories: they are
    not counted, an inode has at most one, and only while no file holds a cache
    of the inode. *)

From S2P Require Import Prelude Vfs Types Util Under Nlink Fh Redirect Inode Block Readdir ReaddirTree Lookup Kernel KernelProps Work CopyUp WorkProps CopyUpSteps CopyUpProps Dir DirSteps DirOps Attr Export ExportSteps File Action DirFile DirFileRead DirFileInv DirFileRun.
From stdpp Require Import gmap.
Local Open Scope Z_scope.

Section impure.
Context {W : Type} `{Vfs W, DirKern W, ExportKern W, DirFileKern W, RbLib, !DirFileLaws W, Under W, Kern W, FileKern W, !RbLaws, !ExportLaws W}.
Context (kmalloc : list centry → string → bool) (shows : Z → list (string * bool) → Prop) (posof : Z → odfile → Z).
Implicit Types (k : kst W) (st : dstate W).

(** ** ovl_cache_update_ino *)

Lemma lookup_runs st name d v {A} (f : eptr Z → action (dstate W) A) Q :
  ok (y_k st) → view_at (y_k st) d = Some v →
  (∀ r st', kstep st st' → (∀ x, r = PPtr x → is_Some (k_dents (y_k st') !! x) ∧
     ∀ v', view_at (y_k st') x = Some v' → present v') → (∀ e, r = PErr e → errno_ok e) → awp (f r) st' Q) →
  awp (kern (overlay_lookup_one_len name d) ≫= f) st Q.
Proof.
  intros Hok Hv HQ. apply awp_zoom.
  pose proof (law_lookup_overlay (y_k st) name d v Hok Hv) as Hl. pose proof (law_lookup_present (y_k st) name d v Hok Hv) as Hp.
  unfold wp in *. destruct (overlay_lookup_one_len name d (y_k st)) as [[r k']| |]; [|done..].
  destruct Hl as ([Hr _ _] & Hd & _), Hp as [Hpr He]. apply HQ.
  - exists k'. split; [done|]. split; [by eapply extends_lasts, Hr|apply Hr].
  - intros x Hx. split; [by apply Hd|intros v'; by apply Hpr].
  - intros e Hre. right. by apply He.
Qed.

Lemma present_layer v : present v → OVL_TYPE_UPPER (ovl_path_type v) = false → is_Some (ovl_layer_lower v).
Proof.
  intros Hp Ht. assert (ovl_dentry_upper v = None) as Hu.
  { destruct (ovl_dentry_upper v) eqn:E; [|done]. revert Ht. unfold ovl_path_type. rewrite bool_decide_true by (rewrite E; done).
    repeat case_match; intros Ht; vm_compute in Ht; done. }
  destruct Hp as [[u Hu']|Hs]; [congruence|]. unfold ovl_layer_lower, lowerstack_at, numlower.
  destruct (oe_lowerstack (od_entry v)) as [|p l]; [done|]. unfold zlen. cbn [length].
  destruct (Z.eqb_spec (Z.of_nat (S (length l))) 0); [lia|]. by eexists.
Qed.

Lemma update_ino_runs st d i p Q :
  ok (y_k st) → open_dir (y_k st) d i →
  (∀ err n st', kstep st st' → errno_ok err → Q (err, set_ce_ino n p) st') →
  awp (ovl_cache_update_ino d p) st Q.
Proof.
  intros Hok Hd HQ. unfold ovl_cache_update_ino. apply awp_get. cbv zeta.
  case_match; [apply awp_ret, HQ; [done|by left]|].
  eapply awp_seq with (R := λ r st', kstep st st' ∧ (∀ x, r = PPtr x → is_Some (k_dents (y_k st') !! x) ∧
     ∀ v', view_at (y_k st') x = Some v' → present v') ∧ (∀ e, r = PErr e → errno_ok e)).
  { destruct Hd as (e & v & pv & He & Hi & [Hv Hpr] & [Hpv Hppr]). case_match.
    { apply awp_ret. split_and!; [done| |done]. intros x [= <-]. split; [by exists e|]. intros v' Hv'. rewrite Hv in Hv'. by simplify_eq. }
    case_match.
    { eapply awp_dent; [done|]. apply awp_ret. split_and!; [done| |done]. intros x [= <-].
      split; [|intros v' Hv'; rewrite Hpv in Hv'; by simplify_eq]. apply view_inv in Hpv as (pe & po & Hpe & _). by exists pe. }
    apply awp_zoom_end. apply (lookup_runs st (ce_name p) d v mret) with (Q := λ r st', kstep st st' ∧ (∀ x, r = PPtr x → is_Some (k_dents (y_k st') !! x) ∧
     ∀ v', view_at (y_k st') x = Some v' → present v') ∧ (∀ e, r = PErr e → errno_ok e)) in Hv; [|done|by intros r st' ? ? ?; apply awp_ret].
    revert Hv. unfold awp, mbind, action_bind, kern, zoom, wp. by destruct (overlay_lookup_one_len (ce_name p) d (y_k st)) as [[]| |]. }
  intros this st' (Hk & Hthis & Herr). destruct this as [|err|x].
  - apply awp_ret, HQ; [done|by left].
  - apply awp_ret, HQ; [done|by apply Herr].
  - destruct (Hthis x eq_refl) as [[e He] Hpr]. eapply awp_dent; [done|].
    destruct (Z.eqb_spec (dn_inode e) NULL) as [Hn|Hn]; [apply awp_ret, HQ; [done|by left]|].
    assert (ok (y_k st')) as Hok' by (destruct Hk as (k' & -> & Hl & _); by apply (la_ok _ _ Hl)).
    destruct (ok_inode _ Hok' x e He Hn) as [o Ho].
    assert (view_at (y_k st') x = Some (ODentry x (dn_name e) (dn_flags e) o (dn_entry e))) as Hv
      by (unfold view_at, view; rewrite He; cbn; by rewrite Ho).
    specialize (Hpr _ Hv). eapply awp_oview; [done|]. cbv zeta. case_match.
    + apply awp_get. pose proof (law_overlay_getattr (y_k st') x) as Hg. destruct (overlay_getattr (y_k st') x) as [err stat].
      case_match; apply awp_ret, HQ; (done || by left).
    + case_match eqn:Hc; [|apply awp_ret, HQ; [done|by left]].
      apply andb_true_iff in Hc as [_ Hc]. destruct (present_layer _ Hpr) as [l Hl]; [by apply negb_true_iff|].
      eapply awp_deref; [exact Hl|]. apply awp_ret, HQ; [done|by left].
Qed.

(** ** Reading an impure directory *)

Lemma kstep_ok st st' : kstep st st' → ok (y_k st) → ok (y_k st').
Proof. intros (k' & -> & Hl & _). apply (la_ok _ _ Hl). Qed.
Lemma kstep_dir st st' d i : kstep st st' → ok (y_k st) → open_dir (y_k st) d i → open_dir (y_k st') d i.
Proof. intros (k' & -> & Hl & _) Hok. by apply open_dir_lasts. Qed.

(** The entries that are left have names of their own, new to the tree. *)
Definition named (h : list centry) (q : nat) (n : string) : Prop := ce_name <$> h !! q = Some n.
Lemma named_set h q e m l ns :
  h !! q = Some e → Forall2 (named h) l ns → Forall2 (named (<[q := set_ce_ino m e]> h)) l ns.
Proof.
  intros Hq Hl. eapply Forall2_impl; [exact Hl|]. unfold named. intros x n. destruct (decide (q = x)) as [->|]; [|by rewrite list_lookup_insert_ne].
  rewrite list_lookup_insert_eq by (by eapply lookup_lt_Some). by rewrite Hq.
Qed.

Lemma impure_loop_runs d i l : ∀ st h kept root ns Q,
  ok (y_k st) → open_dir (y_k st) d i → Forall2 (named h) l ns → NoDup ns → Forall no_nul ns →
  search_tree root → (∀ n, n ∈ ns → n ∉ names root) → in_heap h kept →
  (∀ res h' l' root' st', kstep st st' → errno_ok res → in_heap h' l' → Q (res, (h', l', root')) st') →
  awp (impure_loop d l h kept root) st Q.
Proof.
  induction l as [|q l IH]; intros st h kept root ns Q Hok Hd Hn Hnd Hnn Ht Hnew Hk HQ; cbn [impure_loop].
  { apply awp_ret, HQ; [done|by left|done]. }
  pose proof Hn as Hall. inversion Hn as [|? n ? ns' Hq Hns' E1 E2]; subst. clear Hn. unfold named in Hq.
  destruct (h !! q) as [e|] eqn:Ee; [|done]. cbn in Hq. injection Hq as <-.
  apply NoDup_cons in Hnd as [Hni Hnd]. apply Forall_cons in Hnn as [Hen Hnn].
  assert (∀ h', length h' = length h → in_heap h' (kept ++ q :: l)) as Hleft.
  { intros h' Hlen. apply in_heap_app. split; [by eapply in_heap_grow; [|exact Hk]; lia|]. apply Forall_forall. intros x Hx.
    apply list_elem_of_lookup_1 in Hx as [j Hj]. destruct (Forall2_lookup_l _ _ _ _ _ Hall Hj) as (y & _ & Hy). unfold named in Hy.
    destruct (h !! x) as [z|] eqn:Ez; [|done]. apply lookup_lt_Some in Ez. lia. }
  eapply awp_deref; [reflexivity|].
  eapply awp_seq with (R := λ r st', ∃ m err, r = (err, set_ce_ino m e) ∧ kstep st st' ∧ errno_ok err).
  { case_match; [apply awp_ret; exists (ce_ino e), 0; split_and!; [by destruct e|done|by left]|].
    eapply update_ino_runs; [done..|]. intros err m st' ? ?. by exists m, err. }
  intros r st' (m & err & -> & Hs & Herr). set (e' := set_ce_ino m e). set (h' := <[q := e']> h).
  assert (length h' = length h) as Hlen by apply length_insert.
  pose proof (kstep_ok _ _ Hs Hok) as Hok'. pose proof (kstep_dir _ _ _ _ Hs Hok Hd) as Hd'.
  assert (Forall2 (named h') l ns') as Hns2 by by apply named_set.
  assert (in_heap h' kept) as Hk2 by (eapply in_heap_grow; [|exact Hk]; lia).
  assert (∀ res h2 l2 root2 st2, kstep st' st2 → errno_ok res → in_heap h2 l2 → Q (res, (h2, l2, root2)) st2) as HQ'
    by (intros res h2 l2 root2 st2 Hs2; apply HQ; by etrans).
  cbn beta iota. destruct (negb (err =? 0)); [by apply awp_ret, HQ; [..|by apply Hleft]|].
  case_match; [eapply IH with (ns := ns'); try done; intros n Hn; apply Hnew; by right|].
  cbn [ce_name set_ce_ino e']. destruct (ovl_cache_entry_find_link root (ce_name e)) as [found link] eqn:El.
  destruct (rb_insert_spec root (ce_name e) q found link Ht Hen El) as [Hf Hins].
  destruct found; [exfalso; apply (Hnew (ce_name e)); [by left|by apply Hf]|]. destruct (Hins eq_refl) as [Ht' Hp].
  eapply IH with (ns := ns'); try done.
  - intros n Hn. unfold names. rewrite Hp. cbn. intros [->|Hx]%elem_of_cons; [done|]. apply (Hnew n); [by right|done].
  - apply in_heap_app. split; [done|]. constructor; [|done]. rewrite Hlen. by eapply lookup_lt_Some.
Qed.

Lemma read_impure_runs st d i u o Q :
  ok (y_k st) → open_dir (y_k st) d i → k_inodes (y_k st) !! i = Some o → oi_upper o = Some u →
  (∀ res h l root st', kstep st st' → errno_ok res → in_heap h l → Q (res, (h, l, root)) st') →
  awp (ovl_dir_read_impure kmalloc d) st Q.
Proof.
  intros Hok Hd Ho Hu HQ. unfold ovl_dir_read_impure. destruct (open_dir_inode _ _ _ Hd) as (e & o' & He & Hi & Ho' & Hv). subst i. simplify_eq.
  eapply awp_oview; [exact Hv|]. eapply awp_deref; [exact Hu|]. apply awp_get.
  destruct (ovl_dir_read _ _ _ _) as [err r] eqn:Er. destruct (read_plain_indexed kmalloc _ _ _ _ Er) as [Hix Herr].
  destruct (read_plain_names kmalloc _ _ _ _ Er) as (Hnd & Hnn & Hl).
  case_match; [apply awp_ret, HQ; [done..|apply Hix]|].
  eapply impure_loop_runs with (ns := ce_name <$> r_heap r); try done.
  - rewrite Hl. apply Forall2_same_length_lookup_2; [by rewrite length_seq, length_fmap|].
    intros j x n Hx Hn. apply lookup_seq in Hx as [-> _]. unfold named. by rewrite list_lookup_fmap in Hn.
  - split; constructor.
  - intros n _. apply not_elem_of_nil.
  - constructor.
Qed.

(** ** The cache of an impure directory *)

(** Nobody holds the cache of a directory that is read directly. *)
Lemma impure_unheld extra st i o c x e d :
  dinv kmalloc shows posof extra st → k_dents (y_k st) !! d = Some e → dn_inode e = i → k_inodes (y_k st) !! i = Some o →
  ovl_test_flag OVL_WHITEOUTS o = false → y_icache st !! i = Some c → y_caches st !! c = Some x → dc_refcount x = 0.
Proof.
  intros Hi He Hie Ho Hw Hic Hx. pose proof (di_caches _ _ _ _ _ Hi) as Hok.
  rewrite (co_count _ _ _ _ _ _ _ _ Hok _ _ Hx). pose proof (holders_nonneg c (y_files st)) as Hnn.
  destruct (decide (0 < holders c (y_files st))) as [Hlt|]; [|lia]. exfalso.
  destruct (holders_some _ _ Hlt) as (q & g & Hq & Hg). destruct (co_owner _ _ _ _ _ _ _ _ Hok _ _ Hx) as (j & Hfj & Hjj & _).
  destruct (file_inode_view kmalloc shows posof _ _ _ _ Hi Hq) as (eg & og & Heg & Hog & _ & _ & Hf).
  destruct (Hfj q g Hq Hg) as (e2 & He2 & Hj). rewrite Heg in He2. injection He2 as <-. rewrite <- (Hjj i Hic) in Hj. subst i. rewrite Hj, Ho in Hog. injection Hog as <-.
  pose proof (co_pos _ _ _ _ _ _ _ _ Hok _ _ Hx). destruct (od_is_real g) eqn:Eg.
  - rewrite (fi_real _ _ Hf Eg) in Hg. unfold NULL in Hg. lia.
  - by rewrite (fi_merged _ _ Hf Eg) in Hw.
Qed.

Lemma want_write_runs st {A} (f : Z → action (dstate W) A) Q :
  (∀ err st', err ≠ 0 → kstep st st' → awp (f err) st' Q) →
  (∀ w, awp (f 0) (set_y_k (set_k_held (write_held (k_held (y_k st))) (set_k_w w (y_k st))) st) Q) →
  awp (kern ovl_want_write ≫= f) st Q.
Proof.
  intros He HQ. apply awp_zoom. unfold ovl_want_write. apply wp_bind, wp_on_w. intros err w _.
  destruct (Z.eqb_spec err 0) as [->|Hn]; cbn [negb].
  - apply HQ.
  - apply wp_ret, He; [done|apply kstep_w].
Qed.
Lemma drop_write_runs st h Q :
  k_held (y_k st) = write_held h → 0 ≤ h_write h → Q tt (set_y_k (set_k_held h (y_k st)) st) → awp (kern ovl_drop_write) st Q.
Proof.
  intros Hh Hw HQ. apply awp_zoom_end. unfold wp, ovl_drop_write. rewrite Hh. cbn.
  destruct (Z.leb_spec (h_write h + 1) 0); [lia|]. replace (h_write h + 1 - 1) with (h_write h) by lia.
  by destruct h.
Qed.

(** Removing the mark of a directory that is no longer impure. *)
Lemma unmark_runs st d e o u {A} (f : unit → action (dstate W) A) Q :
  0 ≤ h_write (k_held (y_k st)) → k_dents (y_k st) !! d = Some e → k_inodes (y_k st) !! dn_inode e = Some o → oi_upper o = Some u →
  (∀ st', kstep st st' → awp (f tt) st' Q) →
  awp (err ← kern ovl_want_write;
       (if negb (err =? 0) then mret tt else
        v ← kern (oview d);
        upper ← aderef (ovl_dentry_upper v);
        kern (ovl_do_removexattr upper OVL_XATTR_IMPURE);;
        kern ovl_drop_write) ≫= f) st Q.
Proof.
  intros Hw He Ho Hu HQ. apply want_write_runs.
  - intros err st' Hn Hs. destruct (Z.eqb_spec err 0); [done|]. apply awp_mret. by apply HQ.
  - intros w. cbn [Z.eqb negb]. apply awp_bind. eapply (awp_oview _ d (ODentry d (dn_name e) (dn_flags e) o (dn_entry e)));
      [unfold view_at, view; cbn; rewrite He; cbn; by rewrite Ho|].
    eapply awp_deref; [exact Hu|]. apply awp_zoom, wp_on_w. intros r w' _.
    eapply drop_write_runs; [reflexivity|done|]. apply HQ. eexists. split; [reflexivity|]. split; [by apply lasts_same; [..|left]|done].
Qed.

Definition impure_got st c st' : Prop :=
  lasts (y_k st) (y_k st') ∧ k_held (y_k st') = k_held (y_k st) ∧ y_files st' = y_files st ∧
  (IS_ERR c = true ∨ c = NULL ∨ is_Some (y_caches st' !! c)).

(** The inode's cache is freed. *)
Lemma icache_free_runs extra st i {A} (f : unit → action (dstate W) A) Q :
  dinv kmalloc shows posof extra st →
  (∀ c x, y_icache st !! i = Some c → y_caches st !! c = Some x → dc_refcount x = 0) →
  (∀ caches, let st' := DSt (y_k st) (y_files st) caches (delete i (y_icache st)) (y_refs st) (y_warned st) in
     dinv kmalloc shows posof extra st' → awp (f tt) st' Q) →
  awp (ovl_dir_cache_free i;; (ovl_set_dir_cache i NULL ≫= f)) st Q.
Proof.
  intros Hi Hunheld HQ. pose proof (di_caches _ _ _ _ _ Hi) as Hok. unfold ovl_dir_cache_free, ovl_dir_cache. apply awp_assoc, awp_get.
  destruct (Z.eqb_spec (default NULL (y_icache st !! i)) NULL) as [Hn|Hn].
  - apply awp_mret, awp_bind, set_dir_cache_eq. change (NULL =? NULL) with true. cbn iota.
    apply (HQ (y_caches st)). assert (y_icache st !! i = None) as Hni.
    { destruct (y_icache st !! i) as [c|] eqn:Ec; [|done]. cbn in Hn. subst c.
      destruct (co_icache _ _ _ _ _ _ _ _ Hok _ _ Ec) as (x & _ & Hx & _); [done|]. by rewrite (caches_null _ _ _ _ _ _ _ _ Hok) in Hx. }
    rewrite delete_id by done. by destruct st.
  - destruct (icache_there kmalloc shows posof _ _ _ Hi Hn) as (x & o' & Hic & Hx & Ho' & _). set (c := default NULL (y_icache st !! i)) in *.
    pose proof (Hunheld _ _ Hic Hx) as Hz.
    apply awp_bind. eapply free_cache_runs; [done|]. apply awp_bind, set_dir_cache_eq. change (NULL =? NULL) with true. cbn iota.
    apply (HQ (delete c (y_caches st))). destruct Hi as [o1 w1 n1 f1 c1 r1 p1]. split; try done. cbn.
    replace (delete i (y_icache st)) with (forget (y_icache st) i c) by (unfold forget, c; by rewrite Z.eqb_refl).
    eapply caches_free; [exact Hok|by left|done..|]. intros j Hj.
    destruct (co_owner _ _ _ _ _ _ _ _ Hok _ _ Hx) as (i' & _ & Hii & _). by rewrite (Hii j Hj), (Hii i Hic).
Qed.

Lemma get_impure_runs extra st p f Q :
  dinv kmalloc shows posof extra st → y_files st !! p = Some f → od_is_real f = true → od_is_upper f = true →
  (∀ c st', dinv kmalloc shows posof extra st' → impure_got st c st' → Q c st') →
  awp (ovl_cache_get_impure kmalloc (df_dentry f)) st Q.
Proof.
  intros Hi Hp Hr Hup HQ. destruct (file_inode_view kmalloc shows posof _ _ _ _ Hi Hp) as (e & o & He & Ho & Hv & Hd & Hf).
  pose proof (fi_impure _ _ Hf Hr Hup) as Hw. destruct (fi_upper _ _ Hf Hup) as [u Hu].
  unfold ovl_cache_get_impure. eapply awp_dir_inode; [done|]. unfold ovl_dir_cache at 1. apply awp_get. eapply awp_version; [done|].
  apply hit_runs; [intros Hn; destruct (icache_there kmalloc shows posof _ _ _ Hi Hn) as (x & _ & _ & Hx & _); by exists x|].
  intros [|] Hhit.
  { destruct (Hhit eq_refl) as (Hn & x & Hx & _). apply awp_ret, HQ; [done|]. split_and!; [done..|]. right. right. by exists x. }
  eapply icache_free_runs; [done|intros c x Hic Hx; by eapply impure_unheld|]. intros caches. cbv zeta. set (st1 := DSt _ _ _ _ _ _). intros Hi1.
  apply alloc_runs; [apply awp_ret, HQ; [done|]; split_and!; [done..|by left]|].
  intros c Hcp Hfresh. destruct (Z.eqb_spec c NULL) as [->|_]; [unfold NULL in *; lia|].
  set (st2 := set_y_caches (<[c := DCache 0 0 [] [] RBNil]> (y_caches st1)) st1).
  eapply awp_seq with (R := λ r st', ∃ res h l root, r = (res, (h, l, root)) ∧ kstep st2 st' ∧ errno_ok res ∧ in_heap h l).
  { eapply read_impure_runs; [apply Hi|exact Hd|exact Ho|exact Hu|]. intros res h l root st' ? ? ?. by exists res, h, l, root. }
  intros r st3 (res & h & l & root & -> & (k' & -> & Hl & Hh) & Hres & Hin). cbn beta iota.
  eapply awp_update_cache; [cbn; apply lookup_insert_eq|]. cbn [y_caches set_y_caches set_y_k st2]. rewrite insert_insert_eq.
  set (x := set_dc_entries h l root _).
  assert (dinv kmalloc shows posof extra (set_y_k k' st1)) as Hi3 by (apply dinv_k; [exact Hl|rewrite Hh; apply Hi|done]).
  assert (∀ k2 : kst W, lasts k' k2 → k_held k2 = k_held k' → dinv kmalloc shows posof extra (set_y_k k2 st1) ∧ lasts (y_k st) k2 ∧ k_held k2 = k_held (y_k st)) as Hk2.
  { intros k2 Hl2 Hh2. split; [|split; [etrans; [exact Hl|done]|by rewrite Hh2, Hh]].
    change (set_y_k k2 st1) with (set_y_k k2 (set_y_k k' st1)). apply dinv_k; [done|rewrite Hh2, Hh; apply Hi|done]. }
  destruct (Z.eqb_spec res 0) as [->|Hne]; cbn [negb].
  2:{ eapply awp_free; [apply lookup_insert_eq|]. apply awp_ret. destruct (Hk2 k') as (Hi4 & Hl4 & Hh4); [done..|].
      cbn. rewrite delete_insert_id by exact Hfresh. apply (HQ res _ Hi4). split_and!; [done..|]. left. by apply errno_err. }
  destruct (la_dents _ _ Hl _ _ He) as (e' & He' & Hde). destruct (la_inodes _ _ Hl _ _ Ho) as (o' & Ho' & Hoo).
  cbn in He', Ho'. assert (dn_inode e' = dn_inode e) as Hie by (apply (ol_inode _ _ Hde); by eapply not_null; [apply Hi|]).
  case_bool_decide as Hempty.
  - eapply (unmark_runs _ _ e' o' u); [cbn; rewrite Hh; apply Hi|exact He'|cbn; rewrite Hie; exact Ho'|by apply (il_upper _ _ Hoo)|].
    intros st4 (k4 & -> & Hl4 & Hh4). cbn in Hl4, Hh4.
    destruct (la_dents _ _ Hl4 _ _ He') as (e4 & He4 & Hde4). destruct (la_inodes _ _ Hl4 _ _ Ho') as (o4 & Ho4 & _).
    assert (dn_inode e4 = dn_inode e) as Hie4 by (rewrite <- Hie; apply (ol_inode _ _ Hde4); rewrite Hie; by eapply not_null; [apply Hi|]).
    apply awp_zoom. unfold modify_dinode. eapply wp_dent; [exact He4|]. rewrite Hie4. eapply wp_modify_inode; [exact Ho4|].
    unfold kfree_cache. apply awp_assoc. eapply awp_cache; [cbn; apply lookup_insert_eq|]. apply awp_set, awp_ret.
    destruct (Hk2 (set_k_inodes (<[dn_inode e := ovl_clear_flag OVL_IMPURE o4]> (k_inodes k4)) k4)) as (Hi5 & Hl5 & Hh5);
      [etrans; [exact Hl4|by apply clear_impure_lasts]|done|].
    cbn. rewrite delete_insert_id by exact Hfresh. apply (HQ NULL _ Hi5). split_and!; [done..|]. right. by left.
  - eapply (awp_version _ _ (ODentry (df_dentry f) (dn_name e') (dn_flags e') o' (dn_entry e')));
      [unfold view_at, view; cbn; rewrite He'; cbn; by rewrite Hie, Ho'|].
    eapply awp_update_cache; [apply lookup_insert_eq|]. cbn [y_caches set_y_caches set_y_k st1]. rewrite insert_insert_eq.
    apply awp_bind, set_dir_cache_eq. destruct (Z.eqb_spec c NULL); [unfold NULL in *; lia|]. apply awp_ret. apply HQ.
    + destruct Hi3 as [o3 w3 n3 f3 c3 r3 p3]. split; try done. cbn in c3 |- *. rewrite <- (insert_id (y_files st) p f) by done.
      eapply (caches_new kmalloc shows posof _ _ _ _ p f f c _ _ o' false); try done; [by apply fi_real with o|by apply fi_real with o|by exists e'|by apply lookup_delete_eq|].
      split; [done|]. split; [exists u; by apply (il_upper _ _ Hoo)|]. apply (il_never _ _ Hoo); [by exists u|done].
    + split_and!; [done..|]. right. right. exists (set_dc_version (oi_version o') x). apply lookup_insert_eq.
Qed.
End impure.
