(* ===== verification/DirFileOps.v ===== *)
(** The operations of open directories keep the invariant and give back what
    the thread held; what an iteration from the start lists. *)

From S2P Require Import Prelude Vfs Types Util Under Nlink Fh Redirect Inode Block Readdir ReaddirTree ReaddirProps Lookup Kernel KernelProps Work CopyUp WorkProps CopyUpSteps CopyUpProps Dir DirSteps DirOps Attr Export ExportSteps File Action DirFile DirFileRead DirFileInv DirFileRun DirFileImpure.
From stdpp Require Import gmap.
Local Open Scope Z_scope.

Section real.
Context {W : Type} `{Vfs W, DirKern W, ExportKern W, DirFileKern W, RbLib, !DirFileLaws W, Under W, Kern W, FileKern W, !RbLaws, !ExportLaws W}.
Context (kmalloc : list centry → string → bool) (shows : Z → list (string * bool) → Prop) (posof : Z → odfile → Z).
Implicit Types (k : kst W) (st : dstate W).

#[local] Abbreviation dinv := (dinv kmalloc shows posof).

(** ** Reading the real directory *)

Lemma dir_w_runs st {A B} (g : W → A * W) (f : A → action (dstate W) B) Q :
  (∀ a st', kstep st st' → awp (f a) st' Q) → awp (dir_w g ≫= f) st Q.
Proof. intros HQ. apply awp_zoom, wp_on_w. intros a w _. apply HQ, kstep_w. Qed.
Lemma iterate_plain_runs st p f fill actor Q :
  y_files st !! p = Some f → (∀ r st', kstep st st' → Q r st') → awp (iterate_plain p fill actor) st Q.
Proof.
  intros Hp HQ. unfold iterate_plain. eapply awp_file; [done|]. cbv zeta. apply dir_w_runs. intros [[taken pos] err] st' Hs.
  apply awp_ret. by apply HQ.
Qed.
Lemma is_impure_runs extra st p f {A} (g : bool → action (dstate W) A) Q :
  dinv extra st → y_files st !! p = Some f → (∀ b : bool, (b = true → od_is_upper f = true) → awp (g b) st Q) →
  awp (ovl_is_impure_dir f ≫= g) st Q.
Proof.
  intros Hi Hp HQ. destruct (file_inode_view kmalloc shows posof _ _ _ _ Hi Hp) as (e & o & He & Ho & Hv & _).
  unfold ovl_is_impure_dir. apply awp_assoc. eapply awp_oview; [done|]. apply awp_mret, HQ. by intros [? _]%andb_true_iff.
Qed.

(** Nothing of the open files has changed. *)
Definition dwell st st' : Prop :=
  lasts (y_k st) (y_k st') ∧ k_held (y_k st') = k_held (y_k st) ∧ y_files st' = y_files st.
Lemma kstep_dwell st st' : kstep st st' → dwell st st'.
Proof. intros (k' & -> & Hl & Hh). by split_and!. Qed.
#[export] Instance dwell_preorder : PreOrder dwell.
Proof. split; [by intros st; split_and!|]. intros a b c (l1 & h1 & f1) (l2 & h2 & f2). split_and!; [by etrans|congruence..]. Qed.

Lemma iterate_real_runs extra st p f pos actor Q :
  dinv extra st → y_files st !! p = Some f → od_is_real f = true →
  (∀ r st', dinv extra st' → dwell st st' → Q r st') → awp (ovl_iterate_real kmalloc p pos actor) st Q.
Proof.
  intros Hi Hp Hr HQ. destruct (file_inode_view kmalloc shows posof _ _ _ _ Hi Hp) as (e & o & He & Ho & Hv & Hd & Hf).
  destruct Hd as (e' & v & pv & He' & _ & _ & [Hpv _]). simplify_eq.
  unfold ovl_iterate_real. eapply awp_file; [done|]. cbv zeta. eapply awp_oview; [done|]. apply awp_get. eapply awp_dent; [done|].
  eapply awp_oview; [exact Hpv|].
  eapply awp_seq with (R := λ _ st', st' = st).
  { case_match; [|by apply awp_ret]. apply awp_get. by destruct (overlay_getattr _ _). }
  intros [err parent_ino] st' ->. case_match; [by apply awp_ret, HQ|]. eapply is_impure_runs; [done..|]. intros b Hb.
  eapply awp_seq with (R := λ c st', dinv extra st' ∧ impure_got st c st').
  { destruct b; [|apply awp_ret; split; [done|]; split_and!; [done..|by right; left]].
    eapply get_impure_runs; [done..|by apply Hb|]. intros c st' Hi' Hg. by split. }
  intros c st' (Hi' & Hl & Hh & Hfs & Hc). assert (dwell st st') as Hdw by by split_and!.
  case_match; [by apply awp_ret, HQ|]. apply awp_get. eapply iterate_plain_runs; [by rewrite Hfs|].
  intros r st2 Hs. apply HQ; [by eapply dinv_kstep|]. etrans; [done|by apply kstep_dwell].
Qed.

End real.

Section ops.
Context {W : Type} `{Vfs W, DirKern W, ExportKern W, DirFileKern W, RbLib, !DirFileLaws W, Under W, Kern W, FileKern W, !RbLaws, !ExportLaws W}.
Context (kmalloc : list centry → string → bool) (shows : Z → list (string * bool) → Prop).
Implicit Types (k : kst W) (st : dstate W).

#[local] Abbreviation dinv := (dinv kmalloc shows).

(** The file [p] is being read and has come to [pos]. *)
Definition at_pos (p pos : Z) : Z → odfile → Z := λ q g, if q =? p then pos else df_pos g.
Definition resting : Z → odfile → Z := λ _ g, df_pos g.
Lemma at_pos_this p pos g : at_pos p pos p g = pos.
Proof. unfold at_pos. by rewrite Z.eqb_refl. Qed.
Lemma at_pos_other p pos q g : q ≠ p → at_pos p pos q g = df_pos g.
Proof. unfold at_pos. by intros ->%Z.eqb_neq. Qed.
Lemma dinv_pos posof posof' extra st :
  (∀ q g, y_files st !! q = Some g → od_is_real g = false → posof' q g = posof q g) → dinv posof extra st → dinv posof' extra st.
Proof.
  intros Heq [o w wn f c r ps]. split; try done.
  - destruct c as [hp hf hc hi hl ho he]. split; try done. intros q g Hq Hn. rewrite Heq; [by apply hf|done|].
    destruct (od_is_real g) eqn:Er; [|done]. destruct (f q g Hq) as (i & o' & _ & _ & Hg). by rewrite (fi_real _ _ Hg Er) in Hn.
  - intros q g Hq Hr. rewrite Heq by done. by apply ps.
Qed.

(** The file [p] moves on, in its cache and in its position. *)
Lemma dinv_move posof posof' extra st p f f' :
  dinv posof extra st → y_files st !! p = Some f → same_file f f' → od_is_real f' = od_is_real f → od_cache f' = od_cache f →
  (∀ q g, q ≠ p → posof' q g = posof q g) → (od_is_real f = false → 0 ≤ posof' p f') →
  (∀ x, od_cache f ≠ NULL → y_caches st !! od_cache f = Some x → od_cursor f' = Some (Readdir.ovl_seek_cursor (dc_list x) (posof' p f'))) →
  dinv posof' extra (set_y_files (<[p := f']> (y_files st)) st).
Proof.
  intros [o w wn fs c r ps] Hp Hs Hr Hc Heq Hpos Hcur. pose proof (same_file_refs _ _ Hs) as Hrefs. destruct Hs as (Hd & Hu & _).
  split; cbn; [done..| | | |].
  - intros q g. destruct (decide (p = q)) as [<-|]; [|rewrite lookup_insert_ne by done; apply fs].
    rewrite lookup_insert_eq. intros [= <-]. destruct (fs p f Hp) as (i & x & Hdir & Hx & [re me up im]).
    exists i, x. rewrite Hd. split_and!; [done..|]. split; rewrite ?Hr, ?Hc, ?Hu; done.
  - eapply caches_cursor; [exact Hp|done|done|intros q g Hq _ _; by apply Heq|done|intros x Hc0 Hx Hsh; split; [by apply Hcur|done]|exact c].
  - by rewrite r, (owned_replace (y_files st) p f f' [] Hp) by (by rewrite Hrefs).
  - intros q g. destruct (decide (p = q)) as [<-|]; [rewrite lookup_insert_eq; intros [= <-]; by rewrite Hr|].
    rewrite lookup_insert_ne by done. rewrite Heq by done. apply ps.
Qed.

(** ** Listing a cache *)

Lemma entries_lookup x j q : in_heap (dc_heap x) (dc_list x) → dc_list x !! j = Some q → dc_entries x !! j = dc_heap x !! q.
Proof.
  unfold dc_entries. revert j. induction (dc_list x) as [|y l IH]; intros j Hin; [done|]. apply Forall_cons in Hin as [Hy Hin].
  destruct (lookup_lt_is_Some_2 _ _ Hy) as [ey Hey]. cbn. rewrite Hey. destruct j as [|j]; cbn; [by intros [= <-]|by apply IH].
Qed.
Lemma entries_there x j q : in_heap (dc_heap x) (dc_list x) → dc_list x !! j = Some q →
  ∃ e, dc_heap x !! q = Some e ∧ drop j (listing (dc_entries x)) = (ce_name e, ce_is_whiteout e) :: drop (S j) (listing (dc_entries x)).
Proof.
  intros Hin Eq. pose proof (entries_lookup _ _ _ Hin Eq) as Hent. destruct (dc_heap x !! q) as [e|] eqn:Ee;
    [|apply (Forall_lookup_1 _ _ _ _ Hin) in Eq; apply lookup_ge_None in Ee; lia].
  exists e. split; [done|]. apply drop_S. unfold listing. by rewrite list_lookup_fmap, Hent.
Qed.
Lemma entries_length x : in_heap (dc_heap x) (dc_list x) → length (dc_entries x) = length (dc_list x).
Proof.
  unfold dc_entries. induction (dc_list x) as [|y l IH]; intros Hin; [done|]. apply Forall_cons in Hin as [Hy Hin].
  destruct (lookup_lt_is_Some_2 _ _ Hy) as [ey Hey]. cbn. rewrite Hey. cbn. by rewrite IH.
Qed.
Definition taken_names (l : list (Z * dirent)) : list string := (λ x, de_name x.2) <$> l.

(** The loop over the entries of the cache that [p] holds. *)
Record looped (st : dstate W) (p pos : Z) (f : odfile) (x : dcache) (actor : diractor)
    (taken : list (Z * dirent)) (r : Z * Z * list (Z * dirent)) st' : Prop := {
  lp_lasts : lasts (y_k st) (y_k st');
  lp_held : k_held (y_k st') = k_held (y_k st);
  lp_listed : ∃ m cur, y_files st' = <[p := set_od_cache (od_cache f) cur f]> (y_files st) ∧
    r.1.2 = pos + Z.of_nat m ∧
    taken_names r.2 = taken_names taken ++ shown_names (take m (drop (Z.to_nat pos) (listing (dc_entries x)))) ∧
    (r.1.1 = 0 → zlen (dc_list x) ≤ r.1.2 ∨ ∃ y, actor r.2 y = false);
}.

Lemma cursor_id f : set_od_cache (od_cache f) (od_cursor f) f = f.
Proof. by destruct f. Qed.
Lemma seek_lookup {A} (l : list A) pos : 0 ≤ pos → l !! Readdir.ovl_seek_cursor l pos = l !! Z.to_nat pos.
Proof.
  intros Hpos. pose proof (seek_loop_spec l 0 pos) as Hs. unfold Readdir.ovl_seek_cursor. unfold zlen in Hs.
  destruct (decide (Z.to_nat pos < length l)%nat); [f_equal; lia|]. rewrite !lookup_ge_None_2; [done|lia..].
Qed.
Lemma seek_next {A} (l : list A) pos : 0 ≤ pos → (Z.to_nat pos < length l)%nat →
  Readdir.ovl_seek_cursor l (pos + 1) = S (Readdir.ovl_seek_cursor l pos).
Proof.
  intros Hpos Hl. pose proof (seek_loop_spec l 0 pos) as Hs. pose proof (seek_loop_spec l 0 (pos + 1)) as Hs1.
  unfold Readdir.ovl_seek_cursor. unfold zlen in *. lia.
Qed.

(** The inode number of an entry of the cache of [p] is found out. *)
Lemma fill_ino_runs posof extra st f i x q e {A} (g : Z * centry → action (dstate W) A) Q :
  dinv posof extra st → open_dir (y_k st) (df_dentry f) i → y_caches st !! od_cache f = Some x → dc_heap x !! q = Some e →
  (∀ err e1 x1 st1, dinv posof extra st1 → dwell st st1 → y_caches st1 !! od_cache f = Some x1 → dc_list x1 = dc_list x →
     same_listing (dc_entries x1) (dc_entries x) → ce_name e1 = ce_name e → awp (g (err, e1)) st1 Q) →
  awp ((if ce_ino e =? 0 then
          '(err, e) ← ovl_cache_update_ino (df_dentry f) e;
          update_cache (od_cache f) (set_dc_entry q e);;
          mret (err, e)
        else mret (0, e)) ≫= g) st Q.
Proof.
  intros Hi Hd Hx Ee HQ. case_match; [|by apply awp_mret, (HQ _ _ x)]. apply awp_assoc.
  eapply awp_seq with (R := λ r st1, ∃ err m, r = (err, set_ce_ino m e) ∧ kstep st st1).
  { eapply update_ino_runs; [apply Hi|exact Hd|]. intros err m st1 ? _. by exists err, m. }
  intros r st1 (err & m & -> & Hs). pose proof (dinv_kstep _ _ _ _ _ _ Hs Hi) as Hi1. destruct Hs as (k' & -> & Hl & Hh).
  cbn beta iota. apply awp_assoc. eapply awp_update_cache; [exact Hx|]. apply awp_mret.
  apply (HQ err (set_ce_ino m e) (set_dc_entry q (set_ce_ino m e) x));
    [|by split_and!|apply lookup_insert_eq|done|by apply entry_ino_listing|done].
  destruct Hi1 as [o1 w1 n1 f1 c1 r1 p1]. split; try done. cbn in c1 |- *. by apply caches_entry.
Qed.

(** From one entry to the next: [ns] is what the first one adds. *)
Lemma looped_next extra st st1 p pos f x x1 actor taken taken1 ns cur Q :
  0 ≤ pos → (Z.to_nat pos < length (dc_list x))%nat → cur = Readdir.ovl_seek_cursor (dc_list x) pos →
  dinv (at_pos p pos) extra st1 → y_files st !! p = Some f → dwell st st1 → y_caches st1 !! od_cache f = Some x1 → dc_list x1 = dc_list x →
  same_listing (dc_entries x1) (dc_entries x) → taken_names taken1 = taken_names taken ++ ns →
  (∀ m, ns ++ shown_names (take m (drop (Z.to_nat (pos + 1)) (listing (dc_entries x)))) =
    shown_names (take (S m) (drop (Z.to_nat pos) (listing (dc_entries x))))) →
  (∀ r st', dinv (at_pos p r.1.2) extra st' → looped st p pos f x actor taken r st' → Q r st') →
  let f2 := set_od_cache (od_cache f) (Some (S cur)) f in
  let st2 := set_y_files (<[p := f2]> (y_files st1)) st1 in
  dinv (at_pos p (pos + 1)) extra st2 ∧ y_files st2 !! p = Some f2 ∧ y_caches st2 !! od_cache f2 = Some x1 ∧
  ∀ r st', dinv (at_pos p r.1.2) extra st' → looped st2 p (pos + 1) f2 x1 actor taken1 r st' → Q r st'.
Proof.
  intros Hpos Hlt -> Hi1 Hp (Hl1 & Hh1 & Hf1) Hx1 Hlist1 Hsame1 Htaken Hns HQ. cbv zeta.
  split_and!; [|cbn; apply lookup_insert_eq|exact Hx1|].
  - eapply dinv_move; [exact Hi1|by rewrite Hf1|by split_and!|done|done| | |].
    + intros q g Hq. by rewrite !at_pos_other.
    + rewrite at_pos_this. lia.
    + intros y _ Hy. rewrite Hx1 in Hy. injection Hy as <-. by rewrite at_pos_this, Hlist1, seek_next.
  - intros r st' Hi' [Hl' Hh' (m & cur & Hf' & Hpos' & Hnames' & Hend')]. apply HQ; [done|]. cbn in Hl', Hh', Hf'.
    split; [by etrans|congruence|]. exists (S m), cur. rewrite Hf1, insert_insert_eq in Hf'.
    rewrite (same_listing_names _ _ Hsame1) in Hnames'. rewrite Hlist1 in Hend'.
    split_and!; [exact Hf'|lia| |exact Hend']. by rewrite Hnames', Htaken, <- app_assoc, Hns.
Qed.

Lemma cached_runs extra actor n : ∀ st p pos f x taken Q,
  dinv (at_pos p pos) extra st → y_files st !! p = Some f → od_cache f ≠ NULL → y_caches st !! od_cache f = Some x →
  (length (dc_list x) - Z.to_nat pos ≤ n)%nat →
  (∀ r st', dinv (at_pos p r.1.2) extra st' → looped st p pos f x actor taken r st' → Q r st') →
  awp (iterate_cached n p pos actor taken) st Q.
Proof.
  induction n as [|n IH]; intros st p pos f x taken Q Hi Hp Hc Hx Hn HQ.
  all: destruct (di_files _ _ _ _ _ Hi p f Hp) as (i & o & Hd & Ho & Hf).
  all: assert (od_is_real f = false) as Hr by (destruct (od_is_real f) eqn:E; [by rewrite (fi_real _ _ Hf E) in Hc|done]).
  all: pose proof (di_pos _ _ _ _ _ Hi p f Hp Hr) as Hpos; rewrite at_pos_this in Hpos.
  all: destruct (co_file _ _ _ _ _ _ _ _ (di_caches _ _ _ _ _ Hi) p f Hp Hc) as (x' & Hx' & Hcur & _); simplify_eq; rewrite at_pos_this in Hcur.
  all: assert (∀ err st1, dinv (at_pos p pos) extra st1 → dwell st st1 → (err = 0 → zlen (dc_list x) ≤ pos ∨ ∃ y, actor taken y = false) →
    Q (err, pos, taken) st1) as Hstop.
  1, 3: intros err st1 Hi1 (Hl1 & Hh1 & Hf1) Hend; apply HQ; [done|]; split; [done..|]; exists 0%nat, (od_cursor f); cbn [take];
    split_and!; [|cbn; lia|by rewrite app_nil_r|done]; by rewrite cursor_id, insert_id.
  all: cbn [iterate_cached]; (eapply awp_file; [done|]); (eapply awp_deref; [exact Hcur|]); (eapply awp_cache; [done|]).
  all: rewrite seek_lookup by done.
  { rewrite lookup_ge_None_2 by lia. apply awp_ret, Hstop; [done..|]. intros _. left. unfold zlen. lia. }
  destruct (dc_list x !! Z.to_nat pos) as [q|] eqn:Eq;
    [|apply awp_ret, Hstop; [done..|]; intros _; left; apply lookup_ge_None in Eq; unfold zlen; lia].
  pose proof (co_entries _ _ _ _ _ _ _ _ (di_caches _ _ _ _ _ Hi) _ _ Hx) as Hin. pose proof (lookup_lt_Some _ _ _ Eq) as Hlt.
  destruct (entries_there _ _ _ Hin Eq) as (e & Ee & Hdrop). cbv zeta. eapply awp_deref; [exact Ee|].
  assert (∀ st1 x1 taken1 ns, dinv (at_pos p pos) extra st1 → dwell st st1 → y_caches st1 !! od_cache f = Some x1 → dc_list x1 = dc_list x →
    same_listing (dc_entries x1) (dc_entries x) → taken_names taken1 = taken_names taken ++ ns →
    (∀ m, ns ++ shown_names (take m (drop (Z.to_nat (pos + 1)) (listing (dc_entries x)))) =
      shown_names (take (S m) (drop (Z.to_nat pos) (listing (dc_entries x))))) →
    awp (update_dir_file p (set_od_cache (od_cache f) (Some (S (Readdir.ovl_seek_cursor (dc_list x) pos))));;
         iterate_cached n p (pos + 1) actor taken1) st1 Q) as Hnext.
  { intros st1 x1 taken1 ns Hi1 Hdw Hx1 Hlist1 Hsame1 Htaken Hns. eapply awp_update_file; [by destruct Hdw as (_ & _ & ->)|].
    pose proof (looped_next extra st st1 p pos f x x1 actor taken taken1 ns _ Q Hpos Hlt eq_refl Hi1 Hp Hdw Hx1 Hlist1 Hsame1 Htaken Hns HQ) as (Hi2 & Hp2 & Hx2 & HQ2).
    eapply (IH _ p (pos + 1) _ x1); [exact Hi2|exact Hp2|done|exact Hx2|rewrite Hlist1; lia|exact HQ2]. }
  rewrite Hdrop in Hnext. replace (Z.to_nat (pos + 1)) with (S (Z.to_nat pos)) in Hnext by lia. cbn [take] in Hnext.
  destruct (ce_is_whiteout e) eqn:Ew.
  { eapply (Hnext st x taken []); try done. by rewrite app_nil_r. }
  eapply fill_ino_runs; [done..|]. intros err e1 x1 st1 Hi1 Hdw Hx1 Hl1 Hs1 Hn1. cbn beta iota.
  destruct (Z.eqb_spec err 0) as [->|Hne]; cbn [negb]; [|by apply awp_ret, Hstop].
  case_match eqn:Ha; [apply awp_ret, Hstop; [done..|]; intros _; right; eexists; by apply negb_true_iff|].
  eapply (Hnext st1 x1 _ [ce_name e]); try done. unfold taken_names. rewrite fmap_app. cbn. by rewrite Hn1.
Qed.

End ops.

(** ** Iterating *)

Section iterate.
Context {W : Type} `{Vfs W, DirKern W, ExportKern W, DirFileKern W, RbLib, !DirFileLaws W, Under W, Kern W, FileKern W, !RbLaws, !ExportLaws W}.
Context (kmalloc : list centry → string → bool).
Implicit Types (k : kst W) (st : dstate W) (shows : Z → list (string * bool) → Prop).

#[local] Abbreviation dinv := (dinv kmalloc).

(** The file [p] holds a cache that lists [l]. *)
Definition holding st (p : Z) (l : list (string * bool)) : Prop :=
  ∃ f x, y_files st !! p = Some f ∧ od_cache f ≠ NULL ∧ y_caches st !! od_cache f = Some x ∧ listing (dc_entries x) = l.

(** What a call has taken is what [l] shows from [pos] on, up to where it has
    come; without an error that is the end, or the actor refused more. *)
Definition reads_on (l : list (string * bool)) (pos : Z) (actor : diractor) (r : Z * Z * list (Z * dirent)) : Prop :=
  ∃ m, r.1.2 = pos + Z.of_nat m ∧ taken_names r.2 = shown_names (take m (drop (Z.to_nat pos) l)) ∧
    (r.1.1 = 0 → zlen l ≤ r.1.2 ∨ ∃ y, actor r.2 y = false).

(** [l] was read from the layers when the inode [i] had this version. *)
Definition listed k (i version : Z) (l : list (string * bool)) : Prop :=
  ∃ k0 es, lasts k0 k ∧ merged_at kmalloc k0 i version es ∧ listing es = l.
Lemma listed_lasts k k' i version l : lasts k k' → listed k i version l → listed k' i version l.
Proof. intros Hl (k0 & es & Hk0 & Hm). exists k0, es. split; [by etrans|done]. Qed.

Lemma dinv_shows shows shows' posof extra st :
  (∀ p l, holding st p l → shows p l → shows' p l) → dinv shows posof extra st → dinv shows' posof extra st.
Proof.
  intros Hsh [o w wn f c r ps]. split; try done. destruct c as [hp hf hc hi hl ho he]. split; try done.
  intros p g Hp Hn. destruct (hf p g Hp Hn) as (x & Hx & Hcur & Hs). exists x. split_and!; [done..|].
  apply Hsh; [|done]. by exists g, x.
Qed.
Lemma held_listed shows posof extra st p f e x :
  dinv shows posof extra st → y_files st !! p = Some f → y_caches st !! od_cache f = Some x → k_dents (y_k st) !! df_dentry f = Some e →
  listed (y_k st) (dn_inode e) (dc_version x) (listing (dc_entries x)).
Proof.
  intros Hi Hp Hx He. pose proof (di_caches _ _ _ _ _ Hi) as Hok. destruct (co_owner _ _ _ _ _ _ _ _ Hok _ _ Hx) as (i & Hfi & _ & Hrd).
  destruct (Hfi p f Hp eq_refl) as (e' & He' & Hie). simplify_eq.
  destruct Hrd as (k0 & Hl0 & Hm); [rewrite (co_count _ _ _ _ _ _ _ _ Hok _ _ Hx); by eapply holders_pos|]. by exists k0, (dc_entries x).
Qed.

(** From a file that holds a cache. *)
Lemma list_runs shows extra st p f x pos actor Q :
  dinv shows (at_pos p pos) extra st → y_files st !! p = Some f → od_cache f ≠ NULL → y_caches st !! od_cache f = Some x →
  (∀ r st', dinv shows (at_pos p r.1.2) extra st' → lasts (y_k st) (y_k st') → k_held (y_k st') = k_held (y_k st) →
    (∃ f', y_files st' = <[p := f']> (y_files st) ∧ same_file f f') →
    holding st' p (listing (dc_entries x)) → reads_on (listing (dc_entries x)) pos actor r → Q r st') →
  awp (f ← dir_file p; cache ← cache_at (od_cache f); iterate_cached (length (dc_list cache)) p pos actor []) st Q.
Proof.
  intros Hi Hp Hc Hx HQ. set (l := listing (dc_entries x)). set (shows' := λ q l', shows q l' ∧ (q = p → l' = l)).
  assert (dinv shows' (at_pos p pos) extra st) as Hi'.
  { eapply dinv_shows; [|exact Hi]. intros q l' (g & y & Hg & _ & Hy & <-) Hs. split; [done|]. intros ->. by simplify_eq. }
  eapply awp_file; [done|]. eapply awp_cache; [done|]. eapply (cached_runs kmalloc shows'); [done..|lia|].
  intros r st' Hi2 [Hl Hh (m & cur & Hf' & Hpos & Hn & Hend)].
  assert (y_files st' !! p = Some (set_od_cache (od_cache f) cur f)) as Hp' by (rewrite Hf'; apply lookup_insert_eq).
  apply HQ; [|done|done| | |].
  - eapply dinv_shows; [|exact Hi2]. by intros q l' _ [? _].
  - eexists. split; [exact Hf'|]. by split_and!.
  - destruct (co_file _ _ _ _ _ _ _ _ (di_caches _ _ _ _ _ Hi2) p _ Hp' Hc) as (y & Hy & _ & _ & Hly).
    eexists _, y. split_and!; [exact Hp'|done|exact Hy|by apply Hly].
  - exists m. split_and!; [done|exact Hn|]. intros Hr. destruct (Hend Hr) as [Hlen|]; [left|by right].
    unfold l, listing, zlen in *. rewrite length_fmap, entries_length; [done|].
    by apply (co_entries _ _ _ _ _ _ _ _ (di_caches _ _ _ _ _ Hi) _ _ Hx).
Qed.

(** The file [p] gets a cache of the present version, at the entry of [pos]. *)
Lemma get_and_seek_runs shows extra st p f pos Q :
  dinv shows (at_pos p pos) extra st → (∀ l, shows p l) → y_files st !! p = Some f → od_cache f = NULL → od_is_real f = false →
  (∀ err st', err ≠ 0 → dinv shows (at_pos p pos) extra st' → dwell st st' → Q err st') →
  (∀ f' st', dinv shows (at_pos p pos) extra st' → y_k st' = y_k st → y_files st' = <[p := f']> (y_files st) → same_file f f' →
     od_cache f' ≠ NULL →
     (∀ v, view_at (y_k st) (df_dentry f) = Some v → ∃ x, y_caches st' !! od_cache f' = Some x ∧ dc_version x = oi_version (od_inode v)) →
     Q 0 st') →
  awp (c ← ovl_cache_get kmalloc (df_dentry f);
       if IS_ERR c then mret (PTR_ERR c) else
       update_dir_file p (set_od_cache c (od_cursor f));;
       ovl_seek_cursor p pos;;
       mret 0) st Q.
Proof.
  intros Hi Hsh Hp Hc Hr He HQ. apply awp_bind. eapply cache_get_runs; [done..| |].
  - intros c caches icache. cbv zeta. intros Hec Hi'. rewrite Hec. apply awp_ret, He; [|exact Hi'|by split_and!].
    unfold PTR_ERR. apply IS_ERR_spec in Hec. lia.
  - intros c st' (caches & icache & x & -> & Hcp & Hx & Hver & Hok). rewrite IS_ERR_pos by done.
    eapply awp_update_file; [exact Hp|]. unfold ovl_seek_cursor. apply awp_assoc. eapply awp_file; [cbn; apply lookup_insert_eq|].
    apply awp_assoc. eapply awp_cache; [exact Hx|]. eapply awp_update_file; [cbn; apply lookup_insert_eq|]. apply awp_ret.
    cbn [y_files set_y_files od_cache set_od_cache]. rewrite insert_insert_eq.
    set (cur := Readdir.ovl_seek_cursor (dc_list x) pos). set (f' := set_od_cache c (Some cur) _).
    eapply (HQ f' _); [|done..|by split_and!|unfold NULL; cbn; lia|].
    + apply (dinv_file kmalloc shows (at_pos p pos) extra st p f f' caches icache []); [done..| | | |done].
      * destruct (di_files _ _ _ _ _ Hi p f Hp) as (i & o & Hd & Ho & [r m u im]). exists i, o. split_and!; [done..|].
        split; cbn; [congruence|exact m|exact u|congruence].
      * intros _. pose proof (di_pos _ _ _ _ _ Hi p f Hp Hr) as Hpos. by rewrite at_pos_this in Hpos |- *.
      * apply (Hok f'); [done| |by apply Hsh|done]. by rewrite at_pos_this.
    + intros v Hv. exists x. split; [exact Hx|by apply Hver].
Qed.

(** What [ovl_iterate] has done when it starts to read: from the start, the
    file is as its directory is now. *)
Definition reset_at st (f : odfile) (pos : Z) (f1 : odfile) st1 : Prop :=
  y_k st1 = y_k st ∧ same_file f f1 ∧ (pos ≠ 0 → f1 = f ∧ st1 = st) ∧
  (pos = 0 → ∀ v, view_at (y_k st) (df_dentry f) = Some v → od_is_real f1 = negb (ovl_test_flag OVL_WHITEOUTS (od_inode v)) ∧
    (od_cache f1 ≠ NULL → ∃ x, y_caches st1 !! od_cache f1 = Some x ∧ dc_version x = oi_version (od_inode v))).
Lemma iterate_reset_runs shows extra st p f pos {A} (g : unit → action (dstate W) A) Q :
  dinv shows (at_pos p pos) extra st → y_files st !! p = Some f →
  (∀ f1 st1, dinv shows (at_pos p pos) extra st1 → y_files st1 = <[p := f1]> (y_files st) → reset_at st f pos f1 st1 → awp (g tt) st1 Q) →
  awp ((if pos =? 0 then ovl_dir_reset p else mret tt) ≫= g) st Q.
Proof.
  intros Hi Hp HQ. destruct (Z.eqb_spec pos 0) as [->|Hn].
  - apply awp_bind. eapply reset_runs; [done..|intros g' _; by rewrite at_pos_this|].
    intros f1 caches icache. cbv zeta. intros Hi1 (Hs & _ & Hv). eapply (HQ f1); [done..|]. by split_and!.
  - apply awp_mret, (HQ f); [done|by rewrite insert_id|by split_and!].
Qed.

(** Reading the real directory of [p]. *)
Lemma iterate_real_file_runs shows extra st p f pos actor Q :
  dinv shows (at_pos p pos) extra st → y_files st !! p = Some f → od_is_real f = true →
  (∀ r st', dinv shows (at_pos p r.1.2) extra st' → dwell st st' → Q r st') →
  awp (ofs ← aget (λ st, k_ofs (y_k st));
       e ← kern (dent (df_dentry f));
       parent ← kern (oview (dn_parent e));
       impure ← ovl_is_impure_dir f;
       if negb (ovl_xino_bits ofs =? 0) ||
          (negb (ovl_same_sb ofs =? NULL) && (impure || OVL_TYPE_MERGE (ovl_path_type parent)))
       then ovl_iterate_real kmalloc p pos actor
       else iterate_plain p id actor) st Q.
Proof.
  intros Hi Hp Hr HQ. destruct (file_inode_view kmalloc shows (at_pos p pos) _ _ _ _ Hi Hp) as (e & o & He & _ & _ & Hd & _).
  assert (∀ r st', dinv shows (at_pos p pos) extra st' → dwell st st' → Q r st') as HQ'.
  { intros r st' Hi' Hdw. apply HQ; [|done]. eapply dinv_pos; [|exact Hi']. intros q g Hq Hg.
    destruct (decide (q = p)) as [->|]; [|by rewrite !at_pos_other]. destruct Hdw as (_ & _ & Hf). rewrite Hf in Hq. congruence. }
  apply awp_get. destruct Hd as (e' & v' & pv & He' & _ & _ & [Hpv _]). eapply awp_dent; [done|]. simplify_eq.
  eapply awp_oview; [exact Hpv|]. eapply is_impure_runs; [done..|]. intros b _. case_match.
  - eapply iterate_real_runs; [done..|]. intros r st' Hi' Hdw. by apply HQ'.
  - eapply iterate_plain_runs; [done|]. intros r st' Hs. apply HQ'; [by eapply dinv_kstep|by apply kstep_dwell].
Qed.

Record iterated st (p : Z) (f : odfile) (pos : Z) (actor : diractor) (r : Z * Z * list (Z * dirent)) st' : Prop := {
  it_lasts : lasts (y_k st) (y_k st');
  it_held : k_held (y_k st') = k_held (y_k st);
  it_file : ∃ f', y_files st' = <[p := f']> (y_files st) ∧ same_file f f';
  (** a cache that is held is read on *)
  it_continues l : pos ≠ 0 → holding st p l → holding st' p l ∧ reads_on l pos actor r;
  (** otherwise one of the present version is read *)
  it_starts e o : k_dents (y_k st) !! df_dentry f = Some e → k_inodes (y_k st) !! dn_inode e = Some o →
    pos = 0 ∧ ovl_test_flag OVL_WHITEOUTS o = true ∨ pos ≠ 0 ∧ od_is_real f = false ∧ od_cache f = NULL →
    r.1.1 ≠ 0 ∧ r.1.2 = pos ∧ r.2 = [] ∨
    ∃ l, holding st' p l ∧ reads_on l pos actor r ∧ listed (y_k st') (dn_inode e) (oi_version o) l;
}.

Lemma iterate_runs shows extra st p f pos actor Q :
  dinv shows (at_pos p pos) extra st → y_files st !! p = Some f → (pos = 0 ∨ od_cache f = NULL → ∀ l, shows p l) →
  (∀ r st', dinv shows (at_pos p r.1.2) extra st' → iterated st p f pos actor r st' → Q r st') →
  awp (ovl_iterate kmalloc p pos actor) st Q.
Proof.
  intros Hi Hp Hsh HQ. unfold ovl_iterate. eapply iterate_reset_runs; [done..|].
  intros f1 st1 Hi1 Hf1 (Hk1 & Hs1 & Hn1 & Hv1). assert (y_files st1 !! p = Some f1) as Hp1 by (rewrite Hf1; apply lookup_insert_eq).
  pose proof Hs1 as (Hd1 & _). destruct (file_inode_view kmalloc shows (at_pos p pos) _ _ _ _ Hi Hp) as (e & o & He & Ho & Hv & _ & Hf).
  eapply awp_file; [done|]. cbv zeta. destruct (od_is_real f1) eqn:Er.
  { eapply iterate_real_file_runs; [done..|]. intros r st' Hi' (Hl & Hh & Hf'). apply HQ; [done|].
    split; [by rewrite <- Hk1|congruence|exists f1; split; [congruence|done]| |].
    - intros l Hz (g & x & Hg & Hc & _). destruct (Hn1 Hz) as [-> _]. simplify_eq. by rewrite (fi_real _ _ Hf Er) in Hc.
    - intros e' o' He' Ho' Hor. simplify_eq. destruct Hor as [[Hz Hw]|(Hz & Hr & _)].
      + destruct (Hv1 Hz _ Hv) as [Hr _]. cbn [od_inode] in Hr. rewrite Hw in Hr. cbn in Hr. congruence.
      + destruct (Hn1 Hz) as [-> _]. congruence. }
  eapply awp_seq with (R := λ err st2, ∃ f2, dinv shows (at_pos p pos) extra st2 ∧ lasts (y_k st) (y_k st2) ∧ k_held (y_k st2) = k_held (y_k st) ∧
    y_files st2 = <[p := f2]> (y_files st) ∧ same_file f f2 ∧ (err = 0 ∨ od_cache f1 = NULL) ∧ (err = 0 → y_k st2 = y_k st ∧ od_cache f2 ≠ NULL ∧
      (od_cache f1 ≠ NULL → st2 = st1) ∧
      (pos = 0 ∨ od_cache f1 = NULL → ∃ x, y_caches st2 !! od_cache f2 = Some x ∧ dc_version x = oi_version o))).
  { destruct (Z.eqb_spec (od_cache f1) NULL) as [Hc|Hc]; cbn [negb].
    - eapply get_and_seek_runs; [exact Hi1| |exact Hp1|done|done| |].
      + apply Hsh. destruct (decide (pos = 0)) as [|Hz]; [by left|right]. by destruct (Hn1 Hz) as [<- _].
      + intros err st2 Hne Hi2 (Hl2 & Hh2 & Hf2). rewrite Hk1 in *. exists f1. split_and!; [done..|congruence|done|by right|done].
      + intros f2 st2 Hi2 Hk2 Hf2 Hs2 Hcf2 Hver. exists f2. rewrite Hk2, Hk1. rewrite Hf1, insert_insert_eq in Hf2.
        split_and!; [done..|by etrans|by left|]. intros _. split_and!; [done..|]. intros _. rewrite Hk1, Hd1 in Hver. exact (Hver _ Hv).
    - apply awp_ret. rewrite Hk1. exists f1. split_and!; [done..|by left|]. intros _. split_and!; [done..|]. intros [Hz|]; [|done].
      destruct (Hv1 Hz _ Hv) as [_ Hx]. by apply Hx. }
  intros err st2 (f2 & Hi2 & Hl2 & Hh2 & Hf2 & Hs2 & Herr & Hok2).
  destruct (Z.eqb_spec err 0) as [->|Hne]; cbn [negb].
  - destruct (Hok2 eq_refl) as (Hk2 & Hc2 & Hsame & Hver). assert (y_files st2 !! p = Some f2) as Hp2 by (rewrite Hf2; apply lookup_insert_eq).
    destruct (co_file _ _ _ _ _ _ _ _ (di_caches _ _ _ _ _ Hi2) p f2 Hp2 Hc2) as (x & Hx & _).
    assert (k_dents (y_k st2) !! df_dentry f2 = Some e) as He2 by (rewrite Hk2; by destruct Hs2 as (-> & _)).
    pose proof (held_listed _ _ _ _ _ _ _ _ Hi2 Hp2 Hx He2) as Hlisted.
    eapply list_runs; [exact Hi2|exact Hp2|exact Hc2|exact Hx|].
    intros r st' Hi' Hl' Hh' (f3 & Hf3 & Hs3) Hhold Hreads. rewrite Hk2 in Hl', Hh'. apply HQ; [done|]. split; [done..| | |].
    + exists f3. rewrite Hf2, insert_insert_eq in Hf3. split; [done|by etrans].
    + intros l Hz (g & y & Hg & Hcg & Hy & <-). simplify_eq. destruct (Hn1 Hz) as [-> ->]. pose proof (Hsame Hcg) as ->. by simplify_eq.
    + intros e' o' He' Ho' Hor. simplify_eq. right. exists (listing (dc_entries x)). split_and!; [done..|].
      destruct Hver as (x' & Hx' & Hver); [destruct Hor as [[Hz _]|(Hz & _ & Hc)]; [by left|right; by destruct (Hn1 Hz) as [-> _]]|]. simplify_eq.
      rewrite <- Hver. eapply listed_lasts, Hlisted. by rewrite Hk2.
  - apply awp_ret, HQ; [done|]. destruct Herr as [|Hc1]; [done|]. split; [done..|by exists f2| |].
    + intros l Hz (g & y & Hg & Hcg & _). destruct (Hn1 Hz) as [-> _]. by simplify_eq.
    + intros e' o' _ _ _. by left.
Qed.
End iterate.
