(* ===== verification/DirFileCalls.v ===== *)
(** The calls of the VFS on an open directory: reading on, seeking, syncing,
    opening and releasing it, and the end of an inode.  Each returns, keeps the
    invariant and gives back what the thread held. *)

From S2P Require Import Prelude Vfs Types Util Under Nlink Fh Redirect Inode Block Readdir ReaddirTree ReaddirProps Lookup Kernel KernelProps Work CopyUp WorkProps CopyUpSteps CopyUpProps Dir DirSteps DirOps Attr Export ExportSteps File Action DirFile DirFileRead DirFileInv DirFileRun DirFileImpure DirFileOps.
From stdpp Require Import gmap.
Local Open Scope Z_scope.

Section calls.
Context {W : Type} `{Vfs W, Under W, Kern W, DirKern W, FileKern W, ExportKern W, DirFileKern W, RbLib}.
Context (kmalloc : list centry → string → bool).

#[local] Abbreviation dirs := (action (dstate W)).

(** iterate_dir of fs/readdir.c around [ovl_iterate], for getdents: the result
    and what the actor has taken. *)
Definition iterate_call (p : Z) (actor : diractor) : dirs (Z * list (Z * dirent)) :=
  f ← dir_file p;
  i ← file_inode_of (df_dentry f);
  kern (inode_lock i);;
  '(err, pos, taken) ← ovl_iterate kmalloc p (df_pos f) actor;
  update_dir_file p (set_df_pos pos);;
  kern (inode_unlock i);;
  mret (err, taken).

(** What the end of the inode [i] does to its cache. *)
Definition evict (i : Z) : dirs unit :=
  ovl_dir_cache_free i;; ovl_set_dir_cache i NULL.

Inductive dir_call : Type :=
| CallOpen (p d flags : Z)
| CallIterate (p : Z) (actor : diractor)
| CallLlseek (p offset origin : Z)
| CallRelease (p : Z)
| CallEvict (i : Z).

Definition serve_call (c : dir_call) : dirs (Z * list (Z * dirent)) :=
  match c with
  | CallOpen p d flags => res ← ovl_dir_open p d flags; mret (res, [])
  | CallIterate p actor => iterate_call p actor
  | CallLlseek p offset origin => res ← ovl_dir_llseek p offset origin; mret (res, [])
  | CallRelease p => res ← ovl_dir_release p; mret (res, [])
  | CallEvict i => evict i;; mret (0, [])
  end.

(** What the VFS guarantees: a file is open when it is used, is not released
    while another call on it ([busy]) is under way, and keeps its inode. *)
Definition call_ok (busy : list Z) (st : dstate W) (c : dir_call) : Prop :=
  match c with
  | CallOpen p d _ => y_files st !! p = None ∧ ∃ i, open_dir (y_k st) d i
  | CallIterate p _ | CallLlseek p _ _ => is_Some (y_files st !! p)
  | CallRelease p => is_Some (y_files st !! p) ∧ p ∉ busy
  | CallEvict i => ∀ p f, y_files st !! p = Some f → ¬ on_inode (y_k st) f i
  end.
End calls.

(** ** Locks around the calls *)

Section runs.
Context {W : Type} `{Vfs W, DirKern W, ExportKern W, DirFileKern W, RbLib, !DirFileLaws W, Under W, Kern W, FileKern W, !RbLaws, !ExportLaws W}.
Context (kmalloc : list centry → string → bool) (shows : Z → list (string * bool) → Prop).
Implicit Types (k : kst W) (st : dstate W).

#[local] Abbreviation dinv := (dinv kmalloc shows).

Definition relock (h : held) st : dstate W := set_y_k (set_k_held h (y_k st)) st.
Lemma relock_lasts h st : lasts (y_k st) (y_k (relock h st)).
Proof. apply lasts_same; [done..|by left]. Qed.
Lemma dinv_relock posof extra h st : 0 ≤ h_write h → dinv posof extra st → dinv posof extra (relock h st).
Proof. intros Hw Hi. apply dinv_k; [apply relock_lasts|done|done]. Qed.
Lemma awp_lock i st {A} (f : unit → action (dstate W) A) Q :
  awp (f tt) (relock (lock_held [LInode (i_ptr i)] (k_held (y_k st))) st) Q → awp (kern (inode_lock i) ≫= f) st Q.
Proof. intros HQ. apply awp_zoom. exact HQ. Qed.
Lemma awp_unlock i h st {A} (f : unit → action (dstate W) A) Q :
  k_held (y_k st) = lock_held [LInode (i_ptr i)] h → awp (f tt) (relock h st) Q → awp (kern (inode_unlock i) ≫= f) st Q.
Proof.
  intros Hh HQ. apply awp_zoom. eapply wp_unlock; [rewrite Hh; apply unlock1_head|]. rewrite Hh. cbn. by destruct h.
Qed.
Lemma file_inode_runs posof extra st p f {A} (g : inode → action (dstate W) A) Q :
  dinv posof extra st → y_files st !! p = Some f → (∀ i, awp (g i) st Q) → awp (file_inode_of (df_dentry f) ≫= g) st Q.
Proof.
  intros Hi Hp HQ. destruct (file_inode_view kmalloc shows posof _ _ _ _ Hi Hp) as (e & o & _ & _ & Hv & _).
  unfold file_inode_of. apply awp_assoc. eapply awp_oview; [exact Hv|]. apply awp_mret, HQ.
Qed.

(** What a call on [p] leaves: the other files are as they were. *)
Record called (p : Z) st st' : Prop := {
  cl_lasts : lasts (y_k st) (y_k st');
  cl_held : k_held (y_k st') = k_held (y_k st);
  cl_others q : q ≠ p → y_files st' !! q = y_files st !! q;
}.

(** A call whose body runs under the lock [h] is what the thread held. *)
Lemma unlock_called posof extra i h p st st1 {A} (f : unit → action (dstate W) A) Q :
  0 ≤ h_write h → k_held (y_k st) = h → dinv posof extra st1 → lasts (y_k st) (y_k st1) →
  k_held (y_k st1) = lock_held [LInode (i_ptr i)] h → (∀ q, q ≠ p → y_files st1 !! q = y_files st !! q) →
  (dinv posof extra (relock h st1) → called p st (relock h st1) → awp (f tt) (relock h st1) Q) →
  awp (kern (inode_unlock i) ≫= f) st1 Q.
Proof.
  intros Hw Hh Hi Hl Hh1 Hf HQ. eapply awp_unlock; [exact Hh1|]. apply HQ; [by apply dinv_relock|].
  split; [etrans; [exact Hl|apply relock_lasts]|by rewrite Hh|exact Hf].
Qed.

(** ** iterate_dir *)

Lemma rest_pos extra st p f : y_files st !! p = Some f → dinv resting extra st → dinv (at_pos p (df_pos f)) extra st.
Proof.
  intros Hp. apply dinv_pos. intros q g Hq _. destruct (decide (q = p)) as [->|Hn]; [|by rewrite at_pos_other].
  rewrite at_pos_this. unfold resting. congruence.
Qed.
(** The position is stored. *)
Lemma store_pos extra st p f pos :
  y_files st !! p = Some f → dinv (at_pos p pos) extra st →
  dinv resting extra (set_y_files (<[p := set_df_pos pos f]> (y_files st)) st).
Proof.
  intros Hp Hi. eapply dinv_move; [exact Hi|exact Hp|by split_and!|done|done|intros q g Hq; by rewrite at_pos_other| |].
  - intros Hr. pose proof (di_pos _ _ _ _ _ Hi p f Hp Hr) as Hpos. by rewrite at_pos_this in Hpos.
  - intros x Hc Hx. destruct (co_file _ _ _ _ _ _ _ _ (di_caches _ _ _ _ _ Hi) p f Hp Hc) as (x' & Hx' & Hcur & _).
    simplify_eq. by rewrite at_pos_this in Hcur.
Qed.

(** What reading on [p] does; [r] is the result, the position it comes to and
    what the actor has taken. *)
Record read_on st (p : Z) (f : odfile) (actor : diractor) (r : Z * Z * list (Z * dirent)) st' : Prop := {
  ro_called : called p st st';
  ro_file : ∃ f', y_files st' !! p = Some f' ∧ same_file f f' ∧ df_pos f' = r.1.2;
  ro_continues l : df_pos f ≠ 0 → holding st p l → holding st' p l ∧ reads_on l (df_pos f) actor r;
  ro_starts e o : k_dents (y_k st) !! df_dentry f = Some e → k_inodes (y_k st) !! dn_inode e = Some o →
    df_pos f = 0 ∧ ovl_test_flag OVL_WHITEOUTS o = true ∨ df_pos f ≠ 0 ∧ od_is_real f = false ∧ od_cache f = NULL →
    r.1.1 ≠ 0 ∧ r.1.2 = df_pos f ∧ r.2 = [] ∨
    ∃ l, holding st' p l ∧ reads_on l (df_pos f) actor r ∧ listed kmalloc (y_k st') (dn_inode e) (oi_version o) l;
}.

Lemma holding_stored st p f n h l :
  y_files st !! p = Some f → holding st p l → holding (relock h (set_y_files (<[p := set_df_pos n f]> (y_files st)) st)) p l.
Proof. intros Hp (g & x & Hg & Hc & Hx & Hl). simplify_eq. eexists _, x. split_and!; [cbn; apply lookup_insert_eq|done..]. Qed.

Lemma iterate_call_runs extra st p f actor Q :
  dinv resting extra st → y_files st !! p = Some f → (df_pos f = 0 ∨ od_cache f = NULL → ∀ l, shows p l) →
  (∀ r st', dinv resting extra st' → read_on st p f actor r st' → Q (r.1.1, r.2) st') →
  awp (iterate_call kmalloc p actor) st Q.
Proof.
  intros Hi Hp Hsh HQ. pose proof (di_write _ _ _ _ _ Hi) as Hw. unfold iterate_call. eapply awp_file; [done|].
  eapply file_inode_runs; [done..|]. intros i. apply awp_lock. set (st1 := relock _ st).
  assert (dinv resting extra st1) as Hi1 by by apply dinv_relock. apply awp_bind.
  eapply iterate_runs; [by eapply rest_pos|done|exact Hsh|]. intros r st2 Hi2 [Hl Hh (f2 & Hf2 & Hs2) Hcont Hstart].
  assert (y_files st2 !! p = Some f2) as Hp2 by (rewrite Hf2; apply lookup_insert_eq).
  specialize (HQ r). destruct r as [[err pos] taken]. cbn [fst snd] in *.
  eapply awp_update_file; [exact Hp2|]. eapply (unlock_called resting extra i (k_held (y_k st)) p st); [done|done|by apply store_pos| |exact Hh| |].
  - etrans; [apply relock_lasts|exact Hl].
  - intros q Hq. cbn. rewrite lookup_insert_ne, Hf2, lookup_insert_ne by done. done.
  - intros Hi3 Hc3. apply awp_ret. apply HQ; [exact Hi3|]. split; [exact Hc3| | |].
    + eexists. split; [cbn; apply lookup_insert_eq|]. split; [etrans; [exact Hs2|by split_and!]|done].
    + intros l Hz Hold. destruct (Hcont l Hz Hold) as [Hh2 Hr]. split; [by eapply holding_stored|exact Hr].
    + intros e o He Ho Hor. destruct (Hstart e o He Ho Hor) as [|(l & Hh2 & Hr & Hls)]; [by left|right]. exists l.
      split_and!; [by eapply holding_stored|exact Hr|]. eapply listed_lasts, Hls. apply (relock_lasts (k_held (y_k st)) st2).
Qed.

(** ** Seeking *)

Lemma real_no_cache posof extra st p f : dinv posof extra st → y_files st !! p = Some f → od_is_real f = true → od_cache f = NULL.
Proof. intros Hi Hp. destruct (di_files _ _ _ _ _ Hi p f Hp) as (i & o & _ & _ & Hf). apply (fi_real _ _ Hf). Qed.

Lemma seek_spec {A} (entries : option (list A)) f_pos offset origin cur :
  0 ≤ f_pos → let '(res, pos, cur') := Readdir.ovl_dir_llseek entries f_pos offset origin cur in
  0 ≤ pos ∧ ∀ l, entries = Some l → cur = Readdir.ovl_seek_cursor l f_pos → cur' = Readdir.ovl_seek_cursor l pos.
Proof.
  intros Hf. unfold Readdir.ovl_dir_llseek. cbv zeta. set (off := if origin =? 1 then _ else offset).
  destruct (negb ((origin =? 0) || (origin =? 1))); [split; [done|by intros l _]|]. destruct (Z.ltb_spec off 0); [split; [done|by intros l _]|].
  destruct (Z.eqb_spec off f_pos); cbn [negb]; [split; [done|by intros l _]|].
  split; [done|]. by intros l -> _.
Qed.

(** In a merged directory, the cursor goes where the position goes. *)
Lemma merged_seek_runs extra st p f offset origin Q :
  dinv resting extra st → y_files st !! p = Some f → od_is_real f = false →
  (∀ res pos cur, let f' := set_od_cache (od_cache f) cur (set_df_pos pos f) in
     let st' := set_y_files (<[p := f']> (y_files st)) st in dinv resting extra st' → Q res st') →
  awp (entries ← (if od_cache f =? NULL then mret None
                  else cache ← cache_at (od_cache f); mret (Some (dc_list cache)));
       let '(res, pos, cursor) := Readdir.ovl_dir_llseek entries (df_pos f) offset origin (default O (od_cursor f)) in
       update_dir_file p (set_df_pos pos);;
       (if od_cache f =? NULL then mret tt else update_dir_file p (set_od_cache (od_cache f) (Some cursor)));;
       mret res) st Q.
Proof.
  intros Hi Hp Hr HQ. pose proof (di_pos _ _ _ _ _ Hi p f Hp Hr) as Hpos. pose proof (di_caches _ _ _ _ _ Hi) as Hok.
  assert (∀ pos cur, 0 ≤ pos → (∀ x, od_cache f ≠ NULL → y_caches st !! od_cache f = Some x → cur = Some (Readdir.ovl_seek_cursor (dc_list x) pos)) →
    dinv resting extra (set_y_files (<[p := set_od_cache (od_cache f) cur (set_df_pos pos f)]> (y_files st)) st)) as Hmove.
  { intros pos cur Hp0 Hcur. by eapply dinv_move. }
  destruct (Z.eqb_spec (od_cache f) NULL) as [Hc|Hc].
  - apply awp_mret. pose proof (seek_spec (A:=nat) None (df_pos f) offset origin (default O (od_cursor f)) Hpos) as Hs.
    destruct (Readdir.ovl_dir_llseek _ _ _ _ _) as [[res pos] cur]. destruct Hs as [Hp0 _].
    eapply awp_update_file; [exact Hp|]. apply awp_mret, awp_ret.
    apply (HQ res pos (od_cursor f)). by apply Hmove.
  - destruct (co_file _ _ _ _ _ _ _ _ Hok p f Hp Hc) as (x & Hx & Hcur & _). apply awp_assoc. eapply awp_cache; [exact Hx|]. apply awp_mret.
    rewrite Hcur. cbn [default]. pose proof (seek_spec (Some (dc_list x)) (df_pos f) offset origin (Readdir.ovl_seek_cursor (dc_list x) (resting p f)) Hpos) as Hs.
    destruct (Readdir.ovl_dir_llseek _ _ _ _ _) as [[res pos] cur]. destruct Hs as [Hp0 Hcur'].
    eapply awp_update_file; [exact Hp|]. eapply awp_update_file; [cbn; apply lookup_insert_eq|]. apply awp_ret.
    cbn [y_files set_y_files]. rewrite insert_insert_eq. apply (HQ res pos (Some cur)). apply Hmove; [done|].
    intros y _ Hy. simplify_eq. f_equal. by apply Hcur'.
Qed.

Lemma dir_llseek_runs extra st p f offset origin Q :
  dinv resting extra st → y_files st !! p = Some f →
  (∀ res st', dinv resting extra st' → called p st st' → (∃ f', y_files st' !! p = Some f' ∧ same_file f f') → Q res st') →
  awp (ovl_dir_llseek p offset origin) st Q.
Proof.
  intros Hi Hp HQ. pose proof (di_write _ _ _ _ _ Hi) as Hw. unfold ovl_dir_llseek. eapply awp_file; [done|].
  eapply file_inode_runs; [done..|]. intros i. apply awp_lock. set (st1 := relock _ st).
  assert (dinv resting extra st1) as Hi1 by by apply dinv_relock.
  eapply awp_seq with (R := λ _ st2, ∃ f2, dinv resting extra st2 ∧ y_k st2 = y_k st1 ∧ y_files st2 = <[p := f2]> (y_files st) ∧ same_file f f2).
  { destruct (Z.eqb_spec (df_pos f) 0) as [Hz|Hz].
    - eapply reset_runs; [exact Hi1|exact Hp|intros g; unfold resting; lia|]. intros f2 caches icache. cbv zeta. intros Hi2 (Hs & _).
      by exists f2.
    - apply awp_ret. exists f. split_and!; [done..|by rewrite insert_id|done]. }
  intros _ st2 (f2 & Hi2 & Hk2 & Hf2 & Hs2). assert (y_files st2 !! p = Some f2) as Hp2 by (rewrite Hf2; apply lookup_insert_eq).
  eapply awp_file; [exact Hp2|].
  eapply awp_seq with (R := λ _ st3, ∃ f3, dinv resting extra st3 ∧ lasts (y_k st1) (y_k st3) ∧ k_held (y_k st3) = k_held (y_k st1) ∧
    y_files st3 = <[p := f3]> (y_files st) ∧ same_file f f3).
  { destruct (od_is_real f2) eqn:Er.
    - apply dir_w_runs. intros res st3 Hs. pose proof (dinv_kstep _ _ _ _ _ _ Hs Hi2) as Hi3.
      destruct Hs as (k3 & -> & Hl3 & Hh3). apply awp_get. eapply awp_update_file; [exact Hp2|]. apply awp_ret.
      set (pos := file_pos _ _). assert (dinv resting extra (set_y_files (<[p := set_df_pos pos f2]> (y_files st2)) (set_y_k k3 st2))) as Hi4.
      { eapply (dinv_move kmalloc shows resting resting extra (set_y_k k3 st2) p f2); [exact Hi3|exact Hp2|by split_and!|done|done|done|by rewrite Er|].
        intros x Hc. by rewrite (real_no_cache _ _ _ _ _ Hi2 Hp2 Er) in Hc. }
      exists (set_df_pos pos f2). rewrite Hk2 in *. split_and!; [exact Hi4|done|done|cbn; by rewrite Hf2, insert_insert_eq|].
      etrans; [exact Hs2|by split_and!].
    - eapply merged_seek_runs; [exact Hi2|exact Hp2|exact Er|]. intros res pos cur. cbv zeta. intros Hi3. rewrite <- Hk2.
      exists (set_od_cache (od_cache f2) cur (set_df_pos pos f2)). split_and!; [exact Hi3|done|done|cbn; by rewrite Hf2, insert_insert_eq|]. etrans; [exact Hs2|by split_and!]. }
  intros res st3 (f3 & Hi3 & Hl3 & Hh3 & Hf3 & Hs3).
  eapply (unlock_called resting extra i (k_held (y_k st)) p st); [done|done|exact Hi3| |exact Hh3| |].
  - etrans; [apply relock_lasts|exact Hl3].
  - intros q Hq. by rewrite Hf3, lookup_insert_ne by done.
  - intros Hi4 Hc4. apply awp_ret, HQ; [exact Hi4|exact Hc4|]. exists f3. split; [|done]. cbn. rewrite Hf3. apply lookup_insert_eq.
Qed.

(** ** Opening *)

Lemma upper_type v : OVL_TYPE_UPPER (ovl_path_type v) = true → is_Some (ovl_dentry_upper v).
Proof.
  intros Ht. destruct (ovl_dentry_upper v) eqn:E; [done|]. revert Ht. unfold ovl_path_type.
  rewrite bool_decide_false by (rewrite E; by intros [? ?]). case_match; by vm_compute.
Qed.

Lemma dir_open_runs extra st p d i flags Q :
  dinv resting extra st → y_files st !! p = None → open_dir (y_k st) d i →
  (∀ res st', dinv resting extra st' → called p st st' →
     (∀ f, y_files st' !! p = Some f → df_dentry f = d ∧ df_pos f = 0 ∧ od_cache f = NULL) → (y_files st' !! p = None ↔ res ≠ 0) → Q res st') →
  awp (ovl_dir_open p d flags) st Q.
Proof.
  intros Hi Hp Hd HQ. pose proof (open_dir_inode _ _ _ Hd) as (e & o & He & <- & Ho & Hv).
  unfold ovl_dir_open. apply awp_get.
  assert (∀ res st', kstep st st' → res ≠ 0 → Q res st') as Hfail.
  { intros res st' Hs Hn. pose proof (dinv_kstep _ _ _ _ _ _ Hs Hi) as Hi'. destruct Hs as (k' & -> & Hl & Hh).
    apply HQ; [exact Hi'|by split|intros f Hf; cbn in Hf; congruence|done]. }
  destruct (kzalloc_od _); cbn [negb]; [|by apply awp_ret, Hfail].
  eapply awp_oview; [exact Hv|]. apply awp_get. destruct (ovl_path_real _ _) as [type realpath] eqn:Er.
  apply dir_w_runs. intros realfile st1 Hs1. case_match eqn:Herr.
  { apply awp_ret, Hfail; [done|]. apply IS_ERR_spec in Herr. unfold PTR_ERR. lia. }
  pose proof (dinv_kstep _ _ _ _ _ _ Hs1 Hi) as Hi1. destruct Hs1 as (k1 & -> & Hl & Hh). unfold get_real. apply awp_set.
  pose proof (open_dir_lasts _ _ _ _ (di_ok _ _ _ _ _ Hi) Hl Hd) as Hd1. pose proof (open_dir_inode _ _ _ Hd1) as (e1 & o1 & He1 & Hie1 & Ho1 & Hv1).
  unfold ovl_dir_is_real. apply awp_assoc. eapply awp_oview; [exact Hv1|]. apply awp_mret, awp_set, awp_ret. cbn [od_inode].
  set (f := ODFile d 0 _ _ NULL None realfile NULL). apply HQ.
  - destruct Hi1 as [o2 w2 n2 f2 c2 r2 p2]. split; cbn; [done..| | | |].
    + intros q g. destruct (decide (p = q)) as [<-|]; [|rewrite lookup_insert_ne by done; apply f2].
      rewrite lookup_insert_eq. intros [= <-]. exists (dn_inode e), o1. split_and!; [done..|]. split; cbn; [done| | |].
      * by intros ->%negb_false_iff.
      * intros Hu. assert (type = ovl_path_type (ODentry d (dn_name e) (dn_flags e) o (dn_entry e))) as -> by (by injection Er as <- _).
        destruct (upper_type _ Hu) as [u Hu']. destruct (la_inodes _ _ Hl _ _ Ho) as (o1' & Ho1' & Hoo). simplify_eq.
        exists u. by apply (il_upper _ _ Hoo).
      * by intros ->%negb_true_iff.
    + by apply caches_open.
    + rewrite r2, owned_insert by done. cbn. by rewrite Permutation_middle.
    + intros q g. destruct (decide (p = q)) as [<-|]; [rewrite lookup_insert_eq; by intros [= <-]|rewrite lookup_insert_ne by done; apply p2].
  - split; [exact Hl|exact Hh|]. intros q Hq. cbn. by rewrite lookup_insert_ne.
  - intros g. cbn. rewrite lookup_insert_eq. by intros [= <-].
  - cbn. by rewrite lookup_insert_eq.
Qed.

(** ** Releasing *)

(** The file forgets its cache and is gone. *)
Lemma gone_caches k files caches icache p f :
  files !! p = Some f → caches_ok kmalloc shows resting k (<[p := set_od_cache NULL None f]> files) caches icache →
  caches_ok kmalloc shows resting k (delete p files) caches icache.
Proof. intros Hp Hok. rewrite <- (delete_insert_eq files p (set_od_cache NULL None f)). eapply caches_close; [apply lookup_insert_eq|done|done]. Qed.

Lemma release_runs extra st p f Q :
  dinv resting extra st → y_files st !! p = Some f →
  (∀ st', dinv resting extra st' → called p st st' → y_files st' = delete p (y_files st) → Q 0 st') →
  awp (ovl_dir_release p) st Q.
Proof.
  intros Hi Hp HQ. pose proof (di_write _ _ _ _ _ Hi) as Hw. unfold ovl_dir_release. eapply awp_file; [done|].
  eapply awp_seq with (R := λ _ st1, ∃ caches icache, st1 = DSt (y_k st) (y_files st) caches icache (y_refs st) (y_warned st) ∧
    caches_ok kmalloc shows resting (y_k st) (delete p (y_files st)) caches icache).
  { destruct (Z.eqb_spec (od_cache f) NULL) as [Hc|Hc].
    { apply awp_ret. exists (y_caches st), (y_icache st). split; [by destruct st|]. eapply caches_close; [done..|apply Hi]. }
    eapply file_inode_runs; [done..|]. intros i. apply awp_lock, awp_bind.
    eapply put_runs; [by apply dinv_relock|exact Hp|done|]. intros caches icache Hok.
    eapply (awp_zoom_end). eapply wp_unlock; [apply unlock1_head|]. exists caches, icache. split.
    - destruct st as [[? ? ? ? ? []]]; done.
    - eapply gone_caches; [exact Hp|]. apply (caches_lasts kmalloc shows resting (y_k (relock (lock_held [LInode (i_ptr i)] (k_held (y_k st))) st))).
      + apply (la_ok _ _ (relock_lasts _ st)), Hi.
      + apply lasts_same; [done..|by left].
      + intros q g. cbn. destruct (decide (p = q)) as [<-|]; [rewrite lookup_insert_eq; intros [= <-]|rewrite lookup_insert_ne by done; intros Hq];
          [destruct (di_files _ _ _ _ _ Hi p f Hp) as (j & _ & Hd & _)|destruct (di_files _ _ _ _ _ Hi q g Hq) as (j & _ & Hd & _)]; by exists j.
      + by apply Hok. }
  intros _ st1 (caches & icache & -> & Hok). pose proof (di_refs _ _ _ _ _ Hi) as Hrefs. rewrite (owned_delete _ p f Hp) in Hrefs.
  assert (y_refs st ≡ₚ od_realfile f :: ((if od_upperfile f =? NULL then [] else [od_upperfile f]) ++ extra ++ owned (delete p (y_files st)))) as Hr
    by (rewrite Hrefs; unfold file_refs; case_match; solve_Permutation).
  eapply awp_put_real; [exact Hr|]. intros refs1 Hr1.
  eapply awp_seq with (R := λ _ st2, ∃ refs2, st2 = DSt (y_k st) (y_files st) caches icache refs2 (y_warned st) ∧
    refs2 ≡ₚ extra ++ owned (delete p (y_files st))).
  { case_match; [apply awp_ret; by exists refs1|].
    assert (awp (put_real (od_upperfile f) ≫= mret) (set_y_refs refs1 (DSt (y_k st) (y_files st) caches icache (y_refs st) (y_warned st)))
      (λ _ st2, ∃ refs2, st2 = DSt (y_k st) (y_files st) caches icache refs2 (y_warned st) ∧ refs2 ≡ₚ extra ++ owned (delete p (y_files st)))) as Hput
      by (eapply awp_put_real; [exact Hr1|]; intros refs2 Hr2; apply awp_ret; by exists refs2).
    revert Hput. unfold awp, mbind, action_bind. by destruct (put_real _ _) as [[[] ?]| |]. }
  intros _ st2 (refs2 & -> & Hr2). apply awp_set, awp_ret. apply HQ; [|split; [done|done|]|done].
  - destruct Hi as [o2 w2 n2 f2 c2 r2 p2]. split; cbn; [done..| |exact Hok|exact Hr2|].
    + intros q g [_ Hq]%lookup_delete_Some. by eapply f2.
    + intros q g [_ Hq]%lookup_delete_Some. by eapply p2.
  - intros q Hq. cbn. by rewrite lookup_delete_ne.
Qed.

(** ** The end of an inode *)

Lemma evict_runs extra st i Q :
  dinv resting extra st → (∀ p f, y_files st !! p = Some f → ¬ on_inode (y_k st) f i) →
  (∀ st', dinv resting extra st' → y_k st' = y_k st → y_files st' = y_files st → y_icache st' = delete i (y_icache st) → Q tt st') →
  awp (evict i) st Q.
Proof.
  intros Hi Hno HQ. pose proof (di_caches _ _ _ _ _ Hi) as Hok.
  assert (awp (ovl_dir_cache_free i;; (ovl_set_dir_cache i NULL ≫= mret)) st Q) as Hev.
  { eapply icache_free_runs; [exact Hi| |intros caches; cbv zeta; intros Hi'; apply awp_ret; by apply HQ].
    intros c x Hic Hx. rewrite (co_count _ _ _ _ _ _ _ _ Hok _ _ Hx). pose proof (holders_nonneg c (y_files st)) as Hnn.
    destruct (decide (0 < holders c (y_files st))) as [Hlt|]; [|lia]. exfalso.
    destruct (holders_some _ _ Hlt) as (q & g & Hq & Hg). destruct (co_owner _ _ _ _ _ _ _ _ Hok _ _ Hx) as (j & Hfj & Hjj & _).
    rewrite <- (Hjj _ Hic) in Hfj. by eapply Hno, Hfj. }
  exact Hev.
Qed.

(** ** Syncing: other calls run while the upper directory is being opened *)

(** The file [p] stays open, on the directory it was opened on. *)
Definition same_open (f f' : odfile) : Prop :=
  df_dentry f' = df_dentry f ∧ od_is_upper f' = od_is_upper f ∧ od_realfile f' = od_realfile f.
#[export] Instance same_open_preorder : PreOrder same_open.
Proof. split; [by intros f; split_and!|]. intros a b c (? & ? & ?) (? & ? & ?). split_and!; congruence. Qed.
Definition stays (busy idle : list Z) st st' : Prop :=
  lasts (y_k st) (y_k st') ∧ k_held (y_k st') = k_held (y_k st) ∧
  (∀ p f, p ∈ busy → y_files st !! p = Some f → ∃ f', y_files st' !! p = Some f' ∧ same_open f f') ∧
  (∀ p f, p ∈ idle → y_files st !! p = Some f → y_files st' !! p = Some f).
#[export] Instance stays_preorder busy idle : PreOrder (stays busy idle).
Proof.
  split; [intros st; split_and!; [done..|by intros p f _ Hf; exists f|done]|].
  intros a b c (l1 & h1 & f1 & i1) (l2 & h2 & f2 & i2). split_and!; [by etrans|congruence| |auto].
  intros p f Hin Hf. destruct (f1 p f Hin Hf) as (f' & Hf' & Hs1). destruct (f2 p f' Hin Hf') as (f3 & Hf3 & Hs2). exists f3. split; [done|by etrans].
Qed.
Lemma stays_same busy idle st st' : lasts (y_k st) (y_k st') → k_held (y_k st') = k_held (y_k st) → y_files st' = y_files st → stays busy idle st st'.
Proof. intros Hl Hh Hf. split_and!; [done..| |]; rewrite Hf; [|done]. intros p f _ Hp. by exists f. Qed.
Lemma kstep_stays busy idle st st' : kstep st st' → stays busy idle st st'.
Proof. intros (k' & -> & Hl & Hh). by apply stays_same. Qed.
Lemma relock_stays busy idle h st st' : stays busy idle (relock h st) st' → stays busy idle st (relock (k_held (y_k st)) st').
Proof.
  intros (Hl & _ & Hf). split_and!; [|done|apply Hf..]. etrans; [apply (relock_lasts h)|]. etrans; [exact Hl|apply relock_lasts].
Qed.
Lemma stays_fewer busy idle p st st' : stays (p :: busy) idle st st' → stays busy idle st st'.
Proof. intros (Hl & Hh & Hb & Hi). split_and!; [done..| |done]. intros q f Hq. apply Hb. by right. Qed.
(** Only [p] has changed. *)
Lemma called_stays busy idle p st st' :
  called p st st' → p ∉ idle → (p ∈ busy → ∀ f, y_files st !! p = Some f → ∃ f', y_files st' !! p = Some f' ∧ same_open f f') → stays busy idle st st'.
Proof.
  intros [Hl Hh Ho] Hp Hf. split_and!; [done..| |].
  - intros q g Hq Hg. destruct (decide (q = p)) as [->|Hn]; [by apply Hf|]. exists g. by rewrite Ho.
  - intros q g Hq Hg. rewrite Ho; [done|]. by intros ->.
Qed.

(** The upper directory has been opened, if the error is not one: the file
    keeps it, unless it has got one meanwhile. *)
Lemma keep_upper_runs busy idle extra st p f realfile Q :
  p ∉ idle →
  dinv resting ((if IS_ERR realfile then [] else [realfile]) ++ extra) st → y_files st !! p = Some f →
  0 < realfile ∨ IS_ERR realfile = true →
  (∀ r st', dinv resting extra st' → stays (p :: busy) idle st st' → Q r st') →
  awp (f ← dir_file p;
       if od_upperfile f =? NULL then
         if IS_ERR realfile then mret (inl (PTR_ERR realfile))
         else update_dir_file p (set_od_upperfile realfile);; mret (inr realfile)
       else
         (if IS_ERR realfile then mret tt else put_real realfile);;
         mret (inr (od_upperfile f)) : action (dstate W) (Z + Z)) st Q.
Proof.
  intros Hidle Hi Hp Hreal HQ. eapply awp_file; [exact Hp|]. destruct (Z.eqb_spec (od_upperfile f) NULL) as [Hu|Hu].
  - destruct (IS_ERR realfile) eqn:Herr; [by apply awp_ret, HQ|].
    eapply awp_update_file; [exact Hp|]. apply awp_ret. destruct Hreal as [Hpos|]; [|done]. apply HQ.
    + apply (dinv_file kmalloc shows resting extra st p f (set_od_upperfile realfile f) (y_caches st) (y_icache st) [realfile]); [exact Hp| | | | |exact Hi].
      * unfold file_refs. rewrite Hu. cbn. destruct (Z.eqb_spec realfile NULL); [unfold NULL in *; lia|apply perm_swap].
      * destruct (di_files _ _ _ _ _ Hi p f Hp) as (i & o & Hd & Ho & [r m u im]). exists i, o. split_and!; [done..|by split].
      * apply (di_pos _ _ _ _ _ Hi p f Hp).
      * eapply caches_cursor; [exact Hp|done..| |apply Hi]. intros x Hc Hx.
        destruct (co_file _ _ _ _ _ _ _ _ (di_caches _ _ _ _ _ Hi) p f Hp Hc) as (x' & Hx' & Hcur & ?). by simplify_eq.
    + eapply (called_stays _ _ p); [split; [done|done|intros q Hq; cbn; by rewrite lookup_insert_ne]|done|].
      intros _ g Hg. simplify_eq. eexists. split; [cbn; apply lookup_insert_eq|by split_and!].
  - destruct (IS_ERR realfile) eqn:Herr; [by apply awp_mret, awp_ret, HQ|].
    eapply awp_put_real; [apply (di_refs _ _ _ _ _ Hi)|]. intros l Hl. apply awp_ret, HQ; [|by apply stays_same].
    destruct Hi as [o2 w2 n2 f2 c2 r2 p2]. by split.
Qed.

Lemma dir_fsync_runs busy idle extra st p f others start end_ datasync Q :
  p ∉ idle →
  dinv resting extra st → y_files st !! p = Some f →
  (∀ extra1 st1, dinv resting extra1 st1 → awp others st1 (λ _ st2, dinv resting extra1 st2 ∧ stays (p :: busy) idle st1 st2)) →
  (∀ res st', dinv resting extra st' → stays (p :: busy) idle st st' → Q res st') →
  awp (ovl_dir_fsync others p start end_ datasync) st Q.
Proof.
  intros Hidle Hi Hp Hothers HQ. destruct (file_inode_view kmalloc shows resting _ _ _ _ Hi Hp) as (e & o & _ & _ & Hv & _).
  unfold ovl_dir_fsync. eapply awp_file; [exact Hp|]. eapply awp_oview; [exact Hv|]. set (v := ODentry _ _ _ _ _).
  destruct (negb _); [by apply awp_ret, HQ|].
  eapply awp_seq with (R := λ _ st1, dinv resting extra st1 ∧ stays (p :: busy) idle st st1).
  - destruct (od_is_upper f); [by apply awp_ret|]. destruct (negb _); [by apply awp_ret|]. apply awp_get. apply awp_zoom, wp_on_w.
    intros realfile w Hopen. assert (0 < realfile ∨ IS_ERR realfile = true) as Hreal.
    { pose proof (law_real_open (k_w (y_k st)) (path_ptr (ovl_path_upper (k_ofs (y_k st)) v)) (Z.lor O_RDONLY O_NOATIME)) as Hl.
      unfold ovl_path_open in Hopen. by rewrite Hopen in Hl. }
    set (st1 := set_y_k (set_k_w w (y_k st)) st). assert (kstep st st1) as Hs1 by apply kstep_w.
    pose proof (dinv_kstep _ _ _ _ _ _ Hs1 Hi) as Hi1.
    eapply awp_seq with (R := λ _ st2, dinv resting ((if IS_ERR realfile then [] else [realfile]) ++ extra) st2 ∧ stays (p :: busy) idle st st2).
    { case_match; [by apply awp_ret; split; [|by apply kstep_stays]|]. unfold get_real, awp, aset. split; [|etrans; [by apply kstep_stays|by apply stays_same]].
      destruct Hi1 as [o2 w2 n2 f2 c2 r2 p2]. split; try done. cbn. exact (Permutation_cons eq_refl r2). }
    intros _ st2 [Hi2 Hs2]. eapply awp_seq; [by apply Hothers|]. intros _ st3 [Hi3 Hs3].
    assert (stays (p :: busy) idle st st3) as Hst3 by by etrans. destruct (proj1 (proj2 (proj2 Hst3)) p f) as (f3 & Hp3 & (Hd3 & _)); [by left|done|].
    rewrite <- Hd3. eapply file_inode_runs; [exact Hi3|exact Hp3|]. intros i. apply awp_lock.
    set (st4 := relock _ st3). assert (dinv resting ((if IS_ERR realfile then [] else [realfile]) ++ extra) st4) as Hi4
      by (apply dinv_relock; [apply (di_write _ _ _ _ _ Hi3)|done]).
    apply awp_assoc_r. apply awp_bind. eapply (keep_upper_runs busy); [exact Hidle|exact Hi4|exact Hp3|exact Hreal|].
    intros r st5 Hi5 Hs5. eapply awp_unlock; [apply Hs5|]. apply awp_ret.
    split; [apply dinv_relock; [apply (di_write _ _ _ _ _ Hi3)|done]|]. etrans; [exact Hst3|by eapply relock_stays].
  - intros [err|realfile] st1 [Hi1 Hs1]; [by apply awp_ret, HQ|]. unfold dir_w, kern. eapply awp_zoom_end, wp_on_w. intros a w _.
    apply HQ; [by eapply dinv_kstep, Hi1; apply kstep_w|]. etrans; [exact Hs1|apply kstep_stays, kstep_w].
Qed.
End runs.
