(* ===== verification/DirFileProps.v ===== *)
(** Theorems on open directories, in every state that the calls on directories
    and the requests of [DirProps] lead to, in any order, with other calls in
    the middle of an fsync: all calls return, no reference is lost or used
    twice, and who reads a merged directory to its end, in pieces and with
    anything in between, sees each name of it once. *)

From S2P Require Import Prelude Vfs Types Util Under Nlink Fh Redirect Inode Block Readdir ReaddirTree ReaddirMerge ReaddirProps Lookup Kernel KernelProps Work CopyUp WorkProps CopyUpSteps CopyUpProps Dir DirSteps DirParts DirOps DirProps Attr Export ExportSteps File FileWorld Action DirFile DirFileRead DirFileInv DirFileRun DirFileImpure DirFileOps DirFileCalls.
From stdpp Require Import gmap.
Local Open Scope Z_scope.

Section props.
Context {W : Type} `{Vfs W, Under W, !UnderLaws W, Kern W, !KernLaws W, DirKern W, !DirLaws W, AttrKern W, FileKern W, ExportKern W, !ExportLaws W, DirFileKern W, RbLib, !RbLaws, !DirFileLaws W}.
Context (creator_cred : Z) (workdir indexdir : dentry) (export_op : Z → option (bool * bool)).
Context (ovl_redirect_max : Z) (kmalloc : list centry → string → bool) (s_export_op CONFIG_FS_POSIX_ACL : bool).
Context (fuel depth : nat).
Implicit Types (st : dstate W).

#[local] Abbreviation serve := (DirProps.serve creator_cred workdir indexdir export_op ovl_redirect_max kmalloc s_export_op CONFIG_FS_POSIX_ACL fuel depth).
#[local] Abbreviation admissible := (DirProps.admissible workdir indexdir fuel depth).

(** ** Steps *)

Definition call_file (c : dir_call) : option Z :=
  match c with
  | CallOpen _ _ _ | CallEvict _ => None
  | CallIterate p _ | CallLlseek p _ _ | CallRelease p => Some p
  end.

(** A call on an open directory, a request that changes the overlay, or an
    fsync during which others make steps.  No step is on a file of [idle]; a
    file of [busy] is not released. *)
Inductive dstep (idle : list Z) : list Z → dstate W → dstate W → Prop :=
| step_call busy st c r st' :
    call_ok busy st c → (∀ p, call_file c = Some p → p ∉ idle) → serve_call kmalloc c st = Ret (r, st') → dstep idle busy st st'
| step_change busy st r err k' :
    admissible (y_k st) r → serve r (y_k st) = Ret (err, k') → dstep idle busy st (set_y_k k' st)
| step_fsync busy st p start end_ datasync others res st' :
    is_Some (y_files st !! p) → p ∉ idle → (∀ st1, rtc (dstep idle (p :: busy)) st1 (others st1)) →
    ovl_dir_fsync (aset others) p start end_ datasync st = Ret (res, st') → dstep idle busy st st'.

Lemma call_runs shows idle busy extra c st :
  (∀ p l, p ∉ idle → shows p l) → call_ok busy st c → (∀ p, call_file c = Some p → p ∉ idle) →
  dinv kmalloc shows resting extra st →
  awp (serve_call kmalloc c) st (λ _ st', dinv kmalloc shows resting extra st' ∧ stays busy idle st st').
Proof.
  intros Hsh Hc Hidle Hi.
  assert (∀ (m : action (dstate W) Z) (Q : dstate W → Prop), awp m st (λ _ st', Q st') → awp (res ← m; mret (res, [] : list (Z * dirent))) st (λ _ st', Q st')) as Hret.
  { intros m Q Hm. eapply awp_seq; [exact Hm|]. by intros res st' HQ. }
  assert (∀ p f st', y_files st !! p = Some f → p ∉ idle → called p st st' → (∃ f', y_files st' !! p = Some f' ∧ same_file f f') → stays busy idle st st') as Hstays.
  { intros p f st' Hp Hpi Hcl (f' & Hf' & (? & ? & ? & _)). eapply called_stays; [exact Hcl|done|].
    intros _ g Hg. simplify_eq. exists f'. by split_and!. }
  destruct c as [p d flags|p actor|p offset origin|p|i]; cbn [serve_call call_ok call_file] in *.
  - destruct Hc as [Hp (i & Hd)]. apply Hret. eapply dir_open_runs; [exact Hi|exact Hp|exact Hd|]. intros res st' Hi' [Hl Hh Ho] _ _. split; [done|].
    assert (∀ q g, y_files st !! q = Some g → y_files st' !! q = Some g) as Hkeep by (intros q g Hq; rewrite Ho; [done|congruence]).
    split_and!; [done..| |intros q g _; apply Hkeep]. intros q g _ Hq. exists g. split; [by apply Hkeep|done].
  - destruct Hc as [f Hp]. eapply iterate_call_runs; [exact Hi|exact Hp|intros _ l; apply Hsh; by apply Hidle|].
    intros r st' Hi' [Hcl (f' & Hf' & Hs & _) _ _]. split; [done|]. eapply Hstays; [exact Hp|by apply Hidle|done|by exists f'].
  - destruct Hc as [f Hp]. apply Hret. eapply dir_llseek_runs; [exact Hi|exact Hp|]. intros res st' Hi' Hcl Hf'. split; [done|].
    eapply Hstays; [exact Hp|by apply Hidle|done..].
  - destruct Hc as [[f Hp] Hb]. apply Hret. eapply release_runs; [exact Hi|exact Hp|]. intros st' Hi' Hcl _. split; [done|].
    eapply called_stays; [exact Hcl|by apply Hidle|done].
  - eapply awp_seq with (R := λ _ st', dinv kmalloc shows resting extra st' ∧ stays busy idle st st'); [|by intros _ st' Hst'].
    eapply evict_runs; [exact Hi|exact Hc|]. intros st' Hi' Hk Hf _. split; [done|]. apply stays_same; [by rewrite Hk|by rewrite Hk|done].
Qed.

Lemma change_keeps shows idle busy extra st r err k' :
  admissible (y_k st) r → serve r (y_k st) = Ret (err, k') → dinv kmalloc shows resting extra st →
  dinv kmalloc shows resting extra (set_y_k k' st) ∧ stays busy idle st (set_y_k k' st).
Proof.
  intros Ha Hr Hi. destruct (serve_runs creator_cred workdir indexdir export_op ovl_redirect_max kmalloc s_export_op CONFIG_FS_POSIX_ACL fuel depth _ _ Ha)
    as (err' & k2 & Hr' & [Hx Hh] & _). rewrite Hr in Hr'. injection Hr' as <- <-. apply extends_lasts in Hx.
  split; [apply dinv_k; [exact Hx|rewrite Hh; apply Hi|done]|by apply stays_same].
Qed.

Definition keeps_dirs (idle busy : list Z) st st' : Prop :=
  ∀ shows extra, (∀ p l, p ∉ idle → shows p l) → dinv kmalloc shows resting extra st →
    dinv kmalloc shows resting extra st' ∧ stays busy idle st st'.
Lemma step_keeps idle : ∀ busy st st', dstep idle busy st st' → keeps_dirs idle busy st st'.
Proof.
  fix IH 4. intros busy st st' Hstep. destruct Hstep as [busy st c r st' Hc Hidle Hr|busy st r err k' Ha Hr|busy st p start end_ datasync others res st' [f Hp] Hidle Ho Hr]; intros shows extra Hsh Hi.
  - pose proof (call_runs shows idle busy extra c st Hsh Hc Hidle Hi) as Hrun. unfold awp in Hrun. by rewrite Hr in Hrun.
  - by eapply change_keeps.
  - assert (∀ st1, keeps_dirs idle (p :: busy) st1 (others st1)) as Hothers.
    { intros st1. induction (Ho st1) as [st2|st2 st3 st4 H23 _ IH34].
      - intros sh ex _ Hi2. by split.
      - intros sh ex Hsh2 Hi2. destruct (IH _ _ _ H23 sh ex Hsh2 Hi2) as [Hi3 Hs3]. destruct (IH34 sh ex Hsh2 Hi3) as [Hi4 Hs4].
        split; [done|by etrans]. }
    assert (awp (ovl_dir_fsync (aset others) p start end_ datasync) st (λ _ st', dinv kmalloc shows resting extra st' ∧ stays busy idle st st')) as Hrun.
    { eapply (dir_fsync_runs kmalloc shows busy idle); [exact Hidle|exact Hi|exact Hp| |].
      - intros ex st1 Hi1. unfold awp, aset. by apply Hothers.
      - intros res' st2 Hi2 Hs2. split; [done|by eapply stays_fewer]. }
    unfold awp in Hrun. by rewrite Hr in Hrun.
Qed.
Lemma steps_keep idle busy st st' : rtc (dstep idle busy) st st' → keeps_dirs idle busy st st'.
Proof.
  induction 1 as [st|st st2 st' H12 _ IH]; intros shows extra Hsh Hi; [by split|].
  destruct (step_keeps _ _ _ _ H12 shows extra Hsh Hi) as [Hi2 Hs2]. destruct (IH shows extra Hsh Hi2) as [Hi3 Hs3]. split; [done|by etrans].
Qed.

(** Nothing is open yet. *)
Definition started st : Prop :=
  ok (y_k st) ∧ 0 ≤ h_write (k_held (y_k st)) ∧
  y_files st = ∅ ∧ y_caches st = ∅ ∧ y_icache st = ∅ ∧ y_refs st = [] ∧ y_warned st = false.
Definition reached st0 st : Prop := started st0 ∧ rtc (dstep [] []) st0 st.

Definition anything (p : Z) (l : list (string * bool)) : Prop := True.
Lemma started_dinv st : started st → dinv kmalloc anything resting [] st.
Proof.
  intros (Hok & Hw & Hf & Hc & Hi & Hr & Hn). split; [done..| | | |]; rewrite ?Hf, ?Hc, ?Hi, ?Hr; [done| |done|done].
  by split.
Qed.
Lemma reached_dinv st0 st : reached st0 st → dinv kmalloc anything resting [] st ∧ stays [] [] st0 st.
Proof. intros [Hst Hrun]. eapply (steps_keep [] [] st0 st); [done|done|by apply started_dinv]. Qed.


(** C16: No cache and no real file is leaked.  Once every open directory has been
    released the references to real files are gone, and each cache that is
    left belongs to an inode, which frees it when it ends; before that, the
    real files referenced are those that open directories stand for. *)
Theorem dir_files_no_leak st0 st :
  reached st0 st →
  y_refs st ≡ₚ owned (y_files st) ∧
  (∀ c x, y_caches st !! c = Some x → (∃ p f, y_files st !! p = Some f ∧ od_cache f = c) ∨ ∃ i, y_icache st !! i = Some c) ∧
  (y_files st = ∅ → y_refs st = []) ∧
  (y_files st = ∅ → y_icache st = ∅ → y_caches st = ∅).
Proof.
  intros Hr. destruct (reached_dinv _ _ Hr) as [Hi _]. pose proof (di_caches _ _ _ _ _ Hi) as Hok. pose proof (di_refs _ _ _ _ _ Hi) as Hrefs.
  assert (∀ c x, y_caches st !! c = Some x → (∃ p f, y_files st !! p = Some f ∧ od_cache f = c) ∨ ∃ i, y_icache st !! i = Some c) as Hlive.
  { intros c x Hx. destruct (co_live _ _ _ _ _ _ _ _ Hok c x Hx) as [Hpos|]; [done| |by right]. left.
    rewrite (co_count _ _ _ _ _ _ _ _ Hok c x Hx) in Hpos. by apply holders_some. }
  split_and!; [done|done| |].
  - intros Hf. rewrite Hf in Hrefs. by apply Permutation_nil_r in Hrefs.
  - intros Hf Hic. apply map_eq. intros c. rewrite lookup_empty. destruct (y_caches st !! c) as [x|] eqn:Hx; [|done].
    destruct (Hlive c x Hx) as [(p & f & Hp & _)|(i & Hii)]; [by rewrite Hf in Hp|by rewrite Hic in Hii].
Qed.

(** ** Reading a directory in pieces *)

(** A sequence of calls that read on from [p], with steps in between that are
    not calls on [p]; [names] is what the calls have taken altogether. *)
Inductive reads (p : Z) (st0 : dstate W) : list string → dstate W → Prop :=
| reads_start : reads p st0 [] st0
| reads_between names st st' : reads p st0 names st → dstep [p] [] st st' → reads p st0 names st'
| reads_call names st actor err taken st' :
    reads p st0 names st → serve_call kmalloc (CallIterate p actor) st = Ret ((err, taken), st') →
    reads p st0 (names ++ taken_names taken) st'.

(** The listing [l] was read when the inode [i] had the version that it had
    before the first name was taken. *)
Definition fresh (p : Z) (st0 : dstate W) (i : Z) (l : list (string * bool)) st : Prop :=
  ∃ st1 o1, reads p st0 [] st1 ∧ k_inodes (y_k st1) !! i = Some o1 ∧ listed kmalloc (y_k st) i (oi_version o1) l.
Lemma fresh_lasts p st0 i l st st' : lasts (y_k st) (y_k st') → fresh p st0 i l st → fresh p st0 i l st'.
Proof. intros Hl (st1 & o1 & Hr & Ho & Hls). exists st1, o1. split_and!; [done..|by eapply listed_lasts]. Qed.

(** Where a reader of the directory [d] is. *)
Definition reading (p d : Z) (st0 : dstate W) (i : Z) (names : list string) st : Prop :=
  ∃ f, y_files st !! p = Some f ∧ df_dentry f = d ∧
    (df_pos f = 0 ∧ names = [] ∨
     0 < df_pos f ∧ ∃ l, holding st p l ∧ names = shown_names (take (Z.to_nat (df_pos f)) l) ∧ fresh p st0 i l st).

Lemma shown_names_app l l' : shown_names (l ++ l') = shown_names l ++ shown_names l'.
Proof. unfold shown_names. by rewrite filter_app, fmap_app. Qed.
Lemma take_drop_next {A} (l : list A) n m : take n l ++ take m (drop n l) = take (n + m) l.
Proof. by rewrite take_take_drop. Qed.

(** Other steps leave the listing that [p] holds as it is. *)
Lemma between_reads p d st0 i names st st' :
  dinv kmalloc anything resting [] st → dstep [p] [] st st' → reading p d st0 i names st → reading p d st0 i names st'.
Proof.
  intros Hi Hs (f & Hp & Hd & Hor). pose proof (step_keeps _ _ _ _ Hs) as Hkeep.
  destruct (Hkeep anything [] (λ _ _ _, I) Hi) as [_ (Hl & _ & _ & Hidle)].
  exists f. split; [apply Hidle; [by left|done]|]. split; [done|]. destruct Hor as [|(Hpos & l & Hold & Hn & Hf)]; [by left|right].
  split; [done|]. exists l. split_and!; [|done|by eapply fresh_lasts].
  set (shows := λ q l', q = p → l' = l).
  assert (dinv kmalloc shows resting [] st) as Hi'.
  { eapply dinv_shows; [|exact Hi]. intros q l' (g & y & Hg & _ & Hy & <-) _ ->.
    destruct Hold as (g' & y' & Hg' & _ & Hy' & <-). by simplify_eq. }
  destruct (Hkeep shows []) as [Hi2 _]; [intros q l' Hq ->; by destruct Hq; left|exact Hi'|].
  assert (y_files st' !! p = Some f) as Hp' by (apply Hidle; [by left|done]).
  destruct Hold as (g & y & Hg & Hc & _). simplify_eq.
  destruct (co_file _ _ _ _ _ _ _ _ (di_caches _ _ _ _ _ Hi2) p f Hp' Hc) as (x & Hx & _ & Hs'). exists f, x. split_and!; [done..|by apply Hs'].
Qed.

(** One more call. *)
Lemma call_reads p d st0 e o names st actor r st' :
  dinv kmalloc anything resting [] st → k_dents (y_k st) !! d = Some e → k_inodes (y_k st) !! dn_inode e = Some o →
  ovl_test_flag OVL_WHITEOUTS o = true → reads p st0 names st → reading p d st0 (dn_inode e) names st →
  (∃ f, y_files st !! p = Some f ∧ read_on kmalloc st p f actor r st') →
  reading p d st0 (dn_inode e) (names ++ taken_names r.2) st' ∧
  (r.1.1 = 0 → (∀ taken y, actor taken y = true) → ∃ l, names ++ taken_names r.2 = shown_names l ∧ fresh p st0 (dn_inode e) l st').
Proof.
  intros Hi He Ho Hw Hreads (f & Hp & Hd & Hor) (f1 & Hp1 & [[Hl Hh _] (f' & Hf' & Hs & Hpos') Hcont Hstart]). simplify_eq.
  assert (∀ l n, (n : Z) = df_pos f → 0 ≤ n → names = shown_names (take (Z.to_nat n) l) → holding st' p l → reads_on l n actor r → fresh p st0 (dn_inode e) l st' →
    reading p (df_dentry f) st0 (dn_inode e) (names ++ taken_names r.2) st' ∧
    (r.1.1 = 0 → (∀ taken y, actor taken y = true) → ∃ l, names ++ taken_names r.2 = shown_names l ∧ fresh p st0 (dn_inode e) l st')) as Hend.
  { intros l n Hn Hn0 -> Hold (m & Hm & Ht & Hlast) Hfr. rewrite Ht, <- shown_names_app, take_drop_next.
    replace (Z.to_nat n + m)%nat with (Z.to_nat (df_pos f')) by lia. split.
    - exists f'. split; [done|]. split; [apply Hs|]. destruct (decide (df_pos f' = 0)) as [Hz|Hz]; [left; by rewrite Hz|right].
      split; [lia|]. by exists l.
    - intros Hr Hall. exists l. split; [|done]. destruct (Hlast Hr) as [Hlen|[y Hy]]; [|by rewrite Hall in Hy].
      rewrite Hpos', take_ge; [done|]. unfold zlen in Hlen. lia. }
  destruct Hor as [[Hz ->]|(Hpos & l & Hold & -> & Hfr)].
  - destruct (Hstart e o He Ho (or_introl (conj Hz Hw))) as [(Hr & Hp0 & Ht)|(l & Hold & Hr & Hls)].
    + rewrite Ht. split; [|by intros]. exists f'. split; [done|]. split; [apply Hs|]. left. split; [lia|done].
    + rewrite Hz in Hr. eapply (Hend l 0); [lia|done|done|exact Hold|exact Hr|]. exists st, o. by split_and!.
  - destruct (Hcont l) as [Hold' Hr]; [lia|done|]. eapply (Hend l (df_pos f)); [done|lia|done|exact Hold'|exact Hr|by eapply fresh_lasts].
Qed.

(** The reader starts at the beginning of a merged directory. *)
Record at_start (p d : Z) (e : odent) (st0 : dstate W) : Prop := {
  as_file : ∃ f, y_files st0 !! p = Some f ∧ df_dentry f = d ∧ df_pos f = 0;
  as_dent : k_dents (y_k st0) !! d = Some e;
  as_merged : ∃ o, k_inodes (y_k st0) !! dn_inode e = Some o ∧ ovl_test_flag OVL_WHITEOUTS o = true;
}.

(** The inode keeps its number, and has whiteouts from now on. *)
Lemma start_lasts p d e st0 st :
  ok (y_k st0) → at_start p d e st0 → lasts (y_k st0) (y_k st) →
  ∃ e' o', k_dents (y_k st) !! d = Some e' ∧ dn_inode e' = dn_inode e ∧ k_inodes (y_k st) !! dn_inode e' = Some o' ∧
    ovl_test_flag OVL_WHITEOUTS o' = true.
Proof.
  intros Hok [_ He (o & Ho & Hw)] Hl. destruct (la_dents _ _ Hl _ _ He) as (e' & He' & Hde). destruct (la_inodes _ _ Hl _ _ Ho) as (o' & Ho' & Hoo).
  assert (dn_inode e' = dn_inode e) as Hie by (apply (ol_inode _ _ Hde); by eapply not_null).
  exists e', o'. rewrite Hie. split_and!; [done..|by apply (il_whiteouts _ _ Hoo)].
Qed.

(** A call that returns has read on. *)
Lemma call_inv p d e st0 names st actor err taken st' :
  ok (y_k st0) → at_start p d e st0 → reads p st0 names st → dinv kmalloc anything resting [] st → lasts (y_k st0) (y_k st) →
  reading p d st0 (dn_inode e) names st → serve_call kmalloc (CallIterate p actor) st = Ret ((err, taken), st') →
  dinv kmalloc anything resting [] st' ∧ lasts (y_k st) (y_k st') ∧ reading p d st0 (dn_inode e) (names ++ taken_names taken) st' ∧
  (err = 0 → (∀ l y, actor l y = true) → ∃ l, names ++ taken_names taken = shown_names l ∧ fresh p st0 (dn_inode e) l st').
Proof.
  intros Hok Hst Hreads Hi Hl Hreading Hrun. destruct (start_lasts _ _ _ _ _ Hok Hst Hl) as (e' & o' & He' & Hie & Ho' & Hw).
  rewrite <- Hie in *. pose proof Hreading as (f & Hp & _).
  assert (awp (serve_call kmalloc (CallIterate p actor)) st (λ a st', ∃ r, a = (r.1.1, r.2) ∧ dinv kmalloc anything resting [] st' ∧ read_on kmalloc st p f actor r st')) as Hwp
    by (eapply iterate_call_runs; [exact Hi|exact Hp|done|]; intros r st2 Hi2 Hr2; by exists r).
  unfold awp in Hwp. rewrite Hrun in Hwp. destruct Hwp as (r & [= -> ->] & Hi2 & Hr2).
  destruct (call_reads p d st0 e' o' names st actor r st' Hi He' Ho' Hw Hreads Hreading) as [Hread Hend]; [by exists f|].
  split_and!; [done|apply Hr2|done|exact Hend].
Qed.

Lemma reads_reading p d e st0 names st :
  dinv kmalloc anything resting [] st0 → at_start p d e st0 → reads p st0 names st →
  dinv kmalloc anything resting [] st ∧ lasts (y_k st0) (y_k st) ∧ reading p d st0 (dn_inode e) names st.
Proof.
  intros Hi0 Hst Hreads. pose proof (di_ok _ _ _ _ _ Hi0) as Hok. induction Hreads as [|names st st' Hreads (Hi & Hl & Hr) Hs|names st actor err taken st' Hreads (Hi & Hl & Hr) Hs].
  - split_and!; [done..|]. destruct (as_file _ _ _ _ Hst) as (f & Hp & Hd & Hz). exists f. split_and!; [done..|by left].
  - destruct (step_keeps _ _ _ _ Hs anything [] (λ _ _ _, I) Hi) as [Hi' (Hl' & _)].
    split_and!; [done|by etrans|eapply between_reads; [exact Hi|exact Hs|exact Hr]].
  - destruct (call_inv _ _ _ _ _ _ _ _ _ _ Hok Hst Hreads Hi Hl Hr Hs) as (Hi' & Hl' & Hr' & _). split_and!; [done|by etrans|done].
Qed.

(** ** What a listing shows *)

Lemma batch_entries_prefix bs : batch_entries bs `prefix_of` concat bs.*1.
Proof.
  induction bs as [|[es ret] bs IH]; [done|]. destruct es as [|e es]; [apply prefix_nil|]. cbn [batch_entries fmap list_fmap fst concat].
  by apply prefix_app.
Qed.
Lemma merged_dirs_ok (w : W) v : layers_ok (merged_dirs w v).
Proof.
  assert (∀ x, x ∈ merged_dirs w v → NoDup (de_name <$> layer_entries x.2) ∧ Forall (λ e, no_nul (de_name e)) (layer_entries x.2)) as Hall.
  { assert (∀ d, NoDup (de_name <$> layer_entries (read_dir w d)) ∧ Forall (λ e, no_nul (de_name e)) (layer_entries (read_dir w d))) as Hd.
    { intros d. destruct (law_read_names w d) as [Hnd Hnn]. destruct (batch_entries_prefix (li_batches (read_dir w d))) as [l Hl].
      unfold layer_entries. rewrite Hl, fmap_app in Hnd. rewrite Hl, fmap_app in Hnn. apply Forall_app in Hnn as [Hnn _]. apply NoDup_app in Hnd as (Hnd & _ & _).
      split; [done|]. exact (proj1 (Forall_fmap _ _ _) Hnn). }
    unfold merged_dirs. intros x [Hx|Hx]%elem_of_app; [|apply list_elem_of_fmap in Hx as (q & -> & _); apply Hd].
    case_match; [|by apply elem_of_nil in Hx]. apply list_elem_of_singleton in Hx as ->. apply Hd. }
  split; [by apply Forall_forall; intros x Hx; apply Hall|]. intros x Hx. apply Hall. by apply last_Some_elem_of in Hx.
Qed.

Lemma shown_entries es :
  NoDup (ce_name <$> es) → NoDup (shown_names (listing es)) ∧
  ∀ n, n ∈ shown_names (listing es) ↔ ∃ e, lookup_name es n = Some e ∧ ce_is_whiteout e = false.
Proof.
  intros Hnd. assert (shown_names (listing es) `sublist_of` (ce_name <$> es)) as Hsub.
  { unfold shown_names, listing. clear. induction es as [|e es IH]; [done|]. cbn [fmap list_fmap]. rewrite filter_cons. case_decide; cbn.
    - by apply sublist_skip.
    - by apply sublist_cons. }
  split; [by eapply sublist_NoDup|]. intros n. unfold shown_names, listing. rewrite list_elem_of_fmap. split.
  - intros ([n' b] & -> & [Hb Hin]%list_elem_of_filter). cbn in Hb |- *. apply list_elem_of_fmap in Hin as (e & [= -> ->] & He).
    apply list_elem_of_lookup in He as [i Hi]. exists e. split; [by eapply lookup_name_at|done].
  - intros (e & He & Hw). pose proof (lookup_name_name _ _ _ He) as <-. exists (ce_name e, ce_is_whiteout e). split; [done|].
    apply list_elem_of_filter. split; [done|]. apply list_elem_of_fmap. exists e. split; [done|by eapply lookup_name_elem].
Qed.

(** The topmost layer of the directory that has the name does not hide it. *)
Definition visible_name (k : kst W) (v : odentry) (n : string) : Prop :=
  ∃ e, top_entry (Some (RdDentry (ovl_xino_bits (k_ofs k)) (ovl_test_flag OVL_IMPURE (od_inode v)))) (merged_dirs (k_w k) v) n = Some e ∧
    ce_is_whiteout e = false.
(** The directory of the inode [i], as it was in [k] with this version. *)
Definition version_at (k : kst W) (i version : Z) (v : odentry) : Prop :=
  ∃ d e, view_at k d = Some v ∧ k_dents k !! d = Some e ∧ dn_inode e = i ∧ oi_version (od_inode v) = version.

Lemma listed_names k i version l :
  listed kmalloc k i version l → ∃ k0 v, lasts k0 k ∧ version_at k0 i version v ∧
    NoDup (shown_names l) ∧ ∀ n, n ∈ shown_names l ↔ visible_name k0 v n.
Proof.
  intros (k0 & es & Hl & (d & v & r & Hv & (e & He & Hie) & Hver & Hread & Hes) & <-). exists k0, v.
  split; [done|]. split; [by exists d, e|]. rewrite (same_listing_names _ _ Hes). destruct (merged_dirs_ok (k_w k0) v) as [Hn Hla].
  unfold ovl_dir_read_merged in Hread. rewrite (merged_loop _ kmalloc _ _ _ above_empty Hn Hla Hread).
  destruct (shown_entries (merge_spec (Some (RdDentry (ovl_xino_bits (k_ofs k0)) (ovl_test_flag OVL_IMPURE (od_inode v)))) [] (merged_dirs (k_w k0) v))) as [Hnd Hin].
  - apply nodup_merge; [constructor|done].
  - split; [done|]. intros n. rewrite Hin. unfold visible_name. by rewrite ReaddirProps.lookup_merge.
Qed.

Definition everything : diractor := λ _ _, true.

End props.

(** ** A merged root directory that two files are open on *)

#[local] Existing Instances rblib_id rblaws_id.
(** The upper layer has a whiteout for "b" and a file "c" over "a" and "b". *)
#[local] Instance listing_dir : DirKern fworld := let base : DirKern fworld := pair_dir in {|
  current_umask := @current_umask _ base;
  IS_POSIXACL := @IS_POSIXACL _ base;
  posix_acl_create := @posix_acl_create _ base;
  posix_acl_xattr_size := @posix_acl_xattr_size _ base;
  posix_acl_to_xattr := @posix_acl_to_xattr _ base;
  prepare_creds := @prepare_creds _ base;
  security_dentry_create_files_as := @security_dentry_create_files_as _ base;
  new_inode := @new_inode _ base;
  get_next_ino := @get_next_ino _ base;
  inode_init_owner := @inode_init_owner _ base;
  racing_alias := @racing_alias _ base;
  read_dir _ d := if d_ptr d =? 11 then wit_upper_layer else if d_ptr d =? 21 then wit_lower_layer else LayerIn 0 [] 0 (λ _, None);
|}.
#[local] Instance listing_dir_laws : DirLaws fworld.
Proof. by split. Qed.
#[local] Instance lonely_export : ExportKern fworld := {|
  d_find_any_alias _ _ := None;
  ilookup5 _ _ := None;
  overlay_lookup_one_len _ _ := mret PNull;
  d_alloc_anon_ok _ := true;
  ovl_alloc_entry_ok _ := true;
|}.
#[local] Instance lonely_export_laws : ExportLaws fworld.
Proof. by split. Qed.
#[local] Instance listing_files : DirFileKern fworld := {|
  kzalloc_od _ := true;
  kzalloc_cache _ s := if decide (s = ∅) then 1 else NULL;
  iterate_real w _ _ := ([], 0, 0, w);
  overlay_getattr _ _ := (0, example.stat);
|}.
#[local] Instance listing_files_laws : DirFileLaws fworld.
Proof.
  split.
  - intros w s. cbn. case_decide; [right; split; [done|]; subst; apply not_elem_of_empty|by left].
  - intros w d. cbn. repeat case_match; (split; [by left|]); repeat constructor; done.
  - intros w d. cbn. repeat case_match; cbn; split; repeat constructor; rewrite ?elem_of_cons, ?elem_of_nil; naive_solver.
  - intros w d fl. left. cbn. apply fw_len_pos.
  - by left.
  - intros st name d v _ _. apply wp_ret. by split.
Qed.

Module dirworld.
Definition merged_root : ovl_inode := ovl_set_flag OVL_WHITEOUTS example.root_inode.
Definition kernel_state : kst fworld :=
  KSt (example.world, FData ∅ []) example.ofs (k_dents (example.state 0 (Z.lor S_IFREG 420)))
    (<[1 := merged_root]> (k_inodes (example.state 0 (Z.lor S_IFREG 420)))) 0 (Held 3 [] 0).
Definition start : dstate fworld := DSt kernel_state ∅ ∅ ∅ [] false.
Abbreviation kmalloc := (λ _ _, true) (only parsing).
Definition result {A} (r : outcome (A * dstate fworld)) : option A := match r with Ret (a, _) => Some a | _ => None end.
Definition next (c : dir_call) (st : dstate fworld) : dstate fworld :=
  match serve_call kmalloc c st with Ret (_, st') => st' | _ => st end.

Lemma kernel_ok : ok kernel_state.
Proof.
  split; cbn [k_dents k_inodes kernel_state example.state].
  - by intros d e [[-> ->]|[-> ->]]%example.lookup_two; eexists.
  - by intros d e [[-> ->]|[-> ->]]%example.lookup_two _; eexists.
  - by intros d e p [[-> ->]|[-> ->]]%example.lookup_two ->%list_elem_of_singleton; eexists.
  - intros i o u [[<- <-]|[_ [[-> ->]|[-> ->]]%example.lookup_two]]%lookup_insert_Some; [intros [= <-]; by eexists|intros [= <-]; by eexists|done].
  - by intros d e [[-> ->]|[-> ->]]%example.lookup_two.
  - done.
  - by intros i o [[<- <-]|[_ [[-> ->]|[-> ->]]%example.lookup_two]]%lookup_insert_Some.
  - by intros d e o [[-> ->]|[-> ->]]%example.lookup_two [[? <-]|[_ [[? ->]|[? ->]]%example.lookup_two]]%lookup_insert_Some; eexists.
  - intros d e [[-> ->]|[-> ->]]%example.lookup_two; [|done]. intros _.
    exists (ODentry 1 "/" 0 merged_root (dn_entry example.root)). split; [reflexivity|by eexists].
  - by intros d e o [[-> ->]|[-> ->]]%example.lookup_two.
Qed.
Lemma start_started : started start.
Proof. by split; [apply kernel_ok|]. Qed.
Lemma root_open (k : kst fworld) : k_dents k = k_dents kernel_state → k_inodes k = k_inodes kernel_state → open_dir k 1 1.
Proof.
  intros Hd Hi. assert (stands k 1 (ODentry 1 "/" 0 merged_root (dn_entry example.root))) as Hs
    by (split; [unfold view_at, view; by rewrite Hd, Hi|left; by eexists]).
  exists example.root, (ODentry 1 "/" 0 merged_root (dn_entry example.root)), (ODentry 1 "/" 0 merged_root (dn_entry example.root)).
  rewrite Hd. by split_and!.
Qed.

(** One file is opened and reads an entry; another is opened and reads all. *)
Definition one : diractor := λ taken _, bool_decide (taken = []).
Definition opened : dstate fworld := next (CallOpen 1 1 O_RDONLY) start.
Definition one_read : dstate fworld := next (CallIterate 1 one) opened.
Definition both_open : dstate fworld := next (CallOpen 2 1 O_RDONLY) one_read.
Definition both_read : dstate fworld := next (CallIterate 2 everything) both_open.

Abbreviation dstep := (dstep (W := fworld) 7 example.work example.index (λ _, None) 256 kmalloc false false 4 3).
Abbreviation reached := (reached (W := fworld) 7 example.work example.index (λ _, None) 256 kmalloc false false 4 3).
Abbreviation reads := (reads (W := fworld) 7 example.work example.index (λ _, None) 256 kmalloc false false 4 3).

Lemma step_opened : dstep [] [] start opened.
Proof.
  apply (step_call 7 example.work example.index (λ _, None) 256 kmalloc false false 4 3 [] [] start (CallOpen 1 1 O_RDONLY) (0, [])).
  - split; [done|]. exists 1. by apply root_open.
  - intros p _. apply not_elem_of_nil.
  - vm_compute. reflexivity.
Qed.
Lemma step_one_read : dstep [] [] opened one_read.
Proof.
  apply (step_call 7 example.work example.index (λ _, None) 256 kmalloc false false 4 3 [] [] opened (CallIterate 1 one)
    (0, [(0, Dirent "a" 21 8)])).
  - vm_compute. by eexists.
  - intros p _. apply not_elem_of_nil.
  - vm_compute. reflexivity.
Qed.
Lemma step_both_open idle : dstep idle [] one_read both_open.
Proof.
  apply (step_call 7 example.work example.index (λ _, None) 256 kmalloc false false 4 3 idle [] one_read (CallOpen 2 1 O_RDONLY) (0, [])).
  - split; [done|]. exists 1. apply root_open; vm_compute; reflexivity.
  - done.
  - vm_compute. reflexivity.
Qed.
Lemma step_both_read idle : 2 ∉ idle → dstep idle [] both_open both_read.
Proof.
  intros Hidle. apply (step_call 7 example.work example.index (λ _, None) 256 kmalloc false false 4 3 idle [] both_open (CallIterate 2 everything)
    (0, [(0, Dirent "a" 21 8); (2, Dirent "." 23 4); (3, Dirent "c" 12 8)])).
  - vm_compute. by eexists.
  - by intros p [= <-].
  - vm_compute. reflexivity.
Qed.
Lemma opened_reached : reached start opened.
Proof. split; [apply start_started|]. apply rtc_once, step_opened. Qed.
Lemma both_reached : reached start both_read.
Proof.
  split; [apply start_started|]. eapply rtc_l; [apply step_opened|]. eapply rtc_l; [apply step_one_read|].
  eapply rtc_l; [apply step_both_open|]. apply rtc_once, step_both_read, not_elem_of_nil.
Qed.
End dirworld.


Lemma dir_files_no_leak_witness :
  y_refs dirworld.both_read ≡ₚ owned (y_files dirworld.both_read) ∧ length (y_refs dirworld.both_read) = 2%nat.
Proof.
  destruct (dir_files_no_leak (W := fworld) 7 example.work example.index (λ _, None) 256 dirworld.kmalloc false false 4 3
    dirworld.start dirworld.both_read dirworld.both_reached) as (Hrefs & _). split; [exact Hrefs|by vm_compute].
Defined.

