(* ===== verification/Async.v ===== *)
(** Asynchronous block copies: async_block_read_iter, async_block_write_iter
    and speed_block_copy (file.c) and the kernel thread ovl_block_copy
    (super.c).  A write leaves the rest of its first and of its last block to a
    request in the hash table copying_block_table; the thread takes the blocks
    out of block_copy_fifo and copies what their requests ask for, and a read
    of such a block copies it at once.

    A spin lock of entry_locks makes what runs under it one step of the model.
    Between two steps of a read or a write other threads run: they are the
    parameter [others], a computation for every such point of the code; the
    points inside the loop of a read are told apart by the count that is left. *)

From S2P Require Import Prelude Vfs Types Util Block BlockView BlockWrite BlockRead Kernel Action.

(** struct block_copy_req; the list node is the place in its bucket. *)
Record block_copy_req : Type := BlockCopyReq {
  req_dentry : Z;
  req_block_id : Z;
  req_offset : Z;
  req_len : Z;
}.

Record astate (W : Type) : Type := AState {
  as_w : W;
  as_d_inode : gmap Z Z;                    (* dentry->d_inode *)
  as_oi : gmap Z ovl_blocks;                (* OVL_I(inode) *)
  as_table : gmap Z (list block_copy_req);  (* copying_block_table *)
  as_locks : gset Z;                        (* the entry_locks that are held *)
  as_fifo : list Z;                         (* block_copy_fifo *)
  as_buf : list Z;                          (* block_buf, zero where not written yet *)
}.
Arguments AState {W} _ _ _ _ _ _ _.
Arguments as_w {W} _.
Arguments as_d_inode {W} _.
Arguments as_oi {W} _.
Arguments as_table {W} _.
Arguments as_locks {W} _.
Arguments as_fifo {W} _.
Arguments as_buf {W} _.

Section setters.
Context {W : Type}.
Implicit Types (s : astate W).
Definition set_as_w (w : W) s := AState w (as_d_inode s) (as_oi s) (as_table s) (as_locks s) (as_fifo s) (as_buf s).
Definition set_as_oi m s := AState (as_w s) (as_d_inode s) m (as_table s) (as_locks s) (as_fifo s) (as_buf s).
Definition set_as_table t s := AState (as_w s) (as_d_inode s) (as_oi s) t (as_locks s) (as_fifo s) (as_buf s).
Definition set_as_locks l s := AState (as_w s) (as_d_inode s) (as_oi s) (as_table s) l (as_fifo s) (as_buf s).
Definition set_as_fifo f s := AState (as_w s) (as_d_inode s) (as_oi s) (as_table s) (as_locks s) f (as_buf s).
Definition set_as_buf b s := AState (as_w s) (as_d_inode s) (as_oi s) (as_table s) (as_locks s) (as_fifo s) b.
End setters.

(** block_copy_fifo is a [struct kfifo] of bytes over COPY_REQ_NUM *
    sizeof(size_t) of them; kfifo_init rounds that down to a power of two,
    16 MiB, which is the room for this many block numbers. *)
Definition KFIFO_ROOM : Z := 2097152.
Definition SIZEOF_SIZE_T : Z := 8.

(** The first element for which [p] holds is replaced. *)
Fixpoint update_first {A} (p : A → bool) (f : A → A) (l : list A) : list A :=
  match l with
  | [] => []
  | x :: l => if p x then f x :: l else x :: update_first p f l
  end.

Section async.
Context {W : Type} `{Vfs W}.
(** hash_min(block_id, HASH_BITS(copying_block_table)) of linux/hash.h *)
Context (hash_min : Z → Z).
Implicit Types (w : W) (b : ovl_blocks) (s : astate W) (r : read_st) (req : block_copy_req).
Local Abbreviation act := (action (astate W)).

(** ** Inodes, locks and the table *)

(** OVL_I(dentry->d_inode) *)
Definition dentry_ino (dentry : Z) : act Z :=
  m ← aget as_d_inode; aderef (m !! dentry).
Definition get_oi (inode : Z) : act ovl_blocks :=
  m ← aget as_oi; aderef (m !! inode).
Definition put_oi (inode : Z) b : act unit := aset (λ s, set_as_oi (<[inode := b]> (as_oi s)) s).

(** Whoever holds the lock spins on it for ever. *)
Definition spin_lock (h : Z) : act unit :=
  l ← aget as_locks;
  if decide (h ∈ l) then anofuel else aset (set_as_locks ({[h]} ∪ l)).
Definition spin_unlock (h : Z) : act unit :=
  l ← aget as_locks;
  if decide (h ∈ l) then aset (set_as_locks (l ∖ {[h]})) else afault.

Definition bucket s (h : Z) : list block_copy_req := default [] (as_table s !! h).
Definition set_bucket (h : Z) (l : list block_copy_req) s : astate W :=
  set_as_table (<[h := l]> (as_table s)) s.

(** hash_add: at the head of the list of its bucket *)
Definition hash_add req : act unit :=
  aset (λ s, let h := hash_min (req_block_id req) in set_bucket h (req :: bucket s h) s).

(** kfifo_in(&block_copy_fifo, &id, sizeof(size_t)): a full fifo drops it. *)
Definition kfifo_in (id : Z) : act unit :=
  aset (λ s, if KFIFO_ROOM <=? zlen (as_fifo s) then s else set_as_fifo (as_fifo s ++ [id]) s).

(** An array element under the inode's [block_status]. *)
Definition lift {A} (o : outcome A) : act A := λ s, match o with Ret a => Ret (a, s) | Fault => Fault | NoFuel => NoFuel end.
Definition get_status (inode k : Z) : act Z :=
  b ← get_oi inode; lift (array_get (block_status b) k).
Definition set_status (inode k x : Z) : act unit :=
  b ← get_oi inode;
  st ← lift (array_set (block_status b) k x);
  put_oi inode (set_block_status st b).

(** ovl_copy_up_block(oi->lower_file, oi->upper_file, pos, len) *)
Definition copy_block (inode pos len : Z) : act Z :=
  b ← get_oi inode;
  zoom as_w set_as_w (λ w, ovl_copy_up_block w (lower_file b) (upper_file b) pos len).

Definition is_req (dentry block_id : Z) req : bool :=
  (req_dentry req =? dentry) && (req_block_id req =? block_id).

(** static ssize_t speed_block_copy(dentry, block_id) *)
Definition speed_block_copy (dentry block_id : Z) : act Z :=
  inode ← dentry_ino dentry;
  l ← aget (λ s, bucket s (hash_min block_id));
  match List.find (is_req dentry block_id) l with
  | None => mret 0
  | Some req =>
      ret ← copy_block inode (req_offset req) (req_len req);
      if ret <? 0 then mret ret
      else set_status inode block_id COPIED;; mret ret
  end.

(** The lazy opens of [Block] on the block fields of an inode. *)
Definition with_blocks {A} (inode : Z) (f : bstate W → A * bstate W) : act A :=
  b ← get_oi inode;
  '(a, b) ← zoom as_w set_as_w (λ w,
      let '(a, s) := f (BState w b []) in Ret ((a, bs_b s), bs_w s));
  put_oi inode b;; mret a.

(** ** Reading *)

Context (others : Z → act unit).

(** [while (c_count > 0)] over the upper file: at its end the loop is left only
    when [lower_end] is set. *)
Fixpoint async_read_chunk (fuel : nat) w (f c_count : Z) (lower_end : bool) r
    : outcome (read_exit * read_st * W) :=
  if c_count <=? 0 then Ret (ReadAll, r, w)
  else match fuel with
  | O => NoFuel
  | S fuel =>
      '(cnt, d, w) ← read_file w f (rd_pos r) c_count;
      if cnt <? 0 then Ret (ReadErr, r, w)
      else if (cnt =? 0) && lower_end then Ret (ReadEof, r, w)
      else async_read_chunk fuel w f (c_count - cnt) lower_end (read_adv cnt d r)
  end.

Definition read_world {A} (f : W → outcome (A * W)) : act A := zoom as_w set_as_w f.

(** The outer [while (count > 0)] of async_block_read_iter; the result is the
    return value and the locals. *)
Fixpoint async_read_loop (fuel : nat) (dentry : Z) (lower_end : bool) r : act (Z * read_st) :=
  if rd_count r =? 0 then mret (rd_ret r, r)
  else match fuel with
  | O => anofuel
  | S fuel =>
      let start_block := ovl_get_block (rd_pos r) in
      let end_block := ovl_get_block (rd_pos r + rd_count r) in
      inode ← dentry_ino dentry;
      b ← get_oi inode;
      if block_count b <? start_block then
        '(cnt, d) ← read_world (λ w, read_file w (upper_file b) (rd_pos r) (rd_count r));
        if cnt <? 0 then mret (0, r)
        else mret (rd_ret r + cnt, read_adv cnt d r)
      else
        let c_count := if start_block =? end_block then rd_count r
                       else u64 (start_block * BLOCK_SIZE - rd_pos r) in
        status ← get_status inode start_block;
        others (2 * rd_count r);;
        if status =? COPIED then
          '(ex, r) ← read_world (λ w, async_read_chunk (Z.to_nat c_count) w (upper_file b) c_count lower_end r);
          match ex with
          | ReadEof => mret (rd_ret r, r)
          | _ => async_read_loop fuel dentry lower_end r
          end
        else if status =? UNCOPY then
          if lower_end then mret (rd_ret r, r)
          else
            '(ex, r) ← read_world (λ w, read_chunk (Z.to_nat c_count) w (lower_file b) c_count r);
            let lower_end := match ex with ReadEof => true | _ => lower_end end in
            async_read_loop fuel dentry lower_end r
        else
          let hash_id := hash_min start_block in
          spin_lock hash_id;;
          status ← get_status inode start_block;
          (if status =? COPYING then speed_block_copy dentry start_block;; mret tt else mret tt);;
          spin_unlock hash_id;;
          others (2 * rd_count r + 1);;
          '(cnt, d) ← read_world (λ w, read_file w (upper_file b) (rd_pos r) c_count);
          if cnt <? 0 then mret (rd_ret r, r)
          else if (cnt =? 0) && lower_end then mret (rd_ret r, r)
          else async_read_loop fuel dentry lower_end (read_adv cnt d r)
  end.

(** static ssize_t async_block_read_iter(dentry, iocb, iter) *)
Definition async_block_read_iter (fuel : nat) (upper_path lower_path : path) (dentry pos count : Z)
    : act (Z * read_st) :=
  inode ← dentry_ino dentry;
  e ← with_blocks inode (open_both upper_path lower_path);
  if e <? 0 then mret (e, ReadSt 0 count pos [])
  else async_read_loop fuel dentry false (ReadSt 0 count pos []).

(** ** Writing *)

(** [oi->lower_file->f_inode->i_size] *)
Definition lower_i_size (inode : Z) : act Z :=
  b ← get_oi inode; w ← aget as_w; lift (file_i_size w (lower_file b)).

(** A new request for an uncopied block: [kz] is the result of kzalloc, [queue]
    whether the block number goes into the fifo. *)
Definition new_request (kz queue : bool) (dentry inode block_id offset len : Z) : act Z :=
  if negb kz then mret (- ENOMEM)
  else
    hash_add (BlockCopyReq dentry block_id offset len);;
    (if queue then kfifo_in block_id else mret tt);;
    set_status inode block_id COPYING;; mret 0.

(** The part of a request that a write of [[pos, pos+len)] of its block leaves
    to be copied.  When neither end of the request is covered [out_pos] is used
    without a value. *)
Definition trim_request (pos len : Z) req : outcome block_copy_req :=
  let in_pos := if pos <? req_offset req then req_offset req else pos in
  let in_rpos := if u64 (req_offset req + req_len req) <? u64 (pos + len)
                 then u64 (req_offset req + req_len req) else u64 (pos + len) in
  let r_pos := req_offset req in
  let r_rpos := u64 (req_offset req + req_len req) in
  let out (out_pos out_rpos : Z) :=
    Ret (BlockCopyReq (req_dentry req) (req_block_id req) out_pos (u64 (out_rpos - out_pos))) in
  if in_pos =? r_pos then out (Z.min in_rpos r_rpos) (Z.max in_rpos r_rpos)
  else if r_rpos =? in_rpos then out (Z.min in_pos r_pos) (Z.max in_pos r_pos)
  else Fault.

(** Does one end of [[pos, pos+len)] lie in the request? *)
Definition touches_request (pos len : Z) req : bool :=
  ((req_offset req <=? pos) && (u64 pos <? u64 (req_offset req + req_len req))) ||
  ((u64 (req_offset req) <? u64 (pos + len)) && (u64 (pos + len) <=? u64 (req_offset req + req_len req))).

(** The branch for a block that waits for its copy, in both border sections. *)
Definition trim_pending (dentry inode block_id pos len : Z) : act unit :=
  let h := hash_min block_id in
  l ← aget (λ s, bucket s h);
  match List.find (is_req dentry block_id) l with
  | None => mret tt
  | Some req =>
      if touches_request pos len req then
        req' ← lift (trim_request pos len req);
        aset (λ s, set_bucket h (update_first (is_req dentry block_id) (λ _, req') (bucket s h)) s);;
        if req_len req' =? 0 then set_status inode block_id COPIED else mret tt
      else mret tt
  end.

(** The section of the first block, under its lock: error and [start_part]. *)
Definition start_section (kz : bool) (dentry inode start_block pos : Z) : act (Z * Z) :=
  let block_pos := u64 (u64 (start_block - 1) * BLOCK_SIZE) in
  let hash_id := hash_min start_block in
  spin_lock hash_id;;
  '(err, part) ← (if block_pos <? u64 pos then
    status ← get_status inode start_block;
    if status =? UNCOPY then
      e ← new_request kz true dentry inode start_block block_pos (u64 (pos - block_pos));
      mret (e, 1)
    else if status =? COPYING then
      lower_size ← lower_i_size inode;
      trim_pending dentry inode start_block pos
        (Z.min (u64 (lower_size - pos)) (u64 (start_block * BLOCK_SIZE - pos)));; mret (0, 1)
    else mret (0, 1)
   else mret (0, 0));
  spin_unlock hash_id;; mret (err, part).

(** The section of the last block: its request is not put into the fifo. *)
Definition end_section (kz : bool) (dentry inode end_block pos count : Z) : act (Z * Z) :=
  let hash_id := hash_min end_block in
  spin_lock hash_id;;
  '(err, part) ← (if u64 (pos + count) <? u64 (end_block * BLOCK_SIZE) then
    status ← get_status inode end_block;
    if status =? UNCOPY then
      e ← new_request kz false dentry inode end_block (pos + count) (u64 (end_block * BLOCK_SIZE - (pos + count)));
      mret (e, 1)
    else if status =? COPYING then
      lower_size ← lower_i_size inode;
      let block_pos := u64 (u64 (end_block - 1) * BLOCK_SIZE) in
      trim_pending dentry inode end_block block_pos
        (Z.min (u64 (lower_size - block_pos)) (u64 (pos + count - block_pos)));; mret (0, 1)
    else mret (0, 1)
   else mret (0, 0));
  spin_unlock hash_id;; mret (err, part).

(** A write inside one block that does not begin where the block begins. *)
Definition single_section (dentry inode start_block : Z) : act Z :=
  let hash_id := hash_min start_block in
  spin_lock hash_id;;
  status ← get_status inode start_block;
  ret ← (if status =? UNCOPY then
           lower_size ← lower_i_size inode;
           ret ← copy_block inode (u64 (u64 (start_block - 1) * BLOCK_SIZE)) lower_size;
           if ret <? 0 then mret ret else set_status inode start_block COPIED;; mret ret
         else if status =? COPYING then speed_block_copy dentry start_block
         else mret 0);
  spin_unlock hash_id;; mret ret.

(** The O_APPEND branch copies the last block, if nothing of it is copied. *)
Definition append_section (inode : Z) : act Z :=
  b ← get_oi inode;
  status ← get_status inode (block_count b);
  if status =? UNCOPY then
    lower_size ← lower_i_size inode;
    let start := u64 (u32 (block_count b - 1) * BLOCK_SIZE) in
    ret ← copy_block inode start (u64 (lower_size - start));
    if ret <? 0 then mret ret else set_status inode (block_count b) COPIED;; mret ret
  else mret 0.

(** [for (i = start_block+start_part; i <= end_block-end_part; i++)], with [n]
    iterations left: the counter counts the blocks again that were copied. *)
Fixpoint async_mark_blocks (n : nat) (i : Z) b : outcome ovl_blocks :=
  match n with
  | O => Ret b
  | S n =>
      if block_count b <? i then Ret b
      else
        st ← array_set (block_status b) i COPIED;
        async_mark_blocks n (i + 1) (set_copy_count (u32 (copy_count b + 1)) (set_block_status st b))
  end.

(** copy_done: the write and the marks; [first] and [last] are the bounds of
    the loop of the marks. *)
Definition async_finish_write (fuel : nat) (inode realfile ret first last pos : Z) (d : list byte) : act (Z * Z) :=
  others 2;;
  '(ret, pos) ← zoom as_w set_as_w (λ w,
      '(ret, pos, w) ← write_loop fuel w realfile ret pos d; Ret ((ret, pos), w));
  if ret <? 0 then mret (ret, pos)
  else
    others 3;;
    b ← get_oi inode;
    b ← lift (async_mark_blocks (Z.to_nat (last + 1 - first)) first b);
    put_oi inode b;; mret (ret, pos).

(** static ssize_t async_block_write_iter(dentry, realfile, iocb, iter): the
    result and the new [iocb->ki_pos]; [kz1] and [kz2] are what kzalloc gives
    for the first and the last block. *)
Definition async_block_write_iter (fuel : nat) (kz1 kz2 : bool) (upper_path lower_path : path)
    (dentry realfile pos : Z) (d : list byte) : act (Z * Z) :=
  let count := zlen d in
  let start_block := ovl_get_block pos in
  let end_block := ovl_get_block (pos + count) in
  inode ← dentry_ino dentry;
  e ← with_blocks inode (open_both upper_path lower_path);
  if e <? 0 then mret (e, pos)
  else
    append ← aget (λ s, vfs_append (as_w s) realfile);
    if (append : bool) then
      ret ← append_section inode;
      if ret <? 0 then mret (ret, pos)
      else
        b ← get_oi inode;
        async_finish_write fuel inode realfile ret (block_count b + 1) (block_count b - 1) pos d
    else if (start_block =? end_block) && (u64 (u64 (start_block - 1) * BLOCK_SIZE) <? u64 pos)
            && (u64 (pos + count) <? u64 (end_block * BLOCK_SIZE)) then
      others 0;;
      ret ← single_section dentry inode start_block;
      if ret <? 0 then mret (ret, pos)
      else async_finish_write fuel inode realfile ret (start_block + 1) (end_block - 1) pos d
    else
      others 0;;
      '(err, start_part) ← start_section kz1 dentry inode start_block pos;
      if err <? 0 then mret (err, pos)
      else
        others 1;;
        '(err, end_part) ← end_section kz2 dentry inode end_block pos count;
        if err <? 0 then mret (err, pos)
        else async_finish_write fuel inode realfile 0 (start_block + start_part) (end_block - end_part) pos d.

(** ** The kernel thread *)

(** What ovl_block_copy does with one request of a bucket. *)
Definition copy_request req : act unit :=
  inode ← dentry_ino (req_dentry req);
  status ← get_status inode (req_block_id req);
  if negb (status =? COPYING) || (req_len req =? 0) then mret tt
  else
    _ ← copy_block inode (req_offset req) (req_len req);
    set_status inode (req_block_id req) COPIED.

(** hash_for_each_possible_safe with hash_del: each request is removed once it
    is dealt with. *)
Fixpoint copy_requests (h : Z) (l : list block_copy_req) : act unit :=
  match l with
  | [] => mret tt
  | req :: l => copy_request req;; aset (set_bucket h l);; copy_requests h l
  end.

(** The body of the loop over block_buf, under the lock of the bucket. *)
Definition copy_bucket (block_id : Z) : act unit :=
  let hash_id := hash_min block_id in
  spin_lock hash_id;;
  l ← aget (λ s, bucket s hash_id);
  copy_requests hash_id l;;
  spin_unlock hash_id.

(** kfifo_out(&block_copy_fifo, block_buf, ...): the number of bytes taken; the
    rest of block_buf keeps what it held. *)
Definition kfifo_out : act Z :=
  ids ← aget as_fifo;
  aset (λ s, set_as_fifo [] (set_as_buf (ids ++ zdrop (zlen ids) (as_buf s)) s));;
  mret (SIZEOF_SIZE_T * zlen ids).

(** [for (i = 0; i < n; i++)], [n] iterations left: kthread_should_stop gives
    the elements of [stop] one after the other, and then true. *)
Fixpoint copy_round (n : nat) (i : Z) (stop : list bool) : act (list bool) :=
  match n with
  | O => mret stop
  | S n =>
      buf ← aget as_buf;
      copy_bucket (default 0 (zget buf i));;
      match stop with
      | false :: stop => copy_round n (i + 1) stop
      | _ => mret []
      end
  end.

(** static int ovl_block_copy(void *data): [stop] has an element for every call
    of kthread_should_stop, and so has the thread a bound on its rounds. *)
Fixpoint ovl_block_copy (rounds : nat) (stop : list bool) : act unit :=
  match stop with
  | false :: stop =>
      match rounds with
      | O => anofuel
      | S rounds =>
          n ← kfifo_out;
          stop ← copy_round (Z.to_nat n) 0 stop;
          match stop with
          | false :: stop => ovl_block_copy rounds stop
          | _ => mret tt
          end
      end
  | _ => mret tt
  end.

(** What the thread does meanwhile, as the [others] of a read or a write: at each
    point it deals with some block numbers. *)
Fixpoint copy_buckets (ids : list Z) : act unit :=
  match ids with [] => mret tt | id :: ids => copy_bucket id;; copy_buckets ids end.
Definition copy_thread (sched : Z → list Z) : Z → act unit := λ p, copy_buckets (sched p).
End async.
