(* ===== verification/AsyncInv.v ===== *)
(** What a file shows some blocks of which wait for their copy: which bytes come
    from the upper file ([async_from_upper]), how copies, marks and writes
    change what is shown, the invariant of all files ([ainv]), also in the
    middle of a write, and that a copy of what a request asks for keeps it. *)

From S2P Require Import Prelude Vfs Types Util Block BlockView BlockWrite BlockWriteSpec BlockRead Kernel Action Async.

(** ** Claims about bytes

    [src i]: byte [i] comes from the upper file [U], else from the lower one
    [L].  What is shown is [F], as far as [cl] claims it. *)
Section claims.
Implicit Types (cl src : Z → bool) (L U F d : list byte) (i : Z).

Definition claims cl src L U F : Prop :=
  ∀ i, 0 ≤ i → cl i = true → (if src i then zget U i else zget L i) = zget F i.
(** Where the lower file ends nothing is in the upper file either. *)
Definition unwritten src L U : Prop := ∀ i, zlen L ≤ i → src i = false → zget U i = None.
Definition in_range (pos n i : Z) : bool := (pos <=? i) && (i <? pos + n).

Lemma in_range_spec pos n i : in_range pos n i = true ↔ pos ≤ i < pos + n.
Proof. unfold in_range. rewrite andb_true_iff, Z.leb_le, Z.ltb_lt. lia. Qed.

Lemma zget_lt_Some {A} (l : list A) i : 0 ≤ i < zlen l → zget l i ≠ None.
Proof. intros Hi. by destruct (zget_is_Some l i Hi) as [x ->]. Qed.

(** Copying bytes that are shown from the lower file changes nothing. *)
Lemma copy_claims cl src L U F off k :
  claims cl src L U F → unwritten src L U → zlen L ≤ zlen F → 0 ≤ off → 0 ≤ k →
  (0 < k → off + k ≤ zlen L) → (∀ i, off ≤ i < off + k → src i = false) →
  let U' := fwrite U off (zslice L off k) in
  claims cl src L U' F ∧ unwritten src L U' ∧
  (∀ i, off ≤ i < off + k → zget U' i = zget L i).
Proof.
  intros Hc Hu HF Hoff Hk Hin Hsrc U'. destruct (decide (k = 0)) as [->|Hk0].
  { subst U'. rewrite zslice_0. split_and!; [done|done|lia]. }
  specialize (Hin ltac:(lia)).
  assert (zlen (zslice L off k) = k) as Hl by (apply zlen_zslice_in; lia).
  assert (∀ i, off ≤ i < off + k → zget U' i = zget L i) as Hnew.
  { intros i Hi. subst U'. rewrite zget_fwrite, Hl, decide_True, zget_zslice by lia. f_equal; lia. }
  assert (∀ i, src i = true → ¬ off ≤ i < off + k) as Hout
    by (intros i Hi ?; rewrite Hsrc in Hi; done).
  split_and!; [| |done].
  - intros i Hi Hci. specialize (Hc i Hi Hci). destruct (src i) eqn:Es; [|done]. rewrite <- Hc.
    subst U'. rewrite zget_fwrite, Hl, decide_False by (auto; lia).
    case_decide; [|done]. exfalso. apply (zget_lt_Some F i); [lia|]. rewrite <- Hc. apply zget_None. lia.
  - intros i Hi Es. subst U'. rewrite zget_fwrite, Hl, decide_False, decide_False by lia. by apply Hu.
Qed.

(** More bytes may come from the upper file where it agrees with the lower. *)
Lemma claims_more cl src src' L U F :
  claims cl src L U F →
  (∀ i, 0 ≤ i → src i = true → src' i = true) →
  (∀ i, 0 ≤ i → cl i = true → src i = false → src' i = true → zget U i = zget L i) →
  claims cl src' L U F.
Proof.
  intros Hc Hm Hn i Hi Hci. rewrite <- (Hc i Hi Hci).
  destruct (src i) eqn:E; [by rewrite (Hm i Hi E)|]. destruct (src' i) eqn:E'; [|done]. by apply Hn.
Qed.

Lemma unwritten_more src src' L U :
  unwritten src L U → (∀ i, 0 ≤ i → src i = true → src' i = true) → unwritten src' L U.
Proof.
  intros Hu Hm i Hi Hs. pose proof (zlen_nonneg L). apply Hu; [done|].
  destruct (src i) eqn:E; [|done]. rewrite Hm in Hs; [done|lia|done].
Qed.

Lemma claims_less cl cl' src L U F :
  claims cl src L U F → (∀ i, cl' i = true → cl i = true) → claims cl' src L U F.
Proof. intros Hc Hl i Hi Hci. auto. Qed.

(** A write whose range is not claimed before it, and is claimed after it. *)
Lemma write_claims cl src L U F pos d :
  claims cl src L U F → unwritten src L U → 0 ≤ pos → 0 < zlen d →
  (∀ i, in_range pos (zlen d) i = false → cl i = true) →
  (∀ i, 0 ≤ i < pos → src i = false → i < zlen L) →
  let src' i := src i || in_range pos (zlen d) i in
  claims (λ _, true) src' L (fwrite U pos d) (fwrite F pos d) ∧
  unwritten src' L (fwrite U pos d).
Proof.
  intros Hc Hu Hpos Hd Hcl Hgap src'. subst src'. split.
  - intros i Hi _. cbn. destruct (in_range pos (zlen d) i) eqn:Er.
    { rewrite orb_true_r. apply in_range_spec in Er. by rewrite !zget_fwrite, !decide_True by lia. }
    rewrite orb_false_r. specialize (Hc i Hi (Hcl i Er)).
    assert (¬ pos ≤ i < pos + zlen d) as Hout by (rewrite <- in_range_spec; congruence).
    destruct (src i) eqn:Es; [by apply fwrite_agree|].
    assert (¬ zlen F ≤ i < pos) as Hhole.
    { intros [HF Hi']. assert (i < zlen L) by (apply Hgap; [lia|done]).
      apply (zget_lt_Some L i); [lia|]. rewrite Hc. by apply zget_None. }
    by rewrite zget_fwrite, (decide_False _ _ Hout), (decide_False _ _ Hhole) by lia.
  - intros i Hi [Es Er]%orb_false_iff. pose proof (zlen_nonneg L).
    assert (¬ pos ≤ i < pos + zlen d) as Hout by (rewrite <- in_range_spec; congruence).
    assert (¬ zlen U ≤ i < pos) as Hhole.
    { intros ?. assert (i < zlen L) by (apply Hgap; [lia|done]). lia. }
    rewrite zget_fwrite, (decide_False _ _ Hout), (decide_False _ _ Hhole) by lia. by apply Hu.
Qed.
End claims.

(** ** Where the bytes of a block come from *)

Section source.
Implicit Types (b : ovl_blocks) (rq : Z → option block_copy_req) (i k : Z).

(** What a request still has to copy, as far as the lower file goes. *)
Definition req_covers (lsize : Z) (req : block_copy_req) i : bool :=
  (req_offset req <=? i) && (i <? Z.min (req_offset req + req_len req) lsize).

Definition async_from_upper (lsize : Z) b rq i : bool :=
  let k := i / BLOCK_SIZE + 1 in
  (block_count b <? k) ||
  match zget (block_status b) k with
  | Some st =>
      if st =? UNCOPY then false
      else if st =? COPYING then
        match rq k with Some req => negb (req_covers lsize req i) | None => true end
      else true
  | None => false
  end.

(** Byte [i] waits for the copy of its block. *)
Definition pending (lsize : Z) b rq i : Prop :=
  let k := i / BLOCK_SIZE + 1 in
  k ≤ block_count b ∧ zget (block_status b) k = Some COPYING ∧
  ∃ req, rq k = Some req ∧ req_covers lsize req i = true.

Lemma async_from_upper_ext lsize b b' rq rq' i :
  let k := i / BLOCK_SIZE + 1 in
  block_count b' = block_count b → zget (block_status b') k = zget (block_status b) k →
  (zget (block_status b) k = Some COPYING → rq' k = rq k) →
  async_from_upper lsize b' rq' i = async_from_upper lsize b rq i.
Proof.
  cbn zeta. intros Hc Hs Hr. unfold async_from_upper. rewrite Hc, Hs. f_equal.
  destruct (zget (block_status b) _) as [st|]; [|done]. destruct (st =? UNCOPY); [done|].
  destruct (Z.eqb_spec st COPYING) as [->|]; [by rewrite Hr|done].
Qed.

(** The bytes of a block by its status. *)
Lemma from_upper_status lsize b rq i k st :
  k = i / BLOCK_SIZE + 1 → k ≤ block_count b → zget (block_status b) k = Some st →
  async_from_upper lsize b rq i =
    (if st =? UNCOPY then false
     else if st =? COPYING then
       match rq k with Some req => negb (req_covers lsize req i) | None => true end
     else true).
Proof.
  intros -> Hk Hs. unfold async_from_upper. rewrite Hs. destruct (Z.ltb_spec (block_count b) (i / BLOCK_SIZE + 1)); [lia|done].
Qed.

Lemma from_upper_tail lsize b rq i : block_count b < i / BLOCK_SIZE + 1 → async_from_upper lsize b rq i = true.
Proof. intros Hk. unfold async_from_upper. by rewrite (proj2 (Z.ltb_lt _ _) Hk). Qed.

Lemma pending_from_lower lsize b rq i : pending lsize b rq i → async_from_upper lsize b rq i = false.
Proof.
  intros (Hk & Hs & req & Hr & Hc). rewrite (from_upper_status _ _ _ _ _ _ eq_refl Hk Hs).
  change (COPYING =? UNCOPY) with false. change (COPYING =? COPYING) with true. cbn. by rewrite Hr, Hc.
Qed.

(** The status of a block of the file after a store into the array. *)
Lemma zget_status_insert b k x j :
  0 ≤ k < zlen (block_status b) →
  zget (block_status (set_block_status (<[Z.to_nat k := x]> (block_status b)) b)) j =
  if decide (k = j) then Some x else zget (block_status b) j.
Proof. intros Hk. cbn. by apply zget_insert. Qed.
End source.

(** What is known of the contents of a file: the bytes [fv_data], as far as
    [fv_claim] claims them; those of [fv_ahead] are in the upper file already,
    but their blocks are not marked yet. *)
Record fview : Type := FView { fv_data : list byte; fv_claim : Z → bool; fv_ahead : Z → bool }.
(** A file no write of which is under way. *)
Definition settled (F : list byte) : fview := FView F (λ _, true) (λ _, false).
Definition put_view (ino : Z) (v : fview) (Vs : Z → fview) : Z → fview :=
  λ j, if decide (j = ino) then v else Vs j.

Lemma put_view_eq ino v Vs : put_view ino v Vs ino = v.
Proof. unfold put_view. by rewrite decide_True. Qed.
Lemma put_view_ne ino v Vs j : j ≠ ino → put_view ino v Vs j = Vs j.
Proof. intros. unfold put_view. by rewrite decide_False. Qed.

Lemma block_of i bc : 0 ≤ i → i / BLOCK_SIZE + 1 ≤ bc → 1 ≤ i / BLOCK_SIZE + 1 ≤ bc.
Proof. unfold BLOCK_SIZE. lia. Qed.

Section inv.
Context {W : Type} `{VfsLaws W}.
(** The inodes of the upper and of the lower file of an overlay inode. *)
Context (upper_of lower_of : Z → Z).
Implicit Types (w : W) (b : ovl_blocks) (s : astate W) (v : fview) (Vs : Z → fview)
  (req : block_copy_req) (rq : Z → option block_copy_req) (ino de k : Z).

(** A request of block [k], with the files it copies between. *)
Record req_ok b k req : Prop := {
  ro_start : block_start k ≤ req_offset req;
  ro_len : 0 < req_len req;
  ro_end : req_offset req + req_len req ≤ k * BLOCK_SIZE;
  ro_upper : 0 < upper_file b;
  ro_lower : 0 < lower_file b;
}.

Definition file_src w rq ino b v : Z → bool := λ i,
  async_from_upper (zlen (vfs_bytes w (lower_of ino))) b rq i || fv_ahead v i.

Record file_ok w rq ino b v : Prop := {
  fo_size : 0 < zlen (vfs_bytes w (lower_of ino)) < max_file;
  fo_count : block_count b = (zlen (vfs_bytes w (lower_of ino)) + BLOCK_SIZE - 1) / BLOCK_SIZE;
  fo_count32 : block_count b < 4294967296;
  fo_array : zlen (block_status b) = block_count b + 1;
  fo_ucache : cached w (upper_file b) (upper_of ino);
  fo_lcache : cached w (lower_file b) (lower_of ino);
  fo_status k st : 1 ≤ k ≤ block_count b → zget (block_status b) k = Some st →
    st = UNCOPY ∨ st = COPIED ∨ st = COPYING;
  fo_copying k : 1 ≤ k ≤ block_count b → zget (block_status b) k = Some COPYING →
    ∃ req, rq k = Some req ∧ req_ok b k req;
  fo_uncopied k : 1 ≤ k ≤ block_count b → zget (block_status b) k = Some UNCOPY → rq k = None;
  fo_grown : zlen (vfs_bytes w (lower_of ino)) ≤ zlen (fv_data v);
  fo_view : claims (fv_claim v) (file_src w rq ino b v)
              (vfs_bytes w (lower_of ino)) (vfs_bytes w (upper_of ino)) (fv_data v);
  fo_unwritten : unwritten (file_src w rq ino b v)
                   (vfs_bytes w (lower_of ino)) (vfs_bytes w (upper_of ino));
  fo_ahead i : 0 ≤ i → fv_ahead v i = true → ¬ pending (zlen (vfs_bytes w (lower_of ino))) b rq i;
}.

(** ** Facts about one file *)

Lemma fo_bounds w rq ino b v :
  file_ok w rq ino b v →
  1 ≤ block_count b ∧
  (block_count b - 1) * BLOCK_SIZE < zlen (vfs_bytes w (lower_of ino)) ≤ block_count b * BLOCK_SIZE.
Proof. intros []. unfold BLOCK_SIZE in *. lia. Qed.

Lemma fo_lookup w rq ino b v k :
  file_ok w rq ino b v → 1 ≤ k ≤ block_count b →
  ∃ st, zget (block_status b) k = Some st ∧ (st = UNCOPY ∨ st = COPIED ∨ st = COPYING).
Proof.
  intros Hf Hk. destruct (zget_is_Some (block_status b) k) as [st Hst].
  { rewrite (fo_array _ _ _ _ _ Hf). lia. }
  exists st. split; [done|]. by eapply fo_status.
Qed.

(** The requests of copied blocks do not matter. *)
Definition same_reqs b rq rq' : Prop :=
  ∀ k, 1 ≤ k ≤ block_count b → zget (block_status b) k ≠ Some COPIED → rq' k = rq k.

Lemma same_reqs_refl b rq : same_reqs b rq rq.
Proof. by intros k. Qed.

Lemma same_reqs_src lsize b rq rq' i :
  0 ≤ i → same_reqs b rq rq' → async_from_upper lsize b rq' i = async_from_upper lsize b rq i.
Proof.
  intros Hi Hr. destruct (decide (block_count b < i / BLOCK_SIZE + 1)).
  { by rewrite !from_upper_tail. }
  apply async_from_upper_ext; [done..|]. intros Hs. apply Hr.
  - apply block_of; lia.
  - rewrite Hs. done.
Qed.

(** Another world with the same two files, and the same requests. *)
Lemma file_ok_world w w' rq rq' ino b v :
  file_ok w rq ino b v → vfs_frame w w' →
  vfs_bytes w' (upper_of ino) = vfs_bytes w (upper_of ino) →
  vfs_bytes w' (lower_of ino) = vfs_bytes w (lower_of ino) →
  same_reqs b rq rq' → file_ok w' rq' ino b v.
Proof.
  intros [] Hf Eu El Hr.
  assert (∀ i, 0 ≤ i → file_src w' rq' ino b v i = file_src w rq ino b v i) as Hsrc.
  { intros i Hi. unfold file_src. by rewrite El, (same_reqs_src _ _ rq). }
  split; rewrite ?El, ?Eu; eauto using cached_frame.
  - intros k Hk Hs. rewrite Hr; [by apply fo_copying0|done|by rewrite Hs].
  - intros k Hk Hs. rewrite Hr; [by apply fo_uncopied0|done|by rewrite Hs].
  - intros i Hi Hc. rewrite Hsrc by done. by apply fo_view0.
  - intros i Hi Hs. apply fo_unwritten0; [done|]. rewrite <- Hsrc; [done|].
    pose proof (zlen_nonneg (vfs_bytes w (lower_of ino))). lia.
  - intros i Hi Ha (Hk & Hs & req & Hq & Hc). apply (fo_ahead0 i Hi Ha). split_and!; [done|done|].
    exists req. split; [|done]. rewrite <- Hr; [done|apply block_of; lia|by rewrite Hs].
Qed.

(** ** A copy of what a request asks for *)

(** The outcome of a copy over a kernel that does not fail: [n] bytes, all that
    were asked for or all the lower file has. *)
Definition copy_done w w' ino off len : Prop :=
  ∃ n, vfs_frame w w' ∧ 0 ≤ n ≤ len ∧
    (0 < n → off + n ≤ zlen (vfs_bytes w (lower_of ino))) ∧
    (n = len ∨ zlen (vfs_bytes w (lower_of ino)) ≤ off + n) ∧
    set_bytes w w' (upper_of ino)
      (fwrite (vfs_bytes w (upper_of ino)) off (zslice (vfs_bytes w (lower_of ino)) off n)).

Definition mark_status k x b : ovl_blocks := set_block_status (<[Z.to_nat k := x]> (block_status b)) b.

(** What is shown after block [k] got the status [COPIED], once its bytes are in
    the upper file. *)
Lemma mark_copied_ok w rq rq' ino b v k :
  file_ok w rq ino b v → 1 ≤ k ≤ block_count b →
  (∀ i, 0 ≤ i → i / BLOCK_SIZE + 1 = k → fv_claim v i = true → file_src w rq ino b v i = false →
     zget (vfs_bytes w (upper_of ino)) i = zget (vfs_bytes w (lower_of ino)) i) →
  (∀ j, j ≠ k → rq' j = rq j) →
  file_ok w rq' ino (mark_status k COPIED b) v.
Proof.
  intros Hf Hk Hagree Hr. pose proof Hf as [].
  assert (∀ j, zget (block_status (mark_status k COPIED b)) j =
               if decide (k = j) then Some COPIED else zget (block_status b) j) as Hz
    by (intros; apply zget_status_insert; lia).
  assert (∀ i, 0 ≤ i → file_src w rq' ino (mark_status k COPIED b) v i =
               if decide (i / BLOCK_SIZE + 1 = k) then true else file_src w rq ino b v i) as Hsrc.
  { intros i Hi. unfold file_src. case_decide as Ek.
    - by rewrite (from_upper_status _ _ _ _ k COPIED), orb_true_l by
        (try done; try (rewrite Hz, decide_True by done; done); cbn; lia).
    - f_equal. apply async_from_upper_ext; [done| |by intros _; apply Hr].
      by rewrite Hz, decide_False by done. }
  assert (∀ i, 0 ≤ i → file_src w rq ino b v i = true → file_src w rq' ino (mark_status k COPIED b) v i = true)
    as Hmore by (intros i Hi E; rewrite Hsrc by done; by case_decide).
  split; auto.
  - unfold mark_status; cbn. by rewrite zlen_insert.
  - intros j st Hj. rewrite Hz. case_decide; [intros [= <-]; by right; left|by apply fo_status0].
  - intros j Hj. rewrite Hz. case_decide as E; [done|]. intros Hs.
    destruct (fo_copying0 j Hj Hs) as (req & Hq & []). exists req. split; [by rewrite Hr by done|by split].
  - intros j Hj. rewrite Hz. case_decide as E; [done|]. intros Hs. rewrite Hr by done. by apply fo_uncopied0.
  - eapply claims_more; [exact fo_view0|exact Hmore|]. intros i Hi Hci Es. rewrite Hsrc by done.
    case_decide; [auto|congruence].
  - eapply unwritten_more; [exact fo_unwritten0|exact Hmore].
  - intros i Hi Ha (Hb & Hs & req & Hq & Hc). rewrite Hz in Hs. case_decide as E; [done|].
    apply (fo_ahead0 i Hi Ha). split_and!; [done|done|]. exists req. split; [|done]. by rewrite <- Hr.
Qed.

Lemma copy_keeps_file w w' rq ino b v off len :
  file_ok w rq ino b v → upper_of ino ≠ lower_of ino → copy_done w w' ino off len → 0 ≤ off →
  (∀ i, off ≤ i < off + len → i < zlen (vfs_bytes w (lower_of ino)) → file_src w rq ino b v i = false) →
  file_ok w' rq ino b v ∧
  ∀ i, off ≤ i < off + len → i < zlen (vfs_bytes w (lower_of ino)) →
    zget (vfs_bytes w' (upper_of ino)) i = zget (vfs_bytes w' (lower_of ino)) i.
Proof.
  intros Hf Hne (n & Hfr & Hn & Hin & Hall & Hset & Hoth) Hoff Hsrc. pose proof Hf as [].
  assert (vfs_bytes w' (lower_of ino) = vfs_bytes w (lower_of ino)) as El by (apply Hoth; congruence).
  destruct (copy_claims (fv_claim v) (file_src w rq ino b v) (vfs_bytes w (lower_of ino))
    (vfs_bytes w (upper_of ino)) (fv_data v) off n) as (Hc & Hu & Hcp); auto; try lia.
  { intros i Hi. apply Hsrc; lia. }
  assert (file_src w' rq ino b v = file_src w rq ino b v) as Es by (unfold file_src; by rewrite El).
  split.
  - split; rewrite ?El, ?Hset, ?Es; eauto using cached_frame.
  - intros i Hi Hl. rewrite El, Hset. apply Hcp. lia.
Qed.

(** ovl_block_copy and speed_block_copy on the request of a block: the file
    shows what it showed, and the block is copied. *)
Lemma request_copied w w' rq rq' ino b v k req :
  file_ok w rq ino b v → upper_of ino ≠ lower_of ino → 1 ≤ k ≤ block_count b →
  zget (block_status b) k = Some COPYING → rq k = Some req →
  copy_done w w' ino (req_offset req) (req_len req) →
  (∀ j, j ≠ k → rq' j = rq j) →
  file_ok w' rq' ino (mark_status k COPIED b) v.
Proof.
  intros Hf Hne Hk Hs Hq Hd Hr.
  destruct (fo_copying _ _ _ _ _ Hf k Hk Hs) as (req' & Hq' & Hro). rewrite Hq in Hq'. injection Hq' as <-.
  destruct Hro as [Ha Hl He _ _]. unfold block_start in Ha.
  assert (∀ i, req_offset req ≤ i < req_offset req + req_len req → i / BLOCK_SIZE + 1 = k) as Hblk
    by (intros i Hi; unfold BLOCK_SIZE in *; lia).
  assert (0 ≤ req_offset req) by (unfold BLOCK_SIZE in *; lia).
  destruct (copy_keeps_file w w' rq ino b v (req_offset req) (req_len req)) as [Hf' Hcp]; auto.
  { intros i Hi Hlow. apply orb_false_iff.
    assert (pending (zlen (vfs_bytes w (lower_of ino))) b rq i) as Hp.
    { unfold pending. rewrite Hblk by done. split_and!; [lia|done|]. exists req. split; [done|].
      unfold req_covers. rewrite andb_true_iff, Z.leb_le, Z.ltb_lt. lia. }
    split; [by apply pending_from_lower|]. destruct (fv_ahead v i) eqn:Ea; [|done].
    destruct (fo_ahead _ _ _ _ _ Hf i ltac:(lia) Ea Hp). }
  assert (vfs_bytes w' (lower_of ino) = vfs_bytes w (lower_of ino)) as El
    by (destruct Hd as (n & _ & _ & _ & _ & _ & Hoth); apply Hoth; congruence).
  eapply (mark_copied_ok w' rq); eauto.
  intros i Hi Hb _ [Es _]%orb_false_iff.
  rewrite (from_upper_status _ _ _ _ k COPYING) in Es by (done || lia).
  change (COPYING =? UNCOPY) with false in Es. change (COPYING =? COPYING) with true in Es.
  cbn in Es. rewrite Hq in Es. apply negb_false_iff, andb_true_iff in Es as [E1%Z.leb_le E2%Z.ltb_lt].
  rewrite El in E2. apply Hcp; lia.
Qed.
End inv.

(** ** The invariant *)

Section state.
Context {W : Type} `{VfsLaws W}.
Context (hash_min upper_of lower_of : Z → Z).
Implicit Types (s : astate W) (Vs : Z → fview) (req : block_copy_req) (ino de k : Z).

Definition request s de k : option block_copy_req :=
  List.find (is_req de k) (bucket s (hash_min k)).

Record ainv s Vs : Prop := {
  ai_inj d1 d2 ino : as_d_inode s !! d1 = Some ino → as_d_inode s !! d2 = Some ino → d1 = d2;
  ai_lowers ino1 ino2 : is_Some (as_oi s !! ino1) → is_Some (as_oi s !! ino2) →
    upper_of ino1 ≠ lower_of ino2;
  ai_uppers ino1 ino2 : is_Some (as_oi s !! ino1) → is_Some (as_oi s !! ino2) →
    ino1 ≠ ino2 → upper_of ino1 ≠ upper_of ino2;
  ai_hash h req : req ∈ bucket s h → hash_min (req_block_id req) = h;
  ai_reqs h req : req ∈ bucket s h → ∃ ino b, as_d_inode s !! req_dentry req = Some ino ∧
    as_oi s !! ino = Some b ∧ 1 ≤ req_block_id req ≤ block_count b;
  ai_files de ino : as_d_inode s !! de = Some ino → ∃ b, as_oi s !! ino = Some b ∧
    file_ok upper_of lower_of (as_w s) (request s de) ino b (Vs ino);
}.
End state.
