(* ===== verification/AsyncSteps.v ===== *)
(** The steps that copy: speed_block_copy and the kernel thread ovl_block_copy
    keep the invariant of asynchronous copies, and what they change is
    [settles]. *)

From S2P Require Import Prelude Vfs Types Util Block BlockView BlockWrite BlockWriteSpec BlockRead Kernel Action Async AsyncInv.

Section steps.
Context {W : Type} `{VfsLaws W} `{!VfsReliable W}.
Context (hash_min : Z → Z) (upper_of lower_of : Z → Z).
Implicit Types (w : W) (b : ovl_blocks) (s : astate W) (v : fview) (Vs : Z → fview)
  (req : block_copy_req) (ino de k : Z).
Local Abbreviation ainv := (ainv hash_min upper_of lower_of).
Local Abbreviation request := (request hash_min).
Local Abbreviation file_ok := (file_ok upper_of lower_of).
Local Abbreviation copy_done := (copy_done upper_of lower_of).
Local Abbreviation act := (action (astate W)).

(** ** Rules *)

Lemma awp_lift {A B} s (o : outcome A) a (f : A → act B) Q :
  o = Ret a → awp (f a) s Q → awp (lift o ≫= f) s Q.
Proof. intros ->. done. Qed.
Lemma awp_inode_of {B} s de ino (f : Z → act B) Q :
  as_d_inode s !! de = Some ino → awp (f ino) s Q → awp (dentry_ino de ≫= f) s Q.
Proof. intros E Hf. unfold dentry_ino, awp, mbind, action_bind, aget, aderef. cbn. by rewrite E. Qed.
Lemma awp_get_oi {B} s ino b (f : ovl_blocks → act B) Q :
  as_oi s !! ino = Some b → awp (f b) s Q → awp (get_oi ino ≫= f) s Q.
Proof. intros E Hf. unfold get_oi, awp, mbind, action_bind, aget, aderef. cbn. by rewrite E. Qed.
Lemma awp_get_status {B} s ino b k st (f : Z → act B) Q :
  as_oi s !! ino = Some b → zget (block_status b) k = Some st → awp (f st) s Q →
  awp (get_status ino k ≫= f) s Q.
Proof.
  intros E Hs Hf. unfold get_status. apply awp_assoc, (awp_get_oi _ _ b); [done|].
  apply (awp_lift _ _ st); [|done]. unfold array_get. by rewrite Hs.
Qed.
Lemma awp_set_status s ino b k x Q :
  as_oi s !! ino = Some b → 0 ≤ k < zlen (block_status b) →
  Q tt (set_as_oi (<[ino := mark_status k x b]> (as_oi s)) s) →
  awp (set_status ino k x) s Q.
Proof.
  intros E Hk HQ. unfold set_status. apply (awp_get_oi _ _ b); [done|].
  apply (awp_lift _ _ (<[Z.to_nat k := x]> (block_status b))).
  { unfold array_set, zset. by rewrite decide_True. }
  done.
Qed.
Lemma awp_spin_lock {B} s h (f : unit → act B) Q :
  as_locks s = ∅ → awp (f tt) (set_as_locks {[h]} s) Q → awp (spin_lock h ≫= f) s Q.
Proof.
  intros E Hf. unfold spin_lock, awp, mbind, action_bind, aget. cbn. rewrite E.
  rewrite decide_False by set_solver. unfold aset. cbn. by rewrite union_empty_r_L.
Qed.
Lemma awp_spin_unlock {B} s h (f : unit → act B) Q :
  as_locks s = {[h]} → awp (f tt) (set_as_locks ∅ s) Q → awp (spin_unlock h ≫= f) s Q.
Proof.
  intros E Hf. unfold spin_unlock, awp, mbind, action_bind, aget. cbn. rewrite E.
  rewrite decide_True by set_solver. unfold aset. cbn.
  by rewrite difference_diag_L.
Qed.

Lemma awp_spin_unlock_end s h Q :
  as_locks s = {[h]} → Q tt (set_as_locks ∅ s) → awp (spin_unlock h) s Q.
Proof.
  intros E HQ. unfold spin_unlock, awp, mbind, action_bind, aget. cbn. rewrite E.
  rewrite decide_True by set_solver. unfold aset. cbn. by rewrite difference_diag_L.
Qed.

(** ** The copy of a request *)

Lemma copy_block_wp {B} s ino b off len (f : Z → act B) Q :
  as_oi s !! ino = Some b → upper_of ino ≠ lower_of ino →
  cached (as_w s) (upper_file b) (upper_of ino) → cached (as_w s) (lower_file b) (lower_of ino) →
  0 < upper_file b → 0 < lower_file b → 0 ≤ off → 0 ≤ len < two64 →
  (∀ w', copy_done (as_w s) w' ino off len → awp (f 0) (set_as_w w' s) Q) →
  awp (copy_block ino off len ≫= f) s Q.
Proof.
  intros E Hne Hu Hl Hup Hlp Hoff Hlen HQ. unfold copy_block.
  apply awp_assoc, (awp_get_oi _ _ b); [done|].
  destruct Hu as [?|(_ & Huo & Hui)]; [unfold NULL in *; lia|].
  destruct Hl as [?|(_ & Hlo & Hli)]; [unfold NULL in *; lia|].
  assert (files_ok (as_w s) (lower_file b) (upper_file b)) as Hf by (split_and!; congruence).
  destruct (ovl_copy_up_block_reliable (as_w s) (lower_file b) (upper_file b) off len Hf)
    as (w' & Er); [by apply ptr_ok_pos..|done|done|].
  destruct (ovl_copy_up_block_spec (as_w s) (lower_file b) (upper_file b) off len Hf)
    as (r & w'' & n & E2 & Fr & (Hn & Hin & Hset) & Hle & _ & Hall); [by apply ptr_ok_pos..|done|done|].
  rewrite Er in E2. injection E2 as <- <-. unfold awp, mbind, action_bind, zoom. rewrite Er.
  apply HQ. exists n. unfold i_size in *. rewrite Hui, Hli in *. split_and!; auto; lia.
Qed.

(** ** Updating one file of the state *)

Lemma request_is_req s de k req : request s de k = Some req →
  req ∈ bucket s (hash_min k) ∧ req_dentry req = de ∧ req_block_id req = k.
Proof.
  intros E. apply List.find_some in E as [Hin Hr].
  apply andb_true_iff in Hr as [Hd%Z.eqb_eq Hk%Z.eqb_eq]. by rewrite list_elem_of_In.
Qed.

(** The other files do not see a change of the upper file and of the blocks of
    [ino], as long as their requests stay. *)
Lemma ainv_update s Vs de ino b b' v' w' s' :
  ainv s Vs → as_d_inode s !! de = Some ino → as_oi s !! ino = Some b →
  vfs_frame (as_w s) w' → (∀ i, i ≠ upper_of ino → vfs_bytes w' i = vfs_bytes (as_w s) i) →
  block_count b' = block_count b →
  as_w s' = w' → as_d_inode s' = as_d_inode s → as_oi s' = <[ino := b']> (as_oi s) →
  (∀ h req, req ∈ bucket s' h → hash_min (req_block_id req) = h) →
  (∀ h req, req ∈ bucket s' h → req_dentry req = de ∧ 1 ≤ req_block_id req ≤ block_count b ∨
     ∃ req' h', req' ∈ bucket s h' ∧ req_dentry req' = req_dentry req ∧ req_block_id req' = req_block_id req) →
  (∀ de' k, de' ≠ de → request s' de' k = request s de' k) →
  file_ok w' (request s' de) ino b' v' →
  ainv s' (put_view ino v' Vs).
Proof.
  intros [] Hde Hoi Hfr Hby Hbc Ew Ed Eo Hh Hr Hq Hok.
  assert (∀ i, is_Some (as_oi s' !! i) → is_Some (as_oi s !! i)) as Hdom.
  { intros i. rewrite Eo. destruct (decide (i = ino)) as [->|?]; [by rewrite Hoi|by rewrite lookup_insert_ne by congruence]. }
  split; rewrite ?Ed; auto.
  - intros h req Hin. destruct (Hr h req Hin) as [[-> Hk]|(req' & h' & Hin' & Er & Ek)].
    + exists ino, b'. rewrite Eo, lookup_insert_eq, Hbc. done.
    + destruct (ai_reqs h' req' Hin') as (ino2 & b2 & E1 & E2 & E3). rewrite <- Er, <- Ek.
      exists ino2. rewrite Eo. destruct (decide (ino2 = ino)) as [->|Hn].
      * exists b'. rewrite lookup_insert_eq, Hbc. rewrite Hoi in E2. injection E2 as <-. done.
      * exists b2. rewrite lookup_insert_ne by congruence. done.
  - intros de2 ino2 E2. destruct (ai_files de2 ino2 E2) as (b2 & Eb & Hf2). rewrite Eo.
    destruct (decide (ino2 = ino)) as [->|Hn].
    + exists b'. rewrite lookup_insert_eq, put_view_eq. split; [done|].
      by rewrite (ai_inj de2 de ino), Ew by done.
    + exists b2. rewrite lookup_insert_ne, put_view_ne by congruence. split; [done|].
      rewrite Ew. eapply file_ok_world; [exact Hf2|done| | |].
      * apply Hby. intros Eu. apply (ai_uppers ino2 ino); eauto.
      * apply Hby. intros Eu. apply (ai_lowers ino ino2); eauto.
      * intros k _ _. apply Hq. congruence.
Qed.

Lemma put_view_id Vs ino j : put_view ino (Vs ino) Vs j = Vs j.
Proof. unfold put_view. by case_decide; subst. Qed.

Lemma ainv_ext s Vs Vs' : (∀ j, Vs' j = Vs j) → ainv s Vs → ainv s Vs'.
Proof. intros E []. split; auto. intros de ino Hd. rewrite E. auto. Qed.

(** Locks and the fifo are not part of the invariant. *)
Lemma ainv_same s s' Vs :
  ainv s Vs → as_w s' = as_w s → as_d_inode s' = as_d_inode s → as_oi s' = as_oi s →
  as_table s' = as_table s → ainv s' Vs.
Proof.
  intros [] Ew Ed Eo Et.
  assert (∀ h, bucket s' h = bucket s h) as Eb by (intros; unfold bucket; by rewrite Et).
  assert (∀ de, request s' de = request s de) as Er by (intros; unfold AsyncInv.request, bucket; by rewrite Et).
  split; rewrite ?Ed, ?Eo, ?Ew; auto.
  - intros h req. rewrite Eb. auto.
  - intros h req. rewrite Eb. eauto.
  - intros de ino. rewrite Er. eauto.
Qed.

(** ** What a copy changes *)

Record settles s s' : Prop := {
  se_d_inode : as_d_inode s' = as_d_inode s;
  se_frame : vfs_frame (as_w s) (as_w s');
  se_blocks ino b : as_oi s !! ino = Some b → ∃ b', as_oi s' !! ino = Some b' ∧
    block_count b' = block_count b ∧ upper_file b' = upper_file b ∧ lower_file b' = lower_file b ∧
    copy_count b' = copy_count b ∧
    ∀ k, zget (block_status b') k = zget (block_status b) k ∨
         (zget (block_status b) k = Some COPYING ∧ zget (block_status b') k = Some COPIED);
  se_lower de ino : as_d_inode s !! de = Some ino → is_Some (as_oi s !! ino) →
    vfs_bytes (as_w s') (lower_of ino) = vfs_bytes (as_w s) (lower_of ino);
  se_requests de ino b' k : as_d_inode s !! de = Some ino → is_Some (as_oi s !! ino) →
    as_oi s' !! ino = Some b' → 1 ≤ k ≤ block_count b' → zget (block_status b') k ≠ Some COPIED → request s' de k = request s de k;
}.

Lemma settles_refl s : settles s s.
Proof. split; eauto with ovl. intros ino b Hb. exists b. split_and!; auto. Qed.

Lemma settles_locks s l s' l' : settles (set_as_locks l s) s' → settles s (set_as_locks l' s').
Proof. intros []. by split. Qed.

Lemma settles_trans s1 s2 s3 : settles s1 s2 → settles s2 s3 → settles s1 s3.
Proof using Type.
  clear upper_of. intros [d1 f1 b1 l1 r1] [d2 f2 b2 l2 r2]. split.
  - congruence.
  - eauto with ovl.
  - intros ino b Hb. destruct (b1 ino b Hb) as (b' & Hb' & ? & ? & ? & ? & Hk).
    destruct (b2 ino b' Hb') as (b'' & Hb'' & ? & ? & ? & ? & Hk').
    exists b''. split_and!; try congruence. intros k.
    destruct (Hk k) as [E|[E E']], (Hk' k) as [F|[F F']]; try (left; congruence); right; split; congruence.
  - intros de ino Hde [b Hb]. destruct (b1 ino b Hb) as (b' & Hb' & _).
    rewrite (l2 de ino), (l1 de ino); eauto. by rewrite d1.
  - intros de ino b'' k Hde [b Hb] Hb'' Hk Hst. destruct (b1 ino b Hb) as (b' & Hb' & _).
    destruct (b2 ino b' Hb') as (b3 & Hb3 & Ec & _ & _ & _ & Hs). rewrite Hb'' in Hb3. injection Hb3 as <-.
    rewrite (r2 de ino b'' k) by (rewrite ?d1; eauto).
    apply (r1 de ino b'); eauto; [lia|]. destruct (Hs k) as [E|[E E']]; congruence.
Qed.

(** One request of a block that waits: copied, marked, and kept or removed. *)
Lemma copied_step s Vs de ino b k req w' s' :
  ainv s Vs → as_d_inode s !! de = Some ino → as_oi s !! ino = Some b →
  1 ≤ k ≤ block_count b → zget (block_status b) k = Some COPYING → request s de k = Some req →
  copy_done (as_w s) w' ino (req_offset req) (req_len req) →
  as_w s' = w' → as_d_inode s' = as_d_inode s →
  as_oi s' = <[ino := mark_status k COPIED b]> (as_oi s) →
  (∀ h r, r ∈ bucket s' h → r ∈ bucket s h) →
  (∀ de' j, (de', j) ≠ (de, k) → request s' de' j = request s de' j) →
  ainv s' Vs ∧ settles s s'.
Proof.
  intros Hinv Hde Hoi Hk Hs Hq Hd Ew Ed Eo Hb Hr.
  destruct (ai_files _ _ _ _ _ Hinv de ino Hde) as (b0 & Eb & Hf). rewrite Hoi in Eb. injection Eb as <-.
  assert (upper_of ino ≠ lower_of ino) as Hne by (apply (ai_lowers _ _ _ _ _ Hinv); eauto).
  pose proof Hd as (n & Hfr & _ & _ & _ & Hset & Hoth).
  assert (file_ok w' (request s' de) ino (mark_status k COPIED b) (Vs ino)) as Hf'.
  { eapply (request_copied _ _ (as_w s) w' (request s de)); eauto. intros j Hj. apply Hr. congruence. }
  split.
  - apply (ainv_ext s' (put_view ino (Vs ino) Vs)); [intros j; by rewrite put_view_id|].
    eapply (ainv_update s Vs de ino b (mark_status k COPIED b) (Vs ino) w' s'); eauto.
    + intros h r Hin. apply (ai_hash _ _ _ _ _ Hinv h r). auto.
    + intros h r Hin. right. exists r, h. auto.
    + intros de' j Hn. apply Hr. congruence.
  - split.
    + done.
    + by rewrite Ew.
    + intros i bi Hbi. rewrite Eo. destruct (decide (i = ino)) as [->|Hn].
      * rewrite Hoi in Hbi. injection Hbi as <-. exists (mark_status k COPIED b).
        rewrite lookup_insert_eq. split_and!; try done. intros j. unfold mark_status.
        rewrite zget_status_insert by (rewrite (fo_array _ _ _ _ _ _ _ Hf); lia).
        case_decide as E; [right; subst; done|by left].
      * exists bi. rewrite lookup_insert_ne by congruence. split_and!; auto.
    + intros de2 ino2 Hde2 Hs2. rewrite Ew. apply Hoth. intros E.
      apply (ai_lowers _ _ _ _ _ Hinv ino ino2); eauto.
    + intros de2 ino2 b2 j Hde2 Hs2 Hb2 Hj Hst. apply Hr. intros [= -> ->].
      assert (ino2 = ino) as -> by congruence. rewrite Eo, lookup_insert_eq in Hb2. injection Hb2 as <-.
      apply Hst. unfold mark_status. rewrite zget_status_insert by (rewrite (fo_array _ _ _ _ _ _ _ Hf); lia).
      by rewrite decide_True.
Qed.

(** Taking away the first request of a bucket whose block is copied. *)
Lemma request_set_bucket s h l de k :
  request (set_bucket h l s) de k =
  if decide (hash_min k = h) then List.find (is_req de k) l else request s de k.
Proof.
  unfold AsyncInv.request, bucket, set_bucket; cbn. case_decide as E.
  - by rewrite E, lookup_insert_eq.
  - by rewrite lookup_insert_ne by congruence.
Qed.

Lemma bucket_set_bucket s h l h' :
  bucket (set_bucket h l s) h' = if decide (h' = h) then l else bucket s h'.
Proof.
  unfold bucket, set_bucket; cbn. case_decide as E.
  - by rewrite E, lookup_insert_eq.
  - by rewrite lookup_insert_ne by congruence.
Qed.

Lemma is_req_spec de k req : is_req de k req = true ↔ req_dentry req = de ∧ req_block_id req = k.
Proof. unfold is_req. by rewrite andb_true_iff, !Z.eqb_eq. Qed.

Lemma head_request s Vs h req l :
  ainv s Vs → bucket s h = req :: l → request s (req_dentry req) (req_block_id req) = Some req.
Proof.
  intros Hinv Hb. unfold AsyncInv.request. rewrite (ai_hash _ _ _ _ _ Hinv h req) by (rewrite Hb; left).
  rewrite Hb. cbn [List.find]. by rewrite (proj2 (is_req_spec _ _ req)).
Qed.

Lemma remove_step s Vs h req l ino b :
  ainv s Vs → bucket s h = req :: l → as_d_inode s !! req_dentry req = Some ino →
  as_oi s !! ino = Some b → zget (block_status b) (req_block_id req) = Some COPIED →
  ainv (set_bucket h l s) Vs ∧ settles s (set_bucket h l s).
Proof.
  intros Hinv Hb Hde Hoi Hs.
  assert (∀ de k, (de, k) ≠ (req_dentry req, req_block_id req) →
    request (set_bucket h l s) de k = request s de k) as Hr.
  { intros de k Hn. rewrite request_set_bucket. case_decide as E; [|done].
    unfold AsyncInv.request. rewrite E, Hb. cbn [List.find].
    destruct (is_req de k req) eqn:Er; [|done]. apply is_req_spec in Er as [E1 E2]. congruence. }
  assert (∀ h' r, r ∈ bucket (set_bucket h l s) h' → r ∈ bucket s h') as Hin.
  { intros h' r. rewrite bucket_set_bucket. case_decide as E; [|done]. subst. rewrite Hb. by right. }
  split.
  - destruct Hinv. split; cbn; auto.
    + intros h' r Hr'. eauto.
    + intros de2 ino2 E2. destruct (ai_files de2 ino2 E2) as (b2 & Eb2 & Hf2).
      exists b2. split; [done|]. eapply file_ok_world; eauto with ovl.
      intros k Hk Hst. apply Hr. intros [= -> ->]. congruence.
  - split; cbn; eauto with ovl.
    + intros i bi Hbi. exists bi. split_and!; auto.
    + intros de2 ino2 b2 k Hde2 _ Hb2 Hk Hst. apply Hr. intros [= -> ->]. congruence.
Qed.

(** ** The kernel thread *)

(** What the copy of requests leaves as it was. *)
Record same_queues s s' : Prop := {
  sq_locks : as_locks s' = as_locks s;
  sq_fifo : as_fifo s' = as_fifo s;
  sq_buf : as_buf s' = as_buf s;
}.
Lemma same_queues_refl s : same_queues s s.
Proof. by split. Qed.
Lemma same_queues_trans s1 s2 s3 : same_queues s1 s2 → same_queues s2 s3 → same_queues s1 s3.
Proof. intros [] []. split; congruence. Qed.

Lemma copied_of_waiting s Vs de ino b k :
  ainv s Vs → as_d_inode s !! de = Some ino → as_oi s !! ino = Some b →
  file_ok (as_w s) (request s de) ino b (Vs ino).
Proof.
  intros Hinv Hde Hoi. destruct (ai_files _ _ _ _ _ Hinv de ino Hde) as (b0 & Eb & Hf).
  rewrite Hoi in Eb. by injection Eb as <-.
Qed.

(** Copying the request of a block that waits, and marking it. *)
Lemma copy_and_mark {B} s Vs de ino b k req (f : Z → act B) Q :
  ainv s Vs → as_d_inode s !! de = Some ino → as_oi s !! ino = Some b →
  1 ≤ k ≤ block_count b → zget (block_status b) k = Some COPYING → request s de k = Some req →
  (∀ w', copy_done (as_w s) w' ino (req_offset req) (req_len req) →
     let s' := set_as_oi (<[ino := mark_status k COPIED b]> (as_oi s)) (set_as_w w' s) in
     ainv s' Vs → settles s s' → awp (f 0) (set_as_w w' s) Q) →
  awp (copy_block ino (req_offset req) (req_len req) ≫= f) s Q.
Proof.
  intros Hinv Hde Hoi Hk Hs Hq Hf. pose proof (copied_of_waiting _ _ _ _ _ k Hinv Hde Hoi) as Hok.
  destruct (fo_copying _ _ _ _ _ _ _ Hok k Hk Hs) as (req' & Hq' & [Ha Hl He Hu Hlo]).
  assert (req' = req) as -> by congruence.
  pose proof (fo_bounds _ _ _ _ _ _ _ Hok) as [_ Hb]. pose proof (fo_size _ _ _ _ _ _ _ Hok) as Hsz.
  unfold block_start, max_file, BLOCK_SIZE in *.
  eapply copy_block_wp; eauto.
  - apply (ai_lowers _ _ _ _ _ Hinv); eauto.
  - apply Hok.
  - apply Hok.
  - lia.
  - unfold two64. lia.
  - intros w' Hd. destruct (copied_step s Vs de ino b k req w'
      (set_as_oi (<[ino := mark_status k COPIED b]> (as_oi s)) (set_as_w w' s))) as [Hi Hse]; auto.
Qed.

Lemma copy_request_wp s Vs h req l :
  ainv s Vs → bucket s h = req :: l →
  awp (copy_request req) s (λ _ s',
    ainv (set_bucket h l s') Vs ∧ settles s (set_bucket h l s') ∧ same_queues s s' ∧
    as_table s' = as_table s).
Proof.
  intros Hinv Hb. assert (req ∈ bucket s h) as Hin by (rewrite Hb; left).
  destruct (ai_reqs _ _ _ _ _ Hinv h req Hin) as (ino & b & Hde & Hoi & Hk).
  pose proof (copied_of_waiting _ _ _ _ _ 0 Hinv Hde Hoi) as Hok.
  pose proof (head_request _ _ _ _ _ Hinv Hb) as Hq.
  destruct (fo_lookup _ _ _ _ _ _ _ _ Hok Hk) as (st & Hst & Hcase).
  unfold copy_request. eapply awp_inode_of; [done|]. eapply awp_get_status; [done..|].
  destruct Hcase as [->|[->| ->]].
  - rewrite (fo_uncopied _ _ _ _ _ _ _ Hok _ Hk Hst) in Hq. done.
  - cbn. destruct (remove_step _ _ _ _ _ _ _ Hinv Hb Hde Hoi Hst). split_and!; [done..|by split|done].
  - destruct (fo_copying _ _ _ _ _ _ _ Hok _ Hk Hst) as (req' & Hq' & Hro). assert (req' = req) as -> by congruence.
    pose proof (ro_len _ _ _ Hro). rewrite (proj2 (Z.eqb_neq (req_len req) 0)) by lia.
    change (COPYING =? COPYING) with true. cbn [negb orb].
    eapply copy_and_mark; eauto. intros w' Hd s1 Hi1 Hs1.
    assert (bucket s1 h = req :: l) as Hb1 by done.
    assert (0 ≤ req_block_id req < zlen (block_status b)) as Hrange
      by (rewrite (fo_array _ _ _ _ _ _ _ Hok); lia).
    eapply awp_set_status; [exact Hoi|done|]. fold s1.
    destruct (remove_step s1 Vs h req l ino (mark_status (req_block_id req) COPIED b)) as [Hi2 Hs2]; auto.
    + subst s1; cbn. by rewrite lookup_insert_eq.
    + unfold mark_status. by rewrite zget_status_insert, decide_True.
    + split_and!; [done|by eapply settles_trans|by split|done].
Qed.

Lemma copy_requests_wp h l : ∀ s Vs, ainv s Vs → bucket s h = l →
  awp (copy_requests h l) s (λ _ s',
    ainv s' Vs ∧ settles s s' ∧ same_queues s s' ∧ bucket s' h = [] ∧
    ∀ h', h' ≠ h → bucket s' h' = bucket s h').
Proof.
  induction l as [|req l IH]; intros s Vs Hinv Hb; cbn [copy_requests].
  { split_and!; auto using settles_refl, same_queues_refl. }
  eapply awp_seq; [by eapply copy_request_wp|]. intros [] s1 (Hi1 & Hs1 & Hq1 & Et1). cbn beta.
  apply awp_set. eapply awp_mono; [apply IH; [exact Hi1|]|].
  { by rewrite bucket_set_bucket, decide_True. }
  intros [] s2 (Hi2 & Hs2 & Hq2 & Hb2 & Ho2). split_and!; auto.
  - by eapply settles_trans.
  - eapply same_queues_trans; [exact Hq1|]. destruct Hq2. by split.
  - intros h' Hn. rewrite Ho2, bucket_set_bucket, decide_False by done. unfold bucket. by rewrite Et1.
Qed.

(** The thread at one block number: afterwards the bucket is empty, and no block
    of the number waits any more. *)
Lemma copy_bucket_wp s Vs id :
  ainv s Vs → as_locks s = ∅ →
  awp (copy_bucket hash_min id) s (λ _ s',
    ainv s' Vs ∧ settles s s' ∧ same_queues s s' ∧ bucket s' (hash_min id) = [] ∧
    ∀ h', h' ≠ hash_min id → bucket s' h' = bucket s h').
Proof.
  intros Hinv Hl. unfold copy_bucket. apply awp_spin_lock; [done|]. apply awp_get.
  set (s1 := set_as_locks _ s).
  assert (ainv s1 Vs) as Hi1 by (by eapply ainv_same).
  eapply awp_seq; [by apply copy_requests_wp|]. intros [] s2 (Hi2 & Hs2 & [Hq1 Hq2 Hq3] & Hb2 & Ho2). cbn beta.
  apply awp_spin_unlock_end; [done|]. split_and!; auto.
  - by eapply ainv_same.
  - by apply (settles_locks s {[hash_min id]} s2 ∅).
  - by split.
Qed.

(** After the entries [i], ..., [i + n - 1] of block_buf, or as many as the
    answers [stop] let the thread take. *)
Record round_post (n : nat) (i : Z) (stop : list bool) s Vs (stop' : list bool) s' : Prop := {
  rp_inv : ainv s' Vs;
  rp_settles : settles s s';
  rp_locks : as_locks s' = ∅;
  rp_fifo : as_fifo s' = as_fifo s;
  rp_stop : (length stop' ≤ length stop)%nat;
  rp_empty h : bucket s h = [] → bucket s' h = [];
  rp_done j : (j < n)%nat → Forall (eq false) (take j stop) → (j ≤ length stop)%nat →
    bucket s' (hash_min (default 0 (zget (as_buf s) (i + Z.of_nat j)))) = [];
}.

Lemma copy_round_wp n : ∀ i stop s Vs,
  ainv s Vs → as_locks s = ∅ → awp (copy_round hash_min n i stop) s (round_post n i stop s Vs).
Proof.
  induction n as [|n IH]; intros i stop s Vs Hinv Hl; cbn [copy_round].
  { split; auto using settles_refl. lia. }
  apply awp_get. eapply awp_seq; [by apply copy_bucket_wp|].
  intros [] s1 (Hi1 & Hs1 & [Hl1 Hf1 Hb1] & He1 & Ho1). cbn beta.
  set (id := default 0 (zget (as_buf s) i)) in *.
  assert (∀ h, bucket s h = [] → bucket s1 h = []) as Hmono.
  { intros h E. destruct (decide (h = hash_min id)) as [->|Hn]; [done|by rewrite Ho1]. }
  assert (id = default 0 (zget (as_buf s) (i + Z.of_nat 0))) as Eid by (by rewrite Z.add_0_r).
  assert ((∀ t, stop ≠ false :: t) → round_post (S n) i stop s Vs [] s1) as Hend.
  { intros Hno. split; auto; [congruence|cbn; lia|].
    intros [|j] Hj Hall Hlen; [by rewrite <- Eid|].
    destruct stop as [|x t]; [cbn in Hlen; lia|]. apply Forall_inv in Hall. subst x. by destruct (Hno t). }
  destruct stop as [|[] stop]; [by apply Hend|by apply Hend|].
  eapply awp_mono; [apply IH; [done|congruence]|].
  intros stop' s2 [Hi2 Hs2 Hl2 Hf2 Hlen He2 Hj2]. split; auto.
  - by eapply settles_trans.
  - congruence.
  - cbn. lia.
  - intros [|j] Hj Hall Hle; [rewrite <- Eid; by apply He2|].
    inversion_clear Hall. specialize (Hj2 j). rewrite Hb1 in Hj2.
    replace (i + Z.of_nat (S j)) with (i + 1 + Z.of_nat j) by lia. apply Hj2; [lia|done|cbn in Hle; lia].
Qed.

(** The whole life of the thread: it ends when it is told to, it keeps what all
    files show, and what was in the fifo when it started is copied unless it is
    stopped before. *)
Lemma ovl_block_copy_wp rounds : ∀ stop s Vs,
  ainv s Vs → as_locks s = ∅ → (length stop ≤ rounds)%nat →
  awp (ovl_block_copy hash_min rounds stop) s (λ _ s',
    ainv s' Vs ∧ settles s s' ∧ as_locks s' = ∅ ∧ (∀ h, bucket s h = [] → bucket s' h = []) ∧
    ((length (as_fifo s) < length stop)%nat → Forall (eq false) (take (S (length (as_fifo s))) stop) →
       ∀ id, id ∈ as_fifo s → bucket s' (hash_min id) = [])).
Proof.
  induction rounds as [|rounds IH]; intros stop s Vs Hinv Hl Hr.
  { destruct stop; [|cbn in Hr; lia]. cbn. split_and!; auto using settles_refl. cbn; lia. }
  destruct stop as [|[] stop]; [| |cbn [ovl_block_copy]].
  { cbn. split_and!; auto using settles_refl. cbn; lia. }
  { cbn. split_and!; auto using settles_refl. intros _ Hall. inversion_clear Hall. done. }
  unfold kfifo_out. apply awp_assoc, awp_get, awp_assoc, awp_set, awp_mret.
  set (ids := as_fifo s). set (s1 := set_as_fifo _ _).
  assert (ainv s1 Vs) as Hi1 by (by eapply ainv_same).
  assert (settles s s1) as Hs1 by (destruct (settles_refl s); by split).
  eapply awp_seq; [by apply copy_round_wp|]. intros stop' s2 [Hi2 Hs2 Hl2 Hf2 Hlen He2 Hj2]. cbn beta.
  assert ((length ids < S (length stop))%nat → Forall (eq false) (take (S (length ids)) (false :: stop)) →
    ∀ id, id ∈ ids → bucket s2 (hash_min id) = []) as Hdone.
  { intros Hle Hall id Hin. apply list_elem_of_lookup in Hin as [j Hj].
    pose proof (lookup_lt_Some _ _ _ Hj) as Hjl. specialize (Hj2 j).
    assert (zget (as_buf s1) (0 + Z.of_nat j) = Some id) as Eb.
    { subst s1; cbn -[zget]. unfold zget. rewrite decide_True, Z.add_0_l, Nat2Z.id by lia.
      by rewrite lookup_app_l by done. }
    rewrite Eb in Hj2. apply Hj2; [unfold SIZEOF_SIZE_T, zlen; lia| |lia].
    apply Forall_inv_tail in Hall.
    assert (take j stop = take j (take (length ids) stop)) as -> by (rewrite take_take; f_equal; lia).
    by apply Forall_take. }
  assert (∀ Q : unit → astate W → Prop, Q tt s2 → awp (mret tt : act unit) s2 Q) as Hret by done.
  destruct stop' as [|[] stop'].
  - apply Hret. split_and!; auto. by eapply settles_trans.
  - apply Hret. split_and!; auto. by eapply settles_trans.
  - eapply awp_mono; [apply (IH stop' s2 Vs); auto; cbn in *; lia|].
    intros [] s3 (Hi3 & Hs3 & Hl3 & He3 & _). split_and!; auto.
    by eapply settles_trans, settles_trans.
Qed.

(** ** Other threads *)

(** Threads that may run between two steps of a request: they keep what all
    files show, and change of their blocks only that they are copied. *)
Class Bystanders (others : Z → act unit) : Prop :=
  bystanders p s Vs : ainv s Vs → as_locks s = ∅ →
    awp (others p) s (λ _ s', ainv s' Vs ∧ settles s s' ∧ as_locks s' = ∅).

#[export] Instance copy_thread_bystanders sched : Bystanders (copy_thread hash_min sched).
Proof.
  intros p. unfold copy_thread. induction (sched p) as [|id ids IH]; intros s Vs Hinv Hl; cbn [copy_buckets].
  { split_and!; auto using settles_refl. }
  eapply awp_seq; [by apply copy_bucket_wp|]. intros [] s1 (Hi1 & Hs1 & [Hl1 _ _] & _). cbn beta.
  eapply awp_mono; [apply IH; [done|congruence]|]. intros [] s2 (Hi2 & Hs2 & Hl2).
  split_and!; auto. by eapply settles_trans.
Qed.
End steps.
