(* ===== verification/AsyncRead.v ===== *)
(** async_block_read_iter under the invariant: whatever other threads do
    between its steps, it returns the bytes the file shows. *)

From S2P Require Import Prelude Vfs Types Util Block BlockView BlockWrite BlockWriteSpec BlockRead Kernel Action Async AsyncInv AsyncSteps.

Section read.
Context {W : Type} `{VfsLaws W} `{!VfsReliable W}.
Context (hash_min : Z → Z) (upper_of lower_of : Z → Z).
Implicit Types (w : W) (b : ovl_blocks) (s : astate W) (v : fview) (Vs : Z → fview)
  (req : block_copy_req) (ino de k : Z) (r : read_st) (F : list byte).
Local Abbreviation ainv := (ainv hash_min upper_of lower_of).
Local Abbreviation request := (request hash_min).
Local Abbreviation file_ok := (file_ok upper_of lower_of).
Local Abbreviation settles := (settles hash_min lower_of).
Local Abbreviation act := (action (astate W)).

(** ** Opening *)

Lemma file_ok_opened w rq ino b b' v :
  file_ok w rq ino b v → same_blocks b b' →
  cached w (upper_file b') (upper_of ino) → cached w (lower_file b') (lower_of ino) →
  0 < upper_file b' → 0 < lower_file b' → file_ok w rq ino b' v.
Proof.
  intros [] [E1 E2 E3 E4] Hu Hl Hup Hlp.
  assert (∀ lsize i, async_from_upper lsize b' rq i = async_from_upper lsize b rq i) as Hs
    by (intros; apply async_from_upper_ext; rewrite ?E1, ?E2; done).
  split; rewrite ?E1, ?E2; auto.
  - intros k Hk Hst. destruct (fo_copying k Hk Hst) as (req & Hq & []). exists req. split; [done|by split].
  - intros i Hi. unfold file_src. rewrite Hs. by apply fo_view.
  - intros i Hi. unfold file_src. rewrite Hs. by apply fo_unwritten.
  - intros i Hi Ha. unfold pending. rewrite E1, E2. by apply fo_ahead.
Qed.

(** The state of a request on an inode whose two files are open. *)
Definition opened s ino : Prop :=
  ∃ b, as_oi s !! ino = Some b ∧ 0 < upper_file b ∧ 0 < lower_file b.

Lemma opened_settles s s' ino : settles s s' → opened s ino → opened s' ino.
Proof.
  intros [] (b & Hb & Hu & Hl). destruct (se_blocks ino b Hb) as (b' & Hb' & _ & E1 & E2 & _).
  exists b'. rewrite E1, E2. done.
Qed.

Definition paths_ok (upper_path lower_path : path) ino s : Prop :=
  vfs_dinode (as_w s) (path_ptr upper_path) = upper_of ino ∧
  vfs_dinode (as_w s) (path_ptr lower_path) = lower_of ino.

(** What opening leaves as it was. *)
Record opens s s' de ino : Prop := {
  op_d_inode : as_d_inode s' = as_d_inode s;
  op_blocks b : as_oi s !! ino = Some b → ∃ b', as_oi s' !! ino = Some b' ∧ same_blocks b b';
  op_table : as_table s' = as_table s;
  op_locks : as_locks s' = as_locks s;
  op_fifo : as_fifo s' = as_fifo s;
  op_frame : vfs_frame (as_w s) (as_w s');
  op_bytes : same_bytes (as_w s) (as_w s');
}.

Lemma with_blocks_wp s Vs de ino up lp :
  ainv s Vs → as_d_inode s !! de = Some ino → paths_ok up lp ino s →
  awp (with_blocks ino (open_both up lp)) s (λ e s',
    e = 0 ∧ ainv s' Vs ∧ opened s' ino ∧ opens s s' de ino).
Proof.
  intros Hinv Hde [Hpu Hpl]. destruct (ai_files _ _ _ _ _ Hinv de ino Hde) as (b & Hoi & Hok).
  assert (upper_of ino ≠ lower_of ino) as Hne by (apply (ai_lowers _ _ _ _ _ Hinv); eauto).
  unfold with_blocks. eapply awp_get_oi; [done|].
  assert (io_ok up lp (upper_of ino) (lower_of ino) (BState (as_w s) b [])) as Hio
    by (destruct Hok; by split).
  pose proof (open_both_reliable up lp _ _ _ Hio) as Hr0.
  destruct (open_both_spec up lp _ _ _ Hio) as (e & s2 & Eo & Fr & By & Sb & _ & _ & Hop).
  rewrite Eo in Hr0. cbn in Hr0. subst e. destruct (Hop eq_refl) as (Hio2 & Hup & Hlp).
  unfold awp, mbind, action_bind, zoom. rewrite Eo. unfold put_oi, aset. cbn.
  split; [done|]. split_and!.
  - apply (ainv_ext _ _ _ _ (put_view ino (Vs ino) Vs)); [intros j; by rewrite put_view_id|].
    eapply (ainv_update _ _ _ s Vs de ino b (bs_b s2) (Vs ino) (bs_w s2)); eauto.
    + by destruct Sb.
    + apply (ai_hash _ _ _ _ _ Hinv).
    + intros h req Hin. right. by exists req, h.
    + apply (file_ok_opened _ _ _ b); auto; [|by destruct Hio2..].
      eapply file_ok_world; eauto using same_reqs_refl.
  - exists (bs_b s2). cbn. by rewrite lookup_insert_eq.
  - split; cbn; auto. intros b2 Hb2. exists (bs_b s2). cbn. rewrite lookup_insert_eq.
    rewrite Hoi in Hb2. by injection Hb2 as <-.
Qed.

(** ** Bytes of a settled file *)

Lemma settled_upper w rq ino b F k i :
  file_ok w rq ino b (settled F) → 0 ≤ i → i / BLOCK_SIZE + 1 = k →
  block_count b < k ∨ zget (block_status b) k = Some COPIED →
  zget (vfs_bytes w (upper_of ino)) i = zget F i.
Proof.
  intros Hf Hi Hk Hc. pose proof (fo_view _ _ _ _ _ _ _ Hf i Hi eq_refl) as Hv. change (fv_data (settled F)) with F in Hv. rewrite <- Hv. unfold file_src. cbn.
  destruct (decide (block_count b < k)) as [Ht|Ht].
  - by rewrite from_upper_tail by lia.
  - destruct Hc as [Hc|Hc]; [lia|]. by rewrite (from_upper_status _ _ _ _ k COPIED) by (done || lia).
Qed.

Lemma settled_lower w rq ino b F k i :
  file_ok w rq ino b (settled F) → 0 ≤ i → i / BLOCK_SIZE + 1 = k → k ≤ block_count b →
  zget (block_status b) k = Some UNCOPY →
  zget (vfs_bytes w (lower_of ino)) i = zget F i.
Proof.
  intros Hf Hi Hk Hb Hc. pose proof (fo_view _ _ _ _ _ _ _ Hf i Hi eq_refl) as Hv. change (fv_data (settled F)) with F in Hv. rewrite <- Hv. unfold file_src. cbn.
  by rewrite (from_upper_status _ _ _ _ k UNCOPY) by (done || lia).
Qed.

(** ** Reads of a real file *)

(** A world in which only reads happened. *)
Lemma ainv_read s Vs w' :
  ainv s Vs → vfs_frame (as_w s) w' → same_bytes (as_w s) w' →
  ainv (set_as_w w' s) Vs ∧ settles s (set_as_w w' s).
Proof.
  intros Hinv Hfr Hsb. split.
  - destruct Hinv. split; cbn; auto. intros de ino Hde.
    destruct (ai_files de ino Hde) as (b & Hb & Hok). exists b. split; [done|].
    eapply file_ok_world; eauto using same_reqs_refl.
  - split; cbn; eauto. intros ino b Hb. exists b. split_and!; auto.
Qed.

Lemma awp_read_world {A B} s (g : W → outcome (A * W)) a w' (f : A → act B) Q :
  g (as_w s) = Ret (a, w') → awp (f a) (set_as_w w' s) Q → awp (read_world g ≫= f) s Q.
Proof. intros E Hf. unfold read_world, awp, mbind, action_bind, zoom. by rewrite E. Qed.

(** The read of a copied block, when the whole chunk is there. *)
Lemma async_read_chunk_spec fuel : ∀ w f c le r,
  ptr_ok f = true → vfs_isopen w f = true → 0 ≤ rd_pos r → 0 ≤ c → (Z.to_nat c ≤ fuel)%nat →
  rd_pos r + c ≤ i_size w f →
  ∃ w', async_read_chunk fuel w f c le r =
          Ret (ReadAll, read_adv c (zslice (vfs_bytes w (vfs_inode w f)) (rd_pos r) c) r, w') ∧
        vfs_frame w w' ∧ same_bytes w w'.
Proof.
  induction fuel as [|fuel IH]; intros w f c le r Hp Ho Hpos Hc Hfuel Hsz; cbn [async_read_chunk];
    (destruct (Z.leb_spec c 0) as [Hc0|Hc0];
     [assert (c = 0) as -> by lia; rewrite zslice_0, read_adv_0; exists w; eauto with ovl|]); [lia|].
  unfold read_file. rewrite Hp. cbn [mbind outcome_bind].
  assert (rd_pos r < i_size w f) as Hlt by lia.
  pose proof (rel_read w f (rd_pos r) c Hpos Hc0 Hlt) as Hgt.
  destruct (vfs_iter_read w f (rd_pos r) c) as [[cnt d] w1] eqn:E. cbn in Hgt.
  apply law_read in E as (Fr & Sb & Hle & Hd & _); [|lia..]. destruct (Hd ltac:(lia)) as [-> Hlen].
  destruct (Z.ltb_spec cnt 0); [lia|]. destruct (Z.eqb_spec cnt 0); [lia|]. cbn [andb].
  pose proof Fr as [fo fi _ _].
  assert (i_size w1 f = i_size w f) as Esz by (unfold i_size; by rewrite fi, Sb).
  destruct (IH w1 f (c - cnt) le (read_adv cnt (zslice (vfs_bytes w (vfs_inode w f)) (rd_pos r) cnt) r))
    as (w' & -> & Fr' & Sb'); cbn [rd_pos read_adv]; auto; try lia.
  exists w'. split; [|eauto with ovl]. rewrite fi, Sb by done.
  rewrite read_adv_adv by (unfold i_size in *; lia). by replace (cnt + (c - cnt)) with c by lia.
Qed.

(** ** The loop *)

Context (others : Z → act unit) `{!Bystanders hash_min upper_of lower_of others}.
Context (Vs : Z → fview) (de ino : Z) (F : list byte).
Context (HF : Vs ino = settled F).

(** A request that has begun: the invariant, both files open, no lock held. *)
Record underway s : Prop := {
  uw_inv : ainv s Vs;
  uw_locks : as_locks s = ∅;
  uw_inode : as_d_inode s !! de = Some ino;
  uw_opened : opened s ino;
}.

Lemma underway_file s : underway s →
  ∃ b, as_oi s !! ino = Some b ∧ file_ok (as_w s) (request s de) ino b (settled F) ∧
       0 < upper_file b ∧ 0 < lower_file b.
Proof.
  intros [Hinv _ Hde (b & Hb & Hu & Hl)]. destruct (ai_files _ _ _ _ _ Hinv de ino Hde) as (b' & Hb' & Hok).
  rewrite HF in Hok. rewrite Hb in Hb'. injection Hb' as <-. by exists b.
Qed.

Lemma underway_settles s s' : underway s → ainv s' Vs → settles s s' → as_locks s' = ∅ → underway s'.
Proof.
  intros [Hinv Hl Hde Ho] Hi' Hs Hl'. split; auto; [|by eapply opened_settles].
  by rewrite (se_d_inode _ _ _ _ Hs).
Qed.

Lemma others_wp {B} s p (f : unit → act B) Q :
  underway s → (∀ s', underway s' → settles s s' → awp (f tt) s' Q) → awp (others p ≫= f) s Q.
Proof.
  intros Hu Hf. pose proof Hu as [Hi Hl _ _]. eapply awp_seq; [by apply Bystanders0|].
  intros [] s' (Hi' & Hs' & Hl'). cbn beta. apply Hf; [by eapply underway_settles|done].
Qed.

(** The answer of a read: [n] bytes of the file. *)
Record read_post s r (res : Z * read_st) s' : Prop := {
  rp_under : underway s';
  rp_set : settles s s';
  rp_res : ∃ n, res = (rd_ret r + n, read_adv n (zslice F (rd_pos r) n) r) ∧
    0 ≤ n ≤ rd_count r ∧ n ≤ Z.max 0 (zlen F - rd_pos r) ∧
    (n = 0 → rd_count r = 0 ∨ zlen F ≤ rd_pos r) ∧
    (∀ b, as_oi s !! ino = Some b → rd_pos r + rd_count r ≤ block_count b * BLOCK_SIZE →
       n = Z.min (rd_count r) (Z.max 0 (zlen F - rd_pos r)));
}.

Lemma read_post_0 s r : underway s → rd_count r = 0 → 0 ≤ rd_pos r → read_post s r (rd_ret r, r) s.
Proof.
  intros Hu Hc Hp. split; auto using settles_refl. exists 0. rewrite zslice_0, read_adv_0, Z.add_0_r.
  split_and!; auto; lia.
Qed.

Lemma async_read_step s s1 r n res s' :
  settles s s1 → underway s1 → 0 ≤ rd_pos r → 0 ≤ n ≤ rd_count r → n ≤ Z.max 0 (zlen F - rd_pos r) →
  read_post s1 (read_adv n (zslice F (rd_pos r) n) r) res s' → read_post s r res s'.
Proof.
  intros Hs Hu Hp Hn HnF [Hu' Hs' (m & -> & Hm & HmF & Hm0 & Hfull)]. cbn [read_adv rd_ret rd_count rd_pos] in *.
  split; [done|by eapply settles_trans|]. exists (n + m). split_and!; try lia.
  - f_equal; [lia|]. destruct (decide (n = 0)) as [->|Hn0]; [|by rewrite read_adv_adv by lia].
    rewrite zslice_0, read_adv_0. by rewrite Z.add_0_r, Z.add_0_l.
  - intros b Hb Hin. destruct (se_blocks _ _ _ _ Hs ino b Hb) as (b1 & Hb1 & Ec & _).
    rewrite (Hfull b1) by (rewrite ?Ec; done || lia). lia.
Qed.

(** The requests that come to an end: they stay in the file, or nothing of the
    last block is copied. *)
Definition readable_now s r : Prop :=
  rd_pos r + rd_count r ≤ zlen F ∨
  ∃ b, as_oi s !! ino = Some b ∧ zget (block_status b) (block_count b) = Some UNCOPY.

Lemma readable_settles s s' r n d :
  settles s s' → readable_now s r → 0 ≤ n ≤ rd_count r → readable_now s' (read_adv n d r).
Proof.
  intros Hs [Hr|(b & Hb & Hst)] Hn; [left; cbn; lia|right].
  destruct (se_blocks _ _ _ _ Hs ino b Hb) as (b' & Hb' & Ec & _ & _ & _ & Hk). exists b'. split; [done|].
  rewrite Ec. destruct (Hk (block_count b)) as [->|[E _]]; [done|]. rewrite Hst in E. done.
Qed.

(** A chunk of a block that is not the last uncopied one lies in the file. *)
Lemma chunk_in_file s r b w rq k :
  readable_now s r → as_oi s !! ino = Some b → file_ok w rq ino b (settled F) →
  0 ≤ rd_pos r → 0 < rd_count r → k = rd_pos r / BLOCK_SIZE + 1 → k ≤ block_count b →
  zget (block_status b) k ≠ Some UNCOPY →
  rd_pos r + chunk (rd_pos r) (rd_count r) ≤ zlen F.
Proof.
  intros Hr Hb Hok Hp Hc -> Hk Hst. destruct (chunk_bounds (rd_pos r) (rd_count r) Hp Hc) as [Hcb Hce].
  destruct Hr as [Hr|(b' & Hb' & Hl)]; [lia|]. assert (b' = b) as -> by congruence.
  destruct (decide (rd_pos r / BLOCK_SIZE + 1 = block_count b)) as [E|E]; [congruence|].
  pose proof (fo_grown _ _ _ _ _ _ _ Hok) as Hg. change (fv_data (settled F)) with F in Hg.
  pose proof (fo_bounds _ _ _ _ _ _ _ Hok) as [_ Hlb]. unfold BLOCK_SIZE in *. lia.
Qed.

(** The bytes of a chunk that are in the upper file. *)
Lemma chunk_upper w rq b k r c :
  file_ok w rq ino b (settled F) → 0 ≤ rd_pos r → 0 < c → rd_pos r + c ≤ k * BLOCK_SIZE →
  k = rd_pos r / BLOCK_SIZE + 1 → zget (block_status b) k = Some COPIED → rd_pos r + c ≤ zlen F →
  rd_pos r + c ≤ zlen (vfs_bytes w (upper_of ino)) ∧
  ∀ n, 0 ≤ n ≤ c → zslice (vfs_bytes w (upper_of ino)) (rd_pos r) n = zslice F (rd_pos r) n.
Proof.
  intros Hok Hp Hc Hce Hk Hst HinF.
  assert (∀ i, rd_pos r ≤ i < rd_pos r + c → zget (vfs_bytes w (upper_of ino)) i = zget F i) as Hag.
  { intros i Hi. eapply settled_upper; [done|lia| |by right]. unfold BLOCK_SIZE in *. lia. }
  split.
  - destruct (agree_slice _ F (rd_pos r) c Hp ltac:(lia) Hag) as [E _]. lia.
  - intros n Hn. apply zslice_eq; [done|lia|]. intros i Hi. apply Hag. lia.
Qed.

(** The end of a file the last block of which is not copied. *)
Lemma async_read_end fuel r s b :
  underway s → 0 ≤ rd_pos r → 0 < rd_count r → rd_pos r + rd_count r < max_file →
  as_oi s !! ino = Some b → rd_pos r / BLOCK_SIZE + 1 ≤ block_count b →
  zget (block_status b) (rd_pos r / BLOCK_SIZE + 1) = Some UNCOPY →
  awp (async_read_loop hash_min others (S fuel) de true r) s (λ res s',
    res = (rd_ret r, r) ∧ underway s' ∧ settles s s').
Proof.
  intros Hu Hp Hc Hmax Hb Hk Hst. cbn [async_read_loop]. rewrite (proj2 (Z.eqb_neq _ _)) by lia.
  unfold max_file, BLOCK_SIZE in Hmax.
  rewrite !ovl_get_block_spec by (unfold two64, BLOCK_SIZE; lia).
  eapply awp_inode_of; [apply Hu|]. eapply awp_get_oi; [done|].
  rewrite (proj2 (Z.ltb_ge _ _)) by lia. eapply awp_get_status; [done..|].
  apply others_wp; [done|]. intros s1 Hu1 Hs1. change (UNCOPY =? COPIED) with false.
  change (UNCOPY =? UNCOPY) with true. cbn. done.
Qed.

(** The files a request found open stay open. *)
Record files_open w b : Prop := {
  fop_u : ptr_ok (upper_file b) = true;
  fop_uopen : vfs_isopen w (upper_file b) = true;
  fop_uinode : vfs_inode w (upper_file b) = upper_of ino;
  fop_l : ptr_ok (lower_file b) = true;
  fop_lopen : vfs_isopen w (lower_file b) = true;
  fop_linode : vfs_inode w (lower_file b) = lower_of ino;
}.

Lemma underway_blocks s s1 b :
  underway s → underway s1 → settles s s1 → as_oi s !! ino = Some b →
  ∃ b1, as_oi s1 !! ino = Some b1 ∧ file_ok (as_w s1) (request s1 de) ino b1 (settled F) ∧
    block_count b1 = block_count b ∧ files_open (as_w s1) b ∧
    ∀ k, zget (block_status b1) k = zget (block_status b) k ∨
         (zget (block_status b) k = Some COPYING ∧ zget (block_status b1) k = Some COPIED).
Proof.
  intros Hu Hu1 Hs Hb. destruct (underway_file s Hu) as (b' & Hb' & _ & Hup & Hlp).
  assert (b' = b) as -> by congruence.
  destruct (underway_file s1 Hu1) as (b1 & Hb1 & Hok1 & _).
  destruct (se_blocks _ _ _ _ Hs ino b Hb) as (b1' & Hb1' & Ec & Eu & El & _ & Hk).
  assert (b1' = b1) as -> by congruence. exists b1. split_and!; auto.
  destruct (fo_ucache _ _ _ _ _ _ _ Hok1) as [?|(_ & ? & ?)]; [unfold NULL in *; lia|].
  destruct (fo_lcache _ _ _ _ _ _ _ Hok1) as [?|(_ & ? & ?)]; [unfold NULL in *; lia|].
  split; rewrite <- ?Eu, <- ?El; auto; apply ptr_ok_pos; lia.
Qed.

(** One read of the upper file, short ones included. *)
Lemma read_upper s b b0 r c k :
  underway s → as_oi s !! ino = Some b → files_open (as_w s) b0 → 0 ≤ rd_pos r → 0 < c ≤ rd_count r →
  (∀ i, rd_pos r ≤ i < rd_pos r + c → i / BLOCK_SIZE + 1 = k ∨ block_count b < i / BLOCK_SIZE + 1) →
  block_count b < k ∨ zget (block_status b) k = Some COPIED →
  ∃ n w', read_file (as_w s) (upper_file b0) (rd_pos r) c = Ret (n, zslice F (rd_pos r) n, w') ∧
    0 ≤ n ≤ c ∧ n ≤ Z.max 0 (zlen F - rd_pos r) ∧ (n = 0 → zlen F ≤ rd_pos r) ∧
    underway (set_as_w w' s) ∧ settles s (set_as_w w' s).
Proof.
  intros Hu Hb [Hp Ho Hi _ _ _] Hpos Hc Hblk Hst.
  destruct (underway_file s Hu) as (b' & Hb' & Hok & _). assert (b' = b) as -> by congruence.
  unfold read_file. rewrite Hp.
  pose proof (rel_read_eof (as_w s) (upper_file b0) (rd_pos r) c Hpos ltac:(lia)) as Hge.
  destruct (vfs_iter_read (as_w s) (upper_file b0) (rd_pos r) c) as [[n d] w'] eqn:E. cbn in Hge.
  apply law_read in E as (Fr & Sb & Hle & Hd & Heof); [|lia..]. destruct (Hd Hge) as [-> Hlen].
  rewrite Hi in *. rewrite zlen_zslice in Hlen by lia.
  assert (∀ i, rd_pos r ≤ i < rd_pos r + c → zget (vfs_bytes (as_w s) (upper_of ino)) i = zget F i) as Hag.
  { intros i Hi'. destruct (Hblk i Hi') as [Ek|Ek].
    - eapply settled_upper; [done|lia|done|done].
    - eapply settled_upper; [done|lia|done|by left]. }
  destruct (agree_slice _ F (rd_pos r) c Hpos ltac:(lia) Hag) as [En _].
  destruct (ainv_read s Vs w' (uw_inv _ Hu) Fr Sb) as [Hi2 Hs2].
  exists n, w'. split_and!; try lia.
  - rewrite (zslice_eq _ F (rd_pos r) n); [done|done|lia|]. intros i Hi'. apply Hag. lia.
  - intros ->. specialize (Heof eq_refl ltac:(lia)). unfold i_size in Heof. rewrite Hi in Heof. lia.
  - by eapply underway_settles; [exact Hu|exact Hi2|exact Hs2|apply Hu].
  - done.
Qed.

(** The chunk of a block that is copied. *)
Lemma read_copied s b b0 r c le :
  underway s → as_oi s !! ino = Some b → files_open (as_w s) b0 → 0 ≤ rd_pos r → 0 < c →
  rd_pos r + c ≤ (rd_pos r / BLOCK_SIZE + 1) * BLOCK_SIZE →
  zget (block_status b) (rd_pos r / BLOCK_SIZE + 1) = Some COPIED → rd_pos r + c ≤ zlen F →
  ∃ w', async_read_chunk (Z.to_nat c) (as_w s) (upper_file b0) c le r =
          Ret (ReadAll, read_adv c (zslice F (rd_pos r) c) r, w') ∧
        underway (set_as_w w' s) ∧ settles s (set_as_w w' s).
Proof.
  intros Hu Hb [Hp Ho Hi _ _ _] Hpos Hc Hce Hst HinF.
  destruct (underway_file s Hu) as (b' & Hb' & Hok & _). assert (b' = b) as -> by congruence.
  destruct (chunk_upper _ _ _ _ r c Hok Hpos Hc Hce eq_refl Hst HinF) as [Hlen Hsl].
  destruct (async_read_chunk_spec (Z.to_nat c) (as_w s) (upper_file b0) c le r) as (w' & E & Fr & Sb); auto; try lia.
  { unfold i_size. by rewrite Hi. }
  rewrite Hi, Hsl in E by lia. destruct (ainv_read s Vs w' (uw_inv _ Hu) Fr Sb) as [Hi2 Hs2].
  exists w'. split_and!; auto. eapply underway_settles; [exact Hu|exact Hi2|exact Hs2|apply Hu].
Qed.

(** The chunk of a block that is not. *)
Lemma read_uncopied s b b0 r c :
  underway s → as_oi s !! ino = Some b → files_open (as_w s) b0 → 0 ≤ rd_pos r → 0 < c →
  rd_pos r + c ≤ (rd_pos r / BLOCK_SIZE + 1) * BLOCK_SIZE → rd_pos r / BLOCK_SIZE + 1 ≤ block_count b →
  zget (block_status b) (rd_pos r / BLOCK_SIZE + 1) = Some UNCOPY →
  let n := Z.min c (Z.max 0 (zlen F - rd_pos r)) in
  ∃ w', read_chunk (Z.to_nat c) (as_w s) (lower_file b0) c r =
          Ret (if decide (n = c) then ReadAll else ReadEof, read_adv n (zslice F (rd_pos r) n) r, w') ∧
        underway (set_as_w w' s) ∧ settles s (set_as_w w' s).
Proof.
  intros Hu Hb [_ _ _ Hp Ho Hi] Hpos Hc Hce Hk Hst n.
  destruct (underway_file s Hu) as (b' & Hb' & Hok & _). assert (b' = b) as -> by congruence.
  assert (∀ i, rd_pos r ≤ i < rd_pos r + c → zget (vfs_bytes (as_w s) (lower_of ino)) i = zget F i) as Hag.
  { intros i Hi'. eapply settled_lower; [done|lia| |exact Hk|done]. unfold BLOCK_SIZE in *. lia. }
  destruct (read_chunk_spec (Z.to_nat c) (as_w s) (lower_file b0) c r) as (w' & E & Fr & Sb); auto; try lia.
  cbn zeta in E. unfold i_size in E. rewrite Hi in E.
  destruct (agree_slice _ F (rd_pos r) c Hpos ltac:(lia) Hag) as [En Es]. rewrite En in E. fold n in E, Es.
  rewrite Es in E. destruct (ainv_read s Vs w' (uw_inv _ Hu) Fr Sb) as [Hi2 Hs2].
  exists w'. split_and!; auto. eapply underway_settles; [exact Hu|exact Hi2|exact Hs2|apply Hu].
Qed.

(** A block that waits for its copy is copied under its lock. *)
Lemma speed_copied s b k {B} (f : unit → act B) Q :
  underway s → as_oi s !! ino = Some b → 1 ≤ k ≤ block_count b →
  (zget (block_status b) k = Some COPYING ∨ zget (block_status b) k = Some COPIED) →
  (∀ s1 b1, underway s1 → settles s s1 → as_oi s1 !! ino = Some b1 →
     zget (block_status b1) k = Some COPIED → awp (f tt) s1 Q) →
  awp (spin_lock (hash_min k);;
       status ← get_status ino k;
       (if status =? COPYING then speed_block_copy hash_min de k;; mret tt else mret tt);;
       u ← spin_unlock (hash_min k); f u) s Q.
Proof.
  intros Hu Hb Hk Hst Hf. destruct (underway_file s Hu) as (b' & Hb' & Hok & _). assert (b' = b) as -> by congruence.
  pose proof Hu as [Hinv Hl Hde _]. apply awp_spin_lock; [done|]. set (s0 := set_as_locks _ s).
  assert (ainv s0 Vs) as Hi0 by (by eapply ainv_same).
  destruct Hst as [Hst|Hst]; eapply (awp_get_status s0); try done; cbn [Z.eqb Pos.eqb COPYING COPIED].
  - destruct (fo_copying _ _ _ _ _ _ _ Hok k Hk Hst) as (req & Hq & _).
    apply awp_assoc. unfold speed_block_copy. apply awp_assoc. eapply awp_inode_of; [done|].
    apply awp_assoc, awp_get. change (List.find _ _) with (request s de k). rewrite Hq.
    apply awp_assoc. eapply (copy_and_mark _ _ _ s0); eauto. intros w' Hd s1 Hi1 Hs1.
    change (0 <? 0) with false. cbn iota. apply awp_assoc.
    eapply awp_bind, (awp_set_status _ ino b); [done|rewrite (fo_array _ _ _ _ _ _ _ Hok); lia|].
    fold s1. apply awp_mret, awp_mret.
    apply awp_spin_unlock; [done|].
    assert (settles s (set_as_locks ∅ s1)) as Hs by (by apply (settles_locks _ _ s {[hash_min k]})).
    apply (Hf _ (mark_status k COPIED b)); auto.
    + eapply underway_settles; [exact Hu| |exact Hs|done]. by eapply ainv_same.
    + cbn. by rewrite lookup_insert_eq.
    + unfold mark_status. rewrite zget_status_insert by (rewrite (fo_array _ _ _ _ _ _ _ Hok); lia). by rewrite decide_True.
  - apply awp_mret, awp_spin_unlock; [done|].
    assert (settles s (set_as_locks ∅ s0)) as Hs by (apply (settles_locks _ _ s {[hash_min k]}), settles_refl).
    apply (Hf _ b); auto. eapply underway_settles; [exact Hu| |exact Hs|done]. by eapply ainv_same.
Qed.

Lemma read_post_settles s s1 r res s' :
  settles s s1 → read_post s1 r res s' → read_post s r res s'.
Proof.
  intros Hs [Hu' Hs' (n & E & Hn & HnF & Hn0 & Hfull)]. split; [done|by eapply settles_trans|].
  exists n. split_and!; [done|lia|lia|done|done|]. intros b Hb Hin.
  destruct (se_blocks _ _ _ _ Hs ino b Hb) as (b1 & Hb1 & Ec & _). apply (Hfull b1); [done|by rewrite Ec].
Qed.

Lemma async_read_loop_wp fuel : ∀ r s,
  underway s → 0 ≤ rd_pos r → 0 ≤ rd_count r → rd_pos r + rd_count r < max_file → readable_now s r →
  (Z.to_nat (rd_count r) < fuel)%nat →
  awp (async_read_loop hash_min others fuel de false r) s (read_post s r).
Proof.
  induction fuel as [|fuel IH]; intros r s Hu Hp Hc Hmax Hr Hfuel; [lia|]. cbn [async_read_loop].
  destruct (Z.eqb_spec (rd_count r) 0) as [Hc0|Hc0]; [by apply read_post_0|].
  pose proof Hmax as Hmax'. unfold max_file, BLOCK_SIZE in Hmax'.
  rewrite !ovl_get_block_spec by (unfold two64, BLOCK_SIZE; lia).
  destruct (underway_file s Hu) as (b & Hb & Hok & _).
  eapply awp_inode_of; [apply Hu|]. eapply awp_get_oi; [done|].
  destruct (underway_blocks s s b Hu Hu (settles_refl _ _ _) Hb) as (_ & _ & _ & _ & Hop & _).
  set (k := rd_pos r / BLOCK_SIZE + 1) in *. assert (1 ≤ k) by (subst k; unfold BLOCK_SIZE; lia).
  destruct (Z.ltb_spec (block_count b) k) as [Ht|Ht].
  { (* past the blocks *)
    destruct (read_upper s b b r (rd_count r) k) as (n & w' & E & Hn & HnF & Hn0 & Hu' & Hs');
      [done|done|done|done|lia| |by left|].
    { intros i Hi. subst k. right. unfold BLOCK_SIZE in *. lia. }
    eapply (awp_read_world _ _ (n, _)); [by rewrite E|]. rewrite (proj2 (Z.ltb_ge n 0)) by lia.
    split; [done|done|]. exists n. split_and!; [done|lia|lia|lia|by right; auto|].
    intros b2 Hb2 Hin. subst k. assert (b2 = b) as -> by congruence. unfold BLOCK_SIZE in *. lia. }
  destruct (fo_lookup _ _ _ _ _ _ _ k Hok ltac:(lia)) as (st & Hst & Hcase).
  assert ((if k =? (rd_pos r + rd_count r) / BLOCK_SIZE + 1 then rd_count r
           else u64 (k * BLOCK_SIZE - rd_pos r)) = chunk (rd_pos r) (rd_count r)) as ->.
  { subst k. unfold chunk. destruct (_ =? _); [done|]. apply u64_small. unfold two64, BLOCK_SIZE in *. lia. }
  destruct (chunk_bounds (rd_pos r) (rd_count r) Hp ltac:(lia)) as [Hcb Hce]. fold k in Hce.
  set (c := chunk _ _) in *. eapply awp_get_status; [done..|].
  apply others_wp; [done|]. intros s1 Hu1 Hs1.
  destruct (underway_blocks s s1 b Hu Hu1 Hs1 Hb) as (b1 & Hb1 & Hok1 & Ec & Hop1 & Hmono).
  assert (∀ s2, underway s2 → settles s s2 → ∀ n, 0 < n ≤ rd_count r → n ≤ Z.max 0 (zlen F - rd_pos r) →
    awp (async_read_loop hash_min others fuel de false (read_adv n (zslice F (rd_pos r) n) r)) s2 (read_post s r)) as Hnext.
  { intros s2 Hu2 Hs2 n Hn HnF. eapply awp_mono; [apply IH; cbn; auto; try lia|].
    - eapply readable_settles; [exact Hs2|done|lia].
    - intros res s' Hpost. eapply async_read_step; eauto; lia. }
  assert (st ≠ UNCOPY → rd_pos r + c ≤ zlen F) as HinF.
  { intros Hne. eapply chunk_in_file; eauto; [lia|]. fold k. congruence. }
  destruct Hcase as [->|[->| ->]].
  - change (UNCOPY =? COPIED) with false. change (UNCOPY =? UNCOPY) with true. cbn iota.
    assert (zget (block_status b1) k = Some UNCOPY) as Hst1.
    { destruct (Hmono k) as [->|[E _]]; [done|]. rewrite Hst in E. done. }
    destruct (read_uncopied s1 b1 b r c) as (w' & E & Hu2 & Hs2); auto; fold k; try lia.
    remember (Z.min c (Z.max 0 (zlen F - rd_pos r))) as n eqn:Edef. eapply awp_read_world; [exact E|].
    assert (settles s (set_as_w w' s1)) as Hs12 by (by eapply settles_trans).
    destruct (decide (n = c)) as [En|En]; [apply Hnext; auto; lia|].
    destruct fuel as [|fuel']; [lia|].
    destruct (underway_blocks s (set_as_w w' s1) b Hu Hu2 Hs12 Hb) as (b2 & Hb2 & _ & Ec2 & _ & Hmono2).
    assert ((rd_pos r + n) / BLOCK_SIZE + 1 = k) as Ek by (subst k; unfold BLOCK_SIZE in *; lia).
    eapply awp_mono; [eapply (async_read_end fuel' _ _ b2)|]; cbn [read_adv rd_pos rd_count]; rewrite ?Ek; auto; try lia.
    + destruct (Hmono2 k) as [->|[E' _]]; [done|]. rewrite Hst in E'. done.
    + intros res s' (-> & Hu' & Hs'). split; [done|by eapply settles_trans|]. exists n.
      split_and!; [done|lia|lia|lia|intros; right; lia|]. intros b' Hb' Hin.
      assert (b' = b) as -> by congruence.
      pose proof (fo_grown _ _ _ _ _ _ _ Hok) as Hg. change (fv_data (settled F)) with F in Hg. lia.
  - change (COPIED =? COPIED) with true. cbn iota.
    assert (zget (block_status b1) k = Some COPIED) as Hst1.
    { destruct (Hmono k) as [->|[_ E]]; done. }
    destruct (read_copied s1 b1 b r c false) as (w' & E & Hu2 & Hs2); auto; fold k; try lia.
    specialize (HinF ltac:(done)). eapply awp_read_world; [exact E|].
    apply Hnext; [done|by eapply settles_trans|lia|lia].
  - change (COPYING =? COPIED) with false. change (COPYING =? UNCOPY) with false. cbn iota.
    specialize (HinF ltac:(done)).
    eapply (speed_copied s1 b1 k); auto; [lia| |].
    { destruct (Hmono k) as [E|[_ E]]; [left; congruence|by right]. }
    intros s2 b2 Hu2 Hs2 Hb2 Hst2. apply others_wp; [done|]. intros s3 Hu3 Hs3.
    assert (settles s s3) as Hs13 by (eapply settles_trans; [exact Hs1|by eapply settles_trans]).
    destruct (underway_blocks s s3 b Hu Hu3 Hs13 Hb) as (b3 & Hb3 & Hok3 & Ec3 & Hop3 & _).
    destruct (underway_blocks s2 s3 b2 Hu2 Hu3 Hs3 Hb2) as (b3' & Hb3' & _ & _ & _ & Hmono3).
    assert (b3' = b3) as -> by congruence.
    assert (zget (block_status b3) k = Some COPIED) as Hst3.
    { destruct (Hmono3 k) as [->|[_ E]]; done. }
    destruct (read_upper s3 b3 b r c k) as (n & w' & E & Hn & HnF & Hn0 & Hu' & Hs'); auto; try lia.
    { intros i Hi. left. subst k. unfold BLOCK_SIZE in *. lia. }
    eapply (awp_read_world _ _ (n, _)); [by rewrite E|]. rewrite (proj2 (Z.ltb_ge n 0)) by lia.
    destruct (Z.eqb_spec n 0) as [->|Hn1]; [lia|]. cbn [andb].
    apply Hnext; [done|by eapply settles_trans|lia|lia].
Qed.
End read.
