(* ===== verification/AsyncWrite.v ===== *)
(** async_block_write_iter under the invariant: the new and the trimmed requests
    for the parts of the border blocks that are not written, the write and the
    marks.  Until the data is written the bytes of the write are not claimed to
    show anything; from then on they are in the upper file, ahead of the marks
    of their blocks. *)

From S2P Require Import Prelude Vfs Types Util Block BlockView BlockWrite BlockWriteSpec BlockRead Kernel Action Async AsyncInv AsyncSteps AsyncRead.

(** ** The marks *)

(** What the loop of the marks does to the statuses. *)
Record marks (first last : Z) (b b' : ovl_blocks) : Prop := {
  ms_count : block_count b' = block_count b;
  ms_upper : upper_file b' = upper_file b;
  ms_lower : lower_file b' = lower_file b;
  ms_len : zlen (block_status b') = zlen (block_status b);
  ms_status j : 1 ≤ j ≤ block_count b → zget (block_status b') j =
    if decide (first ≤ j ≤ last) then Some COPIED else zget (block_status b) j;
}.

Lemma async_mark_blocks_spec n : ∀ i (b : ovl_blocks), 1 ≤ i → zlen (block_status b) = block_count b + 1 →
  ∃ b', async_mark_blocks n i b = Ret b' ∧ marks i (i + Z.of_nat n - 1) b b'.
Proof.
  induction n as [|n IH]; intros i b Hi Hl; cbn [async_mark_blocks].
  { exists b. split; [done|]. split; auto. intros j Hj. by rewrite decide_False by lia. }
  destruct (Z.ltb_spec (block_count b) i) as [Hlt|Hge].
  { exists b. split; [done|]. split; auto. intros j Hj. by rewrite decide_False by lia. }
  unfold array_set, zset. rewrite decide_True by lia. cbn [mbind outcome_bind].
  destruct (IH (i + 1) (set_copy_count (u32 (copy_count b + 1)) (mark_status i COPIED b))) as (b' & E & []).
  { lia. } { cbn. by rewrite zlen_insert. }
  exists b'. split; [exact E|]. split; auto.
  - rewrite ms_len0. cbn. by rewrite zlen_insert.
  - intros j Hj. rewrite ms_status0 by done. cbn. rewrite zget_insert by lia.
    repeat case_decide; done || lia.
Qed.

(** ** One file *)

Section file.
Context {W : Type} `{VfsLaws W}.
Context (upper_of lower_of : Z → Z).
Implicit Types (w : W) (b : ovl_blocks) (v : fview) (req : block_copy_req)
  (rq : Z → option block_copy_req) (ino k : Z) (F d : list byte).
Local Abbreviation file_ok := (file_ok upper_of lower_of).
Local Abbreviation file_src := (file_src lower_of).
Local Abbreviation lsize w ino := (zlen (vfs_bytes w (lower_of ino))).

(** Claiming less. *)
Lemma file_ok_less w rq ino b v cl :
  file_ok w rq ino b v → (∀ i, cl i = true → fv_claim v i = true) →
  file_ok w rq ino b (FView (fv_data v) cl (fv_ahead v)).
Proof.
  intros [] Hcl. split; auto. cbn. eapply claims_less; [exact fo_view|done].
Qed.

(** A request, new or trimmed, for a block: what is no longer read from the
    lower file is not claimed, or beyond its end. *)
Lemma set_request_ok w rq rq' ino b v k st req :
  file_ok w rq ino b v → 1 ≤ k ≤ block_count b → zget (block_status b) k = Some st → st ≠ COPIED →
  req_ok b k req → rq' k = Some req → (∀ j, j ≠ k → rq' j = rq j) →
  (∀ i, 0 ≤ i → i / BLOCK_SIZE + 1 = k → file_src w rq ino b v i = false →
     req_covers (lsize w ino) req i = false → fv_claim v i = false ∨ (lsize w ino ≤ i ∧ st = UNCOPY)) →
  (∀ i, 0 ≤ i → i / BLOCK_SIZE + 1 = k → req_covers (lsize w ino) req i = true →
     async_from_upper (lsize w ino) b rq i = false ∧ fv_ahead v i = false) →
  file_ok w rq' ino (mark_status k COPYING b) v.
Proof.
  intros Hf Hk Hst Hne Hro Hq Hr Hout Hcov. pose proof Hf as [].
  assert (∀ j, zget (block_status (mark_status k COPYING b)) j =
               if decide (k = j) then Some COPYING else zget (block_status b) j) as Hz
    by (intros; apply zget_status_insert; lia).
  assert (∀ i, 0 ≤ i → file_src w rq' ino (mark_status k COPYING b) v i =
               if decide (i / BLOCK_SIZE + 1 = k) then negb (req_covers (lsize w ino) req i) || fv_ahead v i
               else file_src w rq ino b v i) as Hsrc.
  { intros i Hi. unfold AsyncInv.file_src. case_decide as Ek; f_equal.
    - rewrite (from_upper_status _ _ _ _ k COPYING) by
        (try done; try (rewrite Hz, decide_True by done; done); cbn; lia).
      change (COPYING =? UNCOPY) with false. change (COPYING =? COPYING) with true. cbn. by rewrite Hq.
    - apply async_from_upper_ext; [done| |by intros _; apply Hr]. by rewrite Hz, decide_False by done. }
  assert (∀ i, 0 ≤ i → file_src w rq ino b v i = true → file_src w rq' ino (mark_status k COPYING b) v i = true)
    as Hmore.
  { intros i Hi E. rewrite Hsrc by done. case_decide as Ek; [|done].
    destruct (req_covers _ req i) eqn:Ec; [|done]. destruct (Hcov i Hi Ek Ec) as [E1 E2].
    unfold AsyncInv.file_src in E. by rewrite E1, E2 in E. }
  assert (∀ i, 0 ≤ i → i / BLOCK_SIZE + 1 = k → file_src w rq ino b v i = false →
    req_covers (lsize w ino) req i = false → fv_claim v i = true →
    zget (vfs_bytes w (upper_of ino)) i = zget (vfs_bytes w (lower_of ino)) i) as Hag.
  { intros i Hi Ek Es Ec Hci. destruct (Hout i Hi Ek Es Ec) as [E|[E _]]; [congruence|].
    rewrite (zget_None (vfs_bytes w (lower_of ino))) by done. by apply fo_unwritten. }
  split; auto.
  - unfold mark_status; cbn. by rewrite zlen_insert.
  - intros j x Hj. rewrite Hz. case_decide; [intros [= <-]; by right; right|by apply fo_status].
  - intros j Hj. rewrite Hz. case_decide as E.
    + subst j. intros _. exists req. split; [done|by destruct Hro].
    + intros Hs. destruct (fo_copying j Hj Hs) as (req' & Hq' & []). exists req'.
      split; [by rewrite Hr by done|by split].
  - intros j Hj. rewrite Hz. case_decide as E; [done|]. intros Hs. rewrite Hr by done. by apply fo_uncopied.
  - eapply claims_more; [exact fo_view|exact Hmore|]. intros i Hi Hci Es. rewrite Hsrc by done.
    case_decide as Ek; [|congruence]. intros Es'. apply Hag; auto.
    destruct (req_covers _ req i) eqn:Ec; [|done]. cbn in Es'. destruct (Hcov i Hi Ek Ec). congruence.
  - eapply unwritten_more; [exact fo_unwritten|exact Hmore].
  - intros i Hi Ha (Hb & Hs & req' & Hq' & Hc). rewrite Hz in Hs. case_decide as E.
    + rewrite <- E, Hq in Hq'. injection Hq' as <-. destruct (Hcov i Hi (eq_sym E) Hc). congruence.
    + apply (fo_ahead i Hi Ha). split_and!; [done|done|]. exists req'. split; [|done]. by rewrite <- Hr.
Qed.

(** The write itself. *)
Lemma write_ok w w' rq ino b F pos d cl :
  file_ok w rq ino b (FView F cl (λ _, false)) → upper_of ino ≠ lower_of ino → vfs_frame w w' →
  0 ≤ pos → 0 < zlen d →
  set_bytes w w' (upper_of ino) (fwrite (vfs_bytes w (upper_of ino)) pos d) →
  (∀ i, in_range pos (zlen d) i = false → cl i = true) →
  (∀ i, 0 ≤ i < pos → async_from_upper (lsize w ino) b rq i = false → i < lsize w ino) →
  (∀ i, in_range pos (zlen d) i = true → ¬ pending (lsize w ino) b rq i) →
  file_ok w' rq ino b (FView (fwrite F pos d) (λ _, true) (in_range pos (zlen d))).
Proof.
  intros Hf Hne Hfr Hpos Hd [Hset Hoth] Hcl Hgap Hclear. pose proof Hf as [].
  assert (vfs_bytes w' (lower_of ino) = vfs_bytes w (lower_of ino)) as El by (apply Hoth; congruence).
  destruct (write_claims cl (file_src w rq ino b (FView F cl (λ _, false))) (vfs_bytes w (lower_of ino))
    (vfs_bytes w (upper_of ino)) F pos d) as [Hc Hu]; auto.
  { intros i Hi Hs. apply Hgap; [done|]. unfold AsyncInv.file_src in Hs. by rewrite orb_false_r in Hs. }
  assert (∀ i, file_src w' rq ino b (FView (fwrite F pos d) (λ _, true) (in_range pos (zlen d))) i =
    file_src w rq ino b (FView F cl (λ _, false)) i || in_range pos (zlen d) i) as Es.
  { intros i. unfold AsyncInv.file_src. cbn. by rewrite El, orb_false_r. }
  split; rewrite ?El, ?Hset; eauto using cached_frame; cbn.
  - rewrite zlen_fwrite by lia. cbn in fo_grown. lia.
  - intros i Hi _. rewrite Es. by apply Hc.
  - intros i Hi. rewrite Es. by apply Hu.
Qed.

(** After the marks nothing is ahead of its block any more. *)
Lemma marks_ok w rq ino b b' first last F hole :
  file_ok w rq ino b (FView F (λ _, true) hole) → marks first last b b' →
  (∀ i, 0 ≤ i → hole i = true → first ≤ i / BLOCK_SIZE + 1 ≤ last ∨ async_from_upper (lsize w ino) b rq i = true) →
  (∀ i, 0 ≤ i → first ≤ i / BLOCK_SIZE + 1 ≤ last → hole i = true) →
  file_ok w rq ino b' (settled F).
Proof.
  intros Hf [] Hin Hout. pose proof Hf as [].
  assert (∀ i, 0 ≤ i → file_src w rq ino b' (settled F) i =
    file_src w rq ino b (FView F (λ _, true) hole) i) as Hsrc.
  { intros i Hi. unfold AsyncInv.file_src. cbn. rewrite orb_false_r.
    destruct (decide (block_count b < i / BLOCK_SIZE + 1)) as [Ht|Ht].
    { by rewrite !from_upper_tail by lia. }
    assert (1 ≤ i / BLOCK_SIZE + 1 ≤ block_count b) as Hb by (apply block_of; lia).
    specialize (ms_status0 _ Hb). case_decide as Ed.
    - rewrite (Hout i Hi Ed), orb_true_r.
      by rewrite (from_upper_status _ _ _ _ _ COPIED eq_refl) by (done || lia).
    - rewrite (async_from_upper_ext (lsize w ino) b b' rq rq i ms_count0 ms_status0 (λ _, eq_refl)).
      destruct (hole i) eqn:Eh; [|by rewrite orb_false_r]. by destruct (Hin i Hi Eh) as [?| ->]. }
  assert (∀ j st, 1 ≤ j ≤ block_count b → zget (block_status b') j = Some st → st ≠ COPIED →
    zget (block_status b) j = Some st) as Hold.
  { intros j st Hj. rewrite ms_status0 by done. case_decide; [congruence|done]. }
  split; rewrite ?ms_count0, ?ms_upper0, ?ms_lower0, ?ms_len0; auto.
  - intros j st Hj. rewrite ms_status0 by done. case_decide; [intros [= <-]; by right; left|by apply fo_status].
  - intros j Hj Hs. destruct (fo_copying j Hj) as (req & Hq & []); [by apply Hold|].
    exists req. split; [done|]. split; rewrite ?ms_upper0, ?ms_lower0; done.
  - intros i Hi _. rewrite Hsrc by done. by apply fo_view.
  - intros i Hi. rewrite Hsrc by (pose proof (zlen_nonneg (vfs_bytes w (lower_of ino))); lia). by apply fo_unwritten.
  - done.
Qed.
End file.

(** ** Trimming a request *)

Section trim.
Implicit Types (req : block_copy_req) (l : list block_copy_req).

Definition req_end req : Z := req_offset req + req_len req.

Lemma req_covers_spec size req i :
  req_covers size req i = true ↔ (req_offset req ≤ i < req_end req) ∧ i < size.
Proof. unfold req_covers, req_end. rewrite andb_true_iff, Z.leb_le, Z.ltb_lt. lia. Qed.

(** The shapes for which the tests of the code find the overlap of the request
    and of the part [[p, q)] of its block that is written. *)
Definition trims (p q : Z) req : Prop :=
  (p ≤ req_offset req ∨ req_end req ≤ q) ∧
  ((req_offset req ≤ p < req_end req) ∨ (req_offset req < q ≤ req_end req) ∨
   q ≤ req_offset req ∨ req_end req ≤ p).

Lemma trim_spec p q req :
  trims p q req → 0 ≤ p ≤ q → p < q ∨ p ≤ req_offset req → q < two64 → 0 ≤ req_offset req → 0 < req_len req → req_end req < two64 →
  if touches_request p (q - p) req then
    ∃ req', trim_request p (q - p) req = Ret req' ∧
      req_dentry req' = req_dentry req ∧ req_block_id req' = req_block_id req ∧
      req_offset req ≤ req_offset req' ∧ 0 ≤ req_len req' ∧ req_end req' ≤ req_end req ∧
      ∀ i, req_offset req' ≤ i < req_end req' ↔ req_offset req ≤ i < req_end req ∧ ¬ p ≤ i < q
  else q ≤ req_offset req ∨ req_end req ≤ p.
Proof.
  intros [Hs Ht] Hp Hpq Hq Ho Hl He. unfold touches_request, trim_request, req_end in *.
  replace (p + (q - p)) with q by lia. rewrite !u64_small by lia.
  destruct (_ || _) eqn:Eb; cycle 1.
  { apply orb_false_iff in Eb as [E1%andb_false_iff E2%andb_false_iff].
    rewrite Z.leb_gt, Z.ltb_ge in E1. rewrite Z.ltb_ge, Z.leb_gt in E2. lia. }
  apply orb_true_iff in Eb. rewrite !andb_true_iff, !Z.leb_le, !Z.ltb_lt in Eb.
  assert ((if p <? req_offset req then req_offset req else p) = Z.max p (req_offset req)) as ->
    by (destruct (Z.ltb_spec p (req_offset req)); lia).
  assert ((if req_offset req + req_len req <? q then req_offset req + req_len req else q) =
          Z.min q (req_offset req + req_len req)) as ->
    by (destruct (Z.ltb_spec (req_offset req + req_len req) q); lia).
  destruct (Z.eqb_spec (Z.max p (req_offset req)) (req_offset req)) as [E|E];
    [|destruct (Z.eqb_spec (req_offset req + req_len req) (Z.min q (req_offset req + req_len req))) as [E'|E']; [|lia]].
  all: eexists; split; [reflexivity|]; cbn [req_dentry req_block_id req_offset req_len];
    rewrite u64_small by lia; split_and!; try lia; intros i; lia.
Qed.

Lemma find_update_first (p : block_copy_req → bool) l x y :
  List.find p l = Some x → p y = true → List.find p (update_first p (λ _, y) l) = Some y.
Proof.
  intros Hf Hy. induction l as [|z l IH]; [done|]. cbn in *.
  destruct (p z) eqn:E; cbn; [by rewrite Hy|rewrite E; auto].
Qed.

Lemma find_update_other (p p' : block_copy_req → bool) l y :
  (∀ z, p z = true → p' z = false) → p' y = false →
  List.find p' (update_first p (λ _, y) l) = List.find p' l.
Proof.
  intros Hn Hy. induction l as [|z l IH]; [done|]. cbn.
  destruct (p z) eqn:E; cbn; [by rewrite Hy, (Hn z E)|by rewrite IH].
Qed.

Lemma elem_of_update_first (p : block_copy_req → bool) l y r :
  r ∈ update_first p (λ _, y) l → r = y ∨ r ∈ l.
Proof.
  induction l as [|z l IH]; cbn; [by intros ?%elem_of_nil|].
  destruct (p z); rewrite !elem_of_cons; naive_solver.
Qed.
End trim.

Section border.
Context {W : Type} `{VfsLaws W} `{!VfsReliable W}.
Context (hash_min : Z → Z) (upper_of lower_of : Z → Z).
Implicit Types (w : W) (b : ovl_blocks) (s : astate W) (v : fview) (Vs : Z → fview)
  (req : block_copy_req) (ino de k : Z) (F : list byte).
Local Abbreviation ainv := (ainv hash_min upper_of lower_of).
Local Abbreviation request := (request hash_min).
Local Abbreviation file_ok := (file_ok upper_of lower_of).
Local Abbreviation act := (action (astate W)).
Local Abbreviation lsize w ino := (zlen (vfs_bytes w (lower_of ino))).

Context (Vs : Z → fview) (de ino : Z).

(** What a section on block [k] may change of the state: the status and the
    request of that block. *)
Record touches s s' k : Prop := {
  tc_w : as_w s' = as_w s;
  tc_d_inode : as_d_inode s' = as_d_inode s;
  tc_locks : as_locks s' = as_locks s;
  tc_blocks b : as_oi s !! ino = Some b → ∃ b', as_oi s' !! ino = Some b' ∧
    block_count b' = block_count b ∧ upper_file b' = upper_file b ∧ lower_file b' = lower_file b ∧
    ∀ j, j ≠ k → zget (block_status b') j = zget (block_status b) j;
  tc_request j : j ≠ k → request s' de j = request s de j;
}.

Lemma touches_refl s k : touches s s k.
Proof. split; auto. intros b Hb. exists b. split_and!; auto. Qed.

(** Block [k] of the file is copied, or waits for bytes outside of [hole]. *)
Definition waits s k (hole : Z → bool) : Prop :=
  ∃ b st, as_oi s !! ino = Some b ∧ zget (block_status b) k = Some st ∧ st ≠ UNCOPY ∧
    ∀ i, 0 ≤ i → i / BLOCK_SIZE + 1 = k → hole i = true →
      ¬ pending (lsize (as_w s) ino) b (request s de) i.

Lemma waits_settles s s' k hole :
  as_d_inode s !! de = Some ino → settles hash_min lower_of s s' → waits s k hole →
  (∃ b, as_oi s !! ino = Some b ∧ 1 ≤ k ≤ block_count b) → waits s' k hole.
Proof.
  intros Hde Hs (b & st & Hb & Hst & Hne & Hp) (b0 & Hb0 & Hk). assert (b0 = b) as -> by congruence.
  destruct (se_blocks _ _ _ _ Hs ino b Hb) as (b' & Hb' & Ec & _ & _ & _ & Hmono).
  exists b'. destruct (Hmono k) as [E|[E E']].
  - exists st. split_and!; [done|congruence|done|]. intros i Hi Hik Hh (Hbk & Hpst & req & Hq & Hcov).
    rewrite Hik in Hbk, Hpst, Hq.
    rewrite (se_lower _ _ _ _ Hs de ino Hde ltac:(eauto)) in Hcov. apply (Hp i Hi Hik Hh).
    unfold pending. rewrite Hik. split_and!; [lia|congruence|]. exists req. split; [|done].
    rewrite <- (se_requests _ _ _ _ Hs de ino b' k Hde ltac:(eauto) Hb'); [done|lia|by rewrite Hpst].
  - exists COPIED. split_and!; [done|done|done|]. intros i Hi Hik Hh (_ & Hpst & _).
    rewrite Hik, E' in Hpst. done.
Qed.

Lemma waits_touches s s' j k hole :
  touches s s' j → j ≠ k → waits s k hole → waits s' k hole.
Proof.
  intros [Ew Ed El Hbl Hrq] Hne (b & st & Hb & Hst & Hn & Hp).
  destruct (Hbl b Hb) as (b' & Hb' & Ec & _ & _ & Hz). exists b', st.
  split_and!; [done|by rewrite Hz by congruence|done|]. intros i Hi Hik Hh (Hbk & Hpst & req & Hq & Hcov).
  apply (Hp i Hi Hik Hh). rewrite Hik in Hbk, Hpst, Hq. rewrite Ew in Hcov. unfold pending. rewrite Hik.
  rewrite Hz in Hpst by congruence. rewrite Hrq in Hq by congruence. split_and!; [lia|done|by exists req].
Qed.

(** The file of the request in a state with another list in one bucket. *)
Lemma section_step s s' b b' k :
  ainv s Vs → as_d_inode s !! de = Some ino → as_oi s !! ino = Some b →
  as_w s' = as_w s → as_d_inode s' = as_d_inode s → as_oi s' = <[ino := b']> (as_oi s) →
  block_count b' = block_count b → 1 ≤ k ≤ block_count b →
  (∀ h r, r ∈ bucket s' h → r ∈ bucket s h ∨
     (h = hash_min k ∧ req_dentry r = de ∧ req_block_id r = k)) →
  (∀ de' j, de' ≠ de → request s' de' j = request s de' j) →
  file_ok (as_w s) (request s' de) ino b' (Vs ino) → ainv s' Vs.
Proof.
  intros Hinv Hde Hb Ew Ed Eo Ec Hk Hin Hr Hok.
  apply (ainv_ext _ _ _ _ (put_view ino (Vs ino) Vs)); [intros j; by rewrite put_view_id|].
  eapply (ainv_update _ _ _ s Vs de ino b b' (Vs ino) (as_w s)); eauto with ovl.
  - intros h r Hr'. destruct (Hin h r Hr') as [?|(-> & _ & <-)]; [|done]. by apply (ai_hash _ _ _ _ _ Hinv).
  - intros h r Hr'. destruct (Hin h r Hr') as [?|(_ & -> & ->)]; [right; by exists r, h|by left].
Qed.

Lemma new_request_wp s b k off len queue hole :
  ainv s Vs → as_d_inode s !! de = Some ino → as_oi s !! ino = Some b →
  1 ≤ k ≤ block_count b → zget (block_status b) k = Some UNCOPY →
  req_ok b k (BlockCopyReq de k off len) → (∀ i, fv_ahead (Vs ino) i = false) →
  (∀ i, 0 ≤ i → i / BLOCK_SIZE + 1 = k →
     req_covers (lsize (as_w s) ino) (BlockCopyReq de k off len) i = false →
     fv_claim (Vs ino) i = false ∨ lsize (as_w s) ino ≤ i) →
  (∀ i, 0 ≤ i → hole i = true → req_covers (lsize (as_w s) ino) (BlockCopyReq de k off len) i = false) →
  awp (new_request hash_min true queue de ino k off len) s (λ e s',
    e = 0 ∧ ainv s' Vs ∧ touches s s' k ∧ waits s' k hole).
Proof.
  intros Hinv Hde Hb Hk Hst Hro Hah Hout Hhole. pose proof (copied_of_waiting _ _ _ _ _ _ _ _ k Hinv Hde Hb) as Hok.
  unfold new_request, hash_add. cbn [negb]. apply awp_set.
  assert (req_dentry (BlockCopyReq de k off len) = de ∧ req_block_id (BlockCopyReq de k off len) = k) as [Erd Erk] by done.
  set (req := BlockCopyReq de k off len) in *. clearbody req. rewrite Erk.
  set (s1 := set_bucket (hash_min k) (req :: bucket s (hash_min k)) s).
  assert (∃ s2, (awp (if queue then kfifo_in k else mret tt) s1 (λ _ s', s' = s2)) ∧
    as_w s2 = as_w s ∧ as_d_inode s2 = as_d_inode s ∧ as_oi s2 = as_oi s ∧ as_locks s2 = as_locks s ∧
    as_table s2 = as_table s1) as (s2 & Hq & Ew & Ed & Eo & El & Et).
  { destruct queue; [|by exists s1]. unfold kfifo_in.
    destruct (KFIFO_ROOM <=? zlen (as_fifo s1)) eqn:Ef.
    - exists s1. split_and!; try done. unfold awp, aset. cbn beta iota. by rewrite Ef.
    - exists (set_as_fifo (as_fifo s1 ++ [k]) s1). split_and!; try done. unfold awp, aset. cbn beta iota. by rewrite Ef. }
  eapply awp_seq; [exact Hq|]. intros [] ? ->. cbn beta.
  assert (∀ de' j, request s2 de' j = if decide (de' = de ∧ j = k) then Some req else request s de' j) as Hreq.
  { intros de' j. change (request s2 de' j) with (List.find (is_req de' j) (default [] (as_table s2 !! hash_min j))).
    rewrite Et. change (default [] (as_table s1 !! hash_min j)) with (bucket s1 (hash_min j)). subst s1.
    rewrite bucket_set_bucket.
    case_decide as Eh.
    - cbn [List.find]. destruct (is_req de' j req) eqn:Er.
      + apply is_req_spec in Er as [E1 E2]. rewrite decide_True by (split; congruence). done.
      + rewrite decide_False; [unfold AsyncInv.request; by rewrite Eh|]. intros [-> ->].
        rewrite (proj2 (is_req_spec de k req)) in Er by done. done.
    - rewrite decide_False; [done|]. by intros [_ ->]. }
  eapply awp_bind, (awp_set_status s2 ino b); [by rewrite Eo|rewrite (fo_array _ _ _ _ _ _ _ Hok); lia|].
  set (s3 := set_as_oi _ s2).
  assert (ainv s3 Vs) as Hi3.
  { eapply (section_step s s3 b (mark_status k COPYING b) k); eauto.
    - subst s3; cbn. by rewrite Eo.
    - intros h r. change (bucket s3 h) with (default [] (as_table s2 !! h)). rewrite Et.
      change (default [] (as_table s1 !! h)) with (bucket s1 h). subst s1. rewrite bucket_set_bucket.
      case_decide as Eh; [|by left]. subst h. intros [->|Hin]%elem_of_cons; [by right|by left].
    - intros de' j Hn. change (request s3 de' j) with (request s2 de' j). rewrite Hreq, decide_False; naive_solver.
    - change (request s3 de) with (request s2 de).
      eapply (set_request_ok _ _ _ (request s de) _ _ _ _ _ UNCOPY req); eauto.
      + by rewrite Hreq, decide_True.
      + intros j Hj. rewrite Hreq, decide_False; naive_solver.
      + intros i Hi Hik _ Hc. destruct (Hout i Hi Hik Hc); auto.
      + intros i Hi Hik _. split; [|apply Hah]. by rewrite (from_upper_status _ _ _ _ k UNCOPY) by (done || lia). }
  cbn. split_and!; [done|done| |].
  - split; auto.
    + intros b2 Hb2. exists (mark_status k COPYING b). subst s3; cbn. rewrite lookup_insert_eq.
      assert (b2 = b) as -> by congruence. split_and!; try done. intros j Hj.
      rewrite zget_insert by (rewrite (fo_array _ _ _ _ _ _ _ Hok); lia). by rewrite decide_False by congruence.
    + intros j Hj. change (request s3 de j) with (request s2 de j). rewrite Hreq, decide_False; naive_solver.
  - exists (mark_status k COPYING b), COPYING. subst s3; cbn -[AsyncInv.request]. rewrite lookup_insert_eq.
    split_and!; [done| |done|].
    + rewrite zget_insert by (rewrite (fo_array _ _ _ _ _ _ _ Hok); lia). by rewrite decide_True.
    + intros i Hi Hik Hh (_ & _ & req' & Hq' & Hcov). rewrite Hik in Hq'.
      change (request s2 de k = Some req') in Hq'. rewrite Hreq, decide_True in Hq' by done.
      injection Hq' as <-. rewrite Ew, Hhole in Hcov by done. done.
Qed.

Lemma mark_status_id b k x : zget (block_status b) k = Some x → mark_status k x b = b.
Proof.
  intros Hz. unfold mark_status. replace (<[Z.to_nat k := x]> (block_status b)) with (block_status b);
    [by destruct b|]. symmetry. apply list_insert_id. unfold zget in Hz. by case_decide.
Qed.

(** The bytes of a waiting block that come from the lower file. *)
Lemma waiting_from_lower w rq b k req i :
  k = i / BLOCK_SIZE + 1 → k ≤ block_count b → zget (block_status b) k = Some COPYING → rq k = Some req →
  async_from_upper (lsize w ino) b rq i = false ↔ req_covers (lsize w ino) req i = true.
Proof.
  intros -> Hk Hst Hq. rewrite (from_upper_status _ _ _ _ _ COPYING eq_refl) by done.
  change (COPYING =? UNCOPY) with false. change (COPYING =? COPYING) with true. cbn.
  rewrite Hq. by rewrite negb_false_iff.
Qed.

Lemma trim_pending_wp s b k p q hole req :
  ainv s Vs → as_d_inode s !! de = Some ino → as_oi s !! ino = Some b →
  1 ≤ k ≤ block_count b → zget (block_status b) k = Some COPYING → request s de k = Some req →
  trims p q req → 0 ≤ p ≤ q → p < q ∨ p ≤ req_offset req → q < two64 → (∀ i, fv_ahead (Vs ino) i = false) →
  (∀ i, p ≤ i < q → fv_claim (Vs ino) i = false) →
  (∀ i, 0 ≤ i → i / BLOCK_SIZE + 1 = k → i < lsize (as_w s) ino → hole i = true → p ≤ i < q) →
  awp (trim_pending hash_min de ino k p (q - p)) s (λ _ s',
    ainv s' Vs ∧ touches s s' k ∧ waits s' k hole).
Proof.
  intros Hinv Hde Hb Hk Hst Hq Htr Hp Hpq0 Hq64 Hah Hcl Hhole.
  pose proof (copied_of_waiting _ _ _ _ _ _ _ _ k Hinv Hde Hb) as Hok.
  destruct (fo_copying _ _ _ _ _ _ _ Hok k Hk Hst) as (req0 & Hq0 & Hro). assert (req0 = req) as -> by congruence.
  pose proof Hro as [Ha Hl He Hu Hlo]. pose proof (fo_bounds _ _ _ _ _ _ _ Hok) as [_ Hlb].
  pose proof (fo_size _ _ _ _ _ _ _ Hok) as Hsz. unfold block_start, max_file, BLOCK_SIZE in *.
  assert (0 ≤ req_offset req) by lia. assert (req_end req < two64) by (unfold req_end, two64; lia).
  pose proof (trim_spec p q req Htr Hp Hpq0 Hq64 ltac:(done) Hl ltac:(done)) as Hspec.
  unfold trim_pending. apply awp_get. change (List.find _ _) with (request s de k). rewrite Hq.
  destruct (touches_request p (q - p) req); cycle 1.
  { split_and!; auto using touches_refl. exists b, COPYING. split_and!; [done|done|done|].
    intros i Hi Hik Hh (_ & _ & req' & Hq' & Hc). unfold BLOCK_SIZE in *. rewrite Hik in Hq'.
    assert (req' = req) as -> by congruence. apply req_covers_spec in Hc as [Hc Hc'].
    specialize (Hhole i Hi Hik Hc' Hh). lia. }
  destruct Hspec as (req' & Etr & Ed' & Ek' & Ho' & Hl' & He' & Hset).
  apply (awp_lift _ _ req'); [done|]. apply awp_set. set (s1 := set_bucket _ _ s).
  pose proof (request_is_req _ _ _ _ _ Hq) as (Hin & Erd & Erk).
  assert (∀ de' j, request s1 de' j = if decide (de' = de ∧ j = k) then Some req' else request s de' j) as Hreq.
  { intros de' j. subst s1. rewrite request_set_bucket. case_decide as Eh.
    - case_decide as Ed.
      + destruct Ed as [-> ->]. eapply find_update_first; [exact Hq|]. by apply is_req_spec; split; congruence.
      + rewrite find_update_other.
        * unfold AsyncInv.request. by rewrite Eh.
        * intros z [E1 E2]%is_req_spec. destruct (is_req de' j z) eqn:E; [|done]. apply is_req_spec in E. naive_solver.
        * destruct (is_req de' j req') eqn:E; [|done]. apply is_req_spec in E. naive_solver congruence.
    - by rewrite decide_False by (intros [_ ->]; done). }
  assert (∀ h r, r ∈ bucket s1 h → r ∈ bucket s h ∨ (h = hash_min k ∧ req_dentry r = de ∧ req_block_id r = k)) as Hbk.
  { intros h r. subst s1. rewrite bucket_set_bucket. case_decide as Eh; [|by left]. subst h.
    intros [->|?]%elem_of_update_first; [right|by left]. split_and!; congruence. }
  assert (∀ i, 0 ≤ i → i / 4096 + 1 = k → file_src lower_of (as_w s) (request s de) ino b (Vs ino) i = false →
    req_covers (lsize (as_w s) ino) req i = true) as Hcov.
  { intros i Hi Hik [Es _]%orb_false_iff.
    by apply (waiting_from_lower (as_w s) (request s de) b k req i (eq_sym Hik) (proj2 Hk) Hst Hq). }
  assert (∀ j, j ≠ k → request s1 de j = request s de j) as Hrj
    by (intros; rewrite Hreq, decide_False; naive_solver).
  assert (∀ de' j, de' ≠ de → request s1 de' j = request s de' j) as Hrd
    by (intros; rewrite Hreq, decide_False; naive_solver).
  destruct (Z.eqb_spec (req_len req') 0) as [Ez|Ez].
  - eapply awp_set_status; [exact Hb|rewrite (fo_array _ _ _ _ _ _ _ Hok); lia|]. set (s2 := set_as_oi _ s1).
    split_and!.
    + eapply (section_step s s2 b (mark_status k COPIED b) k); eauto.
      eapply mark_copied_ok; eauto. intros i Hi Hik Hci Es.
      pose proof (proj1 (req_covers_spec _ _ _) (Hcov i Hi Hik Es)) as [Hin1 _].
      destruct (decide (p ≤ i < q)) as [Hpq|Hpq]; [rewrite Hcl in Hci by done; done|].
      pose proof (proj2 (Hset i) (conj Hin1 Hpq)). unfold req_end in *. lia.
    + split; auto. intros b2 Hb2. exists (mark_status k COPIED b). subst s2; cbn. rewrite lookup_insert_eq.
      assert (b2 = b) as -> by congruence. split_and!; try done. intros j Hj.
      rewrite zget_insert by (rewrite (fo_array _ _ _ _ _ _ _ Hok); lia). by rewrite decide_False by congruence.
    + exists (mark_status k COPIED b), COPIED. subst s2; cbn -[AsyncInv.request]. rewrite lookup_insert_eq.
      assert (zget (<[Z.to_nat k:=COPIED]> (block_status b)) k = Some COPIED) as Ez2.
      { rewrite zget_insert by (rewrite (fo_array _ _ _ _ _ _ _ Hok); lia). by rewrite decide_True. }
      split_and!; [done|done|done|]. intros i Hi Hik Hh (_ & Hps & _). rewrite Hik in Hps. cbn in Hps. rewrite Ez2 in Hps. done.
  - cbn. assert (file_ok (as_w s) (request s1 de) ino b (Vs ino)) as Hok1.
    { rewrite <- (mark_status_id b k COPYING) by done.
      eapply (set_request_ok _ _ _ (request s de) _ _ _ _ _ COPYING req'); eauto.
      - split; unfold block_start, BLOCK_SIZE, req_end in *; try lia; done.
      - by rewrite Hreq, decide_True.
      - intros i Hi Hik Es Hc. left. pose proof (proj1 (req_covers_spec _ _ _) (Hcov i Hi Hik Es)) as [Hin1 Hin2].
        destruct (decide (p ≤ i < q)) as [Hpq|Hpq]; [by apply Hcl|].
        rewrite (proj2 (req_covers_spec _ _ _)) in Hc; [done|]. split; [by apply Hset|done].
      - intros i Hi Hik [Hc1 Hc2]%req_covers_spec. split; [|apply Hah].
        apply (waiting_from_lower (as_w s) (request s de) b k req i (eq_sym Hik) (proj2 Hk) Hst Hq).
        apply req_covers_spec. split; [by apply Hset|done]. }
    split_and!.
    + eapply (section_step s s1 b b k); eauto. by rewrite insert_id.
    + split; auto. intros b2 Hb2. exists b2. split_and!; auto.
    + exists b, COPYING. split_and!; [done|done|done|]. intros i Hi Hik Hh (_ & _ & req2 & Hq2 & Hc2).
      unfold BLOCK_SIZE in Hik. unfold BLOCK_SIZE in Hq2. rewrite Hik, Hreq, decide_True in Hq2 by done.
      injection Hq2 as <-. apply req_covers_spec in Hc2 as [Hc2 Hc3]. apply Hset in Hc2 as [_ Hc2].
      apply Hc2. apply Hhole; auto.
Qed.
End border.
