(* ===== verification/AsyncProps.v ===== *)
(** Asynchronous reads and writes against a copy thread that may run at every
    point between their steps: a write that fits the tests of the code does to
    the file what a write to a plain file does, a read returns what the file
    shows, and the thread changes nothing that is shown. *)

From S2P Require Import Prelude Vfs Types Util Block BlockView BlockWrite BlockWriteSpec BlockRead BlockStore Kernel Action Async AsyncInv AsyncSteps AsyncRead AsyncWrite.

Section writer.
Context {W : Type} `{VfsLaws W} `{!VfsReliable W}.
Context (hash_min : Z → Z) (upper_of lower_of : Z → Z).
Implicit Types (w : W) (b : ovl_blocks) (s : astate W) (v : fview) (Vs : Z → fview)
  (req : block_copy_req) (ino de k : Z) (F d : list byte).
Local Abbreviation ainv := (ainv hash_min upper_of lower_of).
Local Abbreviation request := (request hash_min).
Local Abbreviation file_ok := (file_ok upper_of lower_of).
Local Abbreviation settles := (settles hash_min lower_of).
Local Abbreviation act := (action (astate W)).
Local Abbreviation lsize w ino := (zlen (vfs_bytes w (lower_of ino))).

Context (others : Z → act unit) `{!Bystanders hash_min upper_of lower_of others}.
Context (Vs : Z → fview) (de ino : Z) (F : list byte) (pos : Z) (d : list byte).
Context (HF : Vs ino = settled F).
Context (Hpos : 0 ≤ pos) (Hd : 0 < zlen d).

Local Abbreviation n := (zlen d).
Local Abbreviation hole := (in_range pos n).
Local Abbreviation sb := (pos / BLOCK_SIZE + 1).
Local Abbreviation eb := ((pos + n) / BLOCK_SIZE + 1).

(** While the write is prepared its bytes are not claimed. *)
Definition V1 : Z → fview := put_view ino (FView F (λ i, negb (hole i)) (λ _, false)) Vs.
(** Once they are written they are ahead of the marks. *)
Definition V2 : Z → fview := put_view ino (FView (fwrite F pos d) (λ _, true) hole) Vs.
Definition V3 : Z → fview := put_view ino (settled (fwrite F pos d)) Vs.

Lemma V1_ahead i : fv_ahead (V1 ino) i = false.
Proof. unfold V1. by rewrite put_view_eq. Qed.
Lemma V1_claim i : fv_claim (V1 ino) i = negb (hole i).
Proof. unfold V1. by rewrite put_view_eq. Qed.

(** A view of one file for another, in a state that stays. *)
Lemma ainv_view s v Vs0 v0 :
  ainv s (put_view ino v0 Vs0) → as_d_inode s !! de = Some ino →
  (∀ b, as_oi s !! ino = Some b → file_ok (as_w s) (request s de) ino b v0 →
     file_ok (as_w s) (request s de) ino b v) →
  ainv s (put_view ino v Vs0).
Proof.
  intros Hinv Hde Hv. pose proof Hinv as []. split; auto. intros de2 ino2 E2.
  destruct (ai_files de2 ino2 E2) as (b & Hb & Hok). exists b. split; [done|].
  destruct (decide (ino2 = ino)) as [->|Hn].
  - rewrite put_view_eq in *. assert (de2 = de) as -> by eauto. by apply Hv.
  - by rewrite put_view_ne in * by done.
Qed.

Lemma prepare_view s : ainv s Vs → as_d_inode s !! de = Some ino → ainv s V1.
Proof.
  intros Hinv Hde. apply (ainv_view s _ _ (Vs ino)); [|done|].
  - eapply ainv_ext; [|exact Hinv]. intros j. apply put_view_id.
  - intros b _ Hok. rewrite HF in Hok.
    by apply (file_ok_less _ _ _ _ _ _ (settled F) (λ i, negb (hole i))).
Qed.

Local Abbreviation under := (underway hash_min upper_of lower_of).

Lemma under_file Vs0 s : under Vs0 de ino s →
  ∃ b, as_oi s !! ino = Some b ∧ file_ok (as_w s) (request s de) ino b (Vs0 ino) ∧
       0 < upper_file b ∧ 0 < lower_file b.
Proof.
  intros [Hinv _ Hde (b & Hb & Hu & Hl)]. exists b. split_and!; auto.
  by apply (copied_of_waiting _ _ _ _ _ _ _ _ 0 Hinv Hde).
Qed.

Lemma meanwhile {B} Vs0 s p (f : unit → act B) Q :
  under Vs0 de ino s → (∀ s', under Vs0 de ino s' → settles s s' → awp (f tt) s' Q) →
  awp (others p ≫= f) s Q.
Proof. intros Hu Hf. by eapply (others_wp hash_min upper_of lower_of others Vs0 de ino). Qed.

(** ** The border sections *)

Local Abbreviation touches := (touches hash_min de ino).
Local Abbreviation waits := (waits hash_min lower_of de ino).

Lemma touches_locks s l s' k :
  touches (set_as_locks l s) s' k → touches s (set_as_locks (as_locks s) s') k.
Proof. intros []. by split. Qed.
Lemma waits_locks s l k h : waits s k h → waits (set_as_locks l s) k h.
Proof. intros (b & st & ?). by exists b, st. Qed.

Lemma under_touches Vs0 s s' k :
  under Vs0 de ino s → ainv s' Vs0 → touches s s' k → under Vs0 de ino s'.
Proof.
  intros [_ Hl Hde (b & Hb & Hu & Hlo)] Hinv [Ew Ed El Hbl Hr]. split; auto; try congruence.
  destruct (Hbl b Hb) as (b' & Hb' & _ & E1 & E2 & _). exists b'. rewrite E1, E2. done.
Qed.

(** The end of a section: the lock is given back. *)
Lemma unlock_section {A} s s1 h k (a : A) (Q : A → Prop) (R : astate W → Prop) Vs0 :
  under Vs0 de ino s → ainv s1 Vs0 → touches (set_as_locks {[h]} s) s1 k →
  (∀ l, R (set_as_locks l s1)) → Q a →
  awp (spin_unlock h;; mret a) s1 (λ a s',
    Q a ∧ under Vs0 de ino s' ∧ touches s s' k ∧ R s').
Proof.
  intros Hu Hinv Ht HR HQ. apply awp_spin_unlock; [by rewrite (tc_locks _ _ _ _ _ _ Ht)|].
  pose proof (touches_locks _ _ _ _ Ht) as Ht'. rewrite (uw_locks _ _ _ _ _ _ _ Hu) in Ht'.
  assert (ainv (set_as_locks ∅ s1) Vs0) as Hi by (by eapply ainv_same).
  split_and!; auto. by eapply under_touches.
Qed.

Lemma block_start_u64 k : 1 ≤ k < 4294967297 → u64 (u64 (k - 1) * BLOCK_SIZE) = block_start k.
Proof. intros. unfold block_start, BLOCK_SIZE. rewrite (u64_small (k - 1)), u64_small by (unfold two64; lia). done. Qed.

(** What the first block still waits for must not be cut in two by the write. *)
Definition start_fits s : Prop :=
  block_start sb < pos → ∀ b req, as_oi s !! ino = Some b → sb ≤ block_count b → zget (block_status b) sb = Some COPYING →
    request s de sb = Some req → pos < req_offset req → req_end req = sb * BLOCK_SIZE.
Definition end_fits s : Prop :=
  ∀ b req, as_oi s !! ino = Some b → eb ≤ block_count b → zget (block_status b) eb = Some COPYING →
    request s de eb = Some req → block_start eb < req_offset req →
    pos + n ≤ req_offset req ∨ pos + n ≤ req_end req.

Lemma start_section_wp s b :
  under V1 de ino s → as_oi s !! ino = Some b → eb ≤ block_count b →
  (block_start sb < pos → sb < eb) → start_fits s →
  awp (start_section hash_min true de ino sb pos) s (λ res s',
    res = (0, if decide (block_start sb < pos) then 1 else 0) ∧ under V1 de ino s' ∧
    touches s s' (if decide (block_start sb < pos) then sb else 0) ∧
    (block_start sb < pos → waits s' sb hole)).
Proof.
  intros Hu Hb Heb Hse Hfit. destruct (under_file V1 s Hu) as (b0 & Hb0 & Hok & Hup & Hlo).
  assert (b0 = b) as -> by congruence. pose proof (fo_count32 _ _ _ _ _ _ _ Hok) as H32.
  pose proof (fo_bounds _ _ _ _ _ _ _ Hok) as [Hbc Hlast].
  assert (1 ≤ sb ≤ eb) as Hsb by (unfold BLOCK_SIZE; lia).
  assert (pos < two64 ∧ sb * BLOCK_SIZE < two64) as [Hp64 Hs64] by (unfold two64, BLOCK_SIZE in *; lia).
  unfold start_section. rewrite block_start_u64, (u64_small pos) by lia.
  pose proof (uw_inode _ _ _ _ _ _ _ Hu) as Hde.
  apply awp_spin_lock; [apply Hu|]. set (s0 := set_as_locks _ s).
  assert (ainv s0 V1) as Hi0 by (eapply ainv_same; [apply Hu|done..]).
  destruct (Z.ltb_spec (block_start sb) pos) as [Hlt|Hge]; cycle 1.
  { rewrite !decide_False by lia. apply awp_mret.
    eapply (unlock_section s s0 (hash_min sb) 0 _ (λ a, a = (0, 0)) (λ s', block_start sb < pos → waits s' sb hole) V1); auto.
    - by apply touches_refl.
    - lia. }
  rewrite !decide_True by done. specialize (Hse Hlt).
  destruct (fo_lookup _ _ _ _ _ _ _ sb Hok ltac:(lia)) as (st & Hst & Hcase).
  apply awp_assoc. eapply (awp_get_status s0); [done..|].
  assert (∀ m : act (Z * Z), awp m s0 (λ a s1, a = (0, 1) ∧ ainv s1 V1 ∧ touches s0 s1 sb ∧ waits s1 sb hole) →
    awp (m ≫= λ '(err, part), spin_unlock (hash_min sb);; mret (err, part)) s0 (λ res s',
      res = (0, 1) ∧ under V1 de ino s' ∧ touches s s' sb ∧ (block_start sb < pos → waits s' sb hole))) as Hend.
  { intros m Hm. eapply awp_seq; [exact Hm|]. intros a s1 (-> & Hi1 & Ht1 & Hw1). cbn beta iota.
    eapply (unlock_section s s1 (hash_min sb) sb _ (λ a, a = (0, 1)) (λ s', block_start sb < pos → waits s' sb hole) V1); auto. }
  apply Hend. unfold block_start in *.
  destruct Hcase as [->|[->| ->]].
  - change (UNCOPY =? UNCOPY) with true. cbn iota. rewrite (u64_small (pos - _)) by (unfold two64, BLOCK_SIZE in *; lia).
    eapply awp_seq; [eapply (new_request_wp hash_min upper_of lower_of V1 de ino s0 b sb _ _ true hole); auto|].
    + lia.
    + split; cbn; unfold block_start, BLOCK_SIZE in *; auto; lia.
    + intros i. by rewrite V1_ahead.
    + intros i Hi Hik Hc. left. rewrite V1_claim. apply negb_false_iff, in_range_spec.
      destruct (decide (pos ≤ i)); [unfold BLOCK_SIZE in *; lia|]. exfalso.
      rewrite (proj2 (req_covers_spec _ _ i)) in Hc; [done|]. unfold req_end; cbn. change (as_w s0) with (as_w s). unfold BLOCK_SIZE in *. lia.
    + intros i Hi Hh%in_range_spec. destruct (req_covers _ _ i) eqn:Ec; [|done].
      apply req_covers_spec in Ec as [Ec _]. unfold req_end in Ec; cbn in Ec. lia.
    + intros e s1 (-> & Hi1 & Ht1 & Hw1). by split_and!.
  - change (COPIED =? UNCOPY) with false. change (COPIED =? COPYING) with false. cbn iota.
    split_and!; auto; [by apply touches_refl|]. exists b, COPIED. split_and!; [done|done|done|].
    intros i Hi Hik _ (_ & Hps & _). rewrite Hik, Hst in Hps. done.
  - change (COPYING =? UNCOPY) with false. change (COPYING =? COPYING) with true. cbn iota.
    unfold lower_i_size. apply awp_assoc, awp_assoc. eapply (awp_get_oi s0); [done|]. apply awp_assoc, awp_get.
    destruct (fo_lcache _ _ _ _ _ _ _ Hok) as [?|(_ & _ & Hli)]; [unfold NULL in *; lia|].
    eapply (awp_lift s0 _ (lsize (as_w s) ino)).
    { unfold file_i_size, i_size. change (as_w s0) with (as_w s). by rewrite (proj2 (ptr_ok_pos _) Hlo), Hli. }
    rewrite (u64_small (lsize (as_w s) ino - pos)), (u64_small (sb * BLOCK_SIZE - pos)), Z.min_r
      by (unfold two64, BLOCK_SIZE in *; lia).
    destruct (fo_copying _ _ _ _ _ _ _ Hok sb ltac:(lia) Hst) as (req & Hq & [Ha Hl He _ _]).
    eapply awp_seq; [eapply (trim_pending_wp hash_min upper_of lower_of V1 de ino s0 b sb pos (sb * BLOCK_SIZE) hole req); auto|].
    + lia.
    + specialize (Hfit Hlt b req Hb ltac:(lia) Hst Hq). unfold trims, req_end, block_start in *. lia.
    + unfold BLOCK_SIZE in *. lia.
    + left. lia.
    + intros i. by rewrite V1_ahead.
    + intros i Hi. rewrite V1_claim. apply negb_false_iff, in_range_spec. unfold BLOCK_SIZE in *. lia.
    + intros i Hi Hik _ Hh%in_range_spec. unfold BLOCK_SIZE in *. lia.
    + intros [] s1 (Hi1 & Ht1 & Hw1). by split_and!.
Qed.

Lemma end_section_wp s b :
  under V1 de ino s → as_oi s !! ino = Some b → eb ≤ block_count b →
  pos ≤ block_start eb → end_fits s →
  awp (end_section hash_min true de ino eb pos n) s (λ res s',
    res = (0, 1) ∧ under V1 de ino s' ∧ touches s s' eb ∧ waits s' eb hole).
Proof.
  intros Hu Hb Heb Hse Hfit. destruct (under_file V1 s Hu) as (b0 & Hb0 & Hok & Hup & Hlo).
  assert (b0 = b) as -> by congruence. pose proof (fo_count32 _ _ _ _ _ _ _ Hok) as H32.
  pose proof (fo_bounds _ _ _ _ _ _ _ Hok) as [Hbc Hlast].
  assert (1 ≤ eb) as Hsb by (unfold BLOCK_SIZE; lia).
  assert (block_start eb ≤ pos + n < eb * BLOCK_SIZE ∧ eb * BLOCK_SIZE < two64 ∧ block_start eb < lsize (as_w s) ino ∧
    lsize (as_w s) ino < two64)
    as (Hin & Hs64 & Hll & Hl64) by (unfold block_start, two64, BLOCK_SIZE in *; lia).
  unfold end_section. rewrite (u64_small (pos + n)), (u64_small (eb * BLOCK_SIZE)) by lia.
  pose proof (uw_inode _ _ _ _ _ _ _ Hu) as Hde.
  apply awp_spin_lock; [apply Hu|]. set (s0 := set_as_locks _ s).
  assert (ainv s0 V1) as Hi0 by (eapply ainv_same; [apply Hu|done..]).
  rewrite (proj2 (Z.ltb_lt _ _)) by lia.
  destruct (fo_lookup _ _ _ _ _ _ _ eb Hok ltac:(lia)) as (st & Hst & Hcase).
  apply awp_assoc. eapply (awp_get_status s0); [done..|].
  assert (∀ m : act (Z * Z), awp m s0 (λ a s1, a = (0, 1) ∧ ainv s1 V1 ∧ touches s0 s1 eb ∧ waits s1 eb hole) →
    awp (m ≫= λ '(err, part), spin_unlock (hash_min eb);; mret (err, part)) s0 (λ res s',
      res = (0, 1) ∧ under V1 de ino s' ∧ touches s s' eb ∧ waits s' eb hole)) as Hend.
  { intros m Hm. eapply awp_seq; [exact Hm|]. intros a s1 (-> & Hi1 & Ht1 & Hw1). cbn beta iota.
    eapply (unlock_section s s1 (hash_min eb) eb _ (λ a, a = (0, 1)) (λ s', waits s' eb hole) V1); auto. }
  apply Hend. destruct Hcase as [->|[->| ->]].
  - change (UNCOPY =? UNCOPY) with true. cbn iota. rewrite (u64_small (eb * BLOCK_SIZE - _)) by lia.
    eapply awp_seq; [eapply (new_request_wp hash_min upper_of lower_of V1 de ino s0 b eb _ _ false hole); auto|].
    + split; cbn; unfold block_start, BLOCK_SIZE in *; auto; lia.
    + intros i. by rewrite V1_ahead.
    + intros i Hi Hik Hc. destruct (decide (lsize (as_w s) ino ≤ i)) as [|Hnl]; [by right|left].
      rewrite V1_claim. apply negb_false_iff, in_range_spec.
      destruct (decide (i < pos + n)) as [|Hni]; [unfold block_start, BLOCK_SIZE in *; lia|]. exfalso.
      rewrite (proj2 (req_covers_spec _ _ i)) in Hc; [done|]. unfold req_end; cbn. change (as_w s0) with (as_w s).
      unfold BLOCK_SIZE in *. lia.
    + intros i Hi Hh%in_range_spec. destruct (req_covers _ _ i) eqn:Ec; [|done].
      apply req_covers_spec in Ec as [Ec _]. unfold req_end in Ec; cbn in Ec. lia.
    + intros e s1 (-> & Hi1 & Ht1 & Hw1). by split_and!.
  - change (COPIED =? UNCOPY) with false. change (COPIED =? COPYING) with false. cbn iota.
    split_and!; auto; [by apply touches_refl|]. exists b, COPIED. split_and!; [done|done|done|].
    intros i Hi Hik _ (_ & Hps & _). rewrite Hik, Hst in Hps. done.
  - change (COPYING =? UNCOPY) with false. change (COPYING =? COPYING) with true. cbn iota.
    unfold lower_i_size. apply awp_assoc, awp_assoc. eapply (awp_get_oi s0); [done|]. apply awp_assoc, awp_get.
    destruct (fo_lcache _ _ _ _ _ _ _ Hok) as [?|(_ & _ & Hli)]; [unfold NULL in *; lia|].
    eapply (awp_lift s0 _ (lsize (as_w s) ino)).
    { unfold file_i_size, i_size. change (as_w s0) with (as_w s). by rewrite (proj2 (ptr_ok_pos _) Hlo), Hli. }
    rewrite block_start_u64, (u64_small (lsize (as_w s) ino - _)), (u64_small (pos + n - _)) by lia.
    set (q := Z.min (lsize (as_w s) ino) (pos + n)).
    assert (Z.min (lsize (as_w s) ino - block_start eb) (pos + n - block_start eb) = q - block_start eb) as -> by lia.
    destruct (fo_copying _ _ _ _ _ _ _ Hok eb ltac:(lia) Hst) as (req & Hq & [Ha Hl He _ _]).
    eapply awp_seq; [eapply (trim_pending_wp hash_min upper_of lower_of V1 de ino s0 b eb (block_start eb) q hole req); auto|].
    + specialize (Hfit b req Hb Heb Hst Hq). unfold trims, req_end in *. lia.
    + unfold block_start, BLOCK_SIZE in *. lia.
    + lia.
    + intros i. by rewrite V1_ahead.
    + intros i Hi. rewrite V1_claim. apply negb_false_iff, in_range_spec. lia.
    + intros i Hi Hik Hil Hh%in_range_spec. change (as_w s0) with (as_w s) in Hil. unfold block_start, BLOCK_SIZE in *. lia.
    + intros [] s1 (Hi1 & Ht1 & Hw1). by split_and!.
Qed.

(** ** A write inside one block *)

Definition copied_at s s' k : Prop :=
  vfs_frame (as_w s) (as_w s') ∧ as_d_inode s' = as_d_inode s ∧ ∃ b b', as_oi s !! ino = Some b ∧ as_oi s' !! ino = Some b' ∧
    block_count b' = block_count b ∧ zget (block_status b') k = Some COPIED.

(** The copy goes on to the end of the lower file: nothing may be copied there. *)
Definition single_fits s : Prop :=
  ∀ b, as_oi s !! ino = Some b → zget (block_status b) sb = Some UNCOPY →
    ∀ k, sb < k ≤ block_count b → zget (block_status b) k = Some UNCOPY.

Lemma unlock_copied s s1 b b1 h {A} (a : A) (Q : A → Prop) :
  under V1 de ino s → ainv s1 V1 → vfs_frame (as_w s) (as_w s1) → as_oi s !! ino = Some b → block_count b1 = block_count b → as_d_inode s1 = as_d_inode s → as_locks s1 = {[h]} →
  as_oi s1 !! ino = Some b1 → 0 < upper_file b1 → 0 < lower_file b1 →
  zget (block_status b1) sb = Some COPIED → Q a →
  awp (spin_unlock h;; mret a) s1 (λ a s', Q a ∧ under V1 de ino s' ∧ copied_at s s' sb).
Proof.
  intros Hu Hinv Hfr Hb0 Ec Ed El Hb Hup Hlo Hst HQ. apply awp_spin_unlock; [done|].
  split_and!; [done| |by split_and!; [..|exists b, b1]].
  split; cbn; [by eapply ainv_same|done| |by exists b1]. rewrite Ed. apply Hu.
Qed.

Lemma single_section_wp s b :
  under V1 de ino s → as_oi s !! ino = Some b → 1 ≤ sb ≤ block_count b → single_fits s →
  awp (single_section hash_min de ino sb) s (λ ret s', ret = 0 ∧ under V1 de ino s' ∧ copied_at s s' sb).
Proof.
  intros Hu Hb Hsb Hfit. destruct (under_file V1 s Hu) as (b0 & Hb0 & Hok & Hup & Hlo).
  assert (b0 = b) as -> by congruence. pose proof (fo_count32 _ _ _ _ _ _ _ Hok) as H32.
  pose proof (fo_bounds _ _ _ _ _ _ _ Hok) as [Hbc Hlast].
  pose proof (uw_inode _ _ _ _ _ _ _ Hu) as Hde. pose proof (uw_inv _ _ _ _ _ _ _ Hu) as Hinv.
  assert (0 ≤ sb < zlen (block_status b)) as Hrange by (rewrite (fo_array _ _ _ _ _ _ _ Hok); lia).
  assert (upper_of ino ≠ lower_of ino) as Hne by (apply (ai_lowers _ _ _ _ _ Hinv); eauto).
  destruct (fo_lookup _ _ _ _ _ _ _ sb Hok ltac:(lia)) as (st & Hst & Hcase).
  unfold single_section. apply awp_spin_lock; [apply Hu|]. set (s0 := set_as_locks _ s).
  assert (ainv s0 V1) as Hi0 by (by eapply ainv_same).
  eapply (awp_get_status s0); [done..|]. destruct Hcase as [->|[->| ->]].
  - change (UNCOPY =? UNCOPY) with true. cbn iota. unfold lower_i_size.
    apply awp_assoc, awp_assoc. eapply (awp_get_oi s0); [done|]. apply awp_assoc, awp_get.
    destruct (fo_lcache _ _ _ _ _ _ _ Hok) as [?|(_ & _ & Hli)]; [unfold NULL in *; lia|].
    eapply (awp_lift s0 _ (lsize (as_w s) ino)).
    { unfold file_i_size, i_size. change (as_w s0) with (as_w s). by rewrite (proj2 (ptr_ok_pos _) Hlo), Hli. }
    rewrite block_start_u64 by lia. apply awp_assoc.
    eapply (copy_block_wp hash_min upper_of lower_of s0); [done|done|apply Hok|apply Hok|done|done| | |].
    { unfold block_start, BLOCK_SIZE in *. lia. } { unfold two64, BLOCK_SIZE in *. lia. }
    intros w' Hdone. change (0 <? 0) with false. cbn iota. apply awp_assoc.
    eapply awp_bind, (awp_set_status _ ino b); [done|done|]. apply awp_mret, awp_mret.
    set (s2 := set_as_oi _ _).
    assert (∀ i, block_start sb ≤ i → i < lsize (as_w s) ino → 0 ≤ i →
      file_src lower_of (as_w s) (request s de) ino b (V1 ino) i = false) as Hlow.
    { intros i Hi Hil Hi0'. unfold file_src. rewrite V1_ahead, orb_false_r.
      assert (sb ≤ i / BLOCK_SIZE + 1 ≤ block_count b) as Hk by (unfold block_start, BLOCK_SIZE in *; lia).
      assert (zget (block_status b) (i / BLOCK_SIZE + 1) = Some UNCOPY) as Hs.
      { destruct (decide (i / BLOCK_SIZE + 1 = sb)) as [->|]; [done|]. apply Hfit; auto. lia. }
      by rewrite (from_upper_status _ _ _ _ _ UNCOPY eq_refl) by (done || lia). }
    assert (0 ≤ block_start sb) as Hs0 by (unfold block_start, BLOCK_SIZE in *; lia).
    destruct (copy_keeps_file upper_of lower_of (as_w s) w' (request s de) ino b (V1 ino)
      (block_start sb) (lsize (as_w s) ino)) as [Hok1 Hcp]; auto.
    { intros i Hi Hil. apply Hlow; lia. }
    pose proof Hdone as (m & Hfr & _ & _ & _ & _ & Hoth).
    assert (vfs_bytes w' (lower_of ino) = vfs_bytes (as_w s) (lower_of ino)) as El by (apply Hoth; congruence).
    assert (ainv s2 V1) as Hi2.
    { apply (ainv_ext _ _ _ _ (put_view ino (V1 ino) V1)); [intros j; by rewrite put_view_id|].
      eapply (ainv_update _ _ _ s V1 de ino b (mark_status sb COPIED b) (V1 ino) w'); eauto.
      - apply (ai_hash _ _ _ _ _ Hinv).
      - intros h req Hin. right. by exists req, h.
      - apply (mark_copied_ok upper_of lower_of w' (request s de)); auto.
        intros i Hi Hik _ Hs. destruct (decide (i < lsize (as_w s) ino)) as [Hil|Hil].
        + apply Hcp; [|done]. unfold block_start, BLOCK_SIZE in *. lia.
        + rewrite (zget_None (vfs_bytes w' (lower_of ino))) by (rewrite El; lia).
          apply (fo_unwritten _ _ _ _ _ _ _ Hok1); [rewrite El; lia|done]. }
    eapply (unlock_copied s s2 b (mark_status sb COPIED b)); auto.
    + subst s2; cbn. by rewrite lookup_insert_eq.
    + unfold mark_status. by rewrite zget_status_insert, decide_True.
  - change (COPIED =? UNCOPY) with false. change (COPIED =? COPYING) with false. cbn iota.
    apply awp_mret. by eapply (unlock_copied s s0 b b); eauto with ovl.
  - change (COPYING =? UNCOPY) with false. change (COPYING =? COPYING) with true. cbn iota.
    destruct (fo_copying _ _ _ _ _ _ _ Hok sb Hsb Hst) as (req & Hq & _).
    unfold speed_block_copy. apply awp_assoc. eapply awp_inode_of; [done|].
    apply awp_assoc, awp_get. change (List.find _ _) with (request s de sb). rewrite Hq.
    apply awp_assoc. eapply (copy_and_mark _ _ _ s0); eauto. intros w' Hdone s1 Hi1 Hs1.
    change (0 <? 0) with false. cbn iota. apply awp_assoc.
    eapply awp_bind, (awp_set_status _ ino b); [done|done|]. fold s1. apply awp_mret.
    pose proof Hdone as (m & Hfr & _). eapply (unlock_copied s s1 b (mark_status sb COPIED b)); auto.
    + subst s1; cbn. by rewrite lookup_insert_eq.
    + unfold mark_status. by rewrite zget_status_insert, decide_True.
Qed.

(** ** The write and the marks *)

Lemma write_loop_full fuel w f u :
  vfs_isopen w f = true → vfs_append w f = false → vfs_inode w f = u → n < two64 →
  ∃ w', write_loop (S fuel) w f 0 pos d = Ret (n, pos + n, w') ∧ vfs_frame w w' ∧
        set_bytes w w' u (fwrite (vfs_bytes w u) pos d).
Proof.
  intros Ho Ha Hi Hn. destruct (write_loop_reliable fuel w f pos d Hpos (conj Hd Hn)) as (p' & w' & E).
  pose proof (write_loop_spec u (S fuel) w w f pos 0 d Ho Ha Hi (frame_refl w) Hpos ltac:(lia) Hn) as HL.
  rewrite Z.add_0_r in HL. change (zdrop 0 d) with d in HL. rewrite E in HL.
  destruct HL as (m & Hm & Hfr & Hset & [?|(Em & -> & _)]); [by split|lia|].
  rewrite <- Em in *.
  assert (ztake n d = d) as Et by (unfold ztake, zlen; apply firstn_all2; lia). rewrite Et in Hset.
  by exists w'.
Qed.

(** The state in which the data is written: the border blocks are copied or wait
    for other bytes, the blocks between them do not wait at all. *)
Record prepared (first : Z) s : Prop := {
  pr_end b : as_oi s !! ino = Some b → eb ≤ block_count b;
  pr_first : first = if decide (block_start sb < pos) then sb + 1 else sb;
  pr_border k : (k = eb ∨ k = sb ∧ block_start sb < pos) → waits s k hole;
  pr_inner b k : as_oi s !! ino = Some b → first ≤ k < eb → zget (block_status b) k ≠ Some COPYING;
  pr_single b : as_oi s !! ino = Some b → block_start sb < pos → sb = eb →
    zget (block_status b) sb = Some COPIED;
}.

Lemma prepared_settles first s s' Vs0 :
  under Vs0 de ino s → settles s s' → prepared first s → prepared first s'.
Proof.
  intros Hu Hs [P1 P2 P3 P4 P5]. destruct (under_file Vs0 s Hu) as (b & Hb & Hok & _).
  destruct (se_blocks _ _ _ _ Hs ino b Hb) as (b' & Hb' & Ec & _ & _ & _ & Hmono).
  pose proof (P1 b Hb) as Heb.
  assert (1 ≤ sb ≤ eb) as Hsb by (unfold BLOCK_SIZE; lia).
  split; auto.
  - intros b2 Hb2. assert (b2 = b') as -> by congruence. lia.
  - intros k Hk. eapply (waits_settles hash_min upper_of lower_of); eauto; [apply Hu|]. exists b. split; [done|lia].
  - intros b2 k Hb2 Hk. assert (b2 = b') as -> by congruence.
    destruct (Hmono k) as [->|[E _]]; [by apply P4|]. by destruct (P4 b k Hb Hk).
  - intros b2 Hb2 H1 H2. assert (b2 = b') as -> by congruence.
    destruct (Hmono sb) as [->|[_ E]]; [by apply P5|done].
Qed.

(** No byte of the write waits, and all bytes of border blocks that are written
    are shown from the upper file. *)
Lemma prepared_hole first s Vs0 b i :
  under Vs0 de ino s → prepared first s → as_oi s !! ino = Some b → 0 ≤ i → hole i = true →
  ¬ pending (lsize (as_w s) ino) b (request s de) i ∧
  (first ≤ i / BLOCK_SIZE + 1 ≤ eb - 1 ∨ async_from_upper (lsize (as_w s) ino) b (request s de) i = true).
Proof.
  intros Hu [P1 P2 P3 P4 P5] Hb Hi Hh. pose proof Hh as Hr%in_range_spec.
  destruct (under_file Vs0 s Hu) as (b0 & Hb0 & Hok & _). assert (b0 = b) as -> by congruence.
  pose proof (P1 b Hb) as Heb.
  destruct (decide (first ≤ i / BLOCK_SIZE + 1 ≤ eb - 1)) as [Hin|Hin].
  { split; [|by left]. intros (_ & Hst & _). apply (P4 b _ Hb) in Hst; [done|lia]. }
  assert (waits s (i / BLOCK_SIZE + 1) hole) as (b2 & st & Hb2 & Hst & Hne & Hw).
  { apply P3. rewrite P2 in Hin. unfold block_start in *. case_decide; unfold BLOCK_SIZE in *; lia. }
  assert (b2 = b) as -> by congruence. specialize (Hw i Hi eq_refl Hh). split; [done|right].
  assert (1 ≤ i / BLOCK_SIZE + 1 ≤ block_count b) as Hk by (unfold BLOCK_SIZE in *; lia).
  rewrite (from_upper_status _ _ _ _ _ st eq_refl) by (done || lia).
  rewrite (proj2 (Z.eqb_neq st UNCOPY) Hne). destruct (Z.eqb_spec st COPYING) as [->|]; [|done].
  destruct (fo_copying _ _ _ _ _ _ _ Hok _ Hk Hst) as (req & Hq & _). rewrite Hq.
  destruct (req_covers _ req i) eqn:Ec; [|done]. destruct Hw. split_and!; [lia|done|by exists req].
Qed.

Lemma prepared_gap first s Vs0 b i :
  under Vs0 de ino s → prepared first s → as_oi s !! ino = Some b → 0 ≤ i < pos →
  async_from_upper (lsize (as_w s) ino) b (request s de) i = false → i < lsize (as_w s) ino.
Proof.
  intros Hu [P1 P2 P3 P4 P5] Hb Hi Hf. apply Z.nle_gt. intros Hl.
  destruct (under_file Vs0 s Hu) as (b0 & Hb0 & Hok & _). assert (b0 = b) as -> by congruence.
  pose proof (P1 b Hb) as Heb. pose proof (fo_bounds _ _ _ _ _ _ _ Hok) as [Hbc Hlast].
  destruct (decide (block_count b < i / BLOCK_SIZE + 1)) as [Ht|Ht]; [by rewrite from_upper_tail in Hf|].
  assert (i / BLOCK_SIZE + 1 = sb ∧ sb = eb ∧ block_start sb < pos) as (E1 & E2 & E3)
    by (unfold block_start, BLOCK_SIZE in *; lia).
  by rewrite (from_upper_status _ _ _ _ sb COPIED) in Hf by (auto; lia).
Qed.

Definition realfile_of (realfile : Z) s : Prop :=
  vfs_isopen (as_w s) realfile = true ∧ vfs_append (as_w s) realfile = false ∧
  vfs_inode (as_w s) realfile = upper_of ino.

Lemma realfile_frame f s s' : vfs_frame (as_w s) (as_w s') → realfile_of f s → realfile_of f s'.
Proof. intros [fo fi fa _] (Ho & Ha & Hi). split_and!; [by apply fo|by rewrite fa|by rewrite fi]. Qed.

(** The write: from then on the file shows its data. *)
Lemma written_under s w' b :
  under V1 de ino s → prepared (if decide (block_start sb < pos) then sb + 1 else sb) s →
  as_oi s !! ino = Some b → vfs_frame (as_w s) w' →
  set_bytes (as_w s) w' (upper_of ino) (fwrite (vfs_bytes (as_w s) (upper_of ino)) pos d) →
  under V2 de ino (set_as_w w' s) ∧
  prepared (if decide (block_start sb < pos) then sb + 1 else sb) (set_as_w w' s).
Proof.
  intros Hu Hp Hb Hfr Hset. pose proof (uw_inv _ _ _ _ _ _ _ Hu) as Hinv.
  pose proof (uw_inode _ _ _ _ _ _ _ Hu) as Hde. destruct (under_file V1 s Hu) as (b0 & Hb0 & Hok & Hup & Hlo).
  assert (b0 = b) as -> by congruence.
  assert (upper_of ino ≠ lower_of ino) as Hne by (apply (ai_lowers _ _ _ _ _ Hinv); eauto).
  assert (vfs_bytes w' (lower_of ino) = vfs_bytes (as_w s) (lower_of ino)) as El
    by (apply Hset; congruence).
  assert (V1 ino = FView F (λ i, negb (hole i)) (λ _, false)) as EV by (unfold V1; by rewrite put_view_eq).
  assert (ainv (set_as_w w' s) V2) as Hi2.
  { apply (ainv_ext _ _ _ _ (put_view ino (FView (fwrite F pos d) (λ _, true) hole) V1)).
    { intros j. unfold V2, V1, put_view. by repeat case_decide. }
    eapply (ainv_update _ _ _ s V1 de ino b b _ w'); eauto.
    - apply Hset.
    - cbn. by rewrite insert_id.
    - apply (ai_hash _ _ _ _ _ Hinv).
    - intros h req Hin. right. by exists req, h.
    - rewrite EV in Hok. eapply (write_ok upper_of lower_of (as_w s) w'); eauto.
      + intros i Hh. change (negb (hole i) = true). by rewrite Hh.
      + intros i Hi Hf. eapply (prepared_gap _ s V1 b i); eauto.
      + intros i Hh. pose proof Hh as ?%in_range_spec. eapply (prepared_hole _ s V1 b i); eauto. lia. }
  split.
  - destruct Hu as [_ Hl _ Ho]. split; auto.
  - destruct Hp as [P1 P2 P3 P4 P5]. split; auto. intros k Hk.
    destruct (P3 k Hk) as (b2 & st & Hb2 & Hst & Hn & Hw). exists b2, st. split_and!; [done|done|done|].
    cbn. rewrite El. exact Hw.
Qed.

(** The marks: nothing is ahead any more. *)
Lemma marked_inv s b b' first :
  under V2 de ino s → prepared first s → as_oi s !! ino = Some b → marks first (eb - 1) b b' →
  ainv (set_as_oi (<[ino := b']> (as_oi s)) s) V3.
Proof.
  intros Hu Hp Hb Hm. pose proof (uw_inv _ _ _ _ _ _ _ Hu) as Hinv.
  pose proof (uw_inode _ _ _ _ _ _ _ Hu) as Hde. destruct (under_file V2 s Hu) as (b0 & Hb0 & Hok & _).
  assert (b0 = b) as -> by congruence. unfold V2 in Hok. rewrite put_view_eq in Hok.
  apply (ainv_ext _ _ _ _ (put_view ino (settled (fwrite F pos d)) V2)).
  { intros j. unfold V3, V2, put_view. by repeat case_decide. }
  eapply (ainv_update _ _ _ s V2 de ino b b' _ (as_w s)); eauto with ovl.
  - by destruct Hm.
  - apply (ai_hash _ _ _ _ _ Hinv).
  - intros h req Hin. right. by exists req, h.
  - eapply (marks_ok upper_of lower_of); eauto.
    + intros i Hi Hh. apply (prepared_hole first s V2 b i); auto.
    + intros i Hi Hk. apply in_range_spec. destruct Hp as [_ -> _ _ _].
      unfold block_start in *. case_decide; unfold BLOCK_SIZE in *; lia.
Qed.

Lemma finish_wp fuel s realfile :
  under V1 de ino s → prepared (if decide (block_start sb < pos) then sb + 1 else sb) s → realfile_of realfile s →
  awp (async_finish_write others (S fuel) ino realfile 0
         (if decide (block_start sb < pos) then sb + 1 else sb) (eb - 1) pos d) s (λ res s',
    res = (n, pos + n) ∧ ainv s' V3 ∧ as_locks s' = ∅ ∧ as_d_inode s' = as_d_inode s).
Proof.
  intros Hu Hp Hf. remember (if decide _ then _ else _) as first eqn:Efirst.
  unfold async_finish_write. apply (meanwhile V1); [done|]. intros s1 Hu1 Hs1.
  pose proof (prepared_settles _ _ _ _ Hu Hs1 Hp) as Hp1.
  destruct (realfile_frame _ _ _ (se_frame _ _ _ _ Hs1) Hf) as (Ho & Ha & Hi).
  destruct (under_file V1 s1 Hu1) as (b1 & Hb1 & Hok1 & _). pose proof (pr_end _ _ Hp1 b1 Hb1) as Heb.
  pose proof (fo_count32 _ _ _ _ _ _ _ Hok1) as H32.
  destruct (write_loop_full fuel (as_w s1) realfile (upper_of ino) Ho Ha Hi) as (w' & Ew & Fr & Hset).
  { unfold two64, BLOCK_SIZE in *. lia. }
  subst first. destruct (written_under s1 w' b1 Hu1 Hp1 Hb1 Fr Hset) as [Hu2 Hp2].
  eapply (awp_seq _ _ _ (λ a s', a = (n, pos + n) ∧ s' = set_as_w w' s1)).
  { unfold awp, zoom. rewrite Ew. done. }
  intros ? ? [-> ->]. cbn beta iota. rewrite (proj2 (Z.ltb_ge n 0)) by lia.
  apply (meanwhile V2); [done|]. intros s3 Hu3 Hs3.
  pose proof (prepared_settles _ _ _ _ Hu2 Hs3 Hp2) as Hp3.
  destruct (under_file V2 s3 Hu3) as (b3 & Hb3 & Hok3 & _).
  remember (if decide _ then _ else _) as first eqn:Efirst.
  assert (1 ≤ first) as Hf1 by (subst first; case_decide; unfold BLOCK_SIZE; lia).
  eapply awp_get_oi; [done|].
  destruct (async_mark_blocks_spec (Z.to_nat (eb - 1 + 1 - first)) first b3 Hf1 (fo_array _ _ _ _ _ _ _ Hok3))
    as (b4 & Em & Hm).
  apply (awp_lift _ _ b4); [done|]. unfold put_oi. apply awp_set.
  assert (marks first (eb - 1) b3 b4) as Hm'.
  { destruct Hm as [m1 m2 m3 m4 m5]. split; auto. intros j Hj. rewrite m5 by done.
    repeat case_decide; done || lia. }
  cbn. split_and!; [done|by eapply marked_inv|apply Hu3|].
  by rewrite (se_d_inode _ _ _ _ Hs3), <- (se_d_inode _ _ _ _ Hs1).
Qed.

(** ** The whole write *)

(** The writes whose border blocks the code handles: it must find the overlap
    with what a border block waits for, and a write inside one uncopied block
    copies everything behind that block too. *)
Definition inner_fits s : Prop :=
  ∀ b k, as_oi s !! ino = Some b → (if decide (block_start sb < pos) then sb + 1 else sb) ≤ k < eb →
    zget (block_status b) k ≠ Some COPYING.
Definition border_fits s : Prop :=
  if decide (sb = eb ∧ block_start sb < pos) then single_fits s
  else start_fits s ∧ end_fits s ∧ inner_fits s.

Lemma blocks_settle s s' b :
  under V1 de ino s → settles s s' → as_oi s !! ino = Some b →
  ∃ b', as_oi s' !! ino = Some b' ∧ block_count b' = block_count b ∧
    (∀ k, zget (block_status b') k = zget (block_status b) k ∨
       (zget (block_status b) k = Some COPYING ∧ zget (block_status b') k = Some COPIED)) ∧
    (∀ k req, 1 ≤ k ≤ block_count b → zget (block_status b') k = Some COPYING → request s' de k = Some req →
       zget (block_status b) k = Some COPYING ∧ request s de k = Some req).
Proof.
  intros Hu Hs Hb. destruct (se_blocks _ _ _ _ Hs ino b Hb) as (b' & Hb' & Ec & _ & _ & _ & Hmono).
  exists b'. split_and!; auto. intros k req Hk Hst Hq. split.
  - destruct (Hmono k) as [<-|[_ E]]; [done|]. rewrite Hst in E. done.
  - rewrite <- Hq. symmetry. apply (se_requests _ _ _ _ Hs de ino b'); eauto; [apply Hu|lia|by rewrite Hst].
Qed.

Lemma border_settles s s' :
  under V1 de ino s → settles s s' →
  (single_fits s → single_fits s') ∧ (start_fits s → start_fits s') ∧
  (end_fits s → end_fits s') ∧ (inner_fits s → inner_fits s').
Proof.
  intros Hu Hs. destruct (under_file V1 s Hu) as (b & Hb & Hok & _).
  destruct (blocks_settle s s' b Hu Hs Hb) as (b' & Hb' & Ec & Hmono & Hk).
  assert (1 ≤ sb ∧ 1 ≤ eb) as [Hsb Heb] by (unfold BLOCK_SIZE; lia).
  split_and!.
  - intros Hf b2 Hb2 Hst k Hkk. assert (b2 = b') as -> by congruence.
    assert (zget (block_status b) sb = Some UNCOPY) as Hst0.
    { destruct (Hmono sb) as [<-|[_ E]]; [done|]. rewrite Hst in E. done. }
    destruct (Hmono k) as [->|[E _]]; [apply (Hf b Hb Hst0); lia|].
    rewrite (Hf b Hb Hst0) in E by lia. done.
  - intros Hf Hlt b2 req Hb2 Hin Hst Hq. assert (b2 = b') as -> by congruence.
    destruct (Hk sb req ltac:(lia) Hst Hq). apply (Hf Hlt b); auto; lia.
  - intros Hf b2 req Hb2 Hin Hst Hq. assert (b2 = b') as -> by congruence.
    destruct (Hk eb req ltac:(lia) Hst Hq). apply (Hf b); auto; lia.
  - intros Hf b2 k Hb2 Hkk. assert (b2 = b') as -> by congruence.
    destruct (Hmono k) as [->|[E _]]; [by apply Hf|]. by destruct (Hf b k Hb Hkk).
Qed.

(** The section of the first block touches neither the others nor, where the
    write starts with its block, that block. *)
Lemma border_touches s s' j :
  is_Some (as_oi s !! ino) → touches s s' j → j ≠ eb → j < (if decide (block_start sb < pos) then sb + 1 else sb) →
  (end_fits s → end_fits s') ∧ (inner_fits s → inner_fits s').
Proof.
  intros [b Hb] [_ _ _ Hbl Hr] Hje Hj. destruct (Hbl b Hb) as (b' & Hb' & Ec & _ & _ & Hst).
  split.
  - intros Hf b2 req Hb2 Hin. assert (b2 = b') as -> by congruence. rewrite Hst, Hr by done.
    intros. apply (Hf b); auto. lia.
  - intros Hf b2 k Hb2 Hkk. assert (b2 = b') as -> by congruence. rewrite Hst by lia. by apply Hf.
Qed.

Lemma border_opens s s' : opens s s' de ino → is_Some (as_oi s !! ino) → border_fits s → border_fits s'.
Proof.
  intros Ho [b Hb]. destruct (op_blocks _ _ _ _ Ho b Hb) as (b' & Hb' & [E1 E2 _ _]).
  assert (∀ k, request s' de k = request s de k) as Hr
    by (intros k; unfold AsyncInv.request, bucket; by rewrite (op_table _ _ _ _ Ho)).
  unfold border_fits, single_fits, start_fits, end_fits, inner_fits. case_decide.
  - intros Hf b2 Hb2. assert (b2 = b') as -> by congruence. rewrite E1, E2. by apply Hf.
  - intros (Hf1 & Hf2 & Hf3). split_and!; [intros Hlt b2 x Hb2|intros b2 x Hb2..]; assert (b2 = b') as -> by congruence; rewrite ?E1, ?E2, ?Hr; eauto.
Qed.

Local Abbreviation first := (if decide (block_start sb < pos) then sb + 1 else sb).
Local Abbreviation in_blocks s := (∀ b, as_oi s !! ino = Some b → eb ≤ block_count b).
Local Abbreviation done_post s :=
  (λ (res : Z * Z) s', res = (n, pos + n) ∧ ainv s' V3 ∧ as_locks s' = ∅ ∧ as_d_inode s' = as_d_inode s).

Lemma done_post_from (m : act (Z * Z)) s s1 :
  as_d_inode s1 = as_d_inode s → awp m s1 (done_post s1) → awp m s1 (done_post s).
Proof. intros E Hm. eapply awp_mono; [exact Hm|]. cbn. intros res s'. by rewrite E. Qed.

Lemma in_blocks_settles s s' : under V1 de ino s → settles s s' → in_blocks s → in_blocks s'.
Proof.
  intros Hu Hs Hi b' Hb'. destruct (under_file V1 s Hu) as (b & Hb & _).
  destruct (blocks_settle s s' b Hu Hs Hb) as (b2 & Hb2 & Ec & _). assert (b2 = b') as -> by congruence.
  rewrite Ec. by apply Hi.
Qed.

Lemma in_blocks_touches s s' j : is_Some (as_oi s !! ino) → touches s s' j → in_blocks s → in_blocks s'.
Proof.
  intros [b Hb] [_ _ _ Hbl _] Hi b' Hb'. destruct (Hbl b Hb) as (b2 & Hb2 & Ec & _).
  assert (b2 = b') as -> by congruence. rewrite Ec. by apply Hi.
Qed.

Lemma single_write_wp fuel s realfile :
  under V1 de ino s → realfile_of realfile s → in_blocks s → sb = eb → block_start sb < pos → single_fits s →
  awp (others 0;; ret ← single_section hash_min de ino sb;
       if ret <? 0 then mret (ret, pos)
       else async_finish_write others (S fuel) ino realfile ret (sb + 1) (eb - 1) pos d) s (done_post s).
Proof.
  intros Hu Hf Hin Hse Hlt Hfit. apply (meanwhile V1); [done|]. intros s1 Hu1 Hs1.
  destruct (border_settles s s1 Hu Hs1) as (Hsf & _).
  pose proof (in_blocks_settles _ _ Hu Hs1 Hin) as Hin1.
  apply (realfile_frame _ _ _ (se_frame _ _ _ _ Hs1)) in Hf.
  destruct (under_file V1 s1 Hu1) as (b1 & Hb1 & Hok1 & _). pose proof (Hin1 b1 Hb1).
  assert (1 ≤ sb) by (unfold BLOCK_SIZE; lia).
  eapply awp_seq; [eapply (single_section_wp s1 b1); auto; lia|].
  intros ret s2 (-> & Hu2 & Hfr2 & Hd2 & b0 & b2 & Hb0 & Hb2 & Ec2 & Hst2).
  assert (b0 = b1) as -> by congruence. change (0 <? 0) with false. cbn iota.
  assert (sb + 1 = first) as -> by (by rewrite decide_True).
  apply done_post_from; [by rewrite Hd2, (se_d_inode _ _ _ _ Hs1)|]. apply finish_wp; [done| |by eapply realfile_frame]. split; auto.
  - intros b Hb. assert (b2 = b) as -> by congruence. lia.
  - intros k Hk. assert (k = sb) as -> by lia. exists b2, COPIED. split_and!; [done|done|done|].
    intros i Hi Hik _ (_ & Hps & _). rewrite Hik, Hst2 in Hps. done.
  - intros b k _. rewrite decide_True by done. lia.
  - intros b Hb _ _. congruence.
Qed.

Lemma border_write_wp fuel s realfile :
  under V1 de ino s → realfile_of realfile s → in_blocks s → (block_start sb < pos → sb < eb) →
  start_fits s → end_fits s → inner_fits s →
  awp (others 0;;
       '(err, start_part) ← start_section hash_min true de ino sb pos;
       if err <? 0 then mret (err, pos)
       else
         others 1;;
         '(err, end_part) ← end_section hash_min true de ino eb pos n;
         if err <? 0 then mret (err, pos)
         else async_finish_write others (S fuel) ino realfile 0 (sb + start_part) (eb - end_part) pos d)
    s (done_post s).
Proof.
  intros Hu Hf Hin Hse Hf1 Hf2 Hf3. apply (meanwhile V1); [done|]. intros s1 Hu1 Hs1.
  destruct (border_settles s s1 Hu Hs1) as (_ & Hsf1 & Hsf2 & Hsf3).
  pose proof (in_blocks_settles _ _ Hu Hs1 Hin) as Hin1.
  apply (realfile_frame _ _ _ (se_frame _ _ _ _ Hs1)) in Hf.
  destruct (under_file V1 s1 Hu1) as (b1 & Hb1 & _).
  assert (1 ≤ sb ≤ eb) as Hsb by (unfold BLOCK_SIZE; lia).
  pose proof (Hin1 b1 Hb1).
  eapply awp_seq; [eapply (start_section_wp s1 b1); auto|].
  intros [err part] s2 ([= -> ->] & Hu2 & Ht2 & Hw2). change (0 <? 0) with false. cbn iota.
  set (j := if decide (block_start sb < pos) then sb else 0) in *.
  assert (j ≠ eb ∧ j < first) as [Hj1 Hj2] by (subst j; case_decide; lia).
  destruct (border_touches s1 s2 j ltac:(eauto) Ht2 Hj1 Hj2) as [Hsf2' Hsf3'].
  pose proof (in_blocks_touches _ _ j ltac:(eauto) Ht2 Hin1) as Hin2.
  apply (meanwhile V1); [done|]. intros s3 Hu3 Hs3.
  destruct (border_settles s2 s3 Hu2 Hs3) as (_ & _ & He3 & Hi3).
  pose proof (in_blocks_settles _ _ Hu2 Hs3 Hin2) as Hin3.
  destruct (under_file V1 s2 Hu2) as (b2 & Hb2 & _). destruct (under_file V1 s3 Hu3) as (b3 & Hb3 & _).
  assert (pos ≤ block_start eb) as Hpe.
  { destruct (decide (block_start sb < pos)) as [Hlt|]; [specialize (Hse Hlt)|]; unfold block_start, BLOCK_SIZE in *; lia. }
  eapply awp_seq; [eapply (end_section_wp s3 b3); auto|].
  intros [err part] s4 ([= -> ->] & Hu4 & Ht4 & Hw4). change (0 <? 0) with false. cbn iota.
  assert (sb + (if decide (block_start sb < pos) then 1 else 0) = first) as -> by (case_decide; lia).
  apply done_post_from.
  { by rewrite (tc_d_inode _ _ _ _ _ _ Ht4), (se_d_inode _ _ _ _ Hs3), (tc_d_inode _ _ _ _ _ _ Ht2), (se_d_inode _ _ _ _ Hs1). }
  apply finish_wp; [done| |].
  - split; auto.
    + by apply (in_blocks_touches s3 s4 eb ltac:(eauto) Ht4).
    + intros k [->|[-> Hlt]]; [done|]. specialize (Hse Hlt).
      eapply (waits_touches hash_min upper_of lower_of V1); [exact Ht4|lia|].
      eapply (waits_settles hash_min upper_of lower_of V1); [apply Hu2|exact Hs3|by apply Hw2|].
      exists b2. split; [done|]. pose proof (Hin2 b2 Hb2). lia.
    + intros b k Hb Hk. destruct (tc_blocks _ _ _ _ _ _ Ht4 b3 Hb3) as (b4 & Hb4 & _ & _ & _ & E).
      assert (b4 = b) as -> by congruence. rewrite E by lia. apply (Hi3 (Hsf3' (Hsf3 Hf3)) b3 k Hb3 Hk).
    + intros b _ Hlt E. specialize (Hse Hlt). lia.
  - eapply realfile_frame; [|exact Hf]. rewrite (tc_w _ _ _ _ _ _ Ht4), <- (tc_w _ _ _ _ _ _ Ht2).
    apply (se_frame _ _ _ _ Hs3).
Qed.

Lemma async_write_wp fuel s (up lp : path) (realfile : Z) :
  ainv s Vs → as_locks s = ∅ → as_d_inode s !! de = Some ino → paths_ok upper_of lower_of up lp ino s →
  realfile_of realfile s → in_blocks s → border_fits s →
  awp (async_block_write_iter hash_min others (S fuel) true true up lp de realfile pos d) s (done_post s).
Proof.
  intros Hinv Hl Hde Hpath Hf Hin Hfit. destruct (ai_files _ _ _ _ _ Hinv de ino Hde) as (b & Hb & Hok).
  pose proof (Hin b Hb) as Heb. pose proof (fo_count32 _ _ _ _ _ _ _ Hok) as H32.
  assert (1 ≤ sb ≤ eb) as Hsb by (unfold BLOCK_SIZE; lia).
  assert (0 ≤ pos + n < two64 ∧ eb * BLOCK_SIZE < two64 ∧ pos + n < eb * BLOCK_SIZE) as (Hp1 & Hp2 & Hp3)
    by (unfold two64, BLOCK_SIZE in *; lia).
  unfold async_block_write_iter. rewrite !ovl_get_block_spec by (unfold two64, BLOCK_SIZE in *; lia).
  eapply awp_inode_of; [done|].
  eapply awp_seq; [by eapply with_blocks_wp|]. intros e s1 (-> & Hi1 & Hop1 & Ho). change (0 <? 0) with false. cbn iota.
  assert (as_d_inode s1 !! de = Some ino) as Hde1 by (by rewrite (op_d_inode _ _ _ _ Ho)).
  assert (under V1 de ino s1) as Hu.
  { split; auto; [by apply prepare_view|by rewrite (op_locks _ _ _ _ Ho)]. }
  apply (realfile_frame _ _ _ (op_frame _ _ _ _ Ho)) in Hf. apply (border_opens _ _ Ho ltac:(eauto)) in Hfit.
  assert (in_blocks s1) as Hin1.
  { intros b1 Hb1. destruct (op_blocks _ _ _ _ Ho b Hb) as (b' & Hb' & [E _ _ _]).
    assert (b' = b1) as -> by congruence. by rewrite E. }
  apply done_post_from; [by rewrite (op_d_inode _ _ _ _ Ho)|]. apply awp_get. destruct Hf as (Ho1 & Ha & Hi). rewrite Ha. rewrite !block_start_u64, !u64_small by lia.
  assert (realfile_of realfile s1) as Hf by done. unfold border_fits in Hfit.
  destruct (Z.eqb_spec sb eb) as [E|E]; cbn [andb]; [destruct (Z.ltb_spec (block_start sb) pos) as [Hlt|Hge]; cbn [andb]|].
  - rewrite decide_True in Hfit by done. rewrite (proj2 (Z.ltb_lt _ _)) by lia. by apply single_write_wp.
  - rewrite decide_False in Hfit by lia. destruct Hfit as (? & ? & ?). apply border_write_wp; auto. lia.
  - rewrite decide_False in Hfit by lia. destruct Hfit as (? & ? & ?). apply border_write_wp; auto. lia.
Qed.
End writer.

(** ** Checks of a request

    What a write or a read must satisfy for the code to handle it, as tests of
    the state it begins in. *)

Section calls.
Context {W : Type} `{VfsLaws W} `{!VfsReliable W}.
Context (hash_min upper_of lower_of : Z → Z).
Implicit Types (s : astate W) (b : ovl_blocks) (Fs : Z → list byte) (F d : list byte) (ino de k pos : Z).
Local Abbreviation act := (action (astate W)).
Local Abbreviation ainv := (ainv hash_min upper_of lower_of).
Local Abbreviation request := (request hash_min).

Definition has_status b k x : bool := bool_decide (zget (block_status b) k = Some x).
(** What block [k] waits for. *)
Definition waiting s de b k : option block_copy_req :=
  if has_status b k COPYING then request s de k else None.

Definition pieces_test s de b pos (n : Z) : bool :=
  let sb := pos / BLOCK_SIZE + 1 in
  let eb := (pos + n) / BLOCK_SIZE + 1 in
  let first := if block_start sb <? pos then sb + 1 else sb in
  ((pos <=? block_start sb) ||
   match waiting s de b sb with
   | Some req => (req_offset req <=? pos) || (req_end req =? sb * BLOCK_SIZE)
   | None => true
   end) &&
  match waiting s de b eb with
  | Some req => (req_offset req <=? block_start eb) || (pos + n <=? req_offset req) || (pos + n <=? req_end req)
  | None => true
  end &&
  forallb (λ k, negb (has_status b k COPYING)) (seqZ first (eb - first)).

Definition border_test s de b pos (n : Z) : bool :=
  let sb := pos / BLOCK_SIZE + 1 in
  if (sb =? (pos + n) / BLOCK_SIZE + 1) && (block_start sb <? pos) then
    negb (has_status b sb UNCOPY) || forallb (λ k, has_status b k UNCOPY) (seqZ (sb + 1) (block_count b - sb))
  else pieces_test s de b pos n.

Lemma has_status_spec b k x : has_status b k x = true ↔ zget (block_status b) k = Some x.
Proof. apply bool_decide_eq_true. Qed.

Lemma waiting_Some s de b k req :
  zget (block_status b) k = Some COPYING → request s de k = Some req → waiting s de b k = Some req.
Proof. intros Hst Hq. unfold waiting. by rewrite (proj2 (has_status_spec _ _ _) Hst). Qed.

Lemma pieces_test_spec s de ino b pos d :
  as_oi s !! ino = Some b → pieces_test s de b pos (zlen d) = true →
  start_fits hash_min de ino pos s ∧ end_fits hash_min de ino pos d s ∧ inner_fits ino pos d s.
Proof.
  intros Hb [[H1 H2]%andb_true_iff H3]%andb_true_iff. split_and!.
  - intros Hlt b2 req Hb2 _ Hst Hq Hlo. assert (b2 = b) as -> by congruence.
    rewrite (waiting_Some _ _ _ _ _ Hst Hq), !orb_true_iff, !Z.leb_le, Z.eqb_eq in H1. lia.
  - intros b2 req Hb2 _ Hst Hq Hlo. assert (b2 = b) as -> by congruence.
    rewrite (waiting_Some _ _ _ _ _ Hst Hq), !orb_true_iff, !Z.leb_le in H2. lia.
  - intros b2 k Hb2 Hk Hst. assert (b2 = b) as -> by congruence. rewrite forallb_forall in H3.
    specialize (H3 k). rewrite (proj2 (has_status_spec _ _ _) Hst) in H3. cbn in H3. ospecialize (H3 _); [|done].
    apply list_elem_of_In, elem_of_seqZ. destruct (Z.ltb_spec (block_start (pos / BLOCK_SIZE + 1)) pos);
      case_decide; lia.
Qed.

Lemma border_test_spec s de ino b pos d :
  as_oi s !! ino = Some b → border_test s de b pos (zlen d) = true → border_fits hash_min de ino pos d s.
Proof.
  intros Hb. unfold border_test, border_fits.
  destruct (Z.eqb_spec (pos / BLOCK_SIZE + 1) ((pos + zlen d) / BLOCK_SIZE + 1)) as [E|E]; cbn [andb];
    [destruct (Z.ltb_spec (block_start (pos / BLOCK_SIZE + 1)) pos) as [Hlt|Hge]|].
  - rewrite decide_True by done. intros [Hn|Hall]%orb_true_iff b2 Hb2 Hst k Hk; assert (b2 = b) as -> by congruence.
    + apply negb_true_iff in Hn. by rewrite (proj2 (has_status_spec _ _ _) Hst) in Hn.
    + rewrite forallb_forall in Hall. apply has_status_spec, Hall, list_elem_of_In, elem_of_seqZ. lia.
  - rewrite decide_False by lia. by apply pieces_test_spec.
  - rewrite decide_False by lia. by apply pieces_test_spec.
Qed.

(** ** Sequences of requests *)

(** A pread or pwrite of a file, with what the copy thread does meanwhile, or a
    run of the thread of its own. *)
Inductive async_call : Type :=
| CallFile (dentry realfile : Z) (upper_path lower_path : path) (sched : Z → list Z) (op : file_op)
| CallThread (stop : list bool).

Definition run_call (c : async_call) : act (Z * list byte) :=
  match c with
  | CallFile de f up lp sched (PRead pos n) =>
      '(ret, r) ← async_block_read_iter hash_min (copy_thread hash_min sched) (S (Z.to_nat n)) up lp de pos n;
      mret (ret, rd_data r)
  | CallFile de f up lp sched (PWrite pos d) =>
      '(ret, _) ← async_block_write_iter hash_min (copy_thread hash_min sched) 1 true true up lp de f pos d;
      mret (ret, [])
  | CallThread stop => ovl_block_copy hash_min (length stop) stop;; mret (0, [])
  end.

Fixpoint run_calls (cs : list async_call) : act (list (Z * list byte)) :=
  match cs with
  | [] => mret []
  | c :: cs => r ← run_call c; rs ← run_calls cs; mret (r :: rs)
  end.

(** The tests of a request: the paths lead to the two files of the inode. *)
Definition call_fits s Fs (c : async_call) : bool :=
  match c with
  | CallThread _ => true
  | CallFile de f up lp _ op =>
      match as_d_inode s !! de with
      | None => false
      | Some ino =>
          (vfs_dinode (as_w s) (path_ptr up) =? upper_of ino) && (vfs_dinode (as_w s) (path_ptr lp) =? lower_of ino) &&
          match as_oi s !! ino, op with
          | Some b, PRead pos n =>
              (0 <=? pos) && (0 <=? n) && (pos + n <? max_file) &&
              ((pos + n <=? zlen (Fs ino)) || has_status b (block_count b) UNCOPY)
          | Some b, PWrite pos d =>
              vfs_isopen (as_w s) f && negb (vfs_append (as_w s) f) && (vfs_inode (as_w s) f =? upper_of ino) &&
              (0 <=? pos) && (0 <? zlen d) && (pos + zlen d <? block_count b * BLOCK_SIZE) &&
              border_test s de b pos (zlen d)
          | None, _ => false
          end
      end
  end.

(** The contents of the files after a request. *)
Definition call_result s Fs (c : async_call) : Z → list byte :=
  match c with
  | CallFile de _ _ _ _ op =>
      match as_d_inode s !! de with
      | Some ino => λ j, if decide (j = ino) then op_result (Fs ino) op else Fs j
      | None => Fs
      end
  | CallThread _ => Fs
  end.

Fixpoint calls_fit s Fs (cs : list async_call) : bool :=
  match cs with
  | [] => true
  | c :: cs => call_fits s Fs c &&
      match run_call c s with Ret (_, s') => calls_fit s' (call_result s Fs c) cs | _ => true end
  end.

(** The specification: plain files, one for every inode; the thread does
    nothing to them. *)
Inductive files_step (dino : gmap Z Z) : (Z → list byte) → async_call → Z * list byte → (Z → list byte) → Prop :=
| files_call Fs de f up lp sched op r ino F' :
    dino !! de = Some ino → file_step (Fs ino) op r F' →
    files_step dino Fs (CallFile de f up lp sched op) r (λ j, if decide (j = ino) then F' else Fs j)
| files_thread Fs stop : files_step dino Fs (CallThread stop) (0, []) Fs.

Inductive files_steps (dino : gmap Z Z) : (Z → list byte) → list async_call → list (Z * list byte) → (Z → list byte) → Prop :=
| files_nil Fs : files_steps dino Fs [] [] Fs
| files_cons Fs c r Fs' cs rs Fs'' :
    files_step dino Fs c r Fs' → files_steps dino Fs' cs rs Fs'' → files_steps dino Fs (c :: cs) (r :: rs) Fs''.

(** No request is under way. *)
Definition async_ok s Fs : Prop := ainv s (λ i, settled (Fs i)) ∧ as_locks s = ∅.

(** ** Every request *)

Lemma read_call_wp s Fs de f up lp sched pos n :
  async_ok s Fs → call_fits s Fs (CallFile de f up lp sched (PRead pos n)) = true →
  awp (run_call (CallFile de f up lp sched (PRead pos n))) s (λ r s',
    files_step (as_d_inode s) Fs (CallFile de f up lp sched (PRead pos n)) r
      (call_result s Fs (CallFile de f up lp sched (PRead pos n))) ∧
    async_ok s' (call_result s Fs (CallFile de f up lp sched (PRead pos n))) ∧ as_d_inode s' = as_d_inode s).
Proof.
  intros [Hinv Hl] Hfit. cbn [call_fits call_result op_result] in *. destruct (as_d_inode s !! de) as [ino|] eqn:Hde; [|done].
  apply andb_true_iff in Hfit as [[Hup%Z.eqb_eq Hlp%Z.eqb_eq]%andb_true_iff Hfit].
  destruct (as_oi s !! ino) as [b|] eqn:Hb; [|done].
  apply andb_true_iff in Hfit as [[[Hp%Z.leb_le Hn%Z.leb_le]%andb_true_iff Hmax%Z.ltb_lt]%andb_true_iff Hr].
  unfold run_call, async_block_read_iter. apply awp_assoc. eapply awp_inode_of; [done|].
  apply awp_assoc. eapply awp_seq; [by eapply with_blocks_wp|].
  intros e s1 (-> & Hi1 & Hop & Ho). change (0 <? 0) with false. cbn iota.
  assert (underway hash_min upper_of lower_of (λ i, settled (Fs i)) de ino s1) as Hu.
  { split; auto; [by rewrite (op_locks _ _ _ _ Ho)|by rewrite (op_d_inode _ _ _ _ Ho)]. }
  assert (readable_now ino (Fs ino) s1 (ReadSt 0 n pos [])) as Hrd.
  { apply orb_true_iff in Hr as [Hr%Z.leb_le|Hr%has_status_spec]; [by left|right].
    destruct (op_blocks _ _ _ _ Ho b Hb) as (b' & Hb' & [E1 E2 _ _]). exists b'. by rewrite E1, E2. }
  eapply awp_seq; [eapply (async_read_loop_wp hash_min upper_of lower_of _ _ de ino (Fs ino)); eauto; cbn [rd_pos rd_count]; done|].
  intros [ret r] s2 [Hu2 Hs2 (k & [= -> ->] & Hk & HkF & Hk0 & _)]. cbn in *. apply awp_ret. cbn.
  assert (∀ j, (if decide (j = ino) then Fs ino else Fs j) = Fs j) as E by (intros j; case_decide; congruence).
  split_and!.
  - apply (files_call _ _ _ _ _ _ _ _ _ ino); [done|]. constructor; auto.
  - split; [|apply Hu2]. eapply ainv_ext; [|apply Hu2]. intros j. cbn. by rewrite E.
  - by rewrite (se_d_inode _ _ _ _ Hs2), (op_d_inode _ _ _ _ Ho).
Qed.

Lemma write_call_wp s Fs de f up lp sched pos d :
  async_ok s Fs → call_fits s Fs (CallFile de f up lp sched (PWrite pos d)) = true →
  awp (run_call (CallFile de f up lp sched (PWrite pos d))) s (λ r s',
    files_step (as_d_inode s) Fs (CallFile de f up lp sched (PWrite pos d)) r
      (call_result s Fs (CallFile de f up lp sched (PWrite pos d))) ∧
    async_ok s' (call_result s Fs (CallFile de f up lp sched (PWrite pos d))) ∧ as_d_inode s' = as_d_inode s).
Proof.
  intros [Hinv Hl] Hfit. cbn [call_fits call_result op_result] in *. destruct (as_d_inode s !! de) as [ino|] eqn:Hde; [|done].
  apply andb_true_iff in Hfit as [[Hup%Z.eqb_eq Hlp%Z.eqb_eq]%andb_true_iff Hfit].
  destruct (as_oi s !! ino) as [b|] eqn:Hb; [|done].
  apply andb_true_iff in Hfit as [Hfit Hborder].
  apply andb_true_iff in Hfit as [[[[[Hfo Hfa%negb_true_iff]%andb_true_iff Hfi%Z.eqb_eq]%andb_true_iff
    Hp%Z.leb_le]%andb_true_iff Hd%Z.ltb_lt]%andb_true_iff Hin%Z.ltb_lt].
  unfold run_call. eapply awp_seq.
  - eapply (async_write_wp hash_min upper_of lower_of _ (λ i, settled (Fs i)) de ino (Fs ino)); eauto; try done.
    + intros b2 Hb2. assert (b2 = b) as -> by congruence. unfold BLOCK_SIZE in *. lia.
    + by eapply border_test_spec.
  - intros [ret p'] s' ([= -> ->] & Hi & Hl' & Hd'). apply awp_ret. split_and!; [| |done].
    + apply (files_call _ _ _ _ _ _ _ _ _ ino); [done|]. constructor.
    + split; [|done]. eapply ainv_ext; [|exact Hi]. intros j. unfold V3, put_view. by case_decide.
Qed.

Lemma thread_call_wp s Fs stop :
  async_ok s Fs → awp (run_call (CallThread stop)) s (λ r s', r = (0, []) ∧ async_ok s' Fs ∧ as_d_inode s' = as_d_inode s).
Proof.
  intros [Hinv Hl]. unfold run_call.
  eapply awp_seq; [by eapply (ovl_block_copy_wp hash_min upper_of lower_of)|].
  intros [] s' (Hi & Hs & Hl' & _). apply awp_ret. split_and!; [done|by split|apply (se_d_inode _ _ _ _ Hs)].
Qed.

Lemma run_call_wp s Fs c :
  async_ok s Fs → call_fits s Fs c = true →
  awp (run_call c) s (λ r s', files_step (as_d_inode s) Fs c r (call_result s Fs c) ∧
    async_ok s' (call_result s Fs c) ∧ as_d_inode s' = as_d_inode s).
Proof.
  intros Hok Hfit. destruct c as [de f up lp sched [pos n|pos d]|stop].
  - by apply read_call_wp.
  - by apply write_call_wp.
  - eapply awp_mono; [by eapply thread_call_wp|]. intros r s' (-> & Hok' & Ed).
    split_and!; [constructor|done|done].
Qed.

Lemma run_calls_wp cs : ∀ s Fs, async_ok s Fs → calls_fit s Fs cs = true →
  awp (run_calls cs) s (λ rs s', ∃ Fs', files_steps (as_d_inode s) Fs cs rs Fs' ∧ async_ok s' Fs').
Proof.
  induction cs as [|c cs IH]; intros s Fs Hok Hfit; cbn [run_calls calls_fit] in *.
  { exists Fs. split; [constructor|done]. }
  apply andb_true_iff in Hfit as [Hc Hcs]. pose proof (run_call_wp s Fs c Hok Hc) as Hw.
  destruct (awp_run _ _ _ Hw) as (r & s1 & E & Hst & Hok1 & Ed). rewrite E in Hcs.
  unfold awp, mbind, action_bind at 1. rewrite E. specialize (IH s1 _ Hok1 Hcs).
  eapply awp_seq; [exact IH|]. intros rs s2 (Fs' & Hsts & Hok2). apply awp_ret. exists Fs'.
  split; [|done]. rewrite Ed in Hsts. by econstructor.
Qed.

(** ** The beginning

    Copy-up has just made the files: nothing is copied, no request waits and no
    upper file has contents. *)
Record fresh_file s ino b : Prop := {
  ff_size : 0 < zlen (vfs_bytes (as_w s) (lower_of ino)) < max_file;
  ff_size32 : zlen (vfs_bytes (as_w s) (lower_of ino)) ≤ 4294967295 * BLOCK_SIZE;
  ff_upper : vfs_bytes (as_w s) (upper_of ino) = [];
  ff_blocks : (copy_up_init_blocks (zlen (vfs_bytes (as_w s) (lower_of ino))) true (alloc_blocks [])) = (0, b);
}.

Record fresh s : Prop := {
  fr_inj de1 de2 ino : as_d_inode s !! de1 = Some ino → as_d_inode s !! de2 = Some ino → de1 = de2;
  fr_lowers ino1 ino2 : is_Some (as_oi s !! ino1) → is_Some (as_oi s !! ino2) →
    upper_of ino1 ≠ lower_of ino2;
  fr_uppers ino1 ino2 : is_Some (as_oi s !! ino1) → is_Some (as_oi s !! ino2) →
    ino1 ≠ ino2 → upper_of ino1 ≠ upper_of ino2;
  fr_table : as_table s = ∅;
  fr_locks : as_locks s = ∅;
  fr_files de ino : as_d_inode s !! de = Some ino → ∃ b, as_oi s !! ino = Some b ∧ fresh_file s ino b;
}.

(** What the files show then. *)
Definition lower_bytes s : Z → list byte := λ ino, vfs_bytes (as_w s) (lower_of ino).

Lemma fresh_file_ok s rq ino b :
  fresh_file s ino b → (∀ k, rq k = None) →
  file_ok upper_of lower_of (as_w s) rq ino b (settled (lower_bytes s ino)).
Proof.
  intros [Hsz H32 Hup Hinit] Hrq.
  destruct (init_blocks_rel _ (alloc_blocks []) b Hsz H32 eq_refl Hinit) as (_ & [[]] & El & Eu).
  injection Hinit as Hinit.
  assert (∀ k st, zget (block_status b) k = Some st → st = UNCOPY) as Hst.
  { intros k st. rewrite <- Hinit. cbn -[u32 zlen]. unfold zget. case_decide; [|done].
    intros Hk%lookup_replicate. apply Hk. }
  assert (∀ i, 0 ≤ i → i < zlen (vfs_bytes (as_w s) (lower_of ino)) →
    file_src lower_of (as_w s) rq ino b (settled (lower_bytes s ino)) i = false) as Hsrc.
  { intros i Hi Hl. unfold file_src. cbn. rewrite orb_false_r.
    destruct (zget_is_Some (block_status b) (i / BLOCK_SIZE + 1)) as [st Hs]; [unfold BLOCK_SIZE in *; lia|].
    pose proof (Hst _ _ Hs) as ->. rewrite (from_upper_status _ _ _ _ _ UNCOPY eq_refl); [done| |done].
    unfold BLOCK_SIZE in *. lia. }
  split; auto.
  - by left.
  - by left.
  - intros k st _ Hs. left. by eapply Hst.
  - intros k _ Hs. apply Hst in Hs. done.
  - done.
  - intros i Hi _. cbn. destruct (decide (i < zlen (vfs_bytes (as_w s) (lower_of ino)))); [by rewrite Hsrc|].
    rewrite Hup. unfold lower_bytes. assert (zget (vfs_bytes (as_w s) (lower_of ino)) i = None) as -> by (apply zget_None; lia).
    assert (∀ j, zget (@nil byte) j = None) as -> by (intros j; unfold zget; by case_decide). by destruct (file_src _ _ _ _ _ _).
  - intros i Hi _. rewrite Hup. unfold zget. by case_decide.
  - done.
Qed.

Lemma fresh_ok s : fresh s → async_ok s (lower_bytes s).
Proof.
  intros []. split; [|done].
  assert (∀ h, bucket s h = []) as Hb by (intros h; unfold bucket; by rewrite fr_table0).
  split; auto.
  - intros h req. rewrite Hb. by intros ?%elem_of_nil.
  - intros h req. rewrite Hb. by intros ?%elem_of_nil.
  - intros de ino Hde. destruct (fr_files0 de ino Hde) as (b & Hoi & Hf). exists b. split; [done|].
    apply fresh_file_ok; [done|]. intros k. unfold AsyncInv.request. by rewrite Hb.
Qed.


End calls.

(** ** A concrete file *)

Definition demo_hash (k : Z) : Z := k mod 1024.
Definition demo_upper (ino : Z) : Z := 1.
Definition demo_lower (ino : Z) : Z := 2.
Definition demo_path (n : Z) : path := Path 1 (Some (Dentry n "f" 0 None)).
(** Dentry 7 of inode 5, with [n] bytes in the lower file. *)
Definition demo_bytes (n : Z) : list byte := replicate (Z.to_nat n) x61.
Definition demo_state (n : Z) : astate (memfs None) :=
  AState (MemFs {[2 := demo_bytes n]}) {[7 := 5]}
    {[5 := (copy_up_init_blocks n true (alloc_blocks [])).2]} ∅ ∅ [] [].
Definition demo_call (sched : Z → list Z) (op : file_op) : async_call :=
  CallFile 7 1 (demo_path 1) (demo_path 2) sched op.
Definition demo_run (n : Z) (cs : list async_call) : option (list (Z * list byte)) :=
  match run_calls demo_hash cs (demo_state n) with Ret (rs, _) => Some rs | _ => None end.

Lemma demo_fresh n : 0 < n < max_file → n ≤ 4294967295 * BLOCK_SIZE → fresh demo_upper demo_lower (demo_state n).
Proof.
  intros Hn H32. assert (zlen (vfs_bytes (as_w (demo_state n)) 2) = n) as El.
  { change (vfs_bytes _ 2) with (demo_bytes n). unfold demo_bytes, zlen. rewrite length_replicate. lia. }
  assert (∀ i, is_Some (as_oi (demo_state n) !! i) → i = 5) as Hoi.
  { intros i [b Hb]. cbn [demo_state as_oi] in Hb. by apply lookup_singleton_Some in Hb as [<- _]. }
  split; try done.
  - intros de1 de2 ino H1 H2. cbn [demo_state as_d_inode] in H1, H2. apply lookup_singleton_Some in H1 as [<- _]. by apply lookup_singleton_Some in H2 as [<- _].
  - intros i1 i2 ->%Hoi ->%Hoi. done.
  - intros de ino Hde. cbn [demo_state as_d_inode] in Hde. apply lookup_singleton_Some in Hde as [<- <-]. eexists. split; [reflexivity|].
    split; change (demo_lower 5) with 2; rewrite ?El; done.
Qed.

(** A write across two blocks; the thread copies the first one while the bytes
    around it are read, and runs on its own then. *)
Definition demo_calls : list async_call :=
  [demo_call (λ _, []) (PWrite 4090 [x62; x63; x64; x65; x66; x67; x68; x69]);
   demo_call (λ p, if p =? 16 then [1] else []) (PRead 4088 8);
   demo_call (λ _, []) (PWrite 4096 [x70]);
   CallThread [false; false; false; true];
   demo_call (λ _, []) (PRead 4095 6)].


(** The first write of [demo_calls], which queues block 1. *)
Definition demo_written : astate (memfs None) :=
  match run_calls demo_hash (take 1 demo_calls) (demo_state 4104) with Ret (_, s) => s | _ => demo_state 4104 end.


(** ** Where the code does not handle a request

    The tests of a border block look at the two ends of the write only, so they
    do not see a request the write covers on both sides: the bytes it still
    asks for are copied over the new ones. *)
Theorem covered_request_overwrites_write :
  demo_run 8200 [demo_call (λ _, []) (PWrite 4095 [x62; x62]); demo_call (λ _, []) (PWrite 4098 (replicate 4096 x63));
                 demo_call (λ _, []) (PWrite 4095 [x64; x64; x64; x64]); demo_call (λ _, []) (PRead 4095 4)] =
  Some [(2, []); (4096, []); (4, []); (4, [x64; x64; x61; x64])].
Proof. vm_compute. reflexivity. Qed.

(** A write inside one uncopied block copies as many bytes as the lower file has,
    from the start of the block: what was written behind the block is lost. *)
Theorem single_copy_overwrites_tail :
  demo_run 4104 [demo_call (λ _, []) (PWrite 4096 [x62; x62]); demo_call (λ _, []) (PWrite 1 [x63]);
                 demo_call (λ _, []) (PRead 4095 4)] =
  Some [(2, []); (1, []); (4, [x61; x61; x61; x61])].
Proof. vm_compute. reflexivity. Qed.
